(* ===== verification/_CoqProject ===== *)
-Q . S2P
Prelude.v
GoStr.v
Credit.v
Price.v
Ledger.v
EconScheduler.v
Commons.v
CommonsSpec.v
NetIP.v
TrackerTypes.v
CircuitBreaker.v
Whitelist.v
GoFloat.v
GoSort.v
GoCrypto.v
Meter.v
Ml.v
PeerSelect.v
PeerSelectSpec.v
Announce.v
AnnounceLemmas.v
Reaper.v
TrackerSpec.v
TrackerDB.v
Update.v
UpdateSpec.v
Writers.v
Snapshot.v
Bencode.v
Server.v
ServerSpec.v
Udp.v
Heatmap.v
Replica.v
NodeRegistry.v
Placement.v
PlacementSpec.v
SwarmControl.v
SwarmSpec.v
ControlServer.v
ControlSpec.v
SwarmAgent.v
Events.v
EventsSpec.v
Reactions.v
Ctl.v
CtlSpec.v
Domains.v
ConfigFile.v
Shards.v
Program.v
ShardsSpec.v
Helpers.v
HelpersSpec.v
MarkovChain.v
MarkovDb.v
MarkovDbSpec.v
Streams.v
VsDomain.v
VsScheduler.v
VsStore.v
VsStoreSpec.v
VsReconciler.v
VsReconcilerSpec.v
VsApi.v
VsApiSpec.v
VsLocal.v
VsLocalSpec.v
Compute.v
ComputeAgentApi.v
ComputeUserApi.v
ComputeAgent.v
ComputeSpec.v
ComputeRefine.v
ComputeHistory.v
ComputeDemo.v
ComputeConc.v
ComputeAgentSpec.v
ComputeTheorems.v
ComputeLimits.v
