(* ===== verification/Prelude.v ===== *)
(** * Ocelot: a verification development

    Ocelot is a BitTorrent tracker in Go with an economy of compute credits
    beside it, a swarm controller that keeps copies of artifacts on managed
    nodes, a control plane for virtual servers, a compute plane with its agents,
    and a Markov engine beside the tracker.  This development models
    these programs as Rocq functions and proves what their correctness rests
    on.  Names of definitions are the names of the Go functions and types
    where Rocq allows it.

    ** The parts and where they are modelled

    - _Language and libraries_.  [Prelude]: fixed-width integers, sums over maps.
      [GoStr]: strings, decimal text, bytes.  [GoFloat]: float64 on the
      Standard Library's binary64, with Go's portable [math.Log].  [GoSort]: stable
      sorting.  [GoCrypto]: hexadecimal text, SHA-256, HMAC.  [NetIP]: addresses.
    - _Compute commons_ (src/commons).  [Credit]: credit.go, priority.go,
      account.go.  [Price]: resource.go, price.go, workload.go.  [Ledger]:
      db.go, ledger.go.  [EconScheduler]: scheduler.go.  [Commons]:
      commons.go.  [Meter]: meter.go, and what set-up stores of prices, budgets and
      workloads.
    - _Tracker_ (src/tracker).  [TrackerTypes]: types.go, the peers, torrents,
      users and counters.  [Whitelist]: the client whitelist of types.go and
      its trie of optimize.go, admission_policy.go.  [CircuitBreaker]:
      circuit_breaker.go.  [Ml]: src/ml.  [PeerSelect]: optimize.go.
      [Announce]: announce.go, the handler every client calls, which uses all
      of these and the commons.  [Reaper]: reaper.go.  [TrackerDB]:
      the tables of db_sqlite.go and loader.go.  [Update]: update.go.  [Bencode]:
      bencode.go.  [Server]: server.go, which dispatches to [Announce], to
      [Update] and to the admin values.  [Udp]: udp.go, which calls
      [Announce] too.  [Domains]: domain.go, vocab.go, configured_adapter.go.
    - _What keeps the tracker's state_ (src/tracker, src/main.go).  [Writers]:
      buffered_db.go, batch_writer.go, circuit_breaker_db.go, the layers between the
      handlers and the tables.  [Shards]: the monthly files of db_sqlite.go,
      db_maintenance.go, backup.go.  [Snapshot]: snapshot.go.  [ConfigFile]:
      config.go.  [Program]: the lifetimes of the two tracker programs, from a start,
      through requests, passes and reloads, to a shutdown.
    - _Around the tracker_ (src/tracker).  [Events]: events.go, eventbus.go.
      [Reactions]: the subscribers of that bus, the audit log, the hub of browser
      clients and the site callbacks.  [Streams]: health.go, event_bus.go, sse.go.
      [Helpers]: auth.go, errors.go, retry.go, cache.go, pool.go,
      adaptive_thresholds.go, ops_server.go.
    - _Swarm replication_ (src/tracker, src/cmd).  [Heatmap]: demand_heatmap.go.
      [Replica]: replica_class.go, verify_state.go, artifact.go,
      replication_policy.go.  [NodeRegistry]: node_registry.go.  [Placement]:
      locality.go, peer_sort.go.  [SwarmControl]: swarm_controller.go and
      agent_protocol.go.  [ControlServer]: control_server.go,
      control_server_ext.go, agent_heartbeat.go, the API over all of it.
      [SwarmAgent]: cmd/ocelot-agent, with [ControlServer] as its network.
      [Ctl]: cmd/ocelotctl, with [ControlServer] as what answers it.
    - _Virtual servers_ (src/virtualserver).  [VsDomain]: domain.
      [VsScheduler]: scheduler.  [VsStore]: store, with its migrations.  [VsReconciler]:
      reconciler, which drives the store through [VsScheduler].  [VsApi]: api,
      which reads and writes the store.  [VsLocal]: the local storage driver, the
      catalog and the mock runtime, as instances of what the reconciler and the API
      ask for.
    - _Compute plane_ (src/compute, src/cmd/ocelot-cp).  [Compute]: the tables, the
      scheduler and the monitors.  [ComputeAgentApi] and [ComputeUserApi]: the
      handlers, composed to [ServeHTTP].  [ComputeConc]: the statements of handlers and
      monitors, interleaved.  [ComputeAgent]: the agent on a node.
      [ComputeDemo]: a small plane on which the theorems apply.
    - _Markov engine_ (src/markov).  [MarkovChain]: the chains.  [MarkovDb]: the
      tables, the configuration, and the tracker's client.

    A file [XSpec] holds the theorems about the files before it, and a model without one
    ends with its theorems;
    [AnnounceLemmas] holds the lemmas [TrackerSpec] uses; [ComputeSpec] and
    [ComputeRefine] those of [ComputeHistory], [ComputeConc], [ComputeTheorems] and [ComputeLimits].

    ** How state, errors and time are written

    - A handler is a function from the state and the request to the new state
      and the answer.  A record holds the fields of the Go struct; a Go map is
      a [gmap], and since Go leaves the iteration order of a map unspecified, a
      traversal takes the order as an argument, any function that lists the
      bindings.  A query without an order lists rows in such an order too.
    - Integers are [Z]; where a result may leave its width the wrap-around is
      written ([i64], [u32], ...).  Conversions of float64 out of range are
      those of amd64.
    - [None] as a whole result is a run-time panic; errors are values of
      [result], of an [option] or of an inductive type.
    - [time.Now], [rand], [uuid.New] are arguments; a random source that is drawn
      from repeatedly is a function of the number of the draw.  Handlers that read the
      clock more than once have one reading per call, except where the
      difference matters (the ledger, the circuit breaker), where each call
      has its own.
    - A method that holds a mutex for its whole body is one atomic function.
      Announces are sequential: a torrent's peers are values that a handler
      writes back under the torrent's lock.  Where the code reads outside the
      lock it writes under (the circuit breaker, [MarkStale], the stores of the
      virtual server) the two sides are separate steps or separate arguments, and the
      theorems hold for every interleaving.
    - Goroutines that share state are step relations: the event bus with its
      publishers and its dispatcher ([bus_step]), the buffered writer ([buffered_step]),
      the worker pool ([pool_step]), the economy with its settlements and its
      administration ([commons_step]), the lifetime of the program ([lifetime]), in which what an
      announce leaves to a goroutine lands at any later time ([land]).
    - A database statement fails when an argument of the operation says so;
      a transaction that fails leaves the database as it was.  Foreign keys
      are enforced when [fk] says so, because SQLite asks for them per connection.
      The compute plane has one connection, which serialises statements and
      transactions, not handlers: [ComputeConc] interleaves the statements of requests and of the
      passes of scheduler and monitors, and a thread that runs alone does what the handler of
      [ComputeUserApi] or the pass of [Compute] does ([alone_is_run]).  [ComputeHistory] runs
      them one after the other.  A pass of [VsReconciler] runs without other writers.
    - Code outside the repository is an argument: JSON and gob, bcrypt and JSON web
      tokens, the token bucket, unstable sorting, runtime adapters, the network,
      processes and files.  Theorems that rely on such code name what
      they rely on.
    - The directive channel of the swarm controller is a list of at most 256
      actions; a send to a full channel takes the [default] branch.
    - Logging, metrics and traces are left out.

    ** Fuel

    Five functions have fuel.  [ForEachBatch] (TrackerTypes) has one unit per
    binding of the map, and every batch it visits is nonempty.  [bdecode]
    (Bencode) has the length of the text, and every recursive call has
    consumed a byte; [bdecode_text_bencode] shows it is enough for every
    encoded value.  The groups of an IPv6 text (Server) have one unit per
    character.  The blocks of a padded message (GoCrypto) have one unit per word, of
    which a block takes sixteen.  The attempts of a retry (Helpers) have one unit per attempt allowed.
    All other recursion is structural.

    ** What the theorems show

    - _Announce path_ ([TrackerSpec], [AnnounceLemmas], [PeerSelectSpec]):
      swarms and global counters agree after every announce; where the peer
      is filed, what the user is credited, what the answer offers; a refused
      announce changes nothing, and is refused exactly for one of the listed reasons; failing
      databases do not change what clients see.  The shuffle and the reservoir are uniform, the
      selection offers visible peers of other users only, tier by tier.
    - _Persistence_ ([UpdateSpec], [ServerSpec], [Writers], [Program], [ShardsSpec]): over
      whole lifetimes, with restarts in any month, the lists mirror the tables of the current
      file, and a restart in the same month gives the tracker back that was shut down; queued writes arrive once each and in order; what a user
      transferred is kept over months and restarts.
    - _Protocols_ ([ServerSpec], [Udp], [Bencode], [Domains]): authentication of every
      request, canonical bencoding that decodes to what was meant, UDP
      connection ids, the adapter of the BitTorrent vocabulary against the front end.
    - _Events and helpers_ ([EventsSpec], [Reactions], [Streams], [HelpersSpec]): every
      event is delivered to its subscribers in order, [Stop] ends, users are enforced by the last
      flag; which keys and tokens are let through, retries, the cache, the pool and that it
      comes to rest.
    - _Commons_ ([CommonsSpec], [Meter]): statement by statement, the ledger conserves credits
      unless a priority change overwrites a settlement, settles every transaction once and atomically, prices stay in bounds, and storing the defaults changes none.
    - _Swarm replication_ ([Heatmap], [PlacementSpec], [SwarmSpec],
      [ControlSpec], [SwarmAgent], [CtlSpec]): the window of the heat map, the hysteresis of the
      desired count, the greedy cover of failure domains, what one pass of the
      controller does, the fate of silent nodes, that a replica counts as
      verified only after an agent confirmed its hash, over every history of
      requests, ticks and deliveries, and that what an operator types reaches the tracker.
    - _Virtual servers_ ([VsStore], [VsStoreSpec], [VsReconcilerSpec], [VsApiSpec], [VsLocalSpec]):
      migrations recover from any failure; resources are conserved, instances follow their state machine whatever
      was read, a reconciliation pass is a sequence of legal store operations,
      brings services to their desired count, and its phase for failed instances retries or ends
      each by its policy and leaves the others alone, the API serves each request by store operations; volumes do not overlap and
      snapshots restore what they were taken from.
    - _Compute plane_ ([ComputeHistory], [ComputeConc], [ComputeTheorems],
      [ComputeAgentSpec]): between any two statements GPUs and
      workloads are booked once and live workloads are reserved, as long as no workload is
      dispatched while a thread is in the middle of ending it ([late_release_shares_gpu]: the condition is
      needed); nodes are not booked beyond what they have, every write is authenticated; the agent does
      what the plane desires, except for checkpoints.
    - _Markov engine_ ([MarkovChain], [MarkovDbSpec]): chains keep their shape and no
      operation leaves its slices; counts, predictions and candidates come back as they
      were written, the stage of a model is the operator's, assignments end by
      fulfilment or in time.
    - _Where the code does not do what it says_: a reload with eviction locks
      itself out, a charge beyond the budget is not recorded, the reaper's
      counters drift, a shared counter replicates past its maximum, retried
      instances run without a reservation, a cancelled job runs again, a new model keeps
      the stage of the old one, and others, each with its theorem
      next to the positive ones ([ComputeLimits] for the compute plane).

    ** Not modelled

    - Sockets, timers, tickers, signals, flags and the start and stop of goroutines: they only
      run these parts.  Redis, TLS, tracing, logging and metrics: I/O
      or libraries the sources only call.
    - The rate limiter: a cache and a token bucket of other packages.
    - The text of SQL: a query is modelled by its meaning on the tables.  One is left
      out, the summary of the calibration, whose averages the database computes in a way of its own.
    - The engine, the API and the program of src/markov: they do not compile against
      their own chain package, so they have no behaviour.
*)
From Stdlib Require Export ZArith Lia.
From coqutil Require Export Datatypes.RecordSetters.
From stdpp Require Export base sorting numbers strings gmap fin_maps list.
Export DoubleBraceUpdate.
#[global] Arguments constant {_} _ _ /.
#[export] Set Default Goal Selector "!".

Declare Scope go_scope.
Delimit Scope go_scope with go.
#[global] Open Scope Z_scope.

Create HintDb ocelot discriminated.

(** ** Fixed-width integers

    A Go integer of width [w] is a [Z]; every arithmetic operation whose
    result may leave the range is followed by one of the conversions below. *)

Definition wrap_u (w z : Z) : Z := z mod 2 ^ w.
Definition wrap_s (w z : Z) : Z := (z + 2 ^ (w - 1)) mod 2 ^ w - 2 ^ (w - 1).

Definition i64 (z : Z) : Z := wrap_s 64 z.
Definition i32 (z : Z) : Z := wrap_s 32 z.
Definition u64 (z : Z) : Z := wrap_u 64 z.
Definition u32 (z : Z) : Z := wrap_u 32 z.
Definition u16 (z : Z) : Z := wrap_u 16 z.
Definition u8 (z : Z) : Z := wrap_u 8 z.

Definition in_i64 (z : Z) : Prop := - 2 ^ 63 <= z < 2 ^ 63.
Definition in_i32 (z : Z) : Prop := - 2 ^ 31 <= z < 2 ^ 31.
Definition in_u32 (z : Z) : Prop := 0 <= z < 2 ^ 32.
Definition in_u64 (z : Z) : Prop := 0 <= z < 2 ^ 64.

Lemma wrap_s_id (w z : Z) :
  0 < w -> - 2 ^ (w - 1) <= z < 2 ^ (w - 1) -> wrap_s w z = z.
Proof.
  intros Hw Hz. unfold wrap_s.
  assert (2 ^ w = 2 * 2 ^ (w - 1)) as ->.
  { rewrite <- Z.pow_succ_r by lia. f_equal. lia. }
  rewrite Z.mod_small; lia.
Qed.

Lemma wrap_s_range (w z : Z) :
  0 < w -> - 2 ^ (w - 1) <= wrap_s w z < 2 ^ (w - 1).
Proof.
  intros Hw. unfold wrap_s.
  assert (2 ^ w = 2 * 2 ^ (w - 1)) as E.
  { rewrite <- Z.pow_succ_r by lia. f_equal. lia. }
  pose proof (Z.pow_pos_nonneg 2 (w - 1)) as Hp.
  pose proof (Z.mod_pos_bound (z + 2 ^ (w - 1)) (2 ^ w)). lia.
Qed.

(** [wrap_s] is a ring morphism onto the integers modulo [2^w]. *)
Lemma wrap_s_mod (w z : Z) : 0 < w -> wrap_s w z mod 2 ^ w = z mod 2 ^ w.
Proof.
  intros Hw. unfold wrap_s. rewrite Zminus_mod_idemp_l. f_equal. lia.
Qed.

Lemma wrap_s_congr (w a b : Z) :
  a mod 2 ^ w = b mod 2 ^ w -> wrap_s w a = wrap_s w b.
Proof.
  intros E. unfold wrap_s. f_equal.
  rewrite <- Zplus_mod_idemp_l, E, Zplus_mod_idemp_l. done.
Qed.

Lemma i64_id (z : Z) : in_i64 z -> i64 z = z.
Proof. intros [??]. apply wrap_s_id; lia. Qed.
Lemma i64_range (z : Z) : in_i64 (i64 z).
Proof. apply (wrap_s_range 64). lia. Qed.
Lemma i32_id (z : Z) : in_i32 z -> i32 z = z.
Proof. intros [??]. apply wrap_s_id; lia. Qed.
Lemma u32_id (z : Z) : in_u32 z -> u32 z = z.
Proof. intros H. apply Z.mod_small, H. Qed.
Lemma u32_range (z : Z) : in_u32 (u32 z).
Proof. apply Z.mod_pos_bound. lia. Qed.
Lemma u64_id (z : Z) : in_u64 z -> u64 z = z.
Proof. intros H. apply Z.mod_small, H. Qed.

Lemma i64_sub_i64_l (a b : Z) : i64 (i64 a - b) = i64 (a - b).
Proof.
  apply wrap_s_congr. unfold i64.
  rewrite <- Zminus_mod_idemp_l, wrap_s_mod by lia.
  by rewrite Zminus_mod_idemp_l.
Qed.
Lemma i64_add_i64_l (a b : Z) : i64 (i64 a + b) = i64 (a + b).
Proof.
  apply wrap_s_congr. unfold i64.
  rewrite <- Zplus_mod_idemp_l, wrap_s_mod by lia.
  by rewrite Zplus_mod_idemp_l.
Qed.
Lemma i64_i64 (a : Z) : i64 (i64 a) = i64 a.
Proof. apply i64_id, i64_range. Qed.
Lemma u32_add_u32_l (a b : Z) : u32 (u32 a + b) = u32 (a + b).
Proof. unfold u32, wrap_u. apply Zplus_mod_idemp_l. Qed.

#[export] Hint Resolve i64_range u32_range : ocelot.

(** [a / b] on [int64]: a zero divisor panics, [MinInt64 / -1] wraps. *)
Definition go_div (a b : Z) : option Z :=
  if b =? 0 then None else Some (i64 (Z.quot a b)).

(** Truncated division never leaves the range of its dividend. *)
Lemma quot_in_i64 (a b : Z) : 0 < b -> in_i64 a -> in_i64 (Z.quot a b).
Proof.
  intros Hb [Hlo Hhi]. split.
  - destruct (Z.le_ge_cases 0 a) as [Ha|Ha].
    + pose proof (Z.quot_pos a b Ha Hb). lia.
    + pose proof (Z.quot_le_mono a 0 b Hb Ha) as Hm.
      assert (a <= Z.quot a b); [|lia].
      pose proof (Z.quot_rem a b ltac:(lia)).
      pose proof (Z.rem_nonpos a b ltac:(lia) Ha).
      rewrite Z.quot_0_l in Hm by lia. nia.
  - destruct (Z.le_ge_cases 0 a) as [Ha|Ha].
    + assert (Z.quot a b <= a); [|lia].
      rewrite Z.quot_div_nonneg by lia. apply Z.div_le_upper_bound; nia.
    + pose proof (Z.quot_le_mono a 0 b Hb Ha) as Hm.
      rewrite Z.quot_0_l in Hm by lia. lia.
Qed.

Lemma go_div_nonneg (a b : Z) :
  0 <= a < 2 ^ 63 -> 0 < b -> go_div a b = Some (a / b).
Proof.
  intros Ha Hb. unfold go_div. rewrite (proj2 (Z.eqb_neq b 0)) by lia.
  rewrite i64_id by (apply quot_in_i64; unfold in_i64; lia).
  by rewrite Z.quot_div_nonneg by lia.
Qed.

(** Decides the range side conditions of concrete and linear terms. *)
Ltac range := unfold in_i64, in_i32, in_u32, in_u64 in *; lia.

(** Removes conversions whose argument is in range by linear arithmetic. *)
Ltac unwrap :=
  repeat match goal with
  | |- context [i64 ?z] => rewrite (i64_id z) by range
  | |- context [i32 ?z] => rewrite (i32_id z) by range
  | |- context [u32 ?z] => rewrite (u32_id z) by range
  end.

(** ** Results: Go's [(T, error)] returns *)

Inductive result (E A : Type) : Type :=
| Ok (a : A)
| Err (e : E).
Arguments Ok {E A} a.
Arguments Err {E A} e.

Definition is_ok {E A} (r : result E A) : bool :=
  match r with Ok _ => true | Err _ => false end.
Definition is_err {E A} (r : result E A) : bool := negb (is_ok r).

Definition rbind {E A B} (r : result E A) (k : A -> result E B) : result E B :=
  match r with Ok a => k a | Err e => Err e end.

Notation "x <-? e ; k" := (rbind e (fun x => k))
  (at level 100, e at level 200, k at level 200, right associativity) : go_scope.

(** ** Sums of an integer measure over lists and finite maps *)

Definition sumZ {A} (f : A -> Z) (l : list A) : Z :=
  foldr (fun a s => f a + s) 0 l.
Arguments sumZ : simpl never.

Lemma sumZ_nil {A} (f : A -> Z) : sumZ f [] = 0.
Proof. done. Qed.
Lemma sumZ_cons {A} (f : A -> Z) (a : A) (l : list A) :
  sumZ f (a :: l) = f a + sumZ f l.
Proof. done. Qed.
Lemma sumZ_app {A} (f : A -> Z) (l k : list A) :
  sumZ f (l ++ k) = sumZ f l + sumZ f k.
Proof. induction l as [|a l IH]; [done|]. simpl. rewrite !sumZ_cons, IH. lia. Qed.
Lemma sumZ_ext {A} (f g : A -> Z) (l : list A) :
  (forall a, a ∈ l -> f a = g a) -> sumZ f l = sumZ g l.
Proof.
  induction l as [|a l IH]; intros H; [done|].
  rewrite !sumZ_cons, H, IH by set_solver. done.
Qed.
Lemma sumZ_nonneg {A} (f : A -> Z) (l : list A) :
  (forall a, a ∈ l -> 0 <= f a) -> 0 <= sumZ f l.
Proof.
  induction l as [|a l IH]; intros H; [done|]. rewrite sumZ_cons.
  assert (0 <= f a) by (apply H; set_solver).
  assert (0 <= sumZ f l) by (apply IH; set_solver). lia.
Qed.

#[export] Instance sumZ_perm {A} (f : A -> Z) : Proper ((≡ₚ) ==> (=)) (sumZ f).
Proof.
  intros l k H. induction H; rewrite ?sumZ_cons in *; lia.
Qed.

Section map_sum.
Context `{Countable K} {V : Type} (f : V -> Z).

Definition map_sum (m : gmap K V) : Z := sumZ (fun kv => f kv.2) (map_to_list m).

Lemma map_sum_empty : map_sum ∅ = 0.
Proof. unfold map_sum. by rewrite map_to_list_empty. Qed.

Lemma map_sum_insert (m : gmap K V) k v :
  m !! k = None -> map_sum (<[k := v]> m) = f v + map_sum m.
Proof. intros Hk. unfold map_sum. by rewrite map_to_list_insert. Qed.

Lemma map_sum_delete (m : gmap K V) k v :
  m !! k = Some v -> map_sum (delete k m) = map_sum m - f v.
Proof.
  intros Hk. rewrite <- (insert_id m k v) at 2 by done.
  rewrite <- insert_delete_eq, map_sum_insert by apply lookup_delete_eq. lia.
Qed.

Lemma map_sum_update (m : gmap K V) k v v' :
  m !! k = Some v -> map_sum (<[k := v']> m) = map_sum m - f v + f v'.
Proof.
  intros Hk. rewrite <- insert_delete_eq.
  rewrite map_sum_insert by apply lookup_delete_eq.
  rewrite (map_sum_delete m k v Hk). lia.
Qed.
End map_sum.

Lemma map_sum_fmap `{Countable K} {V W} (f : W -> Z) (g : V -> W) (m : gmap K V) :
  map_sum f (g <$> m) = map_sum (fun v => f (g v)) m.
Proof.
  unfold map_sum. rewrite map_to_list_fmap.
  induction (map_to_list m) as [|[k v] l IH]; [done|].
  rewrite fmap_cons, !sumZ_cons, IH. done.
Qed.

(** ** Time

    A [time.Time] is the number of nanoseconds since January 1, year 1 UTC,
    so that the zero [Time] is [0]; a [time.Duration] is a signed 64-bit
    number of nanoseconds. *)

Definition Second : Z := 1000000000.
Definition Minute : Z := 60 * Second.
Definition Hour : Z := 60 * Minute.
Definition unixToInternal : Z := 62135596800 * Second.

Definition TimeIsZero (t : Z) : bool := t =? 0.

(** [t.Sub(u)] saturates at the extreme durations. *)
Definition TimeSub (t u : Z) : Z :=
  Z.max (- 2 ^ 63) (Z.min (2 ^ 63 - 1) (t - u)).

Definition UnixNano (t : Z) : Z := i64 (t - unixToInternal).
