(* ===== verification/GoStr.v ===== *)
(** * Strings, decimal text and bytes of the Go code

    A Go [string] or [[]byte] used as text or as a map key is a Rocq
    [string] (a sequence of bytes).  A [[]byte] that is built or read by
    index (packets, compact peers, IP addresses) is a [list Z] of values in
    [0..255].  This file models the [fmt] and [strconv] decimal conversions
    the sources use, with the lemmas that make the text they produce
    unambiguous. *)
From Stdlib Require Import Ascii String Decimal DecimalString DecimalZ DecimalPos.
From stdpp Require Import base list strings.
From S2P Require Import Prelude.
Open Scope string_scope.
Open Scope Z_scope.

(** ** Decimal output: [%d], [strconv.Itoa], [strconv.FormatInt(_, 10)] *)

Definition dec (z : Z) : string := NilZero.string_of_int (Z.to_int z).

(** [%06d] and the like: zero-pad a non-negative number on the left. *)
Fixpoint zeros (n : nat) : string :=
  match n with O => "" | S n => String "0" (zeros n) end.
Definition dec_pad (w : nat) (z : Z) : string :=
  zeros (w - String.length (dec z)) ++ dec z.

(** ** Decimal input: [strconv.ParseUint], [strconv.ParseInt], [strconv.Atoi]

    [None] stands for any error, syntax or range: no caller tells them apart. *)

Definition ParseUint (s : string) (bits : Z) : option Z :=
  match NilZero.uint_of_string s with
  | Some d => let v := Z.of_uint d in if v <? 2 ^ bits then Some v else None
  | None => None
  end.

Definition parse_digits (s : string) : option Z :=
  Z.of_uint <$> NilZero.uint_of_string s.

Definition ParseInt (s : string) (bits : Z) : option Z :=
  let signed (v : option Z) :=
    match v with
    | Some v => if (- 2 ^ (bits - 1) <=? v) && (v <? 2 ^ (bits - 1)) then Some v else None
    | None => None
    end in
  match s with
  | String "-" r => signed (Z.opp <$> parse_digits r)
  | String "+" r => signed (parse_digits r)
  | _ => signed (parse_digits s)
  end.

Definition Atoi (s : string) : option Z := ParseInt s 64.

(** ** Facts about decimal text *)

Fixpoint str_all (P : ascii -> bool) (s : string) : bool :=
  match s with "" => true | String c r => P c && str_all P r end.

Lemma str_all_app P s t : str_all P (s ++ t) = str_all P s && str_all P t.
Proof. induction s as [|c s IH]; simpl; [done|]. by rewrite IH, andb_assoc. Qed.

Definition is_digit (c : ascii) : bool :=
  (48 <=? Z.of_nat (nat_of_ascii c)) && (Z.of_nat (nat_of_ascii c) <=? 57).
Definition dec_char (c : ascii) : bool := is_digit c || Ascii.eqb c "-".

Lemma uint_digits (d : Decimal.uint) : str_all is_digit (NilEmpty.string_of_uint d) = true.
Proof. induction d; simpl; auto. Qed.

Lemma str_all_impl (P Q : ascii -> bool) s :
  (forall c, P c = true -> Q c = true) -> str_all P s = true -> str_all Q s = true.
Proof.
  intros HPQ. induction s as [|c s IH]; simpl; [done|].
  rewrite !andb_true_iff. intros [??]. auto.
Qed.

Lemma dec_chars (z : Z) : str_all dec_char (dec z) = true.
Proof.
  assert (forall d, str_all dec_char (NilZero.string_of_uint d) = true) as Hu.
  { intros d. apply (str_all_impl is_digit); [unfold dec_char; by intros c ->|].
    destruct d; try apply (uint_digits (_ d)); done. }
  unfold dec, NilZero.string_of_int. destruct (Z.to_int z); simpl; apply Hu.
Qed.

Lemma to_int_nonnil (z : Z) :
  Z.to_int z <> Pos Nil /\ Z.to_int z <> Neg Nil.
Proof.
  destruct z; simpl; split; try done;
    intros [= E]; by apply Unsigned.to_uint_nonnil in E.
Qed.

Lemma dec_inj (a b : Z) : dec a = dec b -> a = b.
Proof.
  unfold dec. intros E.
  destruct (to_int_nonnil a), (to_int_nonnil b).
  apply (f_equal NilZero.int_of_string) in E.
  rewrite !NilZero.isi in E by done. injection E as E.
  rewrite <- (DecimalZ.of_to a), <- (DecimalZ.of_to b). by rewrite E.
Qed.

Lemma string_of_uint_head (d : Decimal.uint) c r :
  NilZero.string_of_uint d = String c r -> is_digit c = true.
Proof.
  assert (str_all is_digit (NilZero.string_of_uint d) = true) as Hd.
  { destruct d; try apply (uint_digits (_ d)); done. }
  intros E. rewrite E in Hd. simpl in Hd. by apply andb_true_iff in Hd as [??].
Qed.

(** Round trip: what [%d] prints, [ParseInt] reads back. *)
Lemma ParseInt_dec (z : Z) : in_i64 z -> ParseInt (dec z) 64 = Some z.
Proof.
  intros [Hlo Hhi]. unfold ParseInt, dec, NilZero.string_of_int.
  assert ((- 2 ^ (64 - 1) <=? z) && (z <? 2 ^ (64 - 1)) = true) as Hr by lia.
  pose proof (DecimalZ.of_to z) as Hz.
  destruct (to_int_nonnil z) as [Hp Hn].
  destruct (Z.to_int z) as [d|d]; simpl.
  - assert (parse_digits (NilZero.string_of_uint d) = Some z) as Hpd.
    { unfold parse_digits. rewrite NilZero.usu by congruence. simpl. by f_equal. }
    destruct (NilZero.string_of_uint d) as [|c r] eqn:E.
    { by destruct d. }
    pose proof (string_of_uint_head _ _ _ E) as Hc.
    rewrite Hpd. destruct c as [[] [] [] [] [] [] [] []]; try done; by rewrite Hr.
  - assert (parse_digits (NilZero.string_of_uint d) = Some (- z)) as Hpd.
    { unfold parse_digits. rewrite NilZero.usu by congruence. simpl. f_equal.
      rewrite <- Hz. simpl. lia. }
    rewrite Hpd. simpl. replace (- - z) with z by lia. by rewrite Hr.
Qed.

(** Splitting at the first occurrence of a separator is unambiguous. *)
Lemma sep_inj (c : ascii) (s s' t t' : string) :
  str_all (fun x => negb (Ascii.eqb x c)) s = true ->
  str_all (fun x => negb (Ascii.eqb x c)) s' = true ->
  s ++ String c t = s' ++ String c t' -> s = s' /\ t = t'.
Proof.
  revert s'. induction s as [|a s IH]; intros [|b s'] Hs Hs' E; simpl in *.
  - by injection E.
  - injection E as <- _. by rewrite Ascii.eqb_refl in Hs'.
  - injection E as -> _. by rewrite Ascii.eqb_refl in Hs.
  - injection E as -> E. apply andb_true_iff in Hs as [_ Hs], Hs' as [_ Hs'].
    destruct (IH s' Hs Hs' E) as [-> ->]. done.
Qed.

Lemma dec_no_colon (z : Z) : str_all (fun x => negb (Ascii.eqb x ":")) (dec z) = true.
Proof.
  apply (str_all_impl dec_char); [|apply dec_chars].
  intros [[] [] [] [] [] [] [] []]; done.
Qed.

Lemma append_inj_l (p s t : string) : p ++ s = p ++ t -> s = t.
Proof. induction p as [|c p IH]; simpl; [done|]. intros [= E]. auto. Qed.

(** ** Prefixes and suffixes *)

(** [strings.HasSuffix] *)
Definition HasSuffix (s suf : string) : bool :=
  (String.length suf <=? String.length s)%nat &&
  String.eqb (String.substring (String.length s - String.length suf) (String.length suf) s) suf.

Lemma append_cons c (s t : string) : String c s ++ t = String c (s ++ t).
Proof. done. Qed.

Lemma append_nil_l (t : string) : "" ++ t = t.
Proof. done. Qed.

Lemma append_assoc (s t u : string) : (s ++ t) ++ u = s ++ (t ++ u).
Proof. induction s as [|c s IH]; [done|]. rewrite ?append_cons. cbn. by rewrite IH. Qed.

Lemma append_nil_r (s : string) : s ++ "" = s.
Proof. induction s as [|c s IH]; [done|]. rewrite append_cons. by rewrite IH. Qed.

Lemma substring_app_l (s t : string) : String.substring 0 (String.length s) (s ++ t) = s.
Proof. induction s as [|c s IH]; [by destruct t|]. rewrite append_cons. cbn. by rewrite IH. Qed.

Lemma substring_app_r (s t : string) : String.substring (String.length s) (String.length t) (s ++ t) = t.
Proof.
  induction s as [|c s IH]; [|rewrite append_cons; exact IH].
  rewrite append_nil_l. induction t as [|c t IH]; [done|]. cbn in *. by rewrite IH.
Qed.

Lemma length_append (s t : string) : String.length (s ++ t) = (String.length s + String.length t)%nat.
Proof. induction s as [|c s IH]; [done|]. rewrite ?append_cons. cbn. by rewrite IH. Qed.

Lemma cut_at (n : nat) (s : string) :
  (n <= String.length s)%nat -> s = String.substring 0 n s ++ String.substring n (String.length s - n) s.
Proof.
  revert s. induction n as [|n IH]; intros s Hn.
  - rewrite Nat.sub_0_r. assert (String.substring 0 0 s = "") as -> by (by destruct s). rewrite append_nil_l.
    symmetry. clear Hn. induction s as [|c s IH]; [done|]. cbn. by rewrite IH.
  - destruct s as [|c s]; [cbn in Hn; lia|]. cbn in Hn |- *. rewrite append_cons. f_equal. apply IH. lia.
Qed.

Lemma HasSuffix_spec s suf : HasSuffix s suf = true <-> exists q, s = q ++ suf.
Proof.
  unfold HasSuffix. rewrite andb_true_iff, Nat.leb_le, String.eqb_eq. split.
  - intros [Hl E]. exists (String.substring 0 (String.length s - String.length suf) s).
    rewrite (cut_at (String.length s - String.length suf) s) at 1 by lia.
    replace (String.length s - (String.length s - String.length suf))%nat with (String.length suf) by lia. by rewrite E.
  - intros [q ->]. rewrite length_append. split; [lia|].
    replace (String.length q + String.length suf - String.length suf)%nat with (String.length q) by lia. apply substring_app_r.
Qed.

Lemma prefix_spec p t : String.prefix p t = true <-> exists r, t = p ++ r.
Proof.
  revert t. induction p as [|c p IH]; intros t; [split; [by exists t|by destruct t]|].
  destruct t as [|c' t]; cbn; [split; [done|by intros [r ?]]|].
  destruct (Ascii.ascii_dec c c') as [->|Hc].
  - rewrite IH. split; intros [r Hr]; exists r; rewrite ?append_cons in *; congruence.
  - split; [done|]. intros [r Hr]. rewrite append_cons in Hr. congruence.
Qed.

(** [strings.Split] at one character; [acc] is the part being read. *)
Fixpoint split_on (c : ascii) (s : string) (acc : string) : list string :=
  match s with
  | "" => [acc]
  | String a r => if Ascii.eqb a c then acc :: split_on c r "" else split_on c r (acc ++ String a "")
  end.

Lemma split_on_without c s acc : str_all (fun x => negb (Ascii.eqb x c)) s = true -> split_on c s acc = [acc ++ s].
Proof.
  revert acc. induction s as [|a s IH]; intros acc; [by rewrite append_nil_r|]. cbn [str_all split_on]. intros [Ha Hs]%andb_true_iff.
  apply negb_true_iff in Ha. rewrite Ha, IH by done. by rewrite append_assoc.
Qed.

(** ** Bytes *)

Definition is_byte (b : Z) : Prop := 0 <= b < 256.
Definition byte_list (l : list Z) : Prop := Forall is_byte l.
Definition byte_ascii (b : Z) : ascii := ascii_of_nat (Z.to_nat (u8 b)).
Definition ascii_byte (c : ascii) : Z := Z.of_nat (nat_of_ascii c).

Definition bytes_of_string (s : string) : list Z := ascii_byte <$> list_ascii_of_string s.
Definition string_of_bytes (l : list Z) : string :=
  string_of_list_ascii (byte_ascii <$> l).

Lemma ascii_byte_range c : is_byte (ascii_byte c).
Proof. unfold is_byte, ascii_byte. pose proof (nat_ascii_bounded c). lia. Qed.

Lemma byte_ascii_byte c : byte_ascii (ascii_byte c) = c.
Proof.
  unfold byte_ascii, u8, wrap_u. pose proof (ascii_byte_range c) as [??].
  rewrite Z.mod_small by (change (2 ^ 8) with 256; lia).
  unfold ascii_byte. rewrite Nat2Z.id. apply ascii_nat_embedding.
Qed.

Lemma ascii_byte_ascii b : is_byte b -> ascii_byte (byte_ascii b) = b.
Proof.
  intros [??]. unfold byte_ascii, ascii_byte, u8, wrap_u.
  rewrite Z.mod_small by (change (2 ^ 8) with 256; lia).
  rewrite nat_ascii_embedding by lia. lia.
Qed.

Lemma string_of_bytes_of_string s : string_of_bytes (bytes_of_string s) = s.
Proof.
  unfold string_of_bytes, bytes_of_string. rewrite <- list_fmap_compose.
  rewrite <- (string_of_list_ascii_of_string s) at 2. f_equal.
  induction (list_ascii_of_string s) as [|c l IH]; [done|].
  rewrite fmap_cons, IH. simpl. by rewrite byte_ascii_byte.
Qed.

Lemma bytes_of_string_of_bytes l :
  Forall is_byte l -> bytes_of_string (string_of_bytes l) = l.
Proof.
  intros Hl. unfold string_of_bytes, bytes_of_string.
  rewrite list_ascii_of_string_of_list_ascii, <- list_fmap_compose.
  induction Hl as [|b l Hb _ IH]; [done|].
  rewrite fmap_cons, IH. simpl. by rewrite ascii_byte_ascii.
Qed.
