(* ===== verification/Credit.v ===== *)
(** * Compute credits, priorities, accounts and budgets
    (commons/credit.go, commons/priority.go, commons/account.go)

    Credits are 64-bit fixed-point integers.  The operators below keep every
    intermediate wrap-around of the Go code; a run-time panic is [None]. *)
From Stdlib Require Import String.
From S2P Require Import Prelude GoStr.
Open Scope string_scope.
Open Scope Z_scope.

(** ** Operations of [ComputeCredit] *)

Definition CreditScale : Z := 1000000.

Definition FromCC (cc : Z) : Z := i64 (cc * CreditScale).
Definition FromMilliCC (mcc : Z) : Z := Z.quot (i64 (mcc * CreditScale)) 1000.
Definition WholeCC (c : Z) : Z := Z.quot c CreditScale.
Definition MilliCC (c : Z) : Z := Z.quot (i64 (c * 1000)) CreditScale.
Definition Raw (c : Z) : Z := c.
Definition Add (c other : Z) : Z := i64 (c + other).
Definition Sub (c other : Z) : Z := i64 (c - other).
Definition Neg (c : Z) : Z := i64 (- c).
Definition IsPositive (c : Z) : bool := 0 <? c.
Definition IsNegative (c : Z) : bool := c <? 0.
Definition IsZero (c : Z) : bool := c =? 0.

Definition MulFrac (c num denom : Z) : option Z :=
  if denom =? 0 then None
  else if (num =? 0) || (c =? 0) then Some 0
  else
    let v := c in
    let q := i64 (Z.quot v denom) in
    let r := Z.rem v denom in
    Some (i64 (i64 (q * num) + i64 (Z.quot (i64 (r * num)) denom))).

Definition MulMillis (c millis : Z) : option Z := MulFrac c millis 1000.

Definition CreditString (c : Z) : string :=
  let whole := Z.quot c CreditScale in
  let frac := Z.rem c CreditScale in
  let frac := if frac <? 0 then - frac else frac in
  let sign := if (c <? 0) && (whole =? 0) then "-" else "" in
  sign ++ dec whole ++ "." ++ dec_pad 6 frac ++ " CC".

Definition MaxCredit : Z := 9200000 * CreditScale.
Definition MinCredit : Z := -9200000 * CreditScale.

Definition Clamp (c min max : Z) : Z :=
  if c <? min then min else if c >? max then max else c.

(** ** Priority classes: a Go [int], so values outside 0..3 exist *)

Definition P0Critical : Z := 0.
Definition P1Guaranteed : Z := 1.
Definition P2Standard : Z := 2.
Definition P3Opportunistic : Z := 3.

Definition PriorityString (pc : Z) : string :=
  if pc =? P0Critical then "P0_CRITICAL"
  else if pc =? P1Guaranteed then "P1_GUARANTEED"
  else if pc =? P2Standard then "P2_STANDARD"
  else if pc =? P3Opportunistic then "P3_OPPORTUNISTIC"
  else "P?(" ++ dec pc ++ ")".

Definition IsProtected (pc : Z) : bool := (pc =? P0Critical) || (pc =? P1Guaranteed).
Definition IsValid (pc : Z) : bool := (P0Critical <=? pc) && (pc <=? P3Opportunistic).
Definition Outranks (pc other : Z) : bool := pc <? other.

(** ** Accounts and budgets *)

Record Account := mkAccount {
  acc_UserID : Z;
  acc_Balance : Z;
  acc_Allocated : Z;
  acc_Reserved : Z;
  acc_Reputation : Z;
  acc_PriorityClass : Z;
  acc_CreatedAt : Z;
  acc_UpdatedAt : Z
}.

Definition Available (a : Account) : Z :=
  let avail := i64 (acc_Balance a - acc_Reserved a) in
  if avail <? 0 then 0 else avail.

Definition CanAfford (a : Account) (cost : Z) : bool :=
  if IsProtected (acc_PriorityClass a) then true else cost <=? Available a.

Record Budget := mkBudget {
  bud_ID : Z;
  bud_UserID : Z;
  bud_TorrentID : option Z;
  bud_MaxCredits : Z;
  bud_Consumed : Z;
  bud_Deadline : option Z
}.

Definition Remaining (b : Budget) : Z :=
  let remaining := i64 (bud_MaxCredits b - bud_Consumed b) in
  if remaining <? 0 then 0 else remaining.
Definition IsExhausted (b : Budget) : bool := bud_MaxCredits b <=? bud_Consumed b.
Definition CanAccept (b : Budget) (cost : Z) : bool :=
  i64 (bud_Consumed b + cost) <=? bud_MaxCredits b.

(** The two rejections of [CheckAllocation], with the fields they carry. *)
Inductive AllocError :=
| ErrBudgetExhausted (user : Z) (torrent : option Z) (requested remaining : Z)
| ErrInsufficientBalance (user : Z) (required available : Z).

Definition ReputationDefault : Z := 5000.
Definition ReputationMax : Z := 10000.
Definition ReputationMin : Z := 0.

Definition ReputationDiscount (reputation : Z) : Z :=
  let reputation := if reputation <? 0 then 0 else reputation in
  let reputation := if reputation >? ReputationMax then ReputationMax else reputation in
  i64 (1200 - Z.quot (i64 (reputation * 400)) ReputationMax).

(** ** Shared lemmas *)

Lemma Clamp_bounds (c lo hi : Z) : lo <= hi -> lo <= Clamp c lo hi <= hi.
Proof. unfold Clamp. intros. destruct (Z.ltb_spec c lo), (Z.gtb_spec c hi); lia. Qed.

Lemma Clamp_id (c lo hi : Z) : lo <= c <= hi -> Clamp c lo hi = c.
Proof. unfold Clamp. intros. destruct (Z.ltb_spec c lo), (Z.gtb_spec c hi); lia. Qed.

Lemma Clamp_mono (c c' lo hi : Z) :
  lo <= hi -> c <= c' -> Clamp c lo hi <= Clamp c' lo hi.
Proof.
  unfold Clamp. intros.
  destruct (Z.ltb_spec c lo), (Z.gtb_spec c hi), (Z.ltb_spec c' lo), (Z.gtb_spec c' hi); lia.
Qed.

(** The split quotient computes the truncated product exactly when the only
    product it forms on the remainder, and the result, fit 64 bits. *)
Lemma quot_split (v num denom : Z) :
  0 < denom ->
  Z.quot v denom * num + Z.quot (Z.rem v denom * num) denom = Z.quot (v * num) denom.
Proof.
  intros Hd.
  assert (v * num = Z.rem v denom * num + Z.quot v denom * num * denom) as ->.
  { pose proof (Z.quot_rem v denom ltac:(lia)). nia. }
  rewrite Z.quot_add; [lia|lia|].
  pose proof (Z.quot_rem v denom ltac:(lia)) as E.
  pose proof (Z.rem_bound_abs v denom ltac:(lia)).
  pose proof (Z.rem_sign_mul v denom ltac:(lia)).
  assert (0 <= Z.rem v denom * Z.quot v denom).
  { destruct (Z.le_ge_cases 0 v) as [Hv|Hv].
    - pose proof (Z.quot_pos v denom Hv Hd). pose proof (Z.rem_nonneg v denom ltac:(lia) Hv). nia.
    - pose proof (Z.rem_nonpos v denom ltac:(lia) Hv).
      assert (Z.quot v denom <= 0); [|nia].
      pose proof (Z.quot_pos (- v) denom ltac:(lia) Hd) as Hq.
      rewrite Z.quot_opp_l in Hq by lia. lia. }
  nia.
Qed.

Lemma MulFrac_eq (c num denom : Z) :
  in_i64 c -> 0 < denom -> in_i64 (Z.rem c denom * num) ->
  MulFrac c num denom = Some (i64 (Z.quot (c * num) denom)).
Proof.
  intros Hc Hd Hr. unfold MulFrac.
  rewrite (proj2 (Z.eqb_neq denom 0)) by lia.
  destruct ((num =? 0) || (c =? 0)) eqn:Hz.
  { assert (c * num = 0) as -> by lia. rewrite Z.quot_0_l by lia. done. }
  rewrite (i64_id (Z.quot c denom)) by (by apply quot_in_i64).
  rewrite (i64_id (Z.rem c denom * num)) by done.
  rewrite (i64_id (Z.quot _ denom)) by (by apply quot_in_i64).
  by rewrite i64_add_i64_l, quot_split.
Qed.

(** For the non-negative values the economy uses, one product bound suffices. *)
Lemma MulFrac_nonneg (c num denom : Z) :
  0 <= c -> 0 <= num -> 0 < denom -> c * num < 2 ^ 63 -> c < 2 ^ 63 ->
  MulFrac c num denom = Some (c * num / denom).
Proof.
  intros Hc Hn Hd Hp Hm.
  assert (0 <= Z.rem c denom <= c) as [Hr0 Hrc].
  { split; [by apply Z.rem_nonneg; lia|]. rewrite Z.rem_mod_nonneg by lia.
    apply Z.mod_le; lia. }
  rewrite MulFrac_eq; [|range|done|split; nia].
  rewrite Z.quot_div_nonneg by nia. rewrite i64_id; [done|].
  assert (0 <= c * num / denom <= c * num); [|range].
  split; [apply Z.div_pos; nia|apply Z.div_le_upper_bound; nia].
Qed.
