(* ===== verification/Price.v ===== *)
(** * Resource prices with scarcity (commons/resource.go, commons/price.go,
    commons/workload.go)

    A [ResourceType] is a Go string; a price table is a finite map from
    resource types to base, floor and ceiling prices plus two scarcity
    parameters.  Swarm sizes are Go [int]s. *)
From Stdlib Require Import String.
From S2P Require Import Prelude GoStr Credit.
Open Scope string_scope.
Open Scope Z_scope.

(** ** Resource types and default prices *)

Definition ResourceUpload : string := "upload".
Definition ResourceDownload : string := "download".
Definition ResourceSeeding : string := "seeding".
Definition ResourceStorage : string := "storage".
Definition ResourceNetwork : string := "network".

Definition AllResourceTypes : list string :=
  [ResourceUpload; ResourceDownload; ResourceSeeding; ResourceStorage; ResourceNetwork].

Definition ResourceGB : Z := 2 ^ 30.
Definition ResourceHour : Z := 3600.

Definition DefaultBasePrices : gmap string Z :=
  {[ ResourceUpload := FromCC 10; ResourceDownload := FromCC 50;
     ResourceSeeding := FromCC 5; ResourceStorage := FromCC 2;
     ResourceNetwork := FromCC 20 ]}.

Definition DefaultMinPrices : gmap string Z :=
  {[ ResourceUpload := FromCC 5; ResourceDownload := FromCC 10;
     ResourceSeeding := FromCC 1; ResourceStorage := FromCC 1;
     ResourceNetwork := FromCC 5 ]}.

Definition DefaultMaxPrices : gmap string Z :=
  {[ ResourceUpload := FromCC 100; ResourceDownload := FromCC 500;
     ResourceSeeding := FromCC 50; ResourceStorage := FromCC 20;
     ResourceNetwork := FromCC 200 ]}.

Definition DefaultStartingBalance : Z := 1000 * CreditScale.
Definition DefaultOpportunisticBalance : Z := 100 * CreditScale.

(** ** The price table *)

Record ResourcePrice := mkPrice { rp_Base : Z; rp_Min : Z; rp_Max : Z }.

Record PriceTable := mkPriceTable {
  pt_Prices : gmap string ResourcePrice;
  pt_ScarcityFactor : Z;
  pt_MaxScarcityMultiplier : Z
}.

(** A missing key of a Go map reads as the zero value. *)
Definition zget (m : gmap string Z) (k : string) : Z := default 0 (m !! k).

Definition DefaultPriceTable : PriceTable :=
  {| pt_Prices :=
       foldl (fun prices rt =>
                <[rt := mkPrice (zget DefaultBasePrices rt) (zget DefaultMinPrices rt)
                          (zget DefaultMaxPrices rt)]> prices)
             ∅ AllResourceTypes;
     pt_ScarcityFactor := 2000;
     pt_MaxScarcityMultiplier := 3000 |}.

Definition scarcityMultiplierMillis (pt : PriceTable) (seeders leechers : Z) : option Z :=
  let total := i64 (i64 (seeders + leechers) + 1) in
  util ← go_div (i64 (leechers * 1000)) total;
  let denominator := i64 (1000 - util) in
  let denominator := if denominator <=? 0 then 1 else denominator in
  scaled ← go_div (i64 (pt_ScarcityFactor pt * util)) denominator;
  let rawMult := i64 (1000 + scaled) in
  let max := pt_MaxScarcityMultiplier pt in
  let max := if max <=? 1000 then 3000 else max in
  let rawMult := if rawMult >? max then max else rawMult in
  Some (if rawMult <? 1000 then 1000 else rawMult).

Definition Effective (pt : PriceTable) (rt : string) (seeders leechers : Z) : option Z :=
  match pt_Prices pt !! rt with
  | None => Some 0
  | Some rp =>
      mult ← scarcityMultiplierMillis pt seeders leechers;
      effective ← MulMillis (rp_Base rp) mult;
      Some (Clamp effective (rp_Min rp) (rp_Max rp))
  end.

Definition EffectiveForUpload (pt : PriceTable) (seeders leechers : Z) : option Z :=
  Effective pt ResourceUpload seeders leechers.
Definition EffectiveForDownload (pt : PriceTable) (seeders leechers : Z) : option Z :=
  Effective pt ResourceDownload seeders leechers.
Definition EffectiveForSeeding (pt : PriceTable) (seeders leechers : Z) : option Z :=
  Effective pt ResourceSeeding seeders leechers.

Definition ChargeForDownload (pt : PriceTable) (downloadBytes seeders leechers : Z) : option Z :=
  if downloadBytes <=? 0 then Some 0
  else
    pricePerGB ← EffectiveForDownload pt seeders leechers;
    MulFrac pricePerGB downloadBytes ResourceGB.

Definition CreditForUpload (pt : PriceTable) (uploadBytes seeders leechers : Z) : option Z :=
  if uploadBytes <=? 0 then Some 0
  else
    pricePerGB ← EffectiveForUpload pt seeders leechers;
    MulFrac pricePerGB uploadBytes ResourceGB.

Definition CreditForSeeding (pt : PriceTable)
    (seedBytes durationSec seeders leechers : Z) : option Z :=
  if (seedBytes <=? 0) || (durationSec <=? 0) then Some 0
  else
    pricePerGBHour ← EffectiveForSeeding pt seeders leechers;
    let gbHours := Z.quot (i64 (Z.quot seedBytes ResourceGB * durationSec)) ResourceHour in
    if gbHours <=? 0 then
      part ← MulFrac pricePerGBHour seedBytes ResourceGB;
      MulFrac part durationSec ResourceHour
    else MulFrac pricePerGBHour gbHours 1.

(** ** Workload economics *)

Definition OptMinimizeCost : Z := 0.
Definition OptMinimizeCompletionTime : Z := 1.

(** [we_MaxResourcePrice = None] is the nil map. *)
Record WorkloadEconomics := mkWE {
  we_AccountUserID : Z;
  we_MaxTotalCredits : Z;
  we_PriorityClass : Z;
  we_Deadline : Z;
  we_Preemptible : bool;
  we_MaxResourcePrice : option (gmap string Z);
  we_Optimization : Z
}.

Definition DefaultWorkloadEconomics (accountUserID : Z) : WorkloadEconomics :=
  {| we_AccountUserID := accountUserID;
     we_MaxTotalCredits := 0;
     we_PriorityClass := P2Standard;
     we_Deadline := 0;
     we_Preemptible := true;
     we_MaxResourcePrice := Some {[ ResourceDownload := FromCC 200 ]};
     we_Optimization := OptMinimizeCost |}.

Definition EffectivePriority (we : WorkloadEconomics) : Z :=
  if negb (IsValid (we_PriorityClass we)) then P2Standard else we_PriorityClass we.

Definition WouldAcceptPrice (we : WorkloadEconomics) (rt : string) (price : Z) : bool :=
  match we_MaxResourcePrice we ≫= lookup rt with
  | None => true
  | Some cap => if cap <=? 0 then true else price <=? cap
  end.

(** ** Lemmas *)

(** The range of swarm sizes and scarcity parameters in which no
    intermediate product of the scarcity formula leaves 64 bits. *)
Definition swarm_size (n : Z) : Prop := 0 <= n <= 2 ^ 40.
Definition table_ok (pt : PriceTable) : Prop :=
  0 <= pt_ScarcityFactor pt <= 2 ^ 40 /\ 1000 < pt_MaxScarcityMultiplier pt <= 2 ^ 20 /\
  map_Forall (fun _ rp => 0 <= rp_Min rp <= rp_Max rp /\ rp_Max rp < 2 ^ 40 /\
                          0 <= rp_Base rp < 2 ^ 40) (pt_Prices pt).

#[export] Instance table_ok_dec pt : Decision (table_ok pt).
Proof. unfold table_ok. apply _. Defined.

(** The mathematical scarcity curve, without wrap-around. *)
Definition util (seeders leechers : Z) : Z := leechers * 1000 / (seeders + leechers + 1).
Definition curve (pt : PriceTable) (seeders leechers : Z) : Z :=
  let u := util seeders leechers in
  Z.min (pt_MaxScarcityMultiplier pt) (1000 + pt_ScarcityFactor pt * u / (1000 - u)).

Lemma util_range s l : 0 <= s -> 0 <= l -> 0 <= util s l <= 999.
Proof.
  intros. unfold util. split; [apply Z.div_pos; lia|].
  apply Z.lt_succ_r, Z.div_lt_upper_bound; lia.
Qed.

Lemma util_mono s l l' : 0 <= s -> 0 <= l <= l' -> util s l <= util s l'.
Proof.
  intros Hs Hl. unfold util. apply Z.div_le_lower_bound; [lia|].
  pose proof (util_range s l Hs ltac:(lia)) as Hu. unfold util in Hu.
  pose proof (Z.mul_div_le (l * 1000) (s + l + 1) ltac:(lia)). nia.
Qed.

Lemma util_anti s s' l : 0 <= s <= s' -> 0 <= l -> util s' l <= util s l.
Proof.
  intros Hs Hl. unfold util. apply Z.div_le_compat_l; lia.
Qed.

Lemma curve_util_mono (f u u' : Z) :
  0 <= f -> 0 <= u <= u' -> u' <= 999 -> f * u / (1000 - u) <= f * u' / (1000 - u').
Proof.
  intros Hf Hu Hu'. apply Z.div_le_lower_bound; [lia|].
  pose proof (Z.mul_div_le (f * u) (1000 - u) ltac:(lia)).
  assert (0 <= f * u / (1000 - u)) by (apply Z.div_pos; nia). nia.
Qed.

Lemma scarcity_curve pt s l :
  table_ok pt -> swarm_size s -> swarm_size l ->
  scarcityMultiplierMillis pt s l = Some (curve pt s l).
Proof.
  intros (Hf & Hm & _) [Hs Hs'] [Hl Hl']. unfold scarcityMultiplierMillis, curve.
  pose proof (util_range s l Hs Hl) as Hu.
  unwrap. rewrite go_div_nonneg by lia. fold (util s l). simpl.
  set (u := util s l) in *. set (f := pt_ScarcityFactor pt) in *.
  assert (0 <= f * u <= 2 ^ 40 * 999) as Hfu by nia.
  unwrap. rewrite (proj2 (Z.leb_gt (1000 - u) 0)) by lia.
  rewrite go_div_nonneg by lia.
  assert (0 <= f * u / (1000 - u) <= f * u) as Hq.
  { split; [apply Z.div_pos; lia|apply Z.div_le_upper_bound; nia]. }
  set (q := f * u / (1000 - u)) in *. simpl. unwrap.
  rewrite (proj2 (Z.leb_gt (pt_MaxScarcityMultiplier pt) 1000)) by lia.
  f_equal. destruct (Z.gtb_spec (1000 + q) (pt_MaxScarcityMultiplier pt)).
  - rewrite (proj2 (Z.ltb_ge _ 1000)); lia.
  - rewrite (proj2 (Z.ltb_ge _ 1000)); lia.
Qed.

Lemma curve_bounds pt s l :
  table_ok pt -> swarm_size s -> swarm_size l ->
  1000 <= curve pt s l <= pt_MaxScarcityMultiplier pt.
Proof.
  intros (Hf & Hm & _) [Hs _] [Hl _]. unfold curve.
  pose proof (util_range s l Hs Hl).
  assert (0 <= pt_ScarcityFactor pt * util s l / (1000 - util s l)).
  { apply Z.div_pos; nia. }
  lia.
Qed.

Lemma curve_mono_leechers pt s l l' :
  table_ok pt -> 0 <= s -> 0 <= l <= l' -> curve pt s l <= curve pt s l'.
Proof.
  intros (Hf & Hm & _) Hs Hl. unfold curve.
  pose proof (util_mono s l l' Hs Hl). pose proof (util_range s l Hs ltac:(lia)).
  pose proof (util_range s l' Hs ltac:(lia)).
  pose proof (curve_util_mono (pt_ScarcityFactor pt) (util s l) (util s l')).
  lia.
Qed.

Lemma curve_anti_seeders pt s s' l :
  table_ok pt -> 0 <= s <= s' -> 0 <= l -> curve pt s' l <= curve pt s l.
Proof.
  intros (Hf & Hm & _) Hs Hl. unfold curve.
  pose proof (util_anti s s' l Hs Hl). pose proof (util_range s l ltac:(lia) Hl).
  pose proof (util_range s' l ltac:(lia) Hl).
  pose proof (curve_util_mono (pt_ScarcityFactor pt) (util s' l) (util s l)).
  lia.
Qed.

(** In a well-formed table the effective price is the clamped curve. *)
Definition price_at (rp : ResourcePrice) (mult : Z) : Z :=
  Clamp (rp_Base rp * mult / 1000) (rp_Min rp) (rp_Max rp).

Lemma Effective_eq pt rt rp s l :
  table_ok pt -> swarm_size s -> swarm_size l -> pt_Prices pt !! rt = Some rp ->
  Effective pt rt s l = Some (price_at rp (curve pt s l)).
Proof.
  intros Hok Hs Hl Hrp. unfold Effective. rewrite Hrp, scarcity_curve by done.
  pose proof (curve_bounds pt s l Hok Hs Hl) as Hc.
  destruct Hok as (Hf & Hm & Hp). destruct (Hp _ _ Hrp) as (? & ? & ?).
  simpl. unfold MulMillis. rewrite MulFrac_nonneg; [done|lia|lia|lia|nia|lia].
Qed.

Lemma price_at_bounds rp mult :
  rp_Min rp <= rp_Max rp -> rp_Min rp <= price_at rp mult <= rp_Max rp.
Proof. apply Clamp_bounds. Qed.

Lemma price_at_mono rp m m' :
  rp_Min rp <= rp_Max rp -> 0 <= rp_Base rp -> m <= m' -> price_at rp m <= price_at rp m'.
Proof.
  intros. apply Clamp_mono; [done|]. apply Z.div_le_mono; nia.
Qed.
