(* ===== verification/Ledger.v ===== *)
(** * The commons database and the settlement ledger
    (commons/db.go, commons/ledger.go)

    The SQLite tables of the commons are a record of finite maps and lists.
    Every SQL statement may fail: an operation takes a predicate telling
    which of its statements do, and a transaction that does not commit
    leaves the database as it was.  [time.Now] is a clock, a function of the
    position of the call inside the operation. *)
From Stdlib Require Import String.
From S2P Require Import Prelude GoStr Credit Price.
Open Scope string_scope.
Open Scope Z_scope.

(** ** Tables *)

Record LedgerEntry := mkEntry {
  le_ID : Z;
  le_TxnID : string;
  le_AccountID : Z;
  le_TorrentID : Z;
  le_ResourceType : string;
  le_Quantity : Z;
  le_UnitPrice : Z;
  le_Charge : Z;
  le_BalanceBefore : Z;
  le_BalanceAfter : Z;
  le_AllocReason : string;
  le_CreatedAt : Z
}.

Record Reservation := mkReservation {
  rs_ID : string;
  rs_UserID : Z;
  rs_TorrentID : Z;
  rs_ResourceType : string;
  rs_Quantity : Z;
  rs_CreditHold : Z;
  rs_ExpiresAt : Z;
  rs_Status : string;
  rs_CreatedAt : Z
}.

Record PriceRow := mkPriceRow {
  pr_ResourceType : string;
  pr_Base : Z; pr_Min : Z; pr_Max : Z;
  pr_ScarcityFactor : Z; pr_MaxScarcityMult : Z;
  pr_UpdatedAt : Z
}.

Record DB := mkDB {
  db_accounts : gmap Z Account;
  db_budgets : list Budget;
  db_budget_seq : Z;              (* AUTOINCREMENT counter of commons_budgets *)
  db_ledger : list LedgerEntry;   (* in insertion order; rows are never deleted *)
  db_reservations : list Reservation;
  db_prices : list PriceRow
}.

Definition emptyDB : DB := mkDB ∅ [] 0 [] [] [].

Definition set_accounts (m : gmap Z Account) (db : DB) : DB :=
  mkDB m (db_budgets db) (db_budget_seq db) (db_ledger db) (db_reservations db) (db_prices db).
Definition set_budgets (bs : list Budget) (db : DB) : DB :=
  mkDB (db_accounts db) bs (db_budget_seq db) (db_ledger db) (db_reservations db) (db_prices db).
Definition set_ledger (l : list LedgerEntry) (db : DB) : DB :=
  mkDB (db_accounts db) (db_budgets db) (db_budget_seq db) l (db_reservations db) (db_prices db).
Definition set_reservations (rs : list Reservation) (db : DB) : DB :=
  mkDB (db_accounts db) (db_budgets db) (db_budget_seq db) (db_ledger db) rs (db_prices db).

Definition with_balance (balance now : Z) (a : Account) : Account :=
  mkAccount (acc_UserID a) balance (acc_Allocated a) (acc_Reserved a) (acc_Reputation a)
    (acc_PriorityClass a) (acc_CreatedAt a) now.

(** ** Accounts *)

Definition LoadAccount (fail : bool) (db : DB) (userID : Z) : result unit (option Account) :=
  if fail then Err tt else Ok (db_accounts db !! userID).

(** INSERT ... ON CONFLICT DO UPDATE keeps the creation time of an old row. *)
Definition UpsertAccount (fail : bool) (db : DB) (a : Account) : DB * result unit unit :=
  if fail then (db, Err tt)
  else
    let row :=
      match db_accounts db !! acc_UserID a with
      | None => a
      | Some old =>
          mkAccount (acc_UserID a) (acc_Balance a) (acc_Allocated a) (acc_Reserved a)
            (acc_Reputation a) (acc_PriorityClass a) (acc_CreatedAt old) (acc_UpdatedAt a)
      end in
    (set_accounts (<[acc_UserID a := row]> (db_accounts db)) db, Ok tt).

(** ** Settlement *)

Definition ReasonDownload : string := "download_charge".
Definition ReasonUploadCredit : string := "upload_credit".

Record SettleResult := mkSettleResult {
  sr_TxnID : string;
  sr_BalanceBefore : Z;
  sr_BalanceAfter : Z;
  sr_Charge : Z;
  sr_WasIdempotent : bool
}.

(** The SQL statements of [Settle], in program order; the failing one is
    also the error the function returns. *)
Inductive settle_step :=
| StBegin | StFetch | StCreate | StInsert | StRows | StUpdate | StBudget | StCommit.

#[export] Instance settle_step_eq_dec : EqDecision settle_step.
Proof. solve_decision. Defined.

Record Env := mkEnv {
  env_fails : settle_step -> bool;   (* which statements fail *)
  env_clock : nat -> Z;              (* Unix time at the n-th call of time.Now *)
  env_fresh : string                 (* what newTxnID returns *)
}.

Definition txn_known (txnID : string) (l : list LedgerEntry) : bool :=
  existsb (fun e => String.eqb (le_TxnID e) txnID) l.

Definition new_account (accountID now : Z) : Account :=
  mkAccount accountID DefaultStartingBalance DefaultStartingBalance 0 ReputationDefault
    P2Standard now now.

(** UPDATE commons_budgets SET consumed = consumed + charge WHERE ... *)
Definition consume_budget (accountID torrentID charge : Z) (b : Budget) : Budget :=
  if (bud_UserID b =? accountID) &&
     bool_decide (bud_TorrentID b = Some torrentID) &&
     (charge <=? bud_MaxCredits b - bud_Consumed b)
  then mkBudget (bud_ID b) (bud_UserID b) (bud_TorrentID b) (bud_MaxCredits b)
         (bud_Consumed b + charge) (bud_Deadline b)
  else b.

Definition Settle (env : Env) (db : DB) (accountID torrentID : Z) (rt : string)
    (quantity unitPrice charge : Z) (reason txnID : string)
    : DB * result settle_step SettleResult :=
  let fails := env_fails env in
  let txnID := if String.eqb txnID "" then env_fresh env else txnID in
  if fails StBegin then (db, Err StBegin)
  else if fails StFetch then (db, Err StFetch)
  else
    let fetched :=
      match db_accounts db !! accountID with
      | Some a => Some (db, acc_Balance a)
      | None =>
          if fails StCreate then None
          else
            let acct := new_account accountID (env_clock env 0) in
            Some (set_accounts (<[accountID := acct]> (db_accounts db)) db,
                  DefaultStartingBalance)
      end in
    match fetched with
    | None => (db, Err StCreate)
    | Some (db1, balanceBefore) =>
        let balanceAfter := i64 (balanceBefore - charge) in
        if fails StInsert then (db, Err StInsert)
        else if fails StRows then (db, Err StRows)
        else if txn_known txnID (db_ledger db1) then
          if fails StCommit then (db, Err StCommit)
          else (db1, Ok (mkSettleResult txnID balanceBefore balanceBefore charge true))
        else
          let entry :=
            mkEntry (Z.of_nat (List.length (db_ledger db1)) + 1) txnID accountID torrentID rt
              quantity unitPrice charge balanceBefore balanceAfter reason (env_clock env 1) in
          let db2 := set_ledger ((db_ledger db1 ++ [entry])%list) db1 in
          if fails StUpdate then (db, Err StUpdate)
          else
            let db3 :=
              set_accounts (alter (with_balance balanceAfter (env_clock env 2)) accountID
                              (db_accounts db2)) db2 in
            let db4 :=
              if (0 <? charge) && (0 <? torrentID) && negb (fails StBudget)
              then set_budgets (consume_budget accountID torrentID charge <$> db_budgets db3) db3
              else db3 in
            if fails StCommit then (db, Err StCommit)
            else (db4, Ok (mkSettleResult txnID balanceBefore balanceAfter charge false))
    end.

Definition CheckBalance (fail : bool) (db : DB) (accountID : Z) : result unit Z :=
  if fail then Err tt
  else match db_accounts db !! accountID with
       | None => Ok 0
       | Some a => Ok (acc_Balance a)
       end.

(** SELECT MIN(max_credits - consumed): no matching row gives NULL. *)
Definition min_list (l : list Z) : option Z :=
  match l with [] => None | x :: r => Some (foldl Z.min x r) end.

Definition budget_applies (accountID torrentID now : Z) (b : Budget) : bool :=
  (bud_UserID b =? accountID) &&
  match bud_TorrentID b with None => true | Some t => t =? torrentID end &&
  match bud_Deadline b with None => true | Some d => now <? d end.

Definition CheckBudgetAvailable (fail : bool) (now : Z) (db : DB)
    (accountID torrentID : Z) : result unit Z :=
  if fail then Err tt
  else
    match min_list ((fun b => bud_MaxCredits b - bud_Consumed b) <$>
                    filter (fun b => budget_applies accountID torrentID now b = true)
                           (db_budgets db)) with
    | None => Ok MaxCredit
    | Some remaining => if remaining <? 0 then Ok 0 else Ok remaining
    end.

(** ORDER BY created_at DESC, id DESC *)
Definition ledger_newer (e1 e2 : LedgerEntry) : Prop :=
  le_CreatedAt e2 < le_CreatedAt e1 \/
  (le_CreatedAt e1 = le_CreatedAt e2 /\ le_ID e2 <= le_ID e1).

#[export] Instance ledger_newer_dec : RelDecision ledger_newer.
Proof. intros e1 e2. unfold ledger_newer. apply _. Defined.

Definition QueryLedger (fail : bool) (db : DB) (accountID limit : Z)
    : result unit (list LedgerEntry) :=
  let limit := if limit <=? 0 then 50 else limit in
  if fail then Err tt
  else Ok (take (Z.to_nat limit)
             (merge_sort ledger_newer
                (filter (fun e => le_AccountID e = accountID) (db_ledger db)))).

(** ** Reservations *)

Inductive expire_step :=
| ExBegin | ExQuery | ExScan | ExRows | ExUpdate (id : string) | ExRelease (id : string) | ExCommit.

Definition expired_active (now : Z) (r : Reservation) : bool :=
  String.eqb (rs_Status r) "active" && (rs_ExpiresAt r <=? now).

Definition mark_expired (id : string) (r : Reservation) : Reservation :=
  if String.eqb (rs_ID r) id
  then mkReservation (rs_ID r) (rs_UserID r) (rs_TorrentID r) (rs_ResourceType r)
         (rs_Quantity r) (rs_CreditHold r) (rs_ExpiresAt r) "expired" (rs_CreatedAt r)
  else r.

Definition release_hold (hold now : Z) (a : Account) : Account :=
  mkAccount (acc_UserID a) (acc_Balance a) (acc_Allocated a)
    (Z.max 0 (acc_Reserved a - hold)) (acc_Reputation a) (acc_PriorityClass a)
    (acc_CreatedAt a) now.

Fixpoint expire_all (fails : expire_step -> bool) (now : Z) (db : DB)
    (expired : list Reservation) : result expire_step DB :=
  match expired with
  | [] => Ok db
  | r :: rest =>
      if fails (ExUpdate (rs_ID r)) then Err (ExUpdate (rs_ID r))
      else
        let db1 := set_reservations (mark_expired (rs_ID r) <$> db_reservations db) db in
        if fails (ExRelease (rs_ID r)) then Err (ExRelease (rs_ID r))
        else
          let db2 := set_accounts (alter (release_hold (rs_CreditHold r) now) (rs_UserID r)
                                     (db_accounts db1)) db1 in
          expire_all fails now db2 rest
  end.

Definition ExpireReservations (fails : expire_step -> bool) (now : Z) (db : DB)
    : DB * result expire_step Z :=
  if fails ExBegin then (db, Err ExBegin)
  else if fails ExQuery then (db, Err ExQuery)
  else if fails ExScan then (db, Err ExScan)
  else if fails ExRows then (db, Err ExRows)
  else
    let expired := filter (fun r => expired_active now r = true) (db_reservations db) in
    match expire_all fails now db expired with
    | Err e => (db, Err e)
    | Ok db' => if fails ExCommit then (db, Err ExCommit)
                else (db', Ok (Z.of_nat (List.length expired)))
    end.

(** ** Prices *)

(** The last row read supplies the scarcity parameters; resources without a
    row get the default price. *)
Definition LoadPriceTable (fail : bool) (db : DB) : result unit PriceTable :=
  if fail then Err tt
  else
    let pt :=
      foldl (fun pt r =>
               mkPriceTable (<[pr_ResourceType r := mkPrice (pr_Base r) (pr_Min r) (pr_Max r)]>
                               (pt_Prices pt))
                 (pr_ScarcityFactor r) (pr_MaxScarcityMult r))
            (mkPriceTable ∅ 2000 3000) (db_prices db) in
    Ok (mkPriceTable (pt_Prices pt ∪ pt_Prices DefaultPriceTable)
          (pt_ScarcityFactor pt) (pt_MaxScarcityMultiplier pt)).

(** ** Lemmas on settlement *)

Section settlement.
Context (env : Env) (db : DB) (accountID torrentID : Z) (rt : string)
        (quantity unitPrice charge : Z) (reason txnID : string).

Definition txn_key : string := if String.eqb txnID "" then env_fresh env else txnID.

(** The account row is created on first use. *)
Definition opened : DB * Z :=
  match db_accounts db !! accountID with
  | Some a => (db, acc_Balance a)
  | None => (set_accounts (<[accountID := new_account accountID (env_clock env 0)]>
                             (db_accounts db)) db, DefaultStartingBalance)
  end.

Definition posted_entry : LedgerEntry :=
  mkEntry (Z.of_nat (List.length (db_ledger db)) + 1) txn_key accountID torrentID rt
    quantity unitPrice charge opened.2 (i64 (opened.2 - charge)) reason (env_clock env 1).

(** What a fresh settlement leaves in the database. *)
Definition posted : DB :=
  mkDB (alter (with_balance (i64 (opened.2 - charge)) (env_clock env 2)) accountID
          (db_accounts opened.1))
       (if (0 <? charge) && (0 <? torrentID) && negb (env_fails env StBudget)
        then consume_budget accountID torrentID charge <$> db_budgets db
        else db_budgets db)
       (db_budget_seq db) ((db_ledger db ++ [posted_entry])%list)
       (db_reservations db) (db_prices db).

Lemma opened_ledger : db_ledger opened.1 = db_ledger db.
Proof. unfold opened. by destruct (db_accounts db !! accountID). Qed.

Lemma opened_lookup :
  exists a, db_accounts opened.1 !! accountID = Some a /\ acc_Balance a = opened.2.
Proof.
  unfold opened. destruct (db_accounts db !! accountID) as [a|] eqn:E; simpl.
  - by exists a.
  - eexists. split; [apply lookup_insert_eq|done].
Qed.

Lemma opened_other u :
  u <> accountID -> db_accounts opened.1 !! u = db_accounts db !! u.
Proof.
  intros Hu. unfold opened. destruct (db_accounts db !! accountID); simpl; [done|].
  by apply lookup_insert_ne.
Qed.

Lemma Settle_cases :
  (exists st, env_fails env st = true /\
     Settle env db accountID torrentID rt quantity unitPrice charge reason txnID
     = (db, Err st)) \/
  (txn_known txn_key (db_ledger db) = true /\
     Settle env db accountID torrentID rt quantity unitPrice charge reason txnID
     = (opened.1, Ok (mkSettleResult txn_key opened.2 opened.2 charge true))) \/
  (txn_known txn_key (db_ledger db) = false /\
     Settle env db accountID torrentID rt quantity unitPrice charge reason txnID
     = (posted, Ok (mkSettleResult txn_key opened.2 (i64 (opened.2 - charge)) charge false))).
Proof.
  unfold Settle, posted, posted_entry, opened. fold txn_key.
  destruct (env_fails env StBegin) eqn:?; [left; by exists StBegin|].
  destruct (env_fails env StFetch) eqn:?; [left; by exists StFetch|].
  assert (forall m, db_ledger (set_accounts m db) = db_ledger db) as Hl by done.
  destruct (db_accounts db !! accountID) as [a|] eqn:Ha.
  2: destruct (env_fails env StCreate) eqn:?; [left; by exists StCreate|].
  all: rewrite ?Hl;
    destruct (env_fails env StInsert) eqn:?; [left; by exists StInsert|];
    destruct (env_fails env StRows) eqn:?; [left; by exists StRows|];
    destruct (txn_known txn_key (db_ledger db)) eqn:?;
    (destruct (env_fails env StUpdate) eqn:?;
     destruct (env_fails env StCommit) eqn:?);
    first [by right; left | by left; exists StUpdate | by left; exists StCommit | idtac];
    right; right; split; try done; by destruct (_ && _).
Qed.

(** A settlement none of whose statements fail succeeds. *)
Lemma Settle_total :
  (forall st, st <> StBudget -> env_fails env st = false) ->
  exists r,
    (Settle env db accountID torrentID rt quantity unitPrice charge reason txnID).2 = Ok r.
Proof.
  intros Hok. destruct Settle_cases as [(st & Hst & E)|[[_ E]|[_ E]]];
    try (rewrite E; eauto).
  destruct (decide (st = StBudget)) as [->|Hne].
  2: { by rewrite Hok in Hst. }
  exfalso. revert E. unfold Settle.
  rewrite !Hok by done. simpl.
  destruct (db_accounts db !! accountID); simpl;
    rewrite ?Hok by done; simpl; by destruct (txn_known _ _).
Qed.
End settlement.

Lemma txn_known_in (t : string) (l : list LedgerEntry) :
  txn_known t l = true <-> t ∈ le_TxnID <$> l.
Proof.
  unfold txn_known. rewrite existsb_exists, list_elem_of_fmap.
  split.
  - intros (e & He & Heq%String.eqb_eq). exists e. by rewrite list_elem_of_In.
  - intros (e & -> & He). exists e. rewrite <- list_elem_of_In. by rewrite String.eqb_refl.
Qed.

(** ** The ledger invariant *)

Definition entries_of (u : Z) (l : list LedgerEntry) : list LedgerEntry :=
  filter (fun e => le_AccountID e = u) l.

(** The entries of one account form a chain of balances from [start] to [final]. *)
Fixpoint chain (start : Z) (es : list LedgerEntry) (final : Z) : Prop :=
  match es with
  | [] => start = final
  | e :: r => le_BalanceBefore e = start /\
              le_BalanceAfter e = i64 (start - le_Charge e) /\
              chain (le_BalanceAfter e) r final
  end.

Definition ledger_inv (db : DB) : Prop :=
  NoDup (le_TxnID <$> db_ledger db) /\
  (forall u a, db_accounts db !! u = Some a ->
     chain DefaultStartingBalance (entries_of u (db_ledger db)) (acc_Balance a)) /\
  (forall u, db_accounts db !! u = None -> entries_of u (db_ledger db) = []).

Lemma chain_snoc s es f e :
  chain s es f -> le_BalanceBefore e = f -> le_BalanceAfter e = i64 (f - le_Charge e) ->
  chain s ((es ++ [e])%list) (le_BalanceAfter e).
Proof.
  revert s. induction es as [|x es IH]; intros s; simpl; [naive_solver|].
  intros (? & ? & ?) ??. eauto.
Qed.

(** The final balance is the opening balance less the charges, in 64 bits. *)
Lemma chain_sum s es f :
  in_i64 s -> chain s es f -> f = i64 (s - sumZ le_Charge es).
Proof.
  revert s. induction es as [|e es IH]; intros s Hs; simpl.
  - intros <-. by rewrite sumZ_nil, Z.sub_0_r, i64_id.
  - intros (_ & E & Hc). rewrite E in Hc. apply IH in Hc; [|apply i64_range].
    rewrite sumZ_cons, Hc, i64_sub_i64_l. f_equal. lia.
Qed.

Lemma entries_of_snoc u l e :
  entries_of u ((l ++ [e])%list) =
  (entries_of u l ++ (if decide (le_AccountID e = u) then [e] else []))%list.
Proof.
  unfold entries_of. rewrite filter_app. f_equal.
Qed.

Section settlement_inv.
Context (env : Env) (db : DB) (accountID torrentID : Z) (rt : string)
        (quantity unitPrice charge : Z) (reason txnID : string).
Hypothesis Hinv : ledger_inv db.

Lemma opened_chain :
  chain DefaultStartingBalance (entries_of accountID (db_ledger db))
    (opened env db accountID).2.
Proof.
  destruct Hinv as (_ & Hb & Hn). unfold opened.
  destruct (db_accounts db !! accountID) as [a|] eqn:E; simpl; [by apply Hb|].
  by rewrite Hn.
Qed.

Lemma opened_inv : ledger_inv (opened env db accountID).1.
Proof.
  destruct Hinv as (Hd & Hb & Hn). split; [|split].
  - by rewrite opened_ledger.
  - intros u a Ha. rewrite opened_ledger.
    destruct (decide (u = accountID)) as [->|Hne].
    + destruct (opened_lookup env db accountID) as (a' & Ha' & Hbal).
      rewrite Ha in Ha'. injection Ha' as <-. rewrite Hbal. apply opened_chain.
    + rewrite opened_other in Ha by done. by apply Hb.
  - intros u Hu. rewrite opened_ledger. apply Hn.
    destruct (decide (u = accountID)) as [->|Hne]; [|by rewrite <- (opened_other env db accountID)].
    destruct (opened_lookup env db accountID) as (a' & Ha' & _). congruence.
Qed.

Lemma posted_inv :
  txn_known (txn_key env txnID) (db_ledger db) = false ->
  ledger_inv (posted env db accountID torrentID rt quantity unitPrice charge reason txnID).
Proof.
  intros Hfresh. destruct Hinv as (Hd & Hb & Hn).
  destruct (opened_lookup env db accountID) as (a' & Ha' & Hbal').
  split; [|split]; unfold posted; cbn [db_ledger db_accounts].
  - rewrite fmap_app, NoDup_app. split; [done|]. split; [|apply NoDup_singleton].
    intros t Ht Ht'. apply list_elem_of_singleton in Ht' as ->.
    apply txn_known_in in Ht. simpl in Ht. congruence.
  - intros u a Ha. rewrite entries_of_snoc. simpl.
    destruct (decide (accountID = u)) as [<-|Hne].
    + rewrite lookup_alter_eq, Ha' in Ha. injection Ha as <-.
      apply (chain_snoc _ _ _ (posted_entry env db accountID torrentID rt quantity
               unitPrice charge reason txnID) opened_chain); done.
    + rewrite lookup_alter_ne, opened_other in Ha by done.
      rewrite app_nil_r. by apply Hb.
  - intros u Hu. rewrite entries_of_snoc. simpl.
    destruct (decide (accountID = u)) as [<-|Hne].
    + by rewrite lookup_alter_eq, Ha' in Hu.
    + rewrite lookup_alter_ne, opened_other in Hu by done. by rewrite app_nil_r, Hn.
Qed.

Lemma Settle_inv :
  ledger_inv
    (Settle env db accountID torrentID rt quantity unitPrice charge reason txnID).1.
Proof.
  destruct (Settle_cases env db accountID torrentID rt quantity unitPrice charge reason txnID)
    as [(st & _ & ->)|[[_ ->]|[Hf ->]]]; simpl;
    [done|apply opened_inv|by apply posted_inv].
Qed.
End settlement_inv.

Lemma ledger_inv_empty : ledger_inv emptyDB.
Proof.
  split; [constructor|]. split; [|done]. intros u a. simpl. by rewrite lookup_empty.
Qed.

(** Budgets never overshoot their ceiling. *)
Definition budgets_ok (db : DB) : Prop :=
  Forall (fun b => bud_Consumed b <= bud_MaxCredits b) (db_budgets db).

Lemma Settle_budgets_ok env db accountID torrentID rt quantity unitPrice charge reason txnID :
  budgets_ok db ->
  budgets_ok (Settle env db accountID torrentID rt quantity unitPrice charge reason txnID).1.
Proof.
  intros Hok.
  destruct (Settle_cases env db accountID torrentID rt quantity unitPrice charge reason txnID)
    as [(st & _ & ->)|[[_ ->]|[_ ->]]]; simpl; [done| |].
  - unfold opened. by destruct (db_accounts db !! accountID).
  - unfold budgets_ok, posted; simpl. destruct (_ && _); [|done].
    apply Forall_fmap. eapply Forall_impl; [exact Hok|]. intros b Hb. simpl.
    unfold consume_budget. destruct (_ && _ && _) eqn:E; simpl; [|done].
    apply andb_true_iff in E as [_ E%Z.leb_le]. lia.
Qed.

(** A successful settlement leaves its id in the ledger and its account open. *)
Lemma Settle_recorded env db acct tor rt q p c reason txn db' r :
  txn <> "" -> Settle env db acct tor rt q p c reason txn = (db', Ok r) ->
  txn_known txn (db_ledger db') = true /\ is_Some (db_accounts db' !! acct).
Proof.
  intros Htxn E.
  assert (forall e : Env, txn_key e txn = txn) as Hk.
  { intros e. unfold txn_key. by destruct (String.eqb_spec txn ""). }
  destruct (opened_lookup env db acct) as (a & Ha & _).
  destruct (Settle_cases env db acct tor rt q p c reason txn)
    as [(st & _ & E')|[[Hkn E']|[Hkn E']]]; rewrite E in E'; simplify_eq;
    rewrite Hk in *.
  - split; [by rewrite opened_ledger|eauto].
  - split; [|eexists; unfold posted; simpl; by rewrite lookup_alter_eq, Ha].
    apply txn_known_in. unfold posted; simpl. rewrite fmap_app. simpl.
    rewrite Hk. set_solver.
Qed.

(** A recorded transaction id is never settled again: a settlement under it
    changes nothing, and reports itself idempotent unless a statement fails. *)
Lemma Settle_known env db acct tor rt q p c reason txn :
  txn <> "" -> txn_known txn (db_ledger db) = true -> is_Some (db_accounts db !! acct) ->
  exists b, acc_Balance <$> db_accounts db !! acct = Some b /\
    (Settle env db acct tor rt q p c reason txn = (db, Ok (mkSettleResult txn b b c true)) \/
     exists st, env_fails env st = true /\
       Settle env db acct tor rt q p c reason txn = (db, Err st)).
Proof.
  intros Htxn Hin [a Ha]. exists (acc_Balance a). rewrite Ha. split; [done|].
  assert (txn_key env txn = txn) as Hk.
  { unfold txn_key. by destruct (String.eqb_spec txn ""). }
  destruct (Settle_cases env db acct tor rt q p c reason txn)
    as [(st & Hst & E)|[[_ E]|[Hkn _]]]; rewrite ?Hk in *; [right; eauto| |congruence].
  left. rewrite E. unfold opened. by rewrite Ha.
Qed.

Lemma Settle_again env db acct tor rt q p c reason txn db' r
    env' tor' rt' q' p' c' reason' :
  txn <> "" ->
  Settle env db acct tor rt q p c reason txn = (db', Ok r) ->
  (forall st, env_fails env' st = false) ->
  exists b, acc_Balance <$> db_accounts db' !! acct = Some b /\
    Settle env' db' acct tor' rt' q' p' c' reason' txn
    = (db', Ok (mkSettleResult txn b b c' true)).
Proof.
  intros Htxn E Hok. destruct (Settle_recorded _ _ _ _ _ _ _ _ _ _ _ _ Htxn E) as [Hin Ha].
  destruct (Settle_known env' db' acct tor' rt' q' p' c' reason' txn Htxn Hin Ha)
    as (b & Hb & [E'|(st & Hst & _)]); [eauto|by rewrite Hok in Hst].
Qed.
