(* ===== verification/EconScheduler.v ===== *)
(** * The economic scheduler (commons/scheduler.go)

    [Evaluate] decides one allocation request; [rankCandidates] scores the
    seeders and sorts them with the in-place insertion sort of the source. *)
From Stdlib Require Import String.
From S2P Require Import Prelude GoStr Credit Price.
Open Scope string_scope.
Open Scope Z_scope.

Record SeederCandidate := mkCandidate {
  sc_UserID : Z;
  sc_ArtifactLocal : bool;
  sc_StorageLocal : bool;
  sc_UptimeSec : Z;
  sc_ReputationScore : Z;
  sc_ConnectedPeers : Z;
  sc_PriorityClass : Z
}.

Record AllocationRequest := mkRequest {
  ar_LeecherUserID : Z;
  ar_TorrentID : Z;
  ar_Economics : option WorkloadEconomics;
  ar_Candidates : list SeederCandidate;
  ar_Seeders : Z;
  ar_Leechers : Z
}.

Record AllocationDecision := mkDecision {
  ad_Accepted : bool;
  ad_RejectionReason : string;
  ad_RankedSeeders : list SeederCandidate;
  ad_EstimatedCost : Z;
  ad_EffectivePrice : Z;
  ad_AllocationReason : string
}.

(** ** Ranking *)

(** The score of one candidate; [None] is the division panic at an uptime of
    -3601 seconds. *)
Definition candidate_score (c : SeederCandidate) : option Z :=
  let s := 0 in
  let s := if sc_ArtifactLocal c then i64 (s + 500) else s in
  let s := if sc_StorageLocal c then i64 (s + 300) else s in
  uptimeFactor ← go_div (i64 (sc_UptimeSec c * 400)) (i64 (i64 (sc_UptimeSec c + 3600) + 1));
  let s := i64 (s + uptimeFactor) in
  let repFactor := Z.quot (i64 (sc_ReputationScore c * 200)) (ReputationMax + 1) in
  let s := i64 (s + repFactor) in
  let s := i64 (s - i64 (Z.quot (sc_ConnectedPeers c) 10 * 50)) in
  let s := if sc_PriorityClass c =? P1Guaranteed then i64 (s + 200) else s in
  Some s.

Abbreviation scored := (SeederCandidate * Z)%type.

(** [items[i], items[j] = items[j], items[i]] *)
Definition swap {A} (i j : nat) (l : list A) : list A :=
  match l !! i, l !! j with
  | Some x, Some y => <[i := y]> (<[j := x]> l)
  | _, _ => l
  end.

(** [for ; j > 0 && items[j].score > items[j-1].score; j--] *)
Fixpoint sift (j : nat) (items : list scored) : list scored :=
  match j with
  | O => items
  | S j' =>
      match items !! S j', items !! j' with
      | Some x, Some y =>
          if x.2 >? y.2 then sift j' (swap (S j') j' items) else items
      | _, _ => items
      end
  end.

(** [for i := 1; i < len(items); i++] *)
Definition insertion_sort (items : list scored) : list scored :=
  foldl (fun items i => sift i items) items (seq 1 (length items - 1)).

Definition rankCandidates (req : AllocationRequest) : option (list SeederCandidate) :=
  items ← mapM (fun c => s ← candidate_score c; Some (c, s)) (ar_Candidates req);
  Some (fst <$> insertion_sort items).

(** ** The decision *)

Definition nominalBytesPerInterval : Z := 10 * 1024 * 1024.

Definition estimateCost (pricePerGB : Z) (we : WorkloadEconomics) : option Z :=
  cost ← MulFrac pricePerGB nominalBytesPerInterval ResourceGB;
  Some (if (0 <? we_MaxTotalCredits we) && (cost >? we_MaxTotalCredits we)
        then we_MaxTotalCredits we else cost).

Definition default_economics (leecher : Z) : WorkloadEconomics :=
  {| we_AccountUserID := leecher; we_MaxTotalCredits := 0; we_PriorityClass := P2Standard;
     we_Deadline := 0; we_Preemptible := true; we_MaxResourcePrice := None;
     we_Optimization := OptMinimizeCost |}.

Definition rejected (reason alloc : string) (price : Z) : AllocationDecision :=
  mkDecision false reason [] 0 price alloc.

(** The price cap of the workload that rejects an opportunistic allocation. *)
Definition cap_exceeded (we : WorkloadEconomics) (price : Z) : option Z :=
  match we_MaxResourcePrice we with
  | None => None
  | Some m =>
      match m !! ResourceDownload with
      | Some cap => if (0 <? cap) && (price >? cap) then Some cap else None
      | None => None
      end
  end.

Definition Evaluate (prices : PriceTable) (req : AllocationRequest)
    (leecherBalance leecherBudget : Z) : option AllocationDecision :=
  let we := match ar_Economics req with
            | None => default_economics (ar_LeecherUserID req)
            | Some we => we
            end in
  let pc := EffectivePriority we in
  effectivePrice ← EffectiveForDownload prices (ar_Seeders req) (ar_Leechers req);
  if IsProtected pc then
    ranked ← rankCandidates req;
    Some (mkDecision true "" ranked 0 effectivePrice
            ("priority:" ++ PriorityString pc ++ " protected allocation"))
  else
    estimatedCost ← estimateCost effectivePrice we;
    if (leecherBalance <=? 0) && negb (IsProtected pc) then
      Some (rejected "insufficient_balance"
              ("user " ++ dec (ar_LeecherUserID req) ++ " has zero CC balance") effectivePrice)
    else if (leecherBudget <=? 0) && negb (IsProtected pc) then
      Some (rejected "budget_exhausted"
              ("user " ++ dec (ar_LeecherUserID req) ++ " torrent budget exhausted") effectivePrice)
    else
      match cap_exceeded we effectivePrice, pc =? P3Opportunistic with
      | Some cap, true =>
          Some (rejected "price_cap_exceeded"
                  ("P3 price cap " ++ CreditString cap ++ " exceeded by " ++
                   CreditString effectivePrice) effectivePrice)
      | _, _ =>
          ranked ← rankCandidates req;
          Some (mkDecision true "" ranked estimatedCost effectivePrice
                  ("priority:" ++ PriorityString pc ++ " budget_ok estimated_cost:" ++
                   CreditString estimatedCost))
      end.

(** ** The insertion sort refines a functional one

    The loop keeps its sorted prefix in descending order; read backwards it
    is an ascending list into which the next item is inserted. *)

Fixpoint placeR (rl : list scored) (x : scored) : list scored :=
  match rl with
  | [] => [x]
  | y :: rl' => if x.2 >? y.2 then y :: placeR rl' x else x :: rl
  end.

Definition sortR (l : list scored) : list scored := foldl placeR [] l.

Lemma swap_adjacent {A} (l r : list A) (x y : A) :
  swap (S (length l)) (length l) ((l ++ y :: x :: r)%list) = (l ++ x :: y :: r)%list.
Proof.
  unfold swap.
  rewrite lookup_app_r by lia. replace (S (length l) - length l)%nat with 1%nat by lia.
  rewrite (lookup_app_r l _ (length l)) by lia. rewrite Nat.sub_diag. simpl.
  rewrite insert_app_r_alt by lia. rewrite Nat.sub_diag. simpl.
  rewrite insert_app_r_alt by lia.
  by replace (S (length l) - length l)%nat with 1%nat by lia.
Qed.

Lemma sift_place (rl r : list scored) (x : scored) :
  sift (length rl) ((reverse rl ++ x :: r)%list) = (reverse (placeR rl x) ++ r)%list.
Proof.
  revert r. induction rl as [|y rl IH]; intros r; [done|].
  cbn [length sift placeR]. rewrite reverse_cons, <- (app_assoc _ [y]). simpl.
  rewrite <- (length_reverse rl).
  rewrite (lookup_app_r (reverse rl) _ (S (length (reverse rl)))) by apply Nat.le_succ_diag_r.
  replace (S (length (reverse rl)) - length (reverse rl))%nat with 1%nat by lia.
  rewrite (lookup_app_r (reverse rl) _ (length (reverse rl))) by apply Nat.le_refl.
  rewrite Nat.sub_diag. simpl.
  destruct (x.2 >? y.2).
  - rewrite swap_adjacent, length_reverse, IH, reverse_cons, <- app_assoc. done.
  - rewrite !reverse_cons, <- !app_assoc. done.
Qed.

Lemma placeR_perm (rl : list scored) (x : scored) : placeR rl x ≡ₚ x :: rl.
Proof.
  induction rl as [|y rl IH]; simpl; [done|].
  destruct (_ >? _); [|done]. rewrite IH. constructor.
Qed.

Lemma sortR_snoc (l : list scored) (x : scored) :
  sortR ((l ++ [x])%list) = placeR (sortR l) x.
Proof. unfold sortR. by rewrite foldl_app. Qed.

Lemma sortR_perm (l : list scored) : sortR l ≡ₚ l.
Proof.
  induction l as [|x l IH] using rev_ind; [done|].
  rewrite sortR_snoc, placeR_perm, IH. apply Permutation_cons_append.
Qed.

Lemma sort_prefix (l : list scored) (k : nat) :
  (S k <= length l)%nat ->
  foldl (fun items i => sift i items) l (seq 1 k) =
  (reverse (sortR (take (S k) l)) ++ drop (S k) l)%list.
Proof.
  induction k as [|k IH]; intros Hk.
  - destruct l as [|x l]; simpl in *; [lia|]. done.
  - rewrite seq_S, foldl_app, IH by lia. cbn [foldl].
    destruct (lookup_lt_is_Some_2 l (S k) ltac:(lia)) as [x Hx].
    rewrite (drop_S _ _ _ Hx).
    replace (1 + k)%nat with (length (sortR (take (S k) l))).
    2: { rewrite sortR_perm, length_take. lia. }
    rewrite sift_place, <- sortR_snoc. by rewrite <- (take_S_r _ _ _ Hx).
Qed.

Lemma insertion_sort_eq (l : list scored) : insertion_sort l = reverse (sortR l).
Proof.
  unfold insertion_sort. destruct l as [|x l]; [done|].
  rewrite sort_prefix by (simpl; lia).
  replace (S (length (x :: l) - 1)) with (length (x :: l)) by (simpl; lia).
  rewrite take_ge, drop_ge by lia. apply app_nil_r.
Qed.

Definition score_le (a b : scored) : Prop := a.2 <= b.2.
Definition score_ge (a b : scored) : Prop := b.2 <= a.2.

Lemma placeR_sorted (rl : list scored) (x : scored) :
  StronglySorted score_le rl -> StronglySorted score_le (placeR rl x).
Proof.
  induction 1 as [|y rl Hs IH Hy]; simpl; [repeat constructor|].
  destruct (Z.gtb_spec x.2 y.2) as [Hlt|Hle].
  - constructor; [done|]. rewrite placeR_perm. constructor; [unfold score_le; lia|done].
  - constructor; [by constructor|]. constructor; [done|].
    eapply Forall_impl; [exact Hy|]. unfold score_le. intros; lia.
Qed.

Lemma sortR_sorted (l : list scored) : StronglySorted score_le (sortR l).
Proof.
  induction l as [|x l IH] using rev_ind; [constructor|].
  rewrite sortR_snoc. by apply placeR_sorted.
Qed.

Lemma StronglySorted_reverse {A} (R : relation A) (l : list A) :
  StronglySorted R l -> StronglySorted (flip R) (reverse l).
Proof.
  induction 1 as [|x l Hs IH Hx]; [constructor|].
  rewrite reverse_cons. apply StronglySorted_app.
  split; [|split; [done|repeat constructor]].
  intros a b Ha ->%list_elem_of_singleton. rewrite elem_of_reverse in Ha.
  by apply (proj1 (Forall_forall _ _) Hx).
Qed.

Lemma insertion_sort_sorted (l : list scored) : StronglySorted score_ge (insertion_sort l).
Proof. rewrite insertion_sort_eq. apply (StronglySorted_reverse score_le), sortR_sorted. Qed.

Lemma insertion_sort_perm (l : list scored) : insertion_sort l ≡ₚ l.
Proof. by rewrite insertion_sort_eq, reverse_Permutation, sortR_perm. Qed.

(** Items of equal score keep their order. *)
Lemma placeR_filter (k : Z) (rl : list scored) (x : scored) :
  filter (fun it => it.2 = k) (placeR rl x) =
  ((if decide (x.2 = k) then [x] else []) ++ filter (fun it => it.2 = k) rl)%list.
Proof.
  induction rl as [|y rl IH]; cbn [placeR].
  { rewrite filter_cons, filter_nil. by destruct (decide (x.2 = k)). }
  destruct (Z.gtb_spec x.2 y.2) as [Hlt|Hle].
  - rewrite filter_cons, IH, filter_cons.
    destruct (decide (y.2 = k)), (decide (x.2 = k)); try done. lia.
  - rewrite (filter_cons _ x). by destruct (decide (x.2 = k)).
Qed.

Lemma insertion_sort_stable (k : Z) (l : list scored) :
  filter (fun it => it.2 = k) (insertion_sort l) = filter (fun it => it.2 = k) l.
Proof.
  rewrite insertion_sort_eq.
  assert (forall m : list scored, filter (fun it => it.2 = k) (reverse m) =
                    reverse (filter (fun it => it.2 = k) m)) as Hrev.
  { intros m. induction m as [|y m IHm]; [done|].
    rewrite reverse_cons, filter_app, IHm. rewrite !filter_cons, filter_nil.
    destruct (decide (y.2 = k)); [by rewrite reverse_cons|by rewrite app_nil_r]. }
  rewrite Hrev. induction l as [|x l IH] using rev_ind; [done|].
  rewrite sortR_snoc, placeR_filter, filter_app, reverse_app, IH. f_equal.
  rewrite filter_cons, filter_nil. by destruct (decide (x.2 = k)).
Qed.
