(* ===== verification/Commons.v ===== *)
(** * The compute commons (commons/commons.go, commons/meter.go)

    The economic control plane: settlement of announce deltas, allocation
    checks, peer evaluation and the administrative writes, over the database
    of [Ledger] and the scheduler of [EconScheduler].  The price table is an
    argument: [ReloadPrices] replaces it between calls. *)
From Stdlib Require Import String.
From S2P Require Import Prelude GoStr Credit Price Ledger EconScheduler.
Open Scope string_scope.
Open Scope Z_scope.

Record AnnounceStats := mkStats {
  st_UserID : Z;
  st_TorrentID : Z;
  st_RawUploaded : Z;
  st_RawDownloaded : Z;
  st_EffectiveUploaded : Z;
  st_EffectiveDownloaded : Z;
  st_Seeders : Z;
  st_Leechers : Z;
  st_IsSeeder : bool;
  st_IsStopped : bool;
  st_Timestamp : Z
}.

(** ** Settlement of an announce *)

Definition announceTxnID (userID torrentID nanos : Z) (direction : string) : string :=
  "announce:" ++ dec userID ++ ":" ++ dec torrentID ++ ":" ++
  dec (Z.quot nanos Second) ++ ":" ++ direction.

Inductive settle_error :=
| SettleUploadErr (st : settle_step)
| SettleDownloadErr (st : settle_step).

(** The two halves of [SettleAnnounce]; [None] is a run-time panic in the
    price arithmetic. *)
Definition settle_upload (env : Env) (db : DB) (pt : PriceTable) (stats : AnnounceStats)
    : option (DB * result settle_error unit) :=
  if 0 <? st_EffectiveUploaded stats then
    credit ← CreditForUpload pt (st_EffectiveUploaded stats) (st_Seeders stats) (st_Leechers stats);
    if 0 <? credit then
      let txnID := announceTxnID (st_UserID stats) (st_TorrentID stats)
                     (UnixNano (st_Timestamp stats)) "up" in
      price ← EffectiveForUpload pt (st_Seeders stats) (st_Leechers stats);
      Some (match Settle env db (st_UserID stats) (st_TorrentID stats) ResourceUpload
                    (st_EffectiveUploaded stats) price (Neg credit) ReasonUploadCredit txnID with
            | (db', Ok _) => (db', Ok tt)
            | (db', Err st) => (db', Err (SettleUploadErr st))
            end)
    else Some (db, Ok tt)
  else Some (db, Ok tt).

Definition settle_download (env : Env) (db : DB) (pt : PriceTable) (stats : AnnounceStats)
    : option (DB * result settle_error unit) :=
  if 0 <? st_EffectiveDownloaded stats then
    charge ← ChargeForDownload pt (st_EffectiveDownloaded stats) (st_Seeders stats)
               (st_Leechers stats);
    if 0 <? charge then
      let txnID := announceTxnID (st_UserID stats) (st_TorrentID stats)
                     (UnixNano (st_Timestamp stats)) "dl" in
      price ← EffectiveForDownload pt (st_Seeders stats) (st_Leechers stats);
      Some (match Settle env db (st_UserID stats) (st_TorrentID stats) ResourceDownload
                    (st_EffectiveDownloaded stats) price charge ReasonDownload txnID with
            | (db', Ok _) => (db', Ok tt)
            | (db', Err st) => (db', Err (SettleDownloadErr st))
            end)
    else Some (db, Ok tt)
  else Some (db, Ok tt).

Definition SettleAnnounce (env_up env_dl : Env) (db : DB) (pt : PriceTable)
    (stats : AnnounceStats) : option (DB * result settle_error unit) :=
  r ← settle_upload env_up db pt stats;
  match r with
  | (db1, Err e) => Some (db1, Err e)
  | (db1, Ok _) => settle_download env_dl db1 pt stats
  end.

(** ** Allocation *)

Definition CheckAllocation (fail_balance fail_budget : bool) (now : Z) (db : DB)
    (userID torrentID pc : Z) : result AllocError unit :=
  if IsProtected pc then Ok tt
  else
    match CheckBalance fail_balance db userID with
    | Err _ => Ok tt
    | Ok balance =>
        if (balance <=? 0) && (pc =? P3Opportunistic) then
          Err (ErrInsufficientBalance userID (FromCC 1) balance)
        else
          match CheckBudgetAvailable fail_budget now db userID torrentID with
          | Err _ => Ok tt
          | Ok budget =>
              if budget <=? 0
              then Err (ErrBudgetExhausted userID (Some torrentID) (FromCC 1) 0)
              else Ok tt
          end
    end.

Definition EvaluatePeers (fail_balance fail_budget : bool) (now : Z) (db : DB)
    (pt : PriceTable) (req : AllocationRequest) : option AllocationDecision :=
  let balance := match CheckBalance fail_balance db (ar_LeecherUserID req) with
                 | Ok b => b | Err _ => MaxCredit end in
  let budget := match CheckBudgetAvailable fail_budget now db (ar_LeecherUserID req)
                        (ar_TorrentID req) with
                | Ok b => b | Err _ => MaxCredit end in
  Evaluate pt req balance budget.

(** ** Administrative writes *)

Inductive admin_error := InvalidClass (pc : Z) | AdminDBError.

(** The row [SetUserPriority] writes, from the row it has read. *)
Definition priority_account (now userID pc : Z) (row : option Account) : Account :=
  match row with
  | None => mkAccount userID DefaultStartingBalance 0 0 ReputationDefault pc now now
  | Some a => mkAccount (acc_UserID a) (acc_Balance a) (acc_Allocated a) (acc_Reserved a)
                (acc_Reputation a) pc (acc_CreatedAt a) now
  end.

(** The full-row write that ends it.  The read and the write are two
    statements, without a transaction around them. *)
Definition priority_write (fail_upsert : bool) (now : Z) (db : DB) (userID pc : Z)
    (row : option Account) : DB * result admin_error unit :=
  match UpsertAccount fail_upsert db (priority_account now userID pc row) with
  | (db', Ok _) => (db', Ok tt)
  | (db', Err _) => (db', Err AdminDBError)
  end.

Definition SetUserPriority (fail_load fail_upsert : bool) (now : Z) (db : DB)
    (userID pc : Z) : DB * result admin_error unit :=
  if negb (IsValid pc) then (db, Err (InvalidClass pc))
  else
    match LoadAccount fail_load db userID with
    | Err _ => (db, Err AdminDBError)
    | Ok row => priority_write fail_upsert now db userID pc row
    end.

Definition nullableUint32 (id : Z) : option Z := if id =? 0 then None else Some id.

(** WHERE user_id = ? AND torrent_id IS ? *)
Definition same_scope (userID torrentID : Z) (b : Budget) : bool :=
  (bud_UserID b =? userID) && bool_decide (bud_TorrentID b = nullableUint32 torrentID).

Definition budget_delete (userID torrentID : Z) (db : DB) : DB :=
  set_budgets (filter (fun b => negb (same_scope userID torrentID b)) (db_budgets db)) db.

Definition budget_insert (userID torrentID maxCredits : Z) (db : DB) : DB :=
  let rawCredits := Raw (FromCC maxCredits) in
  let row := mkBudget (db_budget_seq db + 1) userID (nullableUint32 torrentID) rawCredits 0 None in
  mkDB (db_accounts db) ((db_budgets db ++ [row])%list) (db_budget_seq db + 1)
    (db_ledger db) (db_reservations db) (db_prices db).

(** DELETE then INSERT, each in its own implicit transaction. *)
Definition SetUserBudget (fail_delete fail_insert : bool) (db : DB)
    (userID torrentID maxCredits : Z) : DB * result admin_error unit :=
  if fail_delete then (db, Err AdminDBError)
  else
    let db1 := budget_delete userID torrentID db in
    if fail_insert then (db1, Err AdminDBError)
    else (budget_insert userID torrentID maxCredits db1, Ok tt).

Definition ExpireOldReservations (fails : expire_step -> bool) (now : Z) (db : DB)
    : DB * result expire_step Z :=
  match ExpireReservations fails now db with
  | (db', Err e) => (db', Err e)
  | (db', Ok n) => (db', Ok n)
  end.

(** ** Executions of the commons

    The operations run concurrently: the settlements in goroutines of their
    own, the administrative writes in the handler of an update.  What is
    atomic is a transaction or a single statement, so a call whose next
    statement has still to run is a pending one, and the statements of other
    calls may come in between. *)

Open Scope list_scope.
Open Scope Z_scope.

Inductive Pending :=
| PDownload (pt : PriceTable) (stats : AnnounceStats)     (* second half of SettleAnnounce *)
| PPriority (now user pc : Z) (row : option Account)      (* the row that was read *)
| PBudget (user torrent maxCredits : Z).                  (* the old budget is deleted *)

Abbreviation Commons_sys := (DB * list Pending)%type.

Definition cancel (i : nat) (ps : list Pending) : list Pending := take i ps ++ drop (S i) ps.

(** [lost = false] leaves out one order of events: a balance that changes
    between the read and the write of a priority. *)
Inductive commons_step (lost : bool) : Commons_sys -> Commons_sys -> Prop :=
| step_upload env pt stats db db' r ps :
    settle_upload env db pt stats = Some (db', r) ->
    commons_step lost (db, ps)
      (db', match r with Ok _ => ps ++ [PDownload pt stats] | Err _ => ps end)
| step_download env pt stats db db' r ps i :
    ps !! i = Some (PDownload pt stats) ->
    settle_download env db pt stats = Some (db', r) ->
    commons_step lost (db, ps) (db', cancel i ps)
| step_priority_read now user pc db ps :
    IsValid pc = true ->
    commons_step lost (db, ps) (db, ps ++ [PPriority now user pc (db_accounts db !! user)])
| step_priority_write fu now user pc row db ps i :
    ps !! i = Some (PPriority now user pc row) ->
    lost = true \/ acc_Balance <$> db_accounts db !! user = acc_Balance <$> row ->
    commons_step lost (db, ps) ((priority_write fu now db user pc row).1, cancel i ps)
| step_budget_delete user torrent maxCredits db ps :
    commons_step lost (db, ps) (budget_delete user torrent db, ps ++ [PBudget user torrent maxCredits])
| step_budget_insert (fi : bool) user torrent maxCredits db ps i :
    ps !! i = Some (PBudget user torrent maxCredits) ->
    commons_step lost (db, ps)
      (if fi then db else budget_insert user torrent maxCredits db, cancel i ps)
| step_expire fails now db ps :
    commons_step lost (db, ps) ((ExpireOldReservations fails now db).1, ps).

(** Every step that goes through [SettleAnnounce] is at most two settlements. *)
Definition settles_by (P : DB -> Prop) : Prop :=
  forall env db user torrent rt q price charge reason txn,
    P db -> P (Settle env db user torrent rt q price charge reason txn).1.

Lemma settle_half_preserves (P : DB -> Prop) env db pt stats db' r :
  settles_by P -> P db ->
  settle_upload env db pt stats = Some (db', r) \/
  settle_download env db pt stats = Some (db', r) ->
  P db'.
Proof.
  intros HP Hdb [E|E]; [unfold settle_upload in E|unfold settle_download in E];
    (destruct (0 <? _); [|by simplify_eq];
     apply bind_Some in E as (c & _ & E); destruct (0 <? c); [|by simplify_eq];
     apply bind_Some in E as (p & _ & E);
     match type of E with
     | Some (match ?S with _ => _ end) = _ =>
         pose proof (HP env db) as Hs; destruct S as [d [?|?]] eqn:HS; simplify_eq
     end;
     match type of HS with Settle _ _ ?u ?t ?rt ?q ?p ?c ?re ?tx = _ =>
       specialize (Hs u t rt q p c re tx Hdb); by rewrite HS in Hs end).
Qed.

Lemma SettleAnnounce_preserves (P : DB -> Prop) env_up env_dl db pt stats db' r :
  settles_by P -> P db ->
  SettleAnnounce env_up env_dl db pt stats = Some (db', r) -> P db'.
Proof.
  intros HP Hdb E. unfold SettleAnnounce in E.
  apply bind_Some in E as ([d1 [?|?]] & Hu & E); simplify_eq;
    pose proof (settle_half_preserves P _ _ _ _ _ _ HP Hdb (or_introl Hu)); [|done].
  eapply settle_half_preserves; eauto.
Qed.

(** The invariant only depends on balances and on the ledger. *)
Definition same_money (db db' : DB) : Prop :=
  db_ledger db' = db_ledger db /\
  forall u, acc_Balance <$> db_accounts db' !! u = acc_Balance <$> db_accounts db !! u.

Lemma same_money_trans a b c : same_money a b -> same_money b c -> same_money a c.
Proof.
  intros [E1 H1] [E2 H2]. split; [congruence|]. intros u. by rewrite H2.
Qed.

Lemma ledger_inv_same_money db db' : same_money db db' -> ledger_inv db -> ledger_inv db'.
Proof.
  intros [El Hb] (Hd & Hc & Hn). split; [|split]; rewrite El; [done| |].
  - intros u a Ha. specialize (Hb u). rewrite Ha in Hb. simpl in Hb.
    symmetry in Hb. apply fmap_Some in Hb as (a' & Ha' & ->). eauto.
  - intros u Hu. apply Hn. specialize (Hb u). rewrite Hu in Hb.
    by destruct (db_accounts db !! u).
Qed.

Lemma expire_all_same_money fails now db expired db' :
  expire_all fails now db expired = Ok db' -> same_money db db'.
Proof.
  revert db. induction expired as [|r rest IH]; intros db E; simpl in E.
  - injection E as <-. done.
  - destruct (fails (ExUpdate _)); [done|]. destruct (fails (ExRelease _)); [done|].
    apply IH in E. eapply same_money_trans; [|exact E]. split; [done|].
    intros u. simpl. rewrite lookup_alter. case_decide; [|done]. subst.
    by destruct (db_accounts db !! _).
Qed.

(** Rows are filed under their own user id. *)
Definition ids_ok (db : DB) : Prop :=
  forall u a, db_accounts db !! u = Some a -> acc_UserID a = u.

Lemma Settle_ids_ok : settles_by ids_ok.
Proof.
  intros env db user torrent rt q price charge reason txn Hids.
  assert (ids_ok (opened env db user).1) as Ho.
  { intros u a. unfold opened. destruct (db_accounts db !! user) eqn:E; simpl; [by apply Hids|].
    rewrite lookup_insert. case_decide; [subst; by intros [= <-]|apply Hids]. }
  destruct (Settle_cases env db user torrent rt q price charge reason txn)
    as [(st & _ & ->)|[[_ ->]|[_ ->]]]; simpl; [done|done|].
  intros u a. unfold posted; simpl. rewrite lookup_alter. case_decide; [subst|by apply Ho].
  intros Ha. apply fmap_Some in Ha as (a' & Ha' & ->). by apply Ho in Ha'.
Qed.

(** A priority write on an unchanged balance keeps every balance, or opens the
    account with the starting balance. *)
Lemma priority_write_inv fu now db user pc row :
  (forall a, row = Some a -> acc_UserID a = user) ->
  acc_Balance <$> db_accounts db !! user = acc_Balance <$> row ->
  ledger_inv db -> ledger_inv (priority_write fu now db user pc row).1.
Proof.
  intros Hid Hbal Hinv. unfold priority_write, UpsertAccount. destruct fu; [done|].
  assert (acc_UserID (priority_account now user pc row) = user) as ->.
  { destruct row as [a|]; [exact (Hid a eq_refl)|done]. }
  destruct row as [a|], (db_accounts db !! user) as [b|] eqn:Hb; try done; simpl in *.
  - eapply ledger_inv_same_money; [|done].
    split; [done|]. intros u. simpl. rewrite lookup_insert. case_decide; [subst|done].
    rewrite Hb. simpl. by injection Hbal as ->.
  - destruct Hinv as (Hd & Hc & Hn). split; [done|]. split.
    + intros u a. simpl. rewrite lookup_insert. case_decide; [subst|by apply Hc].
      intros [= <-]. by rewrite Hn.
    + intros u. simpl. rewrite lookup_insert. case_decide; [done|by apply Hn].
Qed.

Lemma priority_write_ids fu now db user pc row :
  (forall a, row = Some a -> acc_UserID a = user) ->
  ids_ok db -> ids_ok (priority_write fu now db user pc row).1.
Proof.
  intros Hid Hids. unfold priority_write, UpsertAccount. destruct fu; [done|].
  assert (acc_UserID (priority_account now user pc row) = user) as ->.
  { destruct row as [a|]; [exact (Hid a eq_refl)|done]. }
  intros u a. simpl. rewrite lookup_insert. case_decide; [subst|apply Hids].
  intros [= <-]. destruct (db_accounts db !! u); simpl; [done|].
    destruct row as [b|]; [exact (Hid b eq_refl)|done].
Qed.

(** The rows that pending priority writes have read. *)
Definition pending_ids (ps : list Pending) : Prop :=
  Forall (fun p => match p with
                   | PPriority _ user _ row => forall a, row = Some a -> acc_UserID a = user
                   | _ => True
                   end) ps.

Definition commons_inv (s : Commons_sys) : Prop :=
  ids_ok s.1 /\ ledger_inv s.1 /\ pending_ids s.2.

Lemma pending_cancel i ps : pending_ids ps -> pending_ids (cancel i ps).
Proof.
  intros H. apply Forall_app. split; [by apply Forall_take|by apply Forall_drop].
Qed.

Lemma expire_all_ids fails now db expired db' :
  expire_all fails now db expired = Ok db' -> ids_ok db -> ids_ok db'.
Proof.
  revert db. induction expired as [|r rest IH]; intros db E Hids; simpl in E.
  - by injection E as <-.
  - destruct (fails (ExUpdate _)); [done|]. destruct (fails (ExRelease _)); [done|].
    apply IH in E; [done|]. intros u a. simpl. rewrite lookup_alter. case_decide; [subst|by apply Hids].
    intros Ha. apply fmap_Some in Ha as (a' & Ha' & ->). by apply Hids in Ha'.
Qed.

Lemma settle_half_inv env db pt stats db' r :
  settle_upload env db pt stats = Some (db', r) \/ settle_download env db pt stats = Some (db', r) ->
  ids_ok db -> ledger_inv db -> ids_ok db' /\ ledger_inv db'.
Proof.
  intros E Hids Hinv. split; eapply settle_half_preserves; try exact E; try done.
  - apply Settle_ids_ok.
  - intros ?????????? . apply Settle_inv.
Qed.

Lemma commons_step_inv s s' : commons_step false s s' -> commons_inv s -> commons_inv s'.
Proof.
  intros Hstep (Hids & Hinv & Hp). destruct Hstep as [env pt stats db db' r ps E
    |env pt stats db db' r ps i Hi E|now user pc db ps Hv|fu now user pc row db ps i Hi Hbal
    |user torrent mc db ps|fi user torrent mc db ps i Hi|fails now db ps]; simpl in *.
  - destruct (settle_half_inv _ _ _ _ _ _ (or_introl E) Hids Hinv). split_and!; [done..|].
    destruct r; [|done]. apply Forall_app. split; [done|]. by repeat constructor.
  - destruct (settle_half_inv _ _ _ _ _ _ (or_intror E) Hids Hinv).
    split_and!; [done..|]. by apply pending_cancel.
  - split_and!; [done..|]. apply Forall_app. split; [done|]. constructor; [|constructor].
    intros a. apply Hids.
  - destruct Hbal as [?|Hbal]; [done|].
    assert (forall a, row = Some a -> acc_UserID a = user) as Hid.
    { exact (proj1 (Forall_lookup _ _) Hp _ _ Hi). }
    split_and!; [by apply priority_write_ids|by apply priority_write_inv|by apply pending_cancel].
  - split_and!; [done..|]. apply Forall_app. split; [done|]. by repeat constructor.
  - split_and!; [by destruct fi..|]. by apply pending_cancel.
  - unfold ExpireOldReservations, ExpireReservations.
    destruct (fails ExBegin), (fails ExQuery), (fails ExScan), (fails ExRows); try done.
    destruct (expire_all _ _ _ _) as [d|e] eqn:E; [|done].
    destruct (fails ExCommit); [done|]. simpl. split_and!; [by eapply expire_all_ids| |done].
    by eapply ledger_inv_same_money; [eapply expire_all_same_money|].
Qed.

Lemma commons_reachable_inv s : rtc (commons_step false) (emptyDB, []) s -> commons_inv s.
Proof.
  assert (commons_inv (emptyDB, [])) as H0.
  { split_and!; [|apply ledger_inv_empty|constructor]. intros u a. simpl. by rewrite lookup_empty. }
  intros H. revert H0. induction H; eauto using commons_step_inv.
Qed.

(** ** The ledger only grows *)

(** Every entry stays, and an account once opened stays open, whatever the
    order of the statements. *)
Definition ledger_kept (db db' : DB) : Prop :=
  (exists es, db_ledger db' = (db_ledger db ++ es)%list) /\
  forall u, is_Some (db_accounts db !! u) -> is_Some (db_accounts db' !! u).

#[export] Instance ledger_kept_preorder : PreOrder ledger_kept.
Proof.
  split.
  - intros db. split; [exists []; by rewrite app_nil_r|done].
  - intros a b c [[es1 E1] H1] [[es2 E2] H2]. split; [|eauto].
    exists (es1 ++ es2)%list. by rewrite E2, E1, app_assoc.
Qed.

Lemma Settle_kept env db acct tor rt q p c reason txn :
  ledger_kept db (Settle env db acct tor rt q p c reason txn).1.
Proof.
  assert (forall u, is_Some (db_accounts db !! u) ->
                    is_Some (db_accounts (opened env db acct).1 !! u)) as Ho.
  { intros u. unfold opened. destruct (db_accounts db !! acct) eqn:Ea; [done|]. simpl.
    rewrite lookup_insert. by case_decide. }
  destruct (Settle_cases env db acct tor rt q p c reason txn)
    as [(st & _ & ->)|[[_ ->]|[_ ->]]]; simpl; [done| |].
  - split; [exists []; by rewrite opened_ledger, app_nil_r|done].
  - split; [by eexists|]. intros u Hu. unfold posted. simpl. rewrite lookup_alter.
    apply Ho in Hu. case_decide; [subst; by apply fmap_is_Some|done].
Qed.

Lemma expire_all_kept fails now db expired db' :
  expire_all fails now db expired = Ok db' -> ledger_kept db db'.
Proof.
  intros E. apply expire_all_same_money in E as [El Hb].
  split; [exists []; by rewrite El, app_nil_r|].
  intros u. specialize (Hb u). intros Hu. apply fmap_is_Some with (f := acc_Balance).
  rewrite Hb. by apply fmap_is_Some.
Qed.

Lemma commons_step_kept lost s s' : commons_step lost s s' -> ledger_kept s.1 s'.1.
Proof.
  intros Hstep. destruct Hstep as [env pt stats db db' r ps E
    |env pt stats db db' r ps i Hi E|now user pc db ps Hv|fu now user pc row db ps i Hi Hbal
    |user torrent mc db ps|fi user torrent mc db ps i Hi|fails now db ps]; simpl.
  1,2: eapply (settle_half_preserves (ledger_kept db)); [|done|eauto];
       intros ???????????; etransitivity; [eassumption|apply Settle_kept].
  - done.
  - unfold priority_write, UpsertAccount. destruct fu; [done|].
    destruct (db_accounts db !! acc_UserID _); simpl; (split; [exists []; by rewrite app_nil_r|]);
      intros u Hu; simpl; rewrite lookup_insert; by case_decide.
  - split; [exists []; by rewrite app_nil_r|done].
  - destruct fi; [done|]. split; [exists []; by rewrite app_nil_r|done].
  - unfold ExpireOldReservations, ExpireReservations.
    destruct (fails ExBegin), (fails ExQuery), (fails ExScan), (fails ExRows); try done.
    destruct (expire_all _ _ _ _) as [d|e] eqn:E; [|done].
    destruct (fails ExCommit); [done|]. by eapply expire_all_kept.
Qed.

Lemma commons_run_kept lost s s' : rtc (commons_step lost) s s' -> ledger_kept s.1 s'.1.
Proof.
  induction 1 as [|s1 s2 s3 H _ IH]; [done|].
  etransitivity; [by eapply commons_step_kept|done].
Qed.
