(* ===== verification/CommonsSpec.v ===== *)
(** * Properties of the compute commons

    Conservation and idempotency of the ledger, bounds and monotonicity of
    prices, policy of the economic scheduler, and the places where budgets
    and fixed-point arithmetic do not do what their comments say. *)
From Stdlib Require Import String.
From S2P Require Import Prelude GoStr Credit Price Ledger EconScheduler Commons.
Open Scope string_scope.
Open Scope Z_scope.

(** ** Concrete inputs used by the witnesses *)

Definition quiet_env : Env := mkEnv (fun _ => false) (fun n => 1000 + Z.of_nat n) "fresh".

Definition sample_stats (up down : Z) : AnnounceStats :=
  mkStats 7 3 0 0 up down 2 5 false false (unixToInternal + 5 * Second + 17).

Definition sample_db : DB :=
  match SettleAnnounce quiet_env quiet_env emptyDB DefaultPriceTable
          (sample_stats (2 ^ 30) (2 ^ 28)) with
  | Some (db, _) => db
  | None => emptyDB
  end.

(** ** The ledger *)

(** [C8] Conservation.  Settlements, priority changes, budget changes and
    reservation expiry run concurrently, one transaction or statement at a
    time, with any statement failures, from an empty database.  As long as no
    balance changes between the read and the write of a priority change of
    the same user, transaction ids are unique, the entries of an account form
    an unbroken chain of balances, and its balance is the starting balance
    less the sum of its charges, in 64 bits.  ([lost_update] shows that the
    condition is needed.) *)
Theorem ledger_conservation (s : Commons_sys) (u : Z) (a : Account) :
  rtc (commons_step false) (emptyDB, []) s -> db_accounts s.1 !! u = Some a ->
  NoDup (le_TxnID <$> db_ledger s.1) /\
  chain DefaultStartingBalance (entries_of u (db_ledger s.1)) (acc_Balance a) /\
  acc_Balance a =
    i64 (DefaultStartingBalance - sumZ le_Charge (entries_of u (db_ledger s.1))).
Proof.
  intros H Ha. apply commons_reachable_inv in H as [_ [(Hd & Hc & _) _]].
  split; [done|]. split; [by apply Hc|].
  apply chain_sum; [unfold DefaultStartingBalance, CreditScale; range|by apply Hc].
Qed.

(** The database when the upload of an announce is settled. *)
Definition sample_up : DB :=
  match settle_upload quiet_env emptyDB DefaultPriceTable (sample_stats (2 ^ 30) (2 ^ 28)) with
  | Some (db, _) => db
  | None => emptyDB
  end.

Lemma sample_upload :
  settle_upload quiet_env emptyDB DefaultPriceTable (sample_stats (2 ^ 30) (2 ^ 28))
  = Some (sample_up, Ok tt).
Proof. vm_compute. reflexivity. Defined.

(** A priority is read, the upload settled, its download pending. *)
Lemma sample_run lost user :
  rtc (commons_step lost) (emptyDB, [])
    (sample_up, [PPriority 9 user P2Standard None;
                 PDownload DefaultPriceTable (sample_stats (2 ^ 30) (2 ^ 28))]).
Proof.
  eapply rtc_l; [by apply (step_priority_read lost 9 user P2Standard)|].
  apply rtc_once. exact (step_upload lost quiet_env DefaultPriceTable _ _ _ _ _ sample_upload).
Defined.

Lemma ledger_conservation_witness :
  exists (s : Commons_sys) a, db_accounts s.1 !! 7 = Some a /\ db_accounts s.1 !! 8 <> None /\
    acc_Balance a = i64 (DefaultStartingBalance - sumZ le_Charge (entries_of 7 (db_ledger s.1))).
Proof.
  eexists ((priority_write false 9 sample_up 8 P2Standard None).1, _), _. split; [|split].
  3: eapply (ledger_conservation ((priority_write false 9 sample_up 8 P2Standard None).1, _) 7).
  3: { eapply rtc_r; [apply (sample_run false 8)|].
       apply (step_priority_write _ _ _ _ _ _ _ _ 0); [done|]. right. vm_compute. reflexivity. }
  - vm_compute. reflexivity.
  - vm_compute. discriminate.
  - vm_compute. reflexivity.
Defined.

(** The lost update.  [SetUserPriority] writes back the whole row it has
    read: when a settlement of the same user lands in between, its entry stays
    in the ledger and its effect on the balance is lost. *)
Lemma lost_update :
  exists (s : Commons_sys) a, rtc (commons_step true) (emptyDB, []) s /\ db_accounts s.1 !! 7 = Some a /\
    acc_Balance a = DefaultStartingBalance /\
    sumZ le_Charge (entries_of 7 (db_ledger s.1)) < 0.
Proof.
  eexists ((priority_write false 9 sample_up 7 P2Standard None).1, _), _. split; [|split; [|split]].
  - eapply rtc_r; [apply (sample_run true 7)|].
    apply (step_priority_write _ _ _ _ _ _ _ _ 0); [done|by left].
  - vm_compute. reflexivity.
  - reflexivity.
  - vm_compute. reflexivity.
Qed.

(** [C9] Exactly once.  Once a settlement under a non-empty transaction id has
    succeeded, no later settlement of the same account under that id changes
    the database, whatever amounts it carries and whatever settlements,
    administrative writes and expiries have run since: it succeeds and reports
    itself idempotent, with the current balance, unless one of its own
    statements fails, and then it returns that error. *)
Theorem settle_exactly_once env db acct tor rt q p c reason txn db' r
    lost ps s env' tor' rt' q' p' c' reason' :
  txn <> "" ->
  Settle env db acct tor rt q p c reason txn = (db', Ok r) ->
  rtc (commons_step lost) (db', ps) s ->
  exists b, acc_Balance <$> db_accounts s.1 !! acct = Some b /\
    (Settle env' s.1 acct tor' rt' q' p' c' reason' txn
       = (s.1, Ok (mkSettleResult txn b b c' true)) \/
     exists st, env_fails env' st = true /\
       Settle env' s.1 acct tor' rt' q' p' c' reason' txn = (s.1, Err st)).
Proof.
  intros Htxn E H. destruct (Settle_recorded _ _ _ _ _ _ _ _ _ _ _ _ Htxn E) as [Hin Ha].
  apply commons_run_kept in H as [[es Hes] Hk].
  apply Settle_known; [done| |by apply Hk].
  apply txn_known_in. rewrite Hes, fmap_app. apply elem_of_app. left. by apply txn_known_in.
Qed.

Lemma settle_exactly_once_witness :
  exists db' r (s : Commons_sys),
    Settle quiet_env emptyDB 7 3 ResourceDownload 10 1 4 ReasonDownload "t" = (db', Ok r) /\
    db_ledger s.1 <> db_ledger db' /\
    (exists b, acc_Balance <$> db_accounts s.1 !! 7 = Some b /\
      (Settle quiet_env s.1 7 3 ResourceDownload 99 1 50 ReasonDownload "t"
         = (s.1, Ok (mkSettleResult "t" b b 50 true)) \/
       exists st, env_fails quiet_env st = true /\
         Settle quiet_env s.1 7 3 ResourceDownload 99 1 50 ReasonDownload "t" = (s.1, Err st))).
Proof.
  destruct (Settle quiet_env emptyDB 7 3 ResourceDownload 10 1 4 ReasonDownload "t")
    as [db' [r|e]] eqn:E; [|vm_compute in E; discriminate E].
  destruct (settle_upload quiet_env db' DefaultPriceTable (sample_stats (2 ^ 30) 0))
    as [[db2 r2]|] eqn:E2; [|vm_compute in E; injection E as <- _; vm_compute in E2; discriminate E2].
  eexists db', r, (db2, _). split; [done|]. split.
  2: { eapply (settle_exactly_once quiet_env emptyDB 7 3 ResourceDownload 10 1 4 ReasonDownload "t"
               db' r true []); [done|exact E|].
       apply rtc_once. by eapply step_upload. }
  vm_compute in E. injection E as <- _. vm_compute in E2. injection E2 as <- _. vm_compute. discriminate.
Defined.

(** [C10] Atomicity and append-only ledger, on every branch of [Settle].  A
    failed settlement leaves the whole database as it was, and the error is
    the statement that failed.  A repeated one adds nothing to the ledger and
    to the budgets.  A fresh one appends exactly one entry, whose balances
    match the account, and touches no other account. *)
Theorem settle_atomic env db acct tor rt q p c reason txn :
  match Settle env db acct tor rt q p c reason txn with
  | (db', Err st) => db' = db /\ env_fails env st = true
  | (db', Ok r) =>
      (if sr_WasIdempotent r
       then db_ledger db' = db_ledger db /\ db_budgets db' = db_budgets db /\
            sr_BalanceAfter r = sr_BalanceBefore r
       else exists e, db_ledger db' = (db_ledger db ++ [e])%list /\
            le_TxnID e = sr_TxnID r /\ le_AccountID e = acct /\ le_Charge e = c /\
            le_BalanceAfter e = i64 (le_BalanceBefore e - c) /\
            le_BalanceAfter e = sr_BalanceAfter r) /\
      acc_Balance <$> db_accounts db' !! acct = Some (sr_BalanceAfter r) /\
      (forall u, u <> acct -> db_accounts db' !! u = db_accounts db !! u)
  end.
Proof.
  destruct (opened_lookup env db acct) as (a & Ha & Hb).
  destruct (Settle_cases env db acct tor rt q p c reason txn)
    as [(st & Hst & ->)|[[_ ->]|[_ ->]]]; [done| |]; simpl; split.
  - rewrite opened_ledger. split; [done|]. split; [|done].
    unfold opened. by destruct (db_accounts db !! acct).
  - rewrite Ha. split; [by rewrite <- Hb|]. intros u Hu. by apply opened_other.
  - by eexists.
  - rewrite lookup_alter_eq, Ha. split; [done|]. intros u Hu.
    rewrite lookup_alter_ne by done. by apply opened_other.
Qed.

(** The settlement key.  Two announces share a transaction id exactly
    when they have the same user, torrent, direction and whole second: the
    key is unambiguous, and the nanoseconds below the second do not count. *)
Theorem announceTxnID_iff u t n d u' t' n' d' :
  announceTxnID u t n d = announceTxnID u' t' n' d' <->
  u = u' /\ t = t' /\ Z.quot n Second = Z.quot n' Second /\ d = d'.
Proof.
  split; [|by intros (-> & -> & E & ->); unfold announceTxnID; rewrite E].
  unfold announceTxnID. intros E.
  apply append_inj_l in E.
  apply sep_inj in E as [Eu E]; [|apply dec_no_colon..].
  apply sep_inj in E as [Et E]; [|apply dec_no_colon..].
  apply sep_inj in E as [En E]; [|apply dec_no_colon..].
  apply dec_inj in Eu, Et, En. done.
Qed.

(** A settlement whose own statements succeed pays for the first
    download of a second only: after one, any later announce of the same
    user on the same torrent within that second, whatever it reports as
    downloaded, leaves the database unchanged and reports success. *)
Theorem same_second_download_free eu ed db pt stats db' c eu' ed' pt' p' stats' :
  0 < st_EffectiveDownloaded stats ->
  ChargeForDownload pt (st_EffectiveDownloaded stats) (st_Seeders stats) (st_Leechers stats)
    = Some c -> 0 < c ->
  SettleAnnounce eu ed db pt stats = Some (db', Ok tt) ->
  st_UserID stats' = st_UserID stats -> st_TorrentID stats' = st_TorrentID stats ->
  Z.quot (UnixNano (st_Timestamp stats')) Second = Z.quot (UnixNano (st_Timestamp stats)) Second ->
  st_EffectiveUploaded stats' <= 0 ->
  (forall st, env_fails ed' st = false) ->
  EffectiveForDownload pt' (st_Seeders stats') (st_Leechers stats') = Some p' ->
  SettleAnnounce eu' ed' db' pt' stats' = Some (db', Ok tt).
Proof.
  intros Hd Hc Hc0 E Hu Ht Hs Hup Hok Hp'.
  set (key := announceTxnID (st_UserID stats) (st_TorrentID stats)
                (UnixNano (st_Timestamp stats)) "dl").
  assert (key <> "") as Hkey by done.
  (* the first announce recorded its download under [key] *)
  unfold SettleAnnounce in E. apply bind_Some in E as ([d1 [?|?]] & _ & E); [|done].
  unfold settle_download in E. rewrite (proj2 (Z.ltb_lt 0 _) Hd), Hc in E. simpl in E.
  rewrite (proj2 (Z.ltb_lt 0 _) Hc0) in E. apply bind_Some in E as (p & _ & E).
  destruct (Settle ed d1 _ _ _ _ _ _ _ _) as [d2 [sr|?]] eqn:HS; simplify_eq. clear Hc.
  (* the second one finds it *)
  unfold SettleAnnounce, settle_upload.
  rewrite (proj2 (Z.ltb_ge 0 (st_EffectiveUploaded stats'))) by lia. simpl.
  unfold settle_download.
  destruct (Z.ltb_spec 0 (st_EffectiveDownloaded stats')) as [Hd'|]; [|done].
  unfold ChargeForDownload.
  rewrite (proj2 (Z.leb_gt (st_EffectiveDownloaded stats') 0)) by lia.
  rewrite Hp'. simpl.
  destruct (MulFrac _ _ _) as [c'|] eqn:Hm; [simpl|by unfold MulFrac in Hm; destruct (_ || _)].
  destruct (0 <? c'); [|done]. f_equal.
  assert (announceTxnID (st_UserID stats') (st_TorrentID stats')
            (UnixNano (st_Timestamp stats')) "dl" = key) as ->.
  { unfold key, announceTxnID. by rewrite Hu, Ht, Hs. }
  rewrite Hu.
  destruct (Settle_again ed d1 _ _ _ _ _ _ _ key db' sr ed'
    (st_TorrentID stats') ResourceDownload (st_EffectiveDownloaded stats') p' c' ReasonDownload
    Hkey HS Hok) as (b & _ & ->). done.
Qed.

Lemma same_second_download_free_witness :
  SettleAnnounce quiet_env quiet_env sample_db DefaultPriceTable (sample_stats 0 (2 ^ 34))
  = Some (sample_db, Ok tt).
Proof.
  eapply (same_second_download_free quiet_env quiet_env emptyDB DefaultPriceTable
            (sample_stats (2 ^ 30) (2 ^ 28)) sample_db);
    try (intros; vm_compute; reflexivity); vm_compute; congruence.
Defined.

(** ** Budgets *)

(** Global budgets are never consumed.  Settling announces, whatever
    they charge, leaves the budgets that cap a user over all torrents
    (torrent id NULL) exactly as they were. *)
Theorem global_budget_never_consumed eu ed db pt stats db' r :
  SettleAnnounce eu ed db pt stats = Some (db', r) ->
  filter (fun b => bud_TorrentID b = None) (db_budgets db') =
  filter (fun b => bud_TorrentID b = None) (db_budgets db).
Proof.
  apply (SettleAnnounce_preserves (fun d =>
    filter (fun b => bud_TorrentID b = None) (db_budgets d) =
    filter (fun b => bud_TorrentID b = None) (db_budgets db))); [|done].
  intros env d u t rt q p c reason txn Hd.
  destruct (Settle_cases env d u t rt q p c reason txn)
    as [(st & _ & ->)|[[_ ->]|[_ ->]]]; simpl; [done| |].
  - unfold opened. by destruct (db_accounts d !! u).
  - destruct (_ && _); [|done]. rewrite <- Hd. clear Hd.
    induction (db_budgets d) as [|b bs IH]; [done|]. rewrite fmap_cons, !filter_cons, IH.
    unfold consume_budget. destruct (_ && _ && _) eqn:Hb; [|done]. simpl.
    apply andb_true_iff in Hb as [[_ Hb%bool_decide_eq_true]%andb_true_iff _].
    by rewrite Hb.
Qed.

Definition capped_db : DB :=
  (SetUserBudget false false (SetUserBudget false false emptyDB 7 3 1).1 7 0 1).1.

Lemma global_budget_never_consumed_witness :
  exists db',
    SettleAnnounce quiet_env quiet_env capped_db DefaultPriceTable (sample_stats 0 (2 ^ 30))
    = Some (db', Ok tt) /\
    filter (fun b => bud_TorrentID b = None) (db_budgets db') =
    filter (fun b => bud_TorrentID b = None) (db_budgets capped_db).
Proof.
  eexists. split; [vm_compute; reflexivity|].
  eapply (global_budget_never_consumed quiet_env quiet_env capped_db DefaultPriceTable
            (sample_stats 0 (2 ^ 30))).
  vm_compute. reflexivity.
Defined.

(** A charge that does not fit is paid but not recorded.  When every
    budget of the user on the torrent has less room than the charge, the
    settlement still deducts the charge from the balance and leaves all
    budgets as they were, so the remaining budget never reaches zero. *)
Theorem over_budget_charge_unrecorded env db acct tor rt q p c reason txn a :
  (forall st, env_fails env st = false) ->
  txn <> "" -> txn_known txn (db_ledger db) = false ->
  db_accounts db !! acct = Some a ->
  Forall (fun b => bud_UserID b = acct -> bud_TorrentID b = Some tor ->
                   bud_MaxCredits b - bud_Consumed b < c) (db_budgets db) ->
  exists db',
    Settle env db acct tor rt q p c reason txn
    = (db', Ok (mkSettleResult txn (acc_Balance a) (i64 (acc_Balance a - c)) c false)) /\
    db_budgets db' = db_budgets db /\
    acc_Balance <$> db_accounts db' !! acct = Some (i64 (acc_Balance a - c)).
Proof.
  intros Hok Htxn Hf Ha Hb.
  assert (txn_key env txn = txn) as Hk.
  { unfold txn_key. by destruct (String.eqb_spec txn ""). }
  destruct (Settle_cases env db acct tor rt q p c reason txn)
    as [(st & Hst & _)|[[Hkn _]|[_ E]]]; rewrite ?Hk in *; [by rewrite Hok in Hst|congruence|].
  rewrite E. unfold posted, opened. rewrite Ha. simpl. eexists. split; [done|].
  split; [|simpl; by rewrite lookup_alter_eq, Ha]. simpl. destruct (_ && _); [|done].
  induction Hb as [|b bs Hib _ IH]; [done|]. rewrite fmap_cons, IH. f_equal.
  unfold consume_budget.
  destruct (_ && _ && _) eqn:Hx; [|done]. exfalso.
  apply andb_true_iff in Hx as [[Hu%Z.eqb_eq Ht%bool_decide_eq_true]%andb_true_iff Hc%Z.leb_le].
  specialize (Hib Hu Ht). lia.
Qed.

Lemma over_budget_charge_unrecorded_witness :
  exists db a db',
    CheckBudgetAvailable false 0 db 7 3 = Ok (FromCC 1) /\
    Settle quiet_env db 7 3 ResourceDownload 1 1 (FromCC 900) ReasonDownload "t"
    = (db', Ok (mkSettleResult "t" (acc_Balance a) (i64 (acc_Balance a - FromCC 900))
                  (FromCC 900) false)) /\
    db_budgets db' = db_budgets db.
Proof.
  set (db := (SetUserBudget false false
                (SetUserPriority false false 5 emptyDB 7 P2Standard).1 7 3 1).1).
  exists db, (mkAccount 7 DefaultStartingBalance 0 0 ReputationDefault P2Standard 5 5).
  destruct (over_budget_charge_unrecorded quiet_env db 7 3 ResourceDownload 1 1 (FromCC 900)
    ReasonDownload "t" (mkAccount 7 DefaultStartingBalance 0 0 ReputationDefault P2Standard 5 5))
    as (db' & E & Hb & _); try done.
  - constructor; [|constructor]. intros _ _. vm_compute. reflexivity.
  - exists db'. split; [vm_compute; reflexivity|]. done.
Defined.

(** Setting a cap.  When both statements succeed, the user's budget on
    that torrent afterwards is the new cap, or the global one when that is
    tighter.  When the insertion fails after the deletion, the old cap is
    gone: with no other budget the user is unlimited. *)
Theorem SetUserBudget_effect db user tor cap now :
  0 < tor -> 0 <= cap < 2 ^ 43 ->
  Forall (fun b => bud_UserID b = user -> bud_TorrentID b = Some tor) (db_budgets db) ->
  (exists db', SetUserBudget false false db user tor cap = (db', Ok tt) /\
     CheckBudgetAvailable false now db' user tor = Ok (cap * CreditScale)) /\
  (exists db', SetUserBudget false true db user tor cap = (db', Err AdminDBError) /\
     CheckBudgetAvailable false now db' user tor = Ok MaxCredit).
Proof.
  intros Ht Hcap Hall. unfold SetUserBudget.
  assert (filter (fun b => budget_applies user tor now b = true)
           (filter (fun b => negb (same_scope user tor b)) (db_budgets db)) = []) as Hnone.
  { induction Hall as [|b bs Hb _ IH]; [done|]. rewrite filter_cons.
    destruct (decide (negb (same_scope user tor b))) as [Hs|Hs]; [|done].
    rewrite filter_cons, IH. destruct (decide (_ = true)) as [Ha|]; [|done]. exfalso.
    unfold budget_applies in Ha. rewrite !andb_true_iff, Z.eqb_eq in Ha.
    destruct Ha as [[Hu _] _]. unfold same_scope, nullableUint32 in Hs.
    rewrite (proj2 (Z.eqb_neq tor 0)), (Hb Hu), Hu, Z.eqb_refl, bool_decide_true in Hs by (done || lia).
    done. }
  split; eexists; (split; [reflexivity|]); unfold CheckBudgetAvailable; simpl.
  - rewrite filter_app, Hnone. simpl. rewrite filter_cons, filter_nil.
    unfold nullableUint32. rewrite (proj2 (Z.eqb_neq tor 0)) by lia.
    unfold budget_applies. simpl. rewrite !Z.eqb_refl. simpl.
    unfold Raw, FromCC. rewrite i64_id by (unfold CreditScale; range). rewrite Z.sub_0_r.
    unfold CreditScale in *. destruct (Z.ltb_spec (cap * 1000000) 0); [lia|done].
  - by rewrite Hnone.
Qed.

Lemma SetUserBudget_effect_witness :
  (exists db', SetUserBudget false false emptyDB 7 3 200 = (db', Ok tt) /\
     CheckBudgetAvailable false 0 db' 7 3 = Ok (200 * CreditScale)) /\
  (exists db', SetUserBudget false true emptyDB 7 3 200 = (db', Err AdminDBError) /\
     CheckBudgetAvailable false 0 db' 7 3 = Ok MaxCredit).
Proof. apply (SetUserBudget_effect emptyDB 7 3 200 0); [lia|lia|constructor]. Defined.

(** ** Prices and credits *)

(** Fixed-point scaling.  [MulFrac] computes the product truncated
    towards zero exactly, for either sign, whenever the one product it forms
    on the remainder and the result itself fit 64 bits. *)
Theorem MulFrac_exact (c num denom : Z) :
  in_i64 c -> 0 < denom ->
  in_i64 (Z.rem c denom * num) -> in_i64 (Z.quot (c * num) denom) ->
  MulFrac c num denom = Some (Z.quot (c * num) denom).
Proof. intros Hc Hd Hr Hq. rewrite MulFrac_eq by done. by rewrite i64_id. Qed.

Lemma MulFrac_exact_witness :
  MulFrac (-7000000) 1500 1000 = Some (Z.quot (-7000000 * 1500) 1000) /\
  MulFrac 50000000 (5 * 2 ^ 30) ResourceGB = Some (Z.quot (50000000 * (5 * 2 ^ 30)) ResourceGB).
Proof.
  split; apply MulFrac_exact; try (unfold ResourceGB; lia); split; vm_compute; congruence.
Defined.

(** Effective prices.  In a well-formed table and for realistic swarm
    sizes the price is computed without panic or overflow, stays within the
    configured floor and ceiling, does not fall when leechers join and does
    not rise when seeders join. *)
Theorem Effective_spec pt rt rp s l :
  table_ok pt -> pt_Prices pt !! rt = Some rp -> swarm_size s -> swarm_size l ->
  exists p, Effective pt rt s l = Some p /\ rp_Min rp <= p <= rp_Max rp /\
    (forall l', l <= l' -> swarm_size l' ->
       exists p', Effective pt rt s l' = Some p' /\ p <= p') /\
    (forall s', s <= s' -> swarm_size s' ->
       exists p', Effective pt rt s' l = Some p' /\ p' <= p).
Proof.
  intros Hok Hrp Hs Hl. destruct (proj2 (proj2 Hok) _ _ Hrp) as ((? & ?) & _ & ? & _).
  destruct Hs as [??], Hl as [??].
  exists (price_at rp (curve pt s l)). split; [by apply Effective_eq|].
  split; [by apply price_at_bounds|]. split.
  - intros l' Hll [? ?]. eexists. split; [by apply Effective_eq|].
    apply price_at_mono; [done..|]. by apply curve_mono_leechers.
  - intros s' Hss [? ?]. eexists. split; [by apply Effective_eq|].
    apply price_at_mono; [done..|]. by apply curve_anti_seeders.
Qed.

Lemma Effective_spec_witness :
  exists p, Effective DefaultPriceTable ResourceDownload 3 9 = Some p /\
            FromCC 10 <= p <= FromCC 500.
Proof.
  destruct (Effective_spec DefaultPriceTable ResourceDownload
              (mkPrice (FromCC 50) (FromCC 10) (FromCC 500)) 3 9) as (p & E & Hb & _).
  - apply (bool_decide_eq_true_1 (table_ok DefaultPriceTable)). vm_compute. reflexivity.
  - vm_compute. reflexivity.
  - split; vm_compute; congruence.
  - split; vm_compute; congruence.
  - exists p. split; [exact E|exact Hb].
Defined.

Lemma DefaultPriceTable_ok : table_ok DefaultPriceTable.
Proof. apply (bool_decide_eq_true_1 _). vm_compute. reflexivity. Qed.

(** The default floors and ceilings never bind: scarcity at most triples. *)
Lemma default_price rt base lo hi s l :
  pt_Prices DefaultPriceTable !! rt = Some (mkPrice (base * 1000) lo hi) ->
  0 <= base -> lo <= base * 1000 -> base * 3000 <= hi ->
  swarm_size s -> swarm_size l ->
  Effective DefaultPriceTable rt s l = Some (base * curve DefaultPriceTable s l).
Proof.
  intros Hrp Hb Hlo Hhi Hs Hl. rewrite (Effective_eq _ _ _ _ _ DefaultPriceTable_ok Hs Hl Hrp).
  pose proof (curve_bounds _ s l DefaultPriceTable_ok Hs Hl) as [Hc1 Hc2]. simpl in Hc2.
  unfold price_at. simpl.
  replace (base * 1000 * curve DefaultPriceTable s l)
    with (base * curve DefaultPriceTable s l * 1000) by lia.
  rewrite Z.div_mul by lia. rewrite Clamp_id; [done|nia].
Qed.

(** Solvency of the default economy.  For the same bytes in the same
    swarm (up to 32 GiB per announce) the upload credit and the download
    charge are both computed without overflow, and the charge is five times
    the credit up to the rounding of one credit unit: a seeder never earns
    more than the leecher pays. *)
Theorem credit_charge_ratio bytes s l :
  0 < bytes <= 32 * ResourceGB -> swarm_size s -> swarm_size l ->
  exists c d, CreditForUpload DefaultPriceTable bytes s l = Some c /\
    ChargeForDownload DefaultPriceTable bytes s l = Some d /\
    0 <= c /\ 5 * c <= d <= 5 * c + 4.
Proof.
  intros [Hb0 Hb] Hs Hl. unfold ResourceGB in Hb.
  pose proof (curve_bounds _ s l DefaultPriceTable_ok Hs Hl) as [Hc1 Hc2]. simpl in Hc2.
  unfold CreditForUpload, ChargeForDownload, EffectiveForUpload, EffectiveForDownload.
  rewrite (proj2 (Z.leb_gt bytes 0)) by lia.
  rewrite (default_price ResourceUpload 10000 5000000 100000000) by (done || lia).
  rewrite (default_price ResourceDownload 50000 10000000 500000000) by (done || lia).
  set (m := curve DefaultPriceTable s l) in *. simpl.
  rewrite !MulFrac_nonneg by (unfold ResourceGB; nia).
  eexists _, _. split; [done|]. split; [done|].
  assert (0 <= 10000 * m * bytes / ResourceGB) by (apply Z.div_pos; unfold ResourceGB; nia).
  split; [done|].
  replace (50000 * m * bytes) with (10000 * m * bytes * 5) by lia.
  set (x := 10000 * m * bytes). unfold ResourceGB.
  pose proof (Z.div_mod x (2 ^ 30) ltac:(lia)). pose proof (Z.mod_pos_bound x (2 ^ 30) ltac:(lia)).
  pose proof (Z.div_mod (x * 5) (2 ^ 30) ltac:(lia)).
  pose proof (Z.mod_pos_bound (x * 5) (2 ^ 30) ltac:(lia)). lia.
Qed.

Lemma credit_charge_ratio_witness :
  exists c d, CreditForUpload DefaultPriceTable (3 * 2 ^ 30 + 1) 2 40 = Some c /\
    ChargeForDownload DefaultPriceTable (3 * 2 ^ 30 + 1) 2 40 = Some d /\
    0 <= c /\ 5 * c <= d <= 5 * c + 4.
Proof.
  apply (credit_charge_ratio (3 * 2 ^ 30 + 1) 2 40); [unfold ResourceGB; lia|..];
    unfold swarm_size; lia.
Defined.

(** Overflow of the charge.  In a starved swarm (no seeders, a thousand
    leechers) a reported download of 60 GiB is worth 9000 CC, but the 64-bit
    product wraps, the charge comes out negative, and the announce settles
    without charging anything, on any database. *)
Theorem download_charge_overflow eu ed db stats :
  stats = mkStats 7 3 0 0 0 (60 * 2 ^ 30) 0 1000 false false unixToInternal ->
  EffectiveForDownload DefaultPriceTable 0 1000 = Some (FromCC 150) /\
  (exists c, ChargeForDownload DefaultPriceTable (60 * 2 ^ 30) 0 1000 = Some c /\ c < 0) /\
  SettleAnnounce eu ed db DefaultPriceTable stats = Some (db, Ok tt).
Proof.
  intros ->. split; [vm_compute; reflexivity|]. split.
  - eexists. split; [vm_compute; reflexivity|]. lia.
  - vm_compute. reflexivity.
Qed.

Lemma download_charge_overflow_witness :
  SettleAnnounce quiet_env quiet_env emptyDB DefaultPriceTable
    (mkStats 7 3 0 0 0 (60 * 2 ^ 30) 0 1000 false false unixToInternal) = Some (emptyDB, Ok tt).
Proof. by apply (download_charge_overflow quiet_env quiet_env emptyDB). Defined.

(** ** The economic scheduler *)

(** Ranking.  When every uptime is a sensible number of seconds the
    ranking returns, and it is the candidates sorted by descending score,
    each exactly once, with equal scores in their original order. *)
Theorem rankCandidates_correct req :
  Forall (fun c => 0 <= sc_UptimeSec c < 2 ^ 54) (ar_Candidates req) ->
  exists items, rankCandidates req = Some (fst <$> items) /\
    fst <$> items ≡ₚ ar_Candidates req /\
    Forall (fun it => candidate_score it.1 = Some it.2) items /\
    StronglySorted (fun a b => b.2 <= a.2) items /\
    exists scores, mapM candidate_score (ar_Candidates req) = Some scores /\
      forall k, filter (fun it => it.2 = k) items =
                filter (fun it => it.2 = k) (zip (ar_Candidates req) scores).
Proof.
  intros Hup. unfold rankCandidates.
  assert (exists scores, mapM candidate_score (ar_Candidates req) = Some scores /\
     mapM (fun c => s ← candidate_score c; Some (c, s)) (ar_Candidates req)
     = Some (zip (ar_Candidates req) scores) /\
     Forall (fun it => candidate_score it.1 = Some it.2) (zip (ar_Candidates req) scores) /\
     fst <$> zip (ar_Candidates req) scores = ar_Candidates req)
    as (scores & Hs & -> & Hf & Hfst).
  { induction Hup as [|c cs Hc _ (scores & IH1 & IH2 & IH3 & IH4)]; [by exists []|].
    assert (exists s, candidate_score c = Some s) as [s Hcs].
    { unfold candidate_score. rewrite (i64_id (sc_UptimeSec c * 400)) by range.
      rewrite (i64_id (sc_UptimeSec c + 3600)), (i64_id (sc_UptimeSec c + 3600 + 1)) by range.
      rewrite go_div_nonneg by lia. simpl. eauto. }
    exists (s :: scores). simpl. rewrite Hcs. simpl. rewrite IH1, IH2. simpl.
    split; [done|]. split; [done|]. split; [by constructor|by f_equal]. }
  exists (insertion_sort (zip (ar_Candidates req) scores)). simpl. split; [done|].
  split; [by rewrite insertion_sort_perm, Hfst|].
  split; [by rewrite insertion_sort_perm|].
  split; [apply insertion_sort_sorted|].
  exists scores. split; [done|]. intros k. apply insertion_sort_stable.
Qed.

Definition sample_req (pc : Z) : AllocationRequest :=
  mkRequest 7 3 (Some (mkWE 7 0 pc 0 true None 0))
    [mkCandidate 1 false false 100 5000 0 2; mkCandidate 2 true false 100 5000 0 2;
     mkCandidate 3 true false 100 5000 0 2] 3 4.

Lemma rankCandidates_correct_witness :
  exists items : list scored, rankCandidates (sample_req 2) = Some (fst <$> items) /\
    fst <$> items ≡ₚ ar_Candidates (sample_req 2).
Proof.
  destruct (rankCandidates_correct (sample_req 2)) as (items & E & Hp & _).
  - repeat constructor; simpl; lia.
  - exists items. split; [exact E|exact Hp].
Defined.

(** Policy outranks price.  Whenever [Evaluate] returns: a protected
    request is accepted at no cost whatever the balance and the budget; an
    unprotected one without balance or budget is rejected; an accepted
    decision lists exactly the candidates of the request, and a rejected one
    lists none and names one of the three reasons. *)
Theorem Evaluate_policy pt req bal bud d :
  Evaluate pt req bal bud = Some d ->
  let we := default (default_economics (ar_LeecherUserID req)) (ar_Economics req) in
  let pc := EffectivePriority we in
  (IsProtected pc = true -> ad_Accepted d = true /\ ad_EstimatedCost d = 0) /\
  (IsProtected pc = false -> bal <= 0 \/ bud <= 0 -> ad_Accepted d = false) /\
  (ad_Accepted d = true -> rankCandidates req = Some (ad_RankedSeeders d)) /\
  (ad_Accepted d = false ->
     ad_RankedSeeders d = [] /\ IsProtected pc = false /\
     ((ad_RejectionReason d = "insufficient_balance" /\ bal <= 0) \/
      (ad_RejectionReason d = "budget_exhausted" /\ bud <= 0) \/
      (ad_RejectionReason d = "price_cap_exceeded" /\ pc = P3Opportunistic))).
Proof.
  unfold Evaluate. intros E. cbn zeta.
  replace (match ar_Economics req with Some we => we
           | None => default_economics (ar_LeecherUserID req) end)
    with (default (default_economics (ar_LeecherUserID req)) (ar_Economics req)) in E
    by (by destruct (ar_Economics req)).
  set (we := default _ _) in *. set (pc := EffectivePriority we) in *.
  apply bind_Some in E as (p & _ & E). destruct (IsProtected pc) eqn:Hpc.
  { apply bind_Some in E as (rk & Hrk & [= <-]). simpl. naive_solver. }
  apply bind_Some in E as (cost & _ & E). rewrite !andb_true_r in E.
  destruct (Z.leb_spec bal 0). { simplify_eq. simpl. naive_solver. }
  destruct (Z.leb_spec bud 0). { simplify_eq. simpl. naive_solver. }
  destruct (cap_exceeded we p), (Z.eqb_spec pc P3Opportunistic) as [Hp3|];
    try (apply bind_Some in E as (rk & Hrk & E)); simplify_eq; simpl;
    (split; [done|]); (split; [lia|]); (split; [done|]); try done.
  intros _. split; [done|]. split; [done|]. by do 2 right.
Qed.

Lemma Evaluate_policy_witness :
  (exists d, Evaluate DefaultPriceTable (sample_req 1) (-5) 0 = Some d /\ ad_Accepted d = true) /\
  (exists d, Evaluate DefaultPriceTable (sample_req 3) 0 5 = Some d /\ ad_Accepted d = false).
Proof.
  split.
  - destruct (Evaluate DefaultPriceTable (sample_req 1) (-5) 0) as [d|] eqn:E;
      [|vm_compute in E; discriminate E].
    exists d. split; [done|].
    destruct (Evaluate_policy _ _ _ _ _ E) as [H _]. apply H. vm_compute. reflexivity.
  - destruct (Evaluate DefaultPriceTable (sample_req 3) 0 5) as [d|] eqn:E;
      [|vm_compute in E; discriminate E].
    exists d. split; [done|].
    destruct (Evaluate_policy _ _ _ _ _ E) as (_ & H & _). apply H; [vm_compute; reflexivity|lia].
Defined.
