(* ===== verification/NetIP.v ===== *)
(** * IP addresses (the parts of Go's package net that the tracker uses) and
      the address helpers of tracker/types.go and tracker/optimize.go

    A [net.IP] is its byte slice; the empty list is [nil].  [net.ParseIP] is
    not modelled: the functions that call it take it as an argument. *)
From Stdlib Require Import String.
From S2P Require Import Prelude GoStr.
Open Scope Z_scope.

Abbreviation IP := (list Z).

Definition v4InV6Prefix : list Z := [0;0;0;0;0;0;0;0;0;0;255;255].

Definition To4 (ip : IP) : IP :=
  if (length ip =? 4)%nat then ip
  else if ((length ip =? 16)%nat && bool_decide (take 12 ip = v4InV6Prefix))%bool
  then drop 12 ip else [].

Definition To16 (ip : IP) : IP :=
  if (length ip =? 4)%nat then (v4InV6Prefix ++ ip)%list
  else if (length ip =? 16)%nat then ip else [].

Definition IPEqual (ip x : IP) : bool :=
  if (length ip =? length x)%nat then bool_decide (ip = x)
  else if ((length ip =? 4)%nat && (length x =? 16)%nat)%bool then
    bool_decide (x = v4InV6Prefix ++ ip)%list
  else if ((length ip =? 16)%nat && (length x =? 4)%nat)%bool then
    bool_decide (ip = v4InV6Prefix ++ x)%list
  else false.

Definition IPv4zero : IP := (v4InV6Prefix ++ [0;0;0;0])%list.
Definition IPv6unspecified : IP := replicate 16 0.

Definition IsUnspecified (ip : IP) : bool := IPEqual ip IPv4zero || IPEqual ip IPv6unspecified.

(** ** Printing: dotted decimal for IPv4, RFC 5952 for IPv6 *)

Definition hex_digit (z : Z) : string :=
  String (byte_ascii (if z <? 10 then 48 + z else 87 + z)) "".

(** Two hexadecimal digits per byte, for slices of any other length. *)
Definition hexString (b : list Z) : string :=
  String.concat "" ((fun z => hex_digit (z / 16) +:+ hex_digit (z mod 16)) <$> b).

(** A 16-bit group without leading zeros. *)
Definition hex16 (z : Z) : string :=
  (if 4096 <=? z then hex_digit (z / 4096) else "") +:+
  (if 256 <=? z then hex_digit (z / 256 mod 16) else "") +:+
  (if 16 <=? z then hex_digit (z / 16 mod 16) else "") +:+ hex_digit (z mod 16).

Fixpoint groups16 (b : list Z) : list Z :=
  match b with
  | hi :: lo :: b' => 256 * hi + lo :: groups16 b'
  | _ => []
  end.

(** Length of the run of zero groups that starts the list. *)
Fixpoint zero_run (g : list Z) : nat :=
  match g with
  | 0 :: g' => S (zero_run g')
  | _ => 0%nat
  end.

(** Start and end of the first longest run of at least two zero groups. *)
Fixpoint longest_run (i : nat) (g : list Z) (best : nat * nat) : nat * nat :=
  match g with
  | [] => best
  | _ :: g' =>
      let l := zero_run g in
      longest_run (S i) g'
        (if ((2 <=? l) && (best.2 - best.1 <? l))%nat%bool then (i, (i + l)%nat) else best)
  end.

Definition v6String (b : list Z) : string :=
  let g := groups16 b in
  let '(z0, z1) := longest_run 0 g (0%nat, 0%nat) in
  let show (l : list Z) := String.concat ":" (hex16 <$> l) in
  if (z0 =? z1)%nat then show g
  else show (take z0 g) +:+ "::" +:+ show (drop z1 g).

Definition IPString (ip : IP) : string :=
  match ip with
  | [] => "<nil>"
  | _ =>
      if negb ((length ip =? 4)%nat || (length ip =? 16)%nat) then "?" +:+ hexString ip
      else match To4 ip with
           | [a; b; c; d] => dec a +:+ "." +:+ dec b +:+ "." +:+ dec c +:+ "." +:+ dec d
           | _ => v6String ip
           end
  end.

Example v6_compression :
  IPString [32;1;13;184;0;0;0;0;0;0;0;0;0;0;0;1] = "2001:db8::1" /\
  IPString (replicate 16 0) = "::" /\ IPString [10;0;0;1] = "10.0.0.1".
Proof. vm_compute. auto. Qed.

(** ** Compact peer addresses (BEP 23, BEP 7) *)

Definition CompactIPPort (ip : IP) (port : Z) : list Z :=
  match To4 ip with
  | [] => []
  | ipv4 => (take 4 (ipv4 ++ [0;0;0;0]) ++ [u8 (Z.shiftr port 8); u8 (Z.land port 255)])%list
  end.

Definition CompactIPv6Port (ip : IP) (port : Z) : list Z :=
  match To16 ip with
  | [] => []
  | ipv6 =>
      match To4 ip with
      | [] => (take 16 (ipv6 ++ replicate 16 0) ++
               [u8 (Z.shiftr port 8); u8 (Z.land port 255)])%list
      | _ => []
      end
  end.

(** [ipv4[i]] is only read when [To4] returned four bytes. *)
Definition ValidateIPNotPrivate (ip : IP) : bool :=
  match ip with
  | [] => false
  | _ =>
      match To4 ip with
      | a :: b :: _ =>
          negb ((a =? 0) || (a =? 10) || (a =? 127) ||
                ((a =? 169) && (b =? 254)) ||
                ((a =? 172) && (16 <=? b) && (b <=? 31)) ||
                ((a =? 192) && (b =? 168)) ||
                (224 <=? a))
      | _ => true
      end
  end.

(** ** Lemmas *)

Lemma To4_length (ip : IP) : length (To4 ip) = 0%nat \/ length (To4 ip) = 4%nat.
Proof.
  unfold To4. destruct (Nat.eqb_spec (length ip) 4); [by right|].
  destruct (Nat.eqb_spec (length ip) 16); simpl; [|by left].
  case_bool_decide; [|by left]. right. rewrite length_drop. lia.
Qed.

Lemma CompactIPPort_length (ip : IP) (port : Z) :
  CompactIPPort ip port = [] \/ length (CompactIPPort ip port) = 6%nat.
Proof.
  unfold CompactIPPort. destruct (To4_length ip) as [H|H]; destruct (To4 ip) as [|a l] eqn:E;
    simpl in H; try lia; [by left|right].
  by destruct l as [|b [|c [|d [|e l]]]].
Qed.

Lemma port_bytes (port : Z) : 0 <= port < 2 ^ 16 ->
  u8 (Z.shiftr port 8) = port / 256 /\ u8 (Z.land port 255) = port mod 256.
Proof.
  intros Hp. unfold u8, wrap_u. change 255 with (Z.ones 8).
  rewrite Z.shiftr_div_pow2, Z.land_ones by lia. change (2 ^ 8) with 256.
  rewrite Z.mod_mod by lia. split; [|done]. apply Z.mod_small.
  split; [apply Z.div_pos; lia|]. apply Z.div_lt_upper_bound; lia.
Qed.
