(* ===== verification/TrackerTypes.v ===== *)
(** * The tracker's in-memory state (tracker/types.go)

    Peers, torrents, users, the three keyed lists and the global counters.
    The lists are finite maps; Go leaves the iteration order of a map
    unspecified, so every traversal takes the order as an argument, any
    function that returns the bindings of the map in some order
    ([map_order]).  Each method holds the list's mutex for its whole body, so
    a method is one atomic function here. *)
From Stdlib Require Import String.
From S2P Require Import Prelude GoStr NetIP.
Open Scope Z_scope.

Definition FreeNormal : Z := 0.
Definition FreeFree : Z := 1.
Definition FreeNeutral : Z := 2.

Record Peer := mkPeer {
  p_UserID : Z;
  p_Uploaded : Z;
  p_Downloaded : Z;
  p_Corrupt : Z;
  p_Left : Z;
  p_LastAnnounced : Z;
  p_FirstAnnounced : Z;
  p_Announces : Z;
  p_Port : Z;
  p_IP : IP;
  p_IPPort : list Z;
  p_Visible : bool;
  p_InvalidIP : bool;
  p_ConnectionTimes : list Z
}.

(** [&Peer{UserID: id}] *)
Definition zeroPeer (id : Z) : Peer :=
  mkPeer id 0 0 0 0 0 0 0 0 [] [] false false [].

Abbreviation PeerList := (gmap string Peer).

Record Torrent := mkTorrent {
  t_ID : Z;
  t_Completed : Z;
  t_Balance : Z;
  t_FreeType : Z;
  t_MinReplicas : Z;
  t_LastFlushed : Z;
  t_Seeders : PeerList;
  t_Leechers : PeerList;
  t_TokenedUsers : gset Z;
  t_LastSelectedSeeder : string
}.

Definition NewTorrent (id : Z) : Torrent :=
  mkTorrent id 0 0 FreeNormal 0 0 ∅ ∅ ∅ "".

Record User := mkUser {
  u_ID : Z;
  u_Deleted : bool;
  u_CanLeech : bool;
  u_ProtectIP : bool;
  u_Leeching : Z;
  u_Seeding : Z
}.

Definition NewUser (id : Z) (canLeech protectIP : bool) : User :=
  mkUser id false canLeech protectIP 0 0.

Abbreviation TorrentList := (gmap string Torrent).
Abbreviation UserList := (gmap string User).

Record Stats := mkTStats {
  s_OpenConnections : Z;
  s_OpenedConnections : Z;
  s_Leechers : Z;
  s_Seeders : Z;
  s_Requests : Z;
  s_Announcements : Z;
  s_SuccAnnouncements : Z;
  s_Scrapes : Z;
  s_BytesRead : Z;
  s_BytesWritten : Z;
  s_EvictedPeers : Z;
  s_AnomalyDetections : Z;
  s_StartTime : Z;
  s_ClientRejections : Z;
  s_AnomalyRejections : Z
}.

Definition zeroStats : Stats := mkTStats 0 0 0 0 0 0 0 0 0 0 0 0 0 0 0.

(** [x.Add(1)] and [x.Add(^uint32(0))] on an atomic.Uint32, and [x.Add(n)] on
    an atomic.Uint64. *)
Definition inc32 (z : Z) : Z := u32 (z + 1).
Definition dec32 (z : Z) : Z := u32 (z + (2 ^ 32 - 1)).
Definition add64 (n z : Z) : Z := u64 (z + n).

(** ** The keyed lists *)

Section KeyedList.
Context {A : Type}.
Implicit Types (m : gmap string A) (k : string) (v : A).

Definition Get m k : option A := m !! k.
Definition SetKey m k v : gmap string A := <[k := v]> m.
Definition DeleteKey m k : gmap string A := delete k m.
Definition Size m : Z := Z.of_nat (size m).

Definition map_order (order : gmap string A -> list (string * A)) : Prop :=
  forall m, order m ≡ₚ map_to_list m.

(** [fn] returns the new state and whether to go on. *)
Fixpoint ForEach {St} (fn : string -> A -> St -> St * bool) (l : list (string * A)) (s : St)
    : St * bool :=
  match l with
  | [] => (s, true)
  | (k, v) :: l' =>
      let '(s', cont) := fn k v s in
      if cont then ForEach fn l' s' else (s', false)
  end.
End KeyedList.

(** One batch: the keys are looked up again under the lock, and those that
    are gone are skipped. *)
Fixpoint visit_batch {A St} (fn : string -> A -> St -> St * bool) (m : gmap string A)
    (keys : list string) (s : St) : St * bool :=
  match keys with
  | [] => (s, true)
  | k :: keys' =>
      match m !! k with
      | None => visit_batch fn m keys' s
      | Some v =>
          let '(s', cont) := fn k v s in
          if cont then visit_batch fn m keys' s' else (s', false)
      end
  end.

(** The batches see the list as it is when each takes the lock: [tl i] is the
    list at the start of batch [i].  Fuel: one unit per batch; a batch size
    of zero or less never advances, and runs out of any fuel. *)
Fixpoint batches {A St} (fuel : nat) (batchSize : Z) (fn : string -> A -> St -> St * bool)
    (tl : nat -> gmap string A) (n : nat) (keys : list string) (s : St) : option St :=
  match fuel with
  | O => None
  | S fuel' =>
      match keys with
      | [] => Some s
      | _ =>
          let '(s', cont) := visit_batch fn (tl n) (take (Z.to_nat batchSize) keys) s in
          if cont
          then batches fuel' batchSize fn tl (S n) (drop (Z.to_nat batchSize) keys) s'
          else Some s'
      end
  end.

Definition ForEachBatch {A St} (order : gmap string A -> list (string * A))
    (batchSize : Z) (fn : string -> A -> St -> St * bool) (tl : nat -> gmap string A) (s : St)
    : option St :=
  let keys := (order (tl 0%nat)).*1 in
  batches (S (length keys)) batchSize fn tl 0 keys s.

(** The first user with the id, in iteration order. *)
Definition GetByID (order : UserList -> list (string * User)) (ul : UserList) (id : Z)
    : option User :=
  snd <$> List.find (fun '(_, u) => u_ID u =? id) (order ul).

(** ** Lemmas *)

Lemma visit_batch_ForEach {A St} (fn : string -> A -> St -> St * bool) (m : gmap string A)
    (l : list (string * A)) (s : St) :
  (forall k v, (k, v) ∈ l -> m !! k = Some v) ->
  visit_batch fn m l.*1 s = ForEach fn l s.
Proof.
  revert s. induction l as [|[k v] l IH]; intros s Hl; [done|].
  csimpl. rewrite (Hl k v) by left. destruct (fn k v s) as [s' []]; [|done].
  apply IH. intros k' v' Hin. apply Hl. by right.
Qed.

Lemma ForEach_app {A St} (fn : string -> A -> St -> St * bool) (l1 l2 : list (string * A)) (s : St) :
  ForEach fn (l1 ++ l2) s =
  (let '(s', cont) := ForEach fn l1 s in if cont then ForEach fn l2 s' else (s', false)).
Proof.
  revert s. induction l1 as [|[k v] l1 IH]; intros s; simpl; [done|].
  destruct (fn k v s) as [s' []]; [apply IH|done].
Qed.

Lemma batches_nonempty {A St} (fuel : nat) (b : Z) (fn : string -> A -> St -> St * bool)
    (tl : nat -> gmap string A) (n : nat) (keys : list string) (s : St) :
  keys <> [] ->
  batches (S fuel) b fn tl n keys s =
  (let '(s', cont) := visit_batch fn (tl n) (take (Z.to_nat b) keys) s in
   if cont then batches fuel b fn tl (S n) (drop (Z.to_nat b) keys) s' else Some s').
Proof. by destruct keys. Qed.

Lemma batches_ForEach {A St} (b : Z) (fn : string -> A -> St -> St * bool) (m : gmap string A)
    (l : list (string * A)) (fuel n : nat) (s : St) :
  0 < b -> (length l < fuel)%nat -> (forall k v, (k, v) ∈ l -> m !! k = Some v) ->
  batches fuel b fn (fun _ => m) n l.*1 s = Some (ForEach fn l s).1.
Proof.
  intros Hb. revert n l s. induction fuel as [|fuel IH]; intros n l s Hf Hl; [lia|].
  destruct (decide (l = [])) as [->|Hne]; [done|].
  assert (length l <> 0)%nat by (by destruct l).
  rewrite batches_nonempty by (by destruct l).
  rewrite <- fmap_take, <- fmap_drop, visit_batch_ForEach.
  2: { intros k' v' Hin. apply Hl. rewrite <- (take_drop (Z.to_nat b) l).
       apply elem_of_app. by left. }
  rewrite <- (take_drop (Z.to_nat b) l) at 2. rewrite ForEach_app.
  destruct (ForEach fn (take (Z.to_nat b) l) s) as [s' []]; [|done].
  apply IH.
  - rewrite length_drop. lia.
  - intros k' v' Hin. apply Hl. rewrite <- (take_drop (Z.to_nat b) l).
    apply elem_of_app. by right.
Qed.
