(* ===== verification/CircuitBreaker.v ===== *)
(** * The circuit breaker (tracker/circuit_breaker.go)

    [canExecute] and [recordResult] each hold the mutex, so they are the
    atomic steps; between them the protected function runs unlocked, and any
    number of calls may be in flight.  [time.Now] is an argument of each step.
    Log lines are left out.  [Execute] and [ExecuteWithContext] differ only
    in the argument they hand to the protected function. *)
From Stdlib Require Import String.
From stdpp Require Import relations.
From S2P Require Import Prelude.
Open Scope Z_scope.

Inductive CircuitState := StateClosed | StateOpen | StateHalfOpen.

#[global] Instance CircuitState_eq_dec : EqDecision CircuitState.
Proof. solve_decision. Defined.

Record CircuitBreaker := mkCB {
  cb_name : string;
  cb_maxFailures : Z;
  cb_resetTimeout : Z;
  cb_halfOpenMax : Z;
  cb_state : CircuitState;
  cb_failures : Z;
  cb_lastFailTime : Z;
  cb_halfOpenCount : Z
}.

Record CircuitBreakerConfig := mkCBConfig {
  cfg_Name : string;
  cfg_MaxFailures : Z;
  cfg_ResetTimeout : Z;
  cfg_HalfOpenMax : Z
}.

Definition NewCircuitBreaker (config : CircuitBreakerConfig) : CircuitBreaker :=
  mkCB (cfg_Name config)
    (if cfg_MaxFailures config =? 0 then 5 else cfg_MaxFailures config)
    (if cfg_ResetTimeout config =? 0 then 30 * Second else cfg_ResetTimeout config)
    (if cfg_HalfOpenMax config =? 0 then 3 else cfg_HalfOpenMax config)
    StateClosed 0 0 0.

Definition canExecute (now : Z) (cb : CircuitBreaker) : CircuitBreaker * bool :=
  match cb_state cb with
  | StateClosed => (cb, true)
  | StateOpen =>
      if cb_resetTimeout cb <=? TimeSub now (cb_lastFailTime cb)
      then (cb {{ cb_state := StateHalfOpen; cb_halfOpenCount := 0 }}, true)
      else (cb, false)
  | StateHalfOpen =>
      if cb_halfOpenCount cb <? cb_halfOpenMax cb
      then (cb {{ cb_halfOpenCount ::= fun n => u32 (n + 1) }}, true)
      else (cb, false)
  end.

Definition onSuccess (cb : CircuitBreaker) : CircuitBreaker :=
  match cb_state cb with
  | StateClosed => cb {{ cb_failures := 0 }}
  | StateHalfOpen =>
      if cb_halfOpenMax cb <=? cb_halfOpenCount cb
      then cb {{ cb_state := StateClosed; cb_failures := 0; cb_halfOpenCount := 0 }}
      else cb
  | StateOpen => cb
  end.

Definition onFailure (now : Z) (cb : CircuitBreaker) : CircuitBreaker :=
  let cb := cb {{ cb_failures ::= fun n => u32 (n + 1); cb_lastFailTime := now }} in
  match cb_state cb with
  | StateClosed =>
      if cb_maxFailures cb <=? cb_failures cb then cb {{ cb_state := StateOpen }} else cb
  | StateHalfOpen => cb {{ cb_state := StateOpen; cb_halfOpenCount := 0 }}
  | StateOpen => cb
  end.

(** [ok] says that the protected call returned a nil error. *)
Definition recordResult (now : Z) (ok : bool) (cb : CircuitBreaker) : CircuitBreaker :=
  if ok then onSuccess cb else onFailure now cb.

Inductive ExecOutcome := Rejected | Ran (ok : bool).

(** One call on its own: admitted at [t0], finished at [t1]. *)
Definition Execute (t0 t1 : Z) (ok : bool) (cb : CircuitBreaker) : CircuitBreaker * ExecOutcome :=
  match canExecute t0 cb with
  | (cb', false) => (cb', Rejected)
  | (cb', true) => (recordResult t1 ok cb', Ran ok)
  end.

Definition GetStateString (cb : CircuitBreaker) : string :=
  match cb_state cb with
  | StateClosed => "closed"
  | StateOpen => "open"
  | StateHalfOpen => "half-open"
  end.

Definition ResetBreaker (cb : CircuitBreaker) : CircuitBreaker :=
  cb {{ cb_state := StateClosed; cb_failures := 0; cb_halfOpenCount := 0 }}.

(** ** Concurrent runs: the breaker and the number of calls in flight *)

Inductive breaker_step : CircuitBreaker * nat -> CircuitBreaker * nat -> Prop :=
| step_admit now cb cb' n : canExecute now cb = (cb', true) -> breaker_step (cb, n) (cb', S n)
| step_reject now cb cb' n : canExecute now cb = (cb', false) -> breaker_step (cb, n) (cb', n)
| step_finish now ok cb n : breaker_step (cb, S n) (recordResult now ok cb, n)
| step_reset cb n : breaker_step (cb, n) (ResetBreaker cb, n).

Definition breaker_reachable (config : CircuitBreakerConfig) : CircuitBreaker * nat -> Prop :=
  rtc breaker_step (NewCircuitBreaker config, 0%nat).

Definition config_ok (config : CircuitBreakerConfig) : Prop :=
  in_u32 (cfg_MaxFailures config) /\ in_u32 (cfg_HalfOpenMax config).

(** The invariant: the thresholds are positive; the failure count stays under
    the threshold while closed; the trial count is zero outside half-open and
    never passes its limit; and a half-open breaker that has used up its
    trials still waits for one of them. *)
Definition breaker_ok (s : CircuitBreaker * nat) : Prop :=
  let '(cb, n) := s in
  0 < cb_maxFailures cb < 2 ^ 32 /\ 0 < cb_halfOpenMax cb < 2 ^ 32 /\
  0 <= cb_failures cb /\ (cb_state cb = StateClosed -> cb_failures cb < cb_maxFailures cb) /\
  0 <= cb_halfOpenCount cb <= cb_halfOpenMax cb /\
  (cb_state cb <> StateHalfOpen -> cb_halfOpenCount cb = 0) /\
  (cb_state cb = StateHalfOpen -> cb_halfOpenCount cb = cb_halfOpenMax cb -> (0 < n)%nat).

Ltac brk := repeat split; intros; try done; first [lia | auto].

Lemma breaker_ok_init config : config_ok config -> breaker_ok (NewCircuitBreaker config, 0%nat).
Proof.
  intros [H1 H2]. unfold in_u32 in *. unfold NewCircuitBreaker, breaker_ok. simpl.
  destruct (Z.eqb_spec (cfg_MaxFailures config) 0), (Z.eqb_spec (cfg_HalfOpenMax config) 0);
    brk.
Qed.

Lemma u32_inc_pos n : 0 <= u32 (n + 1).
Proof. apply u32_range. Qed.

Lemma breaker_ok_step s s' : breaker_ok s -> breaker_step s s' -> breaker_ok s'.
Proof.
  intros H Hstep. destruct Hstep as [now cb cb' n E|now cb cb' n E|now ok cb n|cb n];
    destruct cb as [nm mf rt hm st fl lf hc]; unfold breaker_ok in *; simpl in *;
    destruct H as (H1 & H2 & H3 & H4 & H5 & H6 & H7).
  - unfold canExecute in E. simpl in E. destruct st.
    + simplify_eq. simpl. brk.
    + destruct (_ <=? _); simplify_eq. simpl. brk.
    + destruct (Z.ltb_spec hc hm); simplify_eq. simpl. rewrite u32_id by (unfold in_u32; lia).
      brk.
  - unfold canExecute in E. simpl in E. destruct st; [done|..];
      case_match; simplify_eq; simpl; brk.
  - destruct ok; unfold recordResult, onSuccess, onFailure; simpl; destruct st; simpl.
    + brk.
    + brk.
    + destruct (Z.leb_spec hm hc); simpl; brk.
    + destruct (Z.leb_spec mf (u32 (fl + 1))); simpl; pose proof (u32_inc_pos fl);
        brk.
    + pose proof (u32_inc_pos fl). brk.
    + pose proof (u32_inc_pos fl). brk.
  - brk.
Qed.

Lemma breaker_reachable_ok config s :
  config_ok config -> breaker_reachable config s -> breaker_ok s.
Proof.
  intros Hc. unfold breaker_reachable.
  assert (breaker_ok (NewCircuitBreaker config, 0%nat)) as Hi by by apply breaker_ok_init.
  induction 1 as [|x y z Hxy _ IH]; [done|]. apply IH. by eapply breaker_ok_step.
Qed.

(** ** Runs of calls *)

(** [k] calls one after the other, each with the same result. *)
Fixpoint calls (k : nat) (ok : bool) (t : Z) (cb : CircuitBreaker) : CircuitBreaker :=
  match k with
  | O => cb
  | S k' => calls k' ok t (Execute t t ok cb).1
  end.

(** [k] calls that ask for admission before any of them finishes. *)
Fixpoint admissions (k : nat) (t : Z) (cb : CircuitBreaker) : list bool :=
  match k with
  | O => []
  | S k' => let '(cb', b) := canExecute t cb in b :: admissions k' t cb'
  end.

Definition elapsed (now : Z) (cb : CircuitBreaker) : Prop :=
  cb_resetTimeout cb <= TimeSub now (cb_lastFailTime cb).

Lemma half_open_calls (k : nat) (t : Z) (cb : CircuitBreaker) :
  cb_state cb = StateHalfOpen -> 0 <= cb_halfOpenCount cb -> cb_halfOpenMax cb < 2 ^ 32 ->
  cb_halfOpenCount cb + Z.of_nat k < cb_halfOpenMax cb ->
  calls k true t cb = cb {{ cb_halfOpenCount := cb_halfOpenCount cb + Z.of_nat k }}.
Proof.
  revert cb. induction k as [|k IH]; intros cb Hs H0 Hmax Hlt.
  - simpl. rewrite Z.add_0_r. by destruct cb.
  - destruct cb as [nm mf rt hm st fl lf hc]. simpl in *. subst st.
    unfold Execute, canExecute. simpl.
    rewrite (proj2 (Z.ltb_lt hc hm)) by lia. simpl. rewrite u32_id by (unfold in_u32; lia).
    unfold onSuccess. simpl. rewrite (proj2 (Z.leb_gt hm (hc + 1))) by lia.
    rewrite IH by (simpl; lia || done). simpl. f_equal. lia.
Qed.

Lemma calls_snoc (k : nat) (ok : bool) (t : Z) (cb : CircuitBreaker) :
  calls (S k) ok t cb = (Execute t t ok (calls k ok t cb)).1.
Proof. revert cb. induction k as [|k IH]; intros cb; [done|]. simpl in *. apply IH. Qed.

Lemma half_open_admissions (k : nat) (t : Z) (cb : CircuitBreaker) :
  cb_state cb = StateHalfOpen -> 0 <= cb_halfOpenCount cb <= cb_halfOpenMax cb ->
  cb_halfOpenMax cb < 2 ^ 32 ->
  forall m, admissions (Z.to_nat (cb_halfOpenMax cb - cb_halfOpenCount cb) + m) t cb =
    (replicate (Z.to_nat (cb_halfOpenMax cb - cb_halfOpenCount cb)) true ++
     replicate m false)%list.
Proof.
  intros Hs Hc Hmax m.
  remember (Z.to_nat (cb_halfOpenMax cb - cb_halfOpenCount cb)) as j eqn:Ej.
  revert cb Hs Hc Hmax Ej. induction j as [|j IH]; intros cb Hs Hc Hmax Ej;
    destruct cb as [nm mf rt hm st fl lf hc]; simpl in *; subst st.
  - induction m as [|m IHm]; [done|]. simpl. unfold canExecute at 1. simpl.
    rewrite (proj2 (Z.ltb_ge hc hm)) by lia. by rewrite IHm.
  - unfold canExecute. simpl. rewrite (proj2 (Z.ltb_lt hc hm)) by lia. simpl. f_equal.
    rewrite u32_id by (unfold in_u32; lia). apply IH; simpl; lia || done.
Qed.

Lemma closed_failure (t : Z) (cb : CircuitBreaker) :
  cb_state cb = StateClosed -> 0 <= cb_failures cb -> cb_maxFailures cb < 2 ^ 32 ->
  cb_failures cb + 1 < cb_maxFailures cb ->
  (Execute t t false cb).1 = cb {{ cb_failures := cb_failures cb + 1; cb_lastFailTime := t }}.
Proof.
  intros Hs H0 Hmax Hlt. destruct cb as [nm mf rt hm st fl lf hc]. simpl in *. subst st.
  unfold Execute, canExecute, recordResult, onFailure. simpl.
  rewrite u32_id by (unfold in_u32; lia). by rewrite (proj2 (Z.leb_gt mf (fl + 1))) by lia.
Qed.

Lemma closed_failures (k : nat) (t : Z) (cb : CircuitBreaker) :
  cb_state cb = StateClosed -> 0 <= cb_failures cb -> cb_maxFailures cb < 2 ^ 32 ->
  cb_failures cb + Z.of_nat (S k) < cb_maxFailures cb ->
  calls (S k) false t cb =
  cb {{ cb_failures := cb_failures cb + Z.of_nat (S k); cb_lastFailTime := t }}.
Proof.
  revert cb. induction k as [|k IH]; intros cb Hs H0 Hmax Hlt.
  - simpl. by rewrite closed_failure by lia || done.
  - rewrite calls_snoc, IH by lia || done.
    rewrite closed_failure by (destruct cb; simpl in *; lia || done).
    destruct cb. simpl. f_equal. lia.
Qed.

(** ** Properties *)

(** The number of calls admitted in the current half-open phase, the one that began it
    included: a step out of the phase forgets it. *)
Definition next_probes (cb : CircuitBreaker) (n : nat) (cb' : CircuitBreaker) (n' p : nat) : nat :=
  if decide (cb_state cb' = StateHalfOpen) then
    if decide (cb_state cb = StateHalfOpen) then (if (n' =? S n)%nat then S p else p) else 1%nat
  else 0%nat.

Inductive probe_step : CircuitBreaker * nat * nat -> CircuitBreaker * nat * nat -> Prop :=
| probe cb n p cb' n' :
    breaker_step (cb, n) (cb', n') -> probe_step (cb, n, p) (cb', n', next_probes cb n cb' n' p).

Lemma probes_counted cb n p cb' n' :
  cb_halfOpenMax cb < 2 ^ 32 -> 0 <= cb_halfOpenCount cb ->
  breaker_step (cb, n) (cb', n') ->
  (cb_state cb = StateHalfOpen -> Z.of_nat p = cb_halfOpenCount cb + 1) ->
  cb_state cb' = StateHalfOpen -> Z.of_nat (next_probes cb n cb' n' p) = cb_halfOpenCount cb' + 1.
Proof.
  intros Hm H0 Hs Hp Hs'. unfold next_probes. rewrite (decide_True _ _ Hs').
  inversion Hs as [now c c' k E|now c c' k E|now ok c k|c k]; subst; [..|done].
  - rewrite Nat.eqb_refl. unfold canExecute in E. destruct (cb_state cb) eqn:Est.
    + injection E as <-. congruence.
    + destruct (_ <=? _); [|done]. injection E as <-. rewrite decide_False by done. done.
    + destruct (Z.ltb_spec (cb_halfOpenCount cb) (cb_halfOpenMax cb)); [|done]. injection E as <-.
      rewrite decide_True by done. specialize (Hp eq_refl). clear Hs. destruct cb. cbn -[Z.of_nat] in *.
      rewrite u32_id by (unfold in_u32; lia). lia.
  - rewrite (proj2 (Nat.eqb_neq _ _)) by lia. unfold canExecute in E. destruct (cb_state cb) eqn:Est.
    + done.
    + destruct (_ <=? _); [done|]. injection E as <-. congruence.
    + destruct (_ <? _); [done|]. injection E as <-. rewrite decide_True by done. by apply Hp.
  - rewrite (proj2 (Nat.eqb_neq _ _)) by lia. destruct cb as [nm mf rt hm st fl lf hc].
    unfold recordResult, onSuccess, onFailure in *. cbn in *.
    destruct ok, st; cbn in *; repeat case_match; cbn in *; try done; by apply Hp.
Qed.

Lemma probes_reachable config cb n p :
  config_ok config -> rtc probe_step (NewCircuitBreaker config, 0%nat, 0%nat) (cb, n, p) ->
  breaker_reachable config (cb, n) /\
  (cb_state cb = StateHalfOpen -> Z.of_nat p = cb_halfOpenCount cb + 1).
Proof.
  intros Hc Hr.
  refine (rtc_ind_r (fun s => breaker_reachable config s.1 /\
    (cb_state s.1.1 = StateHalfOpen -> Z.of_nat s.2 = cb_halfOpenCount s.1.1 + 1)) _ _ _ (cb, n, p) Hr).
  - split; [apply rtc_refl|done].
  - intros y z _ [c k q cb' n' Hb] [H1 H2]. cbn in *. split; [by eapply rtc_r|].
    destruct (breaker_reachable_ok _ _ Hc H1) as (_ & [_ ?] & _ & _ & [? _] & _). by eapply probes_counted.
Qed.

(** [C34] Invariant of the breaker under any interleaving of admissions,
    completions and resets: below the failure threshold while closed, no trial
    counted outside half-open, and in one half-open phase at most one call more is
    let through than the configured number of trials (after default), the call
    that began the phase included, which is not counted as a trial.
    ([half_open_admission_count]: the bound is reached.)  A half-open breaker that has used up
    its trials still waits for one of them. *)
Theorem breaker_invariant config cb n probes :
  config_ok config -> rtc probe_step (NewCircuitBreaker config, 0%nat, 0%nat) (cb, n, probes) ->
  (cb_state cb = StateClosed -> cb_failures cb < cb_maxFailures cb) /\
  (cb_state cb <> StateHalfOpen -> cb_halfOpenCount cb = 0) /\
  (cb_state cb = StateHalfOpen -> 1 <= Z.of_nat probes <= cb_halfOpenMax cb + 1 /\
     (Z.of_nat probes = cb_halfOpenMax cb + 1 -> (0 < n)%nat /\ forall now, (canExecute now cb).2 = false)).
Proof.
  intros Hc Hr. destruct (probes_reachable _ _ _ _ Hc Hr) as [Hb Hp].
  destruct (breaker_reachable_ok _ _ Hc Hb) as (_ & _ & _ & H4 & H5 & H6 & H7).
  split; [done|]. split; [done|]. intros Hs. specialize (Hp Hs). split; [lia|]. intros Hmax.
  split; [apply H7; [done|lia]|]. intros now. unfold canExecute. rewrite Hs.
  by rewrite (proj2 (Z.ltb_ge _ _)) by lia.
Qed.

Definition sample_config : CircuitBreakerConfig := mkCBConfig "db" 2 (30 * Second) 1.

Lemma step_admitted now cb n :
  (canExecute now cb).2 = true -> breaker_step (cb, n) ((canExecute now cb).1, S n).
Proof. destruct (canExecute now cb) as [cb' b] eqn:E. cbn. intros ->. by eapply step_admit. Qed.

(** Two failures open it; thirty seconds later one call is let through and then another,
    and no third. *)
Lemma breaker_invariant_witness :
  let cb := (canExecute (40 * Second) (canExecute (40 * Second)
              (recordResult 5 false (recordResult 5 false (NewCircuitBreaker sample_config)))).1).1 in
  cb_state cb = StateHalfOpen /\ (canExecute (40 * Second) cb).2 = false.
Proof.
  set (cb0 := NewCircuitBreaker sample_config). set (cb1 := recordResult 5 false cb0).
  set (cb2 := recordResult 5 false cb1). set (cb3 := (canExecute (40 * Second) cb2).1).
  intros cb. split; [done|].
  eapply (breaker_invariant sample_config cb 2%nat 2%nat); [vm_compute; split; split; done| |done|done].
  eapply (rtc_l _ _ (cb0, 1%nat, 0%nat)); [exact (probe _ _ 0 _ _ (step_admitted 5 cb0 0 eq_refl))|].
  eapply (rtc_l _ _ (cb1, 0%nat, 0%nat)); [exact (probe _ _ 0 _ _ (step_finish 5 false cb0 0))|].
  eapply (rtc_l _ _ (cb1, 1%nat, 0%nat)); [exact (probe _ _ 0 _ _ (step_admitted 5 cb1 0 eq_refl))|].
  eapply (rtc_l _ _ (cb2, 0%nat, 0%nat)); [exact (probe _ _ 0 _ _ (step_finish 5 false cb1 0))|].
  eapply (rtc_l _ _ (cb3, 1%nat, 1%nat)); [exact (probe _ _ 0 _ _ (step_admitted (40 * Second) cb2 0 eq_refl))|].
  apply rtc_once. exact (probe _ _ 1 _ _ (step_admitted (40 * Second) cb3 1 eq_refl)).
Defined.

(** No deadlock.  Whatever happened before, once no call is in flight and
    the reset timeout has passed since the last failure, the breaker admits
    the next call: a half-open breaker can never be left waiting with all its
    trials used and none to come. *)
Theorem breaker_never_stuck config cb now :
  config_ok config -> breaker_reachable config (cb, 0%nat) -> elapsed now cb ->
  (canExecute now cb).2 = true.
Proof.
  intros Hc Hr He. destruct (breaker_reachable_ok _ _ Hc Hr) as (_ & _ & _ & _ & H5 & _ & H7).
  unfold canExecute, elapsed in *. destruct (cb_state cb) eqn:Hs; [done|..].
  - by rewrite (proj2 (Z.leb_le _ _) He).
  - destruct (Z.ltb_spec (cb_halfOpenCount cb) (cb_halfOpenMax cb)); [done|].
    specialize (H7 eq_refl). lia.
Qed.

Lemma breaker_never_stuck_witness :
  (canExecute (40 * Second) (NewCircuitBreaker sample_config)).2 = true.
Proof.
  apply (breaker_never_stuck sample_config); [vm_compute; split; split; done|constructor|].
  unfold elapsed. vm_compute. discriminate.
Defined.

(** Recovery.  An open breaker whose reset timeout has passed closes
    after exactly [halfOpenMax + 1] successful calls: it is half-open after
    each of the first [halfOpenMax], because the call that leaves the open
    state is not counted as a trial. *)
Theorem breaker_recovery cb t (k : nat) :
  cb_state cb = StateOpen -> elapsed t cb -> 0 < cb_halfOpenMax cb < 2 ^ 32 ->
  (Z.of_nat k < cb_halfOpenMax cb -> cb_state (calls (S k) true t cb) = StateHalfOpen) /\
  (Z.of_nat k = cb_halfOpenMax cb -> cb_state (calls (S k) true t cb) = StateClosed /\
                                      cb_failures (calls (S k) true t cb) = 0).
Proof.
  intros Hs He Hm. destruct cb as [nm mf rt hm st fl lf hc]. simpl in *. subst st.
  assert ((Execute t t true (mkCB nm mf rt hm StateOpen fl lf hc)).1 =
          mkCB nm mf rt hm StateHalfOpen fl lf 0) as E1.
  { unfold Execute, canExecute. simpl. unfold elapsed in He. simpl in He.
    rewrite (proj2 (Z.leb_le _ _) He). simpl. unfold onSuccess. simpl.
    by rewrite (proj2 (Z.leb_gt hm 0)) by lia. }
  rewrite E1. split; intros Hk.
  - rewrite half_open_calls by (simpl; lia || done). done.
  - destruct k as [|k]; [lia|]. rewrite calls_snoc.
    rewrite half_open_calls by (simpl; lia || done). simpl.
    unfold Execute, canExecute. simpl. rewrite (proj2 (Z.ltb_lt _ _)) by lia. simpl.
    rewrite u32_id by (unfold in_u32; lia). unfold onSuccess. simpl.
    by rewrite (proj2 (Z.leb_le _ _)) by lia.
Qed.

Lemma breaker_recovery_witness :
  cb_state (calls 4 true (31 * Second) (mkCB "db" 5 (30 * Second) 3 StateOpen 5 0 0)) = StateClosed.
Proof.
  apply (breaker_recovery (mkCB "db" 5 (30 * Second) 3 StateOpen 5 0 0) (31 * Second) 3);
    [done|unfold elapsed; vm_compute; discriminate|simpl; lia|done].
Defined.

(** Half-open admission.  When the reset timeout has passed and many calls
    arrive before any of them finishes, exactly [halfOpenMax + 1] of them are
    let through, one more than the configured maximum, and every later one is
    rejected. *)
Theorem half_open_admission_count cb t (m : nat) :
  cb_state cb = StateOpen -> elapsed t cb -> 0 < cb_halfOpenMax cb < 2 ^ 32 ->
  admissions (S (Z.to_nat (cb_halfOpenMax cb)) + m) t cb =
  (replicate (S (Z.to_nat (cb_halfOpenMax cb))) true ++ replicate m false)%list.
Proof.
  intros Hs He Hm. destruct cb as [nm mf rt hm st fl lf hc]. simpl in *. subst st.
  unfold elapsed in He. simpl in He. unfold canExecute at 1. simpl.
  rewrite (proj2 (Z.leb_le _ _) He). f_equal.
  pose proof (half_open_admissions 0 t (mkCB nm mf rt hm StateHalfOpen fl lf 0)) as H.
  simpl in H. rewrite Z.sub_0_r in H. apply H; done || lia.
Qed.

Lemma half_open_admission_count_witness :
  admissions 6 (31 * Second) (mkCB "db" 5 (30 * Second) 3 StateOpen 5 0 0) =
  [true; true; true; true; false; false].
Proof.
  apply (half_open_admission_count (mkCB "db" 5 (30 * Second) 3 StateOpen 5 0 0) (31 * Second) 2);
    [done|unfold elapsed; vm_compute; discriminate|simpl; lia].
Defined.

(** Tripping.  A closed breaker with no failures stays closed through
    [maxFailures - 1] failed calls in a row and opens at the next one; until
    the reset timeout has passed it then rejects every call without running
    it and without changing. *)
Theorem breaker_trips cb t now (k : nat) :
  cb_state cb = StateClosed -> cb_failures cb = 0 -> 0 < cb_maxFailures cb < 2 ^ 32 ->
  (Z.of_nat k < cb_maxFailures cb -> cb_state (calls k false t cb) = StateClosed) /\
  (Z.of_nat k = cb_maxFailures cb ->
     let tripped := calls k false t cb in
     cb_state tripped = StateOpen /\
     (TimeSub now t < cb_resetTimeout cb ->
      forall t1 ok, Execute now t1 ok tripped = (tripped, Rejected))).
Proof.
  intros Hs Hf Hm. split; intros Hk.
  - destruct k as [|k]; [done|]. rewrite closed_failures by lia || done. by destruct cb.
  - destruct k as [|k]; [lia|].
    assert (calls (S k) false t cb =
      cb {{ cb_state := StateOpen; cb_failures := cb_maxFailures cb; cb_lastFailTime := t }}) as ->.
    { rewrite calls_snoc. destruct cb as [nm mf rt hm st fl lf hc]. simpl in *. subst st fl.
      destruct k as [|k].
      - simpl. unfold Execute, canExecute, recordResult, onFailure. simpl.
        rewrite u32_id by (unfold in_u32; lia).
        rewrite (proj2 (Z.leb_le mf _)) by lia. simpl. f_equal. lia.
      - rewrite closed_failures by (simpl; lia || done). simpl.
        unfold Execute, canExecute, recordResult, onFailure. simpl.
        rewrite u32_id by (unfold in_u32; lia). rewrite (proj2 (Z.leb_le mf _)) by lia.
        simpl. f_equal. lia. }
    destruct cb as [nm mf rt hm st fl lf hc]. simpl in *. split; [done|]. intros Ht t1 ok.
    unfold Execute, canExecute. simpl. by rewrite (proj2 (Z.leb_gt rt _)) by lia.
Qed.

Lemma breaker_trips_witness :
  cb_state (calls 2 false 7 (NewCircuitBreaker sample_config)) = StateOpen.
Proof. apply (breaker_trips (NewCircuitBreaker sample_config) 7 7 2); simpl; lia || done. Defined.
