(* ===== verification/Whitelist.v ===== *)
(** * Client whitelist and swarm admission

    [Whitelist] is the linear list of tracker/types.go that [Announce]
    consults, [WhitelistTrie] the trie of tracker/optimize.go, and
    [SwarmAdmissionPolicy] the per-torrent access lists of
    tracker/admission_policy.go.  A Go string is its bytes; a peer id is a
    byte slice. *)
From Stdlib Require Import String.
From S2P Require Import Prelude GoStr NetIP.
Open Scope Z_scope.

(** ** The linear whitelist *)
Module Whitelist.

Abbreviation t := (list string).

Definition NewWhitelist : t := [].

(** [len(s) >= len(prefix) && s[:len(prefix)] == prefix] *)
Definition has_prefix (s prefix : string) : bool :=
  (String.length prefix <=? String.length s)%nat &&
  String.eqb (String.substring 0 (String.length prefix) s) prefix.

Definition IsAllowed (wl : t) (peerID : list Z) : bool :=
  match wl with
  | [] => true
  | _ => existsb (has_prefix (string_of_bytes peerID)) wl
  end.

Definition Add (wl : t) (prefix : string) : t :=
  if existsb (String.eqb prefix) wl then wl else (wl ++ [prefix])%list.

Definition Remove (wl : t) (prefix : string) : t :=
  filter (fun p => p <> prefix) wl.

Definition Reset (prefixes : option t) : t := default [] prefixes.

Definition GetAll (wl : t) : t := wl.

End Whitelist.

(** ** The trie *)
Module Trie.

#[warnings="-register-all"]
Inductive TrieNode := Node (isPrefix : bool) (children : gmap Z TrieNode).

Definition isPrefix (n : TrieNode) : bool := let '(Node b _) := n in b.
Definition children (n : TrieNode) : gmap Z TrieNode := let '(Node _ c) := n in c.

Definition NewTrieNode : TrieNode := Node false ∅.

(** The loop creates the missing child and descends. *)
Fixpoint add_path (n : TrieNode) (prefix : list Z) : TrieNode :=
  match prefix with
  | [] => Node true (children n)
  | c :: prefix' =>
      Node (isPrefix n)
        (<[c := add_path (default NewTrieNode (children n !! c)) prefix']> (children n))
  end.

Definition Add (root : TrieNode) (prefix : string) : TrieNode :=
  add_path root (bytes_of_string prefix).

Fixpoint walk (n : TrieNode) (peerID : list Z) : bool :=
  match peerID with
  | [] => isPrefix n
  | c :: peerID' =>
      if isPrefix n then true
      else match children n !! c with
           | None => false
           | Some next => walk next peerID'
           end
  end.

Definition IsAllowed (root : TrieNode) (peerID : list Z) : bool :=
  if bool_decide (children root = ∅) then true else walk root peerID.

Definition BuildTrieFromSlice (prefixes : list string) : TrieNode :=
  foldl Add NewTrieNode prefixes.

End Trie.

(** ** Admission policy *)
Module Admission.

Record artifactACL := mkACL { allowAll : bool; allow : gset string }.

Abbreviation SwarmAdmissionPolicy := (gmap string artifactACL).

Definition NewSwarmAdmissionPolicy : SwarmAdmissionPolicy := ∅.

Definition IsAdmitted (p : SwarmAdmissionPolicy) (infoHash passkey : string) : bool :=
  match p !! infoHash with
  | None => true
  | Some acl => if allowAll acl then true else bool_decide (passkey ∈ allow acl)
  end.

Definition SetOpen (p : SwarmAdmissionPolicy) (infoHash : string) : SwarmAdmissionPolicy :=
  delete infoHash p.

Definition SetACL (p : SwarmAdmissionPolicy) (infoHash : string) (passkeys : list string)
    : SwarmAdmissionPolicy :=
  match passkeys with
  | [] => delete infoHash p
  | _ => <[infoHash := mkACL false (list_to_set passkeys)]> p
  end.

Definition AddPasskey (p : SwarmAdmissionPolicy) (infoHash passkey : string)
    : SwarmAdmissionPolicy :=
  let acl := default (mkACL false ∅) (p !! infoHash) in
  <[infoHash := if allowAll acl then acl else mkACL (allowAll acl) ({[passkey]} ∪ allow acl)]> p.

Definition RemovePasskey (p : SwarmAdmissionPolicy) (infoHash passkey : string)
    : SwarmAdmissionPolicy :=
  match p !! infoHash with
  | None => p
  | Some acl => <[infoHash := mkACL (allowAll acl) (allow acl ∖ {[passkey]})]> p
  end.

(** The list comes out in the iteration order of the set. *)
Definition AllowList (order : gset string -> list string) (p : SwarmAdmissionPolicy)
    (infoHash : string) : list string * bool :=
  match p !! infoHash with
  | None => ([], true)
  | Some acl => if allowAll acl then ([], true) else (order (allow acl), false)
  end.

End Admission.

(** ** Lemmas *)

Lemma bytes_of_string_app (a b : string) :
  bytes_of_string (a ++ b) = (bytes_of_string a ++ bytes_of_string b)%list.
Proof. induction a as [|c a IH]; [done|]. simpl. unfold bytes_of_string in *. simpl. by f_equal. Qed.

(** [l] is a prefix of [m], as a boolean. *)
Fixpoint prefixb (l m : list Z) : bool :=
  match l, m with
  | [], _ => true
  | x :: l', y :: m' => (x =? y) && prefixb l' m'
  | _, [] => false
  end.

Lemma walk_new (id : list Z) : Trie.walk Trie.NewTrieNode id = false.
Proof. destruct id; [done|]. simpl. by rewrite lookup_empty. Qed.

Lemma walk_prefix (n : Trie.TrieNode) (id : list Z) :
  Trie.isPrefix n = true -> Trie.walk n id = true.
Proof. intros H. destruct id; simpl; by rewrite H. Qed.

Lemma walk_add (p id : list Z) (n : Trie.TrieNode) :
  Trie.walk (Trie.add_path n p) id = prefixb p id || Trie.walk n id.
Proof.
  revert id n. induction p as [|c p IH]; intros id n; simpl.
  - by apply walk_prefix.
  - destruct id as [|d id]; simpl; [done|].
    destruct (Trie.isPrefix n) eqn:Hp; [by rewrite orb_true_r|].
    destruct (Z.eqb_spec c d) as [<-|Hne]; simpl.
    + rewrite lookup_insert_eq, IH. destruct (Trie.children n !! c); simpl; [done|].
      by rewrite walk_new.
    + by rewrite lookup_insert_ne.
Qed.

Lemma walk_build (prefixes : list string) (id : list Z) (n : Trie.TrieNode) :
  Trie.walk (foldl Trie.Add n prefixes) id =
  Trie.walk n id || existsb (fun p => prefixb (bytes_of_string p) id) prefixes.
Proof.
  revert n. induction prefixes as [|p ps IH]; intros n; simpl; [by rewrite orb_false_r|].
  rewrite IH. unfold Trie.Add at 1. rewrite walk_add.
  destruct (prefixb _ _), (Trie.walk n id); done.
Qed.

Lemma children_build (prefixes : list string) (n : Trie.TrieNode) :
  Trie.children (foldl Trie.Add n prefixes) = ∅ ->
  Trie.children n = ∅ /\ Forall (fun p => p = "") prefixes.
Proof.
  revert n. induction prefixes as [|p ps IH]; intros n H; simpl in *; [done|].
  apply IH in H as [H Hall]. unfold Trie.Add in H. destruct p as [|c p]; simpl in H.
  - auto.
  - unfold bytes_of_string in H. simpl in H. by apply insert_non_empty in H.
Qed.

Lemma has_prefix_cons c s p d : Whitelist.has_prefix (String c s) (String d p) =
  (if Ascii.ascii_dec c d then Whitelist.has_prefix s p else false).
Proof.
  unfold Whitelist.has_prefix. cbn [String.length Nat.leb].
  change (String.substring 0 (S (String.length p)) (String c s))
    with (String c (String.substring 0 (String.length p) s)).
  destruct (_ <=? _)%nat; simpl; [|by destruct (Ascii.ascii_dec c d)].
  destruct (Ascii.ascii_dec c d) as [->|Hne].
  - by rewrite Ascii.eqb_refl.
  - by rewrite (proj2 (Ascii.eqb_neq c d) Hne).
Qed.

Lemma has_prefix_bytes (id : list Z) (p : string) :
  byte_list id -> Whitelist.has_prefix (string_of_bytes id) p = prefixb (bytes_of_string p) id.
Proof.
  intros Hid. revert p. induction Hid as [|z id Hz Hid IH]; intros [|d p].
  - done.
  - done.
  - unfold Whitelist.has_prefix. simpl. by destruct id.
  - change (string_of_bytes (z :: id)) with (String (byte_ascii z) (string_of_bytes id)).
    change (bytes_of_string (String d p)) with (ascii_byte d :: bytes_of_string p).
    rewrite has_prefix_cons. cbn [prefixb]. rewrite <- IH.
    destruct (Ascii.ascii_dec (byte_ascii z) d) as [<-|Hne].
    + by rewrite ascii_byte_ascii, Z.eqb_refl.
    + destruct (Z.eqb_spec (ascii_byte d) z) as [<-|]; [|done].
      by rewrite byte_ascii_byte in Hne.
Qed.

Lemma allowed_iff (wl : list string) (id : list Z) :
  byte_list id ->
  Whitelist.IsAllowed wl id = true <->
  wl = [] \/ exists p, p ∈ wl /\ bytes_of_string p `prefix_of` id.
Proof.
  intros Hid.
  assert (forall l m, prefixb l m = true <-> l `prefix_of` m) as Hpre.
  { induction l as [|x l IH]; intros m; simpl.
    - split; [intros _; apply prefix_nil|done].
    - destruct m as [|y m]; [split; [done|intros H; by apply prefix_nil_not in H]|].
      rewrite andb_true_iff, Z.eqb_eq, IH. split; [intros [-> ?]; by apply prefix_cons|].
      intros H. split; [by eapply prefix_cons_inv_1|by eapply prefix_cons_inv_2]. }
  destruct wl as [|w wl]; [by split; auto|]. unfold Whitelist.IsAllowed.
  rewrite existsb_exists. split.
  - intros (p & Hin & Hp). right. exists p. rewrite has_prefix_bytes in Hp by done.
    split; [by apply list_elem_of_In|by apply Hpre].
  - intros [?|(p & Hin & Hp)]; [done|]. exists p. rewrite has_prefix_bytes by done.
    split; [by apply list_elem_of_In|by apply Hpre].
Qed.

(** ** Properties *)

(** The trie is the list.  On every peer id the trie built from a list of
    prefixes gives the verdict of the linear whitelist, the empty list and the
    empty prefix included. *)
Theorem trie_refines_whitelist (prefixes : list string) (id : list Z) :
  byte_list id ->
  Trie.IsAllowed (Trie.BuildTrieFromSlice prefixes) id = Whitelist.IsAllowed prefixes id.
Proof.
  intros Hid. unfold Trie.IsAllowed, Whitelist.IsAllowed, Trie.BuildTrieFromSlice.
  case_bool_decide as Hc.
  - apply children_build in Hc as [_ Hall]. destruct Hall as [|p ps -> _]; [done|].
    simpl. by rewrite has_prefix_bytes.
  - rewrite walk_build, walk_new. simpl. destruct prefixes as [|p ps]; [done|].
    clear Hc. generalize (p :: ps) as l. intros l.
    induction l as [|q qs IH]; [done|]. cbn [existsb]. by rewrite has_prefix_bytes, IH.
Qed.

Lemma trie_refines_whitelist_witness :
  Trie.IsAllowed (Trie.BuildTrieFromSlice ["-TR2"; "-qB4"; "-TR29"]) (bytes_of_string "-qB4500-abc") =
  Whitelist.IsAllowed ["-TR2"; "-qB4"; "-TR29"] (bytes_of_string "-qB4500-abc").
Proof.
  apply (trie_refines_whitelist ["-TR2"; "-qB4"; "-TR29"] (bytes_of_string "-qB4500-abc")).
  apply (bool_decide_eq_true_1 _). vm_compute. reflexivity.
Defined.

(** Administration of the whitelist.  After [Add] exactly the ids that were
    allowed before or match the prefix are allowed, unless the list was empty
    (which allows everything); [Add] is idempotent; [Remove] undoes [Add] of a
    new prefix; and removing the last prefix opens the tracker to every
    client. *)
Theorem whitelist_admin (wl : list string) (p : string) (id : list Z) :
  byte_list id ->
  (wl <> [] ->
   Whitelist.IsAllowed (Whitelist.Add wl p) id =
   Whitelist.IsAllowed wl id || Whitelist.has_prefix (string_of_bytes id) p) /\
  Whitelist.Add (Whitelist.Add wl p) p = Whitelist.Add wl p /\
  (p ∉ wl -> Whitelist.Remove (Whitelist.Add wl p) p = wl) /\
  Whitelist.IsAllowed (Whitelist.Remove [p] p) id = true.
Proof.
  intros Hid.
  assert (forall l, existsb (String.eqb p) l = true <-> p ∈ l) as Hex.
  { intros l. rewrite existsb_exists. split.
    - intros (x & Hin & ->%String.eqb_eq). by apply list_elem_of_In.
    - intros Hin. exists p. split; [by apply list_elem_of_In|apply String.eqb_refl]. }
  split; [|split; [|split]].
  - intros Hne. unfold Whitelist.Add. destruct (existsb (String.eqb p) wl) eqn:E.
    + destruct (Whitelist.has_prefix _ p) eqn:Hp; [|by rewrite orb_false_r].
      rewrite orb_true_r. destruct wl; [done|]. apply existsb_exists. exists p.
      split; [|done]. apply Hex in E. by apply list_elem_of_In.
    + destruct wl as [|w wl]; [done|]. simpl. rewrite existsb_app. simpl.
      by rewrite orb_false_r, orb_assoc.
  - unfold Whitelist.Add. destruct (existsb (String.eqb p) wl) eqn:E; [by rewrite E|].
    rewrite (proj2 (Hex (wl ++ [p])%list)); [done|]. apply elem_of_app. right. by left.
  - intros Hp. unfold Whitelist.Add, Whitelist.Remove.
    destruct (existsb (String.eqb p) wl) eqn:E; [by apply Hex in E|].
    change (filter (fun q => q <> p) (wl ++ [p])%list = wl).
    rewrite filter_app, filter_cons_False by auto. rewrite filter_nil, app_nil_r.
    clear E. induction wl as [|w wl IH]; [done|]. apply not_elem_of_cons in Hp as [Hw Hp].
    rewrite filter_cons_True by auto. by rewrite IH.
  - assert (Whitelist.Remove [p] p = []) as ->; [|done].
    change (filter (fun q => q <> p) [p] = []). by rewrite filter_cons_False by auto.
Qed.

Lemma whitelist_admin_witness :
  Whitelist.Remove (Whitelist.Add ["-TR2"] "-qB4") "-qB4" = ["-TR2"].
Proof.
  apply (whitelist_admin ["-TR2"] "-qB4" (bytes_of_string "-qB4500-abc")).
  - apply (bool_decide_eq_true_1 _). vm_compute. reflexivity.
  - apply (bool_decide_eq_true_1 _). vm_compute. reflexivity.
Defined.

(** Admission.  Each policy operation touches one torrent only; opening
    admits everyone; a non-empty access list admits exactly its passkeys;
    adding a passkey to an open torrent closes it for everybody else; and a
    list whose last passkey is removed admits nobody rather than everybody. *)
Theorem admission_control (p : Admission.SwarmAdmissionPolicy) (ih pk pk' : string)
    (pks : list string) :
  (forall ih', ih' <> ih ->
     Admission.IsAdmitted (Admission.SetACL p ih pks) ih' pk = Admission.IsAdmitted p ih' pk /\
     Admission.IsAdmitted (Admission.AddPasskey p ih pk') ih' pk = Admission.IsAdmitted p ih' pk /\
     Admission.IsAdmitted (Admission.RemovePasskey p ih pk') ih' pk = Admission.IsAdmitted p ih' pk) /\
  Admission.IsAdmitted (Admission.SetOpen p ih) ih pk = true /\
  Admission.IsAdmitted (Admission.SetACL p ih pks) ih pk =
    bool_decide (pks = [] \/ pk ∈ pks) /\
  (p !! ih = None ->
     Admission.IsAdmitted (Admission.AddPasskey p ih pk') ih pk = bool_decide (pk = pk')) /\
  Admission.IsAdmitted (Admission.RemovePasskey (Admission.SetACL p ih [pk']) ih pk') ih pk = false.
Proof.
  split; [|split; [|split; [|split]]].
  - intros ih' Hne. unfold Admission.IsAdmitted, Admission.SetACL, Admission.AddPasskey,
      Admission.RemovePasskey.
    split; [|split].
    + destruct pks; [by rewrite lookup_delete_ne|by rewrite lookup_insert_ne].
    + by rewrite lookup_insert_ne.
    + destruct (p !! ih); [by rewrite lookup_insert_ne|done].
  - unfold Admission.IsAdmitted, Admission.SetOpen. by rewrite lookup_delete_eq.
  - unfold Admission.IsAdmitted, Admission.SetACL. destruct pks as [|q pks].
    + rewrite lookup_delete_eq. symmetry. apply bool_decide_eq_true. by left.
    + rewrite lookup_insert_eq. cbn [Admission.allowAll Admission.allow].
      apply bool_decide_ext. rewrite elem_of_list_to_set. naive_solver.
  - intros Hn. unfold Admission.IsAdmitted, Admission.AddPasskey. rewrite lookup_insert_eq, Hn.
    simpl. apply bool_decide_ext. set_solver.
  - unfold Admission.IsAdmitted, Admission.RemovePasskey, Admission.SetACL.
    rewrite lookup_insert_eq, lookup_insert_eq. simpl. apply bool_decide_eq_false. set_solver.
Qed.
