(* ===== verification/GoFloat.v ===== *)
(** * float64

    Go's [float64] as the Standard Library's specification of IEEE 754
    binary64 ([SpecFloat], round to nearest even), which evaluates without
    axioms.  A decimal literal is written as the quotient of two integers
    that are exact in binary64, so that it rounds once, like the literal. *)
From Stdlib Require Import SpecFloat.
From S2P Require Import Prelude.
Open Scope Z_scope.

Definition float64 : Type := spec_float.

Definition f64_prec : Z := 53.
Definition f64_emax : Z := 1024.

(** [float64(z)] *)
Definition of_int (z : Z) : float64 := binary_normalize f64_prec f64_emax z 0 false.

Definition fadd : float64 -> float64 -> float64 := SFadd f64_prec f64_emax.
Definition fsub : float64 -> float64 -> float64 := SFsub f64_prec f64_emax.
Definition fmul : float64 -> float64 -> float64 := SFmul f64_prec f64_emax.
Definition fdiv : float64 -> float64 -> float64 := SFdiv f64_prec f64_emax.
Definition fltb : float64 -> float64 -> bool := SFltb.
Definition fleb : float64 -> float64 -> bool := SFleb.
Definition feqb : float64 -> float64 -> bool := SFeqb.

Definition flit (num den : Z) : float64 := fdiv (of_int num) (of_int den).

Definition fis_nan (x : float64) : bool :=
  match x with S754_nan => true | _ => false end.

(** The built-in [max] and [min]: NaN if either argument is. *)
Definition fmax (x y : float64) : float64 :=
  if fis_nan x || fis_nan y then S754_nan else if fltb x y then y else x.
Definition fmin (x y : float64) : float64 :=
  if fis_nan x || fis_nan y then S754_nan else if fltb y x then y else x.

(** The integer part, rounded towards zero; [None] for NaN and infinities. *)
Definition ftrunc (x : float64) : option Z :=
  match x with
  | S754_zero _ => Some 0
  | S754_finite s m e =>
      let a := if 0 <=? e then Z.pos m * 2 ^ e else Z.pos m / 2 ^ (- e) in
      Some (if s then - a else a)
  | _ => None
  end.

(** [int64(x)]: values that do not fit are implementation-defined in Go; the
    amd64 instruction gives the least integer. *)
Definition int64_of_float (x : float64) : Z :=
  match ftrunc x with
  | Some z => if (- 2 ^ 63 <=? z) && (z <? 2 ^ 63) then z else - 2 ^ 63
  | None => - 2 ^ 63
  end.

(** [uint32(x)] converts through int64 on amd64. *)
Definition uint32_of_float (x : float64) : Z := u32 (int64_of_float x).

(** A float64 from its bit pattern; only normal numbers are used. *)
Definition f64_bits (z : Z) : float64 :=
  match 2 ^ 52 + z mod 2 ^ 52 with
  | Z.pos m => S754_finite (Z.testbit z 63) m (Z.shiftr z 52 mod 2 ^ 11 - 1075)
  | _ => S754_nan
  end.

(** [math.Ceil(x)] *)
Definition fceil (x : float64) : float64 :=
  match x with
  | S754_finite s m e =>
      if 0 <=? e then x
      else
        let c := if s then - (Z.pos m / 2 ^ (- e)) else - (- Z.pos m / 2 ^ (- e)) in
        if c =? 0 then S754_zero s else of_int c
  | _ => x
  end.

(** [math.Frexp(x)]: a fraction in [1/2, 1) and an exponent. *)
Definition fexp (x : float64) : float64 * Z := SFfrexp f64_prec f64_emax x.

(** [math.Log(x)], Go's portable algorithm. *)
Definition Log (x : float64) : float64 :=
  match x with
  | S754_nan | S754_infinity false => x
  | S754_zero _ => S754_infinity true
  | S754_infinity true | S754_finite true _ _ => S754_nan
  | _ =>
      let '(f0, k0) := fexp x in
      let low := fltb f0 (f64_bits 0x3FE6A09E667F3BCD) in
      let f1 := if low then fmul f0 (of_int 2) else f0 in
      let k := of_int (if low then k0 - 1 else k0) in
      let f := fsub f1 (of_int 1) in
      let s := fdiv f (fadd (of_int 2) f) in
      let s2 := fmul s s in
      let s4 := fmul s2 s2 in
      let c := f64_bits in
      let t1 := fmul s2 (fadd (c 0x3FE5555555555593) (fmul s4 (fadd (c 0x3FD2492494229359)
                  (fmul s4 (fadd (c 0x3FC7466496CB03DE) (fmul s4 (c 0x3FC2F112DF3E5244))))))) in
      let t2 := fmul s4 (fadd (c 0x3FD999999997FA04) (fmul s4 (fadd (c 0x3FCC71C51D8E78AF)
                  (fmul s4 (c 0x3FC39A09D078C69F))))) in
      let R := fadd t1 t2 in
      let hfsq := fmul (fmul (flit 1 2) f) f in
      fsub (fmul k (c 0x3FE62E42FEE00000))
           (fsub (fsub hfsq (fadd (fmul s (fadd hfsq R)) (fmul k (c 0x3DEA39EF35793C76)))) f)
  end.

(** [math.Log2(x)], exact on powers of two. *)
Definition Log2 (x : float64) : float64 :=
  let '(frac, e) := fexp x in
  if feqb frac (flit 1 2) then of_int (e - 1)
  else fadd (fmul (Log frac) (f64_bits 0x3FF71547652B82FE)) (of_int e).

(** [d.Seconds()] and [d.Hours()] *)
Definition DurationSeconds (d : Z) : float64 :=
  fadd (of_int (Z.quot d Second)) (fdiv (of_int (Z.rem d Second)) (of_int Second)).

Definition DurationHours (d : Z) : float64 :=
  fadd (of_int (Z.quot d Hour)) (fdiv (of_int (Z.rem d Hour)) (of_int Hour)).

Example float_checks :
  int64_of_float (fdiv (of_int 10000000) (DurationSeconds (1800 * Second))) = 5555 /\
  uint32_of_float (DurationSeconds (3 * Second + 999999999)) = 3 /\
  fltb (flit 35 100) (flit 36 100) = true.
Proof. vm_compute. auto. Qed.

Example log2_checks :
  Log2 (of_int 8) = of_int 3 /\ Log2 (flit 1 4) = of_int (-2) /\
  Log2 (of_int 3) = f64_bits 0x3FF95C01A39FBD69 /\
  int64_of_float (fceil (Log2 (of_int 9))) = 4 /\ int64_of_float (fceil (Log2 (of_int 8))) = 3 /\
  int64_of_float (fceil (Log2 (flit 3 4))) = 0.
Proof. vm_compute. auto 8. Qed.

(** ** The order of numbers *)

(** On numbers, the comparison of floats is the lexicographic one of a key. *)
Definition float_key (x : float64) : Z * Z * Z :=
  match x with
  | S754_zero _ => (0, 0, 0)
  | S754_infinity s => (if s then -2 else 2, 0, 0)
  | S754_nan => (3, 0, 0)
  | S754_finite s m e => if s then (-1, - e, - Zpos m) else (1, e, Zpos m)
  end.

Definition key_lt (a b : Z * Z * Z) : Prop :=
  a.1.1 < b.1.1 \/ a.1.1 = b.1.1 /\ (a.1.2 < b.1.2 \/ a.1.2 = b.1.2 /\ a.2 < b.2).

Lemma fltb_key x y :
  fis_nan x = false -> fis_nan y = false -> (fltb x y = true <-> key_lt (float_key x) (float_key y)).
Proof.
  unfold fltb, SFltb, key_lt.
  destruct x as [sx|sx| |sx mx ex], y as [sy|sy| |sy my ey]; try done; intros _ _;
    repeat match goal with s : bool |- _ => destruct s end; cbn; try (split; [done|lia]); try (split; [lia|done]).
  all: destruct (Z.compare_spec ex ey); cbn; try (split; [done|lia]); try (split; [lia|done]).
  all: change (Pos.compare_cont Eq mx my) with (Pos.compare mx my);
    destruct (Pos.compare_spec mx my); cbn; split; try done; lia.
Qed.

Lemma feqb_key x y :
  fis_nan x = false -> fis_nan y = false -> (feqb x y = true <-> float_key x = float_key y).
Proof.
  unfold feqb, SFeqb.
  destruct x as [sx|sx| |sx mx ex], y as [sy|sy| |sy my ey]; try done; intros _ _;
    repeat match goal with s : bool |- _ => destruct s end; cbn; try (split; [done|congruence]); try done.
  all: destruct (Z.compare_spec ex ey); cbn; try (split; [done|intros [= ? ?]; lia]).
  all: change (Pos.compare_cont Eq mx my) with (Pos.compare mx my);
    destruct (Pos.compare_spec mx my); cbn; split; try done; try (intros [= ? ?]; lia); congruence.
Qed.
