(* ===== verification/GoSort.v ===== *)
(** * Sorting and ordering of the standard library

    [sort.SliceStable] and the [ORDER BY] of a query, as a stable insertion
    sort, with the facts the clients use. *)
From Stdlib Require Import String.
From S2P Require Import Prelude.
Open Scope list_scope.
Open Scope Z_scope.

Definition len {A} (l : list A) : Z := Z.of_nat (length l).

(** [sort.SliceStable] as insertion sort, what it does on short slices; any
    stable sort agrees when [less] is a strict weak order.  [sink] inserts into
    the reversed sorted prefix. *)
Fixpoint sink {A} (less : A -> A -> bool) (x : A) (rl : list A) : list A :=
  match rl with
  | [] => [x]
  | y :: rl' => if less x y then y :: sink less x rl' else x :: rl
  end.
Definition slice_stable {A} (less : A -> A -> bool) (l : list A) : list A :=
  rev (foldl (fun rl x => sink less x rl) [] l).

(** [a < b] on strings. *)
Definition string_lt (a b : string) : bool := negb (String.leb b a).

Lemma sink_perm {A} (less : A -> A -> bool) x rl : sink less x rl ≡ₚ x :: rl.
Proof.
  induction rl as [|y rl IH]; simpl; [done|]. destruct (less x y); [|done].
  rewrite IH. apply Permutation_swap.
Qed.

Lemma slice_stable_perm {A} (less : A -> A -> bool) l : slice_stable less l ≡ₚ l.
Proof.
  unfold slice_stable. rewrite <- Permutation_rev.
  assert (forall rl, foldl (fun rl x => sink less x rl) rl l ≡ₚ l ++ rl) as Hperm.
  { induction l as [|x l IH]; intros rl; simpl; [done|].
    rewrite IH, sink_perm. by rewrite <- Permutation_middle. }
  by rewrite Hperm, app_nil_r.
Qed.

Lemma slice_stable_nil {A} (less : A -> A -> bool) l : slice_stable less l = [] -> l = [].
Proof. intros Hs. symmetry. apply Permutation_nil_l. by rewrite <- Hs, slice_stable_perm. Qed.

Lemma slice_stable_elem {A} (less : A -> A -> bool) x (l : list A) : x ∈ slice_stable less l <-> x ∈ l.
Proof. by rewrite slice_stable_perm. Qed.

Section Sort.
Context {A : Type} (less : A -> A -> bool) (P : A -> Prop).
Context (asym : forall a b, P a -> P b -> less a b = true -> less b a = false).
Context (neg_trans : forall a b c, P a -> P b -> P c ->
           less a b = false -> less b c = false -> less a c = false).

(** The reversed prefix: nothing is less than what comes after it. *)
Definition down (rl : list A) : Prop := StronglySorted (fun a b => less a b = false) rl.

Lemma sink_down x rl : P x -> Forall P rl -> down rl -> down (sink less x rl).
Proof.
  intros Hx Hall Hd. induction Hd as [|y rl Hd IH Hy]; simpl; [repeat constructor|].
  apply Forall_cons in Hall as [HPy Hall]. destruct (less x y) eqn:E.
  - constructor; [by apply IH|]. apply Forall_forall. intros z Hz. rewrite sink_perm, elem_of_cons in Hz.
    destruct Hz as [->|Hz]; [by apply asym|]. rewrite Forall_forall in Hy. by apply Hy.
  - constructor; [by constructor|]. apply Forall_forall. intros z Hz.
    apply elem_of_cons in Hz as [->|Hz]; [done|]. rewrite Forall_forall in Hy, Hall.
    apply (neg_trans x y z); auto.
Qed.

Lemma sort_down l rl :
  Forall P l -> Forall P rl -> down rl ->
  let rl' := foldl (fun rl x => sink less x rl) rl l in down rl' /\ rl' ≡ₚ l ++ rl.
Proof.
  revert rl. induction l as [|x l IH]; intros rl Hl Hrl Hd; simpl; [done|].
  apply Forall_cons in Hl as [Hx Hl].
  destruct (IH (sink less x rl)) as [Hd' Hp]; [done|by rewrite sink_perm; constructor|by apply sink_down|].
  split; [done|]. rewrite Hp, sink_perm. by rewrite <- Permutation_middle.
Qed.

(** The head of the sorted slice is one of its elements, and none is less. *)
Lemma slice_stable_head l best rest :
  Forall P l -> slice_stable less l = best :: rest ->
  best ∈ l /\ forall x, x ∈ l -> less x best = false.
Proof.
  intros Hl Hs. unfold slice_stable in Hs.
  destruct (sort_down l [] Hl) as [Hd Hp]; [constructor..|]. rewrite app_nil_r in Hp.
  set (rl := foldl _ [] l) in *. clearbody rl.
  apply (f_equal (@rev A)) in Hs. rewrite rev_involutive in Hs. simpl in Hs. subst rl.
  split; [rewrite <- Hp; set_solver|]. intros x Hx. rewrite <- Hp, elem_of_app in Hx.
  destruct Hx as [Hx|Hx].
  - apply StronglySorted_app in Hd as (Hd & _ & _). apply Hd; set_solver.
  - apply list_elem_of_singleton in Hx as ->. assert (P best) as Hb.
    { rewrite Forall_forall in Hl. apply Hl. rewrite <- Hp. set_solver. }
    destruct (less best best) eqn:E; [|done]. pose proof (asym best best Hb Hb E). congruence.
Qed.

Lemma down_rev rl : down rl -> StronglySorted (fun a b => less b a = false) (rev rl).
Proof.
  induction 1 as [|y rl Hd IH Hy]; simpl; [constructor|]. apply StronglySorted_app. split; [|split; [done|repeat constructor]].
  intros a b Ha ->%list_elem_of_singleton. rewrite Forall_forall in Hy. apply Hy. by apply list_elem_of_In, in_rev, list_elem_of_In.
Qed.

(** Nothing is less than what comes before it. *)
Lemma slice_stable_sorted l : Forall P l -> StronglySorted (fun a b => less b a = false) (slice_stable less l).
Proof. intros Hl. apply down_rev, sort_down; [done|constructor..]. Qed.

End Sort.

(** [string_lt] is the strict part of a total order. *)
Lemma string_lt_false a b : string_lt a b = false <-> String.le b a.
Proof. unfold string_lt, String.le. rewrite negb_false_iff. symmetry. apply Is_true_true. Qed.

Lemma string_lt_asym a b : string_lt a b = true -> string_lt b a = false.
Proof. intros H. apply string_lt_false. apply not_false_iff_true in H. rewrite string_lt_false in H. by destruct (String.le_total a b). Qed.

Lemma strings_sorted (l : list string) : StronglySorted String.le (slice_stable string_lt l).
Proof.
  assert (StronglySorted (fun a b => string_lt b a = false) (slice_stable string_lt l)) as Hs.
  { apply (slice_stable_sorted string_lt (fun _ => True)); [by intros ????; apply string_lt_asym| |by apply Forall_forall].
    intros a b c _ _ _. rewrite !string_lt_false. intros H1 H2. by etrans. }
  induction Hs as [|a k Hs IH Ha]; constructor; [done|]. eapply Forall_impl; [exact Ha|]. intros b Hb. by apply string_lt_false.
Qed.

(** ** Selections *)

Lemma filter_none {A} (P : A -> Prop) `{!forall x, Decision (P x)} (l : list A) :
  filter P l = [] <-> forall x, x ∈ l -> ~ P x.
Proof.
  split.
  - intros E x Hx Hp. assert (x ∈ filter P l) as Hf by (by apply list_elem_of_filter).
    rewrite E in Hf. by apply not_elem_of_nil in Hf.
  - intros Hno. destruct (filter P l) as [|x k] eqn:E; [done|].
    assert (x ∈ filter P l) as Hx by (rewrite E; apply elem_of_cons; by left).
    apply list_elem_of_filter in Hx as [Hp Hx]. by destruct (Hno x Hx).
Qed.

(** ** The end of a list *)

(** The last [n] elements. *)
Definition lastn {A} (n : nat) (l : list A) : list A := drop (length l - n) l.

Lemma lastn_snoc {A} (n : nat) (l : list A) x :
  (0 < n)%nat ->
  lastn n (l ++ [x]) = (if (length (lastn n l) =? n)%nat then tail (lastn n l) else lastn n l) ++ [x].
Proof.
  intros Hn. unfold lastn. rewrite length_app, length_drop. simpl.
  destruct (Nat.eqb_spec (length l - (length l - n)) n) as [E|E].
  - rewrite drop_app_le by lia. f_equal.
    replace (length l + 1 - n)%nat with (S (length l - n)) by lia.
    destruct (drop (length l - n) l) as [|y k] eqn:Ed.
    + apply (f_equal length) in Ed. rewrite length_drop in Ed. simpl in Ed. lia.
    + replace (S (length l - n)) with (length l - n + 1)%nat by lia. by rewrite <- drop_drop, Ed.
  - replace (length l + 1 - n)%nat with 0%nat by lia. by replace (length l - n)%nat with 0%nat by lia.
Qed.
