(* ===== verification/GoCrypto.v ===== *)
(** * Hexadecimal text, SHA-256 and HMAC

    The parts of [encoding/hex], [crypto/sha256] and [crypto/hmac] that sign
    and check the requests of the compute agents.  A message is a list of
    bytes, a word of SHA-256 a [Z] of 32 bits. *)
From Stdlib Require Import Ascii String.
From S2P Require Import Prelude GoStr.
Open Scope string_scope.
Open Scope list_scope.
Open Scope Z_scope.

(** ** encoding/hex *)

Definition hex_digit (d : Z) : ascii :=
  byte_ascii (if d <? 10 then 48 + d else 87 + d).

Definition hex_value (c : ascii) : option Z :=
  let v := ascii_byte c in
  if (48 <=? v) && (v <=? 57) then Some (v - 48)
  else if (97 <=? v) && (v <=? 102) then Some (v - 87)
  else if (65 <=? v) && (v <=? 70) then Some (v - 55)
  else None.

Fixpoint EncodeToString (bs : list Z) : string :=
  match bs with
  | [] => ""
  | b :: bs => String (hex_digit (Z.shiftr b 4)) (String (hex_digit (Z.land b 15)) (EncodeToString bs))
  end.

(** [None] for an odd length or a character that is no digit. *)
Fixpoint DecodeString (s : string) : option (list Z) :=
  match s with
  | "" => Some []
  | String c (String d r) =>
      match hex_value c, hex_value d, DecodeString r with
      | Some a, Some b, Some bs => Some (Z.lor (Z.shiftl a 4) b :: bs)
      | _, _, _ => None
      end
  | String _ "" => None
  end.

(** ** crypto/sha256 *)

(** Words of 32 bits: masked, which evaluates faster than a remainder. *)
Definition w32 (z : Z) : Z := Z.land z 4294967295.

Definition rotr (n x : Z) : Z := Z.lor (Z.shiftr x n) (w32 (Z.shiftl x (32 - n))).

Definition sigma0 (x : Z) : Z := Z.lxor (Z.lxor (rotr 7 x) (rotr 18 x)) (Z.shiftr x 3).
Definition sigma1 (x : Z) : Z := Z.lxor (Z.lxor (rotr 17 x) (rotr 19 x)) (Z.shiftr x 10).
Definition Sigma0 (x : Z) : Z := Z.lxor (Z.lxor (rotr 2 x) (rotr 13 x)) (rotr 22 x).
Definition Sigma1 (x : Z) : Z := Z.lxor (Z.lxor (rotr 6 x) (rotr 11 x)) (rotr 25 x).
Definition Ch (x y z : Z) : Z := Z.lxor (Z.land x y) (Z.land (Z.lxor x 4294967295) z).
Definition Maj (x y z : Z) : Z := Z.lxor (Z.lxor (Z.land x y) (Z.land x z)) (Z.land y z).

(** The constants are the first 32 bits of the fractional parts of the cube
    roots of the first 64 primes, and of the square roots of the first 8. *)
Definition primes (limit : nat) : list Z :=
  List.filter (fun n => forallb (fun d => negb (n mod Z.of_nat d =? 0)) (seq 2 (Z.to_nat n - 2))) (Z.of_nat <$> seq 2 (limit - 1)).

(** The integer cube root, one bit after another. *)
Fixpoint cube_root (bits : nat) (r n : Z) : Z :=
  match bits with
  | O => r
  | S bits =>
      let r' := r + 2 ^ Z.of_nat bits in
      cube_root bits (if r' * r' * r' <=? n then r' else r) n
  end.

Definition sha_k : list Z := Eval vm_compute in (fun p => w32 (cube_root 36 0 (p * 2 ^ 96))) <$> primes 311.
Definition sha_init : list Z := Eval vm_compute in (fun p => w32 (Z.sqrt (p * 2 ^ 64))) <$> primes 19.

(** The message schedule: the last 16 words, newest first, give the next. *)
Fixpoint schedule (n : nat) (rev_w : list Z) : list Z :=
  match n with
  | O => rev rev_w
  | S n =>
      let w i := nth i rev_w 0 in
      schedule n (w32 (sigma1 (w 1%nat) + w 6%nat + sigma0 (w 14%nat) + w 15%nat) :: rev_w)
  end.

Definition sha_round (st : list Z) (kw : Z * Z) : list Z :=
  match st with
  | [a; b; c; d; e; f; g; h] =>
      let t1 := w32 (h + Sigma1 e + Ch e f g + kw.1 + kw.2) in
      let t2 := w32 (Sigma0 a + Maj a b c) in
      [w32 (t1 + t2); a; b; c; w32 (d + t1); e; f; g]
  | _ => st
  end.

Definition sha_block (st : list Z) (block : list Z) : list Z :=
  zip_with (fun a b => w32 (a + b)) st (foldl sha_round st (zip sha_k (schedule 48 (rev block)))).

(** Big-endian words of bytes, and back. *)
Fixpoint be_words (bs : list Z) : list Z :=
  match bs with
  | a :: b :: c :: d :: r => Z.shiftl a 24 + Z.shiftl b 16 + Z.shiftl c 8 + d :: be_words r
  | _ => []
  end.

Definition be_bytes (n : nat) (z : Z) : list Z :=
  (fun i => Z.land (Z.shiftr z (8 * Z.of_nat i)) 255) <$> rev (seq 0 n).

Definition sha_pad (bs : list Z) : list Z :=
  let n := Z.of_nat (length bs) in
  bs ++ 128 :: replicate (Z.to_nat ((55 - n) mod 64)) 0 ++ be_bytes 8 (8 * n).

(** Blocks of 16 words; the fuel is the number of words. *)
Fixpoint sha_blocks (fuel : nat) (st : list Z) (ws : list Z) : list Z :=
  match fuel, ws with
  | _, [] | O, _ => st
  | S fuel, _ => sha_blocks fuel (sha_block st (take 16 ws)) (drop 16 ws)
  end.

Definition Sum256 (bs : list Z) : list Z :=
  let ws := be_words (sha_pad bs) in
  mjoin (be_bytes 4 <$> sha_blocks (length ws) sha_init ws).

(** ** crypto/hmac with SHA-256: blocks of 64 bytes *)

Definition hmac_key (key : list Z) : list Z :=
  let k := if (64 <? length key)%nat then Sum256 key else key in
  k ++ replicate (64 - length k) 0.

Definition hmac_sum (key msg : list Z) : list Z :=
  let k := hmac_key key in
  Sum256 ((Z.lxor 92 <$> k) ++ Sum256 ((Z.lxor 54 <$> k) ++ msg)).

(** Published vectors: FIPS 180-2 B.1 and B.2, RFC 4231 case 2. *)
Lemma sha256_vectors :
  EncodeToString (Sum256 (bytes_of_string "abc"))
    = "ba7816bf8f01cfea414140de5dae2223b00361a396177a9cb410ff61f20015ad" /\
  EncodeToString (Sum256 (bytes_of_string "abcdbcdecdefdefgefghfghighijhijkijkljklmklmnlmnomnopnopq"))
    = "248d6a61d20638b8e5c026930c3e6039a33ce45964ff2167f6ecedd419db06c1" /\
  EncodeToString (hmac_sum (bytes_of_string "Jefe") (bytes_of_string "what do ya want for nothing?"))
    = "5bdcc146bf60754e6a042426089575c75a003f089d2739839dec58b964ec3843".
Proof. vm_compute. done. Qed.

(** ** Facts *)

Lemma hex_value_digit d : 0 <= d < 16 -> hex_value (hex_digit d) = Some d.
Proof.
  intros Hd. unfold hex_value, hex_digit.
  rewrite ascii_byte_ascii by (unfold is_byte; destruct (Z.ltb_spec d 10); lia).
  destruct (Z.ltb_spec d 10).
  - rewrite (proj2 (Z.leb_le 48 (48 + d))), (proj2 (Z.leb_le (48 + d) 57)) by lia. cbn. f_equal. lia.
  - rewrite (proj2 (Z.leb_gt (87 + d) 57)) by lia. rewrite andb_false_r.
    rewrite (proj2 (Z.leb_le 97 (87 + d))), (proj2 (Z.leb_le (87 + d) 102)) by lia. cbn. f_equal. lia.
Qed.

Lemma nibbles b : Z.lor (Z.shiftl (Z.shiftr b 4) 4) (Z.land b 15) = b.
Proof.
  apply Z.bits_inj'. intros n Hn. change 15 with (Z.ones 4).
  rewrite Z.lor_spec, Z.shiftl_spec, Z.land_spec by lia. destruct (Z.lt_ge_cases n 4).
  - rewrite (Z.testbit_neg_r _ (n - 4)), Z.ones_spec_low by lia. by rewrite andb_true_r.
  - rewrite Z.shiftr_spec, Z.ones_spec_high by lia. rewrite andb_false_r, orb_false_r. f_equal. lia.
Qed.

Lemma hex_roundtrip bs : byte_list bs -> DecodeString (EncodeToString bs) = Some bs.
Proof.
  induction 1 as [|b bs Hb _ IH]; [done|]. unfold is_byte in Hb. cbn [EncodeToString DecodeString].
  rewrite !hex_value_digit, IH, nibbles; [done| |].
  - change 15 with (Z.ones 4). rewrite Z.land_ones by lia. apply Z.mod_pos_bound. lia.
  - rewrite Z.shiftr_div_pow2 by lia. change (2 ^ 4) with 16.
    split; [apply Z.div_pos; lia|apply Z.div_lt_upper_bound; lia].
Qed.

Lemma sha_rounds_length st l : length (foldl sha_round st l) = length st.
Proof.
  revert st. induction l as [|kw l IH]; intros st; [done|]. cbn [foldl]. rewrite IH. unfold sha_round.
  destruct st as [|a [|b [|c [|d [|e [|f [|g [|h [|? ?]]]]]]]]]; done.
Qed.

Lemma sha_blocks_length fuel st ws : length (sha_blocks fuel st ws) = length st.
Proof.
  revert st ws. induction fuel as [|fuel IH]; intros st ws; destruct ws; try done. cbn [sha_blocks]. rewrite IH.
  unfold sha_block. rewrite length_zip_with, sha_rounds_length. lia.
Qed.

Lemma Sum256_length bs : length (Sum256 bs) = 32%nat.
Proof.
  unfold Sum256. set (st := sha_blocks _ _ _). assert (length st = 8%nat) as H by apply sha_blocks_length. clearbody st.
  destruct st as [|a [|b [|c [|d [|e [|f [|g [|h [|? ?]]]]]]]]]; done.
Qed.

Lemma EncodeToString_nonempty bs : bs <> [] -> EncodeToString bs <> "".
Proof. by destruct bs. Qed.

Lemma hmac_nonempty key msg : EncodeToString (hmac_sum key msg) <> "".
Proof.
  apply EncodeToString_nonempty. intros H. apply (f_equal length) in H. unfold hmac_sum in H. by rewrite Sum256_length in H.
Qed.
