(* ===== verification/Meter.v ===== *)
(** * Meters, stored prices and economics of the compute commons
      (commons/meter.go; commons/db.go, commons/commons.go)

    The meter of one user on one torrent; the rows of prices, budgets and workloads that
    set-up writes, over the database of [Ledger]; the reload of the price table and
    the summary of an account.  Times are those of package time, nanoseconds since
    the year 1. *)
From Stdlib Require Import String.
From S2P Require Import Prelude GoStr GoFloat GoSort Credit Price Ledger.
Open Scope list_scope.
Open Scope string_scope.
Open Scope Z_scope.

(** ** Meters *)

Record ResourceMeter := mkMeter {
  rm_UserID : Z;
  rm_TorrentID : Z;
  rm_Requested : gmap string Z;
  rm_Reserved : gmap string Z;
  rm_Measured : gmap string Z;
  rm_StartTime : Z;
  rm_EndTime : Z;
  rm_Settled : bool
}.

Definition NewResourceMeter (now userID torrentID : Z) : ResourceMeter := mkMeter userID torrentID ∅ ∅ ∅ now 0 false.

Definition RecordMeasured (rt : string) (delta : Z) (rm : ResourceMeter) : ResourceMeter :=
  if delta <=? 0 then rm else rm {{ rm_Measured ::= fun m => <[rt := i64 (zget m rt + delta)]> m }}.

Definition RecordRequested (rt : string) (bytes : Z) (rm : ResourceMeter) : ResourceMeter :=
  if bytes <=? 0 then rm else rm {{ rm_Requested ::= <[rt := bytes]> }}.

Definition RecordReserved (rt : string) (bytes : Z) (rm : ResourceMeter) : ResourceMeter :=
  let bytes := if bytes <? 0 then 0 else bytes in
  rm {{ rm_Reserved ::= <[rt := bytes]> }}.

Definition SettleMeter (now : Z) (rm : ResourceMeter) : ResourceMeter :=
  if negb (rm_Settled rm) then rm {{ rm_Settled := true }} {{ rm_EndTime := now }} else rm.

Definition DurationSec (now : Z) (rm : ResourceMeter) : Z :=
  let end' := if rm_EndTime rm =? 0 then now else rm_EndTime rm in
  let d := DurationSeconds (TimeSub end' (rm_StartTime rm)) in
  if fltb d (of_int 0) then 0 else int64_of_float d.

Definition MeasurementAccuracy (rt : string) (rm : ResourceMeter) : Z :=
  let req := zget (rm_Requested rm) rt in
  if req =? 0 then 1000
  else
    let measured := zget (rm_Measured rm) rt in
    if measured <=? 0 then 0
    else
      let acc := i64 (Z.quot (i64 (measured * 1000)) req) in
      if 2000 <? acc then 2000 else acc.

(** ** Prices *)

(** The table has no rowids: rows are in the order of their keys.  A row that exists is kept. *)
Fixpoint place_price (r : PriceRow) (rows : list PriceRow) : list PriceRow :=
  match rows with
  | [] => [r]
  | r' :: rest => if string_lt (pr_ResourceType r) (pr_ResourceType r') then r :: rows else r' :: place_price r rest
  end.
Definition find_price (k : string) (rows : list PriceRow) : option PriceRow := find (fun r => String.eqb (pr_ResourceType r) k) rows.
Definition insert_price (r : PriceRow) (rows : list PriceRow) : list PriceRow :=
  match find_price (pr_ResourceType r) rows with Some _ => rows | None => place_price r rows end.

Definition default_row (now : Z) (e : string * ResourcePrice) : PriceRow :=
  mkPriceRow e.1 (Raw (rp_Base e.2)) (Raw (rp_Min e.2)) (Raw (rp_Max e.2))
    (pt_ScarcityFactor DefaultPriceTable) (pt_MaxScarcityMultiplier DefaultPriceTable) now.

(** The rows are written one by one in some order of the map, up to the first failure. *)
Fixpoint upsert_prices (fails : string -> bool) (now : Z) (es : list (string * ResourcePrice)) (rows : list PriceRow)
    : list PriceRow * result string unit :=
  match es with
  | [] => (rows, Ok tt)
  | e :: es => if fails e.1 then (rows, Err e.1) else upsert_prices fails now es (insert_price (default_row now e) rows)
  end.

Definition set_prices (rows : list PriceRow) (db : DB) : DB :=
  mkDB (db_accounts db) (db_budgets db) (db_budget_seq db) (db_ledger db) (db_reservations db) rows.

Definition UpsertDefaultPrices (order : gmap string ResourcePrice -> list (string * ResourcePrice)) (fails : string -> bool) (now : Z) (db : DB)
    : DB * result string unit :=
  let '(rows, r) := upsert_prices fails now (order (pt_Prices DefaultPriceTable)) (db_prices db) in
  (set_prices rows db, r).

(** The commons with its price table. *)
Definition ReloadPrices (fail : bool) (db : DB) (prices : PriceTable) : PriceTable * result unit unit :=
  match LoadPriceTable fail db with Err e => (prices, Err e) | Ok pt => (pt, Ok tt) end.

(** ** Budgets *)

(** The id of the row is not among the values, so the row never conflicts with another. *)
Definition UpsertBudget (fail : bool) (b : Budget) (db : DB) : DB * result unit unit :=
  if fail then (db, Err tt)
  else
    let row := mkBudget (db_budget_seq db + 1) (bud_UserID b) (bud_TorrentID b) (Raw (bud_MaxCredits b)) (Raw (bud_Consumed b)) (bud_Deadline b) in
    (mkDB (db_accounts db) ((db_budgets db ++ [row])%list) (db_budget_seq db + 1) (db_ledger db) (db_reservations db) (db_prices db), Ok tt).

(** ** Workloads *)

(** A row of commons_workload_economics. *)
Record EconomicsRow := mkEconRow {
  er_account_user_id : Z;
  er_max_total_credits : Z;
  er_priority_class : Z;
  er_deadline : option Z;
  er_preemptible : bool;
  er_optimization : Z;
  er_created_at : Z;
  er_updated_at : Z
}.

Definition UpsertWorkloadEconomics (fail : bool) (now torrentID : Z) (we : WorkloadEconomics) (t : gmap Z EconomicsRow)
    : gmap Z EconomicsRow * result unit unit :=
  if fail then (t, Err tt)
  else
    let deadlineVal := if 0 <? we_Deadline we then Some (we_Deadline we) else None in
    let created := match t !! torrentID with Some r => er_created_at r | None => now end in
    (<[torrentID := mkEconRow (we_AccountUserID we) (Raw (we_MaxTotalCredits we)) (we_PriorityClass we) deadlineVal (we_Preemptible we)
                      (we_Optimization we) created now]> t, Ok tt).

Definition LoadWorkloadEconomics (fail : bool) (torrentID : Z) (t : gmap Z EconomicsRow) : result unit (option WorkloadEconomics) :=
  if fail then Err tt
  else Ok ((fun r => mkWE (er_account_user_id r) (er_max_total_credits r) (er_priority_class r) (default 0 (er_deadline r)) (er_preemptible r)
                       (Some ∅) (er_optimization r)) <$> t !! torrentID).

(** ** The summary of an account *)

Definition AccountSummary (fail_load fail_query : bool) (db : DB) (userID : Z) : result unit string :=
  match LoadAccount fail_load db userID with
  | Err e => Err e
  | Ok None => Ok ("user " ++ dec userID ++ ": no account (will be auto-created on first announce)")
  | Ok (Some a) =>
      match QueryLedger fail_query db userID 5 with
      | Err e => Err e
      | Ok entries =>
          Ok ("user " ++ dec userID ++ " | balance " ++ CreditString (acc_Balance a) ++ " | priority " ++ PriorityString (acc_PriorityClass a)
              ++ " | reputation " ++ dec (acc_Reputation a) ++ " | recent txns: " ++ dec (Z.of_nat (List.length entries)))
      end
  end.

(** ** Theorems on meters *)

Inductive meter_op :=
| MMeasured (rt : string) (delta : Z)
| MRequested (rt : string) (bytes : Z)
| MReserved (rt : string) (bytes : Z)
| MSettle (now : Z).

Definition meter_step (rm : ResourceMeter) (op : meter_op) : ResourceMeter :=
  match op with
  | MMeasured rt d => RecordMeasured rt d rm
  | MRequested rt b => RecordRequested rt b rm
  | MReserved rt b => RecordReserved rt b rm
  | MSettle now => SettleMeter now rm
  end.

(** What was recorded as measured, without the negative amounts. *)
Definition measured_of (rt : string) (op : meter_op) : Z :=
  match op with MMeasured rt' d => if String.eqb rt' rt then Z.max 0 d else 0 | _ => 0 end.
Definition measured_sum (rt : string) (ops : list meter_op) : Z := foldr (fun op s => measured_of rt op + s) 0 ops.

Lemma measured_of_nonneg rt op : 0 <= measured_of rt op.
Proof. destruct op; cbn; try lia. destruct (String.eqb _ _); lia. Qed.
Lemma measured_sum_nonneg rt ops : 0 <= measured_sum rt ops.
Proof. unfold measured_sum. induction ops as [|op ops IH]; cbn; [done|]. pose proof (measured_of_nonneg rt op). lia. Qed.

Lemma zget_insert m k k' v : zget (<[k := v]> m) k' = if String.eqb k k' then v else zget m k'.
Proof. unfold zget. destruct (String.eqb_spec k k') as [->|?]; [by rewrite lookup_insert_eq|by rewrite lookup_insert_ne]. Qed.

Lemma measured_step rt op rm :
  zget (rm_Measured (meter_step rm op)) rt = i64 (zget (rm_Measured rm) rt + measured_of rt op) \/
  measured_of rt op = 0 /\ zget (rm_Measured (meter_step rm op)) rt = zget (rm_Measured rm) rt.
Proof.
  destruct op as [rt' d|rt' b|rt' b|now]; cbn [meter_step measured_of].
  - unfold RecordMeasured. destruct (Z.leb_spec d 0); [right; split; [destruct (String.eqb _ _); lia|done]|].
    destruct rm. cbn. rewrite zget_insert. destruct (String.eqb_spec rt' rt) as [->|]; [left; f_equal; lia|right; done].
  - right. unfold RecordRequested. destruct (b <=? 0); by destruct rm.
  - right. by destruct rm.
  - right. unfold SettleMeter. destruct (rm_Settled rm); by destruct rm.
Qed.

(** A meter adds up what is measured.  As long as the total fits 64 bits, after any
    records in any order the measured amount of a resource is the sum of its positive deltas; and
    the accuracy is a share of thousandths between 0 and 2000 as long as a thousand times
    the total fits. *)
Theorem meter_adds_up now u t rt ops :
  measured_sum rt ops < 2 ^ 63 ->
  let rm := foldl meter_step (NewResourceMeter now u t) ops in
  zget (rm_Measured rm) rt = measured_sum rt ops /\
  (1000 * measured_sum rt ops < 2 ^ 63 -> 0 <= zget (rm_Requested rm) rt < 2 ^ 63 -> 0 <= MeasurementAccuracy rt rm <= 2000).
Proof.
  intros Hs rm.
  assert (Hm : zget (rm_Measured rm) rt = measured_sum rt ops).
  { assert (forall rm0, 0 <= zget (rm_Measured rm0) rt -> zget (rm_Measured rm0) rt + measured_sum rt ops < 2 ^ 63 ->
      zget (rm_Measured (foldl meter_step rm0 ops)) rt = zget (rm_Measured rm0) rt + measured_sum rt ops) as Hg.
    { clear rm. clear Hs. induction ops as [|op ops IH]; intros rm0 H0 Hs; cbn [foldl measured_sum foldr] in *; [lia|].
      pose proof (measured_of_nonneg rt op). pose proof (measured_sum_nonneg rt ops). unfold measured_sum in *.
      destruct (measured_step rt op rm0) as [E|[E1 E2]]; [rewrite i64_id in E by (unfold in_i64; lia); rewrite IH; rewrite E; lia|rewrite IH; rewrite E2; lia]. }
    assert (zget (rm_Measured (NewResourceMeter now u t)) rt = 0) as E0 by (unfold zget, NewResourceMeter; cbn [rm_Measured]; by rewrite lookup_empty).
    pose proof (measured_sum_nonneg rt ops). unfold rm. rewrite Hg; rewrite E0; lia. }
  split; [done|]. intros Hb Hr. unfold MeasurementAccuracy. rewrite Hm. destruct (Z.eqb_spec (zget (rm_Requested rm) rt) 0); [lia|].
  pose proof (measured_sum_nonneg rt ops). destruct (Z.leb_spec (measured_sum rt ops) 0); [lia|].
  rewrite (i64_id (measured_sum rt ops * 1000)) by (unfold in_i64; lia).
  assert (0 <= Z.quot (measured_sum rt ops * 1000) (zget (rm_Requested rm) rt) <= measured_sum rt ops * 1000) as Hq.
  { split; [apply Z.quot_pos; lia|]. rewrite Z.quot_div_nonneg by lia. apply Z.div_le_upper_bound; nia. }
  rewrite i64_id by (unfold in_i64; lia). destruct (Z.ltb_spec 2000 (Z.quot (measured_sum rt ops * 1000) (zget (rm_Requested rm) rt))); lia.
Qed.

Lemma meter_adds_up_witness :
  zget (rm_Measured (foldl meter_step (NewResourceMeter 5 1 2) [MMeasured "upload" 700; MRequested "upload" 1000; MMeasured "upload" (-5); MMeasured "upload" 300])) "upload" = 1000.
Proof. refine (proj1 (meter_adds_up 5 1 2 "upload" [MMeasured "upload" 700; MRequested "upload" 1000; MMeasured "upload" (-5); MMeasured "upload" 300] _)). reflexivity. Defined.

(** A settled meter has stopped: whatever is recorded or settled later, its duration stays. *)
Theorem settled_duration rm ops now now' :
  rm_Settled rm = true -> rm_EndTime rm <> 0 -> DurationSec now (foldl meter_step rm ops) = DurationSec now' rm.
Proof.
  intros Hs He.
  assert (forall rm, rm_Settled rm = true -> rm_Settled (foldl meter_step rm ops) = true /\ rm_EndTime (foldl meter_step rm ops) = rm_EndTime rm /\
    rm_StartTime (foldl meter_step rm ops) = rm_StartTime rm) as Hg.
  { clear. induction ops as [|op ops IH]; intros rm Hs; cbn [foldl]; [done|].
    assert (rm_Settled (meter_step rm op) = true /\ rm_EndTime (meter_step rm op) = rm_EndTime rm /\ rm_StartTime (meter_step rm op) = rm_StartTime rm) as (H1 & H2 & H3).
    { destruct op as [rt d|rt b|rt b|now]; cbn [meter_step]; unfold RecordMeasured, RecordRequested, RecordReserved, SettleMeter.
      - destruct (d <=? 0); by destruct rm. - destruct (b <=? 0); by destruct rm. - by destruct rm. - by rewrite Hs. }
    rewrite <- H2, <- H3. by apply IH. }
  destruct (Hg rm Hs) as (_ & E1 & E2). unfold DurationSec. rewrite E1, E2. by destruct (Z.eqb_spec (rm_EndTime rm) 0).
Qed.

(** Ten petabytes against one: the product leaves 64 bits and the accuracy is negative. *)
Example accuracy_wraps :
  MeasurementAccuracy "upload" (foldl meter_step (NewResourceMeter 5 1 2) [MRequested "upload" (10 ^ 15); MMeasured "upload" (10 ^ 16)]) = -8446.
Proof. vm_compute. done. Qed.

(** ** Theorems on prices *)

Definition price_of (r : PriceRow) : ResourcePrice := mkPrice (pr_Base r) (pr_Min r) (pr_Max r).

Lemma loaded_price db pt k :
  NoDup (pr_ResourceType <$> db_prices db) -> LoadPriceTable false db = Ok pt ->
  pt_Prices pt !! k = match find_price k (db_prices db) with Some r => Some (price_of r) | None => pt_Prices DefaultPriceTable !! k end.
Proof.
  intros Hn. unfold LoadPriceTable. generalize (pt_Prices DefaultPriceTable) as dflt. intros dflt [= <-]. cbn [pt_Prices]. rewrite lookup_union.
  set (f := fun pt r => _).
  assert (forall rows pt, NoDup (pr_ResourceType <$> rows) ->
    pt_Prices (foldl f pt rows) !! k = match find_price k rows with Some r => Some (price_of r) | None => pt_Prices pt !! k end) as Hf.
  { induction rows as [|r rows IH]; intros pt Hr; [done|]. cbn [foldl find_price find]. rewrite fmap_cons in Hr. apply NoDup_cons in Hr as [Hnin Hr].
    rewrite IH by done. unfold find_price. destruct (String.eqb_spec (pr_ResourceType r) k) as [<-|Hne].
    - assert (find (fun r' => String.eqb (pr_ResourceType r') (pr_ResourceType r)) rows = None) as ->.
      { destruct (find _ rows) as [r'|] eqn:E; [|done]. apply find_some in E as [Hin E]. apply String.eqb_eq in E. destruct Hnin. rewrite <- E.
        apply list_elem_of_fmap_2, list_elem_of_In. done. }
      unfold f. cbn. by rewrite lookup_insert_eq.
    - destruct (find _ rows); [done|]. unfold f. cbn. by rewrite lookup_insert_ne. }
  rewrite Hf by done. cbn [pt_Prices]. rewrite lookup_empty. destruct (find_price k (db_prices db)); by destruct (dflt !! k).
Qed.

Lemma find_price_in k rows : find_price k rows = None <-> k ∉ pr_ResourceType <$> rows.
Proof.
  unfold find_price. induction rows as [|r rows IH]; cbn; [split; [intros _ H; by apply not_elem_of_nil in H|done]|].
  rewrite not_elem_of_cons. destruct (String.eqb_spec (pr_ResourceType r) k) as [->|Hne]; [by split; [|intros []]|]. rewrite IH. split; [intros H; split; congruence|by intros []].
Qed.

Lemma place_price_perm r rows : place_price r rows ≡ₚ r :: rows.
Proof. induction rows as [|r' rows IH]; cbn; [done|]. destruct (string_lt _ _); [done|]. rewrite IH. constructor. Qed.

Lemma insert_price_types r rows : NoDup (pr_ResourceType <$> rows) -> NoDup (pr_ResourceType <$> insert_price r rows).
Proof.
  intros Hn. unfold insert_price. destruct (find_price _ rows) eqn:E; [done|]. rewrite place_price_perm, fmap_cons. constructor; [by apply find_price_in|done].
Qed.

Lemma insert_price_find r rows k :
  find_price k (insert_price r rows) =
  match find_price k rows with Some r' => Some r' | None => if String.eqb (pr_ResourceType r) k then Some r else None end.
Proof.
  unfold insert_price. destruct (find_price (pr_ResourceType r) rows) as [r0|] eqn:E.
  - destruct (find_price k rows) eqn:Ek; [done|]. destruct (String.eqb_spec (pr_ResourceType r) k) as [<-|]; congruence.
  - unfold find_price in *. induction rows as [|r' rows IH]; cbn in *; [done|].
    destruct (String.eqb_spec (pr_ResourceType r') (pr_ResourceType r)) as [|Hne]; [done|]. destruct (string_lt _ _); cbn.
    + destruct (String.eqb_spec (pr_ResourceType r) k) as [<-|].
      * by rewrite (proj2 (String.eqb_neq _ _) Hne), E.
      * match goal with |- ?x = _ => by destruct x end.
    + destruct (String.eqb_spec (pr_ResourceType r') k); [done|]. by apply IH.
Qed.

Lemma upsert_prices_rows fails now es rows :
  NoDup (pr_ResourceType <$> rows) -> Forall (fun e => pt_Prices DefaultPriceTable !! e.1 = Some e.2) es ->
  let rows' := (upsert_prices fails now es rows).1 in
  NoDup (pr_ResourceType <$> rows') /\
  forall k, find_price k rows' = find_price k rows \/
            find_price k rows = None /\ exists p, pt_Prices DefaultPriceTable !! k = Some p /\ find_price k rows' = Some (default_row now (k, p)).
Proof.
  revert rows. induction es as [|[k0 p0] es IH]; intros rows Hn Hes; cbn; [split; [done|by left]|]. destruct (fails k0); [by split; [|left]|].
  apply Forall_cons in Hes as [H0 Hes]. destruct (IH _ (insert_price_types (default_row now (k0, p0)) rows Hn) Hes) as [H1 H2]. split; [done|].
  intros k. destruct (H2 k) as [E|(E & p & Hp & E')]; rewrite insert_price_find in E.
  - cbn in E. destruct (find_price k rows) as [r|] eqn:Ek; [by left|]. destruct (String.eqb_spec k0 k) as [<-|]; [|by left]. right. split; [done|]. by exists p0.
  - right. destruct (find_price k rows) as [r|]; [done|]. split; [done|]. by exists p.
Qed.

(** Storing the default prices changes no price.  Whatever rows there are, in whatever order the
    defaults are written, and whether or not a statement fails on the way, a
    reload gives every resource the price that it gave before: the stored one, or the default.  On
    an empty table the whole price table is the default. *)
Theorem defaults_change_no_price order fails now db pt0 :
  (forall m, order m ≡ₚ map_to_list m) -> NoDup (pr_ResourceType <$> db_prices db) ->
  let db' := (UpsertDefaultPrices order fails now db).1 in
  exists pt pt', ReloadPrices false db pt0 = (pt, Ok tt) /\ ReloadPrices false db' pt0 = (pt', Ok tt) /\
    pt_Prices pt' = pt_Prices pt /\ (db_prices db = [] -> pt' = DefaultPriceTable).
Proof.
  intros Ho Hn db'. eexists _, _. split; [reflexivity|]. split; [reflexivity|].
  assert (Forall (fun e => pt_Prices DefaultPriceTable !! e.1 = Some e.2) (order (pt_Prices DefaultPriceTable))) as Hes.
  { apply Forall_forall. intros [k p]. rewrite Ho. by intros ?%elem_of_map_to_list. }
  destruct (upsert_prices_rows fails now _ (db_prices db) Hn Hes) as [Hn' Hf].
  assert (db_prices db' = (upsert_prices fails now (order (pt_Prices DefaultPriceTable)) (db_prices db)).1) as Ed
    by (unfold db', UpsertDefaultPrices; by destruct (upsert_prices _ _ _ _)).
  assert (Hp : forall pt pt', LoadPriceTable false db = Ok pt -> LoadPriceTable false db' = Ok pt' -> pt_Prices pt' = pt_Prices pt).
  { intros pt pt' E E'. apply map_eq. intros k. rewrite (loaded_price db' pt' k ltac:(by rewrite Ed) E'), (loaded_price db pt k Hn E), Ed.
    destruct (Hf k) as [->|(-> & p & Hp & ->)]; [done|]. rewrite Hp. by destruct p. }
  split; [by apply Hp|]. intros He.
  assert (forall l acc, Forall (fun r => pr_ScarcityFactor r = 2000 /\ pr_MaxScarcityMult r = 3000) l -> pt_ScarcityFactor acc = 2000 -> pt_MaxScarcityMultiplier acc = 3000 ->
    let pt := foldl (fun pt r => mkPriceTable (<[pr_ResourceType r := mkPrice (pr_Base r) (pr_Min r) (pr_Max r)]> (pt_Prices pt)) (pr_ScarcityFactor r) (pr_MaxScarcityMult r)) acc l in
    pt_ScarcityFactor pt = 2000 /\ pt_MaxScarcityMultiplier pt = 3000) as Hs.
  { induction l as [|r l IH]; intros acc Hl H1 H2; [done|]. apply Forall_cons in Hl as [[? ?] Hl]. by apply IH. }
  assert (Forall (fun r => pr_ScarcityFactor r = 2000 /\ pr_MaxScarcityMult r = 3000) (db_prices db')) as Hrows.
  { rewrite Ed, He. clear. generalize (order (pt_Prices DefaultPriceTable)) as es. intros es.
    assert (forall rows, Forall (fun r => pr_ScarcityFactor r = 2000 /\ pr_MaxScarcityMult r = 3000) rows ->
      Forall (fun r => pr_ScarcityFactor r = 2000 /\ pr_MaxScarcityMult r = 3000) (upsert_prices fails now es rows).1) as H; [|by apply H].
    induction es as [|e es IH]; intros rows Hr; cbn; [done|]. destruct (fails e.1); [done|]. apply IH. unfold insert_price. destruct (find_price _ _); [done|].
    rewrite place_price_perm. by constructor. }
  match goal with |- ?x = _ => pose proof (Hp _ x eq_refl eq_refl) as E; set (pt' := x) in *; assert (pt' = mkPriceTable (pt_Prices pt') (pt_ScarcityFactor pt') (pt_MaxScarcityMultiplier pt')) as -> by by destruct pt' end.
  unfold DefaultPriceTable at 1. f_equal.
  - rewrite E, He. cbn [foldl pt_Prices]. by rewrite (left_id_L ∅ (∪)).
  - unfold pt'. cbn [pt_ScarcityFactor]. by apply Hs.
  - unfold pt'. cbn [pt_MaxScarcityMultiplier]. by apply Hs.
Qed.

(** ** Theorems on budgets and workloads *)

(** The economics of a workload come back as they were stored, but for the price caps, which have
    no column, so that every price is acceptable, and for a deadline below zero, which
    is none; those of other workloads stay. *)
Theorem economics_round_trip now torrentID we t :
  let t' := (UpsertWorkloadEconomics false now torrentID we t).1 in
  LoadWorkloadEconomics false torrentID t' =
    Ok (Some (mkWE (we_AccountUserID we) (we_MaxTotalCredits we) (we_PriorityClass we) (Z.max 0 (we_Deadline we)) (we_Preemptible we) (Some ∅) (we_Optimization we))) /\
  (forall we', LoadWorkloadEconomics false torrentID t' = Ok (Some we') -> forall rt price, WouldAcceptPrice we' rt price = true) /\
  (forall id, id <> torrentID -> LoadWorkloadEconomics false id t' = LoadWorkloadEconomics false id t).
Proof.
  unfold LoadWorkloadEconomics, UpsertWorkloadEconomics. cbn [fst]. split_and!.
  - rewrite lookup_insert_eq. cbn. do 3 f_equal. destruct (Z.ltb_spec 0 (we_Deadline we)); cbn; lia.
  - intros we' E rt price. rewrite lookup_insert_eq in E. injection E as <-. unfold WouldAcceptPrice. cbn. by rewrite lookup_empty.
  - intros id Hne. by rewrite lookup_insert_ne.
Qed.

(** A budget that is written again is a second budget; the smaller one counts. *)
Example budget_written_twice :
  let b := mkBudget 1 7 None 100 0 None in
  let db1 := (UpsertBudget false b emptyDB).1 in
  let db2 := (UpsertBudget false (mkBudget 1 7 None 500 0 None) db1).1 in
  length (db_budgets db2) = 2%nat /\ CheckBudgetAvailable false 0 db2 7 1 = Ok 100.
Proof. vm_compute. done. Qed.

Example summary_text :
  AccountSummary false false (set_accounts {[88 := mkAccount 88 1500000 0 0 1000 P2Standard 0 0]} emptyDB) 88 =
  Ok "user 88 | balance 1.500000 CC | priority P2_STANDARD | reputation 1000 | recent txns: 0".
Proof. vm_compute. done. Qed.
