(* ===== verification/Ml.v ===== *)
(** * Anomaly detection and peer scoring (ml/anomaly_detector.go,
      ml/peer_scorer.go)

    [time.Since] is written with the clock readings as arguments. *)
From Stdlib Require Import String.
From S2P Require Import Prelude GoStr NetIP GoFloat.
Open Scope Z_scope.

(** ** Behaviour anomalies *)

Record AnomalyDetector := mkDetector {
  ad_maxUploadSpeed : float64;
  ad_maxAnnounceRate : Z;
  ad_maxPortChanges : Z;
  ad_minDownloadRatio : float64;
  ad_rapidReconnectSec : Z
}.

Definition NewAnomalyDetector : AnomalyDetector :=
  mkDetector (of_int 1000000000) 100 10 (flit 1 100) 60.

Record PeerBehavior := mkBehavior {
  b_Uploaded : Z;
  b_Downloaded : Z;
  b_UploadSpeed : float64;
  b_TorrentSize : Z;
  b_AnnounceCount : Z;
  b_PortHistory : list Z;
  b_ConnectionTimes : list Z;
  b_FirstSeen : Z
}.

(** [lastTwo[1].Sub(lastTwo[0]).Seconds() < float64(ad.rapidReconnectSec)] *)
Definition rapid_reconnect (ad : AnomalyDetector) (times : list Z) : bool :=
  match reverse times with
  | t1 :: t0 :: _ =>
      fltb (DurationSeconds (TimeSub t1 t0)) (of_int (ad_rapidReconnectSec ad))
  | _ => false
  end.

(** [None]: nothing detected; [Some reason]: flagged. *)
Definition DetectAnomaly (ad : AnomalyDetector) (now : Z) (b : PeerBehavior) : option string :=
  if fltb (ad_maxUploadSpeed ad) (b_UploadSpeed b) then Some "impossible_upload_speed"
  else if (100000000000 <? b_Uploaded b) && (b_Downloaded b <? 1000000) &&
          fltb (fdiv (of_int (b_Downloaded b)) (of_int (b_Uploaded b))) (ad_minDownloadRatio ad)
  then Some "ratio_cheating"
  else if (0 <? b_AnnounceCount b) &&
          (ad_maxAnnounceRate ad <?
             int64_of_float (fdiv (of_int (b_AnnounceCount b))
               (fmax (DurationHours (TimeSub now (b_FirstSeen b))) (of_int 1))))
  then Some "ddos_pattern"
  else if ad_maxPortChanges ad <? Z.of_nat (length (b_PortHistory b)) then Some "port_scanning"
  else if rapid_reconnect ad (b_ConnectionTimes b) then Some "rapid_reconnect"
  else if i64 (b_TorrentSize b * 2) <? b_Downloaded b then Some "impossible_download"
  else None.

Definition SetThresholds (maxAnnounceRate : Z) (ad : AnomalyDetector) : AnomalyDetector :=
  if maxAnnounceRate =? 0 then ad else ad {{ ad_maxAnnounceRate := maxAnnounceRate }}.

(** ** Client anomalies *)

(** [strings.Contains(s, substr)] *)
Definition contains (s substr : string) : bool :=
  match String.index 0 substr s with Some _ => true | None => false end.

Definition maliciousPatterns : list string := ["BitSpirit"; "BitComet"; "XunLei"; "Thunder"].

Definition isRepeatingChar (s : string) : bool :=
  match s with
  | EmptyString => false
  | String c s' => str_all (Ascii.eqb c) s'
  end.

Definition DetectClientAnomaly (clientID userAgent : string) : option string :=
  if existsb (contains userAgent) maliciousPatterns then Some "known_malicious_client"
  else if negb (String.length clientID =? 20)%nat then Some "invalid_client_id_length"
  else if isRepeatingChar clientID then Some "suspicious_client_id_pattern"
  else None.

(** ** Peer scoring *)

Record PeerInfo := mkInfo {
  pi_IP : IP;
  pi_Port : Z;
  pi_Uploaded : Z;
  pi_Downloaded : Z;
  pi_FirstSeen : Z;
  pi_LastAnnounce : Z;
  pi_CompletedSessions : Z;
  pi_TotalSessions : Z
}.

Definition normalize (value minVal maxVal : float64) : float64 :=
  if feqb (fsub maxVal minVal) (of_int 0) then of_int 0
  else fdiv (fsub value minVal) (fsub maxVal minVal).

Definition ipDistance (ip1 ip2 : IP) : Z :=
  match To4 ip1, To4 ip2 with
  | a :: _, b :: _ => Z.lxor a b
  | _, _ =>
      match ip1, ip2 with
      | a :: _, b :: _ =>
          if ((length ip1 =? 16)%nat && (length ip2 =? 16)%nat)%bool then Z.lxor a b else 128
      | _, _ => 128
      end
  end.

(** The weights of [NewPeerScorer]. *)
Definition w_upload_speed : float64 := flit 35 100.
Definition w_availability : float64 := flit 25 100.
Definition w_proximity : float64 := flit 20 100.
Definition w_reputation : float64 := flit 15 100.
Definition w_freshness : float64 := flit 5 100.

(** [now1], [now2], [now3]: the three clock readings, in order. *)
Definition Score (now1 now2 now3 : Z) (peer : PeerInfo) (requesterIP : IP) : float64 :=
  let score := of_int 0 in
  let uploadSpeed := fdiv (of_int (pi_Uploaded peer))
                       (fmax (DurationSeconds (TimeSub now1 (pi_FirstSeen peer))) (of_int 1)) in
  let normalizedSpeed := normalize uploadSpeed (of_int 0) (of_int 1000000) in
  let score := fadd score (fmul w_upload_speed normalizedSpeed) in
  let uptime := DurationHours (TimeSub now2 (pi_FirstSeen peer)) in
  let availability := fmin (fdiv uptime (of_int 24)) (of_int 1) in
  let score := fadd score (fmul w_availability availability) in
  let proximity := fsub (of_int 1) (fdiv (of_int (ipDistance (pi_IP peer) requesterIP)) (of_int 255)) in
  let score := fadd score (fmul w_proximity proximity) in
  let reputation := fdiv (of_int (pi_CompletedSessions peer))
                      (fmax (of_int (pi_TotalSessions peer)) (of_int 1)) in
  let score := fadd score (fmul w_reputation reputation) in
  let secondsSinceAnnounce := DurationSeconds (TimeSub now3 (pi_LastAnnounce peer)) in
  let freshness := fdiv (of_int 1)
                     (fadd (of_int 1) (fdiv secondsSinceAnnounce (of_int 1800))) in
  fadd score (fmul w_freshness freshness).

(** ** Swarm health *)

Definition PredictCompletionTime (seeders leechers : Z) (avgUploadSpeed torrentSize : float64) : Z :=
  if seeders =? 0 then 2 ^ 63 - 1
  else
    let totalUpload := fmul (of_int seeders) avgUploadSpeed in
    let totalDemand := fmul (of_int leechers) torrentSize in
    if feqb totalUpload (of_int 0) then 2 ^ 63 - 1
    else i64 (int64_of_float (fdiv totalDemand totalUpload) * Second).

Definition HealthScore (seeders leechers : Z) : Z :=
  if seeders =? 0 then 0
  else if leechers =? 0 then 100
  else
    let ratio := fdiv (of_int seeders) (of_int leechers) in
    if fleb (of_int 1) ratio then 100
    else if fleb (flit 1 2) ratio then
      75 + int64_of_float (fmul (fsub ratio (flit 1 2)) (of_int 50))
    else if fleb (flit 1 10) ratio then
      50 + int64_of_float (fmul (fsub ratio (flit 1 10)) (flit 125 2))
    else int64_of_float (fmul ratio (of_int 500)).

Example health_scores :
  HealthScore 3 2 = 100 /\ HealthScore 3 4 = 87 /\ HealthScore 1 2 = 75 /\
  HealthScore 1 4 = 59 /\ HealthScore 1 20 = 25.
Proof. vm_compute. auto. Qed.

Example client_patterns :
  DetectClientAnomaly "-TR2940-abcdefghijkl" "Mozilla BitComet/1.5" = Some "known_malicious_client" /\
  DetectClientAnomaly "aaaaaaaaaaaaaaaaaaaa" "Transmission" = Some "suspicious_client_id_pattern" /\
  DetectClientAnomaly "-TR2940-abcdefghijkl" "Transmission" = None.
Proof. vm_compute. auto. Qed.
