(* ===== verification/PeerSelect.v ===== *)
(** * Peer selection (tracker/optimize.go)

    Shuffling, reservoir sampling, the three selection policies and the peer
    key.  [rand.Intn(n+1)] at loop index [n] is the value [draw n] of an
    argument, any function with [draws_ok]; each loop that draws has its own.
    [sort.Slice] is not stable: it is an argument that returns some sorted
    permutation. *)
From Stdlib Require Import String.
From S2P Require Import Prelude GoStr NetIP TrackerTypes GoFloat Ml EconScheduler Credit.
Open Scope Z_scope.

Definition draws_ok (draw : nat -> nat) : Prop := forall n, (draw n <= n)%nat.

(** [for i := n-1; i > 0; i--]: the loop from index [i] down to 1. *)
Fixpoint shuffle_from {A} (draw : nat -> nat) (i : nat) (peers : list A) : list A :=
  match i with
  | O => peers
  | S i' => shuffle_from draw i' (swap i (draw i) peers)
  end.

Definition FisherYatesShuffle {A} (draw : nat -> nat) (peers : list A) : list A :=
  shuffle_from draw (length peers - 1) peers.

(** The loop over the rest of the stream, [i] the index of its head. *)
Fixpoint reservoir {A} (draw : nat -> nat) (k i : nat) (rest sample : list A) : list A :=
  match rest with
  | [] => sample
  | p :: rest' =>
      reservoir draw k (S i) rest'
        (if (draw i <? k)%nat then <[draw i := p]> sample else sample)
  end.

Definition ReservoirSample {A} (draw : nat -> nat) (peers : list A) (k : Z) : list A :=
  if k <=? 0 then []
  else if Z.of_nat (length peers) <=? k then peers
  else
    let k := Z.to_nat k in
    reservoir draw k k (drop k peers) (take k peers).

(** [excludeUserID] keeps all of the requester's own peers out. *)
Definition selectable (excludeUserID : Z) (peer : Peer) : bool :=
  negb (p_UserID peer =? excludeUserID) && p_Visible peer.

Definition collectVisiblePeers (order : PeerList -> list (string * Peer)) (peerList : PeerList)
    (excludeUserID : Z) : list Peer :=
  filter (fun p => selectable excludeUserID p = true) (order peerList).*2.

(** [for _, peer := range sel { if len(peer.IPPort) == 6 { append } }] *)
Definition emit (sel : list Peer) : list Z :=
  concat ((fun p => if (length (p_IPPort p) =? 6)%nat then p_IPPort p else []) <$> sel).

Record Draws := mkDraws {
  d_sample1 : nat -> nat;
  d_shuffle1 : nat -> nat;
  d_sample2 : nat -> nat;
  d_shuffle2 : nat -> nat
}.

Section Selection.
Context (order : PeerList -> list (string * Peer)).

(** The buffer for [numwant] addresses is taken to fit in memory: a caller caps the number at the limit
    of the configuration. *)
Definition SelectPeersOptimized (d : Draws) (torrent : Torrent) (userID numwant : Z)
    (isLeecher : bool) : list Z :=
  if numwant <=? 0 then []
  else if isLeecher then
    let seeders := collectVisiblePeers order (t_Seeders torrent) userID in
    let selectedSeeders :=
      FisherYatesShuffle (d_shuffle1 d) (ReservoirSample (d_sample1 d) seeders numwant) in
    let peers := emit selectedSeeders in
    if Z.of_nat (length selectedSeeders) <? numwant then
      let leechers := collectVisiblePeers order (t_Leechers torrent) userID in
      let remaining := numwant - Z.of_nat (length selectedSeeders) in
      (peers ++ emit (FisherYatesShuffle (d_shuffle2 d)
                        (ReservoirSample (d_sample2 d) leechers remaining)))%list
    else peers
  else
    let leechers := collectVisiblePeers order (t_Leechers torrent) userID in
    emit (FisherYatesShuffle (d_shuffle1 d) (ReservoirSample (d_sample1 d) leechers numwant)).

(** ** Scored selection *)

Definition peerToInfo (p : Peer) : PeerInfo :=
  mkInfo (p_IP p) (p_Port p) (p_Uploaded p) (p_Downloaded p) (p_FirstAnnounced p)
    (p_LastAnnounced p) (if p_Left p =? 0 then p_Announces p else 0) (p_Announces p).

Abbreviation pair := (Peer * float64)%type.

Definition selectPeersByScore (sortSlice : list pair -> list pair)
    (score : PeerInfo -> IP -> float64) (candidates : list Peer) (requesterIP : IP) (want : Z)
    : list Z :=
  match candidates with
  | [] => []
  | _ =>
      if want <=? 0 then []
      else
        let pairs := sortSlice ((fun p => (p, score (peerToInfo p) requesterIP)) <$> candidates) in
        emit (take (Z.to_nat want) pairs).*1
  end.

Definition SelectPeersScored (sortSlice : list pair -> list pair)
    (score : PeerInfo -> IP -> float64) (torrent : Torrent) (requesterIP : IP)
    (userID numwant : Z) (isLeecher : bool) : list Z :=
  if numwant <=? 0 then []
  else if isLeecher then
    let seeders := collectVisiblePeers order (t_Seeders torrent) userID in
    let out := selectPeersByScore sortSlice score seeders requesterIP numwant in
    let remaining := numwant - Z.of_nat (length out) / 6 in
    if 0 <? remaining then
      let leechers := collectVisiblePeers order (t_Leechers torrent) userID in
      (out ++ selectPeersByScore sortSlice score leechers requesterIP remaining)%list
    else out
  else
    let leechers := collectVisiblePeers order (t_Leechers torrent) userID in
    selectPeersByScore sortSlice score leechers requesterIP numwant.

(** ** Selection through the economic scheduler *)

Definition peer_candidate (announceInterval : Z) (p : Peer) : SeederCandidate :=
  {| sc_UserID := p_UserID p; sc_ArtifactLocal := false; sc_StorageLocal := false;
     sc_UptimeSec := i64 (p_Announces p * announceInterval);
     sc_ReputationScore := ReputationDefault; sc_ConnectedPeers := 0;
     sc_PriorityClass := P2Standard |}.

(** The later peer of a user replaces the earlier one. *)
Definition peer_by_user (seeders : list Peer) : gmap Z Peer :=
  foldl (fun m p => <[p_UserID p := p]> m) ∅ seeders.

Fixpoint emit_ranked (n : Z) (peerByUserID : gmap Z Peer) (ranked : list SeederCandidate)
    (result : list Z) : list Z :=
  match ranked with
  | [] => result
  | sc :: ranked' =>
      if n <=? Z.of_nat (length result) / 6 then result
      else
        match peerByUserID !! sc_UserID sc with
        | Some p =>
            if (length (p_IPPort p) =? 6)%nat
            then emit_ranked n peerByUserID ranked' (result ++ p_IPPort p)%list
            else emit_ranked n peerByUserID ranked' result
        | None => emit_ranked n peerByUserID ranked' result
        end
  end.

(** [commons] is the [EvaluatePeers] of [w.Commons], [None] when no economy is
    configured; the result is [None] when it panics. *)
Definition selectPeersWithEconomics (d : Draws)
    (commons : option (AllocationRequest -> option AllocationDecision)) (announceInterval : Z)
    (torrent : Torrent) (userID numwant : Z) (isLeecher : bool) : option (list Z) :=
  match commons with
  | None => Some (SelectPeersOptimized d torrent userID numwant isLeecher)
  | Some evaluatePeers =>
      if negb isLeecher || (numwant <=? 0)
      then Some (SelectPeersOptimized d torrent userID numwant isLeecher)
      else
        let seeders := collectVisiblePeers order (t_Seeders torrent) userID in
        match seeders with
        | [] => Some (SelectPeersOptimized d torrent userID numwant isLeecher)
        | _ =>
            let req := mkRequest userID (t_ID torrent) None
                         (peer_candidate announceInterval <$> seeders)
                         (Size (t_Seeders torrent)) (Size (t_Leechers torrent)) in
            decision ← evaluatePeers req;
            if negb (ad_Accepted decision) then Some []
            else
              let result := emit_ranked numwant (peer_by_user seeders)
                              (ad_RankedSeeders decision) [] in
              let remaining := numwant - Z.of_nat (length result) / 6 in
              if 0 <? remaining then
                let leechers := collectVisiblePeers order (t_Leechers torrent) userID in
                Some (result ++ emit (FisherYatesShuffle (d_shuffle2 d)
                                        (ReservoirSample (d_sample2 d) leechers remaining)))%list
              else Some result
        end
  end.

End Selection.

(** ** Keys and intervals *)

(** [peerID[12 + torrentID % 16381 % 8]] is in range for a 20-byte id. *)
Definition PeerKeyPrime (peerID : list Z) (userID torrentID : Z) : string :=
  if (length peerID <? 20)%nat then string_of_bytes peerID
  else
    let randomByte := default 0 (peerID !! Z.to_nat (12 + (torrentID mod 16381) mod 8)) in
    string_of_bytes (randomByte :: u8 (Z.shiftr userID 24) :: u8 (Z.shiftr userID 16) ::
                     u8 (Z.shiftr userID 8) :: u8 userID :: peerID).

Definition AdaptiveInterval (seederCount leecherCount baseInterval : Z) : Z :=
  let totalPeers := i64 (seederCount + leecherCount) in
  if totalPeers <? 10 then 600 else if totalPeers <? 100 then 1200 else 2400.

(** ** Shuffling and sampling: lemmas *)
Open Scope list_scope.
Open Scope Z_scope.

Lemma swap_perm {A} (i j : nat) (l : list A) : swap i j l ≡ₚ l.
Proof.
  unfold swap. destruct (l !! i) as [x|] eqn:Hi, (l !! j) as [y|] eqn:Hj; try done.
  by apply Permutation_insert_swap.
Qed.

Lemma shuffle_from_perm {A} draw i (l : list A) : shuffle_from draw i l ≡ₚ l.
Proof.
  revert l. induction i as [|i IH]; intros l; [done|]. cbn [shuffle_from].
  by rewrite IH, swap_perm.
Qed.

Lemma shuffle_perm {A} draw (l : list A) : FisherYatesShuffle draw l ≡ₚ l.
Proof. apply shuffle_from_perm. Qed.

Lemma swap_lookup_ne {A} (i j k : nat) (l : list A) :
  k <> i -> k <> j -> swap i j l !! k = l !! k.
Proof.
  intros Hi Hj. unfold swap. destruct (l !! i), (l !! j); try done.
  by rewrite !list_lookup_insert_ne by congruence.
Qed.

Lemma swap_lookup_l {A} (i j : nat) (l : list A) :
  (i < length l)%nat -> (j < length l)%nat -> swap i j l !! i = l !! j.
Proof.
  intros Hi Hj. unfold swap.
  destruct (lookup_lt_is_Some_2 l i Hi) as [x ->], (lookup_lt_is_Some_2 l j Hj) as [y ->].
  apply list_lookup_insert_eq. by rewrite length_insert.
Qed.

(** The loop from index [i] leaves everything above [i] in place. *)
Lemma shuffle_above {A} draw i k (l : list A) :
  draws_ok draw -> (i < k)%nat -> shuffle_from draw i l !! k = l !! k.
Proof.
  intros Hd. revert l. induction i as [|i IH]; intros l Hk; [done|]. cbn [shuffle_from].
  specialize (Hd (S i)). rewrite IH by lia. apply swap_lookup_ne; lia.
Qed.

Lemma shuffle_at {A} draw i (l : list A) :
  draws_ok draw -> (S i < length l)%nat -> shuffle_from draw (S i) l !! S i = l !! draw (S i).
Proof.
  intros Hd Hi. cbn [shuffle_from]. rewrite shuffle_above by (done || lia).
  specialize (Hd (S i)). apply swap_lookup_l; lia.
Qed.

Lemma shuffle_ext {A} d1 d2 i (l : list A) :
  (forall k, (1 <= k <= i)%nat -> d1 k = d2 k) -> shuffle_from d1 i l = shuffle_from d2 i l.
Proof.
  revert l. induction i as [|i IH]; intros l H; [done|]. cbn [shuffle_from].
  rewrite (H (S i)) by lia. apply IH. intros k Hk. apply H. lia.
Qed.

Lemma shuffle_draws_inj {A} d1 d2 i (l : list A) :
  draws_ok d1 -> draws_ok d2 -> NoDup l -> (i < length l)%nat ->
  shuffle_from d1 i l = shuffle_from d2 i l ->
  forall k, (1 <= k <= i)%nat -> d1 k = d2 k.
Proof.
  intros H1 H2. revert l. induction i as [|i IH]; intros l Hnd Hi E k Hk; [lia|].
  assert (d1 (S i) = d2 (S i)) as Ed.
  { pose proof (shuffle_at d1 i l H1 Hi) as E1. rewrite E, (shuffle_at d2 i l H2 Hi) in E1.
    destruct (lookup_lt_is_Some_2 l (d1 (S i))) as [x Hx]; [specialize (H1 (S i)); lia|].
    eapply NoDup_lookup; [done|done|]. by rewrite E1. }
  destruct (decide (k = S i)) as [->|]; [done|].
  cbn [shuffle_from] in E. rewrite Ed in E.
  apply (IH (swap (S i) (d2 (S i)) l)); [|rewrite swap_perm; lia|done|lia].
  by rewrite swap_perm.
Qed.

Lemma shuffle_reaches {A} i (l l' : list A) :
  NoDup l -> l ≡ₚ l' -> (i < length l)%nat ->
  (forall k, (i < k)%nat -> l !! k = l' !! k) ->
  exists draw, draws_ok draw /\ shuffle_from draw i l = l'.
Proof.
  revert l. induction i as [|i IH]; intros l Hnd Hp Hi Hk.
  - exists (fun _ => 0%nat). split; [intros ?; lia|]. simpl.
    destruct l as [|x l], l' as [|y l']; simpl in Hi; [lia|lia| |].
    { by apply Permutation_nil_r in Hp. }
    assert (l = l') as -> by (apply list_eq; intros k; apply (Hk (S k)); lia).
    apply (inj (.++ l') [x] [y]), Permutation_singleton_inj in Hp. by subst.
  - pose proof Hp as Hlen%Permutation_length.
    destruct (lookup_lt_is_Some_2 l' (S i)) as [z Hz]; [lia|].
    assert (z ∈ l) as [j Hj]%list_elem_of_lookup by (rewrite Hp; by eapply list_elem_of_lookup_2).
    assert (j <= S i)%nat as Hji.
    { destruct (decide (j <= S i)%nat); [done|]. rewrite Hk in Hj by lia.
      rewrite Hp in Hnd. pose proof (NoDup_lookup _ _ _ _ Hnd Hj Hz). lia. }
    destruct (IH (swap (S i) j l)) as (draw & Hd & E).
    + by rewrite swap_perm.
    + by rewrite swap_perm.
    + rewrite swap_perm. lia.
    + intros k Hk'. destruct (decide (k = S i)) as [->|].
      * by rewrite swap_lookup_l, Hj, Hz by lia.
      * rewrite swap_lookup_ne by lia. apply Hk. lia.
    + exists (fun n => if decide (n = S i) then j else draw n). split.
      { intros n. destruct (decide (n = S i)) as [->|]; [done|apply Hd]. }
      cbn [shuffle_from]. rewrite decide_True by done. rewrite <- E. apply shuffle_ext.
      intros k Hk'. by rewrite decide_False by lia.
Qed.

Lemma submseteq_NoDup {A} (l1 l2 : list A) : NoDup l2 -> l1 ⊆+ l2 -> NoDup l1.
Proof. intros Hnd [l Hl]%submseteq_Permutation. rewrite Hl in Hnd.
  by apply NoDup_app in Hnd as [? _]. Qed.

Lemma insert_submseteq {A} (j : nat) (p : A) (s seen : list A) :
  s ⊆+ seen -> (j < length s)%nat -> <[j := p]> s ⊆+ seen ++ [p].
Proof.
  intros Hs Hj. destruct (lookup_lt_is_Some_2 s j Hj) as [q Hq].
  rewrite insert_take_drop by done. rewrite <- Permutation_middle, (comm app seen). simpl.
  apply submseteq_skip. etrans; [|exact Hs].
  rewrite <- (take_drop_middle s j q Hq) at 3.
  apply submseteq_app; [done|]. by apply submseteq_cons.
Qed.

Lemma reservoir_spec {A} draw k i (rest sample seen : list A) :
  length sample = k -> sample ⊆+ seen ->
  reservoir draw k i rest sample ⊆+ seen ++ rest /\ length (reservoir draw k i rest sample) = k.
Proof.
  revert i sample seen. induction rest as [|p rest IH]; intros i sample seen Hlen Hsub; simpl.
  - by rewrite app_nil_r.
  - rewrite cons_middle, app_assoc. apply IH.
    + destruct (_ <? _)%nat; [by rewrite length_insert|done].
    + destruct (Nat.ltb_spec (draw i) k).
      * apply insert_submseteq; [done|lia].
      * etrans; [exact Hsub|]. apply submseteq_inserts_r. done.
Qed.

Lemma ReservoirSample_spec {A} draw (l : list A) k :
  ReservoirSample draw l k ⊆+ l /\
  Z.of_nat (length (ReservoirSample draw l k)) = Z.min (Z.max 0 k) (Z.of_nat (length l)).
Proof.
  unfold ReservoirSample. destruct (Z.leb_spec k 0).
  { split; [apply submseteq_nil_l|]. simpl. lia. }
  destruct (Z.leb_spec (Z.of_nat (length l)) k); [split; [done|lia]|].
  destruct (reservoir_spec draw (Z.to_nat k) (Z.to_nat k) (drop (Z.to_nat k) l)
              (take (Z.to_nat k) l) (take (Z.to_nat k) l)) as [Hs Hl].
  - rewrite length_take. lia.
  - done.
  - rewrite take_drop in Hs. split; [done|]. rewrite Hl. lia.
Qed.

(** ** What a selection may contain *)

Definition in_swarm (torrent : Torrent) (p : Peer) : Prop :=
  exists k, t_Seeders torrent !! k = Some p \/ t_Leechers torrent !! k = Some p.

(** [out] is the addresses of at most [want] peers of the swarm, each visible,
    of another user, and with a compact IPv4 address. *)
Definition offers (torrent : Torrent) (userID want : Z) (out : list Z) : Prop :=
  exists sel : list Peer,
    out = concat (p_IPPort <$> sel) /\ Z.of_nat (length sel) <= Z.max 0 want /\
    Forall (fun p => selectable userID p = true /\ length (p_IPPort p) = 6%nat /\
                     in_swarm torrent p) sel.

Lemma concat_six (P : Peer -> Prop) (sel : list Peer) :
  Forall (fun p => P p /\ length (p_IPPort p) = 6%nat) sel ->
  Z.of_nat (length (concat (p_IPPort <$> sel))) = Z.of_nat (length sel) * 6.
Proof.
  induction 1 as [|p sel (_ & Hp) _ IH]; [done|].
  rewrite fmap_cons. cbn [concat length]. rewrite length_app. lia.
Qed.

Lemma offers_length torrent userID want out :
  offers torrent userID want out ->
  Z.of_nat (length out) mod 6 = 0 /\ Z.of_nat (length out) <= 6 * Z.max 0 want.
Proof.
  intros (sel & -> & Hlen & Hall).
  rewrite (concat_six (fun _ => True)) by (eapply Forall_impl; [exact Hall|by intros p (_ & ? & _)]).
  split; [apply Z.mod_mul; lia|lia].
Qed.

Lemma offers_app torrent userID w1 w2 o1 o2 :
  offers torrent userID w1 o1 -> 0 <= w1 -> 0 <= w2 -> offers torrent userID w2 o2 ->
  offers torrent userID (w1 + w2) (o1 ++ o2).
Proof.
  intros (s1 & -> & L1 & F1) H1 H2 (s2 & -> & L2 & F2). exists (s1 ++ s2).
  rewrite fmap_app, concat_app, length_app. split; [done|]. split; [lia|].
  by apply Forall_app.
Qed.

Lemma offers_nil torrent userID want : offers torrent userID want [].
Proof. exists []. split; [done|]. split; [simpl; lia|constructor]. Qed.

Section SelectionLemmas.
Context (order : PeerList -> list (string * Peer)) (Horder : map_order order).

Lemma collect_in_swarm torrent userID pl p :
  pl = t_Seeders torrent \/ pl = t_Leechers torrent ->
  p ∈ collectVisiblePeers order pl userID -> selectable userID p = true /\ in_swarm torrent p.
Proof.
  intros Hpl [Hsel Hin]%list_elem_of_filter. split; [done|].
  apply list_elem_of_fmap in Hin as ([k p'] & -> & Hin).
  rewrite Horder, elem_of_map_to_list in Hin. exists k. simpl. destruct Hpl as [<-|<-]; auto.
Qed.

Lemma emit_offers torrent userID want (sel : list Peer) pl :
  pl = t_Seeders torrent \/ pl = t_Leechers torrent ->
  sel ⊆+ collectVisiblePeers order pl userID -> Z.of_nat (length sel) <= Z.max 0 want ->
  offers torrent userID want (emit sel).
Proof.
  intros Hpl Hsub Hlen. exists (filter (fun p => length (p_IPPort p) = 6%nat) sel). split.
  - unfold emit. clear. induction sel as [|p sel IH]; [done|]. rewrite fmap_cons, filter_cons.
    destruct (Nat.eqb_spec (length (p_IPPort p)) 6), (decide (length (p_IPPort p) = 6%nat));
      try done; simpl; by rewrite IH.
  - split.
    + pose proof (length_filter (fun p => length (p_IPPort p) = 6%nat) sel). lia.
    + apply Forall_forall. intros p [Hp Hin]%list_elem_of_filter.
      assert (p ∈ collectVisiblePeers order pl userID) as Hc by (by eapply elem_of_submseteq).
      destruct (collect_in_swarm _ _ _ _ Hpl Hc). auto.
Qed.

Lemma sample_offers d1 d2 torrent userID want pl :
  pl = t_Seeders torrent \/ pl = t_Leechers torrent ->
  offers torrent userID want
    (emit (FisherYatesShuffle d1 (ReservoirSample d2 (collectVisiblePeers order pl userID) want))).
Proof.
  intros Hpl.
  destruct (ReservoirSample_spec d2 (collectVisiblePeers order pl userID) want) as [Hs Hl].
  apply (emit_offers _ _ _ _ _ Hpl); rewrite shuffle_perm; [done|lia].
Qed.

(** The number of addresses is the length over six. *)
Lemma offers_tight torrent userID want out :
  offers torrent userID want out ->
  offers torrent userID (Z.of_nat (length out) / 6) out /\
  0 <= Z.of_nat (length out) / 6 <= Z.max 0 want.
Proof.
  intros Ho. destruct (offers_length _ _ _ _ Ho) as [Hm Hl].
  destruct Ho as (sel & -> & Hlen & Hall).
  rewrite (concat_six (fun _ => True)) by (eapply Forall_impl; [exact Hall|by intros p (_ & ? & _)]).
  rewrite Z.div_mul by lia. split; [|lia]. exists sel. split; [done|]. split; [lia|done].
Qed.

(** Filling the slots that are left keeps the bound. *)
Lemma offers_fill torrent userID want o1 o2 :
  offers torrent userID want o1 -> 0 <= want ->
  offers torrent userID (want - Z.of_nat (length o1) / 6) o2 ->
  offers torrent userID want (o1 ++ o2).
Proof.
  intros H1 Hw H2. apply offers_tight in H1 as [H1 Hb].
  replace want with (Z.of_nat (length o1) / 6 + (want - Z.of_nat (length o1) / 6)) by lia.
  apply offers_app; lia || done.
Qed.

Lemma optimized_offers d torrent userID want isLeecher :
  offers torrent userID want (SelectPeersOptimized order d torrent userID want isLeecher).
Proof.
  unfold SelectPeersOptimized. destruct (Z.leb_spec want 0); [apply offers_nil|].
  destruct isLeecher; [|apply sample_offers; auto].
  set (sel := FisherYatesShuffle _ _).
  assert (sel ⊆+ collectVisiblePeers order (t_Seeders torrent) userID /\
          Z.of_nat (length sel) <= want) as [Hsub Hlen].
  { unfold sel. rewrite shuffle_perm.
    destruct (ReservoirSample_spec (d_sample1 d)
      (collectVisiblePeers order (t_Seeders torrent) userID) want) as [? ?]. split; [done|lia]. }
  destruct (Z.ltb_spec (Z.of_nat (length sel)) want).
  - replace want with (Z.of_nat (length sel) + (want - Z.of_nat (length sel))) at 1 by lia.
    apply offers_app; [|lia|lia|apply sample_offers; auto].
    apply (emit_offers _ _ _ _ (t_Seeders torrent)); auto; lia.
  - apply (emit_offers _ _ _ _ (t_Seeders torrent)); auto; lia.
Qed.

Lemma scored_tier_offers sortSlice score torrent userID ip want pl :
  (forall l, sortSlice l ≡ₚ l) -> pl = t_Seeders torrent \/ pl = t_Leechers torrent ->
  offers torrent userID want
    (selectPeersByScore sortSlice score (collectVisiblePeers order pl userID) ip want).
Proof.
  intros Hsort Hpl. unfold selectPeersByScore.
  destruct (collectVisiblePeers order pl userID) as [|c cs] eqn:E; [apply offers_nil|].
  destruct (Z.leb_spec want 0); [apply offers_nil|].
  apply (emit_offers _ _ _ _ pl); [done| |rewrite length_fmap, length_take; lia].
  rewrite E, fmap_take. etrans; [apply sublist_submseteq, sublist_take|].
  rewrite Hsort, <- list_fmap_compose. by rewrite list_fmap_id.
Qed.

Lemma scored_offers sortSlice score torrent ip userID want isLeecher :
  (forall l, sortSlice l ≡ₚ l) ->
  offers torrent userID want
    (SelectPeersScored order sortSlice score torrent ip userID want isLeecher).
Proof.
  intros Hsort. unfold SelectPeersScored. destruct (Z.leb_spec want 0); [apply offers_nil|].
  destruct isLeecher; [|apply scored_tier_offers; auto].
  destruct (0 <? _); [|apply scored_tier_offers; auto].
  apply offers_fill; [|lia|]; apply scored_tier_offers; auto.
Qed.

Lemma peer_by_user_in (seeders : list Peer) (u : Z) (p : Peer) :
  peer_by_user seeders !! u = Some p -> p ∈ seeders /\ p_UserID p = u.
Proof.
  unfold peer_by_user. induction seeders as [|q l IH] using rev_ind; [done|].
  rewrite foldl_app. simpl. intros [[<- <-]|[_ H]]%lookup_insert_Some.
  - split; [apply elem_of_app; right; by left|done].
  - apply IH in H as [??]. split; [apply elem_of_app; by left|done].
Qed.

Lemma emit_ranked_offers torrent userID n ranked result :
  0 <= n -> offers torrent userID n result ->
  offers torrent userID n
    (emit_ranked n (peer_by_user (collectVisiblePeers order (t_Seeders torrent) userID))
       ranked result).
Proof.
  intros Hn. revert result. induction ranked as [|sc ranked IH]; intros result Hr; simpl; [done|].
  destruct (Z.leb_spec n (Z.of_nat (length result) / 6)); [done|].
  destruct (peer_by_user _ !! _) as [p|] eqn:E; [|by apply IH].
  destruct (Nat.eqb_spec (length (p_IPPort p)) 6); [|by apply IH].
  apply IH. apply offers_fill; [done|done|].
  apply peer_by_user_in in E as [Hin _].
  destruct (collect_in_swarm _ _ _ _ (or_introl eq_refl) Hin).
  exists [p]. simpl. rewrite app_nil_r. split; [done|]. split; [lia|]. repeat constructor; auto.
Qed.

Lemma economics_offers d commons interval torrent userID want isLeecher out :
  selectPeersWithEconomics order d commons interval torrent userID want isLeecher = Some out ->
  offers torrent userID want out.
Proof.
  unfold selectPeersWithEconomics. intros E.
  destruct commons as [ev|]; [|simplify_eq; apply optimized_offers].
  destruct (negb isLeecher || (want <=? 0)) eqn:Hg; [simplify_eq; apply optimized_offers|].
  apply orb_false_iff in Hg as [_ Hw%Z.leb_gt].
  destruct (collectVisiblePeers order (t_Seeders torrent) userID) eqn:Ec;
    [simplify_eq; apply optimized_offers|].
  rewrite <- Ec in E. apply bind_Some in E as (dec & _ & E).
  destruct (ad_Accepted dec); simpl in E; [|simplify_eq; apply offers_nil].
  assert (offers torrent userID want (emit_ranked want
    (peer_by_user (collectVisiblePeers order (t_Seeders torrent) userID))
    (ad_RankedSeeders dec) [])) as Hr by (apply emit_ranked_offers; [lia|apply offers_nil]).
  destruct (0 <? _); simplify_eq; [|done].
  apply offers_fill; [done|lia|]. apply sample_offers. auto.
Qed.

End SelectionLemmas.

(** ** Counting the outcomes of reservoir sampling *)

(** All the values the draws at indices [i], ..., [i + m - 1] can take. *)
Fixpoint draw_vectors (i m : nat) : list (list nat) :=
  match m with
  | O => [[]]
  | S m' => d ← seq 0 (S i); (d ::.) <$> draw_vectors (S i) m'
  end.

Definition draw_of (i : nat) (ds : list nat) (n : nat) : nat := default 0%nat (ds !! (n - i)%nat).

Section Counting.
Context {A : Type} `{EqDecision A} (k : nat) (x : A).

(** In how many of the cases [x] ends up in the sample. *)
Definition hits (i : nat) (rest sample : list A) : Z :=
  sumZ (fun ds => if decide (x ∈ reservoir (draw_of i ds) k i rest sample) then 1 else 0)
    (draw_vectors i (length rest)).

Definition cases (i m : nat) : Z := Z.of_nat (length (draw_vectors i m)).

Lemma reservoir_ext d1 d2 i (rest sample : list A) :
  (forall n, (i <= n)%nat -> d1 n = d2 n) ->
  reservoir d1 k i rest sample = reservoir d2 k i rest sample.
Proof.
  revert i sample. induction rest as [|p rest IH]; intros i sample H; simpl; [done|].
  rewrite (H i) by lia. apply IH. intros n Hn. apply H. lia.
Qed.

Lemma cases_S i m : cases i (S m) = Z.of_nat (S i) * cases (S i) m.
Proof.
  unfold cases. cbn [draw_vectors]. rewrite <- (length_seq (S i) 0) at 2.
  generalize (seq 0 (S i)) as l. intros l. induction l as [|d l IH]; [done|].
  rewrite bind_cons, length_app, length_fmap. cbn [length]. lia.
Qed.

Definition replaced (d : nat) (p : A) (sample : list A) : list A :=
  if (d <? k)%nat then <[d := p]> sample else sample.

Lemma hits_cons i p rest sample :
  hits i (p :: rest) sample =
  sumZ (fun d => hits (S i) rest (replaced d p sample)) (seq 0 (S i)).
Proof.
  unfold hits. cbn [length draw_vectors].
  generalize (seq 0 (S i)) as l. intros l. induction l as [|d l IH]; [done|].
  rewrite bind_cons, sumZ_app, sumZ_cons, IH. f_equal. clear IH.
  generalize (draw_vectors (S i) (length rest)) as v. intros v.
  induction v as [|ds v IH]; [done|]. rewrite fmap_cons, !sumZ_cons, IH. f_equal. clear IH.
  cbn [reservoir]. replace (draw_of i (d :: ds) i) with d
    by (unfold draw_of; by rewrite Nat.sub_diag).
  fold (replaced d p sample).
  rewrite (reservoir_ext (draw_of i (d :: ds)) (draw_of (S i) ds)); [done|].
  intros n Hn. unfold draw_of. by replace (n - i)%nat with (S (n - S i)) by lia.
Qed.

Lemma elem_of_insert_inv (y p : A) (d : nat) (s : list A) : y ∈ <[d := p]> s -> y = p \/ y ∈ s.
Proof.
  intros [j Hj]%list_elem_of_lookup. apply list_lookup_insert_Some in Hj as [(_ & -> & _)|[_ Hj]].
  - by left.
  - right. by eapply list_elem_of_lookup_2.
Qed.

Lemma hits_absent i rest sample : x ∉ sample -> x ∉ rest -> hits i rest sample = 0.
Proof.
  revert i sample. induction rest as [|p rest IH]; intros i sample Hs Hr.
  - unfold hits. simpl. rewrite sumZ_cons, sumZ_nil. by rewrite decide_False.
  - rewrite hits_cons. apply not_elem_of_cons in Hr as [Hp Hr].
    generalize (seq 0 (S i)) as l. intros l. induction l as [|d l IHl]; [done|].
    rewrite sumZ_cons, IHl, IH; [done| |done]. unfold replaced.
    destruct (_ <? _)%nat; [|done]. intros [?|?]%elem_of_insert_inv; auto.
Qed.

(** A sum over [0..n-1] that is [c] where the test holds and [0] elsewhere. *)
Lemma sumZ_const (f : nat -> Z) (P : nat -> bool) (c : Z) (l : list nat) :
  (forall d, d ∈ l -> f d = if P d then c else 0) ->
  sumZ f l = Z.of_nat (length (List.filter P l)) * c.
Proof.
  induction l as [|d l IH]; intros H; [done|]. rewrite sumZ_cons, H, IH by
    (by left || (intros; apply H; by right)).
  simpl. destruct (P d); simpl; lia.
Qed.

Lemma sumZ_mul_r (f : nat -> Z) (l : list nat) (c : Z) :
  sumZ f l * c = sumZ (fun d => f d * c) l.
Proof. induction l as [|d l IH]; [done|]. rewrite !sumZ_cons, <- IH. lia. Qed.

Lemma count_lt (k' n : nat) : (k' <= n)%nat ->
  length (List.filter (fun d => (d <? k')%nat) (seq 0 n)) = k'.
Proof.
  intros H. replace n with (k' + (n - k'))%nat by lia. rewrite seq_app, List.filter_app, length_app.
  assert (forall a m, (a + m <= k')%nat ->
    List.filter (fun d => (d <? k')%nat) (seq a m) = seq a m) as H1.
  { intros a m. revert a. induction m as [|m IH]; intros a Hm; [done|]. simpl.
    rewrite (proj2 (Nat.ltb_lt a k')) by lia. f_equal. apply IH. lia. }
  assert (forall a m, (k' <= a)%nat ->
    List.filter (fun d => (d <? k')%nat) (seq a m) = []) as H2.
  { intros a m. revert a. induction m as [|m IH]; intros a Hm; [done|]. simpl.
    rewrite (proj2 (Nat.ltb_ge a k')) by lia. apply IH. lia. }
  rewrite H1, H2 by lia. rewrite length_seq. simpl. lia.
Qed.

Lemma count_ne (j n : nat) : (j < n)%nat ->
  length (List.filter (fun d => negb (d =? j)%nat) (seq 0 n)) = (n - 1)%nat.
Proof.
  intros H. replace n with (j + S (n - S j))%nat at 1 by lia.
  rewrite seq_app. cbn [seq]. rewrite List.filter_app. cbn [List.filter]. rewrite Nat.eqb_refl. simpl.
  assert (forall a m, (j < a \/ a + m <= j)%nat ->
    List.filter (fun d => negb (d =? j)%nat) (seq a m) = seq a m) as H1.
  { intros a m. revert a. induction m as [|m IH]; intros a Hm; [done|]. simpl.
    rewrite (proj2 (Nat.eqb_neq a j)) by lia. simpl. f_equal. apply IH. lia. }
  rewrite !H1 by lia. rewrite length_app, !length_seq. lia.
Qed.

(** An element of the sample survives with odds [i] out of [i + m]; an
    element still to come enters it with odds [k] out of [i + m]. *)
Lemma hits_odds (rest : list A) (i : nat) (sample : list A) :
  length sample = k -> (k <= i)%nat -> (0 < k)%nat -> NoDup (sample ++ rest) ->
  (x ∈ sample -> hits i rest sample * Z.of_nat (i + length rest) =
                 Z.of_nat i * cases i (length rest)) /\
  (x ∈ rest -> hits i rest sample * Z.of_nat (i + length rest) =
               Z.of_nat k * cases i (length rest)).
Proof.
  revert i sample. induction rest as [|p rest IH]; intros i sample Hlen Hki Hk0 Hnd.
  { split; intros Hx; [|by apply not_elem_of_nil in Hx].
    unfold hits, cases. cbn [length draw_vectors reservoir].
    rewrite sumZ_cons, sumZ_nil, decide_True by done. simpl. lia. }
  assert (forall d, NoDup (replaced d p sample ++ rest) /\ length (replaced d p sample) = k) as Hrep.
  { intros d. unfold replaced. destruct (Nat.ltb_spec d k).
    - split; [|by rewrite length_insert]. eapply submseteq_NoDup; [exact Hnd|].
      rewrite (cons_middle p), app_assoc. apply submseteq_skips_r. apply insert_submseteq; [done|lia].
    - split; [|done]. eapply submseteq_NoDup; [exact Hnd|].
      apply submseteq_app; [done|]. by apply submseteq_cons. }
  assert (forall d, _) as IH' by exact (fun d => IH (S i) (replaced d p sample)
    (proj2 (Hrep d)) ltac:(lia) Hk0 (proj1 (Hrep d))).
  clear IH. apply NoDup_app in Hnd as (Hs & Hdis & [Hp Hr]%NoDup_cons).
  assert (p ∉ sample) as Hps by (intros H; apply (Hdis p H); by left).
  rewrite hits_cons, sumZ_mul_r. cbn [length]. rewrite cases_S.
  replace (Z.of_nat (i + S (length rest))) with (Z.of_nat (S i + length rest)) by lia.
  split; [|intros [<-|Hx]%elem_of_cons].
  - intros Hx. pose proof Hx as [j Hj]%list_elem_of_lookup.
    assert (x ∉ rest) as Hxr by (intros H; apply (Hdis x Hx); by right).
    assert (x <> p) as Hxp by congruence. pose proof (lookup_lt_Some _ _ _ Hj) as Hjl.
    rewrite (sumZ_const _ (fun d => negb (d =? j)%nat) (Z.of_nat (S i) * cases (S i) (length rest))).
    { rewrite count_ne by lia. lia. }
    intros d _. destruct (Nat.eqb_spec d j) as [->|Hdj]; simpl.
    + rewrite hits_absent; [done| |done]. unfold replaced. rewrite (proj2 (Nat.ltb_lt j k)) by lia.
      intros [n Hn]%list_elem_of_lookup.
      apply list_lookup_insert_Some in Hn as [(_ & ? & _)|[Hne Hn]]; [done|].
      by pose proof (NoDup_lookup _ _ _ _ Hs Hj Hn).
    + apply IH'. unfold replaced. destruct (d <? k)%nat; [|done].
      apply (list_elem_of_lookup_2 _ j). by rewrite list_lookup_insert_ne.
  - rewrite (sumZ_const _ (fun d => (d <? k)%nat) (Z.of_nat (S i) * cases (S i) (length rest))).
    { rewrite count_lt by lia. lia. }
    intros d _. destruct (Nat.ltb_spec d k) as [Hd|Hd].
    + apply IH'. unfold replaced. rewrite (proj2 (Nat.ltb_lt d k)) by lia.
      apply (list_elem_of_lookup_2 _ d). apply list_lookup_insert_eq. lia.
    + rewrite hits_absent; [done| |done]. unfold replaced.
      by rewrite (proj2 (Nat.ltb_ge d k)) by lia.
  - rewrite (sumZ_const _ (fun _ => true) (Z.of_nat k * cases (S i) (length rest))).
    { assert (forall l : list nat, List.filter (fun _ => true) l = l) as ->
        by (intros l; induction l; simpl; congruence).
      rewrite length_seq. lia. }
    intros d _. by apply IH'.
Qed.

End Counting.
