(* ===== verification/PeerSelectSpec.v ===== *)
(** * Properties of peer selection

    What [PeerSelect] promises to the announce path: every policy offers only
    visible peers of other users, within the requested number; the shuffle is
    uniform; reservoir sampling gives every peer the same odds; the peer key
    identifies the user and the client. *)
From Stdlib Require Import String.
From S2P Require Import Prelude GoStr NetIP TrackerTypes GoFloat Ml EconScheduler Credit PeerSelect.
From S2P Require Import Price.
Open Scope list_scope.
Open Scope Z_scope.

(** Uniform shuffle.  On a list without repetitions every permutation is
    the result of exactly one sequence of draws: some sequence reaches it, and
    two sequences with the same result agree on every index the loop draws at.
    Since the draws are independent and uniform, so is the permutation. *)
Theorem fisher_yates_uniform {A} (l : list A) :
  NoDup l ->
  (forall l', l ≡ₚ l' -> exists draw, draws_ok draw /\ FisherYatesShuffle draw l = l') /\
  (forall d1 d2, draws_ok d1 -> draws_ok d2 ->
     FisherYatesShuffle d1 l = FisherYatesShuffle d2 l ->
     forall k, (1 <= k < length l)%nat -> d1 k = d2 k).
Proof.
  intros Hnd. split.
  - intros l' Hp. destruct l as [|x l].
    { apply Permutation_nil in Hp as ->. exists (fun _ => 0%nat). split; [intros ?; lia|done]. }
    apply shuffle_reaches; [done|done|simpl; lia|].
    intros k Hk. rewrite !lookup_ge_None_2; [done|..]; [rewrite <- Hp|]; simpl in *; lia.
  - intros d1 d2 H1 H2 E k Hk.
    apply (shuffle_draws_inj d1 d2 (length l - 1) l H1 H2 Hnd); lia || done.
Qed.

Lemma fisher_yates_uniform_witness :
  exists draw, draws_ok draw /\ FisherYatesShuffle draw [1; 2; 3] = [3; 1; 2].
Proof.
  apply (fisher_yates_uniform [1; 2; 3]).
  - apply (bool_decide_eq_true_1 _). vm_compute. reflexivity.
  - apply (bool_decide_eq_true_1 _). vm_compute. reflexivity.
Defined.

(** Fair sampling.  Over all the values the draws can take, each of the
    [n] candidates is in the sample of size [k] in exactly [k] cases out of
    every [n]. *)
Theorem reservoir_uniform {A} `{EqDecision A} (l : list A) (k : nat) (x : A) :
  NoDup l -> (0 < k < length l)%nat -> x ∈ l ->
  let vectors := draw_vectors k (length l - k) in
  sumZ (fun ds => if decide (x ∈ ReservoirSample (draw_of k ds) l (Z.of_nat k)) then 1 else 0)
    vectors * Z.of_nat (length l) = Z.of_nat k * Z.of_nat (length vectors).
Proof.
  intros Hnd Hk Hx. cbn zeta.
  pose proof (hits_odds k x (drop k l) k (take k l)) as H.
  rewrite length_take, length_drop, take_drop in H.
  specialize (H ltac:(lia) ltac:(lia) ltac:(lia) Hnd).
  replace (k + (length l - k))%nat with (length l) in H by lia.
  unfold hits, cases in H. rewrite length_drop in H.
  rewrite (sumZ_ext _ (fun ds =>
    if decide (x ∈ reservoir (draw_of k ds) k k (drop k l) (take k l)) then 1 else 0)).
  - rewrite <- (take_drop k l), elem_of_app in Hx. 
    destruct Hx as [Hx|Hx]; [exact (proj1 H Hx)|exact (proj2 H Hx)].
  - intros ds _. unfold ReservoirSample. rewrite (proj2 (Z.leb_gt _ 0)) by lia.
    rewrite (proj2 (Z.leb_gt _ _)) by lia. by rewrite Nat2Z.id.
Qed.

Lemma reservoir_uniform_witness :
  sumZ (fun ds => if decide (5 ∈ ReservoirSample (draw_of 2 ds) [5; 6; 7; 8] 2) then 1 else 0)
    (draw_vectors 2 2) * 4 = 2 * 12.
Proof.
  apply (reservoir_uniform [5; 6; 7; 8] 2 5).
  - apply (bool_decide_eq_true_1 _). vm_compute. reflexivity.
  - simpl. lia.
  - left.
Defined.

(** [C13] Sound selection.  Whichever policy answers the announce (random,
    scored or economic), the bytes returned are the six-byte addresses of at
    most [numwant] peers of the torrent's swarm, none of them hidden and none
    of them the requester's own. *)
Theorem selection_sound order sortSlice score d commons interval torrent userID numwant isLeecher ip :
  map_order order -> (forall l, sortSlice l ≡ₚ l) ->
  offers torrent userID numwant
    (SelectPeersOptimized order d torrent userID numwant isLeecher) /\
  offers torrent userID numwant
    (SelectPeersScored order sortSlice score torrent ip userID numwant isLeecher) /\
  (forall out,
     selectPeersWithEconomics order d commons interval torrent userID numwant isLeecher = Some out ->
     offers torrent userID numwant out /\
     Z.of_nat (length out) mod 6 = 0 /\ Z.of_nat (length out) <= 6 * Z.max 0 numwant).
Proof.
  intros Ho Hs. split; [by apply optimized_offers|]. split; [by apply scored_offers|].
  intros out E. apply economics_offers in E; [|done].
  split; [done|]. by apply (offers_length _ _ _ _ E).
Qed.

Definition sample_peer (uid left : Z) (addr : list Z) : Peer :=
  mkPeer uid 0 0 0 left 1 1 1 6881 (take 4 addr) addr true false [].

(** Users 5 (twice) and 6 seed, user 9 leeches. *)
Definition sample_torrent : Torrent :=
  (NewTorrent 3)
    {{ t_Seeders := {[ "a" := sample_peer 5 0 [1;1;1;1;26;225];
                       "b" := sample_peer 5 0 [2;2;2;2;26;225];
                       "c" := sample_peer 6 0 [3;3;3;3;26;225] ]};
       t_Leechers := {[ "d" := sample_peer 9 100 [4;4;4;4;26;225] ]} }}.

Definition sample_draws : Draws :=
  mkDraws (fun _ => 0%nat) (fun _ => 0%nat) (fun _ => 0%nat) (fun _ => 0%nat).

Lemma selection_sound_witness :
  offers sample_torrent 9 2 (SelectPeersOptimized map_to_list sample_draws sample_torrent 9 2 true).
Proof.
  refine (proj1 (selection_sound map_to_list id (fun _ _ => of_int 0) sample_draws None 1800
                   sample_torrent 9 2 true [1;2;3;4] _ _)); [intros m|intros l]; done.
Defined.

(** Seeders first, nobody twice.  A leecher receives as many visible
    seeders as exist up to [numwant] and fills what is left with other
    leechers; a seeder receives only leechers; and every swarm entry is used
    at most once. *)
Theorem selection_tiers order d torrent userID numwant isLeecher :
  map_order order -> 0 < numwant ->
  let seeders := collectVisiblePeers order (t_Seeders torrent) userID in
  let leechers := collectVisiblePeers order (t_Leechers torrent) userID in
  exists s1 s2,
    SelectPeersOptimized order d torrent userID numwant isLeecher = emit (s1 ++ s2) /\
    s1 ⊆+ seeders /\ s2 ⊆+ leechers /\
    Z.of_nat (length s1) =
      (if isLeecher then Z.min numwant (Z.of_nat (length seeders)) else 0) /\
    Z.of_nat (length s2) =
      Z.min (numwant - Z.of_nat (length s1)) (Z.of_nat (length leechers)).
Proof.
  intros Ho Hn seeders leechers. unfold SelectPeersOptimized.
  rewrite (proj2 (Z.leb_gt _ 0)) by lia. fold seeders leechers.
  pose proof (ReservoirSample_spec (d_sample1 d) seeders numwant) as [Hs1 Hl1].
  pose proof (ReservoirSample_spec (d_sample1 d) leechers numwant) as [Hs1' Hl1'].
  destruct isLeecher.
  - set (s1 := FisherYatesShuffle _ (ReservoirSample (d_sample1 d) seeders numwant)).
    assert (s1 ⊆+ seeders /\ Z.of_nat (length s1) = Z.min numwant (Z.of_nat (length seeders)))
      as [H1 H2] by (unfold s1; rewrite shuffle_perm; split; [done|lia]).
    destruct (Z.ltb_spec (Z.of_nat (length s1)) numwant).
    + pose proof (ReservoirSample_spec (d_sample2 d) leechers (numwant - Z.of_nat (length s1)))
        as [Hs2 Hl2].
      exists s1, (FisherYatesShuffle (d_shuffle2 d) (ReservoirSample (d_sample2 d) leechers
                     (numwant - Z.of_nat (length s1)))).
      split; [unfold emit; by rewrite fmap_app, concat_app|].
      rewrite !shuffle_perm. repeat split; try done; lia.
    + exists s1, []. rewrite app_nil_r. split; [done|]. split; [done|].
      split; [apply submseteq_nil_l|]. simpl. lia.
  - exists [], (FisherYatesShuffle (d_shuffle1 d) (ReservoirSample (d_sample1 d) leechers numwant)).
    split; [done|]. rewrite !shuffle_perm. simpl. split; [apply submseteq_nil_l|].
    split; [done|]. split; [done|lia].
Qed.

Lemma selection_tiers_witness :
  exists s1 s2 : list Peer,
    SelectPeersOptimized map_to_list sample_draws sample_torrent 9 2 true = emit (s1 ++ s2) /\
    s1 ⊆+ collectVisiblePeers map_to_list (t_Seeders sample_torrent) 9.
Proof.
  destruct (selection_tiers map_to_list sample_draws sample_torrent 9 2 true)
    as (s1 & s2 & H1 & H2 & _); [intros m; done|lia|]. by exists s1, s2.
Defined.

(** Repeated addresses under the economic policy.  A user who seeds the
    same torrent from two machines has two candidates but one entry in the
    map from users to peers, so a leecher is given one machine's address
    twice and never the other's. *)
Theorem economics_repeats_address :
  (exists k p, t_Seeders sample_torrent !! k = Some p /\ p_IPPort p = [1;1;1;1;26;225] /\
               selectable 9 p = true) /\
  selectPeersWithEconomics map_to_list sample_draws
    (Some (fun req => Evaluate DefaultPriceTable req 1 1)) 1800 sample_torrent 9 3 true =
  Some [3;3;3;3;26;225; 2;2;2;2;26;225; 2;2;2;2;26;225].
Proof.
  split; [|vm_compute; reflexivity].
  exists "a", (sample_peer 5 0 [1;1;1;1;26;225]). vm_compute. auto.
Qed.

(** Peer keys.  For 20-byte client ids the key determines the user and
    the client id, so two users, or two clients of one user, never share a
    swarm entry of a torrent. *)
Theorem PeerKeyPrime_inj id1 id2 u1 u2 t1 t2 :
  byte_list id1 -> byte_list id2 -> length id1 = 20%nat -> length id2 = 20%nat ->
  in_u32 u1 -> in_u32 u2 ->
  PeerKeyPrime id1 u1 t1 = PeerKeyPrime id2 u2 t2 -> id1 = id2 /\ u1 = u2.
Proof.
  intros B1 B2 L1 L2 H1 H2. unfold PeerKeyPrime. rewrite L1, L2. simpl.
  assert (forall id n, byte_list id -> is_byte (default 0 (id !! n))) as Hd.
  { intros id n Hid. destruct (id !! n) eqn:E; simpl.
    - by eapply (Forall_lookup_1 is_byte id).
    - split; lia. }
  assert (forall z, is_byte (u8 z)) as Hu8.
  { intros z. unfold u8, wrap_u, is_byte. apply (Z.mod_pos_bound z 256). lia. }
  intros E. apply (f_equal bytes_of_string) in E.
  rewrite !bytes_of_string_of_bytes in E
    by (do 5 (apply Forall_cons; split; [auto|]); done).
  injection E as _ E3 E2 E1 E0 Eid. split; [done|].
  unfold u8, wrap_u, in_u32 in *. rewrite !Z.shiftr_div_pow2 in * by lia.
  change (2 ^ 8) with 256 in *. change (2 ^ 16) with 65536 in *.
  change (2 ^ 24) with 16777216 in *. change (2 ^ 32) with 4294967296 in *.
  Z.to_euclidean_division_equations. lia.
Qed.

Lemma PeerKeyPrime_inj_witness :
  bytes_of_string "-TR2940-0123456789ab" = bytes_of_string "-TR2940-0123456789ab" /\ 70000 = 70000.
Proof.
  apply (PeerKeyPrime_inj (bytes_of_string "-TR2940-0123456789ab")
           (bytes_of_string "-TR2940-0123456789ab") 70000 70000 7 7); try reflexivity;
    try (apply (bool_decide_eq_true_1 _); vm_compute; reflexivity);
    unfold in_u32; lia.
Defined.
