(* ===== verification/Announce.v ===== *)
(** * The announce handler (tracker/announce.go)

    [Announce] is the whole handler, stage by stage in source order.  The
    local variables of the Go function are the fields of [Session]; each stage
    maps a session to a session and is named after what it does.

    Peers are values: the record a Go pointer refers to lives in exactly one
    of the two peer lists of one torrent, [x_side] says in which, and
    [write_peer] stores it back where the handler releases the torrent's
    lock.  The user is returned, and the caller stores it under the passkey.

    Calls that leave the tracker are recorded in order as [Effect]s: database
    writes, which go through the circuit breaker when there is one, the
    asynchronous settlement, and the token notification.  The environment
    says of each write when it starts and ends and whether it fails; the
    handler only logs such failures.  Metrics and logging are left out.  The
    result is [None] when the code panics (arithmetic in the economy). *)
From Stdlib Require Import String.
From S2P Require Import Prelude GoStr NetIP TrackerTypes CircuitBreaker Whitelist GoFloat Ml.
From S2P Require Import EconScheduler Commons PeerSelect.
Open Scope string_scope.
Open Scope list_scope.
Open Scope Z_scope.

Record Config := mkConfig {
  cfg_AnnounceInterval : Z;
  cfg_PeersTimeout : Z;
  cfg_NumWantLimit : Z;
  cfg_ReapPeersInterval : Z
}.

Record AnnounceRequest := mkReq {
  rq_InfoHash : string;
  rq_PeerID : list Z;
  rq_Port : Z;
  rq_Uploaded : Z;
  rq_Downloaded : Z;
  rq_Left : Z;
  rq_Corrupt : Z;
  rq_Compact : bool;
  rq_NoPeerID : bool;
  rq_Event : string;
  rq_IP : IP;
  rq_NumWant : Z;
  rq_Key : string;
  rq_TrackerID : string
}.

Record AnnounceResponse := mkResp {
  rs_Interval : Z;
  rs_MinInterval : Z;
  rs_Complete : Z;
  rs_Incomplete : Z;
  rs_Peers : list Z;
  rs_Warning : string
}.

(** The fields of [Worker] the handler uses. *)
Record Worker := mkWorker {
  w_Config : Config;
  w_Torrents : TorrentList;
  w_Users : UserList;
  w_Whitelist : Whitelist.t;
  w_Stats : Stats;
  w_CircuitBreak : option CircuitBreaker;
  w_PeerScorer : bool;
  w_Commons : option (AllocationRequest -> option AllocationDecision);
  w_AnomalyDetector : option AnomalyDetector;
  w_ClientDetector : option (string -> string -> option string);
  w_Admission : option Admission.SwarmAdmissionPolicy
}.

(** ** Effects *)

Inductive DbOp :=
| RecordToken (userID torrentID downloaded : Z)
| RecordUserStats (userID uploaded downloaded : Z)
| RecordPeer (userID torrentID active uploaded downloaded upSpeed downSpeed left corrupt
              announceTime announces : Z) (ip peerID userAgent : string) (invalidIP : bool)
| RecordPeerLight (userID torrentID announceTime announces : Z) (peerID : string)
| RecordSnatch (userID torrentID t : Z) (ip : string)
| RecordTorrent (torrentID seeders leechers snatched balance : Z).

Inductive Effect :=
| DbWrite (op : DbOp) (outcome : ExecOutcome)
| SettleAsync (stats : AnnounceStats)
| ExpireToken (torrentID userID : Z).

Record AnnounceEnv := mkEnv {
  e_now : Z;
  e_db : DbOp -> Z * Z * bool;
  e_order : PeerList -> list (string * Peer);
  e_draws : Draws;
  e_sort : list (Peer * float64) -> list (Peer * float64);
  e_clock : PeerInfo -> Z * Z * Z
}.

Inductive Side := SeederSide | LeecherSide.

Record Session := mkSession {
  x_torrent : Torrent;
  x_peer : Peer;
  x_side : Side;
  x_inserted : bool;
  x_updateTorrent : bool;
  x_completedTorrent : bool;
  x_stoppedTorrent : bool;
  x_expireToken : bool;
  x_peerChanged : bool;
  x_invalidIP : bool;
  x_incLeechers : bool;
  x_incSeeders : bool;
  x_decLeechers : bool;
  x_decSeeders : bool;
  x_snatched : Z;
  x_active : Z;
  x_upSpeed : Z;
  x_downSpeed : Z;
  x_numwant : Z;
  x_cb : option CircuitBreaker;
  x_effects : list Effect
}.

Definition effect (e : Effect) (s : Session) : Session :=
  s {{ x_effects ::= fun es => es ++ [e] }}.

(** Errors are logged and dropped at every call site. *)
Definition dbExec (env : AnnounceEnv) (op : DbOp) (s : Session) : Session :=
  let '(t0, t1, ok) := e_db env op in
  match x_cb s with
  | Some cb =>
      let '(cb', outcome) := Execute t0 t1 ok cb in
      effect (DbWrite op outcome) (s {{ x_cb := Some cb' }})
  | None => effect (DbWrite op (Ran ok)) s
  end.

Definition findOrCreatePeer (peerList : PeerList) (peerKey : string) (user : User)
    : PeerList * Peer * bool :=
  match peerList !! peerKey with
  | Some peer => (peerList, peer, false)
  | None => let peer := zeroPeer (u_ID user) in (<[peerKey := peer]> peerList, peer, true)
  end.

Definition peerIsVisible (user : User) (peer : Peer) : bool :=
  ((p_Left peer =? 0) || u_CanLeech user) && negb (p_InvalidIP peer).

(** ** Stage 1: the request is checked before anything changes *)

Definition check_request (w : Worker) (now : Z) (req : AnnounceRequest) (userAgent passkey : string)
    : result string unit :=
  let admitted := match w_Admission w with
                  | Some p => Admission.IsAdmitted p (rq_InfoHash req) passkey
                  | None => true
                  end in
  if negb admitted then Err "not admitted to swarm"
  else if negb (rq_Compact req) then Err "your client does not support compact announces"
  else if negb (length (rq_PeerID req) =? 20)%nat then Err "invalid peer ID"
  else if negb (Whitelist.IsAllowed (w_Whitelist w) (rq_PeerID req))
  then Err "your client is not on the whitelist"
  else
    match w_ClientDetector w ≫= (fun detect => detect (string_of_bytes (rq_PeerID req)) userAgent) with
    | Some reason => Err ("client rejected: " +:+ reason)
    | None =>
        match w_AnomalyDetector w ≫= (fun ad =>
                DetectAnomaly ad now
                  (mkBehavior (rq_Uploaded req) (rq_Downloaded req) (of_int 0) 0 0 [] [] now)) with
        | Some reason => Err ("announce rejected: " +:+ reason)
        | None => Ok tt
        end
    end.

(** ** Stage 2: find the peer, or create it, in the list the request implies *)

Definition start_session (torrent : Torrent) (cb : option CircuitBreaker) (req : AnnounceRequest)
    : Session :=
  let stopped := String.eqb (rq_Event req) "stopped" in
  {| x_torrent := torrent; x_peer := zeroPeer 0; x_side := SeederSide;
     x_inserted := false; x_updateTorrent := stopped;
     x_completedTorrent := String.eqb (rq_Event req) "completed" && (rq_Left req =? 0);
     x_stoppedTorrent := stopped; x_expireToken := false; x_peerChanged := stopped;
     x_invalidIP := false; x_incLeechers := false; x_incSeeders := false;
     x_decLeechers := false; x_decSeeders := false; x_snatched := 0;
     x_active := if stopped then 0 else 1;
     x_upSpeed := 0; x_downSpeed := 0; x_numwant := 0; x_cb := cb; x_effects := [] |}.

Definition create_seeder (peerKey : string) (user : User) (s : Session) : Session :=
  let '(seeders, peer, inserted) := findOrCreatePeer (t_Seeders (x_torrent s)) peerKey user in
  s {{ x_torrent -> t_Seeders := seeders; x_peer := peer; x_side := SeederSide;
       x_inserted := inserted; x_incSeeders := true }}.

Definition place_peer (peerKey : string) (user : User) (req : AnnounceRequest) (s : Session)
    : Session :=
  let t := x_torrent s in
  if 0 <? rq_Left req then
    let '(leechers, peer, inserted) := findOrCreatePeer (t_Leechers t) peerKey user in
    s {{ x_torrent -> t_Leechers := leechers; x_peer := peer; x_side := LeecherSide;
         x_inserted := inserted; x_incLeechers := inserted }}
  else if x_completedTorrent s then
    match t_Leechers t !! peerKey with
    | None =>
        match t_Seeders t !! peerKey with
        | None => create_seeder peerKey user s
        | Some peer =>
            s {{ x_peer := peer; x_side := SeederSide; x_completedTorrent := false }}
        end
    | Some peer =>
        s {{ x_peer := peer; x_side := LeecherSide;
             x_decSeeders := match t_Seeders t !! peerKey with Some _ => true | None => false end }}
    end
  else
    match t_Seeders t !! peerKey with
    | Some peer => s {{ x_peer := peer; x_side := SeederSide }}
    | None =>
        match t_Leechers t !! peerKey with
        | Some peer =>
            s {{ x_torrent -> t_Leechers ::= delete peerKey;
                 x_torrent -> t_Seeders ::= <[peerKey := peer]>;
                 x_peer := peer; x_side := SeederSide; x_peerChanged := true;
                 x_decLeechers := true; x_incSeeders := true }}
        | None => create_seeder peerKey user s
        end
    end.

(** ** Stage 3: traffic accounting *)

(** Started, or first seen: the counters are taken over as they are. *)
Definition first_announce (now : Z) (req : AnnounceRequest) (s : Session) : Session :=
  s {{ x_updateTorrent := true; x_peerChanged := true;
       x_peer ::= fun p =>
         p {{ p_FirstAnnounced := now; p_LastAnnounced := 0;
              p_Uploaded := rq_Uploaded req; p_Downloaded := rq_Downloaded req;
              p_Corrupt := rq_Corrupt req; p_Announces := 1 }} }}.

(** A counter went backwards (client restart): taken over, nothing is credited. *)
Definition counter_reset (req : AnnounceRequest) (s : Session) : Session :=
  s {{ x_peerChanged := true;
       x_peer ::= fun p =>
         p {{ p_Announces ::= inc32; p_Uploaded := rq_Uploaded req;
              p_Downloaded := rq_Downloaded req }} }}.

Definition upload_speed (now change last : Z) : Z :=
  if TimeIsZero last then 0
  else
    let timeDelta := DurationSeconds (TimeSub now last) in
    if fltb (of_int 0) timeDelta then int64_of_float (fdiv (of_int change) timeDelta) else 0.

(** The user statistics and the settlement, for what is left of the changes
    after the torrent's free type and the user's token. *)
Definition credit_user (env : AnnounceEnv) (commons : bool) (user : User) (req : AnnounceRequest)
    (up down : Z) (s : Session) : Session :=
  if (0 <? up) || (0 <? down) then
    let t := x_torrent s in
    let s := dbExec env (RecordUserStats (u_ID user) up down) s in
    if commons then
      effect (SettleAsync (mkStats (u_ID user) (t_ID t) 0 0 up down (Size (t_Seeders t))
                (Size (t_Leechers t)) (rq_Left req =? 0) (x_stoppedTorrent s) (e_now env))) s
    else s
  else s.

Definition move_balance (now up down : Z) (s : Session) : Session :=
  s {{ x_torrent -> t_Balance ::= fun b => i64 (i64 (b + up) - down);
       x_updateTorrent := true;
       x_upSpeed := upload_speed now up (p_LastAnnounced (x_peer s));
       x_downSpeed := upload_speed now down (p_LastAnnounced (x_peer s)) }}.

Definition count_transfer (env : AnnounceEnv) (commons : bool) (user : User) (req : AnnounceRequest)
    (up down : Z) (s : Session) : Session :=
  let s := move_balance (e_now env) up down s in
  let t := x_torrent s in
  if t_FreeType t =? FreeNeutral then credit_user env commons user req 0 0 s
  else if t_FreeType t =? FreeFree then credit_user env commons user req up 0 s
  else if decide (u_ID user ∈ t_TokenedUsers t) then
    let s := s {{ x_expireToken := true }} in
    let s := dbExec env (RecordToken (u_ID user) (t_ID t) down) s in
    credit_user env commons user req up 0 s
  else credit_user env commons user req up down s.

Definition count_progress (env : AnnounceEnv) (commons : bool) (user : User) (req : AnnounceRequest)
    (s : Session) : Session :=
  let p := x_peer s in
  let up := i64 (rq_Uploaded req - p_Uploaded p) in
  let down := i64 (rq_Downloaded req - p_Downloaded p) in
  let corrupt := i64 (rq_Corrupt req - p_Corrupt p) in
  let s := s {{ x_peer ::= fun p =>
                  p {{ p_Announces ::= inc32;
                       p_Uploaded := if 0 <? up then rq_Uploaded req else p_Uploaded p;
                       p_Downloaded := if 0 <? down then rq_Downloaded req else p_Downloaded p;
                       p_Corrupt := if 0 <? corrupt then rq_Corrupt req else p_Corrupt p }} }} in
  let s := if 0 <? corrupt
           then s {{ x_torrent -> t_Balance ::= fun b => i64 (b - corrupt);
                     x_updateTorrent := true }}
           else s in
  let s := s {{ x_peerChanged ::= fun c => c || (0 <? up) || (0 <? down) || (0 <? corrupt) }} in
  if (0 <? up) || (0 <? down) then count_transfer env commons user req up down s else s.

Definition account_traffic (env : AnnounceEnv) (commons : bool) (user : User)
    (req : AnnounceRequest) (s : Session) : Session :=
  if x_inserted s || String.eqb (rq_Event req) "started" then first_announce (e_now env) req s
  else if (rq_Uploaded req <? p_Uploaded (x_peer s)) || (rq_Downloaded req <? p_Downloaded (x_peer s))
  then counter_reset req s
  else count_progress env commons user req s.

(** ** Stage 4: address and visibility; the peer is stored back *)

Definition effective_ip (req : AnnounceRequest) (clientIP : IP) : IP :=
  match rq_IP req with
  | [] => clientIP
  | ip => if IsUnspecified ip then clientIP else ip
  end.

Definition update_address (user : User) (req : AnnounceRequest) (ip : IP) (now : Z) (s : Session)
    : Session :=
  let s := s {{ x_peer -> p_Left := rq_Left req }} in
  let p := x_peer s in
  let s :=
    if negb (ValidateIPNotPrivate ip) then
      s {{ x_invalidIP := true; x_peer -> p_InvalidIP := true }}
    else if x_inserted s || negb (p_Port p =? rq_Port req) || negb (IPEqual (p_IP p) ip) then
      let compact := CompactIPPort ip (rq_Port req) in
      let s := s {{ x_peer ::= fun p => p {{ p_Port := rq_Port req; p_IP := ip;
                                            p_IPPort := compact }} }} in
      match compact with
      | [] => s {{ x_invalidIP := true; x_peer -> p_InvalidIP := true }}
      | _ => s
      end
    else s {{ x_invalidIP := p_InvalidIP p }} in
  s {{ x_peer ::= fun p => let p := p {{ p_LastAnnounced := now }} in
                           p {{ p_Visible := peerIsVisible user p }} }}.

(** What the pointer to the peer has become is visible in the list it is in. *)
Definition write_peer (peerKey : string) (s : Session) : Session :=
  match x_side s with
  | SeederSide => s {{ x_torrent -> t_Seeders ::= <[peerKey := x_peer s]> }}
  | LeecherSide => s {{ x_torrent -> t_Leechers ::= <[peerKey := x_peer s]> }}
  end.

(** ** Stage 5: the peer is recorded *)

Definition ip_text (user : User) (ip : IP) : string :=
  if u_ProtectIP user then "" else IPString ip.

Definition record_peer (env : AnnounceEnv) (user : User) (req : AnnounceRequest) (ip : IP)
    (userAgent : string) (s : Session) : Session :=
  let p := x_peer s in
  let announceTime := uint32_of_float (DurationSeconds (TimeSub (e_now env) (p_FirstAnnounced p))) in
  let peerIDStr := string_of_bytes (rq_PeerID req) in
  if x_peerChanged s then
    dbExec env (RecordPeer (u_ID user) (t_ID (x_torrent s)) (x_active s) (rq_Uploaded req)
                  (rq_Downloaded req) (x_upSpeed s) (x_downSpeed s) (rq_Left req) (rq_Corrupt req)
                  announceTime (p_Announces p) (ip_text user ip) peerIDStr userAgent
                  (p_InvalidIP p)) s
  else
    dbExec env (RecordPeerLight (u_ID user) (t_ID (x_torrent s)) announceTime (p_Announces p)
                  peerIDStr) s.

(** ** Stage 6: stop, completion, and how many peers to return *)

Definition clamp_numwant (limit numwant : Z) : Z :=
  if numwant <=? 0 then i32 limit
  else if i32 limit <? numwant then i32 limit else numwant.

Definition complete_torrent (env : AnnounceEnv) (peerKey : string) (user : User) (ip : IP)
    (s : Session) : Session :=
  let s := s {{ x_snatched := 1; x_updateTorrent := true; x_torrent -> t_Completed ::= inc32 }} in
  let s := dbExec env (RecordSnatch (u_ID user) (t_ID (x_torrent s)) (e_now env) (ip_text user ip)) s in
  let s :=
    if negb (x_inserted s) then
      match t_Leechers (x_torrent s) !! peerKey with
      | Some oldPeer =>
          s {{ x_torrent -> t_Seeders ::= <[peerKey := oldPeer]>;
               x_torrent -> t_Leechers ::= delete peerKey;
               x_peer := oldPeer; x_decLeechers := true; x_incSeeders := true }}
      | None => s
      end
    else s in
  if x_expireToken s then
    (effect (ExpireToken (t_ID (x_torrent s)) (u_ID user)) s)
      {{ x_torrent -> t_TokenedUsers ::= fun us => us ∖ {[u_ID user]} }}
  else s.

Definition settle_event (env : AnnounceEnv) (limit : Z) (peerKey : string) (user : User)
    (req : AnnounceRequest) (ip : IP) (s : Session) : Session :=
  let s := s {{ x_numwant := clamp_numwant limit (rq_NumWant req) }} in
  if x_stoppedTorrent s then
    let s := s {{ x_numwant := 0 }} in
    if 0 <? rq_Left req then s {{ x_decLeechers := true }} else s {{ x_decSeeders := true }}
  else if x_completedTorrent s then complete_torrent env peerKey user ip s
  else if negb (u_CanLeech user) && (0 <? rq_Left req) then s {{ x_numwant := 0 }}
  else s.

(** ** Stage 7: peers *)

Definition choose_peers (env : AnnounceEnv) (w : Worker) (user : User) (req : AnnounceRequest)
    (ip : IP) (s : Session) : option (list Z) :=
  let isLeecher := 0 <? rq_Left req in
  if w_PeerScorer w then
    Some (SelectPeersScored (e_order env) (e_sort env)
            (fun info rip => let '(t1, t2, t3) := e_clock env info in Score t1 t2 t3 info rip)
            (x_torrent s) ip (u_ID user) (x_numwant s) isLeecher)
  else
    selectPeersWithEconomics (e_order env) (e_draws env) (w_Commons w)
      (cfg_AnnounceInterval (w_Config w)) (x_torrent s) (u_ID user) (x_numwant s) isLeecher.

(** ** Stage 8: counters *)

Definition bump (inc dec : bool) (z : Z) : Z :=
  let z := if inc then inc32 z else z in if dec then dec32 z else z.

Definition count_user (s : Session) (user : User) : User :=
  user {{ u_Leeching ::= bump (x_incLeechers s) (x_decLeechers s);
          u_Seeding ::= bump (x_incSeeders s) (x_decSeeders s) }}.

Definition count_stats (s : Session) (stats : Stats) : Stats :=
  stats {{ s_SuccAnnouncements ::= add64 1;
           s_Leechers ::= bump (x_incLeechers s) (x_decLeechers s);
           s_Seeders ::= bump (x_incSeeders s) (x_decSeeders s) }}.

(** ** Stage 9: a stopped peer leaves, the torrent is flushed *)

Definition drop_stopped (peerKey : string) (req : AnnounceRequest) (s : Session) : Session :=
  if x_stoppedTorrent s then
    if 0 <? rq_Left req then s {{ x_torrent -> t_Leechers ::= delete peerKey }}
    else s {{ x_torrent -> t_Seeders ::= delete peerKey }}
  else s.

Definition flush_torrent (env : AnnounceEnv) (s : Session) : Session :=
  let t := x_torrent s in
  if x_updateTorrent s || (Hour <? TimeSub (e_now env) (t_LastFlushed t)) then
    dbExec env (RecordTorrent (t_ID t) (u32 (Size (t_Seeders t))) (u32 (Size (t_Leechers t)))
                  (x_snatched s) (t_Balance t))
      (s {{ x_torrent -> t_LastFlushed := e_now env }})
  else s.

Definition respond (cfg : Config) (peers : list Z) (s : Session) : AnnounceResponse :=
  let seederCount := Size (t_Seeders (x_torrent s)) in
  let leecherCount := Size (t_Leechers (x_torrent s)) in
  let minInterval := i32 (cfg_AnnounceInterval cfg) in
  let adaptive := AdaptiveInterval seederCount leecherCount (cfg_AnnounceInterval cfg) in
  mkResp (if adaptive <? minInterval then minInterval else adaptive) minInterval
    (i32 seederCount) (i32 leecherCount) peers
    (if x_invalidIP s then "Illegal character found in IP address" else "").

(** ** The handler *)

(** Stages 2 to 6: the session when the peers are chosen. *)
Definition session_of (env : AnnounceEnv) (w : Worker) (req : AnnounceRequest) (user : User)
    (clientIP : IP) (userAgent : string) (torrent : Torrent) : Session :=
  let peerKey := PeerKeyPrime (rq_PeerID req) (u_ID user) (t_ID torrent) in
  let commons := match w_Commons w with Some _ => true | None => false end in
  let ip := effective_ip req clientIP in
  settle_event env (cfg_NumWantLimit (w_Config w)) peerKey user req ip
    (record_peer env user req ip userAgent
       (write_peer peerKey
          (update_address user req ip (e_now env)
             (account_traffic env commons user req
                (place_peer peerKey user req
                   (start_session torrent (w_CircuitBreak w) req)))))).

(** Stage 9 after them. *)
Definition final_session env w req user clientIP userAgent torrent : Session :=
  flush_torrent env (drop_stopped (PeerKeyPrime (rq_PeerID req) (u_ID user) (t_ID torrent)) req
    (session_of env w req user clientIP userAgent torrent)).

Record Announced := mkAnnounced {
  an_worker : Worker;
  an_user : User;
  an_effects : list Effect;
  an_result : result string AnnounceResponse
}.

Definition Announce (env : AnnounceEnv) (w : Worker) (req : AnnounceRequest) (user : User)
    (clientIP : IP) (userAgent passkey : string) : option Announced :=
  match check_request w (e_now env) req userAgent passkey with
  | Err msg => Some (mkAnnounced w user [] (Err msg))
  | Ok _ =>
      match w_Torrents w !! rq_InfoHash req with
      | None => Some (mkAnnounced w user [] (Err "unregistered torrent"))
      | Some torrent =>
          let s := session_of env w req user clientIP userAgent torrent in
          let s' := final_session env w req user clientIP userAgent torrent in
          peers ← choose_peers env w user req (effective_ip req clientIP) s;
          Some (mkAnnounced
                  (w {{ w_Torrents ::= <[rq_InfoHash req := x_torrent s']>;
                        w_Stats := count_stats s (w_Stats w); w_CircuitBreak := x_cb s' }})
                  (count_user s user) (x_effects s')
                  (if negb (u_CanLeech user) && (0 <? rq_Left req)
                   then Err "access denied, leeching forbidden"
                   else Ok (respond (w_Config w) peers s')))
      end
  end.
