(* ===== verification/AnnounceLemmas.v ===== *)
(** * Lemmas on the announce handler

    What each stage leaves alone ([shape]), where the peer ends up, and the
    bookkeeping that links the swarms to the global counters. *)
From Stdlib Require Import String.
From S2P Require Import Prelude GoStr NetIP TrackerTypes CircuitBreaker Whitelist GoFloat Ml.
From S2P Require Import EconScheduler Commons PeerSelect Announce.
Open Scope string_scope.
Open Scope list_scope.
Open Scope Z_scope.

(** The part of a session that decides membership and counters. *)
Definition shape (s : Session) :=
  (x_side s, x_inserted s, x_completedTorrent s, x_stoppedTorrent s,
   (x_incLeechers s, x_incSeeders s, x_decLeechers s, x_decSeeders s),
   (dom (t_Seeders (x_torrent s)), dom (t_Leechers (x_torrent s)))).

Lemma dbExec_shape env op s : shape (dbExec env op s) = shape s.
Proof.
  unfold dbExec. destruct (e_db env op) as [[t0 t1] ok].
  destruct (x_cb s) as [cb|]; [|done]. by destruct (Execute t0 t1 ok cb).
Qed.

Lemma effect_shape e s : shape (effect e s) = shape s.
Proof. done. Qed.

Lemma credit_user_shape env c user req up down s :
  shape (credit_user env c user req up down s) = shape s.
Proof.
  unfold credit_user. destruct (_ || _); [|done].
  destruct c; rewrite ?effect_shape; apply dbExec_shape.
Qed.

Lemma count_transfer_shape env c user req up down s :
  shape (count_transfer env c user req up down s) = shape s.
Proof.
  unfold count_transfer.
  destruct (_ =? FreeNeutral); [by rewrite credit_user_shape|].
  destruct (_ =? FreeFree); [by rewrite credit_user_shape|].
  destruct (decide _); rewrite credit_user_shape; [by rewrite dbExec_shape|done].
Qed.

Lemma account_traffic_shape env c user req s :
  shape (account_traffic env c user req s) = shape s.
Proof.
  unfold account_traffic, count_progress. destruct (_ || _); [done|].
  destruct (_ || _); [done|]. destruct (_ || _); [rewrite count_transfer_shape|];
    by destruct (0 <? i64 (rq_Corrupt req - _)).
Qed.

Lemma update_address_shape user req ip now s :
  shape (update_address user req ip now s) = shape s.
Proof.
  unfold update_address. destruct (negb _); [done|].
  destruct (_ || _); [|done]. by destruct (CompactIPPort _ _).
Qed.

Lemma record_peer_shape env user req ip ua s : shape (record_peer env user req ip ua s) = shape s.
Proof. unfold record_peer. destruct (x_peerChanged s); apply dbExec_shape. Qed.

(** The peer is where [x_side] says. *)
Definition peer_placed (key : string) (s : Session) : Prop :=
  match x_side s with
  | SeederSide => key ∈ dom (t_Seeders (x_torrent s))
  | LeecherSide => key ∈ dom (t_Leechers (x_torrent s))
  end.

Lemma write_peer_shape key s : peer_placed key s -> shape (write_peer key s) = shape s.
Proof.
  unfold peer_placed, write_peer, shape. destruct (x_side s) eqn:Es; simpl; intros H;
    rewrite dom_insert_L; repeat f_equal; set_solver.
Qed.

Lemma flush_shape env s : shape (flush_torrent env s) = shape s.
Proof. unfold flush_torrent. destruct (_ || _); [by rewrite dbExec_shape|done]. Qed.

(** ** Placement *)

Definition b2z (b : bool) : Z := if b then 1 else 0.

(** [m] with the membership of [key] forced to [b]. *)
Definition force (key : string) (b : bool) (X : gset string) : gset string :=
  if b then {[key]} ∪ X else X ∖ {[key]}.
Arguments force : simpl never.

Definition member (key : string) (X : gset string) : bool := bool_decide (key ∈ X).

Lemma force_self key X : force key (member key X) X = X.
Proof. unfold force, member. case_bool_decide; set_solver. Qed.

Lemma force_force key a b X : force key a (force key b X) = force key a X.
Proof.
  apply set_eq. intros k. destruct (decide (k = key)) as [->|], a, b; unfold force; set_solver.
Qed.

Lemma member_force key b X : member key (force key b X) = b.
Proof.
  unfold member, force. destruct b; [apply bool_decide_eq_true|apply bool_decide_eq_false];
    set_solver.
Qed.

Lemma size_force key b (X : gset string) :
  Z.of_nat (size (force key b X)) = Z.of_nat (size X) + b2z b - b2z (member key X).
Proof.
  unfold force, member. destruct b; case_bool_decide as H; simpl.
  - replace ({[key]} ∪ X) with X by set_solver. lia.
  - rewrite size_union by set_solver. rewrite size_singleton. lia.
  - rewrite size_difference by set_solver. rewrite size_singleton.
    assert (size ({[key]} : gset string) <= size X)%nat by (apply subseteq_size; set_solver).
    rewrite size_singleton in *. lia.
  - replace (X ∖ {[key]}) with X by set_solver. lia.
Qed.

(** Where the peer is placed, as a function of where its key was: the side,
    whether it is new, whether the completion still counts, the four counter
    flags, and the new membership in the seeders and in the leechers. *)
Definition placed (left completed inS inL : bool)
    : Side * bool * bool * (bool * bool * bool * bool) * (bool * bool) :=
  if left then (LeecherSide, negb inL, completed, (negb inL, false, false, false), (inS, true))
  else if completed then
    if inL then (LeecherSide, false, true, (false, false, false, inS), (inS, true))
    else if inS then (SeederSide, false, false, (false, false, false, false), (true, false))
    else (SeederSide, true, true, (false, true, false, false), (true, false))
  else if inS then (SeederSide, false, false, (false, false, false, false), (true, inL))
  else if inL then (SeederSide, false, false, (false, true, true, false), (true, false))
  else (SeederSide, true, false, (false, true, false, false), (true, false)).

Lemma member_lookup key (pl : PeerList) :
  member key (dom pl) = match pl !! key with Some _ => true | None => false end.
Proof.
  unfold member. destruct (pl !! key) as [p|] eqn:E.
  - apply bool_decide_eq_true. by apply elem_of_dom_2 in E.
  - apply bool_decide_eq_false. by apply not_elem_of_dom.
Qed.

Lemma dom_insert_force key p (pl : PeerList) : dom (<[key := p]> pl) = force key true (dom pl).
Proof. by rewrite dom_insert_L. Qed.

Lemma dom_delete_force key (pl : PeerList) : dom (delete key pl) = force key false (dom pl).
Proof. by rewrite dom_delete_L. Qed.

(** The shape a placement describes, over the domains it started from. *)
Definition shaped key (t : Torrent) (stopped : bool)
    (pl : Side * bool * bool * (bool * bool * bool * bool) * (bool * bool)) :=
  let '(side, inserted, completed, flags, (inS, inL)) := pl in
  (side, inserted, completed, stopped, flags,
   (force key inS (dom (t_Seeders t)), force key inL (dom (t_Leechers t)))).

Definition left_of (req : AnnounceRequest) : bool := 0 <? rq_Left req.
Definition stopped_of (req : AnnounceRequest) : bool := String.eqb (rq_Event req) "stopped".
Definition completed_of (req : AnnounceRequest) : bool :=
  String.eqb (rq_Event req) "completed" && (rq_Left req =? 0).

Lemma completed_excludes req :
  completed_of req = true -> left_of req = false /\ stopped_of req = false.
Proof.
  unfold completed_of, left_of, stopped_of. intros [E%String.eqb_eq L%Z.eqb_eq]%andb_true_iff.
  rewrite E, L. done.
Qed.

Lemma force_keep key (pl : PeerList) b :
  match pl !! key with Some _ => true | None => false end = b ->
  force key b (dom pl) = dom pl.
Proof. rewrite <- member_lookup. intros <-. apply force_self. Qed.

Lemma place_shape key user req t cb :
  shape (place_peer key user req (start_session t cb req)) =
  shaped key t (stopped_of req)
    (placed (left_of req) (completed_of req) (member key (dom (t_Seeders t)))
       (member key (dom (t_Leechers t)))).
Proof.
  destruct t as [id cm bal ft mr lf S L tk ls].
  rewrite !member_lookup. unfold place_peer, create_seeder, findOrCreatePeer, placed, shape.
  fold (left_of req). simpl. fold (stopped_of req) (completed_of req).
  destruct (S !! key) as [ps|] eqn:ES, (L !! key) as [pl|] eqn:EL,
    (left_of req) eqn:El, (completed_of req) eqn:Ec; simpl;
    rewrite ?ES, ?EL; simpl; fold (stopped_of req) (completed_of req);
    rewrite ?Ec, ?dom_insert_force, ?dom_delete_force;
    rewrite ?(force_keep key S true) by (by rewrite ES);
    rewrite ?(force_keep key S false) by (by rewrite ES);
    rewrite ?(force_keep key L true) by (by rewrite EL);
    rewrite ?(force_keep key L false) by (by rewrite EL);
    done.
Qed.

(** ** From placement to the final swarm *)

Definition fshape (s : Session) :=
  (x_stoppedTorrent s, (x_incLeechers s, x_incSeeders s, x_decLeechers s, x_decSeeders s),
   (dom (t_Seeders (x_torrent s)), dom (t_Leechers (x_torrent s)))).

Lemma shape_fshape s s' : shape s = shape s' -> fshape s = fshape s'.
Proof. unfold shape, fshape. by intros [= ? ? ? -> -> -> -> -> -> ->]. Qed.

(** The flags and memberships after [settle_event]. *)
Definition settled (left stopped : bool)
    (pl : Side * bool * bool * (bool * bool * bool * bool) * (bool * bool)) :=
  let '(_, inserted, completed, (iL, iS, dL, dS), (mS, mL)) := pl in
  if stopped then
    if left then ((iL, iS, true, dS), (mS, mL)) else ((iL, iS, dL, true), (mS, mL))
  else if completed && negb inserted && mL then ((iL, true, true, dS), (true, false))
  else ((iL, iS, dL, dS), (mS, mL)).

Lemma complete_fshape env key user ip s :
  fshape (complete_torrent env key user ip s) =
  let mL := member key (dom (t_Leechers (x_torrent s))) in
  if negb (x_inserted s) && mL
  then (x_stoppedTorrent s, (x_incLeechers s, true, true, x_decSeeders s),
        (force key true (dom (t_Seeders (x_torrent s))),
         force key false (dom (t_Leechers (x_torrent s)))))
  else fshape s.
Proof.
  unfold complete_torrent.
  set (s0 := s {{ x_snatched := 1; x_updateTorrent := true; x_torrent -> t_Completed ::= inc32 }}).
  set (s1 := dbExec env _ s0).
  assert (shape s1 = shape s) as Hs1 by (unfold s1; rewrite dbExec_shape; by destruct s, x_torrent).
  set (s2 := if negb (x_inserted s1) then _ else s1).
  assert (fshape s2 = (let mL := member key (dom (t_Leechers (x_torrent s))) in
    if negb (x_inserted s) && mL
    then (x_stoppedTorrent s, (x_incLeechers s, true, true, x_decSeeders s),
          (force key true (dom (t_Seeders (x_torrent s))),
           force key false (dom (t_Leechers (x_torrent s)))))
    else fshape s)) as Hs2.
  { clearbody s1. pose proof (shape_fshape _ _ Hs1) as Hf.
    unfold shape in Hs1. injection Hs1 as _ Ei _ Est EiL _ _ EdS EdomS EdomL.
    rewrite <- Ei, <- EdomL, <- EdomS, <- Est, <- EiL, <- EdS, <- Hf. unfold s2.
    rewrite member_lookup. cbn zeta.
    destruct (x_inserted s1); simpl; [done|].
    destruct (t_Leechers (x_torrent s1) !! key) as [old|]; [|done].
    destruct s1 as [t1]; destruct t1. unfold fshape. simpl.
    by rewrite dom_insert_force, dom_delete_force. }
  clearbody s2. destruct (x_expireToken s2); [|done].
  transitivity (fshape s2); [by destruct s2 as [t2]; destruct t2|exact Hs2].
Qed.

Lemma settle_fshape env limit key user req ip s t pl :
  shape s = shaped key t (stopped_of req) pl ->
  fshape (settle_event env limit key user req ip s) =
  (stopped_of req, (settled (left_of req) (stopped_of req) pl).1,
   (force key (settled (left_of req) (stopped_of req) pl).2.1 (dom (t_Seeders t)),
    force key (settled (left_of req) (stopped_of req) pl).2.2 (dom (t_Leechers t)))).
Proof.
  destruct pl as [[[[side ins] comp] [[[iL iS] dL] dS]] [mS mL]].
  intros Hs. unfold settle_event. fold (left_of req).
  set (s0 := s {{ x_numwant := clamp_numwant limit (rq_NumWant req) }}).
  assert (shape s0 = shape s) as E0 by by destruct s. rewrite <- E0 in Hs. clearbody s0. clear s E0.
  unfold shape, shaped in Hs. injection Hs as E1 E2 E3 E4 E5 E6 E7 E8 E9 E10.
  unfold settled. rewrite E4, E3. destruct (stopped_of req) eqn:Est.
  { destruct s0 as [t0]. simpl in *. subst. 
    destruct (left_of req); unfold fshape; simpl; by rewrite E9, E10. }
  destruct comp; simpl.
  - rewrite complete_fshape. cbn zeta. rewrite E2, E10, member_force.
    destruct (negb ins && mL) eqn:Em.
    + rewrite E4, E5, E8, E9, !force_force. done.
    + unfold fshape. rewrite E4, E5, E6, E7, E8, E9, E10. done.
  - destruct (negb (u_CanLeech user) && left_of req); unfold fshape; simpl;
      destruct s0 as [t0]; simpl in *; subst; by rewrite E9, E10.
Qed.

(** ** Sizes of the final swarm *)

Definition drop_members (left stopped : bool) (m : bool * bool) : bool * bool :=
  if stopped then if left then (m.1, false) else (false, m.2) else m.

Lemma drop_fshape key req s t flags mS mL :
  fshape s = (stopped_of req, flags,
              (force key mS (dom (t_Seeders t)), force key mL (dom (t_Leechers t)))) ->
  fshape (drop_stopped key req s) =
  (stopped_of req, flags,
   (force key (drop_members (left_of req) (stopped_of req) (mS, mL)).1 (dom (t_Seeders t)),
    force key (drop_members (left_of req) (stopped_of req) (mS, mL)).2 (dom (t_Leechers t)))).
Proof.
  unfold fshape, drop_stopped, drop_members. intros [= E1 E2 E3 E4].
  rewrite E1. fold (left_of req). destruct s as [t0]; destruct t0. simpl in *.
  destruct (stopped_of req); [destruct (left_of req)|]; simpl;
    rewrite ?dom_delete_force, ?E1, ?E3, ?E4, ?force_force, <- ?E2; done.
Qed.

(** The counter flags are the changes of membership. *)
Lemma flags_balance (left stopped completed inS inL : bool) :
  (completed = true -> left = false /\ stopped = false) ->
  let '((iL, iS, dL, dS), m) := settled left stopped (placed left completed inS inL) in
  let '(mS, mL) := drop_members left stopped m in
  b2z mS - b2z inS = b2z iS - b2z dS /\ b2z mL - b2z inL = b2z iL - b2z dL.
Proof.
  intros H. destruct left, stopped, completed, inS, inL; try done;
    try (destruct H as [? ?]; done); vm_compute; auto.
Qed.

(** ** The handler as a whole *)

(** What an announce that passes the checks on a known torrent does. *)
Definition ran env w req user clientIP userAgent torrent peers (r : Announced) : Prop :=
  let s := session_of env w req user clientIP userAgent torrent in
  let s' := final_session env w req user clientIP userAgent torrent in
  choose_peers env w user req (effective_ip req clientIP) s = Some peers /\
  an_worker r = w {{ w_Torrents ::= <[rq_InfoHash req := x_torrent s']>;
                     w_Stats := count_stats s (w_Stats w); w_CircuitBreak := x_cb s' }} /\
  an_user r = count_user s user /\ an_effects r = x_effects s' /\
  an_result r = if negb (u_CanLeech user) && (0 <? rq_Left req)
                then Err "access denied, leeching forbidden"
                else Ok (respond (w_Config w) peers s').

Lemma Announce_ran env w req user clientIP userAgent passkey r torrent :
  Announce env w req user clientIP userAgent passkey = Some r ->
  check_request w (e_now env) req userAgent passkey = Ok tt ->
  w_Torrents w !! rq_InfoHash req = Some torrent ->
  exists peers, ran env w req user clientIP userAgent torrent peers r.
Proof.
  unfold Announce, ran. intros E Hc Ht. rewrite Hc, Ht in E. revert E. cbn zeta.
  generalize (session_of env w req user clientIP userAgent torrent) as s.
  generalize (final_session env w req user clientIP userAgent torrent) as s'. intros s' s E.
  destruct (choose_peers env w user req (effective_ip req clientIP) s) as [peers|]; [|done].
  exists peers. injection E as <-. done.
Qed.

(** An announce is rejected before anything changes, or runs to the end. *)
Lemma Announce_cases env w req user clientIP userAgent passkey r :
  Announce env w req user clientIP userAgent passkey = Some r ->
  (an_worker r = w /\ an_user r = user /\ an_effects r = [] /\ exists msg, an_result r = Err msg) \/
  (exists torrent peers,
     w_Torrents w !! rq_InfoHash req = Some torrent /\
     ran env w req user clientIP userAgent torrent peers r).
Proof.
  intros E. destruct (check_request w (e_now env) req userAgent passkey) as [[]|msg] eqn:Ec.
  2: { unfold Announce in E. rewrite Ec in E. injection E as <-. left. simpl. eauto. }
  destruct (w_Torrents w !! rq_InfoHash req) as [torrent|] eqn:Et.
  2: { unfold Announce in E. rewrite Ec, Et in E. injection E as <-. left. simpl. eauto. }
  right. exists torrent. destruct (Announce_ran _ _ _ _ _ _ _ _ _ E Ec Et) as [peers H]. eauto.
Qed.

Lemma place_placed key user req s : peer_placed key (place_peer key user req s).
Proof.
  unfold peer_placed, place_peer, create_seeder, findOrCreatePeer.
  destruct s as [t]; destruct t as [id cm bal ft mr lf S L tk ls]; simpl.
  destruct (0 <? rq_Left req); [|destruct x_completedTorrent];
    destruct (S !! key) as [ps|] eqn:ES, (L !! key) as [pl|] eqn:EL; simpl;
    rewrite ?ES, ?EL; simpl; rewrite ?dom_insert_L; first [by apply elem_of_dom_2 in ES
      | by apply elem_of_dom_2 in EL | set_solver].
Qed.

Lemma peer_placed_shape key s s' : shape s = shape s' -> peer_placed key s -> peer_placed key s'.
Proof. unfold shape, peer_placed. intros [= -> _ _ _ _ _ _ _ -> ->]. done. Qed.

(** The final membership and flags. *)
Definition outcome (req : AnnounceRequest) (key : string) (t : Torrent) :=
  settled (left_of req) (stopped_of req)
    (placed (left_of req) (completed_of req) (member key (dom (t_Seeders t)))
       (member key (dom (t_Leechers t)))).

Lemma session_fshape env w req user clientIP userAgent t :
  let key := PeerKeyPrime (rq_PeerID req) (u_ID user) (t_ID t) in
  fshape (session_of env w req user clientIP userAgent t) =
  (stopped_of req, (outcome req key t).1,
   (force key (outcome req key t).2.1 (dom (t_Seeders t)),
    force key (outcome req key t).2.2 (dom (t_Leechers t)))).
Proof.
  intros key. unfold session_of. cbn zeta. fold key.
  apply settle_fshape.
  rewrite record_peer_shape, write_peer_shape, update_address_shape, account_traffic_shape;
    [apply place_shape|].
  eapply peer_placed_shape; [|apply place_placed].
  by rewrite update_address_shape, account_traffic_shape.
Qed.

Lemma final_fshape env w req user clientIP userAgent t :
  let key := PeerKeyPrime (rq_PeerID req) (u_ID user) (t_ID t) in
  let m := drop_members (left_of req) (stopped_of req) (outcome req key t).2 in
  fshape (final_session env w req user clientIP userAgent t) =
  (stopped_of req, (outcome req key t).1,
   (force key m.1 (dom (t_Seeders t)), force key m.2 (dom (t_Leechers t)))).
Proof.
  intros key m. unfold final_session. fold key.
  rewrite (shape_fshape _ _ (flush_shape _ _)).
  pose proof (session_fshape env w req user clientIP userAgent t) as H. cbn zeta in H. fold key in H.
  unfold m. destruct (outcome req key t) as [flags [mS mL]]. simpl in *.
  by apply drop_fshape.
Qed.

Lemma Size_dom (pl : PeerList) : Size pl = Z.of_nat (size (dom pl)).
Proof. unfold Size. by rewrite size_dom. Qed.

(** The counter flags are the changes of the two sizes. *)
Lemma final_sizes env w req user clientIP userAgent t :
  let s := session_of env w req user clientIP userAgent t in
  let t' := x_torrent (final_session env w req user clientIP userAgent t) in
  Size (t_Seeders t') = Size (t_Seeders t) + b2z (x_incSeeders s) - b2z (x_decSeeders s) /\
  Size (t_Leechers t') = Size (t_Leechers t) + b2z (x_incLeechers s) - b2z (x_decLeechers s).
Proof.
  cbn zeta. set (key := PeerKeyPrime (rq_PeerID req) (u_ID user) (t_ID t)).
  pose proof (session_fshape env w req user clientIP userAgent t) as H.
  pose proof (final_fshape env w req user clientIP userAgent t) as H'.
  cbn zeta in H, H'. fold key in H, H'.
  pose proof (flags_balance (left_of req) (stopped_of req) (completed_of req)
    (member key (dom (t_Seeders t))) (member key (dom (t_Leechers t))) (completed_excludes req)) as Hb.
  fold (outcome req key t) in Hb. destruct (outcome req key t) as [[[[iL iS] dL] dS] m]. simpl in *.
  unfold fshape in H, H'. injection H as _ -> -> -> -> _ _. injection H' as _ _ _ _ _ ES EL.
  destruct (drop_members _ _ m) as [mS mL]. simpl in *.
  rewrite !Size_dom, ES, EL, !size_force. lia.
Qed.

(** ** Traffic that is credited *)

(** A user-statistics write ([false]) or a settlement ([true]) with its two
    amounts; every other effect moves no credit. *)
Definition money (e : Effect) : option (bool * Z * Z) :=
  match e with
  | DbWrite (RecordUserStats _ up down) _ => Some (false, up, down)
  | SettleAsync st => Some (true, st_EffectiveUploaded st, st_EffectiveDownloaded st)
  | _ => None
  end.

Definition moved (s : Session) : list (bool * Z * Z) := omap money (x_effects s).

Lemma moved_effect e s :
  moved (effect e s) = moved s ++ match money e with Some m => [m] | None => [] end.
Proof.
  unfold moved, effect. destruct s. simpl. rewrite omap_app. simpl. by destruct (money e).
Qed.

Lemma moved_dbExec env op s :
  moved (dbExec env op s) =
  moved s ++ match op with RecordUserStats _ up down => [(false, up, down)] | _ => [] end.
Proof.
  unfold dbExec. destruct (e_db env op) as [[t0 t1] ok].
  destruct (x_cb s) as [cb|]; [destruct (Execute t0 t1 ok cb)|]; rewrite moved_effect;
    by destruct op, s.
Qed.

(** The peer the request continues, if the swarm has it. *)
Definition prev_peer (key : string) (req : AnnounceRequest) (t : Torrent) : option Peer :=
  let '(first, second) :=
    if left_of req then (t_Leechers t !! key, None)
    else if completed_of req then (t_Leechers t !! key, t_Seeders t !! key)
    else (t_Seeders t !! key, t_Leechers t !! key) in
  match first with Some p => Some p | None => second end.

Lemma place_prev key user req t cb :
  let s := place_peer key user req (start_session t cb req) in
  x_inserted s = match prev_peer key req t with Some _ => false | None => true end /\
  x_peer s = default (zeroPeer (u_ID user)) (prev_peer key req t) /\
  t_FreeType (x_torrent s) = t_FreeType t /\ t_TokenedUsers (x_torrent s) = t_TokenedUsers t /\
  x_effects s = [].
Proof.
  destruct t as [id cm bal ft mr lf S L tk ls]. cbn zeta.
  unfold place_peer, create_seeder, findOrCreatePeer, prev_peer. fold (left_of req). simpl.
  fold (completed_of req).
  destruct (left_of req), (completed_of req), (S !! key) eqn:ES, (L !! key) eqn:EL; simpl;
    rewrite ?ES, ?EL; simpl; auto 10.
Qed.

(** What the request is worth: the increase of the two counters over the
    previous announce, less the download under freeleech or a token, nothing
    for a first or restarted announce, for counters that went back, or on a
    neutral torrent. *)
Definition worth (t : Torrent) (user : User) (req : AnnounceRequest) (prev : option Peer) : Z * Z :=
  match prev with
  | None => (0, 0)
  | Some p =>
      let up := i64 (rq_Uploaded req - p_Uploaded p) in
      let down := i64 (rq_Downloaded req - p_Downloaded p) in
      if String.eqb (rq_Event req) "started" then (0, 0)
      else if (rq_Uploaded req <? p_Uploaded p) || (rq_Downloaded req <? p_Downloaded p) then (0, 0)
      else if negb ((0 <? up) || (0 <? down)) then (0, 0)
      else if t_FreeType t =? FreeNeutral then (0, 0)
      else if (t_FreeType t =? FreeFree) || bool_decide (u_ID user ∈ t_TokenedUsers t) then (up, 0)
      else (up, down)
  end.

Definition money_for (commons : bool) (ud : Z * Z) : list (bool * Z * Z) :=
  if (0 <? ud.1) || (0 <? ud.2)
  then (false, ud.1, ud.2) :: (if commons then [(true, ud.1, ud.2)] else []) else [].

Lemma credit_user_moved env c user req up down s :
  moved (credit_user env c user req up down s) = moved s ++ money_for c (up, down).
Proof.
  unfold credit_user, money_for. simpl. destruct (_ || _); [|by rewrite app_nil_r].
  destruct c; [rewrite moved_effect|]; rewrite moved_dbExec; simpl; by rewrite <- ?app_assoc.
Qed.

Lemma count_transfer_moved env c user req up down s :
  moved (count_transfer env c user req up down s) =
  moved s ++ money_for c
    (if t_FreeType (x_torrent s) =? FreeNeutral then (0, 0)
     else if (t_FreeType (x_torrent s) =? FreeFree) ||
             bool_decide (u_ID user ∈ t_TokenedUsers (x_torrent s)) then (up, 0)
     else (up, down)).
Proof.
  unfold count_transfer. set (s1 := move_balance _ _ _ s).
  assert (t_FreeType (x_torrent s1) = t_FreeType (x_torrent s)) as EF by reflexivity.
  assert (t_TokenedUsers (x_torrent s1) = t_TokenedUsers (x_torrent s)) as ET by reflexivity.
  assert (moved s1 = moved s) as EM by reflexivity. clearbody s1. cbn zeta.
  rewrite <- EF, <- ET, <- EM.
  destruct (_ =? FreeNeutral); [by rewrite credit_user_moved|].
  destruct (_ =? FreeFree); [by rewrite credit_user_moved|]. simpl orb.
  destruct (decide (u_ID user ∈ t_TokenedUsers (x_torrent s1))) as [Hin|Hin].
  - rewrite bool_decide_eq_true_2 by done. rewrite credit_user_moved, moved_dbExec, app_nil_r. done.
  - rewrite bool_decide_eq_false_2 by done. by rewrite credit_user_moved.
Qed.

Lemma account_moved env c user req s prev :
  x_inserted s = match prev with Some _ => false | None => true end ->
  x_peer s = default (zeroPeer (u_ID user)) prev ->
  moved (account_traffic env c user req s) =
  moved s ++ money_for c (worth (x_torrent s) user req prev).
Proof.
  intros Hi Hp. unfold account_traffic. rewrite Hi.
  destruct prev as [p|]; simpl in Hp.
  2: { simpl. by rewrite app_nil_r. }
  simpl orb. unfold worth. destruct (String.eqb (rq_Event req) "started").
  { simpl. by rewrite app_nil_r. }
  rewrite Hp. destruct (_ || _). { simpl. by rewrite app_nil_r. }
  unfold count_progress. rewrite Hp.
  set (up := i64 (rq_Uploaded req - p_Uploaded p)). set (down := i64 (rq_Downloaded req - p_Downloaded p)).
  cbn zeta. destruct ((0 <? up) || (0 <? down)); simpl negb; cbv iota.
  - rewrite count_transfer_moved. by destruct (0 <? i64 (rq_Corrupt req - p_Corrupt p)).
  - rewrite app_nil_r. by destruct (0 <? i64 (rq_Corrupt req - p_Corrupt p)).
Qed.

Lemma update_address_moved user req ip now s : moved (update_address user req ip now s) = moved s.
Proof.
  unfold update_address. destruct (negb _); [done|].
  destruct (_ || _); [|done]. by destruct (CompactIPPort _ _).
Qed.

Lemma write_peer_moved key s : moved (write_peer key s) = moved s.
Proof. unfold write_peer. by destruct (x_side s). Qed.

Lemma record_peer_moved env user req ip ua s : moved (record_peer env user req ip ua s) = moved s.
Proof.
  unfold record_peer. destruct (x_peerChanged s); by rewrite moved_dbExec, app_nil_r.
Qed.

Lemma complete_moved env key user ip s : moved (complete_torrent env key user ip s) = moved s.
Proof.
  unfold complete_torrent. set (s0 := dbExec env _ _).
  assert (moved s0 = moved s) as <- by (unfold s0; by rewrite moved_dbExec, app_nil_r).
  clearbody s0. set (s2 := if negb (x_inserted s0) then _ else s0).
  assert (moved s2 = moved s0) as <-.
  { unfold s2. destruct (negb _); [|done]. by destruct (t_Leechers (x_torrent s0) !! key). }
  clearbody s2. destruct (x_expireToken s2); [|done].
  transitivity (moved (effect (ExpireToken (t_ID (x_torrent s2)) (u_ID user)) s2)); [done|].
  by rewrite moved_effect, app_nil_r.
Qed.

Lemma settle_moved env limit key user req ip s :
  moved (settle_event env limit key user req ip s) = moved s.
Proof.
  unfold settle_event. destruct (x_stoppedTorrent _); [by destruct (0 <? _)|].
  destruct (x_completedTorrent _); [by rewrite complete_moved|]. by destruct (_ && _).
Qed.

Lemma finish_moved env key req s : moved (flush_torrent env (drop_stopped key req s)) = moved s.
Proof.
  assert (moved (drop_stopped key req s) = moved s) as <-.
  { unfold drop_stopped. destruct (x_stoppedTorrent s); [|done]. by destruct (0 <? _). }
  unfold flush_torrent. destruct (_ || _); [by rewrite moved_dbExec, app_nil_r|done].
Qed.

Lemma final_moved env w req user clientIP userAgent t :
  let key := PeerKeyPrime (rq_PeerID req) (u_ID user) (t_ID t) in
  let commons := match w_Commons w with Some _ => true | None => false end in
  moved (final_session env w req user clientIP userAgent t) =
  money_for commons (worth t user req (prev_peer key req t)).
Proof.
  intros key commons. unfold final_session, session_of. fold key. cbn zeta. fold commons.
  rewrite finish_moved, settle_moved, record_peer_moved, write_peer_moved, update_address_moved.
  pose proof (place_prev key user req t (w_CircuitBreak w)) as H. cbn zeta in H.
  set (s := place_peer _ _ _ _) in *. clearbody s. destruct H as (Hi & Hp & HF & HT & HE).
  rewrite (account_moved env commons user req s (prev_peer key req t)) by done.
  unfold moved, worth. rewrite HE, HF, HT. done.
Qed.

(** ** What an announce does not change: the torrent's id and its free type,
    and its freeleech tokens but for the user's own *)

Definition kept (s : Session) : Z * Z * gset Z :=
  (t_ID (x_torrent s), t_FreeType (x_torrent s), t_TokenedUsers (x_torrent s)).

Lemma dbExec_kept env op s : kept (dbExec env op s) = kept s.
Proof. unfold dbExec. destruct (e_db env op) as [[??]?], (x_cb s); [by destruct (Execute _ _ _ _)|done]. Qed.

Lemma credit_user_kept env c user req up down s : kept (credit_user env c user req up down s) = kept s.
Proof.
  unfold credit_user. destruct (_ || _); [|done]. rewrite <- (dbExec_kept env (RecordUserStats (u_ID user) up down) s).
  by destruct c.
Qed.

Lemma account_kept env c user req s : kept (account_traffic env c user req s) = kept s.
Proof.
  unfold account_traffic. destruct (_ || _); [done|]. destruct (_ || _); [done|].
  unfold count_progress. cbv zeta.
  match goal with |- kept (if ?c then count_transfer _ _ _ _ _ _ ?x else _) = _ => set (s0 := x) end.
  assert (kept s0 = kept s) as <- by (unfold s0; by destruct (0 <? i64 (rq_Corrupt req - _))).
  clearbody s0. destruct (_ || _); [|done]. unfold count_transfer.
  set (s1 := move_balance _ _ _ _). assert (kept s1 = kept s0) as <- by done. clearbody s1.
  destruct (_ =? _); [apply credit_user_kept|]. destruct (_ =? _); [apply credit_user_kept|].
  case_decide; rewrite credit_user_kept; [by rewrite dbExec_kept|done].
Qed.

Lemma place_kept key user req s : kept (place_peer key user req s) = kept s.
Proof.
  unfold place_peer, create_seeder, findOrCreatePeer. repeat case_match; simplify_eq; done.
Qed.

Lemma update_address_kept user req ip now s : kept (update_address user req ip now s) = kept s.
Proof.
  unfold update_address. destruct (negb _); [done|].
  destruct (_ || _); [|done]. by destruct (CompactIPPort _ _).
Qed.

Lemma record_peer_kept env user req ip ua s : kept (record_peer env user req ip ua s) = kept s.
Proof. unfold record_peer. destruct (x_peerChanged s); apply dbExec_kept. Qed.

Lemma settle_kept env limit key user req ip s :
  kept (settle_event env limit key user req ip s) = kept s \/
  kept (settle_event env limit key user req ip s) = ((kept s).1, (kept s).2 ∖ {[u_ID user]}).
Proof.
  unfold settle_event. destruct (x_stoppedTorrent _); [left; by destruct (0 <? _)|].
  destruct (x_completedTorrent _); [|left; by destruct (_ && _)]. unfold complete_torrent.
  set (s0 := dbExec env _ _).
  assert (kept s0 = kept s) as <- by (unfold s0; by rewrite dbExec_kept).
  clearbody s0. set (s2 := if negb (x_inserted s0) then _ else s0).
  assert (kept s2 = kept s0) as <-.
  { unfold s2. destruct (negb _); [|done]. by destruct (t_Leechers (x_torrent s0) !! key). }
  clearbody s2. destruct (x_expireToken s2); [by right|by left].
Qed.

Lemma finish_kept env key req s : kept (flush_torrent env (drop_stopped key req s)) = kept s.
Proof.
  assert (kept (drop_stopped key req s) = kept s) as <-.
  { unfold drop_stopped. destruct (x_stoppedTorrent s); [|done]. by destruct (0 <? _). }
  unfold flush_torrent. destruct (_ || _); [by rewrite dbExec_kept|done].
Qed.

Lemma final_kept env w req user clientIP userAgent t :
  let k := kept (final_session env w req user clientIP userAgent t) in
  k = (t_ID t, t_FreeType t, t_TokenedUsers t) \/
  k = (t_ID t, t_FreeType t, t_TokenedUsers t ∖ {[u_ID user]}).
Proof.
  unfold final_session, session_of. cbv zeta. rewrite finish_kept.
  match goal with |- context [settle_event ?e ?l ?k ?u ?r ?i ?s] =>
    assert (kept s = (t_ID t, t_FreeType t, t_TokenedUsers t)) as Hk;
    [|destruct (settle_kept e l k u r i s) as [ -> | -> ]; rewrite Hk; auto] end.
  rewrite record_peer_kept.
  match goal with |- kept (write_peer ?k ?s) = _ =>
    assert (kept (write_peer k s) = kept s) as -> by (unfold write_peer; by destruct (x_side s)) end.
  by rewrite update_address_kept, account_kept, place_kept.
Qed.

(** ** Whom the effects are about *)

(** Settlements and spent tokens are the announcing user's. *)
Definition about_user (uid : Z) (e : Effect) : Prop :=
  match e with
  | SettleAsync st => st_UserID st = uid
  | ExpireToken _ u => u = uid
  | DbWrite _ _ => True
  end.

Definition owned (uid : Z) (s : Session) : Prop := Forall (about_user uid) (x_effects s).

Lemma effect_owned uid e s : about_user uid e -> owned uid s -> owned uid (effect e s).
Proof. intros He Hs. apply Forall_app. split; [exact Hs|]. by constructor; [|constructor]. Qed.

Lemma dbExec_owned env op uid s : owned uid s -> owned uid (dbExec env op s).
Proof.
  intros Hs. unfold dbExec. destruct (e_db env op) as [[??]?], (x_cb s) as [cb|].
  - destruct (Execute _ _ _ _). by apply effect_owned.
  - by apply effect_owned.
Qed.

Lemma credit_user_owned env c user req up down s :
  owned (u_ID user) s -> owned (u_ID user) (credit_user env c user req up down s).
Proof.
  intros Hs. unfold credit_user. destruct (_ || _); [|done]. destruct c; cbv zeta.
  - apply effect_owned; [done|]. by apply dbExec_owned.
  - by apply dbExec_owned.
Qed.

Lemma account_owned env c user req s :
  owned (u_ID user) s -> owned (u_ID user) (account_traffic env c user req s).
Proof.
  intros Hs. unfold account_traffic. destruct (_ || _); [done|]. destruct (_ || _); [done|].
  unfold count_progress. cbv zeta.
  match goal with |- owned _ (if ?c then count_transfer _ _ _ _ _ _ ?x else _) =>
    assert (owned (u_ID user) x) as H0 by (by destruct (0 <? i64 (rq_Corrupt req - _)));
    generalize dependent x end.
  intros s0 H0. destruct (_ || _); [|done]. unfold count_transfer.
  match goal with |- context [move_balance ?a ?b ?c ?d] =>
    assert (owned (u_ID user) (move_balance a b c d)) as H1 by exact H0;
    generalize dependent (move_balance a b c d) end.
  intros s1 H1.
  destruct (_ =? _); [by apply credit_user_owned|]. destruct (_ =? _); [by apply credit_user_owned|].
  case_decide; apply credit_user_owned; [|done]. by apply dbExec_owned.
Qed.

Lemma place_owned uid key user req s : owned uid s -> owned uid (place_peer key user req s).
Proof.
  unfold place_peer, create_seeder, findOrCreatePeer. intros. repeat case_match; simplify_eq; done.
Qed.

Lemma update_address_owned uid user req ip now s :
  owned uid s -> owned uid (update_address user req ip now s).
Proof.
  intros. unfold update_address. destruct (negb _); [done|].
  destruct (_ || _); [|done]. by destruct (CompactIPPort _ _).
Qed.

Lemma record_peer_owned uid env user req ip ua s :
  owned uid s -> owned uid (record_peer env user req ip ua s).
Proof. intros. unfold record_peer. by destruct (x_peerChanged s); apply dbExec_owned. Qed.

Lemma settle_owned env limit key user req ip s :
  owned (u_ID user) s -> owned (u_ID user) (settle_event env limit key user req ip s).
Proof.
  intros Hs. unfold settle_event. destruct (x_stoppedTorrent _); [by destruct (0 <? _)|].
  destruct (x_completedTorrent _); [|by destruct (_ && _)]. unfold complete_torrent.
  match goal with |- context [dbExec env ?op ?x] =>
    assert (owned (u_ID user) (dbExec env op x)) as H0 by (by apply dbExec_owned);
    generalize dependent (dbExec env op x) end.
  intros s0 H0.
  match goal with |- context [if negb (x_inserted s0) then ?a else s0] =>
    assert (owned (u_ID user) (if negb (x_inserted s0) then a else s0)) as H2
      by (destruct (negb _); [|done]; by destruct (t_Leechers (x_torrent s0) !! key));
    generalize dependent (if negb (x_inserted s0) then a else s0) end.
  intros s2 H2. destruct (x_expireToken s2); [|done]. by apply effect_owned.
Qed.

Lemma finish_owned uid env key req s :
  owned uid s -> owned uid (flush_torrent env (drop_stopped key req s)).
Proof.
  intros Hs. assert (owned uid (drop_stopped key req s)) as Hd.
  { unfold drop_stopped. destruct (x_stoppedTorrent s); [|done]. by destruct (0 <? _). }
  unfold flush_torrent. destruct (_ || _); [by apply dbExec_owned|done].
Qed.

Lemma final_owned env w req user clientIP userAgent t :
  owned (u_ID user) (final_session env w req user clientIP userAgent t).
Proof.
  unfold final_session, session_of. cbv zeta. apply finish_owned, settle_owned, record_peer_owned.
  match goal with |- owned _ (write_peer ?k ?s) =>
    assert (x_effects (write_peer k s) = x_effects s) as E by (unfold write_peer; by destruct (x_side s)) end.
  unfold owned. rewrite E. apply update_address_owned, account_owned, place_owned. constructor.
Qed.

(** ** Independence from the database

    Two sessions that agree on everything but the breaker and the effects
    still do after every stage, whatever the database answers. *)

Definition strip (s : Session) : Session := s {{ x_cb := None; x_effects := [] }}.
Definition sim (s s' : Session) : Prop := strip s = strip s'.

#[global] Instance sim_equiv : Equivalence sim.
Proof.
  unfold sim. split; [by intros ?|by intros ???|]. intros ????. by apply transitivity.
Qed.

Lemma dbExec_sim env op s : sim (dbExec env op s) s.
Proof.
  unfold dbExec. destruct (e_db env op) as [[t0 t1] ok].
  destruct (x_cb s) as [cb|]; [by destruct (Execute t0 t1 ok cb)|done].
Qed.

Lemma effect_sim e s : sim (effect e s) s.
Proof. done. Qed.

(** Related sessions are the same up to two fields. *)
Lemma sim_inv s s' : sim s s' -> exists cb es, s' = s {{ x_cb := cb; x_effects := es }}.
Proof.
  intros H. exists (x_cb s'), (x_effects s'). unfold sim, strip in H.
  apply (f_equal (fun z => z {{ x_cb := x_cb s'; x_effects := x_effects s' }})) in H.
  simpl in H. destruct s, s'. simpl in *. by rewrite H.
Qed.

(** Reads of the other fields do not see the two. *)
Ltac unsim s cb es :=
  let z := constr:(s {{ x_cb := cb; x_effects := es }}) in
  try change (x_torrent z) with (x_torrent s); try change (x_peer z) with (x_peer s);
  try change (x_side z) with (x_side s); try change (x_inserted z) with (x_inserted s);
  try change (x_updateTorrent z) with (x_updateTorrent s);
  try change (x_completedTorrent z) with (x_completedTorrent s);
  try change (x_stoppedTorrent z) with (x_stoppedTorrent s);
  try change (x_expireToken z) with (x_expireToken s).

Lemma credit_user_sim env env' c user req up down s s' :
  sim s s' -> sim (credit_user env c user req up down s) (credit_user env' c user req up down s').
Proof.
  assert (forall env s, sim (credit_user env c user req up down s) s) as H.
  { clear. intros env s. unfold credit_user. destruct (_ || _); [|done].
    destruct c; rewrite ?effect_sim; apply dbExec_sim. }
  intros Hs. by rewrite (H env s), (H env' s').
Qed.

Section Independence.
Context (env env' : AnnounceEnv) (Hnow : e_now env' = e_now env).

Lemma count_transfer_sim c user req up down s s' :
  sim s s' ->
  sim (count_transfer env c user req up down s) (count_transfer env' c user req up down s').
Proof.
  intros Hs. unfold count_transfer. rewrite Hnow.
  set (s1 := move_balance _ _ _ s). set (s1' := move_balance _ _ _ s').
  assert (sim s1 s1') as H1 by (by apply sim_inv in Hs as (? & ? & ->)). clearbody s1 s1'.
  assert (x_torrent s1' = x_torrent s1) as Et by (by apply sim_inv in H1 as (? & ? & ->)).
  cbn zeta. rewrite Et.
  destruct (_ =? FreeNeutral); [by apply credit_user_sim|].
  destruct (_ =? FreeFree); [by apply credit_user_sim|].
  destruct (decide _); [|by apply credit_user_sim].
  apply credit_user_sim. rewrite !dbExec_sim. by apply sim_inv in H1 as (? & ? & ->).
Qed.

Lemma account_traffic_sim c user req s s' :
  sim s s' -> sim (account_traffic env c user req s) (account_traffic env' c user req s').
Proof.
  intros (cb & es & ->)%sim_inv. unfold account_traffic, count_progress. rewrite Hnow.
  unsim s cb es.
  destruct (_ || _); [done|]. destruct (_ || _); [done|]. cbn zeta.
  destruct (_ || _); [apply count_transfer_sim|];
    by destruct (0 <? i64 (rq_Corrupt req - p_Corrupt (x_peer s))).
Qed.

Lemma update_address_sim user req ip now s s' :
  sim s s' -> sim (update_address user req ip now s) (update_address user req ip now s').
Proof.
  intros (cb & es & ->)%sim_inv. unfold update_address. cbn zeta.
  destruct (negb (ValidateIPNotPrivate ip)); [done|].
  destruct (_ || _); [|done]. by destruct (CompactIPPort _ _).
Qed.

Lemma write_peer_sim key s s' : sim s s' -> sim (write_peer key s) (write_peer key s').
Proof. intros (cb & es & ->)%sim_inv. unfold write_peer. unsim s cb es. by destruct (x_side s). Qed.

Lemma record_peer_sim user req ip ua s s' :
  sim s s' -> sim (record_peer env user req ip ua s) (record_peer env' user req ip ua s').
Proof.
  intros Hs. unfold record_peer. destruct (x_peerChanged s), (x_peerChanged s');
    by rewrite !dbExec_sim.
Qed.

Lemma complete_sim key user ip s s' :
  sim s s' -> sim (complete_torrent env key user ip s) (complete_torrent env' key user ip s').
Proof.
  intros Hs. unfold complete_torrent. set (s0 := dbExec env _ _). set (s0' := dbExec env' _ _).
  assert (sim s0 s0') as H0.
  { unfold s0, s0'. rewrite !dbExec_sim. by apply sim_inv in Hs as (? & ? & ->). }
  clearbody s0 s0'. apply sim_inv in H0 as (cb & es & ->). unsim s0 cb es.
  set (s2 := if negb (x_inserted s0) then _ else s0). set (s2' := if negb (x_inserted s0) then _ else _).
  assert (sim s2 s2') as H2.
  { unfold s2, s2'. destruct (negb _); [|done].
    by destruct (t_Leechers (x_torrent s0) !! key). }
  clearbody s2 s2'. apply sim_inv in H2 as (cb2 & es2 & ->). unsim s2 cb2 es2.
  by destruct (x_expireToken s2).
Qed.

Lemma settle_sim limit key user req ip s s' :
  sim s s' ->
  sim (settle_event env limit key user req ip s) (settle_event env' limit key user req ip s').
Proof.
  intros Hs. unfold settle_event. set (s0 := apply_update _ s). set (s0' := apply_update _ s').
  assert (sim s0 s0') as H0 by (by apply sim_inv in Hs as (? & ? & ->)).
  clearbody s0 s0'. pose proof H0 as (cb & es & E)%sim_inv.
  assert (x_stoppedTorrent s0' = x_stoppedTorrent s0) as -> by by rewrite E.
  assert (x_completedTorrent s0' = x_completedTorrent s0) as -> by by rewrite E.
  destruct (x_stoppedTorrent s0); [rewrite E; by destruct (0 <? _)|].
  destruct (x_completedTorrent s0); [by apply complete_sim|].
  rewrite E. by destruct (_ && _).
Qed.

Lemma finish_sim key req s s' :
  sim s s' ->
  sim (flush_torrent env (drop_stopped key req s)) (flush_torrent env' (drop_stopped key req s')).
Proof.
  intros Hs.
  assert (sim (drop_stopped key req s) (drop_stopped key req s')) as Hd.
  { apply sim_inv in Hs as (cb & es & ->). unfold drop_stopped. unsim s cb es.
    destruct (x_stoppedTorrent s); [|done]. by destruct (0 <? _). }
  apply sim_inv in Hd as (cb & es & ->). generalize (drop_stopped key req s) as z. intros z.
  unfold flush_torrent. rewrite Hnow. unsim z cb es.
  destruct (_ || _); [|done]. by rewrite !dbExec_sim.
Qed.

Lemma session_sim w cb req user clientIP userAgent t :
  sim (session_of env w req user clientIP userAgent t)
      (session_of env' (w {{ w_CircuitBreak := cb }}) req user clientIP userAgent t).
Proof.
  unfold session_of. cbn zeta. rewrite Hnow. cbn [w_Commons w_Config w_CircuitBreak apply_update].
  apply settle_sim, record_peer_sim, write_peer_sim, update_address_sim, account_traffic_sim.
  set (key := PeerKeyPrime _ _ _). clearbody key.
  change (constant cb _) with cb.
  assert (sim (start_session t (w_CircuitBreak w) req) (start_session t cb req)) as H by done.
  apply sim_inv in H as (cb1 & es1 & ->). generalize (start_session t (w_CircuitBreak w) req) as s.
  intros s. unfold place_peer, create_seeder. unsim s cb1 es1.
  destruct (0 <? rq_Left req).
  { by destruct (findOrCreatePeer (t_Leechers (x_torrent s)) key user) as [[? ?] ?]. }
  destruct (x_completedTorrent s), (t_Leechers (x_torrent s) !! key), (t_Seeders (x_torrent s) !! key);
    try done; by destruct (findOrCreatePeer (t_Seeders (x_torrent s)) key user) as [[? ?] ?].
Qed.

Lemma final_sim w cb req user clientIP userAgent t :
  sim (final_session env w req user clientIP userAgent t)
      (final_session env' (w {{ w_CircuitBreak := cb }}) req user clientIP userAgent t).
Proof. unfold final_session. apply finish_sim, session_sim. Qed.

End Independence.

(** ** How many peers are asked for *)

Lemma dbExec_numwant env op s : x_numwant (dbExec env op s) = x_numwant s.
Proof.
  unfold dbExec. destruct (e_db env op) as [[t0 t1] ok].
  destruct (x_cb s) as [cb|]; [by destruct (Execute t0 t1 ok cb)|done].
Qed.

Lemma complete_numwant env key user ip s :
  x_numwant (complete_torrent env key user ip s) = x_numwant s.
Proof.
  unfold complete_torrent. set (s0 := dbExec env _ _).
  assert (x_numwant s0 = x_numwant s) as <- by (unfold s0; by rewrite dbExec_numwant).
  clearbody s0. set (s2 := if negb (x_inserted s0) then _ else s0).
  assert (x_numwant s2 = x_numwant s0) as <-.
  { unfold s2. destruct (negb _); [|done]. by destruct (t_Leechers (x_torrent s0) !! key). }
  clearbody s2. by destruct (x_expireToken s2).
Qed.

Lemma clamp_numwant_range limit n : 0 <= limit < 2 ^ 31 -> 0 <= clamp_numwant limit n <= limit.
Proof.
  intros Hl. unfold clamp_numwant. rewrite i32_id by (unfold in_i32; lia).
  destruct (Z.leb_spec n 0); [lia|]. destruct (Z.ltb_spec limit n); lia.
Qed.

Lemma settle_numwant env limit key user req ip s :
  0 <= limit < 2 ^ 31 ->
  let n := x_numwant (settle_event env limit key user req ip s) in
  0 <= n <= limit /\ (x_stoppedTorrent s = true -> n = 0).
Proof.
  intros Hl. pose proof (clamp_numwant_range limit (rq_NumWant req) Hl) as Hc. cbn zeta.
  unfold settle_event. set (s0 := apply_update _ s).
  assert (x_numwant s0 = clamp_numwant limit (rq_NumWant req)) as E0 by reflexivity.
  assert (x_stoppedTorrent s0 = x_stoppedTorrent s) as E1 by reflexivity. clearbody s0.
  rewrite <- E1. destruct (x_stoppedTorrent s0).
  { destruct (0 <? rq_Left req); simpl; split; lia || done. }
  split; [|done]. destruct (x_completedTorrent s0); [by rewrite complete_numwant, E0|].
  destruct (_ && _); simpl; [lia|by rewrite E0].
Qed.

(** Without a stop, the final torrent has the swarm the peers were chosen from. *)
Lemma finish_swarm env key req s :
  x_stoppedTorrent s = false ->
  let t' := x_torrent (flush_torrent env (drop_stopped key req s)) in
  t_Seeders t' = t_Seeders (x_torrent s) /\ t_Leechers t' = t_Leechers (x_torrent s).
Proof.
  intros Hs. unfold drop_stopped. rewrite Hs. unfold flush_torrent. destruct (_ || _); [|done].
  set (s0 := apply_update _ s). cbn zeta.
  assert (forall op, x_torrent (dbExec env op s0) = x_torrent s0) as ->; [|done].
  intros op. unfold dbExec. destruct (e_db env op) as [[t0 t1] ok].
  destruct (x_cb s0) as [cb|]; [by destruct (Execute t0 t1 ok cb)|done].
Qed.

Lemma choose_offers env w user req ip s peers :
  map_order (e_order env) -> (forall l, e_sort env l ≡ₚ l) ->
  choose_peers env w user req ip s = Some peers ->
  offers (x_torrent s) (u_ID user) (x_numwant s) peers.
Proof.
  intros Ho Hs. unfold choose_peers. destruct (w_PeerScorer w).
  - intros [= <-]. by apply scored_offers.
  - by apply economics_offers.
Qed.

Lemma session_stopped env w req user clientIP userAgent t :
  x_stoppedTorrent (session_of env w req user clientIP userAgent t) = stopped_of req.
Proof.
  pose proof (session_fshape env w req user clientIP userAgent t) as H. cbn zeta in H.
  unfold fshape in H. by injection H.
Qed.

Lemma recorded_stopped env commons req user ip userAgent key t cb :
  x_stoppedTorrent (record_peer env user req ip userAgent (write_peer key
    (update_address user req ip (e_now env)
       (account_traffic env commons user req (place_peer key user req (start_session t cb req))))))
  = stopped_of req.
Proof.
  set (s := record_peer _ _ _ _ _ _).
  assert (shape s = shape (place_peer key user req (start_session t cb req))) as Hsh.
  { unfold s. rewrite record_peer_shape, write_peer_shape, update_address_shape,
      account_traffic_shape; [done|].
    eapply peer_placed_shape; [|apply place_placed].
    by rewrite update_address_shape, account_traffic_shape. }
  clearbody s. rewrite place_shape in Hsh. unfold shape, shaped in Hsh.
  destruct (placed _ _ _ _) as [[[[? ?] ?] ?] [? ?]]. by injection Hsh.
Qed.

Lemma session_numwant env w req user clientIP userAgent t :
  0 <= cfg_NumWantLimit (w_Config w) < 2 ^ 31 ->
  let n := x_numwant (session_of env w req user clientIP userAgent t) in
  0 <= n <= cfg_NumWantLimit (w_Config w) /\ (stopped_of req = true -> n = 0).
Proof.
  intros Hlim. cbn zeta. unfold session_of. cbn zeta.
  match goal with |- context [settle_event ?e ?l ?k ?u ?r ?i ?s] =>
    pose proof (settle_numwant e l k u r i s Hlim) as [? H0] end.
  split; [done|]. intros Hstop. apply H0. by rewrite recorded_stopped.
Qed.

Lemma final_swarm env w req user clientIP userAgent t :
  stopped_of req = false ->
  let t' := x_torrent (final_session env w req user clientIP userAgent t) in
  let t0 := x_torrent (session_of env w req user clientIP userAgent t) in
  t_Seeders t' = t_Seeders t0 /\ t_Leechers t' = t_Leechers t0.
Proof.
  intros Hs. unfold final_session. apply finish_swarm. by rewrite session_stopped.
Qed.

#[global] Opaque session_of final_session.

Lemma final_effects env w req user clientIP userAgent t :
  let key := PeerKeyPrime (rq_PeerID req) (u_ID user) (t_ID t) in
  let commons := match w_Commons w with Some _ => true | None => false end in
  omap money (x_effects (final_session env w req user clientIP userAgent t)) =
  money_for commons (worth t user req (prev_peer key req t)).
Proof.
  pose proof (final_moved env w req user clientIP userAgent t) as H. cbn zeta in H |- *.
  revert H. generalize (final_session env w req user clientIP userAgent t) as s.
  intros s H. exact H.
Qed.

(** A swarm entry is one of the two lists'. *)
Lemma offers_swarm t t' userID n out :
  t_Seeders t' = t_Seeders t -> t_Leechers t' = t_Leechers t ->
  offers t userID n out -> offers t' userID n out.
Proof.
  intros ES EL (sel & -> & Hl & Hf). exists sel. split; [done|]. split; [done|].
  eapply Forall_impl; [exact Hf|]. intros p (H1 & H2 & H3). split; [done|]. split; [done|].
  unfold in_swarm in *. by rewrite ES, EL.
Qed.

Lemma offers_mono t userID n m out : n <= m -> offers t userID n out -> offers t userID m out.
Proof. intros Hnm (sel & -> & Hl & Hf). exists sel. split; [done|]. split; [lia|done]. Qed.

Lemma offers_none t userID out : offers t userID 0 out -> out = [].
Proof. intros (sel & -> & Hl & _). destruct sel; simpl in *; [done|lia]. Qed.
