(* ===== verification/Reaper.v ===== *)
(** * The peer reaper (tracker/reaper.go)

    One tick of the reaper over the torrent list.  [order] and [torder] are
    the iteration orders of the peer maps and of the torrent map. *)
From Stdlib Require Import String.
From S2P Require Import Prelude TrackerTypes.
Open Scope Z_scope.

Definition stale (cutoff : Z) (p : Peer) : bool :=
  negb (TimeIsZero (p_LastAnnounced p)) && (p_LastAnnounced p <? cutoff).

(** The keys of the stale peers, collected before any is deleted. *)
Definition dead_keys (order : PeerList -> list (string * Peer)) (cutoff : Z) (pl : PeerList)
    : list string :=
  (ForEach (fun key p dead => (if stale cutoff p then (dead ++ [key])%list else dead, true))
     (order pl) []).1.

Definition reapPeerList (order : PeerList -> list (string * Peer)) (cutoff : Z) (pl : PeerList)
    : PeerList * Z :=
  let dead := dead_keys order cutoff pl in
  (foldl (fun pl k => delete k pl) pl dead, Z.of_nat (length dead)).

Definition reap_torrent (order : PeerList -> list (string * Peer)) (cutoff : Z) (t : Torrent)
    : Torrent * Z :=
  let '(seeders, n1) := reapPeerList order cutoff (t_Seeders t) in
  let '(leechers, n2) := reapPeerList order cutoff (t_Leechers t) in
  (t {{ t_Seeders := seeders; t_Leechers := leechers }}, n1 + n2).
Arguments reap_torrent : simpl never.

(** [time.Duration(timeoutSec) * time.Second], then [now.Add(-timeout)]. *)
Definition reap_cutoff (now timeoutSec : Z) : Z := now + i64 (- i64 (timeoutSec * Second)).

Definition reap (order : PeerList -> list (string * Peer))
    (torder : TorrentList -> list (string * Torrent)) (now timeoutSec : Z)
    (torrents : TorrentList) (stats : Stats) : TorrentList * Stats :=
  let cutoff := reap_cutoff now timeoutSec in
  let '((torrents, totalEvicted), _) :=
    ForEach (fun h t st =>
        let '(tl, total) := st in
        let '(t', n) := reap_torrent order cutoff t in
        ((<[h := t']> tl, u64 (total + n)), true))
      (torder torrents) (torrents, 0) in
  (torrents, if 0 <? totalEvicted
             then stats {{ s_EvictedPeers ::= add64 totalEvicted }} else stats).

(** ** Lemmas *)

Lemma dead_keys_eq order cutoff pl :
  dead_keys order cutoff pl = (filter (fun kp => stale cutoff kp.2 = true) (order pl)).*1.
Proof.
  unfold dead_keys. generalize (order pl) as l. intros l.
  assert (forall acc, (ForEach (fun key p dead =>
            (if stale cutoff p then (dead ++ [key])%list else dead, true)) l acc).1 =
          (acc ++ (filter (fun kp => stale cutoff kp.2 = true) l).*1)%list) as H; [|apply H].
  induction l as [|[k p] l IH]; intros acc; simpl; [by rewrite app_nil_r|].
  rewrite IH, filter_cons. simpl. destruct (stale cutoff p) eqn:E.
  - rewrite decide_True by done. by rewrite fmap_cons, <- app_assoc.
  - by rewrite decide_False.
Qed.

Lemma delete_all_lookup (ks : list string) (pl : PeerList) k :
  foldl (fun pl k => delete k pl) pl ks !! k = if decide (k ∈ ks) then None else pl !! k.
Proof.
  revert pl. induction ks as [|k' ks IH]; intros pl; simpl; [done|]. rewrite IH.
  destruct (decide (k ∈ ks)) as [|Hn]; [by rewrite decide_True by by right|].
  destruct (decide (k = k')) as [->|].
  - rewrite lookup_delete_eq, decide_True by by left. done.
  - rewrite lookup_delete_ne by done. rewrite decide_False; [done|]. by intros [?|?]%elem_of_cons.
Qed.

Section Reap.
Context (order : PeerList -> list (string * Peer)) (Horder : map_order order).

Lemma dead_keys_elem cutoff pl k :
  k ∈ dead_keys order cutoff pl <-> exists p, pl !! k = Some p /\ stale cutoff p = true.
Proof.
  rewrite dead_keys_eq, list_elem_of_fmap. split.
  - intros ([k' p] & -> & [Hs Hin]%list_elem_of_filter).
    rewrite Horder, elem_of_map_to_list in Hin. eauto.
  - intros (p & Hp & Hs). exists (k, p). split; [done|]. apply list_elem_of_filter.
    split; [done|]. by rewrite Horder, elem_of_map_to_list.
Qed.

(** Exactly the stale peers go. *)
Lemma reapPeerList_lookup cutoff pl k :
  (reapPeerList order cutoff pl).1 !! k =
  match pl !! k with Some p => if stale cutoff p then None else Some p | None => None end.
Proof.
  unfold reapPeerList. simpl. rewrite delete_all_lookup.
  destruct (decide (k ∈ dead_keys order cutoff pl)) as [H|H].
  - apply dead_keys_elem in H as (p & -> & ->). done.
  - destruct (pl !! k) as [p|] eqn:E; [|done]. destruct (stale cutoff p) eqn:Es; [|done].
    exfalso. apply H, dead_keys_elem. eauto.
Qed.

Lemma dead_keys_NoDup cutoff pl : NoDup (dead_keys order cutoff pl).
Proof.
  rewrite dead_keys_eq. eapply sublist_NoDup; [|apply fmap_sublist, sublist_filter].
  rewrite Horder. apply NoDup_fst_map_to_list.
Qed.

Lemma delete_all_size (ks : list string) (pl : PeerList) :
  NoDup ks -> (forall k, k ∈ ks -> is_Some (pl !! k)) ->
  (size (foldl (fun pl k => delete k pl) pl ks) + length ks = size pl)%nat.
Proof.
  intros Hnd. revert pl. induction Hnd as [|k ks Hk _ IH]; intros pl Hin; simpl; [lia|].
  destruct (Hin k) as [p Hp]; [by left|].
  assert (size (foldl (fun pl k => delete k pl) (delete k pl) ks) + length ks =
          size (delete k pl))%nat as E.
  { apply IH. intros k' Hk'. rewrite lookup_delete_ne by (by intros ->). apply Hin. by right. }
  pose proof (map_size_delete_Some k pl (mk_is_Some _ _ Hp)). assert (size pl <> 0)%nat.
  { intros H0%map_size_empty_inv. subst pl. by rewrite lookup_empty in Hp. } lia.
Qed.

(** The number returned is the number of peers that went. *)
Lemma reapPeerList_count cutoff pl :
  Size (reapPeerList order cutoff pl).1 = Size pl - (reapPeerList order cutoff pl).2.
Proof.
  unfold reapPeerList, Size. simpl.
  pose proof (delete_all_size (dead_keys order cutoff pl) pl (dead_keys_NoDup cutoff pl)) as H.
  assert (forall k, k ∈ dead_keys order cutoff pl -> is_Some (pl !! k)) as Hin.
  { intros k (p & Hp & _)%dead_keys_elem. eauto. }
  specialize (H Hin). lia.
Qed.

Definition evicted (cutoff : Z) (t : Torrent) : Z := (reap_torrent order cutoff t).2.

Lemma reap_torrent_lists cutoff t :
  t_Seeders (reap_torrent order cutoff t).1 = (reapPeerList order cutoff (t_Seeders t)).1 /\
  t_Leechers (reap_torrent order cutoff t).1 = (reapPeerList order cutoff (t_Leechers t)).1.
Proof.
  unfold reap_torrent.
  by destruct (reapPeerList order cutoff (t_Seeders t)), (reapPeerList order cutoff (t_Leechers t)).
Qed.

Lemma evicted_eq cutoff t :
  evicted cutoff t = (reapPeerList order cutoff (t_Seeders t)).2 +
                     (reapPeerList order cutoff (t_Leechers t)).2.
Proof. done. Qed.

Lemma evicted_nonneg cutoff t : 0 <= evicted cutoff t.
Proof. rewrite evicted_eq. unfold reapPeerList. simpl. lia. Qed.

(** One pass over distinct keys rewrites every torrent once. *)
Lemma reap_pass cutoff (l : list (string * Torrent)) (tl : TorrentList) (n : Z) :
  NoDup l.*1 ->
  let '((tl', n'), _) := ForEach (fun h t st =>
        let '(tl, total) := st in
        let '(t', n) := reap_torrent order cutoff t in
        ((<[h := t']> tl, u64 (total + n)), true)) l (tl, u64 n) in
  n' = u64 (n + sumZ (fun ht => evicted cutoff ht.2) l) /\
  (forall h t, (h, t) ∈ l -> tl' !! h = Some (reap_torrent order cutoff t).1) /\
  (forall h, h ∉ l.*1 -> tl' !! h = tl !! h).
Proof.
  revert tl n. induction l as [|[h t] l IH]; intros tl n Hnd; cbn [ForEach].
  { rewrite sumZ_nil, Z.add_0_r. split; [done|]. split; [|done].
    intros h t Hin. by apply not_elem_of_nil in Hin. }
  rewrite fmap_cons in *. apply NoDup_cons in Hnd as [Hh Hnd].
  destruct (reap_torrent order cutoff t) as [t' n0] eqn:Er.
  assert (evicted cutoff t = n0) as En by (unfold evicted; by rewrite Er).
  replace (u64 (u64 n + n0)) with (u64 (n + n0)).
  2: { unfold u64, wrap_u. by rewrite Z.add_mod_idemp_l by lia. }
  specialize (IH (<[h := t']> tl) (n + n0) Hnd).
  destruct (ForEach _ l _) as [[tl' n'] b]. destruct IH as (H1 & H2 & H3).
  split; [|split].
  - rewrite H1, sumZ_cons. simpl. rewrite En. f_equal. lia.
  - intros h1 t1 [E|Hin]%elem_of_cons.
    + simplify_eq. rewrite H3 by done. rewrite lookup_insert_eq, Er. done.
    + by apply H2.
  - intros h1 Hn. apply not_elem_of_cons in Hn as [Hne Hn]. simpl in Hne.
    rewrite H3 by done. by rewrite lookup_insert_ne.
Qed.

Context (torder : TorrentList -> list (string * Torrent)) (Htorder : map_order torder).

Lemma reap_spec now timeoutSec torrents stats :
  let cutoff := reap_cutoff now timeoutSec in
  let n := u64 (map_sum (evicted cutoff) torrents) in
  (reap order torder now timeoutSec torrents stats).1 =
    (fun t => (reap_torrent order cutoff t).1) <$> torrents /\
  (reap order torder now timeoutSec torrents stats).2 =
    (if 0 <? n then stats {{ s_EvictedPeers ::= add64 n }} else stats).
Proof.
  cbn zeta. unfold reap. set (cutoff := reap_cutoff now timeoutSec).
  assert (NoDup (torder torrents).*1) as Hnd by (rewrite Htorder; apply NoDup_fst_map_to_list).
  pose proof (reap_pass cutoff (torder torrents) torrents 0 Hnd) as H.
  change (u64 0) with 0 in H.
  destruct (ForEach _ (torder torrents) _) as [[tl' n'] b]. destruct H as (-> & H2 & H3). simpl.
  assert (sumZ (fun ht => evicted cutoff ht.2) (torder torrents) =
          map_sum (evicted cutoff) torrents) as -> by (unfold map_sum; by rewrite Htorder).
  split; [|done]. apply map_eq. intros h. rewrite lookup_fmap.
  destruct (torrents !! h) as [t|] eqn:Eh; simpl.
  - apply H2. by rewrite Htorder, elem_of_map_to_list.
  - rewrite H3; [done|]. intros Hin. apply list_elem_of_fmap in Hin as ([h' t] & -> & Hin).
    rewrite Htorder, elem_of_map_to_list in Hin. simpl in *. congruence.
Qed.

End Reap.
