(* ===== verification/TrackerSpec.v ===== *)
(** * Properties of the announce path and of the reaper *)
From Stdlib Require Import String.
From S2P Require Import Prelude GoStr NetIP TrackerTypes CircuitBreaker Whitelist GoFloat Ml.
From S2P Require Import EconScheduler Commons PeerSelect Announce AnnounceLemmas Reaper.
Open Scope string_scope.
Open Scope list_scope.
Open Scope Z_scope.

(** ** A concrete tracker, for the witnesses *)

Definition sample_cfg : Config := mkConfig 1800 7200 50 1800.

Definition sample_user : User := mkUser 9 false true false 0 0.

Definition sample_worker : Worker :=
  mkWorker sample_cfg {[ "hash" := NewTorrent 3 ]} {[ "pass" := sample_user ]} []
    zeroStats None false None None None None.

Definition sample_env (now : Z) : AnnounceEnv :=
  mkEnv now (fun _ => (now, now, true)) map_to_list
    (mkDraws (fun _ => 0%nat) (fun _ => 0%nat) (fun _ => 0%nat) (fun _ => 0%nat)) id
    (fun _ => (now, now, now)).

Definition sample_id : list Z := bytes_of_string "-TR2940-0123456789ab".

Definition sample_announce (event : string) (up down left : Z) : AnnounceRequest :=
  mkReq "hash" sample_id 6881 up down left 0 true false event [8;8;4;4] 20 "" "".

Definition run (now : Z) (w : Worker) (req : AnnounceRequest) : option Announced :=
  Announce (sample_env now) w req (default sample_user (w_Users w !! "pass")) [1;2;3;4]
    "Transmission" "pass".

(** ** Counters *)

Definition total_seeders (tl : TorrentList) : Z := map_sum (fun t => Size (t_Seeders t)) tl.
Definition total_leechers (tl : TorrentList) : Z := map_sum (fun t => Size (t_Leechers t)) tl.

(** The global counters are the sizes of the swarms, at 32 bits. *)
Definition counters_ok (tl : TorrentList) (st : Stats) : Prop :=
  s_Seeders st = u32 (total_seeders tl) /\ s_Leechers st = u32 (total_leechers tl).

Lemma bump_u32 inc dec n : bump inc dec (u32 n) = u32 (n + b2z inc - b2z dec).
Proof.
  unfold bump, inc32, dec32, u32, wrap_u.
  destruct inc, dec; simpl b2z; cbv zeta;
    rewrite ?Z.add_mod_idemp_l by lia; rewrite ?Z.add_0_r, ?Z.sub_0_r; try done.
  - rewrite <- Z.add_assoc, Z.add_mod_idemp_l by lia.
    rewrite <- (Z.mod_add (n + 1 - 1) 1) by lia. f_equal. lia.
  - rewrite <- (Z.mod_add (n - 1) 1) by lia. f_equal. lia.
Qed.

(** [C1] Counter consistency.  Whatever the announce (started, completed,
    stopped, repeated, denied, seeder turned leecher and back), the global
    seeder and leecher counters stay equal to the total sizes of the swarms. *)
Theorem announce_counters env w req user clientIP userAgent passkey r :
  Announce env w req user clientIP userAgent passkey = Some r ->
  counters_ok (w_Torrents w) (w_Stats w) ->
  counters_ok (w_Torrents (an_worker r)) (w_Stats (an_worker r)).
Proof.
  intros [(-> & _)|(t & peers & Ht & H)]%Announce_cases Hc; [done|].
  unfold ran in H. cbn zeta in H. destruct H as (_ & -> & _).
  pose proof (final_sizes env w req user clientIP userAgent t) as [HS HL].
  generalize dependent (final_session env w req user clientIP userAgent t). intros s' HS HL.
  generalize dependent (session_of env w req user clientIP userAgent t). intros s HS HL.
  destruct Hc as [Hs Hl], w as [cfg tl us wl st]; destruct st. unfold counters_ok, total_seeders, total_leechers in *.
  simpl in *.
  rewrite !(map_sum_update _ _ _ t) by done. rewrite Hs, Hl, HS, HL, !bump_u32.
  split; f_equal; lia.
Qed.

Lemma announce_counters_witness :
  exists r, run (unixToInternal + 5) sample_worker (sample_announce "started" 0 0 700) = Some r /\
    counters_ok (w_Torrents (an_worker r)) (w_Stats (an_worker r)).
Proof.
  destruct (run (unixToInternal + 5) sample_worker (sample_announce "started" 0 0 700)) as [r|] eqn:E;
    [|vm_compute in E; discriminate E].
  exists r. split; [done|]. eapply announce_counters; [exact E|]. vm_compute. auto.
Defined.

(** The reasons for which a request is refused, each stated on the request and
    on the tracker's settings. *)
Inductive refusal (w : Worker) (now : Z) (req : AnnounceRequest) (userAgent passkey : string)
    : string -> Prop :=
| refuse_admission p acl :
    w_Admission w = Some p -> p !! rq_InfoHash req = Some acl ->
    Admission.allowAll acl = false -> passkey ∉ Admission.allow acl ->
    refusal w now req userAgent passkey "not admitted to swarm"
| refuse_compact :
    rq_Compact req = false ->
    refusal w now req userAgent passkey "your client does not support compact announces"
| refuse_peer_id :
    length (rq_PeerID req) <> 20%nat -> refusal w now req userAgent passkey "invalid peer ID"
| refuse_whitelist :
    w_Whitelist w <> [] ->
    (forall prefix rest, prefix ∈ w_Whitelist w ->
                         string_of_bytes (rq_PeerID req) <> (prefix +:+ rest)) ->
    refusal w now req userAgent passkey "your client is not on the whitelist"
| refuse_client detect reason :
    w_ClientDetector w = Some detect ->
    detect (string_of_bytes (rq_PeerID req)) userAgent = Some reason ->
    refusal w now req userAgent passkey ("client rejected: " +:+ reason)
| refuse_behaviour ad reason :
    w_AnomalyDetector w = Some ad ->
    DetectAnomaly ad now
      (mkBehavior (rq_Uploaded req) (rq_Downloaded req) (of_int 0) 0 0 [] [] now) = Some reason ->
    refusal w now req userAgent passkey ("announce rejected: " +:+ reason)
| refuse_unregistered :
    w_Torrents w !! rq_InfoHash req = None ->
    refusal w now req userAgent passkey "unregistered torrent".

Lemma has_prefix_iff s p : Whitelist.has_prefix s p = true <-> exists rest, s = (p +:+ rest).
Proof.
  revert s. induction p as [|c p IH]; intros s.
  - split; [by exists s|]. intros _. by destruct s.
  - destruct s as [|d s]; [split; [done|by intros [? [=]]]|].
    rewrite has_prefix_cons. destruct (Ascii.ascii_dec d c) as [->|Hne].
    + rewrite IH. split; intros [rest H]; exists rest; [by subst|by injection H].
    + split; [done|]. intros [rest H]. by injection H.
Qed.

(** The check stage, and the test that the torrent is known, refuse exactly
    for the reasons above. *)
Lemma check_request_refuses w now req userAgent passkey msg :
  check_request w now req userAgent passkey = Err msg -> refusal w now req userAgent passkey msg.
Proof.
  unfold check_request.
  destruct (w_Admission w) as [p|] eqn:Ep.
  1: destruct (Admission.IsAdmitted p (rq_InfoHash req) passkey) eqn:Ead; cbn [negb].
  2: { intros [= <-]. unfold Admission.IsAdmitted in Ead.
       destruct (p !! rq_InfoHash req) as [acl|] eqn:Eacl; [|done].
       destruct (Admission.allowAll acl) eqn:Eall; [done|]. apply bool_decide_eq_false in Ead.
       by eapply refuse_admission. }
  all: cbn [negb]; destruct (rq_Compact req) eqn:Ec; cbn [negb];
    [|intros [= <-]; by apply refuse_compact].
  all: destruct (Nat.eqb_spec (length (rq_PeerID req)) 20) as [El|El]; cbn [negb];
    [|intros [= <-]; by apply refuse_peer_id].
  all: destruct (Whitelist.IsAllowed (w_Whitelist w) (rq_PeerID req)) eqn:Ew; cbn [negb];
    [|intros [= <-]; apply refuse_whitelist; unfold Whitelist.IsAllowed in Ew;
      [by destruct (w_Whitelist w)|intros q rest Hq Hs; destruct (w_Whitelist w); [by apply not_elem_of_nil in Hq|];
       apply not_true_iff_false in Ew; apply Ew, existsb_exists; exists q;
       split; [by apply list_elem_of_In|apply has_prefix_iff; eauto]]].
  all: destruct (w_ClientDetector w) as [detect|] eqn:Ed; cbn [mbind option_bind];
    [destruct (detect _ _) as [reason|] eqn:Er; [intros [= <-]; by eapply refuse_client|]|].
  all: destruct (w_AnomalyDetector w) as [ad|] eqn:Ea; cbn [mbind option_bind];
    [destruct (DetectAnomaly _ _ _) as [reason'|] eqn:Er'; [intros [= <-]; by eapply refuse_behaviour|]|].
  all: done.
Qed.

Lemma check_request_passes w now req userAgent passkey msg :
  check_request w now req userAgent passkey = Ok tt -> refusal w now req userAgent passkey msg ->
  w_Torrents w !! rq_InfoHash req = None.
Proof.
  unfold check_request. intros H R.
  destruct R as [p acl Ep Eacl Eall Hk|Ec|El|Hn Hw|detect reason Ed Er|ad reason Ea Er|]; [..|done].
  - rewrite Ep in H. unfold Admission.IsAdmitted in H. rewrite Eacl, Eall in H.
    by rewrite bool_decide_false in H.
  - rewrite Ec in H. by repeat case_match.
  - rewrite (proj2 (Nat.eqb_neq _ _) El) in H. by repeat case_match.
  - assert (Whitelist.IsAllowed (w_Whitelist w) (rq_PeerID req) = false) as Ew.
    { unfold Whitelist.IsAllowed. destruct (w_Whitelist w) as [|q qs]; [done|].
      apply not_true_iff_false. intros (q' & Hq & Hp)%existsb_exists.
      apply has_prefix_iff in Hp as [rest Hp]. eapply Hw; [by apply list_elem_of_In|exact Hp]. }
    rewrite Ew in H. by repeat case_match.
  - rewrite Ed in H. cbn [mbind option_bind] in H. rewrite Er in H.
    by repeat case_match.
  - rewrite Ea in H. cbn [mbind option_bind] in H. rewrite Er in H.
    by repeat case_match.
Qed.

(** [C5] Rejected requests.  The reasons to refuse an announce are those of
    [refusal]: the admission list of the swarm leaves the passkey out, the client
    is not compact, the peer ID has not twenty bytes, a non-empty whitelist
    has no prefix of it, the client detector or the behaviour detector objects,
    the torrent is unknown.  If any of them holds, the announce answers with one
    that holds, changes nothing in memory and has no effect outside the tracker.
    If none does, the announce is carried out and counted, on a known
    torrent, and its only possible error is the late one for a user without
    the right to leech who still has bytes left. *)
Theorem announce_rejected env w req user clientIP userAgent passkey :
  let refused := refusal w (e_now env) req userAgent passkey in
  ((exists msg, refused msg) ->
   exists msg, refused msg /\
     Announce env w req user clientIP userAgent passkey = Some (mkAnnounced w user [] (Err msg))) /\
  ((forall msg, ~ refused msg) ->
   forall r, Announce env w req user clientIP userAgent passkey = Some r ->
   is_Some (w_Torrents w !! rq_InfoHash req) /\
   s_SuccAnnouncements (w_Stats (an_worker r)) = add64 1 (s_SuccAnnouncements (w_Stats w)) /\
   (if negb (u_CanLeech user) && (0 <? rq_Left req)
    then an_result r = Err "access denied, leeching forbidden"
    else exists resp, an_result r = Ok resp)).
Proof.
  cbn zeta. destruct (check_request w (e_now env) req userAgent passkey) as [[]|msg] eqn:Ec.
  2: { apply check_request_refuses in Ec as R. split; [|intros Hno; by destruct (Hno msg)].
       intros _. exists msg. split; [done|]. unfold Announce. by rewrite Ec. }
  split.
  - intros [msg R]. assert (w_Torrents w !! rq_InfoHash req = None) as Et by (by eapply check_request_passes).
    exists "unregistered torrent". split; [by apply refuse_unregistered|].
    unfold Announce. by rewrite Ec, Et.
  - intros Hno r E. destruct (w_Torrents w !! rq_InfoHash req) as [t|] eqn:Et.
    2: { destruct (Hno "unregistered torrent"). by apply refuse_unregistered. }
    split; [done|]. destruct (Announce_ran _ _ _ _ _ _ _ _ _ E Ec Et) as [peers H].
    unfold ran in H. cbn zeta in H. destruct H as (_ & -> & _ & _ & Hr).
    split; [by destruct w|]. rewrite Hr. destruct (_ && _); eauto.
Qed.

Lemma announce_rejected_witness :
  (exists msg, run 7 sample_worker ((sample_announce "" 0 0 1) {{ rq_InfoHash := "other" }}) =
               Some (mkAnnounced sample_worker sample_user [] (Err msg))) /\
  (exists r resp, run 7 sample_worker (sample_announce "" 0 0 1) = Some r /\ an_result r = Ok resp).
Proof.
  split.
  - destruct (proj1 (announce_rejected (sample_env 7) sample_worker
                ((sample_announce "" 0 0 1) {{ rq_InfoHash := "other" }}) sample_user [1;2;3;4]
                "Transmission" "pass")) as (msg & _ & E); [|by exists msg].
    exists "unregistered torrent". apply refuse_unregistered. by vm_compute.
  - destruct (run 7 sample_worker (sample_announce "" 0 0 1)) as [r|] eqn:E; [|vm_compute in E; discriminate E].
    destruct (proj2 (announce_rejected (sample_env 7) sample_worker (sample_announce "" 0 0 1) sample_user
                [1;2;3;4] "Transmission" "pass")) with (r := r) as (_ & _ & resp & Hr); [|exact E|eauto].
    intros msg R. inversion R as [p acl Ep|Ec|El|Hn|detect reason Ed|ad reason Ea|Et];
      [discriminate Ep|discriminate Ec|by apply El|by apply Hn|discriminate Ed|discriminate Ea|].
    vm_compute in Et. discriminate Et.
Defined.

(** [C2] Membership.  After an announce that ran, the peer is in the leechers if
    bytes are left and in the seeders otherwise; a stopped peer has left that
    list; every other swarm entry stays where it was; and a completed download
    is no longer a leecher. *)
Theorem announce_membership env w req user clientIP userAgent passkey r t :
  Announce env w req user clientIP userAgent passkey = Some r ->
  check_request w (e_now env) req userAgent passkey = Ok tt ->
  w_Torrents w !! rq_InfoHash req = Some t ->
  let key := PeerKeyPrime (rq_PeerID req) (u_ID user) (t_ID t) in
  let stopped := stopped_of req in
  exists t', w_Torrents (an_worker r) !! rq_InfoHash req = Some t' /\
    (0 < rq_Left req -> (key ∈ dom (t_Leechers t') <-> stopped = false)) /\
    (rq_Left req <= 0 -> (key ∈ dom (t_Seeders t') <-> stopped = false)) /\
    (completed_of req = true -> key ∉ dom (t_Leechers t')) /\
    (forall k, k <> key -> (k ∈ dom (t_Seeders t') <-> k ∈ dom (t_Seeders t)) /\
                           (k ∈ dom (t_Leechers t') <-> k ∈ dom (t_Leechers t))).
Proof.
  intros E Hc Ht key stopped. destruct (Announce_ran _ _ _ _ _ _ _ _ _ E Hc Ht) as [peers H].
  unfold ran in H. cbn zeta in H. destruct H as (_ & -> & _).
  pose proof (final_fshape env w req user clientIP userAgent t) as Hf. cbn zeta in Hf.
  fold key in Hf. unfold fshape in Hf.
  generalize dependent (final_session env w req user clientIP userAgent t). intros s' Hf.
  exists (x_torrent s'). split; [destruct w; apply lookup_insert_eq|].
  injection Hf as _ _ HS HL. rewrite HS, HL.
  pose proof (completed_excludes req) as Hx. unfold outcome. fold stopped in Hx |- *.
  assert (forall b X k, k <> key -> (k ∈ force key b X <-> k ∈ X)) as Hother
    by (intros [] X k Hk; unfold force; set_solver).
  assert (forall b X, key ∈ force key b X <-> b = true) as Hkey
    by (intros [] X; unfold force; set_solver).
  rewrite !Hkey. split; [|split; [|split]].
  - intros Hl. assert (left_of req = true) as -> by (unfold left_of; lia).
    destruct (completed_of req) eqn:Ec; [destruct (Hx eq_refl) as [Hf _]; unfold left_of in Hf; lia|].
    clear. clearbody stopped.
    destruct stopped; simpl; generalize (member key (dom (t_Leechers t))) as b; by intros [].
  - intros Hl. assert (left_of req = false) as -> by (unfold left_of; lia).
    destruct (completed_of req) eqn:Ec.
    + destruct (Hx eq_refl) as [_ ->]. clear.
      by destruct (member key (dom (t_Leechers t))), (member key (dom (t_Seeders t))).
    + clear. clearbody stopped.
      by destruct stopped, (member key (dom (t_Leechers t))), (member key (dom (t_Seeders t))).
  - intros Hcm. destruct (Hx Hcm) as [-> ->]. rewrite Hcm.
    by destruct (member _ _), (member _ _).
  - intros k Hk. by rewrite !Hother.
Qed.

Lemma announce_membership_witness :
  exists r t', run (unixToInternal + 5) sample_worker (sample_announce "" 0 0 0) = Some r /\
    w_Torrents (an_worker r) !! "hash" = Some t' /\
    PeerKeyPrime sample_id 9 3 ∈ dom (t_Seeders t').
Proof.
  destruct (run (unixToInternal + 5) sample_worker (sample_announce "" 0 0 0)) as [r|] eqn:E;
    [|vm_compute in E; discriminate E].
  destruct (announce_membership _ _ _ _ _ _ _ r (NewTorrent 3) E) as (t' & H1 & _ & H2 & _);
    [reflexivity|reflexivity|].
  exists r, t'. split; [done|]. split; [done|]. apply H2; [simpl; lia|reflexivity].
Defined.

(** ** Accounting *)

(** [C3] What is credited.  The statistics written for the user, and the
    settlement handed to the economy when there is one, carry exactly the
    growth of the client's counters since its last announce: without the
    download on a freeleech torrent or under a token, and nothing at all for a
    first or restarted announce, for counters that went backwards, or on a
    neutral torrent. *)
Theorem announce_credits env w req user clientIP userAgent passkey r t :
  Announce env w req user clientIP userAgent passkey = Some r ->
  check_request w (e_now env) req userAgent passkey = Ok tt ->
  w_Torrents w !! rq_InfoHash req = Some t ->
  let key := PeerKeyPrime (rq_PeerID req) (u_ID user) (t_ID t) in
  let commons := match w_Commons w with Some _ => true | None => false end in
  omap money (an_effects r) = money_for commons (worth t user req (prev_peer key req t)).
Proof.
  intros E Hc Ht key commons. destruct (Announce_ran _ _ _ _ _ _ _ _ _ E Hc Ht) as [peers H].
  unfold ran in H. cbn zeta in H. destruct H as (_ & _ & _ & -> & _). apply final_effects.
Qed.

(** A download in progress: 700 bytes fetched and 300 sent so far. *)
Definition busy_worker : Worker :=
  match run (unixToInternal + 5) sample_worker (sample_announce "started" 300 700 1000) with
  | Some r => an_worker r
  | None => sample_worker
  end.

Lemma announce_credits_witness :
  exists r, run (unixToInternal + 9) busy_worker (sample_announce "" 350 900 800) = Some r /\
    omap money (an_effects r) = [(false, 50, 200)].
Proof.
  destruct (run (unixToInternal + 9) busy_worker (sample_announce "" 350 900 800)) as [r|] eqn:E;
    [|vm_compute in E; discriminate E].
  exists r. split; [done|].
  destruct (w_Torrents busy_worker !! "hash") as [t|] eqn:Et; [|vm_compute in Et; discriminate Et].
  rewrite (announce_credits _ _ _ _ _ _ _ r t E); [|reflexivity|exact Et].
  vm_compute in Et. injection Et as <-. vm_compute. reflexivity.
Defined.

(** The database never matters to the client.  Whatever the writes do, and
    whether the circuit breaker lets them through or not, the answer, the
    swarms, the counters and the user are the same. *)
Theorem announce_db_independent env w req user clientIP userAgent passkey r db' cb' :
  Announce env w req user clientIP userAgent passkey = Some r ->
  exists r', Announce (env {{ e_db := db' }}) (w {{ w_CircuitBreak := cb' }}) req user clientIP
               userAgent passkey = Some r' /\
    an_result r' = an_result r /\ an_user r' = an_user r /\
    w_Torrents (an_worker r') = w_Torrents (an_worker r) /\
    w_Stats (an_worker r') = w_Stats (an_worker r).
Proof.
  set (env' := env {{ e_db := db' }}). set (w' := w {{ w_CircuitBreak := cb' }}). intros E.
  assert (check_request w' (e_now env') req userAgent passkey =
          check_request w (e_now env) req userAgent passkey) as Ec by reflexivity.
  destruct (check_request w (e_now env) req userAgent passkey) as [[]|msg] eqn:Ec'.
  2: { exists (mkAnnounced w' user [] (Err msg)). unfold Announce in E |- *. rewrite Ec' in E.
       rewrite Ec. injection E as <-. done. }
  destruct (w_Torrents w !! rq_InfoHash req) as [t|] eqn:Et.
  2: { exists (mkAnnounced w' user [] (Err "unregistered torrent")). unfold Announce in E |- *.
       rewrite Ec', Et in E. rewrite Ec. change (w_Torrents w') with (w_Torrents w). rewrite Et.
       injection E as <-. done. }
  destruct (Announce_ran _ _ _ _ _ _ _ _ _ E Ec' Et) as [peers H]. unfold ran in H. cbn zeta in H.
  pose proof (session_sim env env' eq_refl w cb' req user clientIP userAgent t) as H1.
  pose proof (final_sim env env' eq_refl w cb' req user clientIP userAgent t) as H2. fold w' in H1, H2.
  unfold Announce. rewrite Ec. change (w_Torrents w') with (w_Torrents w). rewrite Et. cbn zeta.
  generalize dependent (session_of env w req user clientIP userAgent t). intros s H H1.
  generalize dependent (final_session env w req user clientIP userAgent t). intros s' H2 H.
  apply sim_inv in H1 as (cb1 & es1 & ->). apply sim_inv in H2 as (cb2 & es2 & ->).
  destruct H as (Hp & Hw & Hu & _ & Hr).
  replace (choose_peers env' w' user req (effective_ip req clientIP) _) with (Some peers)
    by (rewrite <- Hp; reflexivity).
  eexists. split; [reflexivity|]. rewrite Hr, Hu, Hw. done.
Qed.

Lemma announce_db_independent_witness :
  exists r', Announce ((sample_env 7) {{ e_db := fun _ => (7, 7, false) }}) sample_worker
               (sample_announce "started" 0 0 700) sample_user [1;2;3;4] "Transmission" "pass" = Some r' /\
    exists resp, an_result r' = Ok resp.
Proof.
  destruct (Announce (sample_env 7) sample_worker (sample_announce "started" 0 0 700) sample_user
              [1;2;3;4] "Transmission" "pass") as [r|] eqn:E; [|vm_compute in E; discriminate E].
  destruct (announce_db_independent _ _ _ _ _ _ _ r (fun _ => (7, 7, false)) None E)
    as (r' & E' & Hr & _).
  exists r'. split; [exact E'|]. rewrite Hr. vm_compute in E. injection E as <-. simpl. eauto.
Defined.

(** [C4] The answer.  Let the configured limit on the number of peers be at
    least 0 and below 2^31, and let map iteration and sorting permute what they
    are given.  A successful announce then reports the sizes of the final swarm
    (at 32 bits), a minimal interval that is the configured one (at 32 bits), an
    interval that is the larger of it and of the one for the size of the swarm
    (600 s below ten peers, 1200 s below a hundred, 2400 s from there), and the
    addresses of at most the configured number of visible peers of other users
    in that swarm; a stopped client gets none. *)
Theorem announce_answer env w req user clientIP userAgent passkey r t resp :
  map_order (e_order env) -> (forall l, e_sort env l ≡ₚ l) ->
  0 <= cfg_NumWantLimit (w_Config w) < 2 ^ 31 ->
  Announce env w req user clientIP userAgent passkey = Some r ->
  check_request w (e_now env) req userAgent passkey = Ok tt ->
  w_Torrents w !! rq_InfoHash req = Some t -> an_result r = Ok resp ->
  exists t', w_Torrents (an_worker r) !! rq_InfoHash req = Some t' /\
    rs_Complete resp = i32 (Size (t_Seeders t')) /\
    rs_Incomplete resp = i32 (Size (t_Leechers t')) /\
    (let base := i32 (cfg_AnnounceInterval (w_Config w)) in
     let total := i64 (Size (t_Seeders t') + Size (t_Leechers t')) in
     rs_MinInterval resp = base /\
     rs_Interval resp =
       Z.max base (if total <? 10 then 600 else if total <? 100 then 1200 else 2400)) /\
    offers t' (u_ID user) (cfg_NumWantLimit (w_Config w)) (rs_Peers resp) /\
    (stopped_of req = true -> rs_Peers resp = []).
Proof.
  intros Ho Hs Hlim E Hc Ht Hok. destruct (Announce_ran _ _ _ _ _ _ _ _ _ E Hc Ht) as [peers H].
  unfold ran in H. cbn zeta in H. destruct H as (Hp & -> & _ & _ & Hr).
  rewrite Hok in Hr. destruct (_ && _); [done|]. injection Hr as ->.
  apply choose_offers in Hp; [|done|done].
  destruct (session_numwant env w req user clientIP userAgent t Hlim) as [Hn Hn0].
  pose proof (final_swarm env w req user clientIP userAgent t) as Hsw. cbn zeta in Hsw.
  generalize dependent (session_of env w req user clientIP userAgent t). intros s Hp Hn Hn0 Hsw.
  clear Hok E. generalize dependent (final_session env w req user clientIP userAgent t). intros s' Hsw.
  exists (x_torrent s'). split; [destruct w; apply lookup_insert_eq|].
  split; [done|]. split; [done|]. split; [|split].
  - unfold respond. cbn zeta. split; [done|]. simpl rs_Interval. unfold AdaptiveInterval. cbn zeta.
    destruct (_ <? 10); [|destruct (_ <? 100)]; case_match; lia.
  - simpl. destruct (stopped_of req).
    + rewrite Hn0 in Hp by done. apply offers_none in Hp as ->. apply offers_nil.
    + destruct (Hsw eq_refl) as [ES EL]. eapply offers_swarm; [done|done|].
      eapply offers_mono; [|exact Hp]. lia.
  - intros Hstop. rewrite Hn0 in Hp by done. simpl. by apply offers_none in Hp.
Qed.

Lemma announce_answer_witness :
  exists r resp t', run (unixToInternal + 9) busy_worker (sample_announce "" 350 900 800) = Some r /\
    an_result r = Ok resp /\ w_Torrents (an_worker r) !! "hash" = Some t' /\
    rs_Incomplete resp = i32 (Size (t_Leechers t')).
Proof.
  destruct (run (unixToInternal + 9) busy_worker (sample_announce "" 350 900 800)) as [r|] eqn:E;
    [|vm_compute in E; discriminate E].
  destruct (an_result r) as [resp|] eqn:Er; [|vm_compute in E; injection E as <-; discriminate Er].
  destruct (w_Torrents busy_worker !! "hash") as [t|] eqn:Et; [|vm_compute in Et; discriminate Et].
  destruct (announce_answer (sample_env (unixToInternal + 9)) busy_worker
              (sample_announce "" 350 900 800) (default sample_user (w_Users busy_worker !! "pass"))
              [1;2;3;4] "Transmission" "pass" r t resp) as (t' & H1 & _ & H2 & _);
    [intros m; done|intros l; done|vm_compute; done|exact E|reflexivity|exact Et|exact Er|].
  exists r, resp, t'. auto.
Defined.

(** ** Addresses *)

(** A hidden peer stays hidden.  Once a peer has announced from a private
    or non-IPv4 address its invalid mark is never cleared: a later announce
    from a public IPv4 address stores the address and gives no warning, but
    the peer remains invisible to every other client. *)
Theorem invalid_ip_sticky user req ip now s :
  p_InvalidIP (x_peer s) = true -> x_invalidIP s = false -> x_inserted s = false ->
  ValidateIPNotPrivate ip = true -> CompactIPPort ip (rq_Port req) <> [] ->
  IPEqual (p_IP (x_peer s)) ip = false ->
  let s' := update_address user req ip now s in
  p_IP (x_peer s') = ip /\ p_IPPort (x_peer s') = CompactIPPort ip (rq_Port req) /\
  x_invalidIP s' = false /\ p_InvalidIP (x_peer s') = true /\ p_Visible (x_peer s') = false.
Proof.
  intros Hinv Hx Hins Hv Hc Hip. cbn zeta. unfold update_address. rewrite Hv. simpl negb. cbv iota.
  destruct s as [t p]; destruct p. simpl in *. subst. rewrite Hip, orb_true_r.
  destruct (CompactIPPort ip (rq_Port req)) as [|b bs]; [done|]. simpl.
  unfold peerIsVisible. simpl. by rewrite andb_false_r.
Qed.

Definition hidden_session : Session :=
  (start_session (NewTorrent 3) None (sample_announce "" 0 0 0))
    {{ x_peer -> p_InvalidIP := true }}.

Lemma invalid_ip_sticky_witness :
  p_Visible (x_peer (update_address sample_user (sample_announce "" 0 0 0) [8;8;4;4] 7 hidden_session))
  = false.
Proof. apply (invalid_ip_sticky sample_user (sample_announce "" 0 0 0) [8;8;4;4] 7); done. Defined.

(** The behaviour detector and downloads.  The handler never fills in the
    torrent's size, so with the behaviour detector enabled every announce that
    reports any downloaded bytes (and no implausible upload) is rejected as an
    impossible download. *)
Theorem detector_rejects_downloads w now req userAgent passkey :
  w_AnomalyDetector w = Some NewAnomalyDetector -> w_ClientDetector w = None ->
  w_Admission w = None -> rq_Compact req = true -> length (rq_PeerID req) = 20%nat ->
  Whitelist.IsAllowed (w_Whitelist w) (rq_PeerID req) = true ->
  rq_Uploaded req <= 100000000000 -> 0 < rq_Downloaded req ->
  check_request w now req userAgent passkey = Err "announce rejected: impossible_download".
Proof.
  intros H1 H2 H3 H4 H5 H6 H7 H8. unfold check_request. rewrite H3, H4, H5, H6, H2, H1. simpl.
  unfold DetectAnomaly. cbn [b_UploadSpeed b_Uploaded b_Downloaded b_AnnounceCount b_PortHistory
    b_ConnectionTimes b_TorrentSize ad_maxUploadSpeed NewAnomalyDetector].
  rewrite (proj2 (Z.ltb_ge 100000000000 (rq_Uploaded req))) by lia.
  change (fltb (of_int 1000000000) (of_int 0)) with false. cbv iota. simpl.
  change (i64 (0 * 2)) with 0. by rewrite (proj2 (Z.ltb_lt _ _) H8).
Qed.

Lemma detector_rejects_downloads_witness :
  check_request (sample_worker {{ w_AnomalyDetector := Some NewAnomalyDetector }}) 7
    (sample_announce "" 0 1 700) "Transmission" "pass" =
  Err "announce rejected: impossible_download".
Proof. apply detector_rejects_downloads; vm_compute; done. Defined.

(** ** The reaper *)

(** The reaper removes exactly the stale peers: every torrent keeps the
    peers that announced since the cutoff (or never did) and no others, and
    the eviction counter grows by the number removed. *)
Theorem reap_exact order torder now timeoutSec torrents stats h k :
  map_order order -> map_order torder ->
  let cutoff := reap_cutoff now timeoutSec in
  let '(torrents', stats') := reap order torder now timeoutSec torrents stats in
  let keep (p : option Peer) := p ≫= fun p => if stale cutoff p then None else Some p in
  (torrents' !! h) ≫= (fun t => t_Seeders t !! k) =
    keep ((torrents !! h) ≫= (fun t => t_Seeders t !! k)) /\
  (torrents' !! h) ≫= (fun t => t_Leechers t !! k) =
    keep ((torrents !! h) ≫= (fun t => t_Leechers t !! k)) /\
  (let removed := total_seeders torrents - total_seeders torrents' +
                  (total_leechers torrents - total_leechers torrents') in
   0 <= removed < 2 ^ 64 -> in_u64 (s_EvictedPeers stats) ->
   s_EvictedPeers stats' = add64 removed (s_EvictedPeers stats)).
Proof.
  intros Ho Hto cutoff. destruct (reap_spec order torder Hto now timeoutSec torrents stats) as [H1 H2].
  fold cutoff in H1, H2. destruct (reap order torder now timeoutSec torrents stats) as [torrents' stats'].
  cbn [fst snd] in H1, H2. subst torrents' stats'. cbn zeta. rewrite !lookup_fmap.
  assert (forall t, Size (t_Seeders (reap_torrent order cutoff t).1) +
                    Size (t_Leechers (reap_torrent order cutoff t).1) =
                    Size (t_Seeders t) + Size (t_Leechers t) - evicted order cutoff t) as Hsz.
  { intros t. rewrite evicted_eq. destruct (reap_torrent_lists order cutoff t) as [-> ->].
    rewrite !(reapPeerList_count order Ho). lia. }
  split; [|split].
  - destruct (torrents !! h) as [t|]; [|done]. simpl.
    transitivity ((reapPeerList order cutoff (t_Seeders t)).1 !! k); [reflexivity|].
    rewrite (reapPeerList_lookup order Ho).
    by destruct (t_Seeders t !! k).
  - destruct (torrents !! h) as [t|]; [|done]. simpl.
    transitivity ((reapPeerList order cutoff (t_Leechers t)).1 !! k); [reflexivity|].
    rewrite (reapPeerList_lookup order Ho).
    by destruct (t_Leechers t !! k).
  - unfold total_seeders, total_leechers. rewrite !map_sum_fmap. cbv beta.
    assert (map_sum (fun t => Size (t_Seeders t)) torrents
            - map_sum (fun t => Size (t_Seeders (reap_torrent order cutoff t).1)) torrents
            + (map_sum (fun t => Size (t_Leechers t)) torrents
               - map_sum (fun t => Size (t_Leechers (reap_torrent order cutoff t).1)) torrents)
            = map_sum (evicted order cutoff) torrents) as ->.
    { unfold map_sum. generalize (map_to_list torrents) as l. intros l.
      induction l as [|[k' t] l IH]; [done|]. rewrite !sumZ_cons. cbn [snd]. specialize (Hsz t). lia. }
    intros Hr Hs. rewrite (u64_id (map_sum _ _)) by done.
    destruct (Z.ltb_spec 0 (map_sum (evicted order cutoff) torrents)) as [|Hz]; [done|].
    unfold add64. replace (map_sum (evicted order cutoff) torrents) with 0 by lia.
    rewrite Z.add_0_r, u64_id; done.
Qed.

Definition stale_torrents : TorrentList :=
  {[ "hash" := (NewTorrent 3) {{ t_Seeders := {[ "old" := (zeroPeer 5) {{ p_LastAnnounced := 1 }};
                                                "new" := (zeroPeer 6) {{ p_LastAnnounced := 8000 * Second }} ]} }} ]}.

Lemma reap_exact_witness :
  s_EvictedPeers (reap map_to_list map_to_list (8000 * Second) 7200 stale_torrents zeroStats).2 = 1.
Proof.
  pose proof (reap_exact map_to_list map_to_list (8000 * Second) 7200 stale_torrents zeroStats
                "hash" "old") as H.
  specialize (H ltac:(intros m; done) ltac:(intros m; done)). cbn zeta in H.
  destruct (reap _ _ _ _ _ _) as [t' s'] eqn:E. destruct H as (_ & _ & H).
  cbn [snd]. vm_compute in E. injection E as Et _. subst t'.
  rewrite H; [vm_compute; reflexivity|vm_compute; split; done..].
Defined.

(** Drift.  The reaper does not touch the seeder and leecher counters: if
    they matched the swarms before and a tick removes any seeder, they no
    longer do afterwards, and no announce repairs them. *)
Theorem reap_drift order torder now timeoutSec torrents stats :
  map_order torder -> counters_ok torrents stats ->
  let '(torrents', stats') := reap order torder now timeoutSec torrents stats in
  s_Seeders stats' = s_Seeders stats /\ s_Leechers stats' = s_Leechers stats /\
  (0 < total_seeders torrents - total_seeders torrents' < 2 ^ 32 ->
   ~ counters_ok torrents' stats').
Proof.
  intros Hto [Hs _]. destruct (reap_spec order torder Hto now timeoutSec torrents stats) as [_ H2].
  destruct (reap order torder now timeoutSec torrents stats) as [torrents' stats']. simpl in H2.
  assert (s_Seeders stats' = s_Seeders stats /\ s_Leechers stats' = s_Leechers stats) as [E1 E2].
  { subst stats'. by destruct (0 <? _). }
  split; [done|]. split; [done|]. intros Hr [Hs' _]. rewrite E1, Hs in Hs'.
  unfold u32, wrap_u in Hs'.
  assert ((total_seeders torrents - total_seeders torrents') mod 2 ^ 32 = 0) as H0.
  { rewrite Zminus_mod, Hs', <- Zminus_mod, Z.sub_diag. done. }
  rewrite Z.mod_small in H0 by lia. lia.
Qed.

Definition stale_stats : Stats := zeroStats {{ s_Seeders := 2 }}.

Lemma reap_drift_witness :
  s_Seeders (reap map_to_list map_to_list (8000 * Second) 7200 stale_torrents stale_stats).2 = 2 /\
  total_seeders (reap map_to_list map_to_list (8000 * Second) 7200 stale_torrents stale_stats).1 = 1.
Proof.
  pose proof (reap_drift map_to_list map_to_list (8000 * Second) 7200 stale_torrents stale_stats) as H.
  specialize (H ltac:(intros m; done) ltac:(vm_compute; auto)).
  destruct (reap _ _ _ _ _ _) as [t' s'] eqn:E. cbn [fst snd]. destruct H as (H & _ & _).
  split; [exact H|]. vm_compute in E. injection E as <- _. vm_compute. reflexivity.
Defined.
