(* ===== verification/TrackerDB.v ===== *)
(** * The tracker's database tables and the loader (tracker/db_sqlite.go,
      tracker/loader.go)

    The tables that the admin panel writes and the loader reads back.  A table
    with a unique column besides its primary key is a map from the key;
    INSERT OR REPLACE removes the rows that conflict on either.  Each
    statement is atomic; the boolean [fail] arguments are database failures.
    Row order is unspecified: [order] arguments list a map in some order. *)
From Stdlib Require Import String.
From S2P Require Import Prelude TrackerTypes Whitelist.
Open Scope string_scope.
Open Scope Z_scope.

Record TorrentRow := mkTorrentRow {
  tr_seeders : Z;
  tr_leechers : Z;
  tr_snatched : Z;
  tr_balance : Z;
  tr_free_type : Z
}.

Record PasskeyRow := mkPasskeyRow {
  pr_passkey : string;
  pr_can_leech : bool;
  pr_protect_ip : bool
}.

Record TDB := mkTDB {
  td_torrents : gmap Z TorrentRow;
  td_hashes : gmap Z string;
  td_passkeys : gmap Z PasskeyRow;
  td_whitelist : list string;
  td_tokens : gmap (Z * Z) Z
}.

Definition emptyTDB : TDB := mkTDB ∅ ∅ ∅ [] ∅.

(** ** Writes *)

(** [free_type] is not among the columns written. *)
Definition db_RecordTorrent (id seeders leechers snatched balance : Z) (db : TDB) : TDB :=
  let old := td_torrents db !! id in
  db {{ td_torrents ::= <[id := mkTorrentRow seeders leechers
                            (from_option tr_snatched 0 old + snatched) balance
                            (from_option tr_free_type 0 old)]> }}.

Definition db_RecordTorrentHash (id : Z) (infoHash : string) (db : TDB) : TDB :=
  db {{ td_hashes ::= fun m => <[id := infoHash]> (filter (fun kv => kv.2 <> infoHash) m) }}.

Definition db_RecordUserPasskey (id : Z) (passkey : string) (canLeech protectIP : bool) (db : TDB)
    : TDB :=
  db {{ td_passkeys ::= fun m => <[id := mkPasskeyRow passkey canLeech protectIP]>
                                  (filter (fun kv => pr_passkey kv.2 <> passkey) m) }}.

Definition db_DeleteTorrentHash (infoHash : string) (db : TDB) : TDB :=
  db {{ td_hashes ::= filter (fun kv => kv.2 <> infoHash) }}.

Definition db_DeleteUserPasskey (passkey : string) (db : TDB) : TDB :=
  db {{ td_passkeys ::= filter (fun kv => pr_passkey kv.2 <> passkey) }}.

Definition db_AddWhitelistEntry (prefix : string) (db : TDB) : TDB :=
  db {{ td_whitelist ::= fun l => if decide (prefix ∈ l) then l else (l ++ [prefix])%list }}.

Definition db_RemoveWhitelistEntry (prefix : string) (db : TDB) : TDB :=
  db {{ td_whitelist ::= filter (fun p => p <> prefix) }}.

Definition db_RecordToken (userID torrentID downloaded : Z) (db : TDB) : TDB :=
  db {{ td_tokens ::= fun m =>
          <[(userID, torrentID) := default 0 (m !! (userID, torrentID)) + downloaded]> m }}.

Definition db_DeleteToken (userID torrentID : Z) (db : TDB) : TDB :=
  db {{ td_tokens ::= delete (userID, torrentID) }}.

(** ** Reads *)

Record torrentLoadRow := mkTLoad {
  tl_id : Z;
  tl_infoHash : string;
  tl_completed : Z;
  tl_balance : Z;
  tl_freeType : Z
}.

Record userLoadRow := mkULoad {
  ul_id : Z;
  ul_passkey : string;
  ul_canLeech : bool;
  ul_protectIP : bool
}.

(** [rows.Scan] into uint32 and uint8 destinations fails out of range. *)
Definition scannable (r : torrentLoadRow) : bool :=
  (0 <=? tl_id r) && (tl_id r <? 2 ^ 32) && (0 <=? tl_completed r) && (tl_completed r <? 2 ^ 32) &&
  (0 <=? tl_freeType r) && (tl_freeType r <? 2 ^ 8).

Definition join_row (db : TDB) (id : Z) (infoHash : string) : option torrentLoadRow :=
  t ← td_torrents db !! id;
  Some (mkTLoad id infoHash (tr_snatched t) (tr_balance t) (tr_free_type t)).

Definition LoadTorrents (order : gmap Z string -> list (Z * string)) (fail : bool) (db : TDB)
    : result unit (list torrentLoadRow) :=
  let rows := omap (fun '(id, h) => join_row db id h) (order (td_hashes db)) in
  if fail then Err tt else if forallb scannable rows then Ok rows else Err tt.

Definition LoadUsers (order : gmap Z PasskeyRow -> list (Z * PasskeyRow)) (fail : bool) (db : TDB)
    : result unit (list userLoadRow) :=
  let rows := (fun '(id, r) => mkULoad id (pr_passkey r) (pr_can_leech r) (pr_protect_ip r))
                <$> order (td_passkeys db) in
  if fail then Err tt
  else if forallb (fun r => (0 <=? ul_id r) && (ul_id r <? 2 ^ 32)) rows then Ok rows else Err tt.

Definition LoadWhitelist (fail : bool) (db : TDB) : result unit (list string) :=
  if fail then Err tt else Ok (td_whitelist db).

(** Tokens joined with the hashes: the pairs, in some order. *)
Definition LoadTokens (order : gmap (Z * Z) Z -> list ((Z * Z) * Z)) (fail : bool) (db : TDB)
    : result unit (list (string * Z)) :=
  if fail then Err tt
  else Ok (omap (fun '((uid, tid), _) => h ← td_hashes db !! tid; Some (h, uid))
             (order (td_tokens db))).

(** ** The loader *)

Record Orders := mkOrders {
  o_hashes : gmap Z string -> list (Z * string);
  o_passkeys : gmap Z PasskeyRow -> list (Z * PasskeyRow);
  o_tokens : gmap (Z * Z) Z -> list ((Z * Z) * Z)
}.

Record Memory := mkMemory {
  m_torrents : TorrentList;
  m_users : UserList;
  m_whitelist : Whitelist.t
}.

Inductive load_step := StepTorrents | StepUsers | StepWhitelist | StepTokens.

Definition loaded_torrent (r : torrentLoadRow) (t : Torrent) : Torrent :=
  t {{ t_Completed := tl_completed r; t_Balance := tl_balance r; t_FreeType := tl_freeType r }}.

Definition load_torrent (tl : TorrentList) (r : torrentLoadRow) : TorrentList :=
  <[tl_infoHash r := loaded_torrent r (NewTorrent (tl_id r))]> tl.

Definition load_user (ul : UserList) (r : userLoadRow) : UserList :=
  <[ul_passkey r := NewUser (ul_id r) (ul_canLeech r) (ul_protectIP r)]> ul.

Definition load_token (tl : TorrentList) (hu : string * Z) : TorrentList :=
  match tl !! hu.1 with
  | Some t => <[hu.1 := t {{ t_TokenedUsers ::= fun us => {[hu.2]} ∪ us }}]> tl
  | None => tl
  end.

(** [loadWhitelist] and [loadTokens], the last two stages of every load. *)
Definition load_rest (o : Orders) (fails : load_step -> bool) (db : TDB) (m : Memory)
    : Memory * result load_step unit :=
  match LoadWhitelist (fails StepWhitelist) db with
  | Err _ => (m, Err StepWhitelist)
  | Ok prefixes =>
      let m := m {{ m_whitelist := Whitelist.Reset (Some prefixes) }} in
      match LoadTokens (o_tokens o) (fails StepTokens) db with
      | Err _ => (m, Err StepTokens)
      | Ok tokens => (m {{ m_torrents ::= fun tl => foldl load_token tl tokens }}, Ok tt)
      end
  end.

(** An early error leaves what was loaded before it. *)
Definition LoadAll (o : Orders) (fails : load_step -> bool) (db : TDB) (m : Memory)
    : Memory * result load_step unit :=
  match LoadTorrents (o_hashes o) (fails StepTorrents) db with
  | Err _ => (m, Err StepTorrents)
  | Ok tRows =>
      let m := m {{ m_torrents ::= fun tl => foldl load_torrent tl tRows }} in
      match LoadUsers (o_passkeys o) (fails StepUsers) db with
      | Err _ => (m, Err StepUsers)
      | Ok uRows =>
          let m := m {{ m_users ::= fun ul => foldl load_user ul uRows }} in
          load_rest o fails db m
      end
  end.

(** ** Merging reload: metadata of existing entries is updated, new entries
    are added, nothing is removed *)

Definition merge_torrent (tl : TorrentList) (r : torrentLoadRow) : TorrentList :=
  match tl !! tl_infoHash r with
  | Some existing => <[tl_infoHash r := loaded_torrent r existing]> tl
  | None => load_torrent tl r
  end.

Definition merge_user (ul : UserList) (r : userLoadRow) : UserList :=
  match ul !! ul_passkey r with
  | Some existing =>
      <[ul_passkey r := existing {{ u_CanLeech := ul_canLeech r; u_ProtectIP := ul_protectIP r }}]> ul
  | None => load_user ul r
  end.

Definition Reload (o : Orders) (fails : load_step -> bool) (db : TDB) (m : Memory)
    : Memory * result load_step unit :=
  match LoadTorrents (o_hashes o) (fails StepTorrents) db with
  | Err _ => (m, Err StepTorrents)
  | Ok tRows =>
      let m := m {{ m_torrents ::= fun tl => foldl merge_torrent tl tRows }} in
      match LoadUsers (o_passkeys o) (fails StepUsers) db with
      | Err _ => (m, Err StepUsers)
      | Ok uRows =>
          let m := m {{ m_users ::= fun ul => foldl merge_user ul uRows }} in
          load_rest o fails db m
      end
  end.

(** ** Reload with eviction

    The eviction pass walks the list under its read lock and calls [Delete],
    which takes the write lock of the same mutex: the goroutine then waits for
    itself.  [evict] is [None] when that happens. *)

Inductive RWMutex := Unlocked | ReadLocked | WriteLocked.

Definition Lock (mu : RWMutex) : option RWMutex :=
  match mu with Unlocked => Some WriteLocked | _ => None end.

Definition DeleteLocked {A} (mu : RWMutex) (m : gmap string A) (k : string)
    : option (gmap string A) :=
  _ ← Lock mu; Some (delete k m).

Fixpoint evict {A} (mu : RWMutex) (live : list string) (keys : list string) (m : gmap string A)
    : option (gmap string A) :=
  match keys with
  | [] => Some m
  | k :: keys' =>
      if decide (k ∈ live) then evict mu live keys' m
      else m' ← DeleteLocked mu m k; evict mu live keys' m'
  end.

Definition ReloadWithEviction (o : Orders) (torder : TorrentList -> list (string * Torrent))
    (uorder : UserList -> list (string * User)) (fails : load_step -> bool) (db : TDB) (m : Memory)
    : option (Memory * result load_step unit) :=
  match LoadTorrents (o_hashes o) (fails StepTorrents) db with
  | Err _ => Some (m, Err StepTorrents)
  | Ok tRows =>
      let m := m {{ m_torrents ::= fun tl => foldl merge_torrent tl tRows }} in
      torrents ← evict ReadLocked (tl_infoHash <$> tRows) (torder (m_torrents m)).*1 (m_torrents m);
      let m := m {{ m_torrents := torrents }} in
      match LoadUsers (o_passkeys o) (fails StepUsers) db with
      | Err _ => Some (m, Err StepUsers)
      | Ok uRows =>
          let m := m {{ m_users ::= fun ul => foldl merge_user ul uRows }} in
          users ← evict ReadLocked (ul_passkey <$> uRows) (uorder (m_users m)).*1 (m_users m);
          Some (load_rest o fails db (m {{ m_users := users }}))
      end
  end.
