(* ===== verification/Update.v ===== *)
(** * Administrative updates (tracker/update.go)

    Every action of [HandleUpdate], on the in-memory lists, the database
    tables and the economy.  [q] is the query's [Get]: the first value of a
    parameter, or the empty string.  [dberr] gives the text of the error with
    which a database write fails, or [None].  The audit log and the JSON
    encoding of the reply are left out: a reply is [Ok] with the optional
    message or [Err] with the error text.

    The economy is used through an interface: the operations of
    [CommonsInterface] that updates call, on a state of any type. *)
From Stdlib Require Import String.
From S2P Require Import Prelude GoStr Credit Price TrackerTypes Whitelist TrackerDB Ledger Commons.
Open Scope string_scope.
Open Scope Z_scope.

(** What the tracker calls in the economy: the administrative writes, and the
    settlement of an announce, which can panic. *)
Class CommonsAdmin (C : Type) := {
  ca_SetUserPriority : Z -> Z -> C -> C * option string;
  ca_SetUserBudget : Z -> Z -> Z -> C -> C * option string;
  ca_SettleAnnounce : AnnounceStats -> C -> option C
}.

Record AdminState (C : Type) := mkAdmin {
  a_mem : Memory;
  a_db : TDB;
  a_commons : option C
}.
Arguments mkAdmin {C}. Arguments a_mem {C}. Arguments a_db {C}. Arguments a_commons {C}.

Inductive AdminWrite :=
| WRecordTorrent (id : Z) | WRecordTorrentHash (id : Z) (infoHash : string)
| WDeleteTorrentHash (infoHash : string)
| WRecordUserPasskey (id : Z) (passkey : string) | WDeleteUserPasskey (passkey : string)
| WAddWhitelist (prefix : string) | WRemoveWhitelist (prefix : string).

Abbreviation Reply := (result string (option string)).

Section Update.
Context {C : Type} `{CommonsAdmin C}.
Context (q : string -> string) (dberr : AdminWrite -> option string).
Implicit Types (s : AdminState C).

Definition with_mem (f : Memory -> Memory) s : AdminState C := mkAdmin (f (a_mem s)) (a_db s) (a_commons s).
Definition with_db (f : TDB -> TDB) s : AdminState C := mkAdmin (a_mem s) (f (a_db s)) (a_commons s).

Definition get_torrent s (h : string) : option Torrent := m_torrents (a_mem s) !! h.
Definition set_torrent (h : string) (t : Torrent) : AdminState C -> AdminState C :=
  with_mem (fun m => m {{ m_torrents ::= <[h := t]> }}).

(** [strconv.Atoi] that must give a positive number. *)
Definition positive_id (text : string) : option Z :=
  match Atoi text with
  | Some id => if 0 <? id then Some id else None
  | None => None
  end.

Definition addTorrent s : AdminState C * Reply :=
  match positive_id (q "id") with
  | None => (s, Err "Invalid torrent_id")
  | Some id =>
      let infoHash := q "info_hash" in
      if String.eqb infoHash "" then (s, Err "Missing info_hash")
      else
        match get_torrent s infoHash with
        | Some _ => (s, Err "Torrent already exists")
        | None =>
            let freeType := default 0 (Atoi (q "free_type")) in
            match dberr (WRecordTorrent (u32 id)) with
            | Some e => (s, Err ("DB error recording torrent: " ++ e))
            | None =>
                let s := with_db (db_RecordTorrent (u32 id) 0 0 0 0) s in
                match dberr (WRecordTorrentHash (u32 id) infoHash) with
                | Some e => (s, Err ("DB error recording torrent hash: " ++ e))
                | None =>
                    let s := with_db (db_RecordTorrentHash (u32 id) infoHash) s in
                    let torrent := (NewTorrent (u32 id)) {{ t_FreeType := u8 freeType }} in
                    (set_torrent infoHash torrent s, Ok (Some ("Added torrent " ++ dec id)))
                end
            end
        end
  end.

Definition updateTorrent s : AdminState C * Reply :=
  let infoHash := q "info_hash" in
  if String.eqb infoHash "" then (s, Err "Missing info_hash")
  else
    match get_torrent s infoHash with
    | None => (s, Err "torrent not found")
    | Some torrent =>
        let torrent :=
          match Atoi (q "free_type") with
          | Some n => if (0 <=? n) && (n <=? 2) then torrent {{ t_FreeType := u8 n }} else torrent
          | None => torrent
          end in
        (set_torrent infoHash torrent s, Ok (Some ("Updated torrent " ++ infoHash)))
    end.

(** The first torrent with the id in the iteration order of the map. *)
Definition find_hash (torder : TorrentList -> list (string * Torrent)) s (id : Z) : option string :=
  fst <$> List.find (fun '(_, t) => t_ID t =? u32 id) (torder (m_torrents (a_mem s))).

Definition delete_by_id (torder : TorrentList -> list (string * Torrent)) s : AdminState C * Reply :=
  match positive_id (q "id") with
  | None => (s, Err "Invalid torrent id")
  | Some id =>
      let found := find_hash torder s id in
      let s := match found with
               | Some h => with_mem (fun m => m {{ m_torrents ::= delete h }}) s
               | None => s
               end in
      if String.eqb (default "" found) "" then (s, Err "Torrent not found")
      else
        let foundHash := default "" found in
        match dberr (WDeleteTorrentHash foundHash) with
        | Some e => (s, Err ("DB error deleting torrent hash: " ++ e))
        | None => (with_db (db_DeleteTorrentHash foundHash) s,
                   Ok (Some ("Deleted torrent " ++ dec id)))
        end
  end.

Definition deleteTorrent (torder : TorrentList -> list (string * Torrent)) s
    : AdminState C * Reply :=
  let infoHash := q "info_hash" in
  if String.eqb infoHash "" && String.eqb (q "id") "" then (s, Err "Missing info_hash or id")
  else if String.eqb infoHash "" then delete_by_id torder s
  else
    match dberr (WDeleteTorrentHash infoHash) with
    | Some e => (s, Err ("DB error deleting torrent hash: " ++ e))
    | None =>
        (with_mem (fun m => m {{ m_torrents ::= delete infoHash }})
           (with_db (db_DeleteTorrentHash infoHash) s),
         Ok (Some ("Deleted torrent " ++ infoHash)))
    end.

Definition freeTypeNames (ft : Z) : string :=
  if ft =? 0 then "normal" else if ft =? 1 then "free" else "neutral".

Definition changeFreeleech s : AdminState C * Reply :=
  let infoHash := q "info_hash" in
  if String.eqb infoHash "" then (s, Err "Missing info_hash")
  else
    match get_torrent s infoHash with
    | None => (s, Err "torrent not found")
    | Some torrent =>
        match Atoi (q "free_type") with
        | Some ft =>
            if (0 <=? ft) && (ft <=? 2) then
              (set_torrent infoHash (torrent {{ t_FreeType := u8 ft }}) s,
               Ok (Some ("Set torrent to " ++ freeTypeNames ft)))
            else (s, Err "Invalid free_type (0=normal, 1=free, 2=neutral)")
        | None => (s, Err "Invalid free_type (0=normal, 1=free, 2=neutral)")
        end
    end.

(** ** Users *)

Definition get_user s (pk : string) : option User := m_users (a_mem s) !! pk.
Definition set_user (pk : string) (u : User) : AdminState C -> AdminState C :=
  with_mem (fun m => m {{ m_users ::= <[pk := u]> }}).

Definition addUser s : AdminState C * Reply :=
  match positive_id (q "id") with
  | None => (s, Err "Invalid user_id")
  | Some id =>
      let passkey := q "passkey" in
      if String.eqb passkey "" then (s, Err "Missing passkey")
      else if negb (String.length passkey =? 32)%nat then (s, Err "Passkey must be 32 characters")
      else
        match get_user s passkey with
        | Some _ => (s, Err "Passkey already exists")
        | None =>
            let canLeech := negb (String.eqb (q "can_leech") "0") in
            let protectIP := String.eqb (q "protect_ip") "1" in
            match dberr (WRecordUserPasskey (u32 id) passkey) with
            | Some e => (s, Err ("DB error recording user passkey: " ++ e))
            | None =>
                (set_user passkey (NewUser (u32 id) canLeech protectIP)
                   (with_db (db_RecordUserPasskey (u32 id) passkey canLeech protectIP) s),
                 Ok (Some ("Added user " ++ dec id)))
            end
        end
  end.

Definition updateUser s : AdminState C * Reply :=
  let passkey := q "passkey" in
  if String.eqb passkey "" then (s, Err "Missing passkey")
  else
    match get_user s passkey with
    | None => (s, Err "User not found")
    | Some user =>
        let newCanLeech := if String.eqb (q "can_leech") "" then u_CanLeech user
                           else negb (String.eqb (q "can_leech") "0") in
        let newProtectIP := if String.eqb (q "protect_ip") "" then u_ProtectIP user
                            else String.eqb (q "protect_ip") "1" in
        match dberr (WRecordUserPasskey (u_ID user) passkey) with
        | Some e => (s, Err ("DB error updating user passkey: " ++ e))
        | None =>
            (set_user passkey (user {{ u_CanLeech := newCanLeech; u_ProtectIP := newProtectIP }})
               (with_db (db_RecordUserPasskey (u_ID user) passkey newCanLeech newProtectIP) s),
             Ok (Some ("Updated user " ++ dec (u_ID user))))
        end
    end.

Definition removeUser s : AdminState C * Reply :=
  let passkey := q "passkey" in
  if String.eqb passkey "" then (s, Err "Missing passkey")
  else
    match get_user s passkey with
    | None => (s, Err "User not found")
    | Some user =>
        match dberr (WDeleteUserPasskey passkey) with
        | Some e => (s, Err ("DB error deleting user passkey: " ++ e))
        | None =>
            (with_mem (fun m => m {{ m_users ::= delete passkey }})
               (with_db (db_DeleteUserPasskey passkey) s),
             Ok (Some ("Removed user " ++ dec (u_ID user))))
        end
    end.

Definition changePasskey s : AdminState C * Reply :=
  let oldPasskey := q "old_passkey" in
  let newPasskey := q "new_passkey" in
  if String.eqb oldPasskey "" || String.eqb newPasskey ""
  then (s, Err "Missing old_passkey or new_passkey")
  else
    match get_user s oldPasskey with
    | None => (s, Err "User not found")
    | Some user =>
        match get_user s newPasskey with
        | Some _ => (s, Err "New passkey already exists")
        | None =>
            match dberr (WRecordUserPasskey (u_ID user) newPasskey) with
            | Some e => (s, Err ("DB error recording new passkey: " ++ e))
            | None =>
                let s := with_db (db_RecordUserPasskey (u_ID user) newPasskey (u_CanLeech user)
                                    (u_ProtectIP user)) s in
                match dberr (WDeleteUserPasskey oldPasskey) with
                | Some e => (s, Err ("DB error deleting old passkey: " ++ e))
                | None =>
                    let s := with_db (db_DeleteUserPasskey oldPasskey) s in
                    (with_mem (fun m => m {{ m_users ::= fun us =>
                                              <[newPasskey := user]> (delete oldPasskey us) }}) s,
                     Ok (Some ("Changed passkey for user " ++ dec (u_ID user))))
                end
            end
        end
    end.

(** ** Tokens and whitelist *)

Definition token_user : option Z :=
  positive_id (if String.eqb (q "user_id") "" then q "id" else q "user_id").

Definition addToken s : AdminState C * Reply :=
  match token_user with
  | None => (s, Err "Invalid user_id")
  | Some id =>
      let infoHash := q "info_hash" in
      if String.eqb infoHash "" then (s, Err "Missing info_hash")
      else
        match get_torrent s infoHash with
        | None => (s, Err "torrent not found")
        | Some t =>
            (set_torrent infoHash (t {{ t_TokenedUsers ::= fun us => {[u32 id]} ∪ us }}) s,
             Ok (Some ("Added token for user " ++ dec id)))
        end
  end.

Definition removeToken s : AdminState C * Reply :=
  match token_user with
  | None => (s, Err "Invalid user_id")
  | Some id =>
      let infoHash := q "info_hash" in
      if String.eqb infoHash "" then (s, Err "Missing info_hash")
      else
        match get_torrent s infoHash with
        | None => (s, Err "torrent not found")
        | Some t =>
            (set_torrent infoHash (t {{ t_TokenedUsers ::= fun us => us ∖ {[u32 id]} }}) s,
             Ok (Some ("Removed token for user " ++ dec id)))
        end
  end.

Definition addWhitelist s : AdminState C * Reply :=
  let prefix := q "prefix" in
  if String.eqb prefix "" then (s, Err "Missing prefix")
  else
    match dberr (WAddWhitelist prefix) with
    | Some e => (s, Err ("DB error adding whitelist entry: " ++ e))
    | None =>
        (with_mem (fun m => m {{ m_whitelist ::= fun wl => Whitelist.Add wl prefix }})
           (with_db (db_AddWhitelistEntry prefix) s),
         Ok (Some ("Added whitelist prefix: " ++ prefix)))
    end.

Definition removeWhitelist s : AdminState C * Reply :=
  let prefix := q "prefix" in
  if String.eqb prefix "" then (s, Err "Missing prefix")
  else
    match dberr (WRemoveWhitelist prefix) with
    | Some e => (s, Err ("DB error removing whitelist entry: " ++ e))
    | None =>
        (with_mem (fun m => m {{ m_whitelist ::= fun wl => Whitelist.Remove wl prefix }})
           (with_db (db_RemoveWhitelistEntry prefix) s),
         Ok (Some ("Removed whitelist prefix: " ++ prefix)))
    end.

(** ** Economy *)

Definition with_commons (c : C) s : AdminState C := mkAdmin (a_mem s) (a_db s) (Some c).

Definition setPriorityClass s : AdminState C * Reply :=
  match a_commons s with
  | None => (s, Err "compute commons not enabled")
  | Some c =>
      if String.eqb (q "id") "" then (s, Err "missing id")
      else
        match ParseUint (q "id") 32 with
        | None => (s, Err "invalid id")
        | Some id =>
            if id =? 0 then (s, Err "invalid id")
            else if String.eqb (q "priority_class") "" then (s, Err "missing priority_class")
            else
              match Atoi (q "priority_class") with
              | None => (s, Err "invalid priority_class")
              | Some pc =>
                  if negb (IsValid pc) then (s, Err ("priority_class must be 0–3, got " ++ dec pc))
                  else
                    match ca_SetUserPriority id pc c with
                    | (c', Some e) => (with_commons c' s, Err e)
                    | (c', None) => (with_commons c' s, Ok None)
                    end
              end
        end
  end.

Definition setBudget s : AdminState C * Reply :=
  match a_commons s with
  | None => (s, Err "compute commons not enabled")
  | Some c =>
      if String.eqb (q "id") "" then (s, Err "missing id")
      else
        match ParseUint (q "id") 32 with
        | None => (s, Err "invalid id")
        | Some id =>
            if id =? 0 then (s, Err "invalid id")
            else if String.eqb (q "max_credits") "" then (s, Err "missing max_credits")
            else
              match ParseInt (q "max_credits") 64 with
              | None => (s, Err "invalid max_credits")
              | Some maxCredits =>
                  if maxCredits <? 0 then (s, Err "invalid max_credits")
                  else
                    let tid := if String.eqb (q "torrent_id") "" then Some 0
                               else ParseUint (q "torrent_id") 32 in
                    match tid with
                    | None => (s, Err "invalid torrent_id")
                    | Some torrentID =>
                        match ca_SetUserBudget id torrentID maxCredits c with
                        | (c', Some e) => (with_commons c' s, Err e)
                        | (c', None) => (with_commons c' s, Ok None)
                        end
                    end
              end
        end
  end.

(** ** Dispatch *)

Definition HandleUpdate (torder : TorrentList -> list (string * Torrent)) s : AdminState C * Reply :=
  let action := q "action" in
  if String.eqb action "add_torrent" then addTorrent s
  else if String.eqb action "update_torrent" then updateTorrent s
  else if String.eqb action "delete_torrent" then deleteTorrent torder s
  else if String.eqb action "change_freeleech" then changeFreeleech s
  else if String.eqb action "add_user" then addUser s
  else if String.eqb action "update_user" then updateUser s
  else if String.eqb action "remove_user" then removeUser s
  else if String.eqb action "change_passkey" then changePasskey s
  else if String.eqb action "add_token" then addToken s
  else if String.eqb action "remove_token" then removeToken s
  else if String.eqb action "add_whitelist" then addWhitelist s
  else if String.eqb action "remove_whitelist" then removeWhitelist s
  else if String.eqb action "set_priority_class" then setPriorityClass s
  else if String.eqb action "set_budget" then setBudget s
  else (s, Err ("Unknown action: " ++ action)).

End Update.

(** The real economy implements the interface; [env] supplies the clock and
    the failures of its database, [text] the error texts, [pt] the prices and
    [eu], [ed] what the two settlements of an announce read.  Here nothing comes
    between the statements of one call; [Commons.commons_step] has every order. *)
Definition CommonsAdmin_DB (now : Z) (fails : nat -> bool) (text : admin_error -> string)
    (eu ed : Env) (pt : PriceTable) : CommonsAdmin DB :=
  {| ca_SetUserPriority uid pc db :=
       match SetUserPriority (fails 0%nat) (fails 1%nat) now db uid pc with
       | (db', Ok _) => (db', None)
       | (db', Err e) => (db', Some (text e))
       end;
     ca_SetUserBudget uid tid mc db :=
       match SetUserBudget (fails 2%nat) (fails 3%nat) db uid tid mc with
       | (db', Ok _) => (db', None)
       | (db', Err e) => (db', Some (text e))
       end;
     ca_SettleAnnounce st db := fst <$> SettleAnnounce eu ed db pt st |}.
