(* ===== verification/UpdateSpec.v ===== *)
(** * Properties of the administrative updates, the tables and the loader *)
From Stdlib Require Import String.
From S2P Require Import Prelude GoStr TrackerTypes Whitelist TrackerDB Update.
Open Scope string_scope.
Open Scope Z_scope.

(** ** Memory mirrors the tables *)

Definition users_mirror (ul : UserList) (db : TDB) : Prop :=
  forall pk id cl pi,
    (exists u, ul !! pk = Some u /\ u_ID u = id /\ u_CanLeech u = cl /\ u_ProtectIP u = pi) <->
    td_passkeys db !! id = Some (mkPasskeyRow pk cl pi).

Definition torrents_mirror (tl : TorrentList) (db : TDB) : Prop :=
  (forall h id, (exists t, tl !! h = Some t /\ t_ID t = id) <-> td_hashes db !! id = Some h) /\
  (forall id h, td_hashes db !! id = Some h -> is_Some (td_torrents db !! id)).

Definition mirrors (m : Memory) (db : TDB) : Prop :=
  users_mirror (m_users m) db /\ torrents_mirror (m_torrents m) db /\
  m_whitelist m = td_whitelist db /\ m_torrents m !! "" = None.

(** Storing a user of a fresh id, or the user that has the id, under a passkey. *)
Lemma users_mirror_set ul db pk u :
  users_mirror ul db ->
  (forall pk' u', ul !! pk' = Some u' -> u_ID u' = u_ID u -> pk' = pk) ->
  users_mirror (<[pk := u]> ul)
    (db_RecordUserPasskey (u_ID u) pk (u_CanLeech u) (u_ProtectIP u) db).
Proof.
  intros Hm Huniq pk' id cl pi. simpl. split.
  - intros (u' & Hu & <- & <- & <-). destruct (decide (pk' = pk)) as [->|Hne].
    + rewrite lookup_insert_eq in Hu. simplify_eq. by rewrite lookup_insert_eq.
    + rewrite lookup_insert_ne in Hu by done. rewrite lookup_insert_ne.
      * apply map_lookup_filter_Some. split; [|simpl; done]. apply Hm. eauto.
      * intros E. apply Hne. by apply (Huniq pk' u').
  - intros [[<- ?]|[Hid [Hrow Hpk]%map_lookup_filter_Some]]%lookup_insert_Some.
    + simplify_eq. exists u. by rewrite lookup_insert_eq.
    + simpl in Hpk. apply Hm in Hrow as (u' & Hu & <- & <- & <-).
      exists u'. by rewrite lookup_insert_ne.
Qed.

Lemma users_mirror_unique ul db pk pk' u u' :
  users_mirror ul db -> ul !! pk = Some u -> ul !! pk' = Some u' -> u_ID u = u_ID u' -> pk = pk'.
Proof.
  intros Hm H1 H2 E.
  assert (td_passkeys db !! u_ID u = Some (mkPasskeyRow pk (u_CanLeech u) (u_ProtectIP u))) as R1
    by (apply Hm; eauto).
  assert (td_passkeys db !! u_ID u' = Some (mkPasskeyRow pk' (u_CanLeech u') (u_ProtectIP u'))) as R2
    by (apply Hm; eauto).
  rewrite E, R2 in R1. by simplify_eq.
Qed.

Lemma users_mirror_delete ul db pk :
  users_mirror ul db -> users_mirror (delete pk ul) (db_DeleteUserPasskey pk db).
Proof.
  intros Hm pk' id cl pi. simpl. rewrite map_lookup_filter_Some. simpl. rewrite <- (Hm pk' id cl pi).
  split.
  - intros (u & [Hne Hu]%lookup_delete_Some & H). split; [eauto|by intros ->].
  - intros [(u & Hu & H) Hne]. exists u. split; [|done]. by apply lookup_delete_Some.
Qed.

Lemma torrents_mirror_add tl db id h t sd lc sn bal :
  torrents_mirror tl db -> tl !! h = None -> t_ID t = id ->
  (forall h' t', tl !! h' = Some t' -> t_ID t' <> id) ->
  torrents_mirror (<[h := t]> tl)
    (db_RecordTorrentHash id h (db_RecordTorrent id sd lc sn bal db)).
Proof.
  intros [Hm Hrow] Hnone <- Hfresh. split; simpl.
  - intros h' id'. split.
    + intros (t' & [[<- <-]|[Hne Ht]]%lookup_insert_Some & <-); [by rewrite lookup_insert_eq|].
      rewrite lookup_insert_ne by (intros E; by apply (Hfresh h' t')).
      apply map_lookup_filter_Some. split; [apply Hm; eauto|simpl; congruence].
    + intros [[<- <-]|[Hid [Hr Hne]%map_lookup_filter_Some]]%lookup_insert_Some.
      * exists t. by rewrite lookup_insert_eq.
      * apply Hm in Hr as (t' & Ht & <-). exists t'. simpl in Hne. by rewrite lookup_insert_ne.
  - intros id' h' [[<- _]|[_ [Hr _]%map_lookup_filter_Some]]%lookup_insert_Some.
    + rewrite lookup_insert_eq. eauto.
    + apply Hrow in Hr. destruct (decide (id' = t_ID t)) as [->|].
      * rewrite lookup_insert_eq. eauto.
      * by rewrite lookup_insert_ne.
Qed.

Lemma torrents_mirror_delete tl db h :
  torrents_mirror tl db -> torrents_mirror (delete h tl) (db_DeleteTorrentHash h db).
Proof.
  intros [Hm Hrow]. split; simpl.
  - intros h' id. rewrite map_lookup_filter_Some. simpl. rewrite <- (Hm h' id). split.
    + intros (t & [Hne Ht]%lookup_delete_Some & H). split; [eauto|congruence].
    + intros [(t & Ht & H) Hne]. exists t. split; [|done]. apply lookup_delete_Some. done.
  - intros id h' [Hr _]%map_lookup_filter_Some. by eapply Hrow.
Qed.

(** Changing a torrent's other fields. *)
Lemma torrents_mirror_update tl db h t t' :
  torrents_mirror tl db -> tl !! h = Some t -> t_ID t' = t_ID t ->
  torrents_mirror (<[h := t']> tl) db.
Proof.
  intros [Hm Hrow] Ht Hid. split; [|done]. intros h' id. rewrite <- (Hm h' id). split.
  - intros (x & [[<- <-]|[Hne Hx]]%lookup_insert_Some & <-); [exists t; auto|eauto].
  - intros (x & Hx & <-). destruct (decide (h = h')) as [<-|].
    + simplify_eq. exists t'. by rewrite lookup_insert_eq.
    + exists x. by rewrite lookup_insert_ne.
Qed.

(** ** Every action keeps the mirror *)

Section Mirror.
Context {C : Type} `{CommonsAdmin C} (q : string -> string) (dberr : AdminWrite -> option string).
Context (Hdb : forall w, dberr w = None).
Implicit Types (s : AdminState C).

Definition ok s : Prop := mirrors (a_mem s) (a_db s).

(** The id of a new user or torrent is not in use. *)
Definition fresh_user s : Prop :=
  forall id pk u, positive_id (q "id") = Some id -> m_users (a_mem s) !! pk = Some u ->
                  u_ID u <> u32 id.
Definition fresh_torrent s : Prop :=
  forall id h t, positive_id (q "id") = Some id -> m_torrents (a_mem s) !! h = Some t ->
                 t_ID t <> u32 id.

Ltac mem := unfold ok, mirrors, with_mem, with_db, set_torrent, set_user, get_torrent, get_user in *; simpl in *.

Lemma addTorrent_ok s : fresh_torrent s -> ok s -> ok (addTorrent q dberr s).1.
Proof.
  intros Hf (Hu & Ht & Hw & He). unfold addTorrent.
  destruct (positive_id (q "id")) as [id|] eqn:Hid; [|done].
  destruct (String.eqb_spec (q "info_hash") ""); [done|].
  destruct (get_torrent s (q "info_hash")) eqn:Hg; [done|].
  rewrite !Hdb. mem. split; [done|]. split; [|by rewrite lookup_insert_ne].
  apply torrents_mirror_add; [done|done|done|]. intros h' t' E. by eapply Hf.
Qed.

Lemma set_torrent_ok s h t t' :
  ok s -> get_torrent s h = Some t -> t_ID t' = t_ID t -> ok (set_torrent h t' s).
Proof.
  intros (Hu & Ht & Hw & He) Hg Hid. mem. split; [done|]. split.
  - by eapply torrents_mirror_update.
  - split; [done|]. rewrite lookup_insert_ne; [done|]. intros ->. congruence.
Qed.

Lemma updateTorrent_ok s : ok s -> ok (updateTorrent q s).1.
Proof.
  intros Hs. unfold updateTorrent. destruct (String.eqb _ _); [done|].
  destruct (get_torrent s (q "info_hash")) as [t|] eqn:Hg; [|done].
  eapply set_torrent_ok; [done|exact Hg|]. destruct (Atoi _); [|done]. by destruct (_ && _).
Qed.

Lemma changeFreeleech_ok s : ok s -> ok (changeFreeleech q s).1.
Proof.
  intros Hs. unfold changeFreeleech. destruct (String.eqb _ _); [done|].
  destruct (get_torrent s (q "info_hash")) as [t|] eqn:Hg; [|done].
  destruct (Atoi _); [|done]. destruct (_ && _); [|done]. by eapply set_torrent_ok.
Qed.

Lemma delete_torrent_ok s h :
  ok s -> ok (with_mem (fun m => m {{ m_torrents ::= delete h }}) (with_db (db_DeleteTorrentHash h) s)).
Proof.
  intros (Hu & Ht & Hw & He). mem. split; [done|]. split; [by apply torrents_mirror_delete|].
  split; [done|]. by rewrite lookup_delete_None; right.
Qed.

Lemma deleteTorrent_ok torder s : map_order torder -> ok s -> ok (deleteTorrent q dberr torder s).1.
Proof.
  intros Ho Hs. unfold deleteTorrent. destruct (_ && _); [done|].
  destruct (String.eqb (q "info_hash") ""); [|rewrite Hdb; by apply delete_torrent_ok].
  unfold delete_by_id. destruct (positive_id (q "id")) as [id|]; [|done].
  destruct (find_hash torder s id) as [h|] eqn:Hf; simpl; [|done].
  destruct (String.eqb_spec h "") as [->|Hne].
  - exfalso. unfold find_hash in Hf. apply fmap_Some in Hf as ([h t] & Hf & E). simpl in E. subst h.
    apply List.find_some in Hf as [Hin _]. apply list_elem_of_In in Hin.
    rewrite Ho, elem_of_map_to_list in Hin. destruct Hs as (_ & _ & _ & He). congruence.
  - rewrite Hdb. by apply (delete_torrent_ok s h).
Qed.

Lemma addUser_ok s : fresh_user s -> ok s -> ok (addUser q dberr s).1.
Proof.
  intros Hf (Hu & Ht & Hw & He). unfold addUser.
  destruct (positive_id (q "id")) as [id|] eqn:Hid; [|done].
  destruct (String.eqb _ _); [done|]. destruct (negb (_ =? _)%nat); [done|].
  destruct (get_user s (q "passkey")); [done|]. rewrite Hdb. mem. split; [|done].
  apply (users_mirror_set (m_users (a_mem s)) (a_db s) (q "passkey") (NewUser (u32 id) _ _)); [done|].
  intros pk' u' E Eid. exfalso. by eapply Hf.
Qed.

Lemma updateUser_ok s : ok s -> ok (updateUser q dberr s).1.
Proof.
  intros (Hu & Ht & Hw & He). unfold updateUser. destruct (String.eqb _ _); [done|].
  destruct (get_user s (q "passkey")) as [u|] eqn:Hg; [|done]. rewrite Hdb.
  match goal with |- ok (set_user ?pk ?u' _, _).1 => pose proof (users_mirror_set _ _ pk u' Hu) as Hset end.
  mem. split; [|done]. apply Hset. intros pk' u' E Eid. by eapply users_mirror_unique.
Qed.

Lemma removeUser_ok s : ok s -> ok (removeUser q dberr s).1.
Proof.
  intros (Hu & Ht & Hw & He). unfold removeUser. destruct (String.eqb _ _); [done|].
  destruct (get_user s (q "passkey")) as [u|] eqn:Hg; [|done]. rewrite Hdb. mem. split; [|done].
  by apply users_mirror_delete.
Qed.

(** Moving a user to another passkey: the row is replaced, then the old
    passkey is deleted from what is left. *)
Lemma changePasskey_ok s : ok s -> ok (changePasskey q dberr s).1.
Proof.
  intros (Hu & Ht & Hw & He). unfold changePasskey. destruct (_ || _); [done|].
  destruct (get_user s (q "old_passkey")) as [u|] eqn:Hg; [|done].
  destruct (get_user s (q "new_passkey")) as [u'|] eqn:Hn; [done|]. rewrite !Hdb. mem. split; [|done].
  set (old := q "old_passkey") in *. set (new := q "new_passkey") in *.
  assert (old <> new) as Hne by congruence.
  intros pk id cl pi. simpl. rewrite map_lookup_filter_Some. simpl. split.
  - intros (x & [[<- <-]|[Hpk [Hold Hx]%lookup_delete_Some]]%lookup_insert_Some & <- & <- & <-).
    + by rewrite lookup_insert_eq.
    + split; [|done]. rewrite lookup_insert_ne.
      * apply map_lookup_filter_Some. split; [apply Hu; eauto|simpl; congruence].
      * intros E. apply Hold. by eapply users_mirror_unique.
  - intros [[[<- E]|[Hid [Hr Hpk]%map_lookup_filter_Some]]%lookup_insert_Some Ho].
    + simplify_eq. exists u. by rewrite lookup_insert_eq.
    + apply Hu in Hr as (x & Hx & <- & <- & <-). exists x. simpl in Hpk.
      rewrite lookup_insert_ne by congruence. rewrite lookup_delete_ne by congruence. done.
Qed.

Lemma addToken_ok s : ok s -> ok (addToken q s).1.
Proof.
  intros Hs. unfold addToken. destruct (token_user q); [|done]. destruct (String.eqb _ _); [done|].
  destruct (get_torrent s (q "info_hash")) as [t|] eqn:Hg; [|done]. by eapply set_torrent_ok.
Qed.

Lemma removeToken_ok s : ok s -> ok (removeToken q s).1.
Proof.
  intros Hs. unfold removeToken. destruct (token_user q); [|done]. destruct (String.eqb _ _); [done|].
  destruct (get_torrent s (q "info_hash")) as [t|] eqn:Hg; [|done]. by eapply set_torrent_ok.
Qed.

Lemma Whitelist_Add_table wl p :
  Whitelist.Add wl p = if decide (p ∈ wl) then wl else (wl ++ [p])%list.
Proof.
  unfold Whitelist.Add. destruct (existsb _ _) eqn:E; case_decide as Hin; try done; exfalso.
  - apply existsb_exists in E as (x & Hx & ->%String.eqb_eq). by apply Hin, list_elem_of_In.
  - rewrite <- not_true_iff_false, existsb_exists in E. apply E. exists p.
    split; [by apply list_elem_of_In|apply String.eqb_refl].
Qed.

Lemma whitelist_ok s :
  ok s -> ok (addWhitelist q dberr s).1 /\ ok (removeWhitelist q dberr s).1.
Proof.
  intros (Hu & Ht & Hw & He). unfold addWhitelist, removeWhitelist.
  destruct (String.eqb _ _); [done|]. rewrite !Hdb.
  destruct s as [[tl ul wl] [] c]. mem. subst.
  by rewrite Whitelist_Add_table.
Qed.

Lemma commons_ok s : ok s -> ok (setPriorityClass q s).1 /\ ok (setBudget q s).1.
Proof.
  intros Hs. unfold setPriorityClass, setBudget, ok, with_commons.
  split; repeat case_match; done.
Qed.

End Mirror.


(** ** Sequences of updates *)

Section Sequences.
Context {C : Type} `{CommonsAdmin C}.
Context (torder : TorrentList -> list (string * Torrent)).

(** [fresh q s]: an [add_user] or [add_torrent] uses an id that is not taken. *)
Definition fresh (q : string -> string) (s : AdminState C) : Prop :=
  (q "action" = "add_user" -> fresh_user q s) /\
  (q "action" = "add_torrent" -> fresh_torrent q s).

(** [updates dberr s s']: some sequence of updates leads from [s] to [s']. *)
Inductive updates (dberr : AdminWrite -> option string) : AdminState C -> AdminState C -> Prop :=
| updates_nil s : updates dberr s s
| updates_cons q s s' :
    fresh q s -> updates dberr (HandleUpdate q dberr torder s).1 s' -> updates dberr s s'.

Lemma HandleUpdate_ok q dberr s :
  map_order torder -> (forall w, dberr w = None) -> fresh q s -> ok s ->
  ok (HandleUpdate q dberr torder s).1.
Proof.
  intros Ho Hdb [Hfu Hft] Hs. unfold HandleUpdate.
  destruct (String.eqb_spec (q "action") "add_torrent"); [apply addTorrent_ok; auto|].
  destruct (String.eqb _ _); [by apply updateTorrent_ok|].
  destruct (String.eqb _ _); [by apply deleteTorrent_ok|].
  destruct (String.eqb _ _); [by apply changeFreeleech_ok|].
  destruct (String.eqb_spec (q "action") "add_user"); [apply addUser_ok; auto|].
  destruct (String.eqb _ _); [by apply updateUser_ok|].
  destruct (String.eqb _ _); [by apply removeUser_ok|].
  destruct (String.eqb _ _); [by apply changePasskey_ok|].
  destruct (String.eqb _ _); [by apply addToken_ok|].
  destruct (String.eqb _ _); [by apply removeToken_ok|].
  destruct (String.eqb _ _); [by apply whitelist_ok|].
  destruct (String.eqb _ _); [by apply whitelist_ok|].
  destruct (String.eqb _ _); [by apply commons_ok|].
  destruct (String.eqb _ _); [by apply commons_ok|done].
Qed.

(** No row carries a free type. *)
Definition no_free_types (db : TDB) : Prop :=
  map_Forall (fun _ r => tr_free_type r = 0) (td_torrents db).

Lemma no_free_types_record id sd lc sn bal db :
  no_free_types db -> no_free_types (db_RecordTorrent id sd lc sn bal db).
Proof.
  intros Hn. apply map_Forall_insert_2; [|done]. simpl.
  destruct (td_torrents db !! id) as [r|] eqn:E; [|done]. simpl. by apply Hn in E.
Qed.

Lemma HandleUpdate_no_free q dberr s :
  no_free_types (a_db s) -> no_free_types (a_db (HandleUpdate q dberr torder s).1).
Proof.
  intros Hn. pose proof (no_free_types_record) as Hrec.
  unfold HandleUpdate, addTorrent, updateTorrent, deleteTorrent, delete_by_id, changeFreeleech,
    addUser, updateUser, removeUser, changePasskey, addToken, removeToken, addWhitelist,
    removeWhitelist, setPriorityClass, setBudget.
  repeat case_match; try done; apply Hrec, Hn.
Qed.

End Sequences.

(** ** Loading the tables into empty memory *)

Definition emptyMemory : Memory := mkMemory ∅ ∅ [].

Lemma foldl_insert_lookup {A B} (key : A -> string) (val : A -> B) (rows : list A) k v :
  (forall r r', r ∈ rows -> r' ∈ rows -> key r = key r' -> r = r') ->
  foldl (fun (m : gmap string B) r => <[key r := val r]> m) ∅ rows !! k = Some v <->
  exists r, r ∈ rows /\ key r = k /\ val r = v.
Proof.
  induction rows as [|x rows IH] using rev_ind; intros Huniq.
  - simpl. rewrite lookup_empty. split; [done|]. intros (r & Hr & _). set_solver.
  - rewrite foldl_app. simpl. rewrite lookup_insert_Some, IH by (intros; apply Huniq; set_solver).
    split.
    + intros [[<- <-]|[Hne (r & Hr & H)]]; [exists x|exists r]; set_solver.
    + intros (r & [Hr| ->%list_elem_of_singleton]%elem_of_app & <- & <-); [|by left].
      destruct (decide (key x = key r)) as [E|]; [|right; eauto].
      left. split; [done|]. f_equal. apply Huniq; set_solver.
Qed.

(** Tokens change nothing but the tokened users. *)
Definition untoken (t : Torrent) : Torrent := t {{ t_TokenedUsers := ∅ }}.

Lemma load_tokens_untoken tokens tl : untoken <$> foldl load_token tl tokens = untoken <$> tl.
Proof.
  revert tl. induction tokens as [|[h u] tokens IH]; intros tl; simpl; [done|]. rewrite IH.
  unfold load_token. simpl. destruct (tl !! h) as [t|] eqn:E; [|done].
  rewrite fmap_insert. apply insert_id. rewrite lookup_fmap, E. done.
Qed.

Lemma load_tokens_users tokens tl h t uid :
  foldl load_token tl tokens !! h = Some t ->
  uid ∈ t_TokenedUsers t <->
  (h, uid) ∈ tokens \/ exists t0, tl !! h = Some t0 /\ uid ∈ t_TokenedUsers t0.
Proof.
  revert tl. induction tokens as [|[h' u] tokens IH]; intros tl; simpl.
  - intros Ht. split; [eauto|]. intros [?|(t0 & E & ?)]; [set_solver|]. congruence.
  - intros Ht. rewrite (IH _ Ht), elem_of_cons. unfold load_token. simpl.
    destruct (tl !! h') as [t'|] eqn:E.
    + destruct (decide (h' = h)) as [->|Hne].
      * rewrite lookup_insert_eq. split.
        -- intros [?|(t0 & [= <-] & Hin)]; [auto|]. simpl in Hin.
           apply elem_of_union in Hin as [->%elem_of_singleton|?]; [auto|]. right. eauto.
        -- intros [[[= ->]|?]|(t0 & ? & Hin)]; [right|by left|right]; eexists; (split; [done|]);
             simpl; simplify_eq; set_solver.
      * rewrite lookup_insert_ne by done. split; [intros [?|?]; auto|]. intros [[[= ]|?]|?]; auto. congruence.
    + split; [intros [?|?]; auto|]. intros [[[= -> ->]|?]|?]; auto.
      exfalso. assert (is_Some ((untoken <$> foldl load_token (load_token tl (h', u)) tokens) !! h')) as [x Hx].
      { rewrite lookup_fmap, Ht. eauto. }
      rewrite load_tokens_untoken, lookup_fmap in Hx. unfold load_token in Hx. simpl in Hx.
      rewrite E in Hx. simpl in Hx. rewrite E in Hx. done.
Qed.

Definition orders (o : Orders) : Prop :=
  (forall m, o_hashes o m ≡ₚ map_to_list m) /\ (forall m, o_passkeys o m ≡ₚ map_to_list m) /\
  (forall m, o_tokens o m ≡ₚ map_to_list m).

(** Every value that the loader scans fits its destination. *)
Definition readable (db : TDB) : Prop :=
  (forall id h r, td_hashes db !! id = Some h -> td_torrents db !! id = Some r ->
    scannable (mkTLoad id h (tr_snatched r) (tr_balance r) (tr_free_type r)) = true) /\
  (forall id r, td_passkeys db !! id = Some r -> 0 <= id < 2 ^ 32).

Definition torrent_rows (o : Orders) (db : TDB) : list torrentLoadRow :=
  omap (fun '(id, h) => join_row db id h) (o_hashes o (td_hashes db)).
Definition user_rows (o : Orders) (db : TDB) : list userLoadRow :=
  (fun '(id, r) => mkULoad id (pr_passkey r) (pr_can_leech r) (pr_protect_ip r))
    <$> o_passkeys o (td_passkeys db).

Lemma torrent_rows_spec o db r :
  orders o -> r ∈ torrent_rows o db <->
  exists row, td_hashes db !! tl_id r = Some (tl_infoHash r) /\ td_torrents db !! tl_id r = Some row /\
              r = mkTLoad (tl_id r) (tl_infoHash r) (tr_snatched row) (tr_balance row) (tr_free_type row).
Proof.
  intros (Ho & _ & _). unfold torrent_rows. rewrite list_elem_of_omap. split.
  - intros ([id h] & Hin & Hj). rewrite Ho, elem_of_map_to_list in Hin.
    unfold join_row in Hj. apply bind_Some in Hj as (row & Hrow & [= <-]). eauto.
  - intros (row & Hh & Hr & E). exists (tl_id r, tl_infoHash r).
    rewrite Ho, elem_of_map_to_list. split; [done|]. unfold join_row. rewrite Hr. simpl. by rewrite <- E.
Qed.

Lemma user_rows_spec o db r :
  orders o -> r ∈ user_rows o db <->
  td_passkeys db !! ul_id r = Some (mkPasskeyRow (ul_passkey r) (ul_canLeech r) (ul_protectIP r)).
Proof.
  intros (_ & Ho & _). unfold user_rows. rewrite list_elem_of_fmap. split.
  - intros ([id row] & -> & Hin). rewrite Ho, elem_of_map_to_list in Hin. by destruct row.
  - intros E. exists (ul_id r, mkPasskeyRow (ul_passkey r) (ul_canLeech r) (ul_protectIP r)).
    rewrite Ho, elem_of_map_to_list. split; [by destruct r|done].
Qed.

Lemma LoadTorrents_readable o db :
  orders o -> readable db -> LoadTorrents (o_hashes o) false db = Ok (torrent_rows o db).
Proof.
  intros Ho [Ht _]. unfold LoadTorrents. cbv zeta iota. fold (torrent_rows o db).
  assert (forallb scannable (torrent_rows o db) = true) as ->; [|done].
  apply forallb_forall. intros r Hr%list_elem_of_In.
  apply torrent_rows_spec in Hr as (row & Hh & Hrow & ->); [|done]. simpl in *. eauto.
Qed.

Lemma LoadUsers_readable o db :
  orders o -> readable db -> LoadUsers (o_passkeys o) false db = Ok (user_rows o db).
Proof.
  intros Ho [_ Hu]. unfold LoadUsers. cbv zeta iota. fold (user_rows o db).
  assert (forallb (fun r => (0 <=? ul_id r) && (ul_id r <? 2 ^ 32)) (user_rows o db) = true) as ->; [|done].
  apply forallb_forall. intros r Hr%list_elem_of_In.
  apply user_rows_spec in Hr; [|done]. apply Hu in Hr. apply andb_true_intro. lia.
Qed.

(** What a load from readable tables leaves in empty memory. *)
Lemma LoadAll_readable o db :
  orders o -> readable db ->
  exists tokens,
    (forall h uid, (h, uid) ∈ tokens <->
       exists tid, td_hashes db !! tid = Some h /\ is_Some (td_tokens db !! (uid, tid))) /\
    LoadAll o (fun _ => false) db emptyMemory =
      (mkMemory (foldl load_token (foldl load_torrent ∅ (torrent_rows o db)) tokens)
                (foldl load_user ∅ (user_rows o db)) (td_whitelist db), Ok tt).
Proof.
  intros Ho Hr. unfold LoadAll. rewrite LoadTorrents_readable, LoadUsers_readable by done.
  eexists. split; [|reflexivity]. intros h uid. rewrite list_elem_of_omap. split.
  - intros ([[u tid] n] & Hin & (h' & Hh & [= -> ->])%bind_Some).
    destruct Ho as (_ & _ & Ho). rewrite Ho, elem_of_map_to_list in Hin. eauto.
  - intros (tid & Hh & [n Hn]). exists ((uid, tid), n). destruct Ho as (_ & _ & Ho).
    rewrite Ho, elem_of_map_to_list. split; [done|]. by rewrite Hh.
Qed.

Lemma loaded_users o db ul pk u :
  orders o -> users_mirror ul db ->
  foldl load_user ∅ (user_rows o db) !! pk = Some u <->
  exists u', ul !! pk = Some u' /\ u = NewUser (u_ID u') (u_CanLeech u') (u_ProtectIP u').
Proof.
  intros Ho Hm. unfold load_user at 1.
  rewrite (foldl_insert_lookup ul_passkey (fun r => NewUser (ul_id r) (ul_canLeech r) (ul_protectIP r))).
  - split.
    + intros (r & Hr & <- & <-). apply user_rows_spec in Hr; [|done].
      apply Hm in Hr as (u' & Hu & <- & <- & <-). eauto.
    + intros (u' & Hu & ->). exists (mkULoad (u_ID u') pk (u_CanLeech u') (u_ProtectIP u')).
      rewrite user_rows_spec by done. split; [|done]. simpl. apply Hm. eauto.
  - intros r r' Hr Hr' E. apply user_rows_spec in Hr, Hr'; [|done..].
    apply Hm in Hr as (u1 & Hu1 & ? & ? & ?), Hr' as (u2 & Hu2 & ? & ? & ?).
    rewrite E, Hu2 in Hu1. destruct r, r'; simpl in *. congruence.
Qed.

Lemma loaded_torrents o db tl h t :
  orders o -> torrents_mirror tl db ->
  foldl load_torrent ∅ (torrent_rows o db) !! h = Some t <->
  exists t' row, tl !! h = Some t' /\ td_torrents db !! t_ID t' = Some row /\
    t = loaded_torrent (mkTLoad (t_ID t') h (tr_snatched row) (tr_balance row) (tr_free_type row))
          (NewTorrent (t_ID t')).
Proof.
  intros Ho [Hm Hrow]. unfold load_torrent at 1.
  rewrite (foldl_insert_lookup tl_infoHash (fun r => loaded_torrent r (NewTorrent (tl_id r)))).
  - split.
    + intros (r & Hr & <- & <-). apply torrent_rows_spec in Hr as (row & Hh & Ht & Hr); [|done].
      apply Hm in Hh as (t' & Ht' & Hid). exists t', row. rewrite Hid. split; [done|]. split; [done|].
      by rewrite <- Hr.
    + intros (t' & row & Ht & Hr & ->).
      exists (mkTLoad (t_ID t') h (tr_snatched row) (tr_balance row) (tr_free_type row)).
      split; [|done]. apply torrent_rows_spec; [done|]. exists row. simpl. split; [apply Hm; eauto|done].
  - intros r r' Hr Hr' E. apply torrent_rows_spec in Hr as (w & Hh & Ht & ->), Hr' as (w' & Hh' & Ht' & ->); [|done..].
    simpl in *. apply Hm in Hh as (x & Hx & Hid), Hh' as (x' & Hx' & Hid').
    rewrite E, Hx' in Hx. simplify_eq. rewrite <- Hid, <- Hid' in *. congruence.
Qed.

(** ** Properties *)

(** Two memories that agree on what administrators control: the torrents and
    their ids, the users, their ids and rights, and the whitelist. *)
Definition user_rights (u : User) : Z * bool * bool := (u_ID u, u_CanLeech u, u_ProtectIP u).
Definition same_settings (m1 m2 : Memory) : Prop :=
  t_ID <$> m_torrents m1 = t_ID <$> m_torrents m2 /\
  user_rights <$> m_users m1 = user_rights <$> m_users m2 /\
  m_whitelist m1 = m_whitelist m2.

Lemma loaded_ids o db tl tokens :
  orders o -> torrents_mirror tl db ->
  t_ID <$> foldl load_token (foldl load_torrent ∅ (torrent_rows o db)) tokens = t_ID <$> tl.
Proof.
  intros Ho Hm. trans (t_ID <$> (untoken <$> foldl load_torrent ∅ (torrent_rows o db))).
  - rewrite <- (load_tokens_untoken tokens), <- !map_fmap_compose. by apply map_fmap_ext.
  - rewrite <- map_fmap_compose. apply map_eq. intros h. rewrite !lookup_fmap.
    apply option_eq. intros id. rewrite !fmap_Some. split.
    + intros (t & Ht & ->). apply (loaded_torrents o db tl) in Ht as (t' & row & Ht' & Hr & ->); [|done..].
      exists t'. done.
    + intros (t' & Ht' & ->). pose proof Hm as [Hids Hrow].
      destruct (Hrow (t_ID t') h) as [row Hr]; [apply Hids; eauto|].
      eexists. split; [apply (loaded_torrents o db tl); [done..|]; exists t', row; eauto|done].
Qed.

Lemma loaded_rights o db ul :
  orders o -> users_mirror ul db ->
  user_rights <$> foldl load_user ∅ (user_rows o db) = user_rights <$> ul.
Proof.
  intros Ho Hm. apply map_eq. intros pk. rewrite !lookup_fmap. apply option_eq. intros x.
  rewrite !fmap_Some. split.
  - intros (u & Hu & ->). apply (loaded_users o db ul) in Hu as (u' & Hu' & ->); [|done..].
    by exists u'.
  - intros (u & Hu & ->). eexists. split; [apply (loaded_users o db ul); [done..|]; eauto|done].
Qed.

Lemma evict_read_locked {A} live keys (m : gmap string A) :
  evict ReadLocked live keys m = if decide (Forall (fun k => k ∈ live) keys) then Some m else None.
Proof.
  induction keys as [|k keys IH]; cbn [evict].
  - case_decide as Hd; [done|]. destruct Hd. constructor.
  - destruct (decide (k ∈ live)) as [Hin|Hin]; [rewrite IH|]; repeat case_decide; try done;
      rewrite ?Forall_cons in *; naive_solver.
Qed.

Lemma merge_torrents_dom rows tl h :
  is_Some (foldl merge_torrent tl rows !! h) <-> is_Some (tl !! h) \/ h ∈ (tl_infoHash <$> rows).
Proof.
  revert tl. induction rows as [|r rows IH]; intros tl; simpl; [set_solver|]. rewrite IH.
  unfold merge_torrent, load_torrent. destruct (tl !! tl_infoHash r) eqn:E;
    rewrite lookup_insert_is_Some; destruct (decide (tl_infoHash r = h)) as [<-|]; set_solver.
Qed.

Lemma merge_users_dom rows ul pk :
  is_Some (foldl merge_user ul rows !! pk) <-> is_Some (ul !! pk) \/ pk ∈ (ul_passkey <$> rows).
Proof.
  revert ul. induction rows as [|r rows IH]; intros ul; simpl; [set_solver|]. rewrite IH.
  unfold merge_user, load_user. destruct (ul !! ul_passkey r) eqn:E;
    rewrite lookup_insert_is_Some; destruct (decide (ul_passkey r = pk)) as [<-|]; set_solver.
Qed.

Lemma order_keys {A} (order : gmap string A -> list (string * A)) m k :
  map_order order -> k ∈ (order m).*1 <-> is_Some (m !! k).
Proof.
  intros Ho. rewrite list_elem_of_fmap. split.
  - intros ([k' v] & -> & Hin). rewrite (Ho m), elem_of_map_to_list in Hin. eauto.
  - intros [v Hv]. exists (k, v). by rewrite (Ho m), elem_of_map_to_list.
Qed.

(** Loaded torrents take their free type from the table. *)
Lemma load_torrents_free rows tl :
  Forall (fun r => tl_freeType r = 0) rows -> map_Forall (fun _ t => t_FreeType t = 0) tl ->
  map_Forall (fun _ t => t_FreeType t = 0) (foldl load_torrent tl rows).
Proof.
  intros Hr. revert tl. induction Hr as [|r rows Hr0 Hr IH]; intros tl Ht; [done|].
  apply IH. by apply map_Forall_insert_2.
Qed.

Lemma load_tokens_free tokens tl :
  map_Forall (fun _ t => t_FreeType t = 0) tl ->
  map_Forall (fun _ t => t_FreeType t = 0) (foldl load_token tl tokens).
Proof.
  revert tl. induction tokens as [|[h u] tokens IH]; intros tl Ht; [done|]. apply IH.
  unfold load_token. simpl. destruct (tl !! h) as [t|] eqn:E; [|done].
  apply map_Forall_insert_2; [|done]. simpl. by apply Ht in E.
Qed.

Lemma LoadAll_free o fails db m r :
  no_free_types db -> LoadAll o fails db emptyMemory = (m, r) ->
  map_Forall (fun _ t => t_FreeType t = FreeNormal) (m_torrents m).
Proof.
  intros Hn. unfold LoadAll, LoadTorrents, LoadUsers, LoadWhitelist, LoadTokens, load_rest.
  set (rows := omap _ _).
  assert (map_Forall (fun _ t => t_FreeType t = 0) (foldl load_torrent ∅ rows)) as Hrows.
  { apply load_torrents_free; [|apply map_Forall_empty]. apply Forall_forall.
    intros x ([id h] & _ & (row & Hrow & [= <-])%bind_Some)%list_elem_of_omap. by apply Hn in Hrow. }
  repeat case_match; intros [= <- <-]; simplify_eq; simpl; try apply map_Forall_empty; try done.
  by apply load_tokens_free.
Qed.

(** The eviction pass is stuck when a key is dead. *)
Lemma evict_stuck {A} (live : list string) (order : gmap string A -> list (string * A)) m :
  map_order order ->
  evict ReadLocked live (order m).*1 m = None /\ (exists k, is_Some (m !! k) /\ k ∉ live) \/
  evict ReadLocked live (order m).*1 m = Some m /\ (forall k, is_Some (m !! k) -> k ∈ live).
Proof.
  intros Ho. rewrite evict_read_locked. case_decide as Hd.
  - right. split; [done|]. intros k Hk. rewrite Forall_forall in Hd. by apply Hd, (order_keys _ m k Ho).
  - left. split; [done|]. apply not_Forall_Exists in Hd; [|apply _].
    apply Exists_exists in Hd as (k & Hk & Hn). exists k. split; [|done]. by apply (order_keys _ m k Ho).
Qed.

(** What is dead after a merge was in memory and is not in the tables. *)
Lemma live_hashes o db h :
  orders o -> h ∈ (tl_infoHash <$> torrent_rows o db) <->
  exists id row, td_hashes db !! id = Some h /\ td_torrents db !! id = Some row.
Proof.
  intros Ho. rewrite list_elem_of_fmap. split.
  - intros (r & -> & (row & Hh & Hr & _)%torrent_rows_spec); [eauto|done].
  - intros (id & row & Hh & Hr).
    exists (mkTLoad id h (tr_snatched row) (tr_balance row) (tr_free_type row)). split; [done|].
    apply torrent_rows_spec; eauto.
Qed.

Lemma live_passkeys o db pk :
  orders o -> pk ∈ (ul_passkey <$> user_rows o db) <->
  exists id row, td_passkeys db !! id = Some row /\ pr_passkey row = pk.
Proof.
  intros Ho. rewrite list_elem_of_fmap. split.
  - intros (r & -> & Hr%user_rows_spec); [eauto|done].
  - intros (id & [pk' cl pi] & Hr & <-). exists (mkULoad id pk' cl pi). by rewrite user_rows_spec.
Qed.

(** Administrative updates keep the tracker's memory and its database in
    step: if the two agree at the start (the same torrents under the same ids,
    the same users with the same rights, the same whitelist), they agree after
    every sequence of updates, accepted or rejected, in which no database
    write fails and every added user or torrent has an unused id. *)
Theorem update_mirrors {C} `{CommonsAdmin C} torder dberr (s s' : AdminState C) :
  map_order torder -> (forall w, dberr w = None) ->
  mirrors (a_mem s) (a_db s) -> updates torder dberr s s' -> mirrors (a_mem s') (a_db s').
Proof.
  intros Ho Hdb Hs Hup. induction Hup as [|q s s' Hf Hup IH]; [done|].
  apply IH. by apply HandleUpdate_ok.
Qed.

(** A restart restores what administrators configured: loading the tables
    into empty memory succeeds when their values fit, and leaves the same
    torrents and ids, the same users and rights and the same whitelist as the
    memory that mirrored them; the tokened users of a torrent are exactly the
    users with a token row for its id. *)
Theorem restart_restores o m db :
  orders o -> readable db -> mirrors m db ->
  let '(m', r) := LoadAll o (fun _ => false) db emptyMemory in
  r = Ok tt /\ same_settings m m' /\
  (forall h t uid, m_torrents m' !! h = Some t ->
     uid ∈ t_TokenedUsers t <-> is_Some (td_tokens db !! (uid, t_ID t))).
Proof.
  intros Ho Hr (Hu & Ht & Hw & _). destruct (LoadAll_readable o db Ho Hr) as (tokens & Htok & ->).
  split; [done|]. split.
  - unfold same_settings. simpl. by rewrite (loaded_ids o db _ tokens Ho Ht), (loaded_rights o db _ Ho Hu).
  - simpl. intros h t uid Hh. rewrite (load_tokens_users _ _ _ _ uid Hh), Htok.
    assert (td_hashes db !! t_ID t = Some h) as Hid.
    { apply Ht. assert ((t_ID <$> m_torrents m) !! h = Some (t_ID t)) as E.
      { rewrite <- (loaded_ids o db _ tokens Ho Ht), lookup_fmap, Hh. done. }
      rewrite lookup_fmap in E. apply fmap_Some in E as (t' & ? & ?). eauto. }
    split; [|by left; eauto].
    intros [(tid & Htid & Hsome)|(t0 & Ht0 & Hin)].
    + apply Ht in Htid as (x & Hx & <-), Hid as (x' & Hx' & <-). simplify_eq. done.
    + apply (loaded_torrents o db _ h t0 Ho Ht) in Ht0 as (t' & row & _ & _ & ->). set_solver.
Qed.

(** Freeleech does not survive a restart: no update writes the free-type
    column, so when the tables start without free types, then after any updates
    at all (database failures included) every torrent that a load brings into
    empty memory is of the normal type, whatever [change_freeleech],
    [update_torrent] or [add_torrent] set before. *)
Theorem freeleech_lost {C} `{CommonsAdmin C} torder dberr (s s' : AdminState C) o fails m r :
  (forall id row, td_torrents (a_db s) !! id = Some row -> tr_free_type row = 0) ->
  updates torder dberr s s' ->
  LoadAll o fails (a_db s') emptyMemory = (m, r) ->
  forall h t, m_torrents m !! h = Some t -> t_FreeType t = FreeNormal.
Proof.
  intros Hn Hup. assert (no_free_types (a_db s')) as Hn'.
  { induction Hup as [|q s s' Hf Hup IH]; [done|]. by apply IH, HandleUpdate_no_free. }
  intros Hl. by eapply LoadAll_free.
Qed.

(** Reloading with eviction waits for its own lock, and never returns,
    exactly when there is something to evict: a torrent or a user in memory
    that the database no longer has.  Otherwise it does what a merging reload
    does. *)
Theorem eviction_deadlock o torder uorder db m :
  orders o -> map_order torder -> map_order uorder -> readable db ->
  (ReloadWithEviction o torder uorder (fun _ => false) db m = None <->
   (exists h, is_Some (m_torrents m !! h) /\
      forall id, td_hashes db !! id = Some h -> td_torrents db !! id = None) \/
   (exists pk, is_Some (m_users m !! pk) /\
      forall id row, td_passkeys db !! id = Some row -> pr_passkey row <> pk)) /\
  (ReloadWithEviction o torder uorder (fun _ => false) db m <> None ->
   ReloadWithEviction o torder uorder (fun _ => false) db m =
     Some (Reload o (fun _ => false) db m)).
Proof.
  intros Ho Hto Huo Hr. unfold ReloadWithEviction, Reload.
  rewrite LoadTorrents_readable, LoadUsers_readable by done. simpl.
  set (tl := foldl merge_torrent _ _). set (ul := foldl merge_user _ _).
  destruct (evict_stuck (tl_infoHash <$> torrent_rows o db) torder tl Hto) as [[-> (h & Hh & Hd)]|[-> Hall]];
    simpl.
  { split; [|done]. split; [|done]. intros _. left. exists h. rewrite live_hashes in Hd by done.
    apply merge_torrents_dom in Hh as [Hh|Hh]; [|by rewrite live_hashes in Hh by done].
    split; [done|]. intros id Hid. apply eq_None_not_Some. intros [row Hrow]. eauto. }
  destruct (evict_stuck (ul_passkey <$> user_rows o db) uorder ul Huo) as [[-> (pk & Hpk & Hd)]|[-> Hallu]];
    simpl.
  { split; [|done]. split; [|done]. intros _. right. exists pk. rewrite live_passkeys in Hd by done.
    apply merge_users_dom in Hpk as [Hpk|Hpk]; [|by rewrite live_passkeys in Hpk by done].
    split; [done|]. intros id row Hrow E. eauto. }
  split; [|done]. split; [done|]. intros [(h & Hh & Hd)|(pk & Hpk & Hd)]; exfalso.
  - assert (h ∈ (tl_infoHash <$> torrent_rows o db)) as Hin by (apply Hall, merge_torrents_dom; auto).
    apply live_hashes in Hin as (id & row & Hid & Hrow); [|done]. apply Hd in Hid. congruence.
  - assert (pk ∈ (ul_passkey <$> user_rows o db)) as Hin by (apply Hallu, merge_users_dom; auto).
    apply live_passkeys in Hin as (id & row & Hid & Hrow); [|done]. by apply Hd in Hid.
Qed.

(** A rejected update leaves the memory as it was, except a
    [delete_torrent] by id, which deletes from memory first; it leaves the
    tables as they were, except when a database write fails in an
    [add_torrent] or a [change_passkey], which make two writes. *)
Theorem update_error {C} `{CommonsAdmin C} q torder dberr (s s' : AdminState C) e :
  HandleUpdate q dberr torder s = (s', Err e) ->
  (a_mem s' = a_mem s \/ q "action" = "delete_torrent" /\ q "info_hash" = "") /\
  (a_db s' = a_db s \/
   (q "action" = "add_torrent" \/ q "action" = "change_passkey") /\ exists w, dberr w <> None).
Proof.
  unfold HandleUpdate.
  repeat lazymatch goal with
  | |- (if String.eqb (q "action") ?a then _ else _) = _ -> _ =>
      destruct (String.eqb_spec (q "action") a)
  end;
  unfold addTorrent, updateTorrent, deleteTorrent, delete_by_id, changeFreeleech,
    addUser, updateUser, removeUser, changePasskey, addToken, removeToken, addWhitelist,
    removeWhitelist, setPriorityClass, setBudget;
  repeat case_match; intros [= <- <-]; simpl; auto 6.
  2, 3: split; [right; split; [done|by apply String.eqb_eq]|by left].
  all: split; [by left|right; split; [by auto|]].
  all: match goal with E : ?d ?w = Some _ |- exists _, ?d _ <> None => exists w; congruence end.
Qed.

(** ** A concrete run: a tracker without the economy adds a user and a torrent,
    makes the torrent free and adds a token. *)
#[local] Instance NoCommons : CommonsAdmin unit :=
  {| ca_SetUserPriority _ _ c := (c, None); ca_SetUserBudget _ _ _ c := (c, None);
     ca_SettleAnnounce _ c := Some c |}.

Module Demo.

Definition query (l : list (string * string)) (k : string) : string :=
  from_option snd "" (List.find (fun kv => String.eqb kv.1 k) l).

Definition start : AdminState unit := mkAdmin emptyMemory emptyTDB None.
Definition no_err (_ : AdminWrite) : option string := None.
Definition torder : TorrentList -> list (string * Torrent) := map_to_list.
Definition pk : string := "0123456789abcdef0123456789abcdef".

Definition q_user := query [("action", "add_user"); ("id", "7"); ("passkey", pk)].
Definition q_torrent :=
  query [("action", "add_torrent"); ("id", "3"); ("info_hash", "H"); ("free_type", "1")].
Definition q_again := query [("action", "add_torrent"); ("id", "4"); ("info_hash", "H")].

Definition s1 : AdminState unit := (HandleUpdate q_user no_err torder start).1.
Definition s2 : AdminState unit := (HandleUpdate q_torrent no_err torder s1).1.

Lemma run : updates torder no_err start s2.
Proof.
  apply (updates_cons _ _ q_user).
  - split; [|done]. intros _ id pk' u _ Hu. done.
  - apply (updates_cons _ _ q_torrent); [|apply updates_nil].
    split; [done|]. intros _ id h t _ Ht. done.
Qed.

Lemma start_mirrors : mirrors (a_mem start) (a_db start).
Proof.
  split; [|split; [|done]].
  - intros pk' id cl pi. simpl. rewrite lookup_empty. split; [|done]. by intros (u & ? & _).
  - split; [|done]. intros h id. simpl. split; [|done]. by intros (t & ? & _).
Qed.

Definition o : Orders := mkOrders map_to_list map_to_list map_to_list.
Lemma orders_o : orders o.
Proof. by repeat split. Qed.
Lemma torder_ok {A} : map_order (A := A) map_to_list.
Proof. intros m. reflexivity. Qed.

Lemma s2_readable : readable (a_db s2).
Proof.
  change (a_db s2) with
    (mkTDB {[3 := mkTorrentRow 0 0 0 0 0]} {[3 := "H"]} {[7 := mkPasskeyRow pk true false]} [] ∅).
  split; simpl.
  - intros id h r [<- <-]%lookup_singleton_Some [_ <-]%lookup_singleton_Some. reflexivity.
  - intros id r [<- _]%lookup_singleton_Some. lia.
Qed.

End Demo.

Lemma update_mirrors_witness : mirrors (a_mem Demo.s2) (a_db Demo.s2).
Proof.
  apply (update_mirrors Demo.torder Demo.no_err Demo.start).
  - apply Demo.torder_ok.
  - reflexivity.
  - apply Demo.start_mirrors.
  - apply Demo.run.
Defined.

Lemma restart_restores_witness :
  (LoadAll Demo.o (fun _ => false) (a_db Demo.s2) emptyMemory).2 = Ok tt.
Proof.
  pose proof (restart_restores Demo.o (a_mem Demo.s2) (a_db Demo.s2) Demo.orders_o Demo.s2_readable)
    as H.
  destruct (LoadAll _ _ _ _) as [m r]. apply H.
  apply (HandleUpdate_ok Demo.torder Demo.q_torrent Demo.no_err Demo.s1).
  - apply Demo.torder_ok.
  - done.
  - split; [done|]. intros _ id h t _ Ht. done.
  - apply (HandleUpdate_ok Demo.torder Demo.q_user Demo.no_err Demo.start); [apply Demo.torder_ok|done| |].
    + split; [|done]. intros _ id pk' u _ Hu. done.
    + apply Demo.start_mirrors.
Defined.

(** The torrent was free in memory and is normal after the restart. *)
Lemma freeleech_lost_witness :
  t_FreeType <$> m_torrents (a_mem Demo.s2) !! "H" = Some FreeFree /\
  (forall t, m_torrents (LoadAll Demo.o (fun _ => false) (a_db Demo.s2) emptyMemory).1 !! "H" = Some t ->
             t_FreeType t = FreeNormal).
Proof.
  split; [reflexivity|].
  apply (freeleech_lost Demo.torder Demo.no_err Demo.start Demo.s2 Demo.o (fun _ => false) _
           (LoadAll Demo.o (fun _ => false) (a_db Demo.s2) emptyMemory).2).
  - done.
  - apply Demo.run.
  - apply surjective_pairing.
Defined.

(** A user deleted from the database is enough. *)
Lemma eviction_deadlock_witness :
  ReloadWithEviction Demo.o map_to_list map_to_list (fun _ => false) emptyTDB (a_mem Demo.s2) = None.
Proof.
  apply (eviction_deadlock Demo.o map_to_list map_to_list emptyTDB (a_mem Demo.s2)).
  - apply Demo.orders_o.
  - apply Demo.torder_ok.
  - apply Demo.torder_ok.
  - done.
  - right. exists Demo.pk. split; [vm_compute; eauto|done].
Defined.

Lemma update_error_witness :
  (HandleUpdate Demo.q_again Demo.no_err Demo.torder Demo.s2).1 = Demo.s2 /\
  a_mem (HandleUpdate Demo.q_again Demo.no_err Demo.torder Demo.s2).1 = a_mem Demo.s2.
Proof.
  split; [reflexivity|].
  destruct (update_error Demo.q_again Demo.torder Demo.no_err Demo.s2 _ "Torrent already exists" eq_refl)
    as [[E|[E _]] _]; [exact E|discriminate].
Defined.
