(* ===== verification/Writers.v ===== *)
(** * Database writers (buffered_db.go, batch_writer.go, circuit_breaker_db.go)

    The layers between the handlers and the tables.  [Database] is the writing
    side of DatabaseInterface; the tables of [TrackerDB] implement it, and so does
    every layer over any implementation.  [BufferedDB] queues the writes of the
    announce path for a goroutine and passes administrative writes through;
    [BatchWriterDB] collects peer rows into batches; [CircuitBreakerDB] guards
    every write.

    A goroutine and its callers interleave: a step of a writer is one call, one
    receive of the goroutine, or one other choice of its select statement, and a
    run is any sequence of steps that are enabled.  A step returns the events it
    shows, so that theorems speak about traces.  The two times of a guarded call
    are those of [CircuitBreaker.Execute].

    The theorems: queued writes reach the database once each and in order, whatever the
    interleaving; what is lost and what overtakes what; what the programs'
    wiring makes of the circuit breaker. *)
From Stdlib Require Import String.
From S2P Require Import Prelude GoSort CircuitBreaker TrackerTypes Announce TrackerDB.
Open Scope list_scope.
Open Scope Z_scope.

(** ** DatabaseInterface, the writes *)

Inductive AdminOp :=
| RecordTorrentHash (id : Z) (infoHash : string)
| RecordUserPasskey (id : Z) (passkey : string) (canLeech protectIP : bool)
| DeleteTorrentHash (infoHash : string)
| DeleteUserPasskey (passkey : string)
| DeleteToken (userID torrentID : Z)
| AddWhitelistEntry (prefix : string)
| RemoveWhitelistEntry (prefix : string).

Inductive Write := AnnouncePath (op : DbOp) | AdminPath (op : AdminOp).

Inductive DbError := ErrCircuitOpen | DbFailed (text : string).

(** The state after a call and its error. *)
Class Database (D : Type) := call : Z * Z -> Write -> D -> D * option DbError.

Definition succeeded (err : option DbError) : bool := match err with None => true | Some _ => false end.

(** The tables: each statement succeeds. *)
#[export] Instance tables_database : Database TDB := fun _ w db =>
  (match w with
   | AnnouncePath (RecordTorrent id seeders leechers snatched balance) => db_RecordTorrent id seeders leechers snatched balance db
   | AnnouncePath (RecordToken uid tid downloaded) => db_RecordToken uid tid downloaded db
   | AnnouncePath _ => db
   | AdminPath (RecordTorrentHash id h) => db_RecordTorrentHash id h db
   | AdminPath (RecordUserPasskey id pk l p) => db_RecordUserPasskey id pk l p db
   | AdminPath (DeleteTorrentHash h) => db_DeleteTorrentHash h db
   | AdminPath (DeleteUserPasskey pk) => db_DeleteUserPasskey pk db
   | AdminPath (DeleteToken uid tid) => db_DeleteToken uid tid db
   | AdminPath (AddWhitelistEntry p) => db_AddWhitelistEntry p db
   | AdminPath (RemoveWhitelistEntry p) => db_RemoveWhitelistEntry p db
   end, None).

(** ** A call through a breaker

    The breaker, the database and the error; the flag says whether the call was
    made.  Admission, call and result are taken as one step: no other call through the
    breaker comes between. *)
Definition guarded {D} `{Database D} (t : Z * Z) (w : Write) (cb : option CircuitBreaker) (d : D)
    : option CircuitBreaker * D * option DbError * bool :=
  match cb with
  | None => let '(d', err) := call t w d in (None, d', err, true)
  | Some cb =>
      match canExecute t.1 cb with
      | (cb', false) => (Some cb', d, Some ErrCircuitOpen, false)
      | (cb', true) => let '(d', err) := call t w d in (Some (recordResult t.2 (succeeded err) cb'), d', err, true)
      end
  end.

(** ** circuit_breaker_db.go *)

Record CircuitBreakerDB (D : Type) := mkCBDB { cbd_db : D; cbd_cb : CircuitBreaker }.
Arguments mkCBDB {D}. Arguments cbd_db {D}. Arguments cbd_cb {D}.

Definition NewCircuitBreakerDB {D} (inner : D) (cfg : CircuitBreakerConfig) : CircuitBreakerDB D :=
  mkCBDB inner (NewCircuitBreaker (if String.eqb (cfg_Name cfg) "" then mkCBConfig "db" (cfg_MaxFailures cfg) (cfg_ResetTimeout cfg) (cfg_HalfOpenMax cfg) else cfg)).

#[export] Instance breaker_database {D} `{Database D} : Database (CircuitBreakerDB D) := fun t w c =>
  match guarded t w (Some (cbd_cb c)) (cbd_db c) with
  | (Some cb, d, err, _) => (mkCBDB d cb, err)
  | (None, d, err, _) => (mkCBDB d (cbd_cb c), err)
  end.

(** ** buffered_db.go *)

(** Where the goroutine is: at its select, emptying the queue after a tick,
    emptying it before it ends, or gone. *)
Inductive DrainState := Waiting | Sweeping | Draining | Exited.

Record BufferedDB (D : Type) := mkBuffered {
  b_inner : D;
  b_breaker : option CircuitBreaker;
  b_queue : list Write;
  b_cap : Z;
  b_stop : bool;
  b_drain : DrainState;
  b_dropped : Z
}.
Arguments mkBuffered {D}. Arguments b_inner {D}. Arguments b_breaker {D}. Arguments b_queue {D}.
Arguments b_cap {D}. Arguments b_stop {D}. Arguments b_drain {D}. Arguments b_dropped {D}.

Definition defaultBufCap : Z := 4096.

Definition NewBufferedDB {D} (inner : D) (breaker : option CircuitBreaker) (bufCap : Z) : BufferedDB D :=
  mkBuffered inner breaker [] (if bufCap <=? 0 then defaultBufCap else bufCap) false Waiting 0.

(** What a step shows: a queued write, a lost one, a call made for a queued
    write and one made for a caller, each with its times and its outcome. *)
Inductive Event :=
| Accepted (w : Write)
| Dropped (w : Write)
| Attempt (t : Z * Z) (w : Write) (made : bool) (err : option DbError)
| Synced (t : Z * Z) (w : Write) (made : bool) (err : option DbError).

Section Buffered.
Context {D : Type} `{Database D}.
Implicit Types b : BufferedDB D.

Definition enqueue (w : Write) b : BufferedDB D * list Event :=
  if len (b_queue b) <? b_cap b then (b {{ b_queue := b_queue b ++ [w] }}, [Accepted w])
  else (b {{ b_dropped := u64 (b_dropped b + 1) }}, [Dropped w]).

(** [execute]: the error is logged. *)
Definition execute (t : Z * Z) (w : Write) b : BufferedDB D * list Event :=
  let '(cb, d, err, made) := guarded t w (b_breaker b) (b_inner b) in
  (b {{ b_breaker := cb }} {{ b_inner := d }}, [Attempt t w made err]).

Definition syncWrite (t : Z * Z) (w : Write) b : BufferedDB D * list Event * option DbError :=
  let '(cb, d, err, made) := guarded t w (b_breaker b) (b_inner b) in
  (b {{ b_breaker := cb }} {{ b_inner := d }}, [Synced t w made err], err).

(** The thirteen methods that write. *)
Definition buffered_write (t : Z * Z) (w : Write) b : BufferedDB D * list Event * option DbError :=
  match w with
  | AnnouncePath _ => (enqueue w b, None)
  | AdminPath _ => syncWrite t w b
  end.

(** A write of the announce handler when the worker has the same breaker: the
    breaker admits it, it is queued, and that counts as a success. *)
Definition worker_write (t : Z * Z) (op : DbOp) b : BufferedDB D * list Event :=
  match b_breaker b with
  | None => enqueue (AnnouncePath op) b
  | Some cb =>
      match canExecute t.1 cb with
      | (cb', false) => (b {{ b_breaker := Some cb' }}, [])
      | (cb', true) => enqueue (AnnouncePath op) (b {{ b_breaker := Some (recordResult t.2 true cb') }})
      end
  end.

Inductive BStep :=
| BWrite (t : Z * Z) (w : Write)
| BWorker (t : Z * Z) (op : DbOp)
| BReceive (t : Z * Z)
| BTick
| BEmpty
| BStopSeen
| BFlush.

(** [None] when the step is not enabled.  [BEmpty] is the default branch of an
    inner select; [BFlush] closes the stop channel, the first time only. *)
Definition buffered_step b (s : BStep) : option (BufferedDB D * list Event) :=
  match s with
  | BWrite t w => Some (buffered_write t w b).1
  | BWorker t op => Some (worker_write t op b)
  | BReceive t =>
      match b_drain b, b_queue b with
      | Exited, _ | _, [] => None
      | _, w :: rest => Some (execute t w (b {{ b_queue := rest }}))
      end
  | BTick => match b_drain b with Waiting => Some (b {{ b_drain := Sweeping }}, []) | _ => None end
  | BEmpty =>
      match b_drain b, b_queue b with
      | Sweeping, [] => Some (b {{ b_drain := Waiting }}, [])
      | Draining, [] => Some (b {{ b_drain := Exited }}, [])
      | _, _ => None
      end
  | BStopSeen => match b_drain b with Waiting => if b_stop b then Some (b {{ b_drain := Draining }}, []) else None | _ => None end
  | BFlush => Some (b {{ b_stop := true }}, [])
  end.

Fixpoint buffered_run b (l : list BStep) : option (BufferedDB D * list Event) :=
  match l with
  | [] => Some (b, [])
  | s :: l =>
      match buffered_step b s with
      | Some (b', evs) => match buffered_run b' l with Some (b'', evs') => Some (b'', evs ++ evs') | None => None end
      | None => None
      end
  end.
End Buffered.

(** ** batch_writer.go *)

Inductive LoopState := Looping | Emptying | Stopped.

Record BatchWriter (D : Type) := mkBatch {
  bw_db : D;
  bw_buffer : list Write;
  bw_batch : list Write;
  bw_batchSize : Z;
  bw_stopped : bool;
  bw_loop : LoopState
}.
Arguments mkBatch {D}. Arguments bw_db {D}. Arguments bw_buffer {D}. Arguments bw_batch {D}.
Arguments bw_batchSize {D}. Arguments bw_stopped {D}. Arguments bw_loop {D}.

Definition NewBatchWriter {D} (db : D) (batchSize : Z) : BatchWriter D := mkBatch db [] [] batchSize false Looping.

(** The record of a write keeps no [invalidIP]; [flush] passes false. *)
Definition peerRecord (w : Write) : Write :=
  match w with
  | AnnouncePath (RecordPeer u t a up down us ds l c time n ip pid ua _) => AnnouncePath (RecordPeer u t a up down us ds l c time n ip pid ua false)
  | _ => w
  end.

Section Batch.
Context {D : Type} `{Database D}.
Implicit Types bw : BatchWriter D.

Definition QueuePeerAnnounce (w : Write) bw : BatchWriter D * list Event :=
  if len (bw_buffer bw) <? bw_batchSize bw * 10 then (bw {{ bw_buffer := bw_buffer bw ++ [peerRecord w] }}, [Accepted w])
  else (bw, [Dropped w]).

(** Errors are logged. *)
Fixpoint flush_rows (t : Z * Z) (batch : list Write) (d : D) : D * list Event :=
  match batch with
  | [] => (d, [])
  | w :: batch => let '(d, err) := call t w d in let '(d, evs) := flush_rows t batch d in (d, Attempt t w true err :: evs)
  end.

Definition flush (t : Z * Z) bw : BatchWriter D * list Event :=
  let '(d, evs) := flush_rows t (bw_batch bw) (bw_db bw) in (bw {{ bw_db := d }} {{ bw_batch := [] }}, evs).

(** [BatchWriterDB]: peer rows are queued, all else goes to the database. *)
Definition batch_write (t : Z * Z) (w : Write) bw : BatchWriter D * list Event * option DbError :=
  match w with
  | AnnouncePath (RecordPeer _ _ _ _ _ _ _ _ _ _ _ _ _ _ _) => (QueuePeerAnnounce w bw, None)
  | _ => let '(d, err) := call t w (bw_db bw) in (bw {{ bw_db := d }}, [Synced t w true err], err)
  end.

Inductive WStep :=
| WWrite (t : Z * Z) (w : Write)
| WReceive (t : Z * Z)
| WTick (t : Z * Z)
| WStopSeen
| WEmpty (t : Z * Z)
| WStop.

(** A second [Stop] closes a closed channel, which panics: not enabled. *)
Definition batch_step bw (s : WStep) : option (BatchWriter D * list Event) :=
  match s with
  | WWrite t w => Some (batch_write t w bw).1
  | WReceive t =>
      match bw_loop bw, bw_buffer bw with
      | Looping, r :: rest =>
          let bw := bw {{ bw_buffer := rest }} {{ bw_batch := bw_batch bw ++ [r] }} in
          Some (if bw_batchSize bw <=? len (bw_batch bw) then flush t bw else (bw, []))
      | Emptying, r :: rest => Some (bw {{ bw_buffer := rest }} {{ bw_batch := bw_batch bw ++ [r] }}, [])
      | _, _ => None
      end
  | WTick t => match bw_loop bw with Looping => Some (if 0 <? len (bw_batch bw) then flush t bw else (bw, [])) | _ => None end
  | WStopSeen => match bw_loop bw with Looping => if bw_stopped bw then Some (bw {{ bw_loop := Emptying }}, []) else None | _ => None end
  | WEmpty t =>
      match bw_loop bw, bw_buffer bw with
      | Emptying, [] =>
          let '(bw, evs) := if 0 <? len (bw_batch bw) then flush t bw else (bw, []) in Some (bw {{ bw_loop := Stopped }}, evs)
      | _, _ => None
      end
  | WStop => if bw_stopped bw then None else Some (bw {{ bw_stopped := true }}, [])
  end.

Fixpoint batch_run bw (l : list WStep) : option (BatchWriter D * list Event) :=
  match l with
  | [] => Some (bw, [])
  | s :: l =>
      match batch_step bw s with
      | Some (bw', evs) => match batch_run bw' l with Some (bw'', evs') => Some (bw'', evs ++ evs') | None => None end
      | None => None
      end
  end.
End Batch.

(** * Theorems on the writers *)

(** ** Traces *)

Definition accepted (tr : list Event) : list Write := omap (fun e => match e with Accepted w => Some w | _ => None end) tr.
Definition attempted (tr : list Event) : list Write := omap (fun e => match e with Attempt _ w _ _ => Some w | _ => None end) tr.
Definition drops (tr : list Event) : list Write := omap (fun e => match e with Dropped w => Some w | _ => None end) tr.

(** The calls made on the database, in order. *)
Definition calls_made (tr : list Event) : list ((Z * Z) * Write) :=
  omap (fun e => match e with Attempt t w true _ | Synced t w true _ => Some (t, w) | _ => None end) tr.

Definition replay {D} `{Database D} (d : D) (l : list ((Z * Z) * Write)) : D := foldl (fun d tw => (call tw.1 tw.2 d).1) d l.

Lemma replay_app {D} `{Database D} (d : D) l l' : replay d (l ++ l') = replay (replay d l) l'.
Proof. apply foldl_app. Qed.

Lemma accepted_app l l' : accepted (l ++ l') = accepted l ++ accepted l'.
Proof. apply omap_app. Qed.
Lemma attempted_app l l' : attempted (l ++ l') = attempted l ++ attempted l'.
Proof. apply omap_app. Qed.
Lemma drops_app l l' : drops (l ++ l') = drops l ++ drops l'.
Proof. apply omap_app. Qed.
Lemma calls_app l l' : calls_made (l ++ l') = calls_made l ++ calls_made l'.
Proof. apply omap_app. Qed.

(** Rewrites every projection of a concatenated trace. *)
Ltac split_trace := rewrite ?accepted_app, ?attempted_app, ?drops_app, ?calls_app, ?replay_app.

(** ** The buffered database *)

Section Buffered.
Context {D : Type} `{Database D}.
Implicit Types b : BufferedDB D.

Lemma buffered_run_snoc b l s :
  buffered_run b (l ++ [s]) =
  match buffered_run b l with
  | Some (b', tr) => match buffered_step b' s with Some (b'', evs) => Some (b'', tr ++ evs) | None => None end
  | None => None
  end.
Proof.
  revert b. induction l as [|x l IH]; intros b; cbn [buffered_run app].
  - destruct (buffered_step b s) as [[b' evs]|]; [|done]. by rewrite app_nil_r.
  - destruct (buffered_step b x) as [[b' evs]|]; [|done]. rewrite IH.
    destruct (buffered_run b' l) as [[b'' tr]|]; [|done]. destruct (buffered_step b'' s) as [[? ?]|]; [|done]. by rewrite app_assoc.
Qed.

(** What holds of a buffered database and its trace. *)
Record buffered_ok (inner : D) (cap : Z) b (tr : list Event) : Prop := mkBOK {
  bok_fifo : accepted tr = attempted tr ++ b_queue b;
  bok_cap : b_cap b = cap;
  bok_len : len (b_queue b) <= cap;
  bok_dropped : b_dropped b = u64 (len (drops tr));
  bok_inner : b_inner b = replay inner (calls_made tr);
  bok_exit : b_drain b = Exited -> exists tr1 tr2, tr = tr1 ++ tr2 /\ accepted tr1 = attempted tr
}.

(** A guarded call makes at most the call. *)
Lemma guarded_call t w cb (d : D) :
  (guarded t w cb d).1.1.2 = if (guarded t w cb d).2 then (call t w d).1 else d.
Proof.
  unfold guarded. destruct cb as [cb|]; [destruct (canExecute t.1 cb) as [cb' []]|]; try done; by destruct (call t w d).
Qed.

(** Calls and receives keep what the goroutine is doing. *)
Lemma len_snoc {A} (l : list A) x : len (l ++ [x]) = len l + 1.
Proof. unfold len. rewrite length_app. cbn. lia. Qed.

Lemma exit_grow (tr evs : list Event) :
  (exists tr1 tr2, tr = tr1 ++ tr2 /\ accepted tr1 = attempted tr) ->
  exists tr1 tr2, tr ++ evs = tr1 ++ tr2 /\ accepted tr1 = attempted tr.
Proof. intros (tr1 & tr2 & E & Ha). exists tr1, (tr2 ++ evs). split; [by rewrite E, app_assoc|done]. Qed.

Lemma enqueue_ok inner cap b tr w :
  buffered_ok inner cap b tr -> let '(b', evs) := enqueue w b in buffered_ok inner cap b' (tr ++ evs).
Proof.
  intros [H1 H2 H3 H4 H5 H6]. unfold enqueue. destruct (Z.ltb_spec (len (b_queue b)) (b_cap b)) as [Hl|Hl].
  - constructor; cbn; split_trace; cbn; rewrite ?app_nil_r; try done.
    + by rewrite H1, app_assoc.
    + rewrite len_snoc. lia.
    + intros E. by apply exit_grow, H6.
  - constructor; cbn; split_trace; cbn; rewrite ?app_nil_r; try done.
    + rewrite H4, len_snoc. unfold u64, wrap_u. by rewrite Zplus_mod_idemp_l.
    + intros E. by apply exit_grow, H6.
Qed.

Lemma sync_ok inner cap b tr t w :
  buffered_ok inner cap b tr -> let '(b', evs, _) := syncWrite t w b in buffered_ok inner cap b' (tr ++ evs).
Proof.
  intros [H1 H2 H3 H4 H5 H6]. unfold syncWrite. pose proof (guarded_call t w (b_breaker b) (b_inner b)) as Hg.
  destruct (guarded t w (b_breaker b) (b_inner b)) as [[[cb d] err] made]. cbn in Hg.
  constructor; cbn; split_trace; cbn; rewrite ?app_nil_r; try done.
  - rewrite Hg, H5. destruct made; done.
  - intros E. by apply exit_grow, H6.
Qed.

Lemma receive_ok inner cap b tr t w rest :
  buffered_ok inner cap b tr -> b_queue b = w :: rest -> b_drain b <> Exited ->
  let '(b', evs) := execute t w (b {{ b_queue := rest }}) in buffered_ok inner cap b' (tr ++ evs).
Proof.
  intros [H1 H2 H3 H4 H5 H6] Hq Hd. unfold execute. cbn [b_breaker b_inner]. pose proof (guarded_call t w (b_breaker b) (b_inner b)) as Hg.
  change (b_breaker (b {{ b_queue := rest }})) with (b_breaker b). change (b_inner (b {{ b_queue := rest }})) with (b_inner b).
  destruct (guarded t w (b_breaker b) (b_inner b)) as [[[cb d] err] made]. cbn in Hg.
  constructor; cbn; split_trace; cbn; rewrite ?app_nil_r; try done.
  - by rewrite H1, Hq, <- app_assoc.
  - rewrite Hq in H3. unfold len in *. cbn in H3. lia.
  - rewrite Hg, H5. destruct made; done.
Qed.

Lemma buffered_step_ok inner cap b tr s b' evs :
  buffered_ok inner cap b tr -> buffered_step b s = Some (b', evs) -> buffered_ok inner cap b' (tr ++ evs).
Proof.
  intros Hok Hs. destruct s as [t w|t op|t| | | |]; cbn in Hs.
  - injection Hs as Hs. unfold buffered_write in Hs. destruct w as [op|op]; cbn in Hs.
    + pose proof (enqueue_ok inner cap b tr (AnnouncePath op) Hok) as He. by rewrite Hs in He.
    + pose proof (sync_ok inner cap b tr t (AdminPath op) Hok) as He. destruct (syncWrite _ _ _) as [[? ?] ?]. cbn in Hs. by injection Hs as -> ->.
  - injection Hs as Hs. unfold worker_write in Hs. destruct (b_breaker b) as [cb|].
    + destruct (canExecute t.1 cb) as [cb' []].
      * assert (buffered_ok inner cap (b {{ b_breaker := Some (recordResult t.2 true cb') }}) tr) as Hok' by (by destruct Hok).
        pose proof (enqueue_ok inner cap _ tr (AnnouncePath op) Hok') as He. by rewrite Hs in He.
      * injection Hs as <- <-. rewrite app_nil_r. by destruct Hok.
    + pose proof (enqueue_ok inner cap b tr (AnnouncePath op) Hok) as He. by rewrite Hs in He.
  - destruct (b_queue b) as [|w rest] eqn:Eq; [by destruct (b_drain b)|].
    assert (b_drain b <> Exited /\ execute t w (b {{ b_queue := rest }}) = (b', evs)) as [Hd He].
    { destruct (b_drain b); simplify_eq; done. }
    pose proof (receive_ok inner cap b tr t w rest Hok Eq Hd) as Hr. by rewrite He in Hr.
  - destruct (b_drain b); try done. injection Hs as <- <-. rewrite app_nil_r. by destruct Hok.
  - destruct (b_drain b) eqn:Ed, (b_queue b) eqn:Eq; try done; injection Hs as <- <-; rewrite app_nil_r; destruct Hok as [H1 H2 H3 H4 H5 H6];
      constructor; try done.
    intros _. exists tr, []. rewrite app_nil_r in *. by rewrite H1, Eq, app_nil_r.
  - destruct (b_drain b); try done. destruct (b_stop b); [|done]. injection Hs as <- <-. rewrite app_nil_r. by destruct Hok.
  - injection Hs as <- <-. rewrite app_nil_r. by destruct Hok.
Qed.

Lemma buffered_run_ok inner breaker cap l b tr :
  0 < cap -> buffered_run (NewBufferedDB inner breaker cap) l = Some (b, tr) -> buffered_ok inner cap b tr.
Proof.
  intros Hcap. revert b tr. induction l as [|s l IH] using rev_ind; intros b tr Hr.
  - injection Hr as <- <-. unfold NewBufferedDB. rewrite (proj2 (Z.leb_gt cap 0)) by lia. constructor; cbn; try done. unfold len. cbn. lia.
  - rewrite buffered_run_snoc in Hr. destruct (buffered_run _ l) as [[b1 tr1]|]; [|done].
    destruct (buffered_step b1 s) as [[b2 evs]|] eqn:E; [|done]. injection Hr as <- <-. eapply buffered_step_ok; [|exact E]. by apply IH.
Qed.

(** A step of the goroutine, not of a caller. *)
Definition goroutine (s : BStep) : bool := match s with BReceive _ | BTick | BEmpty | BStopSeen => true | _ => false end.

Lemma receives_own t n : forallb goroutine (replicate n (BReceive t)) = true.
Proof. by induction n. Qed.

Lemma buffered_run_app b l l' b1 tr1 b2 tr2 :
  buffered_run b l = Some (b1, tr1) -> buffered_run b1 l' = Some (b2, tr2) -> buffered_run b (l ++ l') = Some (b2, tr1 ++ tr2).
Proof.
  revert b tr1. induction l as [|s l IH]; intros b tr1 H1 H2; cbn in *; [by injection H1 as -> <-|].
  destruct (buffered_step b s) as [[b' evs]|]; [|done]. destruct (buffered_run b' l) as [[b'' tr]|] eqn:E; [|done]. injection H1 as -> <-.
  rewrite (IH b' tr E H2), app_assoc. done.
Qed.

Lemma receives_finish t b :
  b_drain b <> Exited ->
  exists b' tr, buffered_run b (replicate (length (b_queue b)) (BReceive t)) = Some (b', tr) /\
    b_queue b' = [] /\ b_drain b' = b_drain b /\ b_stop b' = b_stop b.
Proof.
  remember (b_queue b) as q eqn:Eq. revert b Eq. induction q as [|w q IH]; intros b Eq Hd; [exists b, []; done|].
  cbn [length replicate buffered_run]. unfold buffered_step at 1. rewrite <- Eq.
  destruct (execute t w (b {{ b_queue := q }})) as [b1 evs] eqn:E.
  assert (b_queue b1 = q /\ b_drain b1 = b_drain b /\ b_stop b1 = b_stop b) as (Hq1 & Hd1 & Hs1).
  { unfold execute in E. destruct (guarded _ _ _ _) as [[[? ?] ?] ?]. injection E as <- _. done. }
  destruct (IH b1 (eq_sym Hq1) ltac:(congruence)) as (b2 & tr & Hr & H1 & H2 & H3).
  exists b2, (evs ++ tr). rewrite H2, H3, Hd1, Hs1. destruct (b_drain b); [rewrite Hr..|done]; done.
Qed.
End Buffered.

(** [C22] Queued writes reach the database once and in order.  However the calls
    of handlers, the receives of the goroutine, its ticks and a shutdown
    interleave: the writes accepted so far are the ones attempted, in order,
    followed by the ones still queued; the queue never exceeds its capacity;
    the counter holds the number of lost writes; and the database is what the
    calls made, queued and synchronous, give in the order of the trace.  When
    the goroutine has ended, the writes attempted are the ones accepted up to
    some point, so none of them is left out or repeated. *)
Theorem buffered_writes_fifo {D} `{Database D} (inner : D) breaker cap l b tr :
  0 < cap -> buffered_run (NewBufferedDB inner breaker cap) l = Some (b, tr) ->
  accepted tr = attempted tr ++ b_queue b /\ len (b_queue b) <= cap /\ b_dropped b = u64 (len (drops tr)) /\
  b_inner b = replay inner (calls_made tr) /\
  (b_drain b = Exited -> exists tr1 tr2, tr = tr1 ++ tr2 /\ accepted tr1 = attempted tr).
Proof. intros Hc Hr. destruct (buffered_run_ok inner breaker cap l b tr Hc Hr) as [H1 _ H3 H4 H5 H6]. done. Qed.

(** A shutdown finishes.  Once the stop channel is closed, the goroutine can
    end in one step per queued write and at most three more, whatever it was
    doing, and then the queue is empty. *)
Theorem flush_finishes {D} `{Database D} (t : Z * Z) (b : BufferedDB D) :
  b_stop b = true -> b_drain b <> Exited ->
  exists l b' tr, forallb goroutine l = true /\ (length l <= length (b_queue b) + 3)%nat /\
    buffered_run b l = Some (b', tr) /\ b_drain b' = Exited /\ b_queue b' = [].
Proof.
  intros Hs Hd. destruct (receives_finish t b Hd) as (b1 & tr & Hr & Hq & Hd1 & Hs1).
  assert (exists l b' tr', forallb goroutine l = true /\ (length l <= 3)%nat /\
    buffered_run b1 l = Some (b', tr') /\ b_drain b' = Exited /\ b_queue b' = []) as (l & b' & tr' & Hl & Hn & Hr' & He & Hq').
  { clear Hr. destruct b1 as [d cb q cap stop dr drp]. cbn in Hq, Hd1, Hs1. rewrite Hs in Hs1. subst q dr stop.
    destruct (b_drain b); [exists [BStopSeen; BEmpty]|exists [BEmpty; BStopSeen; BEmpty]|exists [BEmpty]|done];
      exists (mkBuffered d cb [] cap true Exited drp), []; (split; [done|split; [cbn; lia|done]]). }
  exists (replicate (length (b_queue b)) (BReceive t) ++ l), b', (tr ++ tr'). split_and!; try done.
  - rewrite forallb_app, Hl, receives_own. done.
  - rewrite length_app, length_replicate. lia.
  - by eapply buffered_run_app.
Qed.

(** ** One breaker for the handler and the goroutine

    The main program gives the same breaker to the worker and to the buffered
    database.  A database whose calls all fail: *)
#[export] Instance failing_database : Database unit := fun _ _ d => (d, Some (DbFailed "disk I/O error")).

(** One announce write, queued through the breaker, and then the goroutine. *)
Definition round (t : Z * Z) (op : DbOp) : list BStep := [BWorker t op; BReceive t].

(** A buffered database at rest whose breaker is closed. *)
Definition at_rest (cap maxF : Z) (b : BufferedDB unit) : Prop :=
  exists cb, b_breaker b = Some cb /\ cb_state cb = StateClosed /\ cb_maxFailures cb = maxF /\
    b_drain b = Waiting /\ b_queue b = [] /\ b_cap b = cap.

Definition failed_write (t : Z * Z) (op : DbOp) : list Event :=
  [Accepted (AnnouncePath op); Attempt t (AnnouncePath op) true (Some (DbFailed "disk I/O error"))].

Lemma masked_round t op cap maxF b :
  0 < cap -> 2 <= maxF -> at_rest cap maxF b ->
  exists b', buffered_run b (round t op) = Some (b', failed_write t op) /\ at_rest cap maxF b'.
Proof.
  intros Hc Hm (cb & Hb & Hs & Hf & Hd & Hq & Hcap). destruct b as [[] cbo q c stop dr drp], cb as [nm mf rt hm st f lf hc]. cbn in *. subst.
  unfold round, buffered_run. cbn -[Z.ltb Z.leb u32]. unfold enqueue, len. cbn -[Z.ltb Z.leb u32]. rewrite (proj2 (Z.ltb_lt (Z.of_nat 0) cap)) by done.
  cbn -[Z.ltb Z.leb u32]. unfold execute, guarded, call, failing_database, succeeded. cbn -[Z.ltb Z.leb u32]. change (u32 (0 + 1)) with 1. rewrite (proj2 (Z.leb_gt maxF 1)) by lia.
  eexists. split; [reflexivity|]. eexists. cbn. split; [reflexivity|]. done.
Qed.

(** A breaker that is shared does not trip.  When the worker and the
    buffered database have one breaker, as the main program wires them, and
    announces alternate with the goroutine, the breaker stays closed for ever
    although every single write to the database fails: a queued write counts as
    a success, which resets the failures. *)
Theorem shared_breaker_masks (cfg : CircuitBreakerConfig) (cap : Z) (ops : list ((Z * Z) * DbOp)) :
  0 < cap -> 2 <= cfg_MaxFailures cfg ->
  exists b, buffered_run (NewBufferedDB tt (Some (NewCircuitBreaker cfg)) cap) (mjoin ((fun o => round o.1 o.2) <$> ops)) =
              Some (b, mjoin ((fun o => failed_write o.1 o.2) <$> ops)) /\
    exists cb, b_breaker b = Some cb /\ cb_state cb = StateClosed.
Proof.
  intros Hc Hm.
  assert (forall b, at_rest cap (cfg_MaxFailures cfg) b -> exists b', buffered_run b (mjoin ((fun o => round o.1 o.2) <$> ops)) =
              Some (b', mjoin ((fun o => failed_write o.1 o.2) <$> ops)) /\ at_rest cap (cfg_MaxFailures cfg) b') as Hall.
  { induction ops as [|[t op] ops IH]; intros b Hb; [by exists b|].
    destruct (masked_round t op cap _ b Hc Hm Hb) as (b1 & H1 & Hb1). destruct (IH b1 Hb1) as (b2 & H2 & Hb2).
    exists b2. split; [|done]. cbn [fmap list_fmap mjoin list_join]. by eapply buffered_run_app. }
  destruct (Hall (NewBufferedDB tt (Some (NewCircuitBreaker cfg)) cap)) as (b & Hr & cb & H1 & H2 & _); [|by exists b; eauto].
  unfold at_rest, NewBufferedDB, NewCircuitBreaker. rewrite (proj2 (Z.leb_gt cap 0)), (proj2 (Z.eqb_neq (cfg_MaxFailures cfg) 0)) by lia.
  eexists. cbn. split; [reflexivity|]. done.
Qed.

Lemma shared_breaker_masks_witness :
  exists b, buffered_run (NewBufferedDB tt (Some (NewCircuitBreaker (mkCBConfig "sqlite" 5 (30 * Second) 3))) 1000)
      (mjoin ((fun o => round o.1 o.2) <$> replicate 50 ((1, 1), RecordUserStats 7 100 200))) =
      Some (b, mjoin ((fun o => failed_write o.1 o.2) <$> replicate 50 ((1, 1), RecordUserStats 7 100 200))) /\
    exists cb, b_breaker b = Some cb /\ cb_state cb = StateClosed.
Proof. apply (shared_breaker_masks (mkCBConfig "sqlite" 5 (30 * Second) 3) 1000); cbn; lia. Defined.

(** ** Overtaking *)

(** A queued write and the deletion that overtakes it: the token is in the
    tables after the deletion. *)
Example deletion_overtaken :
  match buffered_run (NewBufferedDB emptyTDB None 10)
          [BWrite (0, 0) (AnnouncePath (RecordToken 7 3 100)); BWrite (0, 0) (AdminPath (DeleteToken 7 3)); BReceive (0, 0)] with
  | Some (b, _) => td_tokens (b_inner b) !! (7, 3) = Some 100
  | None => False
  end.
Proof. vm_compute. done. Qed.

(** A write after the goroutine has ended is accepted and never made. *)
Example late_write_lost :
  match buffered_run (NewBufferedDB emptyTDB None 10)
          [BFlush; BStopSeen; BEmpty; BWrite (0, 0) (AnnouncePath (RecordToken 7 3 100))] with
  | Some (b, tr) => accepted tr = [AnnouncePath (RecordToken 7 3 100)] /\ b_drain b = Exited /\ td_tokens (b_inner b) = ∅
  | None => False
  end.
Proof. vm_compute. done. Qed.

Lemma buffered_writes_fifo_witness :
  let l := [BWrite (0, 0) (AnnouncePath (RecordToken 7 3 100)); BWrite (0, 0) (AnnouncePath (RecordToken 7 3 50));
            BReceive (0, 0); BFlush; BStopSeen; BReceive (0, 0); BEmpty] in
  exists b tr, buffered_run (NewBufferedDB emptyTDB None 10) l = Some (b, tr) /\
    b_inner b = replay emptyTDB (calls_made tr) /\ td_tokens (b_inner b) !! (7, 3) = Some 150.
Proof.
  intros l. destruct (buffered_run (NewBufferedDB emptyTDB None 10) l) as [[b tr]|] eqn:E; [|by vm_compute in E].
  exists b, tr. split; [done|]. destruct (buffered_writes_fifo emptyTDB None 10 l b tr ltac:(lia) E) as (_ & _ & _ & Hi & _).
  split; [exact Hi|]. vm_compute in E. injection E as <- _. vm_compute. done.
Defined.

Lemma flush_finishes_witness :
  exists l b' tr, forallb goroutine l = true /\ (length l <= 1 + 3)%nat /\
    buffered_run (mkBuffered emptyTDB None [AnnouncePath (RecordToken 7 3 100)] 10 true Sweeping 0) l = Some (b', tr) /\
    b_drain b' = Exited /\ b_queue b' = [].
Proof. by apply (flush_finishes (0, 0) (mkBuffered emptyTDB None [AnnouncePath (RecordToken 7 3 100)] 10 true Sweeping 0)). Defined.

(** ** The batch writer *)

Section Batch.
Context {D : Type} `{Database D}.
Implicit Types bw : BatchWriter D.

Lemma batch_run_snoc bw l s :
  batch_run bw (l ++ [s]) =
  match batch_run bw l with
  | Some (bw', tr) => match batch_step bw' s with Some (bw'', evs) => Some (bw'', tr ++ evs) | None => None end
  | None => None
  end.
Proof.
  revert bw. induction l as [|x l IH]; intros bw; cbn [batch_run app].
  - destruct (batch_step bw s) as [[b' evs]|]; [|done]. by rewrite app_nil_r.
  - destruct (batch_step bw x) as [[b' evs]|]; [|done]. rewrite IH.
    destruct (batch_run b' l) as [[b'' tr]|]; [|done]. destruct (batch_step b'' s) as [[? ?]|]; [|done]. by rewrite app_assoc.
Qed.

Record batch_ok (db : D) (n : Z) bw (tr : list Event) : Prop := mkWOK {
  wok_fifo : peerRecord <$> accepted tr = attempted tr ++ bw_batch bw ++ bw_buffer bw;
  wok_size : bw_batchSize bw = n;
  wok_buffer : len (bw_buffer bw) <= n * 10;
  wok_batch : bw_loop bw = Looping -> len (bw_batch bw) < n;
  wok_db : bw_db bw = replay db (calls_made tr);
  wok_done : bw_loop bw = Stopped -> bw_batch bw = [] /\ exists tr1 tr2, tr = tr1 ++ tr2 /\ peerRecord <$> accepted tr1 = attempted tr
}.

Lemma flush_rows_spec t batch (d : D) :
  let '(d', evs) := flush_rows t batch d in
  attempted evs = batch /\ accepted evs = [] /\ d' = replay d (calls_made evs).
Proof.
  revert d. induction batch as [|w batch IH]; intros d; [done|]. cbn [flush_rows]. destruct (call t w d) as [d1 err] eqn:E.
  specialize (IH d1). destruct (flush_rows t batch d1) as [d2 evs]. destruct IH as (H1 & H2 & H3).
  split_and!; [exact (f_equal (cons w) H1)|exact H2|]. rewrite H3. unfold replay. cbn. by rewrite E.
Qed.

Lemma done_grow (tr evs : list Event) :
  (exists tr1 tr2, tr = tr1 ++ tr2 /\ peerRecord <$> accepted tr1 = attempted tr) ->
  exists tr1 tr2, tr ++ evs = tr1 ++ tr2 /\ peerRecord <$> accepted tr1 = attempted tr.
Proof. intros (tr1 & tr2 & E & Ha). exists tr1, (tr2 ++ evs). split; [by rewrite E, app_assoc|done]. Qed.

(** A flush, of a writer whose batch may be full. *)
Lemma flush_ok db n bw tr t :
  0 < n -> peerRecord <$> accepted tr = attempted tr ++ bw_batch bw ++ bw_buffer bw -> bw_batchSize bw = n ->
  len (bw_buffer bw) <= n * 10 -> bw_db bw = replay db (calls_made tr) -> bw_loop bw <> Stopped ->
  let '(bw', evs) := flush t bw in
  batch_ok db n bw' (tr ++ evs) /\ bw_batch bw' = [] /\ bw_buffer bw' = bw_buffer bw /\ bw_loop bw' = bw_loop bw.
Proof.
  intros Hn H1 H2 H3 H4 H5. unfold flush. pose proof (flush_rows_spec t (bw_batch bw) (bw_db bw)) as Hf.
  destruct (flush_rows t _ _) as [d evs]. destruct Hf as (F1 & F2 & F3). split; [|done].
  constructor; cbn; split_trace; rewrite ?F1, ?F2; cbn; rewrite ?app_nil_r; try done.
  - by rewrite <- app_assoc.
  - rewrite F3, H4. done.
Qed.

Lemma batch_queue_ok db n bw tr w :
  batch_ok db n bw tr -> let '(bw', evs) := QueuePeerAnnounce w bw in batch_ok db n bw' (tr ++ evs).
Proof.
  intros [H1 H2 H3 H4 H5 H6]. unfold QueuePeerAnnounce. destruct (Z.ltb_spec (len (bw_buffer bw)) (bw_batchSize bw * 10));
    constructor; cbn; split_trace; cbn; rewrite ?app_nil_r; try done.
  - rewrite fmap_app, H1, <- !app_assoc. done.
  - rewrite len_snoc. lia.
  - intros E. destruct (H6 E) as [? ?]. split; [done|by apply done_grow].
  - intros E. destruct (H6 E) as [? ?]. split; [done|by apply done_grow].
Qed.

Lemma batch_sync_ok db n bw tr t w :
  batch_ok db n bw tr ->
  let '(d, err) := call t w (bw_db bw) in batch_ok db n (bw {{ bw_db := d }}) (tr ++ [Synced t w true err]).
Proof.
  intros [H1 H2 H3 H4 H5 H6]. destruct (call t w (bw_db bw)) as [d err] eqn:E.
  constructor; cbn; split_trace; cbn; rewrite ?app_nil_r; try done.
  - rewrite <- H5. unfold replay. cbn. by rewrite E.
  - intros Ed. destruct (H6 Ed) as [? ?]. split; [done|by apply done_grow].
Qed.

Lemma batch_receive_ok db n bw tr t bw' evs :
  0 < n -> batch_ok db n bw tr -> batch_step bw (WReceive t) = Some (bw', evs) -> batch_ok db n bw' (tr ++ evs).
Proof.
  intros Hn [H1 H2 H3 H4 H5 H6] Hs. destruct bw as [d q ba sz st lo]. cbn in H1, H2, H3, H4, H5, H6. subst sz. unfold batch_step in Hs.
  cbn [bw_loop bw_buffer] in Hs. destruct q as [|r rest]; [by destruct lo|].
  assert (peerRecord <$> accepted tr = attempted tr ++ (ba ++ [r]) ++ rest) as Hf by (by rewrite H1, <- !app_assoc).
  assert (len rest <= n * 10) as Hb by (unfold len in *; cbn in H3; lia).
  destruct lo; [| |done]; cbn in Hs; injection Hs as Hs.
  - destruct (Z.leb_spec n (len (ba ++ [r]))) as [Hfull|Hfull].
    + pose proof (flush_ok db n (mkBatch d rest (ba ++ [r]) n st Looping) tr t Hn Hf eq_refl Hb H5 ltac:(done)) as Hfl. rewrite Hs in Hfl. apply Hfl.
    + injection Hs as <- <-. rewrite app_nil_r. constructor; done.
  - subst. rewrite app_nil_r. constructor; done.
Qed.

Lemma batch_step_ok db n bw tr s bw' evs :
  0 < n -> batch_ok db n bw tr -> batch_step bw s = Some (bw', evs) -> batch_ok db n bw' (tr ++ evs).
Proof.
  intros Hn Hok Hs. destruct s as [t w|t|t| |t|].
  - injection Hs as Hs. pose proof (batch_queue_ok db n bw tr w Hok) as Hq. pose proof (batch_sync_ok db n bw tr t w Hok) as Hy.
    unfold batch_write in Hs. destruct (call t w (bw_db bw)) as [d err].
    destruct w as [[]|]; cbn [fst] in Hs; rewrite ?Hs in Hq; try done; by injection Hs as <- <-.
  - by eapply batch_receive_ok.
  - cbn in Hs. destruct (bw_loop bw) eqn:El; try done. injection Hs as Hs. destruct Hok as [H1 H2 H3 H4 H5 H6]. destruct (0 <? len (bw_batch bw)).
    + pose proof (flush_ok db n bw tr t Hn H1 H2 H3 H5) as Hfl. rewrite Hs in Hfl. apply Hfl. by rewrite El.
    + injection Hs as <- <-. by rewrite app_nil_r.
  - cbn in Hs. destruct (bw_loop bw) eqn:El; try done. destruct (bw_stopped bw); [|done]. injection Hs as <- <-. rewrite app_nil_r. by destruct Hok.
  - cbn in Hs. destruct (bw_loop bw) eqn:El, (bw_buffer bw) eqn:Eb; try done. destruct Hok as [H1 H2 H3 H4 H5 H6].
    assert (exists bw1, bw' = bw1 {{ bw_loop := Stopped }} /\ batch_ok db n bw1 (tr ++ evs) /\ bw_batch bw1 = [] /\ bw_buffer bw1 = []) as (bw1 & -> & Hok1 & Hb1 & Hq1).
    { destruct (Z.ltb_spec 0 (len (bw_batch bw))) as [Hp|Hp].
      - pose proof (flush_ok db n bw tr t Hn H1 H2 H3 H5 ltac:(by rewrite El)) as Hfl.
        destruct (flush t bw) as [bw1 evs1]. injection Hs as <- <-. exists bw1. destruct Hfl as (? & ? & Ebf & _). rewrite Ebf. done.
      - injection Hs as <- <-. exists bw. rewrite app_nil_r. split; [done|]. split; [by constructor|].
        split; [|done]. destruct (bw_batch bw); [done|]. unfold len in Hp. cbn in Hp. lia. }
    destruct Hok1 as [K1 K2 K3 K4 K5 K6]. constructor; cbn; try done. intros _. split; [done|]. exists (tr ++ evs), []. rewrite app_nil_r.
    split; [done|]. by rewrite K1, Hb1, Hq1, app_nil_r.
  - cbn in Hs. destruct (bw_stopped bw); [done|]. injection Hs as <- <-. rewrite app_nil_r. by destruct Hok.
Qed.
End Batch.

(** Peer rows reach the database once and in order.  However the calls, the
    receives, the ticks and the stop of a batch writer with a positive batch size
    interleave: the rows accepted are the ones written, followed by those of the
    batch and of the channel, all in order; the channel holds at most ten
    batches, the batch is never full between two steps of the loop; and the
    database is what the calls give in the order of the trace.  When the loop has
    ended, the batch is empty and the rows written are the ones accepted up to
    some point. *)
Theorem batch_writes_fifo {D} `{Database D} (db : D) n l bw tr :
  0 < n -> batch_run (NewBatchWriter db n) l = Some (bw, tr) ->
  peerRecord <$> accepted tr = attempted tr ++ bw_batch bw ++ bw_buffer bw /\
  len (bw_buffer bw) <= n * 10 /\ (bw_loop bw = Looping -> len (bw_batch bw) < n) /\
  bw_db bw = replay db (calls_made tr) /\
  (bw_loop bw = Stopped -> bw_batch bw = [] /\ exists tr1 tr2, tr = tr1 ++ tr2 /\ peerRecord <$> accepted tr1 = attempted tr).
Proof.
  intros Hn Hr. assert (batch_ok db n bw tr) as [H1 _ H3 H4 H5 H6]; [|done]. revert bw tr Hr.
  induction l as [|s l IH] using rev_ind; intros bw tr Hr.
  - injection Hr as <- <-. constructor; cbn; try done; unfold len; cbn; lia.
  - rewrite batch_run_snoc in Hr. destruct (batch_run _ l) as [[b1 tr1]|]; [|done].
    destruct (batch_step b1 s) as [[b2 evs]|] eqn:E; [|done]. injection Hr as <- <-. eapply batch_step_ok; [done| |exact E]. by apply IH.
Qed.

(** A database that keeps the rows it is given. *)
#[export] Instance log_database : Database (list Write) := fun _ w d => (d ++ [w], None).

Definition peer_row (uid : Z) : Write := AnnouncePath (RecordPeer uid 3 1 0 0 0 0 0 0 1 1 "" "" "" true).

Lemma batch_writes_fifo_witness :
  exists bw tr, batch_run (NewBatchWriter ([] : list Write) 2)
      [WWrite (0, 0) (peer_row 1); WWrite (0, 0) (peer_row 2); WReceive (0, 0); WReceive (0, 0); WWrite (0, 0) (peer_row 3);
       WStop; WStopSeen; WReceive (0, 0); WEmpty (0, 0)] = Some (bw, tr) /\
    bw_db bw = peerRecord <$> [peer_row 1; peer_row 2; peer_row 3] /\ bw_batch bw = [].
Proof.
  match goal with |- exists bw tr, ?r = _ /\ _ => destruct r as [[bw tr]|] eqn:E; [|by vm_compute in E] end.
  exists bw, tr. split; [done|]. pose proof (batch_writes_fifo ([] : list Write) 2 _ bw tr ltac:(lia) E) as (_ & _ & _ & _ & Hd).
  vm_compute in E. injection E as <- <-. split; [done|]. by apply Hd.
Defined.

(** The mark of an invalid address does not survive the batch. *)
Example invalid_ip_lost : peerRecord (peer_row 1) <> peer_row 1.
Proof. done. Qed.
