(* ===== verification/Snapshot.v ===== *)
(** * The peer snapshot (tracker/snapshot.go)

    The swarm state that a shutdown writes to a file and the next start merges
    into the torrents it has loaded.  Package gob is outside the sources: its
    encoder and decoder are arguments, and the theorem relies on a value being
    decoded as it was encoded.  The file is its contents, absent, or an error. *)
From Stdlib Require Import String.
From S2P Require Import Prelude GoSort NetIP TrackerTypes CircuitBreaker Whitelist Announce TrackerSpec.
Open Scope list_scope.
Open Scope Z_scope.

Record snapshotPeer := mkSnapPeer {
  sp_UserID : Z;
  sp_IP : IP;
  sp_Port : Z;
  sp_Uploaded : Z;
  sp_Downloaded : Z;
  sp_Left : Z;
  sp_Corrupt : Z;
  sp_FirstAnnounced : Z;
  sp_LastAnnounced : Z;
  sp_Announces : Z;
  sp_Visible : bool;
  sp_Seeder : bool;
  sp_ConnectionTimes : list Z
}.

Record snapshotEntry := mkSnapEntry { se_Key : string; se_Peer : snapshotPeer }.
Record snapshotTorrent := mkSnapTorrent { st_Peers : list snapshotEntry }.
Record peerSnapshot := mkSnapshot { ps_Torrents : gmap string snapshotTorrent }.

Definition peerToSnap (p : Peer) (seeder : bool) : snapshotPeer :=
  mkSnapPeer (u32 (p_UserID p)) (p_IP p) (p_Port p) (p_Uploaded p) (p_Downloaded p) (p_Left p) (p_Corrupt p)
    (p_FirstAnnounced p) (p_LastAnnounced p) (p_Announces p) (p_Visible p) seeder (p_ConnectionTimes p).

(** A nil address is the empty list. *)
Definition snapToPeer (sp : snapshotPeer) : Peer :=
  mkPeer (sp_UserID sp) (sp_Uploaded sp) (sp_Downloaded sp) (sp_Corrupt sp) (sp_Left sp) (sp_LastAnnounced sp)
    (sp_FirstAnnounced sp) (sp_Announces sp) (sp_Port sp) (sp_IP sp)
    (match sp_IP sp with [] => [] | ip => CompactIPPort ip (sp_Port sp) end)
    (sp_Visible sp) false (sp_ConnectionTimes sp).

Section Snapshot.
(** The iteration order of maps, and gob. *)
Context (order : PeerList -> list (string * Peer)).
Context (Encode : peerSnapshot -> string) (Decode : string -> option peerSnapshot).

Definition snap_side (seeder : bool) (pl : PeerList) : list snapshotEntry :=
  (fun kp => mkSnapEntry kp.1 (peerToSnap kp.2 seeder)) <$> order pl.

Definition snap_torrent (t : Torrent) : option snapshotTorrent :=
  match snap_side true (t_Seeders t) ++ snap_side false (t_Leechers t) with
  | [] => None
  | l => Some (mkSnapTorrent l)
  end.

(** The contents of the file. *)
Definition live_snapshot (torrents : TorrentList) : peerSnapshot := mkSnapshot (omap snap_torrent torrents).
Definition SaveSnapshot (torrents : TorrentList) : string := Encode (live_snapshot torrents).

Definition restore_entry (t : Torrent) (e : snapshotEntry) : Torrent :=
  if sp_Seeder (se_Peer e) then t {{ t_Seeders := <[se_Key e := snapToPeer (se_Peer e)]> (t_Seeders t) }}
  else t {{ t_Leechers := <[se_Key e := snapToPeer (se_Peer e)]> (t_Leechers t) }}.

(** Each torrent of the snapshot that is in the list; the order of the torrents
    does not matter, they are different keys. *)
Definition restore (snap : peerSnapshot) (torrents : TorrentList) : TorrentList :=
  map_imap (fun hash t => Some (match ps_Torrents snap !! hash with
                                | Some st => foldl restore_entry t (st_Peers st)
                                | None => t
                                end)) torrents.

Inductive SnapshotFile := NoFile | FileError (text : string) | FileContents (data : string).

(** [Err] is the text of the error, and then the list is untouched. *)
Definition LoadSnapshot (f : SnapshotFile) (torrents : TorrentList) : TorrentList * option string :=
  match f with
  | NoFile => (torrents, None)
  | FileError e => (torrents, Some e)
  | FileContents data =>
      match Decode data with
      | None => (torrents, Some "gob")
      | Some snap => (restore snap torrents, None)
      end
  end.
End Snapshot.

(** ** Round trip *)

(** A peer as the next start has it: the address in compact form is computed
    again, the mark of an invalid address is gone. *)
Definition restored (p : Peer) : Peer :=
  p {{ p_IPPort := match p_IP p with [] => [] | ip => CompactIPPort ip (p_Port p) end }} {{ p_InvalidIP := false }}.

Lemma snap_roundtrip p seeder : in_u32 (p_UserID p) -> snapToPeer (peerToSnap p seeder) = restored p.
Proof. intros Hu. unfold snapToPeer, peerToSnap. cbn. rewrite u32_id by done. by destruct p. Qed.

Definition restore_side (seeder : bool) (l : list (string * Peer)) (pl : PeerList) : PeerList :=
  foldl (fun pl kp => <[kp.1 := snapToPeer (peerToSnap kp.2 seeder)]> pl) pl l.

Lemma restore_seeders l t :
  foldl restore_entry t ((fun kp => mkSnapEntry kp.1 (peerToSnap kp.2 true)) <$> l) = t {{ t_Seeders := restore_side true l (t_Seeders t) }}.
Proof. revert t. induction l as [|kp l IH]; intros t; [by destruct t|]. cbn [fmap list_fmap foldl]. rewrite IH. by destruct t. Qed.

Lemma restore_leechers l t :
  foldl restore_entry t ((fun kp => mkSnapEntry kp.1 (peerToSnap kp.2 false)) <$> l) = t {{ t_Leechers := restore_side false l (t_Leechers t) }}.
Proof. revert t. induction l as [|kp l IH]; intros t; [by destruct t|]. cbn [fmap list_fmap foldl]. rewrite IH. by destruct t. Qed.

Lemma restore_side_map seeder l pl :
  NoDup l.*1 -> Forall (fun kp => in_u32 (p_UserID kp.2)) l ->
  restore_side seeder l pl = (restored <$> (list_to_map l : PeerList)) ∪ pl.
Proof.
  revert pl. induction l as [|[k p] l IH]; intros pl Hnd Hu.
  - cbn. by rewrite fmap_empty, map_empty_union.
  - apply NoDup_cons in Hnd as [Hk Hnd]. apply Forall_cons in Hu as [Hp Hu]. cbn in Hp, Hk. 
    change (restore_side seeder ((k, p) :: l) pl) with (restore_side seeder l (<[k := snapToPeer (peerToSnap p seeder)]> pl)).
    rewrite IH, list_to_map_cons, snap_roundtrip, fmap_insert, <- insert_union_l by done.
    rewrite insert_union_r; [done|]. rewrite lookup_fmap, not_elem_of_list_to_map_1; done.
Qed.

(** The users of a list of peers have 32-bit ids. *)
Definition ids_ok (pl : PeerList) : Prop := map_Forall (fun _ p => in_u32 (p_UserID p)) pl.

Lemma restore_side_order order seeder pl pl' :
  map_order order -> ids_ok pl -> restore_side seeder (order pl) pl' = (restored <$> pl) ∪ pl'.
Proof.
  intros Ho Hu. assert (NoDup (order pl).*1) as Hnd by (rewrite (Ho pl); apply NoDup_fst_map_to_list).
  rewrite restore_side_map; [|done|].
  - f_equal. f_equal. rewrite <- (list_to_map_to_list pl) at 2. by apply list_to_map_proper.
  - apply Forall_forall. intros [k p] Hk. rewrite (Ho pl) in Hk. apply elem_of_map_to_list in Hk. by apply (Hu k).
Qed.

Lemma restore_torrent order t r :
  map_order order -> ids_ok (t_Seeders t) -> ids_ok (t_Leechers t) ->
  match snap_torrent order t with Some st => foldl restore_entry r (st_Peers st) | None => r end =
  r {{ t_Seeders := (restored <$> t_Seeders t) ∪ t_Seeders r }} {{ t_Leechers := (restored <$> t_Leechers t) ∪ t_Leechers r }}.
Proof.
  intros Ho Hs Hl.
  assert (foldl restore_entry r (snap_side order true (t_Seeders t) ++ snap_side order false (t_Leechers t)) =
    r {{ t_Seeders := (restored <$> t_Seeders t) ∪ t_Seeders r }} {{ t_Leechers := (restored <$> t_Leechers t) ∪ t_Leechers r }}) as H.
  { rewrite foldl_app. unfold snap_side. rewrite restore_seeders, restore_leechers, !restore_side_order by done. by destruct r. }
  unfold snap_torrent. destruct (snap_side _ _ _ ++ snap_side _ _ _); exact H.
Qed.

(** What a shutdown saves, the next start restores.  If gob decodes the
    snapshot it encoded, then after loading a snapshot of the torrents [live] into the
    torrents [loaded]: the same torrents are listed; one that was live has,
    besides the peers it had, every seeder and every leecher it was saved with,
    in whatever order the maps were iterated; the others are as they were.  The
    peers are the saved ones with their compact address computed again and
    without the mark of an invalid address. *)
Theorem snapshot_restores order Encode Decode (live loaded : TorrentList) :
  Decode (Encode (live_snapshot order live)) = Some (live_snapshot order live) -> map_order order ->
  map_Forall (fun _ t => ids_ok (t_Seeders t) /\ ids_ok (t_Leechers t)) live ->
  exists after, LoadSnapshot Decode (FileContents (SaveSnapshot order Encode live)) loaded = (after, None) /\
    forall hash, after !! hash =
      match loaded !! hash, live !! hash with
      | Some r, Some t => Some (r {{ t_Seeders := (restored <$> t_Seeders t) ∪ t_Seeders r }}
                                  {{ t_Leechers := (restored <$> t_Leechers t) ∪ t_Leechers r }})
      | Some r, None => Some r
      | None, _ => None
      end.
Proof.
  intros Hg Ho Hu. unfold LoadSnapshot, SaveSnapshot. rewrite Hg. eexists. split; [reflexivity|]. intros hash.
  unfold restore, live_snapshot. cbn [ps_Torrents]. rewrite map_lookup_imap, lookup_omap.
  destruct (loaded !! hash) as [r|]; cbn [mbind option_bind]; [|done]. destruct (live !! hash) as [t|] eqn:E; cbn [mbind option_bind]; [|done]. f_equal.
  destruct (Hu hash t E) as [Hs Hl]. by apply restore_torrent.
Qed.

Definition demo_peer : Peer := mkPeer 7 10 20 0 0 900 100 4 6881 [10; 0; 0; 1] [10; 0; 0; 1; 26; 225] true false [].
Definition demo_live : TorrentList := {["hash" := (NewTorrent 3) {{ t_Seeders := {["key" := demo_peer]} }}]}.

Lemma restored_exact p : p_IP p <> [] -> p_IPPort p = CompactIPPort (p_IP p) (p_Port p) -> p_InvalidIP p = false -> restored p = p.
Proof. intros H1 H2 H3. unfold restored. destruct p as [? ? ? ? ? ? ? ? ? [|? ?] ? ? ? ?]; cbn in *; subst; done. Qed.

Lemma snapshot_restores_witness :
  let decode (d : string) := if String.eqb d "gob" then Some (live_snapshot map_to_list demo_live) else None in
  exists after, LoadSnapshot decode (FileContents (SaveSnapshot map_to_list (fun _ => "gob"%string) demo_live))
      {["hash"%string := NewTorrent 3]} = (after, None) /\
    (t_Seeders <$> after !! "hash"%string) = Some ({["key"%string := demo_peer]} : PeerList).
Proof.
  intros decode. destruct (snapshot_restores map_to_list (fun _ => "gob"%string) decode demo_live {["hash"%string := NewTorrent 3]}) as (after & H1 & H2).
  - reflexivity.
  - by intros m.
  - apply map_Forall_singleton. split; [apply map_Forall_singleton; cbn; unfold in_u32; lia|apply map_Forall_empty].
  - exists after. split; [exact H1|]. rewrite (H2 "hash"%string). vm_compute. reflexivity.
Defined.

(** A start with a snapshot loses count: loading does not touch the statistics,
    which are zero at the start, so the counters do not match the lists, and the
    first restored seeder that stops takes the number of seeders below zero. *)
Example snapshot_uncounted :
  let fresh : TorrentList := {["hash"%string := NewTorrent 3]} in
  let stats := mkTStats 0 0 0 0 0 0 0 0 0 0 0 0 0 0 0 in
  counters_ok fresh stats /\ ~ counters_ok (restore (live_snapshot map_to_list demo_live) fresh) stats /\
  u32 (s_Seeders stats - 1) = 4294967295.
Proof. split; [by vm_compute|]. split; [|done]. intros [H _]. by vm_compute in H. Qed.
