(* ===== verification/Bencode.v ===== *)
(** * Bencoding (tracker/bencode.go)

    The encoders of the source, a type of bencoded values and a decoder for
    them.  The decoder is the reference the texts of the server are read
    with: it accepts dictionary keys in any order, [canonical] says of a value
    that its keys are in strictly increasing order, as BEP-3 asks. *)
From Stdlib Require Import Ascii String Decimal DecimalString DecimalZ.
From S2P Require Import Prelude GoStr.
Open Scope string_scope.
Open Scope Z_scope.

#[local] Arguments String.append !_ _ / : simpl nomatch.

(** ** The encoders *)

Definition strlen (s : string) : Z := Z.of_nat (String.length s).

Definition BencodeString (s : string) : string := dec (strlen s) ++ ":" ++ s.

Definition BencodeInt (n : Z) : string := "i" ++ dec n ++ "e".

(** [b.WriteString] for every item. *)
Fixpoint write_all (items : list string) : string :=
  match items with [] => "" | s :: items' => s ++ write_all items' end.

Definition BencodeList (items : list string) : string := "l" ++ write_all items ++ "e".

(** [sort.Strings] on keys without duplicates: [merge_sort] stands for it,
    every correct sort gives the same list. *)
Definition BencodeDict (items : gmap string string) : string :=
  if (size items =? 0)%nat then "de"
  else
    let keys := merge_sort String.le (map_to_list items).*1 in
    "d" ++ write_all ((fun k => BencodeString k ++ default "" (items !! k)) <$> keys) ++ "e".

(** ** Values and their text *)

Inductive bval :=
| BInt (n : Z)
| BStr (s : string)
| BList (l : list bval)
| BDict (kvs : list (string * bval)).

Fixpoint bencode (v : bval) : string :=
  match v with
  | BInt n => BencodeInt n
  | BStr s => BencodeString s
  | BList l => BencodeList (map bencode l)
  | BDict kvs => "d" ++ write_all (map (fun kv => BencodeString kv.1 ++ bencode kv.2) kvs) ++ "e"
  end.

Fixpoint bsize (v : bval) : nat :=
  match v with
  | BInt _ | BStr _ => 1%nat
  | BList l => 2 + (length l + foldr (fun v n => bsize v + n)%nat 0%nat l)%nat
  | BDict kvs => 2 + (length kvs + foldr (fun kv n => bsize kv.2 + n)%nat 0%nat kvs)%nat
  end.

(** Integers of 64 bits, as the encoder takes them. *)
Fixpoint bwf (v : bval) : Prop :=
  match v with
  | BInt n => in_i64 n
  | BStr _ => True
  | BList l => foldr (fun v P => bwf v /\ P) True l
  | BDict kvs => foldr (fun kv P => bwf kv.2 /\ P) True kvs
  end.

Definition ascending (kvs : list (string * bval)) : Prop :=
  StronglySorted (fun a b => String.le a b /\ a <> b) kvs.*1.

Fixpoint canonical (v : bval) : Prop :=
  match v with
  | BInt _ | BStr _ => True
  | BList l => foldr (fun v P => canonical v /\ P) True l
  | BDict kvs => ascending kvs /\ foldr (fun kv P => canonical kv.2 /\ P) True kvs
  end.

(** ** The decoder *)

Fixpoint split_at (c : ascii) (s : string) : option (string * string) :=
  match s with
  | "" => None
  | String a r => if Ascii.eqb a c then Some ("", r)
                  else '(p, q) ← split_at c r; Some (String a p, q)
  end.

Fixpoint take_bytes (n : nat) (s : string) : option (string * string) :=
  match n, s with
  | O, _ => Some ("", s)
  | S _, "" => None
  | S n', String a r => '(p, q) ← take_bytes n' r; Some (String a p, q)
  end.

Definition bdecode_str (s : string) : option (string * string) :=
  '(digits, r) ← split_at ":" s; n ← parse_digits digits; take_bytes (Z.to_nat n) r.

Fixpoint bdecode (fuel : nat) (s : string) : option (bval * string) :=
  match fuel with
  | O => None
  | S f =>
      match s with
      | String "i" r =>
          '(digits, r') ← split_at "e" r; n ← ParseInt digits 64; Some (BInt n, r')
      | String "l" r => '(l, r') ← bdecode_list f r; Some (BList l, r')
      | String "d" r => '(kvs, r') ← bdecode_dict f r; Some (BDict kvs, r')
      | _ => '(t, r) ← bdecode_str s; Some (BStr t, r)
      end
  end
with bdecode_list (fuel : nat) (s : string) : option (list bval * string) :=
  match fuel with
  | O => None
  | S f =>
      match s with
      | String "e" r => Some ([], r)
      | _ => '(v, r) ← bdecode f s; '(l, r') ← bdecode_list f r; Some (v :: l, r')
      end
  end
with bdecode_dict (fuel : nat) (s : string) : option (list (string * bval) * string) :=
  match fuel with
  | O => None
  | S f =>
      match s with
      | String "e" r => Some ([], r)
      | _ => '(k, r) ← bdecode_str s; '(v, r') ← bdecode f r;
             '(kvs, r'') ← bdecode_dict f r'; Some ((k, v) :: kvs, r'')
      end
  end.

(** ** Lemmas *)

Lemma split_at_app c p r :
  str_all (fun x => negb (Ascii.eqb x c)) p = true -> split_at c (p ++ String c r) = Some (p, r).
Proof.
  induction p as [|a p IH]; simpl; [by rewrite Ascii.eqb_refl|].
  intros [Ha Hp]%andb_true_iff. apply negb_true_iff in Ha. rewrite Ha, IH by done. done.
Qed.

Lemma take_bytes_app s r : take_bytes (String.length s) (s ++ r) = Some (s, r).
Proof. induction s as [|a s IH]; simpl; [done|]. by rewrite IH. Qed.

Lemma dec_no_e z : str_all (fun x => negb (Ascii.eqb x "e")) (dec z) = true.
Proof.
  apply (str_all_impl dec_char); [|apply dec_chars]. intros [[] [] [] [] [] [] [] []]; done.
Qed.

Lemma parse_digits_dec n : 0 <= n -> parse_digits (dec n) = Some n.
Proof.
  intros Hn. unfold parse_digits, dec.
  pose proof (DecimalZ.of_to n) as Hz. destruct (to_int_nonnil n) as [Hp _].
  destruct (Z.to_int n) as [d|d] eqn:E; simpl.
  - rewrite NilZero.usu by congruence. simpl. by f_equal.
  - by destruct n.
Qed.

Lemma dec_nonneg_head n : 0 <= n -> exists c r, dec n = String c r /\ is_digit c = true.
Proof.
  intros Hn. unfold dec. destruct (Z.to_int n) as [d|d] eqn:E.
  - simpl. destruct (NilZero.string_of_uint d) as [|c r] eqn:Es.
    + exfalso. by destruct d.
    + exists c, r. split; [done|]. by eapply string_of_uint_head.
  - by destruct n.
Qed.

Lemma bdecode_str_encode s r : bdecode_str (BencodeString s ++ r) = Some (s, r).
Proof.
  unfold bdecode_str, BencodeString. rewrite !append_assoc. simpl.
  rewrite split_at_app by apply dec_no_colon. simpl.
  rewrite parse_digits_dec by (unfold strlen; lia). simpl. unfold strlen. rewrite Nat2Z.id.
  apply take_bytes_app.
Qed.

(** Text of a string starts with a digit, text of any value not with [e]. *)
Lemma BencodeString_head s : exists c r, BencodeString s = String c r /\ is_digit c = true.
Proof.
  destruct (dec_nonneg_head (strlen s)) as (c & r & E & Hc); [unfold strlen; lia|].
  unfold BencodeString. rewrite E. simpl. eauto.
Qed.

Lemma bencode_head v : exists c r, bencode v = String c r /\ c <> "e"%char.
Proof.
  destruct v as [n|s|l|kvs].
  - exists "i"%char, (dec n ++ "e"). done.
  - destruct (BencodeString_head s) as (c & r & E & Hc). exists c, r. split; [done|]. by intros ->.
  - eexists "l"%char, _. done.
  - eexists "d"%char, _. done.
Qed.

(** One step of the decoder on text that does not start with [e]. *)
Lemma bdecode_list_cons f c r :
  c <> "e"%char ->
  bdecode_list (S f) (String c r) =
    ('(v, r) ← bdecode f (String c r); '(l, r') ← bdecode_list f r; Some (v :: l, r')).
Proof. intros Hc. destruct c as [[] [] [] [] [] [] [] []]; done. Qed.

Lemma bdecode_dict_cons f c r :
  is_digit c = true ->
  bdecode_dict (S f) (String c r) =
    ('(k, r) ← bdecode_str (String c r); '(v, r') ← bdecode f r;
     '(kvs, r'') ← bdecode_dict f r'; Some ((k, v) :: kvs, r'')).
Proof. intros Hc. destruct c as [[] [] [] [] [] [] [] []]; done. Qed.

Lemma bdecode_digit f c r :
  is_digit c = true ->
  bdecode (S f) (String c r) = ('(t, r) ← bdecode_str (String c r); Some (BStr t, r)).
Proof. intros Hc. destruct c as [[] [] [] [] [] [] [] []]; done. Qed.

Lemma bdecode_all fuel :
  (forall v rest, bwf v -> (bsize v <= fuel)%nat ->
     bdecode fuel (bencode v ++ rest) = Some (v, rest)) /\
  (forall l rest, foldr (fun v P => bwf v /\ P) True l ->
     (1 + length l + foldr (fun v n => bsize v + n)%nat 0%nat l <= fuel)%nat ->
     bdecode_list fuel (write_all (map bencode l) ++ String "e" rest) = Some (l, rest)) /\
  (forall kvs rest, foldr (fun kv P => bwf kv.2 /\ P) True kvs ->
     (1 + length kvs + foldr (fun kv n => bsize kv.2 + n)%nat 0%nat kvs <= fuel)%nat ->
     bdecode_dict fuel
       (write_all (map (fun kv => BencodeString kv.1 ++ bencode kv.2) kvs) ++ String "e" rest)
     = Some (kvs, rest)).
Proof.
  induction fuel as [|f (IHv & IHl & IHd)].
  { split; [|split]; intros; [destruct v; simpl in *|..]; lia. }
  split; [|split].
  - intros [n|s|l|kvs] rest Hwf Hf; simpl in Hwf, Hf.
    + simpl. rewrite append_assoc. simpl. rewrite split_at_app by apply dec_no_e. simpl.
      by rewrite ParseInt_dec.
    + destruct (BencodeString_head s) as (c & r & E & Hc).
      pose proof (bdecode_str_encode s rest) as Hs. simpl. rewrite E in *. simpl in *.
      pose proof (bdecode_digit f c (r ++ rest) Hc) as Hd. simpl in Hd. rewrite Hd, Hs. done.
    + simpl. rewrite append_assoc. simpl. rewrite IHl by (try done; lia). done.
    + simpl. rewrite append_assoc. simpl. rewrite IHd by (try done; lia). done.
  - intros [|v l] rest Hwf Hf; [done|]. destruct Hwf as [Hv Hl]. cbn [length foldr] in Hf.
    destruct (bencode_head v) as (c & r & E & Hc).
    assert (bdecode f (bencode v ++ write_all (map bencode l) ++ String "e" rest) =
            Some (v, write_all (map bencode l) ++ String "e" rest)) as Hd by (apply IHv; [done|lia]).
    cbn [map write_all]. rewrite append_assoc. rewrite E in *. cbn [append] in *.
    rewrite bdecode_list_cons, Hd by done. simpl. rewrite IHl by (try done; lia). done.
  - intros [|[k v] kvs] rest Hwf Hf; [done|]. destruct Hwf as [Hv Hl]. cbn [length foldr fst snd] in *.
    destruct (BencodeString_head k) as (c & r & E & Hc).
    set (tail := write_all (map (fun kv => BencodeString kv.1 ++ bencode kv.2) kvs) ++ String "e" rest).
    pose proof (bdecode_str_encode k (bencode v ++ tail)) as Hs.
    assert (bdecode f (bencode v ++ tail) = Some (v, tail)) as Hd by (apply IHv; [done|lia]).
    cbn [map write_all fst snd]. rewrite !append_assoc. fold tail. rewrite E in *. cbn [append] in *.
    rewrite bdecode_dict_cons, Hs by done. simpl. rewrite Hd. simpl.
    unfold tail. rewrite IHd by (try done; lia). done.
Qed.

(** Decoding reads back what was encoded and leaves the rest. *)
Lemma bdecode_bencode v rest fuel :
  bwf v -> (bsize v <= fuel)%nat -> bdecode fuel (bencode v ++ rest) = Some (v, rest).
Proof. apply bdecode_all. Qed.

(** Reading a whole text.  The fuel covers every encoded value. *)
Definition bdecode_text (s : string) : option bval :=
  match bdecode (2 * String.length s) s with
  | Some (v, "") => Some v
  | _ => None
  end.

Lemma append_length (a b : string) :
  String.length (a ++ b) = (String.length a + String.length b)%nat.
Proof. induction a as [|c a IH]; simpl; [done|]. by rewrite IH. Qed.

Lemma dec_length n : (1 <= String.length (dec n))%nat.
Proof.
  assert (forall d, NilZero.string_of_uint d <> "") as Hu by (by intros []).
  unfold dec, NilZero.string_of_int. destruct (Z.to_int n) as [d|d]; simpl; [|lia].
  specialize (Hu d). destruct (NilZero.string_of_uint d); simpl; [done|lia].
Qed.

Lemma BencodeString_length s : (2 <= String.length (BencodeString s))%nat.
Proof.
  unfold BencodeString. rewrite append_length. simpl. pose proof (dec_length (strlen s)). lia.
Qed.

Fixpoint bsize_length v : (S (bsize v) <= 2 * String.length (bencode v))%nat.
Proof.
  destruct v as [n|s|l|kvs]; cbn [bencode bsize].
  - unfold BencodeInt. simpl. lia.
  - pose proof (BencodeString_length s). lia.
  - unfold BencodeList. rewrite !append_length. cbn [String.length].
    induction l as [|v l IH]; simpl; [lia|]. rewrite append_length.
    pose proof (bsize_length v). lia.
  - rewrite !append_length. cbn [String.length].
    induction kvs as [|[k v] kvs IH]; simpl; [lia|]. rewrite !append_length.
    pose proof (bsize_length v). pose proof (BencodeString_length k). lia.
Qed.

Lemma bdecode_text_bencode v : bwf v -> bdecode_text (bencode v) = Some v.
Proof.
  intros Hv. unfold bdecode_text. pose proof (bsize_length v).
  pose proof (bdecode_bencode v "" (2 * String.length (bencode v)) Hv ltac:(lia)) as E.
  rewrite append_nil_r in E. by rewrite E.
Qed.

Lemma strictly_sorted (keys : list string) :
  NoDup keys -> StronglySorted String.le keys ->
  StronglySorted (fun a b => String.le a b /\ a <> b) keys.
Proof.
  intros Hnd Hs. induction Hs as [|k keys Hs IH Hall]; [constructor|].
  apply NoDup_cons in Hnd as [Hk Hnd]. constructor; [by apply IH|].
  apply Forall_forall. intros x Hx. split; [by apply (Forall_forall (String.le k) keys)|by intros ->].
Qed.

(** [BencodeDict] writes the dictionary with its keys in increasing order. *)
Lemma BencodeDict_bencode (items : gmap string bval) :
  exists kvs, BencodeDict (bencode <$> items) = bencode (BDict kvs) /\
              ascending kvs /\ kvs ≡ₚ map_to_list items.
Proof.
  unfold BencodeDict. rewrite map_to_list_fmap. set (keys := merge_sort _ _).
  assert (keys ≡ₚ (map_to_list items).*1) as Hperm.
  { unfold keys. rewrite merge_sort_Permutation, <- list_fmap_compose. by f_equiv. }
  pose (kv := fun k => (k, default (BInt 0) (items !! k))). exists (kv <$> keys).
  assert (kv <$> keys ≡ₚ map_to_list items) as Hkvs.
  { rewrite Hperm, <- list_fmap_compose. rewrite <- (list_fmap_id (map_to_list items)) at 2.
    apply reflexive_eq, list_fmap_ext. intros i [k v] Hi. unfold kv. simpl.
    apply list_elem_of_lookup_2, elem_of_map_to_list in Hi. by rewrite Hi. }
  split; [|split; [|done]].
  - rewrite map_size_fmap. destruct (Nat.eqb_spec (size items) 0) as [E|_].
    + apply map_size_empty_inv in E. subst items. rewrite map_to_list_empty in Hperm.
      simpl in Hperm. apply Permutation_nil_r in Hperm. by rewrite Hperm.
    + simpl. do 2 f_equal. change (map ?f ?l) with (f <$> l). rewrite <- list_fmap_compose.
      f_equal. apply list_fmap_ext. intros i k Hk. simpl. f_equal.
      rewrite lookup_fmap. apply list_elem_of_lookup_2 in Hk.
      rewrite Hperm in Hk. apply list_elem_of_fmap in Hk as ([k' v] & -> & Hv%elem_of_map_to_list).
      simpl. by rewrite Hv.
  - unfold ascending. rewrite <- list_fmap_compose. unfold compose. simpl. rewrite list_fmap_id.
    apply strictly_sorted.
    + rewrite Hperm. apply NoDup_fst_map_to_list.
    + apply StronglySorted_merge_sort; apply _.
Qed.
