(* ===== verification/Server.v ===== *)
(** * The HTTP front end (tracker/server.go, the JSON part of tracker/update.go
      and ParseAnnounceParams of tracker/announce.go)

    [handleRequest] dispatches one request on the worker, the tables and the
    economy.  [handleConnection] serves the requests of one connection in
    order.  A request is what [http.ReadRequest] hands over: the path, the
    query (all values of a key, in order), four headers, the protocol version
    and the announced content length.

    Arguments that stand for code outside the repository: [allow] is the
    verdict of the token bucket for an address, [marshal] is the JSON encoder
    on the values of the admin API.  Times in those values are not formatted. *)
From Stdlib Require Import Ascii String.
From S2P Require Import Prelude GoStr NetIP TrackerTypes CircuitBreaker Whitelist GoFloat Ml.
From S2P Require Import Credit Ledger Commons PeerSelect Announce TrackerDB Update Bencode.
Open Scope string_scope.
Open Scope list_scope.
Open Scope Z_scope.

(** ** [net.ParseIP] *)

Definition digitb (c : Z) : bool := (48 <=? c) && (c <=? 57).

(** [netip.parseIPv4Fields]: [prev] is the byte before, [fields] the octets so
    far, [val] and [digLen] the octet being read. *)
Fixpoint parseIPv4Fields (s : list Z) (prev : option Z) (val digLen : Z) (fields : list Z)
    : option (list Z) :=
  match s with
  | [] => if (length fields <? 3)%nat then None else Some (fields ++ [u8 val])
  | c :: r =>
      if digitb c then
        if (digLen =? 1) && (val =? 0) then None
        else
          let val := val * 10 + c - 48 in
          if 255 <? val then None else parseIPv4Fields r (Some c) val (digLen + 1) fields
      else if c =? 46 then
        if bool_decide (prev = None) || bool_decide (r = []) || bool_decide (prev = Some 46) then None
        else if (length fields =? 3)%nat then None
        else parseIPv4Fields r (Some c) 0 0 (fields ++ [u8 val])
      else None
  end.

Definition hexval (c : Z) : option Z :=
  if digitb c then Some (c - 48)
  else if (97 <=? c) && (c <=? 102) then Some (c - 97 + 10)
  else if (65 <=? c) && (c <=? 70) then Some (c - 65 + 10)
  else None.

(** The hexadecimal digits in front: how many, their value, the rest. *)
Fixpoint hex_group (s : list Z) (off : nat) (acc : Z) : option (nat * Z * list Z) :=
  match s with
  | c :: r =>
      match hexval c with
      | Some d => if (3 <? off)%nat then None else hex_group r (S off) (acc * 16 + d)
      | None => Some (off, acc, s)
      end
  | [] => Some (off, acc, [])
  end.

(** The group loop of [netip.parseIPv6]; [ip] holds the bytes so far and
    [fuel] the groups that still fit, 8 at the start. *)
Fixpoint v6_groups (fuel : nat) (ip : list Z) (ellipsis : option nat) (s : list Z)
    : option (list Z * option nat * list Z) :=
  match fuel with
  | O => Some (ip, ellipsis, s)
  | S fuel' =>
      '(off, acc, r) ← hex_group s 0 0;
      if (off =? 0)%nat then None
      else
        match r with
        | 46 :: _ =>
            if bool_decide (ellipsis = None) && negb (length ip =? 12)%nat then None
            else if (16 <? length ip + 4)%nat then None
            else v4 ← parseIPv4Fields s None 0 0 []; Some (ip ++ v4, ellipsis, [])
        | _ =>
            let ip := ip ++ [acc / 256; acc mod 256] in
            match r with
            | [] => Some (ip, ellipsis, [])
            | 58 :: [] => None
            | 58 :: 58 :: r' =>
                match ellipsis with
                | Some _ => None
                | None => match r' with
                          | [] => Some (ip, Some (length ip), [])
                          | _ => v6_groups fuel' ip (Some (length ip)) r'
                          end
                end
            | 58 :: r' => v6_groups fuel' ip ellipsis r'
            | _ => None
            end
        end
  end.

Definition expand_v6 (ip : list Z) (ellipsis : option nat) : option (list Z) :=
  if (length ip <? 16)%nat then
    e ← ellipsis; Some (take e ip ++ replicate (16 - length ip) 0 ++ drop e ip)
  else match ellipsis with Some _ => None | None => Some ip end.

Definition parseIPv6 (s : list Z) : option (list Z) :=
  if bool_decide (37 ∈ s) then None
  else
    let finish '(ip, ellipsis, r) :=
      if bool_decide (r = []) then expand_v6 ip ellipsis else None in
    match s with
    | 58 :: 58 :: [] => Some (replicate 16 0)
    | 58 :: 58 :: r => v6_groups 8 [] (Some 0%nat) r ≫= finish
    | _ => v6_groups 8 [] None s ≫= finish
    end.

(** [nil] is the empty list; an IPv4 address comes in its 16-byte form. *)
Definition ParseIP (text : string) : IP :=
  let s := bytes_of_string text in
  match List.find (fun c => (c =? 46) || (c =? 58) || (c =? 37)) s with
  | Some 46 => from_option (fun v4 => v4InV6Prefix ++ v4) [] (parseIPv4Fields s None 0 0 [])
  | Some 58 => default [] (parseIPv6 s)
  | _ => []
  end.

Example ParseIP_samples :
  ParseIP "10.0.0.255" = v4InV6Prefix ++ [10; 0; 0; 255] /\
  ParseIP "10.0.0.256" = [] /\ ParseIP "10.0.0.01" = [] /\ ParseIP "1.2.3" = [] /\
  ParseIP "2001:db8::1" = [32;1;13;184;0;0;0;0;0;0;0;0;0;0;0;1] /\
  ParseIP "::" = replicate 16 0 /\ ParseIP "::ffff:1.2.3.4" = v4InV6Prefix ++ [1; 2; 3; 4] /\
  ParseIP "1:2:3:4:5:6:7:8" = [0;1;0;2;0;3;0;4;0;5;0;6;0;7;0;8] /\
  ParseIP "1:2:3:4:5:6:7:8:9" = [] /\ ParseIP "1::2::3" = [] /\ ParseIP "fe80::1%eth0" = [].
Proof. vm_compute. repeat split. Qed.

(** ** Requests *)

Record HttpRequest := mkHttp {
  h_Path : string;
  h_Query : string -> list string;
  h_XForwardedFor : string;
  h_Connection : string;
  h_UserAgent : string;
  h_ProtoMajor : Z;
  h_ProtoMinor : Z;
  h_ContentLength : Z
}.

(** [url.Values.Get] *)
Definition QueryGet (req : HttpRequest) (key : string) : string :=
  from_option id "" (head (h_Query req key)).

(** [strings.Split(s, "/")] *)
Fixpoint split_slash (s : string) : string * list string :=
  match s with
  | "" => ("", [])
  | String c r =>
      let '(first, rest) := split_slash r in
      if Ascii.eqb c "/" then ("", first :: rest) else (String c first, rest)
  end.
Definition path_parts (path : string) : list string :=
  let trimmed := match path with String "/" r => r | _ => path end in
  let '(first, rest) := split_slash trimmed in first :: rest.

(** [strings.ToLower] on ASCII text. *)
Fixpoint to_lower (s : string) : string :=
  match s with
  | "" => ""
  | String c r =>
      let b := ascii_byte c in
      String (if (65 <=? b) && (b <=? 90) then byte_ascii (b + 32) else c) (to_lower r)
  end.

(** [strings.TrimSpace] on ASCII text. *)
Definition is_space (c : ascii) : bool :=
  let b := ascii_byte c in (b =? 32) || ((9 <=? b) && (b <=? 13)).
Fixpoint trim_left (s : string) : string :=
  match s with
  | String c r => if is_space c then trim_left r else s
  | "" => ""
  end.
Fixpoint trim_right (s : string) : string :=
  match s with
  | "" => ""
  | String c r =>
      let r' := trim_right r in
      if is_space c && String.eqb r' "" then "" else String c r'
  end.
Definition TrimSpace (s : string) : string := trim_right (trim_left s).

(** The address in an X-Forwarded-For header: the part before the first
    comma when that is not the first byte, else the whole. *)
Definition forwarded_ip (xff : string) : IP :=
  match split_at "," xff with
  | Some (String c p, _) => ParseIP (TrimSpace (String c p))
  | _ => ParseIP xff
  end.

(** [remote] is the peer address of a TCP connection, [nil] otherwise. *)
Definition getClientIP (remote : IP) (req : HttpRequest) : IP :=
  if String.eqb (h_XForwardedFor req) "" then remote else forwarded_ip (h_XForwardedFor req).

Definition queryInt (req : HttpRequest) (key : string) (defaultVal : Z) : Z :=
  let s := QueryGet req key in
  if String.eqb s "" then defaultVal
  else match Atoi s with
       | Some v => if v <=? 0 then defaultVal else v
       | None => defaultVal
       end.

Definition parseInt64 (s : string) : Z :=
  if String.eqb s "" then 0
  else match ParseInt s 64 with
       | Some val => if val <? 0 then 0 else val
       | None => 0
       end.

Definition ParseAnnounceParams (get : string -> string) (clientIP : IP)
    : result string AnnounceRequest :=
  if String.eqb (get "info_hash") "" then Err "missing info_hash"
  else if String.eqb (get "peer_id") "" then Err "missing peer_id"
  else if String.eqb (get "port") "" then Err "missing port"
  else
    match ParseUint (get "port") 16 with
    | None => Err "invalid port"
    | Some port =>
        Ok {| rq_InfoHash := get "info_hash";
              rq_PeerID := bytes_of_string (get "peer_id");
              rq_Port := port;
              rq_Uploaded := parseInt64 (get "uploaded");
              rq_Downloaded := parseInt64 (get "downloaded");
              rq_Left := parseInt64 (get "left");
              rq_Corrupt := parseInt64 (get "corrupt");
              rq_Compact := String.eqb (get "compact") "1";
              rq_NoPeerID := String.eqb (get "no_peer_id") "1";
              rq_Event := get "event";
              rq_IP := if negb (String.eqb (get "ip") "") then ParseIP (get "ip")
                       else if negb (String.eqb (get "ipv4") "") then ParseIP (get "ipv4")
                       else clientIP;
              rq_NumWant := i32 (parseInt64 (get "numwant"));
              rq_Key := get "key";
              rq_TrackerID := get "trackerid" |}
    end.

(** ** Responses *)

Definition CRLF : string := String "013" (String "010" "").

Definition http_text (contentType content : string) (httpClose : bool) : string :=
  ("HTTP/1.1 200 OK" ++ CRLF ++ "Content-Type: " ++ contentType ++ CRLF ++
   "Content-Length: " ++ dec (strlen content) ++ CRLF ++
   (if httpClose then "Connection: close" else "Connection: keep-alive") ++ CRLF ++
   CRLF ++ content)%string.

Definition jsonResponse (content : string) (httpClose : bool) : string :=
  http_text "application/json" content httpClose.

Definition response (content : string) (httpClose html : bool) : string :=
  http_text (if html then "text/html; charset=utf-8" else "text/plain") content httpClose.

Definition errorResponse (msg : string) (httpClose : bool) : string :=
  response ("d14:failure reason" ++ dec (strlen msg) ++ ":" ++ msg ++ "e")%string httpClose false.

Definition announce_body (resp : AnnounceResponse) : string :=
  let peers := string_of_bytes (rs_Peers resp) in
  ("d8:completei" ++ dec (rs_Complete resp) ++
   "e10:incompletei" ++ dec (rs_Incomplete resp) ++
   "e8:intervali" ++ dec (rs_Interval resp) ++
   "e12:min intervali" ++ dec (rs_MinInterval resp) ++ "e5:peers" ++
   (if (length (rs_Peers resp) =? 0)%nat then "0:"
    else dec (Z.of_nat (length (rs_Peers resp))) ++ ":" ++ peers) ++
   (if String.eqb (rs_Warning resp) "" then ""
    else "15:warning message" ++ dec (strlen (rs_Warning resp)) ++ ":" ++ rs_Warning resp) ++
   "e")%string.

Definition bencodedAnnounceResponse (resp : AnnounceResponse) (httpClose : bool) : string :=
  response (announce_body resp) httpClose false.

Definition scrape_file (torrents : TorrentList) (infoHash : string) : string :=
  match torrents !! infoHash with
  | None => ""
  | Some t =>
      (dec (strlen infoHash) ++ ":" ++ infoHash ++
       "d8:completei" ++ dec (Size (t_Seeders t)) ++ "e10:incompletei" ++ dec (Size (t_Leechers t)) ++
       "e10:downloadedi" ++ dec (t_Completed t) ++ "ee")%string
  end.
Definition scrape_body (torrents : TorrentList) (infoHashes : list string) : string :=
  ("d5:filesd" ++ write_all (scrape_file torrents <$> infoHashes) ++ "ee")%string.

(** ** The admin API's values *)

Record StatsResponse := mkStatsResp {
  sr_Uptime : Z;
  sr_UptimeSeconds : Z;
  sr_TorrentCount : Z;
  sr_UserCount : Z;
  sr_Seeders : Z;
  sr_Leechers : Z;
  sr_Connections : Z;
  sr_Announcements : Z;
  sr_SuccAnnounces : Z;
  sr_Scrapes : Z;
  sr_BytesRead : Z;
  sr_BytesWritten : Z
}.

Definition GetStats (now : Z) (w : Worker) : StatsResponse :=
  let uptime := TimeSub now (s_StartTime (w_Stats w)) in
  let st := w_Stats w in
  mkStatsResp uptime (int64_of_float (DurationSeconds uptime)) (Size (w_Torrents w))
    (Size (w_Users w)) (s_Seeders st) (s_Leechers st) (s_OpenConnections st)
    (s_Announcements st) (s_SuccAnnouncements st) (s_Scrapes st) (s_BytesRead st)
    (s_BytesWritten st).

Record TorrentInfo := mkTorrentInfo {
  ti_InfoHash : string;
  ti_ID : Z;
  ti_Seeders : Z;
  ti_Leechers : Z;
  ti_Completed : Z;
  ti_FreeType : Z;
  ti_Balance : Z
}.

(** [make([]T, 0, limit)] panics when the slice would not fit the address
    space (2^48 bytes on amd64). *)
Definition make_ok (elemSize limit : Z) : bool := elemSize * limit <=? 2 ^ 48.

Definition torrent_info (kv : string * Torrent) : TorrentInfo :=
  let '(hash, t) := kv in
  mkTorrentInfo hash (t_ID t) (Size (t_Seeders t)) (Size (t_Leechers t)) (t_Completed t)
    (t_FreeType t) (t_Balance t).

Definition GetTorrents (torder : TorrentList -> list (string * Torrent)) (w : Worker) (limit : Z)
    : option (list TorrentInfo) :=
  if make_ok 56 limit then Some (torrent_info <$> take (Z.to_nat limit) (torder (w_Torrents w)))
  else None.

Record PeerJson := mkPeerJson {
  pj_UserID : Z;
  pj_IP : string;
  pj_Port : Z;
  pj_Uploaded : Z;
  pj_Downloaded : Z;
  pj_Left : Z;
  pj_LastAnnounce : Z;
  pj_Announces : Z;
  pj_Seeder : bool
}.

Definition peer_json (seeder : bool) (p : Peer) : PeerJson :=
  mkPeerJson (p_UserID p) (IPString (p_IP p)) (p_Port p) (p_Uploaded p) (p_Downloaded p) (p_Left p)
    (p_LastAnnounced p) (p_Announces p) seeder.

(** Seeders first; leechers as far as the limit allows. *)
Definition GetPeers (order : PeerList -> list (string * Peer)) (w : Worker) (infoHash : string)
    (limit : Z) : option (result string (list PeerJson)) :=
  match w_Torrents w !! infoHash with
  | None => Some (Err "torrent not found")
  | Some t =>
      if make_ok 80 limit then
        let n := Z.to_nat limit in
        let seeders := peer_json true <$> take n (order (t_Seeders t)).*2 in
        Some (Ok (seeders ++ (peer_json false <$> take (n - length seeders) (order (t_Leechers t)).*2)))
      else None
  end.

Inductive ApiValue :=
| ApiUpdate (message : option string)
| ApiStats (s : StatsResponse)
| ApiTorrents (l : list TorrentInfo)
| ApiPeers (l : list PeerJson)
| ApiWhitelist (prefixes : list string).

(** ** Handlers *)

Record ServerConfig := mkServerConfig {
  sc_KeepaliveTimeout : Z;
  sc_SitePassword : string
}.

(** The worker, the tables and the economy. *)
Record System (C : Type) := mkSystem {
  y_worker : Worker;
  y_db : TDB;
  y_commons : option C
}.
Arguments mkSystem {C}. Arguments y_worker {C}. Arguments y_db {C}. Arguments y_commons {C}.

(** A database write of the announce handler, on the tables modelled here; the
    other tables are only ever read outside the tracker. *)
Definition apply_effect (db : TDB) (e : Effect) : TDB :=
  match e with
  | DbWrite (RecordTorrent id seeders leechers snatched balance) (Ran true) =>
      db_RecordTorrent id seeders leechers snatched balance db
  | DbWrite (RecordToken uid tid downloaded) (Ran true) => db_RecordToken uid tid downloaded db
  | _ => db
  end.

(** What one request brings in from outside. *)
Record RequestEnv := mkReqEnv {
  r_announce : AnnounceEnv;
  r_allow : option (string -> bool);
  r_dberr : AdminWrite -> option string;
  r_torder : TorrentList -> list (string * Torrent)
}.

Section Handlers.
Context {C : Type} `{CommonsAdmin C} (cfg : ServerConfig) (marshal : ApiValue -> string).
Implicit Types (y : System C) (env : RequestEnv).

Definition with_worker (w : Worker) y : System C := mkSystem w (y_db y) (y_commons y).

(** Where an effect of an announce arrives, after the reply or before: a write
    that the database layers took goes to the tables, a settlement to the
    economy, in a goroutine of its own; a spent token is reported to the site.
    [None] is a panic. *)
Definition land (e : Effect) y : option (System C) :=
  match e with
  | DbWrite _ _ => Some (mkSystem (y_worker y) (apply_effect (y_db y) e) (y_commons y))
  | SettleAsync st =>
      match y_commons y with
      | Some c => c' ← ca_SettleAnnounce st c; Some (mkSystem (y_worker y) (y_db y) (Some c'))
      | None => Some y
      end
  | ExpireToken _ _ => Some y
  end.

(** The effects come out in order; they [land] on their own. *)
Definition handleAnnounce env y (req : HttpRequest) (passkey : string) (clientIP : IP)
    (httpClose : bool) : option (System C * list Effect * string) :=
  match w_Users (y_worker y) !! passkey with
  | None => Some (y, [], errorResponse "Passkey not found" httpClose)
  | Some user =>
      match ParseAnnounceParams (QueryGet req) clientIP with
      | Err e => Some (y, [], errorResponse e httpClose)
      | Ok announceReq =>
          let announceReq :=
            if (bool_decide (rq_IP announceReq = []) || IsUnspecified (rq_IP announceReq)) &&
               negb (String.eqb (h_XForwardedFor req) "")
            then announceReq {{ rq_IP := forwarded_ip (h_XForwardedFor req) }}
            else announceReq in
          a ← Announce (r_announce env) (y_worker y) announceReq user clientIP (h_UserAgent req) passkey;
          let w := (an_worker a) {{ w_Users ::= <[passkey := an_user a]> }} in
          Some (with_worker w y, an_effects a,
                match an_result a with
                | Err e => errorResponse e httpClose
                | Ok resp => bencodedAnnounceResponse resp httpClose
                end)
      end
  end.

Definition handleScrape y (req : HttpRequest) (passkey : string) (httpClose : bool) : string :=
  match w_Users (y_worker y) !! passkey with
  | None => errorResponse "Passkey not found" httpClose
  | Some _ => response (scrape_body (w_Torrents (y_worker y)) (h_Query req "info_hash")) httpClose false
  end.

Definition admin_of y : AdminState C :=
  mkAdmin (mkMemory (w_Torrents (y_worker y)) (w_Users (y_worker y)) (w_Whitelist (y_worker y)))
    (y_db y) (y_commons y).
Definition of_admin y (a : AdminState C) : System C :=
  mkSystem ((y_worker y) {{ w_Torrents := m_torrents (a_mem a); w_Users := m_users (a_mem a);
                            w_Whitelist := m_whitelist (a_mem a) }})
    (a_db a) (a_commons a).

Definition handleUpdate env y (req : HttpRequest) (httpClose : bool) : System C * string :=
  let '(a, reply) := HandleUpdate (QueryGet req) (r_dberr env) (r_torder env) (admin_of y) in
  (of_admin y a,
   match reply with
   | Err e => errorResponse e httpClose
   | Ok message => jsonResponse (marshal (ApiUpdate message)) httpClose
   end).

Definition handleTorrentsAPI env y (req : HttpRequest) (httpClose : bool) : option string :=
  l ← GetTorrents (r_torder env) (y_worker y) (queryInt req "limit" 100);
  Some (jsonResponse (marshal (ApiTorrents l)) httpClose).

Definition handlePeersAPI env y (req : HttpRequest) (httpClose : bool) : option string :=
  if String.eqb (QueryGet req "info_hash") "" then Some (errorResponse "Missing info_hash" httpClose)
  else
    r ← GetPeers (e_order (r_announce env)) (y_worker y) (QueryGet req "info_hash")
          (queryInt req "limit" 100);
    Some (match r with
          | Err e => errorResponse e httpClose
          | Ok l => jsonResponse (marshal (ApiPeers l)) httpClose
          end).

Definition count_request (f : Stats -> Stats) y : System C :=
  with_worker ((y_worker y) {{ w_Stats ::= f }}) y.

Definition wants_close (req : HttpRequest) : bool :=
  if 0 <? sc_KeepaliveTimeout cfg then
    if (h_ProtoMajor req =? 1) && (h_ProtoMinor req =? 0) then true
    else String.eqb (to_lower (h_Connection req)) "close"
  else true.

(** Everything behind the site password. *)
Definition handleAdmin env y (req : HttpRequest) (passkey action : string) (httpClose : bool)
    : option (System C * string) :=
  let auth (r : option (System C * string)) :=
    if String.eqb passkey (sc_SitePassword cfg) then r
    else Some (y, errorResponse "Authentication failure" httpClose) in
  if String.eqb action "update" then auth (Some (handleUpdate env y req httpClose))
  else if String.eqb action "stats" then
    auth (Some (y, jsonResponse (marshal (ApiStats (GetStats (e_now (r_announce env)) (y_worker y))))
                     httpClose))
  else if String.eqb action "torrents" then
    auth (r ← handleTorrentsAPI env y req httpClose; Some (y, r))
  else if String.eqb action "peers" then
    auth (r ← handlePeersAPI env y req httpClose; Some (y, r))
  else if String.eqb action "whitelist" then
    auth (Some (y, jsonResponse (marshal (ApiWhitelist (w_Whitelist (y_worker y)))) httpClose))
  else Some (y, response "Nothing to see here" httpClose false).

(** The new state, the effects, the bytes to send, and whether to close. *)
Definition handleRequest env y (req : HttpRequest) (clientIP : IP)
    : option (System C * list Effect * string * bool) :=
  if negb (from_option (fun allow => allow (IPString clientIP)) true (r_allow env)) then
    Some (y, [], errorResponse "rate limit exceeded" true, true)
  else
    let httpClose := wants_close req in
    match path_parts (h_Path req) with
    | passkey :: action :: _ =>
        if negb (String.length passkey =? 32)%nat then
          Some (y, [], errorResponse "Malformed announce" httpClose, httpClose)
        else if String.eqb action "announce" then
          let y := count_request (fun st => st {{ s_Announcements ::= add64 1 }}) y in
          '(y, es, out) ← handleAnnounce env y req passkey clientIP httpClose;
          Some (y, es, out, httpClose)
        else if String.eqb action "scrape" then
          let y := count_request (fun st => st {{ s_Scrapes ::= add64 1 }}) y in
          Some (y, [], handleScrape y req passkey httpClose, httpClose)
        else
          '(y, out) ← handleAdmin env y req passkey action httpClose;
          Some (y, [], out, httpClose)
    | _ => Some (y, [], errorResponse "Malformed announce" httpClose, httpClose)
    end.

(** One connection: each request comes with its environment and how many bytes
    of the answer could be written ([None] when the write fails).  The loop
    ends when the client sends nothing more, a write fails, or either side
    wants to close. *)
Fixpoint handleConnection (remote : IP) (reqs : list (RequestEnv * HttpRequest * option Z)) y
    : option (System C * list string) :=
  match reqs with
  | [] => Some (count_request (fun st => st {{ s_OpenConnections ::= dec32 }}) y, [])
  | (env, req, written) :: reqs' =>
      let y := count_request (fun st => st {{ s_Requests ::= add64 1;
                                              s_BytesRead ::= add64 (u64 (h_ContentLength req)) }}) y in
      '(y, _, out, httpClose) ← handleRequest env y req (getClientIP remote req);
      match written with
      | None => Some (count_request (fun st => st {{ s_OpenConnections ::= dec32 }}) y, [])
      | Some n =>
          let y := count_request (fun st => st {{ s_BytesWritten ::= add64 (u64 n) }}) y in
          if httpClose || negb (0 <? sc_KeepaliveTimeout cfg)
          then Some (count_request (fun st => st {{ s_OpenConnections ::= dec32 }}) y, [out])
          else '(y, outs) ← handleConnection remote reqs' y; Some (y, out :: outs)
      end
  end.

End Handlers.
