(* ===== verification/ServerSpec.v ===== *)
(** * Properties of the HTTP front end *)
From Stdlib Require Import Ascii String.
From S2P Require Import Prelude GoStr NetIP TrackerTypes CircuitBreaker Whitelist GoFloat Ml.
From S2P Require Import Credit Ledger Commons PeerSelect Announce AnnounceLemmas TrackerDB Update.
From S2P Require Import UpdateSpec Bencode Server.
Open Scope string_scope.
Open Scope list_scope.
Open Scope Z_scope.

#[local] Arguments String.append !_ _ / : simpl nomatch.

(** ** What a client reads *)

(** A line, up to its CR LF, and what follows. *)
Fixpoint take_line (s : string) : option (string * string) :=
  match s with
  | "" => None
  | String c r =>
      match c, r with
      | "013"%char, String "010" rest => Some ("", rest)
      | _, _ => '(line, rest) ← take_line r; Some (String c line, rest)
      end
  end.

(** [Name: value] *)
Fixpoint split_header (line : string) : option (string * string) :=
  match line with
  | "" => None
  | String c r =>
      match c, r with
      | ":"%char, String " " value => Some ("", value)
      | _, _ => '(name, value) ← split_header r; Some (String c name, value)
      end
  end.

(** The headers up to the empty line, and what follows it. *)
Fixpoint read_headers (fuel : nat) (s : string) : option (list (string * string) * string) :=
  match fuel with
  | O => None
  | S fuel =>
      '(line, rest) ← take_line s;
      if String.eqb line "" then Some ([], rest)
      else header ← split_header line; '(headers, body) ← read_headers fuel rest; Some (header :: headers, body)
  end.

(** Status line, headers, body; no response is longer than its text. *)
Definition http_read (out : string) : option (string * list (string * string) * string) :=
  '(status, rest) ← take_line out;
  '(headers, body) ← read_headers (String.length out) rest;
  Some (status, headers, body).

Definition http_body (s : string) : option string := snd <$> http_read s.

Definition client_decode (out : string) : option bval := body ← http_body out; bdecode_text body.

(** The headers of every answer. *)
Definition http_headers (contentType body : string) (httpClose : bool) : list (string * string) :=
  [("Content-Type", contentType); ("Content-Length", dec (strlen body));
   ("Connection", if httpClose then "close" else "keep-alive")].

(** A complete response: the status, the three headers, the length among them
    that of the body, and a body that decodes to [v]. *)
Definition replies (out : string) (httpClose : bool) (v : bval) : Prop :=
  exists body, http_read out = Some ("HTTP/1.1 200 OK", http_headers "text/plain" body httpClose, body) /\
    bdecode_text body = Some v.

Definition no_cr (s : string) : Prop := str_all (fun c => negb (Ascii.eqb c "013")) s = true.

Lemma take_line_cr p s : no_cr p -> take_line (p ++ CRLF ++ s) = Some (p, s).
Proof.
  unfold no_cr. induction p as [|c p IH]; simpl; [done|]. intros [Hc Hp]%andb_true_iff.
  simpl in IH. rewrite IH by done. destruct c as [[] [] [] [] [] [] [] []]; done.
Qed.

Lemma dec_no_cr n : no_cr (dec n).
Proof.
  apply (str_all_impl dec_char); [|apply dec_chars]. intros [[] [] [] [] [] [] [] []]; done.
Qed.

Lemma no_cr_app p q : no_cr p -> no_cr q -> no_cr (p ++ q).
Proof.
  unfold no_cr. induction p as [|c p IH]; simpl; [done|]. intros [Hc Hp]%andb_true_iff Hq. by rewrite Hc, IH.
Qed.

Lemma read_header fuel line name value s headers body :
  no_cr line -> split_header line = Some (name, value) -> read_headers fuel s = Some (headers, body) ->
  read_headers (S fuel) (line ++ CRLF ++ s) = Some ((name, value) :: headers, body).
Proof.
  intros Hcr Hs Hr. cbn [read_headers]. rewrite take_line_cr by done. cbn [mbind option_bind].
  destruct (String.eqb_spec line "") as [->|_]; [done|]. rewrite Hs. cbn [mbind option_bind]. by rewrite Hr.
Qed.

Lemma append_assoc3 (a b c : string) : ((a ++ b) ++ c = a ++ (b ++ c))%string.
Proof. apply append_assoc. Qed.

Lemma http_read_text ct content cl :
  no_cr ct -> http_read (http_text ct content cl) = Some ("HTTP/1.1 200 OK", http_headers ct content cl, content).
Proof.
  intros Hct. unfold http_read, http_text, http_headers.
  rewrite (take_line_cr "HTTP/1.1 200 OK") by done. cbn [mbind option_bind].
  set (n := String.length _). assert (exists m, n = S (S (S (S m)))) as [m ->] by (unfold n; simpl; eauto).
  rewrite <- (append_assoc3 "Content-Type: " ct), <- (append_assoc3 "Content-Length: " (dec _)).
  rewrite (read_header _ _ "Content-Type" ct _
    [("Content-Length", dec (strlen content)); ("Connection", if cl then "close" else "keep-alive")] content); [done|..].
  - by apply no_cr_app.
  - done.
  - apply read_header; [apply no_cr_app; [done|apply dec_no_cr]|done|].
    by apply read_header; destruct cl.
Qed.

Lemma http_read_response content cl :
  http_read (response content cl false) = Some ("HTTP/1.1 200 OK", http_headers "text/plain" content cl, content).
Proof. by apply http_read_text. Qed.

Lemma http_body_response content cl html : http_body (response content cl html) = Some content.
Proof. unfold http_body, response. rewrite http_read_text; [done|by destruct html]. Qed.

Lemma replies_bencode v cl : bwf v -> replies (response (bencode v) cl false) cl v.
Proof. intros Hv. exists (bencode v). split; [apply http_read_response|by apply bdecode_text_bencode]. Qed.

(** Text concatenations in normal form. *)
Ltac text := repeat progress (simpl; rewrite ?append_nil_r, ?append_assoc).

(** ** The values behind the texts *)

Definition failure_value (msg : string) : bval := BDict [("failure reason", BStr msg)].

Definition announce_value (resp : AnnounceResponse) : bval :=
  BDict ([("complete", BInt (rs_Complete resp)); ("incomplete", BInt (rs_Incomplete resp));
          ("interval", BInt (rs_Interval resp)); ("min interval", BInt (rs_MinInterval resp));
          ("peers", BStr (string_of_bytes (rs_Peers resp)))] ++
         (if String.eqb (rs_Warning resp) "" then []
          else [("warning message", BStr (rs_Warning resp))])).

Definition scrape_entry (torrents : TorrentList) (h : string) : option (string * bval) :=
  t ← torrents !! h;
  Some (h, BDict [("complete", BInt (Size (t_Seeders t))); ("incomplete", BInt (Size (t_Leechers t)));
                  ("downloaded", BInt (t_Completed t))]).

Definition scrape_value (torrents : TorrentList) (infoHashes : list string) : bval :=
  BDict [("files", BDict (omap (scrape_entry torrents) infoHashes))].

Lemma errorResponse_replies msg cl : replies (errorResponse msg cl) cl (failure_value msg).
Proof.
  unfold errorResponse. replace (_ ++ _)%string with (bencode (failure_value msg)); [by apply replies_bencode|].
  simpl. unfold BencodeString. by rewrite append_nil_r, !append_assoc.
Qed.

Lemma strlen_bytes l : strlen (string_of_bytes l) = Z.of_nat (length l).
Proof.
  unfold strlen, string_of_bytes. f_equal.
  induction l as [|b l IH]; [done|]. rewrite fmap_cons. simpl. by f_equal.
Qed.

Lemma announce_body_bencode resp : announce_body resp = bencode (announce_value resp).
Proof.
  unfold announce_body, announce_value. simpl. unfold BencodeString, BencodeInt.
  rewrite strlen_bytes. destruct (rs_Peers resp) as [|b l]; destruct (String.eqb _ _); text; try done.
  all: unfold BencodeString; by text.
Qed.

Lemma scrape_files_bencode torrents hs :
  write_all (scrape_file torrents <$> hs) =
  write_all (map (fun kv => (BencodeString kv.1 ++ bencode kv.2)%string) (omap (scrape_entry torrents) hs)).
Proof.
  induction hs as [|h hs IH]; [done|]. rewrite fmap_cons. cbn [write_all omap list_omap].
  rewrite IH. unfold scrape_file, scrape_entry at 2.
  destruct (torrents !! h) as [t|]; [|done]. cbn [mbind option_bind map write_all fst snd].
  f_equal. simpl. unfold BencodeString, BencodeInt. by text.
Qed.

Lemma scrape_body_bencode torrents hs : scrape_body torrents hs = bencode (scrape_value torrents hs).
Proof.
  unfold scrape_body, scrape_value. rewrite scrape_files_bencode.
  cbn [bencode map write_all fst snd]. generalize (omap (scrape_entry torrents) hs). intros kvs.
  unfold BencodeString at 2. simpl. by text.
Qed.

(** ** The texts decode *)

Lemma respond_wf cfg peers s : bwf (announce_value (respond cfg peers s)).
Proof.
  assert (forall z, in_i64 (i32 z)) as Hi.
  { intros z. pose proof (wrap_s_range 32 z ltac:(lia)). unfold in_i64, i32. lia. }
  unfold announce_value, respond. cbn [rs_Complete rs_Incomplete rs_Interval rs_MinInterval rs_Peers rs_Warning].
  assert (in_i64 (AdaptiveInterval (Size (t_Seeders (x_torrent s))) (Size (t_Leechers (x_torrent s)))
                    (cfg_AnnounceInterval cfg))) as Ha.
  { unfold AdaptiveInterval. repeat case_match; try apply Hi; unfold in_i64; lia. }
  destruct (_ <? _), (x_invalidIP s); simpl; repeat split; try apply Hi; try apply Ha.
Qed.

Lemma announce_value_canonical resp : canonical (announce_value resp).
Proof.
  unfold announce_value. destruct (String.eqb (rs_Warning resp) ""); simpl; (split; [|done]);
    unfold ascending; simpl; repeat constructor; done.
Qed.

(** Bencoding round trip.  The text [BencodeDict] writes for a dictionary
    of encoded values is read back, whole, as that dictionary with its keys in
    strictly increasing order. *)
Theorem bencode_dict_roundtrip (items : gmap string bval) :
  map_Forall (fun _ v => bwf v) items ->
  exists kvs, bdecode_text (BencodeDict (bencode <$> items)) = Some (BDict kvs) /\
              kvs ≡ₚ map_to_list items /\ ascending kvs.
Proof.
  intros Hwf. destruct (BencodeDict_bencode items) as (kvs & -> & Hasc & Hperm).
  exists kvs. split; [|done]. apply bdecode_text_bencode. simpl.
  assert (Forall (fun kv => bwf kv.2) kvs) as Hall.
  { apply Forall_forall. intros [k v] Hin. rewrite Hperm, elem_of_map_to_list in Hin. by apply Hwf in Hin. }
  clear -Hall. induction Hall; simpl; auto.
Qed.

(** [C12] Every answer to an announce request is a complete HTTP response: the
    status line, the content type, the length of the body that follows, and the
    connection header of what happens to the connection.  Its body decodes: for
    an unknown passkey, and for parameters that do not parse, to the failure dictionary
    with that reason, and nothing else happens; otherwise the announce runs on
    the parsed request (under the forwarded address, where that is used), and the
    body decodes to the failure dictionary with its error, or to a dictionary in
    canonical order with exactly the fields of its response. *)
Theorem announce_reply_decodes {C} `{CommonsAdmin C} env (y y' : System C) req passkey clientIP cl es out :
  handleAnnounce env y req passkey clientIP cl = Some (y', es, out) ->
  match w_Users (y_worker y) !! passkey with
  | None => y' = y /\ es = [] /\ replies out cl (failure_value "Passkey not found")
  | Some user =>
      match ParseAnnounceParams (QueryGet req) clientIP with
      | Err reason => y' = y /\ es = [] /\ replies out cl (failure_value reason)
      | Ok parsed =>
          exists announceReq a,
            (announceReq = parsed \/ announceReq = (parsed {{ rq_IP := forwarded_ip (h_XForwardedFor req) }})) /\
            Announce (r_announce env) (y_worker y) announceReq user clientIP (h_UserAgent req) passkey = Some a /\
            an_effects a = es /\
            match an_result a with
            | Err reason => replies out cl (failure_value reason)
            | Ok resp => replies out cl (announce_value resp) /\ canonical (announce_value resp)
            end
      end
  end.
Proof.
  unfold handleAnnounce. destruct (w_Users (y_worker y) !! passkey) as [user|].
  2: { intros [= <- <- <-]. split_and!; [done..|]. apply errorResponse_replies. }
  destruct (ParseAnnounceParams _ _) as [areq|e].
  2: { intros [= <- <- <-]. split_and!; [done..|]. apply errorResponse_replies. }
  set (areq' := if _ && _ then _ else areq).
  assert (areq' = areq \/ areq' = (areq {{ rq_IP := forwarded_ip (h_XForwardedFor req) }})) as Heq
    by (unfold areq'; destruct (_ && _); auto).
  clearbody areq'.
  destruct (Announce _ _ areq' user clientIP _ passkey) as [a|] eqn:Ha; [|done].
  intros [= _ <- <-]. exists areq', a. split_and!; [done..|].
  destruct (an_result a) as [resp|e] eqn:Hr; [|apply errorResponse_replies].
  split; [|apply announce_value_canonical].
  unfold bencodedAnnounceResponse. rewrite announce_body_bencode. apply replies_bencode.
  destruct (Announce_cases _ _ _ _ _ _ _ _ Ha) as [(_ & _ & _ & m & E)|(t & peers & _ & Hran)].
  - congruence.
  - destruct Hran as (_ & _ & _ & _ & E). rewrite E in Hr. destruct (_ && _); [done|].
    injection Hr as <-. apply respond_wf.
Qed.

(** A scrape by a known user answers with a dictionary that lists exactly
    the requested info hashes that are registered, in the order of the
    request, each with the numbers of seeders, leechers and completions. *)
Theorem scrape_reply_decodes {C} (y : System C) req passkey user cl :
  w_Users (y_worker y) !! passkey = Some user ->
  (forall h t, w_Torrents (y_worker y) !! h = Some t ->
     Size (t_Seeders t) < 2 ^ 63 /\ Size (t_Leechers t) < 2 ^ 63 /\ in_u32 (t_Completed t)) ->
  client_decode (handleScrape y req passkey cl) =
    Some (scrape_value (w_Torrents (y_worker y)) (h_Query req "info_hash")).
Proof.
  intros Hu Hb. unfold handleScrape, client_decode. rewrite Hu, http_body_response. simpl.
  rewrite scrape_body_bencode. apply bdecode_text_bencode. simpl. split; [|done].
  induction (h_Query req "info_hash") as [|h hs IH]; [done|]. simpl. unfold scrape_entry at 1.
  destruct (w_Torrents (y_worker y) !! h) as [t|] eqn:Ht; [|done]. simpl. split; [|done].
  destruct (Hb h t Ht) as (Hs & Hl & Hc). unfold Size, in_i64, in_u32 in *. lia.
Qed.

(** ** What requests can change *)

Definition torrent_view (t : Torrent) : Z * Z * gset Z := (t_ID t, t_FreeType t, t_TokenedUsers t).

(** What administrators control: the registered torrents with their ids, free
    types and freeleech tokens, the users with their rights, the whitelist and
    the economy. *)
Definition admin_view {C} (y : System C) :=
  (torrent_view <$> w_Torrents (y_worker y), user_rights <$> w_Users (y_worker y),
   w_Whitelist (y_worker y), y_commons y).

(** The same without one user's token for one torrent. *)
Definition spend_token {C} (infoHash : string) (uid : Z) (y : System C) : System C :=
  mkSystem ((y_worker y) {{ w_Torrents ::= alter (fun t => t {{ t_TokenedUsers ::= fun us => us ∖ {[uid]} }})
                                              infoHash }})
    (y_db y) (y_commons y).

(** What the tables mirror of it. *)
Definition mirror_view {C} (y : System C) :=
  (t_ID <$> w_Torrents (y_worker y), user_rights <$> w_Users (y_worker y), w_Whitelist (y_worker y)).

Lemma admin_mirror_view {C} (y y' : System C) : admin_view y' = admin_view y -> mirror_view y' = mirror_view y.
Proof.
  intros [= Ht Hu Hw _]. unfold mirror_view. rewrite Hu, Hw. do 2 f_equal.
  apply (f_equal (fmap (fun v => v.1.1))) in Ht. by rewrite <- !map_fmap_compose in Ht.
Qed.

Lemma spend_mirror_view {C} h uid (y : System C) : mirror_view (spend_token h uid y) = mirror_view y.
Proof.
  unfold mirror_view, spend_token. destruct (y_worker y) as [? tl]. cbn. do 2 f_equal. apply map_eq. intros k.
  rewrite !lookup_fmap, lookup_alter. case_decide; [|done]. subst. by destruct (tl !! k) as [[]|].
Qed.

Lemma Announce_view env w req user clientIP ua passkey a :
  Announce env w req user clientIP ua passkey = Some a ->
  (torrent_view <$> w_Torrents (an_worker a) = torrent_view <$> w_Torrents w \/
   torrent_view <$> w_Torrents (an_worker a) =
     torrent_view <$> alter (fun t => t {{ t_TokenedUsers ::= fun us => us ∖ {[u_ID user]} }})
                        (rq_InfoHash req) (w_Torrents w)) /\
  w_Users (an_worker a) = w_Users w /\ w_Whitelist (an_worker a) = w_Whitelist w /\
  user_rights (an_user a) = user_rights user /\ Forall (about_user (u_ID user)) (an_effects a).
Proof.
  intros Ha. destruct (Announce_cases _ _ _ _ _ _ _ _ Ha) as [(-> & -> & -> & _)|(t & peers & Ht & Hran)].
  { split; [by left|]. by split_and!. }
  destruct Hran as (_ & -> & -> & -> & _).
  pose proof (final_owned env w req user clientIP ua t) as Hown.
  pose proof (final_kept env w req user clientIP ua t) as Hk. revert Hk Hown.
  generalize (session_of env w req user clientIP ua t).
  generalize (final_session env w req user clientIP ua t). intros s' s Hk Hown.
  split; [|by split_and!]. cbn zeta in Hk. simpl.
  destruct Hk as [Hk|Hk]; [left|right].
  - rewrite fmap_insert. apply insert_id. rewrite lookup_fmap, Ht. simpl. f_equal. symmetry. exact Hk.
  - apply map_eq. intros k. rewrite !lookup_fmap, lookup_insert, lookup_alter.
    case_decide; [subst|done]. rewrite Ht. simpl. f_equal. destruct t. exact Hk.
Qed.

Section Auth.
Context {C : Type} `{CommonsAdmin C} (cfg : ServerConfig) (marshal : ApiValue -> string).
Implicit Types (y : System C).

Lemma ParseAnnounceParams_hash get clientIP areq :
  ParseAnnounceParams get clientIP = Ok areq -> rq_InfoHash areq = get "info_hash".
Proof. unfold ParseAnnounceParams. repeat case_match; intros [=]; by subst. Qed.

Lemma handleAnnounce_view env y req passkey ip cl y' es out :
  handleAnnounce env y req passkey ip cl = Some (y', es, out) ->
  (y' = y /\ es = []) \/
  exists user, w_Users (y_worker y) !! passkey = Some user /\
    Forall (about_user (u_ID user)) es /\
    (admin_view y' = admin_view y \/
     admin_view y' = admin_view (spend_token (QueryGet req "info_hash") (u_ID user) y)).
Proof.
  unfold handleAnnounce. destruct (w_Users (y_worker y) !! passkey) as [user|] eqn:Hu.
  2: { intros [= <- <- _]. by left. }
  destruct (ParseAnnounceParams _ _) as [areq|e] eqn:Ep; [|intros [= <- <- _]; by left].
  apply ParseAnnounceParams_hash in Ep.
  set (areq' := if _ && _ then _ else areq).
  assert (rq_InfoHash areq' = QueryGet req "info_hash") as Eh
    by (unfold areq'; destruct (_ && _); [by destruct areq|done]).
  clearbody areq'.
  destruct (Announce _ _ areq' user ip _ passkey) as [a|] eqn:Ha; [|done].
  intros [= <- <- _]. right. exists user. split; [done|].
  destruct (Announce_view _ _ _ _ _ _ _ _ Ha) as (Ht & Hus & Hw & Hr & He). split; [done|].
  assert (user_rights <$> <[passkey := an_user a]> (w_Users (y_worker y)) = user_rights <$> w_Users (y_worker y)) as Hrights.
  { rewrite fmap_insert. apply insert_id. rewrite lookup_fmap, Hu. simpl. by f_equal. }
  rewrite Eh in Ht. unfold admin_view, with_worker. destruct (an_worker a). simpl in *. subst.
  rewrite Hrights. destruct Ht as [-> | ->]; [by left|right]. by destruct (y_worker y).
Qed.

Lemma handleAnnounce_mirror_view env y req passkey ip cl y' es out :
  handleAnnounce env y req passkey ip cl = Some (y', es, out) ->
  mirror_view y' = mirror_view y /\ y_db y' = y_db y.
Proof.
  intros Ha. split.
  - destruct (handleAnnounce_view _ _ _ _ _ _ _ _ _ Ha) as [[-> _]|(user & _ & _ & [E|E])]; [done|..];
      apply admin_mirror_view in E; [done|]. by rewrite E, spend_mirror_view.
  - revert Ha. unfold handleAnnounce. destruct (w_Users _ !! _); [|by intros [= <- _ _]].
    destruct (ParseAnnounceParams _ _); [|by intros [= <- _ _]].
    destruct (Announce _ _ _ _ _ _ _); [|done]. by intros [= <- _ _].
Qed.

Lemma handleAdmin_auth env y req passkey action cl y' out :
  handleAdmin cfg marshal env y req passkey action cl = Some (y', out) ->
  y' = y \/ passkey = sc_SitePassword cfg /\ action = "update" /\
            y' = (handleUpdate marshal env y req cl).1.
Proof.
  unfold handleAdmin.
  destruct (String.eqb_spec action "update") as [->|_].
  { destruct (String.eqb_spec passkey (sc_SitePassword cfg)); [|intros [= <- _]; by left].
    destruct (handleUpdate marshal env y req cl). intros [= <- _]. by right. }
  destruct (handleTorrentsAPI _ _ _ _ _); destruct (handlePeersAPI _ _ _ _ _); simpl;
    repeat case_match; try done; intros [= <- _]; by left.
Qed.

End Auth.

Lemma count_request_view {C} f (y : System C) : admin_view (count_request f y) = admin_view y.
Proof. by destruct y as [[] ? ?]. Qed.

Lemma count_spend_view {C} f h uid (y : System C) :
  admin_view (spend_token h uid (count_request f y)) = admin_view (spend_token h uid y).
Proof. by destruct y as [[] ? ?]. Qed.

(** A request for an action of the tracker, under a user's passkey. *)
Definition requests (req : HttpRequest) (passkey action : string) : Prop :=
  exists rest, path_parts (h_Path req) = passkey :: action :: rest.

(** [C11] Authorization.  Serving a request leaves everything administrators
    control as it was, the economy included, with two exceptions: an [update]
    under the site password, and an announce, which may spend the announcing
    user's own freeleech token for the announced torrent.  What an announce still
    has to do when it has answered (settle its traffic in the economy, report a
    spent token) is about the announcing user.  A request under a passkey that is neither the
    site password nor a user's has no effect at all outside the request
    counters. *)
Theorem request_auth {C} `{CommonsAdmin C} cfg marshal env (y y' : System C) req ip es out cl :
  handleRequest cfg marshal env y req ip = Some (y', es, out, cl) ->
  (admin_view y' = admin_view y \/
   requests req (sc_SitePassword cfg) "update" \/
   exists passkey user, requests req passkey "announce" /\
     w_Users (y_worker y) !! passkey = Some user /\
     admin_view y' = admin_view (spend_token (QueryGet req "info_hash") (u_ID user) y)) /\
  (es = [] \/
   exists passkey user, requests req passkey "announce" /\
     w_Users (y_worker y) !! passkey = Some user /\ Forall (about_user (u_ID user)) es) /\
  (forall passkey rest, path_parts (h_Path req) = passkey :: rest ->
     passkey <> sc_SitePassword cfg -> w_Users (y_worker y) !! passkey = None ->
     es = [] /\ exists f, y' = count_request f y).
Proof.
  assert (forall z : System C, exists f, z = count_request f z) as Hid.
  { intros z. exists id. destruct z as [[] ? ?]. done. }
  unfold handleRequest. destruct (negb _).
  { intros [= <- <- _ _]. split; [by left|]. split; [by left|]. auto. }
  destruct (path_parts (h_Path req)) as [|passkey [|action rest]] eqn:Epath;
    [intros [= <- <- _ _]; split_and!; by eauto..|].
  destruct (negb _).
  { intros [= <- <- _ _]. split; [by left|]. split; [by left|]. auto. }
  destruct (String.eqb_spec action "announce") as [->|_].
  { destruct (handleAnnounce _ _ _ _ _ _) as [[[y1 es1] out1]|] eqn:Ha; [|done].
    intros [= <- <- _ _].
    assert (requests req passkey "announce") as Hreq by (exists rest; done).
    apply handleAnnounce_view in Ha as [[-> ->]|(user & Hu & He & Hv)].
    - rewrite count_request_view. split; [by left|]. split; [by left|]. intros _ _ _ _ _. eauto.
    - rewrite count_request_view, count_spend_view in Hv. cbn [count_request] in Hu.
      assert (w_Users (y_worker y) !! passkey = Some user) as Hu' by (by destruct y as [[] ? ?]).
      split; [destruct Hv; [by left|right; right; eauto 6]|]. split; [right; eauto 6|].
      intros pk rest' [= <- <-] _ Hnone. congruence. }
  destruct (String.eqb action "scrape").
  { intros [= <- <- _ _]. rewrite count_request_view. split; [by left|]. split; [by left|]. eauto. }
  destruct (handleAdmin _ _ _ _ _ _ _ _) as [[y1 out1]|] eqn:Ha; [|done].
  intros [= <- <- _ _]. apply handleAdmin_auth in Ha as [->|(-> & -> & ->)].
  - split; [by left|]. split; [by left|]. auto.
  - split; [right; left; by exists rest|]. split; [by left|]. intros pk rest' [= <- _] Hne. done.
Qed.

(** ** Memory and tables under requests *)

Lemma users_mirror_ext ul ul' db db' :
  user_rights <$> ul' = user_rights <$> ul -> td_passkeys db' = td_passkeys db ->
  users_mirror ul db -> users_mirror ul' db'.
Proof.
  intros E Edb Hm pk id cl pi. rewrite Edb, <- (Hm pk id cl pi).
  assert (forall l : UserList, (exists u, l !! pk = Some u /\ u_ID u = id /\ u_CanLeech u = cl /\ u_ProtectIP u = pi)
            <-> (user_rights <$> l) !! pk = Some (id, cl, pi)) as Hl.
  { intros l. rewrite lookup_fmap, fmap_Some. unfold user_rights. split.
    - intros (u & Hu & <- & <- & <-). eauto.
    - intros (u & Hu & [= -> -> ->]). eauto. }
  by rewrite !Hl, E.
Qed.

Lemma torrents_mirror_ext tl tl' db db' :
  t_ID <$> tl' = t_ID <$> tl -> td_hashes db' = td_hashes db ->
  (forall id, is_Some (td_torrents db !! id) -> is_Some (td_torrents db' !! id)) ->
  torrents_mirror tl db -> torrents_mirror tl' db'.
Proof.
  intros Eid Eh Hmono [Hm Hrow].
  split.
  - intros h id. rewrite Eh, <- (Hm h id).
    assert (forall l : TorrentList, (exists t, l !! h = Some t /\ t_ID t = id) <->
              (t_ID <$> l) !! h = Some id) as Hl.
    { intros l. rewrite lookup_fmap, fmap_Some. naive_solver. }
    by rewrite !Hl, Eid.
  - intros id h. rewrite Eh. intros Hid. by eapply Hmono, Hrow.
Qed.

Lemma apply_effect_tables e db :
  let db' := apply_effect db e in
  td_hashes db' = td_hashes db /\ td_passkeys db' = td_passkeys db /\
  td_whitelist db' = td_whitelist db /\
  (forall id, is_Some (td_torrents db !! id) -> is_Some (td_torrents db' !! id)).
Proof.
  destruct e as [[] [|[]]| |]; simpl; split_and!; try done.
  intros id Hid. rewrite lookup_insert_is_Some. destruct (decide (torrentID = id)); [by left|by right].
Qed.

Definition system_mirrors {C} (y : System C) : Prop := mirrors (a_mem (admin_of y)) (y_db y).

Lemma system_mirrors_view {C} (y y' : System C) :
  mirror_view y' = mirror_view y ->
  td_hashes (y_db y') = td_hashes (y_db y) -> td_passkeys (y_db y') = td_passkeys (y_db y) ->
  td_whitelist (y_db y') = td_whitelist (y_db y) ->
  (forall id, is_Some (td_torrents (y_db y) !! id) -> is_Some (td_torrents (y_db y') !! id)) ->
  system_mirrors y -> system_mirrors y'.
Proof.
  intros [= Ht Hu Hw] Eh Ep Ew Hmono (Mu & Mt & Mw & Me). split_and!; simpl in *.
  - by eapply users_mirror_ext.
  - by eapply torrents_mirror_ext.
  - congruence.
  - apply (f_equal (fun m => m !! "")) in Ht. rewrite !lookup_fmap, Me in Ht. simpl in Ht.
    by apply fmap_None in Ht.
Qed.

(** An effect of an announce that arrives, whenever it does. *)
Lemma land_mirrors {C} `{CommonsAdmin C} e (y y' : System C) :
  land e y = Some y' -> system_mirrors y -> system_mirrors y'.
Proof.
  destruct e as [op o|st|t u]; cbn [land].
  - intros [= <-]. destruct (apply_effect_tables (DbWrite op o) (y_db y)) as (? & ? & ? & ?).
    by apply system_mirrors_view.
  - destruct (y_commons y); [|by intros [= <-]]. destruct (ca_SettleAnnounce st c); [|done].
    intros [= <-]. by apply system_mirrors_view.
  - by intros [= <-].
Qed.

Section Mirror.
Context {C : Type} `{CommonsAdmin C} (cfg : ServerConfig) (marshal : ApiValue -> string).
Implicit Types (y : System C).

Lemma handleRequest_mirrors env y req ip y' es out cl :
  map_order (r_torder env) -> (forall w, r_dberr env w = None) -> fresh (QueryGet req) (admin_of y) ->
  handleRequest cfg marshal env y req ip = Some (y', es, out, cl) ->
  system_mirrors y -> system_mirrors y'.
Proof.
  intros Ho Hdb Hf. unfold handleRequest. destruct (negb _); [by intros [= <- _ _ _]|].
  destruct (path_parts (h_Path req)) as [|passkey [|action rest]]; [by intros [= <- _ _ _]..|].
  destruct (negb _); [by intros [= <- _ _ _]|].
  destruct (String.eqb action "announce").
  { destruct (handleAnnounce _ _ _ _ _ _) as [[[y1 es1] out1]|] eqn:Ha; [|done].
    intros [= <- <- _ _]. apply handleAnnounce_mirror_view in Ha as [Hv Hdb'].
    apply system_mirrors_view; rewrite ?Hdb'; done. }
  destruct (String.eqb action "scrape").
  { intros [= <- <- _ _]. by apply system_mirrors_view. }
  destruct (handleAdmin _ _ _ _ _ _ _ _) as [[y1 out1]|] eqn:Ha; [|done].
  intros [= <- <- _ _]. apply handleAdmin_auth in Ha as [->|(-> & -> & ->)]; [done|].
  intros Hm. pose proof (HandleUpdate_ok _ _ _ _ Ho Hdb Hf Hm) as Hok.
  unfold handleUpdate. destruct (HandleUpdate _ _ _ _) as [a reply]. simpl in *.
  destruct a as [[] ? ?]. exact Hok.
Qed.

(** [serves y y']: a sequence of requests, each answered, leads from [y] to
    [y'], while effects of announces (any effect, at any time) arrive in between.
    No administrative write fails, and added ids are unused. *)
Inductive serves : System C -> System C -> Prop :=
| serves_nil y : serves y y
| serves_cons env req ip y y1 y' es out cl :
    map_order (r_torder env) -> (forall w, r_dberr env w = None) -> fresh (QueryGet req) (admin_of y) ->
    handleRequest cfg marshal env y req ip = Some (y1, es, out, cl) ->
    serves y1 y' -> serves y y'
| serves_land e y y1 y' : land e y = Some y1 -> serves y1 y' -> serves y y'.

End Mirror.

(** Whatever requests are served, announces, scrapes and updates in any
    order, and whenever the effects of announces arrive, the tracker's memory and its tables stay in step: the same torrents
    under the same ids, the same users with the same rights, the same
    whitelist. *)
Theorem requests_keep_mirror {C} `{CommonsAdmin C} cfg marshal (y y' : System C) :
  mirrors (a_mem (admin_of y)) (y_db y) -> serves cfg marshal y y' ->
  mirrors (a_mem (admin_of y')) (y_db y').
Proof.
  intros Hm Hs. induction Hs as [|env req ip y y1 y' es out cl Ho Hdb Hf Hr Hs IH|e y y1 y' Hl Hs IH]; [done|..];
    apply IH; [by eapply handleRequest_mirrors|by eapply land_mirrors].
Qed.

(** ** A concrete tracker: one user, one torrent, no economy, mirrored tables *)

#[local] Instance NoCommons : CommonsAdmin unit :=
  {| ca_SetUserPriority _ _ c := (c, None); ca_SetUserBudget _ _ _ c := (c, None);
     ca_SettleAnnounce _ c := Some c |}.

Module DemoServer.

Definition pk : string := "0123456789abcdef0123456789abcdef".
Definition password : string := "fedcba9876543210fedcba9876543210".
Definition cfg : ServerConfig := mkServerConfig (5 * Second) password.
Definition marshal (_ : ApiValue) : string := "{}".

Definition worker : Worker :=
  mkWorker (mkConfig 1800 7200 50 1800) {[ "H" := NewTorrent 3 ]} {[ pk := NewUser 9 true false ]} []
    zeroStats None false None None None None.
Definition system : System unit :=
  mkSystem worker
    (mkTDB {[3 := mkTorrentRow 0 0 0 0 0]} {[3 := "H"]} {[9 := mkPasskeyRow pk true false]} [] ∅) None.

Definition now : Z := unixToInternal + 5.
Definition env : RequestEnv :=
  mkReqEnv
    (mkEnv now (fun _ => (now, now, true)) map_to_list
       (mkDraws (fun _ => 0%nat) (fun _ => 0%nat) (fun _ => 0%nat) (fun _ => 0%nat)) id
       (fun _ => (now, now, now)))
    None (fun _ => None) map_to_list.

Definition query (l : list (string * string)) (k : string) : list string :=
  omap (fun kv => if String.eqb kv.1 k then Some kv.2 else None) l.

Definition http (path : string) (l : list (string * string)) : HttpRequest :=
  mkHttp path (query l) "" "" "Transmission" 1 1 0.

Definition announce : HttpRequest :=
  http ("/" ++ pk ++ "/announce")
    [("info_hash", "H"); ("peer_id", "-TR2940-0123456789ab"); ("port", "6881"); ("left", "700");
     ("compact", "1"); ("event", "started")].
Definition scrape : HttpRequest := http ("/" ++ pk ++ "/scrape") [("info_hash", "X"); ("info_hash", "H")].
Definition clientIP : IP := [8; 8; 4; 4].

Lemma one_user passkey uid cl pi db :
  td_passkeys db = {[uid := mkPasskeyRow passkey cl pi]} ->
  users_mirror {[ passkey := NewUser uid cl pi ]} db.
Proof.
  intros E pk' id cl' pi'. rewrite E, lookup_singleton_Some. split.
  - intros (u & [<- <-]%lookup_singleton_Some & <- & <- & <-). done.
  - intros [<- [= <- <- <-]]. exists (NewUser uid cl pi). by rewrite lookup_singleton_Some.
Qed.

Lemma one_torrent h tid row db :
  td_hashes db = {[tid := h]} -> td_torrents db = {[tid := row]} ->
  torrents_mirror {[ h := NewTorrent tid ]} db.
Proof.
  intros Eh Et. split.
  - intros h' id. rewrite Eh, lookup_singleton_Some. split.
    + intros (t & [<- <-]%lookup_singleton_Some & <-). done.
    + intros [<- <-]. exists (NewTorrent tid). by rewrite lookup_singleton_Some.
  - intros id h'. rewrite Eh, Et. intros [<- _]%lookup_singleton_Some.
    eexists. by apply lookup_singleton_Some.
Qed.

Lemma mirrored : mirrors (a_mem (admin_of system)) (y_db system).
Proof.
  split_and!; [by apply one_user|by eapply one_torrent|done|done].
Qed.

End DemoServer.
Import DemoServer.

Lemma bencode_dict_roundtrip_witness :
  exists kvs, bdecode_text (BencodeDict {["b" := "i1e"; "a" := "1:x"]}) = Some (BDict kvs) /\ ascending kvs.
Proof.
  destruct (bencode_dict_roundtrip {["b" := BInt 1; "a" := BStr "x"]}) as (kvs & E & _ & Ha).
  - intros k v [[<- <-]|[_ [<- <-]%lookup_singleton_Some]]%lookup_insert_Some; [|done].
    simpl. range.
  - exists kvs. split; [|done]. rewrite <- E. reflexivity.
Defined.

Lemma announce_reply_decodes_witness :
  exists y' es out, handleAnnounce env system announce pk clientIP false = Some (y', es, out) /\
    exists resp, replies out false (announce_value resp).
Proof.
  destruct (handleAnnounce env system announce pk clientIP false) as [[[y' es] out]|] eqn:E;
    [|vm_compute in E; discriminate].
  exists y', es, out. split; [done|].
  destruct (announce_reply_decodes _ _ _ _ _ _ _ _ _ E) as (q & a & Hq & Ha & _ & Hr).
  destruct (an_result a) as [resp|reason] eqn:Er; [destruct Hr; eauto|].
  exfalso. destruct Hq as [-> | ->]; vm_compute in Ha; injection Ha as <-; discriminate Er.
Defined.

Lemma scrape_reply_decodes_witness :
  client_decode (handleScrape system scrape pk false) =
    Some (BDict [("files", BDict [("H", BDict [("complete", BInt 0); ("incomplete", BInt 0);
                                               ("downloaded", BInt 0)])])]).
Proof.
  rewrite (scrape_reply_decodes system scrape pk (NewUser 9 true false) false); [reflexivity|reflexivity|].
  intros h t Ht. change (({["H" := NewTorrent 3]} : TorrentList) !! h = Some t) in Ht.
  apply lookup_singleton_Some in Ht as [_ <-]. split; [reflexivity|]. split; [reflexivity|].
  split; [discriminate|reflexivity].
Defined.

(** A finished download spends the token of user 9. *)
Definition tokened : System unit :=
  mkSystem (worker {{ w_Torrents := {["H" := (NewTorrent 3) {{ t_TokenedUsers := {[9; 7]} }}]} }}) (y_db system) None.

Lemma request_auth_witness :
  exists y' es out cl, handleRequest cfg marshal env tokened announce clientIP = Some (y', es, out, cl) /\
    (admin_view y' = admin_view tokened \/
     requests announce password "update" \/
     exists passkey user, requests announce passkey "announce" /\
       w_Users (y_worker tokened) !! passkey = Some user /\
       admin_view y' = admin_view (spend_token (QueryGet announce "info_hash") (u_ID user) tokened)).
Proof.
  destruct (handleRequest cfg marshal env tokened announce clientIP) as [[[[y' es] out] cl]|] eqn:E;
    [|vm_compute in E; discriminate].
  exists y', es, out, cl. split; [done|].
  apply (request_auth cfg marshal env tokened y' announce clientIP es out cl E).
Defined.

Lemma requests_keep_mirror_witness :
  exists y', serves cfg marshal system y' /\ y' <> system /\ mirrors (a_mem (admin_of y')) (y_db y').
Proof.
  destruct (handleRequest cfg marshal env system announce clientIP) as [[[[y' es] out] cl]|] eqn:E;
    [|vm_compute in E; discriminate].
  assert (serves cfg marshal system y') as Hs.
  { eapply (serves_cons cfg marshal env announce clientIP system y'); [by intros m|done| |exact E|apply serves_nil].
    split; intros Hact; vm_compute in Hact; discriminate. }
  exists y'. split; [exact Hs|]. split.
  - intros ->. apply (f_equal (fmap (fun r => s_Announcements (w_Stats (y_worker r.1.1.1))))) in E.
    vm_compute in E. discriminate.
  - apply (requests_keep_mirror cfg marshal system y'); [apply mirrored|exact Hs].
Defined.
