(* ===== verification/Udp.v ===== *)
(** * The UDP front end, BEP 15 (tracker/udp.go)

    [handle] is one datagram: the packet, the source address, the readings of
    the clock and the random connection id that the handlers use.  The result
    is the new state, the effects of an announce and the datagram sent back,
    if any.  A packet is a list of bytes; slices are in range because the
    length is checked first.  The receive loop and its bounded pool of
    goroutines, which drops packets under load, are left out.

    The theorems: the answers to announces and scrapes decode to what was meant, only a
    live connection id of the sender's address is served, and what a refused announce
    leaves. *)
From Stdlib Require Import String.
From S2P Require Import Prelude GoStr NetIP TrackerTypes Whitelist PeerSelect Announce TrackerDB Update.
From S2P Require Import UpdateSpec Bencode Server ServerSpec.
Open Scope string_scope.
Open Scope list_scope.
Open Scope Z_scope.

Definition udpMagicConnectionID : Z := 0x41727101980.
Definition udpActionConnect : Z := 0.
Definition udpActionAnnounce : Z := 1.
Definition udpActionScrape : Z := 2.
Definition udpActionError : Z := 3.
Definition udpConnectReqSize : Z := 16.
Definition udpAnnounceReqSize : Z := 98.
Definition udpScrapeMinReq : Z := 16.
Definition udpConnIDTTL : Z := 2 * Minute.

(** ** [binary.BigEndian] *)

Fixpoint put_be (n : nat) (v : Z) : list Z :=
  match n with
  | O => []
  | S n' => put_be n' (v / 256) ++ [v mod 256]
  end.
Definition PutUint32 (v : Z) : list Z := put_be 4 v.
Definition PutUint64 (v : Z) : list Z := put_be 8 v.

Definition get_be (bs : list Z) : Z := foldl (fun acc b => acc * 256 + b) 0 bs.

(** [pkt[a:b]] *)
Definition slice (a b : nat) (pkt : list Z) : list Z := take (b - a) (drop a pkt).
Definition field (a b : nat) (pkt : list Z) : Z := get_be (slice a b pkt).

(** ** Connection ids *)

Record udpConnRecord := mkConn { uc_ip : IP; uc_expires : Z }.
Abbreviation ConnIDs := (gmap Z udpConnRecord).

Definition evictExpired (now : Z) (conns : ConnIDs) : ConnIDs :=
  filter (fun kv => now <= uc_expires kv.2) conns.

Definition issueConnID (t0 t1 id : Z) (ip : IP) (conns : ConnIDs) : ConnIDs :=
  evictExpired t1 (<[id := mkConn ip (t0 + udpConnIDTTL)]> conns).

Definition validateConnID (now id : Z) (ip : IP) (conns : ConnIDs) : ConnIDs * bool :=
  match conns !! id with
  | None => (conns, false)
  | Some rec =>
      if uc_expires rec <? now then (delete id conns, false) else (conns, IPEqual (uc_ip rec) ip)
  end.

(** ** Messages *)

Definition sendError (transID : Z) (msg : string) : list Z :=
  PutUint32 udpActionError ++ PutUint32 transID ++ bytes_of_string msg.

Definition udpEvent (code : Z) : string :=
  if code =? 1 then "completed" else if code =? 2 then "started"
  else if code =? 3 then "stopped" else "".

(** The address an announce is for: the override, or the source. *)
Definition udp_clientIP (pkt : list Z) (ip : IP) : IP :=
  let ipOverride := field 84 88 pkt in
  if ipOverride =? 0 then ip
  else [u8 (ipOverride / 2 ^ 24); u8 (ipOverride / 2 ^ 16); u8 (ipOverride / 2 ^ 8); u8 ipOverride].

Definition udp_numwant (limit numWantRaw : Z) : Z :=
  if (numWantRaw <? 0) || (i32 limit <? numWantRaw) then i32 limit else numWantRaw.

(** The request an announce packet makes. *)
Definition udp_request (limit : Z) (pkt : list Z) (ip : IP) : AnnounceRequest :=
  {| rq_InfoHash := string_of_bytes (slice 16 36 pkt);
     rq_PeerID := slice 36 56 pkt;
     rq_Port := field 96 98 pkt;
     rq_Uploaded := i64 (field 72 80 pkt);
     rq_Downloaded := i64 (field 56 64 pkt);
     rq_Left := i64 (field 64 72 pkt);
     rq_Corrupt := 0;
     rq_Compact := true;
     rq_NoPeerID := false;
     rq_Event := udpEvent (field 80 84 pkt);
     rq_IP := udp_clientIP pkt ip;
     rq_NumWant := udp_numwant limit (i32 (field 92 96 pkt));
     rq_Key := "";
     rq_TrackerID := "" |}.

Definition udp_announce_reply (transID : Z) (resp : AnnounceResponse) : list Z :=
  let peerCount := (length (rs_Peers resp) / 6)%nat in
  PutUint32 udpActionAnnounce ++ PutUint32 transID ++ PutUint32 (u32 (rs_Interval resp)) ++
  PutUint32 (u32 (rs_Incomplete resp)) ++ PutUint32 (u32 (rs_Complete resp)) ++
  take (peerCount * 6) (rs_Peers resp).

(** Seeders, completions and leechers of one info hash; zeroes if unknown. *)
Definition scrape_counts (torrents : TorrentList) (infoHash : string) : list Z :=
  match torrents !! infoHash with
  | None => PutUint32 0 ++ PutUint32 0 ++ PutUint32 0
  | Some t => PutUint32 (u32 (Size (t_Seeders t))) ++ PutUint32 (t_Completed t) ++
              PutUint32 (u32 (Size (t_Leechers t)))
  end.

Definition udp_scrape_reply (torrents : TorrentList) (transID : Z) (pkt : list Z) : list Z :=
  let infoHashes := Nat.min ((length pkt - 16) / 20) 74 in
  PutUint32 udpActionScrape ++ PutUint32 transID ++
  concat ((fun i => let offset := (16 + i * 20)%nat in
                    scrape_counts torrents (string_of_bytes (slice offset (offset + 20) pkt)))
          <$> seq 0 infoHashes).

(** ** Handlers *)

Record UdpPacket := mkUdp {
  up_pkt : list Z;
  up_ip : IP;
  up_t0 : Z;
  up_t1 : Z;
  up_rand : Z;
  up_env : AnnounceEnv
}.

Record UdpState := mkUdpState { us_worker : Worker; us_conns : ConnIDs }.

(** New state, effects, and the datagram sent. *)
Abbreviation Handled := (UdpState * list Effect * option (list Z))%type.

Section Udp.
Implicit Types (p : UdpPacket) (s : UdpState).

Definition transID p : Z := field 12 16 (up_pkt p).
Definition connID p : Z := field 0 8 (up_pkt p).
Definition action p : Z := field 8 12 (up_pkt p).
Definition pkt_len p : Z := Z.of_nat (length (up_pkt p)).

Definition fail p (msg : string) s : Handled := (s, [], Some (sendError (transID p) msg)).

Definition handleConnect p s : Handled :=
  if pkt_len p <? udpConnectReqSize then (s, [], None)
  else if negb (connID p =? udpMagicConnectionID) then fail p "invalid connection id" s
  else
    (mkUdpState (us_worker s) (issueConnID (up_t0 p) (up_t1 p) (up_rand p) (up_ip p) (us_conns s)), [],
     Some (PutUint32 udpActionConnect ++ PutUint32 (transID p) ++ PutUint64 (up_rand p))).

Definition handleUdpAnnounce p s : option Handled :=
  if pkt_len p <? udpAnnounceReqSize then Some (fail p "packet too short" s)
  else
    let '(conns, valid) := validateConnID (up_t0 p) (connID p) (up_ip p) (us_conns s) in
    let s := mkUdpState (us_worker s) conns in
    if negb valid then Some (fail p "invalid or expired connection id" s)
    else
      let w := us_worker s in
      match w_Users w !! "" with
      | None => Some (fail p "passkey required for this tracker" s)
      | Some user =>
          let req := udp_request (cfg_NumWantLimit (w_Config w)) (up_pkt p) (up_ip p) in
          a ← Announce (up_env p) w req user (rq_IP req) "UDP/BEP15" "";
          let s := mkUdpState ((an_worker a) {{ w_Users ::= <["" := an_user a]> }}) (us_conns s) in
          Some (s, an_effects a,
                Some (match an_result a with
                      | Err e => sendError (transID p) e
                      | Ok resp => udp_announce_reply (transID p) resp
                      end))
      end.

Definition handleUdpScrape p s : Handled :=
  if pkt_len p <? udpScrapeMinReq then fail p "packet too short" s
  else
    let '(conns, valid) := validateConnID (up_t0 p) (connID p) (up_ip p) (us_conns s) in
    let s := mkUdpState (us_worker s) conns in
    if negb valid then fail p "invalid or expired connection id" s
    else (s, [], Some (udp_scrape_reply (w_Torrents (us_worker s)) (transID p) (up_pkt p))).

Definition handle p s : option Handled :=
  if pkt_len p <? 16 then Some (s, [], None)
  else if action p =? udpActionConnect then Some (handleConnect p s)
  else if action p =? udpActionAnnounce then handleUdpAnnounce p s
  else if action p =? udpActionScrape then Some (handleUdpScrape p s)
  else Some (fail p "unknown action" s).

(** A run of packets. *)
Fixpoint handle_all (ps : list UdpPacket) s : option UdpState :=
  match ps with
  | [] => Some s
  | p :: ps' => '(s', _, _) ← handle p s; handle_all ps' s'
  end.

End Udp.

(** ** Big-endian lemmas *)

Lemma put_be_length n v : length (put_be n v) = n.
Proof. revert v. induction n as [|n IH]; intros v; simpl; [done|]. rewrite length_app, IH. simpl. lia. Qed.

Lemma get_be_app a b : get_be (a ++ [b]) = get_be a * 256 + b.
Proof. unfold get_be. by rewrite foldl_app. Qed.

Lemma get_put_be n v : 0 <= v < 256 ^ Z.of_nat n -> get_be (put_be n v) = v.
Proof.
  revert v. induction n as [|n IH]; intros v Hv.
  - simpl in *. unfold get_be. simpl. lia.
  - cbn [put_be]. rewrite get_be_app, IH.
    + pose proof (Z.div_mod v 256). lia.
    + rewrite Nat2Z.inj_succ, Z.pow_succ_r in Hv by lia. split.
      * apply Z.div_pos; lia.
      * apply Z.div_lt_upper_bound; lia.
Qed.

Lemma put_be_bytes n v : byte_list (put_be n v).
Proof.
  revert v. induction n as [|n IH]; intros v; simpl; [constructor|].
  apply Forall_app. split; [apply IH|]. constructor; [|constructor]. apply Z.mod_pos_bound. lia.
Qed.

(** Reading a slice of a concatenation. *)
Lemma slice_skip a b (l r : list Z) :
  (length l <= a)%nat -> slice a b (l ++ r) = slice (a - length l) (b - length l) r.
Proof.
  intros Hl. unfold slice. rewrite drop_app_ge by lia. f_equal. lia.
Qed.

Lemma slice_here (l r : list Z) : slice 0 (length l) (l ++ r) = l.
Proof. unfold slice. rewrite drop_0, Nat.sub_0_r. apply take_app_length. Qed.

Lemma slice_head n (l r : list Z) : n = length l -> slice 0 n (l ++ r) = l.
Proof. intros ->. apply slice_here. Qed.

(** * Properties of the UDP front end *)

(** ** Packets as a client builds them (BEP 15) *)

Record ClientAnnounce := mkCA {
  ca_hash : list Z; ca_peer : list Z;
  ca_downloaded : Z; ca_left : Z; ca_uploaded : Z;
  ca_event : Z; ca_ip : Z; ca_key : Z; ca_numwant : Z; ca_port : Z
}.

Definition announce_packet (cid tid : Z) (c : ClientAnnounce) : list Z :=
  PutUint64 cid ++ PutUint32 udpActionAnnounce ++ PutUint32 tid ++ ca_hash c ++ ca_peer c ++
  PutUint64 (u64 (ca_downloaded c)) ++ PutUint64 (u64 (ca_left c)) ++ PutUint64 (u64 (ca_uploaded c)) ++
  PutUint32 (ca_event c) ++ PutUint32 (ca_ip c) ++ PutUint32 (ca_key c) ++
  PutUint32 (u32 (ca_numwant c)) ++ put_be 2 (ca_port c).

Definition scrape_packet (cid tid : Z) (hashes : list (list Z)) : list Z :=
  PutUint64 cid ++ PutUint32 udpActionScrape ++ PutUint32 tid ++ concat hashes.

Definition client_ok (c : ClientAnnounce) : Prop :=
  length (ca_hash c) = 20%nat /\ length (ca_peer c) = 20%nat /\
  in_i64 (ca_downloaded c) /\ in_i64 (ca_left c) /\ in_i64 (ca_uploaded c) /\
  in_u32 (ca_event c) /\ in_u32 (ca_ip c) /\ in_u32 (ca_key c) /\ in_i32 (ca_numwant c) /\
  0 <= ca_port c < 65536.

Lemma i64_u64 z : in_i64 z -> i64 (u64 z) = z.
Proof.
  intros Hz. rewrite <- (i64_id z) at 2 by done. apply wrap_s_congr. unfold u64, wrap_u.
  by rewrite Zmod_mod.
Qed.
Lemma i32_u32 z : in_i32 z -> i32 (u32 z) = z.
Proof.
  intros Hz. rewrite <- (i32_id z) at 2 by done. apply wrap_s_congr. unfold u32, wrap_u.
  by rewrite Zmod_mod.
Qed.
Lemma u64_range z : in_u64 (u64 z).
Proof. apply Z.mod_pos_bound. lia. Qed.

(** Moves a slice to the part of a packet it reads. *)
Ltac lengths :=
  rewrite ?put_be_length;
  repeat match goal with H : length ?l = _ |- context [length ?l] => rewrite H end; cbn [Nat.sub].
Ltac seek :=
  repeat match goal with
  | |- context [slice ?a ?b (?l ++ ?r)] => rewrite (slice_skip a b l r) by (lengths; lia); lengths
  end; rewrite ?slice_head by (by lengths).

Lemma announce_packet_fields cid tid c :
  client_ok c ->
  let pkt := announce_packet cid tid c in
  length pkt = 98%nat /\ slice 0 8 pkt = PutUint64 cid /\ slice 8 12 pkt = PutUint32 udpActionAnnounce /\
  slice 12 16 pkt = PutUint32 tid /\ slice 16 36 pkt = ca_hash c /\ slice 36 56 pkt = ca_peer c /\
  slice 56 64 pkt = PutUint64 (u64 (ca_downloaded c)) /\ slice 64 72 pkt = PutUint64 (u64 (ca_left c)) /\
  slice 72 80 pkt = PutUint64 (u64 (ca_uploaded c)) /\ slice 80 84 pkt = PutUint32 (ca_event c) /\
  slice 84 88 pkt = PutUint32 (ca_ip c) /\ slice 92 96 pkt = PutUint32 (u32 (ca_numwant c)) /\
  slice 96 98 pkt = put_be 2 (ca_port c).
Proof.
  intros (Hh & Hp & _) pkt. unfold pkt, announce_packet, PutUint32, PutUint64.
  rewrite <- (app_nil_r (put_be 2 (ca_port c))) at 1.
  split; [rewrite !length_app; by lengths|].
  split_and!; try (seek; done).
Qed.

Lemma concat_slice (hashes : list (list Z)) i h :
  Forall (fun h => length h = 20%nat) hashes -> hashes !! i = Some h ->
  slice (i * 20) (i * 20 + 20) (concat hashes) = h.
Proof.
  intros Hall. revert i. induction Hall as [|h' hashes Hh Hall IH]; intros [|i] Hi; simplify_eq/=.
  - by apply slice_head.
  - rewrite slice_skip by lia. rewrite Hh, <- (IH i Hi). f_equal; lia.
Qed.

Lemma concat_length20 (hashes : list (list Z)) :
  Forall (fun h => length h = 20%nat) hashes -> length (concat hashes) = (length hashes * 20)%nat.
Proof. induction 1 as [|h hashes Hh _ IH]; simpl; [done|]. rewrite length_app, IH. lia. Qed.

Lemma scrape_packet_hashes cid tid hashes i h :
  Forall (fun h => length h = 20%nat) hashes -> hashes !! i = Some h ->
  slice (16 + i * 20) (16 + i * 20 + 20) (scrape_packet cid tid hashes) = h.
Proof.
  intros Hall Hi. unfold scrape_packet, PutUint64, PutUint32.
  rewrite !slice_skip by (rewrite ?put_be_length; lia). rewrite !put_be_length.
  rewrite <- (concat_slice hashes i h) by done. f_equal; lia.
Qed.

Lemma scrape_packet_counts (f : string -> list Z) cid tid hashes n :
  Forall (fun h => length h = 20%nat) hashes -> (n <= length hashes)%nat ->
  (fun i => f (string_of_bytes (slice (16 + i * 20) (16 + i * 20 + 20) (scrape_packet cid tid hashes))))
    <$> seq 0 n
  = (fun h => f (string_of_bytes h)) <$> take n hashes.
Proof.
  intros Hall Hn. apply list_eq. intros i. rewrite !list_lookup_fmap.
  destruct (decide (i < n)%nat) as [Hi|Hi].
  - rewrite lookup_seq_lt by done. rewrite lookup_take_lt by done.
    destruct (lookup_lt_is_Some_2 hashes i) as [h Hh]; [lia|]. rewrite Hh.
    unfold fmap, option_fmap, option_map. rewrite Nat.add_0_l.
    by rewrite (scrape_packet_hashes cid tid hashes i h).
  - rewrite lookup_seq_ge by lia. rewrite lookup_take_ge by lia. done.
Qed.

(** ** Connection ids *)

(** A well-formed connect request. *)
Definition connects (q : UdpPacket) : Prop :=
  16 <= pkt_len q /\ action q = udpActionConnect /\ connID q = udpMagicConnectionID.

Definition issued_by (q : UdpPacket) (id : Z) (rec : udpConnRecord) : Prop :=
  connects q /\ up_rand q = id /\ uc_ip rec = up_ip q /\ uc_expires rec = up_t0 q + udpConnIDTTL.

Definition conns_issued (ps : list UdpPacket) (conns : ConnIDs) : Prop :=
  forall id rec, conns !! id = Some rec -> exists q, q ∈ ps /\ issued_by q id rec.

Lemma validate_sub now id ip conns id' rec :
  (validateConnID now id ip conns).1 !! id' = Some rec -> conns !! id' = Some rec.
Proof.
  unfold validateConnID. destruct (conns !! id) as [r|]; [|done].
  destruct (_ <? _); simpl; [|done]. by intros [_ ?]%lookup_delete_Some.
Qed.

Lemma validate_issued ps now id ip conns :
  conns_issued ps conns -> (validateConnID now id ip conns).2 = true ->
  exists q, q ∈ ps /\ connects q /\ up_rand q = id /\ IPEqual (up_ip q) ip = true /\
            now <= up_t0 q + udpConnIDTTL.
Proof.
  intros Hi. unfold validateConnID. destruct (conns !! id) as [r|] eqn:Hr; [|done].
  destruct (Z.ltb_spec (uc_expires r) now); simpl; [done|]. intros Heq.
  destruct (Hi id r Hr) as (q & Hq & Hc & Hid & Hip & He). exists q.
  rewrite <- Hip. split_and!; try done. lia.
Qed.

(** Only a connect request adds an id. *)
Lemma handle_issued ps p s s' es r :
  handle p s = Some (s', es, r) -> conns_issued ps (us_conns s) -> conns_issued (p :: ps) (us_conns s').
Proof.
  intros Hh Hi.
  assert (forall conns, (forall id rec, conns !! id = Some rec -> us_conns s !! id = Some rec) ->
            conns_issued (p :: ps) conns) as Hsub.
  { intros conns Hc id rec Hid. destruct (Hi id rec (Hc _ _ Hid)) as (q & Hq & H). exists q. set_solver. }
  revert Hh. unfold handle.
  destruct (Z.ltb_spec (pkt_len p) 16) as [|Hlen]; [intros [= <- _ _]; by apply Hsub|].
  destruct (Z.eqb_spec (action p) udpActionConnect) as [Ha|].
  { intros [= Hh]. revert Hh. unfold handleConnect, fail. destruct (_ <? _); [intros [= <- _ _]; by apply Hsub|].
    destruct (Z.eqb_spec (connID p) udpMagicConnectionID) as [Hm|]; [|intros [= <- _ _]; by apply Hsub].
    intros [= <- _ _]. simpl. intros id rec [Hid _]%map_lookup_filter_Some.
    apply lookup_insert_Some in Hid as [[<- <-]|[_ Hid]].
    - exists p. split; [set_solver|]. by repeat split.
    - destruct (Hi id rec Hid) as (q & Hq & H). exists q. set_solver. }
  pose proof (validate_sub (up_t0 p) (connID p) (up_ip p) (us_conns s)) as Hv.
  destruct (action p =? udpActionAnnounce).
  { unfold handleUdpAnnounce, fail. destruct (_ <? _); [intros [= <- _ _]; by apply Hsub|].
    destruct (validateConnID _ _ _ _) as [conns b]. simpl in Hv.
    destruct b; cbn; [|intros [= <- _ _]; by apply Hsub].
    destruct (w_Users (us_worker s) !! ""); [|intros [= <- _ _]; by apply Hsub].
    destruct (Announce _ _ _ _ _ _ _); [|done]. intros [= <- _ _]. by apply Hsub. }
  destruct (action p =? udpActionScrape); [|intros [= <- _ _]; by apply Hsub].
  intros [= Hh]. revert Hh. unfold handleUdpScrape, fail. destruct (_ <? _); [intros [= <- _ _]; by apply Hsub|].
  destruct (validateConnID _ _ _ _) as [conns b]. simpl in Hv.
  destruct b; cbn; intros [= <- _ _]; by apply Hsub.
Qed.

Lemma handle_all_issued ps s s' :
  handle_all ps s = Some s' -> us_conns s = ∅ -> conns_issued ps (us_conns s').
Proof.
  intros Hh He. assert (conns_issued [] (us_conns s)) as Hi by (rewrite He; by intros ? ? ?).
  clear He. revert s Hh Hi.
  assert (forall ps hist s, handle_all ps s = Some s' -> conns_issued hist (us_conns s) ->
            conns_issued (hist ++ ps) (us_conns s')) as Hgen.
  { clear ps. intros ps. induction ps as [|p ps IH]; intros hist s Hh Hi; simpl in Hh.
    - simplify_eq. by rewrite app_nil_r.
    - destruct (handle p s) as [[[s1 es] r]|] eqn:E; [|done]. simpl in Hh.
      assert (conns_issued (hist ++ [p]) (us_conns s1)) as Hi1.
      { intros id rec Hid. destruct (handle_issued hist _ _ _ _ _ E Hi id rec Hid) as (q & Hq & H).
        exists q. set_solver. }
      apply (IH _ _ Hh) in Hi1. by rewrite <- app_assoc in Hi1. }
  intros s Hh Hi. by apply (Hgen ps [] s).
Qed.

(** ** Properties *)

(** What a client writes into an announce packet is what the tracker reads
    out of it: the request has the packet's hash, peer id, byte counts, event,
    port and (within the limit) number of peers; the address is the packet's
    override or, when that is zero, the source of the datagram. *)
Theorem udp_announce_roundtrip limit cid tid c ip :
  client_ok c -> 0 <= limit < 2 ^ 31 ->
  let req := udp_request limit (announce_packet cid tid c) ip in
  rq_InfoHash req = string_of_bytes (ca_hash c) /\ rq_PeerID req = ca_peer c /\
  rq_Downloaded req = ca_downloaded c /\ rq_Left req = ca_left c /\ rq_Uploaded req = ca_uploaded c /\
  rq_Event req = udpEvent (ca_event c) /\ rq_Port req = ca_port c /\
  rq_NumWant req = (if (ca_numwant c <? 0) || (limit <? ca_numwant c) then limit else ca_numwant c) /\
  rq_IP req = (if ca_ip c =? 0 then ip else put_be 4 (ca_ip c)).
Proof.
  intros Hc Hlim. pose proof (announce_packet_fields cid tid c Hc) as Hf. cbv zeta in *.
  destruct Hf as (_ & _ & _ & _ & Hh & Hp & Hd & Hl & Hu & He & Hi & Hn & Hport).
  destruct Hc as (_ & _ & Rd & Rl & Ru & Re & Ri & _ & Rn & Rp).
  unfold udp_request, udp_clientIP, field.
  cbn [rq_InfoHash rq_PeerID rq_Downloaded rq_Left rq_Uploaded rq_Event rq_Port rq_NumWant rq_IP].
  rewrite Hh, Hp, Hd, Hl, Hu, He, Hi, Hn, Hport.
  unfold PutUint32, PutUint64.
  pose proof (u64_range (ca_downloaded c)). pose proof (u64_range (ca_left c)).
  pose proof (u64_range (ca_uploaded c)). pose proof (u32_range (ca_numwant c)).
  rewrite !get_put_be by (cbn; range). rewrite !i64_u64, i32_u32 by done.
  unfold udp_numwant. rewrite (i32_id limit) by range. split_and!; try done.
  destruct (ca_ip c =? 0); [done|]. cbn [put_be app]. unfold u8, wrap_u.
  rewrite !Z.div_div by lia. done.
Qed.

(** A scrape under a valid connection id is answered with the client's
    transaction id and, for each of the first 74 hashes of the packet in
    order, the numbers of seeders, completions and leechers, zeroes when the
    hash is not registered. *)
Theorem udp_scrape_answer p s tid cid hashes :
  Forall (fun h => length h = 20%nat) hashes -> in_u32 tid -> in_u64 cid ->
  up_pkt p = scrape_packet cid tid hashes ->
  (validateConnID (up_t0 p) cid (up_ip p) (us_conns s)).2 = true ->
  exists s', us_worker s' = us_worker s /\
    handle p s = Some (s', [],
      Some (PutUint32 udpActionScrape ++ PutUint32 tid ++
            concat ((fun h => scrape_counts (w_Torrents (us_worker s)) (string_of_bytes h))
                    <$> take 74 hashes))).
Proof.
  intros Hall Ht Hcid Hp Hv.
  assert (length (up_pkt p) = (16 + length hashes * 20)%nat) as Hlen.
  { rewrite Hp. unfold scrape_packet, PutUint64, PutUint32.
    rewrite !length_app, !put_be_length, concat_length20 by done. lia. }
  assert (connID p = cid /\ action p = 2 /\ transID p = tid) as (Ec & Ea & Etid).
  { unfold connID, action, transID, field. rewrite Hp. unfold scrape_packet, PutUint64, PutUint32.
    split_and!; seek; apply get_put_be; cbn; range. }
  unfold handle, handleUdpScrape, pkt_len. rewrite Ea, Ec, Hlen.
  do 2 (rewrite (proj2 (Z.ltb_ge _ _)) by (unfold udpScrapeMinReq; lia)).
  change (2 =? udpActionConnect) with false. change (2 =? udpActionAnnounce) with false.
  change (2 =? udpActionScrape) with true. cbv iota.
  destruct (validateConnID _ _ _ _) as [conns b]. simpl in Hv. subst b.
  exists (mkUdpState (us_worker s) conns). split; [done|]. cbn [negb us_worker]. rewrite Etid. unfold udp_scrape_reply.
  rewrite Hlen. replace (16 + length hashes * 20 - 16)%nat with (length hashes * 20)%nat by lia.
  rewrite Nat.div_mul, Hp by lia. do 5 f_equal.
  rewrite (scrape_packet_counts (scrape_counts (w_Torrents (us_worker s)))) by (try done; lia).
  destruct (Nat.min_spec (length hashes) 74) as [[Hlt ->]|[Hge ->]]; [|done].
  by rewrite !take_ge by lia.
Qed.

(** Connection ids.  In every state the server can reach, a packet that
    asks for more than a connection id is refused with an error and without
    any effect, unless its connection id was issued, at most two minutes
    before, to a connect request from the same address. *)
Theorem udp_connection_safety ps s0 s p s' es r :
  us_conns s0 = ∅ -> handle_all ps s0 = Some s ->
  handle p s = Some (s', es, r) -> 16 <= pkt_len p -> action p <> udpActionConnect ->
  us_worker s' = us_worker s /\ es = [] /\ (exists msg, r = Some (sendError (transID p) msg)) \/
  exists q, q ∈ ps /\ connects q /\ up_rand q = connID p /\ IPEqual (up_ip q) (up_ip p) = true /\
            up_t0 p <= up_t0 q + udpConnIDTTL.
Proof.
  intros He Hall Hh Hlen Hact. pose proof (handle_all_issued _ _ _ Hall He) as Hi.
  revert Hh. unfold handle. rewrite (proj2 (Z.ltb_ge _ _)) by lia.
  rewrite (proj2 (Z.eqb_neq _ _)) by done.
  pose proof (validate_issued ps (up_t0 p) (connID p) (up_ip p) _ Hi) as Hv.
  destruct (action p =? udpActionAnnounce).
  { unfold handleUdpAnnounce, fail. destruct (_ <? _); [intros [= <- <- <-]; eauto 6|].
    destruct (validateConnID _ _ _ _) as [conns b]. destruct b; cbn [negb]; [intros _; right; by apply Hv|intros [= <- <- <-]; eauto 6]. }
  destruct (action p =? udpActionScrape); [|intros [= <- <- <-]; unfold fail; eauto 6].
  intros [= Hh]. revert Hh. unfold handleUdpScrape, fail. destruct (_ <? _); [intros [= <- <- <-]; eauto 6|].
  destruct (validateConnID _ _ _ _) as [conns b]. destruct b; cbn [negb]; [intros _; right; by apply Hv|intros [= <- <- <-]; eauto 6].
Qed.

Lemma HandleUpdate_no_empty {C} `{CommonsAdmin C} q dberr torder (s : AdminState C) :
  m_users (a_mem s) !! "" = None -> m_users (a_mem (HandleUpdate q dberr torder s).1) !! "" = None.
Proof.
  intros Hn. unfold HandleUpdate.
  repeat lazymatch goal with
  | |- context [if String.eqb (q "action") ?a then _ else _] => destruct (String.eqb (q "action") a)
  end;
  unfold addTorrent, updateTorrent, deleteTorrent, delete_by_id, changeFreeleech, addToken, removeToken,
    addWhitelist, removeWhitelist, setPriorityClass, setBudget;
  try (repeat case_match; done).
  - unfold addUser. repeat (case_match; try done); simpl;
      (rewrite lookup_insert_ne; [done|]; intros E; rewrite E in *; done).
  - unfold updateUser. repeat (case_match; try done); simpl;
      (rewrite lookup_insert_ne; [done|]; intros E; rewrite E in *; done).
  - unfold removeUser. repeat (case_match; try done); simpl; rewrite lookup_delete_None; by right.
  - unfold changePasskey. destruct (_ || _) eqn:Hq; [done|].
    apply orb_false_iff in Hq as [_ Hnew%String.eqb_neq]. repeat (case_match; try done); simpl;
      (rewrite lookup_insert_ne by done; rewrite lookup_delete_None; by right).
Qed.

Lemma handleRequest_no_empty {C} `{CommonsAdmin C} cfg marshal env (y y' : System C) req ip es out cl :
  handleRequest cfg marshal env y req ip = Some (y', es, out, cl) ->
  w_Users (y_worker y) !! "" = None -> w_Users (y_worker y') !! "" = None.
Proof.
  intros Hr Hn. revert Hr. unfold handleRequest. destruct (negb _); [by intros [= <- _ _ _]|].
  destruct (path_parts (h_Path req)) as [|passkey [|action rest]]; [by intros [= <- _ _ _]..|].
  destruct (negb _); [by intros [= <- _ _ _]|].
  destruct (String.eqb action "announce").
  { destruct (handleAnnounce _ _ _ _ _ _) as [[[y1 es1] out1]|] eqn:Ha; [|done].
    intros [= <- _ _ _]. apply handleAnnounce_mirror_view in Ha as [Hv _].
    injection Hv as _ Hu _. destruct y as [[] db c]. cbn in Hu, Hn. apply (f_equal (fun m => m !! "")) in Hu. rewrite !lookup_fmap, Hn in Hu. by apply fmap_None in Hu. }
  destruct (String.eqb action "scrape"); [by intros [= <- _ _ _]|].
  destruct (handleAdmin _ _ _ _ _ _ _ _) as [[y1 out1]|] eqn:Ha; [|done].
  intros [= <- _ _ _]. apply handleAdmin_auth in Ha as [->|(_ & _ & ->)]; [done|].
  pose proof (HandleUpdate_no_empty (QueryGet req) (r_dberr env) (r_torder env) (admin_of y) Hn) as Hup.
  unfold handleUpdate. destruct (HandleUpdate _ _ _ _) as [a reply]. exact Hup.
Qed.

(** The tracker is not usable over UDP.  A UDP announce is made for the
    user with the empty passkey; no request can create such a user, so as long
    as none is loaded at the start every announce packet is refused with an
    error and changes nothing but the table of connection ids. *)
Theorem udp_announce_refused {C} `{CommonsAdmin C} cfg marshal (y y' : System C) conns p :
  w_Users (y_worker y) !! "" = None -> serves cfg marshal y y' ->
  16 <= pkt_len p -> action p = udpActionAnnounce ->
  exists conns' msg,
    handle p (mkUdpState (y_worker y') conns) =
      Some (mkUdpState (y_worker y') conns', [], Some (sendError (transID p) msg)).
Proof.
  intros Hn Hs Hlen Hact.
  assert (w_Users (y_worker y') !! "" = None) as Hn'.
  { clear -Hn Hs. induction Hs as [| |e y y1 y' Hl Hs IH]; [done|eauto using handleRequest_no_empty|].
    apply IH. clear -Hn Hl. destruct e as [op o|st|t u]; cbn [land] in Hl; [by injection Hl as <-| |by injection Hl as <-].
    destruct (y_commons y); [|by injection Hl as <-]. destruct (ca_SettleAnnounce st c); [|done]. by injection Hl as <-. }
  unfold handle. rewrite (proj2 (Z.ltb_ge _ _)) by lia. rewrite Hact.
  change (udpActionAnnounce =? udpActionConnect) with false. rewrite Z.eqb_refl. cbv iota.
  unfold handleUdpAnnounce, fail. destruct (_ <? _); [eauto|]. cbn [us_conns us_worker].
  destruct (validateConnID _ _ _ _) as [conns' b]. destruct b; cbn [negb us_worker]; [|eauto].
  rewrite Hn'. eauto.
Qed.

(** ** A concrete exchange: connect, then scrape *)
Module DemoUdp.
Import DemoServer.

#[export] Instance NoCommons : CommonsAdmin unit :=
  {| ca_SetUserPriority _ _ c := (c, None); ca_SetUserBudget _ _ _ c := (c, None);
     ca_SettleAnnounce _ c := Some c |}.

Definition client : IP := [8; 8; 4; 4].
Definition packet (pkt : list Z) (t : Z) : UdpPacket := mkUdp pkt client t t 77 (r_announce env).
Definition connect : UdpPacket :=
  packet (PutUint64 udpMagicConnectionID ++ PutUint32 udpActionConnect ++ PutUint32 5) now.
Definition hash : list Z := replicate 20 65.
Definition scrape1 : UdpPacket := packet (scrape_packet 77 6 [hash]) (now + Second).
Definition s0 : UdpState := mkUdpState worker ∅.
Definition s1 : UdpState := from_option (fun h => h.1.1) s0 (handle connect s0).
Definition announce1 : ClientAnnounce :=
  mkCA hash (replicate 20 66) 1 2 3 2 (2 ^ 24 + 2) 0 (-1) 6881.

End DemoUdp.
Import DemoServer DemoUdp.

Lemma udp_announce_roundtrip_witness :
  let req := udp_request 50 (announce_packet 77 6 announce1) client in
  rq_Downloaded req = 1 /\ rq_NumWant req = 50 /\ rq_IP req = [1; 0; 0; 2].
Proof.
  destruct (udp_announce_roundtrip 50 77 6 announce1 client) as (_ & _ & Hd & _ & _ & _ & _ & Hn & Hi).
  - unfold client_ok, announce1. simpl. split_and!; try reflexivity; range.
  - lia.
  - split; [exact Hd|]. split; [exact Hn|]. exact Hi.
Defined.

Lemma udp_scrape_answer_witness :
  exists s', us_worker s' = worker /\
    handle scrape1 s1 = Some (s', [], Some ([0;0;0;2; 0;0;0;6] ++ replicate 12 0)).
Proof.
  apply (udp_scrape_answer scrape1 s1 6 77 [hash]).
  - repeat constructor.
  - range.
  - range.
  - reflexivity.
  - vm_compute. reflexivity.
Defined.

Lemma udp_connection_safety_witness :
  exists s' es r, handle scrape1 s1 = Some (s', es, r) /\
    (us_worker s' = us_worker s1 /\ es = [] /\ (exists msg, r = Some (sendError (transID scrape1) msg)) \/
     exists q, q ∈ [connect] /\ connects q /\ up_rand q = connID scrape1 /\
               IPEqual (up_ip q) (up_ip scrape1) = true /\ up_t0 scrape1 <= up_t0 q + udpConnIDTTL).
Proof.
  destruct (handle scrape1 s1) as [[[s' es] r]|] eqn:E; [|vm_compute in E; discriminate].
  exists s', es, r. split; [done|].
  apply (udp_connection_safety [connect] s0 s1 scrape1 s' es r).
  - reflexivity.
  - vm_compute. reflexivity.
  - exact E.
  - vm_compute. discriminate.
  - vm_compute. discriminate.
Defined.

Lemma udp_announce_refused_witness :
  exists conns' msg,
    handle (packet (announce_packet 77 6 announce1) now) (mkUdpState worker ∅) =
      Some (mkUdpState worker conns', [], Some (sendError 6 msg)).
Proof.
  apply (udp_announce_refused DemoServer.cfg DemoServer.marshal DemoServer.system DemoServer.system ∅
           (packet (announce_packet 77 6 announce1) now)).
  - reflexivity.
  - apply serves_nil.
  - vm_compute. discriminate.
  - vm_compute. reflexivity.
Defined.
