(* ===== verification/Heatmap.v ===== *)
(** * Demand heat map (tracker/demand_heatmap.go)

    A ring buffer of the networks of the last announces with a histogram that
    is kept up to date as slots are overwritten.  The specification is the
    list of the last [cap] networks. *)
From S2P Require Import Prelude NetIP GoFloat GoSort.
Open Scope list_scope.
Open Scope Z_scope.

Record demandRecord := mkDemand { dr_net : Z; dr_at : Z }.

Record DemandHeatmap := mkHeatmap {
  h_ring : list demandRecord;
  h_head : Z;
  h_size : Z;
  h_netCount : gmap Z Z;
  h_total : Z
}.

Definition NewDemandHeatmap (cap : Z) : DemandHeatmap :=
  mkHeatmap (replicate (Z.to_nat (if cap <=? 0 then 0 else cap)) (mkDemand 0 0)) 0 0 ∅ 0.

(** [m[k]] on a map of integers. *)
Definition count_of (m : gmap Z Z) (k : Z) : Z := default 0 (m !! k).

(** [uint16(ip[0])<<8 | uint16(ip[1])] *)
Definition net_key (a b : Z) : Z := Z.lor (u16 (Z.shiftl (u16 a) 8)) (u16 b).

(** The slot at [head] is free, or holds the oldest record, which leaves. *)
Definition evict_oldest (h : DemandHeatmap) : DemandHeatmap :=
  if h_size h =? len (h_ring h) then
    match h_ring h !! Z.to_nat (h_head h) with
    | None => h
    | Some old =>
        h {{ h_netCount ::= fun m =>
               if 1 <? count_of m (dr_net old) then <[dr_net old := count_of m (dr_net old) - 1]> m
               else delete (dr_net old) m }}
          {{ h_total ::= fun t => t - 1 }}
    end
  else h {{ h_size ::= fun n => n + 1 }}.

Definition store_record (net now : Z) (h : DemandHeatmap) : DemandHeatmap :=
  h {{ h_ring ::= <[Z.to_nat (h_head h) := mkDemand net now]> }}
    {{ h_head := Z.rem (h_head h + 1) (len (h_ring h)) }}
    {{ h_netCount ::= fun m => <[net := count_of m net + 1]> m }}
    {{ h_total ::= fun t => t + 1 }}.

Definition Record' (now : Z) (clientIP : IP) (h : DemandHeatmap) : DemandHeatmap :=
  match clientIP with
  | a :: b :: _ => if len (h_ring h) =? 0 then h else store_record (net_key a b) now (evict_oldest h)
  | _ => h
  end.

(** [if count > bestCount { bestCount = count; best = net }] *)
Definition modal_step (acc kv : Z * Z) : Z * Z := if acc.2 <? kv.2 then kv else acc.

(** The histogram is visited in the order [order] gives. *)
Definition ModalNet (order : gmap Z Z -> list (Z * Z)) (h : DemandHeatmap) : Z * bool :=
  if h_total h =? 0 then (0, false)
  else ((foldl modal_step (0, 0) (order (h_netCount h))).1, true).

Definition TotalCount (h : DemandHeatmap) : Z := h_total h.

Definition NetFraction (net : Z) (h : DemandHeatmap) : float64 :=
  if h_total h =? 0 then of_int 0
  else fdiv (of_int (count_of (h_netCount h) net)) (of_int (h_total h)).

Definition NetAffinity (nodeNet demandNet : Z) : float64 :=
  if nodeNet =? demandNet then of_int 1
  else if Z.shiftr nodeNet 8 =? Z.shiftr demandNet 8 then flit 1 2
  else of_int 0.

Definition NetKeyFromIP (ip : IP) : Z :=
  match ip with a :: b :: _ => net_key a b | _ => 0 end.

(** ** Specification: the window of the last [cap] networks *)

Definition occurrences (net : Z) (w : list Z) : Z := len (filter (fun x => x = net) w).

(** The networks of the announces that carry an address. *)
Definition nets_of (ips : list IP) : list Z :=
  omap (fun ip => match ip with a :: b :: _ => Some (net_key a b) | _ => None end) ips.

Definition window (cap : Z) (ips : list IP) : list Z := lastn (Z.to_nat cap) (nets_of ips).

Lemma occurrences_snoc net w x : occurrences net (w ++ [x]) = occurrences net w + (if decide (x = net) then 1 else 0).
Proof.
  unfold occurrences, len. rewrite filter_app, length_app. rewrite filter_cons, filter_nil.
  destruct (decide (x = net)); simpl; lia.
Qed.

Lemma occurrences_cons net w x : occurrences net (x :: w) = (if decide (x = net) then 1 else 0) + occurrences net w.
Proof. unfold occurrences, len. rewrite filter_cons. destruct (decide (x = net)); simpl; lia. Qed.

(** ** The ring holds the window *)

(** The slot of the [i]-th oldest of [k] records in a ring of [n] slots. *)
Definition slot (n head k i : nat) : nat :=
  let p := (head + (n - k) + i)%nat in if (p <? n)%nat then p else (p - n)%nat.

(** [w] is the content of the ring from the oldest record to the newest. *)
Record holds (n : nat) (w : list Z) (h : DemandHeatmap) : Prop := mkHolds {
  ho_len : length (h_ring h) = n;
  ho_head : 0 <= h_head h < Z.of_nat n;
  ho_size : h_size h = len w /\ (length w <= n)%nat;
  ho_ring : forall i x, w !! i = Some x ->
              exists r, h_ring h !! slot n (Z.to_nat (h_head h)) (length w) i = Some r /\ dr_net r = x;
  ho_total : h_total h = len w;
  ho_count : forall net, count_of (h_netCount h) net = occurrences net w;
  ho_pos : forall net c, h_netCount h !! net = Some c -> 0 < c
}.

Lemma holds_new n : (0 < n)%nat -> holds n [] (NewDemandHeatmap (Z.of_nat n)).
Proof.
  intros Hn. unfold NewDemandHeatmap. rewrite (proj2 (Z.leb_gt _ _)) by lia. rewrite Nat2Z.id.
  split; cbn; rewrite ?length_replicate; try done; try lia; try (split; [done|lia]).
Qed.

(** Making room: the oldest record leaves a full ring. *)
Definition room (n : nat) (w : list Z) : list Z := if (length w =? n)%nat then tail w else w.

Lemma evict_counts n w h :
  (0 < n)%nat -> holds n w h ->
  let h' := evict_oldest h in
  h_ring h' = h_ring h /\ h_head h' = h_head h /\ h_size h' = len (room n w) + 1 /\
  h_total h' = len (room n w) /\ (length (room n w) < n)%nat /\
  (forall net, count_of (h_netCount h') net = occurrences net (room n w)) /\
  (forall net c, h_netCount h' !! net = Some c -> 0 < c).
Proof.
  intros Hn [Hlen Hhead [Hsize Hle] Hring Htot Hcount Hpos].
  destruct h as [ring head sz cnt tot]. cbn [h_ring h_head h_size h_netCount h_total] in *.
  unfold evict_oldest, room, len in *. cbn [h_ring h_head h_size h_netCount h_total]. rewrite Hsize, Hlen. destruct (Nat.eqb_spec (length w) n) as [E|E].
  - rewrite E, Z.eqb_refl. destruct w as [|x w]; [simpl in *; lia|].
    destruct (Hring 0%nat x eq_refl) as (r & Hr & Hx).
    assert (slot n (Z.to_nat head) (length (x :: w)) 0 = Z.to_nat head) as Hs.
    { unfold slot. simpl length in E. simpl length. rewrite E.
      destruct (Nat.ltb_spec (Z.to_nat head + (n - n) + 0) n); lia. }
    rewrite Hs in Hr. rewrite Hr. cbn. simpl length in *. split_and!; [done|lia..| |].
    + intros net. specialize (Hcount net). rewrite occurrences_cons in Hcount.
      pose proof (Hcount) as Hc. rewrite Hx. unfold count_of in *.
      destruct (decide (x = net)) as [->|Hne].
      * destruct (Z.ltb_spec 1 (default 0 (cnt !! net))) as [Hlt|Hge].
        -- rewrite lookup_insert_eq. simpl. lia.
        -- rewrite lookup_delete_eq. simpl. unfold occurrences, len in *. lia.
      * destruct (1 <? _); [rewrite lookup_insert_ne by done|rewrite lookup_delete_ne by done]; lia.
    + intros net c. rewrite Hx. unfold count_of. destruct (Z.ltb_spec 1 (default 0 (cnt !! x))) as [Hlt|Hge].
      * intros [[<- <-]|[? ?]]%lookup_insert_Some; [lia|eauto].
      * intros [? ?]%lookup_delete_Some. eauto.
  - rewrite (proj2 (Z.eqb_neq _ _)) by lia. cbn. split_and!; try lia; eauto.
Qed.

Lemma holds_record n w h now a b rest :
  (0 < n)%nat -> holds n w h ->
  holds n (room n w ++ [net_key a b]) (Record' now (a :: b :: rest) h).
Proof.
  intros Hn Hh. destruct (evict_counts n w h Hn Hh) as (Er & Eh & Es & Et & Hroom & Hc & Hp).
  destruct Hh as [Hlen Hhead [Hsize Hle] Hring Htot Hcount Hpos].
  unfold Record'. unfold len at 1. rewrite Hlen, (proj2 (Z.eqb_neq _ _)) by lia.
  set (net := net_key a b). clearbody net. unfold store_record. set (h' := evict_oldest h) in *. clearbody h'.
  destruct h' as [ring' head' sz' cnt' tot']. cbn [h_ring h_head h_size h_netCount h_total] in *. subst ring' head'.
  assert (Z.rem (h_head h + 1) (Z.of_nat n) = if h_head h + 1 =? Z.of_nat n then 0 else h_head h + 1) as Hrem.
  { destruct (Z.eqb_spec (h_head h + 1) (Z.of_nat n)) as [->|]; [apply Z.rem_same; lia|apply Z.rem_small; lia]. }
  split; cbn; unfold len in *; rewrite ?length_insert, ?Hlen, ?length_app, ?Hrem.
  - done.
  - destruct (Z.eqb_spec (h_head h + 1) (Z.of_nat n)); lia.
  - simpl. lia.
  - intros i x Hi. simpl length.
    assert (i < length (room n w) + 1)%nat as Hil.
    { apply lookup_lt_Some in Hi. rewrite length_app in Hi. simpl in Hi. lia. }
    assert (slot n (Z.to_nat (if h_head h + 1 =? Z.of_nat n then 0 else h_head h + 1)) (length (room n w) + 1) i
            = if (i =? length (room n w))%nat then Z.to_nat (h_head h)
              else slot n (Z.to_nat (h_head h)) (length (room n w)) i) as Hslot.
    { unfold slot. destruct (Z.eqb_spec (h_head h + 1) (Z.of_nat n)), (Nat.eqb_spec i (length (room n w)));
        repeat match goal with |- context [(?x <? ?y)%nat] => destruct (Nat.ltb_spec x y) end; lia. }
    rewrite Hslot. destruct (Nat.eqb_spec i (length (room n w))) as [->|Hne].
    + rewrite list_lookup_insert_eq by lia. eexists. split; [done|].
      rewrite lookup_app_r in Hi by lia. rewrite Nat.sub_diag in Hi. by injection Hi as ->.
    + rewrite lookup_app_l in Hi by lia.
      assert (slot n (Z.to_nat (h_head h)) (length (room n w)) i <> Z.to_nat (h_head h)) as Hsl.
      { unfold slot. destruct (Nat.ltb_spec (Z.to_nat (h_head h) + (n - length (room n w)) + i) n); lia. }
      rewrite list_lookup_insert_ne by done. unfold room in *.
      destruct (Nat.eqb_spec (length w) n) as [E|E]; [|by apply Hring].
      destruct w as [|y w]; [done|]. simpl tail in *. simpl length in *.
      destruct (Hring (S i) x Hi) as (r & Hr & Hx). exists r. split; [|done]. rewrite <- Hr. f_equal.
      unfold slot. repeat match goal with |- context [(?x <? ?y)%nat] => destruct (Nat.ltb_spec x y) end; lia.
  - simpl. lia.
  - intros k. specialize (Hc k). rewrite occurrences_snoc. unfold count_of in *. destruct (decide (net = k)) as [->|Hne].
    + rewrite lookup_insert_eq. simpl. lia.
    + rewrite lookup_insert_ne by done. lia.
  - intros k c. intros [[<- <-]|[? ?]]%lookup_insert_Some; [|eauto].
    rewrite Hc. unfold occurrences, len. lia.
Qed.

(** A run of announces, each with the time it is recorded at. *)
Definition record_all (reqs : list (Z * IP)) (h : DemandHeatmap) : DemandHeatmap :=
  foldl (fun h '(now, ip) => Record' now ip h) h reqs.

Lemma record_all_snoc reqs now ip h : record_all (reqs ++ [(now, ip)]) h = Record' now ip (record_all reqs h).
Proof. unfold record_all. by rewrite foldl_app. Qed.

Lemma record_all_holds n reqs :
  (0 < n)%nat -> holds n (window (Z.of_nat n) reqs.*2) (record_all reqs (NewDemandHeatmap (Z.of_nat n))).
Proof.
  intros Hn. induction reqs as [|[now ip] reqs IH] using rev_ind; [by apply holds_new|].
  rewrite record_all_snoc, fmap_app. cbn [fmap list_fmap snd]. unfold window, nets_of in *.
  rewrite omap_app. destruct ip as [|a [|b rest]]; simpl omap; rewrite ?app_nil_r; [done..|].
  rewrite lastn_snoc by lia. rewrite Nat2Z.id in *. by apply holds_record.
Qed.

Lemma record_all_disabled cap reqs : cap <= 0 -> record_all reqs (NewDemandHeatmap cap) = NewDemandHeatmap cap.
Proof.
  intros Hc. induction reqs as [|[now ip] reqs IH] using rev_ind; [done|]. rewrite record_all_snoc, IH.
  unfold NewDemandHeatmap. rewrite (proj2 (Z.leb_le _ _)) by lia. by destruct ip as [|? [|? ?]].
Qed.

Lemma window_disabled cap ips : cap <= 0 -> window cap ips = [].
Proof. intros Hc. unfold window, lastn. replace (Z.to_nat cap) with 0%nat by lia. apply drop_ge. lia. Qed.

(** The fold keeps the first binding with the greatest count. *)
Lemma modal_fold l best bc :
  let r := foldl modal_step (best, bc) l in
  bc <= r.2 /\ (forall net c, (net, c) ∈ l -> c <= r.2) /\ (r = (best, bc) \/ r ∈ l).
Proof.
  revert best bc. induction l as [|[net c] l IH]; intros best bc; cbn [foldl].
  - simpl. split; [lia|]. split; [set_solver|by left].
  - unfold modal_step at 2 4 6 8. cbn [snd]. destruct (Z.ltb_spec bc c) as [Hlt|Hge].
    + destruct (IH net c) as (H1 & H2 & H3). split; [lia|]. split.
      * intros n' c' [[= -> ->]|Hin]%elem_of_cons; [lia|by apply (H2 n')].
      * right. destruct H3 as [->|H3]; [apply elem_of_cons; by left|apply elem_of_cons; by right].
    + destruct (IH best bc) as (H1 & H2 & H3). split; [lia|]. split.
      * intros n' c' [[= -> ->]|Hin]%elem_of_cons; [lia|by apply (H2 n')].
      * destruct H3 as [->|H3]; [by left|right; apply elem_of_cons; by right].
Qed.

Lemma occurrences_pos net w : 0 < occurrences net w -> net ∈ w.
Proof.
  unfold occurrences, len. intros Hp. destruct (filter (fun x => x = net) w) as [|x k] eqn:E; [simpl in Hp; lia|].
  assert (x ∈ filter (fun x => x = net) w) as Hx by (rewrite E; apply elem_of_cons; by left).
  apply list_elem_of_filter in Hx as [-> Hx]. done.
Qed.

Lemma occurrences_elem net w : net ∈ w -> 0 < occurrences net w.
Proof.
  intros Hin. unfold occurrences, len. assert (net ∈ filter (fun x => x = net) w) as Hf by (by apply list_elem_of_filter).
  destruct (filter _ w); [by apply not_elem_of_nil in Hf|simpl; lia].
Qed.

Lemma modal_holds order n w h :
  (forall m, order m ≡ₚ map_to_list m) -> holds n w h ->
  (w = [] -> ModalNet order h = (0, false)) /\
  (w <> [] -> exists net, ModalNet order h = (net, true) /\ net ∈ w /\
                          forall x, occurrences x w <= occurrences net w).
Proof.
  intros Hord [_ _ _ _ Htot Hcount Hpos]. unfold ModalNet, len in *. rewrite Htot. split; [by intros ->|].
  intros Hne. rewrite (proj2 (Z.eqb_neq _ _)) by (intros E; destruct w; [done|simpl in E; lia]).
  destruct (modal_fold (order (h_netCount h)) 0 0) as (H1 & H2 & H3). set (r := foldl _ _ _) in *.
  exists r.1. split; [done|].
  assert (forall x, occurrences x w <= r.2) as Hmax.
  { intros x. rewrite <- Hcount. unfold count_of. destruct (h_netCount h !! x) as [c|] eqn:E; simpl; [|lia].
    apply (H2 x). rewrite Hord. by apply elem_of_map_to_list. }
  assert (0 < r.2) as Hr.
  { destruct w as [|x w]; [done|]. specialize (Hmax x).
    pose proof (occurrences_elem x (x :: w) ltac:(by apply elem_of_cons; left)). lia. }
  destruct H3 as [H3|H3]; [rewrite H3 in Hr; simpl in Hr; lia|].
  rewrite Hord in H3. destruct r as [net c]. cbn [fst snd] in *. apply elem_of_map_to_list in H3.
  assert (c = occurrences net w) as -> by (rewrite <- Hcount; unfold count_of; by rewrite H3).
  split; [by apply occurrences_pos|done].
Qed.

(** [C32] The heat map is a sliding window.  After any run of announces the total, the
    fraction of each network and the most frequent network are those of the
    list of the last [cap] announces that carried an address; a capacity of
    zero or less records nothing. *)
Theorem heatmap_window order cap reqs :
  (forall m, order m ≡ₚ map_to_list m) ->
  let h := record_all reqs (NewDemandHeatmap cap) in
  let w := window cap reqs.*2 in
  TotalCount h = len w /\
  (forall net, NetFraction net h =
     if decide (w = []) then of_int 0 else fdiv (of_int (occurrences net w)) (of_int (len w))) /\
  (w = [] -> ModalNet order h = (0, false)) /\
  (w <> [] -> exists net, ModalNet order h = (net, true) /\ net ∈ w /\
                          forall x, occurrences x w <= occurrences net w).
Proof.
  intros Hord h w. destruct (Z.le_gt_cases cap 0) as [Hc|Hc].
  - subst h w. rewrite record_all_disabled, window_disabled by done. unfold NewDemandHeatmap.
    split; [done|]. split; [by intros net|]. split; [done|]. by intros [].
  - pose proof (record_all_holds (Z.to_nat cap) reqs ltac:(lia)) as Hh. rewrite Z2Nat.id in Hh by lia.
    fold h w in Hh. clearbody h w. split; [apply Hh|]. split; [|by apply (modal_holds _ (Z.to_nat cap))].
    intros net. unfold NetFraction. rewrite (ho_total _ _ _ Hh), (ho_count _ _ _ Hh). unfold len.
    destruct (decide (w = [])) as [->|Hne]; [done|]. rewrite (proj2 (Z.eqb_neq _ _)); [done|].
    intros E. destruct w; [done|simpl in E; lia].
Qed.

Definition demo_announces : list (Z * IP) := [(1, [10;0;0;1]); (2, [10;1;0;1]); (3, [10;1;7;7]); (4, [9]); (5, [8;8;8;8])].

Lemma heatmap_window_witness :
  TotalCount (record_all demo_announces (NewDemandHeatmap 3)) = 3 /\
  exists net, ModalNet map_to_list (record_all demo_announces (NewDemandHeatmap 3)) = (net, true) /\
              net ∈ window 3 demo_announces.*2.
Proof.
  destruct (heatmap_window map_to_list 3 demo_announces ltac:(done)) as (Ht & _ & _ & Hm).
  split; [rewrite Ht; by vm_compute|].
  destruct Hm as (net & Hn & Hin & _); [by vm_compute|]. by exists net.
Defined.
