(* ===== verification/Replica.v ===== *)
(** * Replicas and artifacts (tracker/replica_class.go, tracker/verify_state.go,
      tracker/artifact.go, tracker/replication_policy.go)

    The state machine of one artifact copy on one node, the registry of copies,
    the verification state machine of an artifact, and the counter that turns
    demand into a desired number of copies.  [time.Now] is an argument. *)
From Stdlib Require Import String.
From S2P Require Import Prelude GoFloat GoSort Heatmap.
Open Scope list_scope.
Open Scope Z_scope.

(** ** Replica classes *)

Inductive ReplicaClass := ReplicaEphemeral | ReplicaCache | ReplicaStandard | ReplicaPinned | ReplicaArchival.
#[export] Instance ReplicaClass_eq : EqDecision ReplicaClass.
Proof. solve_decision. Defined.

(** The numeric value of the constant, which [<=] and [>] compare. *)
Definition class_rank (rc : ReplicaClass) : Z :=
  match rc with
  | ReplicaEphemeral => 0 | ReplicaCache => 1 | ReplicaStandard => 2 | ReplicaPinned => 3 | ReplicaArchival => 4
  end.

Definition ReplicaClass_String (rc : ReplicaClass) : string :=
  match rc with
  | ReplicaEphemeral => "EPHEMERAL" | ReplicaCache => "CACHE" | ReplicaStandard => "STANDARD"
  | ReplicaPinned => "PINNED" | ReplicaArchival => "ARCHIVAL"
  end.

Definition CountsTowardSLA (rc : ReplicaClass) : bool :=
  match rc with ReplicaStandard | ReplicaPinned => true | _ => false end.

(** ** The state machine of a replica *)

Inductive NodeReplicaState :=
| ReplicaStateAbsent | ReplicaStateRequested | ReplicaStateSwarming | ReplicaStateBTComplete
| ReplicaStateHashVerify | ReplicaStateVerified | ReplicaStateSeeding | ReplicaStateInvalid | ReplicaStatePurge.
#[export] Instance NodeReplicaState_eq : EqDecision NodeReplicaState.
Proof. solve_decision. Defined.

Definition NodeReplicaState_String (s : NodeReplicaState) : string :=
  match s with
  | ReplicaStateAbsent => "ABSENT" | ReplicaStateRequested => "REQUESTED" | ReplicaStateSwarming => "SWARMING"
  | ReplicaStateBTComplete => "BT_COMPLETE" | ReplicaStateHashVerify => "HASH_VERIFY"
  | ReplicaStateVerified => "VERIFIED" | ReplicaStateSeeding => "SEEDING"
  | ReplicaStateInvalid => "INVALID" | ReplicaStatePurge => "PURGE"
  end.

Definition CountsAsVerified (s : NodeReplicaState) : bool :=
  match s with ReplicaStateVerified | ReplicaStateSeeding => true | _ => false end.

Definition nodeReplicaTransitions (from to : NodeReplicaState) : bool :=
  match from, to with
  | ReplicaStateAbsent, ReplicaStateRequested
  | ReplicaStateRequested, (ReplicaStateSwarming | ReplicaStateAbsent)
  | ReplicaStateSwarming, (ReplicaStateBTComplete | ReplicaStateAbsent)
  | ReplicaStateBTComplete, ReplicaStateHashVerify
  | ReplicaStateHashVerify, (ReplicaStateVerified | ReplicaStateInvalid)
  | ReplicaStateVerified, (ReplicaStateSeeding | ReplicaStateInvalid)
  | ReplicaStateSeeding, (ReplicaStateInvalid | ReplicaStateAbsent)
  | ReplicaStateInvalid, ReplicaStatePurge
  | ReplicaStatePurge, ReplicaStateAbsent => true
  | _, _ => false
  end.

Inductive ReplicaError := ErrReplicaInvalidTransition (from to : NodeReplicaState).

Record NodeReplica := mkReplica {
  r_NodeID : Z;
  r_InfoHash : string;
  r_Class : ReplicaClass;
  r_State : NodeReplicaState;
  r_RetryCount : Z;
  r_LastTransition : Z;
  r_RequestedAt : Z;
  r_VerifiedAt : Z
}.

Definition NewNodeReplica (now nodeID : Z) (infoHash : string) (class : ReplicaClass) : NodeReplica :=
  mkReplica nodeID infoHash class ReplicaStateAbsent 0 now 0 0.

Definition RTransition (now : Z) (next : NodeReplicaState) (r : NodeReplica)
    : NodeReplica * result ReplicaError NodeReplicaState :=
  if decide (r_State r = next) then (r, Ok (r_State r))
  else if nodeReplicaTransitions (r_State r) next then
    (mkReplica (r_NodeID r) (r_InfoHash r) (r_Class r) next (r_RetryCount r) now
       (if decide (next = ReplicaStateRequested) then now else r_RequestedAt r)
       (if decide (next = ReplicaStateVerified) then now else r_VerifiedAt r), Ok next)
  else (r, Err (ErrReplicaInvalidTransition (r_State r) next)).

Definition GetState (r : NodeReplica) : NodeReplicaState := r_State r.

Definition ForceEvict (now : Z) (r : NodeReplica) : NodeReplica :=
  if CountsAsVerified (r_State r)
  then r {{ r_State := ReplicaStateAbsent }} {{ r_LastTransition := now }} else r.

Definition UpgradeClass (to : ReplicaClass) (r : NodeReplica) : NodeReplica * bool :=
  if class_rank (r_Class r) <? class_rank to then (r {{ r_Class := to }}, true) else (r, false).

(** ** The registry of replicas *)

Abbreviation replicaKey := (Z * string)%type.
Abbreviation NodeReplicaMap := (gmap replicaKey NodeReplica).

Definition NewNodeReplicaMap : NodeReplicaMap := ∅.

Definition RGet (nodeID : Z) (infoHash : string) (m : NodeReplicaMap) : option NodeReplica :=
  m !! (nodeID, infoHash).

Definition GetOrCreate (now nodeID : Z) (infoHash : string) (class : ReplicaClass) (m : NodeReplicaMap)
    : NodeReplicaMap * NodeReplica :=
  match m !! (nodeID, infoHash) with
  | Some r => (m, r)
  | None => let r := NewNodeReplica now nodeID infoHash class in (<[(nodeID, infoHash) := r]> m, r)
  end.

Definition RDelete (nodeID : Z) (infoHash : string) (m : NodeReplicaMap) : NodeReplicaMap :=
  delete (nodeID, infoHash) m.

(** The entries of a hash, in the iteration order of the map.  The callbacks
    of [ForHash] change the entry they are called on and no other. *)
Definition ForHash (order : NodeReplicaMap -> list (replicaKey * NodeReplica)) (infoHash : string)
    (m : NodeReplicaMap) : list (replicaKey * NodeReplica) :=
  filter (fun kr => kr.1.2 = infoHash) (order m).

Definition sla_verified (r : NodeReplica) : bool := CountsAsVerified (r_State r) && CountsTowardSLA (r_Class r).

Definition VerifiedCount (order : NodeReplicaMap -> list (replicaKey * NodeReplica)) (infoHash : string)
    (m : NodeReplicaMap) : Z :=
  foldl (fun count kr => if sla_verified kr.2 then count + 1 else count) 0 (ForHash order infoHash m).

(** ** The verification state machine of an artifact *)

Inductive VerifyState :=
| StateDownloading | StateComplete | StateVerifying | StateVerified | StateCorrupt | StateDeleting
| StateRetrying | StateFailed.
#[export] Instance VerifyState_eq : EqDecision VerifyState.
Proof. solve_decision. Defined.

Definition MaxVerifyRetries : Z := 3.

Inductive VerifyError := ErrMaxRetriesExceeded | ErrInvalidTransition | ErrTerminalState.

Definition VerifyState_String (s : VerifyState) : string :=
  match s with
  | StateDownloading => "DOWNLOADING" | StateComplete => "COMPLETE" | StateVerifying => "VERIFYING"
  | StateVerified => "VERIFIED" | StateCorrupt => "CORRUPT" | StateDeleting => "DELETING"
  | StateRetrying => "RETRYING" | StateFailed => "FAILED"
  end.

Definition IsTerminal (s : VerifyState) : bool :=
  match s with StateVerified | StateFailed => true | _ => false end.

Definition validTransitions (current next : VerifyState) : bool :=
  match current, next with
  | StateDownloading, StateComplete
  | StateComplete, StateVerifying
  | StateVerifying, (StateVerified | StateCorrupt)
  | StateCorrupt, StateDeleting
  | StateDeleting, (StateRetrying | StateFailed)
  | StateRetrying, StateDownloading => true
  | _, _ => false
  end.

(** The state that is returned, and the error beside it. *)
Definition VTransition (current next : VerifyState) (retryCount : Z) : VerifyState * option VerifyError :=
  if IsTerminal current then (current, Some ErrTerminalState)
  else if negb (validTransitions current next) then (current, Some ErrInvalidTransition)
  else if bool_decide (current = StateDeleting) && (MaxVerifyRetries <=? retryCount)
  then (StateFailed, Some ErrMaxRetriesExceeded)
  else (next, None).

(** ** Artifacts *)

Inductive ReplicationHealth := ReplicaHealthy | ReplicaUnderReplicated | ReplicaDegraded | ReplicaUnavailable.

Definition ReplicationHealth_String (h : ReplicationHealth) : string :=
  match h with
  | ReplicaHealthy => "HEALTHY" | ReplicaUnderReplicated => "UNDER_REPLICATED"
  | ReplicaDegraded => "DEGRADED" | ReplicaUnavailable => "UNAVAILABLE"
  end.

Definition EvalHealth (replicaCount minReplicas desiredReplicas : Z) : ReplicationHealth :=
  if desiredReplicas <=? replicaCount then ReplicaHealthy
  else if minReplicas <=? replicaCount then ReplicaUnderReplicated
  else if 0 <? replicaCount then ReplicaDegraded
  else ReplicaUnavailable.

Record Artifact := mkArtifact {
  a_ID : Z;
  a_InfoHash : string;
  a_Type : string;
  a_SHA256 : string;
  a_SizeBytes : Z;
  a_MinReplicas : Z;
  a_DesiredReplicas : Z;
  a_MaxReplicas : Z;
  a_VerifyState : VerifyState;
  a_RetryCount : Z;
  a_LastVerified : Z;
  a_CreatedAt : Z;
  a_AccessCount : Z;
  a_LastAccessedAt : Z;
  a_Heatmap : option DemandHeatmap
}.

Definition Health (replicaCount : Z) (a : Artifact) : ReplicationHealth :=
  EvalHealth replicaCount (a_MinReplicas a) (a_DesiredReplicas a).

Definition RecordAccess (now : Z) (a : Artifact) : Artifact :=
  a {{ a_AccessCount ::= fun n => i64 (n + 1) }} {{ a_LastAccessedAt := now }}.

Definition NewArtifact (now : Z) (infoHash : string) : Artifact :=
  mkArtifact 0 infoHash "" "" 0 0 0 0 StateDownloading 0 0 now 0 0 (Some (NewDemandHeatmap 1000)).

Abbreviation ArtifactList := (gmap string Artifact).

Definition ArtifactSet (infoHash : string) (a : Artifact) (al : ArtifactList) : ArtifactList :=
  <[infoHash := match a_Heatmap a with
                | None => a {{ a_Heatmap := Some (NewDemandHeatmap 1000) }}
                | Some _ => a
                end]> al.

(** ** Desired number of replicas *)

Record ReplicationConfig := mkRepCfg {
  rc_EMAAlpha : float64;
  rc_ScaleDownThreshold : Z;
  rc_PartitionPolicy : string;
  rc_HeartbeatIntervalSec : Z
}.

Definition DefaultReplicationConfig : ReplicationConfig :=
  mkRepCfg (flit 3 10) 3 "replicate_in_majority" 30.

Record PopularityReplicaCounter := mkCounter {
  pc_smoothed : float64;
  pc_currentDesired : Z;
  pc_belowCount : Z;
  pc_cfg : ReplicationConfig
}.

Definition NewPopularityReplicaCounter (cfg : ReplicationConfig) : PopularityReplicaCounter :=
  mkCounter (of_int 0) 0 0 cfg.

(** The smoothed demand after one more observation. *)
Definition smooth (d24h : float64) (p : PopularityReplicaCounter) : float64 :=
  fadd (fmul (rc_EMAAlpha (pc_cfg p)) d24h)
       (fmul (fsub (of_int 1) (rc_EMAAlpha (pc_cfg p))) (pc_smoothed p)).

(** The desired count before hysteresis, held between the bounds. *)
Definition target (smoothed : float64) (minReplicas maxReplicas : Z) : Z :=
  let desired := i64 (minReplicas + int64_of_float (fceil (Log2 (fadd (of_int 1) smoothed)))) in
  let desired := if maxReplicas <? desired then maxReplicas else desired in
  if desired <? minReplicas then minReplicas else desired.

Definition Evaluate (d24h : float64) (minReplicas maxReplicas : Z) (p : PopularityReplicaCounter)
    : PopularityReplicaCounter * Z :=
  let p := p {{ pc_smoothed := smooth d24h p }} in
  let desired := target (pc_smoothed p) minReplicas maxReplicas in
  let p' :=
    if desired <? pc_currentDesired p then
      let p := p {{ pc_belowCount ::= fun n => i64 (n + 1) }} in
      if rc_ScaleDownThreshold (pc_cfg p) <=? pc_belowCount p
      then p {{ pc_currentDesired := desired }} {{ pc_belowCount := 0 }} else p
    else p {{ pc_currentDesired := desired }} {{ pc_belowCount := 0 }} in
  (p', pc_currentDesired p').
