(* ===== verification/NodeRegistry.v ===== *)
(** * Managed nodes (tracker/node_registry.go)

    Failure domains, tiers, the reach state machine, the daily WAN budget and
    the registry of nodes.  [time.Now] is an argument; [DistanceKm] is not
    modelled, since nothing in the tracker calls it. *)
From Stdlib Require Import String.
From S2P Require Import Prelude GoFloat GoSort Replica.
Open Scope list_scope.
Open Scope Z_scope.

Inductive PeerKind := PeerUnmanaged | PeerManaged.

Definition PeerKind_String (pk : PeerKind) : string :=
  match pk with PeerManaged => "MANAGED" | PeerUnmanaged => "UNMANAGED" end.

(** ** Failure domains *)

Inductive FailureDomain := DomainHost | DomainRack | DomainSite | DomainNetwork | DomainPower.

Record FailureDomainLabels := mkDomains {
  fd_Host : string;
  fd_Rack : string;
  fd_Site : string;
  fd_Network : string;
  fd_Power : string
}.

Definition domain_label (d : FailureDomain) (f : FailureDomainLabels) : string :=
  match d with
  | DomainHost => fd_Host f | DomainRack => fd_Rack f | DomainSite => fd_Site f
  | DomainNetwork => fd_Network f | DomainPower => fd_Power f
  end.

Definition SharesDomainWith (f other : FailureDomainLabels) (d : FailureDomain) : bool :=
  let a := domain_label d f in
  let b := domain_label d other in
  negb (String.eqb a "") && String.eqb a b.

(** ** Tiers *)

Inductive NodeTier := NodeTierEdge | NodeTierRegional | NodeTierCore.
#[export] Instance NodeTier_eq : EqDecision NodeTier.
Proof. solve_decision. Defined.

Definition NodeTier_String (t : NodeTier) : string :=
  match t with NodeTierEdge => "EDGE" | NodeTierRegional => "REGIONAL" | NodeTierCore => "CORE" end.

Definition DefaultClass (t : NodeTier) : ReplicaClass :=
  match t with
  | NodeTierEdge => ReplicaEphemeral | NodeTierRegional => ReplicaCache | NodeTierCore => ReplicaStandard
  end.

Definition placementBonus (t : NodeTier) : float64 :=
  match t with
  | NodeTierCore => flit 15 100 | NodeTierRegional => flit 5 100 | NodeTierEdge => of_int 0
  end.

(** ** Reach states *)

Inductive ReachState := NodeReachable | NodeFlapping | NodeUnreachable.
#[export] Instance ReachState_eq : EqDecision ReachState.
Proof. solve_decision. Defined.

Definition FlapThreshold : Z := 3.
Definition GraceTTL : Z := 10 * Minute.

Definition ReachState_String (rs : ReachState) : string :=
  match rs with NodeReachable => "REACHABLE" | NodeFlapping => "FLAPPING" | NodeUnreachable => "UNREACHABLE" end.

(** ** WAN budget *)

Record WANBudget := mkWAN {
  w_LimitBytesPerDay : Z;
  w_UsedBytesThisDay : Z;
  w_LastReset : Z
}.

Definition Day : Z := 24 * Hour.

(** [t.Truncate(24 * time.Hour)]: times count from a midnight. *)
Definition TruncateDay (t : Z) : Z := t - t mod Day.

Definition resetIfNewDay (now : Z) (b : WANBudget) : WANBudget :=
  if w_LimitBytesPerDay b =? 0 then b
  else
    let today := TruncateDay now in
    if TimeIsZero (w_LastReset b) then b {{ w_LastReset := today }}
    else if today =? TruncateDay (w_LastReset b) then b
    else b {{ w_UsedBytesThisDay := 0 }} {{ w_LastReset := today }}.

Definition RecordUpload (now bytes : Z) (b : WANBudget) : WANBudget :=
  if bytes <=? 0 then b
  else (resetIfNewDay now b) {{ w_UsedBytesThisDay ::= fun u => i64 (u + bytes) }}.

Definition IsNearCap (now : Z) (b : WANBudget) : WANBudget * bool :=
  if w_LimitBytesPerDay b <=? 0 then (b, false)
  else
    let b := resetIfNewDay now b in
    (b, fleb (flit 9 10) (fdiv (of_int (w_UsedBytesThisDay b)) (of_int (w_LimitBytesPerDay b)))).

Definition clampFloat (v lo hi : float64) : float64 :=
  if fltb v lo then lo else if fltb hi v then hi else v.

Definition Available (now : Z) (b : WANBudget) : WANBudget * float64 :=
  if w_LimitBytesPerDay b <=? 0 then (b, of_int 1)
  else
    let b := resetIfNewDay now b in
    let used := fdiv (of_int (w_UsedBytesThisDay b)) (of_int (w_LimitBytesPerDay b)) in
    (b, clampFloat (fsub (of_int 1) used) (of_int 0) (of_int 1)).

(** ** Nodes *)

Record GeoCoord := mkGeo { g_Lat : float64; g_Lon : float64 }.

Definition GeoIsZero (g : GeoCoord) : bool := feqb (g_Lat g) (of_int 0) && feqb (g_Lon g) (of_int 0).

Record NodeCapabilities := mkCaps {
  nc_StorageFreeBytes : Z;
  nc_StorageTotalBytes : Z;
  nc_CPUCount : Z;
  nc_MemoryBytes : Z;
  nc_MaxTorrents : Z;
  nc_BTClientVersion : string
}.

Definition zeroCaps : NodeCapabilities := mkCaps 0 0 0 0 0 "".

Record NodeIdentity := mkNode {
  ni_NodeID : Z;
  ni_Kind : PeerKind;
  ni_Hostname : string;
  ni_LastIP : string;
  ni_Passkey : string;
  ni_Domains : FailureDomainLabels;
  ni_Tier : NodeTier;
  ni_Geo : GeoCoord;
  ni_ASN : Z;
  ni_WAN : WANBudget;
  ni_Caps : NodeCapabilities;
  ni_LastSeen : Z;
  ni_Registered : Z;
  ni_ReachState : ReachState;
  ni_FlapCount : Z;
  ni_LastFlap : Z
}.

Definition NewNodeIdentity (now id : Z) (hostname passkey : string) (domains : FailureDomainLabels) : NodeIdentity :=
  mkNode id PeerManaged hostname "" passkey domains NodeTierEdge (mkGeo (of_int 0) (of_int 0)) 0
    (mkWAN 0 0 (TruncateDay now)) zeroCaps now now NodeReachable 0 0.

Definition Heartbeat (now : Z) (ip : string) (caps : NodeCapabilities) (n : NodeIdentity) : NodeIdentity :=
  n {{ ni_LastIP := ip }} {{ ni_Caps := caps }} {{ ni_LastSeen := now }}
    {{ ni_ReachState := NodeReachable }} {{ ni_FlapCount := 0 }}.

Definition HeartbeatWithGeo (now : Z) (ip : string) (caps : NodeCapabilities) (geo : GeoCoord) (asn : Z)
    (n : NodeIdentity) : NodeIdentity :=
  let n := Heartbeat now ip caps n in
  let n := if GeoIsZero geo then n else n {{ ni_Geo := geo }} in
  if asn =? 0 then n else n {{ ni_ASN := asn }}.

Definition MarkUnreachable (n : NodeIdentity) : NodeIdentity := n {{ ni_ReachState := NodeUnreachable }}.

Definition IsReachable (n : NodeIdentity) : bool := bool_decide (ni_ReachState n <> NodeUnreachable).
Definition IsDirectable (n : NodeIdentity) : bool := bool_decide (ni_ReachState n = NodeReachable).

(** ** The registry *)

Record NodeRegistry := mkRegistry {
  nr_nodes : gmap Z NodeIdentity;
  nr_byIP : gmap string Z
}.

Definition NewNodeRegistry : NodeRegistry := mkRegistry ∅ ∅.

Definition Register (n : NodeIdentity) (r : NodeRegistry) : NodeRegistry :=
  let r := r {{ nr_nodes ::= <[ni_NodeID n := n]> }} in
  if String.eqb (ni_LastIP n) "" then r else r {{ nr_byIP ::= <[ni_LastIP n := ni_NodeID n]> }}.

Definition NGet (id : Z) (r : NodeRegistry) : option NodeIdentity := nr_nodes r !! id.

Definition GetByIP (ip : string) (r : NodeRegistry) : option NodeIdentity :=
  match nr_byIP r !! ip with
  | None => None
  | Some id => nr_nodes r !! id
  end.

Definition Unregister (id : Z) (r : NodeRegistry) : NodeRegistry :=
  let r := match nr_nodes r !! id with
           | Some n => r {{ nr_byIP ::= delete (ni_LastIP n) }}
           | None => r
           end in
  r {{ nr_nodes ::= delete id }}.

(** What a holder of the pointer to a registered node does to it. *)
Definition update_node (id : Z) (f : NodeIdentity -> NodeIdentity) (r : NodeRegistry) : NodeRegistry :=
  r {{ nr_nodes ::= alter f id }}.

Definition ReachableNodes (order : gmap Z NodeIdentity -> list (Z * NodeIdentity)) (r : NodeRegistry)
    : list NodeIdentity :=
  filter (fun n => IsReachable n = true) (order (nr_nodes r)).*2.

Definition DirectableNodes (order : gmap Z NodeIdentity -> list (Z * NodeIdentity)) (r : NodeRegistry)
    : list NodeIdentity :=
  filter (fun n => IsDirectable n = true) (order (nr_nodes r)).*2.

(** The body of the second loop of [MarkStale], and whether the node has just
    begun to flap. *)
Definition mark_node (now : Z) (n : NodeIdentity) : NodeIdentity * bool :=
  match ni_ReachState n with
  | NodeReachable =>
      (n {{ ni_ReachState := NodeFlapping }} {{ ni_FlapCount := 1 }} {{ ni_LastFlap := now }}, true)
  | NodeFlapping =>
      let n := n {{ ni_FlapCount ::= fun c => i64 (c + 1) }} in
      (if FlapThreshold <=? ni_FlapCount n then n {{ ni_ReachState := NodeUnreachable }} else n, false)
  | NodeUnreachable => (n, false)
  end.

Definition mark_stale_step (threshold now : Z) (acc : NodeRegistry * list (Z * string * Z)) (id : Z)
    : NodeRegistry * list (Z * string * Z) :=
  let '(r, flaps) := acc in
  match nr_nodes r !! id with
  | None => acc
  | Some n =>
      if negb (ni_LastSeen n <? threshold) then acc
      else
        let '(n', justFlapped) := mark_node now n in
        (update_node id (fun _ => n') r,
         if justFlapped then flaps ++ [(ni_NodeID n', ni_Hostname n', ni_FlapCount n')] else flaps)
  end.

(** The first loop collects the silent nodes of [snap]; the second visits them
    in [r], which heartbeats may have changed in between.  Returned with the
    registry: the calls of [onFlap].  The two readings of the clock are taken to be the same. *)
Definition MarkStale (order : gmap Z NodeIdentity -> list (Z * NodeIdentity)) (cutoff now : Z)
    (snap r : NodeRegistry) : NodeRegistry * list (Z * string * Z) :=
  let threshold := now - cutoff in
  let stale := (filter (fun kn => (ni_LastSeen kn.2 <? threshold) = true) (order (nr_nodes snap))).*1 in
  foldl (mark_stale_step threshold now) (r, []) stale.

Definition ClassifyPeer (ip : string) (r : NodeRegistry) : PeerKind :=
  match nr_byIP r !! ip with Some _ => PeerManaged | None => PeerUnmanaged end.

Definition HasVerifiedCoreReplica (order : gmap Z NodeIdentity -> list (Z * NodeIdentity)) (infoHash : string)
    (replicas : NodeReplicaMap) (r : NodeRegistry) : bool :=
  existsb (fun n =>
    bool_decide (ni_Tier n = NodeTierCore) &&
    match RGet (ni_NodeID n) infoHash replicas with
    | Some rep => CountsAsVerified (r_State rep)
    | None => false
    end) (order (nr_nodes r)).*2.

(** ** Lemmas *)

Lemma update_node_lookup id f r j :
  nr_nodes (update_node id f r) !! j = if decide (j = id) then f <$> nr_nodes r !! j else nr_nodes r !! j.
Proof.
  destruct r as [nodes byIP]. unfold update_node. cbn.
  destruct (decide (j = id)) as [->|]; [apply lookup_alter_eq|by apply lookup_alter_ne].
Qed.
