(* ===== verification/Placement.v ===== *)
(** * Placement (tracker/locality.go, tracker/peer_sort.go)

    The locality score of a node, the ranking of candidates, the greedy choice
    that covers failure domains first, and the ordering of announce peers by
    proximity.  Map iteration orders are arguments; [None] is a panic. *)
From Stdlib Require Import String.
From S2P Require Import Prelude NetIP GoFloat GoSort Heatmap Replica NodeRegistry.
Open Scope list_scope.
Open Scope Z_scope.

Record LocalityWeights := mkLW {
  lw_Compute : float64;
  lw_Artifact : float64;
  lw_Queue : float64;
  lw_Network : float64;
  lw_Reliability : float64
}.

Definition DefaultLocalityWeights : LocalityWeights :=
  mkLW (flit 30 100) (flit 25 100) (flit 20 100) (flit 15 100) (flit 10 100).

Definition fabs (x : float64) : float64 := SpecFloat.SFabs x.

(** [true]: accepted. *)
Definition LValidate (w : LocalityWeights) : bool :=
  let sum := fadd (fadd (fadd (fadd (lw_Compute w) (lw_Artifact w)) (lw_Queue w)) (lw_Network w)) (lw_Reliability w) in
  negb (fltb (flit 1 1000) (fabs (fsub sum (of_int 1)))).

Record NodeScoreInput := mkNSI {
  si_Compute : float64;
  si_Artifact : float64;
  si_Queue : float64;
  si_Network : float64;
  si_Reliability : float64
}.

(** [if q < 0 { q = 0 }] *)
Definition floor0 (q : float64) : float64 := if fltb q (of_int 0) then of_int 0 else q.

Definition LScore (w : LocalityWeights) (i : NodeScoreInput) : float64 :=
  fadd (fadd (fadd (fadd (fmul (lw_Compute w) (si_Compute i)) (fmul (lw_Artifact w) (si_Artifact i)))
                   (fmul (lw_Queue w) (floor0 (si_Queue i))))
             (fmul (lw_Network w) (floor0 (si_Network i))))
       (fmul (lw_Reliability w) (si_Reliability i)).

Record NodeCandidate := mkCand {
  cd_NodeID : Z;
  cd_FailureDomain : string;
  cd_Score : float64
}.

(** The exchange of neighbours while the later score is greater. *)
Definition higher {A} (score : A -> float64) (a b : A) : bool := fltb (score b) (score a).

Definition RankNodes (order : gmap Z NodeScoreInput -> list (Z * NodeScoreInput)) (weights : LocalityWeights)
    (inputs : gmap Z NodeScoreInput) (domains : gmap Z string) : list NodeCandidate :=
  slice_stable (higher cd_Score)
    ((fun '(id, i) => mkCand id (default ""%string (domains !! id)) (LScore weights i)) <$> order inputs).

(** The first pass: one candidate per failure domain. *)
Fixpoint cover_pass (needed : Z) (ranked : list NodeCandidate) (covered : gset string)
    (selected : list NodeCandidate) : list NodeCandidate :=
  match ranked with
  | [] => selected
  | c :: ranked' =>
      if needed <=? len selected then selected
      else if decide (cd_FailureDomain c ∈ covered) then cover_pass needed ranked' covered selected
      else cover_pass needed ranked' ({[cd_FailureDomain c]} ∪ covered) (selected ++ [c])
  end.

(** The second pass: the best of the rest. *)
Fixpoint fill_pass (needed : Z) (ranked selected : list NodeCandidate) : list NodeCandidate :=
  match ranked with
  | [] => selected
  | c :: ranked' =>
      if needed <=? len selected then selected
      else if existsb (fun s => cd_NodeID s =? cd_NodeID c) selected then fill_pass needed ranked' selected
      else fill_pass needed ranked' (selected ++ [c])
  end.

(** [make] with a negative capacity panics; a capacity beyond the memory is not modelled. *)
Definition GreedyPlace (ranked : list NodeCandidate) (needed : Z) : option (list NodeCandidate) :=
  if needed <? 0 then None
  else Some (fill_pass needed ranked (cover_pass needed ranked ∅ [])).

(** ** Peers by proximity *)

Record PeerEntry := mkPeerEntry { pe_IP : IP; pe_Port : Z }.

Definition net16 (v4 : IP) : Z := match v4 with a :: b :: _ => net_key a b | _ => 0 end.

(** [sort_priority] is the closure [priority]: 0 an edge node of the client's
    network, 1 another edge or regional node, 2 the rest. *)
Definition sort_priority (nodes : NodeRegistry) (clientNet : Z) (pe : PeerEntry) : Z :=
  match pe_IP pe with
  | [] => 2
  | ip =>
      match GetByIP (IPString ip) nodes with
      | None => 2
      | Some n =>
          let nodeNet := if ni_ASN n =? 0 then net16 (To4 ip) else Z.land (ni_ASN n) 65535 in
          let sameNet := negb (clientNet =? 0) && (nodeNet =? clientNet) in
          match ni_Tier n with
          | NodeTierEdge => if sameNet then 0 else 1
          | NodeTierRegional => 1
          | NodeTierCore => 2
          end
      end
  end.

(** [nodes] is [None] for a nil registry. *)
Definition SortPeersByProximity (nodes : option NodeRegistry) (clientIP : IP) (peers : list PeerEntry)
    : list PeerEntry :=
  match nodes with
  | None => peers
  | Some nodes =>
      if len peers <=? 1 then peers
      else
        let clientNet := net16 (To4 clientIP) in
        slice_stable (fun a b => sort_priority nodes clientNet a <? sort_priority nodes clientNet b) peers
  end.
