(* ===== verification/PlacementSpec.v ===== *)
(** * Theorems about placement, popularity and reachability

    The order on float64 scores, the ranking of candidates, the greedy cover of
    failure domains, the hysteresis of the popularity counter and the reach
    state machine. *)
From Stdlib Require Import String SpecFloat.
From S2P Require Import Prelude GoFloat GoSort Heatmap Replica NodeRegistry Placement.
Open Scope list_scope.
Open Scope Z_scope.

(** ** The order of scores *)

Definition score_ok {A} (score : A -> float64) (a : A) : Prop := fis_nan (score a) = false.

Lemma higher_key {A} (score : A -> float64) a b :
  score_ok score a -> score_ok score b ->
  higher score a b = true <-> key_lt (float_key (score b)) (float_key (score a)).
Proof. intros Ha Hb. by apply fltb_key. Qed.

Lemma higher_asym {A} (score : A -> float64) a b :
  score_ok score a -> score_ok score b -> higher score a b = true -> higher score b a = false.
Proof.
  intros Ha Hb H1. apply not_true_iff_false. intros H2. apply higher_key in H1, H2; try done. unfold key_lt in *. lia.
Qed.

Lemma higher_neg_trans {A} (score : A -> float64) a b c :
  score_ok score a -> score_ok score b -> score_ok score c ->
  higher score a b = false -> higher score b c = false -> higher score a c = false.
Proof.
  intros Ha Hb Hc H1 H2. rewrite <- not_true_iff_false in *. rewrite higher_key in * by done.
  unfold key_lt in *. lia.
Qed.

(** ** Ranking *)

(** Scores fall along the list. *)
Definition descending {A} (score : A -> float64) (l : list A) : Prop :=
  StronglySorted (fun a b => fltb (score a) (score b) = false) l.

Lemma StronglySorted_rev {A} (R : A -> A -> Prop) l : StronglySorted R l -> StronglySorted (fun a b => R b a) (rev l).
Proof.
  induction 1 as [|x l Hs IH Hx]; simpl; [constructor|]. apply StronglySorted_app. split; [|split; [done|repeat constructor]].
  intros a b Ha Hb. apply list_elem_of_singleton in Hb as ->.
  rewrite Forall_forall in Hx. apply Hx. apply list_elem_of_In, in_rev. by apply list_elem_of_In.
Qed.

Lemma slice_stable_descending {A} (score : A -> float64) l :
  Forall (score_ok score) l -> descending score (slice_stable (higher score) l).
Proof.
  intros Hl. unfold slice_stable, descending.
  destruct (sort_down (higher score) (score_ok score) (higher_asym score) (higher_neg_trans score) l []) as [Hd _];
    [done|constructor..|].
  apply StronglySorted_rev in Hd. exact Hd.
Qed.

(** ** Covering failure domains *)

(** The best candidate of each domain, in rank order. *)
Fixpoint leaders (seen : gset string) (ranked : list NodeCandidate) : list NodeCandidate :=
  match ranked with
  | [] => []
  | c :: r => if decide (cd_FailureDomain c ∈ seen) then leaders seen r
              else c :: leaders ({[cd_FailureDomain c]} ∪ seen) r
  end.

Definition chosen (sel : list NodeCandidate) (c : NodeCandidate) : bool :=
  existsb (fun s => cd_NodeID s =? cd_NodeID c) sel.

(** The choice: leaders first, then the best of the rest. *)
Definition reference_place (ranked : list NodeCandidate) (needed : Z) : list NodeCandidate :=
  let first := take (Z.to_nat needed) (leaders ∅ ranked) in
  first ++ take (Z.to_nat needed - length first) (filter (fun c => chosen first c = false) ranked).

Lemma cover_pass_leaders needed ranked covered sel :
  cover_pass needed ranked covered sel = sel ++ take (Z.to_nat needed - length sel) (leaders covered ranked).
Proof.
  revert covered sel. induction ranked as [|c r IH]; intros covered sel; simpl.
  - by rewrite take_nil, app_nil_r.
  - unfold len. destruct (Z.leb_spec needed (Z.of_nat (length sel))) as [Hle|Hlt].
    + replace (Z.to_nat needed - length sel)%nat with 0%nat by lia. by rewrite app_nil_r.
    + destruct (decide _); [apply IH|]. rewrite IH, length_app. simpl.
      replace (Z.to_nat needed - length sel)%nat with (S (Z.to_nat needed - (length sel + 1)))%nat by lia.
      simpl. by rewrite <- app_assoc.
Qed.

Lemma chosen_app sel x c : chosen (sel ++ [x]) c = chosen sel c || (cd_NodeID x =? cd_NodeID c).
Proof. unfold chosen. rewrite existsb_app. simpl. by rewrite orb_false_r. Qed.

Lemma chosen_elem sel c : c ∈ sel -> chosen sel c = true.
Proof. intros Hc. apply existsb_exists. exists c. split; [by apply list_elem_of_In|apply Z.eqb_refl]. Qed.

Lemma fill_pass_reference needed ranked sel :
  NoDup (cd_NodeID <$> ranked) ->
  fill_pass needed ranked sel =
  sel ++ take (Z.to_nat needed - length sel) (filter (fun c => chosen sel c = false) ranked).
Proof.
  revert sel. induction ranked as [|c r IH]; intros sel Hnd; cbn [fill_pass].
  - by rewrite filter_nil, take_nil, app_nil_r.
  - apply NoDup_cons in Hnd as [Hc Hnd]. rewrite filter_cons. unfold len.
    destruct (Z.leb_spec needed (Z.of_nat (length sel))) as [Hle|Hlt].
    + replace (Z.to_nat needed - length sel)%nat with 0%nat by lia. by rewrite app_nil_r.
    + fold (chosen sel c). destruct (chosen sel c) eqn:E; [destruct (decide (true = false)); [done|by apply IH]|].
      destruct (decide (false = false)); [|done]. rewrite IH by done. rewrite length_app. simpl.
      replace (Z.to_nat needed - length sel)%nat with (S (Z.to_nat needed - (length sel + 1)))%nat by lia.
      simpl. rewrite <- app_assoc. simpl. do 3 f_equal.
      assert (forall x, x ∈ r -> chosen (sel ++ [c]) x = chosen sel x) as Hext.
      { intros x Hx. rewrite chosen_app. destruct (Z.eqb_spec (cd_NodeID c) (cd_NodeID x)) as [Hid|]; [|by rewrite orb_false_r].
        destruct Hc. rewrite Hid. by apply list_elem_of_fmap_2. }
      clear -Hext. induction r as [|y r IHr]; [done|]. rewrite !filter_cons, Hext by (by left).
      destruct (decide _); [f_equal|]; apply IHr; intros x Hx; apply Hext; by right.
Qed.

Definition domains_of (l : list NodeCandidate) : gset string := list_to_set (cd_FailureDomain <$> l).

Lemma leaders_elem seen ranked c : c ∈ leaders seen ranked -> c ∈ ranked.
Proof.
  revert seen. induction ranked as [|x r IH]; intros seen; simpl; [done|]. destruct (decide _).
  - intros Hc. right. by eapply IH.
  - intros [->|Hc]%elem_of_cons; [by left|right; by eapply IH].
Qed.

Lemma leaders_domains seen ranked :
  NoDup (cd_FailureDomain <$> leaders seen ranked) /\
  domains_of (leaders seen ranked) = domains_of ranked ∖ seen.
Proof.
  revert seen. induction ranked as [|x r IH]; intros seen; simpl; [split; [constructor|set_solver]|].
  unfold domains_of in *. rewrite fmap_cons. cbn [list_to_set]. destruct (decide _) as [Hin|Hout].
  - destruct (IH seen) as [Hn Hd]. split; [done|]. rewrite Hd. set_solver.
  - destruct (IH ({[cd_FailureDomain x]} ∪ seen)) as [Hn Hd]. rewrite fmap_cons. cbn [list_to_set]. split.
    + constructor; [|done]. intros Hx. assert (cd_FailureDomain x ∈ domains_of (leaders ({[cd_FailureDomain x]} ∪ seen) r)) as Hd'
        by (unfold domains_of; by apply elem_of_list_to_set).
      unfold domains_of in Hd'. rewrite Hd in Hd'. set_solver.
    + rewrite Hd. apply set_eq. intros y. rewrite !elem_of_union, !elem_of_difference, !elem_of_union, !elem_of_singleton.
      destruct (decide (y = cd_FailureDomain x)) as [->|]; naive_solver.
Qed.

Lemma leaders_nodup seen ranked : NoDup (cd_NodeID <$> ranked) -> NoDup (cd_NodeID <$> leaders seen ranked).
Proof.
  revert seen. induction ranked as [|x r IH]; intros seen Hnd; simpl; [constructor|].
  apply NoDup_cons in Hnd as [Hx Hnd]. destruct (decide _); [by apply IH|]. rewrite fmap_cons. constructor; [|by apply IH].
  intros (y & Hy & Hin)%list_elem_of_fmap. destruct Hx. rewrite Hy. apply list_elem_of_fmap_2. by eapply leaders_elem.
Qed.

Lemma NoDup_take_fmap {A B} (f : A -> B) n l : NoDup (f <$> l) -> NoDup (f <$> take n l).
Proof. intros Hnd. rewrite fmap_take. apply (NoDup_app _ (drop n (f <$> l))). by rewrite take_drop. Qed.

Lemma chosen_split sel ranked :
  NoDup (cd_NodeID <$> ranked) -> NoDup (cd_NodeID <$> sel) -> (forall c, c ∈ sel -> c ∈ ranked) ->
  ranked ≡ₚ sel ++ filter (fun c => chosen sel c = false) ranked.
Proof.
  intros Hr Hs Hsub. apply NoDup_Permutation.
  - by apply (NoDup_fmap_1 cd_NodeID).
  - apply NoDup_app. split; [by apply (NoDup_fmap_1 cd_NodeID)|]. split.
    + intros c Hc [Hf _]%list_elem_of_filter. rewrite chosen_elem in Hf by done. done.
    + apply NoDup_filter. by apply (NoDup_fmap_1 cd_NodeID).
  - intros c. rewrite elem_of_app, list_elem_of_filter. split.
    + intros Hc. destruct (chosen sel c) eqn:E; [left|by right].
      apply existsb_exists in E as (s & Hs' & Hid). apply list_elem_of_In in Hs'. apply Z.eqb_eq in Hid.
      assert (s = c) as <-; [|done]. specialize (Hsub s Hs').
      apply list_elem_of_lookup in Hsub as [i Hi]. apply list_elem_of_lookup in Hc as [j Hj].
      assert (i = j) as <-; [|congruence].
      apply (NoDup_lookup _ i j (cd_NodeID c) Hr); rewrite list_lookup_fmap; [by rewrite Hi, <- Hid|by rewrite Hj].
    + intros [Hc|[_ Hc]]; auto.
Qed.

Lemma size_domains l : (size (domains_of l) <= length l)%nat.
Proof.
  unfold domains_of. rewrite <- (length_fmap cd_FailureDomain l). generalize (cd_FailureDomain <$> l). intros k.
  induction k as [|x k IH]; [by rewrite list_to_set_nil, size_empty|].
  cbn [list_to_set length]. rewrite size_union_alt, size_singleton.
  pose proof (subseteq_size (list_to_set k ∖ {[x]} : gset string) (list_to_set k) ltac:(set_solver)). lia.
Qed.

(** [C33] Greedy placement.  A negative count panics.  Otherwise, on candidates with
    distinct nodes, the choice is the best candidate of each failure domain in
    rank order followed by the best of the rest; it has as many nodes as are
    needed or exist, all of them candidates and distinct, and covers as many
    failure domains as that number of nodes can. *)
Theorem greedy_place ranked needed :
  (needed < 0 -> GreedyPlace ranked needed = None) /\
  (0 <= needed -> NoDup (cd_NodeID <$> ranked) ->
   exists sel, GreedyPlace ranked needed = Some sel /\ sel = reference_place ranked needed /\
     len sel = Z.min needed (len ranked) /\ NoDup (cd_NodeID <$> sel) /\
     (forall c, c ∈ sel -> c ∈ ranked) /\
     Z.of_nat (size (domains_of sel)) = Z.min needed (Z.of_nat (size (domains_of ranked)))).
Proof.
  unfold GreedyPlace. split; intros Hn; [by rewrite (proj2 (Z.ltb_lt _ _))|]. intros Hnd.
  rewrite (proj2 (Z.ltb_ge _ _)) by done. eexists. split; [done|].
  rewrite cover_pass_leaders, fill_pass_reference by done. simpl app. rewrite Nat.sub_0_r.
  fold (reference_place ranked needed). split; [done|]. unfold reference_place.
  destruct (leaders_domains ∅ ranked) as [Hld Hdom]. rewrite difference_empty_L in Hdom.
  pose proof (leaders_nodup ∅ ranked Hnd) as Hln. set (first := take (Z.to_nat needed) (leaders ∅ ranked)).
  assert (forall c, c ∈ first -> c ∈ ranked) as Hsub.
  { intros c Hc. apply (leaders_elem ∅). by eapply subseteq_take in Hc. }
  assert (NoDup (cd_NodeID <$> first)) as Hfn by (by apply NoDup_take_fmap).
  pose proof (chosen_split first ranked Hnd Hfn Hsub) as Hp. set (rest := filter _ ranked) in *.
  set (sel := first ++ take (Z.to_nat needed - length first) rest).
  assert (length first = Nat.min (Z.to_nat needed) (length (leaders ∅ ranked))) as Hlf by apply length_take.
  assert (length ranked = length first + length rest)%nat as Hlr by (rewrite Hp at 1; apply length_app).
  assert (forall c, c ∈ sel -> c ∈ ranked) as Hss.
  { intros c [Hc|Hc]%elem_of_app; [by apply Hsub|]. rewrite Hp. apply elem_of_app. right. by eapply subseteq_take in Hc. }
  assert (length (leaders ∅ ranked) = size (domains_of ranked)) as Hsz.
  { rewrite <- Hdom. unfold domains_of. rewrite size_list_to_set by done. by rewrite length_fmap. }
  split; [|split; [|split; [done|]]].
  - unfold sel, len. rewrite length_app, length_take, Hlr. lia.
  - unfold sel. assert (NoDup (cd_NodeID <$> (first ++ rest))) as Hall by (by rewrite <- Hp).
    rewrite <- (take_drop (Z.to_nat needed - length first) rest), app_assoc in Hall. rewrite fmap_app in Hall.
    by apply NoDup_app in Hall as [Hall _].
  - assert (size (domains_of sel) <= size (domains_of ranked))%nat as H1.
    { apply subseteq_size. unfold domains_of. intros x Hx. apply elem_of_list_to_set in Hx.
      apply list_elem_of_fmap in Hx as (c & -> & Hc). apply elem_of_list_to_set, list_elem_of_fmap_2. auto. }
    assert (length first <= size (domains_of sel))%nat as H2.
    { assert (size (domains_of first) = length first) as <-.
      { unfold domains_of. rewrite size_list_to_set by (by apply NoDup_take_fmap). by rewrite length_fmap. }
      apply subseteq_size. unfold domains_of, sel. rewrite fmap_app, list_to_set_app_L. set_solver. }
    pose proof (size_domains sel) as H3. unfold sel in H3 at 2. rewrite length_app, length_take in H3. lia.
Qed.

Definition demo_cands : list NodeCandidate :=
  [mkCand 1 "r1" (of_int 9); mkCand 2 "r1" (of_int 8); mkCand 3 "r2" (of_int 7); mkCand 4 "r1" (of_int 6)].

Lemma greedy_place_witness :
  exists sel, GreedyPlace demo_cands 3 = Some sel /\ len sel = 3 /\ Z.of_nat (size (domains_of sel)) = 2.
Proof.
  destruct (greedy_place demo_cands 3) as [_ H]. destruct H as (sel & Hs & _ & Hl & _ & _ & Hd).
  - lia.
  - apply (bool_decide_unpack _). by vm_compute.
  - exists sel. split; [done|]. split; [rewrite Hl; by vm_compute|rewrite Hd; by vm_compute].
Defined.

(** ** The popularity counter *)

Section Popularity.
Context (cfg : ReplicationConfig) (mn mx : Z).
Context (Hthr : 0 < rc_ScaleDownThreshold cfg < 2 ^ 62).
Abbreviation thr := (rc_ScaleDownThreshold cfg).

(** A run of evaluations of one artifact, newest first: the count asked for by
    the demand alone, and the count returned. *)
Definition eval_step (acc : PopularityReplicaCounter * list (Z * Z)) (d24h : float64)
    : PopularityReplicaCounter * list (Z * Z) :=
  let '(p, tr) := acc in
  let '(p', r) := Evaluate d24h mn mx p in
  (p', (target (smooth d24h p) mn mx, r) :: tr).
Definition eval_run (ds : list float64) : PopularityReplicaCounter * list (Z * Z) :=
  foldl eval_step (NewPopularityReplicaCounter cfg, []) ds.

Definition current (tr : list (Z * Z)) : Z := match tr with [] => 0 | (_, r) :: _ => r end.

Record counted (p : PopularityReplicaCounter) (tr : list (Z * Z)) : Prop := mkCounted {
  co_cfg : pc_cfg p = cfg;
  co_cur : pc_currentDesired p = current tr;
  co_below : 0 <= pc_belowCount p < thr;
  co_len : (Z.to_nat (pc_belowCount p) <= length tr)%nat;
  co_recent : Forall (fun e => e.1 < current tr) (take (Z.to_nat (pc_belowCount p)) tr)
}.

(** One evaluation: at once up, down only at the end of a series. *)
Lemma eval_step_cases d p tr :
  counted p tr ->
  exists p' t r, eval_step (p, tr) d = (p', (t, r) :: tr) /\ t = target (smooth d p) mn mx /\ counted p' ((t, r) :: tr) /\
    t <= r /\ (r = t \/ r = current tr) /\
    (r < current tr -> r = t /\ pc_belowCount p + 1 = thr) /\
    (t < current tr -> current tr <= r -> pc_belowCount p' = pc_belowCount p + 1).
Proof.
  intros [Hcfg Hcur Hb Hlen Hrec]. unfold eval_step, Evaluate. cbn zeta.
  set (t := target (smooth d p) mn mx).
  change (target (pc_smoothed (p {{ pc_smoothed := smooth d p }})) mn mx) with t. clearbody t.
  destruct p as [sm cur below c]. cbn [pc_currentDesired pc_belowCount pc_cfg pc_smoothed] in *. subst c.
  cbn. rewrite Hcur. destruct (Z.ltb_spec t (current tr)) as [Hlt|Hge].
  - cbn. rewrite i64_id by (unfold in_i64; lia). destruct (Z.leb_spec thr (below + 1)) as [Hd|Hk].
    + cbn. do 3 eexists. split; [done|]. split; [done|]. split; [|split; [lia|]; split; [by left|]; split; [|lia]].
      * by split; cbn; try lia.
      * intros _. split; [done|lia].
    + cbn. do 3 eexists. split; [done|]. split; [done|]. split; [|split; [lia|]; split; [by right|]; split; cbn; lia].
      split; cbn; try done; try lia. replace (Z.to_nat (below + 1)) with (S (Z.to_nat below)) by lia.
      cbn. constructor; done.
  - cbn. do 3 eexists. split; [done|]. split; [done|]. split; [|split; [lia|]; split; [by left|]; split; cbn; lia].
    by split; cbn; try lia.
Qed.

Lemma eval_run_snoc ds d : eval_run (ds ++ [d]) = eval_step (eval_run ds) d.
Proof. unfold eval_run. by rewrite foldl_app. Qed.

Lemma eval_run_counted ds : counted (eval_run ds).1 (eval_run ds).2.
Proof.
  induction ds as [|d ds IH] using rev_ind.
  - by split; cbn; try lia.
  - rewrite eval_run_snoc. destruct (eval_run ds) as [p tr]. cbn [fst snd] in IH.
    destruct (eval_step_cases d p tr IH) as (p' & t & r & -> & _ & Hc & _). done.
Qed.

Lemma target_bounds sm : mn <= mx -> mn <= target sm mn mx <= mx.
Proof.
  intros Hm. unfold target. cbn zeta. set (x := i64 _). clearbody x.
  destruct (Z.ltb_spec mx x); [destruct (Z.ltb_spec mx mn)|destruct (Z.ltb_spec x mn)]; lia.
Qed.

Lemma eval_run_bounds ds :
  0 <= mn <= mx -> Forall (fun e => mn <= e.1 <= mx /\ e.1 <= e.2 /\ mn <= e.2 <= mx) (eval_run ds).2.
Proof.
  intros Hm. induction ds as [|d ds IH] using rev_ind; [constructor|]. rewrite eval_run_snoc.
  pose proof (eval_run_counted ds) as Hc. destruct (eval_run ds) as [p tr]. cbn [fst snd] in *.
  destruct (eval_step_cases d p tr Hc) as (p' & t & r & -> & Ht & _ & Htr & Hr & _).
  pose proof (target_bounds (smooth d p) (proj2 Hm)) as Hb. cbn [snd]. constructor; [cbn [fst snd]|done].
  split; [lia|]. split; [lia|]. destruct Hr as [->| ->]; [lia|].
  destruct tr as [|[t0 r0] tr]; cbn [current] in *; [lia|].
  apply Forall_cons in IH as [[_ [_ IH]] _]. cbn [fst snd] in IH. lia.
Qed.

(** A fall of the count comes at the end of [thr] lower demands. *)
Lemma eval_run_falls ds pre t r rest :
  (eval_run ds).2 = pre ++ (t, r) :: rest -> r < current rest ->
  r = t /\ length (take (Z.to_nat thr) ((t, r) :: rest)) = Z.to_nat thr /\
  Forall (fun e => e.1 < current rest) (take (Z.to_nat thr) ((t, r) :: rest)).
Proof.
  revert pre. induction ds as [|d ds IH] using rev_ind; intros pre; [by destruct pre|].
  rewrite eval_run_snoc. pose proof (eval_run_counted ds) as Hc. destruct (eval_run ds) as [p tr]. cbn [fst snd] in *.
  destruct (eval_step_cases d p tr Hc) as (p' & t' & r' & -> & _ & _ & Htr & _ & Hfall & _). cbn [snd].
  destruct pre as [|e pre]; cbn [app]; intros Heq Hlt; [|injection Heq as _ Heq; by apply (IH pre)].
  injection Heq as -> -> ->. destruct (Hfall Hlt) as [-> Hb]. split; [done|].
  destruct Hc as [_ _ Hbel Hlen Hrec].
  replace (Z.to_nat thr) with (S (Z.to_nat (pc_belowCount p))) by lia. cbn [take length].
  rewrite length_take. split; [lia|]. constructor; [cbn [fst]; lia|done].
Qed.

(** [thr] demands in a row below the count make it fall. *)
Lemma eval_run_reacts ds win :
  length win = Z.to_nat thr ->
  let tr := (eval_run ds).2 in
  let tr' := (eval_run (ds ++ win)).2 in
  Forall (fun e => e.1 < current tr) (take (length win) tr') ->
  Exists (fun e => e.2 < current tr) (take (length win) tr').
Proof.
  intros Hw tr tr' Hall.
  assert (forall win, let s := eval_run (ds ++ win) in
            exists w, s.2 = w ++ tr /\ length w = length win /\
            (Forall (fun e => e.1 < current tr) w -> Exists (fun e => e.2 < current tr) w \/
               (current s.2 = current tr /\ pc_belowCount s.1 = pc_belowCount (eval_run ds).1 + len win))) as Hgen.
  { intros win'. induction win' as [|d win' IH] using rev_ind; cbn zeta.
    - rewrite app_nil_r. exists []. split; [done|]. split; [done|]. intros _. right. split; [done|]. unfold len. cbn. lia.
    - destruct IH as (w & Htr & Hlen & IH). rewrite app_assoc, eval_run_snoc.
      pose proof (eval_run_counted (ds ++ win')) as Hc. destruct (eval_run (ds ++ win')) as [p tr0]. cbn [fst snd] in *.
      destruct (eval_step_cases d p tr0 Hc) as (p' & t & r & -> & _ & _ & Htr' & Hor & _ & Hkeep). cbn [fst snd].
      exists ((t, r) :: w). rewrite Htr. split; [done|]. split; [rewrite length_app; cbn; lia|].
      intros [Ht Hw']%Forall_cons. cbn [fst] in Ht. destruct (IH Hw') as [He|[Hcur Hb]]; [left; by right|].
      rewrite Hcur in Hkeep. destruct (Z.lt_ge_cases r (current tr)) as [Hr|Hr]; [left; by left|right].
      cbn [current]. split; [|unfold len in *; rewrite length_app; cbn; rewrite Hkeep by lia; lia].
      rewrite Hcur in Hor. lia. }
  destruct (Hgen win) as (w & Htr & Hlen & Hw'). fold tr' in Htr. rewrite Htr in *.
  rewrite <- Hlen, take_app_length in *. destruct (Hw' Hall) as [He|[_ Hb]]; [done|].
  pose proof (co_below _ _ (eval_run_counted (ds ++ win))). pose proof (co_below _ _ (eval_run_counted ds)).
  unfold len in Hb. lia.
Qed.
End Popularity.

(** The desired number of replicas of one artifact.  Over any run of evaluations
    of one counter with one pair of bounds: every result lies between the
    bounds and is never below what the demand alone asks for; a result lower
    than the one before it ends a series of [ScaleDownThreshold] evaluations
    that all asked for less; and a series of that length below the current
    count makes it fall. *)
Theorem popularity_hysteresis cfg mn mx ds win pre t r rest :
  0 < rc_ScaleDownThreshold cfg < 2 ^ 62 -> 0 <= mn <= mx ->
  let n := Z.to_nat (rc_ScaleDownThreshold cfg) in
  let tr := (eval_run cfg mn mx ds).2 in
  Forall (fun e => e.1 <= e.2 /\ mn <= e.2 <= mx) tr /\
  (tr = pre ++ (t, r) :: rest -> r < current rest ->
     r = t /\ length (take n ((t, r) :: rest)) = n /\ Forall (fun e => e.1 < current rest) (take n ((t, r) :: rest))) /\
  (length win = n ->
   let tr' := (eval_run cfg mn mx (ds ++ win)).2 in
   Forall (fun e => e.1 < current tr) (take n tr') -> Exists (fun e => e.2 < current tr) (take n tr')).
Proof.
  intros Hthr Hm n tr. split; [|split].
  - eapply Forall_impl; [by apply eval_run_bounds|]. naive_solver.
  - intros Heq Hlt. by apply (eval_run_falls cfg mn mx Hthr ds pre).
  - intros Hw tr' Hall. rewrite <- Hw in *. by apply eval_run_reacts.
Qed.

Lemma popularity_hysteresis_witness :
  let tr := (eval_run DefaultReplicationConfig 2 6 [of_int 40; of_int 0; of_int 0; of_int 0; of_int 0]).2 in
  snd <$> tr = [4; 6; 6; 6; 6] /\ Forall (fun e => e.1 <= e.2 /\ 2 <= e.2 <= 6) tr /\
  Forall (fun e => e.1 < 6) (take 3 tr).
Proof.
  set (ds := [of_int 40; of_int 0; of_int 0; of_int 0; of_int 0]).
  assert ((eval_run DefaultReplicationConfig 2 6 ds).2 = [] ++ (4, 4) :: [(5, 6); (5, 6); (6, 6); (6, 6)]) as E
    by (vm_compute; reflexivity).
  destruct (popularity_hysteresis DefaultReplicationConfig 2 6 ds [] [] 4 4 [(5, 6); (5, 6); (6, 6); (6, 6)]) as (Hb & Hf & _);
    [cbn; lia|lia|].
  destruct (Hf E) as (_ & _ & Hall); [cbn; lia|]. rewrite E in *. auto.
Defined.

(** ** Silent nodes *)

Section Stale.
Context (order : gmap Z NodeIdentity -> list (Z * NodeIdentity)) (cutoff : Z).
Context (Hord : forall m, order m ≡ₚ map_to_list m).

(** What a pass does to a node it visits. *)
Definition marked (now : Z) (n : NodeIdentity) : NodeIdentity :=
  if ni_LastSeen n <? now - cutoff then (mark_node now n).1 else n.

(** The alert it sends. *)
Definition alert (now : Z) (n : NodeIdentity) : list (Z * string * Z) :=
  if (ni_LastSeen n <? now - cutoff) && (mark_node now n).2
  then [(ni_NodeID n, ni_Hostname n, 1)] else [].

Lemma mark_node_flap now n : (mark_node now n).2 = true ->
  ni_NodeID (mark_node now n).1 = ni_NodeID n /\ ni_Hostname (mark_node now n).1 = ni_Hostname n /\
  ni_FlapCount (mark_node now n).1 = 1.
Proof. unfold mark_node. destruct n as [? ? ? ? ? ? ? ? ? ? ? ? ? rs ? ?]; cbn. by destruct rs. Qed.

Lemma mark_fold now ids r flaps :
  NoDup ids ->
  let s := foldl (mark_stale_step (now - cutoff) now) (r, flaps) ids in
  (forall id, nr_nodes s.1 !! id =
     if decide (id ∈ ids) then marked now <$> nr_nodes r !! id else nr_nodes r !! id) /\
  s.2 = flaps ++ (ids ≫= fun id => match nr_nodes r !! id with Some n => alert now n | None => [] end).
Proof.
  revert r flaps. induction ids as [|i ids IH]; intros r flaps Hnd; cbn zeta.
  - split; [intros id; by rewrite decide_False by apply not_elem_of_nil|by rewrite app_nil_r].
  - apply NoDup_cons in Hnd as [Hi Hnd]. cbn [foldl].
    assert (exists r1, mark_stale_step (now - cutoff) now (r, flaps) i =
              (r1, flaps ++ match nr_nodes r !! i with Some n => alert now n | None => [] end) /\
              forall id, nr_nodes r1 !! id = if decide (id = i) then marked now <$> nr_nodes r !! id else nr_nodes r !! id)
      as (r1 & -> & Hr1).
    { unfold mark_stale_step, alert, marked. destruct (nr_nodes r !! i) as [n|] eqn:E.
      - destruct (ni_LastSeen n <? now - cutoff) eqn:Es; cbn [negb].
        + pose proof (mark_node_flap now n) as Hf. destruct (mark_node now n) as [n' []] eqn:Em; cbn [fst snd] in *.
          * destruct (Hf eq_refl) as (-> & -> & ->). eexists. split; [done|]. intros id. rewrite update_node_lookup.
            destruct (decide (id = i)) as [->|]; [|done]. rewrite E. cbn [fmap option_fmap option_map]. by rewrite Es, Em.
          * eexists. split; [by rewrite app_nil_r|]. intros id. rewrite update_node_lookup.
            destruct (decide (id = i)) as [->|]; [|done]. rewrite E. cbn [fmap option_fmap option_map]. by rewrite Es, Em.
        + exists r. split; [by rewrite app_nil_r|]. intros id. destruct (decide (id = i)) as [->|]; [|done].
          rewrite E. cbn [fmap option_fmap option_map]. by rewrite Es.
      - exists r. split; [by rewrite app_nil_r|]. intros id. destruct (decide (id = i)) as [->|]; [|done]. by rewrite E. }
    destruct (IH r1 (flaps ++ match nr_nodes r !! i with Some n => alert now n | None => [] end) Hnd) as [H1 H2]. split.
    + intros id. rewrite H1, Hr1. destruct (decide (id = i)) as [->|Hne].
      * destruct (decide (i ∈ ids)); [done|]. destruct (decide (i ∈ i :: ids)) as [|Hn]; [done|].
        destruct Hn. apply elem_of_cons. by left.
      * destruct (decide (id ∈ ids)), (decide (id ∈ i :: ids)) as [Hin|Hin]; try done.
        -- destruct Hin. apply elem_of_cons. by right.
        -- apply elem_of_cons in Hin as [?|?]; done.
    + rewrite H2, <- app_assoc. cbn. do 2 f_equal.
      clear -Hi Hr1. induction ids as [|j ids IHi]; [done|]. cbn. apply not_elem_of_cons in Hi as [Hne Hi].
      rewrite (Hr1 j), decide_False by done. by rewrite IHi.
Qed.

Definition stale_ids (now : Z) (snap : NodeRegistry) : list Z :=
  (filter (fun kn => (ni_LastSeen kn.2 <? now - cutoff) = true) (order (nr_nodes snap))).*1.

Lemma stale_ids_spec now snap :
  NoDup (stale_ids now snap) /\
  forall id, id ∈ stale_ids now snap <-> exists n, nr_nodes snap !! id = Some n /\ ni_LastSeen n < now - cutoff.
Proof.
  unfold stale_ids. split.
  - assert (NoDup (order (nr_nodes snap)).*1) as Hn.
    { rewrite Hord. apply NoDup_fst_map_to_list. }
    induction (order (nr_nodes snap)) as [|[k v] l IH]; [constructor|]. rewrite filter_cons.
    apply NoDup_cons in Hn as [Hk Hn]. destruct (decide _); [|by apply IH]. rewrite fmap_cons. constructor; [|by apply IH].
    intros ([k' v'] & Hkv & [_ Hin]%list_elem_of_filter)%list_elem_of_fmap. cbn in *. subst. destruct Hk.
    apply list_elem_of_fmap. by exists (k', v').
  - intros id. rewrite list_elem_of_fmap. split.
    + intros ([k n] & -> & [Hs Hin]%list_elem_of_filter). rewrite Hord, elem_of_map_to_list in Hin. cbn in *.
      exists n. split; [done|lia].
    + intros (n & Hn & Hs). exists (id, n). split; [done|]. apply list_elem_of_filter. cbn. split; [lia|].
      by rewrite Hord, elem_of_map_to_list.
Qed.

Lemma MarkStale_node now snap r id n :
  nr_nodes r !! id = Some n ->
  nr_nodes (MarkStale order cutoff now snap r).1 !! id =
  Some (if decide (id ∈ stale_ids now snap) then marked now n else n).
Proof.
  intros Hn. unfold MarkStale. cbn zeta. fold (stale_ids now snap). destruct (stale_ids_spec now snap) as [Hnd _].
  destruct (mark_fold now (stale_ids now snap) r [] Hnd) as [H1 _]. rewrite H1, Hn. by destruct (decide _).
Qed.
End Stale.

(** Passes at the given times with no heartbeat in between, with the alerts. *)
Definition mark_ticks (order : gmap Z NodeIdentity -> list (Z * NodeIdentity)) (cutoff : Z) (ticks : list Z)
    (r : NodeRegistry) : NodeRegistry * list (Z * string * Z) :=
  foldl (fun s now => let '(r', f) := MarkStale order cutoff now s.1 s.1 in (r', s.2 ++ f)) (r, []) ticks.

(** The reach state after [k] missed passes. *)
Definition reach_after (k : nat) : ReachState :=
  match k with 0 => NodeReachable | 1 | 2 => NodeFlapping | _ => NodeUnreachable end%nat.

Lemma mark_ticks_snoc order cutoff ticks now r :
  mark_ticks order cutoff (ticks ++ [now]) r =
  (let s := mark_ticks order cutoff ticks r in
   let '(r', f) := MarkStale order cutoff now s.1 s.1 in (r', s.2 ++ f)).
Proof. unfold mark_ticks. by rewrite foldl_app. Qed.

Lemma alerts_of order cutoff now r id n :
  (forall m, order m ≡ₚ map_to_list m) -> (forall j m, nr_nodes r !! j = Some m -> ni_NodeID m = j) ->
  nr_nodes r !! id = Some n ->
  filter (fun a => a.1.1 = id) (MarkStale order cutoff now r r).2 = alert cutoff now n.
Proof.
  intros Hord Hkey Hn. unfold MarkStale. cbn zeta. fold (stale_ids order cutoff now r).
  destruct (stale_ids_spec order cutoff Hord now r) as [Hnd Hids].
  destruct (mark_fold cutoff now (stale_ids order cutoff now r) r [] Hnd) as [_ ->]. cbn [app].
  specialize (Hids id). revert Hnd Hids. generalize (stale_ids order cutoff now r). intros ids Hnd Hids.
  assert (alert cutoff now n <> [] -> id ∈ ids) as Ha.
  { intros Ha. apply Hids. exists n. split; [done|]. unfold alert in Ha.
    destruct (Z.ltb_spec (ni_LastSeen n) (now - cutoff)); [done|]. done. }
  clear Hids. induction ids as [|j ids IH].
  - cbn. destruct (alert cutoff now n); [done|]. by apply not_elem_of_nil in Ha.
  - apply NoDup_cons in Hnd as [Hj Hnd]. cbn. rewrite filter_app.
    assert (forall k, k <> id -> filter (fun a => a.1.1 = id)
              match nr_nodes r !! k with Some m => alert cutoff now m | None => [] end = []) as Hother.
    { intros k Hk. destruct (nr_nodes r !! k) as [m|] eqn:E; [|done]. unfold alert. destruct (_ && _); [|done].
      rewrite filter_cons, (Hkey k m E). cbn. by rewrite decide_False. }
    destruct (decide (j = id)) as [->|Hne].
    + rewrite Hn. assert (filter (fun a => a.1.1 = id) (alert cutoff now n) = alert cutoff now n) as ->.
      { unfold alert. destruct (_ && _); [|done]. rewrite filter_cons, (Hkey id n Hn). cbn. by rewrite decide_True. }
      clear -Hother Hj. induction ids as [|k ids IHk]; cbn; [by rewrite app_nil_r|].
      apply not_elem_of_cons in Hj as [Hk Hj]. rewrite filter_app, Hother by done. by apply IHk.
    + rewrite Hother by done. apply IH; [done|]. intros H1. apply Ha in H1.
      apply elem_of_cons in H1 as [H1|H1]; [by subst|done].
Qed.

Lemma MarkStale_keyed order cutoff now r :
  (forall m, order m ≡ₚ map_to_list m) -> (forall j m, nr_nodes r !! j = Some m -> ni_NodeID m = j) ->
  forall j m, nr_nodes (MarkStale order cutoff now r r).1 !! j = Some m -> ni_NodeID m = j.
Proof.
  intros Hord Hkey j m. unfold MarkStale. cbn zeta. fold (stale_ids order cutoff now r).
  destruct (stale_ids_spec order cutoff Hord now r) as [Hnd _].
  destruct (mark_fold cutoff now (stale_ids order cutoff now r) r [] Hnd) as [-> _].
  destruct (nr_nodes r !! j) as [n|] eqn:E; [|by destruct (decide _)].
  assert (ni_NodeID (marked cutoff now n) = ni_NodeID n) as Hm.
  { unfold marked, mark_node. destruct (_ <? _); [|done]. destruct n as [? ? ? ? ? ? ? ? ? ? ? ? ? rs fc ?]; cbn.
    destruct rs; try done. cbn. by destruct (_ <=? _). }
  destruct (decide _); cbn; intros [= <-]; rewrite ?Hm; by apply Hkey.
Qed.

(** [C31] A node that falls silent.  However the passes of [MarkStale] are timed, a
    reachable node that stays silent is flapping after the first and the second
    pass and unreachable from the third on; the time of its first missed pass is
    kept, and exactly one alert is sent for it.  A node whose heartbeat comes in
    between the two loops of a pass is left alone.  (The comments of the replication policy and of
    the controller's loop say that a node is unreachable once it has been silent
    for twice the interval: the code marks it flapping then, and unreachable two passes later.) *)
Theorem silent_node order cutoff ticks r id n :
  (forall m, order m ≡ₚ map_to_list m) -> (forall j m, nr_nodes r !! j = Some m -> ni_NodeID m = j) ->
  nr_nodes r !! id = Some n -> ni_ReachState n = NodeReachable ->
  Forall (fun now => ni_LastSeen n < now - cutoff) ticks ->
  let '(r', alerts) := mark_ticks order cutoff ticks r in
  (exists n', nr_nodes r' !! id = Some n' /\ ni_LastSeen n' = ni_LastSeen n /\
     ni_ReachState n' = reach_after (length ticks) /\ ni_LastFlap n' = default (ni_LastFlap n) (head ticks)) /\
  filter (fun a => a.1.1 = id) alerts = (if decide (ticks = []) then [] else [(id, ni_Hostname n, 1)]) /\
  (forall now snap, now - cutoff <= ni_LastSeen n -> nr_nodes (MarkStale order cutoff now snap r).1 !! id = Some n).
Proof.
  intros Hord Hkey Hn Hreach Hall.
  assert (forall now snap, now - cutoff <= ni_LastSeen n ->
            nr_nodes (MarkStale order cutoff now snap r).1 !! id = Some n) as Hfresh.
  { intros now snap Hle. rewrite (MarkStale_node order cutoff Hord now snap r id n Hn). unfold marked.
    destruct (Z.ltb_spec (ni_LastSeen n) (now - cutoff)); [lia|]. by destruct (decide _). }
  assert (let s := mark_ticks order cutoff ticks r in
     (forall j m, nr_nodes s.1 !! j = Some m -> ni_NodeID m = j) /\
     (exists n', nr_nodes s.1 !! id = Some n' /\ ni_LastSeen n' = ni_LastSeen n /\
        ni_ReachState n' = reach_after (length ticks) /\ ni_LastFlap n' = default (ni_LastFlap n) (head ticks) /\
        ni_Hostname n' = ni_Hostname n /\
        (0 < length ticks < 3 -> ni_FlapCount n' = Z.of_nat (length ticks))%nat) /\
     filter (fun a => a.1.1 = id) s.2 = (if decide (ticks = []) then [] else [(id, ni_Hostname n, 1)])) as Hgen.
  { induction ticks as [|now ticks IH] using rev_ind.
    - cbn. split; [done|]. split; [|done]. exists n. by split_and!; try lia.
    - apply Forall_app in Hall as [Hall Hnow]. apply Forall_cons in Hnow as [Hnow _].
      destruct (IH Hall) as (Hk & (n' & Hn' & Hseen & Hst & Hfl & Hhost & Hcnt) & Hal). clear IH.
      rewrite mark_ticks_snoc. set (s := mark_ticks order cutoff ticks r) in *. clearbody s. cbn zeta.
      pose proof (MarkStale_keyed order cutoff now s.1 Hord Hk) as Hk'.
      pose proof (MarkStale_node order cutoff Hord now s.1 s.1 id n' Hn') as Hm.
      rewrite decide_True in Hm by (apply (stale_ids_spec order cutoff Hord); exists n'; split; [done|lia]).
      pose proof (alerts_of order cutoff now s.1 id n' Hord Hk Hn') as Ha.
      destruct (MarkStale order cutoff now s.1 s.1) as [r' f]. cbn [fst snd] in *. split; [done|].
      rewrite filter_app, Hal, Ha. rewrite (decide_False (P := ticks ++ [now] = [])) by (by destruct ticks).
      unfold marked, alert in *. rewrite (proj2 (Z.ltb_lt _ _)) in * by lia. rewrite length_app, head_app. cbn [length].
      destruct n' as [nid f1 f2 f3 f4 f5 f6 f7 f8 f9 f10 f11 f12 rs fc fl]. cbn [ni_ReachState ni_LastSeen ni_LastFlap ni_FlapCount ni_Hostname] in *.
      pose proof (Hk id _ Hn') as Hid. cbn in Hid. subst nid rs.
      destruct ticks as [|t1 [|t2 [|t3 ticks]]]; cbn in *.
      + split; [|by rewrite Hhost]. eexists. split; [exact Hm|]. by split_and!; try lia.
      + split; [|done]. eexists. split; [exact Hm|]. rewrite (Hcnt ltac:(lia)). cbn. by split_and!; try lia.
      + split; [|done]. eexists. split; [exact Hm|]. rewrite (Hcnt ltac:(lia)). cbn. by split_and!; try lia.
      + split; [|done]. eexists. split; [exact Hm|]. replace (length ticks + 1)%nat with (S (length ticks)) by lia.
        by split_and!; try lia. }
  destruct (mark_ticks order cutoff ticks r) as [r' alerts]. cbn [fst snd] in Hgen.
  destruct Hgen as (_ & (n' & H1 & H2 & H3 & H4 & _) & H5). split; [by exists n'|]. split; done.
Qed.

Definition demo_node (now id : Z) : NodeIdentity := NewNodeIdentity now id "host" "pk" (mkDomains "" "" "" "" "").

Lemma silent_node_witness :
  exists n, nr_nodes (mark_ticks map_to_list 60 [100; 130; 160] (Register (demo_node 5 7) NewNodeRegistry)).1 !! 7 = Some n /\
            ni_ReachState n = NodeUnreachable /\ ni_LastFlap n = 100.
Proof.
  set (r := Register (demo_node 5 7) NewNodeRegistry).
  assert (nr_nodes r = {[7 := demo_node 5 7]}) as Hr by reflexivity.
  pose proof (silent_node map_to_list 60 [100; 130; 160] r 7 (demo_node 5 7)) as H.
  destruct (mark_ticks map_to_list 60 [100; 130; 160] r) as [r' al].
  destruct H as ((n & H1 & _ & H2 & H3) & _).
  - done.
  - intros j m. rewrite Hr. by intros [<- <-]%lookup_singleton_Some.
  - by rewrite Hr.
  - done.
  - repeat constructor; cbn; lia.
  - exists n. by split_and!.
Defined.
