(* ===== verification/SwarmControl.v ===== *)
(** * The swarm policy controller (tracker/swarm_controller.go) and the agent
      endpoints (tracker/agent_heartbeat.go, tracker/agent_protocol.go)

    The controller's state is one record: the artifacts, the tracker's
    torrents, the registry of nodes, the replicas, the popularity counter, the
    queue of directives and the heat counters.  The directive channel is a list
    of at most 256 actions; a send to a full channel takes the [default] branch.
    [time.Now] is one argument per call, map iteration orders are a record of
    functions, and log lines are left out. *)
From Stdlib Require Import String.
From S2P Require Import Prelude GoStr NetIP GoFloat GoSort TrackerTypes Heatmap Replica NodeRegistry Placement.
Open Scope list_scope.
Open Scope Z_scope.

Inductive SwarmDirective := DirectiveJoinSwarm | DirectiveRetireReplica.
#[export] Instance SwarmDirective_eq : EqDecision SwarmDirective.
Proof. solve_decision. Defined.

Definition SwarmDirective_String (d : SwarmDirective) : string :=
  match d with DirectiveJoinSwarm => "JOIN_SWARM" | DirectiveRetireReplica => "RETIRE_REPLICA" end.

(** A retirement leaves [Class] at its zero value. *)
Record ControllerAction := mkAction {
  ac_Directive : SwarmDirective;
  ac_NodeID : Z;
  ac_InfoHash : string;
  ac_Class : ReplicaClass
}.

Record PlacementWeights := mkPW {
  pw_Storage : float64;
  pw_Reliability : float64;
  pw_Bandwidth : float64;
  pw_LocalArtifact : float64;
  pw_Compute : float64;
  pw_Proximity : float64;
  pw_AntiAffinity : float64
}.

Definition DefaultPlacementWeights : PlacementWeights :=
  mkPW (flit 22 100) (flit 18 100) (flit 18 100) (flit 12 100) (flit 8 100) (flit 15 100) (flit 7 100).

Record PlacementInput := mkPI {
  pi_StorageScore : float64;
  pi_Reliability : float64;
  pi_BandwidthScore : float64;
  pi_HasArtifact : float64;
  pi_ComputeScore : float64;
  pi_ProximityScore : float64;
  pi_TierBonus : float64;
  pi_AffinityPenalty : float64
}.

Definition PScore (w : PlacementWeights) (i : PlacementInput) : float64 :=
  fsub (fadd (fadd (fadd (fadd (fadd (fadd (fmul (pw_Storage w) (pi_StorageScore i))
                                           (fmul (pw_Reliability w) (pi_Reliability i)))
                                     (fmul (pw_Bandwidth w) (pi_BandwidthScore i)))
                               (fmul (pw_LocalArtifact w) (pi_HasArtifact i)))
                         (fmul (pw_Compute w) (pi_ComputeScore i)))
                   (fmul (pw_Proximity w) (pi_ProximityScore i)))
             (pi_TierBonus i))
       (fmul (pw_AntiAffinity w) (pi_AffinityPenalty i)).

Definition clamp01 (v : float64) : float64 :=
  if fltb v (of_int 0) then of_int 0 else if fltb (of_int 1) v then of_int 1 else v.

Abbreviation heatCycleKey := (string * Z)%type.

Record SwarmPolicyController := mkController {
  c_artifacts : ArtifactList;
  c_torrents : TorrentList;
  c_nodes : NodeRegistry;
  c_replicas : NodeReplicaMap;
  c_policy : PopularityReplicaCounter;
  c_weights : PlacementWeights;
  c_directives : list ControllerAction;
  c_heatCycles : gmap heatCycleKey Z
}.

Definition NewSwarmPolicyController (artifacts : ArtifactList) (torrents : TorrentList) (nodes : NodeRegistry)
    (replicas : NodeReplicaMap) : SwarmPolicyController :=
  mkController artifacts torrents nodes replicas (NewPopularityReplicaCounter DefaultReplicationConfig)
    DefaultPlacementWeights [] ∅.

(** The iteration orders of the maps a pass goes through. *)
Record SwarmOrders := mkSwarmOrders {
  o_artifacts : ArtifactList -> list (string * Artifact);
  o_nodes : gmap Z NodeIdentity -> list (Z * NodeIdentity);
  o_replicas : NodeReplicaMap -> list (replicaKey * NodeReplica);
  o_existing : gset Z -> list Z;
  o_nets : gmap Z Z -> list (Z * Z)
}.

Record valid_orders (o : SwarmOrders) : Prop := mkValidOrders {
  vo_artifacts : forall m, o_artifacts o m ≡ₚ map_to_list m;
  vo_nodes : forall m, o_nodes o m ≡ₚ map_to_list m;
  vo_replicas : forall m, o_replicas o m ≡ₚ map_to_list m;
  vo_existing : forall s, o_existing o s ≡ₚ elements s;
  vo_nets : forall m, o_nets o m ≡ₚ map_to_list m
}.

(** [make(chan ControllerAction, 256)] and a send in a [select] with a
    [default] branch. *)
Definition directive_cap : Z := 256.
Definition try_send (a : ControllerAction) (q : list ControllerAction) : option (list ControllerAction) :=
  if len q <? directive_cap then Some (q ++ [a]) else None.

Definition send_or_drop (a : ControllerAction) (c : SwarmPolicyController) : SwarmPolicyController :=
  match try_send a (c_directives c) with
  | Some q => c {{ c_directives := q }}
  | None => c
  end.

(** A receive by the agent transport. *)
Definition receive (c : SwarmPolicyController) : option (ControllerAction * SwarmPolicyController) :=
  match c_directives c with
  | [] => None
  | a :: q => Some (a, c {{ c_directives := q }})
  end.

Section Controller.
Context (o : SwarmOrders) (now : Z).

(** ** Classification by demand *)

Definition heatFractionThreshold : float64 := flit 30 100.
Definition heatCyclePromote : Z := 3.

Definition classify_replica (infoHash : string) (hm : DemandHeatmap) (c : SwarmPolicyController)
    (kr : replicaKey * NodeReplica) : SwarmPolicyController :=
  let r := kr.2 in
  if negb (CountsAsVerified (r_State r)) || negb (bool_decide (r_Class r = ReplicaEphemeral)) then c
  else match NGet (r_NodeID r) (c_nodes c) with
       | None => c
       | Some n =>
           if negb (bool_decide (ni_Tier n = NodeTierEdge)) || (ni_ASN n =? 0) then c
           else
             let key := (infoHash, r_NodeID r) in
             if fltb heatFractionThreshold (NetFraction (Z.land (ni_ASN n) 65535) hm) then
               let cycles := i64 (default 0 (c_heatCycles c !! key) + 1) in
               let c := c {{ c_heatCycles ::= <[key := cycles]> }} in
               if heatCyclePromote <=? cycles
               then c {{ c_replicas ::= alter (fun r => (UpgradeClass ReplicaCache r).1) kr.1 }}
               else c
             else c {{ c_heatCycles ::= <[key := 0]> }}
       end.

Definition classifyEdgeReplicas (infoHash : string) (artifact : Artifact) (c : SwarmPolicyController)
    : SwarmPolicyController :=
  match a_Heatmap artifact with
  | None => c
  | Some hm =>
      if TotalCount hm =? 0 then c
      else foldl (classify_replica infoHash hm) c (ForHash (o_replicas o) infoHash (c_replicas c))
  end.

(** ** Replicas on nodes that have been unreachable for long *)

Definition grace_expired (n : NodeIdentity) : bool :=
  bool_decide (ni_ReachState n = NodeUnreachable) && negb (TimeIsZero (ni_LastFlap n)) &&
  (GraceTTL <? TimeSub now (ni_LastFlap n)).

Definition retire_expired (infoHash : string) (c : SwarmPolicyController) (kr : replicaKey * NodeReplica)
    : SwarmPolicyController :=
  let r := kr.2 in
  if negb (CountsAsVerified (r_State r)) then c
  else match NGet (r_NodeID r) (c_nodes c) with
       | None => c
       | Some n =>
           if grace_expired n
           then send_or_drop (mkAction DirectiveRetireReplica (r_NodeID r) infoHash ReplicaEphemeral)
                  (c {{ c_replicas ::= alter (ForceEvict now) kr.1 }})
           else c
       end.

Definition retireGraceExpired (infoHash : string) (c : SwarmPolicyController) : SwarmPolicyController :=
  foldl (retire_expired infoHash) c (ForHash (o_replicas o) infoHash (c_replicas c)).

(** ** Candidates *)

Definition existingNodeSet (infoHash : string) (c : SwarmPolicyController) : gset Z :=
  foldl (fun s kr => if bool_decide (r_State kr.2 = ReplicaStateAbsent) then s else {[r_NodeID kr.2]} ∪ s)
    ∅ (ForHash (o_replicas o) infoHash (c_replicas c)).

Record scoredCandidate := mkScored { sc_nodeID : Z; sc_score : float64 }.

Definition shared_weight (candidate e : FailureDomainLabels) : Z :=
  if SharesDomainWith candidate e DomainHost then 3
  else if SharesDomainWith candidate e DomainRack then 2
  else if SharesDomainWith candidate e DomainSite then 1
  else 0.

Definition antiAffinityPenalty (candidate : FailureDomainLabels) (existing : list FailureDomainLabels) : float64 :=
  if len existing =? 0 then of_int 0
  else
    let shared := foldl (fun s e => s + shared_weight candidate e) 0 existing in
    let max := of_int (3 * len existing) in
    if feqb max (of_int 0) then of_int 0 else clamp01 (fdiv (of_int shared) max).

(** The guards of the loop over the nodes. *)
Definition eligible (existing : gset Z) (hasCore : bool) (n : NodeIdentity) : bool :=
  negb (bool_decide (ni_NodeID n ∈ existing)) &&
  negb (IsNearCap now (ni_WAN n)).2 &&
  negb (bool_decide (ni_Tier n = NodeTierEdge) && negb hasCore).

Definition storage_score (caps : NodeCapabilities) : float64 :=
  if 0 <? nc_StorageTotalBytes caps
  then fdiv (of_int (nc_StorageFreeBytes caps)) (of_int (nc_StorageTotalBytes caps)) else of_int 0.

Definition score_node (weights : PlacementWeights) (modal : Z * bool) (existingDomains : list FailureDomainLabels)
    (n : NodeIdentity) : scoredCandidate :=
  let proxScore :=
    if modal.2 && negb (ni_ASN n =? 0) then NetAffinity (Z.land (ni_ASN n) 65535) modal.1 else of_int 0 in
  let penalty := antiAffinityPenalty (ni_Domains n) existingDomains in
  mkScored (ni_NodeID n)
    (PScore weights (mkPI (clamp01 (storage_score (ni_Caps n))) (flit 9 10) (flit 1 2) (of_int 0) (flit 1 2)
                       proxScore (placementBonus (ni_Tier n)) penalty)).

Definition scoreCandidates (infoHash : string) (artifact : Artifact) (reachable : list NodeIdentity)
    (existing : gset Z) (c : SwarmPolicyController) : list scoredCandidate :=
  let hasCore := HasVerifiedCoreReplica (o_nodes o) infoHash (c_replicas c) (c_nodes c) in
  let modal := match a_Heatmap artifact with Some hm => ModalNet (o_nets o) hm | None => (0, false) end in
  let existingDomains := omap (fun id => ni_Domains <$> NGet id (c_nodes c)) (o_existing o existing) in
  slice_stable (higher sc_score)
    (score_node (c_weights c) modal existingDomains <$>
       filter (fun n => eligible existing hasCore n = true) reachable).

(** ** Decisions *)

(** One candidate of the emission loop, with the number emitted so far. *)
Definition join_candidate (infoHash : string) (c : SwarmPolicyController) (nodeID : Z)
    : SwarmPolicyController * Z :=
  let '(m, replica) := GetOrCreate now nodeID infoHash ReplicaStandard (c_replicas c) in
  let c := c {{ c_replicas := m }} in
  if negb (bool_decide (r_State replica = ReplicaStateAbsent)) then (c, 0)
  else
    let '(requested, outcome) := RTransition now ReplicaStateRequested replica in
    match outcome with
    | Err _ => (c, 0)
    | Ok _ =>
        let c := c {{ c_replicas ::= <[(nodeID, infoHash) := requested]> }} in
        match try_send (mkAction DirectiveJoinSwarm nodeID infoHash ReplicaStandard) (c_directives c) with
        | Some q => (c {{ c_directives := q }}, 1)
        | None => (c {{ c_replicas ::= <[(nodeID, infoHash) := (RTransition now ReplicaStateAbsent requested).1]> }}, 0)
        end
    end.

Fixpoint emit_joins (infoHash : string) (deficit emitted : Z) (cands : list Z) (c : SwarmPolicyController)
    : SwarmPolicyController * Z :=
  match cands with
  | [] => (c, emitted)
  | id :: cands' =>
      if deficit <=? emitted then (c, emitted)
      else let '(c', k) := join_candidate infoHash c id in
           emit_joins infoHash deficit (emitted + k) cands' c'
  end.

(** The nodes that are considered for retirement: the low classes first, the
    standard ones only when these are too few. *)
Definition retirees (infoHash : string) (surplus : Z) (c : SwarmPolicyController) : list Z :=
  let verified := filter (fun kr => CountsAsVerified (r_State kr.2) = true)
                    (ForHash (o_replicas o) infoHash (c_replicas c)) in
  let low := (fun kr => r_NodeID kr.2) <$>
               filter (fun kr => class_rank (r_Class kr.2) <= class_rank ReplicaCache) verified in
  if len low <? surplus then
    low ++ ((fun kr => r_NodeID kr.2) <$> filter (fun kr => r_Class kr.2 = ReplicaStandard) verified)
  else low.

Fixpoint emit_retirements (infoHash : string) (surplus emitted : Z) (cands : list Z) (c : SwarmPolicyController)
    : SwarmPolicyController :=
  match cands with
  | [] => c
  | id :: cands' =>
      if surplus <=? emitted then c
      else match try_send (mkAction DirectiveRetireReplica id infoHash ReplicaEphemeral) (c_directives c) with
           | Some q => emit_retirements infoHash surplus (emitted + 1) cands' (c {{ c_directives := q }})
           | None => c
           end
  end.

Definition selectRetirements (infoHash : string) (surplus : Z) (c : SwarmPolicyController)
    : SwarmPolicyController :=
  emit_retirements infoHash surplus 0 (retirees infoHash surplus c) c.

(** [t.Seeders.Size()] *)
Definition raw_seeders (infoHash : string) (c : SwarmPolicyController) : Z :=
  match c_torrents c !! infoHash with Some t => Size (t_Seeders t) | None => 0 end.

Definition reconcileArtifact (infoHash : string) (artifact : Artifact) (c : SwarmPolicyController)
    : SwarmPolicyController :=
  let c := retireGraceExpired infoHash (classifyEdgeReplicas infoHash artifact c) in
  let verifiedManaged := VerifiedCount (o_replicas o) infoHash (c_replicas c) in
  let '(p, desired) := Evaluate (of_int (raw_seeders infoHash c)) (a_MinReplicas artifact)
                         (a_MaxReplicas artifact) (c_policy c) in
  let c := c {{ c_policy := p }} in
  let deficit := i64 (desired - verifiedManaged) in
  if deficit <=? 0 then
    let surplus := i64 (verifiedManaged - desired) in
    if 0 <? surplus then selectRetirements infoHash surplus c else c
  else
    let reachable := DirectableNodes (o_nodes o) (c_nodes c) in
    let existing := existingNodeSet infoHash c in
    let candidates := scoreCandidates infoHash artifact reachable existing c in
    (emit_joins infoHash deficit 0 (sc_nodeID <$> candidates) c).1.

Definition reconcile (c : SwarmPolicyController) : SwarmPolicyController :=
  foldl (fun c '(infoHash, artifact) => reconcileArtifact infoHash artifact c) c (o_artifacts o (c_artifacts c)).

(** One tick of [Run], with the flap alerts it sends. *)
Definition run_tick (interval : Z) (c : SwarmPolicyController) : SwarmPolicyController * list (Z * string * Z) :=
  let '(nodes, flaps) := MarkStale (o_nodes o) (interval * 2) now (c_nodes c) (c_nodes c) in
  (reconcile (c {{ c_nodes := nodes }}), flaps).

(** ** Ensuring an artifact on a node *)

Definition parseReplicaClass (s : string) : ReplicaClass :=
  if String.eqb s "ephemeral" then ReplicaEphemeral
  else if String.eqb s "cache" then ReplicaCache
  else if String.eqb s "pinned" then ReplicaPinned
  else if String.eqb s "archival" then ReplicaArchival
  else ReplicaStandard.

Record EnsureRequest := mkEnsure { en_InfoHash : string; en_NodeID : Z; en_Class : string }.
Record EnsureResult := mkEnsured {
  er_InfoHash : string;
  er_NodeID : Z;
  er_State : string;
  er_Queued : bool;
  er_Message : string
}.

Definition EnsureArtifact (req : EnsureRequest) (c : SwarmPolicyController)
    : SwarmPolicyController * result string EnsureResult :=
  let ih := en_InfoHash req in
  let id := en_NodeID req in
  match c_artifacts c !! ih with
  | None => (c, Err ("artifact not registered: " ++ ih)%string)
  | Some _ =>
      match NGet id (c_nodes c) with
      | None => (c, Err ("node not registered: " ++ dec id)%string)
      | Some _ =>
          let class := parseReplicaClass (en_Class req) in
          let '(m, replica) := GetOrCreate now id ih class (c_replicas c) in
          let c := c {{ c_replicas := m }} in
          let state := r_State replica in
          if CountsAsVerified state then
            (c, Ok (mkEnsured ih id (NodeReplicaState_String state) false "already verified"))
          else if negb (bool_decide (state = ReplicaStateAbsent)) then
            (c, Ok (mkEnsured ih id (NodeReplicaState_String state) false "in progress"))
          else
            let '(requested, outcome) := RTransition now ReplicaStateRequested replica in
            match outcome with
            | Err _ => (c, Err "invalid node replica state transition"%string)
            | Ok _ =>
                let c := c {{ c_replicas ::= <[(id, ih) := requested]> }} in
                match try_send (mkAction DirectiveJoinSwarm id ih class) (c_directives c) with
                | Some q =>
                    (c {{ c_directives := q }},
                     Ok (mkEnsured ih id (NodeReplicaState_String ReplicaStateRequested) true "JOIN_SWARM queued"))
                | None =>
                    (c {{ c_replicas ::= <[(id, ih) := (RTransition now ReplicaStateAbsent requested).1]> }},
                     Err "directive channel full; retry"%string)
                end
            end
      end
  end.

(** ** Verified topology *)

Record ReplicaInfo := mkInfo { ri_IsManaged : bool; ri_NodeID : Z; ri_ReplicaState : NodeReplicaState }.

Definition Lookup (nodes : NodeRegistry) (replicas : NodeReplicaMap) (ip infoHash : string) : ReplicaInfo :=
  match GetByIP ip nodes with
  | None => mkInfo false 0 ReplicaStateAbsent
  | Some n =>
      match RGet (ni_NodeID n) infoHash replicas with
      | None => mkInfo true (ni_NodeID n) ReplicaStateAbsent
      | Some r => mkInfo true (ni_NodeID n) (r_State r)
      end
  end.

Definition VerifiedSeeders (porder : PeerList -> list (string * Peer)) (nodes : NodeRegistry)
    (replicas : NodeReplicaMap) (torrent : Torrent) (infoHash : string) : Z :=
  let ips := omap (fun kp => match p_IP kp.2 with [] => None | ip => Some (IPString ip) end)
               (porder (t_Seeders torrent)) in
  foldl (fun count ip =>
           let info := Lookup nodes replicas ip infoHash in
           if ri_IsManaged info && CountsAsVerified (ri_ReplicaState info) then count + 1 else count) 0 ips.

(** ** Reports of the agents *)

Record ReplicaInventory := mkInventory {
  inv_InfoHash : string;
  inv_State : string;
  inv_VerifyState : string;
  inv_Progress : float64;
  inv_UploadedBytes : Z
}.

Definition advance (next : NodeReplicaState) (r : NodeReplica) : NodeReplica := (RTransition now next r).1.

(** The new value of the replica, by the state it had at the start. *)
Definition inventory_step (inv : ReplicaInventory) (r : NodeReplica) : NodeReplica :=
  let current := r_State r in
  if String.eqb (inv_State inv) "swarming" then
    if bool_decide (current = ReplicaStateRequested) then advance ReplicaStateSwarming r else r
  else if String.eqb (inv_State inv) "complete" then
    let r := if bool_decide (current = ReplicaStateSwarming) then advance ReplicaStateBTComplete r else r in
    if bool_decide (current = ReplicaStateBTComplete) then advance ReplicaStateHashVerify r else r
  else if String.eqb (inv_State inv) "seeding" then
    if bool_decide (current = ReplicaStateHashVerify) then
      if String.eqb (inv_VerifyState inv) "hash_ok"
      then advance ReplicaStateSeeding (advance ReplicaStateVerified r)
      else if String.eqb (inv_VerifyState inv) "hash_fail" then advance ReplicaStateInvalid r else r
    else if bool_decide (current = ReplicaStateVerified) then advance ReplicaStateSeeding r else r
  else if String.eqb (inv_State inv) "invalid" || String.eqb (inv_State inv) "error" then
    if bool_decide (current = ReplicaStateAbsent) || bool_decide (current = ReplicaStatePurge) then r
    else advance ReplicaStateInvalid r
  else r.

Definition reconcileInventory (nodeID : Z) (inv : ReplicaInventory) (m : NodeReplicaMap) : NodeReplicaMap :=
  match RGet nodeID (inv_InfoHash inv) m with
  | None => m
  | Some r => <[(nodeID, inv_InfoHash inv) := inventory_step inv r]> m
  end.

End Controller.
