(* ===== verification/SwarmSpec.v ===== *)
(** * Theorems about the swarm policy controller

    What one pass does to the replicas and to the queue of directives: the
    eviction of replicas on lost nodes, the joins that fill a deficit, the
    retirements that answer a surplus. *)
From Stdlib Require Import String.
From S2P Require Import Prelude GoFloat GoSort TrackerTypes Heatmap Replica NodeRegistry Placement PlacementSpec SwarmControl.
Open Scope list_scope.
Open Scope Z_scope.

(** ** Views of the state *)

(** Replacing the replicas and the queue. *)
Definition rq (c : SwarmPolicyController) (m : NodeReplicaMap) (q : list ControllerAction) : SwarmPolicyController :=
  mkController (c_artifacts c) (c_torrents c) (c_nodes c) m (c_policy c) (c_weights c) q (c_heatCycles c).

Lemma rq_id c : rq c (c_replicas c) (c_directives c) = c.
Proof. by destruct c. Qed.

(** Every entry sits under its own node and hash. *)
Definition keyed (m : NodeReplicaMap) : Prop := forall k r, m !! k = Some r -> k = (r_NodeID r, r_InfoHash r).

(** The state of a replica; one that was never created is absent. *)
Definition state_of (m : NodeReplicaMap) (k : replicaKey) : NodeReplicaState :=
  match m !! k with Some r => r_State r | None => ReplicaStateAbsent end.

(** The free slots of the channel. *)
Definition room_of (q : list ControllerAction) : nat := Z.to_nat (directive_cap - len q).

Lemma try_send_room a q :
  try_send a q = if (room_of q =? 0)%nat then None else Some (q ++ [a]).
Proof.
  unfold try_send, room_of. destruct (Z.ltb_spec (len q) directive_cap), (Nat.eqb_spec (Z.to_nat (directive_cap - len q)) 0); lia || done.
Qed.

Lemma room_snoc q a : room_of (q ++ [a]) = (room_of q - 1)%nat.
Proof. unfold room_of, len. rewrite length_app. cbn [length]. lia. Qed.

(** ** The entries of a hash *)

Lemma ForHash_spec order ih m :
  (forall m, order m ≡ₚ map_to_list m) ->
  NoDup (ForHash order ih m).*1 /\
  forall k r, (k, r) ∈ ForHash order ih m <-> k.2 = ih /\ m !! k = Some r.
Proof.
  intros Hord. unfold ForHash. split.
  - assert (NoDup (order m).*1) as Hn by (rewrite Hord; apply NoDup_fst_map_to_list).
    induction (order m) as [|[k v] l IH]; [constructor|]. rewrite filter_cons.
    apply NoDup_cons in Hn as [Hk Hn]. destruct (decide _); [|by apply IH]. rewrite fmap_cons. constructor; [|by apply IH].
    intros ([k' v'] & Hkv & [_ Hin]%list_elem_of_filter)%list_elem_of_fmap. cbn in *. subst. destruct Hk.
    apply list_elem_of_fmap. by exists (k', v').
  - intros k r. rewrite list_elem_of_filter, Hord, elem_of_map_to_list. done.
Qed.

(** ** Eviction of replicas on lost nodes *)

Section Grace.
Context (o : SwarmOrders) (Ho : valid_orders o) (now : Z) (ih : string).

Definition lost (c : SwarmPolicyController) (r : NodeReplica) : bool :=
  CountsAsVerified (r_State r) &&
  match NGet (r_NodeID r) (c_nodes c) with Some n => grace_expired now n | None => false end.

Definition retirement (id : Z) : ControllerAction := mkAction DirectiveRetireReplica id ih ReplicaEphemeral.

Lemma retire_expired_rq c kr :
  retire_expired now ih c kr =
  if lost c kr.2 then
    rq c (alter (ForceEvict now) kr.1 (c_replicas c))
      (c_directives c ++ take (room_of (c_directives c)) [retirement (r_NodeID kr.2)])
  else c.
Proof.
  unfold retire_expired, lost. destruct (CountsAsVerified _); cbn [negb andb]; [|done].
  destruct (NGet _ _) as [n|]; [|done]. destruct (grace_expired now n); [|done].
  destruct c as [a t nd m p w q h]. unfold send_or_drop. cbn. rewrite try_send_room. fold (retirement (r_NodeID kr.2)).
  destruct (room_of q) as [|k]; cbn [Nat.eqb take]; [by rewrite app_nil_r|by rewrite take_nil].
Qed.

Lemma take_snoc_room {A} (q l : list A) (n : nat) x :
  take n l ++ take (n - length (take n l)) [x] = take n (l ++ [x]).
Proof.
  rewrite take_app. f_equal. f_equal. rewrite length_take. lia.
Qed.

Lemma retire_fold c l :
  NoDup l.*1 -> (forall k r, (k, r) ∈ l -> c_replicas c !! k = Some r) ->
  exists m, foldl (retire_expired now ih) c l =
     rq c m (c_directives c ++ take (room_of (c_directives c)) (retirement <$> ((fun kr => r_NodeID kr.2) <$> filter (fun kr => lost c kr.2 = true) l))) /\
     (forall k, m !! k = match c_replicas c !! k with
                         | Some r => Some (if decide (k ∈ l.*1 /\ lost c r = true) then ForceEvict now r else r)
                         | None => None
                         end).
Proof.
  intros Hnd Hl. induction l as [|[k r] l IH] using rev_ind.
  - exists (c_replicas c). cbn. rewrite take_nil, app_nil_r, rq_id. split; [done|]. intros k. destruct (c_replicas c !! k); [|done].
    rewrite decide_False; [done|]. by intros [?%not_elem_of_nil _].
  - rewrite fmap_app in Hnd. apply NoDup_app in Hnd as (Hnd & Hk & _).
    destruct IH as (m & Hf & Hm); [done|intros; apply Hl; apply elem_of_app; by left|].
    assert (c_replicas c !! k = Some r) as Hr by (apply Hl; set_solver).
    assert (k ∉ l.*1) as Hkl by (intros Hin; apply (Hk k Hin); set_solver).
    rewrite foldl_app, Hf. cbn [foldl]. rewrite retire_expired_rq. cbn [fst snd].
    assert (lost (rq c m (c_directives c ++ take (room_of (c_directives c)) (retirement <$> ((fun kr => r_NodeID kr.2) <$> filter (fun kr => lost c kr.2 = true) l)))) r = lost c r)
      as -> by done.
    rewrite filter_app, filter_cons, filter_nil, !fmap_app. cbn [snd].
    destruct (lost c r) eqn:El.
    + rewrite decide_True by done. eexists. split.
      * unfold rq. cbn [c_artifacts c_torrents c_nodes c_policy c_weights c_heatCycles c_replicas c_directives]. f_equal.
        rewrite <- app_assoc. f_equal. cbn. rewrite <- take_snoc_room by exact (c_directives c). do 2 f_equal.
        unfold room_of, len. rewrite length_app. lia.
      * intros j. cbn [c_replicas rq]. destruct (decide (j = k)) as [->|Hne].
        -- rewrite lookup_alter_eq, Hm, Hr. cbn. rewrite decide_False by naive_solver. f_equal.
           rewrite decide_True; [done|]. split; [|done]. set_solver.
        -- rewrite lookup_alter_ne by done. rewrite Hm. destruct (c_replicas c !! j) as [rj|]; [|done]. f_equal.
           apply decide_ext. set_solver.
    + rewrite decide_False by done. cbn. rewrite app_nil_r. exists m. split; [done|]. intros j. rewrite Hm.
      destruct (c_replicas c !! j) as [rj|] eqn:Ej; [|done]. f_equal. apply decide_ext.
      assert (j = k -> lost c rj = false) by (intros ->; congruence).
      destruct (lost c rj); [set_solver|]. split; by intros [_ ?].
Qed.

Lemma retireGraceExpired_rq c :
  exists m ids, retireGraceExpired o now ih c =
     rq c m (c_directives c ++ take (room_of (c_directives c)) (retirement <$> ids)) /\
     (forall k, m !! k = match c_replicas c !! k with
                         | Some r => Some (if decide (k.2 = ih /\ lost c r = true) then ForceEvict now r else r)
                         | None => None
                         end) /\
     (keyed (c_replicas c) -> NoDup ids /\
      forall id, id ∈ ids <-> exists r, c_replicas c !! (id, ih) = Some r /\ lost c r = true).
Proof.
  destruct (ForHash_spec (o_replicas o) ih (c_replicas c) (vo_replicas o Ho)) as [Hnd Hin].
  set (l := ForHash (o_replicas o) ih (c_replicas c)) in *.
  destruct (retire_fold c l Hnd) as (m & Hf & Hm); [by intros k r [_ Hk]%Hin|].
  exists m, ((fun kr => r_NodeID kr.2) <$> filter (fun kr => lost c kr.2 = true) l). split; [done|]. split.
  - intros k. rewrite Hm. destruct (c_replicas c !! k) as [r|] eqn:E; [|done]. f_equal. apply decide_ext.
    assert (k ∈ l.*1 <-> k.2 = ih); [|naive_solver]. rewrite list_elem_of_fmap. split.
    + by intros ([k' r'] & -> & [? _]%Hin).
    + intros Hk. exists (k, r). split; [done|]. by apply Hin.
  - intros Hkey. split.
    + assert (forall l', (forall k r, (k, r) ∈ l' -> k = (r_NodeID r, ih)) -> NoDup l'.*1 ->
               NoDup ((fun kr => r_NodeID kr.2) <$> filter (fun kr => lost c kr.2 = true) l')) as Hgen.
      { induction l' as [|[k r] l' IH]; intros Hl' Hn; [constructor|]. apply NoDup_cons in Hn as [Hk Hn].
        rewrite filter_cons. cbn [snd]. destruct (decide _); [|apply IH; [intros; apply Hl'; by right|done]].
        rewrite fmap_cons. constructor; [|apply IH; [intros; apply Hl'; by right|done]].
        intros ([k' r'] & He & [_ Hi]%list_elem_of_filter)%list_elem_of_fmap. cbn in *. destruct Hk.
        apply list_elem_of_fmap. exists (k', r'). split; [|done]. cbn.
        rewrite (Hl' k r ltac:(by left)), (Hl' k' r' ltac:(by right)). by rewrite He. }
      apply Hgen; [|done]. intros k r [Hk Hr]%Hin. specialize (Hkey k r Hr). rewrite Hkey in Hk |- *. by rewrite <- Hk.
    + intros id. rewrite list_elem_of_fmap. split.
      * intros ([k r] & -> & [Hl [Hk Hr]%Hin]%list_elem_of_filter). cbn in *. exists r. split; [|done].
        pose proof (Hkey k r Hr) as Hk'. rewrite Hk' in Hr, Hk. cbn in Hk. by rewrite <- Hk.
      * intros (r & Hr & Hl). exists ((id, ih), r). cbn. split; [by apply Hkey in Hr; injection Hr|].
        apply list_elem_of_filter. cbn. split; [done|]. by apply Hin.
Qed.
End Grace.

Lemma ForceEvict_fields now r :
  r_NodeID (ForceEvict now r) = r_NodeID r /\ r_InfoHash (ForceEvict now r) = r_InfoHash r /\
  r_Class (ForceEvict now r) = r_Class r /\
  r_State (ForceEvict now r) = if CountsAsVerified (r_State r) then ReplicaStateAbsent else r_State r.
Proof. unfold ForceEvict. destruct r as [f1 f2 f3 s f5 f6 f7 f8]. cbn. by destruct s. Qed.

Lemma ForceEvict_lost now c r : lost now c r = true -> r_State (ForceEvict now r) = ReplicaStateAbsent.
Proof.
  unfold lost. intros [Hv _]%andb_prop. destruct (ForceEvict_fields now r) as (_ & _ & _ & ->). by rewrite Hv.
Qed.

(** Replicas on lost nodes.  The pass over one artifact makes exactly those of its
    verified replicas absent whose node has been unreachable for longer than the
    grace period, whatever their class, and leaves every other replica as it
    was; each of them is retired by one directive, as long as the channel has
    room; afterwards no verified replica of the artifact is on such a node. *)
Theorem grace_eviction o now ih c :
  valid_orders o -> keyed (c_replicas c) ->
  let c' := retireGraceExpired o now ih c in
  (forall id h r, c_replicas c !! (id, h) = Some r ->
     exists r', c_replicas c' !! (id, h) = Some r' /\ r_Class r' = r_Class r /\
       (if decide (h = ih /\ lost now c r = true) then r_State r' = ReplicaStateAbsent else r' = r)) /\
  (forall id r', c_replicas c' !! (id, ih) = Some r' -> lost now c' r' = false) /\
  (exists ids, NoDup ids /\
     (forall id, id ∈ ids <-> exists r, c_replicas c !! (id, ih) = Some r /\ lost now c r = true) /\
     c_directives c' = c_directives c ++ take (room_of (c_directives c)) (retirement ih <$> ids)).
Proof.
  intros Ho Hk c'. destruct (retireGraceExpired_rq o Ho now ih c) as (m & ids & Hc & Hm & Hids).
  subst c'. rewrite Hc. cbn [c_replicas c_directives rq]. split; [|split].
  - intros id h r Hr. rewrite Hm, Hr. eexists. split; [done|]. cbn [snd]. destruct (decide _) as [[Hh Hl]|Hn].
    + split; [apply ForceEvict_fields|]. by apply (ForceEvict_lost now c).
    + done.
  - intros id r'. rewrite Hm. destruct (c_replicas c !! (id, ih)) as [r|] eqn:Er; [|done]. intros [= <-].
    change (lost now (rq c m (c_directives c ++ take (room_of (c_directives c)) (retirement ih <$> ids)))) with (lost now c).
    destruct (decide _) as [[_ Hl]|Hn].
    + unfold lost. by rewrite (ForceEvict_lost now c r Hl).
    + destruct (lost now c r) eqn:E; [|done]. by destruct Hn.
  - exists ids. by destruct (Hids Hk).
Qed.

(** ** Classification *)

Definition promoted (m m' : NodeReplicaMap) : Prop :=
  forall k, match m !! k, m' !! k with
            | Some r, Some r' => r' = r \/ (r_Class r = ReplicaEphemeral /\ r' = r {{ r_Class := ReplicaCache }})
            | None, None => True
            | _, _ => False
            end.

Lemma promoted_refl m : promoted m m.
Proof. intros k. destruct (m !! k); auto. Qed.

Lemma promoted_trans m1 m2 m3 : promoted m1 m2 -> promoted m2 m3 -> promoted m1 m3.
Proof.
  intros H1 H2 k. specialize (H1 k). specialize (H2 k).
  destruct (m1 !! k) as [r1|], (m2 !! k) as [r2|], (m3 !! k) as [r3|]; try done.
  destruct H1 as [->|[Hc ->]]; [done|]. destruct H2 as [->|[Hc' ->]]; [by right|]. by destruct r1.
Qed.

Lemma promoted_state m m' k : promoted m m' -> state_of m' k = state_of m k.
Proof.
  intros H. specialize (H k). unfold state_of. destruct (m !! k) as [r|], (m' !! k) as [r'|]; try done.
  destruct H as [->|[_ ->]]; [done|by destruct r].
Qed.

Lemma promoted_keyed m m' : promoted m m' -> keyed m -> keyed m'.
Proof.
  intros Hp Hk k r' Hr'. specialize (Hp k). rewrite Hr' in Hp. destruct (m !! k) as [r|] eqn:E; [|done].
  specialize (Hk k r E). destruct Hp as [->|[_ ->]]; [done|by destruct r].
Qed.

Lemma promoted_upgrade m k : promoted m (alter (fun r => (UpgradeClass ReplicaCache r).1) k m).
Proof.
  intros j. destruct (decide (j = k)) as [->|Hne].
  - rewrite lookup_alter_eq. destruct (m !! k) as [r|]; cbn; [|done]. unfold UpgradeClass.
    destruct r as [f1 f2 cl f4 f5 f6 f7 f8]. destruct cl; cbn; auto.
  - rewrite lookup_alter_ne by done. destruct (m !! j); auto.
Qed.

(** Classification touches classes and counters only. *)
Lemma classifyEdgeReplicas_rq o ih a c :
  exists m h, classifyEdgeReplicas o ih a c =
     mkController (c_artifacts c) (c_torrents c) (c_nodes c) m (c_policy c) (c_weights c) (c_directives c) h /\
     promoted (c_replicas c) m.
Proof.
  unfold classifyEdgeReplicas. assert (exists m h, c = mkController (c_artifacts c) (c_torrents c) (c_nodes c) m (c_policy c)
      (c_weights c) (c_directives c) h /\ promoted (c_replicas c) m) as Hrefl.
  { exists (c_replicas c), (c_heatCycles c). split; [by destruct c|apply promoted_refl]. }
  destruct (a_Heatmap a) as [hm|]; [|done]. destruct (_ =? _); [done|].
  set (l := ForHash _ _ _). clearbody l. revert Hrefl.
  assert (forall c0, (exists m h, c0 = mkController (c_artifacts c) (c_torrents c) (c_nodes c) m (c_policy c)
      (c_weights c) (c_directives c) h /\ promoted (c_replicas c) m) ->
    exists m h, foldl (classify_replica ih hm) c0 l = mkController (c_artifacts c) (c_torrents c) (c_nodes c) m (c_policy c)
      (c_weights c) (c_directives c) h /\ promoted (c_replicas c) m) as Hgen; [|apply Hgen].
  induction l as [|kr l IH]; intros c0 Hc0; [done|]. cbn [foldl]. apply IH. clear IH l.
  destruct Hc0 as (m & h & -> & Hp). unfold classify_replica. destruct (_ || _); [by exists m, h|].
  destruct (NGet _ _) as [n|]; [|by exists m, h]. destruct (_ || _); [by exists m, h|].
  destruct (fltb _ _); [|cbn; by do 2 eexists]. cbn. destruct (_ <=? _); cbn; do 2 eexists; (split; [done|]); [|done].
  eapply promoted_trans; [done|apply promoted_upgrade].
Qed.

(** ** Joins *)

Section Joins.
Context (o : SwarmOrders) (Ho : valid_orders o) (now : Z) (ih : string).

Definition join (id : Z) : ControllerAction := mkAction DirectiveJoinSwarm id ih ReplicaStandard.

Lemma existingNodeSet_spec c id :
  keyed (c_replicas c) -> id ∈ existingNodeSet o ih c <-> state_of (c_replicas c) (id, ih) <> ReplicaStateAbsent.
Proof.
  intros Hk. unfold existingNodeSet.
  destruct (ForHash_spec (o_replicas o) ih (c_replicas c) (vo_replicas o Ho)) as [_ Hin].
  assert (forall l (s : gset Z), id ∈ foldl (fun s (kr : replicaKey * NodeReplica) =>
              if bool_decide (r_State kr.2 = ReplicaStateAbsent) then s else {[r_NodeID kr.2]} ∪ s) s l <->
            id ∈ s \/ exists k r, (k, r) ∈ l /\ r_NodeID r = id /\ r_State r <> ReplicaStateAbsent) as Hgen.
  { induction l as [|[k r] l IH]; intros s; cbn [foldl snd].
    - split; [by left|]. intros [?|(k & r & ?%not_elem_of_nil & _)]; done.
    - rewrite IH. case_bool_decide as Hs; [|rewrite elem_of_union, elem_of_singleton]; set_solver. }
  rewrite Hgen. unfold state_of. split.
  - intros [?%not_elem_of_empty|(k & r & [Hk2 Hr]%Hin & <- & Hs)]; [done|].
    pose proof (Hk k r Hr) as Hk'. rewrite Hk' in Hr, Hk2. cbn in Hk2. rewrite <- Hk2. by rewrite Hr.
  - destruct (c_replicas c !! (id, ih)) as [r|] eqn:E; [|done]. intros Hs. right. exists (id, ih), r.
    split; [by apply Hin|]. split; [|done]. by pose proof (Hk _ _ E) as [= -> _].
Qed.

(** [GetOrCreate] changes no state, and an insertion under the key that follows
    it does not see whether the entry was there. *)
Lemma GetOrCreate_spec (id : Z) (class : ReplicaClass) (m : NodeReplicaMap) :
  exists m0 r, GetOrCreate now id ih class m = (m0, r) /\ r_State r = state_of m (id, ih) /\
    (forall k, state_of m0 k = state_of m k) /\
    (forall x, <[(id, ih) := x]> m0 = <[(id, ih) := x]> m) /\
    (keyed m -> keyed m0 /\ r_NodeID r = id /\ r_InfoHash r = ih).
Proof.
  unfold GetOrCreate, state_of. destruct (m !! (id, ih)) as [r|] eqn:E.
  - exists m, r. split_and!; try done. intros Hk. by pose proof (Hk _ _ E) as [= <- <-].
  - do 2 eexists. split; [done|]. split_and!; try done.
    + intros k. destruct (decide (k = (id, ih))) as [->|]; [by rewrite lookup_insert_eq, E|by rewrite lookup_insert_ne].
    + intros x. by rewrite insert_insert_eq.
    + intros Hk. split; [|done]. intros k y [[<- <-]|[Hne Hy]]%lookup_insert_Some; [done|by apply Hk].
Qed.

Lemma state_of_insert (x : NodeReplica) (m : NodeReplicaMap) (key k : replicaKey) :
  state_of (<[key := x]> m) k = if decide (k = key) then r_State x else state_of m k.
Proof. unfold state_of. destruct (decide (k = key)) as [->|]; [by rewrite lookup_insert_eq|by rewrite lookup_insert_ne]. Qed.

Lemma keyed_insert (x : NodeReplica) (m : NodeReplicaMap) : keyed m -> keyed (<[(r_NodeID x, r_InfoHash x) := x]> m).
Proof. intros Hk k y [[<- <-]|[Hne Hy]]%lookup_insert_Some; [done|by apply Hk]. Qed.

Lemma RTransition_key next r :
  r_NodeID (RTransition now next r).1 = r_NodeID r /\ r_InfoHash (RTransition now next r).1 = r_InfoHash r.
Proof. unfold RTransition. destruct (decide _); [done|]. by destruct (nodeReplicaTransitions _ _). Qed.

(** Asking for an absent replica. *)
Lemma RTransition_request r :
  r_State r = ReplicaStateAbsent ->
  exists r', RTransition now ReplicaStateRequested r = (r', Ok ReplicaStateRequested) /\ r_State r' = ReplicaStateRequested /\
    r_NodeID r' = r_NodeID r /\ r_InfoHash r' = r_InfoHash r /\ r_State (RTransition now ReplicaStateAbsent r').1 = ReplicaStateAbsent.
Proof. intros Hs. unfold RTransition at 1. rewrite Hs. cbn. eexists. split; [done|]. by split_and!. Qed.

(** A candidate whose replica is absent is requested if the channel has room,
    and else stays absent. *)
Lemma join_candidate_rq c id :
  state_of (c_replicas c) (id, ih) = ReplicaStateAbsent ->
  exists m, join_candidate now ih c id =
     (rq c m (c_directives c ++ take (room_of (c_directives c)) [join id]),
      if (room_of (c_directives c) =? 0)%nat then 0 else 1) /\
    (forall k, state_of m k = if decide (k = (id, ih) /\ room_of (c_directives c) <> 0%nat) then ReplicaStateRequested
                              else state_of (c_replicas c) k) /\
    (keyed (c_replicas c) -> keyed m).
Proof.
  intros Habs. destruct c as [a t nd m p w q h]. cbn [c_replicas c_directives] in *.
  destruct (GetOrCreate_spec id ReplicaStandard m) as (m0 & r & Hg & Hrs & Hst & Hins & Hrk). rewrite Habs in Hrs.
  destruct (RTransition_request r Hrs) as (r' & Ht & Hr' & Hid & Hih & Hback).
  unfold join_candidate. cbn. rewrite Hg, Hrs. cbn. rewrite Ht. cbn.
  rewrite try_send_room. fold (join id). destruct (room_of q) as [|n] eqn:Er; cbn.
  - eexists. rewrite app_nil_r. split; [done|]. rewrite insert_insert_eq, Hins. split.
    + intros k. rewrite state_of_insert, Hback. rewrite (decide_False (P := k = (id, ih) /\ 0%nat <> 0%nat)) by naive_solver.
      by destruct (decide (k = (id, ih))) as [->|].
    + intros Hk. destruct (Hrk Hk) as (_ & H1 & H2). destruct (RTransition_key ReplicaStateAbsent r') as [H3 H4].
      rewrite <- H1, <- H2, <- Hid, <- Hih, <- H3, <- H4. by apply keyed_insert.
  - eexists. rewrite take_nil. split; [done|]. rewrite Hins. split.
    + intros k. rewrite state_of_insert, Hr'. apply decide_ext. naive_solver.
    + intros Hk. destruct (Hrk Hk) as (_ & H1 & H2). rewrite <- H1, <- H2, <- Hid, <- Hih. by apply keyed_insert.
Qed.

(** How many joins a deficit, the channel and the candidates allow. *)
Definition join_count (deficit : Z) (q : list ControllerAction) (ids : list Z) : nat :=
  Nat.min (Z.to_nat deficit) (Nat.min (room_of q) (length ids)).

Lemma emit_joins_rq deficit emitted ids c :
  NoDup ids -> (forall id, id ∈ ids -> state_of (c_replicas c) (id, ih) = ReplicaStateAbsent) ->
  let k := join_count (deficit - emitted) (c_directives c) ids in
  exists m, emit_joins now ih deficit emitted ids c =
     (rq c m (c_directives c ++ (join <$> take k ids)), emitted + Z.of_nat k) /\
    (forall key, state_of m key = if decide (key.2 = ih /\ key.1 ∈ take k ids) then ReplicaStateRequested
                                  else state_of (c_replicas c) key) /\
    (keyed (c_replicas c) -> keyed m).
Proof.
  revert emitted c. induction ids as [|id ids IH]; intros emitted c Hnd Habs k.
  - exists (c_replicas c). subst k. unfold join_count. cbn [length]. rewrite !Nat.min_0_r. cbn [take fmap list_fmap emit_joins].
    rewrite app_nil_r, rq_id, Z.add_0_r. split; [done|]. split; [|done]. intros key. rewrite decide_False; [done|].
    by intros [_ ?%not_elem_of_nil].
  - apply NoDup_cons in Hnd as [Hid Hnd]. cbn [emit_joins]. destruct (Z.leb_spec deficit emitted) as [Hle|Hlt].
    { assert (k = 0%nat) as -> by (unfold k, join_count; lia). exists (c_replicas c). cbn [take fmap list_fmap].
      rewrite app_nil_r, rq_id, Z.add_0_r. split; [done|]. split; [|done]. intros key. rewrite decide_False; [done|].
      by intros [_ ?%not_elem_of_nil]. }
    destruct (join_candidate_rq c id) as (m & Hj & Hm & Hkm); [apply Habs; by left|]. rewrite Hj.
    set (c1 := rq c m _). assert (room_of (c_directives c1) = (room_of (c_directives c) - 1)%nat) as Hroom.
    { unfold c1. cbn [c_directives rq]. destruct (room_of (c_directives c)) as [|n] eqn:E; cbn [take].
      - by rewrite app_nil_r.
      - rewrite take_nil, room_snoc. lia. }
    destruct (IH (emitted + (if (room_of (c_directives c) =? 0)%nat then 0 else 1)) c1) as (m' & Hj' & Hm' & Hkm'); [done| |].
    { intros id' Hid'. unfold c1. cbn [c_replicas rq]. rewrite Hm, decide_False by naive_solver. apply Habs. by right. }
    exists m'. rewrite Hj'. clear Hj' IH.
    set (e := if (room_of (c_directives c) =? 0)%nat then 0 else 1) in *.
    set (k' := join_count (deficit - (emitted + e)) (c_directives c1) ids) in *.
    assert (k' = Nat.min (Z.to_nat (deficit - (emitted + e))) (Nat.min (room_of (c_directives c) - 1) (length ids))) as Hk'.
    { unfold k', join_count. by rewrite Hroom. }
    clearbody k'. unfold c1 in *. cbn [c_directives c_replicas rq] in *. clear c1.
    destruct (room_of (c_directives c)) as [|n] eqn:E; cbn [Nat.eqb take] in *.
    + assert (k = 0%nat) as -> by (unfold k, join_count; rewrite E; lia).
      assert (k' = 0%nat) as -> by lia. cbn [take fmap list_fmap] in *. rewrite !app_nil_r in *.
      split; [unfold rq, e; cbn; f_equal; lia|]. split; [|auto]. intros key. rewrite Hm', Hm.
      rewrite (decide_False (P := key.2 = ih /\ key.1 ∈ take 0 ids)) by (by intros [_ ?%not_elem_of_nil]).
      rewrite ?(decide_False (P := key.2 = ih /\ key.1 ∈ [])) by (by intros [_ ?%not_elem_of_nil]).
      by rewrite decide_False by (by intros [_ []]).
    + rewrite take_nil in *. assert (k = S k') as ->.
      { unfold k, join_count. rewrite E. cbn [length]. subst e. lia. }
      cbn [take]. rewrite fmap_cons. split; [|split; [|auto]].
      * unfold rq. cbn. rewrite <- app_assoc. cbn. f_equal. subst e. lia.
      * intros [key1 key2]. rewrite Hm', Hm. cbn [fst snd]. destruct (decide (key2 = ih /\ key1 ∈ take k' ids)) as [[-> Hin]|Hn].
        -- rewrite decide_True; [done|]. split; [done|]. by right.
        -- destruct (decide ((key1, key2) = (id, ih) /\ S n <> 0%nat)) as [[[= -> ->] _]|Hne].
           ++ rewrite decide_True; [done|]. split; [done|]. by left.
           ++ rewrite decide_False; [done|]. intros [-> [->|Hin]%elem_of_cons]; [by destruct Hne|by destruct Hn].
Qed.

(** The nodes a join may go to. *)
Definition candidate (c : SwarmPolicyController) (id : Z) : Prop :=
  exists n, nr_nodes (c_nodes c) !! id = Some n /\ ni_ReachState n = NodeReachable /\
    (IsNearCap now (ni_WAN n)).2 = false /\
    (ni_Tier n = NodeTierEdge -> HasVerifiedCoreReplica (o_nodes o) ih (c_replicas c) (c_nodes c) = true) /\
    state_of (c_replicas c) (id, ih) = ReplicaStateAbsent.

Lemma join_candidates_spec c a :
  keyed (c_replicas c) -> (forall j n, nr_nodes (c_nodes c) !! j = Some n -> ni_NodeID n = j) ->
  let ids := sc_nodeID <$> scoreCandidates o now ih a (DirectableNodes (o_nodes o) (c_nodes c)) (existingNodeSet o ih c) c in
  NoDup ids /\ forall id, id ∈ ids <-> candidate c id.
Proof.
  intros Hk Hn ids. subst ids. unfold candidate, scoreCandidates. cbn zeta.
  set (hc := HasVerifiedCoreReplica _ _ _ _) in *. clearbody hc. set (ex := existingNodeSet o ih c).
  set (l := filter (fun n => eligible now ex hc n = true) (DirectableNodes (o_nodes o) (c_nodes c))).
  assert (forall f k, sc_nodeID <$> slice_stable (higher sc_score) (score_node f k (omap (fun id => ni_Domains <$> NGet id (c_nodes c)) (o_existing o ex)) <$> l)
            ≡ₚ ni_NodeID <$> l) as Hp.
  { intros f k. rewrite slice_stable_perm, <- list_fmap_compose. apply reflexive_eq. by apply list_fmap_ext. }
  set (ids := sc_nodeID <$> _). assert (ids ≡ₚ ni_NodeID <$> l) as Hids by apply Hp. clearbody ids. clear Hp.
  unfold l, DirectableNodes in Hids. assert (o_nodes o (nr_nodes (c_nodes c)) ≡ₚ map_to_list (nr_nodes (c_nodes c))) as Hord by apply Ho.
  split.
  - assert (NoDup (o_nodes o (nr_nodes (c_nodes c))).*1) as Hnd by (rewrite Hord; apply NoDup_fst_map_to_list).
    assert (forall k n, (k, n) ∈ o_nodes o (nr_nodes (c_nodes c)) -> ni_NodeID n = k) as Hkn.
    { intros k n. rewrite Hord, elem_of_map_to_list. apply Hn. }
    rewrite Hids, list_filter_filter. clear Hids. revert Hnd Hkn. generalize (o_nodes o (nr_nodes (c_nodes c))). intros ns. induction ns as [|[k n] ns IH]; intros Hnd Hkn; [constructor|].
    apply NoDup_cons in Hnd as [Hnk Hnd]. rewrite fmap_cons, filter_cons. cbn [snd].
    destruct (decide _); [|apply IH; [done|intros; apply Hkn; by right]].
    rewrite fmap_cons. constructor; [|apply IH; [done|intros; apply Hkn; by right]].
    intros (n' & He & [_ Hi]%list_elem_of_filter)%list_elem_of_fmap. apply list_elem_of_fmap in Hi as ([k' n''] & -> & Hi).
    cbn in *. destruct Hnk. apply list_elem_of_fmap. exists (k', n''). split; [|done]. cbn.
    rewrite <- (Hkn k n ltac:(by left)), <- (Hkn k' n'' ltac:(by right)). done.
  - intros id. rewrite Hids, list_elem_of_fmap. split.
    + intros (n & -> & [He [Hd Hi]%list_elem_of_filter]%list_elem_of_filter).
      apply list_elem_of_fmap in Hi as ([k n'] & -> & Hi). cbn [snd] in *. rewrite Hord, elem_of_map_to_list in Hi.
      rewrite (Hn _ _ Hi) in *. exists n'. unfold IsDirectable in Hd. apply bool_decide_eq_true in Hd.
      unfold eligible in He. apply andb_prop in He as [[H1 H2]%andb_prop H3].
      split_and!; try done.
      * by destruct (IsNearCap now (ni_WAN n')).2.
      * intros Ht. rewrite bool_decide_eq_true_2 in H3 by done. by destruct hc.
      * apply negb_true_iff, bool_decide_eq_false in H1. unfold ex in H1. rewrite existingNodeSet_spec in H1 by done.
        rewrite (Hn _ _ Hi) in H1. destruct (state_of (c_replicas c) (k, ih)); try done; by destruct H1.
    + intros (n & Hi & Hd & Hw & Ht & Hs). exists n. split; [by rewrite (Hn _ _ Hi)|].
      apply list_elem_of_filter. split; [|apply list_elem_of_filter; split].
      * unfold eligible. rewrite Hw, (Hn _ _ Hi). rewrite bool_decide_eq_false_2 by (unfold ex; rewrite existingNodeSet_spec by done; naive_solver).
        cbn. destruct (bool_decide (ni_Tier n = NodeTierEdge)) eqn:E; [|done]. apply bool_decide_eq_true in E. by rewrite Ht.
      * unfold IsDirectable. by apply bool_decide_eq_true_2.
      * apply list_elem_of_fmap. exists (id, n). split; [done|]. by rewrite Hord, elem_of_map_to_list.
Qed.
End Joins.

(** ** Retirements *)

Lemma emit_retirements_rq ih surplus emitted ids c :
  emit_retirements ih surplus emitted ids c =
  rq c (c_replicas c) (c_directives c ++
    (retirement ih <$> take (Nat.min (Z.to_nat (surplus - emitted)) (room_of (c_directives c))) ids)).
Proof.
  revert emitted c. induction ids as [|id ids IH]; intros emitted c; cbn [emit_retirements].
  - by rewrite take_nil, app_nil_r, rq_id.
  - destruct (Z.leb_spec surplus emitted) as [Hle|Hlt].
    { replace (Z.to_nat (surplus - emitted)) with 0%nat by lia. cbn. by rewrite app_nil_r, rq_id. }
    rewrite try_send_room. destruct (room_of (c_directives c)) as [|n] eqn:E; cbn [Nat.eqb].
    { rewrite Nat.min_0_r. cbn. by rewrite app_nil_r, rq_id. }
    rewrite IH.
    fold (retirement ih id).
    replace (Z.to_nat (surplus - emitted)) with (S (Z.to_nat (surplus - (emitted + 1)))) by lia.
    destruct c as [a t nd m p w q h]. cbn [c_directives] in E. cbn. unfold rq. cbn. rewrite room_snoc, E, <- app_assoc. cbn.
    by rewrite Nat.sub_0_r.
Qed.

Definition retirable (ih : string) (m : NodeReplicaMap) (id : Z) : Prop :=
  exists r, m !! (id, ih) = Some r /\ CountsAsVerified (r_State r) = true /\ class_rank (r_Class r) <= class_rank ReplicaStandard.

Lemma retirees_spec o ih surplus c id :
  valid_orders o -> keyed (c_replicas c) -> id ∈ retirees o ih surplus c -> retirable ih (c_replicas c) id.
Proof.
  intros Ho Hk. destruct (ForHash_spec (o_replicas o) ih (c_replicas c) (vo_replicas o Ho)) as [_ Hin].
  assert (forall (P : replicaKey * NodeReplica -> Prop) `{!forall x, Decision (P x)},
    (forall kr, P kr -> class_rank (r_Class kr.2) <= class_rank ReplicaStandard) ->
    id ∈ (fun kr : replicaKey * NodeReplica => r_NodeID kr.2) <$>
      filter P (filter (fun kr => CountsAsVerified (r_State kr.2) = true) (ForHash (o_replicas o) ih (c_replicas c))) ->
    retirable ih (c_replicas c) id) as Hgen.
  { intros P HP Hrank ([k r] & -> & [Hp [Hv [Hk2 Hr]%Hin]%list_elem_of_filter]%list_elem_of_filter)%list_elem_of_fmap.
    exists r. cbn in *. split; [|split; [done|by apply (Hrank (k, r))]].
    pose proof (Hk k r Hr) as Hk'. rewrite Hk' in Hr, Hk2. cbn in Hk2. by rewrite <- Hk2. }
  unfold retirees. cbn zeta. destruct (_ <? _).
  - intros [Hi|Hi]%elem_of_app; (eapply Hgen; [|exact Hi]); cbn; [intros; lia|]. intros kr ->. done.
  - intros Hi. eapply Hgen; [|exact Hi]. cbn. intros; lia.
Qed.

(** ** One pass over an artifact *)

Definition nodes_keyed (c : SwarmPolicyController) : Prop :=
  forall j n, nr_nodes (c_nodes c) !! j = Some n -> ni_NodeID n = j.

(** The state in which the pass decides. *)
Definition observed (o : SwarmOrders) (now : Z) (ih : string) (a : Artifact) (c : SwarmPolicyController) : SwarmPolicyController :=
  retireGraceExpired o now ih (classifyEdgeReplicas o ih a c).

Lemma observed_facts o now ih a c :
  valid_orders o -> keyed (c_replicas c) ->
  let c1 := observed o now ih a c in
  c_nodes c1 = c_nodes c /\ c_artifacts c1 = c_artifacts c /\ c_torrents c1 = c_torrents c /\ c_policy c1 = c_policy c /\
  keyed (c_replicas c1) /\
  (forall k, state_of (c_replicas c1) k = state_of (c_replicas c) k \/
             (CountsAsVerified (state_of (c_replicas c) k) = true /\ state_of (c_replicas c1) k = ReplicaStateAbsent)) /\
  (exists ids, c_directives c1 = c_directives c ++ take (room_of (c_directives c)) (retirement ih <$> ids)).
Proof.
  intros Ho Hk c1. unfold c1, observed. clear c1.
  destruct (classifyEdgeReplicas_rq o ih a c) as (m & h & -> & Hp). set (c0 := mkController _ _ _ _ _ _ _ _).
  destruct (retireGraceExpired_rq o Ho now ih c0) as (m' & ids & -> & Hm' & _). unfold rq.
  cbn [c_artifacts c_torrents c_nodes c_policy c_weights c_heatCycles c_replicas c_directives] in *.
  pose proof (promoted_keyed _ _ Hp Hk) as Hk0. split_and!; try done.
  - intros k r. rewrite Hm'. cbn. destruct (m !! k) as [r0|] eqn:E; [|done]. intros [= <-]. specialize (Hk0 k r0 E).
    destruct (decide _); [|done]. destruct (ForceEvict_fields now r0) as (-> & -> & _). done.
  - intros k. rewrite <- (promoted_state _ _ k Hp). unfold state_of. rewrite Hm'. cbn. destruct (m !! k) as [r0|]; [|by left].
    destruct (decide _) as [[_ Hl]|]; [right|by left]. split; [|by apply (ForceEvict_lost now c0)].
    unfold lost in Hl. by apply andb_prop in Hl as [Hl _].
  - by exists ids.
Qed.

Definition deficit_of (o : SwarmOrders) (ih : string) (a : Artifact) (c1 : SwarmPolicyController) : Z :=
  i64 ((Evaluate (of_int (raw_seeders ih c1)) (a_MinReplicas a) (a_MaxReplicas a) (c_policy c1)).2 -
       VerifiedCount (o_replicas o) ih (c_replicas c1)).

Lemma reconcileArtifact_cases o now ih a c :
  valid_orders o -> keyed (c_replicas c) -> nodes_keyed c ->
  let c1 := observed o now ih a c in
  let deficit := deficit_of o ih a c1 in
  let c' := reconcileArtifact o now ih a c in
  c_nodes c' = c_nodes c /\ c_artifacts c' = c_artifacts c /\ c_torrents c' = c_torrents c /\ keyed (c_replicas c') /\
  (0 < deficit ->
   exists ids, NoDup ids /\ (forall id, id ∈ ids <-> candidate o now ih c1 id) /\
     let k := join_count deficit (c_directives c1) ids in
     c_directives c' = c_directives c1 ++ (join ih <$> take k ids) /\
     forall key, state_of (c_replicas c') key =
       if decide (key.2 = ih /\ key.1 ∈ take k ids) then ReplicaStateRequested else state_of (c_replicas c1) key) /\
  (deficit <= 0 ->
   c_replicas c' = c_replicas c1 /\
   exists ids, (forall id, id ∈ ids -> retirable ih (c_replicas c1) id) /\
     c_directives c' = c_directives c1 ++ (retirement ih <$> take (Nat.min (Z.to_nat (- deficit)) (room_of (c_directives c1))) ids)).
Proof.
  intros Ho Hk Hn c1 deficit c'.
  destruct (observed_facts o now ih a c Ho Hk) as (Hnodes & Hart & Htor & Hpol & Hk1 & _ & _). fold c1 in Hnodes, Hart, Htor, Hpol, Hk1.
  subst c' deficit. unfold reconcileArtifact, deficit_of. fold (observed o now ih a c). fold c1. clearbody c1. cbn zeta.
  destruct (Evaluate _ _ _ _) as [p desired]. cbn [snd]. set (V := VerifiedCount _ _ _). clearbody V.
  set (c2 := c1 {{ c_policy := p }}).
  assert (c_replicas c2 = c_replicas c1 /\ c_directives c2 = c_directives c1 /\ c_nodes c2 = c_nodes c1 /\
          c_artifacts c2 = c_artifacts c1 /\ c_torrents c2 = c_torrents c1) as (E1 & E2 & E3 & E4 & E5) by (by destruct c1).
  clearbody c2. destruct (Z.leb_spec (i64 (desired - V)) 0) as [Hle|Hgt].
  - assert (forall surplus, 0 <= surplus -> selectRetirements o ih surplus c2 = rq c2 (c_replicas c2) (c_directives c2 ++
        (retirement ih <$> take (Nat.min (Z.to_nat (surplus - 0)) (room_of (c_directives c2))) (retirees o ih surplus c2)))) as Hsel.
    { intros surplus _. apply emit_retirements_rq. }
    set (c' := if 0 <? i64 (V - desired) then selectRetirements o ih (i64 (V - desired)) c2 else c2).
    assert (exists ids, c' = rq c2 (c_replicas c2) (c_directives c2 ++
        (retirement ih <$> take (Nat.min (Z.to_nat (- i64 (desired - V))) (room_of (c_directives c2))) ids)) /\
        forall id, id ∈ ids -> retirable ih (c_replicas c2) id) as (ids & -> & Hret).
    { unfold c'. destruct (Z.ltb_spec 0 (i64 (V - desired))) as [Hs|Hs].
      - destruct (Z.eq_dec (- i64 (desired - V)) (i64 (V - desired))) as [Heq|Hneq].
        + exists (retirees o ih (i64 (V - desired)) c2). rewrite Hsel by lia. rewrite Z.sub_0_r, Heq. split; [done|].
          intros id. apply retirees_spec; [done|by rewrite E1].
        + exfalso. apply Hneq. clear -Hle Hs.
          unfold i64, wrap_s in *. change (2 ^ (64 - 1)) with 9223372036854775808 in *. change (2 ^ 64) with 18446744073709551616 in *.
          Z.div_mod_to_equations. lia.
      - exists []. rewrite take_nil. cbn. rewrite app_nil_r, rq_id. split; [done|]. by intros id ?%not_elem_of_nil. }
    unfold rq. cbn [c_artifacts c_torrents c_nodes c_policy c_weights c_heatCycles c_replicas c_directives].
    rewrite E1, E2, E3, E4, E5 in *. split_and!; try congruence; [done|intros; lia|]. intros _. split; [done|]. by exists ids.
  - assert (keyed (c_replicas c2)) as Hk2 by (by rewrite E1).
    assert (forall j n, nr_nodes (c_nodes c2) !! j = Some n -> ni_NodeID n = j) as Hn2 by (rewrite E3, Hnodes; apply Hn).
    destruct (join_candidates_spec o Ho now ih c2 a Hk2 Hn2) as [Hnd Hcand]. set (ids := sc_nodeID <$> _) in *. clearbody ids.
    destruct (emit_joins_rq now ih (i64 (desired - V)) 0 ids c2 Hnd) as (m & Hj & Hm & Hkm).
    { intros id Hi. apply Hcand in Hi as (n & _ & _ & _ & _ & Hs). done. }
    rewrite Hj. rewrite Z.sub_0_r in *. unfold rq.
    cbn [fst c_artifacts c_torrents c_nodes c_policy c_weights c_heatCycles c_replicas c_directives].
    rewrite E2, E3, E4, E5 in *. rewrite E1 in Hm. split_and!; try congruence; [by apply Hkm| |intros; lia].
    intros _. exists ids. split; [done|]. split; [|done]. intros id. rewrite Hcand. unfold candidate. by rewrite E1, E3.
Qed.

(** What no operation of the controller does: make a replica verified. *)
Definition no_new_verified (m m' : NodeReplicaMap) : Prop :=
  forall k, CountsAsVerified (state_of m' k) = true -> CountsAsVerified (state_of m k) = true.

Lemma no_new_verified_refl m : no_new_verified m m.
Proof. by intros k. Qed.
#[local] Hint Resolve no_new_verified_refl : core.

Lemma no_new_verified_trans m1 m2 m3 : no_new_verified m1 m2 -> no_new_verified m2 m3 -> no_new_verified m1 m3.
Proof. intros H1 H2 k Hk. by apply H1, H2. Qed.

Lemma reconcileArtifact_safe o now ih a c :
  valid_orders o -> keyed (c_replicas c) -> nodes_keyed c ->
  let c' := reconcileArtifact o now ih a c in
  keyed (c_replicas c') /\ c_nodes c' = c_nodes c /\ no_new_verified (c_replicas c) (c_replicas c').
Proof.
  intros Ho Hk Hn c'. destruct (reconcileArtifact_cases o now ih a c Ho Hk Hn) as (Hnodes & _ & _ & Hk' & Hpos & Hneg).
  destruct (observed_facts o now ih a c Ho Hk) as (_ & _ & _ & _ & _ & Hst & _). fold c' in Hnodes, Hk', Hpos, Hneg.
  split; [done|]. split; [done|].
  assert (no_new_verified (c_replicas c) (c_replicas (observed o now ih a c))) as H1.
  { intros k. destruct (Hst k) as [->|[? ->]]; done. }
  destruct (Z.lt_ge_cases 0 (deficit_of o ih a (observed o now ih a c))) as [Hp|Hp].
  - destruct (Hpos Hp) as (ids & _ & _ & _ & Hs). intros k. rewrite Hs. destruct (decide _); [done|apply H1].
  - by destruct (Hneg Hp) as [-> _].
Qed.

Lemma reconcile_safe o now c :
  valid_orders o -> keyed (c_replicas c) -> nodes_keyed c ->
  let c' := reconcile o now c in
  keyed (c_replicas c') /\ c_nodes c' = c_nodes c /\ no_new_verified (c_replicas c) (c_replicas c').
Proof.
  intros Ho. unfold reconcile. generalize (o_artifacts o (c_artifacts c)). intros l. revert c.
  induction l as [|[ih a] l IH]; intros c Hk Hn; cbn [foldl]; [by split_and!|].
  destruct (reconcileArtifact_safe o now ih a c Ho Hk Hn) as (Hk1 & Hn1 & Hv1).
  destruct (IH _ Hk1) as (Hk2 & Hn2 & Hv2); [unfold nodes_keyed; by rewrite Hn1|].
  split_and!; [done|congruence|]. by eapply no_new_verified_trans.
Qed.

Lemma EnsureArtifact_safe now req c :
  keyed (c_replicas c) -> let c' := (EnsureArtifact now req c).1 in
  keyed (c_replicas c') /\ c_nodes c' = c_nodes c /\ no_new_verified (c_replicas c) (c_replicas c').
Proof.
  intros Hk. unfold EnsureArtifact. destruct (c_artifacts c !! _); [|split_and!; auto]. destruct (NGet _ _); [|split_and!; auto].
  destruct (GetOrCreate_spec now (en_InfoHash req) (en_NodeID req) (parseReplicaClass (en_Class req)) (c_replicas c))
    as (m0 & r & -> & Hrs & Hst & Hins & Hrk). destruct (Hrk Hk) as (Hk0 & H1 & H2).
  destruct c as [arts t nd m p w q h]. cbn [c_replicas] in *.
  assert (no_new_verified m m0) as H0 by (intros k; by rewrite Hst).
  destruct (CountsAsVerified (r_State r)) eqn:Ev; [by split_and!|].
  destruct (decide (r_State r = ReplicaStateAbsent)) as [Ha|Ha]; [|rewrite bool_decide_eq_false_2 by done; split_and!; auto].
  rewrite bool_decide_eq_true_2 by done. cbn [negb]. destruct (RTransition_request now r Ha) as (r' & -> & Hr' & Hid & Hih & Hback).
  cbn. destruct (try_send _ _); cbn.
  - rewrite Hins. split_and!; [rewrite <- H1, <- H2, <- Hid, <- Hih; by apply keyed_insert|done|].
    intros k. rewrite state_of_insert, Hr'. by destruct (decide _).
  - rewrite insert_insert_eq, Hins. split_and!; [|done|].
    + destruct (RTransition_key now ReplicaStateAbsent r') as [H3 H4].
      rewrite <- H1, <- H2, <- Hid, <- Hih, <- H3, <- H4. by apply keyed_insert.
    + intros k. rewrite state_of_insert, Hback. by destruct (decide _).
Qed.

(** [C30] One pass over one artifact.  Let the deficit be the count the policy asks for
    less the verified replicas that count, after replicas on lost nodes have
    been evicted.  When it is positive, distinct nodes are asked to join: as
    many as the deficit, the channel and the candidates allow, each of them a
    reachable node below its WAN cap without a replica, and no edge node before
    a core node holds the artifact; exactly their replicas become requested and
    nothing else changes.  Otherwise no replica changes, and at most the surplus
    is retired, among verified replicas that are neither pinned nor archival.
    The channel never holds more than its capacity. *)
Theorem reconcile_artifact o now ih a c :
  valid_orders o -> keyed (c_replicas c) -> nodes_keyed c -> len (c_directives c) <= directive_cap ->
  let c1 := observed o now ih a c in
  let deficit := deficit_of o ih a c1 in
  let c' := reconcileArtifact o now ih a c in
  (0 < deficit ->
   exists ids, NoDup ids /\ (forall id, id ∈ ids <-> candidate o now ih c1 id) /\
     let k := Nat.min (Z.to_nat deficit) (Nat.min (room_of (c_directives c1)) (length ids)) in
     c_directives c' = c_directives c1 ++ (join ih <$> take k ids) /\
     forall key, state_of (c_replicas c') key =
       if decide (key.2 = ih /\ key.1 ∈ take k ids) then ReplicaStateRequested else state_of (c_replicas c1) key) /\
  (deficit <= 0 ->
   c_replicas c' = c_replicas c1 /\
   exists ids, (forall id, id ∈ ids -> retirable ih (c_replicas c1) id) /\
     c_directives c' = c_directives c1 ++
       (retirement ih <$> take (Nat.min (Z.to_nat (- deficit)) (room_of (c_directives c1))) ids)) /\
  len (c_directives c') <= directive_cap.
Proof.
  intros Ho Hk Hn Hcap c1 deficit c'.
  destruct (reconcileArtifact_cases o now ih a c Ho Hk Hn) as (_ & _ & _ & _ & Hpos & Hneg).
  destruct (observed_facts o now ih a c Ho Hk) as (_ & _ & _ & _ & _ & _ & ids0 & Hd).
  fold c1 in Hpos, Hneg, Hd. fold deficit c' in Hpos, Hneg.
  assert (forall q (l : list ControllerAction), len q <= directive_cap -> (length l <= room_of q)%nat ->
            len (q ++ l) <= directive_cap) as Hroom.
  { intros q l Hq Hl. unfold len, room_of, len in *. rewrite length_app. lia. }
  assert (len (c_directives c1) <= directive_cap) as Hcap1.
  { rewrite Hd. apply Hroom; [done|]. rewrite length_take. lia. }
  split; [done|]. split; [done|]. destruct (Z.lt_ge_cases 0 deficit) as [Hp|Hp].
  - destruct (Hpos Hp) as (ids & _ & _ & -> & _). apply Hroom; [done|]. rewrite length_fmap, length_take.
    unfold join_count. lia.
  - destruct (Hneg Hp) as (_ & ids & _ & ->). apply Hroom; [done|]. rewrite length_fmap, length_take. lia.
Qed.

(** ** A fleet of core nodes *)
Module DemoFleet.

Definition orders : SwarmOrders :=
  mkSwarmOrders (fun m => reverse (map_to_list m)) map_to_list map_to_list elements map_to_list.

Lemma orders_valid : valid_orders orders.
Proof. split; try done. intros m. apply reverse_Permutation. Qed.

Definition core (id : Z) : NodeIdentity :=
  (NewNodeIdentity 1000 id "host" "pk" (mkDomains "" "" "" "" "")) {{ ni_Tier := NodeTierCore }}.
Definition nodes : NodeRegistry := foldr (fun id => Register (core id)) NewNodeRegistry [1; 2; 3; 4; 5; 6; 7; 8].
Definition artifact (ih : string) (mn mx : Z) : Artifact :=
  (NewArtifact 0 ih) {{ a_MinReplicas := mn }} {{ a_MaxReplicas := mx }}.
Definition ctl : SwarmPolicyController :=
  NewSwarmPolicyController (<["small" := artifact "small" 1 1]> (<["large" := artifact "large" 6 8]> ∅)) ∅ nodes ∅.

Definition joins_for (ih : string) (c : SwarmPolicyController) : list ControllerAction :=
  filter (fun a => ac_InfoHash a = ih /\ ac_Directive a = DirectiveJoinSwarm) (c_directives c).

End DemoFleet.

Lemma nodes_keyed_demo : nodes_keyed DemoFleet.ctl.
Proof.
  intros j n Hj. assert (map_Forall (fun j n => ni_NodeID n = j) (nr_nodes DemoFleet.nodes)) as Hall.
  { apply (bool_decide_unpack _). by vm_compute. }
  by apply Hall.
Qed.

Lemma reconcile_artifact_witness :
  let c' := reconcileArtifact DemoFleet.orders 2000 "large" (DemoFleet.artifact "large" 6 8) DemoFleet.ctl in
  len (c_directives c') <= 256 /\
  exists ids, c_directives c' = join "large" <$> take (Nat.min 6 (Nat.min 256 (length ids))) ids.
Proof.
  destruct (reconcile_artifact DemoFleet.orders 2000 "large" (DemoFleet.artifact "large" 6 8) DemoFleet.ctl) as (Hp & _ & Hl).
  - apply DemoFleet.orders_valid.
  - intros k r Hr. cbn in Hr. by rewrite lookup_empty in Hr.
  - apply nodes_keyed_demo.
  - by vm_compute.
  - assert (deficit_of DemoFleet.orders "large" (DemoFleet.artifact "large" 6 8)
      (observed DemoFleet.orders 2000 "large" (DemoFleet.artifact "large" 6 8) DemoFleet.ctl) = 6) as Hdef by (by vm_compute).
    assert (c_directives (observed DemoFleet.orders 2000 "large" (DemoFleet.artifact "large" 6 8) DemoFleet.ctl) = []) as Hq
      by (by vm_compute).
    split; [exact Hl|]. rewrite Hdef, Hq in Hp. destruct Hp as (ids & _ & _ & Hd & _); [lia|].
    exists ids. rewrite Hd. by replace (room_of []) with 256%nat by (by vm_compute).
Defined.

(** The counter is shared.  One [PopularityReplicaCounter] serves every artifact of
    the controller, and its hysteresis carries the count of the artifact that
    was evaluated before: with an artifact that wants at least six replicas, a
    second one whose policy allows a single replica is given six as well. *)
Theorem shared_counter_exceeds_max :
  let c' := reconcile DemoFleet.orders 2000 DemoFleet.ctl in
  a_MaxReplicas (DemoFleet.artifact "small" 1 1) = 1 /\
  len (DemoFleet.joins_for "large" c') = 6 /\ len (DemoFleet.joins_for "small" c') = 6.
Proof. by vm_compute. Qed.

(** A pinned replica on a node that has been lost for eleven minutes. *)
Definition demo_lost : SwarmPolicyController :=
  NewSwarmPolicyController ∅ ∅
    (update_node 3 (fun n => n {{ ni_ReachState := NodeUnreachable }} {{ ni_LastFlap := Minute }}) DemoFleet.nodes)
    {[ (3, "x"%string) := mkReplica 3 "x" ReplicaPinned ReplicaStateSeeding 0 0 0 0 ]}.

Lemma grace_eviction_witness :
  exists r', c_replicas (retireGraceExpired DemoFleet.orders (12 * Minute) "x" demo_lost) !! (3, "x"%string) = Some r' /\
             r_Class r' = ReplicaPinned /\ r_State r' = ReplicaStateAbsent.
Proof.
  destruct (grace_eviction DemoFleet.orders (12 * Minute) "x" demo_lost) as (H & _).
  - apply DemoFleet.orders_valid.
  - intros k r Hr. cbn in Hr. by apply lookup_singleton_Some in Hr as [<- <-].
  - destruct (H 3 "x"%string (mkReplica 3 "x" ReplicaPinned ReplicaStateSeeding 0 0 0 0)) as (r' & Hr & Hc & Hs); [done|].
    exists r'. split; [done|]. split; [done|]. rewrite decide_True in Hs; [done|]. split; [done|]. by vm_compute.
Defined.
