(* ===== verification/ControlServer.v ===== *)
(** * The control server (tracker/control_server.go,
      tracker/control_server_ext.go, tracker/agent_heartbeat.go)

    The management API of the tracker and of the swarm controller.  A handler
    maps a request and the state to the new state and a response: a status and
    a body before JSON encoding.  The JSON decoder of each request type is a
    parameter, [None] for a body it rejects; a database write fails with the
    text [dberr] gives.  [None] as a whole answer is a panic. *)
From Stdlib Require Import String Ascii.
From S2P Require Import Prelude GoStr NetIP GoFloat GoSort TrackerTypes Whitelist TrackerDB Announce Update Server Heatmap Replica NodeRegistry Placement SwarmControl.
Open Scope list_scope.
Open Scope Z_scope.

(** ** Requests and responses *)

Record ControlRequest := mkCReq {
  cq_Method : string;
  cq_Path : string;
  cq_Authorization : string;
  cq_Query : string -> string;
  cq_Body : string;
  cq_RemoteAddr : string
}.

Record NodeJson := mkNodeJson {
  nj_NodeID : Z;
  nj_Hostname : string;
  nj_LastIP : string;
  nj_Kind : string;
  nj_Tier : string;
  nj_ReachState : string;
  nj_FlapCount : Z;
  nj_StorageFree : Z;
  nj_WANUsed : Z;
  nj_WANLimit : Z;
  nj_ASN : Z;
  nj_Rack : string;
  nj_Site : string
}.

Record ReplicaJson := mkReplicaJson {
  rj_NodeID : Z;
  rj_State : string;
  rj_Class : string;
  rj_Verified : bool
}.

Inductive ControlBody :=
| BError (msg : string)
| BMessage (msg : string)
| BStatusOk
| BApi (v : ApiValue)
| BRegistered (id : Z) (tier : string)
| BNodes (l : list NodeJson)
| BAdmission (infoHash : string) (isOpen : bool) (allow : list string)
| BEnsured (r : EnsureResult)
| BReplicas (infoHash : string) (verified : Z) (l : list ReplicaJson)
| BHeartbeat (at_ : Z).

Record ControlResponse := mkCResp { cs_Status : Z; cs_Body : ControlBody }.

Definition writeErr (status : Z) (msg : string) : ControlResponse := mkCResp status (BError msg).
Definition methodNotAllowed : ControlResponse := writeErr 405 "method not allowed".
Definition invalidJSON : ControlResponse := writeErr 400 "invalid JSON body".
Definition notConfigured : ControlResponse := writeErr 501 "swarm controller not configured".

(** The bodies of the requests. *)
Record TorrentPost := mkTorrentPost { tp_ID : Z; tp_InfoHash : string; tp_FreeType : Z }.
Record UserPost := mkUserPost {
  up_ID : Z;
  up_Passkey : string;
  up_NewPasskey : string;
  up_CanLeech : option bool;
  up_ProtectIP : option bool
}.
Record UserPatch := mkUserPatch { pt_CanLeech : option bool; pt_ProtectIP : option bool }.
Record TokenPost := mkTokenPost { kp_UserID : Z; kp_InfoHash : string }.
Record NodePost := mkNodePost {
  np_NodeID : Z;
  np_Hostname : string;
  np_Passkey : string;
  np_Rack : string;
  np_Site : string;
  np_Host : string;
  np_Network : string;
  np_Power : string;
  np_Tier : string;
  np_WANLimitBytesDay : Z;
  np_ASN : Z;
  np_Latitude : float64;
  np_Longitude : float64
}.
Record AdmissionPost := mkAdmissionPost { ap_InfoHash : string; ap_Passkeys : list string }.
Record HeartbeatPayload := mkHeartbeat {
  hb_NodeID : Z;
  hb_Passkey : string;
  hb_Hostname : string;
  hb_StorageFree : Z;
  hb_StorageTotal : Z;
  hb_CPUCount : Z;
  hb_MemoryBytes : Z;
  hb_BTClientVersion : string;
  hb_Inventory : list ReplicaInventory;
  hb_Latitude : float64;
  hb_Longitude : float64;
  hb_ASN : Z;
  hb_UploadDeltaBytes : Z
}.
Record StatePost := mkStatePost {
  st_NodeID : Z;
  st_InfoHash : string;
  st_State : string;
  st_VerifyOK : option bool
}.

(** The JSON decoders. *)
Record Decoders := mkDecoders {
  d_torrent : string -> option TorrentPost;
  d_free : string -> option (option Z);
  d_user : string -> option UserPost;
  d_patch : string -> option UserPatch;
  d_prefix : string -> option string;
  d_token : string -> option TokenPost;
  d_node : string -> option NodePost;
  d_admission : string -> option AdmissionPost;
  d_ensure : string -> option EnsureRequest;
  d_heartbeat : string -> option HeartbeatPayload;
  d_state : string -> option StatePost
}.

Record ControlConfig := mkControlConfig { cc_ControlSecret : string; cc_SitePassword : string }.

(** Which of the swarm dependencies are attached. *)
Record ControlServerExt := mkExt {
  x_controller : bool;
  x_nodes : bool;
  x_replicas : bool;
  x_admission : bool
}.

Section Server.
Context {C : Type}.

(** The tracker's torrents are shared with the controller: [k_ctl] is always
    read through [ctl_view]. *)
Record ControlState := mkControl {
  k_sys : System C;
  k_ext : option ControlServerExt;
  k_agentRoutes : bool;
  k_admission : Admission.SwarmAdmissionPolicy;
  k_ctl : SwarmPolicyController
}.

Context (config : ControlConfig) (d : Decoders) (o : SwarmOrders).
Context (torder : TorrentList -> list (string * Torrent)) (porder : PeerList -> list (string * Peer)).
Context (aorder : gset string -> list string) (dberr : AdminWrite -> option string) (now : Z).

Abbreviation Answer := (option (ControlState * ControlResponse)).

Definition ctl_view (k : ControlState) : SwarmPolicyController :=
  (k_ctl k) {{ c_torrents := w_Torrents (y_worker (k_sys k)) }}.

Definition ext_has (f : ControlServerExt -> bool) (k : ControlState) : bool :=
  match k_ext k with Some x => f x | None => false end.

Definition set_admin (a : AdminState C) (k : ControlState) : ControlState :=
  k {{ k_sys := of_admin (k_sys k) a }}.
Definition k_mem (f : Memory -> Memory) (k : ControlState) : ControlState :=
  set_admin (with_mem f (admin_of (k_sys k))) k.
Definition k_db (f : TDB -> TDB) (k : ControlState) : ControlState :=
  set_admin (with_db f (admin_of (k_sys k))) k.

(** A database write that comes after the change in memory. *)
Definition then_write (w : AdminWrite) (f : TDB -> TDB) (ok : ControlResponse) (k : ControlState) : Answer :=
  match dberr w with
  | Some e => Some (k, writeErr 500 e)
  | None => Some (k_db f k, ok)
  end.

Definition stay (r : ControlResponse) (k : ControlState) : Answer := Some (k, r).

(** [fmt.Sscanf(s, "%d", &v)]: spaces, a sign, digits; what follows is not
    read. *)
Fixpoint span_digits (s : string) : string :=
  match s with
  | EmptyString => ""
  | String ch s' => if digitb (ascii_byte ch) then String ch (span_digits s') else ""
  end.
Fixpoint skip_blank (s : string) : string :=
  match s with
  | String ch s' => if existsb (Ascii.eqb ch) [" "; "009"; "011"; "012"; "013"]%char then skip_blank s' else s
  | EmptyString => s
  end.
Definition scan_d (s : string) : option Z :=
  let s := skip_blank s in
  let '(sign, rest) := match s with
                       | String "+" r => ("+"%string, r)
                       | String "-" r => ("-"%string, r)
                       | _ => (""%string, s)
                       end in
  if String.eqb (span_digits rest) "" then None else ParseInt (sign ++ span_digits rest)%string 64.

Definition queryIntHTTP (r : ControlRequest) (key : string) (defaultVal : Z) : Z :=
  let s := cq_Query r key in
  if String.eqb s "" then defaultVal
  else match scan_d s with
       | Some v => if v <=? 0 then defaultVal else v
       | None => defaultVal
       end.

(** ** Torrents, users, whitelist, tokens *)

Definition is_method (r : ControlRequest) (m : string) : bool := String.eqb (cq_Method r) m.

Definition get_hash (r : ControlRequest) (k : ControlState) (f : string -> Answer) : Answer :=
  let hash := cq_Query r "info_hash" in
  if String.eqb hash "" then stay (writeErr 400 "info_hash query param required") k else f hash.

Definition post_torrent (r : ControlRequest) (k : ControlState) : Answer :=
  match d_torrent d (cq_Body r) with
  | None => stay invalidJSON k
  | Some req =>
      if (tp_ID req =? 0) || String.eqb (tp_InfoHash req) ""
      then stay (writeErr 400 "id and info_hash are required") k
      else match w_Torrents (y_worker (k_sys k)) !! tp_InfoHash req with
           | Some _ => stay (writeErr 409 "torrent already exists") k
           | None =>
               then_write (WRecordTorrentHash (tp_ID req) (tp_InfoHash req))
                 (db_RecordTorrentHash (tp_ID req) (tp_InfoHash req))
                 (mkCResp 201 (BMessage "torrent added"))
                 (k_mem (fun m => m {{ m_torrents ::=
                    <[tp_InfoHash req := (NewTorrent (tp_ID req)) {{ t_FreeType := tp_FreeType req }}]> }}) k)
           end
  end.

Definition patch_torrent (r : ControlRequest) (hash : string) (k : ControlState) : Answer :=
  match w_Torrents (y_worker (k_sys k)) !! hash with
  | None => stay (writeErr 404 "torrent not found") k
  | Some t =>
      match d_free d (cq_Body r) with
      | None => stay invalidJSON k
      | Some free =>
          let t := match free with Some ft => t {{ t_FreeType := ft }} | None => t end in
          Some (k_mem (fun m => m {{ m_torrents ::= <[hash := t]> }}) k, mkCResp 200 (BMessage "torrent updated"))
      end
  end.

Definition handleTorrents (r : ControlRequest) (k : ControlState) : Answer :=
  if is_method r "GET" then
    l ← GetTorrents torder (y_worker (k_sys k)) (queryIntHTTP r "limit" 100);
    Some (k, mkCResp 200 (BApi (ApiTorrents l)))
  else if is_method r "POST" then post_torrent r k
  else if is_method r "DELETE" then
    get_hash r k (fun hash =>
      Some (k_mem (fun m => m {{ m_torrents ::= delete hash }}) k, mkCResp 200 (BMessage "torrent deleted")))
  else if is_method r "PATCH" then get_hash r k (fun hash => patch_torrent r hash k)
  else stay methodNotAllowed k.

Definition change_passkey (req : UserPost) (k : ControlState) : Answer :=
  if negb (String.length (up_NewPasskey req) =? 32)%nat
  then stay (writeErr 400 "new_passkey must be 32 characters") k
  else match w_Users (y_worker (k_sys k)) !! up_Passkey req with
       | None => stay (writeErr 404 "user not found") k
       | Some u =>
           then_write (WRecordUserPasskey (u_ID u) (up_NewPasskey req))
             (db_RecordUserPasskey (u_ID u) (up_NewPasskey req) (u_CanLeech u) (u_ProtectIP u))
             (mkCResp 200 (BMessage "passkey changed"))
             (k_mem (fun m => m {{ m_users ::= fun us => <[up_NewPasskey req := u]> (delete (up_Passkey req) us) }}) k)
       end.

Definition add_user (req : UserPost) (k : ControlState) : Answer :=
  if (up_ID req =? 0) || String.eqb (up_Passkey req) ""
  then stay (writeErr 400 "id and passkey are required") k
  else if negb (String.length (up_Passkey req) =? 32)%nat
  then stay (writeErr 400 "passkey must be 32 characters") k
  else match w_Users (y_worker (k_sys k)) !! up_Passkey req with
       | Some _ => stay (writeErr 409 "passkey already exists") k
       | None =>
           let canLeech := default true (up_CanLeech req) in
           let protectIP := default false (up_ProtectIP req) in
           then_write (WRecordUserPasskey (up_ID req) (up_Passkey req))
             (db_RecordUserPasskey (up_ID req) (up_Passkey req) canLeech protectIP)
             (mkCResp 201 (BMessage "user added"))
             (k_mem (fun m => m {{ m_users ::= <[up_Passkey req := NewUser (up_ID req) canLeech protectIP]> }}) k)
       end.

Definition patch_user (r : ControlRequest) (passkey : string) (k : ControlState) : Answer :=
  match w_Users (y_worker (k_sys k)) !! passkey with
  | None => stay (writeErr 404 "user not found") k
  | Some u =>
      match d_patch d (cq_Body r) with
      | None => stay invalidJSON k
      | Some req =>
          let u := u {{ u_CanLeech := default (u_CanLeech u) (pt_CanLeech req) }} in
          let u := u {{ u_ProtectIP := default (u_ProtectIP u) (pt_ProtectIP req) }} in
          Some (k_mem (fun m => m {{ m_users ::= <[passkey := u]> }}) k, mkCResp 200 (BMessage "user updated"))
      end
  end.

Definition get_passkey (r : ControlRequest) (k : ControlState) (f : string -> Answer) : Answer :=
  let passkey := cq_Query r "passkey" in
  if String.eqb passkey "" then stay (writeErr 400 "passkey query param required") k else f passkey.

Definition handleUsers (r : ControlRequest) (k : ControlState) : Answer :=
  if is_method r "POST" then
    match d_user d (cq_Body r) with
    | None => stay invalidJSON k
    | Some req => if String.eqb (up_NewPasskey req) "" then add_user req k else change_passkey req k
    end
  else if is_method r "PATCH" then get_passkey r k (fun passkey => patch_user r passkey k)
  else if is_method r "DELETE" then
    get_passkey r k (fun passkey =>
      Some (k_mem (fun m => m {{ m_users ::= delete passkey }}) k, mkCResp 200 (BMessage "user removed")))
  else stay methodNotAllowed k.

Definition handleWhitelist (r : ControlRequest) (k : ControlState) : Answer :=
  if is_method r "GET" then
    Some (k, mkCResp 200 (BApi (ApiWhitelist (w_Whitelist (y_worker (k_sys k))))))
  else if is_method r "POST" then
    let prefix := default ""%string (d_prefix d (cq_Body r)) in
    if String.eqb prefix "" then stay (writeErr 400 "prefix required") k
    else then_write (WAddWhitelist prefix) (db_AddWhitelistEntry prefix) (mkCResp 201 (BMessage "entry added"))
           (k_mem (fun m => m {{ m_whitelist ::= fun wl => Whitelist.Add wl prefix }}) k)
  else if is_method r "DELETE" then
    let prefix := cq_Query r "prefix" in
    if String.eqb prefix "" then stay (writeErr 400 "prefix query param required") k
    else then_write (WRemoveWhitelist prefix) (db_RemoveWhitelistEntry prefix)
           (mkCResp 200 (BMessage "entry removed"))
           (k_mem (fun m => m {{ m_whitelist ::= fun wl => Whitelist.Remove wl prefix }}) k)
  else stay methodNotAllowed k.

Definition handleTokens (r : ControlRequest) (k : ControlState) : Answer :=
  match d_token d (cq_Body r) with
  | None => stay invalidJSON k
  | Some req =>
      if (kp_UserID req =? 0) || String.eqb (kp_InfoHash req) ""
      then stay (writeErr 400 "user_id and info_hash are required") k
      else match w_Torrents (y_worker (k_sys k)) !! kp_InfoHash req with
           | None => stay (writeErr 404 "torrent not found") k
           | Some t =>
               let set us := k_mem (fun m => m {{ m_torrents ::= <[kp_InfoHash req := t {{ t_TokenedUsers := us }}]> }}) k in
               if is_method r "POST" then
                 Some (set ({[kp_UserID req]} ∪ t_TokenedUsers t), mkCResp 200 (BMessage "token added"))
               else if is_method r "DELETE" then
                 Some (set (t_TokenedUsers t ∖ {[kp_UserID req]}), mkCResp 200 (BMessage "token removed"))
               else stay methodNotAllowed k
           end
  end.

Definition handleAPIStats (r : ControlRequest) (k : ControlState) : Answer :=
  if is_method r "GET" then Some (k, mkCResp 200 (BApi (ApiStats (GetStats now (y_worker (k_sys k))))))
  else stay methodNotAllowed k.

Definition handleAPIPeers (r : ControlRequest) (k : ControlState) : Answer :=
  if is_method r "GET" then
    get_hash r k (fun hash =>
      res ← GetPeers porder (y_worker (k_sys k)) hash (queryIntHTTP r "limit" 100);
      match res with
      | Err e => stay (writeErr 404 e) k
      | Ok l => Some (k, mkCResp 200 (BApi (ApiPeers l)))
      end)
  else stay methodNotAllowed k.

(** ** Nodes, admission, replicas *)

Definition parseTier (s : string) : NodeTier :=
  if String.eqb s "edge" || String.eqb s "EDGE" then NodeTierEdge
  else if String.eqb s "regional" || String.eqb s "REGIONAL" then NodeTierRegional
  else NodeTierCore.

Definition set_nodes (f : NodeRegistry -> NodeRegistry) (k : ControlState) : ControlState :=
  k {{ k_ctl -> c_nodes ::= f }}.
Definition set_replicas (f : NodeReplicaMap -> NodeReplicaMap) (k : ControlState) : ControlState :=
  k {{ k_ctl -> c_replicas ::= f }}.

Definition node_json (n : NodeIdentity) : NodeJson :=
  mkNodeJson (ni_NodeID n) (ni_Hostname n) (ni_LastIP n) (PeerKind_String (ni_Kind n))
    (NodeTier_String (ni_Tier n)) (ReachState_String (ni_ReachState n)) (ni_FlapCount n)
    (nc_StorageFreeBytes (ni_Caps n)) (w_UsedBytesThisDay (ni_WAN n)) (w_LimitBytesPerDay (ni_WAN n))
    (ni_ASN n) (fd_Rack (ni_Domains n)) (fd_Site (ni_Domains n)).

Definition posted_node (req : NodePost) : NodeIdentity :=
  let n := NewNodeIdentity now (np_NodeID req) (np_Hostname req) (np_Passkey req)
             (mkDomains (np_Host req) (np_Rack req) (np_Site req) (np_Network req) (np_Power req)) in
  n {{ ni_Tier := parseTier (np_Tier req) }} {{ ni_WAN -> w_LimitBytesPerDay := np_WANLimitBytesDay req }}
    {{ ni_ASN := np_ASN req }} {{ ni_Geo := mkGeo (np_Latitude req) (np_Longitude req) }}.

Definition handleNodeRegister (r : ControlRequest) (k : ControlState) : Answer :=
  match d_node d (cq_Body r) with
  | None => stay invalidJSON k
  | Some req =>
      if (np_NodeID req =? 0) || String.eqb (np_Hostname req) ""
      then stay (writeErr 400 "node_id and hostname are required") k
      else Some (set_nodes (Register (posted_node req)) k,
                 mkCResp 201 (BRegistered (np_NodeID req) (NodeTier_String (parseTier (np_Tier req)))))
  end.

Definition handleNodeUnregister (r : ControlRequest) (k : ControlState) : Answer :=
  let idStr := cq_Query r "node_id" in
  if String.eqb idStr "" then stay (writeErr 400 "node_id query param required") k
  else match ParseUint idStr 64 with
       | None => stay (writeErr 400 "invalid node_id") k
       | Some id => Some (set_nodes (Unregister id) k, mkCResp 200 (BMessage "node unregistered"))
       end.

Definition handleNodes (r : ControlRequest) (k : ControlState) : Answer :=
  if negb (ext_has x_nodes k) then stay notConfigured k
  else if is_method r "GET" then
    Some (k, mkCResp 200 (BNodes (node_json <$> (o_nodes o (nr_nodes (c_nodes (k_ctl k)))).*2)))
  else if is_method r "POST" then handleNodeRegister r k
  else if is_method r "DELETE" then handleNodeUnregister r k
  else stay methodNotAllowed k.

Definition handleAdmission (r : ControlRequest) (k : ControlState) : Answer :=
  if negb (ext_has x_admission k) then stay notConfigured k
  else if is_method r "GET" then
    get_hash r k (fun hash =>
      let '(pks, isOpen) := Admission.AllowList aorder (k_admission k) hash in
      Some (k, mkCResp 200 (BAdmission hash isOpen pks)))
  else if is_method r "POST" then
    match d_admission d (cq_Body r) with
    | None => stay (writeErr 400 "info_hash required") k
    | Some req =>
        if String.eqb (ap_InfoHash req) "" then stay (writeErr 400 "info_hash required") k
        else Some (k {{ k_admission ::= fun p => Admission.SetACL p (ap_InfoHash req) (ap_Passkeys req) }},
                   mkCResp 200 (BMessage "ACL updated"))
    end
  else if is_method r "DELETE" then
    get_hash r k (fun hash =>
      let passkey := cq_Query r "passkey" in
      if String.eqb passkey "" then
        Some (k {{ k_admission ::= fun p => Admission.SetOpen p hash }}, mkCResp 200 (BMessage "ACL cleared"))
      else
        Some (k {{ k_admission ::= fun p => Admission.RemovePasskey p hash passkey }},
              mkCResp 200 (BMessage "passkey removed from ACL")))
  else stay methodNotAllowed k.

Definition handleComputeEnsure (r : ControlRequest) (k : ControlState) : Answer :=
  if negb (ext_has x_controller k) then stay notConfigured k
  else if negb (is_method r "POST") then stay methodNotAllowed k
  else match d_ensure d (cq_Body r) with
       | None => stay invalidJSON k
       | Some req =>
           if String.eqb (en_InfoHash req) "" || (en_NodeID req =? 0)
           then stay (writeErr 400 "info_hash and node_id are required") k
           else
             let '(c, outcome) := EnsureArtifact now req (ctl_view k) in
             Some (k {{ k_ctl := c }},
                   match outcome with
                   | Err e => writeErr 400 e
                   | Ok res => mkCResp 200 (BEnsured res)
                   end)
       end.

Definition handleReplicas (r : ControlRequest) (k : ControlState) : Answer :=
  if negb (ext_has x_replicas k) then stay notConfigured k
  else if negb (is_method r "GET") then stay methodNotAllowed k
  else get_hash r k (fun hash =>
    let m := c_replicas (k_ctl k) in
    let out := (fun kr => let s := r_State kr.2 in
                  mkReplicaJson (r_NodeID kr.2) (NodeReplicaState_String s) (ReplicaClass_String (r_Class kr.2))
                    (CountsAsVerified s)) <$> ForHash (o_replicas o) hash m in
    Some (k, mkCResp 200 (BReplicas hash (VerifiedCount (o_replicas o) hash m) out))).

(** ** Agents *)

(** The text before the last colon. *)
Definition clientIP (remoteAddr : string) : string :=
  match String.index 0 ":" (string_of_bytes (rev (bytes_of_string remoteAddr))) with
  | Some i => String.substring 0 (String.length remoteAddr - 1 - i) remoteAddr
  | None => remoteAddr
  end.

Definition beat (r : ControlRequest) (payload : HeartbeatPayload) (n : NodeIdentity) : NodeIdentity :=
  let caps := mkCaps (hb_StorageFree payload) (hb_StorageTotal payload) (hb_CPUCount payload)
                (hb_MemoryBytes payload) 0 (hb_BTClientVersion payload) in
  let n := HeartbeatWithGeo now (clientIP (cq_RemoteAddr r)) caps
             (mkGeo (hb_Latitude payload) (hb_Longitude payload)) (hb_ASN payload) n in
  if 0 <? hb_UploadDeltaBytes payload
  then n {{ ni_WAN ::= RecordUpload now (hb_UploadDeltaBytes payload) }} else n.

Definition handleAgentHeartbeat (r : ControlRequest) (k : ControlState) : Answer :=
  if negb (is_method r "POST") then stay methodNotAllowed k
  else if negb (ext_has x_nodes k) then stay notConfigured k
  else match d_heartbeat d (cq_Body r) with
       | None => stay invalidJSON k
       | Some payload =>
           if hb_NodeID payload =? 0 then stay (writeErr 400 "node_id required") k
           else match NGet (hb_NodeID payload) (c_nodes (k_ctl k)) with
                | None => stay (writeErr 404 "node not registered; call POST /api/v1/nodes first") k
                | Some _ =>
                    let k := set_nodes (update_node (hb_NodeID payload) (beat r payload)) k in
                    let k := if ext_has x_replicas k
                             then set_replicas (fun m => foldl (fun m inv => reconcileInventory now (hb_NodeID payload) inv m)
                                                           m (hb_Inventory payload)) k
                             else k in
                    Some (k, mkCResp 200 (BHeartbeat now))
                end
       end.

Definition handleAgentStateUpdate (r : ControlRequest) (k : ControlState) : Answer :=
  if negb (is_method r "POST") then stay methodNotAllowed k
  else if negb (ext_has x_replicas k) then stay notConfigured k
  else match d_state d (cq_Body r) with
       | None => stay invalidJSON k
       | Some req =>
           if (st_NodeID req =? 0) || String.eqb (st_InfoHash req) "" || String.eqb (st_State req) ""
           then stay (writeErr 400 "node_id, info_hash, and state are required") k
           else
             let verify := match st_VerifyOK req with
                           | None => "" | Some true => "hash_ok" | Some false => "hash_fail"
                           end%string in
             let inv := mkInventory (st_InfoHash req) (st_State req) verify (of_int 0) 0 in
             Some (set_replicas (reconcileInventory now (st_NodeID req) inv) k, mkCResp 200 BStatusOk)
       end.

(** ** Routing *)

(** [strings.TrimPrefix(auth, "Bearer ")] *)
Definition trim_bearer (auth : string) : string :=
  if String.prefix "Bearer " auth then String.substring 7 (String.length auth - 7) auth else auth.

Definition authMiddleware (next : ControlRequest -> ControlState -> Answer) (r : ControlRequest) (k : ControlState)
    : Answer :=
  let token := trim_bearer (cq_Authorization r) in
  let expected := if String.eqb (cc_ControlSecret config) "" then cc_SitePassword config else cc_ControlSecret config in
  if String.eqb token "" || negb (String.eqb token expected) then stay (writeErr 401 "unauthorized") k
  else next r k.

(** The patterns registered by [NewControlServer], [AttachControllerDeps] and
    [RegisterAgentRoutes]. *)
Definition route (path : string) (k : ControlState) : option (ControlRequest -> ControlState -> Answer) :=
  if String.eqb path "/api/v1/torrents" then Some handleTorrents
  else if String.eqb path "/api/v1/users" then Some handleUsers
  else if String.eqb path "/api/v1/whitelist" then Some handleWhitelist
  else if String.eqb path "/api/v1/tokens" then Some handleTokens
  else if String.eqb path "/api/v1/stats" then Some handleAPIStats
  else if String.eqb path "/api/v1/peers" then Some handleAPIPeers
  else match k_ext k with
       | None => None
       | Some _ =>
           if String.eqb path "/api/v1/nodes" then Some handleNodes
           else if String.eqb path "/api/v1/admission" then Some handleAdmission
           else if String.eqb path "/api/v1/compute/ensure" then Some handleComputeEnsure
           else if String.eqb path "/api/v1/replicas" then Some handleReplicas
           else None
       end.

Definition agent_route (path : string) (k : ControlState) : option (ControlRequest -> ControlState -> Answer) :=
  if k_agentRoutes k then
    if String.eqb path "/api/v1/agent/heartbeat" then Some handleAgentHeartbeat
    else if String.eqb path "/api/v1/agent/state" then Some handleAgentStateUpdate
    else None
  else None.

Definition ServeControl (r : ControlRequest) (k : ControlState) : Answer :=
  match route (cq_Path r) k with
  | Some h => authMiddleware h r k
  | None =>
      match agent_route (cq_Path r) k with
      | Some h => authMiddleware h r k
      | None => stay (writeErr 404 "404 page not found") k
      end
  end.

End Server.
Arguments ControlState C : clear implicits.
