(* ===== verification/ControlSpec.v ===== *)
(** * Theorems about the control server

    Authentication of every route, and the histories of the swarm: requests,
    controller ticks and deliveries in any order.  A replica counts as verified
    only after an agent has confirmed its hash. *)
From Stdlib Require Import String Ascii.
From S2P Require Import Prelude GoStr NetIP GoFloat GoSort TrackerTypes Whitelist TrackerDB Announce Update Server Heatmap Replica NodeRegistry Placement PlacementSpec SwarmControl SwarmSpec ControlServer.
Open Scope list_scope.
Open Scope Z_scope.

(** ** Authentication *)

Definition token_ok (config : ControlConfig) (auth : string) : bool :=
  let token := trim_bearer auth in
  let expected := if String.eqb (cc_ControlSecret config) "" then cc_SitePassword config else cc_ControlSecret config in
  negb (String.eqb token "") && String.eqb token expected.

(** A bearer token is read back from its header. *)
Lemma substring_all s : String.substring 0 (String.length s) s = s.
Proof. induction s as [|c s IH]; [done|]. cbn. by rewrite IH. Qed.

Lemma trim_bearer_token s : trim_bearer ("Bearer " ++ s) = s.
Proof.
  unfold trim_bearer. assert (String.prefix "Bearer " ("Bearer " ++ s) = true) as -> by (cbn; by destruct s).
  change (String.length ("Bearer " ++ s) - 7)%nat with (String.length s - 0)%nat. rewrite Nat.sub_0_r.
  exact (substring_all s).
Qed.

(** Decides the tests of a known state. *)
Ltac known_states :=
  repeat first [rewrite bool_decide_eq_true_2 by done | rewrite bool_decide_eq_false_2 by done].

Section Histories.
Context {C : Type} (config : ControlConfig) (d : Decoders).
Context (torder : TorrentList -> list (string * Torrent)) (porder : PeerList -> list (string * Peer)).
Context (aorder : gset string -> list string).
Implicit Types (k : ControlState C).

(** ** Histories *)

(** What happens to the control plane: a request, a tick of the controller's
    loop, or the transport taking a directive from the channel. *)
Inductive SwarmOp :=
| OpRequest (r : ControlRequest) (dberr : AdminWrite -> option string)
| OpTick (interval : Z)
| OpReceive.

(** Each with the clock and the iteration orders at that time. *)
Record SwarmStep := mkStep { ss_op : SwarmOp; ss_now : Z; ss_orders : SwarmOrders }.

Definition swarm_step k (s : SwarmStep) : ControlState C :=
  match ss_op s with
  | OpRequest r dberr =>
      match ServeControl config d (ss_orders s) torder porder aorder dberr (ss_now s) r k with
      | Some (k', _) => k'
      | None => k
      end
  | OpTick interval => k {{ k_ctl := (run_tick (ss_orders s) (ss_now s) interval (ctl_view k)).1 }}
  | OpReceive =>
      match receive (k_ctl k) with
      | Some (_, c) => k {{ k_ctl := c }}
      | None => k
      end
  end.

(** The report by which an agent confirms the hash of a replica. *)
Definition reports_ok (ih : string) (inv : ReplicaInventory) : Prop :=
  inv_InfoHash inv = ih /\ inv_State inv = "seeding"%string /\ inv_VerifyState inv = "hash_ok"%string.

Definition confirms (id : Z) (ih : string) (s : SwarmStep) : Prop :=
  exists r dberr, ss_op s = OpRequest r dberr /\ cq_Method r = "POST"%string /\ token_ok config (cq_Authorization r) = true /\
    ((cq_Path r = "/api/v1/agent/heartbeat"%string /\
      exists p inv, d_heartbeat d (cq_Body r) = Some p /\ hb_NodeID p = id /\ inv ∈ hb_Inventory p /\ reports_ok ih inv) \/
     (cq_Path r = "/api/v1/agent/state"%string /\
      exists p, d_state d (cq_Body r) = Some p /\ st_NodeID p = id /\ st_InfoHash p = ih /\
                st_State p = "seeding"%string /\ st_VerifyOK p = Some true)).

(** ** Reports *)

Lemma advance_state now next r :
  r_State (advance now next r) = if nodeReplicaTransitions (r_State r) next then next else r_State r.
Proof.
  unfold advance, RTransition. destruct (decide (r_State r = next)) as [E|]; cbn.
  - rewrite E. by destruct next.
  - by destruct (nodeReplicaTransitions _ _).
Qed.

Lemma inventory_step_key now inv r :
  r_NodeID (inventory_step now inv r) = r_NodeID r /\ r_InfoHash (inventory_step now inv r) = r_InfoHash r.
Proof.
  assert (forall next r', r_NodeID (advance now next r') = r_NodeID r' /\ r_InfoHash (advance now next r') = r_InfoHash r') as Ha
    by (intros; apply RTransition_key).
  unfold inventory_step. repeat case_match; rewrite ?(proj1 (Ha _ _)), ?(proj2 (Ha _ _)); done.
Qed.

(** A report makes a replica verified only from [HASH_VERIFY], with [hash_ok]. *)
Lemma inventory_step_verified now inv r :
  CountsAsVerified (r_State (inventory_step now inv r)) = true ->
  CountsAsVerified (r_State r) = true \/
  (r_State r = ReplicaStateHashVerify /\ inv_State inv = "seeding"%string /\ inv_VerifyState inv = "hash_ok"%string).
Proof.
  unfold inventory_step. destruct (String.eqb_spec (inv_State inv) "swarming"); cbn [orb].
  { case_bool_decide as E; [|by left]. rewrite advance_state, E. done. }
  destruct (String.eqb_spec (inv_State inv) "complete").
  { destruct (r_State r) eqn:E; known_states; cbn [orb]; rewrite ?advance_state, ?E; cbn; try done; auto. }
  destruct (String.eqb_spec (inv_State inv) "seeding").
  { destruct (r_State r) eqn:E; known_states; cbn [orb]; rewrite ?advance_state, ?E; cbn; try done; auto.
    destruct (String.eqb_spec (inv_VerifyState inv) "hash_ok"); [by right|].
    destruct (String.eqb_spec (inv_VerifyState inv) "hash_fail"); rewrite ?advance_state, ?E; done. }
  destruct (_ || _); [|by left]. destruct (r_State r) eqn:E; known_states; cbn [orb]; rewrite ?advance_state, ?E; cbn; try done; auto.
Qed.

(** What one report, or a list of them, does to the registry of replicas. *)
Definition only_confirmed (id : Z) (invs : list ReplicaInventory) (m m' : NodeReplicaMap) : Prop :=
  forall key, CountsAsVerified (state_of m' key) = true ->
    CountsAsVerified (state_of m key) = true \/ (key.1 = id /\ exists inv, inv ∈ invs /\ reports_ok key.2 inv).

Lemma reconcileInventory_confirmed now id inv m :
  keyed m -> keyed (reconcileInventory now id inv m) /\ only_confirmed id [inv] m (reconcileInventory now id inv m).
Proof.
  intros Hk. unfold reconcileInventory, RGet. destruct (m !! (id, inv_InfoHash inv)) as [r|] eqn:E; [|split; [done|by left]].
  pose proof (Hk _ _ E) as Hkey. destruct (inventory_step_key now inv r) as [H1 H2]. split.
  - rewrite Hkey, <- H1, <- H2. by apply keyed_insert.
  - intros key. rewrite state_of_insert. destruct (decide (key = (id, inv_InfoHash inv))) as [->|]; [|by left].
    intros [Hv|(_ & Hs & Hok)]%inventory_step_verified.
    + left. unfold state_of. by rewrite E.
    + right. split; [done|]. exists inv. split; [by apply list_elem_of_singleton|]. by split_and!.
Qed.

Lemma inventories_confirmed now id invs m :
  keyed m -> let m' := foldl (fun m inv => reconcileInventory now id inv m) m invs in
  keyed m' /\ only_confirmed id invs m m'.
Proof.
  revert m. induction invs as [|inv invs IH]; intros m Hk; cbn [foldl]; [split; [done|by left]|].
  destruct (reconcileInventory_confirmed now id inv m Hk) as [Hk1 Hc1]. destruct (IH _ Hk1) as [Hk2 Hc2].
  split; [done|]. intros key Hv. apply Hc2 in Hv as [Hv|(Hid & inv' & Hin & Hr)].
  - apply Hc1 in Hv as [Hv|(Hid & inv' & ->%list_elem_of_singleton & Hr)]; [by left|].
    right. split; [done|]. exists inv. split; [by left|done].
  - right. split; [done|]. exists inv'. split; [by right|done].
Qed.

(** ** Steps *)

Definition swarm_inv k : Prop := keyed (c_replicas (k_ctl k)) /\ nodes_keyed (k_ctl k).

(** An answer that leaves the controller as it was. *)
Definition keeps_ctl k (ans : option (ControlState C * ControlResponse)) : Prop :=
  match ans with Some (k', _) => k_ctl k' = k_ctl k | None => True end.

Lemma k_ctl_mem f k : k_ctl (k_mem f k) = k_ctl k.
Proof. by destruct k. Qed.
Lemma k_ctl_db f k : k_ctl (k_db f k) = k_ctl k.
Proof. by destruct k. Qed.
Lemma k_ctl_admission f k : k_ctl (k {{ k_admission ::= f }}) = k_ctl k.
Proof. by destruct k. Qed.

Lemma tracker_handlers_keep o dberr now r k h :
  h = handleTorrents d torder dberr \/ h = handleUsers d dberr \/ h = handleWhitelist d dberr \/ h = handleTokens d \/
  h = handleAPIStats now \/ h = handleAPIPeers porder \/ h = handleAdmission d aorder \/ h = handleReplicas o ->
  keeps_ctl k (h r k).
Proof.
  intros [->|[->|[->|[->|[->|[->|[->| ->]]]]]]].
  - unfold handleTorrents, post_torrent, patch_torrent, get_hash, GetTorrents, keeps_ctl, then_write, stay.
    repeat (case_match; simplify_eq/=; try done); rewrite ?k_ctl_db, ?k_ctl_mem; done.
  - unfold handleUsers, add_user, change_passkey, patch_user, get_passkey, keeps_ctl, then_write, stay.
    repeat (case_match; simplify_eq/=; try done); rewrite ?k_ctl_db, ?k_ctl_mem; done.
  - unfold handleWhitelist, keeps_ctl, then_write, stay.
    repeat (case_match; simplify_eq/=; try done); rewrite ?k_ctl_db, ?k_ctl_mem; done.
  - unfold handleTokens, keeps_ctl, then_write, stay.
    repeat (case_match; simplify_eq/=; try done); rewrite ?k_ctl_db, ?k_ctl_mem; done.
  - unfold handleAPIStats, keeps_ctl, stay. by repeat (case_match; simplify_eq/=; try done).
  - unfold handleAPIPeers, get_hash, GetPeers, keeps_ctl, stay. by repeat (case_match; simplify_eq/=; try done).
  - unfold handleAdmission, get_hash, keeps_ctl, stay.
    repeat (case_match; simplify_eq/=; try done); rewrite ?k_ctl_admission; done.
  - unfold handleReplicas, get_hash, keeps_ctl, stay. by repeat (case_match; simplify_eq/=; try done).
Qed.

(** Only what agents report makes a replica verified, and no step adds to the
    index of nodes by address. *)
Definition step_ok id_confirms k k' : Prop :=
  swarm_inv k' /\ nr_byIP (c_nodes (k_ctl k')) ⊆ nr_byIP (c_nodes (k_ctl k)) /\
  forall id ih, CountsAsVerified (state_of (c_replicas (k_ctl k')) (id, ih)) = true ->
    CountsAsVerified (state_of (c_replicas (k_ctl k)) (id, ih)) = true \/ id_confirms id ih.

Lemma step_ok_keep P k k' : swarm_inv k -> k_ctl k' = k_ctl k -> step_ok P k k'.
Proof. intros Hi E. unfold step_ok, swarm_inv. rewrite E. split; [done|]. split; [done|]. auto. Qed.

Lemma set_nodes_ctl f k :
  c_replicas (k_ctl (set_nodes f k)) = c_replicas (k_ctl k) /\ c_nodes (k_ctl (set_nodes f k)) = f (c_nodes (k_ctl k)).
Proof. destruct k as [s e a ad c]. by destruct c. Qed.
Lemma set_replicas_ctl f k :
  c_replicas (k_ctl (set_replicas f k)) = f (c_replicas (k_ctl k)) /\ c_nodes (k_ctl (set_replicas f k)) = c_nodes (k_ctl k).
Proof. destruct k as [s e a ad c]. by destruct c. Qed.

Lemma step_ok_nodes P k f :
  swarm_inv k ->
  (forall j n, nr_nodes (f (c_nodes (k_ctl k))) !! j = Some n -> ni_NodeID n = j) ->
  nr_byIP (f (c_nodes (k_ctl k))) ⊆ nr_byIP (c_nodes (k_ctl k)) ->
  step_ok P k (set_nodes f k).
Proof.
  intros [Hk Hn] Hf Hip. destruct (set_nodes_ctl f k) as [E1 E2]. unfold step_ok, swarm_inv, nodes_keyed.
  rewrite E1, E2. split; [done|]. split; [done|]. auto.
Qed.

Lemma handleNodes_ok P o now r k k' resp :
  swarm_inv k -> handleNodes d o now r k = Some (k', resp) -> step_ok P k k'.
Proof.
  intros Hi. pose proof Hi as [_ Hn]. unfold handleNodes, stay. destruct (negb _); [by intros [= <- _]; apply step_ok_keep|].
  destruct (is_method r "GET"); [by intros [= <- _]; apply step_ok_keep|].
  destruct (is_method r "POST").
  - unfold handleNodeRegister, stay. destruct (d_node d (cq_Body r)) as [req|]; [|by intros [= <- _]; apply step_ok_keep].
    destruct (_ || _); intros [= <- _]; [by apply step_ok_keep|]. apply step_ok_nodes; [done| |by destruct (c_nodes (k_ctl k))]. intros j n Hj.
    assert (nr_nodes (Register (posted_node now req) (c_nodes (k_ctl k))) =
            <[np_NodeID req := posted_node now req]> (nr_nodes (c_nodes (k_ctl k)))) as E.
    { by destruct (c_nodes (k_ctl k)). }
    rewrite E in Hj. apply lookup_insert_Some in Hj as [[<- <-]|[_ Hj]]; [done|by apply Hn].
  - destruct (is_method r "DELETE"); [|by intros [= <- _]; apply step_ok_keep].
    unfold handleNodeUnregister, stay. destruct (String.eqb _ _); [by intros [= <- _]; apply step_ok_keep|].
    destruct (ParseUint _ _) as [id|]; intros [= <- _]; [|by apply step_ok_keep]. apply step_ok_nodes; [done| |].
    2: { unfold Unregister. destruct (c_nodes (k_ctl k)) as [ns ips]. cbn. destruct (ns !! id); [apply delete_subseteq|done]. }
    intros j n Hj. assert (nr_nodes (Unregister id (c_nodes (k_ctl k))) = delete id (nr_nodes (c_nodes (k_ctl k)))) as E.
    { unfold Unregister. destruct (c_nodes (k_ctl k)) as [ns ips]. cbn. by destruct (ns !! id). }
    rewrite E in Hj. apply lookup_delete_Some in Hj as [_ Hj]. by apply Hn.
Qed.

Lemma handleComputeEnsure_ok P now r k k' resp :
  swarm_inv k -> handleComputeEnsure d now r k = Some (k', resp) -> step_ok P k k'.
Proof.
  intros Hi. pose proof Hi as [Hk Hn]. unfold handleComputeEnsure, stay.
  destruct (negb _); [by intros [= <- _]; apply step_ok_keep|]. destruct (negb _); [by intros [= <- _]; apply step_ok_keep|].
  destruct (d_ensure d (cq_Body r)) as [req|]; [|by intros [= <- _]; apply step_ok_keep].
  destruct (_ || _); [by intros [= <- _]; apply step_ok_keep|].
  pose proof (EnsureArtifact_safe now req (ctl_view k)) as Hs. cbn zeta in Hs.
  destruct (EnsureArtifact now req (ctl_view k)) as [c out]. cbn [fst] in Hs. intros Heq.
  assert (k_ctl k' = c) as E by (injection Heq as <- _; by destruct k). clear Heq.
  assert (c_replicas (ctl_view k) = c_replicas (k_ctl k) /\ c_nodes (ctl_view k) = c_nodes (k_ctl k)) as [E1 E2].
  { unfold ctl_view. by destruct (k_ctl k). }
  rewrite E1, E2 in Hs. destruct (Hs Hk) as (Hk' & Hn' & Hv).
  unfold step_ok, swarm_inv. rewrite E. split; [split; [done|unfold nodes_keyed; by rewrite Hn']|]. split; [by rewrite Hn'|]. intros id ih Hc.
  left. by apply (Hv (id, ih)).
Qed.

Lemma beat_id now r p n : ni_NodeID (beat now r p n) = ni_NodeID n.
Proof.
  unfold beat, HeartbeatWithGeo, Heartbeat. destruct n as [f0 f1 f2 f3 f4 f5 f6 f7 f8 f9 f10 f11 f12 rs fc fl]. cbn.
  destruct (GeoIsZero _), (_ =? _), (0 <? _); done.
Qed.

Lemma handleAgentHeartbeat_ok now r k k' resp :
  swarm_inv k -> handleAgentHeartbeat d now r k = Some (k', resp) ->
  step_ok (fun id ih => cq_Method r = "POST"%string /\ exists p inv,
    d_heartbeat d (cq_Body r) = Some p /\ hb_NodeID p = id /\ inv ∈ hb_Inventory p /\ reports_ok ih inv) k k'.
Proof.
  intros Hi. pose proof Hi as [Hk Hn]. unfold handleAgentHeartbeat, stay, is_method.
  destruct (String.eqb_spec (cq_Method r) "POST") as [Hp|]; cbn [negb]; [|by intros [= <- _]; apply step_ok_keep].
  destruct (negb _); [by intros [= <- _]; apply step_ok_keep|].
  destruct (d_heartbeat d (cq_Body r)) as [p|]; [|by intros [= <- _]; apply step_ok_keep].
  destruct (_ =? 0); [by intros [= <- _]; apply step_ok_keep|].
  destruct (NGet _ _) as [n|]; [|by intros [= <- _]; apply step_ok_keep].
  set (k1 := set_nodes _ k). intros [= <- _].
  assert (step_ok (fun _ _ => False) k k1) as [[Hk1 Hn1] [Hip1 Hv1]].
  { apply step_ok_nodes; [done| |by destruct (c_nodes (k_ctl k))]. intros j m. rewrite update_node_lookup.
    destruct (nr_nodes (c_nodes (k_ctl k)) !! j) as [m0|] eqn:E; [|by destruct (decide _)]. specialize (Hn j m0 E).
    destruct (decide _); cbn; intros [= <-]; [by rewrite beat_id|done]. }
  destruct (ext_has x_replicas k1); [|split; [done|]; split; [done|]; intros id ih Hc; destruct (Hv1 id ih Hc) as [?|[]]; by left].
  destruct (inventories_confirmed now (hb_NodeID p) (hb_Inventory p) (c_replicas (k_ctl k1)) Hk1) as [Hk2 Hc2].
  destruct (set_replicas_ctl (fun m => foldl (fun m inv => reconcileInventory now (hb_NodeID p) inv m) m (hb_Inventory p)) k1) as [E1 E2].
  unfold step_ok, swarm_inv, nodes_keyed. rewrite E1, E2. split; [done|]. split; [done|]. intros id ih Hc.
  apply Hc2 in Hc as [Hc|(Hid & inv & Hin & Hr)].
  - left. destruct (Hv1 id ih Hc) as [?|[]]; done.
  - right. split; [done|]. exists p, inv. by split_and!.
Qed.

Lemma handleAgentStateUpdate_ok now r k k' resp :
  swarm_inv k -> handleAgentStateUpdate d now r k = Some (k', resp) ->
  step_ok (fun id ih => cq_Method r = "POST"%string /\ exists p,
    d_state d (cq_Body r) = Some p /\ st_NodeID p = id /\ st_InfoHash p = ih /\
    st_State p = "seeding"%string /\ st_VerifyOK p = Some true) k k'.
Proof.
  intros Hi. pose proof Hi as [Hk Hn]. unfold handleAgentStateUpdate, stay, is_method.
  destruct (String.eqb_spec (cq_Method r) "POST") as [Hp|]; cbn [negb]; [|by intros [= <- _]; apply step_ok_keep].
  destruct (negb _); [by intros [= <- _]; apply step_ok_keep|].
  destruct (d_state d (cq_Body r)) as [p|]; [|by intros [= <- _]; apply step_ok_keep].
  destruct (_ || _); [by intros [= <- _]; apply step_ok_keep|]. intros [= <- _].
  set (inv := mkInventory _ _ _ _ _).
  destruct (reconcileInventory_confirmed now (st_NodeID p) inv (c_replicas (k_ctl k)) Hk) as [Hk2 Hc2].
  destruct (set_replicas_ctl (reconcileInventory now (st_NodeID p) inv) k) as [E1 E2].
  unfold step_ok, swarm_inv, nodes_keyed. rewrite E1, E2. split; [done|]. split; [done|]. intros id ih Hc.
  apply Hc2 in Hc as [Hc|(Hid & inv' & ->%list_elem_of_singleton & Hr1 & Hr2 & Hr3)]; [by left|].
  right. split; [done|]. exists p. cbn in *. split_and!; try done. by destruct (st_VerifyOK p) as [[]|].
Qed.

Lemma auth_inv h r k k' resp :
  authMiddleware config h r k = Some (k', resp) ->
  (k' = k /\ resp = writeErr 401 "unauthorized") \/ (token_ok config (cq_Authorization r) = true /\ h r k = Some (k', resp)).
Proof.
  unfold authMiddleware, stay, token_ok. cbn zeta. destruct (String.eqb _ ""); cbn; [intros [= <- <-]; by left|].
  destruct (String.eqb _ _); cbn; [by right|intros [= <- <-]; by left].
Qed.

Lemma request_ok o dberr now r k k' resp s :
  valid_orders o -> swarm_inv k -> ss_op s = OpRequest r dberr ->
  ServeControl config d o torder porder aorder dberr now r k = Some (k', resp) ->
  step_ok (fun id ih => confirms id ih s) k k'.
Proof.
  intros Ho Hi Hs. unfold ServeControl. destruct (route _ _ _ _ _ _ _ _ _) as [h|] eqn:Er.
  - intros [[-> _]|[_ Hh]]%auth_inv; [by apply step_ok_keep|..]; try done.
    pose proof (tracker_handlers_keep o dberr now r k h) as Hkeep. unfold route in Er.
    repeat (case_match; simplify_eq/=); try (by eapply handleNodes_ok); try (by eapply handleComputeEnsure_ok);
      (apply step_ok_keep; [done|]); unfold keeps_ctl in Hkeep; rewrite Hh in Hkeep; apply Hkeep; tauto.
  - unfold agent_route. destruct (k_agentRoutes k); [|by intros [= <- _]; apply step_ok_keep].
    destruct (String.eqb_spec (cq_Path r) "/api/v1/agent/heartbeat") as [Hp|].
    + intros [[-> _]|[Ht Hh]]%auth_inv; [by apply step_ok_keep|..]; try done.
      destruct (handleAgentHeartbeat_ok _ _ _ _ _ Hi Hh) as (Hi' & Hip & Hv). split; [done|]. split; [done|]. intros id ih Hc.
      destruct (Hv id ih Hc) as [?|[Hm Hc']]; [by left|right]. exists r, dberr. split_and!; try done. by left.
    + destruct (String.eqb_spec (cq_Path r) "/api/v1/agent/state") as [Hp|]; [|by intros [= <- _]; apply step_ok_keep].
      intros [[-> _]|[Ht Hh]]%auth_inv; [by apply step_ok_keep|..]; try done.
      destruct (handleAgentStateUpdate_ok _ _ _ _ _ Hi Hh) as (Hi' & Hip & Hv). split; [done|]. split; [done|]. intros id ih Hc.
      destruct (Hv id ih Hc) as [?|[Hm Hc']]; [by left|right]. exists r, dberr. split_and!; try done. by right.
Qed.

Lemma MarkStale_byIP order cutoff now snap r : nr_byIP (MarkStale order cutoff now snap r).1 = nr_byIP r.
Proof.
  unfold MarkStale. cbn zeta. generalize (@nil (Z * string * Z)). generalize ((filter (fun kn => (ni_LastSeen kn.2 <? now - cutoff) = true) (order (nr_nodes snap))).*1).
  intros ids. revert r. induction ids as [|i ids IH]; intros r l; [done|]. cbn [foldl]. unfold mark_stale_step at 2.
  destruct (nr_nodes r !! i) as [n|]; [|apply IH]. destruct (negb _); [apply IH|].
  destruct (mark_node now n) as [n' fl]. rewrite IH. by destruct r.
Qed.

Lemma swarm_step_ok k s :
  valid_orders (ss_orders s) -> swarm_inv k -> step_ok (fun id ih => confirms id ih s) k (swarm_step k s).
Proof.
  intros Ho Hi. unfold swarm_step. destruct (ss_op s) as [r dberr|interval|] eqn:Hop.
  - destruct (ServeControl _ _ _ _ _ _ _ _ _ _) as [[k' resp]|] eqn:E; [|by apply step_ok_keep].
    by eapply request_ok.
  - set (c := (run_tick (ss_orders s) (ss_now s) interval (ctl_view k)).1).
    assert (k_ctl (k {{ k_ctl := c }}) = c) as E by (by destruct k). unfold step_ok, swarm_inv. rewrite E. clear E.
    subst c. unfold run_tick. destruct Hi as [Hk Hn].
    assert (c_replicas (ctl_view k) = c_replicas (k_ctl k) /\ c_nodes (ctl_view k) = c_nodes (k_ctl k)) as [E1 E2].
    { unfold ctl_view. by destruct (k_ctl k). }
    pose proof (MarkStale_keyed (o_nodes (ss_orders s)) (interval * 2) (ss_now s) (c_nodes (k_ctl k)) (vo_nodes _ Ho) Hn) as Hkeyed.
    pose proof (MarkStale_byIP (o_nodes (ss_orders s)) (interval * 2) (ss_now s) (c_nodes (k_ctl k)) (c_nodes (k_ctl k))) as Hip.
    rewrite E2. destruct (MarkStale _ _ _ _ _) as [nodes flaps]. cbn [fst] in *.
    set (c0 := (ctl_view k) {{ c_nodes := nodes }}).
    assert (c_replicas c0 = c_replicas (k_ctl k) /\ c_nodes c0 = nodes) as [E3 E4] by (unfold c0, ctl_view; by destruct (k_ctl k)).
    clearbody c0. destruct (reconcile_safe (ss_orders s) (ss_now s) c0 Ho) as (Hk' & Hn' & Hv); [by rewrite E3|unfold nodes_keyed; by rewrite E4|].
    rewrite E3 in Hv. split; [split; [done|unfold nodes_keyed; by rewrite Hn', E4]|]. split; [by rewrite Hn', E4, Hip|].
    intros id ih Hc. left. by apply (Hv (id, ih)).
  - unfold receive. destruct (c_directives (k_ctl k)) as [|act q] eqn:Eq; [by apply step_ok_keep|].
    assert (step_ok (fun id ih => confirms id ih s) k k) as Hself by (by apply step_ok_keep).
    destruct k as [sys e ar ad c]. by destruct c.
Qed.

Lemma history_ok k steps :
  swarm_inv k -> Forall (fun s => valid_orders (ss_orders s)) steps ->
  step_ok (fun id ih => exists s, s ∈ steps /\ confirms id ih s) k (foldl swarm_step k steps).
Proof.
  revert k. induction steps as [|s steps IH]; intros k Hi Hall; cbn [foldl]; [by apply step_ok_keep|].
  apply Forall_cons in Hall as [Ho Hall]. destruct (swarm_step_ok k s Ho Hi) as (Hi1 & Hip1 & Hv1).
  destruct (IH _ Hi1 Hall) as (Hi2 & Hip2 & Hv2). split; [done|]. split; [by etrans|].
  intros id ih Hc. apply Hv2 in Hc as [Hc|(s' & Hin & Hs')]; [apply Hv1 in Hc as [Hc|Hc]; [by left|]|].
  - right. exists s. split; [by left|done].
  - right. exists s'. split; [by right|done].
Qed.

End Histories.

(** [C28] Verified means confirmed.  Start without replicas, and let requests, ticks of
    the controller and deliveries of directives come in any order, with any
    clocks and iteration orders: whenever a replica counts as verified, some
    earlier request, authenticated and sent to an agent endpoint, has reported
    for that node and that hash that the content is seeding and its hash is
    right. *)
Theorem verified_by_hash {C} config d torder porder aorder (k0 : ControlState C) steps id ih :
  c_replicas (k_ctl k0) = ∅ -> nodes_keyed (k_ctl k0) -> Forall (fun s => valid_orders (ss_orders s)) steps ->
  CountsAsVerified (state_of (c_replicas (k_ctl (foldl (swarm_step config d torder porder aorder) k0 steps))) (id, ih)) = true ->
  exists s, s ∈ steps /\ confirms config d id ih s.
Proof.
  intros Hr Hn Hall Hv.
  destruct (history_ok config d torder porder aorder k0 steps) as (_ & _ & H); [split; [|done]|done|].
  { rewrite Hr. intros k r Hk. by rewrite lookup_empty in Hk. }
  destruct (H id ih Hv) as [H0|H0]; [|done]. rewrite Hr in H0. unfold state_of in H0. by rewrite lookup_empty in H0.
Qed.

(** Authentication of the control API.  A request whose token is empty or not the
    configured one changes nothing and is answered 401, or 404 where no route is
    registered; with neither a control secret nor a site password configured
    that is every request; and a token is accepted without the Bearer prefix. *)
Theorem control_auth {C} config d o torder porder aorder dberr now r (k : ControlState C) :
  (token_ok config (cq_Authorization r) = false ->
   ServeControl config d o torder porder aorder dberr now r k = Some (k, writeErr 401 "unauthorized") \/
   ServeControl config d o torder porder aorder dberr now r k = Some (k, writeErr 404 "404 page not found")) /\
  (cc_ControlSecret config = ""%string -> cc_SitePassword config = ""%string -> token_ok config (cq_Authorization r) = false) /\
  (forall secret, cc_ControlSecret config = secret -> secret <> ""%string -> String.prefix "Bearer " secret = false ->
     token_ok config secret = true).
Proof.
  split; [|split].
  - intros Ht. assert (forall h, authMiddleware config h r k = Some (k, writeErr 401 "unauthorized")) as Hauth.
    { intros h. unfold authMiddleware, stay, token_ok in *. cbn zeta in *. destruct (String.eqb _ ""); [done|].
      destruct (String.eqb _ _); [done|]. done. }
    unfold ServeControl, stay. destruct (route _ _ _ _ _ _ _ _ _); [left; apply Hauth|].
    destruct (agent_route _ _ _ _); [left; apply Hauth|by right].
  - intros H1 H2. unfold token_ok. rewrite H1, H2. cbn. destruct (String.eqb_spec (trim_bearer (cq_Authorization r)) ""); [done|].
    by destruct (String.eqb_spec (trim_bearer (cq_Authorization r)) "").
  - intros secret H1 H2 H3. unfold token_ok, trim_bearer. rewrite H3, H1. apply String.eqb_neq in H2. rewrite H2.
    cbn. apply String.eqb_refl.
Qed.

(** ** Nodes and addresses *)

Lemma slice_stable_const {A} (less : A -> A -> bool) l :
  (forall a b, a ∈ l -> b ∈ l -> less a b = false) -> slice_stable less l = l.
Proof.
  intros Hl. unfold slice_stable.
  assert (forall k rl, (forall a, a ∈ k -> a ∈ l) -> (forall a, a ∈ rl -> a ∈ l) ->
            foldl (fun rl x => sink less x rl) rl k = rev k ++ rl) as Hgen.
  { induction k as [|x k IH]; intros rl Hk Hrl; [done|]. cbn [foldl rev].
    assert (sink less x rl = x :: rl) as ->.
    { destruct rl as [|y rl]; [done|]. cbn. rewrite Hl; [done|apply Hk; by left|apply Hrl; by left]. }
    rewrite IH; [by rewrite <- app_assoc|intros; apply Hk; by right|].
    intros a [->|Ha]%elem_of_cons; [apply Hk; by left|by apply Hrl]. }
  rewrite Hgen; [|done|by intros a ?%not_elem_of_nil]. by rewrite app_nil_r, rev_involutive.
Qed.

(** No node is known by its address.  The index of nodes by address is written
    only when a node is registered, before its first heartbeat gives it an
    address: starting from an empty registry, after any history of requests and
    ticks no address belongs to a managed node, so no seeder counts as verified
    and announce peers are never reordered. *)
Theorem nodes_unknown_by_ip {C} config d torder porder aorder (k0 : ControlState C) steps :
  c_nodes (k_ctl k0) = NewNodeRegistry -> keyed (c_replicas (k_ctl k0)) ->
  Forall (fun s => valid_orders (ss_orders s)) steps ->
  let k := foldl (swarm_step config d torder porder aorder) k0 steps in
  let nodes := c_nodes (k_ctl k) in
  (forall ip, GetByIP ip nodes = None /\ ClassifyPeer ip nodes = PeerUnmanaged) /\
  (forall order torrent ih, VerifiedSeeders order nodes (c_replicas (k_ctl k)) torrent ih = 0) /\
  (forall ip peers, SortPeersByProximity (Some nodes) ip peers = peers).
Proof.
  intros Hn Hk Hall k nodes.
  assert (nr_byIP nodes = ∅) as Hip.
  { destruct (history_ok config d torder porder aorder k0 steps) as (_ & Hsub & _); [split; [done|]|done|].
    - unfold nodes_keyed. rewrite Hn. intros j n Hj. cbn in Hj. by rewrite lookup_empty in Hj.
    - rewrite Hn in Hsub. fold k nodes in Hsub. apply map_empty. intros i. destruct (nr_byIP nodes !! i) as [x|] eqn:E; [|done].
      apply (lookup_weaken _ _ _ _ E) in Hsub. cbn in Hsub. by rewrite lookup_empty in Hsub. }
  assert (forall ip, GetByIP ip nodes = None) as Hby by (intros ip; unfold GetByIP; by rewrite Hip, lookup_empty).
  split; [|split].
  - intros ip. split; [done|]. unfold ClassifyPeer. by rewrite Hip, lookup_empty.
  - intros order torrent ih. unfold VerifiedSeeders. cbn zeta. set (ips := omap _ _). clearbody ips.
    assert (forall ip, Lookup nodes (c_replicas (k_ctl k)) ip ih = mkInfo false 0 ReplicaStateAbsent) as HL
      by (intros ip; unfold Lookup; by rewrite Hby).
    induction ips as [|ip ips IH]; [done|]. cbn [foldl]. rewrite HL. exact IH.
  - intros ip peers. unfold SortPeersByProximity. destruct (_ <=? _); [done|]. cbn zeta.
    assert (forall net pe, sort_priority nodes net pe = 2) as Hp.
    { intros net pe. unfold sort_priority. destruct (pe_IP pe); [done|]. by rewrite Hby. }
    apply slice_stable_const. intros a b _ _. by rewrite !Hp.
Qed.

(** ** A small deployment *)
Module DemoControl.

Definition pk : string := "0123456789abcdef0123456789abcdef".
Definition worker : Worker :=
  mkWorker (mkConfig 1800 7200 50 1800) {[ "H" := NewTorrent 3 ]} {[ pk := NewUser 9 true false ]} []
    zeroStats None false None None None None.
(** The tables mirror the memory. *)
Definition tables : TDB :=
  db_RecordUserPasskey 9 pk true false (db_RecordTorrentHash 3 "H" (db_RecordTorrent 3 0 0 0 0 emptyTDB)).
Definition ctl : SwarmPolicyController :=
  NewSwarmPolicyController (ArtifactSet "H" (NewArtifact 0 "H") ∅) ∅ NewNodeRegistry ∅.
Definition state : ControlState unit :=
  mkControl (mkSystem worker tables None) (Some (mkExt true true true true)) true ∅ ctl.

Definition config : ControlConfig := mkControlConfig "secret" "site".

(** Decoders that know the bodies used below. *)
Definition when {A} (body text : string) (v : A) : option A := if String.eqb body text then Some v else None.
Definition report (body : string) : option StatePost :=
  if String.eqb body "swarming" then Some (mkStatePost 7 "H" "swarming" None)
  else if String.eqb body "complete" then Some (mkStatePost 7 "H" "complete" None)
  else when body "verified" (mkStatePost 7 "H" "seeding" (Some true)).
Definition decoders : Decoders :=
  mkDecoders (fun b => when b "torrent" (mkTorrentPost 5 "N" 0)) (fun b => when b "free" (Some 1)) (fun _ => None)
    (fun b => when b "bar" (mkUserPatch (Some false) None)) (fun _ => None) (fun _ => None)
    (fun b => when b "node" (mkNodePost 7 "host" "" "" "" "" "" "" "core" 0 0 (of_int 0) (of_int 0)))
    (fun _ => None) (fun b => when b "ensure" (mkEnsure "H" 7 "")) (fun _ => None) report.

Definition request (meth path body : string) (query : string -> string) : ControlRequest :=
  mkCReq meth path "Bearer secret" query body "10.0.0.7:5000".
Definition post (path body : string) : SwarmStep :=
  mkStep (OpRequest (request "POST" path body (fun _ => ""%string)) (fun _ => None)) 1000 DemoFleet.orders.

Definition history : list SwarmStep :=
  [post "/api/v1/nodes" "node"; post "/api/v1/compute/ensure" "ensure"; post "/api/v1/agent/state" "swarming";
   post "/api/v1/agent/state" "complete"; post "/api/v1/agent/state" "complete"; post "/api/v1/agent/state" "verified"].

Definition run (steps : list SwarmStep) : ControlState unit :=
  foldl (swarm_step config decoders map_to_list map_to_list elements) state steps.

(** One request, and the memory a restart would load from the tables. *)
Definition serve (r : ControlRequest) : option (ControlState unit * ControlResponse) :=
  ServeControl config decoders DemoFleet.orders map_to_list map_to_list elements (fun _ => None) 1000 r state.
Definition reload (k : ControlState unit) : Memory :=
  (LoadAll (mkOrders map_to_list map_to_list map_to_list) (fun _ => false) (y_db (k_sys k)) (mkMemory ∅ ∅ [])).1.

End DemoControl.

Lemma verified_by_hash_witness :
  exists s, s ∈ DemoControl.history /\ confirms DemoControl.config DemoControl.decoders 7 "H" s.
Proof.
  apply (verified_by_hash DemoControl.config DemoControl.decoders map_to_list map_to_list elements DemoControl.state
           DemoControl.history 7 "H").
  - done.
  - intros j n Hj. cbn in Hj. by rewrite lookup_empty in Hj.
  - repeat constructor; apply DemoFleet.orders_valid.
  - by vm_compute.
Defined.

Lemma control_auth_witness :
  ServeControl DemoControl.config DemoControl.decoders DemoFleet.orders map_to_list map_to_list elements (fun _ => None) 1000
    ((DemoControl.request "GET" "/api/v1/stats" "" (fun _ => ""%string)) {{ cq_Authorization := "Bearer site" }}) DemoControl.state
  = Some (DemoControl.state, writeErr 401 "unauthorized") /\ token_ok DemoControl.config "secret" = true.
Proof.
  destruct (control_auth DemoControl.config DemoControl.decoders DemoFleet.orders map_to_list map_to_list elements (fun _ => None) 1000
    ((DemoControl.request "GET" "/api/v1/stats" "" (fun _ => ""%string)) {{ cq_Authorization := "Bearer site" }}) DemoControl.state)
    as (H1 & _ & H3).
  split; [|by apply H3]. destruct H1 as [H1|H1]; [by vm_compute|exact H1|]. vm_compute in H1. discriminate.
Defined.

Lemma nodes_unknown_by_ip_witness :
  is_Some (nr_nodes (c_nodes (k_ctl (DemoControl.run DemoControl.history))) !! 7) /\
  GetByIP "10.0.0.7" (c_nodes (k_ctl (DemoControl.run DemoControl.history))) = None.
Proof.
  destruct (nodes_unknown_by_ip DemoControl.config DemoControl.decoders map_to_list map_to_list elements DemoControl.state
           DemoControl.history) as [H _].
  - done.
  - intros k r Hr. cbn in Hr. by rewrite lookup_empty in Hr.
  - repeat constructor; apply DemoFleet.orders_valid.
  - split; [by vm_compute; eauto|apply H].
Defined.

(** Changes through the control API that a restart undoes.  A torrent that is added has
    no row to be joined with and is not loaded again; a torrent or a user that
    is deleted comes back, and a right that is taken from a user is given
    again, since only memory was changed. *)
Theorem control_changes_lost :
  (exists k resp, DemoControl.serve (DemoControl.request "POST" "/api/v1/torrents" "torrent" (fun _ => ""%string)) = Some (k, resp) /\
     cs_Status resp = 201 /\ is_Some (w_Torrents (y_worker (k_sys k)) !! "N"%string) /\
     m_torrents (DemoControl.reload k) !! "N"%string = None) /\
  (exists k resp, DemoControl.serve (DemoControl.request "DELETE" "/api/v1/torrents" "" (fun _ => "H"%string)) = Some (k, resp) /\
     cs_Status resp = 200 /\ w_Torrents (y_worker (k_sys k)) !! "H"%string = None /\
     is_Some (m_torrents (DemoControl.reload k) !! "H"%string)) /\
  (exists k resp, DemoControl.serve (DemoControl.request "PATCH" "/api/v1/users" "bar" (fun _ => DemoControl.pk)) = Some (k, resp) /\
     cs_Status resp = 200 /\ u_CanLeech <$> w_Users (y_worker (k_sys k)) !! DemoControl.pk = Some false /\
     u_CanLeech <$> m_users (DemoControl.reload k) !! DemoControl.pk = Some true).
Proof.
  split; [|split]; do 2 eexists; (split; [vm_compute; reflexivity|]); vm_compute; eauto.
Qed.
