(* ===== verification/SwarmAgent.v ===== *)
(** * The managed-node agent (cmd/ocelot-agent)

    The daemon that drives a BitTorrent client for the swarm controller, and its
    adapters to four clients.  A client is a type with the operations of the
    BTClient interface; the qBittorrent and Transmission adapters talk to a
    service, which is an argument.  The agent sends requests; [send] is the
    network with the control server behind it, and [control_transport] is the
    control server of [ControlServer] as such a network.  JSON encoders are
    arguments, as the decoders of the control server are.

    The theorems are about the agent together with the control server: what its
    credentials give it, and what its heartbeats can make of a replica. *)
From Stdlib Require Import String.
From S2P Require Import Prelude GoStr NetIP GoFloat GoSort TrackerTypes Whitelist TrackerDB Announce Update Server Heatmap Replica NodeRegistry Placement PlacementSpec SwarmControl SwarmSpec ControlServer ControlSpec.
Open Scope list_scope.
Open Scope string_scope.
Open Scope Z_scope.

(** ** BitTorrent clients *)

Record TorrentStatus := mkTorrentStatus {
  ts_InfoHash : string;
  ts_State : string;
  ts_Progress : float64;
  ts_UploadedBytes : Z;
  ts_DownloadedBytes : Z;
  ts_Seeds : Z;
  ts_Leechers : Z
}.

Class BTClient (B : Type) := {
  AddTorrent : string -> string -> B -> B * option string;
  RemoveTorrent : string -> bool -> B -> B * option string;
  Status : string -> B -> result string TorrentStatus;
  ListAll : B -> result string (list TorrentStatus);
  Version : B -> string
}.

(** A torrent of which an adapter fills the first four fields. *)
Definition status_of (infoHash state : string) (progress : float64) (uploaded : Z) : TorrentStatus :=
  mkTorrentStatus infoHash state progress uploaded 0 0 0.

(** A service that answers form posts and reads.  A read fails, or its answer
    cannot be decoded. *)
Record WebService (W : Type) := mkWebService {
  sv_state : W;
  sv_post : string -> list (string * string) -> W -> W * option string;
  sv_items : string -> W -> result string (result string (list TorrentStatus))
}.
Arguments mkWebService {W}. Arguments sv_state {W}. Arguments sv_post {W}. Arguments sv_items {W}.

Definition post_form {W} (path : string) (form : list (string * string)) (s : WebService W) : WebService W * option string :=
  let '(w, err) := sv_post s path form (sv_state s) in (s {{ sv_state := w }}, err).

Record qbittorrentClient (W : Type) := mkQbittorrent { qb_service : WebService W }.
Arguments mkQbittorrent {W}. Arguments qb_service {W}.
Record transmissionClient (W : Type) := mkTransmission { tm_service : WebService W }.
Arguments mkTransmission {W}. Arguments tm_service {W}.
Inductive delugeClient := mkDeluge.
Inductive embeddedClient := mkEmbedded.

Definition zeroStatus : TorrentStatus := status_of "" "" (of_int 0) 0.

(** Only a failed connection is an error: the status of the answer is ignored. *)
#[export] Instance qbittorrent_client {W} : BTClient (qbittorrentClient W) := {|
  AddTorrent _ magnetOrURL c :=
    let '(s, err) := post_form "/api/v2/torrents/add" [("urls", magnetOrURL)] (qb_service c) in (mkQbittorrent s, err);
  RemoveTorrent infoHash deleteData c :=
    let del := if deleteData : bool then "true" else "false" in
    let '(s, err) := post_form "/api/v2/torrents/delete" [("hashes", infoHash); ("deleteFiles", del)] (qb_service c) in (mkQbittorrent s, err);
  Status infoHash c :=
    match sv_items (qb_service c) ("/api/v2/torrents/info?hashes=" ++ infoHash) (sv_state (qb_service c)) with
    | Err e => Err e
    | Ok (Ok (it :: _)) => Ok it
    | Ok _ => Err ("torrent not found: " ++ infoHash)
    end;
  ListAll c :=
    match sv_items (qb_service c) "/api/v2/torrents/info" (sv_state (qb_service c)) with
    | Err e => Err e
    | Ok l => l
    end;
  Version _ := "qbittorrent/unknown"
|}.

#[export] Instance transmission_client {W} : BTClient (transmissionClient W) := {|
  AddTorrent _ magnetOrURL c :=
    let '(s, err) := post_form "/transmission/rpc" [("method", "torrent-add"); ("filename", magnetOrURL)] (tm_service c) in (mkTransmission s, err);
  RemoveTorrent _ _ c := (c, None);
  Status _ _ := Ok zeroStatus;
  ListAll _ := Ok [];
  Version _ := "transmission/unknown"
|}.

#[export] Instance deluge_client : BTClient delugeClient := {|
  AddTorrent _ _ c := (c, None);
  RemoveTorrent _ _ c := (c, None);
  Status _ _ := Ok zeroStatus;
  ListAll _ := Ok [];
  Version _ := "deluge/unknown"
|}.

#[export] Instance embedded_client : BTClient embeddedClient := {|
  AddTorrent _ _ c := (c, None);
  RemoveTorrent _ _ c := (c, None);
  Status infoHash _ := Ok (status_of infoHash "unknown" (of_int 0) 0);
  ListAll _ := Ok [];
  Version _ := "embedded/0.1.0"
|}.

(** ** The agent *)

Record SwarmAgent := mkSwarmAgent {
  sa_nodeID : Z;
  sa_passkey : string;
  sa_hostname : string;
  sa_rack : string;
  sa_site : string;
  sa_controlURL : string;
  sa_address : string
}.

Definition inventory_entry (s : TorrentStatus) : ReplicaInventory :=
  let entry state verify := mkInventory (ts_InfoHash s) state verify (ts_Progress s) (ts_UploadedBytes s) in
  if String.eqb (ts_State s) "downloading" then entry "swarming" ""
  else if String.eqb (ts_State s) "checking" then entry "complete" ""
  else if String.eqb (ts_State s) "seeding" then entry "seeding" "hash_ok"
  else if String.eqb (ts_State s) "error" then entry "invalid" ""
  else entry (ts_State s) "".

(** An error is logged and the inventory is empty. *)
Definition buildInventory (l : result string (list TorrentStatus)) : list ReplicaInventory :=
  match l with Ok l => inventory_entry <$> l | Err _ => [] end.

(** What the agent says of itself: no storage, no position. *)
Definition heartbeat {B} `{BTClient B} (a : SwarmAgent) (numCPU : Z) (bt : B) : HeartbeatPayload :=
  mkHeartbeat (sa_nodeID a) (sa_passkey a) (sa_hostname a) 0 0 numCPU 0 (Version bt) (buildInventory (ListAll bt))
    (of_int 0) (of_int 0) 0 0.

Definition node_post (a : SwarmAgent) : NodePost :=
  mkNodePost (sa_nodeID a) (sa_hostname a) (sa_passkey a) (sa_rack a) (sa_site a) "" "" "" "" 0 0 (of_int 0) (of_int 0).

(** The JSON encoders. *)
Record Encoders := mkEncoders {
  enc_node : NodePost -> string;
  enc_heartbeat : HeartbeatPayload -> string;
  enc_state : StatePost -> string
}.

Record DirectivePayload := mkDirective { dr_Directive : string; dr_InfoHash : string; dr_Class : string }.

Section Agent.
Context {K B : Type} `{BTClient B}.
(** The network: the state behind it, and the status or the error. *)
Context (send : ControlRequest -> K -> K * result string Z) (enc : Encoders).
Context (decodeDirective : string -> option DirectivePayload).
Implicit Types (a : SwarmAgent) (bt : B) (k : K).

Definition controlDo a (path body : string) k : K * result string Z :=
  send (mkCReq "POST" path ("Bearer " ++ sa_passkey a) (fun _ => "") body (sa_address a)) k.

(** [Some] is the text of the error. *)
Definition expect (ok : Z -> bool) (what : string) (r : K * result string Z) : K * option string :=
  match r with
  | (k, Err e) => (k, Some e)
  | (k, Ok code) => (k, if ok code then None else Some (what ++ " rejected: HTTP " ++ dec code))
  end.

Definition RegisterNode a k : K * option string :=
  expect (fun code => (code =? 201) || (code =? 200)) "registration" (controlDo a "/api/v1/nodes" (enc_node enc (node_post a)) k).

Definition sendHeartbeat a (numCPU : Z) bt k : K * option string :=
  expect (fun code => code =? 200) "heartbeat" (controlDo a "/api/v1/agent/heartbeat" (enc_heartbeat enc (heartbeat a numCPU bt)) k).

(** The outcome is only logged. *)
Definition reportState a (infoHash state : string) (verifyOK : option bool) k : K :=
  (controlDo a "/api/v1/agent/state" (enc_state enc (mkStatePost (sa_nodeID a) infoHash state verifyOK)) k).1.

Definition magnet a (infoHash : string) : string :=
  "magnet:?xt=urn:btih:" ++ infoHash ++ "&tr=" ++ sa_controlURL a ++ "%2F" ++ sa_passkey a ++ "%2Fannounce".

Definition joinSwarm a (infoHash : string) bt k : B * K * option string :=
  match AddTorrent infoHash (magnet a infoHash) bt with
  | (bt, Some e) => (bt, k, Some ("JOIN_SWARM: AddTorrent failed: " ++ e))
  | (bt, None) => (bt, reportState a infoHash "swarming" None k, None)
  end.

Definition retireReplica (infoHash : string) bt k : B * K * option string :=
  match RemoveTorrent infoHash true bt with
  | (bt, Some e) => (bt, k, Some ("RETIRE_REPLICA: RemoveTorrent failed: " ++ e))
  | (bt, None) => (bt, k, None)
  end.

(** The status and, of an executed directive, the error in the answer. *)
Definition handleDirective a (r : ControlRequest) bt k : B * K * (Z * option string) :=
  if negb (String.eqb (cq_Method r) "POST") then (bt, k, (405, None))
  else if negb (String.eqb (cq_Authorization r) ("Bearer " ++ sa_passkey a)) then (bt, k, (401, None))
  else match decodeDirective (cq_Body r) with
       | None => (bt, k, (400, None))
       | Some p =>
           if String.eqb (dr_Directive p) "JOIN_SWARM" then
             let '(bt, k, err) := joinSwarm a (dr_InfoHash p) bt k in (bt, k, (200, err))
           else if String.eqb (dr_Directive p) "RETIRE_REPLICA" then
             let '(bt, k, err) := retireReplica (dr_InfoHash p) bt k in (bt, k, (200, err))
           else (bt, k, (400, None))
       end.

(** The routes of the agent's own server. *)
Definition serveDirectives a (r : ControlRequest) bt k : B * K * (Z * option string) :=
  if String.eqb (cq_Path r) "/agent/v1/directives" then handleDirective a r bt k
  else if String.eqb (cq_Path r) "/agent/v1/health" then (bt, k, (200, None))
  else (bt, k, (404, None)).

(** The heartbeats of [run], one for each tick at which the client is as listed. *)
Definition heartbeats a (numCPU : Z) (ticks : list B) k : K :=
  foldl (fun k bt => (sendHeartbeat a numCPU bt k).1) k ticks.
End Agent.

(** The client that a flag names. *)
Inductive ClientKind := KindQbittorrent | KindTransmission | KindDeluge | KindEmbedded.

Definition newBTClient (kind : string) : option ClientKind :=
  if String.eqb kind "qbittorrent" then Some KindQbittorrent
  else if String.eqb kind "transmission" then Some KindTransmission
  else if String.eqb kind "deluge" then Some KindDeluge
  else if String.eqb kind "embedded" then Some KindEmbedded
  else None.

(** The flags that [main] accepts: [Some] is the message. *)
Definition check_flags (a : SwarmAgent) : option string :=
  if String.eqb (sa_controlURL a) "" || (sa_nodeID a =? 0) || String.eqb (sa_passkey a) ""
  then Some "error: --control, --node-id, and --passkey are required"
  else if negb (String.length (sa_passkey a) =? 32)%nat then Some "error: --passkey must be exactly 32 characters"
  else None.

(** The control server as a network; a panic closes the connection. *)
Definition control_transport {C} config d o torder porder aorder dberr now (r : ControlRequest) (k : ControlState C)
    : ControlState C * result string Z :=
  match ServeControl config d o torder porder aorder dberr now r k with
  | Some (k', resp) => (k', Ok (cs_Status resp))
  | None => (k, Err "EOF")
  end.

(** * The agent with the control server *)

(** ** Credentials *)

(** The secret of the control server. *)
Definition control_token (config : ControlConfig) : string :=
  if String.eqb (cc_ControlSecret config) "" then cc_SitePassword config else cc_ControlSecret config.

Lemma bearer_ok config s : token_ok config ("Bearer " ++ s) = negb (String.eqb s "") && String.eqb s (control_token config).
Proof. unfold token_ok. by rewrite trim_bearer_token. Qed.

Section Transport.
Context {C B : Type} `{BTClient B} (config : ControlConfig) (d : Decoders) (enc : Encoders).
Context (o : SwarmOrders) (torder : TorrentList -> list (string * Torrent)) (porder : PeerList -> list (string * Peer)).
Context (aorder : gset string -> list string) (dberr : AdminWrite -> option string) (now : Z).
Implicit Types (k : ControlState C) (a : SwarmAgent) (bt : B).
Abbreviation transport := (control_transport (C := C) config d o torder porder aorder dberr now).

Lemma middleware_rejects h r k : token_ok config (cq_Authorization r) = false -> authMiddleware config h r k = Some (k, writeErr 401 "unauthorized").
Proof.
  unfold token_ok, authMiddleware, stay. cbn zeta. destruct (String.eqb _ ""); [done|]. cbn. by destruct (String.eqb _ _).
Qed.

Lemma transport_rejects r k :
  token_ok config (cq_Authorization r) = false -> exists code, transport r k = (k, Ok code) /\ (code = 401 \/ code = 404).
Proof.
  intros Ht. unfold control_transport, ServeControl.
  destruct (route _ _ _ _ _ _ _ _ _); [rewrite middleware_rejects by done; exists 401; auto|].
  destruct (agent_route _ _ _ _); [rewrite middleware_rejects by done; exists 401; auto|]. exists 404. auto.
Qed.

Lemma set_replicas_of f k : c_replicas (k_ctl (set_replicas f k)) = f (c_replicas (k_ctl k)).
Proof. by destruct k as [? ? ? ? []]. Qed.

(** A heartbeat leaves the replicas alone or reports the inventory. *)
Lemma beat_replicas a n bt k :
  d_heartbeat d (enc_heartbeat enc (heartbeat a n bt)) = Some (heartbeat a n bt) ->
  let m := c_replicas (k_ctl k) in
  let m' := c_replicas (k_ctl (sendHeartbeat transport enc a n bt k).1) in
  m' = m \/ m' = foldl (fun m inv => reconcileInventory now (sa_nodeID a) inv m) m (buildInventory (ListAll bt)).
Proof.
  intros Hd m m'. subst m m'. unfold sendHeartbeat, controlDo, control_transport, ServeControl. cbn [cq_Path].
  assert (route d o torder porder aorder dberr now "/api/v1/agent/heartbeat" k = None) as -> by (unfold route; cbn; by destruct (k_ext k)).
  unfold agent_route. destruct (k_agentRoutes k); [|by left]. change (String.eqb "/api/v1/agent/heartbeat" "/api/v1/agent/heartbeat") with true. cbn iota.
  unfold authMiddleware. destruct (_ || _); [by left|]. unfold handleAgentHeartbeat. change (negb (is_method _ "POST")) with false. cbn iota.
  destruct (negb (ext_has x_nodes k)); [by left|]. cbn [cq_Body]. rewrite Hd.
  destruct (hb_NodeID (heartbeat a n bt) =? 0); [by left|]. destruct (NGet _ _); [|by left]. cbn zeta.
  match goal with |- context [ext_has x_replicas ?x] => set (k1 := x) end.
  assert (c_replicas (k_ctl k1) = c_replicas (k_ctl k)) as Hk1 by (subst k1; by destruct k as [? ? ? ? []]).
  destruct (ext_has x_replicas k1); unfold expect; cbn [fst cs_Status]; [right|by left].
  rewrite set_replicas_of, Hk1. done.
Qed.

(** ** Replicas that are not yet checked *)

(** On the way to a check of the content, or away from it. *)
Definition early (s : NodeReplicaState) : bool :=
  match s with ReplicaStateAbsent | ReplicaStateRequested | ReplicaStateSwarming | ReplicaStateInvalid | ReplicaStatePurge => true | _ => false end.

Lemma step_early inv r :
  inv_State inv <> "complete" -> early (r_State r) = true -> early (r_State (inventory_step now inv r)) = true.
Proof.
  intros Hc He. unfold inventory_step. rewrite (proj2 (String.eqb_neq _ _) Hc). destruct (r_State r) eqn:E; try done; known_states;
    repeat (destruct (String.eqb (inv_State inv) _)); cbn [orb]; rewrite ?advance_state, ?E; done.
Qed.

Lemma report_early a inv m ih :
  (inv_InfoHash inv = ih -> inv_State inv <> "complete") -> early (state_of m (sa_nodeID a, ih)) = true ->
  early (state_of (reconcileInventory now (sa_nodeID a) inv m) (sa_nodeID a, ih)) = true.
Proof.
  intros Hc He. unfold reconcileInventory, RGet. destruct (m !! (sa_nodeID a, inv_InfoHash inv)) as [r|] eqn:Er; [|done].
  rewrite state_of_insert. destruct (decide _) as [[= Ei]|]; [|done]. apply step_early; [by apply Hc|].
  unfold state_of in He. by rewrite Ei, Er in He.
Qed.

Lemma reports_early a invs m ih :
  Forall (fun inv => inv_InfoHash inv = ih -> inv_State inv <> "complete") invs -> early (state_of m (sa_nodeID a, ih)) = true ->
  early (state_of (foldl (fun m inv => reconcileInventory now (sa_nodeID a) inv m) m invs) (sa_nodeID a, ih)) = true.
Proof. intros Hall. revert m. induction Hall as [|inv invs Hi _ IH]; intros m He; [done|]. cbn [foldl]. by apply IH, report_early. Qed.

(** The client does not show the torrent as being checked. *)
Definition unchecked (ih : string) bt : Prop :=
  forall l s, ListAll bt = Ok l -> s ∈ l -> ts_InfoHash s = ih -> ts_State s <> "checking" /\ ts_State s <> "complete".

Lemma unchecked_inventory ih bt :
  unchecked ih bt -> Forall (fun inv => inv_InfoHash inv = ih -> inv_State inv <> "complete") (buildInventory (ListAll bt)).
Proof.
  intros Hu. unfold buildInventory. destruct (ListAll bt) as [l|] eqn:El; [|done]. apply Forall_fmap, Forall_forall. intros s Hs. cbn. unfold inventory_entry.
  intros Hih. assert (ts_InfoHash s = ih) as Hts by (revert Hih; repeat case_match; done).
  destruct (Hu l s El Hs Hts) as [H1 H2]. rewrite (proj2 (String.eqb_neq _ _) H1). repeat case_match; done.
Qed.
End Transport.

(** An agent whose passkey is not the secret of the control server is locked
    out: it cannot register, its heartbeats are rejected, and nothing it sends
    changes the control plane.  Passkeys are 32 characters of the node's own, so
    this is the rule unless every node shares the secret. *)
Theorem agent_locked_out {C B} `{BTClient B} config d enc o torder porder aorder dberr now (a : SwarmAgent) (n : Z) (bt : B) (k : ControlState C) :
  sa_passkey a <> control_token config ->
  let send := control_transport config d o torder porder aorder dberr now in
  (exists code, RegisterNode send enc a k = (k, Some ("registration rejected: HTTP " ++ dec code)) /\ (code = 401 \/ code = 404)) /\
  (exists code, sendHeartbeat send enc a n bt k = (k, Some ("heartbeat rejected: HTTP " ++ dec code)) /\ (code = 401 \/ code = 404)) /\
  forall ih st v, reportState send enc a ih st v k = k.
Proof.
  intros Hpk send. assert (forall path body, exists code, controlDo send a path body k = (k, Ok code) /\ (code = 401 \/ code = 404)) as Hdo.
  { intros path body. apply transport_rejects. cbn [cq_Authorization]. by rewrite bearer_ok, (proj2 (String.eqb_neq _ _) Hpk), andb_false_r. }
  split_and!.
  - unfold RegisterNode. destruct (Hdo "/api/v1/nodes" (enc_node enc (node_post a))) as (code & -> & Hc). exists code. split; [by destruct Hc as [-> | ->]|exact Hc].
  - unfold sendHeartbeat. destruct (Hdo "/api/v1/agent/heartbeat" (enc_heartbeat enc (heartbeat a n bt))) as (code & -> & Hc). exists code. split; [by destruct Hc as [-> | ->]|exact Hc].
  - intros ih st v. unfold reportState. by destruct (Hdo "/api/v1/agent/state" (enc_state enc (mkStatePost (sa_nodeID a) ih st v))) as (code & -> & _).
Qed.

(** A download that is not seen being checked is never verified.  The
    controller moves a replica towards its check only on the report "complete",
    and the agent reports that only while its client shows the torrent as
    "checking".  So through any number of heartbeats at which the client shows
    it downloading, seeding or anything else, a replica that was requested never
    counts as verified, although the agent says that its hash is right. *)
Theorem unchecked_never_verified {C B} `{BTClient B} config d enc o torder porder aorder dberr now (a : SwarmAgent) (n : Z) (ih : string)
    (beats : list B) (k : ControlState C) :
  Forall (fun bt => d_heartbeat d (enc_heartbeat enc (heartbeat a n bt)) = Some (heartbeat a n bt)) beats ->
  Forall (unchecked ih) beats ->
  early (state_of (c_replicas (k_ctl k)) (sa_nodeID a, ih)) = true ->
  let send := control_transport config d o torder porder aorder dberr now in
  let k' := heartbeats send enc a n beats k in
  CountsAsVerified (state_of (c_replicas (k_ctl k')) (sa_nodeID a, ih)) = false.
Proof.
  intros Hd Hu He send k'.
  assert (early (state_of (c_replicas (k_ctl k')) (sa_nodeID a, ih)) = true) as He'; [|revert He'; generalize (state_of (c_replicas (k_ctl k')) (sa_nodeID a, ih)); by intros []].
  subst k'. unfold heartbeats. revert k He. induction beats as [|bt beats IH]; intros k He; [done|]. cbn [foldl].
  apply Forall_cons in Hd as [Hd1 Hd]. apply Forall_cons in Hu as [Hu1 Hu]. apply IH; [done..|].
  destruct (beat_replicas config d enc o torder porder aorder dberr now a n bt k Hd1) as [E|E]; unfold send; rewrite E; [done|].
  apply reports_early; [by apply unchecked_inventory|done].
Qed.

(** ** A node with a client that can be read *)
Module DemoAgent.

(** A qBittorrent client that shows one torrent in a state. *)
Definition client (state : string) : qbittorrentClient unit :=
  mkQbittorrent (mkWebService tt (fun _ _ w => (w, None)) (fun _ _ => Ok (Ok [status_of "H" state (of_int 1) 0]))).

Definition agent : SwarmAgent := mkSwarmAgent 7 "secret" "host" "" "" "http://c" "10.0.0.7:5000".

(** The first entry of the inventory stands for the payload. *)
Definition enc : Encoders := mkEncoders (fun _ => "node")
  (fun p => match hb_Inventory p with inv :: _ => inv_State inv | [] => "" end) (fun s => st_State s).

Definition payload (state : string) : HeartbeatPayload := heartbeat agent 4 (client state).
Definition decoders : Decoders :=
  DemoControl.decoders {{ d_heartbeat := fun b =>
    if String.eqb b "swarming" then Some (payload "downloading")
    else if String.eqb b "complete" then Some (payload "checking")
    else if String.eqb b "seeding" then Some (payload "seeding") else None }}.

Definition send := control_transport (C := unit) DemoControl.config decoders DemoFleet.orders map_to_list map_to_list elements (fun _ => None) 1000.

(** The node is registered and asked to hold the artifact. *)
Definition start : ControlState unit := DemoControl.run (take 2 DemoControl.history).

Definition beats (states : list string) : ControlState unit :=
  heartbeats send enc agent 4 (client <$> states) start.

Definition outcome (states : list string) : NodeReplicaState := state_of (c_replicas (k_ctl (beats states))) (7, "H").
End DemoAgent.

Lemma client_unchecked st : st <> "checking" -> st <> "complete" -> unchecked "H" (DemoAgent.client st).
Proof. intros H1 H2 l s [= <-] ->%list_elem_of_singleton _. done. Qed.

Lemma unchecked_never_verified_witness :
  early (state_of (c_replicas (k_ctl DemoAgent.start)) (7, "H")) = true /\
  CountsAsVerified (DemoAgent.outcome ["downloading"; "seeding"; "seeding"]) = false.
Proof.
  assert (early (state_of (c_replicas (k_ctl DemoAgent.start)) (7, "H")) = true) as He by (vm_compute; reflexivity).
  split; [exact He|]. unfold DemoAgent.outcome, DemoAgent.beats, DemoAgent.send.
  assert (Forall (fun bt => d_heartbeat DemoAgent.decoders (enc_heartbeat DemoAgent.enc (heartbeat DemoAgent.agent 4 bt)) = Some (heartbeat DemoAgent.agent 4 bt))
    (DemoAgent.client <$> ["downloading"; "seeding"; "seeding"])) as Hd by (repeat constructor).
  assert (Forall (unchecked "H") (DemoAgent.client <$> ["downloading"; "seeding"; "seeding"])) as Hu
    by (do 3 (apply Forall_cons; split; [by apply client_unchecked|]); by apply Forall_nil).
  exact (unchecked_never_verified DemoControl.config DemoAgent.decoders DemoAgent.enc DemoFleet.orders map_to_list map_to_list elements
           (fun _ => None) 1000 DemoAgent.agent 4 "H" (DemoAgent.client <$> ["downloading"; "seeding"; "seeding"]) DemoAgent.start Hd Hu He).
Defined.

(** Two heartbeats must see the check: with one, the replica stays complete and
    unverified for ever. *)
Example checks_needed :
  DemoAgent.outcome ["downloading"; "checking"; "checking"; "seeding"] = ReplicaStateSeeding /\
  DemoAgent.outcome ["downloading"; "checking"; "seeding"; "seeding"] = ReplicaStateBTComplete /\
  DemoAgent.outcome ["downloading"; "seeding"; "seeding"] = ReplicaStateSwarming.
Proof. vm_compute. done. Qed.

(** A node whose client is embedded, Deluge or Transmission reports nothing. *)
Example silent_clients (W : Type) (tm : transmissionClient W) :
  buildInventory (ListAll mkEmbedded) = [] /\ buildInventory (ListAll mkDeluge) = [] /\ buildInventory (ListAll tm) = [].
Proof. done. Qed.
