(* ===== verification/Events.v ===== *)
(** * Events and the in-process event bus (events.go, eventbus.go)

    The events with their topics, and the bus that carries them from any
    goroutine to the subscribed handlers.  The goroutine [dispatch] is a state
    machine: it takes an event from the channel, and has a list of work, the
    handler calls still to make and what a handler publishes meanwhile.  A call of
    [Publish] has two selects, so it is two steps, and other goroutines may come
    between them.  Handlers are named by a type [H]; what they do is a parameter
    here and is given in [Reactions]. *)
From Stdlib Require Import String.
From S2P Require Import Prelude GoStr GoFloat GoSort.
Open Scope list_scope.
Open Scope string_scope.
Open Scope Z_scope.

(** ** Events *)

Record baseEvent := mkBase {
  ev_topic : string;
  ev_occurredAt : Z;
  ev_traceID : string
}.

Inductive EventBody :=
| AnnounceEvent (userID torrentID : Z) (event : string) (uploaded downloaded left seeders leechers : Z)
| ClientAnomalyEvent (userID torrentID : Z) (peerID userAgent reason : string)
| BehaviourAnomalyEvent (userID torrentID : Z) (reason : string) (uploaded downloaded : Z)
| UserFlaggedEvent (userID : Z) (score : float64)
| UserUnflaggedEvent (userID : Z)
| UserBannedEvent (userID : Z) (reason : string)
| TorrentCompletedEvent (userID torrentID : Z)
| SwarmUpdatedEvent (torrentID seeders leechers : Z)
| FreeleechRecommendedEvent (torrentID : Z) (priorityScore deadProb72h : float64)
| FreeleechGrantedEvent (torrentID : Z)
| IntervalUpdateEvent (torrentID interval : Z)
| BusDropEvent (droppedTopic : string) (totalDrops : Z).

Record Event := mkEvent { ev_base : baseEvent; ev_body : EventBody }.

Definition Topic (e : Event) : string := ev_topic (ev_base e).
Definition OccurredAt (e : Event) : Z := ev_occurredAt (ev_base e).
Definition TraceID (e : Event) : string := ev_traceID (ev_base e).

Definition newBase (now : Z) (topic traceID : string) : baseEvent := mkBase topic now traceID.

(** The topic that the constructor of an event gives it. *)
Definition topic_of (b : EventBody) : string :=
  match b with
  | AnnounceEvent _ _ _ _ _ _ _ _ => "announce.success"
  | ClientAnomalyEvent _ _ _ _ _ => "anomaly.client"
  | BehaviourAnomalyEvent _ _ _ _ _ => "anomaly.behaviour"
  | UserFlaggedEvent _ _ => "user.flagged"
  | UserUnflaggedEvent _ => "user.unflagged"
  | UserBannedEvent _ _ => "user.banned"
  | TorrentCompletedEvent _ _ => "torrent.completed"
  | SwarmUpdatedEvent _ _ _ => "swarm.updated"
  | FreeleechRecommendedEvent _ _ _ => "freeleech.recommended"
  | FreeleechGrantedEvent _ => "freeleech.granted"
  | IntervalUpdateEvent _ _ => "interval.update"
  | BusDropEvent _ _ => "infra.bus_drop"
  end.

Definition NewEvent (now : Z) (traceID : string) (b : EventBody) : Event :=
  mkEvent (newBase now (topic_of b) traceID) b.

Definition NewBusDropEvent (now : Z) (droppedTopic : string) (totalDrops : Z) : Event :=
  NewEvent now "" (BusDropEvent droppedTopic totalDrops).

(** ** Topics and patterns *)

Definition topicMatches (pattern topic : string) : bool :=
  if String.eqb pattern topic then true
  else if HasSuffix pattern ".*" then
    String.prefix (String.substring 0 (String.length pattern - 2) pattern ++ ".") topic
  else false.

(** ** The bus *)

Definition defaultBusBuffer : Z := 8192.

(** What [dispatch] still has to do for the event it has taken. *)
Inductive Work (H : Type) :=
| Call (h : H) (e : Event)
| Pub (e : Event)
| Notify (e : Event).
Arguments Call {H}. Arguments Pub {H}. Arguments Notify {H}.

Record Bus (H W : Type) := mkBus {
  b_subs : list (string * H);
  b_ch : list Event;
  b_cap : Z;
  b_drops : Z;
  b_quit : bool;
  b_exited : bool;
  b_work : list (Work H);
  b_notices : list Event;
  b_world : W
}.
Arguments mkBus {H W}. Arguments b_subs {H W}. Arguments b_ch {H W}. Arguments b_cap {H W}. Arguments b_drops {H W}.
Arguments b_quit {H W}. Arguments b_exited {H W}. Arguments b_work {H W}. Arguments b_notices {H W}. Arguments b_world {H W}.

Definition NewBus {H W} (bufSize : Z) (w : W) : Bus H W :=
  mkBus [] [] (if bufSize <=? 0 then defaultBusBuffer else bufSize) 0 false false [] [] w.

Definition Subscribe {H W} (pattern : string) (h : H) (b : Bus H W) : Bus H W :=
  b {{ b_subs := (b_subs b ++ [(pattern, h)])%list }}.

Definition Drops {H W} (b : Bus H W) : Z := b_drops b.

(** What a step shows: an event that entered the channel, one that a call of
    [Publish] dropped, one that [dispatch] took, and a call of a handler. *)
Inductive Obs (H : Type) :=
| Entered (e : Event)
| Lost (e : Event)
| Taken (e : Event)
| Called (h : H) (now : Z) (e : Event).
Arguments Entered {H}. Arguments Lost {H}. Arguments Taken {H}. Arguments Called {H}.

Inductive BusStep (H : Type) :=
| SSubscribe (pattern : string) (h : H)
| SPublish (now : Z) (e : Event)
| SNotice (i : nat)
| SDispatch (now : Z)
| SStop.
Arguments SSubscribe {H}. Arguments SPublish {H}. Arguments SNotice {H}. Arguments SDispatch {H}. Arguments SStop {H}.

Section Steps.
Context {H W : Type} (handle : H -> Z -> Event -> W -> W * list Event).
Implicit Types (b : Bus H W) (e : Event).

Definition full b : bool := b_cap b <=? len (b_ch b).

Definition send e b : Bus H W * list (Obs H) := (b {{ b_ch := (b_ch b ++ [e])%list }}, [Entered e]).

(** The first select of [Publish] with the count of a lost event; [Some] is the notification to
    try next. *)
Definition publish (now : Z) e b : Bus H W * list (Obs H) * option Event :=
  if full b then
    let drops := u64 (b_drops b + 1) in
    (b {{ b_drops := drops }}, [Lost e], Some (NewBusDropEvent now (Topic e) drops))
  else (send e b, None).

(** The second select. *)
Definition notify e b : Bus H W * list (Obs H) := if full b then (b, []) else send e b.

(** The handlers of [deliver]: those subscribed when the delivery starts. *)
Definition deliver e (subs : list (string * H)) : list H :=
  snd <$> filter (fun s => topicMatches s.1 (Topic e) = true) subs.

(** One step of the goroutine. *)
Definition dispatch (now : Z) b : option (Bus H W * list (Obs H)) :=
  if b_exited b then None
  else match b_work b with
  | Call h e :: work =>
      let '(w, evs) := handle h now e (b_world b) in
      Some (b {{ b_world := w }} {{ b_work := ((Pub <$> evs) ++ work)%list }}, [Called h now e])
  | Pub e :: work =>
      let '(b', o, note) := publish now e (b {{ b_work := work }}) in
      Some (match note with Some n => b' {{ b_work := Notify n :: work }} | None => b' end, o)
  | Notify e :: work => Some (notify e (b {{ b_work := work }}))
  | [] =>
      match b_ch b with
      | e :: ch => Some (b {{ b_ch := ch }} {{ b_work := (fun h => Call h e) <$> deliver e (b_subs b) }}, [Taken e])
      | [] => if b_quit b then Some (b {{ b_exited := true }}, []) else None
      end
  end.

(** [None]: the step is not enabled, or is a second [Stop], which panics. *)
Definition bus_step (s : BusStep H) b : option (Bus H W * list (Obs H)) :=
  match s with
  | SSubscribe p h => Some (Subscribe p h b, [])
  | SPublish now e =>
      let '(b', o, note) := publish now e b in
      Some (match note with Some n => b' {{ b_notices := (b_notices b ++ [n])%list }} | None => b' end, o)
  | SNotice i => match b_notices b !! i with Some n => Some (notify n (b {{ b_notices := delete i (b_notices b) }})) | None => None end
  | SDispatch now => dispatch now b
  | SStop => if b_quit b then None else Some (b {{ b_quit := true }}, [])
  end.

Fixpoint bus_run (steps : list (BusStep H)) b : option (Bus H W * list (Obs H)) :=
  match steps with
  | [] => Some (b, [])
  | s :: steps =>
      '(b', o) ← bus_step s b;
      '(b'', o') ← bus_run steps b';
      Some (b'', (o ++ o')%list)
  end.
End Steps.
