(* ===== verification/EventsSpec.v ===== *)
(** * The event bus: theorems

    Patterns, the order and the completeness of delivery for every interleaving
    of publishers with the dispatcher, and the end of [Stop]. *)
From Stdlib Require Import String.
From S2P Require Import Prelude GoStr GoFloat GoSort Events.
Open Scope list_scope.
Open Scope string_scope.
Open Scope Z_scope.

(** ** Patterns *)

(** A pattern matches its own topic, and with a final ".*" everything below the
    prefix. *)
Definition matches (p t : string) : Prop := p = t \/ exists q r, p = q ++ ".*" /\ t = q ++ ("." ++ r).

Lemma topicMatches_spec p t : topicMatches p t = true <-> matches p t.
Proof.
  unfold matches, topicMatches. destruct (String.eqb_spec p t) as [->|Hne]; [split; auto|].
  destruct (HasSuffix p ".*") eqn:E.
  - apply HasSuffix_spec in E as [q ->]. rewrite length_append.
    replace (String.length q + String.length ".*" - 2)%nat with (String.length q) by (cbn; lia).
    rewrite substring_app_l, prefix_spec. split.
    + intros [r ->]. right. exists q, r. by rewrite append_assoc.
    + intros [?|(q' & r & Hq & ->)]; [done|]. exists r. rewrite append_assoc. f_equal.
      assert (String.length q = String.length q') as El by (apply (f_equal String.length) in Hq; rewrite !length_append in Hq; lia).
      rewrite <- (substring_app_l q ".*"), El, Hq. symmetry. apply substring_app_l.
  - split; [done|]. intros [?|(q & r & -> & _)]; [done|].
    assert (HasSuffix (q ++ ".*") ".*" = true) as E' by (apply HasSuffix_spec; by exists q). congruence.
Qed.

(** ** What a run shows *)

Definition entered {H} (o : list (Obs H)) : list Event := omap (fun x => match x with Entered e => Some e | _ => None end) o.
Definition taken {H} (o : list (Obs H)) : list Event := omap (fun x => match x with Taken e => Some e | _ => None end) o.
Definition lost {H} (o : list (Obs H)) : list Event := omap (fun x => match x with Lost e => Some e | _ => None end) o.
Definition calls {H} (o : list (Obs H)) : list (H * Z * Event) :=
  omap (fun x => match x with Called h now e => Some (h, now, e) | _ => None end) o.

Definition pending {H} (w : list (Work H)) : list (H * Event) := omap (fun x => match x with Call h e => Some (h, e) | _ => None end) w.

(** Forgetting when a handler was called. *)
Definition untimed {H} (c : H * Z * Event) : H * Event := (c.1.1, c.2).

Definition is_subscribe {H} (s : BusStep H) : bool := match s with SSubscribe _ _ => true | _ => false end.

Section Runs.
Context {H W : Type} (handle : H -> Z -> Event -> W -> W * list Event).
Implicit Types (b : Bus H W) (o : list (Obs H)) (e : Event).

Lemma pending_pubs (evs : list Event) (w : list (Work H)) : pending ((Pub <$> evs) ++ w)%list = pending w.
Proof. induction evs as [|e evs IH]; [done|]. exact IH. Qed.

Lemma pending_calls e (hs : list H) : pending ((fun h => Call h e) <$> hs) = (fun h => (h, e)) <$> hs.
Proof. induction hs as [|h hs IH]; [done|]. cbn. by f_equal. Qed.

(** What holds between the bus and everything shown so far. *)
Record Fifo b o : Prop := {
  fifo_order : entered o = (taken o ++ b_ch b)%list;
  fifo_cap : len (b_ch b) <= b_cap b;
  fifo_drops : b_drops b = u64 (len (lost o))
}.

(** The calls made and those still to make are those of the events taken. *)
Definition Exact (subs : list (string * H)) b o : Prop :=
  b_subs b = subs /\
  ((untimed <$> calls o) ++ pending (b_work b))%list = taken o ≫= (fun e => (fun h => (h, e)) <$> deliver e subs).

Lemma entered_app o o' : entered (o ++ o')%list = (entered o ++ entered o')%list.
Proof. apply omap_app. Qed.
Lemma taken_app o o' : taken (o ++ o')%list = (taken o ++ taken o')%list.
Proof. apply omap_app. Qed.
Lemma lost_app o o' : lost (o ++ o')%list = (lost o ++ lost o')%list.
Proof. apply omap_app. Qed.
Lemma bus_calls_app o o' : calls (o ++ o')%list = (calls o ++ calls o')%list.
Proof. apply omap_app. Qed.

Lemma Fifo_quiet b b' o o' :
  b_ch b' = b_ch b -> b_cap b' = b_cap b -> b_drops b' = b_drops b ->
  entered o' = [] -> taken o' = [] -> lost o' = [] -> Fifo b o -> Fifo b' (o ++ o')%list.
Proof.
  intros E1 E2 E3 H1 H2 H3 [F1 F2 F3]. split; rewrite ?entered_app, ?taken_app, ?lost_app, ?E1, ?E2, ?E3, ?H1, ?H2, ?H3, ?app_nil_r; done.
Qed.

Lemma Fifo_send e b o : full b = false -> Fifo b o -> Fifo (send e b).1 (o ++ (send e b).2)%list.
Proof.
  unfold full. rewrite Z.leb_gt. intros Hc [F1 F2 F3]. destruct b; cbn in *. split; rewrite ?entered_app, ?taken_app, ?lost_app; cbn.
  - by rewrite F1, app_nil_r, app_assoc.
  - unfold len in *. rewrite length_app. cbn in *. lia.
  - by rewrite F3, app_nil_r.
Qed.

Lemma Fifo_notify e b o : Fifo b o -> Fifo (notify e b).1 (o ++ (notify e b).2)%list.
Proof. intros F. unfold notify. destruct (full b) eqn:E; [by apply (Fifo_quiet b)|by apply Fifo_send]. Qed.

Lemma Fifo_publish now e b o : Fifo b o -> Fifo (publish now e b).1.1 (o ++ (publish now e b).1.2)%list.
Proof.
  intros F. unfold publish. destruct (full b) eqn:E; [|by apply Fifo_send]. destruct F as [F1 F2 F3]. destruct b; cbn in *.
  split; rewrite ?entered_app, ?taken_app, ?lost_app, ?app_nil_r; [done..|]. cbn.
  rewrite F3. unfold u64, wrap_u, len. rewrite length_app. cbn. rewrite Zplus_mod_idemp_l. f_equal. lia.
Qed.

(** Changes of the bus that leave the channel alone. *)
Lemma Fifo_ext b b' o : b_ch b' = b_ch b -> b_cap b' = b_cap b -> b_drops b' = b_drops b -> Fifo b o -> Fifo b' o.
Proof. intros E1 E2 E3 F. rewrite <- (app_nil_r o). by apply (Fifo_quiet b). Qed.

Lemma Fifo_step s b b' o o' : bus_step handle s b = Some (b', o') -> Fifo b o -> Fifo b' (o ++ o')%list.
Proof.
  intros Hs F. destruct s as [p h|now e|i|now|]; cbn [bus_step] in Hs.
  - injection Hs as <- <-. by apply (Fifo_quiet b).
  - pose proof (Fifo_publish now e b o F) as F'. destruct (publish now e b) as [[b1 o1] note]. cbn [fst snd] in F'.
    destruct note; injection Hs as <- <-; [by apply (Fifo_ext b1)|done].
  - destruct (b_notices b !! i) as [n|]; [|done].
    pose proof (Fifo_notify n (b {{ b_notices := delete i (b_notices b) }}) o ltac:(by apply (Fifo_ext b))) as F'.
    destruct (notify n (b {{ b_notices := delete i (b_notices b) }})) as [b1 o1]. by injection Hs as <- <-.
  - unfold dispatch in Hs. destruct (b_exited b); [done|]. destruct (b_work b) as [|[h e|e|e] work].
    + destruct (b_ch b) as [|e ch] eqn:Ec; [destruct (b_quit b); [|done]; injection Hs as <- <-; by apply (Fifo_quiet b)|].
      injection Hs as <- <-. destruct F as [F1 F2 F3]. destruct b; cbn in *. subst.
      split; rewrite ?entered_app, ?taken_app, ?lost_app, ?app_nil_r; cbn; [|unfold len in *; cbn in *; lia|done].
      by rewrite F1, <- app_assoc.
    + destruct (handle h now e (b_world b)) as [w evs]. injection Hs as <- <-. by apply (Fifo_quiet b).
    + pose proof (Fifo_publish now e (b {{ b_work := work }}) o) as F'. specialize (F' ltac:(by apply (Fifo_ext b))).
      destruct (publish now e (b {{ b_work := work }})) as [[b1 o1] note]. cbn [fst snd] in F'.
      destruct note; injection Hs as <- <-; [by apply (Fifo_ext b1)|done].
    + pose proof (Fifo_notify e (b {{ b_work := work }}) o ltac:(by apply (Fifo_ext b))) as F'. destruct (notify e (b {{ b_work := work }})) as [b1 o1]. by injection Hs as <- <-.
  - destruct (b_quit b); [done|]. injection Hs as <- <-. by apply (Fifo_quiet b).
Qed.

(** What every step keeps, every run keeps. *)
Lemma run_invariant (ok : BusStep H -> Prop) (I : Bus H W -> list (Obs H) -> Prop) :
  (forall s b b' o o', ok s -> bus_step handle s b = Some (b', o') -> I b o -> I b' (o ++ o')%list) ->
  forall steps b b' o o', Forall ok steps -> bus_run handle steps b = Some (b', o') -> I b o -> I b' (o ++ o')%list.
Proof.
  intros Hstep steps. induction steps as [|s steps IH]; intros b b' o o' Hok Hr Hi.
  - injection Hr as <- <-. by rewrite app_nil_r.
  - apply Forall_cons in Hok as [Hs Hok]. cbn [bus_run] in Hr.
    destruct (bus_step handle s b) as [[b1 o1]|] eqn:E1; [|done]. cbn in Hr.
    destruct (bus_run handle steps b1) as [[b2 o2]|] eqn:E2; [|done]. cbn in Hr. injection Hr as <- <-.
    rewrite app_assoc. eapply IH; [done..|]. by eapply Hstep.
Qed.

(** What [publish] and [notify] leave alone. *)
Lemma publish_frame now e b :
  let b' := (publish now e b).1.1 in
  b_subs b' = b_subs b /\ b_work b' = b_work b /\ b_world b' = b_world b /\
  calls (publish now e b).1.2 = [] /\ taken (publish now e b).1.2 = [].
Proof. unfold publish. destruct (full b); done. Qed.

Lemma notify_frame e b :
  let b' := (notify e b).1 in
  b_subs b' = b_subs b /\ b_work b' = b_work b /\ b_world b' = b_world b /\ calls (notify e b).2 = [] /\ taken (notify e b).2 = [].
Proof. unfold notify. destruct (full b); done. Qed.

#[local] Arguments calls {H} _ : simpl never.
#[local] Arguments taken {H} _ : simpl never.
#[local] Arguments pending {H} _ : simpl never.

Lemma calls_one (h : H) now e : calls [Called h now e] = [(h, now, e)].
Proof. done. Qed.
Lemma taken_one e : taken (H := H) [Taken e] = [e].
Proof. done. Qed.
Lemma pending_one (h : H) e w : pending (Call h e :: w) = (h, e) :: pending w.
Proof. done. Qed.

Lemma Exact_quiet subs b b' o o' :
  b_subs b' = b_subs b -> pending (b_work b') = pending (b_work b) -> calls o' = [] -> taken o' = [] ->
  Exact subs b o -> Exact subs b' (o ++ o')%list.
Proof.
  unfold Exact. intros E1 E2 H1 H2 [? F]. rewrite bus_calls_app, taken_app, H1, H2, !app_nil_r, E1, E2. done.
Qed.

Lemma Exact_step subs s b b' o o' :
  is_subscribe s = false -> bus_step handle s b = Some (b', o') -> Exact subs b o -> Exact subs b' (o ++ o')%list.
Proof.
  intros Hn Hs F. destruct s as [p h|now e|i|now|]; cbn [bus_step] in Hs; [done|..].
  - pose proof (publish_frame now e b) as (E1 & E2 & _ & E4 & E5). destruct (publish now e b) as [[b1 o1] note]. cbn in *.
    destruct note; injection Hs as <- <-; apply (Exact_quiet _ b); try done; destruct b, b1; cbn in *; congruence.
  - destruct (b_notices b !! i) as [n|]; [|done].
    pose proof (notify_frame n (b {{ b_notices := delete i (b_notices b) }})) as (E1 & E2 & _ & E4 & E5). destruct (notify n (b {{ b_notices := delete i (b_notices b) }})) as [b1 o1]. injection Hs as <- <-.
    apply (Exact_quiet _ b); [..|done]; destruct b, b1; cbn in *; congruence.
  - unfold dispatch in Hs. destruct (b_exited b); [done|]. destruct (b_work b) as [|[h e|e|e] work] eqn:Ew.
    + destruct (b_ch b) as [|e ch] eqn:Ec.
      * destruct (b_quit b); [|done]. injection Hs as <- <-. apply (Exact_quiet _ b); done.
      * injection Hs as <- <-. destruct F as [Fs F]. split; [done|]. rewrite bus_calls_app, taken_app, bind_app.
        rewrite Ew in F. change (pending (H := H) []) with (@nil (H * Event)) in F. rewrite app_nil_r in F.
        rewrite taken_one. cbn [b_work mbind list_bind]. by rewrite pending_calls, Fs, !app_nil_r, F.
    + destruct (handle h now e (b_world b)) as [w evs]. injection Hs as <- <-. destruct F as [Fs F]. split; [done|].
      rewrite bus_calls_app, taken_app, app_nil_r, <- F, Ew, calls_one, pending_one. cbn [b_work]. by rewrite fmap_app, pending_pubs, <- app_assoc.
    + pose proof (publish_frame now e (b {{ b_work := work }})) as (E1 & E2 & _ & E4 & E5).
      destruct (publish now e (b {{ b_work := work }})) as [[b1 o1] note]. cbn in *.
      destruct note; injection Hs as <- <-; apply (Exact_quiet _ b); try done; destruct b, b1; cbn in *; subst; done.
    + pose proof (notify_frame e (b {{ b_work := work }})) as (E1 & E2 & _ & E4 & E5). destruct (notify e (b {{ b_work := work }})) as [b1 o1]. injection Hs as <- <-.
      apply (Exact_quiet _ b); try done; destruct b, b1; cbn in *; subst; done.
  - destruct (b_quit b); [done|]. injection Hs as <- <-. by apply (Exact_quiet _ b).
Qed.

(** The state of the handlers is what the calls made of it. *)
Definition after (l : list (H * Z * Event)) (w : W) : W := foldl (fun w c => (handle c.1.1 c.1.2 c.2 w).1) w l.

Lemma world_step w0 s b b' o o' :
  bus_step handle s b = Some (b', o') -> b_world b = after (calls o) w0 -> b_world b' = after (calls (o ++ o')%list) w0.
Proof.
  intros Hs Ew. rewrite bus_calls_app. unfold after in *. rewrite foldl_app, <- Ew. destruct s as [p h|now e|i|now|]; cbn [bus_step] in Hs.
  - by injection Hs as <- <-.
  - pose proof (publish_frame now e b) as (_ & _ & E3 & E4 & _). destruct (publish now e b) as [[b1 o1] note]. cbn in *.
    destruct note; injection Hs as <- <-; rewrite E4; by destruct b, b1.
  - destruct (b_notices b !! i) as [n|]; [|done].
    pose proof (notify_frame n (b {{ b_notices := delete i (b_notices b) }})) as (_ & _ & E3 & E4 & _). destruct (notify n (b {{ b_notices := delete i (b_notices b) }})) as [b1 o1]. injection Hs as <- <-.
    cbn in *. rewrite E4. by destruct b, b1.
  - unfold dispatch in Hs. destruct (b_exited b); [done|]. destruct (b_work b) as [|[h e|e|e] work].
    + destruct (b_ch b); [destruct (b_quit b); [|done]|]; by injection Hs as <- <-.
    + destruct (handle h now e (b_world b)) as [w evs] eqn:Eh. injection Hs as <- <-. rewrite calls_one. cbn [foldl fst snd]. by rewrite Eh.
    + pose proof (publish_frame now e (b {{ b_work := work }})) as (_ & _ & E3 & E4 & _).
      destruct (publish now e (b {{ b_work := work }})) as [[b1 o1] note]. cbn in *.
      destruct note; injection Hs as <- <-; rewrite E4; by destruct b, b1.
    + pose proof (notify_frame e (b {{ b_work := work }})) as (_ & _ & E3 & E4 & _). destruct (notify e (b {{ b_work := work }})) as [b1 o1]. injection Hs as <- <-. cbn in *. rewrite E4. by destruct b, b1.
  - destruct (b_quit b); [done|]. by injection Hs as <- <-.
Qed.
End Runs.

Lemma subscribe_all {H W} (subs l : list (string * H)) (b : Bus H W) :
  b_subs b = l -> b_work b = [] ->
  let b' := foldl (fun b s => Subscribe s.1 s.2 b) b subs in
  b_subs b' = (l ++ subs)%list /\ b_work b' = [] /\ b_ch b' = b_ch b /\ b_cap b' = b_cap b /\ b_drops b' = b_drops b /\ b_world b' = b_world b /\
  b_quit b' = b_quit b /\ b_exited b' = b_exited b.
Proof.
  revert b l. induction subs as [|[p h] subs IH]; intros b l Hl Hw; cbn [foldl] in *; cbn zeta; [by rewrite app_nil_r|].
  destruct (IH (Subscribe p h b) (l ++ [(p, h)])%list) as (E & R); [cbn; by rewrite Hl|done|].
  cbn [fst snd]. rewrite E. split; [by rewrite <- app_assoc|exact R].
Qed.

(** Everything that a run of the bus keeps, for the reactions to build on. *)
Lemma bus_delivery {H W} (handle : H -> Z -> Event -> W -> W * list Event) (bufSize : Z) (w : W) (subs : list (string * H))
    (steps : list (BusStep H)) (b : Bus H W) (o : list (Obs H)) :
  Forall (fun s => is_subscribe s = false) steps ->
  bus_run handle steps (foldl (fun b s => Subscribe s.1 s.2 b) (NewBus bufSize w) subs) = Some (b, o) ->
  entered o = (taken o ++ b_ch b)%list /\
  len (b_ch b) <= b_cap b /\
  Drops b = u64 (len (lost o)) /\
  ((untimed <$> calls o) ++ pending (b_work b))%list = taken o ≫= (fun e => (fun h => (h, e)) <$> deliver e subs) /\
  b_world b = after handle (calls o) w.
Proof.
  intros Hns Hr. destruct (subscribe_all subs [] (NewBus (H := H) bufSize w) eq_refl eq_refl) as (E1 & E2 & E3 & E4 & E5 & E6 & _).
  revert Hr E1 E2 E3 E4 E5 E6. generalize (foldl (fun b s => Subscribe s.1 s.2 b) (NewBus bufSize w) subs). intros b0 Hr E1 E2 E3 E4 E5 E6.
  assert (Fifo b o) as [F1 F2 F3].
  { apply (run_invariant handle (fun s => is_subscribe s = false) Fifo (fun s b b' o o' _ => Fifo_step handle s b b' o o') steps b0 b [] o Hns Hr).
    split; rewrite ?E3, ?E4, ?E5; [done| |done]. unfold len, NewBus, defaultBusBuffer. cbn. destruct (Z.leb_spec bufSize 0); lia. }
  assert (Exact subs b o) as [_ F4].
  { apply (run_invariant handle _ (Exact subs) (fun s b b' o o' => Exact_step handle subs s b b' o o') steps b0 b [] o Hns Hr). unfold Exact. by rewrite E1, E2. }
  split_and!; try done.
  apply (run_invariant handle (fun s => is_subscribe s = false) (fun b o => b_world b = after handle (calls o) w)
           (fun s b b' o o' _ => world_step handle w s b b' o o') steps b0 b [] o Hns Hr E6).
Qed.

(** The handlers that a topic selects: those whose pattern matches, in the order of
    their subscriptions, and no others. *)
Inductive selects {H} (t : string) : list (string * H) -> list H -> Prop :=
| selects_nil : selects t [] []
| selects_match p h subs hs : matches p t -> selects t subs hs -> selects t ((p, h) :: subs) (h :: hs)
| selects_other p h subs hs : ~ matches p t -> selects t subs hs -> selects t ((p, h) :: subs) hs.

(** The calls for a sequence of events: each selected handler once for each event. *)
Inductive delivered {H} (subs : list (string * H)) : list Event -> list (H * Event) -> Prop :=
| delivered_nil : delivered subs [] []
| delivered_event e es hs cs :
    selects (Topic e) subs hs -> delivered subs es cs ->
    delivered subs (e :: es) (((fun h => (h, e)) <$> hs) ++ cs)%list.

Lemma deliver_selects {H} e (subs : list (string * H)) : selects (Topic e) subs (deliver e subs).
Proof.
  unfold deliver. induction subs as [|[p h] subs IH]; [constructor|]. rewrite filter_cons. cbn [fst].
  pose proof (topicMatches_spec p (Topic e)) as Hm. destruct (decide _) as [Hd|Hd]; constructor; tauto.
Qed.

Lemma deliver_all {H} (subs : list (string * H)) (es : list Event) :
  delivered subs es (es ≫= (fun e => (fun h => (h, e)) <$> deliver e subs)).
Proof. induction es as [|e es IH]; [constructor|]. cbn. constructor; [apply deliver_selects|exact IH]. Qed.

(** [C35] Delivery.  With the handlers subscribed at the start, and for every
    interleaving of publishers, notifications and the dispatcher: events leave
    the channel in the order they entered it, the channel keeps its capacity, the
    counter counts the events lost, and the calls made, with those still to make for the
    event in hand, are: for each event taken, in order, one call of every handler whose pattern is the
    event's topic, or ends in ".*" and has the topic below its prefix, in the order of
    the subscriptions, and no other call; and the state of the handlers is what
    the calls made of it. *)
Theorem bus_delivers {H W} (handle : H -> Z -> Event -> W -> W * list Event) (bufSize : Z) (w : W) (subs : list (string * H))
    (steps : list (BusStep H)) (b : Bus H W) (o : list (Obs H)) :
  Forall (fun s => is_subscribe s = false) steps ->
  bus_run handle steps (foldl (fun b s => Subscribe s.1 s.2 b) (NewBus bufSize w) subs) = Some (b, o) ->
  entered o = (taken o ++ b_ch b)%list /\
  len (b_ch b) <= b_cap b /\
  Drops b = u64 (len (lost o)) /\
  delivered subs (taken o) ((untimed <$> calls o) ++ pending (b_work b))%list /\
  b_world b = after handle (calls o) w.
Proof.
  intros Hns Hr. destruct (bus_delivery handle bufSize w subs steps b o Hns Hr) as (? & ? & ? & -> & ?).
  split_and!; [done..| |done]. apply deliver_all.
Qed.

(** ** The end of Stop *)

Section Drain.
Context {H W : Type} (handle : H -> Z -> Event -> W -> W * list Event) (primary : Event -> bool).
(** Handlers publish at most one event, only for primary events, and what they
    publish is not primary; nor are notifications. *)
Context (publish_one : forall h now e w, (length (handle h now e w).2 <= if primary e then 1 else 0)%nat).
Context (publish_secondary : forall h now e w, Forall (fun e' => primary e' = false) (handle h now e w).2).
Context (notice_secondary : forall now t n, primary (NewBusDropEvent now t n) = false).
Implicit Types (b : Bus H W) (e : Event).

(** Steps that an event or a piece of work can still cause, with [n] handlers. *)
Definition cost (n : nat) e : nat := if primary e then 1 + n * (n + 4) else 1 + n.
Definition work_cost (n : nat) (w : Work H) : nat :=
  match w with Call _ e => if primary e then n + 4 else 1 | Pub e => 2 + cost n e | Notify e => 1 + cost n e end.

Definition remaining b : nat :=
  (sum_list_with (cost (length (b_subs b))) (b_ch b) + sum_list_with (work_cost (length (b_subs b))) (b_work b))%nat.

Lemma cost_least n e : (1 + n <= cost n e)%nat.
Proof. unfold cost. destruct (primary e); nia. Qed.

Lemma total_calls n e (hs : list H) : sum_list_with (work_cost n) ((fun h => Call h e) <$> hs) = (length hs * (if primary e then n + 4 else 1))%nat.
Proof. induction hs as [|h hs IH]; [done|]. cbn in *. rewrite IH. lia. Qed.

Lemma deliver_length e (subs : list (string * H)) : (length (deliver e subs) <= length subs)%nat.
Proof. unfold deliver. rewrite length_fmap. apply length_filter. Qed.

Lemma remaining_step now b :
  b_exited b = false -> (0 < remaining b)%nat ->
  exists b' o, dispatch handle now b = Some (b', o) /\ (remaining b' < remaining b)%nat /\
    b_exited b' = false /\ b_quit b' = b_quit b /\ b_subs b' = b_subs b.
Proof.
  intros Hx Hr. unfold dispatch. rewrite Hx. destruct b as [subs ch cap drops quit exited work notices world]. cbn in Hx. subst exited.
  unfold remaining in *. cbn in *. set (n := length subs) in *. destruct work as [|[h e|e|e] work].
  - destruct ch as [|e ch]; [cbn in Hr; lia|]. eexists _, _. split; [done|]. cbn. split; [|done].
    rewrite total_calls. pose proof (deliver_length e subs) as Hd. fold n in Hd |- *. unfold deliver in Hd. unfold cost at 2. destruct (primary e); nia.
  - pose proof (publish_one h now e world) as H1. pose proof (publish_secondary h now e world) as H2.
    destruct (handle h now e world) as [w evs]. eexists _, _. split; [done|]. cbn in *. split; [|done]. fold n. rewrite sum_list_with_app.
    destruct evs as [|e' [|]]; cbn in *; [destruct (primary e); lia| |destruct (primary e); lia].
    apply Forall_cons in H2 as [H2 _]. unfold cost at 2. rewrite H2. destruct (primary e); lia.
  - unfold publish. cbn. destruct (full _); eexists _, _; (split; [done|]); cbn; fold n; (split; [|done]).
    + unfold cost at 2. rewrite notice_secondary. pose proof (cost_least n e). lia.
    + rewrite sum_list_with_app. cbn. lia.
  - unfold notify. cbn. destruct (full _); eexists _, _; (split; [done|]); cbn; fold n; (split; [|done]); rewrite ?sum_list_with_app; cbn; pose proof (cost_least n e); lia.
Qed.

(** After [Stop], and without other publishers, the dispatcher delivers what is
    left and ends, whatever the clock shows. *)
Lemma drain_ends (clock : nat -> Z) b :
  b_exited b = false -> b_quit b = true ->
  exists n b' o, (n <= S (remaining b))%nat /\
    bus_run handle ((fun i => SDispatch (clock i)) <$> seq 0 n) b = Some (b', o) /\
    b_exited b' = true /\ b_ch b' = [] /\ b_work b' = [].
Proof.
  remember (remaining b) as m eqn:Em. revert clock b Em. induction m as [m IH] using lt_wf_ind. intros clock b -> Hx Hq.
  destruct (decide (0 < remaining b)%nat) as [Hr|Hr].
  - destruct (remaining_step (clock 0%nat) b Hx Hr) as (b1 & o1 & Hd & Hlt & Hx1 & Hq1 & _).
    destruct (IH _ Hlt (fun i => clock (S i)) b1 eq_refl Hx1 ltac:(congruence)) as (n & b' & o & Hn & Hrun & Hend).
    exists (S n), b', (o1 ++ o)%list. split; [lia|]. split; [|done]. cbn [seq fmap list_fmap bus_run bus_step]. rewrite Hd. cbn.
    rewrite <- fmap_S_seq, <- list_fmap_compose. unfold compose. by rewrite Hrun.
  - exists 1%nat, (b {{ b_exited := true }}), []. split; [lia|]. unfold remaining in Hr. destruct b as [subs ch cap drops quit exited work notices world].
    cbn in *. subst exited quit. destruct ch as [|e ch]; [|cbn in Hr; pose proof (cost_least (length subs) e); lia].
    destruct work as [|[h e|e|e] work]; [done|cbn in Hr; destruct (primary e); lia|cbn in Hr; lia..].
Qed.
End Drain.
