(* ===== verification/Reactions.v ===== *)
(** * What reacts to events (fraud_enforcer.go, freeleech_actuator.go, interval_cache.go, eventbus_subscribers.go, eventbus_redis.go, sse_hub.go, audit.go, site_comm.go)

    The subscribers of the bus of [Events] and the state each keeps, and their
    composition: a state with all of them, a name for every handler, and the
    subscriptions their constructors make.  Iteration over the users, JSON and the
    answers of the site are arguments.

    The theorems: the end of [Stop] with the handlers of this program, what flags make of
    a user over every interleaving of the bus, and the distance between two grants. *)
From Stdlib Require Import String Sorting.Sorted.
From S2P Require Import Prelude GoStr GoFloat GoSort NetIP TrackerTypes Announce Events EventsSpec.
Open Scope list_scope.
Open Scope string_scope.
Open Scope Z_scope.

(** ** Fraud enforcement (fraud_enforcer.go) *)

Record FlagRecord := mkFlag { fl_Score : float64; fl_FlaggedAt : Z; fl_Strikes : Z }.

Record FraudEnforcer := mkEnforcer {
  fe_flags : gmap Z FlagRecord;
  fe_users : UserList;
  fe_strikesToBan : Z;
  fe_scoreBanThresh : float64
}.

Definition NewFraudEnforcer (users : UserList) : FraudEnforcer := mkEnforcer ∅ users 3 (flit 90 100).

(** The user that [GetByID] finds, with the key of the list. *)
Definition find_user (order : UserList -> list (string * User)) (ul : UserList) (id : Z) : option (string * User) :=
  List.find (fun '(_, u) => u_ID u =? id) (order ul).

Definition banReason : string := "fraud_enforcer: score_threshold_exceeded".

Definition onFlagged (order : UserList -> list (string * User)) (now : Z) (e : Event) (fe : FraudEnforcer) : FraudEnforcer * list Event :=
  match ev_body e with
  | UserFlaggedEvent userID score =>
      let strikes := match fe_flags fe !! userID with Some rec => fl_Strikes rec | None => 0 end + 1 in
      let fe := fe {{ fe_flags := <[userID := mkFlag score now strikes]> (fe_flags fe) }} in
      match find_user order (fe_users fe) userID with
      | None => (fe, [])
      | Some (key, user) =>
          if fleb (fe_scoreBanThresh fe) score || (fe_strikesToBan fe <=? strikes) then
            (fe {{ fe_users := <[key := user {{ u_Deleted := true }}]> (fe_users fe) }},
             [NewEvent now (TraceID e) (UserBannedEvent userID banReason)])
          else (fe {{ fe_users := <[key := user {{ u_CanLeech := false }}]> (fe_users fe) }}, [])
      end
  | _ => (fe, [])
  end.

Definition onUnflagged (order : UserList -> list (string * User)) (e : Event) (fe : FraudEnforcer) : FraudEnforcer :=
  match ev_body e with
  | UserUnflaggedEvent userID =>
      let fe := match fe_flags fe !! userID with
                | Some rec => fe {{ fe_flags := <[userID := rec {{ fl_Strikes := Z.max 0 (fl_Strikes rec - 1) }}]> (fe_flags fe) }}
                | None => fe
                end in
      match find_user order (fe_users fe) userID with
      | None => fe
      | Some (key, user) =>
          if u_Deleted user then fe else fe {{ fe_users := <[key := user {{ u_CanLeech := true }}]> (fe_users fe) }}
      end
  | _ => fe
  end.

(** ** Callbacks to the site (site_comm.go) *)

Definition siteCommMaxRetries : nat := 3.
Definition siteCommBaseDelay : Z := 200 * 1000000.

(** [post] from an attempt on, with the attempts left: [reply] is the network,
    an error or a status.  The result is the error, the number of requests sent
    and the sleeps between them. *)
Fixpoint post_from (n attempt : nat) (reply : nat -> result string Z) (lastErr : option string) : option string * nat * list Z :=
  match n with
  | O => (lastErr, O, [])
  | S n =>
      let sleep := if (0 <? attempt)%nat then [siteCommBaseDelay * 2 ^ (Z.of_nat attempt - 1)] else [] in
      let '(err, sent, sleeps) :=
        match reply attempt with
        | Err e => post_from n (S attempt) reply (Some e)
        | Ok code =>
            let msg := "HTTP " ++ dec code ++ " from Gazelle" in
            if 500 <=? code then post_from n (S attempt) reply (Some msg)
            else if 400 <=? code then (Some msg, O, [])
            else (None, O, [])
        end in
      (err, S sent, (sleep ++ sleeps)%list)
  end.

Definition post (reply : nat -> result string Z) : option string * nat * list Z :=
  post_from siteCommMaxRetries 0 reply None.

(** ** Freeleech grants (freeleech_actuator.go) *)

Record FreeleechActuator := mkActuator {
  fa_lastGrant : gmap Z Z;
  fa_scoreThreshold : float64;
  fa_cooldown : Z;
  (** Calls of [GrantFreeleech], which drops the outcome: torrent and time. *)
  fa_granted : list (Z * Z)
}.

Definition defaultFreeleechThreshold : float64 := flit 75 100.

(** [env] is the parsed FREELEECH_THRESHOLD, when it parses. *)
Definition NewFreeleechActuator (env : option float64) : FreeleechActuator :=
  mkActuator ∅ (default defaultFreeleechThreshold env) (6 * 3600 * 1000000000) [].

Definition onRecommended (now : Z) (e : Event) (fa : FreeleechActuator) : FreeleechActuator * list Event :=
  match ev_body e with
  | FreeleechRecommendedEvent torrentID priorityScore _ =>
      if fltb priorityScore (fa_scoreThreshold fa) then (fa, [])
      else if match fa_lastGrant fa !! torrentID with Some last => now - last <? fa_cooldown fa | None => false end then (fa, [])
      else
        (fa {{ fa_lastGrant := <[torrentID := now]> (fa_lastGrant fa) }} {{ fa_granted := (fa_granted fa ++ [(torrentID, now)])%list }},
         [NewEvent now (TraceID e) (FreeleechGrantedEvent torrentID)])
  | _ => (fa, [])
  end.

(** ** Recommended intervals (interval_cache.go) *)

Abbreviation IntervalCache := (gmap Z Z).

Definition GetOrDefault (torrentID fallback : Z) (ic : IntervalCache) : Z := default fallback (ic !! torrentID).
Definition ISet (torrentID interval : Z) (ic : IntervalCache) : IntervalCache := <[torrentID := interval]> ic.
Definition onUpdate (e : Event) (ic : IntervalCache) : IntervalCache :=
  match ev_body e with IntervalUpdateEvent torrentID interval => ISet torrentID interval ic | _ => ic end.

(** ** The audit log (audit.go) *)

Record LogRow := mkLogRow {
  ar_ID : Z;
  ar_timestamp : Z;
  ar_user_id : option Z;
  ar_action : string;
  ar_resource_type : string;
  ar_resource_id : string;
  ar_ip_address : string;
  ar_success : bool;
  ar_error_message : string;
  ar_metadata : string
}.

(** What the request context holds; the metadata as JSON. *)
Record AuditContext := mkAuditCtx { ctx_user_id : option Z; ctx_ip : option string; ctx_metadata : option string }.
Definition Background : AuditContext := mkAuditCtx None None None.

Record AuditLogger := mkAudit { al_rows : list LogRow; al_next : Z }.

(** [dberr] is the outcome of the insert; [now] in nanoseconds. *)
Definition Log_audit (ctx : AuditContext) (action resourceType resourceID : string) (success : bool) (err : option string)
    (now : Z) (dberr : option string) (al : AuditLogger) : AuditLogger * option string :=
  match dberr with
  | Some e => (al, Some e)
  | None =>
      (mkAudit (al_rows al ++ [mkLogRow (al_next al) (now / 1000000000) (ctx_user_id ctx) action resourceType resourceID
                                 (default "" (ctx_ip ctx)) success (default "" err) (default "{}" (ctx_metadata ctx))])%list
               (al_next al + 1), None)
  end.

Record AuditFilters := mkFilters {
  af_UserID : option Z;
  af_Action : string;
  af_ResourceType : string;
  af_StartTime : option Z;
  af_EndTime : option Z;
  af_Limit : Z
}.

(** The WHERE clause: the empty string and nil filter nothing. *)
Definition audit_match (f : AuditFilters) (r : LogRow) : bool :=
  match af_UserID f with Some u => match ar_user_id r with Some v => v =? u | None => false end | None => true end &&
  (String.eqb (af_Action f) "" || String.eqb (ar_action r) (af_Action f)) &&
  (String.eqb (af_ResourceType f) "" || String.eqb (ar_resource_type r) (af_ResourceType f)) &&
  match af_StartTime f with Some t => t <=? ar_timestamp r | None => true end &&
  match af_EndTime f with Some t => ar_timestamp r <=? t | None => true end.

(** [scan] is the order in which rows of equal time come; a negative limit is none. *)
Definition Query_audit (scan : list LogRow -> list LogRow) (f : AuditFilters) (al : AuditLogger) : list LogRow :=
  let rows := slice_stable (fun a b => ar_timestamp b <? ar_timestamp a) (scan (List.filter (audit_match f) (al_rows al))) in
  if af_Limit f <? 0 then rows else take (Z.to_nat (af_Limit f)) rows.

(** The handlers of the audit subscriber; errors are dropped. *)
Definition onAnomaly (now : Z) (dberr : option string) (e : Event) (al : AuditLogger) : AuditLogger :=
  match ev_body e with
  | ClientAnomalyEvent userID _ _ _ reason =>
      (Log_audit Background "anomaly_client" "peer" (dec userID) false (Some reason) now dberr al).1
  | BehaviourAnomalyEvent userID _ reason _ _ =>
      (Log_audit Background "anomaly_behaviour" "peer" (dec userID) false (Some reason) now dberr al).1
  | _ => al
  end.

Definition onBanned (now : Z) (dberr : option string) (e : Event) (al : AuditLogger) : AuditLogger :=
  match ev_body e with
  | UserBannedEvent userID reason => (Log_audit Background "user_banned" "user" (dec userID) true (Some reason) now dberr al).1
  | _ => al
  end.

Definition onFreeleech (now : Z) (dberr : option string) (e : Event) (al : AuditLogger) : AuditLogger :=
  match ev_body e with
  | FreeleechGrantedEvent torrentID => (Log_audit Background "freeleech_granted" "torrent" (dec torrentID) true None now dberr al).1
  | _ => al
  end.

(** ** Server-sent events (sse_hub.go) *)

(** The buffered messages of every connected client. *)
Abbreviation SSEHub := (gmap Z (list string)).
Definition sseBuffer : Z := 64.

Definition addClient (c : Z) (h : SSEHub) : SSEHub := <[c := []]> h.
Definition removeClient (c : Z) (h : SSEHub) : SSEHub := delete c h.
Definition ClientCount (h : SSEHub) : Z := Z.of_nat (size h).

Definition offer (msg : string) (ch : list string) : list string :=
  if len ch <? sseBuffer then (ch ++ [msg])%list else ch.

Definition forward (marshal : Event -> option string) (e : Event) (h : SSEHub) : SSEHub :=
  match marshal e with None => h | Some msg => offer msg <$> h end.

(** The client writes the next message to its connection. *)
Definition sse_next (c : Z) (h : SSEHub) : SSEHub * option string :=
  match h !! c with
  | Some (msg :: rest) => (<[c := rest]> h, Some ("data: " ++ msg ++ string_of_bytes [10; 10]))
  | _ => (h, None)
  end.

(** ** The bridge to Redis (eventbus_redis.go) *)

Definition RedisChannelSSE : string := "ocelot:sse:events".

Record redisEnvelope := mkEnvelope { re_Topic : string; re_TraceID : string; re_OccAt : Z; re_Payload : string }.

(** JSON of the payloads, as structs of the fields they have. *)
Record PayloadDecoders := mkPayloads {
  pd_flagged : string -> option (Z * float64);
  pd_unflagged : string -> option Z;
  pd_freeleech : string -> option (Z * float64 * float64);
  pd_interval : string -> option (Z * Z)
}.

Definition decodeInbound (d : PayloadDecoders) (env : redisEnvelope) : option Event :=
  let base := mkBase (re_Topic env) (re_OccAt env) (re_TraceID env) in
  if String.eqb (re_Topic env) "user.flagged" then
    '(u, score) ← pd_flagged d (re_Payload env); Some (mkEvent base (UserFlaggedEvent u score))
  else if String.eqb (re_Topic env) "user.unflagged" then
    u ← pd_unflagged d (re_Payload env); Some (mkEvent base (UserUnflaggedEvent u))
  else if String.eqb (re_Topic env) "freeleech.recommended" then
    '(t, score, dead) ← pd_freeleech d (re_Payload env); Some (mkEvent base (FreeleechRecommendedEvent t score dead))
  else if String.eqb (re_Topic env) "interval.update" then
    '(t, i) ← pd_interval d (re_Payload env); Some (mkEvent base (IntervalUpdateEvent t i))
  else None.

(** The envelope an event is published in, when it can be marshalled. *)
Definition publishToRedis (marshal : Event -> option string) (e : Event) : option redisEnvelope :=
  payload ← marshal e; Some (mkEnvelope (Topic e) (TraceID e) (OccurredAt e) payload).

(** ** All of it on one bus *)

Inductive HandlerName :=
| HFlagged | HUnflagged | HRecommended | HInterval
| HAnomaly | HBanned | HFreeleech | HForward | HRedis.
#[export] Instance HandlerName_eq : EqDecision HandlerName.
Proof. solve_decision. Defined.

Record Reactors := mkReactors {
  rx_fraud : FraudEnforcer;
  rx_freeleech : FreeleechActuator;
  rx_intervals : IntervalCache;
  rx_audit : AuditLogger;
  rx_hub : SSEHub;
  (** What was published to Redis. *)
  rx_redis : list (string * redisEnvelope)
}.

Section React.
Context (order : UserList -> list (string * User)) (marshal : Event -> option string) (dberr : Z -> option string).

Definition react (h : HandlerName) (now : Z) (e : Event) (w : Reactors) : Reactors * list Event :=
  match h with
  | HFlagged => let '(fe, evs) := onFlagged order now e (rx_fraud w) in (w {{ rx_fraud := fe }}, evs)
  | HUnflagged => (w {{ rx_fraud := onUnflagged order e (rx_fraud w) }}, [])
  | HRecommended => let '(fa, evs) := onRecommended now e (rx_freeleech w) in (w {{ rx_freeleech := fa }}, evs)
  | HInterval => (w {{ rx_intervals := onUpdate e (rx_intervals w) }}, [])
  | HAnomaly => (w {{ rx_audit := onAnomaly now (dberr now) e (rx_audit w) }}, [])
  | HBanned => (w {{ rx_audit := onBanned now (dberr now) e (rx_audit w) }}, [])
  | HFreeleech => (w {{ rx_audit := onFreeleech now (dberr now) e (rx_audit w) }}, [])
  | HForward => (w {{ rx_hub := forward marshal e (rx_hub w) }}, [])
  | HRedis =>
      (match publishToRedis marshal e with
       | Some env => w {{ rx_redis := (rx_redis w ++ [(RedisChannelSSE, env)])%list }}
       | None => w
       end, [])
  end.
End React.

(** The subscriptions of the constructors, in the order enforcer, actuator,
    cache, audit, hub and bridge.  Those of the metrics, whose handlers change only counters of
    Prometheus, are left out. *)
Definition subscriptions : list (string * HandlerName) :=
  [("user.flagged", HFlagged); ("user.unflagged", HUnflagged);
   ("freeleech.recommended", HRecommended); ("interval.update", HInterval);
   ("anomaly.*", HAnomaly); ("user.banned", HBanned); ("freeleech.granted", HFreeleech);
   ("anomaly.*", HForward); ("user.flagged", HForward); ("user.unflagged", HForward); ("user.banned", HForward);
   ("freeleech.granted", HForward); ("infra.bus_drop", HForward); ("torrent.completed", HForward);
   ("swarm.updated", HForward); ("announce.success", HForward);
   ("anomaly.*", HRedis); ("user.flagged", HRedis); ("user.banned", HRedis); ("freeleech.granted", HRedis)].

Definition start_bus (bufSize : Z) (w : Reactors) : Bus HandlerName Reactors :=
  foldl (fun b s => Subscribe s.1 s.2 b) (NewBus bufSize w) subscriptions.

(** * Theorems on the reactions *)

(** ** Stop *)

(** Handlers publish only for flags and recommendations. *)
Definition primary (e : Event) : bool :=
  match ev_body e with UserFlaggedEvent _ _ | FreeleechRecommendedEvent _ _ _ => true | _ => false end.

Lemma react_publishes order marshal dberr h now e w :
  (length (react order marshal dberr h now e w).2 <= if primary e then 1 else 0)%nat /\
  Forall (fun e' => primary e' = false) (react order marshal dberr h now e w).2.
Proof.
  unfold primary. destruct h; cbn [react]; try (cbn; split; [lia|by apply Forall_nil]).
  - unfold onFlagged. destruct (ev_body e); try (cbn; split; [lia|by apply Forall_nil]).
    repeat (case_match; simplify_eq); cbn; (split; [lia|]); repeat constructor.
  - unfold onRecommended. destruct (ev_body e); try (cbn; split; [lia|by apply Forall_nil]).
    repeat (case_match; simplify_eq); cbn; (split; [lia|]); repeat constructor.
Qed.

Lemma bus_run_app {H W} (handle : H -> Z -> Event -> W -> W * list Event) l l' b b1 o1 :
  bus_run handle l b = Some (b1, o1) ->
  bus_run handle (l ++ l')%list b = '(b2, o2) ← bus_run handle l' b1; Some (b2, (o1 ++ o2)%list).
Proof.
  revert b o1. induction l as [|s l IH]; intros b o1 Hr.
  - injection Hr as <- <-. rewrite app_nil_l. by destruct (bus_run handle l' b) as [[]|].
  - cbn [bus_run app] in *. destruct (bus_step handle s b) as [[b2 o2]|]; [|done]. cbn in *.
    destruct (bus_run handle l b2) as [[b3 o3]|] eqn:E; [|done]. cbn in Hr. injection Hr as <- <-.
    rewrite (IH _ _ E). destruct (bus_run handle l' b3) as [[b4 o4]|]; [|done]. cbn. by rewrite app_assoc.
Qed.

(** [C39] [Stop] returns, and nothing published before is forgotten: once the
    other goroutines are silent, the dispatcher ends after finitely many steps, and
    then every event that entered the channel has been given to all its handlers. *)
Theorem stop_drains order marshal dberr (bufSize : Z) (w : Reactors) (steps : list (BusStep HandlerName)) b o (clock : nat -> Z) :
  Forall (fun s => is_subscribe s = false) steps ->
  bus_run (react order marshal dberr) steps (start_bus bufSize w) = Some (b, o) ->
  b_quit b = true -> b_exited b = false ->
  exists n b' o',
    bus_run (react order marshal dberr) (steps ++ ((fun i => SDispatch (clock i)) <$> seq 0 n))%list (start_bus bufSize w) = Some (b', o') /\
    b_exited b' = true /\ taken o' = entered o' /\
    (untimed <$> calls o') = entered o' ≫= (fun e => (fun h => (h, e)) <$> deliver e subscriptions).
Proof.
  intros Hns Hr Hq Hx.
  destruct (drain_ends (react order marshal dberr) primary (fun h now e w => proj1 (react_publishes order marshal dberr h now e w))
              (fun h now e w => proj2 (react_publishes order marshal dberr h now e w)) (fun _ _ _ => eq_refl) clock b Hx Hq)
    as (n & b' & o2 & _ & Hrun & Hx' & Hc & Hw).
  pose proof (bus_run_app _ steps ((fun i => SDispatch (clock i)) <$> seq 0 n) _ _ _ Hr) as Happ.
  rewrite Hrun in Happ. exists n, b', (o ++ o2)%list. split; [exact Happ|]. split; [done|].
  assert (Forall (fun s : BusStep HandlerName => is_subscribe s = false) (steps ++ ((fun i => SDispatch (clock i)) <$> seq 0 n))%list) as Hns'
    by (apply Forall_app; split; [done|]; apply Forall_fmap, Forall_forall; by intros).
  destruct (bus_delivery (react order marshal dberr) bufSize w subscriptions _ b' _ Hns' Happ) as (E1 & _ & _ & E2 & _).
  rewrite Hc, app_nil_r in E1. rewrite Hw, app_nil_r in E2. rewrite E2, E1. done.
Qed.

(** ** Flags *)

(** What an event says of the user: a flag with its score, or that it is lifted. *)
Definition flag_of (id : Z) (e : Event) : option (option float64) :=
  match ev_body e with
  | UserFlaggedEvent u score => if (u =? id) && String.eqb (Topic e) "user.flagged" then Some (Some score) else None
  | UserUnflaggedEvent u => if (u =? id) && String.eqb (Topic e) "user.unflagged" then Some None else None
  | _ => None
  end.

Definition strikes (id : Z) (evs : list Event) : Z :=
  foldl (fun n e => match flag_of id e with Some (Some _) => n + 1 | Some None => Z.max 0 (n - 1) | None => n end) 0 evs.

(** Some flag had a score of 0.9 or more, or was the third strike. *)
Definition convicts (id : Z) (evs : list Event) : Prop :=
  exists pre e post score, evs = (pre ++ e :: post)%list /\ flag_of id e = Some (Some score) /\
    (fleb (flit 90 100) score = true \/ 3 <= strikes id (pre ++ [e])%list).

(** The last flag or its lifting decides. *)
Definition may_leech (id : Z) (evs : list Event) (initially : bool) : bool :=
  foldl (fun c e => match flag_of id e with Some (Some _) => false | Some None => true | None => c end) initially evs.

(** One event's effect on the strikes and the record of the user. *)
Definition judge (id : Z) (s : Z * User) (e : Event) : Z * User :=
  let '(n, u) := s in
  match flag_of id e with
  | Some (Some score) =>
      (n + 1, if fleb (flit 90 100) score || (3 <=? n + 1) then u {{ u_Deleted := true }} else u {{ u_CanLeech := false }})
  | Some None => (Z.max 0 (n - 1), if u_Deleted u then u else u {{ u_CanLeech := true }})
  | None => (n, u)
  end.

Lemma convicts_snoc id evs e :
  convicts id (evs ++ [e])%list <->
  convicts id evs \/ exists score, flag_of id e = Some (Some score) /\ (fleb (flit 90 100) score = true \/ 3 <= strikes id (evs ++ [e])%list).
Proof.
  split.
  - intros (pre & e' & post & score & E & Hf & Hc). destruct post as [|x post _] using rev_ind.
    + apply app_inj_tail in E as [<- <-]. right. by exists score.
    + rewrite app_comm_cons, app_assoc in E. apply app_inj_tail in E as [-> ->]. left. by exists pre, e', post, score.
  - intros [(pre & e' & post & score & -> & Hf & Hc)|(score & Hf & Hc)].
    + exists pre, e', (post ++ [e])%list, score. by rewrite <- app_assoc.
    + by exists evs, e, [], score.
Qed.

Lemma judge_spec id evs u :
  u_Deleted u = false ->
  let s := foldl (judge id) (0, u) evs in
  s.1 = strikes id evs /\ (u_Deleted s.2 = true <-> convicts id evs) /\
  (~ convicts id evs -> u_CanLeech s.2 = may_leech id evs (u_CanLeech u)) /\ u_ID s.2 = u_ID u.
Proof.
  intros Hu. cbn zeta. induction evs as [|e evs (E1 & E2 & E3 & E4)] using rev_ind.
  - cbn. split_and!; try done. rewrite Hu. split; [done|]. intros (pre & e & post & score & E & _). by destruct pre.
  - rewrite foldl_snoc, convicts_snoc. unfold strikes, may_leech in *. rewrite !foldl_snoc.
    destruct (foldl (judge id) (0, u) evs) as [n u']. cbn [fst snd] in *. rewrite <- E1. cbn [judge].
    destruct (flag_of id e) as [[score|]|] eqn:Ef; cbn [fst snd].
    + destruct (fleb (flit 90 100) score || (3 <=? n + 1)) eqn:Ec; cbn [u_Deleted u_CanLeech u_ID].
      * assert (exists s, Some (Some score) = Some (Some s) /\ (fleb (flit 90 100) s = true \/ 3 <= n + 1)) as Hc.
        { exists score. split; [done|]. apply orb_true_iff in Ec as [?|?%Z.leb_le]; auto. }
        destruct u'; cbn in *. split_and!; [done|split; auto|by intros []; auto|done].
      * apply orb_false_iff in Ec as [Ec1 Ec2%Z.leb_gt]. destruct u'; cbn in *. split_and!; try done.
        rewrite E2. split; [auto|]. intros [?|(s & [= <-] & [?|?])]; [done|congruence|lia].
    + destruct (u_Deleted u') eqn:Ed.
      * split_and!; try done; [|intros Hn; destruct Hn; left; by apply E2].
        rewrite Ed. split; [intros _; left; by apply E2|done].
      * destruct u'; cbn in *. split_and!; try done. rewrite Ed, <- E2. split; [done|]. by intros [?|(s & ? & _)].
    + split_and!; try done; [|intros Hn; apply E3; auto]. rewrite E2. split; [auto|]. by intros [?|(s & ? & _)].
Qed.

Section Enforcement.
Context (order : UserList -> list (string * User)) (marshal : Event -> option string) (dberr : Z -> option string).
Context (order_perm : forall m, order m ≡ₚ map_to_list m).
Implicit Types (fe : FraudEnforcer) (e : Event) (k : string).

(** One user has the id, under the key. *)
Definition sole (id : Z) k (ul : UserList) : Prop :=
  (exists u, ul !! k = Some u /\ u_ID u = id) /\ forall k' u', ul !! k' = Some u' -> u_ID u' = id -> k' = k.

Lemma find_user_some ul id k u : find_user order ul id = Some (k, u) -> ul !! k = Some u /\ u_ID u = id.
Proof.
  unfold find_user. intros Hf. apply find_some in Hf as [Hin He%Z.eqb_eq]. split; [|done].
  apply list_elem_of_In in Hin. rewrite order_perm in Hin. by apply elem_of_map_to_list in Hin.
Qed.

Lemma find_user_sole ul id k u : sole id k ul -> ul !! k = Some u -> find_user order ul id = Some (k, u).
Proof.
  intros [(u0 & Hu0 & Hid) Hone] Hk. assert (u0 = u) as -> by congruence. destruct (find_user order ul id) as [[k' u']|] eqn:E.
  - apply find_user_some in E as [Hk' Hid']. assert (k' = k) as -> by (by eapply Hone). congruence.
  - unfold find_user in E. assert ((k, u) ∈ order ul) as Hin by (rewrite order_perm; by apply elem_of_map_to_list).
    apply list_elem_of_In in Hin. pose proof (find_none _ _ E _ Hin) as Hn. cbn in Hn. by rewrite Hid, Z.eqb_refl in Hn.
Qed.

Lemma sole_insert ul id k k' u u' : sole id k ul -> ul !! k' = Some u -> u_ID u' = u_ID u -> sole id k (<[k' := u']> ul).
Proof.
  intros [(u0 & Hk & Hid) Hone] Hk' Hsame. split.
  - destruct (decide (k = k')) as [->|Hne]; [exists u'; rewrite lookup_insert_eq; split; [done|congruence]|].
    exists u0. by rewrite lookup_insert_ne.
  - intros k1 u1 H1 Hi. destruct (decide (k1 = k')) as [->|Hne]; [rewrite lookup_insert_eq in H1; injection H1 as <-; apply (Hone k' u); congruence|].
    rewrite lookup_insert_ne in H1 by done. by eapply Hone.
Qed.

(** The strikes and the record of the user. *)
Definition standing (id : Z) k fe : Z * option User :=
  (match fe_flags fe !! id with Some r => fl_Strikes r | None => 0 end, fe_users fe !! k).

Definition fraud_call (h : HandlerName) (now : Z) e fe : FraudEnforcer :=
  match h with HFlagged => (onFlagged order now e fe).1 | HUnflagged => onUnflagged order e fe | _ => fe end.

(** A handler's effect on the standing, whatever the clock showed. *)
Definition fraud_judge (id : Z) (s : Z * User) (c : HandlerName * Event) : Z * User :=
  let '(n, u) := s in
  match c.1, ev_body c.2 with
  | HFlagged, UserFlaggedEvent i score =>
      if i =? id then (n + 1, if fleb (flit 90 100) score || (3 <=? n + 1) then u {{ u_Deleted := true }} else u {{ u_CanLeech := false }})
      else s
  | HUnflagged, UserUnflaggedEvent i =>
      if i =? id then (Z.max 0 (n - 1), if u_Deleted u then u else u {{ u_CanLeech := true }}) else s
  | _, _ => s
  end.

Definition limits fe : Prop := fe_strikesToBan fe = 3 /\ fe_scoreBanThresh fe = flit 90 100.

Lemma flagged_standing id k now e fe n u :
  limits fe -> sole id k (fe_users fe) -> standing id k fe = (n, Some u) ->
  let fe' := (onFlagged order now e fe).1 in
  let s := fraud_judge id (n, u) (HFlagged, e) in
  limits fe' /\ sole id k (fe_users fe') /\ standing id k fe' = (s.1, Some s.2).
Proof.
  intros [L1 L2] Hs Hst. pose proof Hst as [= Hn Hu]. unfold onFlagged, fraud_judge. cbn [fst snd].
  destruct (ev_body e) as [| | |i score| | | | | | | |]; try (split; [split; assumption|]; split; assumption).
  destruct fe as [flags users strikes thresh]. cbn in L1, L2. subst strikes thresh. cbn in Hs, Hn, Hu. cbn.
  destruct (Z.eqb_spec i id) as [->|Hne].
  - rewrite (find_user_sole users id k u Hs Hu). unfold standing. rewrite Hn.
    destruct (fleb (flit 90 100) score || (3 <=? n + 1)) eqn:Ec; cbn; rewrite !lookup_insert_eq; (split; [done|]); (split; [|done]); by eapply sole_insert.
  - assert (match <[i := mkFlag score now (match flags !! i with Some rec => fl_Strikes rec | None => 0 end + 1)]> flags !! id with
            | Some r => fl_Strikes r | None => 0 end = n) as Hn' by (by rewrite lookup_insert_ne).
    destruct (find_user order users i) as [[k' u']|] eqn:Ef; [|unfold standing; cbn; by rewrite Hn', Hu].
    apply find_user_some in Ef as [Hk' Hi]. assert (k' <> k) as Hkk by (intros ->; destruct Hs as [(u0 & ? & ?) _]; congruence).
    unfold standing. destruct (fleb _ _ || _); cbn; rewrite Hn', lookup_insert_ne, Hu by done; (split; [done|]); (split; [|done]); by eapply sole_insert.
Qed.

Lemma unflagged_standing id k e fe n u :
  limits fe -> sole id k (fe_users fe) -> standing id k fe = (n, Some u) -> 0 <= n ->
  let fe' := onUnflagged order e fe in
  let s := fraud_judge id (n, u) (HUnflagged, e) in
  limits fe' /\ sole id k (fe_users fe') /\ standing id k fe' = (s.1, Some s.2).
Proof.
  intros HL Hs Hst Hpos. pose proof Hst as [= Hn Hu]. unfold onUnflagged, fraud_judge. cbn [fst snd].
  destruct (ev_body e) as [| | | |i| | | | | | |]; try (split; [assumption|]; split; assumption).
  destruct fe as [flags users strikes thresh]. cbn in Hs, Hn, Hu, HL. cbn zeta. cbn [fe_flags fe_users].
  set (fe1 := match flags !! i with Some rec => _ | None => _ end).
  assert (fe_users fe1 = users /\ limits fe1 /\ match fe_flags fe1 !! id with Some r => fl_Strikes r | None => 0 end = if i =? id then Z.max 0 (n - 1) else n) as (E1 & E2 & E3).
  { subst fe1. destruct (Z.eqb_spec i id) as [->|Hne].
    - destruct (flags !! id) as [r|] eqn:Er; (split; [done|]); (split; [exact HL|]); cbn.
      + rewrite lookup_insert_eq. cbn. by rewrite Hn.
      + rewrite Er. lia.
    - destruct (flags !! i) as [r|]; (split; [done|]); (split; [exact HL|]); cbn; by rewrite ?lookup_insert_ne. }
  rewrite E1. clearbody fe1. destruct (Z.eqb_spec i id) as [->|Hne].
  - rewrite (find_user_sole users id k u Hs Hu). unfold standing. destruct (u_Deleted u).
    + rewrite E3, E1, Hu. by split_and!.
    + destruct fe1. cbn in *. subst. rewrite lookup_insert_eq, E3. split; [done|]. split; [by eapply sole_insert|done].
  - destruct (find_user order users i) as [[k' u']|] eqn:Ef; [|unfold standing; rewrite E1, E3, Hu; by split_and!].
    apply find_user_some in Ef as [Hk' Hi]. assert (k' <> k) as Hkk by (intros ->; destruct Hs as [(u0 & ? & ?) _]; congruence).
    unfold standing. destruct (u_Deleted u'); [rewrite E1, E3, Hu; by split_and!|].
    destruct fe1. cbn in *. subst. rewrite lookup_insert_ne, Hu by done. split; [done|]. split; [by eapply sole_insert|by rewrite E3].
Qed.

Lemma judge_nonneg id l n u : 0 <= n -> 0 <= (foldl (fraud_judge id) (n, u) l).1.
Proof.
  revert n u. induction l as [|[h e] l IH]; intros n u Hn; [done|]. cbn [foldl fraud_judge fst snd].
  destruct h; try (by apply IH); destruct (ev_body e); try (by apply IH); case_match; apply IH; lia.
Qed.

(** The handlers of a run act on the standing as the events say. *)
Lemma calls_standing id k (l : list (HandlerName * Z * Event)) w n u :
  limits (rx_fraud w) -> sole id k (fe_users (rx_fraud w)) -> standing id k (rx_fraud w) = (n, Some u) -> 0 <= n ->
  let s := foldl (fraud_judge id) (n, u) (untimed <$> l) in
  standing id k (rx_fraud (after (react order marshal dberr) l w)) = (s.1, Some s.2).
Proof.
  revert w n u. induction l as [|[[h now] e] l IH]; intros w n u HL Hs Hst Hn; [done|].
  cbn zeta. cbn [fmap list_fmap foldl after untimed fst snd].
  assert (forall w', rx_fraud w' = fraud_call h now e (rx_fraud w) ->
    let s := foldl (fraud_judge id) (fraud_judge id (n, u) (h, e)) (untimed <$> l) in
    standing id k (rx_fraud (after (react order marshal dberr) l w')) = (s.1, Some s.2)) as Hgo.
  { intros w' Ew. assert (limits (rx_fraud w') /\ sole id k (fe_users (rx_fraud w')) /\
      standing id k (rx_fraud w') = ((fraud_judge id (n, u) (h, e)).1, Some (fraud_judge id (n, u) (h, e)).2)) as (H1 & H2 & H3).
    { rewrite Ew. destruct h; cbn [fraud_call]; try (by split_and!); [by apply flagged_standing|by apply unflagged_standing]. }
    pose proof (judge_nonneg id [(h, e)] n u Hn) as Hn'. cbn [foldl] in Hn'.
    destruct (fraud_judge id (n, u) (h, e)) as [n' u']. by apply (IH w'). }
  apply Hgo. destruct w as [fe fa ic al hub red], h; cbn [react rx_fraud fraud_call fst]; try done.
  - by destruct (onFlagged order now e fe).
  - cbn. by destruct (onRecommended now e fa).
  - cbn. by destruct (publishToRedis marshal e).
Qed.

Definition on_fraud (h : HandlerName) : bool := match h with HFlagged | HUnflagged => true | _ => false end.

Lemma delivered_judge id s e :
  foldl (fraud_judge id) s ((fun h => (h, e)) <$> deliver e subscriptions) = judge id s e.
Proof.
  assert (forall subs s, foldl (fraud_judge id) s ((fun h => (h, e)) <$> deliver e subs) =
    foldl (fun s (p : string * HandlerName) => if topicMatches p.1 (Topic e) then fraud_judge id s (p.2, e) else s) s subs) as ->.
  { intros subs. unfold deliver. induction subs as [|p subs IH]; intros s0; [done|]. cbn [foldl]. rewrite filter_cons.
    destruct (topicMatches p.1 (Topic e)) eqn:E; [rewrite decide_True by done|rewrite decide_False by congruence]; cbn; apply IH. }
  assert (forall subs s, foldl (fun s (p : string * HandlerName) => if topicMatches p.1 (Topic e) then fraud_judge id s (p.2, e) else s) s subs =
    foldl (fun s (p : string * HandlerName) => if topicMatches p.1 (Topic e) then fraud_judge id s (p.2, e) else s) s (List.filter (fun p => on_fraud p.2) subs)) as ->.
  { intros subs. induction subs as [|[p h] subs IH]; intros s0; [done|]. cbn [foldl List.filter fst snd]. destruct (on_fraud h) eqn:Eh; cbn [foldl fst snd]; [apply IH|].
    rewrite <- IH. f_equal. destruct s0. by destruct h, (topicMatches p (Topic e)). }
  change (List.filter (fun p => on_fraud p.2) subscriptions) with [("user.flagged", HFlagged); ("user.unflagged", HUnflagged)].
  destruct s as [n u]. cbn [foldl fst snd].
  assert (forall p t, HasSuffix p ".*" = false -> topicMatches p t = String.eqb t p) as Hm.
  { intros p t Hp. unfold topicMatches. rewrite Hp, (String.eqb_sym p t). by destruct (String.eqb t p). }
  rewrite !Hm by done. unfold fraud_judge, judge, flag_of. cbn [fst snd].
  destruct (ev_body e); repeat (destruct (String.eqb (Topic e) _)); try done; destruct (_ =? id); done.
Qed.

Lemma events_judge id s (evs : list Event) :
  foldl (fraud_judge id) s (evs ≫= (fun e => (fun h => (h, e)) <$> deliver e subscriptions)) = foldl (judge id) s evs.
Proof.
  revert s. induction evs as [|e evs IH]; intros s; [done|]. rewrite bind_cons, foldl_app, delivered_judge. apply IH.
Qed.
End Enforcement.

(** Enforcement.  For every interleaving of the bus, once the events are
    delivered: a user is marked deleted exactly if some flag had a score of at
    least 0.9 or was the third strike not yet lifted, and is never unmarked; a user who is
    not marked may leech as the last flag or lifting says.  Events about other users
    change nothing for this one. *)
Theorem flags_enforced order marshal dberr (bufSize : Z) (w : Reactors) (users : UserList) (id : Z) (k : string) (u : User)
    (steps : list (BusStep HandlerName)) b o :
  (forall m, order m ≡ₚ map_to_list m) ->
  rx_fraud w = NewFraudEnforcer users -> sole id k users -> users !! k = Some u -> u_Deleted u = false ->
  Forall (fun s => is_subscribe s = false) steps ->
  bus_run (react order marshal dberr) steps (start_bus bufSize w) = Some (b, o) ->
  b_ch b = [] -> b_work b = [] ->
  exists u', fe_users (rx_fraud (b_world b)) !! k = Some u' /\
    (u_Deleted u' = true <-> convicts id (entered o)) /\
    (~ convicts id (entered o) -> u_CanLeech u' = may_leech id (entered o) (u_CanLeech u)).
Proof.
  intros Ho Ew Hs Hu Hd Hns Hr Hc Hw.
  destruct (bus_delivery (react order marshal dberr) bufSize w subscriptions steps b o Hns Hr) as (E1 & _ & _ & E2 & E3).
  rewrite Hc, app_nil_r in E1. rewrite Hw, app_nil_r, <- E1 in E2.
  assert (standing id k (rx_fraud w) = (0, Some u)) as Hst by (unfold standing; rewrite Ew; cbn; by rewrite Hu).
  pose proof (calls_standing order marshal dberr Ho id k (calls o) w 0 u) as Hfin. rewrite Ew in Hfin at 1 2.
  specialize (Hfin ltac:(done) Hs Hst ltac:(lia)). cbn zeta in Hfin. rewrite E2, events_judge, <- E3 in Hfin.
  destruct (judge_spec id (entered o) u Hd) as (_ & J1 & J2 & _). injection Hfin as _ Hk. eauto.
Qed.

(** ** Grants *)

Section Grants.
Context (order : UserList -> list (string * User)) (marshal : Event -> option string) (dberr : Z -> option string).

Lemma after_invariant (P : Reactors -> Prop) :
  (forall h now e w, P w -> P (react order marshal dberr h now e w).1) ->
  forall l w, P w -> P (after (react order marshal dberr) l w).
Proof. intros Hstep l. induction l as [|[[h now] e] l IH]; intros w Hw; [done|]. apply IH, Hstep, Hw. Qed.

(** Two grants of one torrent are a cooldown apart, and the last one is known. *)
Definition spaced (fa : FreeleechActuator) : Prop :=
  StronglySorted (fun g g' : Z * Z => g.1 = g'.1 -> g.2 + fa_cooldown fa <= g'.2) (fa_granted fa) /\
  0 <= fa_cooldown fa /\
  forall g, g ∈ fa_granted fa -> exists last, fa_lastGrant fa !! g.1 = Some last /\ g.2 <= last.

Lemma StronglySorted_snoc {A} (R : A -> A -> Prop) l x :
  StronglySorted R l -> Forall (fun y => R y x) l -> StronglySorted R (l ++ [x])%list.
Proof.
  induction 1 as [|y l Hl IH Hy]; intros Hx; [by repeat constructor|]. apply Forall_cons in Hx as [Hyx Hx].
  constructor; [by apply IH|]. apply Forall_app. by split; [|apply Forall_singleton].
Qed.

Lemma spaced_recommended now e fa : spaced fa -> spaced (onRecommended now e fa).1.
Proof.
  intros (Hs & Hc & Hl). unfold onRecommended. destruct (ev_body e) as [| | | | | | | |t score dead| | |]; try done.
  destruct (fltb score (fa_scoreThreshold fa)); [done|].
  destruct (match fa_lastGrant fa !! t with Some last => _ | None => false end) eqn:Ed; [done|].
  assert (forall g, g ∈ fa_granted fa -> g.1 = t -> g.2 + fa_cooldown fa <= now) as Hnew.
  { intros g Hg <-. destruct (Hl g Hg) as (last & E & ?). rewrite E in Ed. apply Z.ltb_ge in Ed. lia. }
  destruct fa as [lastGrant thresh cooldown granted]. cbn in *. split_and!; cbn; [|done|].
  - apply StronglySorted_snoc; [done|]. apply Forall_forall. intros g Hg Ht. by apply Hnew.
  - intros g [Hg| ->%list_elem_of_singleton]%elem_of_app; [|exists now; by rewrite lookup_insert_eq].
    destruct (decide (g.1 = t)) as [<-|Hne]; [exists now; rewrite lookup_insert_eq; split; [done|]; specialize (Hnew g Hg eq_refl); lia|].
    rewrite lookup_insert_ne by done. by apply Hl.
Qed.

Lemma cooldown_recommended now e fa : fa_cooldown (onRecommended now e fa).1 = fa_cooldown fa.
Proof. unfold onRecommended. destruct fa, (ev_body e); try done. by repeat case_match. Qed.

Lemma spaced_react h now e w : spaced (rx_freeleech w) -> spaced (rx_freeleech (react order marshal dberr h now e w).1).
Proof.
  intros Hw. destruct h; destruct w as [fe fa ic al hub red]; try exact Hw; cbn [react rx_freeleech rx_fraud].
  - by destruct (onFlagged order now e fe).
  - pose proof (spaced_recommended now e fa Hw) as H'. by destruct (onRecommended now e fa).
  - by destruct (publishToRedis marshal e).
Qed.
End Grants.

(** Freeleech is granted to a torrent at most once in six hours, for every
    history of recommendations and every order of delivery, whatever the clock does. *)
Theorem grants_spaced order marshal dberr (bufSize : Z) (w : Reactors) (env : option float64) (steps : list (BusStep HandlerName)) b o :
  rx_freeleech w = NewFreeleechActuator env ->
  Forall (fun s => is_subscribe s = false) steps ->
  bus_run (react order marshal dberr) steps (start_bus bufSize w) = Some (b, o) ->
  forall i j t ti tj, (i < j)%nat ->
    fa_granted (rx_freeleech (b_world b)) !! i = Some (t, ti) -> fa_granted (rx_freeleech (b_world b)) !! j = Some (t, tj) ->
    ti + 6 * 3600 * 1000000000 <= tj.
Proof.
  intros Ew Hns Hr. destruct (bus_delivery (react order marshal dberr) bufSize w subscriptions steps b o Hns Hr) as (_ & _ & _ & _ & ->).
  assert (spaced (rx_freeleech (after (react order marshal dberr) (calls o) w)) /\
          fa_cooldown (rx_freeleech (after (react order marshal dberr) (calls o) w)) = 6 * 3600 * 1000000000) as [(Hs & _) Hc].
  { apply (after_invariant order marshal dberr (fun w => spaced (rx_freeleech w) /\ fa_cooldown (rx_freeleech w) = 6 * 3600 * 1000000000)).
    - intros h now e w' [H1 H2]. split; [by apply spaced_react|]. rewrite <- H2. destruct h, w' as [fe fa ic al hub red]; try done; cbn [react rx_freeleech rx_fraud].
      + by destruct (onFlagged order now e fe).
      + pose proof (cooldown_recommended now e fa) as Hr'. by destruct (onRecommended now e fa).
      + by destruct (publishToRedis marshal e).
    - rewrite Ew. split; [|done]. split; [by apply SSorted_nil|]. split; [done|]. intros g Hg. by apply not_elem_of_nil in Hg. }
  rewrite Hc in Hs. revert Hs. generalize (fa_granted (rx_freeleech (after (react order marshal dberr) (calls o) w))). intros l Hs.
  induction Hs as [|g l Hl IH Hg]; intros i j t ti tj Hij Hi Hj; [done|]. destruct i as [|i], j as [|j]; [lia| |lia|].
  - injection Hi as ->. rewrite Forall_forall in Hg. apply (Hg (t, tj)); [|done]. exact (list_elem_of_lookup_2 l j _ Hj).
  - by apply (IH i j t); [lia|..].
Qed.

(** ** A bus with its handlers at work *)
Module DemoBus.

Definition users : UserList := {["P" := NewUser 7 true false]}.
Definition world : Reactors := mkReactors (NewFraudEnforcer users) (NewFreeleechActuator None) ∅ (mkAudit [] 1) {[1 := []]} [].
Definition handle := react map_to_list (fun e => Some (Topic e)) (fun _ => None).
Definition flag (score : float64) : BusStep HandlerName := SPublish 0 (NewEvent 0 "t" (UserFlaggedEvent 7 score)).
Definition recommend (now : Z) : BusStep HandlerName := SPublish now (NewEvent now "t" (FreeleechRecommendedEvent 5 (flit 9 10) (of_int 0))).
Definition dispatches (now : Z) (n : nat) : list (BusStep HandlerName) := replicate n (SDispatch now).

(** Three flags of which one is lifted; then a flag of a high score. *)
Definition steps : list (BusStep HandlerName) :=
  ([flag (flit 5 10); SPublish 1 (NewEvent 1 "t" (UserUnflaggedEvent 7)); flag (flit 95 100)] ++ dispatches 2 16)%list.
(** Two recommendations within six hours and one after. *)
Definition grant_steps : list (BusStep HandlerName) :=
  ([recommend 0; recommend 1] ++ dispatches 1 8 ++ [recommend 21600000000001] ++ dispatches 21600000000001 7)%list.

Definition run (l : list (BusStep HandlerName)) : Bus HandlerName Reactors * list (Obs HandlerName) :=
  default (start_bus 16 world, []) (bus_run handle l (start_bus 16 world)).
End DemoBus.

Lemma no_subscribes {H} (l : list (BusStep H)) : forallb (fun s => negb (is_subscribe s)) l = true -> Forall (fun s => is_subscribe s = false) l.
Proof. rewrite forallb_forall. intros Hl. apply Forall_forall. intros s Hs%list_elem_of_In. apply negb_true_iff, Hl, Hs. Qed.

Lemma bus_delivers_witness :
  let '(b, o) := DemoBus.run DemoBus.steps in
  entered o = (taken o ++ b_ch b)%list /\ Drops b = u64 (len (lost o)).
Proof.
  pose proof (bus_delivers DemoBus.handle 16 DemoBus.world subscriptions DemoBus.steps (DemoBus.run DemoBus.steps).1 (DemoBus.run DemoBus.steps).2
    (no_subscribes DemoBus.steps eq_refl) ltac:(vm_compute; reflexivity)) as (E1 & _ & E2 & _).
  destruct (DemoBus.run DemoBus.steps) as [b o]. split; [exact E1|exact E2].
Defined.

Lemma stop_drains_witness :
  let steps := [DemoBus.flag (flit 95 100); SStop] in
  exists n b' o', bus_run DemoBus.handle (steps ++ ((fun i => SDispatch (Z.of_nat i)) <$> seq 0 n))%list (start_bus 16 DemoBus.world) = Some (b', o') /\
    b_exited b' = true /\ taken o' = entered o'.
Proof.
  intros steps.
  destruct (stop_drains map_to_list (fun e => Some (Topic e)) (fun _ => None) 16 DemoBus.world steps (DemoBus.run steps).1 (DemoBus.run steps).2 Z.of_nat
    (no_subscribes steps eq_refl) ltac:(vm_compute; reflexivity) ltac:(reflexivity) ltac:(reflexivity)) as (n & b' & o' & H1 & H2 & H3 & _).
  exists n, b', o'. split; [exact H1|]. split; [exact H2|exact H3].
Defined.

Lemma flags_enforced_witness :
  exists u', fe_users (rx_fraud (b_world (DemoBus.run DemoBus.steps).1)) !! "P" = Some u' /\
    (u_Deleted u' = true <-> convicts 7 (entered (DemoBus.run DemoBus.steps).2)).
Proof.
  destruct (flags_enforced map_to_list (fun e => Some (Topic e)) (fun _ => None) 16 DemoBus.world DemoBus.users 7 "P" (NewUser 7 true false)
    DemoBus.steps (DemoBus.run DemoBus.steps).1 (DemoBus.run DemoBus.steps).2 (fun m => reflexivity _) eq_refl
    ltac:(split; [by eexists|unfold DemoBus.users; by intros k' u' [<- _]%lookup_singleton_Some _]) ltac:(reflexivity) eq_refl
    (no_subscribes DemoBus.steps eq_refl) ltac:(vm_compute; reflexivity) ltac:(vm_compute; reflexivity) ltac:(vm_compute; reflexivity))
    as (u' & H1 & H2 & _).
  exists u'. split; [exact H1|exact H2].
Defined.

Lemma grants_spaced_witness :
  let l := fa_granted (rx_freeleech (b_world (DemoBus.run DemoBus.grant_steps).1)) in
  l !! 0%nat = Some (5, 1) /\ l !! 1%nat = Some (5, 21600000000001) /\ 1 + 6 * 3600 * 1000000000 <= 21600000000001.
Proof.
  assert (fa_granted (rx_freeleech (b_world (DemoBus.run DemoBus.grant_steps).1)) = [(5, 1); (5, 21600000000001)]) as El by (vm_compute; reflexivity).
  cbn zeta. rewrite El. split; [reflexivity|]. split; [reflexivity|].
  pose proof (grants_spaced map_to_list (fun e => Some (Topic e)) (fun _ => None) 16 DemoBus.world None DemoBus.grant_steps
    (DemoBus.run DemoBus.grant_steps).1 (DemoBus.run DemoBus.grant_steps).2 eq_refl
    (no_subscribes DemoBus.grant_steps eq_refl) ltac:(vm_compute; reflexivity)) as G.
  rewrite El in G. exact (G 0%nat 1%nat 5 1 21600000000001 ltac:(lia) eq_refl eq_refl).
Defined.

(** ** Limits of the enforcement *)

(** No stage of the handler reads the mark. *)
Lemma session_unmarked env w req user ip userAgent torrent (d : bool) :
  session_of env w req (user {{ u_Deleted := d }}) ip userAgent torrent = session_of env w req user ip userAgent torrent.
Proof.
  unfold session_of. set (user' := user {{ u_Deleted := d }}).
  assert (u_ID user' = u_ID user) as E1 by (by destruct user).
  assert (u_CanLeech user' = u_CanLeech user) as E2 by (by destruct user).
  assert (u_ProtectIP user' = u_ProtectIP user) as E3 by (by destruct user). clearbody user'.
  assert (forall k s, place_peer k user' req s = place_peer k user req s) as P1
    by (intros; unfold place_peer, create_seeder, findOrCreatePeer; by rewrite E1).
  assert (forall c s, account_traffic env c user' req s = account_traffic env c user req s) as P2
    by (intros; unfold account_traffic, count_progress, count_transfer, credit_user; by rewrite E1).
  assert (forall a n s, update_address user' req a n s = update_address user req a n s) as P3
    by (intros; unfold update_address, peerIsVisible; by rewrite E2).
  assert (forall a s, record_peer env user' req a userAgent s = record_peer env user req a userAgent s) as P4
    by (intros; unfold record_peer, ip_text; by rewrite E1, E3).
  assert (forall l k a s, settle_event env l k user' req a s = settle_event env l k user req a s) as P5
    by (intros; unfold settle_event, complete_torrent, ip_text; by rewrite E1, E2, E3).
  by rewrite P5, P4, P3, P2, P1, E1.
Qed.

(** A ban has no effect: the answer to an announce does not depend on the mark
    that the enforcer sets. *)
Theorem ban_ignored env w req user ip userAgent passkey (d : bool) :
  an_result <$> Announce env w req (user {{ u_Deleted := d }}) ip userAgent passkey = an_result <$> Announce env w req user ip userAgent passkey.
Proof.
  unfold Announce. destruct (check_request _ _ _ _ _); [|done]. destruct (w_Torrents w !! _) as [t|]; [|done].
  unfold final_session. rewrite session_unmarked. generalize (session_of env w req user ip userAgent t). intros s.
  set (user' := user {{ u_Deleted := d }}).
  assert (u_ID user' = u_ID user) as E1 by (by destruct user). assert (u_CanLeech user' = u_CanLeech user) as E2 by (by destruct user). clearbody user'.
  unfold choose_peers. rewrite E1, E2. match goal with |- context [mbind _ ?x] => by destruct x end.
Qed.

(** Lifting a flag that was never set lets a user leech whose right was taken away. *)
Example lifting_restores (fe : FraudEnforcer) (u : User) :
  fe_flags fe = ∅ -> fe_users fe = {["P" := u]} -> u_Deleted u = false ->
  u_CanLeech <$> fe_users (onUnflagged map_to_list (NewEvent 0 "" (UserUnflaggedEvent (u_ID u))) fe) !! "P" = Some true.
Proof.
  intros Hf Hu Hd. destruct fe. cbn in *. subst. unfold find_user. cbn. rewrite lookup_empty. cbn. rewrite map_to_list_singleton. cbn.
  rewrite Z.eqb_refl, Hd. cbn. by rewrite lookup_insert_eq.
Qed.

(** ** Callbacks *)

(** A failure that is tried again. *)
Definition transient (r : result string Z) : bool := match r with Err _ => true | Ok code => 500 <=? code end.

Lemma post_from_ok n a reply last :
  last <> None ->
  (post_from n a reply last).1.1 = None <->
  exists i code, (i < n)%nat /\ (forall j, (j < i)%nat -> transient (reply (a + j)%nat) = true) /\ reply (a + i)%nat = Ok code /\ code < 400.
Proof.
  revert a last. induction n as [|n IH]; intros a last Hl; [cbn; split; [done|intros (i & code & Hi & _); lia]|].
  cbn [post_from].
  assert (forall e, transient (reply a) = true ->
    ((post_from n (S a) reply (Some e)).1.1 = None <->
     exists i code, (i < S n)%nat /\ (forall j, (j < i)%nat -> transient (reply (a + j)%nat) = true) /\ reply (a + i)%nat = Ok code /\ code < 400)) as Hgo.
  { intros e Ht. rewrite IH by done. split; intros (i & code & Hi & Hj & Hr & Hc).
    - exists (S i), code. split; [lia|]. replace (a + S i)%nat with (S a + i)%nat by lia. split; [|done].
      intros [|j] Hj'; [by rewrite Nat.add_0_r|]. replace (a + S j)%nat with (S a + j)%nat by lia. apply Hj. lia.
    - destruct i as [|i]; [rewrite Nat.add_0_r in Hr; rewrite Hr in Ht; cbn in Ht; lia|]. exists i, code. split; [lia|].
      replace (S a + i)%nat with (a + S i)%nat by lia. split; [|done]. intros j Hj'. replace (S a + j)%nat with (a + S j)%nat by lia. apply Hj. lia. }
  destruct (reply a) as [code|e] eqn:Er.
  - destruct (500 <=? code) eqn:E5.
    + specialize (Hgo ("HTTP " ++ dec code ++ " from Gazelle") ltac:(by rewrite <- E5)). by destruct (post_from n (S a) reply _) as [[err sent] sl].
    + apply Z.leb_gt in E5. destruct (400 <=? code) eqn:E4; cbn.
      * apply Z.leb_le in E4. split; [done|]. intros (i & c & Hi & Hj & Hr & Hc).
        destruct i as [|i]; [rewrite Nat.add_0_r, Er in Hr; injection Hr as <-; lia|].
        specialize (Hj 0%nat ltac:(lia)). rewrite Nat.add_0_r, Er in Hj. cbn in Hj. lia.
      * apply Z.leb_gt in E4. split; [|done]. intros _. exists 0%nat, code. rewrite Nat.add_0_r. split; [lia|]. split; [lia|done].
  - specialize (Hgo e eq_refl). by destruct (post_from n (S a) reply _) as [[err sent] sl].
Qed.

(** A callback succeeds exactly if one of its first three requests is answered
    below 400 and all before it failed in a way that is tried again. *)
Theorem post_succeeds (reply : nat -> result string Z) :
  (post reply).1.1 = None <->
  exists i code, (i < 3)%nat /\ (forall j, (j < i)%nat -> transient (reply j) = true) /\ reply i = Ok code /\ code < 400.
Proof. exact (post_from_ok 3 0 reply (Some "") ltac:(done)). Qed.
