(* ===== verification/Ctl.v ===== *)
(** * The management client (cmd/ocelotctl/main.go)

    The commands of ocelotctl as functions of their arguments, the stored contexts
    and the state of whatever answers at the host of the context; encoding/json is
    the argument [marshal].  Package net/url is modelled where the client and the
    server meet: the client puts values into a query as they are, and the server
    decodes them. *)
From Stdlib Require Import String Ascii.
From S2P Require Import Prelude GoStr Bencode Server ControlServer.
Open Scope list_scope.
Open Scope string_scope.
Open Scope Z_scope.

(** ** Numbers of flags, where errors are ignored

    A number that is too large is the largest one; a text that is no number is
    zero. *)
Fixpoint uint_loop (n max : Z) (s : string) : Z :=
  match s with
  | "" => n
  | String c r => if digitb (ascii_byte c)
                  then let n' := 10 * n + (ascii_byte c - 48) in if max <? n' then max else uint_loop n' max r
                  else 0
  end.
Definition uint_value (s : string) (bits : Z) : Z := if String.eqb s "" then 0 else uint_loop 0 (2 ^ bits - 1) s.

Definition atoi_value (s : string) : Z :=
  let '(neg, digits) := match s with String "-" r => (true, r) | String "+" r => (false, r) | _ => (false, s) end in
  let v := uint_value digits 64 in
  if neg then - Z.min v (2 ^ 63) else Z.min v (2 ^ 63 - 1).

(** ** Queries (net/url) *)

Definition hex_value (c : ascii) : option Z :=
  let b := ascii_byte c in
  if (48 <=? b) && (b <=? 57) then Some (b - 48)
  else if (97 <=? b) && (b <=? 102) then Some (b - 87)
  else if (65 <=? b) && (b <=? 70) then Some (b - 55)
  else None.

(** [url.QueryUnescape] *)
Fixpoint unescape (s : string) : option string :=
  match s with
  | "" => Some ""
  | String c r =>
      if Ascii.eqb c "%" then
        match r with
        | String a (String b r) =>
            x ← hex_value a; y ← hex_value b; t ← unescape r; Some (String (ascii_of_nat (Z.to_nat (16 * x + y))) t)
        | _ => None
        end
      else String (if Ascii.eqb c "+" then " "%char else c) <$> unescape r
  end.

Definition contains (c : ascii) (s : string) : bool := existsb (Ascii.eqb c) (list_ascii_of_string s).

(** A part that is malformed is left out. *)
Definition query_pair (part : string) : option (string * string) :=
  if String.eqb part "" || contains ";" part then None
  else let '(k, v) := match split_at "=" part with Some kv => kv | None => (part, "") end in
       k ← unescape k; v ← unescape v; Some (k, v).
Definition ParseQuery (q : string) : list (string * string) := omap query_pair (split_on "&" q "").
Definition query_get (q : string) (key : string) : string :=
  match List.find (fun kv => String.eqb kv.1 key) (ParseQuery q) with Some kv => kv.2 | None => "" end.

(** ** Contexts *)

Record ctlContext := mkCtlContext { cx_Host : string; cx_Token : string }.
Record ctlConfig := mkCtlConfig { ct_Contexts : gmap string ctlContext; ct_CurrentContext : string }.

Inductive CtlFile := CtlMissing | CtlUnreadable (err : string) | CtlText (s : string).

Definition loadConfig (decode : string -> result string ctlConfig) (f : CtlFile) : result string ctlConfig :=
  match f with
  | CtlMissing => Ok (mkCtlConfig ∅ "")
  | CtlUnreadable e => Err e
  | CtlText s => decode s
  end.

(** [%q] on a name without characters to escape. *)
Definition quote : string := string_of_bytes [34].
Definition newline : string := string_of_bytes [10].

Definition currentContext (cfg : ctlConfig) : result string ctlContext :=
  if String.eqb (ct_CurrentContext cfg) "" then Err "no current context set — run: ocelotctl config use-context <name>"
  else match ct_Contexts cfg !! ct_CurrentContext cfg with
       | None => Err ("context " ++ quote ++ ct_CurrentContext cfg ++ quote ++ " not found in config")
       | Some ctx => Ok ctx
       end.

(** The value of a flag that is written as [name] and then the value. *)
Definition flag (name arg : string) : option string :=
  if String.prefix name arg then Some (String.substring (String.length name) (String.length arg - String.length name) arg) else None.

Definition set_context_arg (ctx : ctlContext) (a : string) : ctlContext :=
  match flag "--host=" a with
  | Some v => ctx {{ cx_Host := v }}
  | None => match flag "--token=" a with Some v => ctx {{ cx_Token := v }} | None => ctx end
  end.

(** The configuration to save, if any, and the lines printed. *)
Definition cmdConfig (order : gmap string ctlContext -> list (string * ctlContext)) (args : list string) (cfg : ctlConfig)
    : result string (option ctlConfig * list string) :=
  match args with
  | [] => Err "usage: ocelotctl config <set-context|use-context|get-contexts|current-context>"
  | sub :: rest =>
      if String.eqb sub "set-context" then
        match rest with
        | [] => Err "usage: ocelotctl config set-context <name> [--host=<url>] [--token=<tok>]"
        | name :: flags =>
            let ctx := foldl set_context_arg (default (mkCtlContext "" "") (ct_Contexts cfg !! name)) flags in
            Ok (Some (cfg {{ ct_Contexts ::= <[name := ctx]> }}), [])
        end
      else if String.eqb sub "use-context" then
        match rest with
        | [] => Err "usage: ocelotctl config use-context <name>"
        | name :: _ => Ok (Some (cfg {{ ct_CurrentContext := name }}), [])
        end
      else if String.eqb sub "get-contexts" then
        Ok (None, (fun kv : string * ctlContext => (if String.eqb kv.1 (ct_CurrentContext cfg) then "*" else " ") ++ " " ++ kv.1 ++ "  " ++ cx_Host kv.2 ++ newline)
                    <$> order (ct_Contexts cfg))
      else if String.eqb sub "current-context" then Ok (None, [ct_CurrentContext cfg ++ newline])
      else Err ("unknown config subcommand: " ++ sub)
  end.

(** ** Requests *)

Inductive CtlBody :=
| CtlTorrent (id : Z) (infoHash : string) (freeType : Z)
| CtlFree (freeType : option Z)
| CtlUser (id : Z) (passkey : string) (canLeech protectIP : bool)
| CtlPatch (canLeech protectIP : option bool).

Fixpoint trim_slashes (s : string) : string :=
  match s with
  | "" => ""
  | String c r => match trim_slashes r with "" => if Ascii.eqb c "/" then "" else String c "" | t => String c t end
  end.

Section Client.
Context {S : Type}.
(** One exchange with the host: the answer and its status, or an error of the
    transport.  [pretty] is what printJSON prints of an answer. *)
Context (exchange : string -> ControlRequest -> S -> S * result string (string * Z)).
Context (marshal : CtlBody -> string) (pretty : string -> string).

Definition control_byte (c : ascii) : bool := (ascii_byte c <? 32) || (ascii_byte c =? 127).

(** The header that is sent: bytes that no header may hold are refused, blanks around it are cut. *)
Definition header_byte (c : ascii) : bool := negb (control_byte c) || (ascii_byte c =? 9).
Fixpoint trim_blanks (s : string) : string :=
  match s with
  | "" => ""
  | String c r => match trim_blanks r with "" => if Ascii.eqb c " " || (ascii_byte c =? 9) then "" else String c "" | t => String c t end
  end.
Definition bearer (ctx : ctlContext) : string := trim_blanks ("Bearer " ++ cx_Token ctx).

(** The scheme of a URL, written in lower case, and the host, the path and the query. *)
Definition scheme_of (url : string) : option (string * string) :=
  match flag "https://" url with
  | Some rest => Some ("https://", rest)
  | None => (fun rest => ("http://", rest)) <$> flag "http://" url
  end.
Fixpoint split_authority (s : string) : string * string :=
  match s with
  | "" => ("", "")
  | String c r => if Ascii.eqb c "/" || Ascii.eqb c "?" then ("", s) else let '(a, t) := split_authority r in (String c a, t)
  end.

(** A request to the URL that is the host of the context and then the target.  A URL or a
    header that package net/http does not accept is an error; the fragment is not sent;
    a blank in the query breaks the request line for the server.  The escapes of a path are not
    modelled: the paths of the client have none. *)
Definition apiDo (ctx : ctlContext) (method target : string) (body : option CtlBody) (s : S) : S * result string (string * Z) :=
  let url := trim_slashes (cx_Host ctx) ++ target in
  if existsb control_byte (list_ascii_of_string url) then (s, Err "net/url: invalid control character in URL")
  else
    let url := match split_at "#" url with Some (u, _) => u | None => url end in
    match scheme_of url with
    | None => (s, Err "unsupported protocol scheme")
    | Some (scheme, rest) =>
        let '(authority, rest) := split_authority rest in
        if String.eqb authority "" then (s, Err "http: no Host in request URL")
        else if contains " " authority then (s, Err "invalid character in host name")
        else if negb (forallb header_byte (list_ascii_of_string (cx_Token ctx))) then (s, Err "net/http: invalid header field value")
        else
          let '(path, q) := match split_at "?" rest with Some pq => pq | None => (rest, "") end in
          if contains " " q then (s, Ok ("400 Bad Request", 400))
          else
            exchange (scheme ++ authority)
              (mkCReq method path (bearer ctx) (query_get q) (match body with Some b => marshal b | None => "" end) "") s
    end.

(** What a command prints, or its error. *)
Definition finish (good : Z -> bool) (r : S * result string (string * Z)) : S * result string string :=
  let '(s, res) := r in
  (s, match res with
      | Err e => Err e
      | Ok (data, code) => if good code then Ok (pretty data) else Err ("HTTP " ++ dec code ++ ": " ++ data)
      end).

Definition ok200 (code : Z) : bool := code =? 200.
Definition created (code : Z) : bool := (code =? 201) || (code =? 200).

Definition with_context (cfg : ctlConfig) (s : S) (f : ctlContext -> S * result string string) : S * result string string :=
  match currentContext cfg with Err e => (s, Err e) | Ok ctx => f ctx end.

Definition cmdStats (cfg : ctlConfig) (s : S) : S * result string string :=
  with_context cfg s (fun ctx => finish ok200 (apiDo ctx "GET" "/api/v1/stats" None s)).

Definition limit_arg (limit : Z) (a : string) : Z := match flag "--limit=" a with Some v => atoi_value v | None => limit end.
Definition hash_arg (h : string) (a : string) : string := default h (flag "--info-hash=" a).
Definition passkey_arg (p : string) (a : string) : string := default p (flag "--passkey=" a).

(** Flags of [torrent add]: the id, the hash, the free type. *)
Definition torrent_arg (x : Z * string * Z) (a : string) : Z * string * Z :=
  let '(id, h, ft) := x in
  match flag "--id=" a with
  | Some v => (uint_value v 32, h, ft)
  | None => match flag "--info-hash=" a with
            | Some v => (id, v, ft)
            | None => match flag "--free-type=" a with Some v => (id, h, uint_value v 8) | None => x end
            end
  end.

Definition free_arg (x : string * option Z) (a : string) : string * option Z :=
  match flag "--info-hash=" a with
  | Some v => (v, x.2)
  | None => match flag "--free-type=" a with Some v => (x.1, Some (uint_value v 8)) | None => x end
  end.

Definition cmdTorrent (args : list string) (cfg : ctlConfig) (s : S) : S * result string string :=
  match args with
  | [] => (s, Err "usage: ocelotctl torrent <list|add|delete|patch>")
  | sub :: flags =>
      with_context cfg s (fun ctx =>
        if String.eqb sub "list" then
          finish ok200 (apiDo ctx "GET" ("/api/v1/torrents?limit=" ++ dec (foldl limit_arg 100 flags)) None s)
        else if String.eqb sub "add" then
          let '(id, infoHash, freeType) := foldl torrent_arg (0, "", 0) flags in
          if (id =? 0) || String.eqb infoHash "" then (s, Err "--id and --info-hash are required")
          else finish created (apiDo ctx "POST" "/api/v1/torrents" (Some (CtlTorrent id infoHash freeType)) s)
        else if String.eqb sub "delete" then
          let infoHash := foldl hash_arg "" flags in
          if String.eqb infoHash "" then (s, Err "--info-hash is required")
          else finish ok200 (apiDo ctx "DELETE" ("/api/v1/torrents?info_hash=" ++ infoHash) None s)
        else if String.eqb sub "patch" then
          let '(infoHash, freeType) := foldl free_arg ("", None) flags in
          if String.eqb infoHash "" then (s, Err "--info-hash is required")
          else finish ok200 (apiDo ctx "PATCH" ("/api/v1/torrents?info_hash=" ++ infoHash) (Some (CtlFree freeType)) s)
        else (s, Err ("unknown torrent subcommand: " ++ sub)))
  end.

(** Flags of [user add]: the id, the passkey, the rights. *)
Definition user_arg (x : Z * string * bool * bool) (a : string) : Z * string * bool * bool :=
  let '(id, pk, leech, protect) := x in
  match flag "--id=" a with
  | Some v => (uint_value v 32, pk, leech, protect)
  | None => match flag "--passkey=" a with
            | Some v => (id, v, leech, protect)
            | None => if String.eqb a "--no-leech" then (id, pk, false, protect)
                      else if String.eqb a "--protect-ip" then (id, pk, leech, true) else x
            end
  end.

Definition rights_arg (x : string * option bool * option bool) (a : string) : string * option bool * option bool :=
  let '(pk, leech, protect) := x in
  match flag "--passkey=" a with
  | Some v => (v, leech, protect)
  | None => if String.eqb a "--can-leech=true" then (pk, Some true, protect)
            else if String.eqb a "--can-leech=false" then (pk, Some false, protect)
            else if String.eqb a "--protect-ip=true" then (pk, leech, Some true)
            else if String.eqb a "--protect-ip=false" then (pk, leech, Some false) else x
  end.

Definition cmdUser (args : list string) (cfg : ctlConfig) (s : S) : S * result string string :=
  match args with
  | [] => (s, Err "usage: ocelotctl user <add|delete|patch>")
  | sub :: flags =>
      with_context cfg s (fun ctx =>
        if String.eqb sub "add" then
          let '(id, passkey, canLeech, protectIP) := foldl user_arg (0, "", true, false) flags in
          if (id =? 0) || String.eqb passkey "" then (s, Err "--id and --passkey are required")
          else finish created (apiDo ctx "POST" "/api/v1/users" (Some (CtlUser id passkey canLeech protectIP)) s)
        else if String.eqb sub "delete" then
          let passkey := foldl passkey_arg "" flags in
          if String.eqb passkey "" then (s, Err "--passkey is required")
          else finish ok200 (apiDo ctx "DELETE" ("/api/v1/users?passkey=" ++ passkey) None s)
        else if String.eqb sub "patch" then
          let '(passkey, canLeech, protectIP) := foldl rights_arg ("", None, None) flags in
          if String.eqb passkey "" then (s, Err "--passkey is required")
          else finish ok200 (apiDo ctx "PATCH" ("/api/v1/users?passkey=" ++ passkey) (Some (CtlPatch canLeech protectIP)) s)
        else (s, Err ("unknown user subcommand: " ++ sub)))
  end.

Definition peer_arg (x : string * Z) (a : string) : string * Z :=
  match flag "--info-hash=" a with
  | Some v => (v, x.2)
  | None => match flag "--limit=" a with Some v => (x.1, atoi_value v) | None => x end
  end.

Definition cmdPeer (args : list string) (cfg : ctlConfig) (s : S) : S * result string string :=
  match args with
  | [] => (s, Err "usage: ocelotctl peer list --info-hash=<hash> [--limit=N]")
  | sub :: flags =>
      with_context cfg s (fun ctx =>
        if String.eqb sub "list" then
          let '(infoHash, limit) := foldl peer_arg ("", 100) flags in
          if String.eqb infoHash "" then (s, Err "--info-hash is required")
          else finish ok200 (apiDo ctx "GET" ("/api/v1/peers?info_hash=" ++ infoHash ++ "&limit=" ++ dec limit) None s)
        else (s, Err ("unknown peer subcommand: " ++ sub)))
  end.

(** The program: the state, the file it leaves, and the exit code with what it
    printed on either stream. *)
Definition ctl_main (decode : string -> result string ctlConfig) (encode : ctlConfig -> string)
    (order : gmap string ctlContext -> list (string * ctlContext)) (saveErr : option string) (args : list string) (f : CtlFile) (s : S)
    : S * CtlFile * (Z * string) :=
  let ending (r : S * result string string) := (r.1, f, match r.2 with Ok out => (0, out) | Err e => (1, "error: " ++ e) end) in
  match args with
  | [] => (s, f, (1, "usage"))
  | cmd :: rest =>
      match loadConfig decode f with
      | Err e => (s, f, (1, "error loading config: " ++ e))
      | Ok cfg =>
          if String.eqb cmd "config" then
            match cmdConfig order rest cfg with
            | Err e => (s, f, (1, "error: " ++ e))
            | Ok (saved, lines) =>
                match saved, saveErr with
                | None, _ => (s, f, (0, String.concat "" lines))
                | Some cfg, None => (s, CtlText (encode cfg), (0, ""))
                | Some _, Some e => (s, f, (1, "error: " ++ e))
                end
            end
          else if String.eqb cmd "stats" then ending (cmdStats cfg s)
          else if String.eqb cmd "torrent" then ending (cmdTorrent rest cfg s)
          else if String.eqb cmd "user" then ending (cmdUser rest cfg s)
          else if String.eqb cmd "peer" then ending (cmdPeer rest cfg s)
          else if existsb (String.eqb cmd) ["help"; "--help"; "-h"] then (s, f, (0, "usage"))
          else (s, f, (1, "unknown command: " ++ cmd))
      end
  end.
End Client.
