(* ===== verification/CtlSpec.v ===== *)
(** * The management client against the control server

    The commands of ocelotctl composed with [ServeControl]: what a command line
    does to the tracker. *)
From Stdlib Require Import String Ascii Decimal DecimalString DecimalZ.
From S2P Require Import Prelude GoStr NetIP GoFloat TrackerTypes TrackerDB Announce Update Bencode Server Heatmap Replica NodeRegistry Placement SwarmControl SwarmSpec ControlServer ControlSpec EventsSpec Ctl.
Open Scope list_scope.
Open Scope string_scope.
Open Scope Z_scope.

(** ** Numbers *)

Fixpoint uint_val (n : Z) (d : Decimal.uint) : Z :=
  match d with
  | Nil => n
  | D0 d => uint_val (10 * n) d | D1 d => uint_val (10 * n + 1) d | D2 d => uint_val (10 * n + 2) d
  | D3 d => uint_val (10 * n + 3) d | D4 d => uint_val (10 * n + 4) d | D5 d => uint_val (10 * n + 5) d
  | D6 d => uint_val (10 * n + 6) d | D7 d => uint_val (10 * n + 7) d | D8 d => uint_val (10 * n + 8) d
  | D9 d => uint_val (10 * n + 9) d
  end.

Lemma uint_val_ge n d : 0 <= n -> n <= uint_val n d.
Proof.
  revert n. induction d as [|d IH|d IH|d IH|d IH|d IH|d IH|d IH|d IH|d IH|d IH]; intros n Hn; cbn [uint_val]; [lia|..];
    (etrans; [|apply IH]; lia).
Qed.

Lemma uint_loop_digits max d n : 0 <= n -> uint_val n d <= max -> uint_loop n max (NilEmpty.string_of_uint d) = uint_val n d.
Proof.
  revert n. induction d as [|d IH|d IH|d IH|d IH|d IH|d IH|d IH|d IH|d IH|d IH]; intros n Hn Hm; cbn [uint_val NilEmpty.string_of_uint] in *; [done|..];
    match type of Hm with uint_val ?m _ <= _ => pose proof (uint_val_ge m d ltac:(lia)) end;
    match goal with |- uint_loop ?n ?m (String ?c ?r) = _ =>
      let b := eval vm_compute in (ascii_byte c - 48) in
      change (uint_loop n m (String c r)) with (let n' := 10 * n + b in if m <? n' then m else uint_loop n' m r) end;
    cbv zeta; rewrite ?Z.add_0_r; 
    match goal with |- context [max <? ?x] => destruct (Z.ltb_spec max x); [lia|] end; apply IH; lia.
Qed.

Lemma uint_val_pos d p : uint_val (Zpos p) d = Zpos (Pos.of_uint_acc d p).
Proof.
  revert p. induction d as [|d IH|d IH|d IH|d IH|d IH|d IH|d IH|d IH|d IH|d IH]; intros p; cbn [uint_val Pos.of_uint_acc]; [done|..];
    rewrite <- IH; f_equal; lia.
Qed.

Lemma uint_val_of d : uint_val 0 d = Z.of_uint d.
Proof.
  unfold Z.of_uint. induction d as [|d IH|d IH|d IH|d IH|d IH|d IH|d IH|d IH|d IH|d IH]; cbn [uint_val Pos.of_uint]; [done|exact IH|..];
    match goal with |- uint_val ?x _ = _ => let p := eval vm_compute in x in change x with p end; rewrite uint_val_pos; done.
Qed.

Lemma uint_value_dec n bits : 0 <= n < 2 ^ bits -> uint_value (dec n) bits = n.
Proof.
  intros Hn. unfold uint_value, dec. pose proof (DecimalZ.of_to n) as Hz. destruct (to_int_nonnil n) as [Hp _].
  destruct (Z.to_int n) as [d|d] eqn:E; [|destruct n; [done|done|lia]]. cbn [NilZero.string_of_int].
  assert (NilZero.string_of_uint d = NilEmpty.string_of_uint d) as -> by (by destruct d).
  assert (String.eqb (NilEmpty.string_of_uint d) "" = false) as -> by (by destruct d).
  assert (uint_val 0 d = n) as Hv by (by rewrite uint_val_of). rewrite uint_loop_digits; lia.
Qed.

(** ** Queries *)

(** A byte that neither side treats specially. *)
Definition safe (c : ascii) : bool :=
  negb (existsb (Ascii.eqb c) ["%"; "+"; "&"; ";"; "#"; " "]%char) && negb (control_byte c).

Lemma existsb_str_all f s : existsb f (list_ascii_of_string s) = negb (str_all (fun c => negb (f c)) s).
Proof. induction s as [|c s IH]; cbn; [done|]. rewrite IH. by destruct (f c). Qed.

Lemma str_all_append P (s t : string) : str_all P (s ++ t) = str_all P s && str_all P t.
Proof. exact (str_all_app P s t). Qed.

Lemma safe_not c : safe c = true -> forall x, x ∈ ["%"; "+"; "&"; ";"; "#"; " "]%char -> Ascii.eqb c x = false.
Proof.
  unfold safe. intros [H _]%andb_true_iff x Hx. apply negb_true_iff in H. rewrite <- not_true_iff_false in H |- *. intros E. apply H.
  apply existsb_exists. exists x. split; [by apply list_elem_of_In|done].
Qed.

Lemma safe_without x s : x ∈ ["%"; "+"; "&"; ";"; "#"; " "]%char -> str_all safe s = true -> str_all (fun c => negb (Ascii.eqb c x)) s = true.
Proof. intros Hx. apply str_all_impl. intros c Hc. by rewrite (safe_not c Hc x Hx). Qed.

Lemma split_at_without c s : str_all (fun x => negb (Ascii.eqb x c)) s = true -> Bencode.split_at c s = None.
Proof.
  induction s as [|a s IH]; [done|]. cbn [str_all]. intros [Ha Hs]%andb_true_iff. apply negb_true_iff in Ha.
  change (Bencode.split_at c (String a s)) with (if Ascii.eqb a c then Some ("", s) else '(p, q) ← Bencode.split_at c s; Some (String a p, q)).
  by rewrite Ha, IH.
Qed.

Lemma contains_without c s : str_all (fun x => negb (Ascii.eqb x c)) s = true -> contains c s = false.
Proof.
  intros Hs. unfold contains. rewrite existsb_str_all. apply negb_false_iff. revert Hs. apply str_all_impl. intros x. by rewrite Ascii.eqb_sym.
Qed.

Lemma unescape_safe s : str_all safe s = true -> unescape s = Some s.
Proof.
  induction s as [|c s IH]; [done|]. cbn [str_all]. intros [Hc Hs]%andb_true_iff.
  change (unescape (String c s)) with
    (if Ascii.eqb c "%" then
       match s with
       | String a (String b r) => x ← hex_value a; y ← hex_value b; t ← unescape r; Some (String (ascii_of_nat (Z.to_nat (16 * x + y))) t)
       | _ => None
       end
     else String (if Ascii.eqb c "+" then " "%char else c) <$> unescape s).
  rewrite (safe_not c Hc "%"), (safe_not c Hc "+"), IH by (done || set_solver). done.
Qed.

(** A single parameter with a safe value is read as it was written. *)
Lemma query_single key v :
  key <> "" -> str_all safe key = true -> str_all (fun x => negb (Ascii.eqb x "=")) key = true -> str_all safe v = true ->
  query_get (key ++ "=" ++ v) key = v.
Proof.
  intros Hne Hk Hk' Hv. unfold query_get, ParseQuery.
  assert (forall x, x ∈ ["%"; "+"; "&"; ";"; "#"; " "]%char -> str_all (fun c => negb (Ascii.eqb c x)) (key ++ "=" ++ v) = true) as Hall.
  { intros x Hx. change ("=" ++ v) with (String "=" v). rewrite str_all_append. cbn [str_all]. rewrite !(safe_without x) by done.
    cbn [andb]. rewrite andb_true_r. revert Hx. clear. intros Hx. repeat (apply elem_of_cons in Hx as [->|Hx]; [done|]). by apply not_elem_of_nil in Hx. }
  rewrite split_on_without by (apply Hall; set_solver). rewrite append_nil_l. cbn [omap list_omap].
  unfold query_pair. assert (String.eqb (key ++ "=" ++ v) "" = false) as -> by (destruct key; [done|]; by rewrite append_cons).
  rewrite contains_without by (apply Hall; set_solver). cbn [orb].
  change ("=" ++ v) with (String "=" v). rewrite split_at_app by done. cbn [mbind option_bind]. rewrite !unescape_safe by done. cbn.
  by rewrite String.eqb_refl.
Qed.

(** ** One exchange *)

Lemma flag_app name v : flag name (name ++ v) = Some v.
Proof.
  unfold flag. assert (String.prefix name (name ++ v) = true) as -> by (apply prefix_spec; by exists v).
  rewrite length_append. replace (_ + _ - _)%nat with (String.length v) by lia. by rewrite substring_app_r.
Qed.

Lemma flag_spec name arg v : flag name arg = Some v -> arg = name ++ v.
Proof.
  unfold flag. destruct (String.prefix name arg) eqn:E; [|done]. apply prefix_spec in E as [t ->]. intros <-%(inj Some).
  rewrite length_append. replace (_ + _ - _)%nat with (String.length t) by lia. by rewrite substring_app_r.
Qed.

(** A host that is a scheme and a name with an optional port, and nothing else. *)
Definition host_byte (c : ascii) : bool := safe c && negb (Ascii.eqb c "/") && negb (Ascii.eqb c "?").
Definition plain_host (host : string) : bool :=
  match scheme_of host with Some (_, name) => negb (String.eqb name "") && str_all host_byte name | None => false end.

Lemma scheme_of_app scheme name target : scheme_of (scheme ++ name) = Some (scheme, name) -> scheme_of ((scheme ++ name) ++ target) = Some (scheme, name ++ target).
Proof.
  unfold scheme_of. destruct (flag "https://" (scheme ++ name)) as [v|] eqn:E.
  - intros [= <- ->]. by rewrite append_assoc, flag_app.
  - destruct (flag "http://" (scheme ++ name)) as [v|]; [|done]. cbn. intros [= <- ->]. rewrite append_assoc.
    change (flag "https://" ("http://" ++ name ++ target)) with (@None string). by rewrite flag_app.
Qed.

Lemma plain_host_parts host : plain_host host = true ->
  exists scheme name, host = scheme ++ name /\ scheme_of host = Some (scheme, name) /\ name <> "" /\ str_all host_byte name = true /\ str_all safe host = true.
Proof.
  unfold plain_host. destruct (scheme_of host) as [[scheme name]|] eqn:E; [|done]. intros [Hn Ha]%andb_true_iff.
  apply negb_true_iff, String.eqb_neq in Hn. exists scheme, name.
  assert (host = scheme ++ name /\ (scheme = "https://" \/ scheme = "http://")) as [Eh Hs].
  { unfold scheme_of in E. destruct (flag "https://" host) as [v|] eqn:Ef; [injection E as <- <-; apply flag_spec in Ef; auto|].
    destruct (flag "http://" host) as [v|] eqn:Ef'; [|done]. injection E as <- <-. apply flag_spec in Ef'. auto. }
  split_and!; try done. rewrite Eh, str_all_append. apply andb_true_iff. split; [by destruct Hs as [-> | ->]|].
  revert Ha. apply str_all_impl. intros c. unfold host_byte. by intros [[? _]%andb_true_iff _]%andb_true_iff.
Qed.

Lemma split_authority_app name target :
  str_all host_byte name = true -> split_authority (name ++ String "/" target) = (name, String "/" target).
Proof.
  induction name as [|c name IH]; [done|]. cbn [str_all]. intros [Hc Hn]%andb_true_iff.
  unfold host_byte in Hc. apply andb_true_iff in Hc as [[_ H1]%andb_true_iff H2]. apply negb_true_iff in H1, H2.
  rewrite append_cons. cbn [split_authority]. by rewrite H1, H2, (IH Hn).
Qed.

Section Exchange.
Context {S : Type} (exchange : string -> ControlRequest -> S -> S * result string (string * Z)) (marshal : CtlBody -> string).
Context (ctx : ctlContext) (Hhost : plain_host (trim_slashes (cx_Host ctx)) = true).
Context (Htext : forallb header_byte (list_ascii_of_string (cx_Token ctx)) = true).

Lemma apiDo_safe method target path q body s :
  str_all safe (String "/" target) = true ->
  match Bencode.split_at "?" (String "/" target) with Some pq => pq | None => (String "/" target, "") end = (path, q) ->
  str_all safe q = true ->
  apiDo exchange marshal ctx method (String "/" target) body s =
  exchange (trim_slashes (cx_Host ctx))
    (mkCReq method path (bearer ctx) (query_get q) (match body with Some b => marshal b | None => "" end) "") s.
Proof using Hhost Htext.
  intros Ht Hpq Hq. unfold apiDo. destruct (plain_host_parts _ Hhost) as (scheme & name & Eh & Es & Hne & Hn & Hsafe).
  cbv zeta. rewrite existsb_str_all.
  assert (str_all safe (trim_slashes (cx_Host ctx) ++ String "/" target) = true) as Hall by (by rewrite str_all_append, Hsafe, Ht).
  assert (str_all (fun c => negb (control_byte c)) (trim_slashes (cx_Host ctx) ++ String "/" target) = true) as ->.
  { revert Hall. apply str_all_impl. by intros c [_ H]%andb_true_iff. }
  cbn [negb]. rewrite split_at_without by (apply safe_without; [set_solver|done]).
  rewrite Eh in Es. pose proof (scheme_of_app scheme name (String "/" target) Es) as Et. rewrite Eh, Et.
  rewrite split_authority_app by done. apply String.eqb_neq in Hne. rewrite Hne.
  assert (str_all safe name = true) as Hns.
  { revert Hn. apply str_all_impl. intros c. unfold host_byte. by intros [[? _]%andb_true_iff _]%andb_true_iff. }
  rewrite contains_without by (apply safe_without; [set_solver|done]). rewrite Htext. cbn [negb].
  rewrite Hpq. rewrite contains_without by (apply safe_without; [set_solver|done]). done.
Qed.

Lemma apiDo_plain method target body s :
  str_all safe (String "/" target) = true -> str_all (fun x => negb (Ascii.eqb x "?")) (String "/" target) = true ->
  apiDo exchange marshal ctx method (String "/" target) body s =
  exchange (trim_slashes (cx_Host ctx))
    (mkCReq method (String "/" target) (bearer ctx) (query_get "") (match body with Some b => marshal b | None => "" end) "") s.
Proof using Hhost Htext. intros Hp Hq. apply apiDo_safe; [done| |done]. by rewrite split_at_without. Qed.

Lemma apiDo_query method path key v body s :
  str_all safe (String "/" path) = true -> str_all (fun x => negb (Ascii.eqb x "?")) (String "/" path) = true ->
  str_all safe key = true -> str_all safe v = true ->
  apiDo exchange marshal ctx method (String "/" path ++ "?" ++ key ++ "=" ++ v) body s =
  exchange (trim_slashes (cx_Host ctx))
    (mkCReq method (String "/" path) (bearer ctx) (query_get (key ++ "=" ++ v)) (match body with Some b => marshal b | None => "" end) "") s.
Proof using Hhost Htext.
  intros Hp Hq Hk Hv. rewrite append_cons. apply apiDo_safe.
  - rewrite <- append_cons, !str_all_append, Hp, Hk, Hv. done.
  - rewrite <- append_cons. change ("?" ++ key ++ "=" ++ v) with (String "?" (key ++ "=" ++ v)). by rewrite split_at_app.
  - by rewrite !str_all_append, Hk, Hv.
Qed.
End Exchange.

(** ** The tracker as the client sees it *)

(** What encoding/json writes, the server's decoders read: texts of ASCII bytes, since bytes that are not UTF-8 are
    replaced, and numbers that fit their fields. *)
Definition ascii_text (s : string) : bool := str_all (fun c => ascii_byte c <? 128) s.
Class CtlJson (marshal : CtlBody -> string) (d : Decoders) := {
  json_torrent id h ft : 0 <= id < 2 ^ 32 -> 0 <= ft < 2 ^ 8 -> ascii_text h = true ->
    d_torrent d (marshal (CtlTorrent id h ft)) = Some (mkTorrentPost id h ft);
  json_free ft : (forall f, ft = Some f -> 0 <= f < 2 ^ 8) -> d_free d (marshal (CtlFree ft)) = Some ft;
  json_user id pk leech protect : 0 <= id < 2 ^ 32 -> ascii_text pk = true -> d_user d (marshal (CtlUser id pk leech protect)) = Some (mkUserPost id pk "" (Some leech) (Some protect));
  json_patch leech protect : d_patch d (marshal (CtlPatch leech protect)) = Some (mkUserPatch leech protect)
}.

Section Managed.
Context {C : Type} (config : ControlConfig) (d : Decoders) (o : SwarmOrders).
Context (torder : TorrentList -> list (string * Torrent)) (porder : PeerList -> list (string * Peer)).
Context (aorder : gset string -> list string) (dberr : AdminWrite -> option string) (now : Z).
Context (render : ControlBody -> string) (listens : string -> bool) (marshal : CtlBody -> string) `{!CtlJson marshal d} (pretty : string -> string).
Implicit Types (k : ControlState C).

(** The server is behind the hosts that [listens] says; a handler that panics closes the connection. *)
Definition control_exchange (host : string) (r : ControlRequest) k : ControlState C * result string (string * Z) :=
  if negb (listens host) then (k, Err "dial") else
  match ServeControl config d o torder porder aorder dberr now r k with
  | Some (k', resp) => (k', Ok (render (cs_Body resp), cs_Status resp))
  | None => (k, Err "EOF")
  end.

Definition users k : UserList := w_Users (y_worker (k_sys k)).
Definition torrents k : TorrentList := w_Torrents (y_worker (k_sys k)).
Definition tables k : TDB := y_db (k_sys k).

Context (cfg : ctlConfig) (ctx : ctlContext) (Hctx : currentContext cfg = Ok ctx).
Context (Hhost : plain_host (trim_slashes (cx_Host ctx)) = true) (Hlisten : listens (trim_slashes (cx_Host ctx)) = true).
Context (Htext : forallb header_byte (list_ascii_of_string (cx_Token ctx)) = true).
Context (Htok : token_ok config (bearer ctx) = true).

Lemma auth_passes h r k : cq_Authorization r = bearer ctx -> authMiddleware config h r k = h r k.
Proof.
  intros Ha. unfold authMiddleware. rewrite Ha. unfold token_ok in Htok. cbn zeta in *. apply andb_true_iff in Htok as [H1 H2].
  apply negb_true_iff in H1. by rewrite H1, H2.
Qed.

Lemma serve_users r k : cq_Path r = "/api/v1/users" -> cq_Authorization r = bearer ctx ->
  ServeControl config d o torder porder aorder dberr now r k = handleUsers d dberr r k.
Proof. intros Hp Ha. unfold ServeControl, route. rewrite Hp. cbn [String.eqb Ascii.eqb Bool.eqb]. by apply auth_passes. Qed.

Lemma serve_torrents r k : cq_Path r = "/api/v1/torrents" -> cq_Authorization r = bearer ctx ->
  ServeControl config d o torder porder aorder dberr now r k = handleTorrents d torder dberr r k.
Proof. intros Hp Ha. unfold ServeControl, route. rewrite Hp. cbn [String.eqb Ascii.eqb Bool.eqb]. by apply auth_passes. Qed.

Definition add_flags (leech protect : bool) : list string :=
  ((if leech then [] else ["--no-leech"]) ++ (if protect then ["--protect-ip"] else []))%list.

Lemma user_flags id pk leech protect : 0 <= id < 2 ^ 32 ->
  foldl user_arg (0, "", true, false) (["--id=" +:+ dec id; "--passkey=" +:+ pk] ++ add_flags leech protect)%list = (id, pk, leech, protect).
Proof.
  intros Hid. cbn [foldl app]. unfold user_arg at 3. rewrite flag_app, uint_value_dec by done.
  unfold user_arg at 2. change (flag "--id=" ("--passkey=" ++ pk)) with (@None string). rewrite flag_app. by destruct leech, protect.
Qed.

Lemma user_add_command id pk leech protect k :
  0 < id < 2 ^ 32 -> String.length pk = 32%nat -> ascii_text pk = true -> users k !! pk = None -> dberr (WRecordUserPasskey id pk) = None ->
  exists k' out, cmdUser control_exchange marshal pretty (["add"; "--id=" +:+ dec id; "--passkey=" +:+ pk] ++ add_flags leech protect)%list cfg k = (k', Ok out) /\
    users k' = <[pk := NewUser id leech protect]> (users k) /\ torrents k' = torrents k /\
    tables k' = db_RecordUserPasskey id pk leech protect (tables k).
Proof using All.
  intros Hid Hlen Hasc Hnone Hdb. cbn [app cmdUser]. unfold with_context. rewrite Hctx.
  change (String.eqb "add" "add") with true. cbv iota.
  pose proof (user_flags id pk leech protect ltac:(lia)) as Hf. cbn [app] in Hf. rewrite Hf.
  rewrite (proj2 (Z.eqb_neq id 0)) by lia. assert (String.eqb pk "" = false) as -> by (by destruct pk). cbn [orb].
  rewrite apiDo_plain by (done || reflexivity). unfold control_exchange. rewrite Hlisten. cbn [negb]. rewrite serve_users by done.
  unfold handleUsers, is_method. cbn [cq_Method cq_Body String.eqb Ascii.eqb Bool.eqb]. rewrite json_user by (done || lia). cbn [up_NewPasskey String.eqb].
  unfold add_user. cbn [up_ID up_Passkey up_CanLeech up_ProtectIP default]. rewrite (proj2 (Z.eqb_neq id 0)) by lia.
  assert (String.eqb pk "" = false) as -> by (by destruct pk). cbn [orb]. rewrite Hlen. cbn [Nat.eqb negb].
  unfold users in Hnone. rewrite Hnone. unfold then_write. rewrite Hdb.
  do 2 eexists. split; [reflexivity|]. by destruct k as [[[] ? ?] ? ? ? ?].
Qed.

Definition right_flag (name : string) (x : option bool) : list string :=
  match x with None => [] | Some true => [name +:+ "=true"] | Some false => [name +:+ "=false"] end.
Definition patch_flags (leech protect : option bool) : list string :=
  (right_flag "--can-leech" leech ++ right_flag "--protect-ip" protect)%list.

Lemma rights_flags pk leech protect :
  foldl rights_arg ("", None, None) (("--passkey=" +:+ pk) :: patch_flags leech protect) = (pk, leech, protect).
Proof. cbn [foldl]. unfold rights_arg at 2. rewrite flag_app. by destruct leech as [[]|], protect as [[]|]. Qed.

Lemma user_patch_command pk leech protect k u :
  str_all safe pk = true -> pk <> "" -> users k !! pk = Some u ->
  exists k' out, cmdUser control_exchange marshal pretty (["patch"; "--passkey=" +:+ pk] ++ patch_flags leech protect)%list cfg k = (k', Ok out) /\
    users k' = <[pk := (u {{ u_CanLeech := default (u_CanLeech u) leech }}) {{ u_ProtectIP := default (u_ProtectIP u) protect }}]> (users k) /\
    torrents k' = torrents k /\ tables k' = tables k.
Proof using All.
  intros Hs Hne Hu. cbn [app cmdUser]. unfold with_context. rewrite Hctx.
  change (String.eqb "patch" "add") with false. change (String.eqb "patch" "delete") with false. change (String.eqb "patch" "patch") with true. cbv iota.
  rewrite rights_flags. apply String.eqb_neq in Hne as Hne'. rewrite Hne'.
  change ("/api/v1/users?passkey=" ++ pk) with ("/api/v1/users" ++ "?" ++ "passkey" ++ "=" ++ pk). rewrite apiDo_query by (done || reflexivity).
  unfold control_exchange. rewrite Hlisten. cbn [negb]. rewrite serve_users by done. unfold handleUsers, is_method, get_passkey. cbn [cq_Method cq_Query cq_Body String.eqb Ascii.eqb Bool.eqb].
  rewrite (query_single "passkey" pk), Hne' by done. unfold patch_user. unfold users in Hu. cbn [cq_Body]. rewrite Hu, json_patch.
  do 2 eexists. split; [reflexivity|]. by destruct k as [[[] ? ?] ? ? ? ?].
Qed.

Lemma user_delete_command pk k :
  str_all safe pk = true -> pk <> "" ->
  exists k' out, cmdUser control_exchange marshal pretty ["delete"; "--passkey=" ++ pk] cfg k = (k', Ok out) /\
    users k' = delete pk (users k) /\ torrents k' = torrents k /\ tables k' = tables k.
Proof using All.
  intros Hs Hne. cbn [cmdUser]. unfold with_context. rewrite Hctx.
  change (String.eqb "delete" "add") with false. change (String.eqb "delete" "delete") with true. cbv iota.
  assert (foldl passkey_arg "" ["--passkey=" ++ pk] = pk) as -> by (cbn [foldl]; unfold passkey_arg; by rewrite flag_app).
  apply String.eqb_neq in Hne as Hne'. rewrite Hne'.
  change ("/api/v1/users?passkey=" ++ pk) with ("/api/v1/users" ++ "?" ++ "passkey" ++ "=" ++ pk). rewrite apiDo_query by (done || reflexivity).
  unfold control_exchange. rewrite Hlisten. cbn [negb]. rewrite serve_users by done. unfold handleUsers, is_method, get_passkey. cbn [cq_Method cq_Query cq_Body String.eqb Ascii.eqb Bool.eqb].
  rewrite (query_single "passkey" pk), Hne' by done.
  do 2 eexists. split; [reflexivity|]. by destruct k as [[[] ? ?] ? ? ? ?].
Qed.

Lemma torrent_flags id h ft : 0 <= id < 2 ^ 32 -> 0 <= ft < 2 ^ 8 ->
  foldl torrent_arg (0, "", 0) ["--id=" ++ dec id; "--info-hash=" ++ h; "--free-type=" ++ dec ft] = (id, h, ft).
Proof.
  intros Hid Hft. cbn [foldl]. unfold torrent_arg at 3. rewrite flag_app, uint_value_dec by done.
  unfold torrent_arg at 2. change (flag "--id=" ("--info-hash=" ++ h)) with (@None string). rewrite flag_app.
  unfold torrent_arg. change (flag "--id=" ("--free-type=" ++ dec ft)) with (@None string).
  change (flag "--info-hash=" ("--free-type=" ++ dec ft)) with (@None string). by rewrite flag_app, uint_value_dec.
Qed.

Lemma torrent_add_command id h ft k :
  0 < id < 2 ^ 32 -> 0 <= ft < 2 ^ 8 -> h <> "" -> ascii_text h = true -> torrents k !! h = None -> dberr (WRecordTorrentHash id h) = None ->
  exists k' out, cmdTorrent control_exchange marshal pretty ["add"; "--id=" ++ dec id; "--info-hash=" ++ h; "--free-type=" ++ dec ft] cfg k = (k', Ok out) /\
    torrents k' = <[h := (NewTorrent id) {{ t_FreeType := ft }}]> (torrents k) /\ users k' = users k /\
    tables k' = db_RecordTorrentHash id h (tables k).
Proof using All.
  intros Hid Hft Hne Hasc Hnone Hdb. cbn [cmdTorrent]. unfold with_context. rewrite Hctx.
  change (String.eqb "add" "list") with false. change (String.eqb "add" "add") with true. cbv iota.
  rewrite torrent_flags by lia. apply String.eqb_neq in Hne. rewrite (proj2 (Z.eqb_neq id 0)), Hne by lia. cbn [orb].
  rewrite apiDo_plain by (done || reflexivity). unfold control_exchange. rewrite Hlisten. cbn [negb]. rewrite serve_torrents by done.
  unfold handleTorrents, is_method. cbn [cq_Method cq_Body String.eqb Ascii.eqb Bool.eqb]. unfold post_torrent. cbn [cq_Body]. rewrite json_torrent by (done || lia).
  cbn [tp_ID tp_InfoHash tp_FreeType]. rewrite (proj2 (Z.eqb_neq id 0)), Hne by lia. cbn [orb]. unfold torrents in Hnone. rewrite Hnone.
  unfold then_write. rewrite Hdb. do 2 eexists. split; [reflexivity|]. by destruct k as [[[] ? ?] ? ? ? ?].
Qed.

Lemma torrent_patch_command h ft k t :
  str_all safe h = true -> h <> "" -> 0 <= ft < 2 ^ 8 -> torrents k !! h = Some t ->
  exists k' out, cmdTorrent control_exchange marshal pretty ["patch"; "--info-hash=" ++ h; "--free-type=" ++ dec ft] cfg k = (k', Ok out) /\
    torrents k' = <[h := t {{ t_FreeType := ft }}]> (torrents k) /\ users k' = users k /\ tables k' = tables k.
Proof using All.
  intros Hs Hne Hft Ht. cbn [cmdTorrent]. unfold with_context. rewrite Hctx.
  change (String.eqb "patch" "list") with false. change (String.eqb "patch" "add") with false. change (String.eqb "patch" "delete") with false.
  change (String.eqb "patch" "patch") with true. cbv iota.
  assert (foldl free_arg ("", None) ["--info-hash=" ++ h; "--free-type=" ++ dec ft] = (h, Some ft)) as ->.
  { cbn [foldl]. unfold free_arg at 2. rewrite flag_app. unfold free_arg. change (flag "--info-hash=" ("--free-type=" ++ dec ft)) with (@None string).
    by rewrite flag_app, uint_value_dec. }
  apply String.eqb_neq in Hne as Hne'. rewrite Hne'.
  change ("/api/v1/torrents?info_hash=" ++ h) with ("/api/v1/torrents" ++ "?" ++ "info_hash" ++ "=" ++ h). rewrite apiDo_query by (done || reflexivity).
  unfold control_exchange. rewrite Hlisten. cbn [negb]. rewrite serve_torrents by done. unfold handleTorrents, is_method, get_hash. cbn [cq_Method cq_Query cq_Body String.eqb Ascii.eqb Bool.eqb].
  rewrite (query_single "info_hash" h), Hne' by done. unfold patch_torrent. unfold torrents in Ht. cbn [cq_Body]. rewrite Ht, json_free by (by intros ? [= <-]).
  do 2 eexists. split; [reflexivity|]. by destruct k as [[[] ? ?] ? ? ? ?].
Qed.

Lemma torrent_delete_command h k :
  str_all safe h = true -> h <> "" ->
  exists k' out, cmdTorrent control_exchange marshal pretty ["delete"; "--info-hash=" ++ h] cfg k = (k', Ok out) /\
    torrents k' = delete h (torrents k) /\ users k' = users k /\ tables k' = tables k.
Proof using All.
  intros Hs Hne. cbn [cmdTorrent]. unfold with_context. rewrite Hctx.
  change (String.eqb "delete" "list") with false. change (String.eqb "delete" "add") with false. change (String.eqb "delete" "delete") with true. cbv iota.
  assert (foldl hash_arg "" ["--info-hash=" ++ h] = h) as -> by (cbn [foldl]; unfold hash_arg; by rewrite flag_app).
  apply String.eqb_neq in Hne as Hne'. rewrite Hne'.
  change ("/api/v1/torrents?info_hash=" ++ h) with ("/api/v1/torrents" ++ "?" ++ "info_hash" ++ "=" ++ h). rewrite apiDo_query by (done || reflexivity).
  unfold control_exchange. rewrite Hlisten. cbn [negb]. rewrite serve_torrents by done. unfold handleTorrents, is_method, get_hash. cbn [cq_Method cq_Query cq_Body String.eqb Ascii.eqb Bool.eqb].
  rewrite (query_single "info_hash" h), Hne' by done.
  do 2 eexists. split; [reflexivity|]. by destruct k as [[[] ? ?] ? ? ? ?].
Qed.
End Managed.

(** ** A token that the server refuses *)

Section Denied.
Context {S : Type} (exchange : string -> ControlRequest -> S -> S * result string (string * Z)).
Context (marshal : CtlBody -> string) (pretty : string -> string) (cfg : ctlConfig) (s : S).
Context (Hden : forall ctx host r, currentContext cfg = Ok ctx -> cq_Authorization r = bearer ctx -> (exchange host r s).1 = s).

Lemma apiDo_denied ctx method target body : currentContext cfg = Ok ctx -> (apiDo exchange marshal ctx method target body s).1 = s.
Proof using Hden.
  intros Hc. unfold apiDo. cbv zeta. destruct (existsb _ _); [done|]. destruct (scheme_of _) as [[scheme rest]|]; [|done].
  destruct (split_authority rest) as [authority rest']. destruct (String.eqb _ ""); [done|]. destruct (contains _ _); [done|].
  destruct (negb _); [done|]. destruct (match Bencode.split_at "?" _ with Some pq => pq | None => _ end) as [path q].
  destruct (contains _ _); [done|]. by apply (Hden ctx).
Qed.

Lemma finish_denied good ctx method target body : currentContext cfg = Ok ctx -> (finish pretty good (apiDo exchange marshal ctx method target body s)).1 = s.
Proof using Hden. intros Hc. pose proof (apiDo_denied ctx method target body Hc) as E. unfold finish. by destruct (apiDo _ _ _ _ _ _ _). Qed.

Lemma commands_denied args :
  (cmdStats exchange marshal pretty cfg s).1 = s /\ (cmdTorrent exchange marshal pretty args cfg s).1 = s /\
  (cmdUser exchange marshal pretty args cfg s).1 = s /\ (cmdPeer exchange marshal pretty args cfg s).1 = s.
Proof using Hden.
  pose proof finish_denied as Hfin. clear Hden. unfold cmdStats, cmdTorrent, cmdUser, cmdPeer, with_context.
  destruct (currentContext cfg) as [ctx|e] eqn:Hc; [|by destruct args].
  split; [by apply Hfin|]. destruct args as [|sub flags]; [done|].
  split_and!; repeat (case_match; try done); by apply Hfin.
Qed.

Lemma main_denied decode encode order saveErr args f : loadConfig decode f = Ok cfg ->
  (ctl_main exchange marshal pretty decode encode order saveErr args f s).1.1 = s.
Proof using Hden.
  intros Hl. destruct args as [|cmd rest]; [done|]. cbn [ctl_main]. rewrite Hl. destruct (commands_denied rest) as (H1 & H2 & H3 & H4).
  repeat (case_match; try done).
Qed.
End Denied.

(** [C29] What an operator types reaches the tracker.  Let the host of the context be a scheme and a name where
    the control server listens, its token one that a header may hold and that the server accepts, JSON of ASCII texts
    and of numbers in range be read as it was written, and no write of the database fail.  Then adding a user
    or a torrent, with an id from 1 to 2^32 - 1, a new passkey of 32 ASCII bytes or a new hash of ASCII bytes,
    and a free type below 256, puts it into the tracker's memory with the id, the rights or the
    free type of the flags, and writes its row; a patch of an entry that exists changes exactly
    the rights or the free type that were given; and a deletion removes the entry from memory, where the
    passkey or hash that is patched or deleted must be free of the bytes that a query treats specially.  Each of these
    commands succeeds then.  With a token that is not accepted, no command line at all
    changes the tracker. *)
Theorem ctl_commands {C} config d o torder porder aorder dberr now render listens marshal `{!CtlJson marshal d} pretty cfg ctx (k : ControlState C) :
  currentContext cfg = Ok ctx ->
  let ex := control_exchange config d o torder porder aorder dberr now render listens in
  (plain_host (trim_slashes (cx_Host ctx)) = true -> listens (trim_slashes (cx_Host ctx)) = true ->
   forallb header_byte (list_ascii_of_string (cx_Token ctx)) = true -> token_ok config (bearer ctx) = true -> (forall w, dberr w = None) ->
   (forall id pk leech protect, 0 < id < 2 ^ 32 -> String.length pk = 32%nat -> ascii_text pk = true -> users k !! pk = None ->
      exists k' out, cmdUser ex marshal pretty (["add"; "--id=" +:+ dec id; "--passkey=" +:+ pk] ++ add_flags leech protect)%list cfg k = (k', Ok out) /\
        users k' = <[pk := NewUser id leech protect]> (users k) /\ torrents k' = torrents k /\
        tables k' = db_RecordUserPasskey id pk leech protect (tables k)) /\
   (forall pk leech protect u, str_all safe pk = true -> pk <> "" -> users k !! pk = Some u ->
      exists k' out, cmdUser ex marshal pretty (["patch"; "--passkey=" +:+ pk] ++ patch_flags leech protect)%list cfg k = (k', Ok out) /\
        users k' = <[pk := (u {{ u_CanLeech := default (u_CanLeech u) leech }}) {{ u_ProtectIP := default (u_ProtectIP u) protect }}]> (users k) /\
        torrents k' = torrents k /\ tables k' = tables k) /\
   (forall pk, str_all safe pk = true -> pk <> "" ->
      exists k' out, cmdUser ex marshal pretty ["delete"; "--passkey=" ++ pk] cfg k = (k', Ok out) /\
        users k' = delete pk (users k) /\ torrents k' = torrents k /\ tables k' = tables k) /\
   (forall id h ft, 0 < id < 2 ^ 32 -> 0 <= ft < 2 ^ 8 -> h <> "" -> ascii_text h = true -> torrents k !! h = None ->
      exists k' out, cmdTorrent ex marshal pretty ["add"; "--id=" ++ dec id; "--info-hash=" ++ h; "--free-type=" ++ dec ft] cfg k = (k', Ok out) /\
        torrents k' = <[h := (NewTorrent id) {{ t_FreeType := ft }}]> (torrents k) /\ users k' = users k /\
        tables k' = db_RecordTorrentHash id h (tables k)) /\
   (forall h ft t, str_all safe h = true -> h <> "" -> 0 <= ft < 2 ^ 8 -> torrents k !! h = Some t ->
      exists k' out, cmdTorrent ex marshal pretty ["patch"; "--info-hash=" ++ h; "--free-type=" ++ dec ft] cfg k = (k', Ok out) /\
        torrents k' = <[h := t {{ t_FreeType := ft }}]> (torrents k) /\ users k' = users k /\ tables k' = tables k) /\
   (forall h, str_all safe h = true -> h <> "" ->
      exists k' out, cmdTorrent ex marshal pretty ["delete"; "--info-hash=" ++ h] cfg k = (k', Ok out) /\
        torrents k' = delete h (torrents k) /\ users k' = users k /\ tables k' = tables k)) /\
  (token_ok config (bearer ctx) = false ->
   forall decode encode order saveErr args f, loadConfig decode f = Ok cfg ->
     (ctl_main ex marshal pretty decode encode order saveErr args f k).1.1 = k).
Proof.
  intros Hctx ex. split.
  - intros Hhost Hlisten Htext Htok Hdb. split_and!; intros.
    + by apply (user_add_command config d o torder porder aorder dberr now render listens marshal pretty cfg ctx).
    + by apply (user_patch_command config d o torder porder aorder dberr now render listens marshal pretty cfg ctx).
    + by apply (user_delete_command config d o torder porder aorder dberr now render listens marshal pretty cfg ctx).
    + by apply (torrent_add_command config d o torder porder aorder dberr now render listens marshal pretty cfg ctx).
    + by apply (torrent_patch_command config d o torder porder aorder dberr now render listens marshal pretty cfg ctx).
    + by apply (torrent_delete_command config d o torder porder aorder dberr now render listens marshal pretty cfg ctx).
  - intros Htok decode encode order saveErr args f Hl. apply (main_denied ex marshal pretty cfg k); [|done].
    intros ctx' host r Hc Ha. rewrite Hctx in Hc. injection Hc as <-. unfold ex, control_exchange. destruct (negb _); [done|].
    destruct (control_auth config d o torder porder aorder dberr now r k) as (Hden & _). rewrite Ha in Hden.
    by destruct (Hden Htok) as [->| ->].
Qed.

(** ** Witness: a small codec in the place of JSON *)

Module DemoCtl.
Definition bit (b : bool) : string := if b then "1" else "0".
Definition obit (b : option bool) : string := match b with None => "n" | Some b => bit b end.
Definition codec (b : CtlBody) : string :=
  match b with
  | CtlTorrent id h ft => dec id ++ ":" ++ dec ft ++ ":" ++ h
  | CtlFree None => ""
  | CtlFree (Some ft) => dec ft
  | CtlUser id pk leech protect => dec id ++ ":" ++ bit leech ++ bit protect ++ pk
  | CtlPatch leech protect => obit leech ++ obit protect
  end.

Definition int (s : string) : option Z := Z.of_int <$> NilZero.int_of_string s.
Lemma int_dec z : int (dec z) = Some z.
Proof. unfold int, dec. destruct (to_int_nonnil z). rewrite NilZero.isi by done. cbn. by rewrite DecimalZ.of_to. Qed.

Definition un_torrent (s : string) : option TorrentPost :=
  '(a, r) ← Bencode.split_at ":" s; '(b, h) ← Bencode.split_at ":" r; id ← int a; ft ← int b; Some (mkTorrentPost id h ft).
Definition un_free (s : string) : option (option Z) := if String.eqb s "" then Some None else Some <$> int s.
Definition un_user (s : string) : option UserPost :=
  '(a, r) ← Bencode.split_at ":" s; id ← int a;
  match r with
  | String x (String y pk) => Some (mkUserPost id pk "" (Some (Ascii.eqb x "1")) (Some (Ascii.eqb y "1")))
  | _ => None
  end.
Definition un_obit (c : ascii) : option bool := if Ascii.eqb c "n" then None else Some (Ascii.eqb c "1").
Definition un_patch (s : string) : option UserPatch :=
  match s with String x (String y _) => Some (mkUserPatch (un_obit x) (un_obit y)) | _ => None end.

Definition decoders : Decoders :=
  mkDecoders un_torrent un_free un_user un_patch (fun _ => None) (fun _ => None) (fun _ => None) (fun _ => None) (fun _ => None) (fun _ => None) (fun _ => None).

#[global] Instance codec_ok : CtlJson codec decoders.
Proof.
  split.
  - intros id h ft. cbn [codec decoders d_torrent]. unfold un_torrent.
    change (":" ++ dec ft ++ ":" ++ h) with (String ":" (dec ft ++ String ":" h)). rewrite split_at_app by apply dec_no_colon. cbn [mbind option_bind].
    rewrite split_at_app by apply dec_no_colon. cbn [mbind option_bind]. by rewrite !int_dec.
  - intros [ft|]; [|done]. cbn [codec decoders d_free]. unfold un_free. destruct (String.eqb_spec (dec ft) "") as [E|_]; [|by rewrite int_dec].
    pose proof (int_dec ft) as H. rewrite E in H. discriminate H.
  - intros id pk leech protect. cbn [codec decoders d_user]. unfold un_user.
    change (":" ++ bit leech ++ bit protect ++ pk) with (String ":" (bit leech ++ bit protect ++ pk)). rewrite split_at_app by apply dec_no_colon.
    cbn [mbind option_bind]. rewrite int_dec. by destruct leech, protect.
  - intros leech protect. by destruct leech as [[]|], protect as [[]|].
Qed.

Definition config : ctlConfig := mkCtlConfig {["prod" := mkCtlContext "https://tracker.example/" "secret"]} "prod".
Definition pk : string := "abcdef0123456789abcdef0123456789".
End DemoCtl.

Lemma ctl_commands_witness :
  exists k' out, cmdUser (control_exchange DemoControl.config DemoCtl.decoders DemoFleet.orders map_to_list map_to_list elements (fun _ => None) 1000 (fun _ => "{}") (String.eqb "https://tracker.example"))
      DemoCtl.codec id (["add"; "--id=" +:+ dec 12; "--passkey=" +:+ DemoCtl.pk] ++ add_flags false true)%list DemoCtl.config DemoControl.state = (k', Ok out) /\
    users k' !! DemoCtl.pk = Some (NewUser 12 false true).
Proof.
  destruct (ctl_commands DemoControl.config DemoCtl.decoders DemoFleet.orders map_to_list map_to_list elements (fun _ => None) 1000 (fun _ => "{}") (String.eqb "https://tracker.example")
              DemoCtl.codec id DemoCtl.config (mkCtlContext "https://tracker.example/" "secret") DemoControl.state) as [H _]; [reflexivity|].
  destruct H as (Hadd & _); [reflexivity|reflexivity|reflexivity|reflexivity|done|].
  destruct (Hadd 12 DemoCtl.pk false true) as (k' & out & E & Hu & _); [lia|reflexivity|reflexivity|reflexivity|].
  exists k', out. split; [exact E|]. rewrite Hu. apply lookup_insert_eq.
Defined.

(** A number that is out of range is cut to the largest one and used. *)
Example ctl_id_cut : foldl torrent_arg (0, "", 0) ["--id=99999999999"; "--info-hash=H"; "--free-type=300"] = (4294967295, "H", 255).
Proof. vm_compute. reflexivity. Qed.

(** A hash with a reserved byte is not sent as it was typed: the server deletes
    another torrent. *)
Example ctl_hash_unescaped : query_get "info_hash=a+b&c" "info_hash" = "a b".
Proof. vm_compute. reflexivity. Qed.
