(* ===== verification/Domains.v ===== *)
(** * Domain vocabularies and adapters (domain.go, vocab.go, configured_adapter.go)

    A vocabulary renames the tracker's concepts for another domain; an adapter
    reads the requests of that domain into neutral events and writes neutral
    answers back, in bencoding or in JSON.  JSON is a parameter, with objects as
    the source builds them: a later entry replaces an earlier one of the same key.

    The theorems: validation of vocabularies, and that the adapter of the BitTorrent
    vocabulary does what the tracker's own front end does. *)
From Stdlib Require Import String.
From S2P Require Import Prelude GoStr NetIP GoFloat GoSort TrackerTypes Whitelist Announce Bencode Server Events.
Open Scope list_scope.
Open Scope string_scope.
Open Scope Z_scope.

(** ** Neutral events and answers (domain.go) *)

Inductive EventType := EventTypeJoin | EventTypeProgress | EventTypeComplete | EventTypeWithdraw | EventTypeHeartbeat.
#[export] Instance EventType_eq : EqDecision EventType.
Proof. solve_decision. Defined.

Record Delta := mkDelta { dl_Produced : Z; dl_Consumed : Z; dl_Remaining : Z; dl_Corrupt : Z }.

Record DomainEvent := mkDomainEvent {
  de_ResourceKey : string;
  de_AgentID : list Z;
  de_Port : Z;
  de_Delta : Delta;
  de_Type : EventType;
  de_IP : IP;
  de_NumWant : Z;
  de_Compact : bool;
  de_UserAgent : string
}.

Record EventResponse := mkEventResponse {
  er_Interval : Z;
  er_MinInterval : Z;
  er_Providers : Z;
  er_Consumers : Z;
  er_Peers : list Z;
  er_Warning : string
}.

Record QueryEntry := mkQueryEntry { qe_ResourceKey : string; qe_Providers : Z; qe_Consumers : Z; qe_Completed : Z }.

Record ClientOpts := mkClientOpts { co_Passkey : string; co_UserAgent : string; co_ClientIP : IP }.

(** ** Vocabularies (vocab.go) *)

Record ActionVocab := mkActions { av_Event : string; av_Query : string }.
Record ResourceVocab := mkResource { rv_Noun : string; rv_Plural : string; rv_KeyParam : string }.
Record ParticipantVocab := mkParticipant { pv_Noun : string; pv_Plural : string }.
Record RoleVocab := mkRoles { ro_Consumer : string; ro_Provider : string }.
Record DeltaVocab := mkDeltaVocab { dv_Produced : string; dv_Consumed : string; dv_Remaining : string; dv_Corrupt : string }.
Record EventTypeVocab := mkEventTypes {
  ev_Join : string; ev_Progress : string; ev_Complete : string; ev_Withdraw : string; ev_Heartbeat : string
}.
Record PolicyVocab := mkPolicy { po_Open : string; po_Restricted : string; po_Blocked : string }.
Record AuthVocab := mkAuth { au_Strategy : string; au_AllowedPrefixes : list string; au_JWTClaim : string; au_PasskeyLength : Z }.

Record VocabularyConfig := mkVocab {
  vc_Domain : string;
  vc_DisplayName : string;
  vc_Actions : ActionVocab;
  vc_Resource : ResourceVocab;
  vc_Participant : ParticipantVocab;
  vc_Roles : RoleVocab;
  vc_Delta : DeltaVocab;
  vc_EventTypes : EventTypeVocab;
  vc_Policy : PolicyVocab;
  vc_Auth : AuthVocab;
  vc_WireFormat : string;
  vc_DomainLabel : string
}.

(** [s], or the default when it is empty. *)
Definition or_else (s def : string) : string := if String.eqb s "" then def else s.

Definition ValidateVocab (v : VocabularyConfig) : result string VocabularyConfig :=
  if String.eqb (vc_Domain v) "" then Err "vocab: domain slug is required"
  else
    let noun := or_else (rv_Noun (vc_Resource v)) "resource" in
    let member := or_else (pv_Noun (vc_Participant v)) "participant" in
    Ok (mkVocab (vc_Domain v) (vc_DisplayName v)
      (mkActions (or_else (av_Event (vc_Actions v)) "announce") (av_Query (vc_Actions v)))
      (mkResource noun (or_else (rv_Plural (vc_Resource v)) (noun ++ "s")) (or_else (rv_KeyParam (vc_Resource v)) "info_hash"))
      (mkParticipant member (or_else (pv_Plural (vc_Participant v)) (member ++ "s")))
      (mkRoles (or_else (ro_Consumer (vc_Roles v)) "consumer") (or_else (ro_Provider (vc_Roles v)) "provider"))
      (mkDeltaVocab (or_else (dv_Produced (vc_Delta v)) "produced") (or_else (dv_Consumed (vc_Delta v)) "consumed")
         (or_else (dv_Remaining (vc_Delta v)) "remaining") (or_else (dv_Corrupt (vc_Delta v)) "corrupt"))
      (mkEventTypes (or_else (ev_Join (vc_EventTypes v)) "join") (ev_Progress (vc_EventTypes v))
         (or_else (ev_Complete (vc_EventTypes v)) "complete") (or_else (ev_Withdraw (vc_EventTypes v)) "withdraw") (ev_Heartbeat (vc_EventTypes v)))
      (vc_Policy v)
      (mkAuth (or_else (au_Strategy (vc_Auth v)) "none") (au_AllowedPrefixes (vc_Auth v)) (au_JWTClaim (vc_Auth v))
         (if au_PasskeyLength (vc_Auth v) =? 0 then 32 else au_PasskeyLength (vc_Auth v)))
      (or_else (vc_WireFormat v) "json")
      (or_else (vc_DomainLabel v) (vc_Domain v))).

Definition EventTypeFromString (v : EventTypeVocab) (s : string) : EventType :=
  let s := to_lower s in
  if String.eqb s (to_lower (ev_Join v)) then EventTypeJoin
  else if String.eqb s (to_lower (ev_Complete v)) then EventTypeComplete
  else if String.eqb s (to_lower (ev_Withdraw v)) then EventTypeWithdraw
  else if negb (String.eqb (ev_Progress v) "") && String.eqb s (to_lower (ev_Progress v)) then EventTypeProgress
  else if negb (String.eqb (ev_Heartbeat v) "") && String.eqb s (to_lower (ev_Heartbeat v)) then EventTypeHeartbeat
  else EventTypeHeartbeat.

(** A file of the directory: its content, or the error of reading it. *)
Record DirEntry := mkDirEntry { dn_Name : string; dn_IsDir : bool; dn_Content : result string string }.

Definition LoadVocabularyConfig (decode : string -> result string VocabularyConfig) (path : string) (content : result string string)
    : result string VocabularyConfig :=
  match content with
  | Err e => Err ("vocab: read " ++ path ++ ": " ++ e)
  | Ok data =>
      match decode data with
      | Err e => Err ("vocab: parse " ++ path ++ ": " ++ e)
      | Ok cfg => ValidateVocab cfg
      end
  end.

(** The first file that fails, fails the whole. *)
Fixpoint load_entries (decode : string -> result string VocabularyConfig) (dir : string) (entries : list DirEntry)
    : result string (list VocabularyConfig) :=
  match entries with
  | [] => Ok []
  | e :: entries =>
      if dn_IsDir e || negb (HasSuffix (dn_Name e) ".json") then load_entries decode dir entries
      else match LoadVocabularyConfig decode (dir ++ "/" ++ dn_Name e) (dn_Content e) with
           | Err err => Err err
           | Ok cfg => match load_entries decode dir entries with Ok l => Ok (cfg :: l) | Err err => Err err end
           end
  end.

(** The directory: missing, unreadable, or its entries. *)
Inductive Directory := Missing | Unreadable (err : string) | Entries (l : list DirEntry).

Definition LoadAllVocabConfigs (decode : string -> result string VocabularyConfig) (dir : string) (d : Directory)
    : result string (list VocabularyConfig) :=
  match d with
  | Missing => Ok []
  | Unreadable e => Err ("vocab: list " ++ dir ++ ": " ++ e)
  | Entries l => load_entries decode dir l
  end.

(** The actions that the server answers itself; vocabularies that use one are
    not registered. *)
Definition btBuiltins : list string := ["announce"; "scrape"; "update"; "stats"; "torrents"; "peers"; "whitelist"; "report"].
Definition builtin (action : string) : bool := existsb (String.eqb action) btBuiltins.
Definition register_adapters (configs : list VocabularyConfig) : list VocabularyConfig :=
  List.filter (fun v => negb (builtin (av_Event (vc_Actions v)) || builtin (av_Query (vc_Actions v)))) configs.

(** ** Adapters (configured_adapter.go) *)

Record ConfiguredAdapter := mkAdapter { ca_vocab : VocabularyConfig; ca_wl : option Whitelist.t }.

Definition ValidateAgent (a : ConfiguredAdapter) (agentID : list Z) : bool :=
  if String.eqb (au_Strategy (vc_Auth (ca_vocab a))) "prefix_trie" then
    match ca_wl a with None => true | Some wl => Whitelist.IsAllowed wl agentID end
  else true.

Definition parseBencodeEvent (v : VocabularyConfig) (get : string -> string) (opts : ClientOpts) : result string DomainEvent :=
  let keyParam := rv_KeyParam (vc_Resource v) in
  if String.eqb (get keyParam) "" then Err ("missing " ++ keyParam)
  else if String.eqb (get "peer_id") "" then Err "missing peer_id"
  else if String.eqb (get "port") "" then Err "missing port"
  else match ParseUint (get "port") 16 with
  | None => Err "invalid port"
  | Some port =>
      let key k def := parseInt64 (get (or_else k def)) in
      let ip := if negb (String.eqb (get "ip") "") then ParseIP (get "ip")
                else if negb (String.eqb (get "ipv4") "") then ParseIP (get "ipv4") else [] in
      Ok (mkDomainEvent (get keyParam) (bytes_of_string (get "peer_id")) port
            (mkDelta (key (dv_Produced (vc_Delta v)) "uploaded") (key (dv_Consumed (vc_Delta v)) "downloaded")
                     (key (dv_Remaining (vc_Delta v)) "left") (key (dv_Corrupt (vc_Delta v)) "corrupt"))
            (EventTypeFromString (vc_EventTypes v) (get "event"))
            (if bool_decide (ip = []) then co_ClientIP opts else ip)
            (i32 (parseInt64 (get "numwant"))) (String.eqb (get "compact") "1") (co_UserAgent opts))
  end.

Record jsonEventRequest := mkJsonEvent {
  je_ResourceKey : string; je_AgentID : string; je_Port : Z; je_Produced : Z; je_Consumed : Z; je_Remaining : Z; je_Corrupt : Z;
  je_Event : string; je_NumWant : Z; je_IP : string
}.

Definition parseJSONEvent (v : VocabularyConfig) (body : result string jsonEventRequest) (opts : ClientOpts) : result string DomainEvent :=
  match body with
  | Err e => Err ("invalid JSON: " ++ e)
  | Ok b =>
      if String.eqb (je_ResourceKey b) "" then Err "missing resource_key"
      else if String.eqb (je_AgentID b) "" then Err "missing agent_id"
      else
        let ip := if negb (String.eqb (je_IP b) "") then ParseIP (je_IP b) else [] in
        Ok (mkDomainEvent (je_ResourceKey b) (bytes_of_string (je_AgentID b)) (je_Port b)
              (mkDelta (je_Produced b) (je_Consumed b) (je_Remaining b) (je_Corrupt b))
              (EventTypeFromString (vc_EventTypes v) (je_Event b))
              (if bool_decide (ip = []) then co_ClientIP opts else ip)
              (je_NumWant b) false (co_UserAgent opts))
  end.

(** [decode] reads the body as JSON. *)
Definition ParseEvent (decode : string -> result string jsonEventRequest) (v : VocabularyConfig) (get : string -> string) (body : string)
    (opts : ClientOpts) : result string DomainEvent :=
  if String.eqb (vc_WireFormat v) "bencode" then parseBencodeEvent v get opts else parseJSONEvent v (decode body) opts.

Definition ParseQuery (v : VocabularyConfig) (query : string -> list string) : result string (list string) :=
  match query (rv_KeyParam (vc_Resource v)) with
  | [] => Err ("no " ++ rv_KeyParam (vc_Resource v) ++ " parameters")
  | keys => Ok keys
  end.

(** ** Answers *)

Inductive Json := JNum (z : Z) | JStr (s : string) | JObj (fields : list (string * Json)) | JArr (items : list Json).

Definition obj_set (k : string) (x : Json) (o : list (string * Json)) : list (string * Json) :=
  (List.filter (fun f => negb (String.eqb f.1 k)) o ++ [(k, x)])%list.
Definition object (fields : list (string * Json)) : list (string * Json) := foldl (fun o f => obj_set f.1 f.2 o) [] fields.

Definition event_body (resp : EventResponse) : string :=
  ("d8:completei" ++ dec (er_Providers resp) ++ "e10:incompletei" ++ dec (er_Consumers resp) ++
   "e8:intervali" ++ dec (er_Interval resp) ++ "e12:min intervali" ++ dec (er_MinInterval resp) ++ "e5:peers" ++
   (if (length (er_Peers resp) =? 0)%nat then "0:"
    else dec (Z.of_nat (length (er_Peers resp))) ++ ":" ++ string_of_bytes (er_Peers resp)) ++
   (if String.eqb (er_Warning resp) "" then "" else "15:warning message" ++ dec (strlen (er_Warning resp)) ++ ":" ++ er_Warning resp) ++
   "e").

Definition formatBencodeEventResponse (resp : EventResponse) (httpClose : bool) : string := response (event_body resp) httpClose false.

Definition query_body (entries : list QueryEntry) : string :=
  ("d5:filesd" ++
   write_all ((fun e => (dec (strlen (qe_ResourceKey e)) ++ ":" ++ qe_ResourceKey e ++ "d8:completei" ++ dec (qe_Providers e) ++
                "e10:incompletei" ++ dec (qe_Consumers e) ++ "e10:downloadedi" ++ dec (qe_Completed e) ++ "ee")%string) <$> entries) ++ "ee").

Section Format.
Context (marshal : Json -> string).

Definition formatJSONEventResponse (v : VocabularyConfig) (resp : EventResponse) (httpClose : bool) : string :=
  let body := object [("interval", JNum (er_Interval resp)); ("min_interval", JNum (er_MinInterval resp));
                      (ro_Provider (vc_Roles v) ++ "s", JNum (er_Providers resp)); (ro_Consumer (vc_Roles v) ++ "s", JNum (er_Consumers resp));
                      ("peer_count", JNum (Z.of_nat (length (er_Peers resp)) / 6))] in
  let body := if String.eqb (er_Warning resp) "" then body else obj_set "warning" (JStr (er_Warning resp)) body in
  jsonResponse (marshal (JObj body)) httpClose.

Definition FormatEventResponse (v : VocabularyConfig) (resp : EventResponse) (httpClose : bool) : string :=
  if String.eqb (vc_WireFormat v) "bencode" then formatBencodeEventResponse resp httpClose else formatJSONEventResponse v resp httpClose.

Definition formatJSONQueryResponse (v : VocabularyConfig) (entries : list QueryEntry) (httpClose : bool) : string :=
  let item e := JObj (object [("key", JStr (qe_ResourceKey e)); (ro_Provider (vc_Roles v) ++ "s", JNum (qe_Providers e));
                              (ro_Consumer (vc_Roles v) ++ "s", JNum (qe_Consumers e)); ("completed", JNum (qe_Completed e))]) in
  jsonResponse (marshal (JObj [(rv_Plural (vc_Resource v), JArr (item <$> entries))])) httpClose.

Definition FormatQueryResponse (v : VocabularyConfig) (entries : list QueryEntry) (httpClose : bool) : string :=
  if String.eqb (vc_WireFormat v) "bencode" then response (query_body entries) httpClose false else formatJSONQueryResponse v entries httpClose.

Definition FormatError (v : VocabularyConfig) (msg : string) (httpClose : bool) : string :=
  if String.eqb (vc_WireFormat v) "bencode" then
    response ("d14:failure reason" ++ dec (strlen msg) ++ ":" ++ msg ++ "e") httpClose false
  else jsonResponse (marshal (JObj [("error", JStr msg)])) httpClose.
End Format.

(** ** To the announce handler and back *)

Definition EventToAnnounceRequest (e : DomainEvent) : AnnounceRequest :=
  let eventStr := match de_Type e with
                  | EventTypeJoin => "started" | EventTypeComplete => "completed" | EventTypeWithdraw => "stopped" | _ => ""
                  end in
  mkReq (de_ResourceKey e) (de_AgentID e) (de_Port e) (dl_Produced (de_Delta e)) (dl_Consumed (de_Delta e)) (dl_Remaining (de_Delta e))
    (dl_Corrupt (de_Delta e)) true false eventStr (de_IP e) (de_NumWant e) "" "".

Definition EventResponseFromAnnounce (resp : AnnounceResponse) : EventResponse :=
  mkEventResponse (rs_Interval resp) (rs_MinInterval resp) (rs_Complete resp) (rs_Incomplete resp) (rs_Peers resp) (rs_Warning resp).

(** * Theorems on vocabularies and adapters *)

(** ** Requests that the handler cannot tell apart *)

Record same_request (clientIP : IP) (r r' : AnnounceRequest) : Prop := {
  same_InfoHash : rq_InfoHash r' = rq_InfoHash r;
  same_PeerID : rq_PeerID r' = rq_PeerID r;
  same_Port : rq_Port r' = rq_Port r;
  same_Uploaded : rq_Uploaded r' = rq_Uploaded r;
  same_Downloaded : rq_Downloaded r' = rq_Downloaded r;
  same_Left : rq_Left r' = rq_Left r;
  same_Corrupt : rq_Corrupt r' = rq_Corrupt r;
  same_Compact : rq_Compact r' = rq_Compact r;
  same_NumWant : rq_NumWant r' = rq_NumWant r;
  same_started : String.eqb (rq_Event r') "started" = String.eqb (rq_Event r) "started";
  same_completed : String.eqb (rq_Event r') "completed" = String.eqb (rq_Event r) "completed";
  same_stopped : String.eqb (rq_Event r') "stopped" = String.eqb (rq_Event r) "stopped";
  same_IP : effective_ip r' clientIP = effective_ip r clientIP
}.

Section Same.
Context (clientIP : IP) (r r' : AnnounceRequest) (Hsame : same_request clientIP r r').

Ltac same := destruct Hsame as [E1 E2 E3 E4 E5 E6 E7 E8 E9 Ea Eb Ec Ed]; rewrite ?E1, ?E2, ?E3, ?E4, ?E5, ?E6, ?E7, ?E8, ?E9, ?Ea, ?Eb, ?Ec, ?Ed.

Lemma place_peer_same k user s : place_peer k user r' s = place_peer k user r s.
Proof. unfold place_peer. by same. Qed.
Lemma credit_same env c user up down s : credit_user env c user r' up down s = credit_user env c user r up down s.
Proof. unfold credit_user. by same. Qed.
Lemma transfer_same env c user up down s : count_transfer env c user r' up down s = count_transfer env c user r up down s.
Proof. unfold count_transfer. by rewrite !credit_same. Qed.
Lemma progress_same env c user s : count_progress env c user r' s = count_progress env c user r s.
Proof. unfold count_progress. rewrite transfer_same. by same. Qed.
Lemma account_same env c user s : account_traffic env c user r' s = account_traffic env c user r s.
Proof. unfold account_traffic, first_announce, counter_reset. rewrite progress_same. by same. Qed.
Lemma address_same user ip now s : update_address user r' ip now s = update_address user r ip now s.
Proof. unfold update_address. by same. Qed.
Lemma record_same env user ip ua s : record_peer env user r' ip ua s = record_peer env user r ip ua s.
Proof. unfold record_peer. by same. Qed.
Lemma settle_same env limit k user ip s : settle_event env limit k user r' ip s = settle_event env limit k user r ip s.
Proof. unfold settle_event, clamp_numwant. by same. Qed.
Lemma start_same torrent cb : start_session torrent cb r' = start_session torrent cb r.
Proof. unfold start_session. by same. Qed.
Lemma drop_same k s : drop_stopped k r' s = drop_stopped k r s.
Proof. unfold drop_stopped. by same. Qed.
Lemma check_same w now ua pk : check_request w now r' ua pk = check_request w now r ua pk.
Proof. unfold check_request. by same. Qed.
Lemma choose_same env w user ip s : choose_peers env w user r' ip s = choose_peers env w user r ip s.
Proof. unfold choose_peers. by same. Qed.

Lemma session_same env w user ua torrent : session_of env w r' user clientIP ua torrent = session_of env w r user clientIP ua torrent.
Proof.
  unfold session_of. rewrite settle_same, record_same, address_same, account_same, place_peer_same, start_same. by same.
Qed.

Lemma Announce_same env w user ua pk : Announce env w r' user clientIP ua pk = Announce env w r user clientIP ua pk.
Proof.
  unfold Announce. rewrite check_same. destruct (check_request w (e_now env) r ua pk); [|done].
  rewrite (same_InfoHash _ _ _ Hsame). destruct (w_Torrents w !! rq_InfoHash r) as [t|]; [|done].
  unfold final_session. rewrite session_same, drop_same, choose_same. by same.
Qed.
End Same.

(** ** Validation *)

Lemma or_else_nonempty s def : def <> "" -> or_else s def <> "".
Proof. unfold or_else. by destruct (String.eqb_spec s ""). Qed.

Lemma or_else_id s def : s <> "" -> or_else s def = s.
Proof. unfold or_else. by destruct (String.eqb_spec s ""). Qed.

Lemma plural_nonempty noun : noun ++ "s" <> "".
Proof. by destruct noun. Qed.

(** Every name a validated vocabulary must have is there. *)
Definition complete_vocab (v : VocabularyConfig) : Prop :=
  Forall (fun s => s <> "")
    [vc_Domain v; av_Event (vc_Actions v); rv_Noun (vc_Resource v); rv_Plural (vc_Resource v); rv_KeyParam (vc_Resource v);
     pv_Noun (vc_Participant v); pv_Plural (vc_Participant v); ro_Consumer (vc_Roles v); ro_Provider (vc_Roles v);
     dv_Produced (vc_Delta v); dv_Consumed (vc_Delta v); dv_Remaining (vc_Delta v); dv_Corrupt (vc_Delta v);
     ev_Join (vc_EventTypes v); ev_Complete (vc_EventTypes v); ev_Withdraw (vc_EventTypes v);
     au_Strategy (vc_Auth v); vc_WireFormat v; vc_DomainLabel v] /\ au_PasskeyLength (vc_Auth v) <> 0.

(** Validation accepts exactly the vocabularies with a domain, what it
    returns has every name the adapters read, and validating again changes
    nothing: a stored vocabulary and a loaded one behave alike. *)
Theorem validated_vocab v :
  (vc_Domain v = "" /\ ValidateVocab v = Err "vocab: domain slug is required") \/
  (vc_Domain v <> "" /\ exists v', ValidateVocab v = Ok v' /\ complete_vocab v' /\ ValidateVocab v' = Ok v').
Proof.
  unfold ValidateVocab. destruct (String.eqb_spec (vc_Domain v) "") as [E|Hd]; [by left|]. right. split; [done|].
  destruct v as [dom disp [ae aq] [rn rp rk] [pn pp] [rc rp'] [dp dc dr dk] [ej ep ec ew eh] pol [st ap jc pl] wf dl]. cbn in *.
  eexists. split; [done|].
  assert (or_else rn "resource" <> "" /\ or_else pn "participant" <> "") as [H1 H2] by (split; by apply or_else_nonempty).
  assert ((if pl =? 0 then 32 else pl) <> 0) as H3 by (destruct (Z.eqb_spec pl 0); done).
  split.
  - split; cbn; [|done]. repeat (apply Forall_cons; split); try (by apply or_else_nonempty); try done; apply or_else_nonempty, plural_nonempty.
  - cbn. rewrite (proj2 (String.eqb_neq _ _) Hd). rewrite !(or_else_id (or_else _ _)) by (apply or_else_nonempty; try done; apply plural_nonempty).
    by rewrite (proj2 (Z.eqb_neq _ _) H3).
Qed.

(** ** The BitTorrent vocabulary *)

(** The names of the BitTorrent protocol, up to letter case for event types. *)
Record speaks_bittorrent (v : VocabularyConfig) : Prop := {
  bt_key : rv_KeyParam (vc_Resource v) = "info_hash";
  bt_delta : vc_Delta v = mkDeltaVocab "uploaded" "downloaded" "left" "corrupt";
  bt_join : to_lower (ev_Join (vc_EventTypes v)) = "started";
  bt_complete : to_lower (ev_Complete (vc_EventTypes v)) = "completed";
  bt_withdraw : to_lower (ev_Withdraw (vc_EventTypes v)) = "stopped";
  bt_wire : vc_WireFormat v = "bencode"
}.

(** An event written in capitals is read by the adapter only. *)
Definition plain_event (s : string) : Prop := to_lower s ∈ ["started"; "completed"; "stopped"] -> to_lower s = s.

Lemma event_type v s : speaks_bittorrent v ->
  EventTypeFromString (vc_EventTypes v) s =
  if String.eqb (to_lower s) "started" then EventTypeJoin
  else if String.eqb (to_lower s) "completed" then EventTypeComplete
  else if String.eqb (to_lower s) "stopped" then EventTypeWithdraw
  else EventTypeFromString (vc_EventTypes v) s.
Proof.
  intros [_ _ E1 E2 E3 _]. unfold EventTypeFromString. rewrite E1, E2, E3. by repeat case_match.
Qed.

Lemma other_event v s : speaks_bittorrent v -> to_lower s ∉ ["started"; "completed"; "stopped"] ->
  EventTypeFromString (vc_EventTypes v) s = EventTypeProgress \/ EventTypeFromString (vc_EventTypes v) s = EventTypeHeartbeat.
Proof.
  intros [_ _ E1 E2 E3 _] Hn. unfold EventTypeFromString. rewrite E1, E2, E3.
  destruct (String.eqb_spec (to_lower s) "started") as [E|_]; [destruct Hn; rewrite E; by left|].
  destruct (String.eqb_spec (to_lower s) "completed") as [E|_]; [destruct Hn; rewrite E; right; by left|].
  destruct (String.eqb_spec (to_lower s) "stopped") as [E|_]; [destruct Hn; rewrite E; right; right; by left|].
  repeat case_match; auto.
Qed.

(** The event name that the adapter gives to the handler. *)
Lemma adapter_event v s (name : string) : speaks_bittorrent v -> plain_event s -> name ∈ ["started"; "completed"; "stopped"] ->
  String.eqb (match EventTypeFromString (vc_EventTypes v) s with
              | EventTypeJoin => "started" | EventTypeComplete => "completed" | EventTypeWithdraw => "stopped" | _ => "" end) name
  = String.eqb s name.
Proof.
  intros Hv Hs Hname. destruct (decide (to_lower s ∈ ["started"; "completed"; "stopped"])) as [Hin|Hout].
  - specialize (Hs Hin). rewrite event_type, Hs by done. rewrite Hs in Hin.
    repeat (apply elem_of_cons in Hin as [->|Hin]; [done|]). by apply not_elem_of_nil in Hin.
  - assert (s <> name) as Hne.
    { intros ->. destruct Hout. repeat (apply elem_of_cons in Hname as [->|Hname]; [vm_compute; set_solver|]). by apply not_elem_of_nil in Hname. }
    rewrite (proj2 (String.eqb_neq _ _) Hne).
    assert (String.eqb "" name = false) as He by (repeat (apply elem_of_cons in Hname as [->|Hname]; [done|]); by apply not_elem_of_nil in Hname).
    by destruct (other_event v s Hv Hout) as [-> | ->].
Qed.

Lemma effective_client (r : AnnounceRequest) ip : rq_IP r = ip -> effective_ip r ip = ip.
Proof. unfold effective_ip. intros ->. destruct ip; [done|]. by destruct (IsUnspecified _). Qed.

Lemma parsed_same v get opts port :
  speaks_bittorrent v -> plain_event (get "event") -> get "compact" = "1" ->
  let params := if negb (String.eqb (get "ip") "") then ParseIP (get "ip") else if negb (String.eqb (get "ipv4") "") then ParseIP (get "ipv4") else [] in
  same_request (co_ClientIP opts)
    (mkReq (get "info_hash") (bytes_of_string (get "peer_id")) port (parseInt64 (get "uploaded")) (parseInt64 (get "downloaded"))
       (parseInt64 (get "left")) (parseInt64 (get "corrupt")) true (String.eqb (get "no_peer_id") "1") (get "event")
       (if negb (String.eqb (get "ip") "") then ParseIP (get "ip") else if negb (String.eqb (get "ipv4") "") then ParseIP (get "ipv4") else co_ClientIP opts)
       (i32 (parseInt64 (get "numwant"))) (get "key") (get "trackerid"))
    (EventToAnnounceRequest (mkDomainEvent (get "info_hash") (bytes_of_string (get "peer_id")) port
       (mkDelta (parseInt64 (get "uploaded")) (parseInt64 (get "downloaded")) (parseInt64 (get "left")) (parseInt64 (get "corrupt")))
       (EventTypeFromString (vc_EventTypes v) (get "event"))
       (if bool_decide (params = []) then co_ClientIP opts else params) (i32 (parseInt64 (get "numwant"))) true (co_UserAgent opts))).
Proof.
  intros Hv Hp Hc params. split; try done; cbn [EventToAnnounceRequest rq_Event de_Type].
  - apply adapter_event; [done..|by left].
  - apply adapter_event; [done..|right; by left].
  - apply adapter_event; [done..|right; right; by left].
  - subst params. destruct (negb (String.eqb (get "ip") "")); [|destruct (negb (String.eqb (get "ipv4") ""))]; try case_bool_decide as E; cbn;
      rewrite ?effective_client by done; unfold effective_ip; cbn; rewrite ?E; try done.
Qed.

(** For the BitTorrent vocabulary the adapter is the tracker's own front
    end: it refuses the same requests with the same message; what it accepts, the
    announce handler treats alike, with the same state, effects and answer; and
    the answer is the same text on the wire. *)
Theorem adapter_equivalent (v : VocabularyConfig) (get : string -> string) (opts : ClientOpts) env w user userAgent passkey :
  speaks_bittorrent v -> get "compact" = "1" -> plain_event (get "event") ->
  let ip := co_ClientIP opts in
  ((exists msg, ParseAnnounceParams get ip = Err msg /\ parseBencodeEvent v get opts = Err msg) \/
   exists r e, ParseAnnounceParams get ip = Ok r /\ parseBencodeEvent v get opts = Ok e /\
     Announce env w (EventToAnnounceRequest e) user ip userAgent passkey = Announce env w r user ip userAgent passkey) /\
  forall marshal resp httpClose,
    FormatEventResponse marshal v (EventResponseFromAnnounce resp) httpClose = bencodedAnnounceResponse resp httpClose.
Proof.
  intros Hv Hc Hp ip. split.
  - unfold ParseAnnounceParams, parseBencodeEvent. rewrite (bt_key v Hv), (bt_delta v Hv). cbn [dv_Produced dv_Consumed dv_Remaining dv_Corrupt].
    destruct (String.eqb (get "info_hash") ""); [left; by eexists|]. destruct (String.eqb (get "peer_id") ""); [left; by eexists|].
    destruct (String.eqb (get "port") ""); [left; by eexists|]. destruct (ParseUint (get "port") 16) as [port|]; [|left; by eexists].
    right. eexists _, _. split; [done|]. split; [done|]. rewrite Hc. exact (Announce_same _ _ _ (parsed_same v get opts port Hv Hp Hc) env w user userAgent passkey).
  - intros marshal resp c. unfold FormatEventResponse. by rewrite (bt_wire v Hv).
Qed.

(** domains/bittorrent.json *)
Definition bittorrent : VocabularyConfig :=
  mkVocab "bittorrent" "BitTorrent Tracker" (mkActions "announce" "scrape") (mkResource "torrent" "torrents" "info_hash")
    (mkParticipant "peer" "peers") (mkRoles "leecher" "seeder") (mkDeltaVocab "uploaded" "downloaded" "left" "corrupt")
    (mkEventTypes "started" "" "completed" "stopped" "") (mkPolicy "open" "restricted" "blocked") (mkAuth "prefix_trie" [] "" 32) "bencode" "bittorrent".

(** The registered adapters of the three vocabularies of the repository leave it out. *)
Example bittorrent_unregistered (l : list VocabularyConfig) : ValidateVocab bittorrent = Ok bittorrent /\ bittorrent ∉ register_adapters l.
Proof. split; [done|]. unfold register_adapters. intros Hin%list_elem_of_In%filter_In. by destruct Hin. Qed.

(** ** A request *)
From S2P Require Import TrackerSpec.

Definition sample_query (key : string) : string :=
  if String.eqb key "compact" then "1" else if String.eqb key "event" then "started"
  else if String.eqb key "info_hash" then "H" else if String.eqb key "peer_id" then "-TR2940-0123456789ab"
  else if String.eqb key "port" then "6881" else if String.eqb key "left" then "100" else "".

Lemma adapter_equivalent_witness :
  exists r e, ParseAnnounceParams sample_query [10; 0; 0; 1] = Ok r /\
    parseBencodeEvent bittorrent sample_query (mkClientOpts "P" "ua" [10; 0; 0; 1]) = Ok e /\ rq_Event (EventToAnnounceRequest e) = "started".
Proof.
  destruct (adapter_equivalent bittorrent sample_query (mkClientOpts "P" "ua" [10; 0; 0; 1]) (sample_env 0) sample_worker sample_user "ua" "P"
    ltac:(split; reflexivity) eq_refl ltac:(intros _; reflexivity)) as [[(msg & E & _)|(r & e & E1 & E2 & _)] _]; [exfalso; vm_compute in E; congruence|].
  exists r, e. split; [exact E1|]. split; [exact E2|]. vm_compute in E2. injection E2 as <-. reflexivity.
Defined.

(** Letter case: the front end ignores an event that the adapter reads. *)
Example adapter_ignores_case :
  EventTypeFromString (vc_EventTypes bittorrent) "Stopped" = EventTypeWithdraw /\ String.eqb "Stopped" "stopped" = false.
Proof. done. Qed.
