(* ===== verification/ConfigFile.v ===== *)
(** * The configuration file (config.go)

    The parser of ocelot.conf, its defaults, and the configuration that the
    programs run with.  The file is a text, or the outcome of opening it. *)
From Stdlib Require Import String Ascii.
From S2P Require Import Prelude GoStr Bencode Server.
Open Scope list_scope.
Open Scope string_scope.
Open Scope Z_scope.

Record FileConfig := mkFileConfig {
  fc_ListenPort : Z;
  fc_MaxConnections : Z;
  fc_MaxMiddlemen : Z;
  fc_MaxReadBuffer : Z;
  fc_ConnectionTimeout : Z;
  fc_KeepaliveTimeout : Z;
  fc_AnnounceInterval : Z;
  fc_MaxRequestSize : Z;
  fc_NumWantLimit : Z;
  fc_RequestLogSize : Z;
  fc_SitePassword : string;
  fc_ReportPassword : string;
  fc_PeersTimeout : Z;
  fc_DelReasonLifetime : Z;
  fc_ReapPeersInterval : Z;
  fc_ScheduleInterval : Z;
  fc_Readonly : bool;
  fc_DBDir : string;
  fc_GazelleURL : string;
  fc_MetricsPort : string;
  fc_VSEnabled : bool;
  fc_VSPort : string;
  fc_VSAdminKey : string;
  fc_VSDBPath : string;
  fc_VSReconcileEvery : Z;
  fc_OTelEndpoint : string;
  fc_BatchBufferCap : Z;
  fc_RateLimitRPS : Z;
  fc_RateLimitBurst : Z;
  fc_MarkovAPIURL : string;
  fc_FreeleechPollSec : Z;
  fc_FreeleechNotifyHours : Z;
  fc_RedisAddr : string;
  fc_TLSCertFile : string;
  fc_TLSKeyFile : string;
  fc_TLSAutoTLS : bool;
  fc_TLSDomain : string;
  fc_TLSCacheDir : string
}.

Definition DefaultFileConfig : FileConfig := {|
  fc_ListenPort := 34000;
  fc_MaxConnections := 128;
  fc_MaxMiddlemen := 20000;
  fc_MaxReadBuffer := 4096;
  fc_ConnectionTimeout := 10;
  fc_KeepaliveTimeout := 0;
  fc_AnnounceInterval := 1800;
  fc_MaxRequestSize := 4096;
  fc_NumWantLimit := 50;
  fc_RequestLogSize := 500;
  fc_SitePassword := "00000000000000000000000000000000";
  fc_ReportPassword := "00000000000000000000000000000000";
  fc_PeersTimeout := 7200;
  fc_DelReasonLifetime := 86400;
  fc_ReapPeersInterval := 1800;
  fc_ScheduleInterval := 3;
  fc_Readonly := false;
  fc_DBDir := "./data/db";
  fc_GazelleURL := "";
  fc_MetricsPort := ":9090";
  fc_VSEnabled := false;
  fc_VSPort := ":9091";
  fc_VSAdminKey := "";
  fc_VSDBPath := "data/db/vs.db";
  fc_VSReconcileEvery := 15;
  fc_OTelEndpoint := "";
  fc_BatchBufferCap := 1000;
  fc_RateLimitRPS := 100;
  fc_RateLimitBurst := 200;
  fc_MarkovAPIURL := "";
  fc_FreeleechPollSec := 0;
  fc_FreeleechNotifyHours := 0;
  fc_RedisAddr := "";
  fc_TLSCertFile := "";
  fc_TLSKeyFile := "";
  fc_TLSAutoTLS := false;
  fc_TLSDomain := "";
  fc_TLSCacheDir := ""
|}.

(** A field that a key of the file sets. *)
Inductive Slot :=
| IntSlot (get : FileConfig -> Z) (set : Z -> FileConfig -> FileConfig)
| StrSlot (get : FileConfig -> string) (set : string -> FileConfig -> FileConfig)
| BoolSlot (get : FileConfig -> bool) (set : bool -> FileConfig -> FileConfig).

Definition parseIntVal (s : string) (def : Z) : Z := default def (Atoi s).

Definition assign (slot : Slot) (val : string) (cfg : FileConfig) : FileConfig :=
  match slot with
  | IntSlot get set => set (parseIntVal val (get cfg)) cfg
  | StrSlot _ set => set val cfg
  | BoolSlot _ set => set (String.eqb val "true") cfg
  end.

(** The cases of the switch. *)
Definition slots : list (string * Slot) := [
  ("listen_port", IntSlot fc_ListenPort (fun x c => c {{ fc_ListenPort := x }}));
  ("max_connections", IntSlot fc_MaxConnections (fun x c => c {{ fc_MaxConnections := x }}));
  ("max_middlemen", IntSlot fc_MaxMiddlemen (fun x c => c {{ fc_MaxMiddlemen := x }}));
  ("max_read_buffer", IntSlot fc_MaxReadBuffer (fun x c => c {{ fc_MaxReadBuffer := x }}));
  ("connection_timeout", IntSlot fc_ConnectionTimeout (fun x c => c {{ fc_ConnectionTimeout := x }}));
  ("keepalive_timeout", IntSlot fc_KeepaliveTimeout (fun x c => c {{ fc_KeepaliveTimeout := x }}));
  ("announce_interval", IntSlot fc_AnnounceInterval (fun x c => c {{ fc_AnnounceInterval := x }}));
  ("max_request_size", IntSlot fc_MaxRequestSize (fun x c => c {{ fc_MaxRequestSize := x }}));
  ("numwant_limit", IntSlot fc_NumWantLimit (fun x c => c {{ fc_NumWantLimit := x }}));
  ("request_log_size", IntSlot fc_RequestLogSize (fun x c => c {{ fc_RequestLogSize := x }}));
  ("site_password", StrSlot fc_SitePassword (fun x c => c {{ fc_SitePassword := x }}));
  ("report_password", StrSlot fc_ReportPassword (fun x c => c {{ fc_ReportPassword := x }}));
  ("peers_timeout", IntSlot fc_PeersTimeout (fun x c => c {{ fc_PeersTimeout := x }}));
  ("del_reason_lifetime", IntSlot fc_DelReasonLifetime (fun x c => c {{ fc_DelReasonLifetime := x }}));
  ("reap_peers_interval", IntSlot fc_ReapPeersInterval (fun x c => c {{ fc_ReapPeersInterval := x }}));
  ("schedule_interval", IntSlot fc_ScheduleInterval (fun x c => c {{ fc_ScheduleInterval := x }}));
  ("readonly", BoolSlot fc_Readonly (fun x c => c {{ fc_Readonly := x }}));
  ("db_dir", StrSlot fc_DBDir (fun x c => c {{ fc_DBDir := x }}));
  ("gazelle_url", StrSlot fc_GazelleURL (fun x c => c {{ fc_GazelleURL := x }}));
  ("metrics_port", StrSlot fc_MetricsPort (fun x c => c {{ fc_MetricsPort := x }}));
  ("vs_enabled", BoolSlot fc_VSEnabled (fun x c => c {{ fc_VSEnabled := x }}));
  ("vs_port", StrSlot fc_VSPort (fun x c => c {{ fc_VSPort := x }}));
  ("vs_admin_key", StrSlot fc_VSAdminKey (fun x c => c {{ fc_VSAdminKey := x }}));
  ("vs_db_path", StrSlot fc_VSDBPath (fun x c => c {{ fc_VSDBPath := x }}));
  ("vs_reconcile_every", IntSlot fc_VSReconcileEvery (fun x c => c {{ fc_VSReconcileEvery := x }}))
].

Definition find_slot (key : string) : option Slot := snd <$> List.find (fun s => String.eqb s.1 key) slots.

(** [SplitN(line, "=", 2)] with both parts trimmed; comments and lines without
    the sign set nothing. *)
Definition line_entry (text : string) : option (string * string) :=
  let line := TrimSpace text in
  if String.eqb line "" || String.prefix "#" line then None
  else '(key, val) ← split_at "="%char line; Some (TrimSpace key, TrimSpace val).

Definition apply_line (cfg : FileConfig) (text : string) : FileConfig :=
  match line_entry text with
  | None => cfg
  | Some (key, val) => match find_slot key with Some slot => assign slot val cfg | None => cfg end
  end.

(** [bufio.ScanLines]: lines end at a line feed, and lose one carriage return
    before it; nothing follows the last line feed. *)
Definition drop_cr (s : string) : string :=
  match rev (bytes_of_string s) with 13 :: r => string_of_bytes (rev r) | _ => s end.
Fixpoint scan_lines (s : string) (acc : string) : list string :=
  match s with
  | "" => if String.eqb acc "" then [] else [drop_cr acc]
  | String c r => if Ascii.eqb c "010"%char then drop_cr acc :: scan_lines r "" else scan_lines r (acc ++ String c "")%string
  end.

Definition maxScanTokenSize : Z := 65536.

Inductive ConfigSource := NoFile | OpenFailed (err : string) | Text (s : string).

Definition ParseConfigFile (path : string) (src : ConfigSource) : result string FileConfig :=
  match src with
  | NoFile => Ok DefaultFileConfig
  | OpenFailed e => Err ("open config " ++ path ++ ": " ++ e)
  | Text s =>
      let lines := scan_lines s "" in
      if existsb (fun l => maxScanTokenSize <=? strlen l) lines
      then Err ("read config " ++ path ++ ": bufio.Scanner: token too long")
      else Ok (foldl apply_line DefaultFileConfig lines)
  end.

(** ** The run-time configuration *)

Record TLSConfig := mkTLS { tls_CertFile : string; tls_KeyFile : string; tls_AutoTLS : bool; tls_Domain : string; tls_CacheDir : string }.

Record TrackerConfig := mkTrackerConfig {
  tc_ListenAddr : string; tc_AnnounceInterval : Z; tc_PeersTimeout : Z; tc_MaxMiddlemen : Z; tc_MaxConnections : Z;
  tc_MaxReadBuffer : Z; tc_NumWantLimit : Z; tc_KeepaliveTimeout : Z; tc_SitePassword : string; tc_ReportPassword : string;
  tc_ReadTimeout : Z; tc_WriteTimeout : Z; tc_ScheduleInterval : Z; tc_ReapPeersInterval : Z; tc_GazelleURL : string;
  tc_MetricsPort : string; tc_Readonly : bool; tc_OTelEndpoint : string; tc_BatchBufferCap : Z; tc_RateLimitRPS : Z;
  tc_RateLimitBurst : Z; tc_MarkovAPIURL : string; tc_FreeleechPollSec : Z; tc_FreeleechNotifyHours : Z; tc_RedisAddr : string;
  tc_DelReasonLifetime : Z; tc_TLS : TLSConfig; tc_ControlAddr : string; tc_ControlSecret : string; tc_TLSCertFile : string;
  tc_TLSKeyFile : string; tc_OpsAddr : string
}.

Definition Second : Z := 1000000000.

Definition ToTrackerConfig (fc : FileConfig) : TrackerConfig :=
  let readTimeout := i64 (fc_ConnectionTimeout fc * Second) in {|
  tc_ListenAddr := ":" ++ dec (fc_ListenPort fc);
  tc_AnnounceInterval := fc_AnnounceInterval fc;
  tc_PeersTimeout := fc_PeersTimeout fc;
  tc_MaxMiddlemen := fc_MaxMiddlemen fc;
  tc_MaxConnections := fc_MaxConnections fc;
  tc_MaxReadBuffer := fc_MaxReadBuffer fc;
  tc_NumWantLimit := fc_NumWantLimit fc;
  tc_KeepaliveTimeout := i64 (fc_KeepaliveTimeout fc * Second);
  tc_SitePassword := fc_SitePassword fc;
  tc_ReportPassword := fc_ReportPassword fc;
  tc_ReadTimeout := readTimeout;
  tc_WriteTimeout := readTimeout;
  tc_ScheduleInterval := fc_ScheduleInterval fc;
  tc_ReapPeersInterval := fc_ReapPeersInterval fc;
  tc_GazelleURL := fc_GazelleURL fc;
  tc_MetricsPort := fc_MetricsPort fc;
  tc_Readonly := fc_Readonly fc;
  tc_OTelEndpoint := fc_OTelEndpoint fc;
  tc_BatchBufferCap := fc_BatchBufferCap fc;
  tc_RateLimitRPS := fc_RateLimitRPS fc;
  tc_RateLimitBurst := fc_RateLimitBurst fc;
  tc_MarkovAPIURL := fc_MarkovAPIURL fc;
  tc_FreeleechPollSec := fc_FreeleechPollSec fc;
  tc_FreeleechNotifyHours := fc_FreeleechNotifyHours fc;
  tc_RedisAddr := fc_RedisAddr fc;
  tc_DelReasonLifetime := fc_DelReasonLifetime fc;
  tc_TLS := mkTLS (fc_TLSCertFile fc) (fc_TLSKeyFile fc) (fc_TLSAutoTLS fc) (fc_TLSDomain fc) (fc_TLSCacheDir fc);
  tc_ControlAddr := "";
  tc_ControlSecret := "";
  tc_TLSCertFile := "";
  tc_TLSKeyFile := "";
  tc_OpsAddr := ""
|}.

(** What SIGHUP takes over from the file; a file that cannot be read changes nothing. *)
Definition sighup (path : string) (src : ConfigSource) (config : TrackerConfig) : TrackerConfig :=
  match ParseConfigFile path src with
  | Err _ => config
  | Ok fc =>
      let new := ToTrackerConfig fc in
      config {{ tc_SitePassword := tc_SitePassword new }} {{ tc_ReportPassword := tc_ReportPassword new }} {{ tc_NumWantLimit := tc_NumWantLimit new }}
             {{ tc_AnnounceInterval := tc_AnnounceInterval new }} {{ tc_PeersTimeout := tc_PeersTimeout new }}
  end.

(** ** What the parser computes *)

Inductive Value := VInt (z : Z) | VStr (s : string) | VBool (b : bool).

Definition slot_value (slot : Slot) (cfg : FileConfig) : Value :=
  match slot with IntSlot get _ => VInt (get cfg) | StrSlot get _ => VStr (get cfg) | BoolSlot get _ => VBool (get cfg) end.

(** The value after one more assignment: a number that does not parse is ignored. *)
Definition accept (slot : Slot) (v : Value) (val : string) : Value :=
  match slot with
  | IntSlot _ _ => match Atoi val with Some z => VInt z | None => v end
  | StrSlot _ _ => VStr val
  | BoolSlot _ _ => VBool (String.eqb val "true")
  end.

(** The texts assigned to a key, in the order of the file. *)
Definition assignments (key : string) (lines : list string) : list string :=
  omap (fun l => '(k, val) ← line_entry l; if String.eqb k key then Some val else None) lines.

Definition values (c : FileConfig) : list Value := (fun s => slot_value s.2 c) <$> slots.

(** An assignment changes its own field and no other. *)
Lemma assign_values c val :
  Forall (fun p => values (assign p.2.2 val c) = <[p.1 := accept p.2.2 (slot_value p.2.2 c) val]> (values c)) (zip (seq 0 (length slots)) slots).
Proof.
  destruct c. unfold slots at 2. cbn [length seq zip zip_with].
  repeat (apply Forall_cons; split; [cbn [fst snd]; unfold assign, accept, slot_value, parseIntVal; first [reflexivity|destruct (Atoi val); reflexivity]|]).
  by apply Forall_nil.
Qed.

Lemma assign_value i slot c val :
  snd <$> slots !! i = Some slot -> values (assign slot val c) = <[i := accept slot (slot_value slot c) val]> (values c).
Proof.
  intros Hi. apply fmap_Some in Hi as (s & Hi & ->). pose proof (assign_values c val) as Hv. rewrite Forall_forall in Hv.
  apply (Hv (i, s)). apply list_elem_of_lookup. exists i. rewrite lookup_zip_with, Hi, lookup_seq_lt by (by eapply lookup_lt_Some). done.
Qed.

Lemma find_slot_elem key slot : find_slot key = Some slot -> (key, slot) ∈ slots.
Proof.
  unfold find_slot. intros Hf. apply fmap_Some in Hf as ([k s] & Hf & ->). apply find_some in Hf as [Hin E%String.eqb_eq].
  cbn in E. subst k. by apply list_elem_of_In.
Qed.

Lemma slots_unique key slot slot' : (key, slot) ∈ slots -> (key, slot') ∈ slots -> slot' = slot.
Proof.
  intros Hin Hf. assert (NoDup slots.*1) as Hn by (vm_compute; by apply (bool_decide_unpack _)).
  apply (elem_of_list_to_map_1 (M := gmap string)) in Hin, Hf; [|done..]. congruence.
Qed.

Lemma slot_value_lookup i s c : slots !! i = Some s -> values c !! i = Some (slot_value s.2 c).
Proof. intros Hi. unfold values. by rewrite list_lookup_fmap, Hi. Qed.

Lemma apply_line_value key slot cfg text :
  (key, slot) ∈ slots ->
  slot_value slot (apply_line cfg text) = foldl (accept slot) (slot_value slot cfg) (assignments key [text]).
Proof.
  intros Hin. unfold apply_line, assignments. cbn [omap list_omap]. destruct (line_entry text) as [[k val]|]; [|done]. cbn [mbind option_bind].
  destruct (find_slot k) as [slot'|] eqn:Ef.
  - apply find_slot_elem in Ef. pose proof Hin as [i Hi]%list_elem_of_lookup. pose proof Ef as [j Hj]%list_elem_of_lookup.
    pose proof (slot_value_lookup i _ (assign slot' val cfg) Hi) as Hv. rewrite (assign_value j) in Hv by (by rewrite Hj).
    pose proof (slot_value_lookup i _ cfg Hi) as Hc. cbn [snd] in *. destruct (String.eqb_spec k key) as [->|Hne]; cbn [foldl].
    + rewrite (slots_unique key slot slot' Hin Ef) in *. destruct (decide (i = j)) as [->|Hij].
      * rewrite list_lookup_insert_eq in Hv by (by eapply lookup_lt_Some). congruence.
      * exfalso. apply Hij. assert (NoDup slots.*1) as Hn by (vm_compute; by apply (bool_decide_unpack _)).
        apply (NoDup_lookup _ _ _ key Hn); by rewrite list_lookup_fmap, ?Hi, ?Hj.
    + rewrite list_lookup_insert_ne, Hc in Hv by congruence. congruence.
  - destruct (String.eqb_spec k key) as [->|Hne]; [|done]. exfalso. unfold find_slot in Ef. apply fmap_None in Ef.
    apply list_elem_of_In in Hin. pose proof (find_none _ _ Ef _ Hin) as E. cbn in E. by rewrite String.eqb_refl in E.
Qed.

(** A setting is what its own key says: for every key of the parser, the
    field is the last value assigned to that key in the file that can be parsed,
    and the default if there is none; comments, malformed lines, unknown keys and
    the other keys have no influence on it. *)
Theorem last_assignment_wins (path text key : string) (slot : Slot) (cfg : FileConfig) :
  (key, slot) ∈ slots -> ParseConfigFile path (Text text) = Ok cfg ->
  slot_value slot cfg = foldl (accept slot) (slot_value slot DefaultFileConfig) (assignments key (scan_lines text "")).
Proof.
  intros Hin Hp. unfold ParseConfigFile in Hp. destruct (existsb _ _); [done|]. injection Hp as <-.
  generalize (scan_lines text ""). generalize DefaultFileConfig. intros c lines. revert c.
  induction lines as [|l lines IH]; intros c; [done|]. cbn [foldl]. rewrite IH, (apply_line_value key slot c l Hin).
  change (l :: lines) with ([l] ++ lines)%list. unfold assignments at 3. by rewrite omap_app, foldl_app.
Qed.

Definition sample_text : string :=
  "# tracker" ++ string_of_bytes [10] ++ "listen_port = 4000" ++ string_of_bytes [13; 10] ++ "listen_port=x" ++ string_of_bytes [10] ++ " readonly =true".

Lemma last_assignment_wins_witness :
  exists cfg, ParseConfigFile "ocelot.conf" (Text sample_text) = Ok cfg /\ fc_ListenPort cfg = 4000 /\ fc_Readonly cfg = true.
Proof.
  assert (exists cfg, ParseConfigFile "ocelot.conf" (Text sample_text) = Ok cfg /\ fc_Readonly cfg = true) as (cfg & Hc & Hr)
    by (eexists; split; vm_compute; reflexivity).
  exists cfg. split; [exact Hc|]. split; [|exact Hr].
  pose proof (last_assignment_wins "ocelot.conf" sample_text "listen_port" (IntSlot fc_ListenPort (fun x c => c {{ fc_ListenPort := x }})) cfg ltac:(left) Hc) as E.
  assert (assignments "listen_port" (scan_lines sample_text "") = ["4000"; "x"]) as Ha by (vm_compute; reflexivity).
  rewrite Ha in E. injection E. auto.
Defined.

(** ** Settings that no file reaches *)

(** No key of the file sets them, whatever the documentation of the settings says. *)
Definition unreachable (c : FileConfig) : Prop :=
  fc_MarkovAPIURL c = "" /\ fc_RedisAddr c = "" /\ fc_OTelEndpoint c = "" /\ fc_TLSCertFile c = "" /\ fc_TLSAutoTLS c = false /\
  fc_BatchBufferCap c = 1000 /\ fc_RateLimitRPS c = 100 /\ fc_RateLimitBurst c = 200 /\ fc_FreeleechPollSec c = 0.

Lemma assign_unreachable c val : unreachable c -> Forall (fun s => unreachable (assign s.2 val c)) slots.
Proof. destruct c. intros Hc. unfold slots. repeat (apply Forall_cons; split); try (by apply Forall_nil); exact Hc. Qed.

(** The Markov client, Redis, tracing and TLS stay off, and the rate limit and the
    write buffer keep their defaults, whatever the file says. *)
Theorem features_off (path : string) (src : ConfigSource) (cfg : FileConfig) : ParseConfigFile path src = Ok cfg -> unreachable cfg.
Proof.
  intros Hp. unfold ParseConfigFile in Hp. destruct src as [|e|s]; [by injection Hp as <-|done|]. destruct (existsb _ _); [done|]. injection Hp as <-.
  assert (unreachable DefaultFileConfig) as Hd by done. revert Hd. generalize DefaultFileConfig.
  induction (scan_lines s "") as [|l lines IH]; intros c Hc; [done|]. cbn [foldl]. apply IH. unfold apply_line.
  destruct (line_entry l) as [[k val]|]; [|done]. destruct (find_slot k) as [slot|] eqn:Ef; [|done].
  pose proof (assign_unreachable c val Hc) as Ha. rewrite Forall_forall in Ha. exact (Ha _ (find_slot_elem _ _ Ef)).
Qed.
