(* ===== verification/Shards.v ===== *)
(** * The database shards (tracker/db_sqlite.go, tracker/db_maintenance.go,
      tracker/backup.go)

    The manager keeps one database file per month, writes to the current one and
    moves on when it is full.  A directory is a map from file names to the tables
    in the files; every connection to a file sees the same tables, so a handle is
    the name of its file.  Sizes of files, the clock and failures of SQLite are
    arguments. *)
From Stdlib Require Import String Ascii.
From S2P Require Import Prelude GoStr GoSort TrackerDB.
Open Scope string_scope.
Open Scope Z_scope.

(** ** Months *)

(** What [time.Now] says in local time: year, month from 1, day from 1. *)
Record Date := mkDate { d_year : Z; d_month : Z; d_day : Z }.

Definition leap (y : Z) : bool := (y mod 4 =? 0) && (negb (y mod 100 =? 0) || (y mod 400 =? 0)).
Definition days_in (y m : Z) : Z :=
  if m =? 2 then (if leap y then 29 else 28)
  else if (m =? 4) || (m =? 6) || (m =? 9) || (m =? 11) then 30 else 31.

(** [AddDate(0, 1, 0)]: a day that the next month does not have is counted into the
    month after it. *)
Definition next_month (y m : Z) : Z * Z := if m =? 12 then (y + 1, 1) else (y, m + 1).
Definition add_month (t : Date) : Date :=
  let '(y, m) := next_month (d_year t) (d_month t) in
  if d_day t <=? days_in y m then mkDate y m (d_day t)
  else let '(y', m') := next_month y m in mkDate y' m' (d_day t - days_in y m).

(** The file of a month, by [Format("2006-01")]. *)
Definition shard_name (t : Date) : string :=
  "ocelot-" ++ (dec_pad 4 (d_year t) ++ "-" ++ dec_pad 2 (d_month t)) ++ ".db".

(** ** Tables *)

(** An INTEGER column: a sum that leaves 64 bits becomes a floating-point number,
    which cannot be read back into an int64. *)
Abbreviation SqlInt := (option Z).
Definition sql_add (a b : SqlInt) : SqlInt :=
  x ← a; y ← b; if (- 2 ^ 63 <=? x + y) && (x + y <? 2 ^ 63) then Some (x + y) else None.

Record PeerRow := mkPeerRow {
  pe_active : Z; pe_uploaded : Z; pe_downloaded : Z; pe_upspeed : Z; pe_downspeed : Z; pe_remaining : Z;
  pe_corrupt : Z; pe_timespent : Z; pe_announces : Z; pe_ip : string; pe_peer_id : string; pe_useragent : string;
  pe_last_announce : Z; pe_invalid_ip : Z
}.

(** The tables the loader reads, and those only written: peers by user and torrent,
    totals of users, snatches by user, torrent and time. *)
Record Shard := mkShard {
  sd_tables : TDB;
  sd_peers : gmap (Z * Z) PeerRow;
  sd_users : gmap Z (SqlInt * SqlInt);
  sd_snatches : gmap (Z * Z * Z) string
}.
Definition emptyShard : Shard := mkShard emptyTDB ∅ ∅ ∅.

(** The files of the directory; [None] is a database without these tables. *)
Abbreviation DBDir := (gmap string (option Shard)).

(** What fails at the moment: opening a file, and creating tables in one. *)
Record Faults := mkFaults { f_open : string -> bool; f_schema : string -> bool }.
Definition no_faults : Faults := mkFaults (fun _ => false) (fun _ => false).

(** ** The manager *)

Record SQLiteShardManager := mkManager {
  sm_currentDB : option string;
  sm_currentPath : option string;
  sm_historicalDBs : gset string;
  (** The file for which the five statements are prepared; [None] when they are closed. *)
  sm_stmts : option string
}.

Definition WALCheckpointPages : Z := 1000.
Definition MaxDBSize : Z := 84 * 1024 * 1024 * 1024.

(** Opening creates the file. *)
Definition openDB (f : Faults) (name : string) (d : DBDir) : option DBDir :=
  if f_open f name then None else Some (match d !! name with Some _ => d | None => <[name := None]> d end).

Definition initSchema (f : Faults) (name : string) (d : DBDir) : option DBDir :=
  if f_schema f name then None
  else Some (match mjoin (d !! name) with Some _ => d | None => <[name := Some emptyShard]> d end).

Definition closeCurrentDB (m : SQLiteShardManager) : SQLiteShardManager :=
  match sm_currentDB m with
  | None => m
  | Some _ => mkManager None None ({[default "." (sm_currentPath m)]} ∪ sm_historicalDBs m) None
  end.

(** [sizes] is what [os.Stat] reports, [None] for an error.  The result: manager,
    directory, and whether it went well. *)
Definition openCurrentDB (f : Faults) (now : Date) (sizes : string -> option Z) (m : SQLiteShardManager) (d : DBDir)
    : SQLiteShardManager * DBDir * bool :=
  let full := match sm_currentPath m with
              | Some p => match sizes p with Some size => MaxDBSize <=? size | None => false end
              | None => false end in
  let '(m, path) := if full then (closeCurrentDB m, shard_name (add_month now)) else (m, shard_name now) in
  match openDB f path d with
  | None => (m, d, false)
  | Some d =>
      match initSchema f path d with
      | None => (m, d, false)
      | Some d => (m {{ sm_currentDB := Some path }} {{ sm_currentPath := Some path }}, d, true)
      end
  end.

Definition prepareStatements (m : SQLiteShardManager) : SQLiteShardManager := m {{ sm_stmts := sm_currentDB m }}.

(** The files whose extension is [.db], of other months, except those that cannot be
    opened. *)
Definition loadHistoricalDBs (f : Faults) (now : Date) (d : DBDir) : gset string :=
  filter (fun name => HasSuffix name ".db" && negb (String.eqb name (shard_name now)) && negb (f_open f name) = true) (dom d).

(** The clock is read once for the old files and once for the current one.  Making
    and reading the directory is taken to work. *)
Definition NewSQLiteShardManager (f : Faults) (now now' : Date) (d : DBDir) : DBDir * option SQLiteShardManager :=
  let m := mkManager None None (loadHistoricalDBs f now d) None in
  let '(m, d, ok) := openCurrentDB f now' (fun _ => None) m d in
  (d, if ok then Some (prepareStatements m) else None).

(** ** Writes *)

(** Runs a statement on a file.  The result: directory and success. *)
Definition on_file (g : Shard -> Shard) (fail : bool) (name : string) (d : DBDir) : DBDir * bool :=
  match mjoin (d !! name) with
  | Some s => if fail then (d, false) else (<[name := Some (g s)]> d, true)
  | None => (d, false)
  end.

(** Prepared statements fail when they are closed. *)
Definition exec_stmt (m : SQLiteShardManager) (g : Shard -> Shard) (fail : bool) (d : DBDir) : DBDir * bool :=
  match sm_stmts m with Some name => on_file g fail name d | None => (d, false) end.

(** [None]: there is no current database, a nil pointer. *)
Definition exec_current (m : SQLiteShardManager) (g : Shard -> Shard) (fail : bool) (d : DBDir) : option (DBDir * bool) :=
  name ← sm_currentDB m; Some (on_file g fail name d).

Definition RecordPeer (userID torrentID active uploaded downloaded upSpeed downSpeed left corrupt announceTime announces : Z)
    (ip peerID userAgent : string) (invalidIP : bool) (now : Z) (s : Shard) : Shard :=
  s {{ sd_peers ::= <[(userID, torrentID) := mkPeerRow active uploaded downloaded upSpeed downSpeed left corrupt announceTime
                        announces ip peerID userAgent now (if invalidIP then 1 else 0)]> }}.

(** The peer id is not written. *)
Definition RecordPeerLight (userID torrentID announceTime announces : Z) (peerID : string) (now : Z) (s : Shard) : Shard :=
  s {{ sd_peers ::= alter (fun r => r {{ pe_timespent := announceTime }} {{ pe_announces := announces }} {{ pe_last_announce := now }})
                      (userID, torrentID) }}.

Definition RecordUserStats (userID uploaded downloaded : Z) (s : Shard) : Shard :=
  s {{ sd_users ::= fun us => <[userID := match us !! userID with
                                          | Some (u, d) => (sql_add u (Some uploaded), sql_add d (Some downloaded))
                                          | None => (Some uploaded, Some downloaded) end]> us }}.

Definition RecordSnatch (userID torrentID snatchTime : Z) (ip : string) (s : Shard) : Shard :=
  s {{ sd_snatches ::= fun sn => match sn !! (userID, torrentID, snatchTime) with
                                 | Some _ => sn
                                 | None => <[(userID, torrentID, snatchTime) := ip]> sn end }}.

(** The statements on the tables the loader reads, of [TrackerDB]. *)
Definition on_tables (g : TDB -> TDB) (s : Shard) : Shard := s {{ sd_tables ::= g }}.

(** ** Reads *)

(** What the loader sees; [None] without a current database or tables. *)
Definition current_tables (m : SQLiteShardManager) (d : DBDir) : option TDB :=
  name ← sm_currentDB m; sd_tables <$> mjoin (d !! name).

(** The sums over one file: no row is zero, no tables or a sum that is no integer is an
    error. *)
Definition query_user (d : DBDir) (userID : Z) (name : string) : option (Z * Z) :=
  s ← mjoin (d !! name);
  match sd_users s !! userID with
  | None => Some (0, 0)
  | Some (u, dn) => u ← u; dn ← dn; Some (u, dn)
  end.

Definition add_historical (d : DBDir) (userID : Z) (acc : Z * Z) (name : string) : Z * Z :=
  match query_user d userID name with
  | Some (hu, hd) => (i64 (acc.1 + hu), i64 (acc.2 + hd))
  | None => acc
  end.

(** [None] is an error of the current file.  Without one the program panics, which is
    the outer [None]. *)
Definition GetUserStats (order : gset string -> list string) (m : SQLiteShardManager) (d : DBDir) (userID : Z)
    : option (option (Z * Z)) :=
  name ← sm_currentDB m;
  Some (cur ← query_user d userID name; Some (foldl (add_historical d userID) cur (order (sm_historicalDBs m)))).

(** Current size, number of old files, total size. *)
Definition GetDBStats (order : gset string -> list string) (sizes : string -> option Z) (m : SQLiteShardManager) : option (Z * Z * Z) :=
  cur ← match sm_currentPath m with Some p => sizes p | None => Some 0 end;
  Some (cur, Z.of_nat (size (sm_historicalDBs m)),
    foldl (fun total name => match sizes name with Some s => i64 (total + s) | None => total end) cur (order (sm_historicalDBs m))).

(** ** Maintenance *)

(** [None] is a panic. *)
Definition CheckpointWAL (fail : bool) (m : SQLiteShardManager) : option bool := _ ← sm_currentDB m; Some (negb fail).

(** The size is read here and again by [openCurrentDB]. *)
Definition CheckRotation (f : Faults) (now : Date) (sizes sizes' : string -> option Z) (m : SQLiteShardManager) (d : DBDir)
    : SQLiteShardManager * DBDir * bool :=
  match sm_currentPath m with
  | None => (m, d, true)
  | Some p =>
      match sizes p with
      | None => (m, d, false)
      | Some size => if MaxDBSize <=? size then openCurrentDB f now sizes' m d else (m, d, true)
      end
  end.

(** A tick of [Scheduler.run] and of [DBMaintainer.run]: errors are logged. *)
Definition maintenance_tick (f : Faults) (now : Date) (sizes sizes' : string -> option Z) (checkpoint_fails : bool)
    (m : SQLiteShardManager) (d : DBDir) : option (SQLiteShardManager * DBDir) :=
  _ ← CheckpointWAL checkpoint_fails m;
  let '(m, d, _) := CheckRotation f now sizes sizes' m d in Some (m, d).

(** ** Backups *)

Section Backup.
Context {A : Type}.

(** A file name without its extension. *)
Fixpoint last_dot (s : string) : option nat :=
  match s with
  | "" => None
  | String c r => match last_dot r with
                  | Some n => Some (S n)
                  | None => if Ascii.eqb c "." then Some 0%nat else None end
  end.
Definition stem (base : string) : string :=
  match last_dot base with Some n => String.substring 0 n base | None => base end.

(** The backups are the files of the backup directory.  [*] of [filepath.Glob] is any
    text; the name of a shard has no other special character. *)
Definition backup_of (baseName file : string) : bool :=
  String.prefix (baseName ++ "-backup-") file && HasSuffix file ".db" &&
  (String.length (baseName ++ "-backup-") + 3 <=? String.length file)%nat.

(** [fails] are the files that cannot be removed. *)
Definition pruneOldBackups (fails : string -> bool) (baseName : string) (keep : nat) (b : gmap string A) : gmap string A :=
  let matches := slice_stable string_lt (elements (filter (fun n => backup_of baseName n = true) (dom b))) in
  if (length matches <=? keep)%nat then b
  else foldl (fun b n => if fails n then b else delete n b) b (take (length matches - keep) matches).

(** [ts] is the time as [20060102-150405].  The copy fails when the file is there
    already, or when SQLite says so. *)
Definition runBackup (vacuum_fails : bool) (fails : string -> bool) (m : SQLiteShardManager) (contents : string -> A) (ts : string)
    (b : gmap string A) : gmap string A * bool :=
  match sm_currentDB m, sm_currentPath m with
  | Some active, Some srcPath =>
      let name := stem srcPath in
      let destPath := name ++ "-backup-" ++ ts ++ ".db" in
      if vacuum_fails || bool_decide (is_Some (b !! destPath)) then (b, false)
      else (pruneOldBackups fails name 3 (<[destPath := contents active]> b), true)
  | _, _ => (b, true)
  end.
End Backup.
