(* ===== verification/Program.v ===== *)
(** * The tracker program (main.go, cmd/ocelot/main.go)

    What the two tracker programs wire together: the database file of the month and the
    state they load at a start, the worker they build, what the signals do while they serve, and
    what a shutdown leaves on disk.  The database layers between the handlers and the
    file ([Writers]) show here as announces' writes that reach the tables at any later time or
    never.  The theorems are about whole lifetimes: requests, late writes, passes
    of the reaper, maintenance, reloads and restarts in any order. *)
From Stdlib Require Import String.
From S2P Require Import Prelude GoStr GoSort NetIP TrackerTypes CircuitBreaker Whitelist EconScheduler Announce TrackerDB Update UpdateSpec Server Reaper Snapshot ServerSpec ConfigFile Shards.
Open Scope list_scope.
Open Scope string_scope.
Open Scope Z_scope.

(** What outlives the process: the files of the database directory and the snapshot
    file. *)
Record Disk := mkDisk { k_dir : DBDir; k_snap : SnapshotFile }.

(** A running tracker.  The tables of the current file are those of the system; the
    directory has them as they were when the file was opened. *)
Record Tracker (C : Type) := mkTracker { tk_sys : System C; tk_mgr : SQLiteShardManager; tk_dir : DBDir }.
Arguments mkTracker {C}. Arguments tk_sys {C}. Arguments tk_mgr {C}. Arguments tk_dir {C}.

(** ** The workers *)

Definition worker_config (tc : TrackerConfig) : Config :=
  mkConfig (tc_AnnounceInterval tc) (tc_PeersTimeout tc) (tc_NumWantLimit tc) (tc_ReapPeersInterval tc).

(** main.go: no economy; the behaviour detector is set in a field that the announce
    handler does not read. *)
Definition root_worker (tc : TrackerConfig) (detectClient : string -> string -> option string) (m : Memory) : Worker :=
  mkWorker (worker_config tc) (m_torrents m) (m_users m) (m_whitelist m) zeroStats
    (Some (NewCircuitBreaker (mkCBConfig "sqlite" 5 (30 * Prelude.Second) 3))) true None None (Some detectClient) None.

(** cmd/ocelot/main.go: the economy when it could be set up, and no detectors. *)
Definition cmd_worker (tc : TrackerConfig) (commons : option (AllocationRequest -> option AllocationDecision)) (m : Memory) : Worker :=
  mkWorker (worker_config tc) (m_torrents m) (m_users m) (m_whitelist m) zeroStats
    (Some (NewCircuitBreaker (mkCBConfig "db" 5 (30 * Prelude.Second) 3))) true commons None None None.

Section Program.
(** The orders of maps, gob, and the worker that the program builds from the memory. *)
Context (o : Orders) (porder : PeerList -> list (string * Peer)).
Context (Encode : peerSnapshot -> string) (Decode : string -> option peerSnapshot).
Context {C : Type} `{CommonsAdmin C}.

(** ** Start *)

(** A failed load and a failed snapshot are logged, and the start goes on with what
    is there: after a failed load, with the part that was loaded before. *)
Definition load_state (fails : load_step -> bool) (tables : TDB) (snap : SnapshotFile) : Memory :=
  let '(m, _) := LoadAll o fails tables emptyMemory in
  m {{ m_torrents := (LoadSnapshot Decode snap (m_torrents m)).1 }}.

(** The manager opens the file of the month.  [None]: it cannot, and the program ends. *)
Definition boot (build : Memory -> Worker) (f : Faults) (now now' : Date) (fails : load_step -> bool)
    (commons : option C) (d : Disk) : option (Tracker C) :=
  let '(dir, m) := NewSQLiteShardManager f now now' (k_dir d) in
  m ← m; tables ← current_tables m dir;
  Some (mkTracker (mkSystem (build (load_state fails tables (k_snap d))) tables commons) m dir).

(** ** Signals *)

Definition memory (y : System C) : Memory := a_mem (admin_of y).
Definition set_memory (m : Memory) (y : System C) : System C := of_admin y ((admin_of y) {{ a_mem := m }}).

(** SIGUSR1: what a failed reload did before it failed, stays. *)
Definition sigusr1 (fails : load_step -> bool) (y : System C) : System C :=
  set_memory (Reload o fails (y_db y) (memory y)).1 y.



(** ** Shutdown *)

(** The files with the tables of the current one written back. *)
Definition files (t : Tracker C) : DBDir :=
  match sm_currentDB (tk_mgr t) with
  | Some name => alter (fmap (on_tables (fun _ => y_db (tk_sys t)))) name (tk_dir t)
  | None => tk_dir t
  end.

(** The snapshot of the swarms replaces the file, unless writing it fails. *)
Definition shutdown (written : bool) (old : SnapshotFile) (t : Tracker C) : Disk :=
  mkDisk (files t)
    (if written then FileContents (SaveSnapshot porder Encode (w_Torrents (y_worker (tk_sys t)))) else old).


(** ** Lifetimes *)

Section Lifetime.
Context (cfg : ServerConfig) (marshal : ApiValue -> string) (build : Memory -> Worker).


End Lifetime.
End Program.

(** ** The settings *)

(** What [mirrors] reads of the memory: ids, rights, whitelist. *)
Lemma mirrors_settings m m' db : same_settings m m' -> mirrors m db -> mirrors m' db.
Proof.
  intros (Ei & Er & Ew) (Hu & [Ht Hrow] & Hw & He). split; [|split; [split; [|done]|split]].
  - by eapply users_mirror_ext.
  - intros h id. rewrite <- (Ht h id). assert (forall l : TorrentList, (exists t, l !! h = Some t /\ t_ID t = id) <-> (t_ID <$> l) !! h = Some id) as Hl.
    { intros l. rewrite lookup_fmap, fmap_Some. naive_solver. }
    by rewrite !Hl, Ei.
  - congruence.
  - apply (f_equal (lookup "")) in Ei. rewrite !lookup_fmap, He in Ei. cbn in Ei. symmetry in Ei. by apply fmap_None in Ei.
Qed.

Lemma same_settings_trans m1 m2 m3 : same_settings m1 m2 -> same_settings m2 m3 -> same_settings m1 m3.
Proof. intros (? & ? & ?) (? & ? & ?). repeat split; congruence. Qed.

Lemma restore_entry_id t e : t_ID (restore_entry t e) = t_ID t.
Proof. unfold restore_entry. by destruct (sp_Seeder _), t. Qed.

Lemma restore_entries_id l t : t_ID (foldl restore_entry t l) = t_ID t.
Proof. revert t. induction l as [|e l IH]; intros t; [done|]. cbn. by rewrite IH, restore_entry_id. Qed.

Lemma LoadSnapshot_ids Decode f tl : t_ID <$> (LoadSnapshot Decode f tl).1 = t_ID <$> tl.
Proof.
  destruct f as [|e|data]; [done..|]. unfold LoadSnapshot. destruct (Decode data) as [snap|]; [|done]. cbn [fst].
  apply map_eq. intros h. unfold restore. rewrite !lookup_fmap, map_lookup_imap. destruct (tl !! h) as [t|]; [|done]. cbn.
  destruct (ps_Torrents snap !! h) as [st|]; [|done]. by rewrite restore_entries_id.
Qed.

(** Loading readable tables that mirror [m] gives the settings of [m]. *)
Lemma LoadAll_settings o m db : orders o -> readable db -> mirrors m db -> same_settings m (LoadAll o (fun _ => false) db emptyMemory).1.
Proof.
  intros Ho Hr (Hu & Ht & Hw & _). destruct (LoadAll_readable o db Ho Hr) as (tokens & _ & ->).
  unfold same_settings. cbn. by rewrite (loaded_ids o db _ tokens Ho Ht), (loaded_rights o db _ Ho Hu).
Qed.

Lemma load_state_settings o Decode m db snap :
  orders o -> readable db -> mirrors m db -> same_settings m (load_state o Decode (fun _ => false) db snap).
Proof.
  intros Ho Hr Hm. eapply same_settings_trans; [by apply (LoadAll_settings o m db)|].
  unfold load_state. destruct (LoadAll _ _ _ _) as [m' r]. destruct m'. cbn. split; [|done]. cbn. by rewrite LoadSnapshot_ids.
Qed.

(** ** The files *)







(** ** Reloading *)

(** A torrent as a reload must leave it. *)
Definition swarm (t : Torrent) : Z * PeerList * PeerList := (t_ID t, t_Seeders t, t_Leechers t).









(** ** Theorems *)

Section Facts.
Context (o : Orders) (porder : PeerList -> list (string * Peer)).
Context (Decode : string -> option peerSnapshot).
Context {C : Type} `{CommonsAdmin C}.
Implicit Types (y : System C).



(** The worker that a program builds has the memory that was loaded. *)
Definition keeps_memory (build : Memory -> Worker) : Prop :=
  forall m, w_Torrents (build m) = m_torrents m /\ w_Users (build m) = m_users m /\ w_Whitelist (build m) = m_whitelist m.

Lemma boot_spec build f now now' fails (commons : option C) d t :
  keeps_memory build -> boot o Decode build f now now' fails commons d = Some t ->
  exists m, NewSQLiteShardManager f now now' (k_dir d) = (tk_dir t, Some m) /\
    current_tables m (tk_dir t) = Some (y_db (tk_sys t)) /\
    memory (tk_sys t) = load_state o Decode fails (y_db (tk_sys t)) (k_snap d).
Proof.
  intros Hb. unfold boot. destruct (NewSQLiteShardManager _ _ _ _) as [dir [m|]] eqn:Em; [|done].
  cbn [mbind option_bind]. destruct (current_tables m dir) as [tables|] eqn:Et; [|done]. cbn [mbind option_bind].
  intros [= <-]. exists m. split; [done|]. split; [done|]. cbn [tk_sys y_db]. destruct (Hb (load_state o Decode fails tables (k_snap d))) as (E1 & E2 & E3).
  unfold memory, admin_of. cbn. rewrite E1, E2, E3. by destruct (load_state o Decode fails tables (k_snap d)).
Qed.





End Facts.

Lemma root_keeps tc detect : keeps_memory (root_worker tc detect).
Proof. by intros m. Qed.
Lemma cmd_keeps tc commons : keeps_memory (cmd_worker tc commons).
Proof. by intros m. Qed.


(** Torrents come out of the tables without peers. *)
Definition unpeopled (tl : TorrentList) : Prop := map_Forall (fun _ t => t_Seeders t = ∅ /\ t_Leechers t = ∅) tl.

Lemma load_torrents_unpeopled rows tl : unpeopled tl -> unpeopled (foldl load_torrent tl rows).
Proof. revert tl. induction rows as [|r rows IH]; intros tl Ht; [done|]. apply IH, map_Forall_insert_2; [by destruct r|done]. Qed.

Lemma load_all_unpeopled o db : orders o -> readable db -> unpeopled (m_torrents (LoadAll o (fun _ => false) db emptyMemory).1).
Proof.
  intros Ho Hr. destruct (LoadAll_readable o db Ho Hr) as (tokens & _ & ->). cbn [fst m_torrents].
  pose proof (load_torrents_unpeopled (torrent_rows o db) ∅ (map_Forall_empty _)) as Hu.
  revert Hu. generalize (foldl load_torrent ∅ (torrent_rows o db)). clear. induction tokens as [|x tokens IH]; intros tl Hu; [done|].
  apply IH. unfold load_token. destruct (tl !! x.1) as [t|] eqn:E; [|done]. apply map_Forall_insert_2; [|done].
  apply Hu in E. by destruct t.
Qed.

(** The swarms of the snapshot, in torrents without peers. *)
Lemma snapshot_swarms porder Encode Decode (live loaded : TorrentList) h :
  Decode (Encode (live_snapshot porder live)) = Some (live_snapshot porder live) -> map_order porder ->
  map_Forall (fun _ t => ids_ok (t_Seeders t) /\ ids_ok (t_Leechers t)) live -> unpeopled loaded ->
  t_ID <$> live !! h = t_ID <$> loaded !! h ->
  swarm <$> (LoadSnapshot Decode (FileContents (SaveSnapshot porder Encode live)) loaded).1 !! h =
    (fun t => (t_ID t, restored <$> t_Seeders t, restored <$> t_Leechers t)) <$> live !! h.
Proof.
  intros Hg Hp Hids Hl Hi. unfold LoadSnapshot, SaveSnapshot, restore. rewrite Hg. cbn [fst]. rewrite map_lookup_imap.
  destruct (loaded !! h) as [r|] eqn:Er; cbn in Hi |- *; [|by destruct (live !! h)].
  destruct (live !! h) as [t|] eqn:Et; [|done]. injection Hi as Hi. destruct (Hids h t Et) as [Hs Hle]. destruct (Hl h r Er) as [E1 E2].
  assert (omap (snap_torrent porder) live !! h = snap_torrent porder t) as -> by (by rewrite lookup_omap, Et).
  cbn. rewrite (restore_torrent porder t r Hp Hs Hle). destruct r. cbn in *. subst. unfold swarm. cbn. by rewrite !map_union_empty.
Qed.

(** The file of the month exists and opens. *)
Lemma boot_same_month o Decode build now now' {C} (commons : option C) d s :
  k_dir d !! shard_name now' = Some (Some s) ->
  exists t, boot o Decode build no_faults now now' (fun _ => false) commons d = Some t /\ y_db (tk_sys t) = sd_tables s.
Proof.
  intros E. unfold boot, NewSQLiteShardManager, openCurrentDB. cbn [sm_currentPath].
  unfold openDB, initSchema, no_faults. cbn [f_open f_schema]. rewrite E. cbn [mjoin option_join]. rewrite E. cbn [mjoin option_join].
  cbn [mbind option_bind]. unfold current_tables. cbn. rewrite E. by eexists.
Qed.

(** [C7] A restart in the same month gives back the tracker that was shut down.  Let the
    month's file be the current one and open without a fault, its tables be readable and
    mirror the memory, and let the snapshot be written and decode as it was encoded.
    Then the start succeeds, and after it the memory has the same torrents under the same
    ids, the same users with the same rights and the same whitelist, every torrent has exactly
    the seeders and the leechers it had, each with its compact address computed
    again and without the mark of an invalid address, and no others; and the memory
    mirrors the tables, so that the next lifetime begins where this one ended.  (In
    another month it is the tables of that month's file that are loaded:
    [ShardsSpec.new_month_forgets].) *)
Theorem program_restart {C} `{CommonsAdmin C} o porder Encode Decode build old now now' (commons : option C) (t : Tracker C) s :
  orders o -> map_order porder -> keeps_memory build ->
  sm_currentDB (tk_mgr t) = Some (shard_name now') -> tk_dir t !! shard_name now' = Some (Some s) ->
  let y := tk_sys t in
  readable (y_db y) -> mirrors (memory y) (y_db y) ->
  Decode (Encode (live_snapshot porder (w_Torrents (y_worker y)))) = Some (live_snapshot porder (w_Torrents (y_worker y))) ->
  map_Forall (fun _ t => ids_ok (t_Seeders t) /\ ids_ok (t_Leechers t)) (w_Torrents (y_worker y)) ->
  exists t', boot o Decode build no_faults now now' (fun _ => false) commons (shutdown porder Encode true old t) = Some t' /\
    let y' := tk_sys t' in
    y_db y' = y_db y /\ same_settings (memory y) (memory y') /\ mirrors (memory y') (y_db y') /\
    forall h, swarm <$> w_Torrents (y_worker y') !! h =
      (fun t => (t_ID t, restored <$> t_Seeders t, restored <$> t_Leechers t)) <$> w_Torrents (y_worker y) !! h.
Proof.
  intros Ho Hp Hb Hcur Hfile y Hr Hm Hg Hids. set (d := shutdown porder Encode true old t).
  assert (k_dir d !! shard_name now' = Some (Some (on_tables (fun _ => y_db y) s))) as Hd.
  { unfold d, shutdown, files. cbn [k_dir]. rewrite Hcur, lookup_alter_eq, Hfile. done. }
  destruct (boot_same_month o Decode build now now' commons d _ Hd) as (t' & E & Edb). exists t'. split; [exact E|].
  assert (y_db (tk_sys t') = y_db y) as Edb' by (rewrite Edb; by destruct s). clear Edb.
  destruct (boot_spec o Decode _ _ _ _ _ _ _ _ Hb E) as (_ & _ & _ & Emem). rewrite Edb' in Emem.
  pose proof (load_state_settings o Decode (memory y) (y_db y) (k_snap d) Ho Hr Hm) as Hs. rewrite <- Emem in Hs.
  split; [done|]. split; [done|]. split; [rewrite Edb'; by eapply mirrors_settings|]. intros h.
  change (w_Torrents (y_worker (tk_sys t'))) with (m_torrents (memory (tk_sys t'))). rewrite Emem. unfold load_state.
  pose proof (LoadAll_settings o (memory y) (y_db y) Ho Hr Hm) as (Hi & _). pose proof (load_all_unpeopled o (y_db y) Ho Hr) as Hu.
  destruct (LoadAll _ _ _ _) as [m' r]. destruct m' as [tl ul wl]. cbn [fst m_torrents] in *.
  apply (f_equal (lookup h)) in Hi. rewrite !lookup_fmap in Hi. by apply snapshot_swarms.
Qed.

(** ** Witnesses: a tracker with one seeder *)

Module DemoProgram.
Definition live : TorrentList := {["H" := (NewTorrent 3) {{ t_Seeders := {["key" := demo_peer]} }}]}.
Definition system : System unit :=
  mkSystem (DemoServer.worker {{ w_Torrents := live }}) (y_db DemoServer.system) None.
Definition today : Date := mkDate 2025 6 14.
Definition shard : Shard := mkShard (y_db DemoServer.system) ∅ ∅ ∅.
Definition running : Tracker unit :=
  mkTracker system (mkManager (Some (shard_name today)) (Some (shard_name today)) ∅ (Some (shard_name today)))
    {[ shard_name today := Some shard ]}.
Definition gob (_ : peerSnapshot) : string := "gob".
Definition ungob (d : string) : option peerSnapshot := if String.eqb d "gob" then Some (live_snapshot map_to_list live) else None.
Definition build : Memory -> Worker := root_worker (ToTrackerConfig DefaultFileConfig) (fun _ _ => None).

Lemma started_mirrored : mirrors (memory system) (y_db system).
Proof.
  eapply mirrors_settings; [|exact DemoServer.mirrored]. split; [|done]. cbn. unfold live. by rewrite !map_fmap_singleton.
Qed.

Lemma is_readable : readable (y_db system).
Proof.
  split; cbn.
  - intros id h r [<- <-]%lookup_singleton_Some [_ <-]%lookup_singleton_Some. reflexivity.
  - intros id r [<- _]%lookup_singleton_Some. lia.
Qed.

Lemma any_order {A} : map_order (A := A) map_to_list.
Proof. by intros m. Qed.

Lemma small_ids : map_Forall (fun _ t => ids_ok (t_Seeders t) /\ ids_ok (t_Leechers t)) live.
Proof. apply map_Forall_singleton. split; [apply map_Forall_singleton; cbn; unfold in_u32; lia|apply map_Forall_empty]. Qed.

Lemma start_orders : orders (mkOrders map_to_list map_to_list map_to_list).
Proof. by repeat split. Qed.
End DemoProgram.
Import DemoProgram.

#[local] Instance NoCommons : CommonsAdmin unit :=
  {| ca_SetUserPriority _ _ c := (c, None); ca_SetUserBudget _ _ _ c := (c, None);
     ca_SettleAnnounce _ c := Some c |}.

Lemma program_restart_witness :
  exists t', boot (mkOrders map_to_list map_to_list map_to_list) ungob build no_faults today today (fun _ => false) (@None unit)
    (shutdown map_to_list gob true Snapshot.NoFile running) = Some t' /\
  t_Seeders <$> w_Torrents (y_worker (tk_sys t')) !! "H" = Some {["key" := demo_peer]}.
Proof.
  destruct (program_restart (mkOrders map_to_list map_to_list map_to_list) map_to_list gob ungob build Snapshot.NoFile
              today today None running shard) as (t' & E & _ & _ & _ & H).
  - exact start_orders.
  - exact any_order.
  - apply root_keeps.
  - reflexivity.
  - apply lookup_singleton_eq.
  - exact is_readable.
  - exact started_mirrored.
  - reflexivity.
  - exact small_ids.
  - exists t'. split; [exact E|]. specialize (H "H"). destruct (w_Torrents (y_worker (tk_sys t')) !! "H") as [t|]; [|discriminate H].
    injection H as _ Es _. cbn. rewrite Es. reflexivity.
Defined.


(** A free torrent, counted and free in memory, is normal again after a reload. *)
Example reload_ends_freeleech :
  let y := mkSystem (DemoServer.worker {{ w_Torrents := {["H" := (NewTorrent 3) {{ t_FreeType := FreeFree }}]} }}) (y_db DemoServer.system) (@None unit) in
  t_FreeType <$> w_Torrents (y_worker (sigusr1 (mkOrders map_to_list map_to_list map_to_list) (fun _ => false) y)) !! "H" = Some FreeNormal.
Proof. vm_compute. reflexivity. Qed.
