(* ===== verification/ShardsSpec.v ===== *)
(** * Theorems about the database shards

    What a user transferred is kept over months and restarts; what a start in a new
    month and a full file do to the tables the loader reads; which backups are kept. *)
From Stdlib Require Import String.
From S2P Require Import Prelude GoStr GoSort TrackerTypes Whitelist TrackerDB Update UpdateSpec Snapshot ConfigFile Shards Program.
Open Scope list_scope.
Open Scope string_scope.
Open Scope Z_scope.

(** ** Totals over the directory *)

(** What one file holds for a user; what cannot be read counts as nothing. *)
Definition amounts (userID : Z) (v : option Shard) : Z * Z :=
  default (0, 0) (s ← v; match sd_users s !! userID with
                         | None => Some (0, 0)
                         | Some (u, dn) => u ← u; dn ← dn; Some (u, dn) end).

Definition db_files (d : DBDir) : DBDir := filter (fun kv => HasSuffix kv.1 ".db" = true) d.
Definition uploads (userID : Z) (d : DBDir) : Z := map_sum (fun v => (amounts userID v).1) (db_files d).
Definition downloads (userID : Z) (d : DBDir) : Z := map_sum (fun v => (amounts userID v).2) (db_files d).

(** A user whose rows are amounts of bytes. *)
Definition sound (userID : Z) (d : DBDir) : Prop :=
  forall name s u dn, db_files d !! name = Some (Some s) -> sd_users s !! userID = Some (u, dn) ->
    exists x y, u = Some x /\ dn = Some y /\ 0 <= x /\ 0 <= y.

Lemma amounts_query d userID name : default (0, 0) (query_user d userID name) = amounts userID (mjoin (d !! name)).
Proof. done. Qed.

Lemma shard_is_db t : HasSuffix (shard_name t) ".db" = true.
Proof.
  apply HasSuffix_spec. unfold shard_name.
  exists ("ocelot-" ++ (dec_pad 4 (d_year t) ++ "-" ++ dec_pad 2 (d_month t))). by rewrite !append_assoc.
Qed.

Lemma db_files_lookup d name v : HasSuffix name ".db" = true -> d !! name = Some v -> db_files d !! name = Some v.
Proof. intros Hn Hv. by apply map_lookup_filter_Some. Qed.

Lemma db_files_insert d name v : HasSuffix name ".db" = true -> db_files (<[name := v]> d) = <[name := v]> (db_files d).
Proof. intros Hn. unfold db_files. by rewrite map_filter_insert_True. Qed.

(** Summing over the names in any order. *)
Lemma map_sum_names {V} (f : V -> Z) (m : gmap string V) :
  map_sum f m = sumZ (fun k => from_option f 0 (m !! k)) (elements (dom m)).
Proof.
  induction m as [|k v m Hk IH] using map_ind; [by rewrite map_sum_empty, dom_empty_L, elements_empty|].
  rewrite map_sum_insert by done. rewrite dom_insert_L, elements_union_singleton by by apply not_elem_of_dom.
  rewrite sumZ_cons, lookup_insert_eq. cbn [from_option]. f_equal. rewrite IH. apply sumZ_ext. intros k' Hk'.
  rewrite lookup_insert_ne; [done|]. intros <-. by apply elem_of_elements, not_elem_of_dom in Hk'.
Qed.

(** The two totals are one, by projection. *)
Section Totals.
Context (pr : Z * Z -> Z) (pr0 : pr (0, 0) = 0).

Definition total (userID : Z) (d : DBDir) : Z := map_sum (fun v => pr (amounts userID v)) (db_files d).

Lemma total_insert userID d name v :
  HasSuffix name ".db" = true ->
  total userID (<[name := v]> d) = total userID d - pr (amounts userID (mjoin (d !! name))) + pr (amounts userID v).
Proof.
  intros Hn. unfold total. rewrite db_files_insert by done. destruct (d !! name) as [v'|] eqn:E.
  - rewrite (map_sum_update _ _ _ v') by by apply db_files_lookup. by destruct v'.
  - rewrite map_sum_insert; [cbn; lia|]. apply map_lookup_filter_None. by left.
Qed.

(** The current file and the others. *)
Lemma total_split userID d name :
  HasSuffix name ".db" = true -> is_Some (d !! name) ->
  total userID d = pr (amounts userID (mjoin (d !! name))) +
    sumZ (fun k => pr (amounts userID (mjoin (d !! k)))) (elements (dom (delete name (db_files d)))).
Proof.
  intros Hn [v Hv]. unfold total. pose proof (db_files_lookup d name v Hn Hv) as Hf.
  pose proof (map_sum_delete (fun v => pr (amounts userID v)) _ _ _ Hf) as Hd. rewrite map_sum_names in Hd.
  rewrite Hv. cbn [mjoin option_join id].
  enough (sumZ (fun k => pr (amounts userID (mjoin (d !! k)))) (elements (dom (delete name (db_files d)))) =
          sumZ (fun k => from_option (fun v => pr (amounts userID v)) 0 (delete name (db_files d) !! k)) (elements (dom (delete name (db_files d))))) by lia.
  apply sumZ_ext. intros k [v' Hk]%elem_of_elements%elem_of_dom. rewrite Hk. cbn [from_option].
  apply lookup_delete_Some in Hk as [_ Hk]. apply map_lookup_filter_Some in Hk as [-> _]. by destruct v'.
Qed.
End Totals.

(** ** Serving from a file *)

Definition serving (m : SQLiteShardManager) (d : DBDir) : Prop :=
  exists n s, sm_currentDB m = Some n /\ sm_currentPath m = Some n /\ sm_stmts m = Some n /\ HasSuffix n ".db" = true /\
    d !! n = Some (Some s) /\ sm_historicalDBs m = dom (delete n (db_files d)).

(** The directory after opening a file and creating its tables. *)
Definition opened (name : string) (d : DBDir) : DBDir :=
  match mjoin (d !! name) with Some _ => d | None => <[name := Some emptyShard]> d end.

Lemma open_schema name d : (d ← openDB no_faults name d; initSchema no_faults name d) = Some (opened name d).
Proof.
  unfold openDB, initSchema, opened. cbn. destruct (d !! name) as [[s|]|] eqn:E; cbn; rewrite ?E; [done..|].
  by rewrite lookup_insert_eq, insert_insert_eq.
Qed.

Lemma openCurrentDB_opens now sizes m d name m' :
  (let full := match sm_currentPath m with
               | Some p => match sizes p with Some size => MaxDBSize <=? size | None => false end
               | None => false end in
   if full then (closeCurrentDB m, shard_name (add_month now)) else (m, shard_name now)) = (m', name) ->
  openCurrentDB no_faults now sizes m d = (m' {{ sm_currentDB := Some name }} {{ sm_currentPath := Some name }}, opened name d, true).
Proof.
  intros E. cbv zeta in E. unfold openCurrentDB. cbv zeta. rewrite E. pose proof (open_schema name d) as Ho. unfold openDB in *. cbn [no_faults f_open mbind option_bind] in *. by rewrite Ho.
Qed.

Lemma opened_file name d : exists s, opened name d !! name = Some (Some s) /\ s = default emptyShard (mjoin (d !! name)).
Proof.
  unfold opened. destruct (d !! name) as [[s|]|] eqn:E; cbn; [by exists s|exists emptyShard; by rewrite lookup_insert_eq..].
Qed.

Lemma opened_amounts userID name d k : amounts userID (mjoin (opened name d !! k)) = amounts userID (mjoin (d !! k)).
Proof.
  unfold opened. destruct (mjoin (d !! name)) as [s|] eqn:E; [done|]. destruct (decide (k = name)) as [->|Hk].
  - by rewrite lookup_insert_eq, E.
  - by rewrite lookup_insert_ne.
Qed.

Lemma opened_total pr userID name d : pr (0, 0) = 0 -> HasSuffix name ".db" = true -> total pr userID (opened name d) = total pr userID d.
Proof.
  intros Hp Hn. unfold opened. destruct (mjoin (d !! name)) as [s|] eqn:E; [done|]. rewrite total_insert, E by done.
  change (amounts userID None) with (0, 0). change (amounts userID (Some emptyShard)) with (0, 0). lia.
Qed.

Lemma opened_sound userID name d : HasSuffix name ".db" = true -> sound userID d -> sound userID (opened name d).
Proof.
  intros Hn Hs. unfold opened. destruct (mjoin (d !! name)) as [s|] eqn:E; [done|].
  intros k s u dn. rewrite db_files_insert by done. intros [[<- [= <-]]|[_ Hk]]%lookup_insert_Some; [done|]. by apply Hs with (1 := Hk).
Qed.

(** A start takes the file of the month, and every other one as an old one. *)
Lemma start_serving now d :
  exists m, NewSQLiteShardManager no_faults now now d = (opened (shard_name now) d, Some m) /\
    serving m (opened (shard_name now) d) /\ sm_currentDB m = Some (shard_name now).
Proof.
  pose proof (openCurrentDB_opens now (fun _ => None) (mkManager None None (loadHistoricalDBs no_faults now d) None) d _ _ eq_refl) as Ho.
  unfold NewSQLiteShardManager. rewrite Ho. cbn. eexists. split; [done|]. split; [|done].
  destruct (opened_file (shard_name now) d) as (s & Hl & _). exists (shard_name now), s. cbn.
  split_and!; [done..|by apply shard_is_db|done|]. apply set_eq. intros k. unfold loadHistoricalDBs.
  rewrite elem_of_filter, !elem_of_dom. cbn. rewrite andb_true_r, andb_true_iff, negb_true_iff, String.eqb_neq.
  assert (is_Some (opened (shard_name now) d !! k) <-> is_Some (d !! k) \/ k = shard_name now) as Hd.
  { unfold opened. destruct (mjoin (d !! shard_name now)) as [s'|] eqn:E.
    - split; [by left|]. intros [?| ->]; [done|]. destruct (d !! shard_name now); [done|discriminate].
    - rewrite lookup_insert_is_Some'. naive_solver. }
  unfold is_Some at 2. setoid_rewrite lookup_delete_Some. unfold db_files. setoid_rewrite map_lookup_filter_Some. cbn.
  split.
  - intros [[Hs Hne] Hk]. destruct (proj2 Hd (or_introl Hk)) as [v Hv]. exists v. by split.
  - intros (v & Hne & Hv & Hs). split; [done|]. destruct (proj1 Hd (mk_is_Some _ _ Hv)) as [?| ->]; done.
Qed.

(** ** Histories *)

(** Traffic of a user, any other write by a prepared statement or directly, a tick of the
    maintenance with the two readings of the sizes, and a restart. *)
Inductive shard_op :=
| OpStats (userID uploaded downloaded : Z) (fail : bool)
| OpWrite (g : Shard -> Shard) (prepared fail : bool)
| OpMaintain (now : Date) (sizes sizes' : string -> option Z) (checkpoint_fails : bool)
| OpStart (now : Date).

(** [None] is a panic, or a start that fails. *)
Definition shard_step (st : SQLiteShardManager * DBDir) (op : shard_op) : option (SQLiteShardManager * DBDir) :=
  let '(m, d) := st in
  match op with
  | OpStats userID u dn fail => Some (m, (exec_stmt m (RecordUserStats userID u dn) fail d).1)
  | OpWrite g true fail => Some (m, (exec_stmt m g fail d).1)
  | OpWrite g false fail => r ← exec_current m g fail d; Some (m, r.1)
  | OpMaintain now sizes sizes' ck => maintenance_tick no_faults now sizes sizes' ck m d
  | OpStart now => let '(d, m) := NewSQLiteShardManager no_faults now now d in m ← m; Some (m, d)
  end.

Fixpoint shard_run (ops : list shard_op) (st : SQLiteShardManager * DBDir) : option (SQLiteShardManager * DBDir) :=
  match ops with [] => Some st | op :: ops => st ← shard_step st op; shard_run ops st end.

(** Amounts are not negative, the other writes leave the totals of users alone, and no
    file reaches the limit. *)
Definition op_ok (op : shard_op) : Prop :=
  match op with
  | OpStats _ u dn _ => 0 <= u /\ 0 <= dn
  | OpWrite g _ _ => forall s, sd_users (g s) = sd_users s
  | OpMaintain _ sizes _ _ => forall n size, sizes n = Some size -> size < MaxDBSize
  | OpStart _ => True
  end.

(** What was transferred by the writes that SQLite did not refuse. *)
Definition transferred (pr : Z * Z -> Z) (userID : Z) (ops : list shard_op) : Z :=
  sumZ (fun op => match op with OpStats i u dn false => if i =? userID then pr (u, dn) else 0 | _ => 0 end) ops.

Lemma transferred_cons pr userID op ops : transferred pr userID (op :: ops) = transferred pr userID [op] + transferred pr userID ops.
Proof. unfold transferred. rewrite !sumZ_cons, sumZ_nil. lia. Qed.

(** Writing tables into the current file keeps the manager in order. *)
Lemma serving_write m d n s s' :
  serving m d -> sm_currentDB m = Some n -> d !! n = Some (Some s) -> serving m (<[n := Some s']> d).
Proof.
  intros (n' & s0 & E1 & E2 & E3 & Hn & Hs & Eh) En Hd. assert (n' = n) as -> by congruence.
  exists n, s'. split_and!; [done..|by rewrite lookup_insert_eq|]. rewrite Eh, db_files_insert by done. by rewrite delete_insert_eq.
Qed.

Lemma amounts_sound userID d name s :
  sound userID d -> HasSuffix name ".db" = true -> d !! name = Some (Some s) ->
  query_user d userID name = Some (amounts userID (Some s)) /\ 0 <= (amounts userID (Some s)).1 /\ 0 <= (amounts userID (Some s)).2.
Proof.
  intros Hs Hn Hd. unfold query_user, amounts. rewrite Hd. cbn. destruct (sd_users s !! userID) as [[u dn]|] eqn:E; [|done].
  destruct (Hs name s u dn (db_files_lookup _ _ _ Hn Hd) E) as (x & y & -> & -> & ? & ?). done.
Qed.

Lemma amounts_nonneg userID d name :
  sound userID d -> HasSuffix name ".db" = true -> 0 <= (amounts userID (mjoin (d !! name))).1 /\ 0 <= (amounts userID (mjoin (d !! name))).2.
Proof. intros Hs Hn. destruct (d !! name) as [[s|]|] eqn:E; [|done..]. by apply (amounts_sound userID d name s). Qed.

Lemma others_are_db (d : DBDir) n k : k ∈ elements (dom (delete n (db_files d))) -> HasSuffix k ".db" = true.
Proof. intros (v & Hk)%elem_of_elements%elem_of_dom. apply lookup_delete_Some in Hk as [_ Hk]. by apply map_lookup_filter_Some in Hk as [_ ?]. Qed.

(** No file holds more than there is in all. *)
Lemma amounts_le pr userID d name :
  pr (0, 0) = 0 -> (forall k, HasSuffix k ".db" = true -> 0 <= pr (amounts userID (mjoin (d !! k)))) -> HasSuffix name ".db" = true ->
  is_Some (d !! name) -> pr (amounts userID (mjoin (d !! name))) <= total pr userID d.
Proof.
  intros Hp Hk Hn Hd. rewrite (total_split pr userID d name) by done.
  enough (0 <= sumZ (fun k => pr (amounts userID (mjoin (d !! k)))) (elements (dom (delete name (db_files d))))) by lia.
  apply sumZ_nonneg. intros k Hin. by apply Hk, (others_are_db d name).
Qed.

Lemma sql_add_range x y : in_i64 (x + y) -> sql_add (Some x) (Some y) = Some (x + y).
Proof.
  intros [H1 H2]. unfold sql_add. cbn [mbind option_bind]. apply Z.leb_le in H1. apply Z.ltb_lt in H2. by rewrite H1, H2.
Qed.

(** What [RecordUserStats] does to the amounts of a file. *)
Lemma stats_amounts i u dn userID s x y :
  amounts userID (Some s) = (x, y) -> (forall a b, sd_users s !! userID = Some (a, b) -> a = Some x /\ b = Some y) ->
  in_i64 (x + u) -> in_i64 (y + dn) ->
  amounts userID (Some (RecordUserStats i u dn s)) = (if i =? userID then (x + u, y + dn) else (x, y)).
Proof.
  intros Ha Hrow Hx Hy. destruct s as [tb pe us sn]. unfold amounts in *. cbn in *. destruct (Z.eqb_spec i userID) as [->|Hne].
  - rewrite lookup_insert_eq. destruct (us !! userID) as [[a b]|] eqn:E.
    + destruct (Hrow _ _ eq_refl) as [-> ->]. cbn [default option_fmap option_map mbind option_bind from_option id].
      by rewrite !sql_add_range.
    + by injection Ha as <- <-.
  - rewrite lookup_insert_ne by done. done.
Qed.

(** The rows of a user in one file are amounts of bytes. *)
Definition sound_row (userID : Z) (s : Shard) : Prop :=
  forall u dn, sd_users s !! userID = Some (u, dn) -> exists x y, u = Some x /\ dn = Some y /\ 0 <= x /\ 0 <= y.

Lemma sound_insert userID d n s : HasSuffix n ".db" = true -> sound userID d -> sound_row userID s -> sound userID (<[n := Some s]> d).
Proof.
  intros Hn Hs Hr k s' u dn. rewrite db_files_insert by done. intros [[<- [= <-]]|[_ Hk]]%lookup_insert_Some; [apply Hr|]. by apply Hs with (1 := Hk).
Qed.

Lemma amounts_same userID s s' : sd_users s' !! userID = sd_users s !! userID -> amounts userID (Some s') = amounts userID (Some s).
Proof. intros E. unfold amounts. cbn. by rewrite E. Qed.

(** A row and the amounts it stands for. *)
Lemma sound_row_amounts userID s : sound_row userID s ->
  forall a b, sd_users s !! userID = Some (a, b) -> a = Some (amounts userID (Some s)).1 /\ b = Some (amounts userID (Some s)).2.
Proof. intros Hr a b E. destruct (Hr a b E) as (x & y & -> & -> & _). unfold amounts. cbn. by rewrite E. Qed.

(** A row stays one, within 64 bits. *)
Lemma stats_sound userID u dn s :
  sound_row userID s -> 0 <= u -> 0 <= dn ->
  0 <= (amounts userID (Some s)).1 /\ in_i64 ((amounts userID (Some s)).1 + u) ->
  0 <= (amounts userID (Some s)).2 /\ in_i64 ((amounts userID (Some s)).2 + dn) -> sound_row userID (RecordUserStats userID u dn s).
Proof.
  intros Hr Hu Hdn [P1 R1] [P2 R2] a b Hab. pose proof (sound_row_amounts userID s Hr) as Hxy.
  destruct s as [tb pe us sn]. cbn in Hab. cbn [sd_users] in Hxy. rewrite lookup_insert_eq in Hab.
  destruct (us !! userID) as [[a' b']|].
  - destruct (Hxy _ _ eq_refl) as [Ea Eb]. rewrite Ea, Eb, !sql_add_range in Hab by done. injection Hab as <- <-. eexists _, _. split_and!; [done..|lia|lia].
  - injection Hab as <- <-. by exists u, dn.
Qed.

Section Steps.
Context (userID : Z).

Definition good (m : SQLiteShardManager) (d : DBDir) : Prop := serving m d /\ sound userID d.
Definition below (d : DBDir) (u dn : Z) : Prop := total fst userID d + u < 2 ^ 63 /\ total snd userID d + dn < 2 ^ 63.

(** One write to the current file. *)
Lemma write_good m d n s s' :
  good m d -> sm_currentDB m = Some n -> d !! n = Some (Some s) -> sound_row userID s' ->
  good m (<[n := Some s']> d) /\
  forall pr, pr (0, 0) = 0 -> total pr userID (<[n := Some s']> d) = total pr userID d - pr (amounts userID (Some s)) + pr (amounts userID (Some s')).
Proof.
  intros [Hv Hs] En Hd Hr. pose proof Hv as (n' & s0 & E1 & _ & _ & Hn & _ & _). assert (n' = n) as -> by congruence.
  split; [split; [by apply (serving_write m d n s s')|by apply sound_insert]|].
  intros pr Hp. by rewrite total_insert, Hd.
Qed.

Lemma stats_step m d i u dn fail :
  good m d -> 0 <= u -> 0 <= dn -> below d (transferred fst userID [OpStats i u dn fail]) (transferred snd userID [OpStats i u dn fail]) ->
  let d' := (exec_stmt m (RecordUserStats i u dn) fail d).1 in
  good m d' /\ forall pr, pr = fst \/ pr = snd -> total pr userID d' = total pr userID d + transferred pr userID [OpStats i u dn fail].
Proof.
  intros Hg Hu Hdn [B1 B2]. pose proof Hg as [(n & s & E1 & E2 & E3 & Hn & Hd & Eh) Hs].
  unfold exec_stmt, on_file, transferred in *. rewrite E3, Hd. cbn [mjoin option_join id]. rewrite !sumZ_cons, !sumZ_nil in *.
  destruct fail; cbn [fst]; [split; [done|]; intros pr _; rewrite sumZ_cons, sumZ_nil; lia|].
  destruct (amounts_sound userID d n s Hs Hn Hd) as (_ & P1 & P2).
  assert (Hrow : sound_row userID s) by (intros a b; apply (Hs n s a b); by apply db_files_lookup).
  pose proof (amounts_nonneg userID d) as Hnn.
  assert (L1 := amounts_le fst userID d n eq_refl (fun k Hk => proj1 (Hnn k Hs Hk)) Hn (mk_is_Some _ _ Hd)).
  assert (L2 := amounts_le snd userID d n eq_refl (fun k Hk => proj2 (Hnn k Hs Hk)) Hn (mk_is_Some _ _ Hd)).
  rewrite Hd in L1, L2. cbn [mjoin option_join id fst snd] in *.
  destruct (amounts userID (Some s)) as [x y] eqn:Ea. cbn [fst snd] in *.
  pose proof (sound_row_amounts userID s Hrow) as Hxy. rewrite Ea in Hxy. cbn [fst snd] in Hxy.
  destruct (Z.eqb_spec i userID) as [->|Hne].
  - assert (Ha : amounts userID (Some (RecordUserStats userID u dn s)) = (x + u, y + dn)).
    { rewrite (stats_amounts userID u dn userID s x y), Z.eqb_refl; [done|done|done|range..]. }
    destruct (write_good m d n s (RecordUserStats userID u dn s) Hg E1 Hd) as [Hg' Ht].
    { apply stats_sound; [done..| |]; rewrite Ea; cbn [fst snd]; range. }
    split; [done|]. intros pr [-> | ->]; rewrite Ht, Ea, Ha, sumZ_cons, sumZ_nil, Z.eqb_refl by done; cbn; lia.
  - assert (Hsame : sd_users (RecordUserStats i u dn s) !! userID = sd_users s !! userID) by (destruct s; cbn; by rewrite lookup_insert_ne).
    destruct (write_good m d n s (RecordUserStats i u dn s) Hg E1 Hd) as [Hg' Ht]; [intros a b; rewrite Hsame; apply Hrow|].
    split; [done|]. intros pr Hpr. rewrite Ht by by destruct Hpr as [-> | ->].
    rewrite (amounts_same userID _ _ Hsame), sumZ_cons, sumZ_nil. apply Z.eqb_neq in Hne. rewrite Hne. lia.
Qed.
(** A write that leaves the totals of users alone. *)
Lemma other_step m d g n fail :
  good m d -> sm_currentDB m = Some n -> (forall s, sd_users (g s) = sd_users s) ->
  let d' := (on_file g fail n d).1 in
  good m d' /\ forall pr, pr (0, 0) = 0 -> total pr userID d' = total pr userID d.
Proof.
  intros Hg En Hgs. pose proof Hg as [(n' & s & E1 & _ & _ & Hn & Hd & _) Hs]. assert (n' = n) as -> by congruence.
  unfold on_file. rewrite Hd. cbn [mjoin option_join id]. destruct fail; [done|]. cbn [fst].
  assert (Hsame : sd_users (g s) !! userID = sd_users s !! userID) by by rewrite Hgs.
  destruct (write_good m d n s (g s) Hg En Hd) as [Hg' Ht].
  { intros a b. rewrite Hsame. apply (Hs n s a b). by apply db_files_lookup. }
  split; [done|]. intros pr Hp. rewrite Ht, (amounts_same userID _ _ Hsame) by done. lia.
Qed.

(** No file is full: the manager stays as it is. *)
Lemma maintain_below f m d now sizes sizes' ck :
  serving m d -> (forall n size, sizes n = Some size -> size < MaxDBSize) -> maintenance_tick f now sizes sizes' ck m d = Some (m, d).
Proof.
  intros (n & s & E1 & E2 & _) Hb. unfold maintenance_tick, CheckpointWAL, CheckRotation. rewrite E1, E2. cbn.
  destruct (sizes n) as [size|] eqn:E; [|done]. apply Hb in E. by destruct (Z.leb_spec MaxDBSize size); [lia|].
Qed.

Lemma step_good m d op :
  good m d -> op_ok op -> below d (transferred fst userID [op]) (transferred snd userID [op]) ->
  exists m' d', shard_step (m, d) op = Some (m', d') /\ good m' d' /\
    forall pr, pr = fst \/ pr = snd -> total pr userID d' = total pr userID d + transferred pr userID [op].
Proof.
  intros Hg Hop Hb. destruct op as [i u dn fail|g prep fail|now sizes sizes' ck|now]; cbn [shard_step op_ok] in *.
  - destruct Hop. exists m, (exec_stmt m (RecordUserStats i u dn) fail d).1. split; [done|]. by apply stats_step.
  - destruct Hg as [(n & s & E1 & E2 & E3 & Hrest) Hs]. exists m, (on_file g fail n d).1.
    destruct (other_step m d g n fail) as [H1 H2]; [by split; [exists n, s|]|done..|].
    split; [|split; [done|intros pr [-> | ->]; rewrite H2 by done; unfold transferred; rewrite sumZ_cons, sumZ_nil; lia]].
    unfold exec_stmt, exec_current. rewrite E1, E3. by destruct prep.
  - exists m, d. rewrite maintain_below by (done || apply Hg). split; [done|]. split; [done|].
    intros pr _. unfold transferred. rewrite sumZ_cons, sumZ_nil. lia.
  - destruct (start_serving now d) as (m' & E & Hv & _). rewrite E. cbn. exists m', (opened (shard_name now) d).
    split; [done|]. split; [split; [done|by apply opened_sound; [apply shard_is_db|apply Hg]]|].
    intros pr Hpr. rewrite opened_total by (apply shard_is_db || by destruct Hpr as [-> | ->]).
    unfold transferred. rewrite sumZ_cons, sumZ_nil. lia.
Qed.

Lemma transferred_nonneg pr ops : pr = fst \/ pr = snd -> Forall op_ok ops -> 0 <= transferred pr userID ops.
Proof.
  intros Hpr Hops. apply sumZ_nonneg. intros op Hin. rewrite Forall_forall in Hops. specialize (Hops op Hin).
  destruct op as [i u dn []| | |]; cbn in Hops; try lia. destruct (i =? userID); [|lia]. by destruct Hpr as [-> | ->]; cbn; lia.
Qed.

Lemma run_good ops m d :
  good m d -> Forall op_ok ops -> below d (transferred fst userID ops) (transferred snd userID ops) ->
  exists m' d', shard_run ops (m, d) = Some (m', d') /\ good m' d' /\
    forall pr, pr = fst \/ pr = snd -> total pr userID d' = total pr userID d + transferred pr userID ops.
Proof.
  revert m d. induction ops as [|op ops IH]; intros m d Hg Hops Hb.
  - exists m, d. split; [done|]. split; [done|]. intros pr _. unfold transferred. rewrite sumZ_nil. lia.
  - apply Forall_cons in Hops as [Hop Hops]. unfold below in *. rewrite (transferred_cons fst), (transferred_cons snd) in Hb.
    pose proof (transferred_nonneg fst ops (or_introl eq_refl) Hops). pose proof (transferred_nonneg snd ops (or_intror eq_refl) Hops).
    destruct (step_good m d op Hg Hop ltac:(unfold below; lia)) as (m1 & d1 & E & Hg1 & Ht).
    destruct (IH m1 d1 Hg1 Hops) as (m' & d' & Er & Hg' & Ht').
    { rewrite !Ht by auto. lia. }
    exists m', d'. cbn [shard_run]. rewrite E. split; [done|]. split; [done|].
    intros pr Hpr. rewrite Ht', Ht, (transferred_cons pr userID op ops) by done. lia.
Qed.

(** The sums over the old files, in any order. *)
Lemma add_historical_fold d l acc :
  (forall k, k ∈ l -> 0 <= (amounts userID (mjoin (d !! k))).1 /\ 0 <= (amounts userID (mjoin (d !! k))).2) -> 0 <= acc.1 -> 0 <= acc.2 ->
  acc.1 + sumZ (fun k => (amounts userID (mjoin (d !! k))).1) l < 2 ^ 63 -> acc.2 + sumZ (fun k => (amounts userID (mjoin (d !! k))).2) l < 2 ^ 63 ->
  foldl (add_historical d userID) acc l =
    (acc.1 + sumZ (fun k => (amounts userID (mjoin (d !! k))).1) l, acc.2 + sumZ (fun k => (amounts userID (mjoin (d !! k))).2) l).
Proof.
  revert acc. induction l as [|k l IH]; intros acc Hnn A1 A2 B1 B2.
  - rewrite !sumZ_nil, !Z.add_0_r. by destruct acc.
  - rewrite !sumZ_cons in *. destruct (Hnn k) as [K1 K2]; [set_solver|].
    assert (forall j, j ∈ l -> 0 <= (amounts userID (mjoin (d !! j))).1 /\ 0 <= (amounts userID (mjoin (d !! j))).2) as Hl by (intros; apply Hnn; set_solver).
    pose proof (sumZ_nonneg (fun k => (amounts userID (mjoin (d !! k))).1) l (fun j Hj => proj1 (Hl j Hj))).
    pose proof (sumZ_nonneg (fun k => (amounts userID (mjoin (d !! k))).2) l (fun j Hj => proj2 (Hl j Hj))).
    assert (add_historical d userID acc k = (acc.1 + (amounts userID (mjoin (d !! k))).1, acc.2 + (amounts userID (mjoin (d !! k))).2)) as E.
    { unfold add_historical. rewrite <- amounts_query in *. destruct (query_user d userID k) as [[x y]|]; cbn in *.
      - by rewrite !i64_id by range.
      - rewrite !Z.add_0_r. by destruct acc. }
    cbn [foldl]. rewrite E, IH by (done || cbn; lia). cbn. f_equal; lia.
Qed.

Lemma stats_are_totals order m d :
  (forall s, order s ≡ₚ elements s) -> good m d -> below d 0 0 ->
  GetUserStats order m d userID = Some (Some (total fst userID d, total snd userID d)).
Proof.
  intros Ho [(n & s & E1 & _ & _ & Hn & Hd & Eh) Hs] [B1 B2]. unfold GetUserStats. rewrite E1. cbn [mbind option_bind].
  destruct (amounts_sound userID d n s Hs Hn Hd) as (-> & P1 & P2). cbn [mbind option_bind].
  rewrite (total_split fst userID d n) in * by done. rewrite (total_split snd userID d n) in * by done.
  rewrite Hd in *. cbn [mjoin option_join id] in *. rewrite Eh.
  rewrite add_historical_fold; [by rewrite !Ho| |done|done|rewrite Ho; lia|rewrite Ho; lia].
  intros k Hk. rewrite Ho in Hk. apply amounts_nonneg; [done|]. by apply (others_are_db d n).
Qed.
End Steps.

(** [C14] What a user transferred is kept.  The tracker starts on a directory of monthly
    files and goes on with any writes, ticks of the maintenance and restarts, in the
    same month or another.  If amounts are not negative, no file reaches the
    limit and the totals fit 64 bits, no step fails, and then the statistics
    of a user are exactly the totals of the files at the beginning and the amounts of
    all writes that the database did not refuse: each file is counted once,
    whichever is current. *)
Theorem user_traffic_kept order userID ops now d0 :
  (forall s, order s ≡ₚ elements s) -> sound userID d0 -> Forall op_ok ops ->
  uploads userID d0 + transferred fst userID ops < 2 ^ 63 -> downloads userID d0 + transferred snd userID ops < 2 ^ 63 ->
  exists m d m' d', NewSQLiteShardManager no_faults now now d0 = (d, Some m) /\ shard_run ops (m, d) = Some (m', d') /\
    GetUserStats order m' d' userID =
      Some (Some (uploads userID d0 + transferred fst userID ops, downloads userID d0 + transferred snd userID ops)).
Proof.
  intros Ho Hs Hops Hu Hd. destruct (start_serving now d0) as (m & E & Hv & _). set (d := opened (shard_name now) d0) in *.
  assert (Hg : good userID m d) by (split; [done|by apply opened_sound; [apply shard_is_db|]]).
  assert (Et : forall pr, pr = fst \/ pr = snd -> total pr userID d = total pr userID d0)
    by (intros pr Hpr; apply opened_total; [by destruct Hpr as [-> | ->]|apply shard_is_db]).
  destruct (run_good userID ops m d Hg Hops) as (m' & d' & Er & Hg' & Ht); [unfold below; rewrite !Et by auto; done|].
  exists m, d, m', d'. split; [done|]. split; [done|]. change (uploads userID d0) with (total fst userID d0) in *. change (downloads userID d0) with (total snd userID d0) in *.
  rewrite (stats_are_totals userID order) by (done || unfold below; rewrite !Ht, !Et by auto; lia). by rewrite !Ht, !Et by auto.
Qed.

(** ** Starts in a new month, and full files *)

(** A start reads the tables of the month's own file. *)
Lemma start_tables now d :
  exists m d', NewSQLiteShardManager no_faults now now d = (d', Some m) /\
    current_tables m d' = Some (from_option sd_tables emptyTDB (mjoin (d !! shard_name now))).
Proof.
  destruct (start_serving now d) as (m & E & _ & Ec). exists m, (opened (shard_name now) d). split; [done|].
  unfold current_tables. rewrite Ec. cbn [mbind option_bind]. destruct (opened_file (shard_name now) d) as (s & -> & ->).
  by destruct (mjoin (d !! shard_name now)).
Qed.

Lemma load_empty o Decode snap : orders o -> load_state o Decode (fun _ => false) emptyTDB snap = emptyMemory.
Proof.
  intros (H1 & H2 & H3). unfold load_state, LoadAll, LoadTorrents, LoadUsers, load_rest, LoadTokens. cbn.
  specialize (H1 ∅). specialize (H2 ∅). specialize (H3 ∅). rewrite map_to_list_empty in *.
  apply Permutation_nil_r in H1, H2, H3. rewrite H1, H2, H3. cbn.
  unfold emptyMemory. f_equal. destruct snap as [|e|data]; [done..|]. cbn. by destruct (Decode data).
Qed.

(** A start in a month whose file does not exist comes up without torrents, users,
    whitelist or tokens, whatever the files of the other months and the snapshot
    hold. *)
Theorem new_month_forgets o Decode snap now d :
  orders o -> mjoin (d !! shard_name now) = None ->
  exists m d' tables, NewSQLiteShardManager no_faults now now d = (d', Some m) /\ current_tables m d' = Some tables /\
    load_state o Decode (fun _ => false) tables snap = emptyMemory.
Proof.
  intros Ho Hno. destruct (start_tables now d) as (m & d' & E & Et). rewrite Hno in Et. exists m, d', emptyTDB.
  split; [done|]. split; [done|]. by apply load_empty.
Qed.

(** When the current file has reached the limit, the manager moves to the file of the
    next month: the loader reads that file only, and all prepared statements stay closed, so
    that no peer, torrent, user, snatch or token is written until the next start. *)
Theorem rotation_stops_writes now sizes m d n size :
  serving m d -> sm_currentPath m = Some n -> sizes n = Some size -> MaxDBSize <= size ->
  exists m' d', CheckRotation no_faults now sizes sizes m d = (m', d', true) /\
    sm_currentDB m' = Some (shard_name (add_month now)) /\
    current_tables m' d' = Some (from_option sd_tables emptyTDB (mjoin (d !! shard_name (add_month now)))) /\
    forall g fail, exec_stmt m' g fail d' = (d', false).
Proof.
  intros (n' & s & E1 & E2 & _) En Hs Hl. assert (n' = n) as -> by congruence. apply Z.leb_le in Hl.
  pose proof (openCurrentDB_opens now sizes m d (shard_name (add_month now)) (closeCurrentDB m)) as Ho.
  rewrite E2, Hs, Hl in Ho. specialize (Ho eq_refl). unfold CheckRotation. rewrite E2, Hs, Hl, Ho.
  eexists _, _. split; [done|]. unfold closeCurrentDB. rewrite E1. cbn. split; [done|]. split; [|done].
  unfold current_tables. cbn [sm_currentDB mbind option_bind]. destruct (opened_file (shard_name (add_month now)) d) as (s' & Hl' & ->). cbn. rewrite Hl'.
  by destruct (mjoin (d !! shard_name (add_month now))).
Qed.

(** ** Backups *)

Section Backups.
Context {A : Type}.
Implicit Types (b : gmap string A).

Lemma foldl_delete_lookup l b k :
  foldl (fun b n => delete n b) b l !! k = if decide (k ∈ l) then None else b !! k.
Proof.
  revert b. induction l as [|x l IH]; intros b; [done|]. cbn [foldl]. rewrite IH. destruct (decide (k ∈ l)) as [Hk|Hk].
  - by rewrite decide_True by set_solver.
  - destruct (decide (k = x)) as [->|Hne].
    + by rewrite lookup_delete_eq, decide_True by set_solver.
    + by rewrite lookup_delete_ne, decide_False by set_solver.
Qed.

Definition backups (baseName : string) (b : gmap string A) : gset string := filter (fun n => backup_of baseName n = true) (dom b).

Lemma prune_spec baseName keep b :
  let b' := pruneOldBackups (fun _ => false) baseName keep b in
  (forall n, backup_of baseName n = false -> b' !! n = b !! n) /\ b' ⊆ b /\
  size (backups baseName b') = Nat.min keep (size (backups baseName b)) /\
  (forall n old, n ∈ backups baseName b' -> old ∈ backups baseName b -> b' !! old = None -> String.le old n).
Proof.
  unfold pruneOldBackups. fold (backups baseName b). set (matches := slice_stable string_lt (elements (backups baseName b))).
  assert (Hp : matches ≡ₚ elements (backups baseName b)) by apply slice_stable_perm.
  assert (Hlen : length matches = size (backups baseName b)) by by rewrite Hp.
  assert (Hin : forall n, n ∈ matches <-> n ∈ backups baseName b) by (intros n; by rewrite Hp, elem_of_elements).
  assert (Hdup : NoDup matches) by (rewrite Hp; apply NoDup_elements).
  assert (Hsort : StronglySorted String.le matches) by apply strings_sorted.
  cbv zeta. destruct (Nat.leb_spec (length matches) keep) as [Hl|Hl].
  - split_and!; [done|done|lia|]. intros n old _ Ho Hno. unfold backups in Ho. apply elem_of_filter in Ho as [_ Ho].
    apply elem_of_dom in Ho as [v Hv]. congruence.
  - set (gone := take (length matches - keep) matches). set (kept := drop (length matches - keep) matches).
    assert (Hsplit : matches = (gone ++ kept)%list) by (symmetry; apply take_drop). clearbody matches.
    rewrite Hsplit in Hdup, Hsort. apply NoDup_app in Hdup as (Hdg & Hdisj & Hdk). apply StronglySorted_app in Hsort as (Hle & _ & _).
    assert (Hg : forall n, n ∈ gone -> backup_of baseName n = true).
    { intros n Hn. assert (n ∈ matches) as Hm by (rewrite Hsplit; set_solver). apply Hin in Hm. by apply elem_of_filter in Hm as [? _]. }
    assert (Hk : backups baseName (foldl (fun b n => delete n b) b gone) = list_to_set kept).
    { apply set_eq. intros n. unfold backups. rewrite elem_of_filter, elem_of_dom, foldl_delete_lookup, elem_of_list_to_set. split.
      - intros [Hb Hn]. destruct (decide (n ∈ gone)) as [?|Hng]; [by apply is_Some_None in Hn|].
        assert (n ∈ matches) as Hm by (apply Hin; apply elem_of_filter; split; [done|by apply elem_of_dom]).
        rewrite Hsplit, elem_of_app in Hm. by destruct Hm.
      - intros Hn. assert (n ∈ matches) as Hm by (rewrite Hsplit; set_solver). apply Hin, elem_of_filter in Hm as [? Hm].
        split; [done|]. rewrite decide_False by by intros ?; apply (Hdisj n). by apply elem_of_dom. }
    split_and!.
    + intros n Hn. rewrite foldl_delete_lookup, decide_False; [done|]. intros Hng. apply Hg in Hng. congruence.
    + apply map_subseteq_spec. intros n v. rewrite foldl_delete_lookup. by destruct (decide _).
    + rewrite Hk, size_list_to_set by done. unfold kept. rewrite length_drop. lia.
    + intros n old Hn Ho Hno. rewrite Hk, elem_of_list_to_set in Hn. apply Hin in Ho. rewrite Hsplit, elem_of_app in Ho.
      apply Hle; [|done]. destruct Ho as [?|Ho]; [done|]. exfalso. rewrite foldl_delete_lookup, decide_False in Hno by (intros ?; by apply (Hdisj old)).
      assert (old ∈ matches) as Hm by (rewrite Hsplit; set_solver). apply Hin, elem_of_filter in Hm as [_ Hm]. apply elem_of_dom in Hm as [v Hv]. congruence.
Qed.

(** A backup leaves the files that are no backups of this shard alone, adds the new
    one to those, and keeps the three that are last in the order of their names, which
    is the order of their times: every backup it removes comes before every one it
    keeps. *)
Theorem three_backups m n active (contents : string -> A) ts b b' :
  sm_currentDB m = Some active -> sm_currentPath m = Some n ->
  runBackup false (fun _ => false) m contents ts b = (b', true) ->
  let dest := (stem n ++ "-backup-" ++ ts ++ ".db")%string in
  let all := <[dest := contents active]> b in
  (forall f, backup_of (stem n) f = false -> b' !! f = b !! f) /\ b' ⊆ all /\
  size (backups (stem n) b') = Nat.min 3 (S (size (backups (stem n) b))) /\
  (forall f old, f ∈ backups (stem n) b' -> old ∈ backups (stem n) all -> b' !! old = None -> String.le old f).
Proof.
  intros E1 E2. unfold runBackup. rewrite E1, E2. set (dest := (stem n ++ "-backup-" ++ ts ++ ".db")%string).
  cbn [orb]. destruct (decide (is_Some (b !! dest))) as [Hd|Hd]; [by rewrite bool_decide_eq_true_2|].
  rewrite bool_decide_eq_false_2 by done. intros [= <-]. cbv zeta.
  destruct (prune_spec (stem n) 3 (<[dest := contents active]> b)) as (H1 & H2 & H3 & H4).
  assert (Hb : backup_of (stem n) dest = true).
  { unfold backup_of, dest. rewrite !andb_true_iff. split_and!.
    - apply prefix_spec. exists (ts ++ ".db")%string. by rewrite !append_assoc.
    - apply HasSuffix_spec. exists (stem n ++ "-backup-" ++ ts)%string. by rewrite !append_assoc.
    - apply Nat.leb_le. rewrite !length_append. cbn. lia. }
  apply eq_None_not_Some in Hd.
  assert (Hs : backups (stem n) (<[dest := contents active]> b) = {[dest]} ∪ backups (stem n) b).
  { apply set_eq. intros f. unfold backups. rewrite dom_insert_L. set_solver. }
  assert (dest ∉ backups (stem n) b) as Hnd by (unfold backups; rewrite elem_of_filter, elem_of_dom, Hd; by intros [_ [? ?]]).
  split_and!; [|done| |done].
  - intros f Hf. rewrite H1, lookup_insert_ne by (done || (intros <-; congruence)). done.
  - rewrite H3, Hs, size_union, size_singleton by set_solver. lia.
Qed.
End Backups.

(** ** Examples *)

Module DemoShards.
Definition feb : Date := mkDate 2026 2 28.
Definition mar : Date := mkDate 2026 3 5.
Definition apr : Date := mkDate 2026 4 1.
Definition dir : DBDir := {["ocelot-2026-02.db" := Some (emptyShard {{ sd_users := {[7 := (Some 100, Some 50)]} }}); "notes.txt" := None]}.
Definition ops : list shard_op :=
  [OpStats 7 10 1 false; OpStats 7 99 99 true; OpMaintain mar (fun _ => Some 4096) (fun _ => None) false;
   OpStart apr; OpStats 7 5 2 false; OpStats 8 1000 1000 false; OpWrite (RecordSnatch 7 3 1700000000 "10.0.0.1") true false].
Definition at_limit (_ : string) : option Z := Some MaxDBSize.
Definition stats (st : SQLiteShardManager * DBDir) : option (option (Z * Z)) := GetUserStats elements st.1 st.2 7.
Definition start (now : Date) (d : DBDir) : option (SQLiteShardManager * DBDir) :=
  let '(d, m) := NewSQLiteShardManager no_faults now now d in m ← m; Some (m, d).
End DemoShards.

Lemma user_traffic_kept_witness :
  exists m d m' d', NewSQLiteShardManager no_faults DemoShards.mar DemoShards.mar DemoShards.dir = (d, Some m) /\
    shard_run DemoShards.ops (m, d) = Some (m', d') /\ GetUserStats elements m' d' 7 = Some (Some (115, 53)).
Proof.
  apply (user_traffic_kept elements 7 DemoShards.ops DemoShards.mar DemoShards.dir).
  - done.
  - intros name s u dn Hn Hu. apply map_lookup_filter_Some in Hn as [Hn _]. unfold DemoShards.dir in Hn.
    apply lookup_insert_Some in Hn as [[<- [= <-]]|[_ Hn]].
    + cbn in Hu. apply lookup_singleton_Some in Hu as [_ [= <- <-]]. exists 100, 50. repeat split; lia.
    + by apply lookup_singleton_Some in Hn as [_ ?].
  - repeat constructor; cbn; try lia; try done. intros n size [= <-]. reflexivity.
  - vm_compute. reflexivity.
  - vm_compute. reflexivity.
Defined.

(** On the last day of January the next month is March. *)
Example january_skips_february : shard_name (add_month (mkDate 2026 1 31)) = "ocelot-2026-03.db".
Proof. reflexivity. Qed.

(** After a rotation and a restart in the same month, the next rotation finds the file of
    the next month among the old ones, and counts it twice. *)
Example rotated_file_counts_twice :
  (d ← Some DemoShards.dir;
   st ← DemoShards.start DemoShards.feb d;
   st ← shard_step st (OpMaintain DemoShards.feb DemoShards.at_limit DemoShards.at_limit false);
   st ← DemoShards.start DemoShards.mar st.2;
   st ← shard_step st (OpStats 7 10 10 false);
   st ← DemoShards.start DemoShards.feb st.2;
   before ← DemoShards.stats st;
   st ← shard_step st (OpMaintain DemoShards.feb DemoShards.at_limit DemoShards.at_limit false);
   after ← DemoShards.stats st; Some (before, after)) = Some (Some (110, 60), Some (120, 70)).
Proof. vm_compute. reflexivity. Qed.

(** When the next file cannot be opened there is no current database, and the next
    tick panics. *)
Example failed_rotation_panics :
  (st ← DemoShards.start DemoShards.feb DemoShards.dir;
   st ← maintenance_tick (mkFaults (fun _ => true) (fun _ => false)) DemoShards.feb DemoShards.at_limit DemoShards.at_limit false st.1 st.2;
   Some (sm_currentDB st.1, maintenance_tick no_faults DemoShards.feb DemoShards.at_limit DemoShards.at_limit false st.1 st.2)) = Some (None, None).
Proof. vm_compute. reflexivity. Qed.

Module DemoBackups.
Definition m : SQLiteShardManager := mkManager (Some "ocelot-2026-02.db") (Some "ocelot-2026-02.db") ∅ (Some "ocelot-2026-02.db").
Definition file (ts : string) : string := "ocelot-2026-02-backup-" ++ ts ++ ".db".
Definition b : gmap string Z := {[file "20260201-000000" := 1; file "20260202-000000" := 2; file "20260203-000000" := 3; "other.db" := 0]}.
Definition after : gmap string Z := {[file "20260202-000000" := 2; file "20260203-000000" := 3; file "20260204-000000" := 4; "other.db" := 0]}.
End DemoBackups.

Lemma three_backups_witness :
  size (backups "ocelot-2026-02" DemoBackups.after) = 3%nat /\ DemoBackups.after !! "other.db" = Some 0.
Proof.
  destruct (three_backups DemoBackups.m "ocelot-2026-02.db" "ocelot-2026-02.db" (fun _ => 4) "20260204-000000" DemoBackups.b DemoBackups.after)
    as (H1 & _ & H3 & _); [reflexivity..|vm_compute; reflexivity|].
  split; [etrans; [exact H3|vm_compute; reflexivity]|]. rewrite (H1 "other.db") by reflexivity. reflexivity.
Defined.
