(* ===== verification/Helpers.v ===== *)
(** * Helpers of the tracker (tracker/auth.go, errors.go, retry.go, cache.go, pool.go,
      adaptive_thresholds.go, ops_server.go; ml/peer_scorer.go)

    API keys and the middleware that asks for them, errors and retries, the cache
    with expiry, the bounded pool, the thresholds by population, and what the
    operations server reports.  Times are nanoseconds since 1970. *)
From Stdlib Require Import String Ascii.
From S2P Require Import Prelude GoStr GoCrypto GoFloat GoSort NetIP TrackerTypes Ml Server Replica NodeRegistry.
Open Scope string_scope.
Open Scope list_scope.
Open Scope Z_scope.

(** ** Errors *)

Inductive GoError :=
| TrackerError (code : Z) (type message detail : string) (err : option GoError)
| PlainError (text : string).

Definition Error (e : GoError) : string :=
  match e with
  | TrackerError _ ty msg detail _ =>
      if String.eqb detail "" then "[" +:+ ty +:+ "] " +:+ msg else "[" +:+ ty +:+ "] " +:+ msg +:+ ": " +:+ detail
  | PlainError text => text
  end.

Definition WithDetail (detail : string) (e : GoError) : GoError :=
  match e with TrackerError c ty msg _ err => TrackerError c ty msg detail err | PlainError _ => e end.
Definition WithError (err : GoError) (e : GoError) : GoError :=
  match e with TrackerError c ty msg detail _ => TrackerError c ty msg detail (Some err) | PlainError _ => e end.

Definition ErrUnauthorized : GoError :=
  TrackerError 401 "authentication" "Authentication required" "Valid API key or password required" None.
Definition ErrDatabaseQuery : GoError := TrackerError 500 "database" "Database query failed" "" None.
Definition ErrCircuitOpen : GoError :=
  TrackerError 503 "circuit_breaker" "Service temporarily unavailable" "Circuit breaker is open, service degraded" None.

Definition IsRetryable (e : GoError) : bool :=
  match e with
  | TrackerError _ ty _ _ _ => String.eqb ty "database" || String.eqb ty "circuit_breaker"
  | PlainError _ => false
  end.

(** ** Retries *)

Record RetryConfig := mkRetry { rc_MaxRetries : Z; rc_InitialWait : Z; rc_MaxWait : Z; rc_Multiplier : float64 }.
Definition Millisecond : Z := 1000000.
Definition DefaultRetryConfig : RetryConfig := mkRetry 3 (100 * Millisecond) (5 * Prelude.Second) (of_int 2).

Definition retryablePatterns : list string :=
  ["database is locked"; "temporary failure"; "connection reset"; "timeout"; "deadline exceeded"; "circuit breaker"; "temporarily unavailable"].

Definition isRetryableError (e : GoError) : bool :=
  match e with
  | TrackerError _ _ _ _ _ => IsRetryable e
  | PlainError text => existsb (contains (to_lower text)) retryablePatterns
  end.

(** The wait after an attempt: the first wait times a power of two, in floating point;
    the multiplier of the configuration is not used. *)
Definition backoff (c : RetryConfig) (attempt : Z) : Z :=
  let wait := int64_of_float (fmul (of_int (rc_InitialWait c)) (of_int (if attempt <? 64 then 2 ^ attempt else 0))) in
  if rc_MaxWait c <? wait then rc_MaxWait c else wait.

(** [outcomes n] is what the call number [n] returns.  The result: the error, the number of calls
    and the waits. *)
Fixpoint attempts (fuel : nat) (outcomes : Z -> option GoError) (c : RetryConfig) (attempt : Z) (lastErr : option GoError)
    (waits : list Z) : option GoError * Z * list Z :=
  match fuel with
  | O =>
      (Some (PlainError ("max retries exceeded (" +:+ dec (rc_MaxRetries c) +:+ "): " +:+
              match lastErr with Some e => Error e | None => "%!w(<nil>)" end)), attempt, waits)
  | S fuel =>
      match outcomes attempt with
      | None => (None, attempt + 1, waits)
      | Some e =>
          if negb (isRetryableError e) then (Some e, attempt + 1, waits)
          else attempts fuel outcomes c (attempt + 1) (Some e) (if rc_MaxRetries c <=? attempt then waits else waits ++ [backoff c attempt])
      end
  end.

(** One attempt for each number from zero to [MaxRetries]. *)
Definition RetryWithBackoff (outcomes : Z -> option GoError) (c : RetryConfig) : option GoError * Z * list Z :=
  attempts (Z.to_nat (rc_MaxRetries c + 1)) outcomes c 0 None [].

Definition Retry (outcomes : Z -> option GoError) : option GoError * Z * list Z := RetryWithBackoff outcomes DefaultRetryConfig.
Definition RetryWithCustomBackoff (outcomes : Z -> option GoError) (maxRetries initialWait : Z) : option GoError * Z * list Z :=
  RetryWithBackoff outcomes (mkRetry maxRetries initialWait (10 * Prelude.Second) (of_int 2)).

(** ** API keys *)

Record APIKey := mkKey {
  k_ID : Z;
  k_KeyHash : string;
  k_UserID : Z;
  k_Permissions : list string;
  k_CreatedAt : Z;
  k_ExpiresAt : option Z;
  k_LastUsedAt : option Z;
  k_Revoked : bool
}.

(** A row; times in seconds. *)
Record KeyRow := mkKeyRow {
  kr_key_hash : string;
  kr_user_id : Z;
  kr_permissions : string;
  kr_created_at : Z;
  kr_expires_at : option Z;
  kr_last_used_at : option Z;
  kr_revoked : bool
}.

(** The table api_keys, with the number its next row gets. *)
Record KeyTable := mkKeys { kt_rows : gmap Z KeyRow; kt_next : Z }.
Definition CreateAPIKeysTable : KeyTable := mkKeys ∅ 1.

Definition hashAPIKey (key : string) : string := EncodeToString (Sum256 (bytes_of_string key)).

Definition charset : string := "abcdefghijklmnopqrstuvwxyzABCDEFGHIJKLMNOPQRSTUVWXYZ0123456789".

(** [raw] are the random bytes. *)
Definition generateRandomKey (raw : list Z) : string :=
  string_of_list_ascii ((fun v => default "a"%char (String.get (Z.to_nat (Z.rem v 62)) charset)) <$> raw).

Definition seconds (t : Z) : Z := t / Prelude.Second.

(** The row with a hash; the column is unique. *)
Definition find_hash (h : string) (t : KeyTable) : option (Z * KeyRow) :=
  head (filter (fun kv => kr_key_hash kv.2 = h) (map_to_list (kt_rows t))).

(** A hash that is there already is an error, like any failure of the database. *)
Definition CreateAPIKey (fail : bool) (raw : list Z) (userID : Z) (permissions : list string) (expiresAt : option Z) (now : Z)
    (t : KeyTable) : KeyTable * result GoError string :=
  let key := generateRandomKey raw in
  let keyHash := hashAPIKey key in
  if fail then (t, Err (WithError (PlainError "database") ErrDatabaseQuery))
  else match find_hash keyHash t with
       | Some _ => (t, Err (WithError (PlainError "constraint failed: UNIQUE constraint failed: api_keys.key_hash (2067)") ErrDatabaseQuery))
       | None =>
           (mkKeys (<[kt_next t := mkKeyRow keyHash userID (String.concat "," permissions) (seconds now) (seconds <$> expiresAt) None false]> (kt_rows t))
              (kt_next t + 1), Ok key)
       end.

(** [now] is the time of the comparison, [now'] the time of the update; its failure is
    ignored. *)
Definition ValidateAPIKey (fail touch_fails : bool) (now now' : Z) (apiKey : string) (t : KeyTable) : KeyTable * result GoError APIKey :=
  if fail then (t, Err (WithError (PlainError "database") ErrDatabaseQuery))
  else match find_hash (hashAPIKey apiKey) t with
       | None => (t, Err (WithDetail "invalid API key" ErrUnauthorized))
       | Some (id, r) =>
           if kr_revoked r then (t, Err (WithDetail "API key has been revoked" ErrUnauthorized))
           else if (match kr_expires_at r with Some e => e * Prelude.Second <? now | None => false end)
           then (t, Err (WithDetail "API key has expired" ErrUnauthorized))
           else
             (if touch_fails then t else t {{ kt_rows ::= <[id := r {{ kr_last_used_at := Some (seconds now') }}]> }},
              Ok (mkKey id "" (kr_user_id r) (split_on "," (kr_permissions r) "") (kr_created_at r * Prelude.Second) None None (kr_revoked r)))
       end.

(** ** Tokens and the middleware *)

Record Claims := mkClaims { cl_UserID : Z; cl_Role : string }.

Record AuthRequest := mkAuthReq { ar_XAPIKey : string; ar_Authorization : string }.

(** What the next handler finds in the context. *)
Record AuthContext := mkAuthCtx { ac_user_id : Z; ac_permissions : option (list string); ac_role : option string }.

(** A refusal is a 401 with this text. *)
Inductive AuthResult := AuthRefused (text : string) | AuthNext (c : AuthContext).

Section Auth.
(** The library for JSON web tokens: an error, or the claims and whether the token is valid. *)
Context (ParseWithClaims : string -> string -> result string (option Claims * bool)).

Definition ValidateToken (tokenString secret : string) : result GoError Claims :=
  match ParseWithClaims tokenString secret with
  | Err e => Err (WithError (PlainError e) ErrUnauthorized)
  | Ok (Some claims, true) => Ok claims
  | Ok _ => Err (WithDetail "invalid token claims" ErrUnauthorized)
  end.

Definition AuthMiddleware (secret : string) (fail touch_fails : bool) (now now' : Z) (r : AuthRequest) (t : KeyTable) : KeyTable * AuthResult :=
  if negb (String.eqb (ar_XAPIKey r) "") then
    let '(t, res) := ValidateAPIKey fail touch_fails now now' (ar_XAPIKey r) t in
    (t, match res with
        | Err _ => AuthRefused "Invalid API key"
        | Ok ak => AuthNext (mkAuthCtx (k_UserID ak) (Some (k_Permissions ak)) None)
        end)
  else if String.prefix "Bearer " (ar_Authorization r) then
    let tokenString := String.substring 7 (String.length (ar_Authorization r) - 7) (ar_Authorization r) in
    (t, match ValidateToken tokenString secret with
        | Err _ => AuthRefused "Invalid token"
        | Ok claims => AuthNext (mkAuthCtx (cl_UserID claims) None (Some (cl_Role claims)))
        end)
  else (t, AuthRefused "Authentication required").
End Auth.

(** ** The cache *)

Section Cache.
Context {V : Type}.

(** Values with their expiration. *)
Record Cache := mkCache { ca_items : gmap string (V * Z); ca_ttl : Z }.

(** The ticker of the cleanup panics for an interval that is not positive: [None]. *)
Definition NewCache (ttl : Z) : option Cache := if Z.quot ttl 2 <=? 0 then None else Some (mkCache ∅ ttl).

Definition Get (now : Z) (key : string) (c : Cache) : option V :=
  '(v, expiration) ← ca_items c !! key; if expiration <? now then None else Some v.

Definition SetWithTTL (now : Z) (key : string) (v : V) (ttl : Z) (c : Cache) : Cache := c {{ ca_items ::= <[key := (v, now + ttl)]> }}.
Definition CacheSet (now : Z) (key : string) (v : V) (c : Cache) : Cache := SetWithTTL now key v (ca_ttl c) c.
Definition CacheDelete (key : string) (c : Cache) : Cache := c {{ ca_items ::= delete key }}.
Definition Clear (c : Cache) : Cache := c {{ ca_items := ∅ }}.

(** A tick of the cleanup. *)
Definition cleanup (now : Z) (c : Cache) : Cache := c {{ ca_items ::= filter (fun kv => (kv.2.2 <? now) = false) }}.

Definition CacheSize (c : Cache) : Z := Z.of_nat (size (ca_items c)).
End Cache.
Arguments Cache : clear implicits.

Definition TorrentCache_Get {V} (now : Z) (infoHash : string) (c : Cache V) : option V := Get now ("torrent:" +:+ infoHash) c.
Definition TorrentCache_Set {V} (now : Z) (infoHash : string) (v : V) (c : Cache V) : Cache V := CacheSet now ("torrent:" +:+ infoHash) v c.
Definition TorrentCache_Delete {V} (infoHash : string) (c : Cache V) : Cache V := CacheDelete ("torrent:" +:+ infoHash) c.
Definition UserCache_Get {V} (now : Z) (passkey : string) (c : Cache V) : option V := Get now ("user:" +:+ passkey) c.
Definition UserCache_Set {V} (now : Z) (passkey : string) (v : V) (c : Cache V) : Cache V := CacheSet now ("user:" +:+ passkey) v c.
Definition UserCache_Delete {V} (passkey : string) (c : Cache V) : Cache V := CacheDelete ("user:" +:+ passkey) c.

(** ** The worker pool *)

(** The slots taken in the channel, the count of the wait group, the submissions that have a slot
    and are not in the wait group yet, and where the goroutines are: in their task, before giving
    back the slot, before telling the wait group. *)
Record WorkerPool := mkPool {
  po_cap : nat; po_sem : nat; po_wg : nat;
  po_entering : nat; po_running : nat; po_releasing : nat; po_leaving : nat
}.

(** A channel of negative capacity panics: [None]. *)
Definition NewWorkerPool (capacity : Z) : option WorkerPool :=
  if capacity <? 0 then None else Some (mkPool (Z.to_nat capacity) 0 0 0 0 0 0).

(** The send on the channel. *)
Definition take_slot (p : WorkerPool) : option WorkerPool :=
  if (po_sem p <? po_cap p)%nat then Some (p {{ po_sem ::= S }} {{ po_entering ::= S }}) else None.

(** [wg.Add(1)], and the goroutine starts. *)
Definition enter_pool (p : WorkerPool) : option WorkerPool :=
  match po_entering p with
  | S n => Some (p {{ po_entering := n }} {{ po_wg ::= S }} {{ po_running ::= S }})
  | O => None
  end.

(** Both in a row. *)
Definition TrySubmit (p : WorkerPool) : WorkerPool * bool :=
  match p' ← take_slot p; enter_pool p' with Some p' => (p', true) | None => (p, false) end.

(** [Submit] blocks until there is a slot: [None]. *)
Definition Submit (p : WorkerPool) : option WorkerPool := let '(p, ok) := TrySubmit p in if ok then Some p else None.

Definition Active (p : WorkerPool) : Z := Z.of_nat (po_sem p).
Definition Capacity (p : WorkerPool) : Z := Z.of_nat (po_cap p).

(** [Wait] has returned, and so can [Shutdown]. *)
Definition Waited (p : WorkerPool) : bool := (po_wg p =? 0)%nat.

(** What is still to come of the submissions that have their slot: the entry in the wait group, and
    the three ends of a task, the first of which is that it returns. *)
Inductive drain_step : WorkerPool -> WorkerPool -> Prop :=
| pool_enter p p' : enter_pool p = Some p' -> drain_step p p'
| pool_return p n : po_running p = S n -> drain_step p (p {{ po_running := n }} {{ po_releasing ::= S }})
| pool_release p n k : po_releasing p = S n -> po_sem p = S k -> drain_step p (p {{ po_releasing := n }} {{ po_sem := k }} {{ po_leaving ::= S }})
| pool_done p n k : po_leaving p = S n -> po_wg p = S k -> drain_step p (p {{ po_leaving := n }} {{ po_wg := k }}).

(** What happens in a pool: these, and a submission that gets a slot. *)
Inductive pool_step : WorkerPool -> WorkerPool -> Prop :=
| pool_take p p' : take_slot p = Some p' -> pool_step p p'
| pool_drain p p' : drain_step p p' -> pool_step p p'.

(** ** Thresholds by population *)

(** [MaxAnnounceRate] of the configuration; zero leaves it as it is. *)
Definition thresholdsForPopulation (peers : Z) : Z := if 50000 <? peers then 125 else if peers <? 1000 then 75 else 0.

(** A tick of the poller; nothing happens without an answer. *)
Definition poll_thresholds (metrics : option Z) (ad : AnomalyDetector) : AnomalyDetector :=
  match metrics with None => ad | Some peers => SetThresholds (thresholdsForPopulation peers) ad end.

(** ** The best peers *)

(** [clock] are the three readings for a peer, [sortSlice] is [sort.Slice] by falling
    score.  A negative number of peers panics. *)
Definition SelectBest (sortSlice : list (PeerInfo * float64) -> list (PeerInfo * float64)) (clock : PeerInfo -> Z * Z * Z)
    (peers : list PeerInfo) (requesterIP : IP) (numWant : Z) : option (list PeerInfo) :=
  let scored := sortSlice ((fun p => let '(t1, t2, t3) := clock p in (p, Score t1 t2 t3 p requesterIP)) <$> peers) in
  let n := Z.min numWant (Z.of_nat (length scored)) in
  if n <? 0 then None else Some ((take (Z.to_nat n) scored).*1).

(** ** The operations server *)

(** The flag is a channel that is closed once. *)
Definition SetReady (closed : bool) : bool := true.
Definition IsReady (closed : bool) : bool := closed.

(** The status and the JSON text. *)
Definition json_status (s : string) : string :=
  let q := string_of_bytes [34] in "{" +:+ q +:+ "status" +:+ q +:+ ":" +:+ q +:+ s +:+ q +:+ "}".
Definition handleLive : Z * string := (200, json_status "alive").
Definition handleReady (closed : bool) : Z * string :=
  if IsReady closed then (200, json_status "ready") else (503, json_status "starting").

Record SwarmGauges := mkGauges {
  g_nodeTotal : Z;
  g_nodeReachable : Z;
  g_nodeFlapping : Z;
  g_nodeUnreachable : Z;
  g_replicaSeeding : Z;
  g_replicaVerified : Z;
  g_artifactCount : Z
}.
Definition zeroGauges : SwarmGauges := mkGauges 0 0 0 0 0 0 0.

Definition count_node (g : SwarmGauges) (n : NodeIdentity) : SwarmGauges :=
  let g := g {{ g_nodeTotal ::= Z.succ }} in
  match ni_ReachState n with
  | NodeReachable => g {{ g_nodeReachable ::= Z.succ }}
  | NodeFlapping => g {{ g_nodeFlapping ::= Z.succ }}
  | NodeUnreachable => g {{ g_nodeUnreachable ::= Z.succ }}
  end.

Definition count_replica (g : SwarmGauges) (kr : replicaKey * NodeReplica) : SwarmGauges :=
  match r_State kr.2 with
  | ReplicaStateSeeding => g {{ g_replicaSeeding ::= Z.succ }}
  | ReplicaStateVerified => g {{ g_replicaVerified ::= Z.succ }}
  | _ => g
  end.

Definition count_artifact (rorder : NodeReplicaMap -> list (replicaKey * NodeReplica)) (replicas : NodeReplicaMap)
    (g : SwarmGauges) (infoHash : string) : SwarmGauges :=
  foldl count_replica (g {{ g_artifactCount ::= Z.succ }}) (ForHash rorder infoHash replicas).

(** The registries are optional. *)
Definition swarmGauges (norder : gmap Z NodeIdentity -> list (Z * NodeIdentity)) (aorder : ArtifactList -> list (string * Artifact))
    (rorder : NodeReplicaMap -> list (replicaKey * NodeReplica))
    (nodes : option NodeRegistry) (replicas : option NodeReplicaMap) (artifacts : option ArtifactList) : SwarmGauges :=
  let g := match nodes with Some r => foldl count_node zeroGauges (norder (nr_nodes r)).*2 | None => zeroGauges end in
  match replicas, artifacts with
  | Some m, Some al => foldl (count_artifact rorder m) g (aorder al).*1
  | _, _ => g
  end.

(** The gauges of [handleMetrics] that are integers, by name, without the uptime. *)
Definition metrics_values (s : Stats) (torrents users : Z) (g : SwarmGauges) : list (string * Z) :=
  [("open_connections", s_OpenConnections s); ("opened_connections", s_OpenedConnections s); ("announcements", s_Announcements s);
   ("succ_announcements", s_SuccAnnouncements s); ("scrapes", s_Scrapes s); ("leechers", s_Leechers s); ("seeders", s_Seeders s);
   ("torrent_count", torrents); ("user_count", users); ("bytes_read", s_BytesRead s); ("bytes_written", s_BytesWritten s);
   ("requests", s_Requests s); ("swarm_nodes_total", g_nodeTotal g); ("swarm_nodes_reachable", g_nodeReachable g);
   ("swarm_nodes_flapping", g_nodeFlapping g); ("swarm_nodes_unreachable", g_nodeUnreachable g);
   ("swarm_replicas_seeding", g_replicaSeeding g); ("swarm_replicas_verified", g_replicaVerified g); ("swarm_artifacts_total", g_artifactCount g)].
