(* ===== verification/HelpersSpec.v ===== *)
(** * Theorems about the helpers

    Retries and their bounds, API keys from creation to use, the middleware, the cache
    against one that never cleans up, the bound of the worker pool, and the counts of
    the operations server. *)
From Stdlib Require Import String Ascii.
From S2P Require Import Prelude GoStr GoCrypto GoFloat GoSort NetIP TrackerTypes Ml Server Replica NodeRegistry Helpers.
Open Scope string_scope.
Open Scope list_scope.
Open Scope Z_scope.

(** ** Retries *)

Definition retried (outcomes : Z -> option GoError) (i : Z) : Prop := exists e, outcomes i = Some e /\ isRetryableError e = true.

Lemma backoff_le c i : backoff c i <= rc_MaxWait c.
Proof. unfold backoff. match goal with |- context [?a <? ?b] => destruct (Z.ltb_spec a b) end; lia. Qed.

Lemma attempts_spec fuel outcomes c i last waits :
  Z.of_nat fuel = rc_MaxRetries c + 1 - i -> 0 <= i -> length waits = Z.to_nat i \/ fuel = O ->
  Forall (fun w => w <= rc_MaxWait c) waits -> (0 < fuel)%nat ->
  let '(res, calls, waits') := attempts fuel outcomes c i last waits in
  i < calls <= rc_MaxRetries c + 1 /\ Z.of_nat (length waits') = calls - 1 /\ Forall (fun w => w <= rc_MaxWait c) waits' /\
  (forall j, i <= j < calls - 1 -> retried outcomes j) /\
  match outcomes (calls - 1) with
  | None => res = None
  | Some e => if isRetryableError e
              then calls = rc_MaxRetries c + 1 /\
                   res = Some (PlainError ("max retries exceeded (" +:+ dec (rc_MaxRetries c) +:+ "): " +:+ Error e))
              else res = Some e
  end.
Proof.
  revert i last waits. induction fuel as [|fuel IH]; intros i last waits Hf Hi Hw Hall Hpos; [lia|].
  destruct Hw as [Hw|]; [|done]. cbn [attempts]. destruct (outcomes i) as [e|] eqn:Eo.
  - destruct (isRetryableError e) eqn:Er; cbn [negb].
    + destruct fuel as [|fuel].
      * assert (rc_MaxRetries c = i) as Hm by lia. cbn [attempts]. rewrite Hm, Z.leb_refl. split_and!; [lia|lia|lia|done| |].
        -- intros j Hj. lia.
        -- replace (i + 1 - 1) with i by lia. rewrite Eo, Er. done.
      * destruct (Z.leb_spec (rc_MaxRetries c) i); [lia|].
        specialize (IH (i + 1) (Some e) (waits ++ [backoff c i]) ltac:(lia) ltac:(lia)).
        destruct (attempts (S fuel) outcomes c (i + 1) (Some e) _) as [[res calls] waits'] eqn:Ea.
        destruct IH as (H1 & H2 & H3 & H4 & H5); [left; rewrite length_app; cbn; lia| |lia|].
        { apply Forall_app. split; [done|]. constructor; [apply backoff_le|done]. }
        split_and!; [lia|lia|done|done| |done]. intros j Hj. destruct (decide (j = i)) as [->|]; [by exists e|apply H4; lia].
    + replace (i + 1 - 1) with i by lia. rewrite Eo, Er. split_and!; [lia|lia|lia|done|intros j Hj; lia|done].
  - replace (i + 1 - 1) with i by lia. rewrite Eo. split_and!; [lia|lia|lia|done|intros j Hj; lia|done].
Qed.

(** A retried function is called at least once and at most once more than the number
    of retries, with one wait between two calls and no wait longer than the
    longest allowed; every call but the last failed with an error that is worth
    retrying; and the result is that of the last call, unless all calls failed so, in
    which case it says how often was tried and what the last error was. *)
Theorem retry_bounds outcomes c :
  0 <= rc_MaxRetries c ->
  let '(res, calls, waits) := RetryWithBackoff outcomes c in
  0 < calls <= rc_MaxRetries c + 1 /\ Z.of_nat (length waits) = calls - 1 /\ Forall (fun w => w <= rc_MaxWait c) waits /\
  (forall j, 0 <= j < calls - 1 -> retried outcomes j) /\
  match outcomes (calls - 1) with
  | None => res = None
  | Some e => if isRetryableError e
              then calls = rc_MaxRetries c + 1 /\
                   res = Some (PlainError ("max retries exceeded (" +:+ dec (rc_MaxRetries c) +:+ "): " +:+ Error e))
              else res = Some e
  end.
Proof. intros Hm. apply attempts_spec; [lia|lia|by left|done|lia]. Qed.

Lemma retry_bounds_witness :
  let '(res, calls, waits) := RetryWithBackoff (fun i => if i <? 2 then Some ErrCircuitOpen else None) DefaultRetryConfig in
  0 < calls <= 4 /\ Z.of_nat (length waits) = calls - 1.
Proof.
  pose proof (retry_bounds (fun i => if i <? 2 then Some ErrCircuitOpen else None) DefaultRetryConfig ltac:(cbn; lia)) as H.
  destruct (RetryWithBackoff _ _) as [[res calls] waits]. destruct H as (H1 & H2 & _). split; [exact H1|exact H2].
Defined.

(** The default waits: 100, 200 and 400 milliseconds, and the multiplier is not looked at. *)
Example default_waits :
  Retry (fun _ => Some (PlainError "Timeout")) =
    (Some (PlainError "max retries exceeded (3): Timeout"), 4, [100000000; 200000000; 400000000]) /\
  RetryWithBackoff (fun _ => Some ErrCircuitOpen) (DefaultRetryConfig {{ rc_Multiplier := of_int 10 }}) =
  RetryWithBackoff (fun _ => Some ErrCircuitOpen) DefaultRetryConfig.
Proof. vm_compute. done. Qed.

(** With a negative number of retries the function is not called, and that is an error. *)
Example no_attempt : RetryWithBackoff (fun _ => None) (mkRetry (-1) 0 0 (of_int 2)) = (Some (PlainError "max retries exceeded (-1): %!w(<nil>)"), 0, []).
Proof. reflexivity. Qed.

(** ** API keys *)

(** Numbers below the next one, and no hash twice. *)
Definition keys_wf (t : KeyTable) : Prop :=
  (forall id r, kt_rows t !! id = Some r -> id < kt_next t) /\
  (forall id id' r r', kt_rows t !! id = Some r -> kt_rows t !! id' = Some r' -> kr_key_hash r = kr_key_hash r' -> id = id').

Lemma find_hash_some h t id r : find_hash h t = Some (id, r) -> kt_rows t !! id = Some r /\ kr_key_hash r = h.
Proof.
  unfold find_hash. intros E. assert ((id, r) ∈ filter (fun kv => kr_key_hash kv.2 = h) (map_to_list (kt_rows t))) as Hin.
  { destruct (filter _ _) as [|x l]; [done|]. injection E as ->. set_solver. }
  apply list_elem_of_filter in Hin as [Hh Hin]. by apply elem_of_map_to_list in Hin.
Qed.

Lemma find_hash_none h t : find_hash h t = None <-> forall id r, kt_rows t !! id = Some r -> kr_key_hash r <> h.
Proof.
  unfold find_hash. assert (forall A (l : list A), head l = None <-> l = []) as -> by (by intros A []).
  rewrite filter_none. split.
  - intros H id r Hr. apply (H (id, r)). by apply elem_of_map_to_list.
  - intros H [id r] Hr. apply elem_of_map_to_list in Hr. by apply (H id).
Qed.

Lemma find_hash_wf h t id r : keys_wf t -> kt_rows t !! id = Some r -> kr_key_hash r = h -> find_hash h t = Some (id, r).
Proof.
  intros [_ Hu] Hr Hh. destruct (find_hash h t) as [[id' r']|] eqn:E.
  - apply find_hash_some in E as [Hr' Hh']. assert (id' = id) as -> by (eapply Hu; [done..|congruence]). congruence.
  - by destruct (proj1 (find_hash_none h t) E id r Hr).
Qed.

Lemma keys_start : keys_wf CreateAPIKeysTable.
Proof. by split. Qed.

Lemma create_row fail raw userID perms exp now t t' key :
  CreateAPIKey fail raw userID perms exp now t = (t', Ok key) ->
  key = generateRandomKey raw /\ find_hash (hashAPIKey key) t = None /\
  t' = mkKeys (<[kt_next t := mkKeyRow (hashAPIKey key) userID (String.concat "," perms) (seconds now) (seconds <$> exp) None false]> (kt_rows t)) (kt_next t + 1).
Proof. unfold CreateAPIKey. destruct fail; [done|]. destruct (find_hash _ _) eqn:E; [done|]. by intros [= <- <-]. Qed.

Lemma create_wf fail raw userID perms exp now t : keys_wf t -> keys_wf (CreateAPIKey fail raw userID perms exp now t).1.
Proof.
  intros Hwf. destruct (CreateAPIKey _ _ _ _ _ _ _) as [t' [key|e]] eqn:E; cbn [fst].
  - apply create_row in E as (_ & Hno & ->). destruct Hwf as [Hlt Hu]. pose proof (proj1 (find_hash_none _ _) Hno) as Hn. split; cbn [kt_rows kt_next].
    + intros id r [[<- _]|[_ Hr]]%lookup_insert_Some; [lia|]. apply Hlt in Hr. lia.
    + intros id id' r r' [[<- <-]|[_ Hr]]%lookup_insert_Some [[<- <-]|[_ Hr']]%lookup_insert_Some Hh; cbn in Hh; [done|..].
      * by destruct (Hn id' r' Hr').
      * by destruct (Hn id r Hr).
      * by eapply Hu.
  - unfold CreateAPIKey in E. destruct fail; [by injection E as <- _|]. destruct (find_hash _ _); [by injection E as <- _|done].
Qed.

(** Using a key writes down the time and nothing else. *)
Definition untouched (r : KeyRow) : KeyRow := r {{ kr_last_used_at := None }}.

Lemma validate_rows fail tf now now' key t : untouched <$> kt_rows (ValidateAPIKey fail tf now now' key t).1 = untouched <$> kt_rows t /\ kt_next (ValidateAPIKey fail tf now now' key t).1 = kt_next t.
Proof.
  unfold ValidateAPIKey. destruct fail; [done|]. destruct (find_hash _ t) as [[id r]|] eqn:E; [|done].
  destruct (kr_revoked r); [done|]. destruct (match kr_expires_at r with Some e => _ | None => _ end); [done|]. destruct tf; [done|].
  apply find_hash_some in E as [Hr _]. destruct t as [rows n]. cbn in *. split; [|done]. rewrite fmap_insert. apply insert_id. by rewrite lookup_fmap, Hr.
Qed.

Lemma untouched_wf t t' : untouched <$> kt_rows t' = untouched <$> kt_rows t -> kt_next t' = kt_next t -> keys_wf t -> keys_wf t'.
Proof.
  intros Er En [Hlt Hu].
  assert (forall id r, kt_rows t' !! id = Some r -> exists r0, kt_rows t !! id = Some r0 /\ untouched r0 = untouched r) as Hrow.
  { intros id r Hr. assert ((untouched <$> kt_rows t) !! id = Some (untouched r)) as H by by rewrite <- Er, lookup_fmap, Hr.
    rewrite lookup_fmap in H. apply fmap_Some in H as (r0 & ? & ?). by exists r0. }
  assert (forall r r0, untouched r0 = untouched r -> kr_key_hash r0 = kr_key_hash r) as Hh by (intros [] [] [=]; cbn; congruence).
  split.
  - intros id r (r0 & Hr & _)%Hrow. rewrite En. by eapply Hlt.
  - intros id id' r r' (r0 & Hr & E)%Hrow (r0' & Hr' & E')%Hrow Hk. apply (Hu id id' r0 r0' Hr Hr').
    rewrite (Hh _ _ E), (Hh _ _ E'). done.
Qed.

(** Splitting what was joined. *)
Lemma split_on_app c s t acc :
  str_all (fun x => negb (Ascii.eqb x c)) s = true -> split_on c (s +:+ String c t) acc = (acc +:+ s) :: split_on c t "".
Proof.
  revert acc. induction s as [|a s IH]; intros acc; [intros _; rewrite append_nil_l; cbn [split_on]; by rewrite Ascii.eqb_refl, append_nil_r|].
  rewrite append_cons. cbn [str_all split_on]. intros [Ha Hs]%andb_true_iff. apply negb_true_iff in Ha. rewrite Ha, IH by done. by rewrite append_assoc.
Qed.

Lemma split_on_join c (l : list string) :
  Forall (fun s => str_all (fun x => negb (Ascii.eqb x c)) s = true) l -> l <> [] -> split_on c (String.concat (String c "") l) "" = l.
Proof.
  induction l as [|s l IH]; intros Hl Hne; [done|]. apply Forall_cons in Hl as [Hs Hl].
  destruct l as [|s' l]; [by apply split_on_without|].
  change (String.concat (String c "") (s :: s' :: l)) with (s +:+ String c (String.concat (String c "") (s' :: l))).
  rewrite split_on_app, IH by done. done.
Qed.

(** The row behind a key that is accepted. *)
Lemma validate_accepts fail tf now now' key t t' ak :
  ValidateAPIKey fail tf now now' key t = (t', Ok ak) <->
  fail = false /\ exists id r, find_hash (hashAPIKey key) t = Some (id, r) /\ kr_revoked r = false /\
    (forall e, kr_expires_at r = Some e -> now <= e * Prelude.Second) /\
    t' = (if tf then t else t {{ kt_rows ::= <[id := r {{ kr_last_used_at := Some (seconds now') }}]> }}) /\
    ak = mkKey id "" (kr_user_id r) (split_on "," (kr_permissions r) "") (kr_created_at r * Prelude.Second) None None (kr_revoked r).
Proof.
  unfold ValidateAPIKey. destruct fail; [split; [done|by intros [? _]]|].
  destruct (find_hash (hashAPIKey key) t) as [[id r]|]; [|split; [done|by intros (_ & ? & ? & ? & _)]].
  destruct (kr_revoked r) eqn:Er; [split; [done|intros (_ & id' & r' & [= <- <-] & ? & _); congruence]|].
  destruct (match kr_expires_at r with Some e => _ | None => _ end) eqn:Ex.
  - split; [done|]. intros (_ & id' & r' & [= <- <-] & _ & H & _). destruct (kr_expires_at r) as [e|]; [|done].
    apply Z.ltb_lt in Ex. specialize (H e eq_refl). lia.
  - split; [|intros (_ & id' & r' & [= <- <-] & _ & _ & -> & ->); by rewrite Er].
    intros [= <- <-]. split; [done|]. exists id, r. split_and!; [done..| |done|by rewrite Er].
    intros e He. rewrite He in Ex. by apply Z.ltb_ge in Ex.
Qed.

(** What happens to the table of keys. *)
Inductive key_op :=
| KeyCreate (fail : bool) (raw : list Z) (userID : Z) (permissions : list string) (expiresAt : option Z) (now : Z)
| KeyUse (fail touch_fails : bool) (now now' : Z) (key : string).

Definition key_step (t : KeyTable) (op : key_op) : KeyTable :=
  match op with
  | KeyCreate fail raw userID permissions exp now => (CreateAPIKey fail raw userID permissions exp now t).1
  | KeyUse fail tf now now' key => (ValidateAPIKey fail tf now now' key t).1
  end.

Lemma key_step_wf t op : keys_wf t -> keys_wf (key_step t op).
Proof.
  intros Hwf. destruct op as [fail raw u p e now|fail tf now now' key]; cbn [key_step]; [by apply create_wf|].
  destruct (validate_rows fail tf now now' key t) as [H1 H2]. by eapply untouched_wf.
Qed.

(** Rows stay, but for the time of the last use. *)
Lemma key_step_row t op id r : keys_wf t -> kt_rows t !! id = Some r -> exists r', kt_rows (key_step t op) !! id = Some r' /\ untouched r' = untouched r.
Proof.
  intros [Hlt _] Hr. destruct op as [fail raw u p e now|fail tf now now' key]; cbn [key_step].
  - destruct (CreateAPIKey fail raw u p e now t) as [t' [key|err]] eqn:E; cbn [fst].
    + apply create_row in E as (_ & _ & ->). exists r. split; [|done]. cbn [kt_rows]. rewrite lookup_insert_ne; [done|].
      apply Hlt in Hr. lia.
    + unfold CreateAPIKey in E. exists r. destruct fail; [by injection E as <- _|]. destruct (find_hash _ _); [by injection E as <- _|done].
  - destruct (validate_rows fail tf now now' key t) as [H1 _]. apply (f_equal (lookup id)) in H1. rewrite !lookup_fmap, Hr in H1.
    apply fmap_Some in H1 as (r' & ? & ?). by exists r'.
Qed.

Lemma key_run_row ops t id r :
  keys_wf t -> kt_rows t !! id = Some r ->
  keys_wf (foldl key_step t ops) /\ exists r', kt_rows (foldl key_step t ops) !! id = Some r' /\ untouched r' = untouched r.
Proof.
  revert t r. induction ops as [|op ops IH]; intros t r Hwf Hr; [split; [done|by exists r]|]. cbn [foldl].
  destruct (key_step_row t op id r Hwf Hr) as (r1 & Hr1 & E1). destruct (IH _ r1 (key_step_wf t op Hwf) Hr1) as (Hwf' & r' & Hr' & E').
  split; [done|]. exists r'. split; [done|congruence].
Qed.

(** An API key gives back what it was made with.  After any history of the table, a key
    that is created is accepted after any further history until the second of its
    expiry, with the user it was created for and the same permissions, if there was at
    least one and none has a comma in its name; at any later moment it is
    refused. *)
Theorem api_key_round_trip ops ops' raw userID perms exp now t key now1 now2 :
  CreateAPIKey false raw userID perms exp now (foldl key_step CreateAPIKeysTable ops) = (t, Ok key) ->
  perms <> [] -> Forall (fun p => str_all (fun x => negb (Ascii.eqb x ",")) p = true) perms ->
  let res := (ValidateAPIKey false false now1 now2 key (foldl key_step t ops')).2 in
  if (match exp with Some e => seconds e * Prelude.Second <? now1 | None => false end)
  then res = Err (WithDetail "API key has expired" ErrUnauthorized)
  else exists ak, res = Ok ak /\ k_UserID ak = userID /\ k_Permissions ak = perms /\ k_CreatedAt ak = seconds now * Prelude.Second /\ k_Revoked ak = false.
Proof.
  intros Hc Hne Hp. pose proof (create_row _ _ _ _ _ _ _ _ _ Hc) as (_ & _ & Et).
  assert (forall l t0, keys_wf t0 -> keys_wf (foldl key_step t0 l)) as Hrun.
  { induction l as [|op l IH]; intros t0 H0; [done|]. by apply IH, key_step_wf. }
  pose proof (Hrun ops _ keys_start) as Hwf0. set (t0 := foldl key_step CreateAPIKeysTable ops) in *.
  assert (keys_wf t) as Hwf by (pose proof (create_wf false raw userID perms exp now t0 Hwf0) as H; by rewrite Hc in H).
  set (row := mkKeyRow (hashAPIKey key) userID (String.concat "," perms) (seconds now) (seconds <$> exp) None false) in *.
  assert (kt_rows t !! kt_next t0 = Some row) as Hrow by (rewrite Et; apply lookup_insert_eq).
  destruct (key_run_row ops' t _ row Hwf Hrow) as (Hwf' & r' & Hr' & Eu). set (t1 := foldl key_step t ops') in *.
  destruct r' as [h u p c e l rv]. unfold row in Eu. injection Eu as -> -> -> -> -> ->.
  unfold ValidateAPIKey. rewrite (find_hash_wf _ _ _ _ Hwf' Hr') by done. cbn [kr_revoked kr_expires_at].
  destruct exp as [e|]; cbn [fmap option_fmap option_map].
  - destruct (_ <? now1); [done|]. eexists. split; [done|]. cbn. split_and!; try done. by apply split_on_join.
  - eexists. split; [done|]. cbn. split_and!; try done. by apply split_on_join.
Qed.

Module DemoKeys.
Definition raw : list Z := (fun n => (Z.of_nat n * 37 + 11) mod 256) <$> seq 0 32.
Definition raw2 : list Z := (fun n => (Z.of_nat n * 91 + 5) mod 256) <$> seq 0 32.
Definition ops : list key_op := [KeyCreate false raw2 3 ["read"] None 0; KeyUse false false 5 6 (generateRandomKey raw2)].
Definition later : list key_op := [KeyUse false false 7 8 (generateRandomKey raw); KeyCreate true raw 9 [] None 9; KeyUse false false 0 0 "nonsense"].
Definition made : KeyTable * result GoError string :=
  CreateAPIKey false raw 42 ["read"; "write"] (Some (100 * Prelude.Second)) (50 * Prelude.Second) (foldl key_step CreateAPIKeysTable ops).
End DemoKeys.

Lemma api_key_round_trip_witness :
  exists ak, (ValidateAPIKey false false (60 * Prelude.Second) 0 (generateRandomKey DemoKeys.raw) (foldl key_step DemoKeys.made.1 DemoKeys.later)).2 = Ok ak /\
    k_UserID ak = 42 /\ k_Permissions ak = ["read"; "write"].
Proof.
  destruct (api_key_round_trip DemoKeys.ops DemoKeys.later DemoKeys.raw 42 ["read"; "write"] (Some (100 * Prelude.Second)) (50 * Prelude.Second)
    DemoKeys.made.1 (generateRandomKey DemoKeys.raw) (60 * Prelude.Second) 0) as (ak & H1 & H2 & H3 & _).
  - vm_compute. reflexivity.
  - discriminate.
  - repeat constructor.
  - exists ak. split; [exact H1|]. split; [exact H2|exact H3].
Defined.

(** No permissions at all come back as one with an empty name. *)
Example no_permissions :
  (let t := (CreateAPIKey false DemoKeys.raw 1 [] None 0 CreateAPIKeysTable).1 in
   match (ValidateAPIKey false false 0 0 (generateRandomKey DemoKeys.raw) t).2 with Ok ak => Some (k_Permissions ak, k_LastUsedAt ak, k_ExpiresAt ak) | Err _ => None end)
  = Some ([""], None, None).
Proof. vm_compute. reflexivity. Qed.

(** A key has one letter or digit for each random byte: 32, not the 64 hexadecimal digits of the
    comment, and the first eight letters come up more often than the rest. *)
Lemma key_characters raw :
  Forall is_byte raw ->
  String.length (generateRandomKey raw) = length raw /\
  Forall (fun c => c ∈ list_ascii_of_string charset) (list_ascii_of_string (generateRandomKey raw)).
Proof.
  intros Hr. unfold generateRandomKey. split.
  - induction Hr as [|v l _ _ IH]; [done|]. cbn in *. by rewrite IH.
  - rewrite list_ascii_of_string_of_list_ascii. apply Forall_fmap. eapply Forall_impl; [exact Hr|]. intros v [H1 H2]. cbn [compose].
    assert (0 <= Z.rem v 62 < 62) as Hb by (rewrite Z.rem_mod_nonneg by lia; apply Z.mod_pos_bound; lia).
    assert (forall n, (n < 62)%nat -> default "a"%char (String.get n charset) ∈ list_ascii_of_string charset) as Hall.
    { intros n Hn. assert (forallb (fun n => bool_decide (default "a"%char (String.get n charset) ∈ list_ascii_of_string charset)) (seq 0 62) = true) as Hc by (vm_compute; reflexivity).
      rewrite forallb_forall in Hc. specialize (Hc n (proj2 (List.in_seq 62 0 n) ltac:(lia))). by apply bool_decide_eq_true in Hc. }
    apply Hall. lia.
Qed.

Example letters_are_not_even :
  length (filter (fun v => Z.rem (Z.of_nat v) 62 = 0) (seq 0 256)) = 5%nat /\ length (filter (fun v => Z.rem (Z.of_nat v) 62 = 8) (seq 0 256)) = 4%nat.
Proof. vm_compute. done. Qed.

(** ** The middleware *)

(** A row of the table stands for the key: it has the hash of the key, it is not
    revoked, and its expiry, if it has one, is not past. *)
Definition vouches (now : Z) (key : string) (t : KeyTable) (id : Z) (r : KeyRow) : Prop :=
  kt_rows t !! id = Some r /\
  kr_key_hash r = EncodeToString (Sum256 (bytes_of_string key)) /\
  kr_revoked r = false /\
  match kr_expires_at r with Some e => now <= e * Prelude.Second | None => True end.

(** [C37] What the middleware lets through.  Take a table of keys in which no hash
    occurs twice, as creating and using keys keeps it.  The next handler runs exactly
    when a key was sent, the database can be read and a row has the hash of the key, is not
    revoked and not past its expiry, or when no key was sent and the authorization is a
    bearer token that the library accepts as valid.  In the first case it sees the
    user of the row with its permissions, split at the commas, and the row's time of last use is set
    (unless that write fails); in the second it sees the user of the token with its role,
    and the table is as it was.  A key that is not accepted is not made good by a
    token. *)
Theorem middleware_admits parse secret fail tf now now' r t t' c :
  keys_wf t ->
  AuthMiddleware parse secret fail tf now now' r t = (t', AuthNext c) <->
  (ar_XAPIKey r <> "" /\ fail = false /\ exists id row, vouches now (ar_XAPIKey r) t id row /\
     c = mkAuthCtx (kr_user_id row) (Some (split_on "," (kr_permissions row) "")) None /\
     t' = if tf then t else t {{ kt_rows ::= <[id := row {{ kr_last_used_at := Some (seconds now') }}]> }}) \/
  (ar_XAPIKey r = "" /\ t' = t /\ exists token claims, ar_Authorization r = "Bearer " +:+ token /\
     parse token secret = Ok (Some claims, true) /\ c = mkAuthCtx (cl_UserID claims) None (Some (cl_Role claims))).
Proof.
  intros Hwf. unfold AuthMiddleware. destruct (String.eqb_spec (ar_XAPIKey r) "") as [E|E]; cbn [negb].
  - assert (forall token, String.substring 7 (String.length ("Bearer " +:+ token) - 7) ("Bearer " +:+ token) = token) as Htok.
    { intros token. rewrite length_append. replace (_ - 7)%nat with (String.length token) by (cbn; lia). exact (substring_app_r "Bearer " token). }
    destruct (String.prefix "Bearer " (ar_Authorization r)) eqn:Ep.
    + apply prefix_spec in Ep as [token Ep]. rewrite Ep, Htok. unfold ValidateToken. split.
      * destruct (parse token secret) as [[[cl|] []]|e] eqn:Et; try done. intros [= <- <-]. right. split; [done|]. split; [done|]. by exists token, cl.
      * intros [[? _]|(_ & -> & token' & cl & Ea & Et & ->)]; [done|]. apply append_inj_l in Ea as <-. by rewrite Et.
    + split; [done|]. intros [[? _]|(_ & _ & token & cl & Ea & _)]; [done|].
      assert (String.prefix "Bearer " (ar_Authorization r) = true) by (apply prefix_spec; by exists token). congruence.
  - pose proof (fun ak => validate_accepts fail tf now now' (ar_XAPIKey r) t t' ak) as Hacc.
    destruct (ValidateAPIKey fail tf now now' (ar_XAPIKey r) t) as [t1 res]. split.
    + destruct res as [ak|e]; [|done]. intros [= -> <-]. destruct (proj1 (Hacc ak) eq_refl) as (-> & id & row & Hf & Hrev & Hexp & Ht & ->).
      apply find_hash_some in Hf as [Hrow Hh]. left. split; [done|]. split; [done|]. exists id, row. split; [|done].
      split_and!; [done..|]. destruct (kr_expires_at row); [by apply Hexp|done].
    + intros [(_ & -> & id & row & (Hrow & Hh & Hrev & Hexp) & -> & Ht)|(? & _)]; [|done].
      pose proof (find_hash_wf (hashAPIKey (ar_XAPIKey r)) t id row Hwf Hrow Hh) as Hf.
      assert ((t1, res) = (t', Ok (mkKey id "" (kr_user_id row) (split_on "," (kr_permissions row) "") (kr_created_at row * Prelude.Second) None None (kr_revoked row)))) as Heq.
      { apply Hacc. split; [done|]. exists id, row. split_and!; try done. intros e He. by rewrite He in Hexp. }
      by injection Heq as -> ->.
Qed.

(** The key of [DemoKeys], before and after its expiry. *)
Lemma middleware_admits_witness :
  let req := mkAuthReq (generateRandomKey DemoKeys.raw) "" in
  (exists t' c, AuthMiddleware (fun _ _ => Err "no token") "s" false false (60 * Prelude.Second) 0 req DemoKeys.made.1 = (t', AuthNext c) /\
     ac_user_id c = 42) /\
  ~ (exists t' c, AuthMiddleware (fun _ _ => Err "no token") "s" false false (101 * Prelude.Second) 0 req DemoKeys.made.1 = (t', AuthNext c)).
Proof.
  intros req.
  assert (keys_wf DemoKeys.made.1) as Hwf.
  { unfold DemoKeys.made. apply create_wf. unfold DemoKeys.ops. cbn [foldl key_step]. eapply untouched_wf; [apply validate_rows..|]. apply create_wf, keys_start. }
  set (row := mkKeyRow (hashAPIKey (generateRandomKey DemoKeys.raw)) 42 "read,write" 50 (Some 100) None false).
  assert (kt_rows DemoKeys.made.1 !! 2 = Some row) as Hrow by (vm_compute; reflexivity).
  split.
  - eexists _, _. split; [apply (middleware_admits (fun _ _ => Err "no token") "s" false false (60 * Prelude.Second) 0 req DemoKeys.made.1); [exact Hwf|]|].
    + left. split; [discriminate|]. split; [reflexivity|]. exists 2, row. split; [|split; reflexivity].
      split; [exact Hrow|]. split; [reflexivity|]. split; [reflexivity|]. vm_compute. discriminate.
    + reflexivity.
  - intros (t' & c & E).
    destruct (proj1 (middleware_admits _ _ _ _ _ _ _ _ _ _ Hwf) E) as [(_ & _ & id & r & (Hr & Hh & _ & Hexp) & _)|(E' & _)]; [|discriminate E'].
    assert (id = 2) as ->. { apply (proj2 Hwf id 2 r row Hr Hrow). rewrite Hh. unfold row, req, hashAPIKey. cbn [kr_key_hash ar_XAPIKey]. reflexivity. }
    rewrite Hrow in Hr. injection Hr as <-. clear -Hexp. unfold row in Hexp. cbn [kr_expires_at] in Hexp. vm_compute in Hexp. by apply Hexp.
Defined.

(** ** The cache *)

Section CacheFacts.
Context {V : Type}.
Implicit Types (c : Cache V).

(** What happens to a cache, each at its time. *)
Inductive cache_op :=
| CSet (key : string) (v : V) (ttl : Z)
| CDelete (key : string)
| CClear
| CCleanup.

Definition is_cleanup (op : cache_op) : bool := match op with CCleanup => true | _ => false end.

Definition cache_step c (e : Z * cache_op) : Cache V :=
  match e.2 with
  | CSet key v ttl => SetWithTTL e.1 key v ttl c
  | CDelete key => CacheDelete key c
  | CClear => Clear c
  | CCleanup => cleanup e.1 c
  end.

(** Two caches that answer alike from a time on. *)
Definition alike (now : Z) c1 c2 : Prop :=
  forall k, ca_items c1 !! k = ca_items c2 !! k \/ ca_items c1 !! k = None /\ exists v e, ca_items c2 !! k = Some (v, e) /\ e < now.

Lemma alike_get now t c1 c2 k : alike now c1 c2 -> now <= t -> Get t k c1 = Get t k c2.
Proof.
  intros Ha Ht. unfold Get. destruct (Ha k) as [-> |(-> & v & e & -> & He)]; [done|]. cbn. by destruct (Z.ltb_spec e t); [|lia].
Qed.

Lemma alike_later now t c1 c2 : alike now c1 c2 -> now <= t -> alike t c1 c2.
Proof. intros Ha Ht k. destruct (Ha k) as [?|(? & v & e & ? & ?)]; [by left|right]. split; [done|]. exists v, e. split; [done|lia]. Qed.

Lemma alike_step now c1 c2 op : alike now c1 c2 -> is_cleanup op = false -> alike now (cache_step c1 (now, op)) (cache_step c2 (now, op)).
Proof.
  intros Ha Hop k. specialize (Ha k). destruct c1 as [m1 t1], c2 as [m2 t2], op as [key v ttl|key| |]; cbn in *; [| |by left|done].
  - destruct (decide (k = key)) as [->|Hk]; [left; by rewrite !lookup_insert_eq|]. by rewrite !lookup_insert_ne.
  - destruct (decide (k = key)) as [->|Hk]; [left; by rewrite !lookup_delete_eq|]. by rewrite !lookup_delete_ne.
Qed.

Lemma alike_cleanup now c1 c2 : alike now c1 c2 -> alike now (cleanup now c1) c2.
Proof.
  intros Ha k. specialize (Ha k). destruct c1 as [m1 t1], c2 as [m2 t2]. cbn in *.
  destruct Ha as [Ha|(Hn & v & e & He)].
  - destruct (m1 !! k) as [[v e]|] eqn:E.
    + destruct (Z.ltb_spec e now) as [Hl|Hl].
      * right. split; [|by exists v, e]. apply map_lookup_filter_None. right. intros x Hx. cbn. rewrite E in Hx. injection Hx as <-. cbn.
        apply Z.ltb_lt in Hl. congruence.
      * left. rewrite <- Ha. apply map_lookup_filter_Some. split; [done|]. cbn. by apply Z.ltb_ge.
    + left. rewrite <- Ha. apply map_lookup_filter_None. by left.
  - right. split; [|by exists v, e]. apply map_lookup_filter_None. by left.
Qed.

(** The cleanup changes no answer.  Whatever is set, deleted and cleared, and whenever the
    cleanup runs in between, a cache answers every key like one that never cleans
    up, as long as the clock does not go back. *)
Theorem cleanup_invisible c (log : list (Z * cache_op)) t k :
  StronglySorted Z.le (log.*1 ++ [t]) ->
  Get t k (foldl cache_step c log) = Get t k (foldl cache_step c (filter (fun e => is_cleanup e.2 = false) log)).
Proof.
  assert (forall log c1 c2 now, alike now c1 c2 -> Forall (Z.le now) (log.*1 ++ [t]) -> StronglySorted Z.le (log.*1 ++ [t]) ->
    Get t k (foldl cache_step c1 log) = Get t k (foldl cache_step c2 (filter (fun e => is_cleanup e.2 = false) log))) as Hgen.
  { clear. induction log as [|[u op] log IH]; intros c1 c2 now Ha Hf Hs.
    - apply alike_get with now; [done|]. by apply Forall_cons in Hf as [? _].
    - cbn [fmap list_fmap app] in Hf, Hs. apply Forall_cons in Hf as [Hnu _]. apply StronglySorted_inv in Hs as [Hs Hu]. cbn [fst] in *.
      pose proof (alike_later _ _ _ _ Ha Hnu) as Hau. cbn [foldl]. rewrite filter_cons. destruct (decide _) as [Hd|Hd]; cbn [snd] in Hd.
      + cbn [foldl]. apply (IH _ _ u); [by apply alike_step|done|done].
      + destruct op; try by destruct Hd. apply (IH _ _ u); [|done|done]. cbn [cache_step snd fst]. by apply alike_cleanup. }
  intros Hs. destruct log as [|[u op] log]; [done|]. apply (Hgen _ c c u); [intros ?; by left| |done].
  cbn [fmap list_fmap app fst] in *. apply StronglySorted_inv in Hs as [_ Hu]. by constructor.
Qed.
End CacheFacts.

Definition demo_cache : option (Cache Z) := NewCache 100.
Definition demo_cache_log : list (Z * cache_op (V := Z)) :=
  [(0, CSet "a" 1 10); (5, CSet "b" 2 100); (12, CCleanup); (13, CDelete "c"); (14, CCleanup)].

Lemma cleanup_invisible_witness :
  Get 20 "b" (foldl cache_step (mkCache ∅ 100) demo_cache_log) = Some 2.
Proof.
  rewrite (cleanup_invisible (mkCache ∅ 100) demo_cache_log 20 "b"); [vm_compute; reflexivity|].
  cbn. repeat constructor; lia.
Defined.

(** The cleanup of a cache with less than two nanoseconds has no interval. *)
Example tiny_ttl_panics : NewCache (V := Z) 1 = None.
Proof. reflexivity. Qed.

(** ** The worker pool *)

(** Where the goroutines are, against the channel and the wait group. *)
Definition pool_inv (capacity : Z) (p : WorkerPool) : Prop :=
  Capacity p = capacity /\ po_sem p = (po_entering p + po_running p + po_releasing p)%nat /\
  po_wg p = (po_running p + po_releasing p + po_leaving p)%nat /\ (po_sem p <= po_cap p)%nat.

Lemma drain_step_inv capacity p p' : pool_inv capacity p -> drain_step p p' -> pool_inv capacity p'.
Proof.
  intros Hi Hs. unfold pool_inv, Capacity in *.
  destruct Hs as [p p' Hs|p n E|p n k E1 E2|p n k E1 E2]; destruct p as [cap' sem' wg' ent' run' rel' lv']; cbn in *; [|lia..].
  revert Hs. unfold enter_pool. cbn. destruct ent'; [done|]. intros [= <-]. cbn. lia.
Qed.

Lemma pool_step_inv capacity p p' : pool_inv capacity p -> pool_step p p' -> pool_inv capacity p'.
Proof.
  intros Hi Hps. destruct Hps as [q q' Hs|q q' Hs]; [|exact (drain_step_inv _ _ _ Hi Hs)]. revert Hs. unfold take_slot, pool_inv, Capacity in *.
  destruct (Nat.ltb_spec (po_sem q) (po_cap q)); [|done]. intros [= <-]. destruct q. cbn in *. lia.
Qed.

Lemma pool_reached capacity p0 p : NewWorkerPool capacity = Some p0 -> rtc pool_step p0 p -> 0 <= capacity /\ pool_inv capacity p.
Proof.
  unfold NewWorkerPool. destruct (Z.ltb_spec capacity 0); [done|]. intros [= <-] Hr. split; [done|].
  assert (pool_inv capacity (mkPool (Z.to_nat capacity) 0 0 0 0 0 0)) as Hi by (unfold pool_inv, Capacity; cbn; lia).
  induction Hr as [|a b c Hs _ IH]; [done|]. apply IH. by eapply pool_step_inv.
Qed.

(** The steps that are still to come. *)
Definition pool_work (p : WorkerPool) : nat := (4 * po_entering p + 3 * po_running p + 2 * po_releasing p + po_leaving p)%nat.

Lemma drain_step_less p p' : drain_step p p' -> (pool_work p' < pool_work p)%nat.
Proof.
  intros Hs. unfold pool_work. destruct Hs as [p p' Hs|p n E|p n k E1 E2|p n k E1 E2]; destruct p as [cap' sem' wg' ent' run' rel' lv']; cbn in *; [|lia..].
  revert Hs. unfold enter_pool. cbn. destruct ent'; [done|]. intros [= <-]. cbn. lia.
Qed.

Lemma drain_goes_on capacity p : pool_inv capacity p -> pool_work p = 0%nat \/ exists p', drain_step p p'.
Proof.
  intros (_ & H2 & H3 & _). unfold pool_work. destruct p as [cap sem wg ent run rel lv]. cbn in *.
  destruct ent as [|ent]; [|right; eexists; by apply pool_enter].
  destruct run as [|run]; [|right; eexists; by apply (pool_return _ run)].
  destruct rel as [|rel]; [|right; destruct sem as [|sem]; [lia|]; eexists; by apply (pool_release _ rel sem)].
  destruct lv as [|lv]; [by left|right]. destruct wg as [|wg]; [lia|]. eexists. by apply (pool_done _ lv wg).
Qed.

(** [C38] The pool is bounded and comes to rest.  A pool of a capacity that is not negative can
    be made.  In every state it can reach, no more tasks run than the capacity, a
    submission without waiting succeeds exactly when a slot is free, [Active] is the number of
    slots taken and at most the capacity, and when [Wait] returns no task runs.  If the tasks
    return and nothing more is submitted, every step leaves less to do, so that there are at
    most [pool_work] more of them; and wherever no step is left, [Wait] returns, no task runs
    and all slots are free. *)
Theorem pool_bounded capacity p0 p :
  NewWorkerPool capacity = Some p0 -> rtc pool_step p0 p ->
  Z.of_nat (po_running p) <= capacity /\ ((TrySubmit p).2 = true <-> Active p < capacity) /\ 0 <= Active p <= capacity /\
  (Waited p = true -> po_running p = 0%nat) /\
  (forall n p', nsteps drain_step n p p' ->
     (n + pool_work p' <= pool_work p)%nat /\
     ((forall p'', ~ drain_step p' p'') -> Waited p' = true /\ po_running p' = 0%nat /\ Active p' = 0)).
Proof.
  intros Hn Hr. destruct (pool_reached _ _ _ Hn Hr) as [H0 Hi]. clear Hn Hr p0. split; [|split; [|split; [|split]]].
  5: { intros n p' Hs. assert (pool_inv capacity p' /\ (n + pool_work p' <= pool_work p)%nat) as [Hi' Hw].
       { induction Hs as [|n x y z Hxy _ IH]; [done|]. destruct IH as [??]; [by eapply drain_step_inv|].
         apply drain_step_less in Hxy. split; [done|lia]. }
       split; [done|]. intros Hend. destruct (drain_goes_on _ _ Hi') as [Hz|[q Hq]]; [|by destruct (Hend q)].
       destruct Hi' as (_ & E1 & E2 & _). unfold pool_work, Waited, Active in *.
       split; [apply Nat.eqb_eq; lia|lia]. }
  all: destruct Hi as (H1 & H2 & H3 & H4); destruct p as [cap sem wg ent run rel lv];
    unfold TrySubmit, take_slot, Active, Capacity, Waited in *; cbn [po_cap po_sem po_wg po_entering po_running po_releasing po_leaving] in *; try lia.
  - destruct (Nat.ltb_spec sem cap); cbn; (split; (done || lia)).
  - intros E%Nat.eqb_eq. lia.
Qed.

Lemma pool_bounded_witness :
  let p := mkPool 2 1 2 0 0 1 1 in Z.of_nat (po_running p) <= 2 /\ (TrySubmit p).2 = true.
Proof.
  destruct (pool_bounded 2 (mkPool 2 0 0 0 0 0 0) (mkPool 2 1 2 0 0 1 1)) as (H1 & H2 & _).
  - reflexivity.
  - eapply rtc_l; [apply pool_take; reflexivity|]. eapply rtc_l; [apply pool_take; reflexivity|].
    eapply rtc_l; [apply pool_drain, pool_enter; reflexivity|]. eapply rtc_l; [apply pool_drain, pool_enter; reflexivity|].
    eapply rtc_l; [apply pool_drain, (pool_return _ 1); reflexivity|]. eapply rtc_l; [apply pool_drain, (pool_return _ 0); reflexivity|].
    eapply rtc_l; [apply pool_drain, (pool_release _ 1 1); reflexivity|]. apply rtc_refl.
  - split; [exact H1|]. apply H2. reflexivity.
Defined.

(** [Wait] can return while a submission has its slot and is not in the wait group yet. *)
Example wait_overtakes :
  exists p, rtc pool_step (mkPool 1 0 0 0 0 0 0) p /\ Waited p = true /\ Active p = 1 /\
    exists p', drain_step p p' /\ po_running p' = 1%nat.
Proof.
  eexists. split; [eapply rtc_l; [apply pool_take; reflexivity|apply rtc_refl]|]. split; [done|]. split; [done|].
  eexists. split; [by apply pool_enter|done].
Qed.

(** ** Thresholds, peers and gauges *)

(** Once relaxed for a large population, the threshold stays relaxed for a population of
    medium size: there is no way back to the default. *)
Example threshold_sticks :
  let ad := poll_thresholds (Some 60000) NewAnomalyDetector in
  ad_maxAnnounceRate NewAnomalyDetector = 100 /\ ad_maxAnnounceRate ad = 125 /\ ad_maxAnnounceRate (poll_thresholds (Some 20000) ad) = 125.
Proof. done. Qed.

(** The best peers are so many as are wanted and there are, from those given. *)
Lemma SelectBest_spec sortSlice clock peers ip n :
  (forall l, sortSlice l ≡ₚ l) -> 0 <= n ->
  exists best rest, SelectBest sortSlice clock peers ip n = Some best /\ best ++ rest ≡ₚ peers /\ Z.of_nat (length best) = Z.min n (Z.of_nat (length peers)).
Proof.
  intros Hs Hn. unfold SelectBest. set (scored := sortSlice _).
  assert (scored.*1 ≡ₚ peers) as Hp.
  { unfold scored. rewrite Hs, <- list_fmap_compose. rewrite (list_fmap_ext _ id); [by rewrite list_fmap_id|].
    intros i x _. cbn. by destruct (clock x) as [[??]?]. }
  assert (length scored = length peers) as Hl by (rewrite <- Hp; by rewrite length_fmap).
  destruct (Z.ltb_spec (Z.min n (Z.of_nat (length scored))) 0); [lia|].
  set (m := Z.to_nat (Z.min n (Z.of_nat (length scored)))). exists (take m scored).*1, (drop m scored).*1.
  split; [done|]. split; [rewrite <- fmap_app, take_drop; done|]. rewrite length_fmap, length_take. unfold m. lia.
Qed.

Lemma count_nodes l g :
  let g' := foldl count_node g l in
  g_nodeTotal g' - g_nodeTotal g = Z.of_nat (length l) /\
  g_nodeTotal g' - (g_nodeReachable g' + g_nodeFlapping g' + g_nodeUnreachable g') = g_nodeTotal g - (g_nodeReachable g + g_nodeFlapping g + g_nodeUnreachable g).
Proof.
  revert g. induction l as [|n l IH]; intros g; [cbn; lia|]. cbn [foldl length]. destruct (IH (count_node g n)) as [H1 H2].
  destruct g as [a b c d e f h]. unfold count_node in *. cbn in *. destruct (ni_ReachState n); cbn in *; lia.
Qed.

Lemma count_replicas_nodes (l : list (replicaKey * NodeReplica)) g :
  let g' := foldl count_replica g l in
  g_nodeTotal g' = g_nodeTotal g /\ g_nodeReachable g' = g_nodeReachable g /\ g_nodeFlapping g' = g_nodeFlapping g /\
  g_nodeUnreachable g' = g_nodeUnreachable g /\ g_artifactCount g' = g_artifactCount g /\
  g_replicaSeeding g' + g_replicaVerified g' - (g_replicaSeeding g + g_replicaVerified g) =
    Z.of_nat (length (filter (fun kr => r_State kr.2 = ReplicaStateSeeding \/ r_State kr.2 = ReplicaStateVerified) l)).
Proof.
  revert g. induction l as [|kr l IH]; intros g; [cbn; lia|]. cbn [foldl]. destruct (IH (count_replica g kr)) as (H1 & H2 & H3 & H4 & H5 & H6).
  rewrite filter_cons. destruct g as [a b c d e f h]. unfold count_replica in *.
  destruct (r_State kr.2) eqn:Es; cbn in *; (destruct (decide _) as [Hd|Hd]; [|try tauto]); try (destruct Hd; congruence); cbn [length]; split_and!; try done; lia.
Qed.

(** Every node is counted in exactly one state, and every artifact once. *)
Lemma gauges_add_up norder aorder rorder r m al :
  (forall l, norder l ≡ₚ map_to_list l) -> (forall l, aorder l ≡ₚ map_to_list l) ->
  let g := swarmGauges norder aorder rorder (Some r) (Some m) (Some al) in
  g_nodeTotal g = Z.of_nat (size (nr_nodes r)) /\ g_nodeTotal g = g_nodeReachable g + g_nodeFlapping g + g_nodeUnreachable g /\
  g_artifactCount g = Z.of_nat (size al).
Proof.
  intros Hn Ha. unfold swarmGauges. destruct (count_nodes (norder (nr_nodes r)).*2 zeroGauges) as [H1 H2].
  assert (g_artifactCount (foldl count_node zeroGauges (norder (nr_nodes r)).*2) = 0) as H3.
  { assert (forall l g, g_artifactCount (foldl count_node g l) = g_artifactCount g) as Hc; [|by rewrite Hc].
    induction l as [|n l IH]; intros g; [done|]. cbn [foldl]. rewrite IH. unfold count_node. destruct g. cbn. by destruct (ni_ReachState n). }
  set (g := foldl count_node _ _) in *.
  assert (forall l g, let g' := foldl (count_artifact rorder m) g l in
    g_nodeTotal g' = g_nodeTotal g /\ g_nodeReachable g' = g_nodeReachable g /\ g_nodeFlapping g' = g_nodeFlapping g /\
    g_nodeUnreachable g' = g_nodeUnreachable g /\ g_artifactCount g' = g_artifactCount g + Z.of_nat (length l)) as Hart.
  { clear. induction l as [|h l IH]; intros g; [cbn; lia|]. cbn [foldl length]. destruct (IH (count_artifact rorder m g h)) as (E1 & E2 & E3 & E4 & E5).
    destruct (count_replicas_nodes (ForHash rorder h m) (g {{ g_artifactCount ::= Z.succ }})) as (F1 & F2 & F3 & F4 & F5 & _).
    unfold count_artifact in *. destruct g. cbn in *. lia. }
  destruct (Hart (aorder al).*1 g) as (E1 & E2 & E3 & E4 & E5).
  assert (length (norder (nr_nodes r)).*2 = size (nr_nodes r)) as L1 by (by rewrite length_fmap, Hn, length_map_to_list).
  assert (length (aorder al).*1 = size al) as L2 by (by rewrite length_fmap, Ha, length_map_to_list).
  rewrite L1 in H1. rewrite L2 in E5. cbn in H1, H2. lia.
Qed.
