(* ===== verification/MarkovChain.v ===== *)
(** * Markov chains (markov/internal/chain)

    The chain with its counts, in the float64 arithmetic of [GoFloat], and the
    classification of peers, users and torrents into its states.  [None] is an
    index out of range; the theorems say that it does not happen.

    Every chain that the operations can make is square, and on a square chain no
    operation leaves the bounds of a slice. *)
From S2P Require Import Prelude GoFloat.
Open Scope list_scope.
Open Scope Z_scope.

Abbreviation matrix := (list (list float64)).

Record Chain := mkChain { ch_n : nat; ch_counts : matrix; ch_decay : float64 }.

Definition f0 : float64 := of_int 0.
Definition f1 : float64 := of_int 1.
Definition chainEpsilon : float64 := flit 1 1000000.
Definition tiny : float64 := flit 1 1000000000000.

Definition NewChain (n : nat) (decay : float64) : Chain := mkChain n (replicate n (replicate n f1)) decay.

Definition get2 (a : matrix) (i j : nat) : option float64 := row ← a !! i; row !! j.

Definition Observe (from to : Z) (c : Chain) : option Chain :=
  if (from <? 0) || (Z.of_nat (ch_n c) <=? from) || (to <? 0) || (Z.of_nat (ch_n c) <=? to) then Some c
  else
    row ← ch_counts c !! Z.to_nat from;
    x ← row !! Z.to_nat to;
    Some (c {{ ch_counts := <[Z.to_nat from := <[Z.to_nat to := fadd x f1]> row]> (ch_counts c) }}).

Definition fsum (l : list float64) : float64 := foldl fadd f0 l.

(** One row of [P]: entries that the counts do not have stay zero until the end. *)
Definition P_row (n : nat) (row : list float64) : option (list float64) :=
  if (n <? length row)%nat then None
  else
    let sum := fsum row in
    let p := (fun x => fadd (fdiv x sum) chainEpsilon) <$> row in
    let newSum := fsum p in
    Some ((fun x => fdiv x newSum) <$> (p ++ replicate (n - length row) f0)).

Definition P (c : Chain) : option matrix := mapM (fun i => ch_counts c !! i ≫= P_row (ch_n c)) (seq 0 (ch_n c)).

(** [tmp] after row [i] of one step of the distribution. *)
Definition step_row (tmp : list float64) (xr : float64 * list float64) : list float64 :=
  if feqb xr.1 f0 then tmp else zip_with (fun t q => fadd t (fmul xr.1 q)) tmp xr.2.

Definition step_once (n : nat) (p : matrix) (cur : list float64) : list float64 :=
  foldl step_row (replicate n f0) (zip cur p).

Definition StepChain (pi : list float64) (k : Z) (c : Chain) : option (list float64) :=
  p ← P c; Some (Nat.iter (Z.to_nat k) (step_once (ch_n c) p) (resize (ch_n c) f0 pi)).

Definition Entropy (pi : list float64) : float64 :=
  foldl (fun h p => if fltb tiny p then fsub h (fmul p (Log2 p)) else h) f0 pi.

Definition MaxEntropy (n : Z) : float64 := Log2 (of_int n).

Definition index (z : Z) : option nat := if z <? 0 then None else Some (Z.to_nat z).

Fixpoint path_nll (p : matrix) (nll : float64) (path : list Z) : option float64 :=
  match path with
  | a :: ((b :: _) as rest) =>
      i ← index a; j ← index b; prob ← get2 p i j;
      if fltb prob tiny then Some (SpecFloat.S754_infinity false) else path_nll p (fsub nll (Log prob)) rest
  | _ => Some nll
  end.

Definition PathLogLikelihood (path : list Z) (c : Chain) : option float64 :=
  if (length path <? 2)%nat then Some f0 else p ← P c; path_nll p f0 path.

Definition Decay (c : Chain) : Chain := c {{ ch_counts := (fun row : list float64 => (fun x => fmul x (ch_decay c)) <$> row) <$> ch_counts c }}.

Definition Counts (c : Chain) : option matrix := mapM (fun i => resize (ch_n c) f0 <$> ch_counts c !! i) (seq 0 (ch_n c)).

(** The first entries of a row are replaced; at most [n]. *)
Definition load_row (n : nat) (new row : list float64) : option (list float64) :=
  let k := Nat.min n (length new) in
  if (length row <? k)%nat then None else Some (take k new ++ drop k row).

Fixpoint load_rows (n : nat) (new counts : matrix) : option matrix :=
  match new, counts with
  | r :: new, row :: counts => row' ← load_row n r row; rest ← load_rows n new counts; Some (row' :: rest)
  | [], _ => Some counts
  | _ :: _, [] => None
  end.

Definition LoadCounts (new : matrix) (c : Chain) : option Chain :=
  counts ← load_rows (ch_n c) (take (ch_n c) new) (ch_counts c); Some (c {{ ch_counts := counts }}).

(** ** Linear systems *)

Definition fabs (x : float64) : float64 := SpecFloat.SFabs x.
Definition fneg (x : float64) : float64 := SpecFloat.SFopp x.

Definition identityMinus (q : matrix) : matrix :=
  imap (fun i row => imap (fun j x => if decide (i = j) then fsub f1 x else fneg x) row) q.

Definition ones (m : nat) : list float64 := replicate m f1.

(** The row of the largest entry of a column, from the diagonal down. *)
Fixpoint pivot_from (aug : matrix) (col best : nat) (rows : list nat) : option nat :=
  match rows with
  | [] => Some best
  | row :: rows =>
      x ← get2 aug row col; y ← get2 aug best col;
      pivot_from aug col (if fltb (fabs y) (fabs x) then row else best) rows
  end.

(** Entries of a row from a column on, by an entry of the pivot row. *)
Definition from_col (col : nat) (f : float64 -> float64 -> float64) (row prow : list float64) : list float64 :=
  take col row ++ zip_with f (drop col row) (drop col prow).

Definition clear_row (col : nat) (prow : list float64) (k : nat) (row : list float64) : option (list float64) :=
  if (k =? col)%nat then Some row
  else
    factor ← row !! col;
    if feqb factor f0 then Some row else Some (from_col col (fun x y => fsub x (fmul factor y)) row prow).

Definition eliminate (m : nat) (aug : matrix) (col : nat) : option matrix :=
  pivot ← pivot_from aug col col (seq (S col) (m - S col));
  rc ← aug !! col;
  rp ← aug !! pivot;
  let aug := <[pivot := rc]> (<[col := rp]> aug) in
  x ← get2 aug col col;
  if fltb (fabs x) tiny then Some aug
  else
    let scale := fdiv f1 x in
    prow ← (fun r => from_col col (fun a _ => fmul a scale) r r) <$> aug !! col;
    let aug := <[col := prow]> aug in
    mapM (fun kr => clear_row col prow kr.1 kr.2) (imap pair aug).

Definition augment (m : nat) (a : matrix) (b : list float64) : option matrix :=
  mapM (fun i => row ← a !! i; x ← b !! i; Some (resize m f0 row ++ [x])) (seq 0 m).

Fixpoint eliminate_all (m : nat) (cols : list nat) (aug : matrix) : option matrix :=
  match cols with
  | [] => Some aug
  | col :: cols => aug ← eliminate m aug col; eliminate_all m cols aug
  end.

Definition solveLinear (a : matrix) (b : list float64) (m : nat) : option (list float64) :=
  aug ← augment m a b; aug ← eliminate_all m (seq 0 m) aug; mapM (fun i => get2 aug i m) (seq 0 m).

(** A chain without states panics when the slice of transient states is made. *)
Definition ExpectedAbsorptionSteps (abs : Z) (c : Chain) : option (list float64) :=
  p ← P c;
  if (ch_n c =? 0)%nat then None
  else
    let transient := List.filter (fun i => negb (Z.of_nat i =? abs)) (seq 0 (ch_n c)) in
    let m := length transient in
    if (m =? 0)%nat then Some (replicate (ch_n c) f0)
    else
      q ← mapM (fun i => mapM (fun j => get2 p i j) transient) transient;
      t ← solveLinear (identityMinus q) (ones m) m;
      Some (foldl (fun r it => <[it.1 := it.2]> r) (replicate (ch_n c) f0) (zip transient t)).

(** ** States *)

Definition PeerLeeching := 0.
Definition PeerSeeding := 1.
Definition PeerDormant := 2.
Definition PeerSnatched := 3.
Definition PeerDead := 4.
Definition UserSurplus := 0.
Definition UserHealthy := 1.
Definition UserMarginal := 2.
Definition UserDeficit := 3.
Definition UserSevereDeficit := 4.
Definition TorrentThriving := 0.
Definition TorrentHealthy := 1.
Definition TorrentAtRisk := 2.
Definition TorrentDying := 3.
Definition TorrentUnavailable := 4.
Definition NumStates : nat := 5.

Definition TorrentHealthState (seeders leechers : Z) : Z :=
  let ratio_at_least x := (leechers =? 0) || fleb x (fdiv (of_int seeders) (of_int leechers)) in
  if (seeders =? 0) && (leechers =? 0) then TorrentUnavailable
  else if seeders =? 0 then TorrentDying
  else if seeders <=? 2 then TorrentAtRisk
  else if (3 <=? seeders) && ratio_at_least (flit 1 2) then
    if (10 <=? seeders) && ratio_at_least (of_int 2) then TorrentThriving else TorrentHealthy
  else TorrentHealthy.

Definition UserRatioState (uploaded downloaded : Z) : Z :=
  if downloaded =? 0 then if 0 <? uploaded then UserSurplus else UserSevereDeficit
  else
    let ratio := fdiv (of_int uploaded) (of_int downloaded) in
    if fleb (of_int 2) ratio then UserSurplus
    else if fleb (flit 6 10) ratio then UserHealthy
    else if fleb (flit 3 10) ratio then UserMarginal
    else if fleb (flit 1 10) ratio then UserDeficit
    else UserSevereDeficit.

Definition PeerActivityState (active : bool) (remaining mtime nowUnix peersTimeout : Z) : Z :=
  if active then if remaining =? 0 then PeerSeeding else PeerLeeching
  else if i64 (nowUnix - mtime) <? peersTimeout then PeerDormant else PeerDead.

(** * Theorems on chains *)

(** ** Shapes *)

Definition shape (n m : nat) (a : matrix) : Prop := length a = n /\ Forall (fun row => length row = m) a.
Definition square (c : Chain) : Prop := shape (ch_n c) (ch_n c) (ch_counts c).

Lemma shape_row n m a i : shape n m a -> (i < n)%nat -> exists row, a !! i = Some row /\ length row = m.
Proof.
  intros [<- Ha] Hi. destruct (lookup_lt_is_Some_2 a i Hi) as [row Hr]. exists row. split; [done|]. by eapply Forall_lookup_1 in Ha.
Qed.

Lemma shape_get2 n m a i j : shape n m a -> (i < n)%nat -> (j < m)%nat -> exists x, get2 a i j = Some x.
Proof.
  intros Ha Hi Hj. destruct (shape_row n m a i Ha Hi) as (row & Hr & <-). destruct (lookup_lt_is_Some_2 row j Hj) as [x Hx].
  exists x. unfold get2. by rewrite Hr.
Qed.

Lemma shape_insert n m a i row : shape n m a -> length row = m -> shape n m (<[i := row]> a).
Proof. intros [Hl Ha] Hr. split; [by rewrite length_insert|]. by apply Forall_insert. Qed.

Lemma mapM_total {A B} (f : A -> option B) (Q : B -> Prop) (l : list A) :
  Forall (fun x => exists y, f x = Some y /\ Q y) l -> exists l', mapM f l = Some l' /\ length l' = length l /\ Forall Q l'.
Proof.
  induction 1 as [|x l (y & Hy & Hq) _ (l' & Hl' & Hlen & Hall)]; [by exists []|].
  exists (y :: l'). cbn. rewrite Hy. cbn. rewrite Hl'. cbn. split; [done|]. split; [by f_equal|by constructor].
Qed.

Lemma seq_total {B} (f : nat -> option B) (Q : B -> Prop) (n : nat) :
  (forall i, (i < n)%nat -> exists y, f i = Some y /\ Q y) -> exists l, mapM f (seq 0 n) = Some l /\ length l = n /\ Forall Q l.
Proof.
  intros Hf. destruct (mapM_total f Q (seq 0 n)) as (l & H1 & H2 & H3).
  - apply Forall_forall. intros i Hi%elem_of_seq. apply Hf. lia.
  - exists l. split; [done|]. split; [|done]. by rewrite H2, length_seq.
Qed.

(** ** Operations *)

Lemma New_square n d : square (NewChain n d).
Proof. split; cbn; [by rewrite length_replicate|]. apply Forall_replicate, length_replicate. Qed.

Lemma Observe_square from to c : square c -> exists c', Observe from to c = Some c' /\ square c' /\ ch_n c' = ch_n c.
Proof.
  intros Hc. unfold Observe. destruct (_ || _ || _ || _) eqn:E; [by exists c|].
  apply orb_false_iff in E as [[[E1%Z.ltb_ge E2%Z.leb_gt]%orb_false_iff E3%Z.ltb_ge]%orb_false_iff E4%Z.leb_gt].
  destruct (shape_row _ _ _ (Z.to_nat from) Hc ltac:(lia)) as (row & Hr & Hl). rewrite Hr. cbn.
  destruct (lookup_lt_is_Some_2 row (Z.to_nat to) ltac:(lia)) as [x Hx]. rewrite Hx. cbn. eexists. split; [done|].
  destruct c as [n counts d]. split; [|done]. apply shape_insert; [done|]. by rewrite length_insert.
Qed.

Lemma Decay_square c : square c -> square (Decay c).
Proof.
  destruct c as [n counts d]. intros [Hl Ha]. split; cbn in *; [by rewrite length_fmap|].
  apply Forall_fmap. eapply Forall_impl; [exact Ha|]. intros row Hr. cbn. by rewrite length_fmap.
Qed.

Lemma load_row_ok n new row : length row = n -> exists row', load_row n new row = Some row' /\ length row' = n.
Proof.
  intros Hl. unfold load_row. destruct (Nat.ltb_spec (length row) (Nat.min n (length new))); [lia|].
  eexists. split; [done|]. rewrite length_app, length_take, length_drop. lia.
Qed.

Lemma load_rows_ok n new counts :
  (length new <= length counts)%nat -> Forall (fun row => length row = n) counts ->
  exists counts', load_rows n new counts = Some counts' /\ length counts' = length counts /\ Forall (fun row => length row = n) counts'.
Proof.
  revert counts. induction new as [|r new IH]; intros counts Hl Ha; [by exists counts; destruct counts|].
  destruct counts as [|row counts]; [cbn in Hl; lia|]. apply Forall_cons in Ha as [Hr Ha]. cbn in Hl.
  destruct (load_row_ok n r row Hr) as (row' & E & Hr'). destruct (IH counts ltac:(lia) Ha) as (counts' & E' & Hl' & Ha').
  exists (row' :: counts'). cbn. rewrite E. cbn. rewrite E'. cbn. split; [done|]. split; [by f_equal|by constructor].
Qed.

Lemma LoadCounts_square new c : square c -> exists c', LoadCounts new c = Some c' /\ square c' /\ ch_n c' = ch_n c.
Proof.
  intros [Hl Ha]. unfold LoadCounts. destruct (load_rows_ok (ch_n c) (take (ch_n c) new) (ch_counts c)) as (counts & E & Hl' & Ha').
  - rewrite length_take. lia.
  - done.
  - rewrite E. cbn. eexists. split; [done|]. destruct c. cbn in *. by rewrite Hl in Hl'.
Qed.

Lemma P_square c : square c -> exists p, P c = Some p /\ shape (ch_n c) (ch_n c) p.
Proof.
  intros Hc. unfold P. destruct (seq_total (fun i => ch_counts c !! i ≫= P_row (ch_n c)) (fun row => length row = ch_n c) (ch_n c)) as (p & E & Hl & Ha).
  - intros i Hi. destruct (shape_row _ _ _ i Hc Hi) as (row & Hr & Hlen). rewrite Hr. cbn. unfold P_row.
    destruct (Nat.ltb_spec (ch_n c) (length row)); [lia|]. eexists. split; [done|].
    rewrite length_fmap, length_app, length_fmap, length_replicate. lia.
  - by exists p.
Qed.

(** Saving the counts loses nothing. *)
Lemma Counts_all c : square c -> Counts c = Some (ch_counts c).
Proof.
  intros Hc. unfold Counts. destruct (seq_total (fun i => resize (ch_n c) f0 <$> ch_counts c !! i) (fun _ => True) (ch_n c)) as (l & E & Hl & _).
  - intros i Hi. destruct (shape_row _ _ _ i Hc Hi) as (row & Hr & _). rewrite Hr. by eexists.
  - rewrite E. f_equal. apply list_eq. intros i. apply mapM_Some_1 in E. destruct (decide (i < ch_n c)%nat) as [Hi|Hi].
    + destruct (shape_row _ _ _ i Hc Hi) as (row & Hr & Hlen). rewrite Hr.
      destruct (Forall2_lookup_l _ _ _ i i E) as (row' & Hr' & Heq); [by apply lookup_seq_lt|]. rewrite Hr'.
      rewrite Hr in Heq. cbn in Heq. injection Heq as <-. f_equal. rewrite <- Hlen. apply resize_all.
    + rewrite !lookup_ge_None_2; [done|destruct Hc; lia|lia].
Qed.

Lemma load_row_same n row : length row = n -> forall row', length row' = n -> load_row n row row' = Some row.
Proof.
  intros Hl row' Hl'. unfold load_row. rewrite Hl, Hl', Nat.min_id, Nat.ltb_irrefl, take_ge, drop_ge, app_nil_r by lia. done.
Qed.

Lemma load_rows_same n a b : shape n n a -> forall m, length a = length b -> Forall (fun row => length row = m) b -> m = n -> load_rows n a b = Some a.
Proof.
  intros [_ Ha] m Hl Hb ->. revert b Hl Hb. induction Ha as [|row a Hrow Ha IH]; intros [|row' b] Hl Hb; try done.
  apply Forall_cons in Hb as [Hrow' Hb]. cbn. rewrite (load_row_same n row Hrow row' Hrow'). cbn. rewrite IH; [done|by injection Hl|done].
Qed.

(** Saved counts, loaded into a new chain, are the counts that were saved. *)
Lemma saved_loads c d : square c -> LoadCounts (ch_counts c) (NewChain (ch_n c) d) = Some (c {{ ch_decay := d }}).
Proof.
  intros Hc. unfold LoadCounts. cbn [NewChain ch_n ch_counts]. rewrite take_ge by (destruct Hc; lia).
  rewrite (load_rows_same (ch_n c) (ch_counts c) _ Hc (ch_n c)); [by destruct c|rewrite length_replicate; by destruct Hc|apply Forall_replicate, length_replicate|done].
Qed.

(** ** Distributions and paths *)

Lemma step_once_length n p cur : Forall (fun row => length row = n) p -> length (step_once n p cur) = n.
Proof.
  intros Hp. unfold step_once. assert (length (replicate n f0) = n) as Hl by apply length_replicate.
  revert Hl. generalize (replicate n f0). revert cur. induction Hp as [|row p Hr Hp IH]; intros [|x cur] tmp Hl; try done.
  cbn [zip zip_with foldl]. apply IH. unfold step_row. cbn [fst snd]. destruct (feqb x f0); [done|]. rewrite length_zip_with. lia.
Qed.

Lemma Step_square pi k c : square c -> exists v, StepChain pi k c = Some v /\ length v = ch_n c.
Proof.
  intros Hc. unfold StepChain. destruct (P_square c Hc) as (p & -> & _ & Hp). cbn. eexists. split; [done|].
  induction (Z.to_nat k) as [|m IH]; cbn; [apply length_resize|by apply step_once_length].
Qed.

Lemma path_defined n p path nll :
  shape n n p -> Forall (fun x => 0 <= x < Z.of_nat n) path -> exists x, path_nll p nll path = Some x.
Proof.
  intros Hp. revert nll. induction path as [|a path IH]; intros nll Hall; [by eexists|]. destruct path as [|b path]; [by eexists|].
  apply Forall_cons in Hall as [Ha Hall]. pose proof Hall as [Hb _]%Forall_cons.
  change (path_nll p nll (a :: b :: path)) with
    (i ← index a; j ← index b; prob ← get2 p i j; if fltb prob tiny then Some (SpecFloat.S754_infinity false) else path_nll p (fsub nll (Log prob)) (b :: path)).
  unfold index. rewrite (proj2 (Z.ltb_ge a 0)), (proj2 (Z.ltb_ge b 0)) by lia. cbn [mbind option_bind].
  destruct (shape_get2 n n p (Z.to_nat a) (Z.to_nat b) Hp) as [x ->]; [lia..|]. cbn [mbind option_bind]. destruct (fltb x tiny); [by eexists|]. by apply IH.
Qed.

Lemma Path_square path c : square c -> Forall (fun x => 0 <= x < Z.of_nat (ch_n c)) path -> exists x, PathLogLikelihood path c = Some x.
Proof.
  intros Hc Hall. unfold PathLogLikelihood. destruct (length path <? 2)%nat; [by eexists|].
  destruct (P_square c Hc) as (p & -> & Hp). cbn. by apply (path_defined (ch_n c)).
Qed.

(** ** Elimination *)

Lemma pivot_defined m k aug col best rows :
  shape m k aug -> (col < k)%nat -> (best < m)%nat -> Forall (fun r => r < m)%nat rows -> exists p, pivot_from aug col best rows = Some p /\ (p < m)%nat.
Proof.
  intros Ha Hc. revert best. induction rows as [|r rows IH]; intros best Hb Hall; [by eexists|]. apply Forall_cons in Hall as [Hr Hall]. cbn.
  destruct (shape_get2 m k aug r col Ha Hr Hc) as [x ->]. destruct (shape_get2 m k aug best col Ha Hb Hc) as [y ->]. cbn.
  apply IH; [|done]. by destruct (fltb _ _).
Qed.

Lemma from_col_length col f row prow : length prow = length row -> length (from_col col f row prow) = length row.
Proof. intros Hl. unfold from_col. rewrite length_app, length_take, length_zip_with, !length_drop. lia. Qed.

Lemma clear_row_defined k col prow i row :
  (col < k)%nat -> length prow = k -> length row = k -> exists row', clear_row col prow i row = Some row' /\ length row' = k.
Proof.
  intros Hc Hp Hr. unfold clear_row. destruct (i =? col)%nat; [by eexists|].
  destruct (lookup_lt_is_Some_2 row col ltac:(lia)) as [x ->]. cbn [mbind option_bind fmap option_fmap option_map]. destruct (feqb x f0); [by eexists|].
  eexists. split; [done|]. rewrite from_col_length; lia.
Qed.

Lemma imap_pair_rows m k (aug : matrix) : shape m k aug -> Forall (fun kr : nat * list float64 => length kr.2 = k) (imap pair aug).
Proof.
  intros [_ Ha]. apply Forall_lookup_2. intros i kr Hi. rewrite list_lookup_imap in Hi. apply fmap_Some in Hi as (row & Hr & ->).
  by eapply Forall_lookup_1 in Ha.
Qed.

Lemma eliminate_defined m k aug col : shape m k aug -> (col < m)%nat -> (col < k)%nat -> exists aug', eliminate m aug col = Some aug' /\ shape m k aug'.
Proof.
  intros Ha Hm Hk. unfold eliminate. destruct (pivot_defined m k aug col col (seq (S col) (m - S col)) Ha Hk Hm) as (piv & -> & Hp).
  { apply Forall_forall. intros r Hr%elem_of_seq. lia. }
  cbn [mbind option_bind fmap option_fmap option_map]. destruct (shape_row m k aug col Ha Hm) as (rc & -> & Hrc). destruct (shape_row m k aug piv Ha Hp) as (rp & -> & Hrp). cbn [mbind option_bind fmap option_fmap option_map].
  assert (shape m k (<[piv := rc]> (<[col := rp]> aug))) as Hs by (apply shape_insert; [by apply shape_insert|done]).
  revert Hs. generalize (<[piv := rc]> (<[col := rp]> aug)). intros aug1 Hs.
  destruct (shape_get2 m k aug1 col col Hs Hm Hk) as [x ->]. cbn [mbind option_bind fmap option_fmap option_map]. destruct (fltb (fabs x) tiny); [by exists aug1|].
  destruct (shape_row m k aug1 col Hs Hm) as (row & -> & Hrow). cbn [mbind option_bind fmap option_fmap option_map].
  set (prow := from_col col _ row row). assert (length prow = k) as Hpr by (unfold prow; rewrite from_col_length; done).
  pose proof (shape_insert m k aug1 col prow Hs Hpr) as Hs2.
  destruct (mapM_total (fun kr : nat * list float64 => clear_row col prow kr.1 kr.2) (fun row => length row = k) (imap pair (<[col := prow]> aug1)))
    as (aug' & E & Hl & Hall).
  - eapply Forall_impl; [exact (imap_pair_rows m k _ Hs2)|]. intros kr Hkr. by apply clear_row_defined.
  - exists aug'. split; [exact E|]. split; [|done]. rewrite Hl, length_imap. by destruct Hs2.
Qed.

Lemma eliminate_all_defined m k cols aug :
  shape m k aug -> (m <= k)%nat -> Forall (fun c => c < m)%nat cols -> exists aug', eliminate_all m cols aug = Some aug' /\ shape m k aug'.
Proof.
  intros Ha Hk Hall. revert aug Ha. induction Hall as [|col cols Hc _ IH]; intros aug Ha; [by eexists|]. cbn.
  destruct (eliminate_defined m k aug col Ha Hc ltac:(lia)) as (aug1 & -> & Ha1). cbn. by apply IH.
Qed.

Lemma solve_defined a b m : shape m m a -> length b = m -> exists x, solveLinear a b m = Some x /\ length x = m.
Proof.
  intros Ha Hb. unfold solveLinear, augment.
  destruct (seq_total (fun i => row ← a !! i; x ← b !! i; Some (resize m f0 row ++ [x])) (fun row => length row = S m) m) as (aug & -> & Hl & Hall).
  { intros i Hi. destruct (shape_row m m a i Ha Hi) as (row & -> & _). destruct (lookup_lt_is_Some_2 b i ltac:(lia)) as [x ->]. cbn.
    eexists. split; [done|]. rewrite length_app, length_resize. cbn. lia. }
  cbn. destruct (eliminate_all_defined m (S m) (seq 0 m) aug) as (aug' & -> & Ha'); [done|lia|apply Forall_forall; intros r Hr%elem_of_seq; lia|]. cbn.
  destruct (seq_total (fun i => get2 aug' i m) (fun _ => True) m) as (x & -> & Hx & _).
  { intros i Hi. destruct (shape_get2 m (S m) aug' i m Ha' Hi) as [x ->]; [lia|]. by eexists. }
  by exists x.
Qed.

Lemma fill_length (l : list (nat * float64)) (r : list float64) : length (foldl (fun r it => <[it.1 := it.2]> r) r l) = length r.
Proof. revert r. induction l as [|it l IH]; intros r; [done|]. cbn. by rewrite IH, length_insert. Qed.

Lemma fill_other i (l : list (nat * float64)) (r : list float64) : i ∉ l.*1 -> foldl (fun r it => <[it.1 := it.2]> r) r l !! i = r !! i.
Proof.
  revert r. induction l as [|[j x] l IH]; intros r Hi; [done|]. cbn in *. apply not_elem_of_cons in Hi as [Hij Hi].
  rewrite IH by done. by rewrite list_lookup_insert_ne.
Qed.

Lemma Absorption_square abs c : square c -> (0 < ch_n c)%nat ->
  exists t, ExpectedAbsorptionSteps abs c = Some t /\ length t = ch_n c /\ (0 <= abs < Z.of_nat (ch_n c) -> t !! Z.to_nat abs = Some f0).
Proof.
  intros Hc Hn. unfold ExpectedAbsorptionSteps. destruct (P_square c Hc) as (p & -> & Hp). cbn.
  rewrite (proj2 (Nat.eqb_neq _ _)) by lia. set (tr := List.filter _ _).
  assert (Forall (fun i => (i < ch_n c)%nat /\ Z.of_nat i <> abs) tr) as Htr.
  { apply Forall_forall. intros i Hi. apply list_elem_of_In, filter_In in Hi as [Hi%in_seq E%negb_true_iff%Z.eqb_neq]. split; [lia|done]. }
  destruct (length tr =? 0)%nat; [eexists; split; [done|]; split; [apply length_replicate|]; intros Ha; apply lookup_replicate; split; [done|lia]|].
  destruct (mapM_total (fun i => mapM (fun j => get2 p i j) tr) (fun row => length row = length tr) tr) as (q & -> & Hlq & Hallq).
  { eapply Forall_impl; [exact Htr|]. intros i [Hi _]. destruct (mapM_total (fun j => get2 p i j) (fun _ => True) tr) as (row & -> & Hl & _).
    - eapply Forall_impl; [exact Htr|]. intros j [Hj _]. destruct (shape_get2 _ _ p i j Hp Hi Hj) as [x ->]. by eexists.
    - by eexists. }
  cbn. destruct (solve_defined (identityMinus q) (ones (length tr)) (length tr)) as (t & -> & Ht).
  { split; unfold identityMinus; [by rewrite length_imap|]. apply Forall_lookup_2. intros i row Hi. rewrite list_lookup_imap in Hi.
    apply fmap_Some in Hi as (row' & Hr & ->). rewrite length_imap. by eapply Forall_lookup_1 in Hallq. }
  { apply length_replicate. }
  cbn. eexists. split; [done|]. split; [by rewrite fill_length, length_replicate|]. intros Ha. rewrite fill_other; [apply lookup_replicate; split; [done|lia]|].
  rewrite fst_zip by lia. intros Hin. rewrite Forall_forall in Htr. destruct (Htr _ Hin) as [_ Hne]. lia.
Qed.

(** ** Every chain that can be made *)

Inductive ChainOp := OObserve (from to : Z) | ODecay | OLoad (counts : matrix).

Definition apply_op (c : Chain) (op : ChainOp) : option Chain :=
  match op with OObserve from to => Observe from to c | ODecay => Some (Decay c) | OLoad counts => LoadCounts counts c end.

Fixpoint apply_ops (ops : list ChainOp) (c : Chain) : option Chain :=
  match ops with [] => Some c | op :: ops => c ← apply_op c op; apply_ops ops c end.

Lemma ops_square ops c : square c -> exists c', apply_ops ops c = Some c' /\ square c' /\ ch_n c' = ch_n c.
Proof.
  revert c. induction ops as [|op ops IH]; intros c Hc; [by eexists|]. cbn [apply_ops].
  assert (exists c1, apply_op c op = Some c1 /\ square c1 /\ ch_n c1 = ch_n c) as (c1 & -> & H1 & H2).
  { destruct op as [from to| |counts]; cbn [apply_op].
    - by apply Observe_square.
    - exists (Decay c). split; [done|]. split; [by apply Decay_square|by destruct c].
    - by apply LoadCounts_square. }
  cbn [mbind option_bind]. destruct (IH c1 H1) as (c' & E & H3 & H4). exists c'. split; [done|]. split; [done|congruence].
Qed.

(** The states of the three classifications are states of the chain. *)
Lemma states_in_range seeders leechers up down active rem mtime now timeout :
  Forall (fun s => 0 <= s < Z.of_nat NumStates) [TorrentHealthState seeders leechers; UserRatioState up down; PeerActivityState active rem mtime now timeout].
Proof.
  assert (forall b (x y : Z), 0 <= x < Z.of_nat NumStates -> 0 <= y < Z.of_nat NumStates -> 0 <= (if b : bool then x else y) < Z.of_nat NumStates) as Hif
    by (by intros []).
  repeat (apply Forall_cons; split); [unfold TorrentHealthState|unfold UserRatioState|unfold PeerActivityState|by apply Forall_nil];
    repeat apply Hif; done.
Qed.

(** [C40] Chains are well typed.  Whatever is observed, decayed or loaded, in any
    order and with any indices and any ragged matrix, a chain of [n] states stays
    [n] by [n] and nothing goes out of bounds: the transition matrix, the saved
    counts and every predicted distribution have that size, a path through states
    has a likelihood, the expected steps are defined for every target and zero at
    it, and saved counts are loaded as they were. *)
Theorem chain_typed (n : nat) (decay : float64) (ops : list ChainOp) :
  exists c, apply_ops ops (NewChain n decay) = Some c /\ ch_n c = n /\ shape n n (ch_counts c) /\
    (exists p, P c = Some p /\ shape n n p) /\
    (Counts c = Some (ch_counts c) /\ forall d, LoadCounts (ch_counts c) (NewChain n d) = Some (c {{ ch_decay := d }})) /\
    (forall pi k, exists v, StepChain pi k c = Some v /\ length v = n) /\
    (forall path, Forall (fun x => 0 <= x < Z.of_nat n) path -> exists x, PathLogLikelihood path c = Some x) /\
    (forall abs, (0 < n)%nat -> exists t, ExpectedAbsorptionSteps abs c = Some t /\ length t = n /\
       (0 <= abs < Z.of_nat n -> t !! Z.to_nat abs = Some f0)).
Proof.
  destruct (ops_square ops _ (New_square n decay)) as (c & E & Hc & Hn). cbn in Hn. exists c. subst n.
  split_and!; try done; auto using Counts_all, saved_loads, Step_square, Path_square, Absorption_square, P_square; apply Hc.
Qed.

Lemma chain_typed_witness : exists c t, apply_ops [OObserve 4 4; OObserve 9 0; ODecay; OLoad [[f1]]] (NewChain 5 f1) = Some c /\
  ExpectedAbsorptionSteps 4 c = Some t /\ t !! 4%nat = Some f0.
Proof.
  destruct (chain_typed 5 f1 [OObserve 4 4; OObserve 9 0; ODecay; OLoad [[f1]]]) as (c & E & _ & _ & _ & _ & _ & _ & Habs).
  destruct (Habs 4 ltac:(lia)) as (t & Ht & _ & H4). exists c, t. split; [exact E|]. split; [exact Ht|]. exact (H4 ltac:(lia)).
Defined.

(** Three seeders count as healthy whatever the number of leechers, although the
    band is documented to need half a seeder per leecher. *)
Example crowded_is_healthy : TorrentHealthState 3 1000 = TorrentHealthy.
Proof. vm_compute. reflexivity. Qed.
