(* ===== verification/MarkovDb.v ===== *)
(** * The tables and the configuration of the Markov engine (markov/internal/db,
      markov/internal/config), and the tracker's client of it (tracker/markov_client.go)

    The engine keeps its tables in the same file as the tracker, whose tables it
    reads.  A transaction that fails leaves the tables as they were; [fail] arguments are
    failures of the database.  A REAL column holds no NaN: SQLite stores NULL
    for it, which a NOT NULL column refuses, except that INSERT OR REPLACE puts the
    default of the column in its place; and it holds no negative zero. *)
From Stdlib Require Import String.
From Stdlib Require SpecFloat.
From S2P Require Import Prelude GoStr GoFloat GoSort Bencode TrackerDB Shards.
Open Scope list_scope.
Open Scope string_scope.
Open Scope Z_scope.

(** ** Values *)

(** A NOT NULL column of reals; [dflt] is what INSERT OR REPLACE puts for NULL. *)
Definition real_col (dflt : option float64) (x : float64) : option float64 :=
  match x with
  | SpecFloat.S754_nan => dflt
  | SpecFloat.S754_zero _ => Some (SpecFloat.S754_zero false)
  | _ => Some x
  end.
Definition real0 : float64 := of_int 0.
Definition real1 : float64 := of_int 1.

Definition limit {A} (n : Z) (l : list A) : list A := if n <? 0 then l else take (Z.to_nat n) l.

(** ** Rows *)

Record TorrentPredictionRecord := mkPrediction {
  pd_TorrentID : Z;
  pd_HealthState : Z;
  pd_PiJSON : string;
  pd_Pi24hJSON : string;
  pd_Pi72hJSON : string;
  pd_DeadProb24h : float64;
  pd_DeadProb72h : float64;
  pd_ExpectedDeadHours : float64;
  pd_Entropy : float64;
  pd_RecommendedInterval : Z;
  pd_UpdatedAt : Z
}.

Record UserAnomalyRecord := mkAnomaly { an_UID : Z; an_AnomalyScore : float64; an_PathLogLikelihood : float64; an_Flagged : bool; an_UpdatedAt : Z }.

Record FreeleechCandidateRecord := mkCandidate {
  fcd_TorrentID : Z; fcd_PriorityScore : float64; fcd_DeadProb72h : float64; fcd_Recommended : bool; fcd_UpdatedAt : Z
}.

Record PeerQualityRecord := mkQuality { pq_UID : Z; pq_TorrentID : Z; pq_Alpha : float64; pq_Beta : float64; pq_ObsCount : Z; pq_UpdatedAt : Z }.

Record PeerStateRecord := mkPeerState { ps_TorrentID : Z; ps_UID : Z; ps_State : Z; ps_ObservedAt : Z }.
Record TorrentStateRecord := mkTorrentState { ts_TorrentID : Z; ts_State : Z; ts_ObservedAt : Z }.
Record UserStateRecord := mkUserState { us_UID : Z; us_State : Z; us_PathJSON : string; us_ObservedAt : Z }.

Record SeederAssignment := mkAssignment {
  sa_ID : Z; sa_UserID : Z; sa_TorrentID : Z; sa_UrgencyScore : float64; sa_AssignedAt : Z; sa_FulfilledAt : Z; sa_ExpiresAt : Z
}.

(** The stages of a model, by their text. *)
Abbreviation DeploymentStage := string.
Definition StageShadow : DeploymentStage := "SHADOW".
Definition StageAdvisory : DeploymentStage := "ADVISORY".
Definition StageBoundedControl : DeploymentStage := "BOUNDED_CONTROL".
Definition StageActive : DeploymentStage := "ACTIVE".

Record ModelMetadata := mkMetadata {
  md_ChainName : string;
  md_SchemaVersion : Z;
  md_DecayLambda : float64;
  md_SmoothingAlpha : float64;
  md_ObsIntervalSec : Z;
  md_MatrixVersion : Z;
  md_EffSamples : list float64;
  md_DeploymentStage : DeploymentStage;
  md_CreatedAt : Z;
  md_UpdatedAt : Z
}.

(** A row of the metadata, with the samples as JSON. *)
Record MetadataRow := mkMetaRow {
  mr_schema_version : Z;
  mr_decay_lambda : float64;
  mr_smoothing_alpha : float64;
  mr_obs_interval_sec : Z;
  mr_matrix_version : Z;
  mr_eff_samples_json : string;
  mr_deployment_stage : DeploymentStage;
  mr_created_at : Z;
  mr_updated_at : Z
}.

Record RecommendationRecord := mkRecommendation {
  rr_ChainName : string;
  rr_EntityID : Z;
  rr_PredictionJSON : string;
  rr_Entropy : float64;
  rr_EvidenceStrength : float64;
  rr_ModelVersion : Z;
  rr_RecommendedAction : string;
  rr_PolicyAction : string;
  rr_Outcome : string;
  rr_ShadowMode : bool;
  rr_CreatedAt : Z;
  rr_ResolvedAt : Z
}.

Record ForecastEvalRecord := mkForecast {
  fe_ChainName : string;
  fe_EntityID : Z;
  fe_HorizonSteps : Z;
  fe_ForecastJSON : string;
  fe_OutcomeState : Z;
  fe_BrierScore : float64;
  fe_LogLoss : float64;
  fe_CreatedAt : Z;
  fe_EvaluatedAt : Z
}.

(** The tables of [createSchema].  The assignments have a number that is never given twice. *)
Record MarkovTables := mkMT {
  mt_chain_counts : gmap (string * Z * Z) float64;
  mt_peer_states : gmap (Z * Z) (Z * Z);
  mt_torrent_states : gmap Z (Z * Z);
  mt_user_states : gmap Z (Z * string * Z);
  mt_predictions : gmap Z TorrentPredictionRecord;
  mt_user_anomaly : gmap Z UserAnomalyRecord;
  mt_candidates : gmap Z FreeleechCandidateRecord;
  mt_peer_quality : gmap (Z * Z) PeerQualityRecord;
  mt_metadata : gmap string MetadataRow;
  mt_recommendations : gmap Z RecommendationRecord;
  mt_forecasts : gmap Z ForecastEvalRecord;
  mt_assignments : gmap Z SeederAssignment;
  mt_next_assignment : Z
}.
Definition createSchema : MarkovTables := mkMT ∅ ∅ ∅ ∅ ∅ ∅ ∅ ∅ ∅ ∅ ∅ ∅ 1.

(** ** Transactions *)

Section Tables.
Implicit Types (t : MarkovTables).

Fixpoint insert_all {R T} (ins : R -> T -> option T) (recs : list R) (t : T) : option T :=
  match recs with [] => Some t | r :: recs => t ← ins r t; insert_all ins recs t end.

(** All statements or none; the result says whether they were committed. *)
Definition transaction {R} (fail : bool) (ins : R -> MarkovTables -> option MarkovTables) (recs : list R) t : MarkovTables * bool :=
  if fail then (t, false) else match insert_all ins recs t with Some t' => (t', true) | None => (t, false) end.

(** The bulk writers return at once for no records. *)
Definition bulk {R} (fail : bool) (ins : R -> MarkovTables -> option MarkovTables) (recs : list R) t : MarkovTables * bool :=
  match recs with [] => (t, true) | _ => transaction fail ins recs t end.

(** ** Writers *)

Definition count_entries (counts : list (list float64)) : list (Z * Z * float64) :=
  mjoin (imap (fun i row => imap (fun j v => (Z.of_nat i, Z.of_nat j, v)) row) counts).

Definition insert_count (chainName : string) (e : Z * Z * float64) t : option MarkovTables :=
  v ← real_col (Some real0) e.2; Some (t {{ mt_chain_counts ::= <[(chainName, e.1.1, e.1.2) := v]> }}).
Definition UpsertChainCounts (fail : bool) (chainName : string) (counts : list (list float64)) t : MarkovTables * bool :=
  transaction fail (insert_count chainName) (count_entries counts) t.

Definition insert_peer_state (r : PeerStateRecord) t : option MarkovTables :=
  Some (t {{ mt_peer_states ::= <[(ps_TorrentID r, ps_UID r) := (ps_State r, ps_ObservedAt r)]> }}).
Definition UpsertPeerStates (fail : bool) (recs : list PeerStateRecord) t : MarkovTables * bool := bulk fail insert_peer_state recs t.

Definition DeletePeerStates (fail : bool) (torrentID uid : Z) t : MarkovTables * bool :=
  if fail then (t, false) else (t {{ mt_peer_states ::= delete (torrentID, uid) }}, true).

(** State 4 is a dead peer. *)
Definition ExpireDeadPeerStates (fail : bool) (olderThanUnix : Z) t : MarkovTables * bool :=
  if fail then (t, false) else (t {{ mt_peer_states ::= filter (fun kv => ((kv.2.1 =? 4) && (kv.2.2 <? olderThanUnix)) = false) }}, true).

Definition insert_torrent_state (r : TorrentStateRecord) t : option MarkovTables :=
  Some (t {{ mt_torrent_states ::= <[ts_TorrentID r := (ts_State r, ts_ObservedAt r)]> }}).
Definition UpsertTorrentStates (fail : bool) (recs : list TorrentStateRecord) t : MarkovTables * bool := bulk fail insert_torrent_state recs t.

Definition insert_user_state (r : UserStateRecord) t : option MarkovTables :=
  Some (t {{ mt_user_states ::= <[us_UID r := (us_State r, us_PathJSON r, us_ObservedAt r)]> }}).
Definition UpsertUserStates (fail : bool) (recs : list UserStateRecord) t : MarkovTables * bool := bulk fail insert_user_state recs t.

Definition insert_prediction (r : TorrentPredictionRecord) t : option MarkovTables :=
  a ← real_col None (pd_DeadProb24h r); b ← real_col None (pd_DeadProb72h r);
  c ← real_col None (pd_ExpectedDeadHours r); e ← real_col None (pd_Entropy r);
  Some (t {{ mt_predictions ::= <[pd_TorrentID r := ((((r {{ pd_DeadProb24h := a }}) {{ pd_DeadProb72h := b }}) {{ pd_ExpectedDeadHours := c }}) {{ pd_Entropy := e }})]> }}).
Definition UpsertPredictions (fail : bool) (recs : list TorrentPredictionRecord) t : MarkovTables * bool := bulk fail insert_prediction recs t.

Definition insert_anomaly (r : UserAnomalyRecord) t : option MarkovTables :=
  a ← real_col None (an_AnomalyScore r); b ← real_col None (an_PathLogLikelihood r);
  Some (t {{ mt_user_anomaly ::= <[an_UID r := (r {{ an_AnomalyScore := a }}) {{ an_PathLogLikelihood := b }}]> }}).
Definition UpsertUserAnomalies (fail : bool) (recs : list UserAnomalyRecord) t : MarkovTables * bool := bulk fail insert_anomaly recs t.

Definition clear_recommended t : MarkovTables := t {{ mt_candidates ::= fmap (fun c => c {{ fcd_Recommended := false }}) }}.
Definition insert_candidate (r : FreeleechCandidateRecord) t : option MarkovTables :=
  a ← real_col None (fcd_PriorityScore r); b ← real_col None (fcd_DeadProb72h r);
  Some (t {{ mt_candidates ::= <[fcd_TorrentID r := (r {{ fcd_PriorityScore := a }}) {{ fcd_DeadProb72h := b }}]> }}).
Definition UpsertFreeleechCandidates (fail : bool) (recs : list FreeleechCandidateRecord) t : MarkovTables * bool :=
  match recs with
  | [] => (t, true)
  | _ => if fail then (t, false)
         else match insert_all insert_candidate recs (clear_recommended t) with Some t' => (t', true) | None => (t, false) end
  end.

Definition insert_quality (r : PeerQualityRecord) t : option MarkovTables :=
  a ← real_col (Some real1) (pq_Alpha r); b ← real_col (Some real1) (pq_Beta r);
  Some (t {{ mt_peer_quality ::= <[(pq_UID r, pq_TorrentID r) := (r {{ pq_Alpha := a }}) {{ pq_Beta := b }}]> }}).
Definition UpsertPeerQuality (fail : bool) (recs : list PeerQualityRecord) t : MarkovTables * bool := bulk fail insert_quality recs t.

(** The number and the fulfilment of the record given are not used. *)
Definition insert_assignment (a : SeederAssignment) t : option MarkovTables :=
  u ← real_col None (sa_UrgencyScore a);
  Some (t {{ mt_assignments ::= <[mt_next_assignment t := ((a {{ sa_ID := mt_next_assignment t }}) {{ sa_UrgencyScore := u }}) {{ sa_FulfilledAt := 0 }}]> }}
          {{ mt_next_assignment ::= Z.succ }}).
Definition BulkInsertSeederAssignments (fail : bool) (rows : list SeederAssignment) t : MarkovTables * bool := bulk fail insert_assignment rows t.

Definition pending (a : SeederAssignment) : bool := sa_FulfilledAt a =? 0.
Definition FulfillSeederAssignments (fail : bool) (torrentID : Z) (uids : list Z) (now : Z) t : MarkovTables * bool :=
  match uids with
  | [] => (t, true)
  | _ => if fail then (t, false)
         else (t {{ mt_assignments ::= fmap (fun a =>
                      if (sa_TorrentID a =? torrentID) && pending a && bool_decide (sa_UserID a ∈ uids) then a {{ sa_FulfilledAt := now }} else a) }}, true)
  end.

Definition ExpireSeederAssignments (fail : bool) (cutoff : Z) t : MarkovTables * bool :=
  if fail then (t, false)
  else (t {{ mt_assignments ::= filter (fun kv => ((sa_ExpiresAt kv.2 <=? cutoff) || ((0 <? sa_FulfilledAt kv.2) && (sa_FulfilledAt kv.2 <=? cutoff))) = false) }}, true).

(** ** Governance *)

(** [marshal] is JSON, which fails for values that are no numbers. *)
Definition UpsertModelMetadata (marshal : list float64 -> option string) (fail : bool) (m : ModelMetadata) t : MarkovTables * bool :=
  let sampJSON := default "[]" (marshal (md_EffSamples m)) in
  let stage := if String.eqb (md_DeploymentStage m) "" then StageShadow else md_DeploymentStage m in
  match (if fail then None else a ← real_col None (md_DecayLambda m); b ← real_col None (md_SmoothingAlpha m); Some (a, b)) with
  | None => (t, false)
  | Some (a, b) =>
      let row := match mt_metadata t !! md_ChainName m with
                 | None => mkMetaRow (md_SchemaVersion m) a b (md_ObsIntervalSec m) (md_MatrixVersion m) sampJSON stage (md_CreatedAt m) (md_UpdatedAt m)
                 | Some old => mkMetaRow (md_SchemaVersion m) a b (md_ObsIntervalSec m) (md_MatrixVersion m) sampJSON (mr_deployment_stage old) (mr_created_at old) (md_UpdatedAt m)
                 end in
      (t {{ mt_metadata ::= <[md_ChainName m := row]> }}, true)
  end.

Definition SetDeploymentStage (fail : bool) (chainName : string) (stage : DeploymentStage) t : MarkovTables * bool :=
  if fail then (t, false) else (t {{ mt_metadata ::= alter (fun r => r {{ mr_deployment_stage := stage }}) chainName }}, true).

Definition GetDeploymentStage (fail : bool) (chainName : string) t : DeploymentStage * bool :=
  if fail then (StageShadow, false) else (from_option mr_deployment_stage StageShadow (mt_metadata t !! chainName), true).

Definition load_metadata (unmarshal : string -> option (list float64)) (name : string) (r : MetadataRow) : ModelMetadata :=
  mkMetadata name (mr_schema_version r) (mr_decay_lambda r) (mr_smoothing_alpha r) (mr_obs_interval_sec r) (mr_matrix_version r)
    (if String.eqb (mr_eff_samples_json r) "" then [] else default [] (unmarshal (mr_eff_samples_json r)))
    (mr_deployment_stage r) (mr_created_at r) (mr_updated_at r).
Definition LoadModelMetadata (order : gmap string MetadataRow -> list (string * MetadataRow)) (unmarshal : string -> option (list float64))
    (fail : bool) t : option (list ModelMetadata) :=
  if fail then None else Some ((fun '(n, r) => load_metadata unmarshal n r) <$> order (mt_metadata t)).

(** A row gets the number after the greatest. *)
Definition next_id {A} (m : gmap Z A) : Z := 1 + foldr Z.max 0 (map_to_list m).*1.

Definition InsertRecommendation (fail : bool) (r : RecommendationRecord) t : MarkovTables * bool :=
  match (if fail then None else a ← real_col None (rr_Entropy r); b ← real_col None (rr_EvidenceStrength r); Some (a, b)) with
  | None => (t, false)
  | Some (a, b) => (t {{ mt_recommendations ::= fun m => <[next_id m := (r {{ rr_Entropy := a }}) {{ rr_EvidenceStrength := b }}]> m }}, true)
  end.

Definition LoadRecentRecommendations (order : gmap Z RecommendationRecord -> list (Z * RecommendationRecord)) (fail : bool) (n : Z) t
    : option (list (Z * RecommendationRecord)) :=
  if fail then None
  else Some (limit n (slice_stable (fun a b => rr_CreatedAt b.2 <? rr_CreatedAt a.2) (order (mt_recommendations t)))).

Definition InsertForecastEval (fail : bool) (r : ForecastEvalRecord) t : MarkovTables * bool :=
  match (if fail then None else a ← real_col None (fe_BrierScore r); b ← real_col None (fe_LogLoss r); Some (a, b)) with
  | None => (t, false)
  | Some (a, b) => (t {{ mt_forecasts ::= fun m => <[next_id m := (r {{ fe_BrierScore := a }}) {{ fe_LogLoss := b }}]> m }}, true)
  end.

(** A row that is not there is no error. *)
Definition UpdateForecastOutcome (fail : bool) (id outcomeState : Z) (brier logLoss : float64) (evaluatedAt : Z) t : MarkovTables * bool :=
  if fail then (t, false)
  else match mt_forecasts t !! id with
       | None => (t, true)
       | Some r =>
           match (a ← real_col None brier; b ← real_col None logLoss; Some (a, b)) with
           | None => (t, false)
           | Some (a, b) => (t {{ mt_forecasts ::= <[id := (((r {{ fe_OutcomeState := outcomeState }}) {{ fe_BrierScore := a }}) {{ fe_LogLoss := b }}) {{ fe_EvaluatedAt := evaluatedAt }}]> }}, true)
           end
       end.

Definition LoadPendingForecastEvals (order : gmap Z ForecastEvalRecord -> list (Z * ForecastEvalRecord)) (fail : bool) (beforeUnix n : Z) t
    : option (list (Z * ForecastEvalRecord)) :=
  if fail then None
  else Some (limit n (filter (fun kv => fe_OutcomeState kv.2 = -1 /\ fe_CreatedAt kv.2 < beforeUnix) (order (mt_forecasts t)))).

(** ** Readers of the engine's tables *)

Definition LoadChainCounts (order : gmap (string * Z * Z) float64 -> list ((string * Z * Z) * float64)) (fail : bool) (chainName : string) t
    : option (list (Z * Z * float64)) :=
  if fail then None
  else Some ((fun kv => (kv.1.1.2, kv.1.2, kv.2)) <$> filter (fun kv => kv.1.1.1 = chainName) (order (mt_chain_counts t))).

Definition LoadStoredPeerStates (order : gmap (Z * Z) (Z * Z) -> list ((Z * Z) * (Z * Z))) (fail : bool) t : option (list PeerStateRecord) :=
  if fail then None else Some ((fun '((tid, uid), (s, o)) => mkPeerState tid uid s o) <$> order (mt_peer_states t)).
Definition LoadStoredTorrentStates (order : gmap Z (Z * Z) -> list (Z * (Z * Z))) (fail : bool) t : option (list TorrentStateRecord) :=
  if fail then None else Some ((fun '(tid, (s, o)) => mkTorrentState tid s o) <$> order (mt_torrent_states t)).
Definition LoadStoredUserStates (order : gmap Z (Z * string * Z) -> list (Z * (Z * string * Z))) (fail : bool) t : option (list UserStateRecord) :=
  if fail then None else Some ((fun '(uid, (s, p, o)) => mkUserState uid s p o) <$> order (mt_user_states t)).

(** No row is no error. *)
Definition LoadPrediction (fail : bool) (torrentID : Z) t : option (option TorrentPredictionRecord) :=
  if fail then None else Some (mt_predictions t !! torrentID).
Definition LoadUserAnomaly (fail : bool) (uid : Z) t : option (option UserAnomalyRecord) :=
  if fail then None else Some (mt_user_anomaly t !! uid).
Definition LoadPeerQuality (fail : bool) (uid torrentID : Z) t : option (option PeerQualityRecord) :=
  if fail then None else Some (mt_peer_quality t !! (uid, torrentID)).
Definition LoadAllPeerQuality (order : gmap (Z * Z) PeerQualityRecord -> list ((Z * Z) * PeerQualityRecord)) (fail : bool) t
    : option (list PeerQualityRecord) :=
  if fail then None else Some (order (mt_peer_quality t)).*2.

(** The highest scores first. *)
Definition LoadFreeleechCandidates (order : gmap Z FreeleechCandidateRecord -> list (Z * FreeleechCandidateRecord)) (fail : bool) (n : Z) t
    : option (list FreeleechCandidateRecord) :=
  if fail then None
  else Some (limit n (slice_stable (fun a b => fltb (fcd_PriorityScore b) (fcd_PriorityScore a))
                        (filter (fun c => fcd_Recommended c = true) (order (mt_candidates t)).*2))).

(** The sums are in the order of the rows. *)
Definition LoadUserGlobalReliability (order : gmap (Z * Z) PeerQualityRecord -> list ((Z * Z) * PeerQualityRecord)) (fail : bool) (uid : Z) t
    : option (float64 * Z) :=
  if fail then None
  else
    let rows := filter (fun q => pq_UID q = uid) (order (mt_peer_quality t)).*2 in
    let '(sumAlpha, sumTotal, obsCount) :=
      foldl (fun '(a, s, o) q => (fadd a (pq_Alpha q), fadd s (fadd (pq_Alpha q) (pq_Beta q)), i64 (o + pq_ObsCount q))) (real0, real0, 0) rows in
    Some (if feqb sumTotal real0 then (flit 1 2, 0) else (fdiv sumAlpha sumTotal, obsCount)).

Definition active_at (now : Z) (a : SeederAssignment) : bool := pending a && (now <? sa_ExpiresAt a).
Definition LoadActiveAssignments (order : gmap Z SeederAssignment -> list (Z * SeederAssignment)) (fail : bool) (now : Z) t
    : option (list SeederAssignment) :=
  if fail then None else Some (filter (fun a => active_at now a = true) (order (mt_assignments t)).*2).
Definition LoadUserSeederAssignments (order : gmap Z SeederAssignment -> list (Z * SeederAssignment)) (fail : bool) (userID now : Z) t
    : option (list SeederAssignment) :=
  if fail then None
  else Some (slice_stable (fun a b => fltb (sa_UrgencyScore b) (sa_UrgencyScore a))
               (filter (fun a => sa_UserID a = userID /\ active_at now a = true) (order (mt_assignments t)).*2)).

(** The tracker, on the same file. *)
Definition LoadRecommendedInterval (torrentID : Z) t : Z * bool :=
  match mt_predictions t !! torrentID with Some r => (pd_RecommendedInterval r, true) | None => (0, false) end.
End Tables.

(** ** Readers of the tracker's tables *)

Record MPeerRow := mkMPeer { mp_UID : Z; mp_FID : Z; mp_Active : bool; mp_Remaining : Z; mp_Uploaded : Z; mp_Mtime : Z; mp_InvalidIP : bool }.
Record MTorrentRow := mkMTorrent { mto_ID : Z; mto_Seeders : Z; mto_Leechers : Z }.
Record MUserRow := mkMUser { mu_ID : Z; mu_Uploaded : Z; mu_Downloaded : Z; mu_CanLeech : bool }.

Definition LoadPeers (order : gmap (Z * Z) PeerRow -> list ((Z * Z) * PeerRow)) (fail : bool) (s : Shard) : option (list MPeerRow) :=
  if fail then None
  else Some ((fun '((uid, tid), r) => mkMPeer uid tid (negb (pe_active r =? 0)) (pe_remaining r) (pe_uploaded r) (pe_last_announce r)
                                        (match String.index 0 ":" (pe_ip r) with Some _ => true | None => false end)) <$> order (sd_peers s)).

Definition MLoadTorrents (order : gmap Z TorrentRow -> list (Z * TorrentRow)) (fail : bool) (s : Shard) : option (list MTorrentRow) :=
  if fail then None else Some ((fun '(id, r) => mkMTorrent id (tr_seeders r) (tr_leechers r)) <$> order (td_torrents (sd_tables s))).

(** Users without a passkey are left out; a total that is no integer is an error. *)
Definition user_row (s : Shard) (kv : Z * (SqlInt * SqlInt)) : option (option MUserRow) :=
  match td_passkeys (sd_tables s) !! kv.1 with
  | None => Some None
  | Some p => u ← kv.2.1; d ← kv.2.2; Some (Some (mkMUser kv.1 u d (pr_can_leech p)))
  end.
Definition MLoadUsers (order : gmap Z (SqlInt * SqlInt) -> list (Z * (SqlInt * SqlInt))) (fail : bool) (s : Shard) : option (list MUserRow) :=
  if fail then None else rows ← mapM (user_row s) (order (sd_users s)); Some (omap id rows).

Definition LoadFreeleechUIDs (fail : bool) (s : Shard) : option (gset Z) :=
  if fail then None
  else Some (list_to_set (omap (fun kv : (Z * Z) * PeerRow =>
               match td_torrents (sd_tables s) !! kv.1.2 with
               | Some t => if (pe_active kv.2 =? 1) && negb (tr_free_type t =? 0) then Some kv.1.1 else None
               | None => None end) (map_to_list (sd_peers s)))).

(** User, torrent and time, the oldest first. *)
Definition LoadSnatches (order : gmap (Z * Z * Z) string -> list ((Z * Z * Z) * string)) (fail : bool) (afterTstamp : Z) (s : Shard)
    : option (list (Z * Z * Z)) :=
  if fail then None
  else Some (slice_stable (fun a b => a.2 <? b.2) (filter (fun k => afterTstamp < k.2) (order (sd_snatches s)).*1)).

(** ** The configuration *)

Record MarkovConfig := mkMConfig {
  mc_DBPath : string;
  mc_DecayFactor : float64;
  mc_DecayEveryNPolls : Z;
  mc_PeerDecayFactor : float64;
  mc_TorrentDecayFactor : float64;
  mc_UserDecayFactor : float64;
  mc_SmoothingAlpha : float64;
  mc_PollIntervalSec : Z;
  mc_PersistIntervalSec : Z;
  mc_PathHistoryLen : Z;
  mc_ModelClockSec : Z;
  mc_AnnounceIntervalSec : Z;
  mc_PeersTimeoutSec : Z;
  mc_MinAnnounceIntervalSec : Z;
  mc_MaxAnnounceIntervalSec : Z;
  mc_HysteresisFactor : float64;
  mc_MinEvidenceForAdaptiveInterval : float64;
  mc_ForecastSteps1h : Z;
  mc_ForecastSteps6h : Z;
  mc_ForecastSteps24h : Z;
  mc_ForecastSteps72h : Z;
  mc_FraudThresholdSigma : float64;
  mc_FraudPathMinLen : Z;
  mc_SuccessThresholdBytes : Z;
  mc_FreeleechTopN : Z;
  mc_ForecastSampleEveryN : Z;
  mc_MaxSeedersPerAssignment : Z;
  mc_MaxAssignmentsPerUser : Z;
  mc_SeederAssignmentTTLSec : Z;
  mc_SeederMinUrgencyScore : float64;
  mc_ShadowMode : bool;
  mc_ModelSchemaVersion : Z;
  mc_ListenAddr : string;
  mc_RedisURL : string;
  mc_RedisPassword : string
}.

(** The value of a setting that is zero. *)
Definition or_int (d x : Z) : Z := if x =? 0 then d else x.
Definition or_float (d x : float64) : float64 := if feqb x real0 then d else x.
Definition or_string (d x : string) : string := if String.eqb x "" then d else x.

Definition applyDefaults (c : MarkovConfig) : MarkovConfig :=
  let modelClock := or_int 900 (mc_ModelClockSec c) in
  let clock := if modelClock <=? 0 then 900 else modelClock in
  {| mc_DBPath := or_string "/var/lib/ocelot/ocelot.db" (mc_DBPath c);
     mc_DecayFactor := or_float (flit 995 1000) (mc_DecayFactor c);
     mc_DecayEveryNPolls := or_int 60 (mc_DecayEveryNPolls c);
     mc_PeerDecayFactor := or_float (flit 993 1000) (mc_PeerDecayFactor c);
     mc_TorrentDecayFactor := or_float (flit 995 1000) (mc_TorrentDecayFactor c);
     mc_UserDecayFactor := or_float (flit 998 1000) (mc_UserDecayFactor c);
     mc_SmoothingAlpha := or_float (of_int 1) (mc_SmoothingAlpha c);
     mc_PollIntervalSec := or_int 60 (mc_PollIntervalSec c);
     mc_PersistIntervalSec := or_int 300 (mc_PersistIntervalSec c);
     mc_PathHistoryLen := or_int 10 (mc_PathHistoryLen c);
     mc_ModelClockSec := modelClock;
     mc_AnnounceIntervalSec := or_int 1800 (mc_AnnounceIntervalSec c);
     mc_PeersTimeoutSec := or_int 7200 (mc_PeersTimeoutSec c);
     mc_MinAnnounceIntervalSec := or_int 600 (mc_MinAnnounceIntervalSec c);
     mc_MaxAnnounceIntervalSec := or_int 3600 (mc_MaxAnnounceIntervalSec c);
     mc_HysteresisFactor := or_float (flit 1 10) (mc_HysteresisFactor c);
     mc_MinEvidenceForAdaptiveInterval := or_float (of_int 20) (mc_MinEvidenceForAdaptiveInterval c);
     mc_ForecastSteps1h := or_int (Z.quot (1 * 3600) clock) (mc_ForecastSteps1h c);
     mc_ForecastSteps6h := or_int (Z.quot (6 * 3600) clock) (mc_ForecastSteps6h c);
     mc_ForecastSteps24h := or_int (Z.quot (24 * 3600) clock) (mc_ForecastSteps24h c);
     mc_ForecastSteps72h := or_int (Z.quot (72 * 3600) clock) (mc_ForecastSteps72h c);
     mc_FraudThresholdSigma := or_float (of_int 3) (mc_FraudThresholdSigma c);
     mc_FraudPathMinLen := or_int 4 (mc_FraudPathMinLen c);
     mc_SuccessThresholdBytes := or_int 1024 (mc_SuccessThresholdBytes c);
     mc_FreeleechTopN := or_int 20 (mc_FreeleechTopN c);
     mc_ForecastSampleEveryN := or_int 12 (mc_ForecastSampleEveryN c);
     mc_MaxSeedersPerAssignment := or_int 5 (mc_MaxSeedersPerAssignment c);
     mc_MaxAssignmentsPerUser := or_int 3 (mc_MaxAssignmentsPerUser c);
     mc_SeederAssignmentTTLSec := or_int 86400 (mc_SeederAssignmentTTLSec c);
     mc_SeederMinUrgencyScore := or_float (flit 5 100) (mc_SeederMinUrgencyScore c);
     mc_ShadowMode := mc_ShadowMode c;
     mc_ModelSchemaVersion := or_int 1 (mc_ModelSchemaVersion c);
     mc_ListenAddr := or_string ":9090" (mc_ListenAddr c);
     mc_RedisURL := mc_RedisURL c;
     mc_RedisPassword := mc_RedisPassword c |}.

(** [Load]: what the file is, and what it says as JSON. *)
Definition MarkovLoad (decode : string -> option MarkovConfig) (file : option string) : option MarkovConfig :=
  data ← file; c ← decode data; Some (applyDefaults c).

(** ** The client *)

Record markovCandidate := mkMarkovCandidate { mcd_TorrentID : Z; mcd_PriorityScore : float64; mcd_DeadProb72h : float64 }.
Record markovMetrics := mkMarkovMetrics { mm_TrackedPeers : Z; mm_TrackedTorrents : Z; mm_TrackedUsers : Z; mm_PollCount : Z }.

Section MarkovClient.
(** A GET of a path: nothing for an error, else the status and the body; and the decoders.  The
    list is read after it was decoded. *)
Context (http : string -> option (Z * string)).
Context (decode_candidates : string -> option (list markovCandidate)) (decode_metrics : string -> option markovMetrics).

Definition get_json {A} (decode : string -> option A) (path : string) : option A :=
  '(status, body) ← http path; if status =? 200 then decode body else None.
Definition FreeleechCandidates : option (list markovCandidate) := get_json decode_candidates "/freeleech".
Definition Metrics : option markovMetrics := get_json decode_metrics "/metrics".

(** A tick of [FreeleechPoller]: the notifications it sends, whether or not they
    arrive. *)
Definition freeleech_tick (notifyHours : Z) : list (Z * Z) :=
  match FreeleechCandidates with None => [] | Some cs => (fun c => (mcd_TorrentID c, notifyHours)) <$> cs end.
End MarkovClient.
