(* ===== verification/MarkovDbSpec.v ===== *)
(** * Theorems about the tables of the Markov engine

    The stage of a model, the candidates for freeleech, predictions and counts
    from writing to reading, the life of an assignment, and the defaults. *)
From Stdlib Require Import String.
From Stdlib Require SpecFloat.
From S2P Require Import Prelude GoStr GoFloat GoSort TrackerDB Shards MarkovDb.
Open Scope list_scope.
Open Scope string_scope.
Open Scope Z_scope.

(** ** Transactions *)

Section Transactions.
Context {R : Type} (ins : R -> MarkovTables -> option MarkovTables).

(** What no statement touches, stays. *)
Lemma transaction_frame {A} (sel : MarkovTables -> A) fail recs t :
  (forall r t t', ins r t = Some t' -> sel t' = sel t) -> sel (transaction fail ins recs t).1 = sel t.
Proof.
  intros Hf. unfold transaction. destruct fail; [done|]. destruct (insert_all ins recs t) as [t'|] eqn:E; [|done]. cbn [fst].
  revert t E. induction recs as [|r recs IH]; intros t E; cbn in E; [by injection E as ->|].
  destruct (ins r t) as [t1|] eqn:E1; [|done]. rewrite (IH t1 E). by apply Hf with r.
Qed.

Lemma bulk_frame {A} (sel : MarkovTables -> A) fail recs t :
  (forall r t t', ins r t = Some t' -> sel t' = sel t) -> sel (bulk fail ins recs t).1 = sel t.
Proof. intros Hf. destruct recs; [done|]. by apply transaction_frame. Qed.

(** Statements that each put one row into a table. *)
Context `{Countable K} {V : Type} (sel : MarkovTables -> gmap K V) (key : R -> K) (val : R -> option V).
Context (ins_sel : forall r t t', ins r t = Some t' -> exists v, val r = Some v /\ sel t' = <[key r := v]> (sel t)).

Lemma insert_all_rows recs t t' :
  NoDup (key <$> recs) -> insert_all ins recs t = Some t' ->
  (forall r, r ∈ recs -> exists v, val r = Some v /\ sel t' !! key r = Some v) /\
  (forall k, k ∉ key <$> recs -> sel t' !! k = sel t !! k).
Proof.
  revert t. induction recs as [|r recs IH]; intros t Hn E; cbn in E.
  - injection E as ->. split; [intros r Hr; by apply not_elem_of_nil in Hr|done].
  - destruct (ins r t) as [t1|] eqn:E1; [|done]. apply ins_sel in E1 as (v & Hv & Es).
    rewrite fmap_cons in Hn. apply NoDup_cons in Hn as [Hr Hn]. destruct (IH t1 Hn E) as [H1 H2]. split.
    + intros r' [->|Hr']%elem_of_cons; [|by apply H1]. exists v. split; [done|]. rewrite H2 by done. by rewrite Es, lookup_insert_eq.
    + intros k Hk. rewrite fmap_cons, not_elem_of_cons in Hk. destruct Hk as [Hk1 Hk2]. rewrite H2 by done. by rewrite Es, lookup_insert_ne.
Qed.
End Transactions.

(** ** Predictions *)

Definition stored_prediction (r : TorrentPredictionRecord) : option TorrentPredictionRecord :=
  a ← real_col None (pd_DeadProb24h r); b ← real_col None (pd_DeadProb72h r);
  c ← real_col None (pd_ExpectedDeadHours r); e ← real_col None (pd_Entropy r);
  Some ((((r {{ pd_DeadProb24h := a }}) {{ pd_DeadProb72h := b }}) {{ pd_ExpectedDeadHours := c }}) {{ pd_Entropy := e }}).

Lemma insert_prediction_row r t t' :
  insert_prediction r t = Some t' -> exists v, stored_prediction r = Some v /\ mt_predictions t' = <[pd_TorrentID r := v]> (mt_predictions t).
Proof.
  unfold insert_prediction, stored_prediction. destruct (real_col None (pd_DeadProb24h r)); [|done]. cbn.
  destruct (real_col None (pd_DeadProb72h r)); [|done]. cbn. destruct (real_col None (pd_ExpectedDeadHours r)); [|done]. cbn.
  destruct (real_col None (pd_Entropy r)); [|done]. cbn. intros [= <-]. eexists. split; [done|]. by destruct t.
Qed.

(** What the engine predicts reaches the tracker.  When predictions for different
    torrents are committed, the tracker, on the same file, finds for each of them the recommended
    interval, and for every other torrent what it found before; and reading a prediction
    back gives what was written. *)
Theorem prediction_reaches_tracker recs t t' :
  NoDup (pd_TorrentID <$> recs) -> UpsertPredictions false recs t = (t', true) ->
  (forall r, r ∈ recs -> LoadRecommendedInterval (pd_TorrentID r) t' = (pd_RecommendedInterval r, true) /\
     LoadPrediction false (pd_TorrentID r) t' = Some (stored_prediction r)) /\
  (forall id, id ∉ pd_TorrentID <$> recs -> LoadRecommendedInterval id t' = LoadRecommendedInterval id t).
Proof.
  intros Hn E. assert (insert_all insert_prediction recs t = Some t') as Ei.
  { unfold UpsertPredictions, bulk, transaction in E. destruct recs as [|r recs]; [by injection E as <-|]. by destruct (insert_all _ _ t); [injection E as ->|]. }
  destruct (insert_all_rows insert_prediction mt_predictions pd_TorrentID stored_prediction insert_prediction_row recs t t' Hn Ei) as [H1 H2].
  unfold LoadRecommendedInterval, LoadPrediction. split.
  - intros r Hr. destruct (H1 r Hr) as (v & Hv & Hl). rewrite Hl, Hv. split; [|done]. f_equal. unfold stored_prediction in Hv.
    revert Hv. destruct (real_col None (pd_DeadProb24h r)); [|done]. destruct (real_col None (pd_DeadProb72h r)); [|done].
    destruct (real_col None (pd_ExpectedDeadHours r)); [|done]. destruct (real_col None (pd_Entropy r)); [|done]. intros [= <-]. by destruct r.
  - intros id Hid. by rewrite H2.
Qed.

(** ** Candidates *)

Definition stored_candidate (r : FreeleechCandidateRecord) : option FreeleechCandidateRecord :=
  a ← real_col None (fcd_PriorityScore r); b ← real_col None (fcd_DeadProb72h r);
  Some ((r {{ fcd_PriorityScore := a }}) {{ fcd_DeadProb72h := b }}).

Lemma insert_candidate_row r t t' :
  insert_candidate r t = Some t' -> exists v, stored_candidate r = Some v /\ mt_candidates t' = <[fcd_TorrentID r := v]> (mt_candidates t).
Proof.
  unfold insert_candidate, stored_candidate. destruct (real_col None (fcd_PriorityScore r)); [|done]. cbn.
  destruct (real_col None (fcd_DeadProb72h r)); [|done]. cbn. intros [= <-]. eexists. split; [done|]. by destruct t.
Qed.

Lemma real_col_number x v : real_col None x = Some v -> fis_nan v = false.
Proof. destruct x; cbn; by intros [= <-]. Qed.

Lemma stored_candidate_spec r v :
  stored_candidate r = Some v -> fcd_TorrentID v = fcd_TorrentID r /\ fcd_Recommended v = fcd_Recommended r /\ fis_nan (fcd_PriorityScore v) = false.
Proof.
  unfold stored_candidate. destruct (real_col None (fcd_PriorityScore r)) as [a|] eqn:Ea; [|done]. cbn [mbind option_bind].
  destruct (real_col None (fcd_DeadProb72h r)) as [b|]; [|done]. cbn [mbind option_bind]. intros [= <-]. destruct r. cbn.
  split_and!; [done..|]. by eapply real_col_number.
Qed.

(** Numbers are ordered. *)
Lemma fltb_asym x y : fis_nan x = false -> fis_nan y = false -> fltb x y = true -> fltb y x = false.
Proof. intros Hx Hy H. apply not_true_iff_false. rewrite fltb_key in * by done. unfold key_lt in *. lia. Qed.

Lemma fltb_neg_trans x y z : fis_nan x = false -> fis_nan y = false -> fis_nan z = false -> fltb x y = false -> fltb y z = false -> fltb x z = false.
Proof. intros Hx Hy Hz. rewrite <- !not_true_iff_false, !fltb_key by done. unfold key_lt. lia. Qed.

(** By falling score, for scores that are numbers. *)
Lemma falling_sorted {A} (score : A -> float64) (l : list A) :
  Forall (fun a => fis_nan (score a) = false) l ->
  StronglySorted (fun a b => fltb (score a) (score b) = false) (slice_stable (fun a b => fltb (score b) (score a)) l).
Proof.
  intros Hl. apply (slice_stable_sorted (fun a b => fltb (score b) (score a)) (fun a => fis_nan (score a) = false)) in Hl; [done| |].
  - intros a b Ha Hb. by apply fltb_asym.
  - intros a b c Ha Hb Hc H1 H2. by eapply (fltb_neg_trans _ (score b)).
Qed.

Lemma filter_values {K V} (P : V -> Prop) `{!forall x, Decision (P x)} (l : list (K * V)) : filter P l.*2 = (filter (fun kv => P kv.2) l).*2.
Proof.
  induction l as [|[k v] l IH]; [done|]. rewrite fmap_cons, !filter_cons. cbn [snd].
  destruct (decide (P v)); [rewrite fmap_cons|]; by rewrite IH.
Qed.

(** The candidates are those of the last run.  When candidates are committed, what is
    read afterwards are exactly the recommended ones among them, by falling priority and
    up to the number asked for: none of an earlier run is left. *)
Theorem candidates_current order recs t t' n :
  (forall m, order m ≡ₚ map_to_list m) -> recs <> [] -> NoDup (fcd_TorrentID <$> recs) ->
  UpsertFreeleechCandidates false recs t = (t', true) ->
  exists l, LoadFreeleechCandidates order false n t' = Some (limit n l) /\
    StronglySorted (fun a b => fltb (fcd_PriorityScore a) (fcd_PriorityScore b) = false) l /\ NoDup l /\
    forall c, c ∈ l <-> exists r, r ∈ recs /\ fcd_Recommended r = true /\ stored_candidate r = Some c.
Proof.
  intros Ho Hne Hn E. assert (insert_all insert_candidate recs (clear_recommended t) = Some t') as Ei.
  { unfold UpsertFreeleechCandidates in E. destruct recs as [|r recs]; [done|]. by destruct (insert_all _ _ _); [injection E as ->|]. }
  destruct (insert_all_rows insert_candidate mt_candidates fcd_TorrentID stored_candidate insert_candidate_row recs _ t' Hn Ei) as [H1 H2].
  set (rows := filter (fun kc : Z * FreeleechCandidateRecord => fcd_Recommended kc.2 = true) (order (mt_candidates t'))).
  assert (Hrow : forall k c, (k, c) ∈ rows <-> exists r, r ∈ recs /\ fcd_Recommended r = true /\ stored_candidate r = Some c /\ k = fcd_TorrentID r).
  { intros k c. unfold rows. rewrite list_elem_of_filter, Ho, elem_of_map_to_list. cbn [snd]. split.
    - intros [Hc Hk]. destruct (decide (k ∈ fcd_TorrentID <$> recs)) as [Hin|Hout].
      + apply list_elem_of_fmap in Hin as (r & -> & Hr). exists r. destruct (H1 r Hr) as (v & Hv & Hl). assert (v = c) as -> by congruence.
        split; [done|]. split; [|done]. apply stored_candidate_spec in Hv as (_ & Hv & _). congruence.
      + rewrite H2 in Hk by done. destruct t. cbn in Hk. rewrite lookup_fmap in Hk. apply fmap_Some in Hk as (c0 & _ & ->). by destruct c0.
    - intros (r & Hr & Hrec & Hs & ->). destruct (H1 r Hr) as (v & Hv & Hl). assert (v = c) as -> by congruence.
      split; [apply stored_candidate_spec in Hs as (_ & Hs & _); congruence|done]. }
  assert (filter (fun c => fcd_Recommended c = true) (order (mt_candidates t')).*2 = rows.*2) as Ew by exact (filter_values (fun c => fcd_Recommended c = true) _).
  unfold LoadFreeleechCandidates. rewrite Ew. eexists. split; [reflexivity|]. split; [|split].
  - apply falling_sorted, Forall_forall. intros c ([k c'] & -> & (r & _ & _ & Hs & _)%Hrow)%list_elem_of_fmap.
    apply stored_candidate_spec in Hs as (_ & _ & Hs). exact Hs.
  - rewrite slice_stable_perm. apply NoDup_fmap_2_strong.
    + intros [k c] [k' c'] (r & _ & _ & Hs & ->)%Hrow (r' & _ & _ & Hs' & ->)%Hrow E'. cbn in E'. subst c'.
      apply stored_candidate_spec in Hs as (Hs & _), Hs' as (Hs' & _). by rewrite <- Hs, <- Hs'.
    + unfold rows. apply NoDup_filter. rewrite Ho. apply NoDup_map_to_list.
  - intros c. rewrite slice_stable_elem, list_elem_of_fmap. split.
    + intros ([k c'] & -> & (r & ? & ? & ? & _)%Hrow). by exists r.
    + intros (r & Hr & Hrec & Hs). exists (fcd_TorrentID r, c). split; [done|]. apply Hrow. by exists r.
Qed.

(** ** Counts *)

Lemma insert_count_row name e t t' :
  insert_count name e t = Some t' ->
  exists v, real_col (Some real0) e.2 = Some v /\ mt_chain_counts t' = <[(name, e.1.1, e.1.2) := v]> (mt_chain_counts t).
Proof. unfold insert_count. destruct (real_col (Some real0) e.2) as [v|]; [|done]. intros [= <-]. exists v. split; [done|]. by destruct t. Qed.

Lemma count_entries_spec counts i j v :
  ((i, j, v) : Z * Z * float64) ∈ count_entries counts <-> exists a b row, i = Z.of_nat a /\ j = Z.of_nat b /\ counts !! a = Some row /\ row !! b = Some v.
Proof.
  unfold count_entries. rewrite list_elem_of_join. split.
  - intros (l & Hin & Hl). apply elem_of_lookup_imap in Hl as (a & row & -> & Ha). apply elem_of_lookup_imap in Hin as (b & v' & [= -> -> ->] & Hb).
    by exists a, b, row.
  - intros (a & b & row & -> & -> & Ha & Hb). eexists. split; [|apply elem_of_lookup_imap; exists a, row; split; [done|exact Ha]].
    apply elem_of_lookup_imap. by exists b, v.
Qed.

(** Numbering the entries of a list, from a first number. *)
Lemma keys_of_rows (counts : list (list float64)) (k : nat) :
  NoDup (fst <$> mjoin (imap (fun i row => imap (fun j v => (Z.of_nat (k + i), Z.of_nat j, v)) row) counts)) /\
  forall e, e ∈ mjoin (imap (fun i row => imap (fun j v => (Z.of_nat (k + i), Z.of_nat j, v)) row) counts) -> Z.of_nat k <= e.1.1.
Proof.
  assert (forall (row : list float64) (i m : nat), NoDup (fst <$> imap (fun j v => (Z.of_nat i, Z.of_nat (m + j), v)) row) /\
    forall e, e ∈ imap (fun j v => (Z.of_nat i, Z.of_nat (m + j), v)) row -> e.1.1 = Z.of_nat i /\ Z.of_nat m <= e.1.2) as Hrow.
  { induction row as [|v row IH]; intros i m; [split; [constructor|intros e He; by apply not_elem_of_nil in He]|].
    rewrite imap_cons. destruct (IH i (S m)) as [H1 H2].
    assert (imap ((fun (j : nat) (v : float64) => (Z.of_nat i, Z.of_nat (m + j), v)) ∘ S) row = imap (fun j v => (Z.of_nat i, Z.of_nat (S m + j), v)) row) as ->
      by (apply imap_ext; intros j x _; cbn; do 2 f_equal; lia).
    rewrite fmap_cons. split.
    - constructor; [|done]. intros (e & Ee & He)%list_elem_of_fmap. apply H2 in He as [_ He]. cbn in Ee. rewrite <- Ee in He. cbn in He. lia.
    - intros e [->|He]%elem_of_cons; [cbn; lia|]. apply H2 in He. lia. }
  revert k. induction counts as [|row counts IH]; intros k; [split; [constructor|intros e He; by apply not_elem_of_nil in He]|].
  rewrite imap_cons. destruct (IH (S k)) as [H1 H2]. destruct (Hrow row (k + 0)%nat 0%nat) as [R1 R2]. cbn [mjoin list_join].
  assert (imap ((fun (i : nat) (row : list float64) => imap (fun j v => (Z.of_nat (k + i), Z.of_nat j, v)) row) ∘ S) counts =
          imap (fun i row => imap (fun j v => (Z.of_nat (S k + i), Z.of_nat j, v)) row) counts) as ->
    by (apply imap_ext; intros i x _; cbn; apply imap_ext; intros j y _; do 2 f_equal; lia).
  rewrite fmap_app. split.
  - apply NoDup_app. split; [exact R1|]. split; [|done].
    intros x (e & -> & He)%list_elem_of_fmap (e' & Ee & He')%list_elem_of_fmap. apply R2 in He as [He _]. apply H2 in He'. rewrite Ee in He. lia.
  - intros e [He|He]%elem_of_app; [apply R2 in He; lia|apply H2 in He; lia].
Qed.

Lemma count_entries_keys counts : NoDup (fst <$> count_entries counts).
Proof. exact (proj1 (keys_of_rows counts 0)). Qed.

(** Counts come back as they were saved.  Saving the counts of a chain always succeeds if the
    database does; if the table had no entries of this chain outside the matrix, reading the
    chain gives each entry of the matrix once, with its value, where NaN has become
    zero and negative zero zero, and nothing else; and the entries of the other chains are
    what they were. *)
Theorem counts_round_trip order name counts t :
  (forall m, order m ≡ₚ map_to_list m) ->
  (forall i j, is_Some (mt_chain_counts t !! (name, i, j)) -> exists v, ((i, j, v) : Z * Z * float64) ∈ count_entries counts) ->
  exists t' l, UpsertChainCounts false name counts t = (t', true) /\ LoadChainCounts order false name t' = Some l /\ NoDup (fst <$> l) /\
    (forall i j v, (i, j, v) ∈ l <-> exists a b row x, i = Z.of_nat a /\ j = Z.of_nat b /\ counts !! a = Some row /\ row !! b = Some x /\ real_col (Some real0) x = Some v) /\
    (forall name' i j, name' <> name -> mt_chain_counts t' !! (name', i, j) = mt_chain_counts t !! (name', i, j)).
Proof.
  intros Ho Hold.
  assert (exists t', insert_all (insert_count name) (count_entries counts) t = Some t') as [t' Ei].
  { clear Hold. generalize (count_entries counts) as es. intros es. revert t. induction es as [|e es IH]; intros t; [by exists t|]. cbn [insert_all].
    assert (exists t1, insert_count name e t = Some t1) as [t1 ->] by (unfold insert_count; destruct e.2; by eexists). apply IH. }
  assert (NoDup ((fun e : Z * Z * float64 => (name, e.1.1, e.1.2)) <$> count_entries counts)) as Hn.
  { change (NoDup ((fun ij : Z * Z => (name, ij.1, ij.2)) ∘ fst <$> count_entries counts)). rewrite list_fmap_compose. apply NoDup_fmap_2; [intros [] [] [=]; congruence|apply count_entries_keys]. }
  destruct (insert_all_rows (insert_count name) mt_chain_counts (fun e => (name, e.1.1, e.1.2)) (fun e => real_col (Some real0) e.2)
    (insert_count_row name) _ t t' Hn Ei) as [H1 H2].
  assert (Hrow : forall i j v, mt_chain_counts t' !! (name, i, j) = Some v <->
    exists x, (i, j, x) ∈ count_entries counts /\ real_col (Some real0) x = Some v).
  { intros i j v. split.
    - intros Hv. assert (exists x, (i, j, x) ∈ count_entries counts) as [x Hx].
      { destruct (decide ((name, i, j) ∈ (fun e : Z * Z * float64 => (name, e.1.1, e.1.2)) <$> count_entries counts)) as [Hin|Hout].
        - apply list_elem_of_fmap in Hin as ([[i' j'] x] & [= -> ->] & Hx). by exists x.
        - rewrite H2 in Hv by done. apply Hold. by exists v. }
      exists x. split; [done|]. destruct (H1 _ Hx) as (v' & Hv' & Hl). cbn [fst snd] in Hv', Hl. congruence.
    - intros (x & Hx & Hv). destruct (H1 _ Hx) as (v' & Hv' & Hl). cbn [fst snd] in Hv', Hl. congruence. }
  eexists t', _. split; [unfold UpsertChainCounts, transaction; by rewrite Ei|]. split; [reflexivity|]. split; [|split].
  - rewrite <- list_fmap_compose. apply NoDup_fmap_2_strong; [|apply NoDup_filter; rewrite Ho; apply NoDup_map_to_list].
    intros [[[n1 i1] j1] v1] [[[n2 i2] j2] v2] [E1 Hl1]%list_elem_of_filter [E2 Hl2]%list_elem_of_filter E. cbn in *.
    injection E as -> ->. subst. rewrite Ho in Hl1, Hl2. apply elem_of_map_to_list in Hl1, Hl2. congruence.
  - intros i j v. rewrite list_elem_of_fmap. split.
    + intros ([[[n i'] j'] v'] & [= -> -> ->] & [E Hl]%list_elem_of_filter). cbn in E. subst n. rewrite Ho in Hl. apply elem_of_map_to_list, Hrow in Hl as (x & Hx & Hv).
      apply count_entries_spec in Hx as (a & b & row & -> & -> & ? & ?). by exists a, b, row, x.
    + intros (a & b & row & x & -> & -> & Ha & Hb & Hv). exists ((name, Z.of_nat a, Z.of_nat b), v). split; [done|].
      apply list_elem_of_filter. split; [done|]. rewrite Ho. apply elem_of_map_to_list, Hrow. exists x. split; [|done].
      apply count_entries_spec. by exists a, b, row.
  - intros name' i j Hne. apply H2. intros ([[i' j'] x] & [= -> _ _] & _)%list_elem_of_fmap. done.
Qed.

(** ** Histories *)

Inductive markov_op :=
| OCounts (fail : bool) (name : string) (counts : list (list float64))
| OPeerStates (fail : bool) (recs : list PeerStateRecord)
| ODeletePeer (fail : bool) (torrentID uid : Z)
| OExpirePeers (fail : bool) (older : Z)
| OTorrentStates (fail : bool) (recs : list TorrentStateRecord)
| OUserStates (fail : bool) (recs : list UserStateRecord)
| OPredictions (fail : bool) (recs : list TorrentPredictionRecord)
| OAnomalies (fail : bool) (recs : list UserAnomalyRecord)
| OCandidates (fail : bool) (recs : list FreeleechCandidateRecord)
| OQuality (fail : bool) (recs : list PeerQualityRecord)
| OAssign (fail : bool) (rows : list SeederAssignment)
| OFulfill (fail : bool) (torrentID : Z) (uids : list Z) (now : Z)
| OExpire (fail : bool) (cutoff : Z)
| OMetadata (marshal : list float64 -> option string) (fail : bool) (m : ModelMetadata)
| OSetStage (fail : bool) (name : string) (stage : DeploymentStage)
| ORecommend (fail : bool) (r : RecommendationRecord)
| OForecast (fail : bool) (r : ForecastEvalRecord)
| OOutcome (fail : bool) (id outcome : Z) (brier logLoss : float64) (at' : Z).

Definition markov_step (t : MarkovTables) (op : markov_op) : MarkovTables :=
  match op with
  | OCounts fail name counts => (UpsertChainCounts fail name counts t).1
  | OPeerStates fail recs => (UpsertPeerStates fail recs t).1
  | ODeletePeer fail tid uid => (DeletePeerStates fail tid uid t).1
  | OExpirePeers fail older => (ExpireDeadPeerStates fail older t).1
  | OTorrentStates fail recs => (UpsertTorrentStates fail recs t).1
  | OUserStates fail recs => (UpsertUserStates fail recs t).1
  | OPredictions fail recs => (UpsertPredictions fail recs t).1
  | OAnomalies fail recs => (UpsertUserAnomalies fail recs t).1
  | OCandidates fail recs => (UpsertFreeleechCandidates fail recs t).1
  | OQuality fail recs => (UpsertPeerQuality fail recs t).1
  | OAssign fail rows => (BulkInsertSeederAssignments fail rows t).1
  | OFulfill fail tid uids now => (FulfillSeederAssignments fail tid uids now t).1
  | OExpire fail cutoff => (ExpireSeederAssignments fail cutoff t).1
  | OMetadata marshal fail m => (UpsertModelMetadata marshal fail m t).1
  | OSetStage fail name stage => (SetDeploymentStage fail name stage t).1
  | ORecommend fail r => (InsertRecommendation fail r t).1
  | OForecast fail r => (InsertForecastEval fail r t).1
  | OOutcome fail id outcome b l at' => (UpdateForecastOutcome fail id outcome b l at' t).1
  end.

(** Statements of the bulk writers change their own table. *)
Ltac one_row :=
  intros rx tx tx'; unfold insert_count, insert_peer_state, insert_torrent_state, insert_user_state, insert_prediction, insert_anomaly,
    insert_candidate, insert_quality, insert_assignment;
  repeat match goal with |- context [real_col ?d ?x] => destruct (real_col d x); [cbn [mbind option_bind]|done] end;
  intros [= <-]; by destruct tx.

Lemma candidates_frame {A} (sel : MarkovTables -> A) fail recs t :
  (forall r t t', insert_candidate r t = Some t' -> sel t' = sel t) -> sel (clear_recommended t) = sel t ->
  sel (UpsertFreeleechCandidates fail recs t).1 = sel t.
Proof.
  intros Hf Hc. unfold UpsertFreeleechCandidates. destruct recs as [|r recs]; [done|]. destruct fail; [done|].
  pose proof (transaction_frame insert_candidate sel false (r :: recs) (clear_recommended t) Hf) as H. unfold transaction in H.
  destruct (insert_all _ _ _); [|done]. cbn in *. congruence.
Qed.

(** The stage of a chain that is in the table. *)
Definition stage_of (name : string) (t : MarkovTables) : option DeploymentStage := mr_deployment_stage <$> mt_metadata t !! name.

Lemma step_metadata t op :
  match op with OMetadata _ _ _ | OSetStage _ _ _ => True | _ => mt_metadata (markov_step t op) = mt_metadata t end.
Proof.
  destruct op as [fail name counts|fail recs|fail tid uid|fail older|fail recs|fail recs|fail recs|fail recs|fail recs|fail recs|fail rows|
    fail tid uids now|fail cutoff|marshal fail m|fail name stage|fail r|fail r|fail id outcome b l at']; cbn [markov_step]; try done.
  - apply transaction_frame. one_row.
  - apply bulk_frame. one_row.
  - unfold DeletePeerStates. by destruct fail, t.
  - unfold ExpireDeadPeerStates. by destruct fail, t.
  - apply bulk_frame. one_row.
  - apply bulk_frame. one_row.
  - apply bulk_frame. one_row.
  - apply bulk_frame. one_row.
  - apply candidates_frame; [one_row|by destruct t].
  - apply bulk_frame. one_row.
  - apply bulk_frame. one_row.
  - unfold FulfillSeederAssignments. by destruct uids, fail, t.
  - unfold ExpireSeederAssignments. by destruct fail, t.
  - unfold InsertRecommendation. destruct (if fail then _ else _) as [[a b]|]; by destruct t.
  - unfold InsertForecastEval. destruct (if fail then _ else _) as [[a b]|]; by destruct t.
  - unfold UpdateForecastOutcome. destruct fail; [done|]. destruct (mt_forecasts t !! id); [|done].
    destruct (a ← real_col None b; b ← real_col None l; Some (a, b)) as [[x y]|]; by destruct t.
Qed.

(** The stage after a history, by the operator's commands alone. *)
Definition commanded (name : string) (stage : DeploymentStage) (ops : list markov_op) : DeploymentStage :=
  foldl (fun s op => match op with OSetStage false n s' => if String.eqb n name then s' else s | _ => s end) stage ops.

Lemma step_stage name t op s :
  stage_of name t = Some s -> stage_of name (markov_step t op) = Some (commanded name s [op]).
Proof.
  intros Hs. pose proof (step_metadata t op) as Hf. unfold stage_of in *.
  destruct op as [| | | | | | | | | | | | |marshal fail m|fail n s'| | |]; cbn [commanded foldl]; try by rewrite Hf.
  - cbn [markov_step]. unfold UpsertModelMetadata. destruct (if fail then _ else _) as [[a b]|]; [|done]. cbn [fst].
    destruct t. cbn in *. destruct (decide (md_ChainName m = name)) as [<-|Hne]; [|by rewrite lookup_insert_ne].
    rewrite lookup_insert_eq. by destruct (_ !! md_ChainName m); [|done].
  - cbn [markov_step]. unfold SetDeploymentStage. destruct fail; [done|]. destruct t. cbn in *.
    destruct (String.eqb_spec n name) as [->|Hne].
    + rewrite lookup_alter_eq. destruct (_ !! name); done.
    + by rewrite lookup_alter_ne.
Qed.

(** The stage of a model changes by the operator's command only.  For a chain that is in the
    table, the stage after any history of writes to the engine's tables is the
    last one that was set for it, or the one it had: neither new metadata, whatever version and stage
    they state, nor any other write moves it. *)
Theorem stage_by_operator name s t ops :
  stage_of name t = Some s ->
  GetDeploymentStage false name (foldl markov_step t ops) = (commanded name s ops, true).
Proof.
  intros Hs. assert (stage_of name (foldl markov_step t ops) = Some (commanded name s ops)) as H.
  { revert t s Hs. induction ops as [|op ops IH]; intros t s Hs; [done|]. cbn [foldl]. rewrite (IH _ _ (step_stage name t op s Hs)). done. }
  unfold GetDeploymentStage, stage_of in *. by destruct (mt_metadata (foldl markov_step t ops) !! name); cbn in *; [injection H as ->|].
Qed.

(** ** Assignments *)

(** Rows have numbers below the next. *)
Definition assignments_wf (t : MarkovTables) : Prop := forall i a, mt_assignments t !! i = Some a -> i < mt_next_assignment t.

(** The user is seen to seed the torrent: the first time counts. *)
Definition fulfills (a : SeederAssignment) (op : markov_op) : Prop :=
  match op with OFulfill false tid uids _ => tid = sa_TorrentID a /\ sa_UserID a ∈ uids | _ => False end.

(** Times are after 1970, and nothing is expired before its time. *)
Definition timely (now : Z) (op : markov_op) : Prop :=
  match op with OFulfill _ _ _ u => 0 < u | OExpire _ cutoff => cutoff <= now | _ => True end.

Lemma step_assignments t op :
  match op with OAssign _ _ | OFulfill _ _ _ _ | OExpire _ _ => True
  | _ => mt_assignments (markov_step t op) = mt_assignments t /\ mt_next_assignment (markov_step t op) = mt_next_assignment t end.
Proof.
  destruct op as [fail name counts|fail recs|fail tid uid|fail older|fail recs|fail recs|fail recs|fail recs|fail recs|fail recs|fail rows|
    fail tid uids now|fail cutoff|marshal fail m|fail name stage|fail r|fail r|fail id outcome b l at']; cbn [markov_step]; try done.
  - split; apply transaction_frame; one_row.
  - split; apply bulk_frame; one_row.
  - unfold DeletePeerStates. by destruct fail, t.
  - unfold ExpireDeadPeerStates. by destruct fail, t.
  - split; apply bulk_frame; one_row.
  - split; apply bulk_frame; one_row.
  - split; apply bulk_frame; one_row.
  - split; apply bulk_frame; one_row.
  - split; apply candidates_frame; (one_row || by destruct t).
  - split; apply bulk_frame; one_row.
  - unfold UpsertModelMetadata. destruct (if fail then _ else _) as [[a b]|]; by destruct t.
  - unfold SetDeploymentStage. by destruct fail, t.
  - unfold InsertRecommendation. destruct (if fail then _ else _) as [[a b]|]; by destruct t.
  - unfold InsertForecastEval. destruct (if fail then _ else _) as [[a b]|]; by destruct t.
  - unfold UpdateForecastOutcome. destruct fail; [done|]. destruct (mt_forecasts t !! id); [|done].
    destruct (a ← real_col None b; b ← real_col None l; Some (a, b)) as [[x y]|]; by destruct t.
Qed.

(** New rows are put after all others. *)
Lemma assign_rows rows t t' :
  assignments_wf t -> insert_all insert_assignment rows t = Some t' ->
  assignments_wf t' /\ mt_next_assignment t <= mt_next_assignment t' /\ forall i, i < mt_next_assignment t -> mt_assignments t' !! i = mt_assignments t !! i.
Proof.
  revert t. induction rows as [|a rows IH]; intros t Hwf E; cbn in E; [injection E as ->; done|].
  destruct (insert_assignment a t) as [t1|] eqn:E1; [|done].
  assert (mt_next_assignment t1 = mt_next_assignment t + 1 /\ exists v, mt_assignments t1 = <[mt_next_assignment t := v]> (mt_assignments t)) as (En & v & Ea).
  { unfold insert_assignment in E1. destruct (real_col None (sa_UrgencyScore a)); [|done]. injection E1 as <-. destruct t. cbn. split; [lia|by eexists]. }
  destruct (IH t1) as (H1 & H2 & H3); [|done|].
  - intros i b. rewrite Ea, En. intros [[<- _]|[_ Hi]]%lookup_insert_Some; [lia|]. apply Hwf in Hi. lia.
  - split; [done|]. split; [lia|]. intros i Hi. rewrite H3, Ea, lookup_insert_ne by lia. done.
Qed.

(** One row, one step. *)
Lemma step_row now t op i a :
  assignments_wf t -> timely now op -> i < mt_next_assignment t ->
  mt_assignments t !! i = a ->
  let t' := markov_step t op in
  assignments_wf t' /\ mt_next_assignment t <= mt_next_assignment t' /\
  match a with
  | None => mt_assignments t' !! i = None
  | Some a =>
      (fulfills a op /\ pending a = true /\ exists u, 0 < u /\ mt_assignments t' !! i = Some (a {{ sa_FulfilledAt := u }})) \/
      (~ (fulfills a op /\ pending a = true) /\ (mt_assignments t' !! i = Some a \/ mt_assignments t' !! i = None /\ active_at now a = false))
  end.
Proof.
  intros Hwf Ht Hi Ha. pose proof (step_assignments t op) as Hf.
  assert (mt_assignments (markov_step t op) = mt_assignments t /\ mt_next_assignment (markov_step t op) = mt_next_assignment t ->
    (forall b, a = Some b -> ~ (fulfills b op /\ pending b = true)) ->
    assignments_wf (markov_step t op) /\ mt_next_assignment t <= mt_next_assignment (markov_step t op) /\
    match a with None => mt_assignments (markov_step t op) !! i = None | Some a =>
      (fulfills a op /\ pending a = true /\ exists u, 0 < u /\ mt_assignments (markov_step t op) !! i = Some (a {{ sa_FulfilledAt := u }})) \/
      (~ (fulfills a op /\ pending a = true) /\ (mt_assignments (markov_step t op) !! i = Some a \/ mt_assignments (markov_step t op) !! i = None /\ active_at now a = false)) end) as Hsame.
  { intros [E1 E2] Hno. unfold assignments_wf in *. rewrite E1, E2. split; [done|]. split; [lia|]. rewrite Ha. destruct a as [b|]; [right|done].
    split; [by apply Hno|by left]. }
  destruct op as [| | | | | | | | | |fail rows|fail tid uids u|fail cutoff| | | | |]; try (by apply Hsame; [|intros ? _ [[] _]]).
  - cbn [markov_step] in *. unfold BulkInsertSeederAssignments, bulk, transaction in *.
    destruct rows as [|r rows]; [by apply Hsame; [|intros ? _ [[] _]]|]. destruct fail; [by apply Hsame; [|intros ? _ [[] _]]|].
    destruct (insert_all insert_assignment (r :: rows) t) as [t1|] eqn:E; [|by apply Hsame; [|intros ? _ [[] _]]]. cbn [fst] in *.
    destruct (assign_rows _ _ _ Hwf E) as (H1 & H2 & H3). split; [done|]. split; [done|]. rewrite H3, Ha by done.
    destruct a as [b|]; [right|done]. split; [by intros [[] _]|by left].
  - cbn [markov_step] in *. unfold FulfillSeederAssignments in *. destruct uids as [|uid uids]; [apply Hsame; [done|intros b _ [Hb _]; cbn in Hb; destruct fail; [done|]; set_solver]|].
    destruct fail; [by apply Hsame; [|intros ? _ [[] _]]|]. cbn [fst] in *. clear Hsame Hf. destruct t. unfold assignments_wf in *. cbn in *. split; [|split; [lia|]].
    + intros j b Hj. rewrite lookup_fmap in Hj. apply fmap_Some in Hj as (b0 & Hj & _). by apply Hwf in Hj.
    + rewrite lookup_fmap, Ha. destruct a as [b|]; [|done]. cbn.
      destruct (Z.eqb_spec (sa_TorrentID b) tid) as [Et|Et], (pending b) eqn:Ep; cbn; try (right; split; [|by left]; intros [[? ?] ?]; congruence).
      destruct (decide (sa_UserID b ∈ uid :: uids)) as [Hin|Hout].
      * left. split; [done|]. split; [done|]. exists u. split; [done|]. by rewrite bool_decide_eq_true_2.
      * right. rewrite bool_decide_eq_false_2 by done. split; [|by left]. intros [[_ ?] _]. done.
  - cbn [markov_step] in *. unfold ExpireSeederAssignments in *. destruct fail; [by apply Hsame; [|intros ? _ [[] _]]|]. cbn [fst] in *. clear Hsame Hf.
    destruct t. unfold assignments_wf in *. cbn in *. split; [|split; [lia|]].
    + intros j b [Hj _]%map_lookup_filter_Some. by apply Hwf in Hj.
    + destruct a as [b|]; [|by apply map_lookup_filter_None; left]. right. split; [by intros [[] _]|].
      destruct ((sa_ExpiresAt b <=? cutoff) || ((0 <? sa_FulfilledAt b) && (sa_FulfilledAt b <=? cutoff))) eqn:E.
      * right. split; [apply map_lookup_filter_None; right; intros x Hx; cbn; congruence|].
        unfold active_at, pending. destruct (Z.eqb_spec (sa_FulfilledAt b) 0) as [E0|]; [|done]. cbn. rewrite E0 in E. cbn in E. rewrite orb_false_r in E.
        apply Z.leb_le in E. apply Z.ltb_ge. lia.
      * left. by apply map_lookup_filter_Some.
Qed.

(** No assignment, or one that is not active. *)
Definition closed (now : Z) (a : option SeederAssignment) : Prop := forall b, a = Some b -> active_at now b = false.

Lemma closed_step now t op i :
  assignments_wf t -> timely now op -> i < mt_next_assignment t -> closed now (mt_assignments t !! i) -> closed now (mt_assignments (markov_step t op) !! i).
Proof.
  intros Hwf Ht Hi Hc. destruct (step_row now t op i _ Hwf Ht Hi eq_refl) as (_ & _ & H). destruct (mt_assignments t !! i) as [a|]; [|by rewrite H].
  destruct H as [(_ & _ & u & Hu & ->)|(_ & [->|[-> _]])]; [|done..].
  intros b [= <-]. unfold active_at, pending. destruct a. cbn. by destruct (Z.eqb_spec u 0); [lia|].
Qed.

Lemma closed_after now ops t i :
  assignments_wf t -> Forall (timely now) ops -> i < mt_next_assignment t -> closed now (mt_assignments t !! i) ->
  closed now (mt_assignments (foldl markov_step t ops) !! i).
Proof.
  revert t. induction ops as [|op ops IH]; intros t Hwf Ht Hi Hc; [done|]. apply Forall_cons in Ht as [Ht1 Ht2]. cbn [foldl].
  destruct (step_row now t op i _ Hwf Ht1 Hi eq_refl) as (Hwf' & Hi' & _). apply IH; [done..|lia|by apply closed_step].
Qed.

Lemma open_after now ops t i a :
  assignments_wf t -> Forall (timely now) ops -> i < mt_next_assignment t -> mt_assignments t !! i = Some a -> active_at now a = true ->
  (Forall (fun op => ~ fulfills a op) ops /\ mt_assignments (foldl markov_step t ops) !! i = Some a) \/
  (~ Forall (fun op => ~ fulfills a op) ops /\ closed now (mt_assignments (foldl markov_step t ops) !! i)).
Proof.
  revert t. induction ops as [|op ops IH]; intros t Hwf Ht Hi Ha Hact; [by left|]. apply Forall_cons in Ht as [Ht1 Ht2]. cbn [foldl].
  destruct (step_row now t op i _ Hwf Ht1 Hi Ha) as (Hwf' & Hi' & [(Hf & _ & u & Hu & E)|(Hf & [E|[_ Hn]])]); [| |congruence].
  - right. split; [intros [? _]%Forall_cons; done|]. apply closed_after; [done..|lia|]. rewrite E. intros b [= <-].
    unfold active_at, pending. destruct a. cbn. by destruct (Z.eqb_spec u 0); [lia|].
  - assert (~ fulfills a op) as Hnf by (intros Hx; apply Hf; split; [done|]; by apply andb_prop in Hact as [? _]).
    destruct (IH _ Hwf' Ht2 ltac:(lia) E Hact) as [[H1 H2]|[H1 H2]]; [left|right]; (split; [|done]); [by constructor|].
    intros [_ ?]%Forall_cons. done.
Qed.

(** [C36] An assignment is open until the user is first seen to seed the torrent, or until it
    expires.  Take an open assignment, and any history of writes to the engine's
    tables that expires nothing before its time: afterwards the active assignments hold it exactly
    if it has not expired and no committed fulfilment in the history named its torrent and
    its user; and it is then as it was made.  Once fulfilled it is never open again. *)
Theorem assignment_active_until order now t ops i a :
  (forall m, order m ≡ₚ map_to_list m) -> assignments_wf t -> Forall (timely now) ops ->
  mt_assignments t !! i = Some a -> pending a = true ->
  exists l, LoadActiveAssignments order false now (foldl markov_step t ops) = Some l /\
    ((exists a', mt_assignments (foldl markov_step t ops) !! i = Some a' /\ a' ∈ l)
     <-> now < sa_ExpiresAt a /\ Forall (fun op => ~ fulfills a op) ops) /\
    (now < sa_ExpiresAt a /\ Forall (fun op => ~ fulfills a op) ops -> a ∈ l).
Proof.
  intros Ho Hwf Ht Ha Hp. eexists. split; [reflexivity|].
  assert (forall a', mt_assignments (foldl markov_step t ops) !! i = Some a' ->
    (a' ∈ filter (fun a => active_at now a = true) (order (mt_assignments (foldl markov_step t ops))).*2 <-> active_at now a' = true)) as Hl.
  { intros a' Ha'. rewrite list_elem_of_filter. split; [by intros [? _]|]. intros ?. split; [done|]. apply list_elem_of_fmap. exists (i, a'). split; [done|].
    rewrite Ho. by apply elem_of_map_to_list. }
  pose proof (Hwf _ _ Ha) as Hi. unfold active_at in *. rewrite <- (Z.ltb_lt now).
  destruct (now <? sa_ExpiresAt a) eqn:Ee.
  - destruct (open_after now ops t i a Hwf Ht Hi Ha) as [[H1 H2]|[H1 H2]]; [unfold active_at; by rewrite Hp, Ee| |].
    + assert (a ∈ filter (fun a => active_at now a = true) (order (mt_assignments (foldl markov_step t ops))).*2) by (apply Hl; [done|]; by rewrite Hp, Ee).
      split; [split; [done|intros _; by exists a]|done].
    + split; [split; [intros (a' & E & Hin)|]|]; [|by intros [_ ?]..]. apply Hl in Hin; [|done]. specialize (H2 _ E). unfold active_at in H2. congruence.
  - split; [split; [intros (a' & E & Hin)|]|]; [|by intros [? _]..]. apply Hl in Hin; [|done].
    assert (closed now (mt_assignments t !! i)) as Hc by (rewrite Ha; intros b [= <-]; unfold active_at; by rewrite Ee, andb_false_r).
    pose proof (closed_after now ops t i Hwf Ht Hi Hc _ E) as H. unfold active_at in H. congruence.
Qed.

(** ** Defaults *)

Lemma or_int_idem d x : or_int d (or_int d x) = or_int d x.
Proof. unfold or_int. destruct (x =? 0) eqn:E; [by destruct (d =? 0)|by rewrite E]. Qed.
Lemma or_float_idem d x : or_float d (or_float d x) = or_float d x.
Proof. unfold or_float. destruct (feqb x real0) eqn:E; [by destruct (feqb d real0)|by rewrite E]. Qed.
Lemma or_string_idem d x : or_string d (or_string d x) = or_string d x.
Proof. unfold or_string. destruct (String.eqb x "") eqn:E; [by destruct (String.eqb d "")|by rewrite E]. Qed.
Lemma or_int_set d x : d <> 0 -> or_int d x <> 0.
Proof. unfold or_int. destruct (Z.eqb_spec x 0); done. Qed.

(** The defaults are all put in at once: a configuration that was completed is not changed by completing it
    again. *)
Theorem defaults_once c : applyDefaults (applyDefaults c) = applyDefaults c.
Proof. destruct c. unfold applyDefaults. cbn -[flit of_int or_int or_float or_string Z.quot Z.mul]. rewrite !or_int_idem, !or_float_idem, !or_string_idem. reflexivity. Qed.

(** A loaded configuration has no interval, length or count that is zero, except that the steps of a
    forecast may be, when the model's clock is longer than the forecast. *)
Theorem loaded_settings decode file c :
  MarkovLoad decode file = Some c ->
  Forall (fun x => x <> 0) [mc_DecayEveryNPolls c; mc_PollIntervalSec c; mc_PersistIntervalSec c; mc_PathHistoryLen c; mc_ModelClockSec c;
    mc_AnnounceIntervalSec c; mc_PeersTimeoutSec c; mc_MinAnnounceIntervalSec c; mc_MaxAnnounceIntervalSec c; mc_FraudPathMinLen c;
    mc_SuccessThresholdBytes c; mc_FreeleechTopN c; mc_ForecastSampleEveryN c; mc_MaxSeedersPerAssignment c; mc_MaxAssignmentsPerUser c;
    mc_SeederAssignmentTTLSec c; mc_ModelSchemaVersion c] /\
  (mc_ModelClockSec c <= 3600 -> Forall (fun x => x <> 0) [mc_ForecastSteps1h c; mc_ForecastSteps6h c; mc_ForecastSteps24h c; mc_ForecastSteps72h c]).
Proof.
  unfold MarkovLoad. destruct file as [data|]; [|done]. cbn [mbind option_bind]. destruct (decode data) as [c0|]; [|done]. intros [= <-]. split.
  - repeat (apply Forall_cons; split; [apply or_int_set; lia|]). done.
  - cbn -[or_int Z.quot Z.mul]. intros Hc. set (clock := if _ <=? 0 then 900 else _).
    assert (0 < clock <= 3600) as Hclock by (unfold clock; destruct (Z.leb_spec (or_int 900 (mc_ModelClockSec c0)) 0); lia).
    assert (forall k, 1 <= k -> Z.quot (k * 3600) clock <> 0) as Hq by (intros k Hk; assert (1 <= Z.quot (k * 3600) clock); [apply Z.quot_le_lower_bound; nia|lia]).
    repeat (apply Forall_cons; split; [apply or_int_set, Hq; lia|]). done.
Qed.

(** ** Inputs *)

Definition zero_config : MarkovConfig :=
  {| mc_DBPath := ""; mc_DecayFactor := real0; mc_DecayEveryNPolls := 0; mc_PeerDecayFactor := real0; mc_TorrentDecayFactor := real0;
     mc_UserDecayFactor := real0; mc_SmoothingAlpha := real0; mc_PollIntervalSec := 0; mc_PersistIntervalSec := 0; mc_PathHistoryLen := 0;
     mc_ModelClockSec := 0; mc_AnnounceIntervalSec := 0; mc_PeersTimeoutSec := 0; mc_MinAnnounceIntervalSec := 0; mc_MaxAnnounceIntervalSec := 0;
     mc_HysteresisFactor := real0; mc_MinEvidenceForAdaptiveInterval := real0; mc_ForecastSteps1h := 0; mc_ForecastSteps6h := 0;
     mc_ForecastSteps24h := 0; mc_ForecastSteps72h := 0; mc_FraudThresholdSigma := real0; mc_FraudPathMinLen := 0; mc_SuccessThresholdBytes := 0;
     mc_FreeleechTopN := 0; mc_ForecastSampleEveryN := 0; mc_MaxSeedersPerAssignment := 0; mc_MaxAssignmentsPerUser := 0;
     mc_SeederAssignmentTTLSec := 0; mc_SeederMinUrgencyScore := real0; mc_ShadowMode := false; mc_ModelSchemaVersion := 0;
     mc_ListenAddr := ""; mc_RedisURL := ""; mc_RedisPassword := "" |}.

(** A setting of zero does not switch the evidence threshold off, nor the snapshots of forecasts. *)
Example zero_is_default :
  mc_MinEvidenceForAdaptiveInterval (applyDefaults zero_config) = of_int 20 /\ mc_ForecastSampleEveryN (applyDefaults zero_config) = 12 /\
  mc_ForecastSteps72h (applyDefaults zero_config) = 288.
Proof. vm_compute. done. Qed.

(** With a clock of two hours the forecast for one hour has no steps. *)
Example long_clock : mc_ForecastSteps1h (applyDefaults (zero_config {{ mc_ModelClockSec := 7200 }})) = 0.
Proof. vm_compute. done. Qed.

Definition a_candidate (id : Z) (score : Z) : FreeleechCandidateRecord := mkCandidate id (of_int score) (flit 1 2) true 1000.
Definition in_order {K V} `{Countable K} (m : gmap K V) : list (K * V) := map_to_list m.

(** When nothing is recommended any more, the old recommendations stay. *)
Example candidates_stale :
  let t := (UpsertFreeleechCandidates false [] (UpsertFreeleechCandidates false [a_candidate 1 5; a_candidate 2 7] createSchema).1).1 in
  option_map (map fcd_TorrentID) (LoadFreeleechCandidates in_order false 10 t) = Some [2; 1].
Proof. vm_compute. done. Qed.

(** A new version of a model keeps the stage of the old one. *)
Definition a_model (version : Z) : ModelMetadata := mkMetadata "peer" version (flit 995 1000) (of_int 1) 60 version [] StageShadow 1000 1000.
Example version_keeps_stage :
  let t0 := (UpsertModelMetadata (fun _ => Some "[]") false (a_model 1) createSchema).1 in
  let t1 := (SetDeploymentStage false "peer" StageActive t0).1 in
  let t2 := (UpsertModelMetadata (fun _ => Some "[]") false (a_model 2) t1).1 in
  GetDeploymentStage false "peer" t2 = (StageActive, true) /\ mr_schema_version <$> mt_metadata t2 !! "peer" = Some 2.
Proof. vm_compute. done. Qed.

(** A count that is no number is saved as zero; a score that is no number stops the transaction. *)
Example no_number :
  mt_chain_counts (UpsertChainCounts false "peer" [[SpecFloat.S754_nan]] createSchema).1 !! ("peer", 0, 0) = Some real0 /\
  (UpsertFreeleechCandidates false [a_candidate 1 5; ((a_candidate 2 7) {{ fcd_PriorityScore := SpecFloat.S754_nan }})] createSchema) = (createSchema, false).
Proof. vm_compute. done. Qed.

(** ** Instances *)

Definition a_prediction (id interval : Z) : TorrentPredictionRecord :=
  mkPrediction id 1 "[]" "[]" "[]" (flit 1 4) (flit 1 2) (of_int 3) (of_int 1) interval 1000.

Lemma prediction_reaches_tracker_witness :
  LoadRecommendedInterval 2 (UpsertPredictions false [a_prediction 1 900; a_prediction 2 1200] createSchema).1 = (1200, true).
Proof.
  refine (proj1 (proj1 (prediction_reaches_tracker [a_prediction 1 900; a_prediction 2 1200] createSchema _ _ _) (a_prediction 2 1200) _)).
  - by apply (bool_decide_unpack _); vm_compute.
  - vm_compute. reflexivity.
  - right. left.
Defined.

Lemma candidates_current_witness : exists l,
  LoadFreeleechCandidates in_order false 1 (UpsertFreeleechCandidates false [a_candidate 1 5; a_candidate 2 7] createSchema).1 = Some (limit 1 l) /\
  a_candidate 2 7 ∈ l.
Proof.
  destruct (candidates_current in_order [a_candidate 1 5; a_candidate 2 7] createSchema
    (UpsertFreeleechCandidates false [a_candidate 1 5; a_candidate 2 7] createSchema).1 1) as (l & E & _ & _ & H).
  - intros m. reflexivity.
  - discriminate.
  - by apply (bool_decide_unpack _); vm_compute.
  - vm_compute. reflexivity.
  - exists l. split; [exact E|]. apply H. exists (a_candidate 2 7). split; [right; left|]. split; vm_compute; reflexivity.
Defined.

Lemma counts_round_trip_witness : exists l,
  LoadChainCounts in_order false "peer" (UpsertChainCounts false "peer" [[of_int 3; of_int 1]; [of_int 0; of_int 2]] createSchema).1 = Some l /\
  (1, 1, of_int 2) ∈ l.
Proof.
  destruct (counts_round_trip in_order "peer" [[of_int 3; of_int 1]; [of_int 0; of_int 2]] createSchema) as (t' & l & E1 & E2 & _ & H & _).
  - intros m. reflexivity.
  - intros i j [v Hv]. vm_compute in Hv. discriminate Hv.
  - exists l. rewrite E1. split; [exact E2|]. apply H. exists 1%nat, 1%nat, [of_int 0; of_int 2], (of_int 2). by split_and!.
Defined.

Lemma stage_by_operator_witness :
  GetDeploymentStage false "peer" (foldl markov_step (UpsertModelMetadata (fun _ => Some "[]") false (a_model 1) createSchema).1
    [OSetStage false "peer" StageAdvisory; OMetadata (fun _ => Some "[]") false (a_model 2); OSetStage true "peer" StageActive]) = (StageAdvisory, true).
Proof. apply (stage_by_operator "peer" StageShadow). vm_compute. reflexivity. Defined.

Definition an_assignment (uid : Z) : SeederAssignment := mkAssignment 0 uid 5 (flit 1 2) 1000 0 5000.
Lemma assignment_active_until_witness : exists l,
  LoadActiveAssignments in_order false 3000 (foldl markov_step (BulkInsertSeederAssignments false [an_assignment 7; an_assignment 8] createSchema).1
    [OFulfill false 5 [8] 2000; OExpire false 3000; OFulfill false 6 [7] 2500]) = Some l /\ (an_assignment 7) {{ sa_ID := 1 }} ∈ l.
Proof.
  destruct (assignment_active_until in_order 3000 (BulkInsertSeederAssignments false [an_assignment 7; an_assignment 8] createSchema).1
    [OFulfill false 5 [8] 2000; OExpire false 3000; OFulfill false 6 [7] 2500] 1 ((an_assignment 7) {{ sa_ID := 1 }})) as (l & E & _ & H).
  - intros m. reflexivity.
  - apply (proj1 (assign_rows [an_assignment 7; an_assignment 8] createSchema _ ltac:(intros i a Ha; vm_compute in Ha; discriminate Ha) eq_refl)).
  - repeat constructor; cbn; lia.
  - vm_compute. reflexivity.
  - reflexivity.
  - exists l. split; [exact E|]. apply H. split; [cbn; lia|]. repeat constructor; cbn; [|tauto|lia]. intros [_ Hin]. apply list_elem_of_singleton in Hin. discriminate Hin.
Defined.
