(* ===== verification/Streams.v ===== *)
(** * Swarm health and event streams (health.go, event_bus.go, sse.go)

    The scan that classifies every swarm, the bus that fans its events out to
    subscribers with a buffer each, and the endpoint that streams them.  The order
    of the scan over the torrents is an argument. *)
From Stdlib Require Import String.
From S2P Require Import Prelude GoStr GoSort NetIP TrackerTypes Bencode Server EventsSpec.
Open Scope list_scope.
Open Scope string_scope.
Open Scope Z_scope.

(** ** Swarm health (health.go) *)

Inductive TorrentHealthStatus := HealthDark | HealthSPOF | HealthDegraded | HealthOK.
#[export] Instance TorrentHealthStatus_eq : EqDecision TorrentHealthStatus.
Proof. solve_decision. Defined.

Record TorrentHealthRecord := mkHealth {
  hr_InfoHash : string;
  hr_TorrentID : Z;
  hr_Seeders : Z;
  hr_Leechers : Z;
  hr_Completed : Z;
  hr_MinReplicas : Z;
  hr_Status : TorrentHealthStatus
}.

Record SwarmHealthSnapshot := mkHealthSnapshot {
  hs_ScannedAt : Z;
  hs_TotalTorrents : Z;
  hs_HealthyCount : Z;
  hs_Dark : list TorrentHealthRecord;
  hs_SPOF : list TorrentHealthRecord;
  hs_Degraded : list TorrentHealthRecord
}.

Definition classify (seeders leechers completed minReplicas : Z) : TorrentHealthStatus :=
  if (seeders =? 0) && (0 <? leechers) then HealthDark
  else if (seeders =? 1) && (0 <? completed) then HealthSPOF
  else if (0 <? minReplicas) && (u32 seeders <? minReplicas) then HealthDegraded
  else HealthOK.

Definition health_record (hash : string) (t : Torrent) : TorrentHealthRecord :=
  let seeders := Size (t_Seeders t) in
  let leechers := Size (t_Leechers t) in
  mkHealth hash (t_ID t) seeders leechers (t_Completed t) (t_MinReplicas t) (classify seeders leechers (t_Completed t) (t_MinReplicas t)).

Definition scan_torrent (kv : string * Torrent) (snap : SwarmHealthSnapshot) : SwarmHealthSnapshot :=
  let snap := snap {{ hs_TotalTorrents := hs_TotalTorrents snap + 1 }} in
  let rec := health_record kv.1 kv.2 in
  match hr_Status rec with
  | HealthDark => snap {{ hs_Dark := (hs_Dark snap ++ [rec])%list }}
  | HealthSPOF => snap {{ hs_SPOF := (hs_SPOF snap ++ [rec])%list }}
  | HealthDegraded => snap {{ hs_Degraded := (hs_Degraded snap ++ [rec])%list }}
  | HealthOK => snap {{ hs_HealthyCount := hs_HealthyCount snap + 1 }}
  end.

Definition scan (now : Z) (order : TorrentList -> list (string * Torrent)) (torrents : TorrentList) : SwarmHealthSnapshot :=
  foldl (fun snap kv => scan_torrent kv snap) (mkHealthSnapshot now 0 0 [] [] []) (order torrents).

(** ** The bus with a channel per subscriber (event_bus.go) *)

(** The kind and the text of an event. *)
Record BusEvent := mkBusEvent { be_Type : string; be_JSON : option string; be_Time : Z }.

Record Channel := mkChannel { cn_cap : Z; cn_buf : list BusEvent }.

Abbreviation EventBus := (gmap string Channel).

Definition NewEventBus : EventBus := ∅.

(** An id that is in use keeps its channel, whatever size is asked for. *)
Definition bus_subscribe (id : string) (bufSize : Z) (b : EventBus) : EventBus :=
  match b !! id with Some _ => b | None => <[id := mkChannel bufSize []]> b end.

(** Closing and removing the channel happen under one lock, so nothing is sent to
    a closed channel. *)
Definition bus_unsubscribe (id : string) (b : EventBus) : EventBus := delete id b.

Definition bus_offer (e : BusEvent) (c : Channel) : Channel :=
  if len (cn_buf c) <? cn_cap c then c {{ cn_buf := (cn_buf c ++ [e])%list }} else c.

Definition bus_publish (e : BusEvent) (b : EventBus) : EventBus := bus_offer e <$> b.

Definition SubscriberCount (b : EventBus) : Z := Z.of_nat (size b).

(** A subscriber takes the next event from its channel. *)
Definition bus_receive (id : string) (b : EventBus) : EventBus * option BusEvent :=
  match b !! id with
  | Some c => match cn_buf c with e :: rest => (<[id := c {{ cn_buf := rest }}]> b, Some e) | [] => (b, None) end
  | None => (b, None)
  end.

Inductive BusOp := OpSubscribe (id : string) (bufSize : Z) | OpUnsubscribe (id : string) | OpPublish (e : BusEvent) | OpReceive (id : string).

(** The bus and what the subscribers received, each with its id. *)
Definition bus_op (s : EventBus * list (string * BusEvent)) (op : BusOp) : EventBus * list (string * BusEvent) :=
  let '(b, got) := s in
  match op with
  | OpSubscribe id n => (bus_subscribe id n b, got)
  | OpUnsubscribe id => (bus_unsubscribe id b, got)
  | OpPublish e => (bus_publish e b, got)
  | OpReceive id => let '(b, e) := bus_receive id b in (b, match e with Some e => (got ++ [(id, e)])%list | None => got end)
  end.

(** ** The endpoint (sse.go) *)

Definition sse_authed (authorization queryAuth sitePassword : string) : bool :=
  if String.prefix "Bearer " authorization && String.eqb (String.substring 7 (String.length authorization - 7) authorization) sitePassword then true
  else String.eqb queryAuth sitePassword.

Definition sseBufSize : Z := 256.

(** The start of a stream: refused, or subscribed under the name made of the
    address and the time. *)
Definition sse_open (authorization queryAuth sitePassword remoteAddr : string) (nowNano : Z) (b : EventBus) : EventBus * result Z string :=
  if negb (sse_authed authorization queryAuth sitePassword) then (b, Err 401)
  else let subID := "sse-" ++ remoteAddr ++ "-" ++ dec nowNano in (bus_subscribe subID sseBufSize b, Ok subID).

(** The next piece of the stream: events that cannot be written as JSON are skipped. *)
Definition sse_event (subID : string) (b : EventBus) : EventBus * option string :=
  let '(b, e) := bus_receive subID b in
  (b, match e with Some e => match be_JSON e with Some data => Some ("data: " ++ data ++ string_of_bytes [10; 10]) | None => None end | None => None end).

(** ** Theorems *)

(** The classes do not overlap, and the rules come in their order. *)
Lemma classify_spec seeders leechers completed minReplicas : in_u32 seeders ->
  (classify seeders leechers completed minReplicas = HealthDark <-> seeders = 0 /\ 0 < leechers) /\
  (classify seeders leechers completed minReplicas = HealthSPOF <-> seeders = 1 /\ 0 < completed) /\
  (classify seeders leechers completed minReplicas = HealthDegraded <->
     0 < minReplicas /\ seeders < minReplicas /\ ~ (seeders = 0 /\ 0 < leechers) /\ ~ (seeders = 1 /\ 0 < completed)).
Proof.
  intros Hs. unfold classify. rewrite (u32_id seeders Hs).
  destruct (Z.eqb_spec seeders 0), (Z.ltb_spec 0 leechers), (Z.eqb_spec seeders 1), (Z.ltb_spec 0 completed), (Z.ltb_spec 0 minReplicas), (Z.ltb_spec seeders minReplicas);
    cbn; (split; [|split]); (split; intros Hx; [done || (repeat split; lia)|done || lia]).
Qed.

(** *** The scan *)

Definition class_records (st : TorrentHealthStatus) (l : list (string * Torrent)) : list TorrentHealthRecord :=
  filter (fun r => hr_Status r = st) ((fun kv => health_record kv.1 kv.2) <$> l).

Lemma scan_fold l snap :
  let r := foldl (fun snap kv => scan_torrent kv snap) snap l in
  hs_ScannedAt r = hs_ScannedAt snap /\
  hs_TotalTorrents r = hs_TotalTorrents snap + len l /\
  hs_HealthyCount r = hs_HealthyCount snap + len (class_records HealthOK l) /\
  hs_Dark r = (hs_Dark snap ++ class_records HealthDark l)%list /\
  hs_SPOF r = (hs_SPOF snap ++ class_records HealthSPOF l)%list /\
  hs_Degraded r = (hs_Degraded snap ++ class_records HealthDegraded l)%list.
Proof.
  revert snap. induction l as [|kv l IH]; intros snap; cbv zeta; cbn [foldl].
  - unfold class_records, len. cbn. rewrite !app_nil_r. repeat split; lia.
  - destruct (IH (scan_torrent kv snap)) as (-> & -> & -> & -> & -> & ->).
    unfold class_records, scan_torrent. rewrite !fmap_cons, !filter_cons.
    generalize (health_record kv.1 kv.2). intros rec. destruct snap.
    destruct (hr_Status rec); cbn;
      repeat (case_decide; [|try done]); try done;
      unfold len; cbn [length]; rewrite <- ?app_assoc; cbn [app]; repeat split; lia.
Qed.

(** The swarms of a scan, by class. *)
Lemma class_records_In (torrents : TorrentList) (l : list (string * Torrent)) st rec :
  l ≡ₚ map_to_list torrents ->
  rec ∈ class_records st l <-> exists hash t, torrents !! hash = Some t /\ rec = health_record hash t /\ hr_Status rec = st.
Proof.
  intros Hp. unfold class_records. rewrite list_elem_of_filter, list_elem_of_fmap. split.
  - intros (Hst & [h t] & -> & Hin). rewrite Hp in Hin. apply elem_of_map_to_list in Hin. by exists h, t.
  - intros (h & t & Hl & -> & Hst). split; [done|]. exists (h, t). split; [done|]. rewrite Hp. by apply elem_of_map_to_list.
Qed.

Lemma class_lengths l : len (class_records HealthOK l) + len (class_records HealthDark l) + len (class_records HealthSPOF l) + len (class_records HealthDegraded l) = len l.
Proof.
  unfold class_records, len. induction l as [|kv l IH]; [done|]. rewrite fmap_cons, !filter_cons.
  destruct (hr_Status (health_record kv.1 kv.2)); repeat (case_decide; [|try done]); try done; cbn [length]; lia.
Qed.

(** The swarm health scan is exact.  Whatever order the torrents are visited
    in, the snapshot counts each of them once, lists as dark exactly the torrents
    with leechers and no seeder, as a single point of failure exactly those with
    one seeder and a completed download, as degraded exactly those that have fewer
    seeders than their wanted replicas and are in neither of the first two lists,
    and counts every other torrent as healthy. *)
Theorem health_scan now order (torrents : TorrentList) :
  (order torrents ≡ₚ map_to_list torrents) ->
  (forall h t, torrents !! h = Some t -> in_u32 (Size (t_Seeders t))) ->
  let s := scan now order torrents in
  hs_TotalTorrents s = Z.of_nat (size torrents) /\
  hs_TotalTorrents s = hs_HealthyCount s + len (hs_Dark s) + len (hs_SPOF s) + len (hs_Degraded s) /\
  (forall rec, rec ∈ hs_Dark s <-> exists h t, torrents !! h = Some t /\ rec = health_record h t /\ Size (t_Seeders t) = 0 /\ 0 < Size (t_Leechers t)) /\
  (forall rec, rec ∈ hs_SPOF s <-> exists h t, torrents !! h = Some t /\ rec = health_record h t /\ Size (t_Seeders t) = 1 /\ 0 < t_Completed t) /\
  (forall rec, rec ∈ hs_Degraded s <-> exists h t, torrents !! h = Some t /\ rec = health_record h t /\
     0 < t_MinReplicas t /\ Size (t_Seeders t) < t_MinReplicas t /\
     ~ (Size (t_Seeders t) = 0 /\ 0 < Size (t_Leechers t)) /\ ~ (Size (t_Seeders t) = 1 /\ 0 < t_Completed t)).
Proof.
  intros Hp Hu s.
  destruct (scan_fold (order torrents) (mkHealthSnapshot now 0 0 [] [] [])) as (_ & Ht & Hh & Hd & Hs & Hg).
  fold (scan now order torrents) in Ht, Hh, Hd, Hs, Hg. fold s in Ht, Hh, Hd, Hs, Hg. cbn in Hd, Hs, Hg.
  pose proof (class_lengths (order torrents)) as Hl.
  assert (Hsz : len (order torrents) = Z.of_nat (size torrents)).
  { unfold len. by rewrite Hp, length_map_to_list. }
  split; [rewrite Ht, Hsz; cbn; lia|]. split; [rewrite Ht, Hh, Hd, Hs, Hg; cbn; lia|].
  rewrite Hd, Hs, Hg.
  split; [|split]; intros rec; rewrite (class_records_In _ _ _ _ Hp); split; intros (h & t & Hl' & -> & Hc); exists h, t; (split; [done|]); (split; [done|]);
    pose proof (classify_spec (Size (t_Seeders t)) (Size (t_Leechers t)) (t_Completed t) (t_MinReplicas t) (Hu _ _ Hl')) as (H1 & H2 & H3);
    first [by apply H1|by apply H2|by apply H3].
Qed.

(** *** The bus *)

(** What one subscriber was sent and took, between two subscriptions. *)
Definition quiet (id : string) (op : BusOp) : bool :=
  match op with OpUnsubscribe i => negb (String.eqb i id) | _ => true end.

Definition published (ops : list BusOp) : list BusEvent :=
  omap (fun op => match op with OpPublish e => Some e | _ => None end) ops.

Definition received (id : string) (got : list (string * BusEvent)) : list BusEvent :=
  omap (fun p => if String.eqb p.1 id then Some p.2 else None) got.

Lemma received_app id l1 l2 : received id (l1 ++ l2)%list = (received id l1 ++ received id l2)%list.
Proof. unfold received. by rewrite omap_app. Qed.

Lemma received_one id i e : received id [(i, e)] = if String.eqb i id then [e] else [].
Proof. unfold received. cbn. by destruct (String.eqb i id). Qed.

(** What one operation does to the channel of [id]: its size stays, at most the
    published event is added at the end, and what is taken comes off the front. *)
Lemma bus_op_channel id b got op c : b !! id = Some c -> quiet id op = true ->
  exists c' new, (bus_op (b, got) op).1 !! id = Some c' /\ cn_cap c' = cn_cap c /\
    new `sublist_of` published [op] /\
    (len (cn_buf c) <= cn_cap c -> len (cn_buf c') <= cn_cap c') /\
    (len (cn_buf c) < cn_cap c -> new = published [op]) /\
    (received id (bus_op (b, got) op).2 ++ cn_buf c' = received id got ++ cn_buf c ++ new)%list.
Proof.
  intros Hb Hq.
  assert (Hkeep : forall (b' : EventBus) got', b' !! id = Some c -> received id got' = received id got ->
    exists c' new, b' !! id = Some c' /\ cn_cap c' = cn_cap c /\ new `sublist_of` [] /\
      (len (cn_buf c) <= cn_cap c -> len (cn_buf c') <= cn_cap c') /\ (len (cn_buf c) < cn_cap c -> new = []) /\
      (received id got' ++ cn_buf c' = received id got ++ cn_buf c ++ new)%list).
  { intros b' got' H1 H2. exists c, []. rewrite app_nil_r, H2. by split_and!. }
  destruct op as [i n|i|e|i]; cbn [bus_op fst snd].
  - apply Hkeep; [|done]. unfold bus_subscribe. destruct (b !! i) eqn:Ei; [done|]. rewrite lookup_insert_ne; [done|congruence].
  - apply Hkeep; [|done]. unfold bus_unsubscribe. cbn in Hq. apply negb_true_iff, String.eqb_neq in Hq. by rewrite lookup_delete_ne.
  - unfold bus_publish. rewrite lookup_fmap, Hb. cbn [fmap option_fmap option_map].
    unfold bus_offer. destruct (Z.ltb_spec (len (cn_buf c)) (cn_cap c)).
    + exists (c {{ cn_buf := (cn_buf c ++ [e])%list }}), [e]. destruct c; cbn in *. split_and!; try done.
      intros _. unfold len in *. rewrite length_app. cbn [length]. lia.
    + exists c, []. rewrite app_nil_r. split_and!; try done; [apply sublist_nil_l|lia].
  - unfold bus_receive. destruct (b !! i) as [ci|] eqn:Ei; [|by apply Hkeep].
    destruct (cn_buf ci) as [|e rest] eqn:Eb; cbn [fst snd]; [by apply Hkeep|].
    destruct (String.eqb_spec i id) as [->|Hne].
    + rewrite Hb in Ei. injection Ei as ->. exists (ci {{ cn_buf := rest }}), []. rewrite lookup_insert_eq.
      rewrite app_nil_r, received_app, received_one, String.eqb_refl, <- app_assoc. destruct ci; cbn in *; subst. split_and!; try done.
      unfold len. cbn [length]. lia.
    + apply Hkeep; [by rewrite lookup_insert_ne|]. rewrite received_app, received_one.
      apply String.eqb_neq in Hne. by rewrite Hne, app_nil_r.
Qed.

(** Each subscriber of the event bus receives an ordered selection of the
    events.  From a subscription on, and while it lasts, whatever the other
    subscribers, publishers and this subscriber's reads do in between: what it has
    taken followed by what waits in its channel is a subsequence of the published
    events, in their order and without repetition, and no more than the size of
    the channel waits. *)
Theorem bus_stream_fifo id b got c ops : b !! id = Some c -> len (cn_buf c) <= cn_cap c -> forallb (quiet id) ops = true ->
  exists c' kept, (foldl bus_op (b, got) ops).1 !! id = Some c' /\ kept `sublist_of` published ops /\
    (received id (foldl bus_op (b, got) ops).2 ++ cn_buf c' = received id got ++ cn_buf c ++ kept)%list /\
    cn_cap c' = cn_cap c /\ len (cn_buf c') <= cn_cap c'.
Proof.
  revert b got c. induction ops as [|op ops IH]; intros b got c Hb Hlen Hq.
  - exists c, []. rewrite app_nil_r. by split_and!.
  - cbn in Hq. apply andb_true_iff in Hq as [Hq1 Hq].
    destruct (bus_op_channel id b got op c Hb Hq1) as (c1 & new & H1 & Hc1 & Hs1 & Hl1 & _ & He1).
    cbn [foldl]. destruct (bus_op (b, got) op) as [b1 got1]. cbn [fst snd] in H1, He1.
    destruct (IH b1 got1 c1 H1 (Hl1 Hlen) Hq) as (c2 & kept & H2 & Hs2 & He2 & Hc2 & Hl2).
    exists c2, (new ++ kept)%list. repeat split; [done| | |congruence|done].
    + change (op :: ops) with ([op] ++ ops)%list. unfold published. rewrite omap_app. by apply sublist_app.
    + rewrite He2, app_assoc, He1. by rewrite <- !app_assoc.
Qed.

(** *** The endpoint *)

Lemma append_cancel_l (p x y : string) : (p ++ x = p ++ y)%string -> x = y.
Proof. induction p as [|a p IH]; [by rewrite !append_nil_l|]. rewrite !append_cons. intros [= E]. by apply IH. Qed.

Lemma bearer_substring tok : String.substring 7 (String.length ("Bearer " ++ tok) - 7) ("Bearer " ++ tok) = tok.
Proof. rewrite length_append. replace (_ - 7)%nat with (String.length tok) by (cbn; lia). exact (substring_app_r "Bearer " tok). Qed.

(** The stream opens for whoever presents the site password as a bearer token or
    as the query parameter, and for nobody else. *)
Lemma sse_authed_iff authorization queryAuth sitePassword :
  sse_authed authorization queryAuth sitePassword = true <->
  authorization = ("Bearer " ++ sitePassword)%string \/ queryAuth = sitePassword.
Proof.
  unfold sse_authed. destruct (String.prefix "Bearer " authorization) eqn:Ep.
  - apply prefix_spec in Ep as [tok ->]. rewrite bearer_substring. cbn [andb].
    destruct (String.eqb_spec tok sitePassword) as [->|Hne]; [split; [by left|done]|].
    rewrite String.eqb_eq. split; [by right|]. intros [E|E]; [|done]. by apply append_cancel_l in E.
  - cbn [andb]. rewrite String.eqb_eq. split; [by right|]. intros [->|E]; [|done]. exfalso.
    enough (String.prefix "Bearer " ("Bearer " ++ sitePassword) = true) by congruence. apply prefix_spec. by exists sitePassword.
Qed.

(** With no site password configured, everyone is let in. *)
Example sse_open_without_password : sse_authed "" "" "" = true.
Proof. reflexivity. Qed.

(** *** Witnesses *)

Definition ex_torrents : TorrentList :=
  <["dark" := (NewTorrent 1) {{ t_Leechers := {["x" := zeroPeer 1]} }}]> {["ok" := NewTorrent 2]}.

Lemma health_scan_witness : len (hs_Dark (scan 0 map_to_list ex_torrents)) = 1 /\
  hs_TotalTorrents (scan 0 map_to_list ex_torrents) = Z.of_nat (size ex_torrents).
Proof.
  split; [vm_compute; reflexivity|]. refine (proj1 (health_scan 0 map_to_list ex_torrents _ _)); [done|].
  intros h t H. unfold ex_torrents in H. apply lookup_insert_Some in H as [[_ <-]|[_ H]].
  - split; vm_compute; congruence.
  - apply lookup_singleton_Some in H as [_ <-]. split; vm_compute; congruence.
Defined.

Definition ex_event (n : Z) : BusEvent := mkBusEvent "announce" (Some "{}") n.

Lemma bus_stream_fifo_witness :
  let ops := [OpPublish (ex_event 1); OpPublish (ex_event 2); OpReceive "a"; OpPublish (ex_event 3)] in
  exists c' kept, (foldl bus_op ({["a" := mkChannel 1 []]}, []) ops).1 !! "a" = Some c' /\ kept `sublist_of` published ops /\
    (received "a" (foldl bus_op ({["a" := mkChannel 1 []]}, []) ops).2 ++ cn_buf c' = [] ++ [] ++ kept)%list /\
    cn_cap c' = 1 /\ len (cn_buf c') <= cn_cap c'.
Proof. intros ops. apply (bus_stream_fifo "a" _ [] (mkChannel 1 []) ops); [reflexivity|vm_compute; congruence|reflexivity]. Defined.
