(* ===== verification/VsDomain.v ===== *)
(** * Virtual server: domain types and paths (virtualserver/domain)

    The state machines of nodes, instances, operations and volumes, their
    records, validation of manifests, and [vs://] paths.  The states
    are the constants of the source; rows never hold another text.  Error
    texts are left out: a failed parse is [None], a manifest has the list of
    the checks it fails. *)
From Stdlib Require Import Ascii String.
From S2P Require Import Prelude GoStr Bencode Server.
Open Scope string_scope.
Open Scope list_scope.
Open Scope Z_scope.

(** ** Instances *)

Inductive InstanceState :=
| InstanceDeclared | InstanceScheduled | InstanceProvisioning | InstanceStarting | InstanceRunning
| InstanceDegraded | InstanceStopping | InstanceFailed | InstanceTerminated.

#[export] Instance InstanceState_eq : EqDecision InstanceState.
Proof. solve_decision. Defined.

Definition allowedInstanceTransitions (from : InstanceState) : list InstanceState :=
  match from with
  | InstanceDeclared => [InstanceScheduled; InstanceFailed]
  | InstanceScheduled => [InstanceProvisioning; InstanceFailed]
  | InstanceProvisioning => [InstanceStarting; InstanceFailed]
  | InstanceStarting => [InstanceRunning; InstanceFailed]
  | InstanceRunning => [InstanceDegraded; InstanceStopping]
  | InstanceDegraded => [InstanceRunning; InstanceStopping; InstanceFailed]
  | InstanceStopping => [InstanceTerminated]
  | InstanceFailed => [InstanceDeclared; InstanceTerminated]
  | InstanceTerminated => []
  end.

Definition ValidateInstanceTransition (from to : InstanceState) : bool :=
  bool_decide (to ∈ allowedInstanceTransitions from).

Definition IsTerminalInstanceState (s : InstanceState) : bool := bool_decide (s = InstanceTerminated).

(** ** Nodes *)

Inductive NodeState :=
| NodeDiscovered | NodeReady | NodeDegraded | NodeDraining | NodeMaintenance | NodeQuarantined
| NodeRetired.

#[export] Instance NodeState_eq : EqDecision NodeState.
Proof. solve_decision. Defined.

Definition allowedNodeTransitions (from : NodeState) : list NodeState :=
  match from with
  | NodeDiscovered => [NodeReady; NodeQuarantined]
  | NodeReady => [NodeDegraded; NodeDraining; NodeMaintenance; NodeQuarantined]
  | NodeDegraded => [NodeReady; NodeDraining; NodeQuarantined]
  | NodeDraining => [NodeMaintenance; NodeQuarantined; NodeRetired]
  | NodeMaintenance => [NodeReady; NodeQuarantined]
  | NodeQuarantined => [NodeMaintenance; NodeRetired]
  | NodeRetired => []
  end.

Definition ValidateNodeTransition (from to : NodeState) : bool :=
  bool_decide (to ∈ allowedNodeTransitions from).

Definition IsProtectedNodeState (s : NodeState) : bool :=
  match s with
  | NodeQuarantined | NodeRetired | NodeDraining | NodeMaintenance => true
  | _ => false
  end.

Record GPUDevice := mkGPU {
  g_Index : Z;
  g_Vendor : string;
  g_Model : string;
  g_VRAMMiB : Z;
  g_Allocated : bool
}.

Record Node := mkNode {
  n_ID : string;
  n_Name : string;
  n_BackendType : string;
  n_Arch : string;
  n_OS : string;
  n_CPUModel : string;
  n_CPUThreads : Z;
  n_AvailCPUThreads : Z;
  n_TotalRAMMiB : Z;
  n_AvailRAMMiB : Z;
  n_StorageMiB : Z;
  n_AvailStorageMiB : Z;
  n_GPUDevices : list GPUDevice;
  n_Labels : gmap string string;
  n_Location : string;
  n_TrustClass : string;
  n_State : NodeState;
  n_LastHeartbeat : option Z;
  n_AgentMeta : gmap string string;
  n_CreatedAt : Z;
  n_UpdatedAt : Z;
  n_ActiveInstances : Z
}.

Definition EligibleGPUs (n : Node) (minVRAMMiB : Z) : list GPUDevice :=
  filter (fun g => g_Allocated g = false /\ minVRAMMiB <= g_VRAMMiB g) (n_GPUDevices n).

Definition TotalGPUVRAMMiB (n : Node) : Z :=
  foldl (fun total g => i64 (total + g_VRAMMiB g)) 0 (n_GPUDevices n).

(** ** Operations *)

Inductive OperationState :=
| OperationPending | OperationRunning | OperationSucceeded | OperationFailed | OperationCancelled.

#[export] Instance OperationState_eq : EqDecision OperationState.
Proof. solve_decision. Defined.

Definition allowedOperationTransitions (from : OperationState) : list OperationState :=
  match from with
  | OperationPending => [OperationRunning; OperationCancelled]
  | OperationRunning => [OperationSucceeded; OperationFailed; OperationCancelled]
  | _ => []
  end.

Definition ValidateOperationTransition (from to : OperationState) : bool :=
  bool_decide (to ∈ allowedOperationTransitions from).

Inductive OperationType := OpProvision | OpStart | OpStop | OpDestroy | OpInspect.

(** The payload is kept as its JSON text. *)
Record OperationEvent := mkEvent {
  oe_ID : Z;
  oe_OperationID : string;
  oe_EventType : string;
  oe_Message : string;
  oe_Payload : string;
  oe_CreatedAt : Z
}.

Record Operation := mkOperation {
  op_ID : string;
  op_InstanceID : string;
  op_Type : OperationType;
  op_State : OperationState;
  op_Adapter : string;
  op_Events : list OperationEvent;
  op_CreatedAt : Z;
  op_UpdatedAt : Z;
  op_CompletedAt : option Z
}.

(** ** Paths *)

Definition maxPathLen : nat := 255.
Definition maxSegLen : nat := 63.
Definition minSegLen : nat := 1.

Record VSPath := mkPath { vp_Namespace : string; vp_Service : string; vp_Instance : string }.

(** [strings.ToLower], as far as its result can still be a valid segment:
    besides the ASCII letters two code points have an ASCII lower case, the
    Kelvin sign (bytes E2 84 AA) and the dotted capital I (C4 B0). *)
Fixpoint ToLower (s : string) : string :=
  match s with
  | "" => ""
  | String "226" (String "132" (String "170" r)) => String "k" (ToLower r)
  | String "196" (String "176" r) => String "i" (ToLower r)
  | String c r =>
      let b := ascii_byte c in
      String (if (65 <=? b) && (b <=? 90) then byte_ascii (b + 32) else c) (ToLower r)
  end.

Definition segment_char (c : ascii) : bool :=
  let b := ascii_byte c in
  ((97 <=? b) && (b <=? 122)) || ((48 <=? b) && (b <=? 57)) || Ascii.eqb c "_" || Ascii.eqb c "-".

Definition validateSegment (seg : string) : bool :=
  (minSegLen <=? String.length seg)%nat &&
  negb (String.eqb seg "." || String.eqb seg "..") &&
  (String.length seg <=? maxSegLen)%nat &&
  str_all segment_char seg &&
  match seg with String "-" _ => false | _ => true end.

Definition PathValidate (p : VSPath) : bool :=
  validateSegment (vp_Namespace p) && validateSegment (vp_Service p) && validateSegment (vp_Instance p).

Definition PathString (p : VSPath) : string :=
  ("vs://" ++ vp_Namespace p ++ "/" ++ vp_Service p ++ "/" ++ vp_Instance p)%string.

Definition contains_any (bad : list ascii) (s : string) : bool :=
  negb (str_all (fun c => negb (existsb (Ascii.eqb c) bad)) s).

Definition Parse (raw : string) : option VSPath :=
  if (maxPathLen <? String.length raw)%nat then None
  else
    match raw with
    | String "v" (String "s" (String ":" (String "/" (String "/" rest)))) =>
        if String.eqb rest "" then None
        else if contains_any ["?"; "#"]%char rest then None
        else if contains_any ["%"]%char rest then None
        else
          match split_slash rest with
          | (ns, [svc; inst]) =>
              let p := mkPath (ToLower ns) (ToLower svc) (ToLower inst) in
              if PathValidate p then Some p else None
          | _ => None
          end
    | _ => None
    end.

(** ** Instances of a service *)

Record ServiceInstance := mkInstance {
  i_ID : string;
  i_ServiceID : Z;
  i_NodeID : string;
  i_VSPath : VSPath;
  i_State : InstanceState;
  i_RetryCount : Z;
  i_RuntimeHandle : gmap string string;
  i_CreatedAt : Z;
  i_UpdatedAt : Z
}.

(** ** Services *)

Inductive ArtifactReference :=
| ArtifactOcelot (infoHash : string)
| ArtifactURL (url : string)
| ArtifactOther (type : string).

Definition hex_char (c : ascii) : bool :=
  let b := ascii_byte c in
  is_digit c || ((97 <=? b) && (b <=? 102)) || ((65 <=? b) && (b <=? 70)).

Definition ArtifactValidate (a : ArtifactReference) : bool :=
  match a with
  | ArtifactOcelot h => (String.length h =? 40)%nat && str_all hex_char h
  | ArtifactURL u => negb (String.eqb u "")
  | ArtifactOther _ => false
  end.

Record GPURequest := mkGPUReq { gr_Required : bool; gr_Count : Z; gr_MinVRAMMiB : Z }.
Record ResourceRequest := mkResReq { rr_CPUThreads : Z; rr_RAMMiB : Z; rr_GPU : GPURequest }.

Record PlacementPolicy := mkPlacement {
  pp_RequiredLabels : gmap string string;
  pp_PreferredNodes : list string;
  pp_ExcludedNodes : list string;
  pp_RequiredArch : string;
  pp_PreferredLocation : string
}.

Record RestartPolicy := mkRestart { rp_Policy : string; rp_MaximumAttempts : Z }.

Record ServiceVolumeMount := mkMountDecl { vm_VolumeName : string; vm_TargetPath : string; vm_ReadOnly : bool }.

Record ServiceSpec := mkSpec {
  ss_Artifact : ArtifactReference;
  ss_Runtime : string;
  ss_Instances : Z;
  ss_Resources : ResourceRequest;
  ss_Placement : PlacementPolicy;
  ss_Restart : RestartPolicy;
  ss_MigrationAllowed : bool;
  ss_HealthCheck : gmap string string;
  ss_Mounts : list ServiceVolumeMount
}.

Record ServiceManifest := mkManifest {
  sm_APIVersion : string;
  sm_Kind : string;
  sm_Namespace : string;
  sm_Name : string;
  sm_Spec : ServiceSpec
}.

Inductive ManifestError :=
| BadAPIVersion | BadKind | BadNamespace | BadName | BadArtifact | BadRuntime | BadInstances
| BadCPU | BadRAM | BadGPUCount | BadGPUVRAM | BadRestart.

(** The failed checks, in the order of the source. *)
Definition ManifestValidate (m : ServiceManifest) : list ManifestError :=
  let check (bad : bool) (e : ManifestError) := if bad then [e] else [] in
  let spec := sm_Spec m in
  let gpu := rr_GPU (ss_Resources spec) in
  let policy := rp_Policy (ss_Restart spec) in
  check (negb (String.eqb (sm_APIVersion m) "virtualserver/v1")) BadAPIVersion ++
  check (negb (String.eqb (sm_Kind m) "Service")) BadKind ++
  check (negb (validateSegment (sm_Namespace m))) BadNamespace ++
  check (negb (validateSegment (sm_Name m))) BadName ++
  check (negb (ArtifactValidate (ss_Artifact spec))) BadArtifact ++
  check (String.eqb (ss_Runtime spec) "") BadRuntime ++
  check (ss_Instances spec <? 1) BadInstances ++
  check (rr_CPUThreads (ss_Resources spec) <? 0) BadCPU ++
  check (rr_RAMMiB (ss_Resources spec) <? 0) BadRAM ++
  (if gr_Required gpu
   then check (gr_Count gpu <? 1) BadGPUCount ++ check (gr_MinVRAMMiB gpu <? 0) BadGPUVRAM else []) ++
  (if String.eqb policy "" then []
   else check (negb (String.eqb policy "always" || String.eqb policy "on-failure" ||
                     String.eqb policy "never")) BadRestart).

Record Service := mkService {
  svc_ID : Z;
  svc_Manifest : ServiceManifest;
  svc_DesiredCount : Z;
  svc_State : string;
  svc_CreatedAt : Z;
  svc_UpdatedAt : Z
}.

(** ** Volumes *)

Inductive VolumeState :=
| VolumeDeclared | VolumeProvisioning | VolumeReady | VolumeBound | VolumeReleasing | VolumeReleased
| VolumeFailed | VolumeQuotaExceeded.

#[export] Instance VolumeState_eq : EqDecision VolumeState.
Proof. solve_decision. Defined.

Definition allowedVolumeTransitions (from : VolumeState) : list VolumeState :=
  match from with
  | VolumeDeclared => [VolumeProvisioning; VolumeReleasing]
  | VolumeProvisioning => [VolumeReady; VolumeFailed]
  | VolumeReady => [VolumeBound; VolumeReleasing]
  | VolumeBound => [VolumeReady; VolumeReleasing; VolumeQuotaExceeded]
  | VolumeReleasing => [VolumeReleased; VolumeFailed]
  | VolumeReleased => []
  | VolumeFailed => [VolumeDeclared; VolumeReleasing]
  | VolumeQuotaExceeded => [VolumeBound; VolumeReleasing]
  end.

Definition ValidateVolumeTransition (from to : VolumeState) : bool :=
  bool_decide (to ∈ allowedVolumeTransitions from).

Definition IsTerminalVolumeState (s : VolumeState) : bool := bool_decide (s = VolumeReleased).

Inductive VolumeMountState := MountPending | MountActive | MountReleasing | MountReleased | MountFailed.

#[export] Instance VolumeMountState_eq : EqDecision VolumeMountState.
Proof. solve_decision. Defined.

Inductive SnapshotState := SnapshotPending | SnapshotReady | SnapshotFailed.

#[export] Instance SnapshotState_eq : EqDecision SnapshotState.
Proof. solve_decision. Defined.

Record VolumeSpec := mkVolSpec { vs_Class : string; vs_CapacityMiB : Z; vs_AccessMode : string }.

Record VolumeManifest := mkVolManifest {
  vm_APIVersion : string;
  vm_Kind : string;
  vm_Namespace : string;
  vm_Name : string;
  vm_Spec : VolumeSpec
}.

Inductive VolumeManifestError :=
| VolBadAPIVersion | VolBadKind | VolBadNamespace | VolBadName | VolBadClass | VolBadCapacity
| VolBadAccessMode.

Definition VolumeManifestValidate (m : VolumeManifest) : list VolumeManifestError :=
  let check (bad : bool) (e : VolumeManifestError) := if bad then [e] else [] in
  let mode := vs_AccessMode (vm_Spec m) in
  check (negb (String.eqb (vm_APIVersion m) "virtualserver/v1")) VolBadAPIVersion ++
  check (negb (String.eqb (vm_Kind m) "Volume")) VolBadKind ++
  check (negb (validateSegment (vm_Namespace m))) VolBadNamespace ++
  check (negb (validateSegment (vm_Name m))) VolBadName ++
  check (String.eqb (vs_Class (vm_Spec m)) "") VolBadClass ++
  check (vs_CapacityMiB (vm_Spec m) <=? 0) VolBadCapacity ++
  check (negb (String.eqb mode "RWO" || String.eqb mode "ROX" || String.eqb mode "RWX")) VolBadAccessMode.

(** [DriverHandle] is empty when the column holds the empty object. *)
Record Volume := mkVolume {
  v_ID : string;
  v_Manifest : VolumeManifest;
  v_State : VolumeState;
  v_BoundNodeID : string;
  v_DriverHandle : gmap string string;
  v_FailureReason : string;
  v_CreatedAt : Z;
  v_UpdatedAt : Z
}.

Record VolumeMount := mkMount {
  m_ID : Z;
  m_VolumeID : string;
  m_InstanceID : string;
  m_TargetPath : string;
  m_ReadOnly : bool;
  m_State : VolumeMountState;
  m_MountedAt : option Z;
  m_UnmountedAt : option Z
}.

Record VolumeSnapshot := mkSnapshot {
  sn_ID : string;
  sn_VolumeID : string;
  sn_Label : string;
  sn_State : SnapshotState;
  sn_DriverRef : string;
  sn_SizeMiB : Z;
  sn_CreatedAt : Z;
  sn_CompletedAt : option Z
}.

(** ** Paths: lemmas *)

#[local] Arguments String.append !_ _ / : simpl nomatch.

Lemma segment_char_facts c :
  segment_char c = true ->
  (forall r, ToLower (String c r) = String c (ToLower r)) /\
  Ascii.eqb c "/" = false /\ Ascii.eqb c "?" = false /\ Ascii.eqb c "#" = false /\ Ascii.eqb c "%" = false.
Proof. destruct c as [[] [] [] [] [] [] [] []]; try discriminate; done. Qed.

Lemma validateSegment_inv seg :
  validateSegment seg = true ->
  str_all segment_char seg = true /\ (1 <= String.length seg <= 63)%nat.
Proof.
  unfold validateSegment, minSegLen, maxSegLen. rewrite !andb_true_iff, !Nat.leb_le.
  intros ((((? & _) & ?) & ?) & _). auto with lia.
Qed.

Lemma ToLower_segment seg : str_all segment_char seg = true -> ToLower seg = seg.
Proof.
  induction seg as [|c seg IH]; [done|]. intros [Hc Hs]%andb_true_iff.
  destruct (segment_char_facts c Hc) as [-> _]. by rewrite IH.
Qed.

Lemma split_slash_segment seg rest :
  str_all segment_char seg = true ->
  split_slash (seg ++ String "/" rest) = (seg, (split_slash rest).1 :: (split_slash rest).2).
Proof.
  induction seg as [|c seg IH]; simpl; [by destruct (split_slash rest)|].
  intros [Hc Hs]%andb_true_iff. destruct (segment_char_facts c Hc) as (_ & Hne & _).
  rewrite (IH Hs), Hne. done.
Qed.

Lemma split_slash_last seg : str_all segment_char seg = true -> split_slash seg = (seg, []).
Proof.
  induction seg as [|c seg IH]; simpl; [done|].
  intros [Hc Hs]%andb_true_iff. destruct (segment_char_facts c Hc) as (_ & Hne & _).
  rewrite (IH Hs), Hne. done.
Qed.

Lemma contains_any_path bad p :
  PathValidate p = true -> existsb (Ascii.eqb "/") bad = false ->
  (forall c, segment_char c = true -> existsb (Ascii.eqb c) bad = false) ->
  contains_any bad (vp_Namespace p ++ "/" ++ vp_Service p ++ "/" ++ vp_Instance p) = false.
Proof.
  unfold PathValidate. rewrite !andb_true_iff.
  intros ((Hn%validateSegment_inv & Hs%validateSegment_inv) & Hi%validateSegment_inv) Hb Hc.
  destruct Hn as [Hn _], Hs as [Hs _], Hi as [Hi _].
  assert (forall s, str_all segment_char s = true ->
            str_all (fun c => negb (existsb (Ascii.eqb c) bad)) s = true) as Hall.
  { intros s. apply str_all_impl. intros c Hseg. by rewrite Hc. }
  unfold contains_any. rewrite !str_all_app. simpl. rewrite Hb, !Hall by done. done.
Qed.

Lemma Parse_canonical p : PathValidate p = true -> Parse (PathString p) = Some p.
Proof.
  intros Hp. pose proof Hp as Hv. unfold PathValidate in Hv. rewrite !andb_true_iff in Hv.
  destruct Hv as ((Hn%validateSegment_inv & Hs%validateSegment_inv) & Hi%validateSegment_inv).
  destruct Hn as [Hn Ln], Hs as [Hs Ls], Hi as [Hi Li]. unfold Parse.
  assert ((maxPathLen <? String.length (PathString p))%nat = false) as ->.
  { apply Nat.ltb_ge. unfold PathString, maxPathLen. rewrite !append_length. cbn [String.length]. lia. }
  unfold PathString. simpl.
  assert (String.eqb (vp_Namespace p ++ String "/" (vp_Service p ++ String "/" (vp_Instance p))) "" = false) as ->.
  { apply String.eqb_neq. by destruct (vp_Namespace p). }
  pose proof (contains_any_path ["?"; "#"]%char p Hp eq_refl) as H1.
  pose proof (contains_any_path ["%"]%char p Hp eq_refl) as H2. simpl in H1, H2.
  rewrite H1, H2; [|intros c Hc; destruct (segment_char_facts c Hc) as (_ & _ & Hq & Hh & Hpc); simpl; by rewrite ?Hq, ?Hh, ?Hpc..].
  rewrite !split_slash_segment, split_slash_last by done. simpl.
  rewrite !ToLower_segment by done. destruct p. simpl in *. by rewrite Hp.
Qed.

Lemma Parse_valid raw p : Parse raw = Some p -> PathValidate p = true.
Proof.
  unfold Parse. destruct (_ <? _)%nat; [done|]. repeat (case_match; try done). by intros [= <-].
Qed.

(** Paths.  What [Parse] accepts is a valid path, whatever the spelling of
    the text; and a valid path is read back from its canonical text. *)
Theorem vspath_roundtrip raw p :
  Parse raw = Some p -> PathValidate p = true /\ Parse (PathString p) = Some p.
Proof. intros H%Parse_valid. split; [done|]. by apply Parse_canonical. Qed.

Lemma vspath_roundtrip_witness :
  Parse "vs://Prod/web-1/I0" = Some (mkPath "prod" "web-1" "i0") /\
  Parse "vs://prod/web-1/i0" = Some (mkPath "prod" "web-1" "i0").
Proof.
  split; [reflexivity|]. 
  apply (proj2 (vspath_roundtrip "vs://Prod/web-1/I0" (mkPath "prod" "web-1" "i0") eq_refl)).
Defined.
