(* ===== verification/VsScheduler.v ===== *)
(** * Virtual server: placement (virtualserver/scheduler)

    Hard constraints, the weighted score in double arithmetic, and the choice
    of the node.  The texts of the decision's reasons are left out; rejection
    reasons are kept as values.  [lorder] lists the required labels in the
    unspecified order of the map; [lookup] is the artifact catalog: [None]
    when there is none, else the answer to a query ([None] for an error). *)
From Stdlib Require Import String SpecFloat.
From S2P Require Import Prelude GoSort GoFloat VsDomain.
Open Scope string_scope.
Open Scope list_scope.
Open Scope Z_scope.

(** ** Hard constraints *)

Inductive Rejection :=
| NotReady (s : NodeState) | ArchMismatch | LabelMissing (k v : string) | Excluded
| InsufficientCPU | InsufficientRAM | NoGPUSatisfies | InsufficientGPUs (have : Z) | NoGPUDevices.

(** Memory counts per device, never summed over devices. *)
Definition gpu_rejections (n : Node) (gpu : GPURequest) : list Rejection :=
  if gr_Required gpu then
    let eligible := len (EligibleGPUs n (gr_MinVRAMMiB gpu)) in
    if eligible <? gr_Count gpu then
      (if 0 <? gr_MinVRAMMiB gpu then [NoGPUSatisfies] else []) ++
      (if 0 <? len (n_GPUDevices n) then [InsufficientGPUs eligible] else [NoGPUDevices])
    else []
  else [].

Definition hardFilter (lorder : gmap string string -> list (string * string)) (n : Node)
    (spec : ServiceSpec) : list Rejection :=
  let res := ss_Resources spec in
  let pl := ss_Placement spec in
  if negb (bool_decide (n_State n = NodeReady)) then [NotReady (n_State n)]
  else
    (if negb (String.eqb (pp_RequiredArch pl) "") && negb (String.eqb (n_Arch n) (pp_RequiredArch pl))
     then [ArchMismatch] else []) ++
    omap (fun '(k, v) => if String.eqb (default "" (n_Labels n !! k)) v then None
                         else Some (LabelMissing k v)) (lorder (pp_RequiredLabels pl)) ++
    omap (fun excluded => if String.eqb (n_Name n) excluded || String.eqb (n_ID n) excluded
                          then Some Excluded else None) (pp_ExcludedNodes pl) ++
    (if (0 <? rr_CPUThreads res) && (n_CPUThreads n <? rr_CPUThreads res)
     then [InsufficientCPU] else []) ++
    (if (0 <? rr_RAMMiB res) && (n_AvailRAMMiB n <? rr_RAMMiB res) then [InsufficientRAM] else []) ++
    gpu_rejections n (rr_GPU res).

(** ** Scores *)

Record Weights := mkWeights {
  w_Health : float64;
  w_CapacityFit : float64;
  w_AcceleratorFit : float64;
  w_DataLocality : float64;
  w_Reliability : float64;
  w_PreferredNodeBonus : float64;
  w_ExistingLoadPenalty : float64;
  w_ArtifactTransfer : float64
}.

Definition DefaultWeights : Weights :=
  {| w_Health := flit 20 100; w_CapacityFit := flit 20 100; w_AcceleratorFit := flit 20 100;
     w_DataLocality := flit 15 100; w_Reliability := flit 15 100;
     w_PreferredNodeBonus := flit 10 100; w_ExistingLoadPenalty := flit 5 100;
     w_ArtifactTransfer := flit 10 100 |}.

Definition existingLoadPenaltyScore (n : Node) : float64 :=
  if n_CPUThreads n =? 0 then of_int 0
  else
    let ratio := fdiv (of_int (n_ActiveInstances n)) (of_int (n_CPUThreads n)) in
    if fltb (of_int 1) ratio then of_int 1 else ratio.

Definition healthScore (n : Node) : float64 :=
  match n_State n with
  | NodeReady => of_int 1
  | NodeDegraded => flit 5 10
  | _ => of_int 0
  end.

Definition capacityFitScore (n : Node) (spec : ServiceSpec) : float64 :=
  if n_TotalRAMMiB n =? 0 then of_int 0
  else
    let ramRatio := fdiv (of_int (n_AvailRAMMiB n)) (of_int (n_TotalRAMMiB n)) in
    let cpu := rr_CPUThreads (ss_Resources spec) in
    let cpuRatio :=
      if (0 <? n_CPUThreads n) && (0 <? cpu) then
        let remaining := i64 (n_AvailCPUThreads n - cpu) in
        let remaining := if remaining <? 0 then 0 else remaining in
        fdiv (of_int remaining) (of_int (n_CPUThreads n))
      else of_int 1 in
    fadd (fmul ramRatio (flit 5 10)) (fmul cpuRatio (flit 5 10)).

Definition acceleratorFitScore (n : Node) (spec : ServiceSpec) : float64 :=
  let gpu := rr_GPU (ss_Resources spec) in
  if negb (gr_Required gpu) then of_int 0
  else
    match EligibleGPUs n (gr_MinVRAMMiB gpu) with
    | [] => of_int 0
    | eligible =>
        let totalVRAM := TotalGPUVRAMMiB n in
        if totalVRAM =? 0 then of_int 0
        else
          let maxEligible := foldl (fun m g => if m <? g_VRAMMiB g then g_VRAMMiB g else m) 0 eligible in
          fdiv (of_int maxEligible) (of_int totalVRAM)
    end.

Definition dataLocalityScore (n : Node) (spec : ServiceSpec) : float64 :=
  let want := pp_PreferredLocation (ss_Placement spec) in
  if String.eqb want "" then flit 5 10
  else if String.eqb (n_Location n) want then of_int 1 else of_int 0.

Record ArtifactStatus := mkStatus { as_Exists : bool; as_Available : bool }.

(** The answers of the catalog are those of one moment. *)
Definition artifactTransferScore (spec : ServiceSpec)
    (catalog : option (string -> option ArtifactStatus)) : float64 :=
  match catalog, ss_Artifact spec with
  | Some lookup, ArtifactOcelot infoHash =>
      if String.eqb infoHash "" then of_int 0
      else match lookup infoHash with
           | Some st => if as_Exists st && as_Available st then of_int 0 else of_int 1
           | None => of_int 1
           end
  | _, _ => of_int 0
  end.

Definition preferredNodeScore (n : Node) (spec : ServiceSpec) : float64 :=
  if existsb (fun pref => String.eqb (n_Name n) pref || String.eqb (n_ID n) pref)
       (pp_PreferredNodes (ss_Placement spec))
  then of_int 1 else of_int 0.

Definition computeScore (n : Node) (spec : ServiceSpec)
    (catalog : option (string -> option ArtifactStatus)) (w : Weights) : float64 :=
  let s := fmul (w_Health w) (healthScore n) in
  let s := fadd s (fmul (w_CapacityFit w) (capacityFitScore n spec)) in
  let s := fadd s (fmul (w_AcceleratorFit w) (acceleratorFitScore n spec)) in
  let s := fadd s (fmul (w_DataLocality w) (dataLocalityScore n spec)) in
  let s := fadd s (fmul (w_Reliability w) (of_int 1)) in
  let s := fadd s (fmul (w_PreferredNodeBonus w) (preferredNodeScore n spec)) in
  let s := fsub s (fmul (w_ArtifactTransfer w) (artifactTransferScore spec catalog)) in
  let s := fsub s (fmul (w_ExistingLoadPenalty w) (existingLoadPenaltyScore n)) in
  if fltb s (of_int 0) then of_int 0 else s.

(** ** The choice *)

Definition scoredNode : Type := Node * float64.

Definition better (a b : scoredNode) : bool :=
  if negb (feqb a.2 b.2) then fltb b.2 a.2 else string_lt (n_Name a.1) (n_Name b.1).

Record PlacementDecision := mkDecision {
  pd_SelectedNodeID : string;
  pd_Score : float64;
  pd_RejectionReasons : gmap string (list Rejection)
}.

Section Schedule.
Context (lorder : gmap string string -> list (string * string)) (w : Weights)
        (catalog : option (string -> option ArtifactStatus)).

Definition candidates (m : ServiceManifest) (nodes : list Node) : list scoredNode :=
  omap (fun n => match hardFilter lorder n (sm_Spec m) with
                 | [] => Some (n, computeScore n (sm_Spec m) catalog w)
                 | _ => None
                 end) nodes.

Definition rejections (m : ServiceManifest) (nodes : list Node) : gmap string (list Rejection) :=
  foldl (fun acc n => match hardFilter lorder n (sm_Spec m) with
                      | [] => acc
                      | reasons => <[n_Name n := reasons]> acc
                      end) ∅ nodes.

(** [Err] carries the decision with the rejection reasons only. *)
Definition Schedule (m : ServiceManifest) (nodes : list Node)
    : result PlacementDecision PlacementDecision :=
  let rejected := rejections m nodes in
  match slice_stable better (candidates m nodes) with
  | [] => Err (mkDecision "" (of_int 0) rejected)
  | best :: _ => Ok (mkDecision (n_ID best.1) best.2 rejected)
  end.
End Schedule.

(** ** Lemmas: the order of candidates *)

Definition ranked (a b : scoredNode) : Prop :=
  key_lt (float_key b.2) (float_key a.2) \/
  float_key a.2 = float_key b.2 /\ ~ String.le (n_Name b.1) (n_Name a.1).

Definition number (c : scoredNode) : Prop := fis_nan c.2 = false.

Lemma better_ranked a b : number a -> number b -> (better a b = true <-> ranked a b).
Proof.
  intros Ha Hb. unfold better, ranked, string_lt.
  destruct (feqb a.2 b.2) eqn:E; cbn [negb].
  - apply feqb_key in E; [|done..]. unfold String.le. rewrite negb_true_iff, <- not_true_iff_false.
    assert (~ key_lt (float_key b.2) (float_key a.2)) by (rewrite E; unfold key_lt; lia).
    rewrite <- Is_true_true. tauto.
  - rewrite fltb_key by done. rewrite <- not_true_iff_false, feqb_key in E by done. tauto.
Qed.

Lemma key_eq (a b : Z * Z * Z) : a = b <-> a.1.1 = b.1.1 /\ a.1.2 = b.1.2 /\ a.2 = b.2.
Proof. destruct a as [[??]?], b as [[??]?]. simpl. split; [by intros [= -> -> ->]|]. by intros (-> & -> & ->). Qed.

(** Not being better is a total preorder. *)
Lemma ranked_asym a b : ranked a b -> ~ ranked b a.
Proof.
  unfold ranked, key_lt. rewrite !key_eq.
  destruct (String.le_total (n_Name a.1) (n_Name b.1));
    intros [H1|[H1 N1]] [H2|[H2 N2]]; (done || lia).
Qed.

Lemma ranked_neg_trans a b c : ~ ranked a b -> ~ ranked b c -> ~ ranked a c.
Proof.
  intros Hab Hbc [H|[H N]].
  - assert (~ key_lt (float_key b.2) (float_key a.2)) by (intros ?; apply Hab; by left).
    assert (~ key_lt (float_key c.2) (float_key b.2)) by (intros ?; apply Hbc; by left).
    unfold key_lt in *. lia.
  - assert (~ key_lt (float_key b.2) (float_key a.2)) by (intros ?; apply Hab; by left).
    assert (~ key_lt (float_key c.2) (float_key b.2)) by (intros ?; apply Hbc; by left).
    assert (float_key a.2 = float_key b.2) as E by (rewrite key_eq in *; unfold key_lt in *; lia).
    assert (float_key b.2 = float_key c.2) as E' by congruence.
    destruct (decide (String.le (n_Name b.1) (n_Name a.1))) as [Hba|Hba]; [|apply Hab; by right].
    destruct (decide (String.le (n_Name c.1) (n_Name b.1))) as [Hcb|Hcb]; [|apply Hbc; by right].
    apply N. by trans (n_Name b.1).
Qed.

(** ** The placement property *)

(** What a manifest asks of a node. *)
Definition placeable (n : Node) (spec : ServiceSpec) : Prop :=
  let res := ss_Resources spec in
  let pl := ss_Placement spec in
  n_State n = NodeReady /\
  (pp_RequiredArch pl = "" \/ n_Arch n = pp_RequiredArch pl) /\
  (forall k v, pp_RequiredLabels pl !! k = Some v -> default "" (n_Labels n !! k) = v) /\
  n_Name n ∉ pp_ExcludedNodes pl /\ n_ID n ∉ pp_ExcludedNodes pl /\
  (0 < rr_CPUThreads res -> rr_CPUThreads res <= n_CPUThreads n) /\
  (0 < rr_RAMMiB res -> rr_RAMMiB res <= n_AvailRAMMiB n) /\
  (gr_Required (rr_GPU res) = true ->
   gr_Count (rr_GPU res) <= len (EligibleGPUs n (gr_MinVRAMMiB (rr_GPU res)))).

Definition label_order (lorder : gmap string string -> list (string * string)) : Prop :=
  forall m, lorder m ≡ₚ map_to_list m.

Lemma omap_nil {A B} (f : A -> option B) l : omap f l = [] <-> forall x, x ∈ l -> f x = None.
Proof.
  induction l as [|x l IH]; simpl; [set_solver|]. destruct (f x) eqn:E.
  - split; [done|]. intros Hall. rewrite (Hall x) in E by set_solver. done.
  - rewrite IH. split; [|set_solver]. intros Hall y [->|Hy]%elem_of_cons; auto.
Qed.

Lemma hardFilter_labels lorder n spec :
  label_order lorder ->
  omap (fun '(k, v) => if String.eqb (default "" (n_Labels n !! k)) v then None
                       else Some (LabelMissing k v)) (lorder (pp_RequiredLabels (ss_Placement spec))) = []
  <-> forall k v, pp_RequiredLabels (ss_Placement spec) !! k = Some v -> default "" (n_Labels n !! k) = v.
Proof.
  intros Ho. rewrite omap_nil. split.
  - intros Hall k v Hk. specialize (Hall (k, v)). simpl in Hall.
    rewrite (Ho _), elem_of_map_to_list in Hall. destruct (String.eqb_spec (default "" (n_Labels n !! k)) v); [done|].
    by specialize (Hall Hk).
  - intros Hall [k v] Hin. rewrite (Ho _), elem_of_map_to_list in Hin. rewrite (Hall k v Hin).
    by rewrite String.eqb_refl.
Qed.

Lemma hardFilter_excluded n spec :
  omap (fun excluded => if String.eqb (n_Name n) excluded || String.eqb (n_ID n) excluded
                        then Some Excluded else None) (pp_ExcludedNodes (ss_Placement spec)) = []
  <-> n_Name n ∉ pp_ExcludedNodes (ss_Placement spec) /\ n_ID n ∉ pp_ExcludedNodes (ss_Placement spec).
Proof.
  rewrite omap_nil. split.
  - intros Hall. split; intros Hin; specialize (Hall _ Hin); rewrite String.eqb_refl in Hall;
      [done|by rewrite orb_true_r in Hall].
  - intros [Hn Hi] e He. destruct (String.eqb_spec (n_Name n) e) as [E|]; [by rewrite E in Hn|].
    destruct (String.eqb_spec (n_ID n) e) as [E|]; [by rewrite E in Hi|done].
Qed.

Lemma gpu_rejections_nil n gpu :
  gpu_rejections n gpu = [] <->
  (gr_Required gpu = true -> gr_Count gpu <= len (EligibleGPUs n (gr_MinVRAMMiB gpu))).
Proof.
  unfold gpu_rejections. destruct (gr_Required gpu); [|done]. cbv zeta.
  destruct (Z.ltb_spec (len (EligibleGPUs n (gr_MinVRAMMiB gpu))) (gr_Count gpu)) as [Hlt|Hge].
  - split; [by destruct (0 <? gr_MinVRAMMiB gpu), (0 <? len (n_GPUDevices n))|].
    intros Hc. specialize (Hc eq_refl). lia.
  - split; [intros _ _; lia|done].
Qed.

Lemma hardFilter_nil lorder n spec :
  label_order lorder -> hardFilter lorder n spec = [] <-> placeable n spec.
Proof.
  intros Ho. unfold hardFilter, placeable. cbv zeta.
  destruct (decide (n_State n = NodeReady)) as [Hr|Hr]; [rewrite bool_decide_eq_true_2 by done
    |rewrite bool_decide_eq_false_2 by done; cbn [negb]; split; [done|tauto]]. cbn [negb].
  rewrite !app_nil, hardFilter_labels, hardFilter_excluded by done.
  assert (forall (b : bool) (r : Rejection), (if b then [r] else []) = [] <-> b = false) as Hif
    by (by intros [] ?).
  rewrite !Hif, !andb_false_iff, !negb_false_iff, !String.eqb_eq.
  rewrite gpu_rejections_nil. intuition lia.
Qed.

Lemma candidates_spec lorder w catalog m nodes n s :
  label_order lorder ->
  (n, s) ∈ candidates lorder w catalog m nodes <->
  n ∈ nodes /\ placeable n (sm_Spec m) /\ s = computeScore n (sm_Spec m) catalog w.
Proof.
  intros Ho. unfold candidates. rewrite list_elem_of_omap. split.
  - intros (n' & Hin & Hc). destruct (hardFilter lorder n' (sm_Spec m)) eqn:E; [|done].
    injection Hc as -> ->. split; [done|]. split; [|done]. by apply (hardFilter_nil lorder).
  - intros (Hin & Hp & ->). exists n. split; [done|].
    apply (hardFilter_nil lorder) in Hp; [|done]. by rewrite Hp.
Qed.

(** The head of the sorted candidates, for any score that is a number. *)
Lemma best_candidate (f : Node -> float64) (Q : Node -> Prop) (cs : list scoredNode) (nodes : list Node) best rest :
  (forall n s, (n, s) ∈ cs <-> n ∈ nodes /\ Q n /\ s = f n) ->
  (forall n, n ∈ nodes -> fis_nan (f n) = false) ->
  slice_stable better cs = best :: rest ->
  best.1 ∈ nodes /\ Q best.1 /\ best.2 = f best.1 /\
  forall n, n ∈ nodes -> Q n ->
    fltb best.2 (f n) = false /\ (feqb best.2 (f n) = true -> String.le (n_Name best.1) (n_Name n)).
Proof.
  intros Hcs Hnan E.
  assert (Forall number cs) as Hnum.
  { apply Forall_forall. intros [n s] (Hin & _ & ->)%Hcs. by apply Hnan. }
  apply (slice_stable_head better number) in E; [| | |done].
  2: { intros a b Ha Hb. rewrite <- not_true_iff_false, !better_ranked by done. apply ranked_asym. }
  2: { intros a b c Ha Hb Hc. rewrite <- !not_true_iff_false, !better_ranked by done. apply ranked_neg_trans. }
  destruct E as [Hb Hbest]. destruct best as [best s]. pose proof Hb as (Hin & Hq & Es)%Hcs.
  cbn [fst snd]. split; [done|]. split; [done|]. split; [done|]. intros n Hn Hqn.
  assert (better (n, f n) (best, s) = false) as Hnb by (apply Hbest, Hcs; done).
  assert (number (n, f n)) as N1 by (by apply Hnan).
  assert (number (best, s)) as N2 by (rewrite Es; by apply Hnan).
  rewrite <- not_true_iff_false, better_ranked in Hnb by done. unfold ranked in Hnb. cbn [fst snd] in Hnb.
  split.
  - rewrite <- not_true_iff_false, fltb_key by done. tauto.
  - rewrite feqb_key by done. intros Eq. apply dec_stable. intros Hle. apply Hnb. by right.
Qed.

(** [C18] Placement.  The scheduler fails exactly when no node meets the
    manifest's requirements; otherwise it selects a node that meets all of
    them, and no other such node has a higher score, or the same score and a
    smaller name. *)
Theorem schedule_selects lorder w catalog m nodes :
  label_order lorder ->
  (forall n, n ∈ nodes -> fis_nan (computeScore n (sm_Spec m) catalog w) = false) ->
  match Schedule lorder w catalog m nodes with
  | Err _ => forall n, n ∈ nodes -> ~ placeable n (sm_Spec m)
  | Ok d =>
      exists best, best ∈ nodes /\ n_ID best = pd_SelectedNodeID d /\ placeable best (sm_Spec m) /\
        pd_Score d = computeScore best (sm_Spec m) catalog w /\
        forall n, n ∈ nodes -> placeable n (sm_Spec m) ->
          let score := computeScore n (sm_Spec m) catalog w in
          fltb (pd_Score d) score = false /\
          (feqb (pd_Score d) score = true -> String.le (n_Name best) (n_Name n))
  end.
Proof.
  intros Ho Hnan. unfold Schedule.
  pose proof (best_candidate (fun n => computeScore n (sm_Spec m) catalog w)
                (fun n => placeable n (sm_Spec m)) (candidates lorder w catalog m nodes) nodes) as Hbest.
  pose proof (fun n s => candidates_spec lorder w catalog m nodes n s Ho) as Hcs.
  destruct (slice_stable better (candidates lorder w catalog m nodes)) as [|best rest] eqn:E.
  - intros n Hn Hp. apply slice_stable_nil in E.
    specialize (Hcs n (computeScore n (sm_Spec m) catalog w)). rewrite E in Hcs.
    assert ((n, computeScore n (sm_Spec m) catalog w) ∈ (@nil scoredNode)) as Hin by (apply Hcs; split_and!; trivial).
    by apply not_elem_of_nil in Hin.
  - destruct (Hbest best rest Hcs Hnan eq_refl) as (Hin & Hp & Hs & Hall).
    exists best.1. exact (conj Hin (conj eq_refl (conj Hp (conj Hs Hall)))).
Qed.

(** ** A concrete placement *)
Module DemoSchedule.
Definition node (id name : string) (ram : Z) : Node :=
  mkNode id name "" "amd64" "linux" "" 8 8 ram ram 0 0 [] ∅ "" "" NodeReady None ∅ 0 0 0.
Definition nodes : list Node := [node "1" "b" 4096; node "2" "a" 4096; node "3" "c" 512].
Definition manifest : ServiceManifest :=
  mkManifest "virtualserver/v1" "Service" "ns" "web"
    (mkSpec (ArtifactURL "u") "docker" 1 (mkResReq 2 1024 (mkGPUReq false 0 0))
       (mkPlacement ∅ [] [] "amd64" "") (mkRestart "" 0) false ∅ []).
End DemoSchedule.
Import DemoSchedule.

Lemma scores_are_numbers n :
  n ∈ nodes -> fis_nan (computeScore n (sm_Spec manifest) None DefaultWeights) = false.
Proof.
  rewrite list_elem_of_In. intros Hn. apply negb_true_iff. revert n Hn.
  apply (forallb_forall (fun n => negb (fis_nan (computeScore n (sm_Spec manifest) None DefaultWeights)))).
  vm_compute. reflexivity.
Qed.

Lemma schedule_selects_witness :
  exists best d, Schedule map_to_list DefaultWeights None manifest nodes = Ok d /\
    best ∈ nodes /\ n_ID best = pd_SelectedNodeID d /\ pd_SelectedNodeID d = "2".
Proof.
  pose proof (schedule_selects map_to_list DefaultWeights None manifest nodes
                (fun _ => Permutation_refl _) scores_are_numbers) as H.
  destruct (Schedule map_to_list DefaultWeights None manifest nodes) as [d|d] eqn:E;
    [|vm_compute in E; discriminate].
  destruct H as (best & Hin & Hid & _). exists best, d.
  split; [reflexivity|]. split; [exact Hin|]. split; [exact Hid|].
  vm_compute in E. injection E as <-. reflexivity.
Defined.
