(* ===== verification/VsStore.v ===== *)
(** * Virtual server: the store (virtualserver/store)

    The tables of [vs.db] and the store's operations.  A statement or a
    transaction is atomic under the write mutex, and a failed one leaves the
    database as it was, so an operation returns the new database or an error.
    Operations that read before they take the mutex have two databases, the
    one read and the one written.  [now] is the clock in Unix seconds, ids
    of [uuid.New] are arguments, and [fk] says whether the connection
    enforces foreign keys.  Failures of the engine itself (I/O, a cancelled
    context) are left out; violated constraints are errors.  Maps and
    manifests kept as JSON columns are kept as values; the address and the
    text of an audit row are left out. *)
From Stdlib Require Import String.
From S2P Require Import Prelude GoSort VsDomain.
Open Scope string_scope.
Open Scope list_scope.
Open Scope Z_scope.

Inductive StoreError :=
| ErrNotFound | ErrNoRows | ErrConflict | ErrAllocationConflict | ErrTransition | ErrConcurrent
| ErrUnique | ErrForeignKey | ErrActiveInstances.

(** ** Rows *)

(** A device of a node ([virtualserver_node_capabilities], type [gpu]). *)
Record CapRow := mkCap { cap_node : string; cap_gpu : GPUDevice }.

Record ServiceRow := mkServiceRow {
  sr_namespace : string;
  sr_name : string;
  sr_manifest : ServiceManifest;
  sr_desired : Z;
  sr_state : string;
  sr_created : Z;
  sr_updated : Z
}.

Record VersionRow := mkVersion { ver_service : Z; ver_version : Z; ver_manifest : ServiceManifest; ver_created : Z }.

Record InstanceRow := mkInstRow {
  ir_rowid : Z;
  ir_service : Z;
  ir_node : option string;
  ir_path : string;
  ir_state : InstanceState;
  ir_retry : Z;
  ir_handle : gmap string string;
  ir_created : Z;
  ir_updated : Z
}.

Record Allocation := mkAlloc {
  al_ID : Z;
  al_InstanceID : string;
  al_NodeID : string;
  al_CPUThreads : Z;
  al_RAMMiB : Z;
  al_GPUDeviceIndex : option Z;
  al_AllocatedAt : Z;
  al_ReleasedAt : option Z
}.

Record AuditRow := mkAudit {
  au_timestamp : Z; au_action : string; au_type : string; au_id : string; au_success : bool
}.

Record IdempotencyRow := mkIdem { id_response : string; id_status : Z; id_created : Z; id_expires : Z }.

Record VolumeRow := mkVolRow { vr_rowid : Z; vr_namespace : string; vr_name : string; vr_volume : Volume }.

(** The database.  A row of [db_nodes] has no devices of its own: they are
    joined from [db_caps].  [db_nextService] is the [AUTOINCREMENT] sequence of
    the services; rows of allocations, mounts, events and the audit log are
    never deleted, so theirs is the length of the table. *)
Record VSDB := mkVSDB {
  db_nodes : gmap string Node;
  db_caps : list CapRow;
  db_services : gmap Z ServiceRow;
  db_nextService : Z;
  db_versions : list VersionRow;
  db_instances : gmap string InstanceRow;
  db_allocs : list Allocation;
  db_operations : gmap string Operation;
  db_events : list OperationEvent;
  db_audit : list AuditRow;
  db_idem : gmap string IdempotencyRow;
  db_namespaces : list (string * string);
  db_volumes : gmap string VolumeRow;
  db_mounts : list VolumeMount;
  db_snapshots : gmap string VolumeSnapshot
}.

Definition empty_vsdb : VSDB :=
  mkVSDB ∅ [] ∅ 1 [] ∅ [] ∅ [] [] ∅ [] ∅ [] ∅.

(** The implicit row id of a new row: one more than the largest in use. *)
Definition next_rowid (used : list Z) : Z := foldr Z.max 0 used + 1.

Definition next_id {A} (rows : list A) : Z := len rows + 1.

(** ** Nodes *)

Definition loadGPUDevices (nodeID : string) (db : VSDB) : list GPUDevice :=
  slice_stable (fun a b => g_Index a <? g_Index b)
    (cap_gpu <$> filter (fun c => cap_node c = nodeID) (db_caps db)).

Definition node_taken (id name : string) (db : VSDB) : bool :=
  bool_decide (is_Some (db_nodes db !! id)) ||
  existsb (fun kv => String.eqb (n_Name kv.2) name) (map_to_list (db_nodes db)).

Definition CreateNode (n : Node) (uuid : string) (now : Z) (db : VSDB) : result StoreError (string * VSDB) :=
  let id := if String.eqb (n_ID n) "" then uuid else n_ID n in
  let availCPU := if n_AvailCPUThreads n =? 0 then n_CPUThreads n else n_AvailCPUThreads n in
  if node_taken id (n_Name n) db then Err ErrUnique
  else
    let row := n {{ n_ID := id }} {{ n_AvailCPUThreads := availCPU }} {{ n_GPUDevices := [] }}
                 {{ n_LastHeartbeat := None }} {{ n_CreatedAt := now }} {{ n_UpdatedAt := now }}
                 {{ n_ActiveInstances := 0 }} in
    Ok (id, db {{ db_nodes ::= <[id := row]> }}
               {{ db_caps ::= fun l => l ++ map (mkCap id) (n_GPUDevices n) }}).

Definition GetNode (id : string) (db : VSDB) : result StoreError Node :=
  match db_nodes db !! id with
  | None => Err ErrNotFound
  | Some row => Ok (row {{ n_GPUDevices := loadGPUDevices id db }})
  end.

Definition GetNodeByName (name : string) (db : VSDB) : result StoreError Node :=
  match filter (fun kv => n_Name kv.2 = name) (map_to_list (db_nodes db)) with
  | [] => Err ErrNotFound
  | (id, row) :: _ => Ok (row {{ n_GPUDevices := loadGPUDevices (n_ID row) db }})
  end.

(** The rows of the left join, ordered by node name and device index. *)
Definition nodes_join (stateFilter : option NodeState) (db : VSDB) : list (Node * option GPUDevice) :=
  let wanted := filter (fun n => match stateFilter with None => true | Some s => bool_decide (n_State n = s) end = true)
                  (snd <$> map_to_list (db_nodes db)) in
  flat_map (fun n => match loadGPUDevices (n_ID n) db with
                     | [] => [(n, None)]
                     | gpus => map (fun g => (n, Some g)) gpus
                     end)
    (slice_stable (fun a b => string_lt (n_Name a) (n_Name b)) wanted).

(** One scanned row: the node is entered when its id is new, and the device is
    appended to the entered node. *)
Definition scan_join_row (acc : list string * gmap string Node) (row : Node * option GPUDevice)
    : list string * gmap string Node :=
  let '(nodeOrder, nodeMap) := acc in
  let '(n, gpu) := row in
  let '(nodeOrder, nodeMap) :=
    match nodeMap !! n_ID n with
    | Some _ => (nodeOrder, nodeMap)
    | None => (nodeOrder ++ [n_ID n], <[n_ID n := n]> nodeMap)
    end in
  match gpu with
  | None => (nodeOrder, nodeMap)
  | Some g => (nodeOrder, alter (fun e => e {{ n_GPUDevices ::= fun l => l ++ [g] }}) (n_ID n) nodeMap)
  end.

Definition ListNodes (stateFilter : option NodeState) (db : VSDB) : list Node :=
  let '(nodeOrder, nodeMap) := foldl scan_join_row ([], ∅) (nodes_join stateFilter db) in
  omap (fun id => nodeMap !! id) nodeOrder.

Definition UpdateNodeState (id : string) (to : NodeState) (now : Z) (dbr dbw : VSDB)
    : result StoreError VSDB :=
  match GetNode id dbr with
  | Err e => Err e
  | Ok n =>
      if ValidateNodeTransition (n_State n) to then
        match db_nodes dbw !! id with
        | Some row =>
            if decide (n_State row = n_State n)
            then Ok (dbw {{ db_nodes ::= <[id := row {{ n_State := to }} {{ n_UpdatedAt := now }}]> }})
            else Err ErrConcurrent
        | None => Err ErrConcurrent
        end
      else Err ErrTransition
  end.

Definition heartbeat_state (s : NodeState) : NodeState :=
  let newState := if decide (s = NodeDiscovered) then NodeReady else s in
  if IsProtectedNodeState s then s else newState.

Definition Heartbeat (id : string) (availRAMMiB availCPU now : Z) (dbr dbw : VSDB)
    : result StoreError VSDB :=
  match GetNode id dbr with
  | Err e => Err e
  | Ok n =>
      match db_nodes dbw !! id with
      | Some row =>
          Ok (dbw {{ db_nodes ::= <[id := row {{ n_LastHeartbeat := Some now }}
                      {{ n_AvailRAMMiB := availRAMMiB }} {{ n_AvailCPUThreads := availCPU }}
                      {{ n_State := heartbeat_state (n_State n) }} {{ n_UpdatedAt := now }}]> }})
      | None => Ok dbw
      end
  end.

Definition set_gpu (nodeID : string) (deviceIndex : Z) (allocated : bool) (caps : list CapRow) : list CapRow :=
  map (fun c => if bool_decide (cap_node c = nodeID /\ g_Index (cap_gpu c) = deviceIndex)
                then c {{ cap_gpu ::= fun g => g {{ g_Allocated := allocated }} }} else c) caps.

Definition UpdateGPUAllocation (nodeID : string) (deviceIndex : Z) (allocated : bool) (db : VSDB) : VSDB :=
  db {{ db_caps ::= set_gpu nodeID deviceIndex allocated }}.

(** ** Instances *)

Definition scanInstance (id : string) (row : InstanceRow) : ServiceInstance :=
  mkInstance id (ir_service row) (default "" (ir_node row))
    (default (mkPath "" "" "") (Parse (ir_path row)))
    (ir_state row) (ir_retry row) (ir_handle row) (ir_created row) (ir_updated row).

Definition CreateInstance (fk : bool) (uuid : string) (serviceID : Z) (vsPath : VSPath) (now : Z) (db : VSDB)
    : result StoreError (string * VSDB) :=
  if bool_decide (is_Some (db_instances db !! uuid)) then Err ErrUnique
  else if fk && bool_decide (db_services db !! serviceID = None) then Err ErrForeignKey
  else
    let rowid := next_rowid (map (fun kv => ir_rowid kv.2) (map_to_list (db_instances db))) in
    let row := mkInstRow rowid serviceID None (PathString vsPath) InstanceDeclared 0 ∅ now now in
    Ok (uuid, db {{ db_instances ::= <[uuid := row]> }}).

Definition GetInstance (id : string) (db : VSDB) : result StoreError ServiceInstance :=
  match db_instances db !! id with
  | None => Err ErrNotFound
  | Some row => Ok (scanInstance id row)
  end.

(** The rows that satisfy [keep], ordered by [created_at] (then row id). *)
Definition select_instances (keep : InstanceRow -> bool) (db : VSDB) : list ServiceInstance :=
  (fun kv => scanInstance kv.1 kv.2) <$>
  slice_stable (fun a b => (ir_created a.2 <? ir_created b.2) ||
                           ((ir_created a.2 =? ir_created b.2) && (ir_rowid a.2 <? ir_rowid b.2)))
    (filter (fun kv => keep kv.2 = true) (map_to_list (db_instances db))).

Definition ListInstancesByService (serviceID : Z) (db : VSDB) : list ServiceInstance :=
  select_instances (fun r => ir_service r =? serviceID) db.

Definition ListInstances (stateFilter : option InstanceState) (db : VSDB) : list ServiceInstance :=
  select_instances (fun r => match stateFilter with None => true | Some s => bool_decide (ir_state r = s) end) db.

Definition UpdateInstanceState (id : string) (to : InstanceState) (now : Z) (dbr dbw : VSDB)
    : result StoreError VSDB :=
  match GetInstance id dbr with
  | Err e => Err e
  | Ok inst =>
      if ValidateInstanceTransition (i_State inst) to then
        match db_instances dbw !! id with
        | Some row =>
            if decide (ir_state row = i_State inst)
            then Ok (dbw {{ db_instances ::= <[id := row {{ ir_state := to }} {{ ir_updated := now }}]> }})
            else Err ErrConcurrent
        | None => Err ErrConcurrent
        end
      else Err ErrTransition
  end.

Definition AssignNode (fk : bool) (instanceID nodeID : string) (now : Z) (dbr dbw : VSDB)
    : result StoreError VSDB :=
  match GetInstance instanceID dbr with
  | Err e => Err e
  | Ok inst =>
      if ValidateInstanceTransition (i_State inst) InstanceScheduled then
        match db_instances dbw !! instanceID with
        | Some row =>
            if decide (ir_state row = i_State inst) then
              if fk && bool_decide (db_nodes dbw !! nodeID = None) then Err ErrForeignKey
              else Ok (dbw {{ db_instances ::= <[instanceID := row {{ ir_node := Some nodeID }}
                               {{ ir_state := InstanceScheduled }} {{ ir_updated := now }}]> }})
            else Err ErrConcurrent
        | None => Err ErrConcurrent
        end
      else Err ErrTransition
  end.

Definition UpdateRuntimeHandle (instanceID : string) (handle : gmap string string) (now : Z) (db : VSDB) : VSDB :=
  db {{ db_instances ::= alter (fun r => r {{ ir_handle := handle }} {{ ir_updated := now }}) instanceID }}.

Definition IncrementRetryCount (instanceID : string) (now : Z) (db : VSDB) : VSDB :=
  db {{ db_instances ::= alter (fun r => r {{ ir_retry ::= Z.add 1 }} {{ ir_state := InstanceDeclared }}
                                           {{ ir_updated := now }}) instanceID }}.

(** ** Allocations *)

Definition is_active (a : Allocation) : bool := bool_decide (al_ReleasedAt a = None).

(** The flag of the first matching device; a device without a row reads as free. *)
Definition gpu_allocated (nodeID : string) (idx : Z) (db : VSDB) : bool :=
  match filter (fun c => cap_node c = nodeID /\ g_Index (cap_gpu c) = idx) (db_caps db) with
  | [] => false
  | c :: _ => g_Allocated (cap_gpu c)
  end.

Definition AllocateResources (fk : bool) (instanceID nodeID : string) (cpuThreads ramMiB : Z)
    (gpuDeviceIndex : option Z) (now : Z) (db : VSDB) : result StoreError VSDB :=
  match db_nodes db !! nodeID with
  | None => Err ErrNotFound
  | Some row =>
      if n_AvailRAMMiB row <? ramMiB then Err ErrAllocationConflict
      else if (0 <? cpuThreads) && (n_AvailCPUThreads row <? cpuThreads) then Err ErrAllocationConflict
      else if match gpuDeviceIndex with Some idx => gpu_allocated nodeID idx db | None => false end
           then Err ErrAllocationConflict
      else if existsb (fun a => String.eqb (al_InstanceID a) instanceID) (db_allocs db) then Err ErrUnique
      else if fk && bool_decide (db_instances db !! instanceID = None) then Err ErrForeignKey
      else
        let alloc := mkAlloc (next_id (db_allocs db)) instanceID nodeID cpuThreads ramMiB gpuDeviceIndex now None in
        let db := db {{ db_allocs ::= fun l => l ++ [alloc] }} in
        let db := db {{ db_nodes ::= <[nodeID := row {{ n_AvailRAMMiB ::= fun x => x - ramMiB }}
                          {{ n_AvailCPUThreads ::= fun x => x - cpuThreads }} {{ n_UpdatedAt := now }}]> }} in
        Ok (match gpuDeviceIndex with
            | Some idx => db {{ db_caps ::= set_gpu nodeID idx true }}
            | None => db
            end)
  end.

Definition active_alloc (instanceID : string) (db : VSDB) : option Allocation :=
  head (filter (fun a => al_InstanceID a = instanceID /\ al_ReleasedAt a = None) (db_allocs db)).

Definition ReleaseAllocation (instanceID : string) (now : Z) (db : VSDB) : VSDB :=
  match active_alloc instanceID db with
  | None => db
  | Some alloc =>
      let db := db {{ db_allocs ::= map (fun a => if al_ID a =? al_ID alloc
                                                  then a {{ al_ReleasedAt := Some now }} else a) }} in
      let db := db {{ db_nodes ::= alter (fun n => n {{ n_AvailRAMMiB ::= fun x => x + al_RAMMiB alloc }}
                        {{ n_AvailCPUThreads ::= fun x => x + al_CPUThreads alloc }} {{ n_UpdatedAt := now }})
                        (al_NodeID alloc) }} in
      match al_GPUDeviceIndex alloc with
      | Some idx => db {{ db_caps ::= set_gpu (al_NodeID alloc) idx false }}
      | None => db
      end
  end.

Definition GetActiveAllocation (instanceID : string) (db : VSDB) : result StoreError Allocation :=
  match active_alloc instanceID db with
  | None => Err ErrNotFound
  | Some a => Ok a
  end.

(** ** Services *)

Definition scanService (id : Z) (r : ServiceRow) : Service :=
  mkService id (sr_manifest r) (sr_desired r) (sr_state r) (sr_created r) (sr_updated r).

Definition CreateService (m : ServiceManifest) (now : Z) (db : VSDB) : result StoreError (Z * VSDB) :=
  if existsb (fun kv => String.eqb (sr_namespace kv.2) (sm_Namespace m) &&
                        String.eqb (sr_name kv.2) (sm_Name m)) (map_to_list (db_services db))
  then Err ErrUnique
  else
    let id := db_nextService db in
    let row := mkServiceRow (sm_Namespace m) (sm_Name m) m (ss_Instances (sm_Spec m)) "declared" now now in
    Ok (id, db {{ db_services ::= <[id := row]> }} {{ db_nextService := id + 1 }}
               {{ db_versions ::= fun l => l ++ [mkVersion id 1 m now] }}).

(** A missing row is the driver's [sql.ErrNoRows] here. *)
Definition GetService (id : Z) (db : VSDB) : result StoreError Service :=
  match db_services db !! id with
  | None => Err ErrNoRows
  | Some r => Ok (scanService id r)
  end.

Definition GetServiceByName (namespace name : string) (db : VSDB) : result StoreError Service :=
  match filter (fun kv => sr_namespace kv.2 = namespace /\ sr_name kv.2 = name) (map_to_list (db_services db)) with
  | [] => Err ErrNotFound
  | (id, r) :: _ => Ok (scanService id r)
  end.

Definition ListServices (namespace : string) (db : VSDB) : list Service :=
  (fun kv => scanService kv.1 kv.2) <$>
  slice_stable (fun a b => string_lt (sr_namespace a.2) (sr_namespace b.2) ||
                           (String.eqb (sr_namespace a.2) (sr_namespace b.2) &&
                            string_lt (sr_name a.2) (sr_name b.2)))
    (filter (fun kv => namespace = "" \/ sr_namespace kv.2 = namespace) (map_to_list (db_services db))).

(** [COALESCE(MAX(version),0)] *)
Definition max_version (id : Z) (db : VSDB) : Z :=
  foldr Z.max 0 (ver_version <$> filter (fun v => ver_service v = id) (db_versions db)).

Definition UpdateService (fk : bool) (id : Z) (m : ServiceManifest) (now : Z) (db : VSDB) : result StoreError VSDB :=
  let maxVer := max_version id db in
  if fk && bool_decide (db_services db !! id = None) then Err ErrForeignKey
  else
    Ok (db {{ db_services ::= alter (fun r => r {{ sr_manifest := m }} {{ sr_desired := ss_Instances (sm_Spec m) }}
                                                {{ sr_updated := now }}) id }}
           {{ db_versions ::= fun l => l ++ [mkVersion id (maxVer + 1) m now] }}).

(** With foreign keys enforced the row cannot go while an instance refers to it. *)
Definition DeleteService (fk : bool) (id : Z) (db : VSDB) : result StoreError VSDB :=
  let instances := snd <$> map_to_list (db_instances db) in
  let active := filter (fun r => ir_service r = id /\
                                 ir_state r <> InstanceTerminated /\ ir_state r <> InstanceFailed) instances in
  match active with
  | _ :: _ => Err ErrActiveInstances
  | [] =>
      if fk && existsb (fun r => ir_service r =? id) instances then Err ErrForeignKey
      else Ok (db {{ db_versions ::= filter (fun v => ver_service v <> id) }} {{ db_services ::= delete id }})
  end.

(** ** Operations and the audit log *)

Definition CreateOperation (fk : bool) (uuid instanceID : string) (opType : OperationType) (adapter : string)
    (now : Z) (db : VSDB) : result StoreError (string * VSDB) :=
  if bool_decide (is_Some (db_operations db !! uuid)) then Err ErrUnique
  else if fk && bool_decide (db_instances db !! instanceID = None) then Err ErrForeignKey
  else Ok (uuid, db {{ db_operations ::=
             <[uuid := mkOperation uuid instanceID opType OperationPending adapter [] now now None]> }}).

Definition listOperationEvents (operationID : string) (db : VSDB) : list OperationEvent :=
  filter (fun e => oe_OperationID e = operationID) (db_events db).

Definition GetOperation (id : string) (db : VSDB) : result StoreError Operation :=
  match db_operations db !! id with
  | None => Err ErrNotFound
  | Some op => Ok (op {{ op_Events := listOperationEvents id db }})
  end.

Definition ListInstanceOperations (instanceID : string) (db : VSDB) : list Operation :=
  (fun op => op {{ op_Events := listOperationEvents (op_ID op) db }}) <$>
  slice_stable (fun a b => op_CreatedAt a <? op_CreatedAt b)
    (filter (fun op => op_InstanceID op = instanceID) (snd <$> map_to_list (db_operations db))).

Definition operation_done (s : OperationState) : bool :=
  match s with OperationSucceeded | OperationFailed | OperationCancelled => true | _ => false end.

(** The write does not test the state that was read. *)
Definition UpdateOperationState (id : string) (to : OperationState) (now : Z) (dbr dbw : VSDB)
    : result StoreError VSDB :=
  match GetOperation id dbr with
  | Err e => Err e
  | Ok op =>
      if ValidateOperationTransition (op_State op) to then
        let completedAt := if operation_done to then Some now else None in
        Ok (dbw {{ db_operations ::= alter (fun r => r {{ op_State := to }} {{ op_UpdatedAt := now }}
                                                       {{ op_CompletedAt := completedAt }}) id }})
      else Err ErrTransition
  end.

Definition AppendOperationEvent (fk : bool) (operationID eventType message payload : string) (now : Z) (db : VSDB)
    : result StoreError VSDB :=
  if fk && bool_decide (db_operations db !! operationID = None) then Err ErrForeignKey
  else Ok (db {{ db_events ::= fun l => l ++ [mkEvent (next_id l) operationID eventType message payload now] }}).

Definition WriteAuditLog (action resourceType resourceID : string) (success : bool) (now : Z) (db : VSDB) : VSDB :=
  db {{ db_audit ::= fun l => l ++ [mkAudit now action resourceType resourceID success] }}.

(** ** Idempotency keys and namespaces *)

Definition idempotencyTTL : Z := 24 * 3600.

Section Idempotency.
(** The hex SHA-256 of a key. *)
Context (hashKey : string -> string).

Definition CheckIdempotency (key : string) (now : Z) (db : VSDB) : option (string * Z) :=
  match db_idem db !! hashKey key with
  | None => None
  | Some r => if id_expires r <? now then None else Some (id_response r, id_status r)
  end.

Definition StoreIdempotency (key response : string) (statusCode now : Z) (db : VSDB) : VSDB :=
  db {{ db_idem ::= <[hashKey key := mkIdem response statusCode now (now + idempotencyTTL)]> }}.

Definition ExpireIdempotencyKeys (now : Z) (db : VSDB) : VSDB :=
  db {{ db_idem ::= filter (fun kv => ~ id_expires kv.2 < now) }}.
End Idempotency.

Definition CreateNamespace (name description : string) (db : VSDB) : result StoreError (Z * VSDB) :=
  if existsb (fun n => String.eqb n.1 name) (db_namespaces db) then Err ErrUnique
  else Ok (next_id (db_namespaces db), db {{ db_namespaces ::= fun l => l ++ [(name, description)] }}).

Definition ListNamespaces (db : VSDB) : list string :=
  slice_stable string_lt (fst <$> db_namespaces db).

(** ** Volumes *)

Definition volume_taken (id namespace name : string) (db : VSDB) : bool :=
  bool_decide (is_Some (db_volumes db !! id)) ||
  existsb (fun kv => String.eqb (vr_namespace kv.2) namespace && String.eqb (vr_name kv.2) name)
    (map_to_list (db_volumes db)).

(** [state] is [None] for the empty string. *)
Definition CreateVolume (v : Volume) (state : option VolumeState) (now : Z) (db : VSDB)
    : result StoreError (string * VSDB) :=
  let ns := vm_Namespace (v_Manifest v) in
  let name := vm_Name (v_Manifest v) in
  if volume_taken (v_ID v) ns name db then Err ErrConflict
  else
    let rowid := next_rowid (map (fun kv => vr_rowid kv.2) (map_to_list (db_volumes db))) in
    let vol := v {{ v_State := default VolumeDeclared state }} {{ v_FailureReason := "" }}
                 {{ v_CreatedAt := now }} {{ v_UpdatedAt := now }} in
    Ok (v_ID v, db {{ db_volumes ::= <[v_ID v := mkVolRow rowid ns name vol]> }}).

Definition GetVolume (id : string) (db : VSDB) : result StoreError Volume :=
  match db_volumes db !! id with
  | None => Err ErrNotFound
  | Some r => Ok (vr_volume r)
  end.

Definition GetVolumeByName (namespace name : string) (db : VSDB) : result StoreError Volume :=
  match filter (fun kv => vr_namespace kv.2 = namespace /\ vr_name kv.2 = name) (map_to_list (db_volumes db)) with
  | [] => Err ErrNotFound
  | (_, r) :: _ => Ok (vr_volume r)
  end.

Definition ListVolumes (namespace : string) (db : VSDB) : list Volume :=
  vr_volume <$>
  slice_stable (fun a b => v_CreatedAt (vr_volume b) <? v_CreatedAt (vr_volume a))
    (filter (fun r => namespace = "" \/ vr_namespace r = namespace) (snd <$> map_to_list (db_volumes db))).

Definition ListVolumesByState (state : VolumeState) (db : VSDB) : list Volume :=
  vr_volume <$>
  slice_stable (fun a b => (v_CreatedAt (vr_volume a) <? v_CreatedAt (vr_volume b)) ||
                           ((v_CreatedAt (vr_volume a) =? v_CreatedAt (vr_volume b)) &&
                            (vr_rowid a <? vr_rowid b)))
    (filter (fun r => v_State (vr_volume r) = state) (snd <$> map_to_list (db_volumes db))).

Definition upd_volume (id : string) (f : Volume -> Volume) (db : VSDB) : VSDB :=
  db {{ db_volumes ::= alter (fun r => r {{ vr_volume ::= f }}) id }}.

(** Read and written under the mutex. *)
Definition UpdateVolumeState (id : string) (to : VolumeState) (now : Z) (db : VSDB) : result StoreError VSDB :=
  match db_volumes db !! id with
  | None => Err ErrNotFound
  | Some r =>
      if ValidateVolumeTransition (v_State (vr_volume r)) to
      then Ok (upd_volume id (fun v => v {{ v_State := to }} {{ v_UpdatedAt := now }}) db)
      else Err ErrTransition
  end.

Definition UpdateVolumeHandle (id : string) (handle : gmap string string) (now : Z) (db : VSDB) : VSDB :=
  upd_volume id (fun v => v {{ v_DriverHandle := handle }} {{ v_UpdatedAt := now }}) db.

Definition UpdateVolumeBoundNode (id nodeID : string) (now : Z) (db : VSDB) : VSDB :=
  upd_volume id (fun v => v {{ v_BoundNodeID := nodeID }} {{ v_UpdatedAt := now }}) db.

(** The state machine is not consulted. *)
Definition UpdateVolumeFailure (id reason : string) (now : Z) (db : VSDB) : VSDB :=
  upd_volume id (fun v => v {{ v_State := VolumeFailed }} {{ v_FailureReason := reason }} {{ v_UpdatedAt := now }}) db.

(** With foreign keys enforced the row cannot go while a mount or a snapshot,
    released or not, refers to it. *)
Definition DeleteVolume (fk : bool) (id : string) (db : VSDB) : result StoreError VSDB :=
  match db_volumes db !! id with
  | None => Err ErrNotFound
  | Some r =>
      if decide (v_State (vr_volume r) = VolumeReleased) then
        if fk && (existsb (fun m => String.eqb (m_VolumeID m) id) (db_mounts db) ||
                  existsb (fun kv => String.eqb (sn_VolumeID kv.2) id) (map_to_list (db_snapshots db)))
        then Err ErrForeignKey
        else Ok (db {{ db_volumes ::= delete id }})
      else Err ErrConflict
  end.

Definition ListActiveMountsByVolume (volumeID : string) (db : VSDB) : list VolumeMount :=
  filter (fun m => m_VolumeID m = volumeID /\ m_State m <> MountReleased) (db_mounts db).

Definition StartVolumeRelease (id : string) (now : Z) (db : VSDB) : result StoreError VSDB :=
  match db_volumes db !! id with
  | None => Err ErrNotFound
  | Some r =>
      let current := v_State (vr_volume r) in
      if decide (current = VolumeReleasing \/ current = VolumeReleased) then Ok db
      else if ValidateVolumeTransition current VolumeReleasing then
        match ListActiveMountsByVolume id db with
        | _ :: _ => Err ErrConflict
        | [] => Ok (upd_volume id (fun v => v {{ v_State := VolumeReleasing }} {{ v_UpdatedAt := now }}) db)
        end
      else Err ErrTransition
  end.

(** ** Mounts *)

Definition BindMount (fk : bool) (volumeID instanceID targetPath : string) (readOnly : bool) (db : VSDB)
    : result StoreError (Z * VSDB) :=
  if fk && (bool_decide (db_volumes db !! volumeID = None) || bool_decide (db_instances db !! instanceID = None))
  then Err ErrForeignKey
  else
    let id := next_id (db_mounts db) in
    Ok (id, db {{ db_mounts ::= fun l =>
          l ++ [mkMount id volumeID instanceID targetPath readOnly MountPending None None] }}).

Definition GetMount (id : Z) (db : VSDB) : result StoreError VolumeMount :=
  match filter (fun m => m_ID m = id) (db_mounts db) with
  | [] => Err ErrNotFound
  | m :: _ => Ok m
  end.

Definition ListMountsByInstance (instanceID : string) (db : VSDB) : list VolumeMount :=
  filter (fun m => m_InstanceID m = instanceID) (db_mounts db).

Definition UpdateMountState (id : Z) (to : VolumeMountState) (now : Z) (db : VSDB) : VSDB :=
  let set (m : VolumeMount) :=
    match to with
    | MountActive => m {{ m_State := to }} {{ m_MountedAt := Some now }}
    | MountReleased => m {{ m_State := to }} {{ m_UnmountedAt := Some now }}
    | _ => m {{ m_State := to }}
    end in
  db {{ db_mounts ::= map (fun m => if m_ID m =? id then set m else m) }}.

(** ** Snapshots *)

Definition CreateSnapshot (fk : bool) (id volumeID label : string) (now : Z) (db : VSDB) : result StoreError VSDB :=
  if bool_decide (is_Some (db_snapshots db !! id)) then Err ErrConflict
  else if fk && bool_decide (db_volumes db !! volumeID = None) then Err ErrForeignKey
  else Ok (db {{ db_snapshots ::= <[id := mkSnapshot id volumeID label SnapshotPending "" 0 now None]> }}).

Definition GetSnapshot (id : string) (db : VSDB) : result StoreError VolumeSnapshot :=
  match db_snapshots db !! id with
  | None => Err ErrNotFound
  | Some s => Ok s
  end.

Definition ListSnapshots (volumeID : string) (db : VSDB) : list VolumeSnapshot :=
  slice_stable (fun a b => sn_CreatedAt b <? sn_CreatedAt a)
    (filter (fun s => sn_VolumeID s = volumeID) (snd <$> map_to_list (db_snapshots db))).

Definition UpdateSnapshotState (id : string) (state : SnapshotState) (driverRef : string) (sizeMiB now : Z)
    (db : VSDB) : VSDB :=
  db {{ db_snapshots ::= alter (fun s =>
          if decide (state = SnapshotReady)
          then s {{ sn_State := state }} {{ sn_DriverRef := driverRef }} {{ sn_SizeMiB := sizeMiB }}
                 {{ sn_CompletedAt := Some now }}
          else s {{ sn_State := state }}) id }}.

(** * Migrations (virtualserver/store/migrations.go)

    The schema is the names of the tables and the columns that a migration adds
    to a table of an earlier one; the columns a table is created with are those of
    the records of [VsStore].  Each migration is applied and recorded in one transaction,
    which may fail at any of its statements. *)
Module Migrations.

(** What the text of a migration does. *)
Inductive Change := CreateTable (table : string) | AddColumn (table column : string).

Record migration := mkMigration { mg_version : Z; mg_description : string; mg_up : Change }.

Definition create (version : Z) (name : string) : migration := mkMigration version name (CreateTable name).
Definition migrations : list migration :=
  [create 1 "virtualserver_namespaces"; create 2 "virtualserver_nodes"; create 3 "virtualserver_node_capabilities";
   create 4 "virtualserver_services"; create 5 "virtualserver_service_versions"; create 6 "virtualserver_instances";
   create 7 "virtualserver_allocations"; create 8 "virtualserver_operations"; create 9 "virtualserver_operation_events";
   create 10 "virtualserver_health_observations"; create 11 "virtualserver_artifact_bindings"; create 12 "virtualserver_idempotency_keys";
   create 13 "audit_log"; create 14 "virtualserver_volumes"; create 15 "virtualserver_volume_mounts";
   create 16 "virtualserver_volume_snapshots"; mkMigration 17 "nodes_avail_cpu_threads" (AddColumn "virtualserver_nodes" "avail_cpu_threads")].

(** [sc_applied]: the table schema_migrations, when it exists. *)
Record Schema := mkSchema {
  sc_tables : gset string;
  sc_added : gset (string * string);
  sc_applied : option (gmap Z (Z * string))
}.
Definition empty_schema : Schema := mkSchema ∅ ∅ None.

(** A table that exists is kept; a column must be new, in a table that exists. *)
Definition apply_change (c : Change) (s : Schema) : option Schema :=
  match c with
  | CreateTable t => Some (s {{ sc_tables ::= fun ts => {[t]} ∪ ts }})
  | AddColumn t c =>
      if bool_decide (t ∈ sc_tables s) && negb (bool_decide ((t, c) ∈ sc_added s))
      then Some (s {{ sc_added ::= fun cs => {[(t, c)]} ∪ cs }}) else None
  end.

Inductive mig_step := MBootstrap | MCheck (v : Z) | MBegin (v : Z) | MApply (v : Z) | MRecord (v : Z) | MCommit (v : Z).

Definition applied (s : Schema) : gmap Z (Z * string) := default ∅ (sc_applied s).

(** The migrations in order, up to the first that fails. *)
Fixpoint run_list (fails : mig_step -> bool) (now : Z) (ms : list migration) (s : Schema) : Schema * result mig_step unit :=
  match ms with
  | [] => (s, Ok tt)
  | m :: ms =>
      let v := mg_version m in
      if fails (MCheck v) then (s, Err (MCheck v))
      else if bool_decide (is_Some (applied s !! v)) then run_list fails now ms s
      else if fails (MBegin v) then (s, Err (MBegin v))
      else
        match (if fails (MApply v) then None else apply_change (mg_up m) s) with
        | None => (s, Err (MApply v))
        | Some s1 =>
            if fails (MRecord v) then (s, Err (MRecord v))
            else if fails (MCommit v) then (s, Err (MCommit v))
            else run_list fails now ms (s1 {{ sc_applied := Some (<[v := (now, mg_description m)]> (applied s)) }})
        end
  end.

Definition runMigrations (fails : mig_step -> bool) (now : Z) (s : Schema) : Schema * result mig_step unit :=
  if fails MBootstrap then (s, Err MBootstrap)
  else run_list fails now migrations (s {{ sc_applied := Some (applied s) }}).

(** ** Theorems *)

(** What is recorded was done, and the column was not added by anything else. *)
Definition recorded (s : Schema) (v : Z) : Prop := is_Some (applied s !! v).
Definition done_change (c : Change) (s : Schema) : Prop :=
  match c with CreateTable t => t ∈ sc_tables s | AddColumn t c => (t, c) ∈ sc_added s end.
Definition consistent (s : Schema) : Prop :=
  (forall m, m ∈ migrations -> recorded s (mg_version m) -> done_change (mg_up m) s) /\
  (("virtualserver_nodes", "avail_cpu_threads") ∈ sc_added s -> recorded s 17).

Definition keeps (s s' : Schema) : Prop :=
  sc_tables s ⊆ sc_tables s' /\ sc_added s ⊆ sc_added s' /\ (forall v, recorded s v -> recorded s' v).

Lemma keeps_refl s : keeps s s.
Proof. split_and!; done. Qed.
Lemma keeps_trans a b c : keeps a b -> keeps b c -> keeps a c.
Proof. intros (H1 & H2 & H3) (H4 & H5 & H6). split_and!; [set_solver|set_solver|auto]. Qed.

Lemma done_keeps c s s' : keeps s s' -> done_change c s -> done_change c s'.
Proof. intros (H1 & H2 & _). destruct c; cbn; set_solver. Qed.

(** One migration, applied and recorded. *)
Lemma migrate_one now m s s1 :
  m ∈ migrations -> consistent s -> ~ recorded s (mg_version m) -> apply_change (mg_up m) s = Some s1 ->
  let s' := s1 {{ sc_applied := Some (<[mg_version m := (now, mg_description m)]> (applied s)) }} in
  consistent s' /\ keeps s s' /\ done_change (mg_up m) s' /\ (forall v, recorded s' v <-> v = mg_version m \/ recorded s v).
Proof.
  intros Hm [Hc1 Hc2] Hn Ha s'.
  assert (Hr : forall v, recorded s' v <-> v = mg_version m \/ recorded s v).
  { intros v. unfold recorded at 1, s', applied at 1. destruct s1. cbn. destruct (decide (v = mg_version m)) as [->|Hne].
    - rewrite lookup_insert_eq. by split; [left|].
    - rewrite lookup_insert_ne by done. split; [by right|by intros [?|?]]. }
  assert (Hk : keeps s s' /\ done_change (mg_up m) s').
  { unfold apply_change in Ha. destruct (mg_up m) as [t|t c].
    - injection Ha as <-. destruct s. cbn in *. split; [|set_solver]. split_and!; cbn; [set_solver|done|intros v ?; apply Hr; by right].
    - destruct (_ && _); [|done]. injection Ha as <-. destruct s. cbn in *. split; [|set_solver]. split_and!; cbn; [done|set_solver|intros v ?; apply Hr; by right]. }
  destruct Hk as [Hk Hd]. split_and!; [|done|done|done]. split.
  - intros m' Hm' [E|Hv]%Hr.
    + assert (m' = m) as ->; [|done].
      revert E. clear - Hm Hm'. apply list_elem_of_lookup in Hm as [i Hi], Hm' as [j Hj].
      assert (forall k x, migrations !! k = Some x -> mg_version x = Z.of_nat k + 1) as H.
      { intros k x. do 17 (destruct k as [|k]; [by intros [= <-]|]). done. }
      intros E. apply H in Hi as Hi', Hj as Hj'. assert (i = j) as -> by lia. congruence.
    + eapply done_keeps; [exact Hk|]. by apply Hc1.
  - intros Hin. apply Hr. unfold apply_change in Ha. destruct (mg_up m) as [t|t c] eqn:Eu.
    + right. apply Hc2. injection Ha as <-. by destruct s.
    + left. revert Eu. clear - Hm. intros Eu. revert Hm. unfold migrations. intros Hm.
      repeat (apply elem_of_cons in Hm as [->|Hm]; [done|]). by apply not_elem_of_nil in Hm.
Qed.

Lemma can_apply pre m ms s :
  migrations = pre ++ m :: ms -> consistent s -> (forall m', m' ∈ pre -> recorded s (mg_version m')) -> ~ recorded s (mg_version m) ->
  is_Some (apply_change (mg_up m) s).
Proof.
  intros Em [Hc1 Hc2] Hp Hn. assert (m ∈ migrations) as Hm by (rewrite Em; set_solver).
  destruct (mg_up m) as [t|t c] eqn:Eu; [by eexists|].
  assert (m = mkMigration 17 "nodes_avail_cpu_threads" (AddColumn "virtualserver_nodes" "avail_cpu_threads")) as ->.
  { revert Eu Hm. clear. unfold migrations. intros Eu Hm. repeat (apply elem_of_cons in Hm as [->|Hm]; [done|]). by apply not_elem_of_nil in Hm. }
  injection Eu as <- <-. cbn in *.
  assert (create 2 "virtualserver_nodes" ∈ pre) as Hin.
  { assert (create 2 "virtualserver_nodes" ∈ migrations) as Hi by (right; left). rewrite Em in Hi.
    apply elem_of_app in Hi as [?|Hi]; [done|]. exfalso. assert (length pre = 16%nat) as Hl.
    { revert Em. clear. intros Em. assert (migrations !! length pre = Some (mkMigration 17 "nodes_avail_cpu_threads" (AddColumn "virtualserver_nodes" "avail_cpu_threads"))) as H
        by (rewrite Em; by rewrite list_lookup_middle).
      revert H. generalize (length pre). clear. intros k H. do 16 (destruct k as [|k]; [done|]). by destruct k. }
    assert (length migrations = 17%nat) as Hlm by done. rewrite Em, length_app, Hl in Hlm. destruct ms; [|cbn in Hlm; lia].
    apply list_elem_of_singleton in Hi. done. }
  rewrite bool_decide_eq_true_2, bool_decide_eq_false_2; [by eexists| |].
  - intros H. by apply Hn, Hc2.
  - apply (Hc1 (create 2 "virtualserver_nodes")); [rewrite Em; set_solver|]. by apply Hp.
Qed.

Lemma run_list_spec fails now pre ms s :
  migrations = pre ++ ms -> consistent s -> (forall m, m ∈ pre -> recorded s (mg_version m)) ->
  consistent (run_list fails now ms s).1 /\ keeps s (run_list fails now ms s).1 /\
  match (run_list fails now ms s).2 with
  | Ok _ => forall m, m ∈ migrations -> recorded (run_list fails now ms s).1 (mg_version m)
  | Err e => fails e = true
  end.
Proof.
  revert pre s. induction ms as [|m ms IH]; intros pre s Em Hc Hp; cbn [run_list].
  - split; [done|]. split; [apply keeps_refl|]. intros m Hm. apply Hp. rewrite Em, app_nil_r in Hm. done.
  - assert (migrations = (pre ++ [m]) ++ ms) as Em' by (by rewrite Em, <- app_assoc).
    destruct (fails (MCheck _)) eqn:E1; [split; [done|]; by split; [apply keeps_refl|]|].
    case_bool_decide as Hr; [apply (IH (pre ++ [m])); [done..|]; intros m' [?| ->%list_elem_of_singleton]%elem_of_app; auto|].
    destruct (fails (MBegin _)) eqn:E2; [split; [done|]; by split; [apply keeps_refl|]|].
    destruct (fails (MApply _)) eqn:E3; [split; [done|]; by split; [apply keeps_refl|]|].
    destruct (can_apply pre m ms s Em Hc Hp Hr) as [s1 Hs1]. rewrite Hs1.
    destruct (fails (MRecord _)) eqn:E4; [split; [done|]; by split; [apply keeps_refl|]|].
    destruct (fails (MCommit _)) eqn:E5; [split; [done|]; by split; [apply keeps_refl|]|].
    destruct (migrate_one now m s s1) as (Hc' & Hk & _ & Hrec); [rewrite Em; set_solver|done..|].
    match goal with |- consistent (run_list _ _ _ ?s').1 /\ _ => destruct (IH (pre ++ [m]) s') as (H1 & H2 & H3) end.
    + done.
    + done.
    + intros m' [Hin| ->%list_elem_of_singleton]%elem_of_app; apply Hrec; [right; by apply Hp|by left].
    + split; [done|]. split; [by eapply keeps_trans|done].
Qed.

Lemma run_list_done fails now ms s :
  (forall v, fails (MCheck v) = false) -> (forall m, m ∈ ms -> recorded s (mg_version m)) -> run_list fails now ms s = (s, Ok tt).
Proof.
  intros Hf. induction ms as [|m ms IH]; intros Hr; cbn; [done|]. rewrite Hf, bool_decide_eq_true_2 by (apply Hr; set_solver). apply IH. intros m' Hm'. apply Hr. set_solver.
Qed.

Lemma empty_consistent : consistent empty_schema.
Proof. split; [intros m _ [x Hx]; done|intros H; set_solver]. Qed.

(** Migrations recover.  From a consistent schema, such as the empty one, running the migrations
    leaves a consistent schema that has lost nothing, whatever fails on the way, so
    that they can be run again; they fail only where the database does.  When they succeed every
    migration is recorded and done, and running them again changes nothing. *)
Theorem migrations_recover fails now s :
  consistent s ->
  let '(s', r) := runMigrations fails now s in
  consistent s' /\ keeps s s' /\
  match r with
  | Err e => fails e = true
  | Ok _ =>
      (forall m, m ∈ migrations -> recorded s' (mg_version m) /\ done_change (mg_up m) s') /\
      forall fails' now', fails' MBootstrap = false -> (forall v, fails' (MCheck v) = false) -> runMigrations fails' now' s' = (s', Ok tt)
  end.
Proof.
  intros Hc. unfold runMigrations. destruct (fails MBootstrap) eqn:Eb; [split; [done|]; by split; [apply keeps_refl|]|].
  set (s0 := s {{ sc_applied := Some (applied s) }}).
  assert (Hr0 : forall v, recorded s0 v <-> recorded s v) by (intros v; unfold s0, recorded, applied; destruct s as [? ? []]; done).
  assert (sc_tables s0 = sc_tables s /\ sc_added s0 = sc_added s) as [Et Ea] by (unfold s0; by destruct s).
  assert (keeps s s0) as Hk0 by (split_and!; [by rewrite Et|by rewrite Ea|intros v; apply Hr0]).
  assert (consistent s0) as Hc0.
  { destruct Hc as [H1 H2]. split.
    - intros m Hm Hr%Hr0. eapply done_keeps; [exact Hk0|]. by apply H1.
    - intros H. rewrite Ea in H. by apply Hr0, H2. }
  destruct (run_list_spec fails now [] migrations s0 eq_refl Hc0) as (H1 & H2 & H3); [intros m Hm; by apply not_elem_of_nil in Hm|].
  destruct (run_list fails now migrations s0) as [s' r] eqn:E. cbn [fst snd] in *. split; [done|]. split; [by eapply keeps_trans|].
  destruct r as [[]|e]; [|done]. split.
  - intros m Hm. specialize (H3 m Hm). split; [done|]. by apply (proj1 H1).
  - intros fails' now' Hb Hf. rewrite Hb. assert (is_Some (sc_applied s')) as [a Ha].
    { destruct (H3 (create 1 "virtualserver_namespaces")) as [x Hx]; [left|]. unfold applied in Hx. by destruct (sc_applied s'); [eexists|]. }
    assert (s' {{ sc_applied := Some (applied s') }} = s') as -> by (clear - Ha; unfold applied; destruct s'; cbn in *; by subst).
    by apply run_list_done.
Qed.

(** A start that dies in the middle, and the next one. *)
Example interrupted :
  let '(s1, r1) := runMigrations (fun st => match st with MCommit 9 => true | _ => false end) 100 empty_schema in
  let '(s2, r2) := runMigrations (fun _ => false) 200 s1 in
  r1 = Err (MCommit 9) /\ applied s1 !! 8 = Some (100, "virtualserver_operations") /\ applied s1 !! 9 = None /\
  r2 = Ok tt /\ applied s2 !! 8 = Some (100, "virtualserver_operations") /\ applied s2 !! 17 = Some (200, "nodes_avail_cpu_threads").
Proof. vm_compute. done. Qed.

End Migrations.
