(* ===== verification/VsStoreSpec.v ===== *)
(** * Virtual server: what the store guarantees

    All store operations as one type of steps, executed with the database the
    operation read and the database it writes.  Reservations are conserved,
    instance states follow the state machine whatever was read, service
    versions are consecutive, and the joined listing of nodes equals one query
    per node. *)
From Stdlib Require Import String.
From S2P Require Import Prelude GoSort VsDomain VsStore.
Open Scope string_scope.
Open Scope list_scope.
Open Scope Z_scope.

Inductive StoreOp :=
| OCreateNode (n : Node) (uuid : string)
| OUpdateNodeState (id : string) (to : NodeState)
| OHeartbeat (id : string) (ram cpu : Z)
| OUpdateGPUAllocation (node : string) (idx : Z) (allocated : bool)
| OCreateInstance (uuid : string) (service : Z) (path : VSPath)
| OUpdateInstanceState (id : string) (to : InstanceState)
| OAssignNode (id node : string)
| OUpdateRuntimeHandle (id : string) (handle : gmap string string)
| OIncrementRetryCount (id : string)
| OAllocateResources (id node : string) (cpu ram : Z) (gpu : option Z)
| OReleaseAllocation (id : string)
| OCreateService (m : ServiceManifest)
| OUpdateService (id : Z) (m : ServiceManifest)
| ODeleteService (id : Z)
| OCreateOperation (uuid inst : string) (t : OperationType) (adapter : string)
| OUpdateOperationState (id : string) (to : OperationState)
| OAppendOperationEvent (id type msg payload : string)
| OWriteAuditLog (action type id : string) (success : bool)
| OStoreIdempotency (key response : string) (status : Z)
| OExpireIdempotencyKeys
| OCreateNamespace (name description : string)
| OCreateVolume (v : Volume) (s : option VolumeState)
| OUpdateVolumeState (id : string) (to : VolumeState)
| OUpdateVolumeHandle (id : string) (handle : gmap string string)
| OUpdateVolumeBoundNode (id node : string)
| OUpdateVolumeFailure (id reason : string)
| ODeleteVolume (id : string)
| OStartVolumeRelease (id : string)
| OBindMount (vol inst target : string) (ro : bool)
| OUpdateMountState (id : Z) (to : VolumeMountState)
| OCreateSnapshot (id vol label : string)
| OUpdateSnapshotState (id : string) (s : SnapshotState) (ref : string) (size : Z).

(** A failed operation changes nothing. *)
Definition commit (db : VSDB) (r : result StoreError VSDB) : VSDB :=
  match r with Ok db' => db' | Err _ => db end.
Definition commit2 {A} (db : VSDB) (r : result StoreError (A * VSDB)) : VSDB :=
  match r with Ok (_, db') => db' | Err _ => db end.

Definition exec (fk : bool) (hashKey : string -> string) (op : StoreOp) (now : Z) (dbr db : VSDB) : VSDB :=
  match op with
  | OCreateNode n u => commit2 db (CreateNode n u now db)
  | OUpdateNodeState id to => commit db (UpdateNodeState id to now dbr db)
  | OHeartbeat id ram cpu => commit db (Heartbeat id ram cpu now dbr db)
  | OUpdateGPUAllocation n idx b => UpdateGPUAllocation n idx b db
  | OCreateInstance u svc p => commit2 db (CreateInstance fk u svc p now db)
  | OUpdateInstanceState id to => commit db (UpdateInstanceState id to now dbr db)
  | OAssignNode id n => commit db (AssignNode fk id n now dbr db)
  | OUpdateRuntimeHandle id h => UpdateRuntimeHandle id h now db
  | OIncrementRetryCount id => IncrementRetryCount id now db
  | OAllocateResources id n cpu ram gpu => commit db (AllocateResources fk id n cpu ram gpu now db)
  | OReleaseAllocation id => ReleaseAllocation id now db
  | OCreateService m => commit2 db (CreateService m now db)
  | OUpdateService id m => commit db (UpdateService fk id m now db)
  | ODeleteService id => commit db (DeleteService fk id db)
  | OCreateOperation u i t a => commit2 db (CreateOperation fk u i t a now db)
  | OUpdateOperationState id to => commit db (UpdateOperationState id to now dbr db)
  | OAppendOperationEvent id t m p => commit db (AppendOperationEvent fk id t m p now db)
  | OWriteAuditLog a t id ok => WriteAuditLog a t id ok now db
  | OStoreIdempotency k r s => StoreIdempotency hashKey k r s now db
  | OExpireIdempotencyKeys => ExpireIdempotencyKeys now db
  | OCreateNamespace n d => commit2 db (CreateNamespace n d db)
  | OCreateVolume v s => commit2 db (CreateVolume v s now db)
  | OUpdateVolumeState id to => commit db (UpdateVolumeState id to now db)
  | OUpdateVolumeHandle id h => UpdateVolumeHandle id h now db
  | OUpdateVolumeBoundNode id n => UpdateVolumeBoundNode id n now db
  | OUpdateVolumeFailure id r => UpdateVolumeFailure id r now db
  | ODeleteVolume id => commit db (DeleteVolume fk id db)
  | OStartVolumeRelease id => commit db (StartVolumeRelease id now db)
  | OBindMount v i t ro => commit2 db (BindMount fk v i t ro db)
  | OUpdateMountState id to => UpdateMountState id to now db
  | OCreateSnapshot id v l => commit db (CreateSnapshot fk id v l now db)
  | OUpdateSnapshotState id s r n => UpdateSnapshotState id s r n now db
  end.

(** Histories, newest database first: an operation may have read any database
    since the start. *)
Inductive history (fk : bool) (hashKey : string -> string) (allowed : StoreOp -> Prop) (db0 : VSDB) : list VSDB -> Prop :=
| history_init : history fk hashKey allowed db0 [db0]
| history_step op now dbr db h :
    history fk hashKey allowed db0 (db :: h) -> allowed op -> dbr ∈ db :: h ->
    history fk hashKey allowed db0 (exec fk hashKey op now dbr db :: db :: h).

(** Opens every branch of the operation in the goal. *)
Ltac exec_cases :=
  cbn [exec]; unfold commit, commit2, CreateNode, UpdateNodeState, Heartbeat, UpdateGPUAllocation,
    CreateInstance, UpdateInstanceState, AssignNode, UpdateRuntimeHandle, IncrementRetryCount,
    AllocateResources, ReleaseAllocation, CreateService, UpdateService, DeleteService, CreateOperation,
    UpdateOperationState, AppendOperationEvent, WriteAuditLog, StoreIdempotency, ExpireIdempotencyKeys,
    CreateNamespace, CreateVolume, UpdateVolumeState, UpdateVolumeHandle, UpdateVolumeBoundNode,
    UpdateVolumeFailure, upd_volume, DeleteVolume, StartVolumeRelease, BindMount, UpdateMountState,
    CreateSnapshot, UpdateSnapshotState, GetNode, GetInstance, GetOperation in *;
  cbv zeta in *; repeat case_match; simplify_eq.

Section Frames.
Context (fk : bool) (hashKey : string -> string) (now : Z) (dbr : VSDB).

(** Operations that touch nodes, devices or allocations. *)
Definition resource_op (op : StoreOp) : bool :=
  match op with
  | OCreateNode _ _ | OUpdateNodeState _ _ | OHeartbeat _ _ _ | OUpdateGPUAllocation _ _ _
  | OAllocateResources _ _ _ _ _ | OReleaseAllocation _ => true
  | _ => false
  end.

Lemma resource_frame op db :
  resource_op op = false ->
  let db' := exec fk hashKey op now dbr db in
  db_nodes db' = db_nodes db /\ db_caps db' = db_caps db /\ db_allocs db' = db_allocs db.
Proof. destruct op; try discriminate; intros _; exec_cases; done. Qed.

Definition instance_op (op : StoreOp) : bool :=
  match op with
  | OCreateInstance _ _ _ | OUpdateInstanceState _ _ | OAssignNode _ _ | OUpdateRuntimeHandle _ _
  | OIncrementRetryCount _ => true
  | _ => false
  end.

Lemma instance_frame op db :
  instance_op op = false -> db_instances (exec fk hashKey op now dbr db) = db_instances db.
Proof. destruct op; try discriminate; intros _; exec_cases; done. Qed.

Definition service_op (op : StoreOp) : bool :=
  match op with OCreateService _ | OUpdateService _ _ | ODeleteService _ => true | _ => false end.

Lemma service_frame op db :
  service_op op = false ->
  let db' := exec fk hashKey op now dbr db in
  db_services db' = db_services db /\ db_versions db' = db_versions db /\ db_nextService db' = db_nextService db.
Proof. destruct op; try discriminate; intros _; exec_cases; done. Qed.
End Frames.

(** ** Instance states *)

(** What one operation may do to an instance's row. *)
Definition instance_step (op : StoreOp) (id : string) (row row' : InstanceRow) : Prop :=
  ir_service row' = ir_service row /\ ir_path row' = ir_path row /\
  (ir_state row' = ir_state row \/
   ValidateInstanceTransition (ir_state row) (ir_state row') = true \/
   (op = OIncrementRetryCount id /\ ir_state row' = InstanceDeclared)) /\
  (ir_retry row' = ir_retry row \/ (op = OIncrementRetryCount id /\ ir_retry row' = ir_retry row + 1)).

Lemma instance_step_refl op id row : instance_step op id row row.
Proof. unfold instance_step. auto. Qed.

#[local] Hint Resolve instance_step_refl : ocelot.

(** A row inserted at some key, seen from another row. *)
Lemma instance_step_insert op id id' row new m :
  m !! id = Some row -> (id = id' -> instance_step op id row new) ->
  exists row', (<[id' := new]> m : gmap string InstanceRow) !! id = Some row' /\ instance_step op id row row'.
Proof.
  intros Hm Hstep. destruct (decide (id = id')) as [<-|Hne].
  - exists new. rewrite lookup_insert_eq. auto.
  - exists row. rewrite lookup_insert_ne by done. auto with ocelot.
Qed.

Lemma instance_step_alter op id id' row f m :
  m !! id = Some row -> (id = id' -> instance_step op id row (f row)) ->
  exists row', (alter f id' m : gmap string InstanceRow) !! id = Some row' /\ instance_step op id row row'.
Proof.
  intros Hm Hstep. destruct (decide (id = id')) as [<-|Hne].
  - exists (f row). rewrite lookup_alter_eq, Hm. auto.
  - exists row. rewrite lookup_alter_ne by done. auto with ocelot.
Qed.

Lemma instance_step_exec fk hashKey op now dbr db id row :
  db_instances db !! id = Some row ->
  exists row', db_instances (exec fk hashKey op now dbr db) !! id = Some row' /\ instance_step op id row row'.
Proof.
  intros Hrow. destruct (instance_op op) eqn:Eop.
  2: { rewrite instance_frame by done. exists row. auto with ocelot. }
  destruct op; try discriminate; exec_cases; eauto with ocelot; cbn [db_instances];
    (apply instance_step_insert || apply instance_step_alter); try done; intros ->.
  all: match goal with
       | H : bool_decide (is_Some _) = false |- _ => apply bool_decide_eq_false in H; naive_solver
       | _ => simplify_eq; destruct row; unfold instance_step; cbn in *; subst; intuition auto with lia
       end.
Qed.

(** [C17] Instance states.  Whatever database an operation read before it took
    the write mutex, it removes no instance, and it moves an instance only along
    an allowed transition; the one exception is [IncrementRetryCount], which
    makes the instance declared and counts one retry more.  The service and
    the path of an instance never change. *)
Theorem instance_transitions_legal fk hashKey op now dbr db id row :
  db_instances db !! id = Some row ->
  exists row', db_instances (exec fk hashKey op now dbr db) !! id = Some row' /\ instance_step op id row row'.
Proof. apply instance_step_exec. Qed.

(** ** Reservations *)

Definition holds (node : string) (a : Allocation) : bool := is_active a && String.eqb (al_NodeID a) node.

(** What active allocations reserve on a node. *)
Definition reserved (f : Allocation -> Z) (node : string) (l : list Allocation) : Z :=
  sumZ (fun a => if holds node a then f a else 0) l.

(** How many active allocations hold a device. *)
Definition holders (node : string) (idx : Z) (l : list Allocation) : Z :=
  reserved (fun a => if bool_decide (al_GPUDeviceIndex a = Some idx) then 1 else 0) node l.

(** A node's free memory and threads and its reservations make up its capacity. *)
Definition node_balanced (l : list Allocation) (id : string) (n : Node) : Prop :=
  n_AvailRAMMiB n + reserved al_RAMMiB id l = n_TotalRAMMiB n /\ 0 <= n_AvailRAMMiB n /\
  n_AvailCPUThreads n + reserved al_CPUThreads id l = n_CPUThreads n /\ 0 <= n_AvailCPUThreads n.

(** The flag of a device counts its holders. *)
Definition device_balanced (l : list Allocation) (c : CapRow) : Prop :=
  holders (cap_node c) (g_Index (cap_gpu c)) l = if g_Allocated (cap_gpu c) then 1 else 0.

Record AllocInv (db : VSDB) : Prop := {
  ai_ids : al_ID <$> db_allocs db = seqZ 1 (len (db_allocs db));
  ai_inst : NoDup (al_InstanceID <$> db_allocs db);
  ai_alloc : forall a, a ∈ db_allocs db ->
    is_Some (db_nodes db !! al_NodeID a) /\ 0 <= al_RAMMiB a /\ 0 <= al_CPUThreads a;
  ai_node : forall id n, db_nodes db !! id = Some n -> node_balanced (db_allocs db) id n;
  ai_cap : forall c, c ∈ db_caps db -> is_Some (db_nodes db !! cap_node c);
  ai_dev : forall c, c ∈ db_caps db -> device_balanced (db_allocs db) c
}.

(** Nodes are registered free, as [RegisterNode] does, requests are not
    negative, and agents do not overwrite what the store accounts for. *)
Definition accounted (op : StoreOp) : Prop :=
  match op with
  | OHeartbeat _ _ _ | OUpdateGPUAllocation _ _ _ => False
  | OCreateNode n _ =>
      n_AvailRAMMiB n = n_TotalRAMMiB n /\ 0 <= n_TotalRAMMiB n /\ 0 <= n_CPUThreads n /\
      (n_AvailCPUThreads n = 0 \/ n_AvailCPUThreads n = n_CPUThreads n) /\
      Forall (fun g => g_Allocated g = false) (n_GPUDevices n)
  | OAllocateResources _ _ cpu ram _ => 0 <= cpu /\ 0 <= ram
  | _ => True
  end.

Lemma reserved_app f node l k : reserved f node (l ++ k) = reserved f node l + reserved f node k.
Proof. apply sumZ_app. Qed.

Lemma reserved_one f node a : reserved f node [a] = if holds node a then f a else 0.
Proof. unfold reserved. rewrite sumZ_cons, sumZ_nil. lia. Qed.

Lemma reserved_absent f node l :
  (forall a, a ∈ l -> al_NodeID a <> node) -> reserved f node l = 0.
Proof.
  intros H. unfold reserved. rewrite (sumZ_ext _ (fun _ => 0)).
  - by induction l as [|a l IH]; [|rewrite sumZ_cons, IH; set_solver].
  - intros a Ha. unfold holds. destruct (String.eqb_spec (al_NodeID a) node) as [E|]; [|by rewrite andb_false_r].
    by destruct (H a Ha).
Qed.

Lemma holders_nonneg node idx l : 0 <= holders node idx l.
Proof. apply sumZ_nonneg. intros a _. by destruct (holds node a); [case_bool_decide|]. Qed.

(** Releasing the allocation [a] of a list whose ids are distinct. *)
Definition release (a : Allocation) (now : Z) (l : list Allocation) : list Allocation :=
  map (fun b => if al_ID b =? al_ID a then b {{ al_ReleasedAt := Some now }} else b) l.

Lemma release_cons a now b l :
  release a now (b :: l) =
  (if al_ID b =? al_ID a then b {{ al_ReleasedAt := Some now }} else b) :: release a now l.
Proof. done. Qed.

Lemma release_fresh (a : Allocation) now (l : list Allocation) :
  al_ID a ∉ al_ID <$> l -> release a now l = l.
Proof.
  intros H. unfold release. rewrite <- (map_id l) at 2. apply map_ext_in. intros b Hb.
  destruct (Z.eqb_spec (al_ID b) (al_ID a)) as [E|]; [|done].
  destruct H. rewrite <- E. apply list_elem_of_fmap_2. by apply list_elem_of_In.
Qed.

Lemma reserved_release f node (a : Allocation) now (l : list Allocation) :
  NoDup (al_ID <$> l) -> a ∈ l -> al_ReleasedAt a = None ->
  reserved f node (release a now l) = reserved f node l - (if String.eqb (al_NodeID a) node then f a else 0).
Proof.
  intros Hnd Ha Hact. induction l as [|b l IH]; [by apply not_elem_of_nil in Ha|].
  rewrite fmap_cons in Hnd. apply NoDup_cons in Hnd as [Hb Hnd].
  rewrite release_cons. unfold reserved in *. rewrite !sumZ_cons.
  apply elem_of_cons in Ha as [<-|Ha].
  - rewrite Z.eqb_refl, release_fresh by done. unfold holds at 1 3, is_active.
    rewrite (bool_decide_eq_true_2 (al_ReleasedAt a = None)) by done. cbn. lia.
  - destruct (Z.eqb_spec (al_ID b) (al_ID a)) as [E|].
    + destruct Hb. rewrite E. by apply list_elem_of_fmap_2.
    + rewrite IH by done. lia.
Qed.

Lemma release_fields {B} (f : Allocation -> B) (a : Allocation) now l :
  (forall b, f (b {{ al_ReleasedAt := Some now }}) = f b) -> f <$> release a now l = f <$> l.
Proof.
  intros H. unfold release. rewrite <- list_fmap_compose. apply list_fmap_ext. intros _ b _. unfold compose.
  destruct (_ =? _); [apply H|done].
Qed.

Lemma release_elem (a : Allocation) now l b' :
  b' ∈ release a now l -> exists b, b ∈ l /\ al_NodeID b' = al_NodeID b /\ al_RAMMiB b' = al_RAMMiB b /\
    al_CPUThreads b' = al_CPUThreads b.
Proof.
  intros (b & -> & Hb)%list_elem_of_fmap. exists b. split; [done|]. by destruct (_ =? _).
Qed.

Lemma active_alloc_inv id db a :
  active_alloc id db = Some a -> a ∈ db_allocs db /\ al_InstanceID a = id /\ al_ReleasedAt a = None.
Proof.
  unfold active_alloc. intros H. apply head_Some_elem_of in H.
  apply list_elem_of_filter in H as [[? ?] ?]. done.
Qed.

(** Devices: setting the flag of one device. *)
Lemma set_gpu_elem node idx b caps c' :
  c' ∈ set_gpu node idx b caps ->
  exists c, c ∈ caps /\ cap_node c' = cap_node c /\ g_Index (cap_gpu c') = g_Index (cap_gpu c) /\
    g_Allocated (cap_gpu c') =
      if bool_decide (cap_node c = node /\ g_Index (cap_gpu c) = idx) then b else g_Allocated (cap_gpu c).
Proof.
  intros (c & -> & Hc)%list_elem_of_fmap. exists c. split; [done|].
  by destruct (bool_decide (cap_node c = node /\ g_Index (cap_gpu c) = idx)).
Qed.

Lemma gpu_free node idx db c :
  AllocInv db -> gpu_allocated node idx db = false ->
  c ∈ db_caps db -> cap_node c = node -> g_Index (cap_gpu c) = idx ->
  holders node idx (db_allocs db) = 0.
Proof.
  intros HI Hg Hc Hn Hi. unfold gpu_allocated in Hg.
  destruct (filter _ _) as [|c0 rest] eqn:E.
  - assert (c ∈ filter (fun c => cap_node c = node /\ g_Index (cap_gpu c) = idx) (db_caps db)) as H
      by (apply list_elem_of_filter; done).
    rewrite E in H. by apply not_elem_of_nil in H.
  - assert (c0 ∈ filter (fun c => cap_node c = node /\ g_Index (cap_gpu c) = idx) (db_caps db)) as H
      by (rewrite E; apply elem_of_cons; by left).
    apply list_elem_of_filter in H as [[Hn0 Hi0] H0].
    pose proof (ai_dev db HI c0 H0) as Hd. unfold device_balanced in Hd. by rewrite Hn0, Hi0, Hg in Hd.
Qed.

Lemma seqZ_snoc n : 0 <= n -> seqZ 1 (n + 1) = seqZ 1 n ++ [n + 1].
Proof. intros Hn. rewrite seqZ_app by lia. f_equal. rewrite Z.add_comm. by rewrite seqZ_cons by lia. Qed.

Lemma AllocInv_release id now db : AllocInv db -> AllocInv (ReleaseAllocation id now db).
Proof.
  intros HI. unfold ReleaseAllocation. destruct (active_alloc id db) as [a|] eqn:Ea; [|done].
  apply active_alloc_inv in Ea as (Ha & _ & Hact).
  assert (NoDup (al_ID <$> db_allocs db)) as Hnd by (rewrite (ai_ids db HI); apply NoDup_seqZ).
  pose (l' := release a now (db_allocs db)).
  pose (m' := alter (fun n => n {{ n_AvailRAMMiB ::= fun x => x + al_RAMMiB a }}
                {{ n_AvailCPUThreads ::= fun x => x + al_CPUThreads a }} {{ n_UpdatedAt := now }})
                (al_NodeID a) (db_nodes db)).
  assert (forall k, is_Some (db_nodes db !! k) -> is_Some (m' !! k)) as Hsome.
  { intros k Hk. unfold m'. destruct (decide (k = al_NodeID a)) as [->|Hne];
      [rewrite lookup_alter_eq; by apply fmap_is_Some|by rewrite lookup_alter_ne]. }
  assert (forall db', db_allocs db' = l' -> db_nodes db' = m' ->
            (forall c, c ∈ db_caps db' -> is_Some (m' !! cap_node c)) ->
            (forall c, c ∈ db_caps db' -> device_balanced l' c) -> AllocInv db') as Hmk.
  { intros db' El Em Hc Hd. constructor; rewrite ?El, ?Em; try done.
    - unfold l'. rewrite release_fields by done. rewrite (ai_ids db HI). unfold len, release. by rewrite length_map.
    - unfold l'. rewrite release_fields by done. apply (ai_inst db HI).
    - intros b' Hb'. apply release_elem in Hb' as (b & Hb & -> & -> & ->).
      destruct (ai_alloc db HI b Hb) as (? & ? & ?). auto.
    - intros k n Hk. unfold node_balanced, l'. rewrite !reserved_release by done.
      unfold m' in Hk. destruct (decide (k = al_NodeID a)) as [->|Hne].
      + rewrite lookup_alter_eq in Hk. apply fmap_Some in Hk as (n0 & Hn0 & ->).
        pose proof (ai_node db HI _ _ Hn0) as Hb. unfold node_balanced in Hb.
        destruct (ai_alloc db HI a Ha) as (_ & ? & ?). rewrite String.eqb_refl. destruct n0; cbn in *. lia.
      + rewrite lookup_alter_ne in Hk by done. pose proof (ai_node db HI _ _ Hk) as Hb.
        unfold node_balanced in Hb. rewrite (proj2 (String.eqb_neq _ _)) by done. lia. }
  assert (forall node idx, holders node idx l' = holders node idx (db_allocs db) -
            (if bool_decide (al_NodeID a = node /\ al_GPUDeviceIndex a = Some idx) then 1 else 0)) as Hh.
  { intros node idx. unfold holders, l'. rewrite reserved_release by done. f_equal.
    destruct (String.eqb_spec (al_NodeID a) node); repeat case_bool_decide; naive_solver. }
  destruct (al_GPUDeviceIndex a) as [idx|] eqn:Eg; apply Hmk; try done.
  - intros c' (c & Hc & -> & _)%set_gpu_elem. by apply Hsome, (ai_cap db HI).
  - intros c' (c & Hc & En & Ei & Ea)%set_gpu_elem. unfold device_balanced. rewrite En, Ei, Ea, Hh.
    pose proof (ai_dev db HI c Hc) as Hb. unfold device_balanced in Hb. rewrite Hb.
    pose proof (holders_nonneg (cap_node c) (g_Index (cap_gpu c)) l') as Hpos. rewrite Hh, Hb in Hpos.
    repeat case_bool_decide; destruct (g_Allocated (cap_gpu c)); naive_solver lia.
  - intros c Hc. by apply Hsome, (ai_cap db HI).
  - intros c Hc. unfold device_balanced. rewrite Hh, bool_decide_eq_false_2 by naive_solver.
    rewrite Z.sub_0_r. by apply (ai_dev db HI).
Qed.

(** A node row replaced by one with the same capacity and free resources. *)
Lemma AllocInv_node_row db id (n n' : Node) :
  AllocInv db -> db_nodes db !! id = Some n ->
  (forall l, node_balanced l id n -> node_balanced l id n') ->
  AllocInv (db {{ db_nodes ::= <[id := n']> }}).
Proof.
  intros HI Hn Hsame.
  assert (forall k, is_Some (db_nodes db !! k) -> is_Some ((<[id := n']> (db_nodes db)) !! k)) as Hsome.
  { intros k Hk. rewrite lookup_insert_is_Some'. by right. }
  destruct HI. constructor; try done; cbn [db_nodes db_allocs db_caps].
  - intros a Ha. destruct (ai_alloc0 a Ha). auto.
  - intros k x Hk. change (<[id := n']> (db_nodes db) !! k = Some x) in Hk.
    apply lookup_insert_Some in Hk as [[<- <-]|[Hne Hk]]; [|by apply ai_node0].
    by apply Hsame, ai_node0.
  - intros c Hc. by apply Hsome, ai_cap0.
Qed.

Lemma AllocInv_create n uuid now db :
  accounted (OCreateNode n uuid) -> AllocInv db -> AllocInv (commit2 db (CreateNode n uuid now db)).
Proof.
  intros (Hr & Hr0 & Hc0 & Hc & Hg) HI. unfold CreateNode. cbv zeta.
  set (id := if String.eqb (n_ID n) "" then uuid else n_ID n).
  destruct (node_taken id (n_Name n) db) eqn:Et; [done|]. cbn [commit2].
  unfold node_taken in Et. apply orb_false_iff in Et as [Et _]. rewrite bool_decide_eq_false in Et.
  assert (forall a, a ∈ db_allocs db -> al_NodeID a <> id) as Hfresh.
  { intros a Ha <-. by destruct Et, (ai_alloc db HI a Ha). }
  assert (forall x k, is_Some (db_nodes db !! k) -> is_Some ((<[id := x]> (db_nodes db)) !! k)) as Hsome.
  { intros x k Hk. rewrite lookup_insert_is_Some'. by right. }
  match goal with |- AllocInv (?d {{ db_nodes ::= <[_ := ?r]> }} {{ db_caps ::= _ }}) => set (row := r) end.
  assert (forall db', db_allocs db' = db_allocs db -> db_nodes db' = <[id := row]> (db_nodes db) ->
            db_caps db' = db_caps db ++ map (mkCap id) (n_GPUDevices n) -> AllocInv db') as Hmk.
  2: { by apply Hmk. }
  intros db' El Em Ecap. constructor; rewrite ?El, ?Em, ?Ecap; try apply HI.
  - intros a Ha. destruct (ai_alloc db HI a Ha). auto.
  - intros k x Hk. apply lookup_insert_Some in Hk as [[<- <-]|[Hne Hk]]; [|by apply (ai_node db HI)].
    unfold node_balanced, row. rewrite !reserved_absent by done. destruct n; cbn in *.
    destruct (Z.eqb_spec n_AvailCPUThreads 0); lia.
  - intros c [Hin|Hin]%elem_of_app; [by apply Hsome, (ai_cap db HI)|].
    apply list_elem_of_fmap in Hin as (g & -> & _). cbn [cap_node]. by rewrite lookup_insert_eq.
  - intros c [Hin|Hin]%elem_of_app; [by apply (ai_dev db HI)|].
    apply list_elem_of_fmap in Hin as (g & -> & Hin). unfold device_balanced, holders. cbn [cap_node cap_gpu].
    rewrite reserved_absent by done. rewrite Forall_forall in Hg. by rewrite Hg.
Qed.

Lemma AllocInv_allocate fk id node cpu ram gpu now db :
  0 <= cpu -> 0 <= ram -> AllocInv db ->
  AllocInv (commit db (AllocateResources fk id node cpu ram gpu now db)).
Proof.
  intros Hcpu Hram HI. unfold AllocateResources.
  destruct (db_nodes db !! node) as [n|] eqn:En; [|done].
  destruct (Z.ltb_spec (n_AvailRAMMiB n) ram) as [|Er]; [done|].
  destruct ((0 <? cpu) && (n_AvailCPUThreads n <? cpu)) eqn:Ec; [done|].
  destruct (match gpu with Some idx => _ | None => _ end) eqn:Eg; [done|].
  destruct (existsb _ (db_allocs db)) eqn:Eu; [done|].
  destruct (fk && _); [done|]. cbv zeta. cbn [commit].
  set (a := mkAlloc _ id node cpu ram gpu now None).
  pose proof (ai_node db HI _ _ En) as Hn. unfold node_balanced in Hn.
  assert (cpu <= n_AvailCPUThreads n) as Hc.
  { apply andb_false_iff in Ec as [Ec|Ec]; [apply Z.ltb_ge in Ec|apply Z.ltb_ge in Ec]; lia. }
  set (n' := n {{ n_AvailRAMMiB ::= _ }} {{ n_AvailCPUThreads ::= _ }} {{ n_UpdatedAt := now }}).
  assert (forall k, is_Some (db_nodes db !! k) -> is_Some ((<[node := n']> (db_nodes db)) !! k)) as Hsome.
  { intros k Hk. rewrite lookup_insert_is_Some'. by right. }
  assert (forall k idx, holders k idx (db_allocs db ++ [a]) = holders k idx (db_allocs db) +
            (if bool_decide (node = k /\ gpu = Some idx) then 1 else 0)) as Hh.
  { intros k idx. unfold holders. rewrite reserved_app, reserved_one. f_equal.
    unfold holds, is_active, a. cbn. destruct (String.eqb_spec node k); repeat case_bool_decide; naive_solver. }
  assert (forall db', db_allocs db' = db_allocs db ++ [a] -> db_nodes db' = <[node := n']> (db_nodes db) ->
            (forall c, c ∈ db_caps db' -> is_Some ((<[node := n']> (db_nodes db)) !! cap_node c)) ->
            (forall c, c ∈ db_caps db' -> device_balanced (db_allocs db ++ [a]) c) -> AllocInv db') as Hmk.
  { intros db' El Em Hcap Hd. constructor; rewrite ?El, ?Em; try done.
    - unfold len. rewrite fmap_app, (ai_ids db HI), length_app. cbn [length fmap list_fmap].
      rewrite Nat2Z.inj_add, seqZ_snoc by lia. done.
    - rewrite fmap_app, NoDup_app. split; [apply (ai_inst db HI)|]. split; [|apply NoDup_singleton].
      intros x Hx Hxa. apply list_elem_of_singleton in Hxa as ->. apply list_elem_of_fmap in Hx as (b & Eb & Hb).
      cbn in Eb. rewrite <- not_true_iff_false, existsb_exists in Eu. apply Eu. exists b.
      split; [by apply list_elem_of_In|]. by apply String.eqb_eq.
    - intros b [Hb|Hb]%elem_of_app.
      + destruct (ai_alloc db HI b Hb). auto.
      + apply list_elem_of_singleton in Hb as ->. cbn. split; [by rewrite lookup_insert_eq|lia].
    - intros k x Hk. unfold node_balanced. rewrite !reserved_app, !reserved_one.
      unfold holds, is_active, a. cbn [al_ReleasedAt al_NodeID al_RAMMiB al_CPUThreads].
      rewrite bool_decide_eq_true_2 by done. cbn [andb].
      apply lookup_insert_Some in Hk as [[<- <-]|[Hne Hk]].
      + rewrite String.eqb_refl. unfold n'. destruct n; cbn in *. lia.
      + rewrite (proj2 (String.eqb_neq _ _)) by done. pose proof (ai_node db HI _ _ Hk) as Hb.
        unfold node_balanced in Hb. lia. }
  destruct gpu as [idx|]; apply Hmk; try done.
  - intros c' (c & Hin & -> & _)%set_gpu_elem. by apply Hsome, (ai_cap db HI).
  - intros c' (c & Hin & E1 & E2 & E3)%set_gpu_elem. unfold device_balanced. rewrite E1, E2, E3, Hh.
    pose proof (ai_dev db HI c Hin) as Hb. unfold device_balanced in Hb.
    repeat case_bool_decide; try naive_solver lia.
    destruct_and!. subst. by rewrite (gpu_free _ _ db c).
  - intros c Hin. by apply Hsome, (ai_cap db HI).
  - intros c Hin. unfold device_balanced. rewrite Hh, bool_decide_eq_false_2 by naive_solver.
    rewrite Z.add_0_r. by apply (ai_dev db HI).
Qed.

Lemma AllocInv_exec fk hashKey op now dbr db :
  accounted op -> AllocInv db -> AllocInv (exec fk hashKey op now dbr db).
Proof.
  intros Hop HI. destruct (resource_op op) eqn:E.
  2: { destruct (resource_frame fk hashKey now dbr op db E) as (E1 & E2 & E3).
       destruct HI; constructor; by rewrite ?E1, ?E2, ?E3. }
  destruct op; try discriminate; try done; cbn [exec].
  - by apply AllocInv_create.
  - unfold UpdateNodeState. destruct (GetNode id dbr); [|done]. destruct (ValidateNodeTransition _ _); [|done].
    destruct (db_nodes db !! id) as [row|] eqn:En; [|done]. destruct (decide _); [|done]. cbn [commit].
    apply (AllocInv_node_row _ _ row); [done..|]. intros l. destruct row. done.
  - destruct Hop. by apply AllocInv_allocate.
  - by apply AllocInv_release.
Qed.

Lemma AllocInv_empty : AllocInv empty_vsdb.
Proof.
  constructor; cbn [db_allocs db_nodes db_caps empty_vsdb]; try (intros ? H; by apply not_elem_of_nil in H).
  - done.
  - constructor.
  - intros id n H. by rewrite lookup_empty in H.
Qed.

Lemma AllocInv_history fk hashKey h db :
  history fk hashKey accounted empty_vsdb (db :: h) -> AllocInv db.
Proof.
  remember (db :: h) as dbs eqn:E. intros H. revert db h E.
  induction H as [|op now dbr db h H IH Hop Hr]; intros db' h' [= <- <-].
  - apply AllocInv_empty.
  - apply AllocInv_exec; [done|]. by eapply IH.
Qed.

(** [C15] Reservations are conserved.  After any history of store operations
    from an empty database, in which nodes are registered free, requests are
    not negative and no heartbeat or manual flag overwrites the accounts: the
    free memory and threads of every node are never negative and with its
    active allocations add up to its capacity; the flag of every device says
    whether it is held, by one allocation at most; and an instance has at
    most one allocation. *)
Theorem allocation_conservation fk hashKey h db :
  history fk hashKey accounted empty_vsdb (db :: h) ->
  (forall id n, db_nodes db !! id = Some n -> node_balanced (db_allocs db) id n) /\
  (forall c, c ∈ db_caps db -> device_balanced (db_allocs db) c) /\
  NoDup (al_InstanceID <$> db_allocs db).
Proof.
  intros H%AllocInv_history. destruct H. auto.
Qed.

(** ** Versions of a service *)

Definition versions_of (id : Z) (db : VSDB) : list VersionRow :=
  filter (fun v => ver_service v = id) (db_versions db).

(** The versions of a declared service are numbered from 1 on without a gap, and
    the last one is the manifest in force; a service that is not declared has none. *)
Definition versions_ok (id : Z) (db : VSDB) : Prop :=
  match db_services db !! id with
  | Some r => ver_version <$> versions_of id db = seqZ 1 (len (versions_of id db)) /\
              last (ver_manifest <$> versions_of id db) = Some (sr_manifest r)
  | None => versions_of id db = []
  end.

Record ServiceInv (db : VSDB) : Prop := {
  si_next : forall id, db_nextService db <= id -> db_services db !! id = None;
  si_versions : forall id, versions_ok id db
}.

Lemma max_seqZ n : 0 <= n -> foldr Z.max 0 (seqZ 1 n) = n.
Proof.
  intros Hn. assert (forall k m, 0 <= m -> 1 <= k -> foldr Z.max 0 (seqZ k m) = if m =? 0 then 0 else k + m - 1) as H.
  { intros k m Hm. revert k. pattern m. apply natlike_ind; [by intros|clear m Hm; intros m Hm IH k Hk|done].
    rewrite seqZ_cons, Z.pred_succ by lia. simpl. rewrite IH by lia.
    destruct (Z.eqb_spec m 0), (Z.eqb_spec (Z.succ m) 0); lia. }
  rewrite H by lia. destruct (Z.eqb_spec n 0); lia.
Qed.

Lemma versions_of_app id v (l : list VersionRow) :
  filter (fun v => ver_service v = id) (l ++ [v]) =
  filter (fun v => ver_service v = id) l ++ (if decide (ver_service v = id) then [v] else []).
Proof. by rewrite filter_app. Qed.

Lemma ServiceInv_create m now db : ServiceInv db -> ServiceInv (commit2 db (CreateService m now db)).
Proof.
  intros [Hnext Hv]. unfold CreateService. destruct (existsb _ _); [done|]. cbv zeta. cbn [commit2].
  set (id := db_nextService db).
  match goal with |- ServiceInv (_ {{ db_services ::= <[_ := ?r]> }} {{ _ := _ }} {{ _ ::= _ }}) => set (row := r) end.
  assert (db_services db !! id = None) as Hid by (apply Hnext; unfold id; lia).
  pose proof (Hv id) as Hvid. unfold versions_ok in Hvid. rewrite Hid in Hvid.
  assert (forall db', db_services db' = <[id := row]> (db_services db) -> db_nextService db' = id + 1 ->
            db_versions db' = db_versions db ++ [mkVersion id 1 m now] -> ServiceInv db') as Hmk.
  2: { by apply Hmk. }
  intros db' Es En Ev. constructor.
  - intros k Hk. rewrite En in Hk. rewrite Es, lookup_insert_ne by lia. apply Hnext. unfold id in *. lia.
  - intros k. unfold versions_ok, versions_of. rewrite Es, Ev, versions_of_app by done. cbn [ver_service].
    destruct (decide (id = k)) as [<-|Hne].
    + rewrite lookup_insert_eq. unfold versions_of in Hvid. rewrite Hvid. done.
    + rewrite lookup_insert_ne, app_nil_r by done. apply Hv.
Qed.

Lemma ServiceInv_update id m now db : ServiceInv db -> ServiceInv (commit db (UpdateService true id m now db)).
Proof.
  intros [Hnext Hv]. unfold UpdateService. cbv zeta. cbn [andb].
  destruct (bool_decide_reflect (db_services db !! id = None)) as [|Hid]; [done|]. cbn [commit].
  destruct (db_services db !! id) as [r|] eqn:Er; [clear Hid|done].
  pose proof (Hv id) as Hvid. unfold versions_ok in Hvid. rewrite Er in Hvid. destruct Hvid as [Hver Hlast].
  match goal with |- ServiceInv (_ {{ db_services ::= alter ?g _ }} {{ _ ::= _ }}) => set (f := g) end.
  assert (max_version id db = len (versions_of id db)) as Hmax.
  { unfold max_version. fold (versions_of id db). rewrite Hver. apply max_seqZ. unfold len. lia. }
  assert (forall db', db_services db' = alter f id (db_services db) -> db_nextService db' = db_nextService db ->
            db_versions db' = db_versions db ++ [mkVersion id (max_version id db + 1) m now] -> ServiceInv db') as Hmk.
  2: { by apply Hmk. }
  intros db' Es En Ev. constructor.
  - intros k Hk. rewrite En in Hk. rewrite Es. destruct (decide (id = k)) as [<-|Hne].
    + by rewrite Hnext in Er.
    + rewrite lookup_alter_ne by done. by apply Hnext.
  - intros k. unfold versions_ok, versions_of. rewrite Es, Ev, versions_of_app by done. cbn [ver_service].
    destruct (decide (id = k)) as [<-|Hne].
    + rewrite lookup_alter_eq, Er. cbn [fmap option_fmap option_map]. fold (versions_of id db).
      rewrite !fmap_app, Hver, Hmax. unfold len. rewrite length_app, Nat2Z.inj_add.
      cbn [length]. rewrite seqZ_snoc by lia. split; [done|]. rewrite list_fmap_singleton, last_snoc. by destruct r.
    + rewrite lookup_alter_ne, app_nil_r by done. apply Hv.
Qed.

Lemma ServiceInv_delete id db : ServiceInv db -> ServiceInv (commit db (DeleteService true id db)).
Proof.
  intros [Hnext Hv]. unfold DeleteService. cbv zeta. destruct (filter _ _); [|done].
  destruct (true && _); [done|]. cbn [commit].
  assert (forall db', db_services db' = delete id (db_services db) -> db_nextService db' = db_nextService db ->
            db_versions db' = filter (fun v => ver_service v <> id) (db_versions db) -> ServiceInv db') as Hmk.
  2: { by apply Hmk. }
  intros db' Es En Ev. constructor.
  - intros k Hk. rewrite En in Hk. rewrite Es. apply lookup_delete_None. right. by apply Hnext.
  - intros k. unfold versions_ok, versions_of. rewrite Es, Ev, list_filter_filter.
    destruct (decide (id = k)) as [<-|Hne].
    + rewrite lookup_delete_eq. apply filter_none. intros v _. naive_solver.
    + rewrite lookup_delete_ne by done.
      rewrite (list_filter_iff _ (fun v => ver_service v = k)) by naive_solver. apply Hv.
Qed.

Lemma ServiceInv_exec hashKey op now dbr db :
  ServiceInv db -> ServiceInv (exec true hashKey op now dbr db).
Proof.
  intros HI. destruct (service_op op) eqn:E.
  - destruct op; try discriminate; cbn [exec];
      [by apply ServiceInv_create|by apply ServiceInv_update|by apply ServiceInv_delete].
  - destruct (service_frame true hashKey now dbr op db E) as (E1 & E2 & E3). destruct HI as [Hn Hv].
    constructor; [intros id Hid; rewrite E3 in Hid; rewrite E1; by apply Hn|].
    intros id. specialize (Hv id). unfold versions_ok, versions_of in *. by rewrite E1, E2.
Qed.

(** Versions.  With foreign keys enforced, after any history of store
    operations from an empty database the recorded versions of every declared
    service are numbered 1, 2, ... without a gap and the last one is the
    manifest in force, and a service that is not declared has no versions. *)
Theorem service_versions hashKey h db id :
  history true hashKey (fun _ => True) empty_vsdb (db :: h) -> versions_ok id db.
Proof.
  intros H. cut (ServiceInv db); [by intros []|]. remember (db :: h) as dbs eqn:E. revert db h E.
  induction H as [|op now dbr db h H IH _ Hr]; intros db' h' [= <- <-].
  - by constructor.
  - apply ServiceInv_exec. by eapply IH.
Qed.

(** ** The joined listing of nodes *)

Definition with_devices (db : VSDB) (n : Node) : Node := n {{ n_GPUDevices := loadGPUDevices (n_ID n) db }}.

(** The rows of the join for one node. *)
Definition join_rows (db : VSDB) (n : Node) : list (Node * option GPUDevice) :=
  match loadGPUDevices (n_ID n) db with
  | [] => [(n, None)]
  | gpus => map (fun g => (n, Some g)) gpus
  end.

Lemma scan_more_devices n gpus (e : Node) order (nm : gmap string Node) :
  nm !! n_ID n = Some e ->
  foldl scan_join_row (order, nm) (map (fun g => (n, Some g)) gpus) =
  (order, <[n_ID n := e {{ n_GPUDevices ::= fun l => l ++ gpus }}]> nm).
Proof.
  revert e nm. induction gpus as [|g gpus IH]; intros e nm He.
  - cbn. f_equal. rewrite app_nil_r. destruct e. by rewrite insert_id.
  - cbn [map foldl scan_join_row]. rewrite He.
    rewrite (IH (e {{ n_GPUDevices ::= fun l => l ++ [g] }})) by (rewrite lookup_alter_eq, He; done).
    f_equal. apply map_eq. intros k. destruct (decide (n_ID n = k)) as [<-|Hne].
    + rewrite !lookup_insert_eq. destruct e. cbn. by rewrite <- app_assoc.
    + rewrite !lookup_insert_ne by done. by rewrite lookup_alter_ne.
Qed.

Lemma scan_node db n order (nm : gmap string Node) :
  nm !! n_ID n = None -> n_GPUDevices n = [] ->
  foldl scan_join_row (order, nm) (join_rows db n) = (order ++ [n_ID n], <[n_ID n := with_devices db n]> nm).
Proof.
  intros Hn Hg. unfold join_rows, with_devices. destruct (loadGPUDevices (n_ID n) db) as [|g gpus].
  - cbn. rewrite Hn. destruct n; cbn in *. by subst.
  - cbn [map foldl scan_join_row]. rewrite Hn.
    rewrite (scan_more_devices n gpus (n {{ n_GPUDevices := [g] }})).
    + f_equal. apply map_eq. intros k. destruct (decide (n_ID n = k)) as [<-|Hne].
      * rewrite !lookup_insert_eq. by destruct n.
      * rewrite !lookup_insert_ne, lookup_alter_ne, lookup_insert_ne by done. done.
    + rewrite lookup_alter_eq, lookup_insert_eq. destruct n; cbn in *. by subst.
Qed.

Lemma scan_nodes db (ns : list Node) :
  NoDup (n_ID <$> ns) -> Forall (fun n => n_GPUDevices n = []) ns ->
  exists nm, foldl scan_join_row ([], ∅) (flat_map (join_rows db) ns) = (n_ID <$> ns, nm) /\
    (forall k, k ∉ n_ID <$> ns -> nm !! k = None) /\
    omap (fun id => nm !! id) (n_ID <$> ns) = with_devices db <$> ns.
Proof.
  induction ns as [|n ns IH] using rev_ind; intros Hnd Hg; [by exists ∅|].
  rewrite fmap_app in Hnd. apply NoDup_app in Hnd as (Hnd & Hnew & _). apply Forall_app in Hg as [Hg Hgn].
  destruct (IH Hnd Hg) as (nm & E & Hnone & Homap).
  assert (n_ID n ∉ n_ID <$> ns) as Hn by (intros Hin; apply (Hnew _ Hin); apply elem_of_cons; by left).
  exists (<[n_ID n := with_devices db n]> nm).
  rewrite flat_map_app, foldl_app, E. cbn [flat_map]. rewrite app_nil_r, scan_node; [|by apply Hnone|by inversion Hgn].
  rewrite !fmap_app. split; [done|]. split.
  - intros k Hk. rewrite elem_of_app in Hk. rewrite lookup_insert_ne; [apply Hnone; tauto|].
    intros <-. apply Hk. right. apply elem_of_cons. by left.
  - rewrite omap_app. f_equal; [|cbn; by rewrite lookup_insert_eq].
    rewrite <- Homap. clear -Hn. induction (n_ID <$> ns) as [|k ks IH]; [done|].
    apply not_elem_of_cons in Hn as [Hne Hn]. cbn [omap list_omap]. rewrite lookup_insert_ne by done. by rewrite IH.
Qed.

(** A row of the table carries its key and no devices. *)
Definition node_rows (db : VSDB) : Prop :=
  forall id n, db_nodes db !! id = Some n -> n_ID n = id /\ n_GPUDevices n = [].

Lemma ReleaseAllocation_nodes id now db :
  db_nodes (ReleaseAllocation id now db) =
  match active_alloc id db with
  | None => db_nodes db
  | Some a => alter (fun n => n {{ n_AvailRAMMiB ::= fun x => x + al_RAMMiB a }}
                {{ n_AvailCPUThreads ::= fun x => x + al_CPUThreads a }} {{ n_UpdatedAt := now }})
                (al_NodeID a) (db_nodes db)
  end.
Proof. unfold ReleaseAllocation. destruct (active_alloc id db) as [a|]; [|done]. by destruct (al_GPUDeviceIndex a). Qed.

Lemma node_rows_exec fk hashKey op now dbr db : node_rows db -> node_rows (exec fk hashKey op now dbr db).
Proof.
  intros Hrows. destruct (resource_op op) eqn:E.
  2: { destruct (resource_frame fk hashKey now dbr op db E) as (E1 & _). unfold node_rows. by rewrite E1. }
  assert ((exists id, op = OReleaseAllocation id) \/ ~ exists id, op = OReleaseAllocation id) as [[id ->]|Hne]
    by (destruct op; naive_solver).
  - intros k n Hk. cbn [exec] in Hk. rewrite ReleaseAllocation_nodes in Hk.
    destruct (active_alloc id db) as [a|]; [|by apply Hrows].
    apply lookup_alter_Some in Hk as [(<- & x & Hx & ->)|[_ Hk]]; [|by apply Hrows].
    destruct (Hrows _ _ Hx). by destruct x.
  - unfold node_rows in Hrows. destruct db as [nodes]. cbn [db_nodes] in Hrows.
    destruct op; try discriminate; try (destruct Hne; by eexists); exec_cases; try done;
      intros k' n' Hk'; cbn [db_nodes] in *;
      first [by apply Hrows | apply lookup_insert_Some in Hk' as [[<- <-]|[_ Hk']]; [|by apply Hrows]];
      try done.
    all: match goal with
         | H : _ !! _ = Some ?r |- context [?r] => destruct (Hrows _ _ H); by destruct r
         end.
Qed.

Definition nodes_by_name (stateFilter : option NodeState) (db : VSDB) : list Node :=
  slice_stable (fun a b => string_lt (n_Name a) (n_Name b))
    (filter (fun n => match stateFilter with None => true | Some s => bool_decide (n_State n = s) end = true)
       (snd <$> map_to_list (db_nodes db))).

Lemma nodes_by_name_elem f db n :
  node_rows db ->
  n ∈ nodes_by_name f db <->
  db_nodes db !! n_ID n = Some n /\ (forall s, f = Some s -> n_State n = s).
Proof.
  intros Hrows. unfold nodes_by_name. rewrite slice_stable_elem, list_elem_of_filter, list_elem_of_fmap.
  split.
  - intros [Hf ([k n'] & -> & Hin%elem_of_map_to_list)]. cbn [snd] in *. destruct (Hrows _ _ Hin) as [-> _].
    split; [done|]. intros s ->. by apply bool_decide_eq_true in Hf.
  - intros [Hn Hf]. split.
    + destruct f as [s|]; [|done]. apply bool_decide_eq_true. by apply Hf.
    + exists (n_ID n, n). split; [done|]. by apply elem_of_map_to_list.
Qed.

Lemma nodes_by_name_NoDup f db : node_rows db -> NoDup (n_ID <$> nodes_by_name f db).
Proof.
  intros Hrows. unfold nodes_by_name. rewrite slice_stable_perm.
  eapply sublist_NoDup; [|apply fmap_sublist, sublist_filter].
  rewrite <- list_fmap_compose.
  rewrite (list_fmap_ext _ fst); [apply NoDup_fst_map_to_list|].
  intros i [k n] Hin%list_elem_of_lookup_2%elem_of_map_to_list. by destruct (Hrows _ _ Hin).
Qed.

Lemma ListNodes_eq f db : node_rows db -> ListNodes f db = with_devices db <$> nodes_by_name f db.
Proof.
  intros Hrows. unfold ListNodes.
  change (nodes_join f db) with (flat_map (join_rows db) (nodes_by_name f db)).
  destruct (scan_nodes db (nodes_by_name f db)) as (nm & -> & _ & Homap); [by apply nodes_by_name_NoDup| |done].
  apply Forall_forall. intros n Hn. apply nodes_by_name_elem in Hn as [Hn _]; [|done]. by apply Hrows in Hn as [_ ?].
Qed.

(** The joined listing.  After any history of store operations from an empty
    database, [ListNodes], which scans one left join of nodes and devices,
    returns every node of the wanted state exactly once, each exactly as
    [GetNode] returns it with a query of its own. *)
Theorem listnodes_join fk hashKey h db f :
  history fk hashKey (fun _ => True) empty_vsdb (db :: h) ->
  NoDup (n_ID <$> ListNodes f db) /\
  forall n, n ∈ ListNodes f db <->
    GetNode (n_ID n) db = Ok n /\ (forall s, f = Some s -> n_State n = s).
Proof.
  intros H. assert (node_rows db) as Hrows.
  { remember (db :: h) as dbs eqn:E. revert db h E.
    induction H as [|op now dbr db h H IH _ Hr]; intros db' h' [= <- <-].
    - intros id n Hn. cbn [db_nodes empty_vsdb] in Hn. by rewrite lookup_empty in Hn.
    - apply node_rows_exec. by eapply IH. }
  rewrite ListNodes_eq by done. split.
  - rewrite <- list_fmap_compose, (list_fmap_ext _ n_ID); [by apply nodes_by_name_NoDup|]. by intros i [].
  - intros n. rewrite list_elem_of_fmap. unfold GetNode. split.
    + intros (n0 & -> & Hn0). apply nodes_by_name_elem in Hn0 as [Hn0 Hf]; [|done].
      change (n_ID (with_devices db n0)) with (n_ID n0). rewrite Hn0. split; [done|]. by destruct n0.
    + destruct (db_nodes db !! n_ID n) as [row|] eqn:Er; [|by intros [? _]]. intros [[= En] Hf].
      destruct (Hrows _ _ Er) as [Eid _]. exists row. unfold with_devices. rewrite Eid. split; [done|].
      apply nodes_by_name_elem; [done|]. rewrite Eid. split; [done|].
      intros s Hs. rewrite <- (Hf s Hs), <- En. done.
Qed.

(** ** What rows outlive *)

Lemma AllocateResources_Ok fk id node cpu ram gpu now db db' :
  AllocateResources fk id node cpu ram gpu now db = Ok db' ->
  db_allocs db' = db_allocs db ++ [mkAlloc (next_id (db_allocs db)) id node cpu ram gpu now None] /\
  db_instances db' = db_instances db.
Proof.
  unfold AllocateResources. destruct (db_nodes db !! node); [|done]. destruct (_ <? _); [done|].
  destruct (_ && _); [done|]. destruct (match gpu with Some _ => _ | None => _ end); [done|].
  destruct (existsb _ _); [done|]. destruct (_ && _); [done|]. cbv zeta. intros [= <-]. by destruct gpu.
Qed.

Lemma alloc_ids_grow fk hashKey op now dbr db :
  exists new, al_InstanceID <$> db_allocs (exec fk hashKey op now dbr db) =
              (al_InstanceID <$> db_allocs db) ++ new.
Proof.
  destruct (resource_op op) eqn:E.
  2: { destruct (resource_frame fk hashKey now dbr op db E) as (_ & _ & ->). exists []. by rewrite app_nil_r. }
  destruct op; try discriminate; try (exists []; rewrite app_nil_r; exec_cases; done).
  - cbn [exec]. destruct (AllocateResources _ _ _ _ _ _ _ _) as [db'|] eqn:Ea; cbn [commit];
      [|exists []; by rewrite app_nil_r].
    exists [id]. apply AllocateResources_Ok in Ea as [-> _]. by rewrite fmap_app.
  - exists []. rewrite app_nil_r. cbn [exec]. unfold ReleaseAllocation.
    destruct (active_alloc id db) as [a|]; [|done]. cbv zeta.
    transitivity (al_InstanceID <$> release a now (db_allocs db)); [by destruct (al_GPUDeviceIndex a)|].
    by apply release_fields.
Qed.

(** A property of single databases that no operation destroys holds of every
    database after one that has it. *)
Lemma history_stable (Q : VSDB -> Prop) fk hashKey allowed db0 h db old :
  (forall op now dbr d, Q d -> Q (exec fk hashKey op now dbr d)) ->
  history fk hashKey allowed db0 (db :: h) -> old ∈ db :: h -> Q old -> Q db.
Proof.
  intros HQ H. remember (db :: h) as dbs eqn:E. revert db h E.
  induction H as [|op now dbr db h H IH _ Hr]; intros db' h' [= <- <-] Hold Hq.
  - by apply list_elem_of_singleton in Hold as ->.
  - apply elem_of_cons in Hold as [->|Hold]; [done|]. apply HQ. by eapply IH.
Qed.

(** No second allocation.  Once an instance has been allocated resources,
    every later request for it fails, also after the first allocation was
    released: the row stays and the instance column is unique. *)
Theorem reallocation_refused fk hashKey allowed db0 h db old a node cpu ram gpu now :
  history fk hashKey allowed db0 (db :: h) -> old ∈ db :: h -> a ∈ db_allocs old ->
  is_err (AllocateResources fk (al_InstanceID a) node cpu ram gpu now db) = true.
Proof.
  intros H Hold Ha.
  assert (al_InstanceID a ∈ al_InstanceID <$> db_allocs db) as Hin.
  { refine (history_stable (fun d => al_InstanceID a ∈ al_InstanceID <$> db_allocs d) _ _ _ _ _ _ _ _ H Hold _).
    - intros op t dbr d Hd. destruct (alloc_ids_grow fk hashKey op t dbr d) as [new ->]. apply elem_of_app. by left.
    - by apply list_elem_of_fmap_2. }
  unfold AllocateResources. destruct (db_nodes db !! node); [|done]. destruct (_ <? _); [done|].
  destruct (_ && _); [done|]. destruct (match gpu with Some _ => _ | None => _ end); [done|].
  destruct (existsb _ _) eqn:E; [done|]. rewrite <- not_true_iff_false, existsb_exists in E. destruct E.
  apply list_elem_of_fmap in Hin as (b & Eb & Hb). exists b. split; [by apply list_elem_of_In|].
  rewrite Eb. apply String.eqb_refl.
Qed.

Lemma instance_rows_stay fk hashKey op now dbr d id row :
  db_instances d !! id = Some row ->
  exists row', db_instances (exec fk hashKey op now dbr d) !! id = Some row' /\ ir_service row' = ir_service row.
Proof.
  intros Hrow. destruct (instance_step_exec fk hashKey op now dbr d id row Hrow) as (row' & ? & ? & _). eauto.
Qed.

(** A service outlives its instances.  With foreign keys enforced, a service
    that has had an instance can never be deleted again, also when all its
    instances have terminated. *)
Theorem service_undeletable hashKey allowed db0 h db old inst row :
  history true hashKey allowed db0 (db :: h) -> old ∈ db :: h -> db_instances old !! inst = Some row ->
  is_err (DeleteService true (ir_service row) db) = true.
Proof.
  intros H Hold Hrow.
  assert (exists row', db_instances db !! inst = Some row' /\ ir_service row' = ir_service row) as (row' & Hr & Es).
  { refine (history_stable (fun d => exists row', db_instances d !! inst = Some row' /\ ir_service row' = ir_service row)
              _ _ _ _ _ _ _ _ H Hold _); [|by exists row].
    intros op t dbr d (r & Hd & <-). by apply instance_rows_stay. }
  unfold DeleteService. cbv zeta. destruct (filter _ _); [|done].
  match goal with |- is_err (if true && ?b then _ else _) = true => destruct b eqn:E; [done|] end.
  rewrite <- not_true_iff_false, existsb_exists in E. destruct E. exists row'. split.
  - apply list_elem_of_In, list_elem_of_fmap. exists (inst, row'). split; [done|]. by apply elem_of_map_to_list.
  - rewrite Es. apply Z.eqb_refl.
Qed.

(** Heartbeats.  A heartbeat of a node read and written in one state makes a
    discovered node ready and leaves every other state, the protected ones too,
    as it is; but the state written is the one derived from the state read,
    whatever happened to the node since. *)
Theorem heartbeat_states id ram cpu now dbr db n row :
  db_nodes dbr !! id = Some n -> db_nodes db !! id = Some row ->
  exists db' row', Heartbeat id ram cpu now dbr db = Ok db' /\ db_nodes db' !! id = Some row' /\
    n_LastHeartbeat row' = Some now /\ n_AvailRAMMiB row' = ram /\ n_AvailCPUThreads row' = cpu /\
    n_State row' = (if decide (n_State n = NodeDiscovered) then NodeReady else n_State n) /\
    (n_State row' <> n_State row ->
       n_State row' = NodeReady \/ n_State n <> n_State row).
Proof.
  intros Hn Hrow. unfold Heartbeat, GetNode. rewrite Hn, Hrow. eexists _, _. split; [done|].
  split; [apply lookup_insert_eq|]. destruct row, n; cbn in *. repeat (split; [done|]).
  split; [by destruct n_State0|]. destruct n_State0; cbn; intros; auto; right; congruence.
Qed.

(** ** A concrete history *)

(** Operations one after the other, each reading the current database. *)
Fixpoint run (fk : bool) (hashKey : string -> string) (ops : list (StoreOp * Z)) (dbs : list VSDB) (db : VSDB) : list VSDB :=
  match ops with
  | [] => db :: dbs
  | (op, now) :: ops => run fk hashKey ops (db :: dbs) (exec fk hashKey op now db db)
  end.

Lemma run_history fk hashKey allowed db0 ops dbs db :
  history fk hashKey allowed db0 (db :: dbs) -> Forall (fun on => allowed on.1) ops ->
  history fk hashKey allowed db0 (run fk hashKey ops dbs db).
Proof.
  revert dbs db. induction ops as [|[op now] ops IH]; intros dbs db H Hall; [done|].
  apply Forall_cons in Hall as [Hop Hall]. cbn [run]. apply IH; [|done].
  apply history_step; [done..|]. apply elem_of_cons. by left.
Qed.

Module DemoStore.
Definition gpu (i : Z) : GPUDevice := mkGPU i "nvidia" "v100" 16384 false.
Definition node : Node :=
  mkNode "n1" "alpha" "local" "amd64" "linux" "" 8 0 4096 4096 0 0 [gpu 0; gpu 1] ∅ "" "" NodeDiscovered None ∅ 0 0 0.
Definition manifest : ServiceManifest :=
  mkManifest "virtualserver/v1" "Service" "ns" "web"
    (mkSpec (ArtifactURL "u") "docker" 1 (mkResReq 2 1024 (mkGPUReq true 1 0))
       (mkPlacement ∅ [] [] "amd64" "") (mkRestart "" 0) false ∅ []).
Definition setup : list (StoreOp * Z) :=
  [(OCreateService manifest, 1); (OCreateNode node "u", 2);
   (OCreateInstance "i1" 1 (mkPath "ns" "web" "0"), 3); (OAllocateResources "i1" "n1" 2 1024 (Some 0), 4)].
Definition dbs : list VSDB := run true (fun k => k) setup [] empty_vsdb.
Definition db : VSDB := default empty_vsdb (head dbs).
Definition released : list VSDB := run true (fun k => k) (setup ++ [(OReleaseAllocation "i1", 5)]) [] empty_vsdb.
End DemoStore.

Lemma demo_history allowed ops :
  Forall (fun on => allowed on.1) ops ->
  history true (fun k => k) allowed empty_vsdb (run true (fun k => k) ops [] empty_vsdb).
Proof. intros H. apply run_history; [apply history_init|done]. Qed.

Lemma allocation_conservation_witness :
  (n_AvailRAMMiB <$> db_nodes DemoStore.db !! "n1") = Some 3072 /\
  (forall c, c ∈ db_caps DemoStore.db -> device_balanced (db_allocs DemoStore.db) c).
Proof.
  split; [vm_compute; reflexivity|].
  apply (allocation_conservation true (fun k => k) (tail DemoStore.dbs) DemoStore.db).
  change (DemoStore.db :: tail DemoStore.dbs) with (run true (fun k => k) DemoStore.setup [] empty_vsdb).
  apply demo_history. repeat constructor; cbn; lia.
Defined.

Lemma instance_transitions_legal_witness :
  exists row', db_instances (exec true (fun k => k) (OUpdateInstanceState "i1" InstanceFailed) 9 DemoStore.db DemoStore.db)
                 !! "i1" = Some row' /\ ir_service row' = 1.
Proof.
  destruct (instance_transitions_legal true (fun k => k) (OUpdateInstanceState "i1" InstanceFailed) 9
              DemoStore.db DemoStore.db "i1"
              (mkInstRow 1 1 None "vs://ns/web/0" InstanceDeclared 0 ∅ 3 3)) as (row' & H & Es & _).
  - vm_compute. reflexivity.
  - exists row'. split; [exact H|exact Es].
Defined.

Lemma service_versions_witness : versions_ok 1 DemoStore.db /\ len (versions_of 1 DemoStore.db) = 1.
Proof.
  split; [|vm_compute; reflexivity].
  apply (service_versions (fun k => k) (tail DemoStore.dbs) DemoStore.db).
  change (DemoStore.db :: tail DemoStore.dbs) with (run true (fun k => k) DemoStore.setup [] empty_vsdb).
  apply demo_history. repeat constructor.
Defined.

Lemma listnodes_join_witness :
  len (ListNodes None DemoStore.db) = 1 /\ NoDup (n_ID <$> ListNodes None DemoStore.db).
Proof.
  split; [vm_compute; reflexivity|].
  apply (listnodes_join true (fun k => k) (tail DemoStore.dbs) DemoStore.db None).
  change (DemoStore.db :: tail DemoStore.dbs) with (run true (fun k => k) DemoStore.setup [] empty_vsdb).
  apply demo_history. repeat constructor.
Defined.

Lemma reallocation_refused_witness :
  is_err (AllocateResources true "i1" "n1" 1 1 None 9 (default empty_vsdb (head DemoStore.released))) = true.
Proof.
  refine (reallocation_refused true (fun k => k) (fun _ => True) empty_vsdb (tail DemoStore.released)
            (default empty_vsdb (head DemoStore.released)) DemoStore.db
            (mkAlloc 1 "i1" "n1" 2 1024 (Some 0) 4 None) "n1" 1 1 None 9 _ _ _).
  - change (default empty_vsdb (head DemoStore.released) :: tail DemoStore.released)
      with (run true (fun k => k) (DemoStore.setup ++ [(OReleaseAllocation "i1", 5)]) [] empty_vsdb).
    apply demo_history. repeat constructor.
  - apply elem_of_cons. right. apply elem_of_cons. left. reflexivity.
  - apply list_elem_of_In. vm_compute. left. reflexivity.
Defined.

Lemma service_undeletable_witness : is_err (DeleteService true 1 DemoStore.db) = true.
Proof.
  refine (service_undeletable (fun k => k) (fun _ => True) empty_vsdb (tail DemoStore.dbs) DemoStore.db DemoStore.db "i1"
            (mkInstRow 1 1 None "vs://ns/web/0" InstanceDeclared 0 ∅ 3 3) _ _ _).
  - change (DemoStore.db :: tail DemoStore.dbs) with (run true (fun k => k) DemoStore.setup [] empty_vsdb).
    apply demo_history. repeat constructor.
  - apply elem_of_cons. left. reflexivity.
  - vm_compute. reflexivity.
Defined.

(** The node is quarantined between the read and the write of a heartbeat, and
    is ready again. *)
Lemma heartbeat_states_witness :
  let dbr := exec true (fun k => k) (OUpdateNodeState "n1" NodeReady) 5 DemoStore.db DemoStore.db in
  let db := exec true (fun k => k) (OUpdateNodeState "n1" NodeQuarantined) 6 dbr dbr in
  (n_State <$> db_nodes db !! "n1") = Some NodeQuarantined /\
  exists db' row', Heartbeat "n1" 4096 8 7 dbr db = Ok db' /\ db_nodes db' !! "n1" = Some row' /\
    n_State row' = NodeReady.
Proof.
  intros dbr db. split; [vm_compute; reflexivity|].
  destruct (db_nodes dbr !! "n1") as [n|] eqn:En; [|vm_compute in En; discriminate].
  destruct (db_nodes db !! "n1") as [row|] eqn:Er; [|vm_compute in Er; discriminate].
  destruct (heartbeat_states "n1" 4096 8 7 dbr db n row En Er) as (db' & row' & H1 & H2 & _ & _ & _ & H3 & _).
  exists db', row'. split; [exact H1|]. split; [exact H2|]. rewrite H3.
  vm_compute in En. injection En as <-. reflexivity.
Defined.
