(* ===== verification/VsReconciler.v ===== *)
(** * Virtual server: the reconciler (virtualserver/reconciler)

    One reconciliation pass over the store.  Adapters and storage drivers are
    behind interfaces: they are parameters whose answer may depend on
    everything called before, and every call is recorded.  [now] is the time of
    the pass in nanoseconds since 1970 (the pass reads one clock), [uuid]
    supplies the identifiers of new instances, metrics are left out, and the
    pass runs without interference of other writers. *)
From Stdlib Require Import String.
From S2P Require Import Prelude GoStr GoSort VsDomain VsScheduler VsStore VsStoreSpec.
Open Scope string_scope.
Open Scope list_scope.
Open Scope Z_scope.

Definition retryBaseDelay : Z := 2 * Second.
Definition degradedFailTimeout : Z := 5 * Minute.

(** ** The interfaces *)

Record ResolvedMount := mkResolved { rm_HostPath : string; rm_TargetPath : string; rm_ReadOnly : bool }.

Record ProvisionRequest := mkProvision {
  pr_InstanceID : string;
  pr_NodeID : string;
  pr_Manifest : ServiceManifest;
  pr_Allocation : Z * Z * option Z;
  pr_Mounts : list ResolvedMount
}.

Record RuntimeHandle := mkHandle { rh_AdapterName : string; rh_InstanceID : string; rh_Data : gmap string string }.

Record MountRequest := mkMountReq {
  mr_VolumeID : string;
  mr_NodeID : string;
  mr_Handle : gmap string string;
  mr_TargetPath : string;
  mr_ReadOnly : bool
}.

Record VolumeStat := mkStat { vst_CapacityMiB : Z; vst_UsedMiB : Z; vst_Available : bool }.

(** The calls made to adapters and drivers. *)
Inductive Call :=
| CProvision (adapter : string) (req : ProvisionRequest)
| CStart (h : RuntimeHandle) | CStop (h : RuntimeHandle) | CInspect (h : RuntimeHandle)
| CHealth (h : RuntimeHandle) | CDestroy (h : RuntimeHandle)
| CCreate (driver namespace name : string) | CDelete (driver : string) (handle : gmap string string)
| CMount (driver : string) (req : MountRequest) | CUnmount (driver hostPath : string)
| CStat (driver : string) (handle : gmap string string).

(** [None] and [false] stand for an error; the calls made so far come first. *)
Record BackendAdapter := mkAdapter {
  ad_Name : string;
  ad_Provision : list Call -> ProvisionRequest -> option (gmap string string);
  ad_Start : list Call -> RuntimeHandle -> bool;
  ad_Stop : list Call -> RuntimeHandle -> bool;
  ad_Inspect : list Call -> RuntimeHandle -> option bool;
  ad_Health : list Call -> RuntimeHandle -> option bool;
  ad_Destroy : list Call -> RuntimeHandle -> bool
}.

Record StorageDriver := mkDriver {
  drv_Name : string;
  drv_Create : list Call -> string -> string -> VolumeSpec -> option (gmap string string);
  drv_Delete : list Call -> gmap string string -> bool;
  drv_Mount : list Call -> MountRequest -> option string;
  drv_Unmount : list Call -> string -> bool;
  drv_Stat : list Call -> gmap string string -> option VolumeStat
}.

(** The state of a pass: the database, the calls made (newest first) and the
    number of identifiers drawn. *)
Record Pass := mkPass { p_db : VSDB; p_calls : list Call; p_drawn : nat }.

Section Reconciler.
Context (fk : bool) (adapters : gmap string BackendAdapter) (classDrivers : gmap string StorageDriver).
Context (lorder : gmap string string -> list (string * string)) (weights : Weights).
Context (catalog : option (string -> option ArtifactStatus)).
Context (nodeTTL : Z) (uuid : nat -> string) (now : Z).

(** [time.Now().Unix()] *)
Definition unix : Z := now / Second.

(** [time.Since] of a time kept in seconds. *)
Definition since (t : Z) : Z := now - t * Second.

Definition store (f : VSDB -> VSDB) (p : Pass) : Pass := p {{ p_db ::= f }}.
Definition called (c : Call) (p : Pass) : Pass := p {{ p_calls ::= cons c }}.
Definition audit (action resourceType resourceID : string) (ok : bool) (p : Pass) : Pass :=
  store (WriteAuditLog action resourceType resourceID ok unix) p.

(** A state change whose error is ignored. *)
Definition set_instance (id : string) (to : InstanceState) (p : Pass) : Pass :=
  store (fun db => commit db (UpdateInstanceState id to unix db db)) p.
Definition set_volume (id : string) (to : VolumeState) (p : Pass) : Pass :=
  store (fun db => commit db (UpdateVolumeState id to unix db)) p.
Definition set_mount (id : Z) (to : VolumeMountState) (p : Pass) : Pass := store (UpdateMountState id to unix) p.
Definition release_alloc (id : string) (p : Pass) : Pass := store (ReleaseAllocation id unix) p.

(** ** Scheduling *)

Definition localVolumePinnedNode (m : ServiceManifest) (db : VSDB) : string :=
  foldr (fun decl rest =>
           match GetVolumeByName (sm_Namespace m) (vm_VolumeName decl) db with
           | Err _ => rest
           | Ok vol =>
               match classDrivers !! vs_Class (vm_Spec (v_Manifest vol)) with
               | Some drv =>
                   if negb (String.eqb (drv_Name drv) "local") then rest
                   else if negb (String.eqb (v_BoundNodeID vol) "") then v_BoundNodeID vol else rest
               | None => rest
               end
           end) "" (ss_Mounts (sm_Spec m)).

Definition eligible_nodes (m : ServiceManifest) (nodes : list Node) (db : VSDB) : list Node :=
  let eligible := filter (fun n => n_State n = NodeReady) nodes in
  let pinned := localVolumePinnedNode m db in
  if String.eqb pinned "" then eligible
  else match filter (fun n => n_ID n = pinned) eligible with [] => [] | n :: _ => [n] end.

(** The first eligible device of the selected node, when one is required. *)
Definition choose_gpu (spec : ServiceSpec) (selected : string) (eligible : list Node) : option Z :=
  if gr_Required (rr_GPU (ss_Resources spec)) then
    match filter (fun n => n_ID n = selected) eligible with
    | [] => None
    | n :: _ => g_Index <$> head (EligibleGPUs n (gr_MinVRAMMiB (rr_GPU (ss_Resources spec))))
    end
  else None.

(** The boolean is true when the function returns an error. *)
Definition scheduleInstance (inst : ServiceInstance) (nodes : list Node) (p : Pass) : bool * Pass :=
  match GetService (i_ServiceID inst) (p_db p) with
  | Err _ => (true, p)
  | Ok svc =>
      let m := svc_Manifest svc in
      let eligible := eligible_nodes m nodes (p_db p) in
      match Schedule lorder weights catalog m eligible with
      | Err _ => (true, p)
      | Ok decision =>
          let selected := pd_SelectedNodeID decision in
          match AssignNode fk (i_ID inst) selected unix (p_db p) (p_db p) with
          | Err _ => (true, p)
          | Ok db =>
              let p := store (fun _ => db) p in
              let spec := sm_Spec m in
              match AllocateResources fk (i_ID inst) selected (rr_CPUThreads (ss_Resources spec))
                      (rr_RAMMiB (ss_Resources spec)) (choose_gpu spec selected eligible) unix (p_db p) with
              | Err _ => (true, set_instance (i_ID inst) InstanceDeclared p)
              | Ok db => (false, audit "scheduled" "instance" (i_ID inst) true (store (fun _ => db) p))
              end
          end
      end
  end.

(** ** Provisioning and starting *)

(** Mounts recorded before a failing one stay. *)
Fixpoint resolveMounts (decls : list ServiceVolumeMount) (namespace instanceID nodeID : string) (p : Pass)
    : option (list ResolvedMount) * Pass :=
  match decls with
  | [] => (Some [], p)
  | decl :: decls =>
      match GetVolumeByName namespace (vm_VolumeName decl) (p_db p) with
      | Err _ => (None, p)
      | Ok vol =>
          if bool_decide (v_State vol <> VolumeReady /\ v_State vol <> VolumeBound) then (None, p)
          else
            match classDrivers !! vs_Class (vm_Spec (v_Manifest vol)) with
            | None => (None, p)
            | Some drv =>
                let req := mkMountReq (v_ID vol) nodeID (v_DriverHandle vol) (vm_TargetPath decl) (vm_ReadOnly decl) in
                let mp := drv_Mount drv (p_calls p) req in
                let p := called (CMount (drv_Name drv) req) p in
                match mp with
                | None => (None, p)
                | Some hostPath =>
                    match BindMount fk (v_ID vol) instanceID (vm_TargetPath decl) (vm_ReadOnly decl) (p_db p) with
                    | Err _ => (None, p)
                    | Ok (mountID, db) =>
                        let p := set_mount mountID MountActive (store (fun _ => db) p) in
                        let p := audit "mount_active" "volume" (v_ID vol) true p in
                        let p := if String.eqb (v_BoundNodeID vol) "" && String.eqb (drv_Name drv) "local"
                                 then store (UpdateVolumeBoundNode (v_ID vol) nodeID unix) p else p in
                        let p := if decide (v_State vol = VolumeReady)
                                 then set_volume (v_ID vol) VolumeBound p else p in
                        let '(rest, p) := resolveMounts decls namespace instanceID nodeID p in
                        (cons (mkResolved hostPath (vm_TargetPath decl) (vm_ReadOnly decl)) <$> rest, p)
                    end
                end
            end
      end
  end.

Definition provisionInstance (inst : ServiceInstance) (p : Pass) : bool * Pass :=
  match GetService (i_ServiceID inst) (p_db p) with
  | Err _ => (true, p)
  | Ok svc =>
      let m := svc_Manifest svc in
      match adapters !! ss_Runtime (sm_Spec m) with
      | None => (true, p)
      | Some ad =>
          match UpdateInstanceState (i_ID inst) InstanceProvisioning unix (p_db p) (p_db p) with
          | Err _ => (true, p)
          | Ok db =>
              let p := store (fun _ => db) p in
              let alloc := match GetActiveAllocation (i_ID inst) (p_db p) with
                           | Ok a => (al_CPUThreads a, al_RAMMiB a, al_GPUDeviceIndex a)
                           | Err _ => (0, 0, None)
                           end in
              let '(mounts, p) := resolveMounts (ss_Mounts (sm_Spec m)) (sm_Namespace m) (i_ID inst) (i_NodeID inst) p in
              match mounts with
              | None => (true, set_instance (i_ID inst) InstanceFailed p)
              | Some mounts =>
                  let req := mkProvision (i_ID inst) (i_NodeID inst) m alloc mounts in
                  let handle := ad_Provision ad (p_calls p) req in
                  let p := called (CProvision (ad_Name ad) req) p in
                  match handle with
                  | None => (true, set_instance (i_ID inst) InstanceFailed p)
                  | Some data =>
                      (false, audit "provisioned" "instance" (i_ID inst) true
                                (store (UpdateRuntimeHandle (i_ID inst) data unix) p))
                  end
              end
          end
      end
  end.

Definition startInstance (inst : ServiceInstance) (p : Pass) : bool * Pass :=
  match GetService (i_ServiceID inst) (p_db p) with
  | Err _ => (true, p)
  | Ok svc =>
      match adapters !! ss_Runtime (sm_Spec (svc_Manifest svc)) with
      | None => (true, p)
      | Some ad =>
          match UpdateInstanceState (i_ID inst) InstanceStarting unix (p_db p) (p_db p) with
          | Err _ => (true, p)
          | Ok db =>
              let p := store (fun _ => db) p in
              let handle := mkHandle (ad_Name ad) (i_ID inst) (i_RuntimeHandle inst) in
              let ok := ad_Start ad (p_calls p) handle in
              let p := called (CStart handle) p in
              if ok then (false, audit "started" "instance" (i_ID inst) true
                                   (set_instance (i_ID inst) InstanceRunning p))
              else (true, set_instance (i_ID inst) InstanceFailed p)
          end
      end
  end.

(** ** Volumes *)

Definition provisionVolume (vol : Volume) (p : Pass) : bool * Pass :=
  let m := v_Manifest vol in
  match classDrivers !! vs_Class (vm_Spec m) with
  | None => (true, p)
  | Some drv =>
      match UpdateVolumeState (v_ID vol) VolumeProvisioning unix (p_db p) with
      | Err _ => (true, p)
      | Ok db =>
          let p := store (fun _ => db) p in
          let handle := drv_Create drv (p_calls p) (vm_Namespace m) (vm_Name m) (vm_Spec m) in
          let p := called (CCreate (drv_Name drv) (vm_Namespace m) (vm_Name m)) p in
          match handle with
          | None => (true, store (UpdateVolumeFailure (v_ID vol) "driver create" unix) p)
          | Some data =>
              let p := store (UpdateVolumeHandle (v_ID vol) data unix) p in
              (false, audit "volume_provisioned" "volume" (v_ID vol) true (set_volume (v_ID vol) VolumeReady p))
          end
      end
  end.

Definition release_volume (vol : Volume) (p : Pass) : Pass :=
  let finish (p : Pass) :=
    store (fun db => commit db (DeleteVolume fk (v_ID vol) db)) (set_volume (v_ID vol) VolumeReleased p) in
  if decide (v_DriverHandle vol = ∅) then finish p
  else
    match classDrivers !! vs_Class (vm_Spec (v_Manifest vol)) with
    | None => store (UpdateVolumeFailure (v_ID vol) "no driver" unix) p
    | Some drv =>
        let ok := drv_Delete drv (p_calls p) (v_DriverHandle vol) in
        let p := called (CDelete (drv_Name drv) (v_DriverHandle vol)) p in
        if ok then finish (audit "volume_released" "volume" (v_ID vol) true p)
        else store (UpdateVolumeFailure (v_ID vol) "driver delete" unix) p
    end.

Definition reconcileReleasingVolumes (p : Pass) : Pass :=
  foldl (fun p vol => release_volume vol p) p (ListVolumesByState VolumeReleasing (p_db p)).

Definition check_quota (vol : Volume) (p : Pass) : Pass :=
  match classDrivers !! vs_Class (vm_Spec (v_Manifest vol)) with
  | None => p
  | Some drv =>
      let stat := drv_Stat drv (p_calls p) (v_DriverHandle vol) in
      let p := called (CStat (drv_Name drv) (v_DriverHandle vol)) p in
      match stat with
      | None => p
      | Some st =>
          if negb (vst_Available st) then p
          else
            let capacity := vs_CapacityMiB (vm_Spec (v_Manifest vol)) in
            let overQuota := (0 <? capacity) && (capacity <=? vst_UsedMiB st) in
            if overQuota && bool_decide (v_State vol = VolumeBound) then
              match UpdateVolumeState (v_ID vol) VolumeQuotaExceeded unix (p_db p) with
              | Ok db => audit "volume_quota_exceeded" "volume" (v_ID vol) false (store (fun _ => db) p)
              | Err _ => p
              end
            else if negb overQuota && bool_decide (v_State vol = VolumeQuotaExceeded)
            then set_volume (v_ID vol) VolumeBound p
            else p
      end
  end.

Definition reconcileQuotaCheck (p : Pass) : Pass :=
  let candidates := ListVolumesByState VolumeBound (p_db p) ++ ListVolumesByState VolumeQuotaExceeded (p_db p) in
  foldl (fun p vol => check_quota vol p) p candidates.

Definition reconcileVolumes (p : Pass) : Pass :=
  let p := foldl (fun p vol =>
                    let '(failed, p) := provisionVolume vol p in
                    if (failed : bool) then audit "volume_provision_failed" "volume" (v_ID vol) false p else p)
             p (ListVolumesByState VolumeDeclared (p_db p)) in
  reconcileQuotaCheck (reconcileReleasingVolumes p).

(** One mount of an instance is released; the volume becomes ready when it was the last. *)
Definition teardown_mount (m : VolumeMount) (p : Pass) : Pass :=
  if bool_decide (m_State m <> MountActive /\ m_State m <> MountPending) then p
  else
    let p := set_mount (m_ID m) MountReleased p in
    match GetVolume (m_VolumeID m) (p_db p) with
    | Err _ => p
    | Ok vol =>
        let p := match classDrivers !! vs_Class (vm_Spec (v_Manifest vol)) with
                 | Some drv => called (CUnmount (drv_Name drv) (default "" (v_DriverHandle vol !! "path"))) p
                 | None => p
                 end in
        let p := if decide (v_State vol = VolumeBound) then
                   match ListActiveMountsByVolume (m_VolumeID m) (p_db p) with
                   | [] => set_volume (m_VolumeID m) VolumeReady p
                   | _ => p
                   end
                 else p in
        audit "mount_released" "volume" (m_VolumeID m) true p
    end.

Definition teardownMounts (instanceID : string) (p : Pass) : Pass :=
  foldl (fun p m => teardown_mount m p) p (ListMountsByInstance instanceID (p_db p)).

(** ** Nodes and desired counts *)

Definition expire_node (n : Node) (p : Pass) : Pass :=
  match n_LastHeartbeat n with
  | None => p
  | Some t =>
      if since t <=? nodeTTL then p
      else match UpdateNodeState (n_ID n) NodeDegraded unix (p_db p) (p_db p) with
           | Err _ => audit "node_ttl_expire_failed" "node" (n_ID n) false p
           | Ok db => audit "node_degraded_ttl" "node" (n_ID n) false (store (fun _ => db) p)
           end
  end.

Definition reconcileNodeHeartbeats (p : Pass) : Pass :=
  foldl (fun p n => expire_node n p) p (ListNodes (Some NodeReady) (p_db p)).

Fixpoint create_missing (svc : Service) (slot : Z) (needed : nat) (p : Pass) : Pass :=
  match needed with
  | O => p
  | S needed =>
      let id := uuid (p_drawn p) in
      let path := mkPath (sm_Namespace (svc_Manifest svc)) (sm_Name (svc_Manifest svc)) (dec slot) in
      let p := p {{ p_drawn ::= S }} in
      let p := match CreateInstance fk id (svc_ID svc) path unix (p_db p) with
               | Err _ => audit "create_instance_failed" "service" (dec (svc_ID svc)) false p
               | Ok (id, db) => audit "instance_created" "instance" id true (store (fun _ => db) p)
               end in
      create_missing svc (slot + 1) needed p
  end.

Definition live (i : ServiceInstance) : bool := negb (IsTerminalInstanceState (i_State i)).

Definition fill_service (svc : Service) (p : Pass) : Pass :=
  if svc_DesiredCount svc <=? 0 then p
  else
    let insts := ListInstancesByService (svc_ID svc) (p_db p) in
    let active := len (filter (fun i => live i = true) insts) in
    create_missing svc (len insts) (Z.to_nat (svc_DesiredCount svc - active)) p.

Definition reconcileDesiredCount (p : Pass) : Pass :=
  foldl (fun p svc => fill_service svc p) p (ListServices "" (p_db p)).

(** ** Running, degraded, stopping and failed instances *)

(** The service and the adapter of an instance, when both are known. *)
Definition adapter_of (inst : ServiceInstance) (p : Pass) : option (BackendAdapter * RuntimeHandle) :=
  match GetService (i_ServiceID inst) (p_db p) with
  | Err _ => None
  | Ok svc =>
      ad ← adapters !! ss_Runtime (sm_Spec (svc_Manifest svc));
      Some (ad, mkHandle (ad_Name ad) (i_ID inst) (i_RuntimeHandle inst))
  end.

Definition inspectInstance (inst : ServiceInstance) (p : Pass) : Pass :=
  match adapter_of inst p with
  | None => p
  | Some (ad, handle) =>
      let status := ad_Inspect ad (p_calls p) handle in
      let p := called (CInspect handle) p in
      match status with
      | Some true =>
          let health := ad_Health ad (p_calls p) handle in
          let p := called (CHealth handle) p in
          match health with
          | Some true => p
          | _ => audit "instance_degraded" "instance" (i_ID inst) false (set_instance (i_ID inst) InstanceDegraded p)
          end
      | _ =>
          let p := release_alloc (i_ID inst) (teardownMounts (i_ID inst) p) in
          audit "instance_process_exited" "instance" (i_ID inst) false (set_instance (i_ID inst) InstanceFailed p)
      end
  end.

Definition handleDegradedInstance (inst : ServiceInstance) (p : Pass) : Pass :=
  match adapter_of inst p with
  | None => p
  | Some (ad, handle) =>
      let health := ad_Health ad (p_calls p) handle in
      let p := called (CHealth handle) p in
      match health with
      | Some true => audit "instance_recovered" "instance" (i_ID inst) true (set_instance (i_ID inst) InstanceRunning p)
      | _ =>
          if degradedFailTimeout <? since (i_UpdatedAt inst) then
            let p := release_alloc (i_ID inst) (teardownMounts (i_ID inst) p) in
            audit "instance_degraded_timeout" "instance" (i_ID inst) false (set_instance (i_ID inst) InstanceFailed p)
          else p
      end
  end.

Definition stopInstance (inst : ServiceInstance) (p : Pass) : Pass :=
  match adapter_of inst p with
  | None => p
  | Some (ad, handle) =>
      let p := called (CDestroy handle) (called (CStop handle) p) in
      let p := release_alloc (i_ID inst) (teardownMounts (i_ID inst) p) in
      audit "instance_stopped" "instance" (i_ID inst) true (set_instance (i_ID inst) InstanceTerminated p)
  end.

Definition destroyInstance (inst : ServiceInstance) (p : Pass) : Pass :=
  if decide (i_RuntimeHandle inst = ∅) then p
  else
    match adapter_of inst p with
    | None => p
    | Some (ad, handle) =>
        let ok := ad_Destroy ad (p_calls p) handle in
        let p := called (CDestroy handle) p in
        if ok then p else audit "destroy_failed" "instance" (i_ID inst) false p
    end.

(** [retryBaseDelay] doubled once per retry, six times at most. *)
Definition retry_delay (retryCount : Z) : Z :=
  retryBaseDelay * 2 ^ (Z.max 0 (Z.min retryCount 6)).

Definition handleFailedInstance (inst : ServiceInstance) (p : Pass) : Pass :=
  match GetService (i_ServiceID inst) (p_db p) with
  | Err _ => p
  | Ok svc =>
      let policy := ss_Restart (sm_Spec (svc_Manifest svc)) in
      let terminate (action : string) (ok : bool) :=
        audit action "instance" (i_ID inst) ok (set_instance (i_ID inst) InstanceTerminated (destroyInstance inst p)) in
      if negb (String.eqb (rp_Policy policy) "on-failure" || String.eqb (rp_Policy policy) "always")
      then terminate "terminated_no_restart" true
      else if (0 <? rp_MaximumAttempts policy) && (rp_MaximumAttempts policy <=? i_RetryCount inst)
      then terminate "abandoned" false
      else if since (i_UpdatedAt inst) <? retry_delay (i_RetryCount inst) then p
      else
        let p := release_alloc (i_ID inst) (teardownMounts (i_ID inst) p) in
        audit "retry_scheduled" "instance" (i_ID inst) true (store (IncrementRetryCount (i_ID inst) unix) p)
  end.

(** ** The pass *)

(** [ActiveInstances] of every node: its instances that are not terminated. *)
Definition count_active (db : VSDB) (nodes : list Node) : list Node :=
  let insts := ListInstances None db in
  (fun n => n {{ n_ActiveInstances := len (filter (fun i => live i = true /\ i_NodeID i = n_ID n /\ i_NodeID i <> "") insts) }})
  <$> nodes.

(** Applies a step to every instance listed in a state; a failure is logged. *)
Definition each_instance (s : InstanceState) (f : ServiceInstance -> Pass -> bool * Pass) (action : string) (p : Pass) : Pass :=
  foldl (fun p inst => let '(failed, p) := f inst p in
                       if (failed : bool) then audit action "instance" (i_ID inst) false p else p)
    p (ListInstances (Some s) (p_db p)).

Definition monitor (s : InstanceState) (f : ServiceInstance -> Pass -> Pass) (p : Pass) : Pass :=
  foldl (fun p inst => f inst p) p (ListInstances (Some s) (p_db p)).

Definition reconcileRunningInstances : Pass -> Pass := monitor InstanceRunning inspectInstance.
Definition reconcileDegradedInstances : Pass -> Pass := monitor InstanceDegraded handleDegradedInstance.
Definition reconcileStoppingInstances : Pass -> Pass := monitor InstanceStopping stopInstance.

Definition reconcile (p : Pass) : Pass :=
  let p := reconcileNodeHeartbeats p in
  let p := reconcileVolumes p in
  let p := reconcileDesiredCount p in
  let nodes := count_active (p_db p) (ListNodes None (p_db p)) in
  let p := each_instance InstanceDeclared (fun inst => scheduleInstance inst nodes) "schedule_failed" p in
  let p := each_instance InstanceScheduled provisionInstance "provision_failed" p in
  let p := each_instance InstanceProvisioning startInstance "start_failed" p in
  let p := monitor InstanceFailed handleFailedInstance p in
  reconcileStoppingInstances (reconcileDegradedInstances (reconcileRunningInstances p)).
End Reconciler.
