(* ===== verification/VsReconcilerSpec.v ===== *)
(** * Virtual server: what a reconciliation pass does

    A pass is a sequence of store operations, so it keeps what the store keeps;
    silent nodes are degraded, missing instances are created, and failed
    instances are retried or terminated as the restart policy says. *)
From Stdlib Require Import String.
From S2P Require Import Prelude GoStr GoSort VsDomain VsScheduler VsStore VsStoreSpec VsReconciler.
Open Scope string_scope.
Open Scope list_scope.
Open Scope Z_scope.

(** The store operations a pass may use. *)
Definition reconciler_op (op : StoreOp) : Prop :=
  match op with
  | OUpdateNodeState _ NodeDegraded | OCreateInstance _ _ _ | OUpdateInstanceState _ _ | OAssignNode _ _
  | OUpdateRuntimeHandle _ _ | OIncrementRetryCount _ | OReleaseAllocation _ | OWriteAuditLog _ _ _ _
  | OUpdateVolumeState _ _ | OUpdateVolumeHandle _ _ | OUpdateVolumeBoundNode _ _ | OUpdateVolumeFailure _ _
  | ODeleteVolume _ | OBindMount _ _ _ _ | OUpdateMountState _ _ => True
  | OAllocateResources _ _ cpu ram _ => 0 <= cpu /\ 0 <= ram
  | _ => False
  end.

Lemma reconciler_op_accounted op : reconciler_op op -> accounted op.
Proof. destruct op; try done. Qed.

(** Declared services ask for no negative resources, as validated manifests do. *)
Definition requests_valid (db : VSDB) : Prop :=
  forall id r, db_services db !! id = Some r ->
    0 <= rr_CPUThreads (ss_Resources (sm_Spec (sr_manifest r))) /\ 0 <= rr_RAMMiB (ss_Resources (sm_Spec (sr_manifest r))).

Section Refinement.
Context (fk : bool) (hashKey : string -> string) (now : Z).
Notation unix := (unix now).

Definition exec_all (ops : list StoreOp) (db : VSDB) : VSDB :=
  foldl (fun db op => exec fk hashKey op unix db db) db ops.

(** The second database comes from the first by store operations of a pass. *)
Definition advances (p p' : Pass) : Prop :=
  exists ops, Forall reconciler_op ops /\ p_db p' = exec_all ops (p_db p).

Lemma advances_refl p : advances p p.
Proof. by exists []. Qed.

Lemma advances_trans p1 p2 p3 : advances p1 p2 -> advances p2 p3 -> advances p1 p3.
Proof.
  intros (o1 & H1 & E1) (o2 & H2 & E2). exists (o1 ++ o2). split; [by apply Forall_app|].
  unfold exec_all in *. rewrite foldl_app. by rewrite <- E1.
Qed.

Lemma advances_same p p' : p_db p' = p_db p -> advances p p'.
Proof. intros E. exists []. split; [constructor|done]. Qed.

Lemma advances_op op p p' :
  reconciler_op op -> p_db p' = exec fk hashKey op unix (p_db p) (p_db p) -> advances p p'.
Proof. intros Hop E. exists [op]. split; [by repeat constructor|done]. Qed.

Lemma services_kept p p' : advances p p' -> db_services (p_db p') = db_services (p_db p).
Proof.
  intros (ops & Hops & ->). revert Hops. generalize (p_db p). induction ops as [|op ops IH]; intros db Hops; [done|].
  apply Forall_cons in Hops as [Hop Hops]. cbn [exec_all foldl]. fold (exec_all ops (exec fk hashKey op unix db db)).
  rewrite IH by done. apply service_frame. by destruct op.
Qed.

Lemma requests_kept p p' : advances p p' -> requests_valid (p_db p) -> requests_valid (p_db p').
Proof. intros H%services_kept. unfold requests_valid. by rewrite H. Qed.

Lemma advances_foldl {A} (f : Pass -> A -> Pass) l p :
  (forall p a, requests_valid (p_db p) -> advances p (f p a)) ->
  requests_valid (p_db p) -> advances p (foldl f p l).
Proof.
  intros Hf. revert p. induction l as [|a l IH]; intros p Hp; [apply advances_refl|].
  cbn [foldl]. eapply advances_trans; [by apply Hf|]. apply IH. eapply requests_kept; [by apply Hf|done].
Qed.

(** The single store operations. *)
Lemma adv_audit a t i ok p : advances p (audit now a t i ok p).
Proof. by apply (advances_op (OWriteAuditLog a t i ok)). Qed.
Lemma adv_set_instance id to p : advances p (set_instance now id to p).
Proof. by apply (advances_op (OUpdateInstanceState id to)). Qed.
Lemma adv_set_volume id to p : advances p (set_volume now id to p).
Proof. by apply (advances_op (OUpdateVolumeState id to)). Qed.
Lemma adv_set_mount id to p : advances p (set_mount now id to p).
Proof. by apply (advances_op (OUpdateMountState id to)). Qed.
Lemma adv_release id p : advances p (release_alloc now id p).
Proof. by apply (advances_op (OReleaseAllocation id)). Qed.
Lemma adv_handle id h p : advances p (store (UpdateRuntimeHandle id h unix) p).
Proof. by apply (advances_op (OUpdateRuntimeHandle id h)). Qed.
Lemma adv_retry id p : advances p (store (IncrementRetryCount id unix) p).
Proof. by apply (advances_op (OIncrementRetryCount id)). Qed.
Lemma adv_bound id n p : advances p (store (UpdateVolumeBoundNode id n unix) p).
Proof. by apply (advances_op (OUpdateVolumeBoundNode id n)). Qed.
Lemma adv_vhandle id h p : advances p (store (UpdateVolumeHandle id h unix) p).
Proof. by apply (advances_op (OUpdateVolumeHandle id h)). Qed.
Lemma adv_vfail id r p : advances p (store (UpdateVolumeFailure id r unix) p).
Proof. by apply (advances_op (OUpdateVolumeFailure id r)). Qed.
Lemma adv_vdelete id p : advances p (store (fun db => commit db (DeleteVolume fk id db)) p).
Proof. by apply (advances_op (ODeleteVolume id)). Qed.
Lemma adv_called c p : advances p (called c p).
Proof. by apply advances_same. Qed.
Lemma adv_drawn p : advances p (p {{ p_drawn ::= S }}).
Proof. by apply advances_same. Qed.

Lemma adv_instance_ok id to p db :
  UpdateInstanceState id to unix (p_db p) (p_db p) = Ok db -> advances p (store (fun _ => db) p).
Proof. intros E. apply (advances_op (OUpdateInstanceState id to)); [done|]. cbn [exec]. by rewrite E. Qed.
Lemma adv_volume_ok id to p db :
  UpdateVolumeState id to unix (p_db p) = Ok db -> advances p (store (fun _ => db) p).
Proof. intros E. apply (advances_op (OUpdateVolumeState id to)); [done|]. cbn [exec]. by rewrite E. Qed.
Lemma adv_assign_ok id n p db :
  AssignNode fk id n unix (p_db p) (p_db p) = Ok db -> advances p (store (fun _ => db) p).
Proof. intros E. apply (advances_op (OAssignNode id n)); [done|]. cbn [exec]. by rewrite E. Qed.
Lemma adv_alloc_ok id n cpu ram gpu p db :
  0 <= cpu -> 0 <= ram ->
  AllocateResources fk id n cpu ram gpu unix (p_db p) = Ok db -> advances p (store (fun _ => db) p).
Proof. intros ?? E. apply (advances_op (OAllocateResources id n cpu ram gpu)); [done|]. cbn [exec]. by rewrite E. Qed.
Lemma adv_node_ok id p db :
  UpdateNodeState id NodeDegraded unix (p_db p) (p_db p) = Ok db -> advances p (store (fun _ => db) p).
Proof. intros E. apply (advances_op (OUpdateNodeState id NodeDegraded)); [done|]. cbn [exec]. by rewrite E. Qed.
Lemma adv_create_ok id svc path id' p db :
  CreateInstance fk id svc path unix (p_db p) = Ok (id', db) -> advances p (store (fun _ => db) p).
Proof. intros E. apply (advances_op (OCreateInstance id svc path)); [done|]. cbn [exec]. by rewrite E. Qed.
Lemma adv_bind_ok v i t ro mid p db :
  BindMount fk v i t ro (p_db p) = Ok (mid, db) -> advances p (store (fun _ => db) p).
Proof. intros E. apply (advances_op (OBindMount v i t ro)); [done|]. cbn [exec]. by rewrite E. Qed.
End Refinement.

Create HintDb advance discriminated.
#[export] Hint Resolve advances_refl adv_audit adv_set_instance adv_set_volume adv_set_mount adv_release adv_handle
  adv_retry adv_bound adv_vhandle adv_vfail adv_vdelete adv_called adv_drawn adv_instance_ok adv_volume_ok
  adv_assign_ok adv_node_ok adv_create_ok adv_bind_ok : advance.

(** Peels the last operation of a pass. *)
Ltac advance :=
  solve [repeat first [eassumption | apply advances_refl | progress eauto 2 with advance
                      | eapply advances_trans; [|solve [eauto 2 with advance]]]].

Section Steps.
Context (fk : bool) (hashKey : string -> string) (now : Z).
Context (adapters : gmap string BackendAdapter) (classDrivers : gmap string StorageDriver).
Context (lorder : gmap string string -> list (string * string)) (weights : Weights).
Context (catalog : option (string -> option ArtifactStatus)) (nodeTTL : Z) (uuid : nat -> string).
Notation advances := (advances fk hashKey now).

Lemma service_request id db svc :
  GetService id db = Ok svc -> requests_valid db ->
  0 <= rr_CPUThreads (ss_Resources (sm_Spec (svc_Manifest svc))) /\
  0 <= rr_RAMMiB (ss_Resources (sm_Spec (svc_Manifest svc))).
Proof.
  unfold GetService. destruct (db_services db !! id) as [r|] eqn:E; [|done]. intros [= <-] Hv. by apply (Hv id).
Qed.

Lemma adv_scheduleInstance inst nodes p :
  requests_valid (p_db p) ->
  advances p (scheduleInstance fk classDrivers lorder weights catalog now inst nodes p).2.
Proof.
  intros Hv. unfold scheduleInstance. destruct (GetService _ _) as [svc|] eqn:Es; [|advance].
  destruct (Schedule _ _ _ _ _); [|advance]. destruct (AssignNode _ _ _ _ _ _) eqn:Ea; [|advance]. cbv zeta.
  destruct (service_request _ _ _ Es Hv) as [Hcpu Hram].
  eapply advances_trans; [by eapply adv_assign_ok|].
  destruct (AllocateResources _ _ _ _ _ _ _ _) as [db'|] eqn:Eal; cbn [snd]; [|advance].
  eapply advances_trans; [|apply adv_audit].
  eapply adv_alloc_ok; [exact Hcpu|exact Hram|exact Eal].
Qed.

Lemma adv_resolveMounts decls ns inst node p :
  advances p (resolveMounts fk classDrivers now decls ns inst node p).2.
Proof.
  revert p. induction decls as [|decl decls IH]; intros p; cbn [resolveMounts]; [advance|].
  destruct (GetVolumeByName _ _ _) as [vol|]; [|advance]. destruct (bool_decide _); [advance|].
  destruct (classDrivers !! _) as [drv|]; [|advance]. cbv zeta.
  set (req := mkMountReq _ _ _ _ _). destruct (drv_Mount _ _ _); [|advance].
  eapply advances_trans; [apply adv_called|].
  destruct (BindMount _ _ _ _ _ _) as [[mid db]|] eqn:Eb; [|advance].
  eapply advances_trans; [by eapply adv_bind_ok|].
  match goal with |- context [resolveMounts _ _ _ decls ns inst node ?q] => set (p' := q) end.
  pose proof (IH p') as Hrest. destruct (resolveMounts _ _ _ decls ns inst node p') as [rest p'']. cbn [snd] in *.
  eapply advances_trans; [|exact Hrest]. unfold p'.
  destruct (decide (v_State vol = VolumeReady)); destruct (String.eqb (v_BoundNodeID vol) "" && _); advance.
Qed.

Lemma adv_provisionInstance inst p :
  advances p (provisionInstance fk adapters classDrivers now inst p).2.
Proof.
  unfold provisionInstance. destruct (GetService _ _) as [svc|]; [|advance].
  destruct (adapters !! _) as [ad|]; [|advance]. destruct (UpdateInstanceState _ _ _ _ _) eqn:Eu; [|advance]. cbv zeta.
  eapply advances_trans; [by eapply adv_instance_ok|].
  match goal with |- context [resolveMounts ?a ?b ?c ?d ?e ?f ?g ?h] =>
    pose proof (adv_resolveMounts d e f g h) as Hm; destruct (resolveMounts a b c d e f g h) as [mounts p'] end.
  cbn [snd] in Hm. eapply advances_trans; [exact Hm|].
  destruct mounts as [mounts|]; [|advance]. destruct (ad_Provision _ _ _); advance.
Qed.

Lemma adv_startInstance inst p : advances p (startInstance adapters now inst p).2.
Proof.
  unfold startInstance. destruct (GetService _ _) as [svc|]; [|advance].
  destruct (adapters !! _) as [ad|]; [|advance]. destruct (UpdateInstanceState _ _ _ _ _) eqn:Eu; [|advance]. cbv zeta.
  eapply advances_trans; [by eapply adv_instance_ok|]. destruct (ad_Start _ _ _); cbn [snd]; advance.
Qed.

Lemma adv_provisionVolume vol p : advances p (provisionVolume classDrivers now vol p).2.
Proof.
  unfold provisionVolume. cbv zeta. destruct (classDrivers !! _) as [drv|]; [|advance].
  destruct (UpdateVolumeState _ _ _ _) eqn:Eu; [|advance].
  eapply advances_trans; [by eapply adv_volume_ok|]. destruct (drv_Create _ _ _ _ _); cbn [snd]; advance.
Qed.

Lemma adv_release_volume vol p : advances p (release_volume fk classDrivers now vol p).
Proof.
  unfold release_volume. cbv zeta. destruct (decide _); [advance|]. destruct (classDrivers !! _) as [drv|]; [|advance].
  destruct (drv_Delete _ _ _); advance.
Qed.

Lemma adv_check_quota vol p : advances p (check_quota classDrivers now vol p).
Proof.
  unfold check_quota. destruct (classDrivers !! _) as [drv|]; [|advance]. cbv zeta.
  eapply advances_trans; [apply adv_called|].
  destruct (drv_Stat _ _ _) as [st|]; [|advance]. destruct (negb _); [advance|]. destruct (_ && _).
  - destruct (UpdateVolumeState _ _ _ _) eqn:Eu; [|advance].
    eapply advances_trans; [by eapply adv_volume_ok|advance].
  - destruct (_ && _); advance.
Qed.

(** A step applied to each element of a list, failures logged. *)
Lemma adv_logged {A} (f : A -> Pass -> bool * Pass) (log : A -> Pass -> Pass) l p :
  (forall a q, requests_valid (p_db q) -> advances q (f a q).2) -> (forall a q, advances q (log a q)) ->
  requests_valid (p_db p) ->
  advances p (foldl (fun p a => let '(failed, p) := f a p in if (failed : bool) then log a p else p) p l).
Proof.
  intros Hf Hlog. apply advances_foldl. intros q a Hq. pose proof (Hf a q Hq) as H.
  destruct (f a q) as [[] q']; cbn [snd] in H; [|exact H]. eapply advances_trans; [exact H|apply Hlog].
Qed.

Lemma adv_reconcileVolumes p : requests_valid (p_db p) -> advances p (reconcileVolumes fk classDrivers now p).
Proof.
  intros Hv. unfold reconcileVolumes, reconcileQuotaCheck, reconcileReleasingVolumes. cbv zeta.
  set (p1 := foldl _ p _). assert (advances p p1) as H1.
  { apply (adv_logged (provisionVolume classDrivers now)); [intros; apply adv_provisionVolume|intros; advance|done]. }
  clearbody p1. pose proof (requests_kept _ _ _ _ _ H1 Hv) as Hv1. eapply advances_trans; [exact H1|].
  set (p2 := foldl _ p1 _). assert (advances p1 p2) as H2.
  { apply advances_foldl; [intros; apply adv_release_volume|done]. }
  clearbody p2. pose proof (requests_kept _ _ _ _ _ H2 Hv1) as Hv2. eapply advances_trans; [exact H2|].
  apply advances_foldl; [intros; apply adv_check_quota|done].
Qed.

Lemma adv_teardown_mount m p : advances p (teardown_mount classDrivers now m p).
Proof.
  unfold teardown_mount. destruct (bool_decide _); [advance|]. cbv zeta.
  eapply advances_trans; [apply adv_set_mount|]. destruct (GetVolume _ _) as [vol|]; [|advance].
  destruct (classDrivers !! _); (destruct (decide (v_State vol = VolumeBound));
    [destruct (ListActiveMountsByVolume _ _)|]); advance.
Qed.

Lemma adv_teardownMounts id p : requests_valid (p_db p) -> advances p (teardownMounts classDrivers now id p).
Proof. apply advances_foldl. intros. apply adv_teardown_mount. Qed.

Lemma adv_reconcileNodeHeartbeats p :
  requests_valid (p_db p) -> advances p (reconcileNodeHeartbeats nodeTTL now p).
Proof.
  apply advances_foldl. intros q n _. unfold expire_node. destruct (n_LastHeartbeat n); [|advance].
  destruct (_ <=? _); [advance|]. destruct (UpdateNodeState _ _ _ _ _) eqn:E; [|advance].
  eapply advances_trans; [by eapply adv_node_ok|advance].
Qed.

Lemma adv_create_missing svc slot needed p : advances p (create_missing fk uuid now svc slot needed p).
Proof.
  revert slot p. induction needed as [|needed IH]; intros slot p; [advance|]. cbn [create_missing]. cbv zeta.
  eapply advances_trans; [apply adv_drawn|]. eapply advances_trans; [|apply IH].
  destruct (CreateInstance _ _ _ _ _ _) as [[id db]|] eqn:E; [|advance].
  eapply advances_trans; [by eapply adv_create_ok|advance].
Qed.

Lemma adv_fill_service svc p : advances p (fill_service fk uuid now svc p).
Proof. unfold fill_service. destruct (_ <=? 0); [advance|apply adv_create_missing]. Qed.

Lemma adv_reconcileDesiredCount p :
  requests_valid (p_db p) -> advances p (reconcileDesiredCount fk uuid now p).
Proof. apply advances_foldl. intros. apply adv_fill_service. Qed.

(** Release of everything an instance holds, followed by one store operation. *)
Lemma adv_give_up id p p' :
  requests_valid (p_db p) -> (forall q, advances q (p' q)) ->
  advances p (p' (release_alloc now id (teardownMounts classDrivers now id p))).
Proof.
  intros Hv Hp'. eapply advances_trans; [by apply adv_teardownMounts|]. eapply advances_trans; [apply adv_release|apply Hp'].
Qed.

Lemma adv_inspectInstance inst p :
  requests_valid (p_db p) -> advances p (inspectInstance adapters classDrivers now inst p).
Proof.
  intros Hv. unfold inspectInstance. destruct (adapter_of _ _ _) as [[ad handle]|]; [|advance]. cbv zeta.
  eapply advances_trans; [apply adv_called|].
  destruct (ad_Inspect _ _ _) as [[]|].
  - destruct (ad_Health _ _ _) as [[]|]; advance.
  - apply (adv_give_up _ _ (fun q => audit now _ _ _ _ (set_instance now _ _ q))); [done|]. intros. advance.
  - apply (adv_give_up _ _ (fun q => audit now _ _ _ _ (set_instance now _ _ q))); [done|]. intros. advance.
Qed.

Lemma adv_handleDegradedInstance inst p :
  requests_valid (p_db p) -> advances p (handleDegradedInstance adapters classDrivers now inst p).
Proof.
  intros Hv. unfold handleDegradedInstance. destruct (adapter_of _ _ _) as [[ad handle]|]; [|advance]. cbv zeta.
  eapply advances_trans; [apply adv_called|].
  destruct (ad_Health _ _ _) as [[]|]; [advance| |]; (destruct (_ <? _); [|advance]);
    (apply (adv_give_up _ _ (fun q => audit now _ _ _ _ (set_instance now _ _ q))); [done|intros; advance]).
Qed.

Lemma adv_stopInstance inst p :
  requests_valid (p_db p) -> advances p (stopInstance adapters classDrivers now inst p).
Proof.
  intros Hv. unfold stopInstance. destruct (adapter_of _ _ _) as [[ad handle]|]; [|advance]. cbv zeta.
  eapply advances_trans; [apply adv_called|]. eapply advances_trans; [apply adv_called|].
  apply (adv_give_up _ _ (fun q => audit now _ _ _ _ (set_instance now _ _ q))); [done|intros; advance].
Qed.

Lemma adv_destroyInstance inst p : advances p (destroyInstance adapters now inst p).
Proof.
  unfold destroyInstance. destruct (decide _); [advance|]. destruct (adapter_of _ _ _) as [[ad handle]|]; [|advance].
  cbv zeta. destruct (ad_Destroy _ _ _); advance.
Qed.

Lemma adv_handleFailedInstance inst p :
  requests_valid (p_db p) -> advances p (handleFailedInstance adapters classDrivers now inst p).
Proof.
  intros Hv. unfold handleFailedInstance. destruct (GetService _ _) as [svc|]; [|advance]. cbv zeta.
  destruct (negb _); [|destruct (_ && _); [|destruct (_ <? _); [advance|]]].
  - eapply advances_trans; [apply adv_destroyInstance|advance].
  - eapply advances_trans; [apply adv_destroyInstance|advance].
  - apply (adv_give_up _ _ (fun q => audit now _ _ _ _ (store (IncrementRetryCount _ _) q))); [done|intros; advance].
Qed.

Lemma adv_each_instance s f action p :
  (forall inst q, requests_valid (p_db q) -> advances q (f inst q).2) ->
  requests_valid (p_db p) -> advances p (each_instance now s f action p).
Proof.
  intros Hf Hv. apply (adv_logged f (fun inst => audit now action "instance" (i_ID inst) false));
    [done|intros; advance|done].
Qed.

Lemma adv_monitor s f p :
  (forall inst q, requests_valid (p_db q) -> advances q (f inst q)) ->
  requests_valid (p_db p) -> advances p (monitor s f p).
Proof. intros Hf. apply advances_foldl. auto. Qed.

(** One phase of the pass. *)
Ltac next lem :=
  let H := fresh in pose proof lem as H; eapply advances_trans; [exact H|];
  match goal with Hv : requests_valid _ |- _ => apply (requests_kept _ _ _ _ _ H) in Hv end; clear H.

Lemma adv_reconcile p :
  requests_valid (p_db p) ->
  advances p (reconcile fk adapters classDrivers lorder weights catalog nodeTTL uuid now p).
Proof.
  intros Hv. unfold reconcile. cbv zeta.
  next (adv_reconcileNodeHeartbeats p Hv). set (p1 := reconcileNodeHeartbeats _ _ p) in *. clearbody p1.
  next (adv_reconcileVolumes p1 Hv). set (p2 := reconcileVolumes _ _ _ p1) in *. clearbody p2.
  next (adv_reconcileDesiredCount p2 Hv). set (p3 := reconcileDesiredCount _ _ _ p2) in *. clearbody p3.
  set (nodes := count_active _ _). clearbody nodes.
  next (adv_each_instance InstanceDeclared (fun inst => scheduleInstance fk classDrivers lorder weights catalog now inst nodes)
          "schedule_failed" p3 (fun inst q => adv_scheduleInstance inst nodes q) Hv).
  set (p4 := each_instance _ _ _ _ p3) in *. clearbody p4.
  next (adv_each_instance InstanceScheduled (provisionInstance fk adapters classDrivers now)
          "provision_failed" p4 (fun inst q _ => adv_provisionInstance inst q) Hv).
  set (p5 := each_instance _ _ _ _ p4) in *. clearbody p5.
  next (adv_each_instance InstanceProvisioning (startInstance adapters now)
          "start_failed" p5 (fun inst q _ => adv_startInstance inst q) Hv).
  set (p6 := each_instance _ _ _ _ p5) in *. clearbody p6.
  next (adv_monitor InstanceFailed _ p6 adv_handleFailedInstance Hv).
  set (p7 := monitor _ _ p6) in *. clearbody p7.
  next (adv_monitor InstanceRunning _ p7 adv_inspectInstance Hv).
  set (p8 := monitor _ _ p7) in *.
  change (reconcileRunningInstances adapters classDrivers now p7) with p8. clearbody p8.
  next (adv_monitor InstanceDegraded _ p8 adv_handleDegradedInstance Hv).
  set (p9 := monitor _ _ p8) in *.
  change (reconcileDegradedInstances adapters classDrivers now p8) with p9. clearbody p9.
  exact (adv_monitor InstanceStopping _ p9 adv_stopInstance Hv).
Qed.
End Steps.

Lemma AllocInv_exec_all fk hashKey now ops db :
  Forall accounted ops -> AllocInv db -> AllocInv (exec_all fk hashKey now ops db).
Proof.
  revert db. induction ops as [|op ops IH]; intros db Hops HI; [done|].
  apply Forall_cons in Hops as [Hop Hops]. apply IH; [done|]. by apply AllocInv_exec.
Qed.

Lemma instances_exec_all fk hashKey now ops db id row :
  db_instances db !! id = Some row ->
  exists row', db_instances (exec_all fk hashKey now ops db) !! id = Some row' /\
    ir_service row' = ir_service row /\ ir_retry row <= ir_retry row'.
Proof.
  revert db row. induction ops as [|op ops IH]; intros db row Hrow; [exists row; auto with lia|].
  destruct (instance_step_exec fk hashKey op (unix now) db db id row Hrow) as (row1 & H1 & Es & _ & _ & Er).
  destruct (IH _ _ H1) as (row2 & H2 & Es2 & Er2). exists row2. split; [exact H2|]. rewrite Es2, Es. split; [done|].
  destruct Er as [Er|[_ Er]]; lia.
Qed.

(** A pass keeps the accounts.  If free and reserved resources balance on
    every node and device before a pass, they do after it, however adapters and
    drivers fail; no instance disappears or changes its service, and retry
    counters never go down. *)
Theorem reconcile_conserves fk adapters classDrivers lorder weights catalog nodeTTL uuid now p :
  requests_valid (p_db p) -> AllocInv (p_db p) ->
  let p' := reconcile fk adapters classDrivers lorder weights catalog nodeTTL uuid now p in
  AllocInv (p_db p') /\
  forall id row, db_instances (p_db p) !! id = Some row ->
    exists row', db_instances (p_db p') !! id = Some row' /\
      ir_service row' = ir_service row /\ ir_retry row <= ir_retry row'.
Proof.
  intros Hv HI p'.
  destruct (adv_reconcile fk (fun k => k) now adapters classDrivers lorder weights catalog nodeTTL uuid p Hv)
    as (ops & Hops & E). fold p' in E. rewrite E. split.
  - apply AllocInv_exec_all; [|done]. eapply Forall_impl; [exact Hops|]. apply reconciler_op_accounted.
  - intros id row. apply instances_exec_all.
Qed.

(** ** Desired counts *)

Section DesiredCount.
Context (fk : bool) (uuid : nat -> string) (now : Z).
Context (uuid_inj : Inj (=) (=) uuid).

(** The instances of a service that are not terminated. *)
Definition live_count (id : Z) (db : VSDB) : Z :=
  len (filter (fun i => live i = true) (ListInstancesByService id db)).

(** Identifiers not drawn yet are in no row. *)
Definition fresh_ids (p : Pass) : Prop :=
  forall k, (p_drawn p <= k)%nat -> db_instances (p_db p) !! uuid k = None.

Lemma live_count_map id db :
  live_count id db = len (filter (fun kv => ir_service kv.2 = id /\ ir_state kv.2 <> InstanceTerminated)
                            (map_to_list (db_instances db))).
Proof.
  unfold live_count, ListInstancesByService, select_instances, len. f_equal.
  rewrite slice_stable_perm. generalize (map_to_list (db_instances db)) as l. intros l.
  induction l as [|[k row] l IH]; [done|].
  rewrite !filter_cons. cbn [snd]. destruct (Z.eqb_spec (ir_service row) id) as [Es|Es].
  - rewrite decide_True by done. rewrite fmap_cons, filter_cons. cbn [fst snd].
    unfold live, IsTerminalInstanceState. cbn [i_State scanInstance].
    destruct (decide (ir_state row = InstanceTerminated)) as [Et|Et].
    + rewrite bool_decide_eq_true_2 by done. rewrite decide_False by done. rewrite decide_False by tauto. exact IH.
    + rewrite bool_decide_eq_false_2 by done. rewrite decide_True by done. rewrite decide_True by tauto.
      cbn [length]. f_equal. exact IH.
  - rewrite decide_False by done. rewrite decide_False by tauto. exact IH.
Qed.

Lemma live_count_insert db uid row id :
  db_instances db !! uid = None ->
  len (filter (fun kv => ir_service kv.2 = id /\ ir_state kv.2 <> InstanceTerminated)
         (map_to_list (<[uid := row]> (db_instances db)))) =
  live_count id db + (if decide (ir_service row = id /\ ir_state row <> InstanceTerminated) then 1 else 0).
Proof.
  intros Hnew. rewrite live_count_map. unfold len. rewrite map_to_list_insert by done. rewrite filter_cons. cbn [snd].
  destruct (decide _); cbn [length]; lia.
Qed.

Lemma create_missing_spec svc slot needed p :
  fresh_ids p -> is_Some (db_services (p_db p) !! svc_ID svc) ->
  let p' := create_missing fk uuid now svc slot needed p in
  fresh_ids p' /\ db_services (p_db p') = db_services (p_db p) /\
  forall id, live_count id (p_db p') = live_count id (p_db p) + (if decide (svc_ID svc = id) then Z.of_nat needed else 0).
Proof.
  revert slot p. induction needed as [|needed IH]; intros slot p Hf Hs p'.
  { split; [done|]. split; [done|]. intros id. cbn. destruct (decide _); lia. }
  unfold p'. cbn [create_missing]. cbv zeta.
  pose proof (Hf (p_drawn p) (le_n _)) as Hnew.
  unfold CreateInstance. change (p_db (p {{ p_drawn ::= S }})) with (p_db p).
  rewrite bool_decide_eq_false_2 by (rewrite Hnew; by intros [? ?]).
  rewrite (bool_decide_eq_false_2 (db_services (p_db p) !! svc_ID svc = None)) by (by intros E; rewrite E in Hs; destruct Hs).
  rewrite andb_false_r. cbv zeta.
  match goal with |- context [create_missing _ _ _ _ _ _ ?q] => set (q1 := q) end.
  match goal with q1 := context [<[_ := ?r]>] |- _ => set (row := r) in q1 end.
  assert (db_instances (p_db q1) = <[uuid (p_drawn p) := row]> (db_instances (p_db p))) as Ei by done.
  assert (db_services (p_db q1) = db_services (p_db p)) as Es by done.
  assert (p_drawn q1 = S (p_drawn p)) as Ed by done. clearbody q1.
  destruct (IH (slot + 1) q1) as (F & S' & C).
  - intros k Hk. rewrite Ed in Hk. rewrite Ei, lookup_insert_ne; [apply Hf; lia|].
    intros E. apply (inj uuid) in E. lia.
  - by rewrite Es.
  - split; [done|]. split; [by rewrite S', Es|]. intros id. rewrite C, (live_count_map id (p_db q1)), Ei.
    rewrite live_count_insert by done. unfold row. cbn [ir_service ir_state].
    destruct (decide (svc_ID svc = id)) as [<-|Hne].
    + rewrite decide_True by done. lia.
    + rewrite decide_False by tauto. lia.
Qed.

Lemma live_count_nonneg id db : 0 <= live_count id db.
Proof. unfold live_count, len. lia. Qed.

Lemma fill_service_spec svc p :
  fresh_ids p -> is_Some (db_services (p_db p) !! svc_ID svc) ->
  let p' := fill_service fk uuid now svc p in
  fresh_ids p' /\ db_services (p_db p') = db_services (p_db p) /\
  forall id, live_count id (p_db p') =
    if decide (svc_ID svc = id) then Z.max (live_count id (p_db p)) (svc_DesiredCount svc) else live_count id (p_db p).
Proof.
  intros Hf Hs p'. unfold p', fill_service. pose proof (live_count_nonneg (svc_ID svc) (p_db p)) as Hpos.
  destruct (Z.leb_spec (svc_DesiredCount svc) 0) as [Hd|Hd].
  - split; [done|]. split; [done|]. intros id. destruct (decide _) as [<-|]; lia.
  - cbv zeta. fold (live_count (svc_ID svc) (p_db p)).
    destruct (create_missing_spec svc (len (ListInstancesByService (svc_ID svc) (p_db p)))
                (Z.to_nat (svc_DesiredCount svc - live_count (svc_ID svc) (p_db p))) p Hf Hs) as (F & S & C).
    split; [done|]. split; [done|]. intros id. rewrite C. destruct (decide _) as [<-|]; lia.
Qed.

Lemma fill_services_spec svcs p :
  fresh_ids p -> NoDup (svc_ID <$> svcs) -> Forall (fun svc => is_Some (db_services (p_db p) !! svc_ID svc)) svcs ->
  let p' := foldl (fun p svc => fill_service fk uuid now svc p) p svcs in
  forall id, live_count id (p_db p') =
    match filter (fun svc => svc_ID svc = id) svcs with
    | svc :: _ => Z.max (live_count id (p_db p)) (svc_DesiredCount svc)
    | [] => live_count id (p_db p)
    end.
Proof.
  revert p. induction svcs as [|svc svcs IH]; intros p Hf Hnd Hall p' id; [done|].
  rewrite fmap_cons in Hnd. apply NoDup_cons in Hnd as [Hnew Hnd]. apply Forall_cons in Hall as [Hs Hall].
  destruct (fill_service_spec svc p Hf Hs) as (F & S & C). unfold p'. cbn [foldl].
  rewrite IH; [|done|done|by rewrite S]. rewrite filter_cons, C. destruct (decide (svc_ID svc = id)) as [<-|Hne]; [|done].
  assert (filter (fun s => svc_ID s = svc_ID svc) svcs = []) as ->; [|done].
  apply filter_none. intros s Hin E. apply Hnew. rewrite <- E. by apply list_elem_of_fmap_2.
Qed.

Lemma ListServices_elem svc db :
  svc ∈ ListServices "" db <-> exists r, db_services db !! svc_ID svc = Some r /\ svc = scanService (svc_ID svc) r.
Proof.
  unfold ListServices. rewrite list_elem_of_fmap. split.
  - intros ([k r] & -> & Hin). rewrite slice_stable_elem, list_elem_of_filter in Hin.
    destruct Hin as [_ Hin%elem_of_map_to_list]. exists r. done.
  - intros (r & Hr & ->). exists (svc_ID svc, r). split; [done|].
    rewrite slice_stable_elem, list_elem_of_filter. split; [by left|]. by apply elem_of_map_to_list.
Qed.

Lemma ListServices_NoDup db : NoDup (svc_ID <$> ListServices "" db).
Proof.
  unfold ListServices. rewrite <- list_fmap_compose, slice_stable_perm.
  eapply sublist_NoDup; [|apply fmap_sublist, sublist_filter]. apply NoDup_fst_map_to_list.
Qed.
End DesiredCount.

(** Desired counts.  With fresh identifiers, the desired-count phase brings
    every declared service to at least its desired number of instances that
    are not terminated, and creates no more than that needs. *)
Theorem desired_count_met fk uuid now p id r :
  Inj (=) (=) uuid -> fresh_ids uuid p -> db_services (p_db p) !! id = Some r ->
  live_count id (p_db (reconcileDesiredCount fk uuid now p)) =
  Z.max (live_count id (p_db p)) (sr_desired r).
Proof.
  intros Hinj Hf Hr. unfold reconcileDesiredCount.
  rewrite (fill_services_spec fk uuid now Hinj); [|done|apply ListServices_NoDup|].
  2: { apply Forall_forall. intros svc (r' & Hr' & _)%ListServices_elem. by rewrite Hr'. }
  assert (scanService id r ∈ ListServices "" (p_db p)) as Hin by (apply ListServices_elem; by exists r).
  destruct (filter _ _) as [|svc rest] eqn:E.
  - apply (proj1 (filter_none _ _)) with (x := scanService id r) in E; [|done]. by destruct E.
  - assert (svc ∈ filter (fun svc => svc_ID svc = id) (ListServices "" (p_db p))) as Hsvc
      by (rewrite E; apply elem_of_cons; by left).
    apply list_elem_of_filter in Hsvc as [<- Hsvc]. apply ListServices_elem in Hsvc as (r' & Hr' & ->).
    cbn [svc_ID scanService] in *. simplify_eq. done.
Qed.

(** ** Silent nodes *)

Section Heartbeats.
Context (nodeTTL now : Z).

Definition silent (n : Node) : bool :=
  match n_LastHeartbeat n with Some t => nodeTTL <? since now t | None => false end.

Lemma expire_node_nodes n p row :
  db_nodes (p_db p) !! n_ID n = Some row -> n_State row = NodeReady ->
  db_nodes (p_db (expire_node nodeTTL now n p)) =
  if silent n then <[n_ID n := row {{ n_State := NodeDegraded }} {{ n_UpdatedAt := unix now }}]> (db_nodes (p_db p))
  else db_nodes (p_db p).
Proof.
  intros Hrow Hst. unfold expire_node, silent. destruct (n_LastHeartbeat n) as [t|]; [|done].
  rewrite Z.leb_antisym. destruct (nodeTTL <? since now t); [|done]. cbn [negb].
  unfold UpdateNodeState, GetNode. rewrite Hrow.
  change (n_State (row {{ n_GPUDevices := loadGPUDevices (n_ID n) (p_db p) }})) with (n_State row).
  rewrite Hst. cbn [ValidateNodeTransition]. rewrite decide_True by done. done.
Qed.

Lemma expire_nodes (ns : list Node) p :
  NoDup (n_ID <$> ns) ->
  (forall n, n ∈ ns -> exists row, db_nodes (p_db p) !! n_ID n = Some row /\ n_State row = NodeReady) ->
  forall id row, db_nodes (p_db p) !! id = Some row ->
    db_nodes (p_db (foldl (fun p n => expire_node nodeTTL now n p) p ns)) !! id =
    Some (match filter (fun n => n_ID n = id) ns with
          | n :: _ => if silent n then row {{ n_State := NodeDegraded }} {{ n_UpdatedAt := unix now }} else row
          | [] => row
          end).
Proof.
  revert p. induction ns as [|n ns IH]; intros p Hnd Hready id row Hrow; [done|].
  rewrite fmap_cons in Hnd. apply NoDup_cons in Hnd as [Hnew Hnd]. cbn [foldl].
  destruct (Hready n) as (rn & Hrn & Hst); [apply elem_of_cons; by left|].
  pose proof (expire_node_nodes n p rn Hrn Hst) as En.
  assert (forall k, k <> n_ID n -> db_nodes (p_db (expire_node nodeTTL now n p)) !! k = db_nodes (p_db p) !! k) as Hother.
  { intros k Hk. rewrite En. destruct (silent n); [by rewrite lookup_insert_ne|done]. }
  assert (forall m, m ∈ ns -> n_ID m <> n_ID n) as Hdiff.
  { intros m Hm E. apply Hnew. rewrite <- E. by apply list_elem_of_fmap_2. }
  rewrite filter_cons. destruct (decide (n_ID n = id)) as [<-|Hne].
  - rewrite Hrn in Hrow. injection Hrow as <-.
    rewrite (IH _ Hnd) with (row := if silent n then rn {{ n_State := NodeDegraded }} {{ n_UpdatedAt := unix now }} else rn).
    + assert (filter (fun m => n_ID m = n_ID n) ns = []) as ->; [|done]. apply filter_none. exact Hdiff.
    + intros m Hm. destruct (Hready m) as (rm & Hrm & Hm'); [apply elem_of_cons; by right|].
      exists rm. rewrite Hother by (by apply Hdiff). done.
    + rewrite En. destruct (silent n); [by rewrite lookup_insert_eq|done].
  - apply IH; [done| |by rewrite Hother].
    intros m Hm. destruct (Hready m) as (rm & Hrm & Hm'); [apply elem_of_cons; by right|].
    exists rm. rewrite Hother by (by apply Hdiff). done.
Qed.
End Heartbeats.

(** Silent nodes.  The heartbeat phase degrades exactly the ready nodes whose
    last heartbeat is older than the TTL; a node that has never sent one, and
    a node in any other state, keeps its row. *)
Theorem silent_nodes_degraded nodeTTL now p id row :
  node_rows (p_db p) -> db_nodes (p_db p) !! id = Some row ->
  db_nodes (p_db (reconcileNodeHeartbeats nodeTTL now p)) !! id =
  Some (if bool_decide (n_State row = NodeReady) && silent nodeTTL now row
        then row {{ n_State := NodeDegraded }} {{ n_UpdatedAt := unix now }} else row).
Proof.
  intros Hrows Hrow. unfold reconcileNodeHeartbeats. rewrite ListNodes_eq by done.
  assert (forall n, n_ID (with_devices (p_db p) n) = n_ID n) as Eid by done.
  rewrite (expire_nodes nodeTTL now) with (row := row); [| | |done].
  - destruct (Hrows _ _ Hrow) as [Hid _]. f_equal.
    destruct (filter _ _) as [|n rest] eqn:E.
    + case_bool_decide as Hr; [|done]. exfalso.
      apply (proj1 (filter_none _ _)) with (x := with_devices (p_db p) row) in E.
      * by destruct E.
      * apply list_elem_of_fmap_2, nodes_by_name_elem; [done|]. rewrite Hid. split; [done|]. by intros s [= <-].
    + assert (n ∈ filter (fun n => n_ID n = id) (with_devices (p_db p) <$> nodes_by_name (Some NodeReady) (p_db p))) as Hn
        by (rewrite E; apply elem_of_cons; by left).
      apply list_elem_of_filter in Hn as [En Hn]. apply list_elem_of_fmap in Hn as (m & -> & Hm).
      apply nodes_by_name_elem in Hm as [Hm Hst]; [|done]. rewrite Eid in En. rewrite En, Hrow in Hm.
      injection Hm as <-. rewrite bool_decide_eq_true_2 by (by apply Hst). done.
  - rewrite <- list_fmap_compose. rewrite (list_fmap_ext _ n_ID) by done. by apply nodes_by_name_NoDup.
  - intros n (m & -> & Hm)%list_elem_of_fmap. apply nodes_by_name_elem in Hm as [Hm Hst]; [|done].
    exists m. rewrite Eid. split; [done|]. by apply Hst.
Qed.

(** ** Failed and exited instances *)

(** Instances, allocations, nodes and devices are as before. *)
Definition quiet (p p' : Pass) : Prop :=
  db_instances (p_db p') = db_instances (p_db p) /\ db_allocs (p_db p') = db_allocs (p_db p) /\
  db_nodes (p_db p') = db_nodes (p_db p) /\ db_caps (p_db p') = db_caps (p_db p) /\
  db_services (p_db p') = db_services (p_db p).

Lemma quiet_trans p1 p2 p3 : quiet p1 p2 -> quiet p2 p3 -> quiet p1 p3.
Proof. unfold quiet. intuition congruence. Qed.

Lemma quiet_op op now p p' :
  instance_op op = false -> resource_op op = false -> service_op op = false ->
  p_db p' = exec true (fun k => k) op (unix now) (p_db p) (p_db p) -> quiet p p'.
Proof.
  intros Hi Hr Hs E. unfold quiet. rewrite E, instance_frame by done.
  destruct (resource_frame true (fun k => k) (unix now) (p_db p) op (p_db p) Hr) as (-> & -> & ->).
  destruct (service_frame true (fun k => k) (unix now) (p_db p) op (p_db p) Hs) as (-> & _). done.
Qed.

Lemma quiet_audit now a t i ok p : quiet p (audit now a t i ok p).
Proof. by apply (quiet_op (OWriteAuditLog a t i ok) now). Qed.
Lemma quiet_set_volume now id to p : quiet p (set_volume now id to p).
Proof. by apply (quiet_op (OUpdateVolumeState id to) now). Qed.
Lemma quiet_set_mount now id to p : quiet p (set_mount now id to p).
Proof. by apply (quiet_op (OUpdateMountState id to) now). Qed.

Lemma teardown_frame classDrivers now id p : quiet p (teardownMounts classDrivers now id p).
Proof.
  unfold teardownMounts. generalize (ListMountsByInstance id (p_db p)) as l. intros l. revert p.
  induction l as [|m l IH]; intros p; [done|]. cbn [foldl]. eapply quiet_trans; [|apply IH].
  unfold teardown_mount. destruct (bool_decide _); [done|]. cbv zeta.
  eapply quiet_trans; [apply (quiet_set_mount now (m_ID m) MountReleased)|].
  destruct (GetVolume _ _) as [vol|]; [|done]. eapply quiet_trans; [|apply quiet_audit].
  destruct (classDrivers !! _); (destruct (decide (v_State vol = VolumeBound)); [|done]);
    (destruct (ListActiveMountsByVolume _ _); [|done]).
  - eapply quiet_trans; [|apply quiet_set_volume]. done.
  - apply quiet_set_volume.
Qed.

Lemma release_no_active id now db : AllocInv db -> active_alloc id (ReleaseAllocation id now db) = None.
Proof.
  intros HI. unfold ReleaseAllocation. destruct (active_alloc id db) as [a|] eqn:Ea; [|done].
  apply active_alloc_inv in Ea as (Ha & Hid & Hact).
  assert (forall d, db_allocs d = release a now (db_allocs db) -> active_alloc id d = None) as Hmk.
  2: { destruct (al_GPUDeviceIndex a); by apply Hmk. }
  intros d Ed. unfold active_alloc. rewrite Ed.
  assert (filter (fun b => al_InstanceID b = id /\ al_ReleasedAt b = None) (release a now (db_allocs db)) = []) as ->; [|done].
  apply filter_none. intros b' Hb' [Hi Hr]. apply list_elem_of_fmap in Hb' as (b & -> & Hb).
  destruct (Z.eqb_spec (al_ID b) (al_ID a)) as [E|E]; [by destruct b|]. apply E. f_equal.
  apply list_elem_of_lookup in Ha as [i Hi1]. apply list_elem_of_lookup in Hb as [j Hj].
  assert (i = j) as <-; [|congruence].
  apply (NoDup_lookup (al_InstanceID <$> db_allocs db) i j id); [apply (ai_inst db HI)| |];
    rewrite list_lookup_fmap; [by rewrite Hi1; simpl; f_equal|by rewrite Hj; simpl; f_equal].
Qed.

Lemma set_instance_ok now id to p row :
  db_instances (p_db p) !! id = Some row -> ValidateInstanceTransition (ir_state row) to = true ->
  db_instances (p_db (set_instance now id to p)) =
    <[id := row {{ ir_state := to }} {{ ir_updated := unix now }}]> (db_instances (p_db p)) /\
  db_allocs (p_db (set_instance now id to p)) = db_allocs (p_db p).
Proof.
  intros Hrow Hval.
  change (p_db (set_instance now id to p)) with (commit (p_db p) (UpdateInstanceState id to (unix now) (p_db p) (p_db p))).
  unfold UpdateInstanceState, GetInstance. rewrite Hrow. change (i_State (scanInstance id row)) with (ir_state row). rewrite Hval.
  rewrite decide_True by done. done.
Qed.

Lemma set_instance_refused now id to p row :
  db_instances (p_db p) !! id = Some row -> ValidateInstanceTransition (ir_state row) to = false ->
  p_db (set_instance now id to p) = p_db p.
Proof.
  intros Hrow Hval.
  change (p_db (set_instance now id to p)) with (commit (p_db p) (UpdateInstanceState id to (unix now) (p_db p) (p_db p))).
  unfold UpdateInstanceState, GetInstance. rewrite Hrow. change (i_State (scanInstance id row)) with (ir_state row). by rewrite Hval.
Qed.

Lemma destroy_frame adapters now inst p : quiet p (destroyInstance adapters now inst p).
Proof.
  unfold destroyInstance. destruct (decide _); [done|]. destruct (adapter_of _ _ _) as [[ad h]|]; [|done].
  cbv zeta. destruct (ad_Destroy _ _ _); [done|]. eapply quiet_trans; [|apply quiet_audit]. done.
Qed.

Definition restarts (policy : RestartPolicy) : bool :=
  String.eqb (rp_Policy policy) "on-failure" || String.eqb (rp_Policy policy) "always".
Definition exhausted (policy : RestartPolicy) (retries : Z) : bool :=
  (0 <? rp_MaximumAttempts policy) && (rp_MaximumAttempts policy <=? retries).

(** What becomes of one failed instance. *)
Lemma failed_instance_policy adapters classDrivers now p id row svc :
  AllocInv (p_db p) -> db_instances (p_db p) !! id = Some row -> ir_state row = InstanceFailed ->
  db_services (p_db p) !! ir_service row = Some svc ->
  let policy := ss_Restart (sm_Spec (sr_manifest svc)) in
  let p' := handleFailedInstance adapters classDrivers now (scanInstance id row) p in
  if negb (restarts policy) || exhausted policy (ir_retry row) then
    db_instances (p_db p') = <[id := row {{ ir_state := InstanceTerminated }} {{ ir_updated := unix now }}]> (db_instances (p_db p)) /\
    db_allocs (p_db p') = db_allocs (p_db p)
  else if since now (ir_updated row) <? retry_delay (ir_retry row) then p' = p
  else
    db_instances (p_db p') !! id =
      Some (row {{ ir_retry ::= Z.add 1 }} {{ ir_state := InstanceDeclared }} {{ ir_updated := unix now }}) /\
    active_alloc id (p_db p') = None.
Proof.
  intros HI Hrow Hst Hsvc policy p'. unfold p', handleFailedInstance.
  change (i_ServiceID (scanInstance id row)) with (ir_service row). unfold GetService. rewrite Hsvc. cbv zeta.
  change (ss_Restart (sm_Spec (svc_Manifest (scanService (ir_service row) svc)))) with policy.
  fold (restarts policy). change (i_RetryCount (scanInstance id row)) with (ir_retry row).
  fold (exhausted policy (ir_retry row)). change (i_ID (scanInstance id row)) with id.
  change (i_UpdatedAt (scanInstance id row)) with (ir_updated row).
  assert (forall action ok,
    let q := audit now action "instance" id ok (set_instance now id InstanceTerminated (destroyInstance adapters now (scanInstance id row) p)) in
    db_instances (p_db q) = <[id := row {{ ir_state := InstanceTerminated }} {{ ir_updated := unix now }}]> (db_instances (p_db p)) /\
    db_allocs (p_db q) = db_allocs (p_db p)) as Hterm.
  { intros action ok q. destruct (destroy_frame adapters now (scanInstance id row) p) as (Ei & Ea & _).
    set (p1 := destroyInstance _ _ _ _) in *.
    destruct (set_instance_ok now id InstanceTerminated p1 row) as [E1 E2]; [by rewrite Ei|by rewrite Hst|].
    destruct (quiet_audit now action "instance" id ok (set_instance now id InstanceTerminated p1)) as (E3 & E4 & _).
    unfold q. rewrite E3, E4, E1, E2, Ei, Ea. done. }
  destruct (negb (restarts policy)); [apply Hterm|]. cbn [orb].
  destruct (exhausted policy (ir_retry row)); [apply Hterm|]. clear Hterm.
  destruct (_ <? _); [done|].
  set (p1 := teardownMounts _ _ _ _). destruct (teardown_frame classDrivers now id p) as (Ei & Ea & En & Ec & _).
  fold p1 in Ei, Ea, En, Ec. clearbody p1.
  assert (AllocInv (p_db p1)) as HI1 by (destruct HI; constructor; rewrite ?Ea, ?En, ?Ec; done).
  pose proof (release_no_active id (unix now) (p_db p1) HI1) as Hnone. split.
  - change (db_instances (p_db (audit _ _ _ _ _ _)))
      with (alter (fun r => r {{ ir_retry ::= Z.add 1 }} {{ ir_state := InstanceDeclared }} {{ ir_updated := unix now }}) id
              (db_instances (ReleaseAllocation id (unix now) (p_db p1)))).
    rewrite lookup_alter_eq. pose proof (instance_frame true (fun k => k) (unix now) (p_db p1) (OReleaseAllocation id) (p_db p1) eq_refl) as Ef.
    cbn [exec] in Ef. by rewrite Ef, Ei, Hrow.
  - unfold active_alloc in *. exact Hnone.
Qed.

Lemma release_other id k now db :
  AllocInv db -> k <> id -> active_alloc k (ReleaseAllocation id now db) = active_alloc k db.
Proof.
  intros HI Hk. unfold ReleaseAllocation. destruct (active_alloc id db) as [a|] eqn:Ea; [|done].
  apply active_alloc_inv in Ea as (Ha & Hid & Hact).
  assert (forall d, db_allocs d = release a now (db_allocs db) -> active_alloc k d = active_alloc k db) as Hmk.
  2: { destruct (al_GPUDeviceIndex a); by apply Hmk. }
  intros d Ed. unfold active_alloc. rewrite Ed. f_equal.
  assert (NoDup (al_ID <$> db_allocs db)) as Hnd by (rewrite (ai_ids db HI); apply NoDup_seqZ).
  assert (Forall (fun b => al_ID b = al_ID a -> al_InstanceID b = id) (db_allocs db)) as Hall.
  { apply Forall_forall. intros b Hb E. assert (b = a) as ->; [|done].
    apply list_elem_of_lookup in Ha as [i Hi1]. apply list_elem_of_lookup in Hb as [j Hj].
    assert (i = j) as <-; [|congruence]. apply (NoDup_lookup (al_ID <$> db_allocs db) i j (al_ID a) Hnd);
      rewrite list_lookup_fmap; [by rewrite Hi1|rewrite Hj; cbn; by f_equal]. }
  clear -Hall Hk. induction Hall as [|b l Hb _ IH]; [done|]. rewrite release_cons, !filter_cons, IH.
  destruct (Z.eqb_spec (al_ID b) (al_ID a)) as [E|E]; [|done].
  apply Hb in E. rewrite !decide_False; [done| |]; destruct b; cbn in *; intros [? ?]; congruence.
Qed.

(** The other instances, and the services, are as before. *)
Lemma failed_instance_frame adapters classDrivers now p id row :
  requests_valid (p_db p) -> AllocInv (p_db p) -> db_instances (p_db p) !! id = Some row -> ir_state row = InstanceFailed ->
  let p' := handleFailedInstance adapters classDrivers now (scanInstance id row) p in
  requests_valid (p_db p') /\ AllocInv (p_db p') /\ db_services (p_db p') = db_services (p_db p) /\
  forall k, k <> id -> db_instances (p_db p') !! k = db_instances (p_db p) !! k /\
                       active_alloc k (p_db p') = active_alloc k (p_db p).
Proof.
  intros Hv HI Hrow Hst p'.
  pose proof (adv_handleFailedInstance true (fun k => k) now adapters classDrivers (scanInstance id row) p Hv) as Hadv. fold p' in Hadv.
  split; [by eapply requests_kept|]. split.
  { destruct Hadv as (ops & Hops & ->). apply AllocInv_exec_all; [|done]. eapply Forall_impl; [exact Hops|]. apply reconciler_op_accounted. }
  split; [by eapply services_kept|]. clear Hadv. intros k Hk. unfold p', handleFailedInstance.
  destruct (GetService _ _) as [svc|]; [|done]. cbv zeta. change (i_ID (scanInstance id row)) with id.
  assert (forall action ok,
    let q := audit now action "instance" id ok (set_instance now id InstanceTerminated (destroyInstance adapters now (scanInstance id row) p)) in
    db_instances (p_db q) !! k = db_instances (p_db p) !! k /\ active_alloc k (p_db q) = active_alloc k (p_db p)) as Hterm.
  { intros action ok q. destruct (destroy_frame adapters now (scanInstance id row) p) as (Ei & Ea & _).
    set (p1 := destroyInstance _ _ _ _) in *.
    destruct (set_instance_ok now id InstanceTerminated p1 row) as [E1 E2]; [by rewrite Ei|by rewrite Hst|].
    destruct (quiet_audit now action "instance" id ok (set_instance now id InstanceTerminated p1)) as (E3 & E4 & _).
    unfold q, active_alloc. rewrite E3, E4, E1, E2, Ei, Ea. by rewrite lookup_insert_ne. }
  destruct (negb _); [apply Hterm|]. destruct (_ && _); [apply Hterm|]. clear Hterm. destruct (_ <? _); [done|].
  set (p1 := teardownMounts _ _ _ _). destruct (teardown_frame classDrivers now id p) as (Ei & Ea & En & Ec & _).
  fold p1 in Ei, Ea, En, Ec. clearbody p1.
  assert (AllocInv (p_db p1)) as HI1 by (destruct HI; constructor; rewrite ?Ea, ?En, ?Ec; done).
  pose proof (release_other id k (unix now) (p_db p1) HI1 Hk) as Hact. split.
  - change (db_instances (p_db (audit _ _ _ _ _ _)))
      with (alter (fun r => r {{ ir_retry ::= Z.add 1 }} {{ ir_state := InstanceDeclared }} {{ ir_updated := unix now }}) id
              (db_instances (ReleaseAllocation id (unix now) (p_db p1)))).
    rewrite lookup_alter_ne by done. pose proof (instance_frame true (fun k => k) (unix now) (p_db p1) (OReleaseAllocation id) (p_db p1) eq_refl) as Ef.
    cbn [exec] in Ef. by rewrite Ef, Ei.
  - change (active_alloc k (p_db (audit _ _ _ _ _ _))) with (active_alloc k (ReleaseAllocation id (unix now) (p_db p1))).
    rewrite Hact. unfold active_alloc. by rewrite Ea.
Qed.

(** One instance and its service when a phase begins, and what the phase leaves of it. *)
Definition settled_failure (now : Z) (p p' : Pass) (id : string) (row : InstanceRow) (svc : ServiceRow) : Prop :=
  let policy := ss_Restart (sm_Spec (sr_manifest svc)) in
  if negb (restarts policy) || exhausted policy (ir_retry row) then
    db_instances (p_db p') !! id = Some (row {{ ir_state := InstanceTerminated }} {{ ir_updated := unix now }}) /\
    active_alloc id (p_db p') = active_alloc id (p_db p)
  else if since now (ir_updated row) <? retry_delay (ir_retry row) then
    db_instances (p_db p') !! id = Some row /\ active_alloc id (p_db p') = active_alloc id (p_db p)
  else
    db_instances (p_db p') !! id =
      Some (row {{ ir_retry ::= Z.add 1 }} {{ ir_state := InstanceDeclared }} {{ ir_updated := unix now }}) /\
    active_alloc id (p_db p') = None.

Lemma one_failure_settled adapters classDrivers now p id row svc :
  AllocInv (p_db p) -> db_instances (p_db p) !! id = Some row -> ir_state row = InstanceFailed ->
  db_services (p_db p) !! ir_service row = Some svc ->
  settled_failure now p (handleFailedInstance adapters classDrivers now (scanInstance id row) p) id row svc.
Proof.
  intros HI Hrow Hst Hsvc. pose proof (failed_instance_policy adapters classDrivers now p id row svc HI Hrow Hst Hsvc) as H.
  unfold settled_failure. cbn zeta in H |- *. destruct (_ || _).
  - destruct H as [E1 E2]. unfold active_alloc. by rewrite E1, E2, lookup_insert_eq.
  - destruct (_ <? _); [by rewrite H|done].
Qed.

Lemma phase_fold adapters classDrivers now (l : list (string * InstanceRow)) p :
  NoDup l.*1 -> requests_valid (p_db p) -> AllocInv (p_db p) ->
  (forall k row, (k, row) ∈ l -> db_instances (p_db p) !! k = Some row /\ ir_state row = InstanceFailed) ->
  let p' := foldl (fun p kv => handleFailedInstance adapters classDrivers now (scanInstance kv.1 kv.2) p) p l in
  (forall k, k ∉ l.*1 -> db_instances (p_db p') !! k = db_instances (p_db p) !! k /\
                         active_alloc k (p_db p') = active_alloc k (p_db p)) /\
  (forall k row svc, (k, row) ∈ l -> db_services (p_db p) !! ir_service row = Some svc -> settled_failure now p p' k row svc).
Proof.
  revert p. induction l as [|[i r] l IH]; intros p Hnd Hv HI Hl; cbn [foldl fst snd].
  { split; [done|]. intros k row svc H. by apply not_elem_of_nil in H. }
  cbn [fmap list_fmap] in Hnd. apply NoDup_cons in Hnd as [Hi Hnd].
  destruct (Hl i r) as [Hr Hst]; [apply elem_of_cons; by left|].
  destruct (failed_instance_frame adapters classDrivers now p i r Hv HI Hr Hst) as (Hv1 & HI1 & Es & Hother).
  pose proof (fun svc => one_failure_settled adapters classDrivers now p i r svc HI Hr Hst) as Hone.
  set (p1 := handleFailedInstance _ _ _ _ p) in *. clearbody p1.
  assert (forall k row, (k, row) ∈ l -> k <> i) as Hne.
  { intros k row Hk ->. apply Hi. apply list_elem_of_fmap. by exists (i, row). }
  destruct (IH p1 Hnd Hv1 HI1) as [H1 H2].
  { intros k row Hk. destruct (Hl k row) as [? ?]; [apply elem_of_cons; by right|].
    destruct (Hother k (Hne k row Hk)) as [E _]. by rewrite E. }
  split.
  - intros k Hk. cbn [fmap list_fmap] in Hk. apply not_elem_of_cons in Hk as [Hki Hk].
    destruct (H1 k Hk) as [-> ->]. by apply Hother.
  - intros k row svc [[= -> ->]|Hk]%elem_of_cons Hsvc.
    + specialize (Hone svc Hsvc). destruct (H1 i Hi) as [E1 E2]. unfold settled_failure in *. by rewrite E1, E2.
    + specialize (H2 k row svc Hk ltac:(by rewrite Es)). destruct (Hother k (Hne k row Hk)) as [_ E2].
      unfold settled_failure in *. by rewrite E2 in H2.
Qed.

(** [C16] Failed instances.  Take a database whose accounts balance and whose services ask
    for no negative resources, and let no other writer come between the reads and the
    writes of the phase.  The phase of a pass for failed instances, whatever the adapters and the drivers
    answer, leaves every instance in another state, and its allocation, as it was.  A
    failed instance of a known service is terminated when the restart policy is neither
    on-failure nor always, or sets a positive maximum of attempts that the instance has
    used up, and an allocation that it still has stays active then; otherwise it is left alone
    until the delay of two seconds, doubled for each retry up to six, has passed since its
    last change, and after that it is declared again, with one retry more and without
    an active allocation. *)
Theorem failed_instances_phase adapters classDrivers now p :
  requests_valid (p_db p) -> AllocInv (p_db p) ->
  let p' := monitor InstanceFailed (handleFailedInstance adapters classDrivers now) p in
  forall id row, db_instances (p_db p) !! id = Some row ->
  if decide (ir_state row = InstanceFailed) then
    forall svc, db_services (p_db p) !! ir_service row = Some svc ->
    let policy := ss_Restart (sm_Spec (sr_manifest svc)) in
    if negb (restarts policy) || exhausted policy (ir_retry row) then
      db_instances (p_db p') !! id = Some (row {{ ir_state := InstanceTerminated }} {{ ir_updated := unix now }}) /\
      active_alloc id (p_db p') = active_alloc id (p_db p)
    else if now - ir_updated row * Second <? 2 * Second * 2 ^ Z.max 0 (Z.min (ir_retry row) 6) then
      db_instances (p_db p') !! id = Some row /\ active_alloc id (p_db p') = active_alloc id (p_db p)
    else
      db_instances (p_db p') !! id =
        Some (row {{ ir_retry ::= Z.add 1 }} {{ ir_state := InstanceDeclared }} {{ ir_updated := unix now }}) /\
      active_alloc id (p_db p') = None
  else
    db_instances (p_db p') !! id = Some row /\ active_alloc id (p_db p') = active_alloc id (p_db p).
Proof.
  intros Hv HI p' id row Hrow.
  unfold p', monitor, ListInstances, select_instances.
  match goal with |- context [slice_stable ?lt (filter ?P (map_to_list ?m))] => set (l := slice_stable lt (filter P (map_to_list m))) end.
  assert (forall k r, (k, r) ∈ l <-> db_instances (p_db p) !! k = Some r /\ ir_state r = InstanceFailed) as Hl.
  { intros k r. unfold l. rewrite slice_stable_perm, list_elem_of_filter, elem_of_map_to_list. cbn [snd].
    rewrite bool_decide_eq_true. tauto. }
  assert (NoDup l.*1) as Hnd.
  { unfold l. rewrite slice_stable_perm. eapply sublist_NoDup; [|apply fmap_sublist, sublist_filter]. apply NoDup_fst_map_to_list. }
  clearbody l.
  assert (forall q, foldl (fun p inst => handleFailedInstance adapters classDrivers now inst p) q ((fun kv => scanInstance kv.1 kv.2) <$> l)
            = foldl (fun p kv => handleFailedInstance adapters classDrivers now (scanInstance kv.1 kv.2) p) q l) as ->.
  { clear. induction l as [|kv l IH]; intros q; [done|]. cbn. apply IH. }
  destruct (phase_fold adapters classDrivers now l p Hnd Hv HI) as [H1 H2]; [intros k r; apply Hl|].
  destruct (decide _) as [Hs|Hs].
  - intros svc Hsvc. assert ((id, row) ∈ l) as Hin by by apply Hl. exact (H2 id row svc Hin Hsvc).
  - rewrite <- Hrow. apply H1. intros ([k r] & Ek & Hin)%list_elem_of_fmap. cbn in Ek. subst k.
    apply Hl in Hin as [Hr Hf]. rewrite Hrow in Hr. injection Hr as <-. done.
Qed.

(** Exited processes.  When the adapter reports that the process of a running
    instance is gone, its mounts and its allocation are released, but the
    instance stays in state running: the state machine has no transition
    from running to failed, and the refused update is ignored. *)
Theorem exited_instance_stays_running adapters classDrivers now p id row ad handle :
  AllocInv (p_db p) -> db_instances (p_db p) !! id = Some row -> ir_state row = InstanceRunning ->
  adapter_of adapters (scanInstance id row) p = Some (ad, handle) ->
  ad_Inspect ad (p_calls p) handle <> Some true ->
  let p' := inspectInstance adapters classDrivers now (scanInstance id row) p in
  db_instances (p_db p') = db_instances (p_db p) /\ active_alloc id (p_db p') = None.
Proof.
  intros HI Hrow Hst Had Hins p'. unfold p', inspectInstance. rewrite Had. cbv zeta.
  set (p0 := called (CInspect handle) p).
  set (gone := audit now "instance_process_exited" "instance" (i_ID (scanInstance id row)) false _).
  assert (db_instances (p_db gone) = db_instances (p_db p) /\ active_alloc id (p_db gone) = None) as Hgone.
  2: { destruct (ad_Inspect ad (p_calls p) handle) as [[]|]; [done|exact Hgone..]. }
  unfold gone. change (i_ID (scanInstance id row)) with id.
  set (p1 := teardownMounts _ _ _ _). destruct (teardown_frame classDrivers now id p0) as (Ei & Ea & En & Ec & _).
  fold p1 in Ei, Ea, En, Ec. clearbody p1. change (p_db p0) with (p_db p) in *.
  assert (AllocInv (p_db p1)) as HI1 by (destruct HI; constructor; rewrite ?Ea, ?En, ?Ec; done).
  set (p2 := release_alloc now id p1).
  assert (db_instances (p_db p2) = db_instances (p_db p)) as E2.
  { rewrite <- Ei. exact (instance_frame true (fun k => k) (unix now) (p_db p1) (OReleaseAllocation id) (p_db p1) eq_refl). }
  pose proof (release_no_active id (unix now) (p_db p1) HI1) as Hnone.
  change (ReleaseAllocation id (unix now) (p_db p1)) with (p_db p2) in Hnone. clearbody p2.
  assert (p_db (set_instance now id InstanceFailed p2) = p_db p2) as E3.
  { apply (set_instance_refused _ _ _ _ row); [by rewrite E2|by rewrite Hst]. }
  destruct (quiet_audit now "instance_process_exited" "instance" id false (set_instance now id InstanceFailed p2)) as (E4 & E5 & _).
  split; [by rewrite E4, E3|]. unfold active_alloc in *. by rewrite E5, E3.
Qed.

(** ** A concrete run *)
Module DemoPass.
(** An adapter whose first start fails. *)
Definition started (calls : list Call) : bool :=
  existsb (fun c => match c with CStart _ => true | _ => false end) calls.
Definition docker : BackendAdapter :=
  mkAdapter "docker" (fun _ _ => Some ({["pid" := "1"]} : gmap string string)) (fun calls _ => started calls) (fun _ _ => true)
    (fun _ _ => Some true) (fun _ _ => Some true) (fun _ _ => true).
(** An adapter whose process is gone. *)
Definition gone : BackendAdapter :=
  mkAdapter "docker" (fun _ _ => Some ∅) (fun _ _ => true) (fun _ _ => true)
    (fun _ _ => Some false) (fun _ _ => Some true) (fun _ _ => true).
Definition adapters (ad : BackendAdapter) : gmap string BackendAdapter := {["docker" := ad]}.
Definition manifest : ServiceManifest :=
  mkManifest "virtualserver/v1" "Service" "ns" "web"
    (mkSpec (ArtifactURL "u") "docker" 1 (mkResReq 2 1024 (mkGPUReq false 0 0))
       (mkPlacement ∅ [] [] "" "") (mkRestart "always" 3) false ∅ []).
Definition node : Node :=
  mkNode "n1" "alpha" "docker" "amd64" "linux" "" 8 0 4096 4096 0 0 [] ∅ "" "" NodeReady None ∅ 0 0 0.
Definition db : VSDB :=
  exec true (fun k => k) (OCreateNode node "u") 2 empty_vsdb
    (exec true (fun k => k) (OCreateService manifest) 1 empty_vsdb empty_vsdb).
Definition uuid (k : nat) : string := dec (Z.of_nat k).
Definition pass (ad : BackendAdapter) (seconds : Z) (p : Pass) : Pass :=
  reconcile true (adapters ad) ∅ map_to_list DefaultWeights None (90 * Second) uuid (seconds * Second) p.
Definition p0 : Pass := mkPass db [] 0.
Definition p1 : Pass := pass docker 100 p0.
Definition p3 : Pass := pass docker 300 (pass docker 200 p1).
End DemoPass.
Import DemoPass.

Lemma demo_requests : requests_valid DemoPass.db.
Proof.
  assert (db_services DemoPass.db = {[ 1 := mkServiceRow "ns" "web" manifest 1 "declared" 1 1 ]}) as E by (vm_compute; reflexivity).
  intros id r. rewrite E. intros [_ <-]%lookup_singleton_Some. by vm_compute.
Qed.

Lemma demo_AllocInv : AllocInv DemoPass.db.
Proof.
  apply AllocInv_exec; [repeat constructor; cbn; lia|]. apply AllocInv_exec; [done|]. apply AllocInv_empty.
Qed.

Lemma demo_pass ad seconds p :
  requests_valid (p_db p) /\ AllocInv (p_db p) ->
  requests_valid (p_db (pass ad seconds p)) /\ AllocInv (p_db (pass ad seconds p)).
Proof.
  intros [Hv HI].
  pose proof (adv_reconcile true (fun k => k) (seconds * Second) (adapters ad) ∅ map_to_list DefaultWeights None
                (90 * Second) DemoPass.uuid p Hv) as Ha.
  fold (pass ad seconds p) in Ha. split; [by eapply requests_kept|]. destruct Ha as (ops & Hops & ->).
  apply AllocInv_exec_all; [|done]. eapply Forall_impl; [exact Hops|]. apply reconciler_op_accounted.
Qed.

Lemma reconcile_conserves_witness : AllocInv (p_db p1) /\ len (db_allocs (p_db p1)) = 1.
Proof.
  split; [|vm_compute; reflexivity].
  exact (proj1 (reconcile_conserves true (adapters docker) ∅ map_to_list DefaultWeights None (90 * Second)
                  DemoPass.uuid (100 * Second) p0 demo_requests demo_AllocInv)).
Defined.

Lemma desired_count_met_witness :
  live_count 1 (p_db (reconcileDesiredCount true DemoPass.uuid (100 * Second) p0)) = 1.
Proof.
  refine (desired_count_met true DemoPass.uuid (100 * Second) p0 1 (mkServiceRow "ns" "web" manifest 1 "declared" 1 1) _ _ _).
  - intros a b E. unfold DemoPass.uuid in E. apply dec_inj in E. lia.
  - intros k _. change (db_instances (p_db p0)) with (∅ : gmap string InstanceRow). apply lookup_empty.
  - vm_compute. reflexivity.
Defined.

Lemma silent_nodes_degraded_witness :
  let p := mkPass (exec true (fun k => k) (OHeartbeat "n1" 4096 8) 10 DemoPass.db DemoPass.db) [] 0 in
  (n_State <$> db_nodes (p_db (reconcileNodeHeartbeats (90 * Second) (101 * Second) p)) !! "n1") = Some NodeDegraded.
Proof.
  intros p. assert (node_rows (p_db p)) as Hrows.
  { apply node_rows_exec, node_rows_exec, node_rows_exec. intros id n H. cbn [db_nodes empty_vsdb] in H.
    by rewrite lookup_empty in H. }
  destruct (db_nodes (p_db p) !! "n1") as [row|] eqn:E; [|vm_compute in E; discriminate].
  rewrite (silent_nodes_degraded (90 * Second) (101 * Second) p "n1" row Hrows E).
  vm_compute in E. injection E as <-. reflexivity.
Defined.

(** After the first pass the start has failed; a hundred seconds later the phase retries. *)
Lemma failed_instances_phase_witness :
  exists row, db_instances (p_db p1) !! "0" = Some row /\ ir_state row = InstanceFailed /\
    let p' := monitor InstanceFailed (handleFailedInstance (adapters docker) ∅ (200 * Second)) p1 in
    active_alloc "0" (p_db p') = None /\ (ir_retry <$> db_instances (p_db p') !! "0") = Some 1.
Proof.
  destruct (db_instances (p_db p1) !! "0") as [row|] eqn:E; [|vm_compute in E; discriminate].
  exists row. split; [reflexivity|].
  assert (row = mkInstRow 1 1 (Some "n1") "vs://ns/web/0" InstanceFailed 0 {["pid" := "1"]} 100 100) as ->
    by (vm_compute in E; injection E as <-; vm_compute; reflexivity).
  split; [reflexivity|].
  assert (requests_valid (p_db p1) /\ AllocInv (p_db p1)) as [Hv HI]
    by (apply demo_pass; split; [apply demo_requests|apply demo_AllocInv]).
  destruct (failed_instances_phase (adapters docker) ∅ (200 * Second) p1 Hv HI "0" _ E
              (mkServiceRow "ns" "web" manifest 1 "declared" 1 1)) as [H1 H2]; [vm_compute; reflexivity|].
  split; [exact H2|]. by rewrite H1.
Defined.

Lemma exited_instance_stays_running_witness :
  exists row, db_instances (p_db p3) !! "0" = Some row /\ ir_state row = InstanceRunning /\
    db_instances (p_db (inspectInstance (adapters gone) ∅ (400 * Second) (scanInstance "0" row) p3)) = db_instances (p_db p3).
Proof.
  destruct (db_instances (p_db p3) !! "0") as [row|] eqn:E; [|vm_compute in E; discriminate].
  exists row. split; [reflexivity|].
  assert (row = mkInstRow 1 1 (Some "n1") "vs://ns/web/0" InstanceRunning 1 {["pid" := "1"]} 100 300) as ->
    by (vm_compute in E; injection E as <-; vm_compute; reflexivity).
  split; [reflexivity|].
  refine (proj1 (exited_instance_stays_running (adapters gone) ∅ (400 * Second) p3 "0" _ gone
            (mkHandle "docker" "0" {["pid" := "1"]}) _ E _ _ _)).
  - apply demo_pass, demo_pass, demo_pass. split; [apply demo_requests|apply demo_AllocInv].
  - reflexivity.
  - vm_compute. reflexivity.
  - discriminate.
Defined.

(** Retried instances run unreserved.  A concrete run of three passes: the
    first start of an instance fails, it is retried, and then, since no second
    allocation is possible, it is provisioned with no resources and runs
    without an allocation, while the failed scheduling is only logged. *)
Theorem retried_runs_unreserved :
  (ir_state <$> db_instances (p_db p3) !! "0") = Some InstanceRunning /\
  active_alloc "0" (p_db p3) = None /\
  (exists req, CProvision "docker" req ∈ p_calls p3 /\ pr_InstanceID req = "0" /\ pr_Allocation req = (0, 0, None)) /\
  existsb (fun a => String.eqb (au_action a) "schedule_failed") (db_audit (p_db p3)) = true.
Proof.
  split; [vm_compute; reflexivity|]. split; [vm_compute; reflexivity|]. split; [|vm_compute; reflexivity].
  exists (mkProvision "0" "n1" manifest (0, 0, None) []). split; [|done].
  apply list_elem_of_In. vm_compute. tauto.
Qed.
