(* ===== verification/VsApi.v ===== *)
(** * Virtual server: the HTTP API (virtualserver/api)

    Routing, authentication and the handlers over the store.  A request has its
    canonical path; the JSON decoder of each request type is a parameter
    ([None] for a body it rejects), the storage drivers are parameters, and
    [uuid] is the identifier a request draws.  Request ids, metrics and the
    body limit are left out; the texts of errors are left out, their status and
    code are kept. *)
From Stdlib Require Import Ascii String.
From S2P Require Import Prelude GoStr Bencode Server GoSort VsDomain VsStore VsStoreSpec.
Open Scope string_scope.
Open Scope list_scope.
Open Scope Z_scope.

(** ** Requests and responses *)

Inductive Method := GET | POST | PUT | DELETE | OtherMethod.

#[export] Instance Method_eq : EqDecision Method.
Proof. solve_decision. Defined.

Record Request := mkRequest {
  rq_method : Method;
  rq_path : string;
  rq_authorization : string;
  rq_query : string -> string;
  rq_body : string
}.

Record GPUDeviceDTO := mkGPUDTO { gd_Index : Z; gd_Vendor : string; gd_Model : string; gd_VRAMMiB : Z }.

Record RegisterNodeRequest := mkRegister {
  rn_Name : string;
  rn_BackendType : string;
  rn_Arch : string;
  rn_OS : string;
  rn_CPUThreads : Z;
  rn_TotalRAMMiB : Z;
  rn_Labels : gmap string string;
  rn_GPUDevices : list GPUDeviceDTO
}.

Record RestoreVolumeRequest := mkRestore { rv_SnapshotID : string; rv_Namespace : string; rv_Name : string }.

Record NodeResponse := mkNodeResp {
  nr_ID : string;
  nr_Name : string;
  nr_BackendType : string;
  nr_Arch : string;
  nr_OS : string;
  nr_CPUThreads : Z;
  nr_TotalRAMMiB : Z;
  nr_AvailRAMMiB : Z;
  nr_GPUDevices : list GPUDeviceDTO;
  nr_Labels : gmap string string;
  nr_State : NodeState
}.

Record ServiceResponse := mkSvcResp {
  sp_ID : Z; sp_Manifest : ServiceManifest; sp_DesiredCount : Z; sp_State : string
}.

Record InstanceResponse := mkInstResp {
  ip_ID : string;
  ip_ServiceID : Z;
  ip_NodeID : string;
  ip_VSPath : string;
  ip_State : InstanceState;
  ip_RetryCount : Z
}.

Record VolumeResponse := mkVolResp {
  vp_ID : string;
  vp_Manifest : VolumeManifest;
  vp_State : VolumeState;
  vp_BoundNodeID : string;
  vp_FailureReason : string;
  vp_CreatedAt : Z;
  vp_UpdatedAt : Z
}.

Inductive Payload :=
| NoBody
| ErrorBody (code : string)
| NamespaceBody (name : string)
| NamespacesBody (names : list string)
| NodeBody (n : NodeResponse)
| NodesBody (ns : list NodeResponse)
| ServiceBody (s : ServiceResponse)
| ServicesBody (ss : list ServiceResponse)
| InstanceBody (i : InstanceResponse)
| InstancesBody (insts : list InstanceResponse)
| VolumeBody (v : VolumeResponse)
| VolumesBody (vs : list VolumeResponse)
| MountsBody (ms : list VolumeMount)
| SnapshotBody (s : VolumeSnapshot)
| SnapshotsBody (ss : list VolumeSnapshot)
| OperationBody (o : Operation)
| OperationsBody (os : list Operation).

Record Response := mkResponse { rs_status : Z; rs_payload : Payload }.

Definition writeJSON (status : Z) (b : Payload) : Response := mkResponse status b.
Definition writeError (status : Z) (code : string) : Response := mkResponse status (ErrorBody code).

(** ** Mapping helpers *)

Definition gpuToDTO (g : GPUDevice) : GPUDeviceDTO := mkGPUDTO (g_Index g) (g_Vendor g) (g_Model g) (g_VRAMMiB g).

Definition nodeToResponse (n : Node) : NodeResponse :=
  mkNodeResp (n_ID n) (n_Name n) (n_BackendType n) (n_Arch n) (n_OS n) (n_CPUThreads n) (n_TotalRAMMiB n)
    (n_AvailRAMMiB n) (gpuToDTO <$> n_GPUDevices n) (n_Labels n) (n_State n).

Definition serviceToResponse (s : Service) : ServiceResponse :=
  mkSvcResp (svc_ID s) (svc_Manifest s) (svc_DesiredCount s) (svc_State s).

Definition instanceToResponse (i : ServiceInstance) : InstanceResponse :=
  mkInstResp (i_ID i) (i_ServiceID i) (i_NodeID i) (PathString (i_VSPath i)) (i_State i) (i_RetryCount i).

Definition volumeToResponse (v : Volume) : VolumeResponse :=
  mkVolResp (v_ID v) (v_Manifest v) (v_State v) (v_BoundNodeID v) (v_FailureReason v) (v_CreatedAt v) (v_UpdatedAt v).

(** ** Paths *)

(** [strings.Index] followed by the cut after the needle. *)
Fixpoint after (needle s : string) : option string :=
  if String.prefix needle s then Some (String.substring (String.length needle) (String.length s - String.length needle) s)
  else match s with "" => None | String _ s' => after needle s' end.

Definition pathSegment (path collection : string) : string :=
  match after ("/" ++ collection ++ "/") path with
  | None => ""
  | Some rest => (split_slash rest).1
  end.

Fixpoint segment_before (suffix prev : string) (parts : list string) : string :=
  match parts with
  | [] => ""
  | p :: parts => if String.eqb p suffix then prev else segment_before suffix p parts
  end.

(** The first segment is not looked at: nothing stands before it. *)
Definition pathSegmentBefore (path suffix : string) : string :=
  let trimmed := match path with String "/" rest => rest | _ => path end in
  let '(first, rest) := split_slash trimmed in
  segment_before suffix first rest.

Definition hasSuffix (path suffix : string) : bool :=
  let n := String.length path in
  let s := String.length suffix in
  (s <=? n)%nat && String.eqb (String.substring (n - s) s path) suffix.

(** The states as the texts of requests. *)
Definition nodeStateOf (s : string) : option NodeState :=
  match s with
  | "discovered" => Some NodeDiscovered | "ready" => Some NodeReady | "degraded" => Some NodeDegraded
  | "draining" => Some NodeDraining | "maintenance" => Some NodeMaintenance
  | "quarantined" => Some NodeQuarantined | "retired" => Some NodeRetired
  | _ => None
  end.

Definition instanceStateOf (s : string) : option InstanceState :=
  match s with
  | "declared" => Some InstanceDeclared | "scheduled" => Some InstanceScheduled
  | "provisioning" => Some InstanceProvisioning | "starting" => Some InstanceStarting
  | "running" => Some InstanceRunning | "degraded" => Some InstanceDegraded
  | "stopping" => Some InstanceStopping | "failed" => Some InstanceFailed
  | "terminated" => Some InstanceTerminated
  | _ => None
  end.

(** ** Handlers *)

(** What a driver does for the volume handlers. *)
Record SnapshotDriver := mkSnapDriver {
  sd_Snapshot : gmap string string -> string -> option string;
  sd_RestoreFrom : string -> string -> string -> VolumeSpec -> option (gmap string string)
}.

Section Handlers.
Context (fk : bool) (drivers : option (string -> option SnapshotDriver)).
Context (decodeNamespace : string -> option string) (decodeNode : string -> option RegisterNodeRequest).
Context (decodeState : string -> option string) (decodeService : string -> option ServiceManifest).
Context (decodeVolume : string -> option VolumeManifest) (decodeSnapshot : string -> option string).
Context (decodeRestore : string -> option RestoreVolumeRequest).
Context (uuid : string) (now : Z).

Definition Handler : Type := Request -> VSDB -> Response * VSDB.

Definition internal : Response := writeError 500 "INTERNAL".

(** [decodeJSON], then the rest of the handler. *)
Definition with_body {A} (decode : string -> option A) (k : A -> VSDB -> Response * VSDB) : Handler :=
  fun r db => match decode (rq_body r) with
              | None => (writeError 400 "INVALID_JSON", db)
              | Some a => k a db
              end.

Definition handle_CreateNamespace : Handler :=
  with_body decodeNamespace (fun name db =>
    if validateSegment name then
      match CreateNamespace name "" db with
      | Err ErrConflict => (writeError 409 "CONFLICT", db)
      | Err _ => (internal, db)
      | Ok (_, db) => (writeJSON 201 (NamespaceBody name), db)
      end
    else (writeError 400 "INVALID_NAME", db)).

Definition handle_ListNamespaces : Handler := fun r db => (writeJSON 200 (NamespacesBody (ListNamespaces db)), db).

Definition node_of_request (req : RegisterNodeRequest) : Node :=
  mkNode "" (rn_Name req) (rn_BackendType req) (rn_Arch req) (rn_OS req) "" (rn_CPUThreads req) 0
    (rn_TotalRAMMiB req) (rn_TotalRAMMiB req) 0 0
    ((fun g => mkGPU (gd_Index g) (gd_Vendor g) (gd_Model g) (gd_VRAMMiB g) false) <$> rn_GPUDevices req)
    (rn_Labels req) "" "" NodeDiscovered None ∅ 0 0 0.

Definition handle_RegisterNode : Handler :=
  with_body decodeNode (fun req db =>
    if String.eqb (rn_Name req) "" || String.eqb (rn_Arch req) "" then (writeError 400 "INVALID_REQUEST", db)
    else
      let n := node_of_request req in
      match CreateNode n uuid now db with
      | Err ErrConflict => (writeError 409 "CONFLICT", db)
      | Err _ => (internal, db)
      | Ok (id, db) => (writeJSON 201 (NodeBody (nodeToResponse (n {{ n_ID := id }}))), db)
      end).

Definition handle_ListNodes : Handler :=
  fun r db => (writeJSON 200 (NodesBody (nodeToResponse <$> ListNodes None db)), db).

(** A lookup by the segment after the collection. *)
Definition with_id (collection : string) (k : string -> Handler) : Handler :=
  fun r db => let id := pathSegment (rq_path r) collection in
              if String.eqb id "" then (writeError 400 "INVALID_REQUEST", db) else k id r db.

Definition not_found_or (e : StoreError) (other : Response) : Response :=
  match e with ErrNotFound => writeError 404 "NOT_FOUND" | _ => other end.

Definition handle_GetNode : Handler :=
  with_id "nodes" (fun id _ db =>
    match GetNode id db with
    | Err e => (not_found_or e internal, db)
    | Ok n => (writeJSON 200 (NodeBody (nodeToResponse n)), db)
    end).

(** A state that is not one of the constants is no target of a transition, but
    the node is looked up first. *)
Definition handle_UpdateNodeState : Handler :=
  fun r db =>
    let id := pathSegmentBefore (rq_path r) "state" in
    if String.eqb id "" then (writeError 400 "INVALID_REQUEST", db)
    else
      with_body decodeState (fun to db =>
        let res := match nodeStateOf to with
                   | Some to => UpdateNodeState id to now db db
                   | None => match GetNode id db with Err e => Err e | Ok _ => Err ErrTransition end
                   end in
        match res with
        | Err e => (not_found_or e (writeError 422 "INVALID_TRANSITION"), db)
        | Ok db =>
            match GetNode id db with
            | Ok n => (writeJSON 200 (NodeBody (nodeToResponse n)), db)
            | Err _ => (mkResponse 200 NoBody, db)
            end
        end) r db.

Definition handle_DeclareService : Handler :=
  with_body decodeService (fun m db =>
    match ManifestValidate m with
    | _ :: _ => (writeError 400 "INVALID_MANIFEST", db)
    | [] =>
        match CreateService m now db with
        | Err ErrConflict => (writeError 409 "CONFLICT", db)
        | Err _ => (internal, db)
        | Ok (id, db) =>
            match GetService id db with
            | Err _ => (writeJSON 201 NoBody, db)
            | Ok svc => (writeJSON 201 (ServiceBody (serviceToResponse svc)), db)
            end
        end
    end).

Definition handle_ListServices : Handler :=
  fun r db => (writeJSON 200 (ServicesBody (serviceToResponse <$> ListServices (rq_query r "namespace") db)), db).

Definition handle_GetService : Handler :=
  with_id "services" (fun idStr _ db =>
    match ParseInt idStr 64 with
    | None => (writeError 400 "INVALID_REQUEST", db)
    | Some id =>
        match GetService id db with
        | Err e => (not_found_or e internal, db)
        | Ok svc => (writeJSON 200 (ServiceBody (serviceToResponse svc)), db)
        end
    end).

Definition handle_DeleteService : Handler :=
  with_id "services" (fun idStr _ db =>
    match ParseInt idStr 64 with
    | None => (writeError 400 "INVALID_REQUEST", db)
    | Some id =>
        match DeleteService fk id db with
        | Err e => (not_found_or e (writeError 409 "CONFLICT"), db)
        | Ok db => (mkResponse 204 NoBody, db)
        end
    end).

Definition handle_ListInstances : Handler :=
  fun r db =>
    let state := rq_query r "state" in
    let insts := if String.eqb state "" then ListInstances None db
                 else match instanceStateOf state with Some s => ListInstances (Some s) db | None => [] end in
    (writeJSON 200 (InstancesBody (instanceToResponse <$> insts)), db).

Definition handle_GetInstance : Handler :=
  with_id "instances" (fun id _ db =>
    match GetInstance id db with
    | Err e => (not_found_or e internal, db)
    | Ok i => (writeJSON 200 (InstanceBody (instanceToResponse i)), db)
    end).

Definition handle_ListServiceInstances : Handler :=
  fun r db =>
    match ParseInt (pathSegmentBefore (rq_path r) "instances") 64 with
    | None => (writeError 400 "INVALID_REQUEST", db)
    | Some id => (writeJSON 200 (InstancesBody (instanceToResponse <$> ListInstancesByService id db)), db)
    end.

Definition handle_DeclareVolume : Handler :=
  with_body decodeVolume (fun m db =>
    match VolumeManifestValidate m with
    | _ :: _ => (writeError 400 "INVALID_MANIFEST", db)
    | [] =>
        let v := mkVolume uuid m VolumeDeclared "" ∅ "" 0 0 in
        match CreateVolume v (Some VolumeDeclared) now db with
        | Err ErrConflict => (writeError 409 "CONFLICT", db)
        | Err _ => (internal, db)
        | Ok (id, db) =>
            (writeJSON 201 (VolumeBody (volumeToResponse (v {{ v_ID := id }} {{ v_CreatedAt := now }} {{ v_UpdatedAt := now }}))), db)
        end
    end).

Definition handle_ListVolumes : Handler :=
  fun r db => (writeJSON 200 (VolumesBody (volumeToResponse <$> ListVolumes (rq_query r "namespace") db)), db).

Definition handle_GetVolume : Handler :=
  with_id "volumes" (fun id _ db =>
    match GetVolume id db with
    | Err e => (not_found_or e internal, db)
    | Ok v => (writeJSON 200 (VolumeBody (volumeToResponse v)), db)
    end).

Definition handle_DeleteVolume : Handler :=
  with_id "volumes" (fun id _ db =>
    match StartVolumeRelease id now db with
    | Err ErrConflict => (writeError 409 "CONFLICT", db)
    | Err e => (not_found_or e internal, db)
    | Ok db => (mkResponse 202 NoBody, db)
    end).

Definition handle_ListVolumeMounts : Handler :=
  with_id "volumes" (fun id _ db =>
    match GetVolume id db with
    | Err e => (not_found_or e internal, db)
    | Ok _ => (writeJSON 200 (MountsBody (ListActiveMountsByVolume id db)), db)
    end).

Definition handle_CreateSnapshot : Handler :=
  with_id "volumes" (fun id =>
    with_body decodeSnapshot (fun label db =>
      match GetVolume id db with
      | Err e => (not_found_or e internal, db)
      | Ok v =>
          if bool_decide (v_State v <> VolumeReady /\ v_State v <> VolumeBound)
          then (writeError 422 "INVALID_STATE", db)
          else
            match CreateSnapshot fk uuid id label now db with
            | Err _ => (internal, db)
            | Ok db =>
                let db :=
                  match drivers ≫= fun d => d (vs_Class (vm_Spec (v_Manifest v))) with
                  | None => db
                  | Some drv =>
                      match sd_Snapshot drv (v_DriverHandle v) label with
                      | Some ref => UpdateSnapshotState uuid SnapshotReady ref 0 now db
                      | None => UpdateSnapshotState uuid SnapshotFailed "" 0 now db
                      end
                  end in
                match GetSnapshot uuid db with
                | Ok s => (writeJSON 201 (SnapshotBody s), db)
                | Err _ => (writeJSON 201 NoBody, db)
                end
            end
      end)).

Definition handle_ListSnapshots : Handler :=
  with_id "volumes" (fun id _ db => (writeJSON 200 (SnapshotsBody (ListSnapshots id db)), db)).

Definition handle_GetOperation : Handler :=
  fun r db =>
    let id := pathSegment (rq_path r) "operations" in
    if String.eqb id "" then (writeError 400 "BAD_REQUEST", db)
    else match GetOperation id db with
         | Err e => (not_found_or e internal, db)
         | Ok op => (writeJSON 200 (OperationBody op), db)
         end.

Definition handle_ListInstanceOperations : Handler :=
  fun r db =>
    let id := pathSegmentBefore (rq_path r) "operations" in
    if String.eqb id "" then (writeError 400 "BAD_REQUEST", db)
    else (writeJSON 200 (OperationsBody (ListInstanceOperations id db)), db).

(** The new volume is created without an identifier of its own. *)
Definition handle_RestoreVolume : Handler :=
  fun r db =>
    match drivers with
    | None => (writeError 503 "NO_DRIVER", db)
    | Some driverForClass =>
        let sourceID := pathSegmentBefore (rq_path r) "restore" in
        if String.eqb sourceID "" then (writeError 400 "BAD_REQUEST", db)
        else
          with_body decodeRestore (fun req db =>
            if String.eqb (rv_SnapshotID req) "" || String.eqb (rv_Namespace req) "" || String.eqb (rv_Name req) ""
            then (writeError 400 "BAD_REQUEST", db)
            else
              match GetSnapshot (rv_SnapshotID req) db with
              | Err e => (not_found_or e internal, db)
              | Ok snap =>
                  if negb (bool_decide (sn_State snap = SnapshotReady)) then (writeError 409 "CONFLICT", db)
                  else
                    match GetVolume sourceID db with
                    | Err e => (not_found_or e internal, db)
                    | Ok src =>
                        let spec := vm_Spec (v_Manifest src) in
                        match driverForClass (vs_Class spec) with
                        | None => (writeError 422 "NO_DRIVER", db)
                        | Some drv =>
                            match sd_RestoreFrom drv (sn_DriverRef snap) (rv_Namespace req) (rv_Name req) spec with
                            | None => (writeError 500 "RESTORE_FAILED", db)
                            | Some handle =>
                                let manifest := (v_Manifest src) {{ vm_Namespace := rv_Namespace req }} {{ vm_Name := rv_Name req }} in
                                let v := mkVolume "" manifest VolumeReady (default "" (handle !! "nodeID")) handle "" 0 0 in
                                match CreateVolume v (Some VolumeReady) now db with
                                | Err _ => (internal, db)
                                | Ok (newID, db) =>
                                    match GetVolume newID db with
                                    | Err _ => (internal, db)
                                    | Ok created => (writeJSON 201 (VolumeBody (volumeToResponse created)), db)
                                    end
                                end
                            end
                        end
                    end
              end) r db
    end.

(** ** Routing *)

Definition method_not_allowed : Response := mkResponse 405 NoBody.

Definition by_method (get post : option Handler) : Handler :=
  fun r db => match rq_method r, get, post with
              | GET, Some h, _ => h r db
              | POST, _, Some h => h r db
              | _, _, _ => (method_not_allowed, db)
              end.

Definition only (m : Method) (h : Handler) : Handler :=
  fun r db => if decide (rq_method r = m) then h r db else (method_not_allowed, db).

Definition get_or_delete (get delete : Handler) : Handler :=
  fun r db => match rq_method r with GET => get r db | DELETE => delete r db | _ => (method_not_allowed, db) end.

(** [buildMux]: exact patterns, then the subtrees; a subtree without its final
    slash is redirected, and anything else is not found. *)
Definition buildMux : Handler :=
  fun r db =>
    let path := rq_path r in
    let under (prefix : string) := String.prefix prefix path in
    if String.eqb path "/v1/namespaces" then by_method (Some handle_ListNamespaces) (Some handle_CreateNamespace) r db
    else if String.eqb path "/v1/nodes" then by_method (Some handle_ListNodes) (Some handle_RegisterNode) r db
    else if String.eqb path "/v1/services" then by_method (Some handle_ListServices) (Some handle_DeclareService) r db
    else if String.eqb path "/v1/instances" then only GET handle_ListInstances r db
    else if String.eqb path "/v1/volumes" then by_method (Some handle_ListVolumes) (Some handle_DeclareVolume) r db
    else if String.eqb path "/v1/operations" then (mkResponse 301 NoBody, db)
    else if under "/v1/nodes/" then
      if hasSuffix path "/state" then only PUT handle_UpdateNodeState r db else only GET handle_GetNode r db
    else if under "/v1/services/" then
      if hasSuffix path "/instances" then only GET handle_ListServiceInstances r db
      else get_or_delete handle_GetService handle_DeleteService r db
    else if under "/v1/instances/" then
      if hasSuffix path "/operations" then only GET handle_ListInstanceOperations r db
      else only GET handle_GetInstance r db
    else if under "/v1/operations/" then only GET handle_GetOperation r db
    else if under "/v1/volumes/" then
      if hasSuffix path "/snapshots" then by_method (Some handle_ListSnapshots) (Some handle_CreateSnapshot) r db
      else if hasSuffix path "/mounts" then only GET handle_ListVolumeMounts r db
      else if hasSuffix path "/restore" then only POST handle_RestoreVolume r db
      else get_or_delete handle_GetVolume handle_DeleteVolume r db
    else (mkResponse 404 NoBody, db).

(** [authMiddleware]: the header must equal the expected bytes. *)
Definition authMiddleware (adminKey : string) (next : Handler) : Handler :=
  fun r db => if String.eqb (rq_authorization r) ("Bearer " ++ adminKey) then next r db
              else (writeError 401 "AUTH_REQUIRED", db).

(** The handler of [NewServerWithDrivers]; [None] when it panics. *)
Definition NewServer (adminKey : string) : option Handler :=
  if String.eqb adminKey "" then None
  else Some (fun r db => if String.eqb (rq_path r) "/healthz" then (mkResponse 200 NoBody, db)
                         else authMiddleware adminKey buildMux r db).
End Handlers.
