(* ===== verification/VsApiSpec.v ===== *)
(** * Virtual server: what the API guarantees

    Every request is authenticated, reads do not write, writes are store
    operations, a declared service can be fetched, and the status codes of
    conflicts and missing services. *)
From Stdlib Require Import Ascii String.
From S2P Require Import Prelude GoStr Bencode Server GoSort VsDomain VsStore VsStoreSpec VsApi.
Open Scope string_scope.
Open Scope list_scope.
Open Scope Z_scope.

#[local] Arguments String.append !_ _ / : simpl nomatch.

(** The store operations a request may use: nodes are registered free, services,
    namespaces and volumes are stored as validated; a restore stores the
    specification of an existing volume under a namespace and a name that it only checks not to be
    empty. *)
Definition api_op (r : Request) (db : VSDB) (op : StoreOp) : Prop :=
  match op with
  | OCreateNode n _ => exists req, n = node_of_request req
  | OCreateService m => ManifestValidate m = []
  | OCreateNamespace name _ => validateSegment name = true
  | OCreateVolume v (Some VolumeDeclared) => VolumeManifestValidate (v_Manifest v) = []
  | OCreateVolume v (Some VolumeReady) =>
      hasSuffix (rq_path r) "/restore" = true /\
      vm_Namespace (v_Manifest v) <> "" /\ vm_Name (v_Manifest v) <> "" /\
      exists id src, GetVolume id db = Ok src /\ vm_Spec (v_Manifest v) = vm_Spec (v_Manifest src)
  | OUpdateNodeState _ _ | ODeleteService _ | OStartVolumeRelease _
  | OCreateSnapshot _ _ _ | OUpdateSnapshotState _ _ _ _ => True
  | _ => False
  end.

Section Spec.
Context (fk : bool) (drivers : option (string -> option SnapshotDriver)).
Context (decodeNamespace : string -> option string) (decodeNode : string -> option RegisterNodeRequest).
Context (decodeState : string -> option string) (decodeService : string -> option ServiceManifest).
Context (decodeVolume : string -> option VolumeManifest) (decodeSnapshot : string -> option string).
Context (decodeRestore : string -> option RestoreVolumeRequest).
Context (uuid : string) (now : Z).


(** The database after a response comes by store operations of a request. *)
Definition served (r : Request) (db : VSDB) (res : Response * VSDB) : Prop :=
  exists ops, Forall (api_op r db) ops /\ res.2 = foldl (fun d op => exec fk (fun k => k) op now d d) db ops.

Lemma served_same r resp db : served r db (resp, db).
Proof. by exists []. Qed.

Lemma served_op r op resp db db' :
  api_op r db op -> db' = exec fk (fun k => k) op now db db -> served r db (resp, db').
Proof. intros Hop ->. exists [op]. split; [by repeat constructor|done]. Qed.

Lemma served_create_namespace r db : served r db (handle_CreateNamespace decodeNamespace r db).
Proof.
  unfold handle_CreateNamespace, with_body. destruct (decodeNamespace _) as [name|]; [|apply served_same].
  destruct (validateSegment name) eqn:Ev; [|apply served_same].
  destruct (CreateNamespace name "" db) as [[id db']|e] eqn:E; [|destruct e; apply served_same].
  apply (served_op r (OCreateNamespace name "")); [done|]. cbn [exec]. by rewrite E.
Qed.

Lemma served_register r db : served r db (handle_RegisterNode decodeNode uuid now r db).
Proof.
  unfold handle_RegisterNode, with_body. destruct (decodeNode _) as [req|]; [|apply served_same].
  destruct (_ || _); [apply served_same|]. cbv zeta.
  destruct (CreateNode _ _ _ _) as [[id db']|e] eqn:E; [|destruct e; apply served_same].
  apply (served_op r (OCreateNode (node_of_request req) uuid)); [by exists req|]. cbn [exec]. by rewrite E.
Qed.

Lemma served_node_state r db : served r db (handle_UpdateNodeState decodeState now r db).
Proof.
  unfold handle_UpdateNodeState, with_body. cbv zeta. set (id := pathSegmentBefore _ _).
  destruct (String.eqb id ""); [apply served_same|]. destruct (decodeState _) as [s|]; [|apply served_same].
  destruct (nodeStateOf s) as [to|].
  - destruct (UpdateNodeState id to now db db) as [db'|] eqn:E; [|apply served_same].
    assert (forall resp, served r db (resp, db')) as H.
    { intros resp. apply (served_op r (OUpdateNodeState id to)); [done|]. cbn [exec]. by rewrite E. }
    destruct (GetNode id db'); apply H.
  - destruct (GetNode id db); apply served_same.
Qed.

Lemma served_declare r db : served r db (handle_DeclareService decodeService now r db).
Proof.
  unfold handle_DeclareService, with_body. destruct (decodeService _) as [m|]; [|apply served_same].
  destruct (ManifestValidate m) eqn:Ev; [|apply served_same].
  destruct (CreateService m now db) as [[id db']|e] eqn:E; [|destruct e; apply served_same].
  assert (forall resp, served r db (resp, db')) as H.
  { intros resp. apply (served_op r (OCreateService m)); [done|]. cbn [exec]. by rewrite E. }
  destruct (GetService id db'); apply H.
Qed.

Lemma served_delete_service r db : served r db (handle_DeleteService fk r db).
Proof.
  unfold handle_DeleteService, with_id. cbv zeta. destruct (String.eqb _ ""); [apply served_same|].
  destruct (ParseInt _ _) as [id|]; [|apply served_same].
  destruct (DeleteService fk id db) as [db'|] eqn:E; [|apply served_same].
  apply (served_op r (ODeleteService id)); [done|]. cbn [exec]. by rewrite E.
Qed.

Lemma served_declare_volume r db : served r db (handle_DeclareVolume decodeVolume uuid now r db).
Proof.
  unfold handle_DeclareVolume, with_body. destruct (decodeVolume _) as [m|]; [|apply served_same].
  destruct (VolumeManifestValidate m) eqn:Ev; [|apply served_same]. cbv zeta. set (v := mkVolume uuid m _ _ _ _ _ _).
  destruct (CreateVolume v (Some VolumeDeclared) now db) as [[id db']|e] eqn:E; [|destruct e; apply served_same].
  apply (served_op r (OCreateVolume v (Some VolumeDeclared))); [done|]. cbn [exec]. by rewrite E.
Qed.

Lemma served_delete_volume r db : served r db (handle_DeleteVolume now r db).
Proof.
  unfold handle_DeleteVolume, with_id. cbv zeta. set (id := pathSegment _ _).
  destruct (String.eqb id ""); [apply served_same|].
  destruct (StartVolumeRelease id now db) as [db'|e] eqn:E; [|destruct e; apply served_same].
  apply (served_op r (OStartVolumeRelease id)); [done|]. cbn [exec]. by rewrite E.
Qed.

Lemma served_snapshot r db : served r db (handle_CreateSnapshot fk drivers decodeSnapshot uuid now r db).
Proof.
  unfold handle_CreateSnapshot, with_id, with_body. cbv zeta. set (id := pathSegment _ _).
  destruct (String.eqb id ""); [apply served_same|]. destruct (decodeSnapshot _) as [label|]; [|apply served_same].
  destruct (GetVolume id db) as [v|]; [|apply served_same]. destruct (bool_decide _); [apply served_same|].
  destruct (CreateSnapshot fk uuid id label now db) as [db1|] eqn:E; [|apply served_same].
  match goal with |- context [match drivers ≫= ?g with None => _ | Some _ => _ end] =>
    set (db2 := match drivers ≫= g with None => _ | Some _ => _ end) end.
  assert (forall resp, served r db (resp, db2)) as H; [|by destruct (GetSnapshot uuid db2)].
  intros resp. unfold db2. destruct (drivers ≫= _) as [drv|].
  - destruct (sd_Snapshot drv _ label) as [ref|].
    + exists [OCreateSnapshot uuid id label; OUpdateSnapshotState uuid SnapshotReady ref 0].
      split; [by repeat constructor|]. cbn [foldl exec]. by rewrite E.
    + exists [OCreateSnapshot uuid id label; OUpdateSnapshotState uuid SnapshotFailed "" 0].
      split; [by repeat constructor|]. cbn [foldl exec]. by rewrite E.
  - apply (served_op r (OCreateSnapshot uuid id label)); [done|]. cbn [exec]. by rewrite E.
Qed.

(** What a successful restore has done. *)
Lemma restore_cases r db :
  let res := handle_RestoreVolume drivers decodeRestore now r db in
  (rs_status res.1 <> 201 /\ res.2 = db) \/
  (db_volumes db !! "" = None /\ is_Some (db_volumes res.2 !! "") /\
   exists v, res.2 = exec fk (fun k => k) (OCreateVolume v (Some VolumeReady)) now db db /\
     vm_Namespace (v_Manifest v) <> "" /\ vm_Name (v_Manifest v) <> "" /\
     exists id src, GetVolume id db = Ok src /\ vm_Spec (v_Manifest v) = vm_Spec (v_Manifest src)).
Proof.
  unfold handle_RestoreVolume, with_body. cbv zeta. destruct drivers as [driverForClass|]; [|by left].
  destruct (String.eqb _ ""); [by left|]. destruct (decodeRestore _) as [req|]; [|by left].
  destruct (_ || _) eqn:Ene; [by left|]. destruct (GetSnapshot _ _) as [snap|e]; [|left; by destruct e].
  destruct (negb _); [by left|]. destruct (GetVolume _ _) as [src|e] eqn:Esrc; [|left; by destruct e].
  destruct (driverForClass _) as [drv|]; [|by left]. destruct (sd_RestoreFrom _ _ _ _ _) as [handle|]; [|by left].
  set (v := mkVolume "" _ _ _ _ _ _ _).
  destruct (CreateVolume v (Some VolumeReady) now db) as [[id db']|e] eqn:E; [|by left].
  assert (db' = exec fk (fun k => k) (OCreateVolume v (Some VolumeReady)) now db db) as Ex by (cbn [exec]; by rewrite E).
  unfold CreateVolume in E. destruct (volume_taken _ _ _ _) eqn:Et; [done|]. injection E as <- <-.
  unfold volume_taken in Et. apply orb_false_iff in Et as [Et _]. rewrite bool_decide_eq_false in Et.
  right. split; [by apply eq_None_not_Some|]. unfold GetVolume.
  cbn [db_volumes]. rewrite lookup_insert_eq. cbn [snd]. split.
  - cbn [db_volumes]. by rewrite lookup_insert_eq.
  - apply orb_false_iff in Ene as [[_ Hns%String.eqb_neq]%orb_false_iff Hname%String.eqb_neq].
    exists v. split; [done|]. unfold v. cbn [v_Manifest]. destruct (v_Manifest src) eqn:Em. cbn.
    split; [done|]. split; [done|]. eexists _, src. split; [exact Esrc|]. by rewrite Em.
Qed.

Lemma served_restore r db :
  hasSuffix (rq_path r) "/restore" = true -> served r db (handle_RestoreVolume drivers decodeRestore now r db).
Proof.
  intros Hp.
  destruct (restore_cases r db) as [[_ E]|(_ & _ & v & E & Hv)]; destruct (handle_RestoreVolume _ _ _ r db) as [resp db'];
    cbn [snd] in E; subst db'.
  - apply served_same.
  - by apply (served_op r (OCreateVolume v (Some VolumeReady))).
Qed.

(** Handlers that only read. *)
Definition reads (h : Handler) : Prop := forall r db, (h r db).2 = db.

Lemma reads_served h r db : reads h -> served r db (h r db).
Proof. intros Hr. specialize (Hr r db). destruct (h r db) as [resp db']. cbn in Hr. subst. apply served_same. Qed.

Lemma reads_with_id c k : (forall id, reads (k id)) -> reads (with_id c k).
Proof. intros Hk r db. unfold with_id. cbv zeta. destruct (String.eqb _ ""); [done|apply Hk]. Qed.

Lemma reads_list :
  reads handle_ListNamespaces /\ reads handle_ListNodes /\ reads handle_ListServices /\ reads handle_ListInstances /\
  reads handle_ListVolumes /\ reads handle_ListSnapshots /\ reads handle_ListVolumeMounts /\
  reads handle_ListServiceInstances /\ reads handle_ListInstanceOperations.
Proof.
  repeat split; try (by intros r db).
  - by apply reads_with_id.
  - apply reads_with_id. intros id r db. by destruct (GetVolume id db).
  - intros r db. unfold handle_ListServiceInstances. by destruct (ParseInt _ _).
  - intros r db. unfold handle_ListInstanceOperations. cbv zeta. by destruct (String.eqb _ _).
Qed.

Lemma reads_get :
  reads handle_GetNode /\ reads handle_GetService /\ reads handle_GetInstance /\ reads handle_GetVolume /\
  reads handle_GetOperation.
Proof.
  repeat split; try (apply reads_with_id; intros id r db).
  - by destruct (GetNode id db).
  - destruct (ParseInt id 64) as [n|]; [|done]. by destruct (GetService n db).
  - by destruct (GetInstance id db).
  - by destruct (GetVolume id db).
  - intros r db. unfold handle_GetOperation. cbv zeta. destruct (String.eqb _ _); [done|]. by destruct (GetOperation _ _).
Qed.

(** A route that reads on [GET] and serves store operations otherwise. *)
Definition route (h : Handler) : Prop :=
  forall r db, served r db (h r db) /\ (rq_method r = GET -> (h r db).2 = db).

Lemma route_by_method get post :
  reads get -> (forall r db, served r db (post r db)) -> route (by_method (Some get) (Some post)).
Proof.
  intros Hg Hp r db. unfold by_method. destruct (rq_method r).
  - split; [by apply reads_served|intros _; apply Hg].
  - split; [apply Hp|done].
  - split; [apply served_same|done].
  - split; [apply served_same|done].
  - split; [apply served_same|done].
Qed.

Lemma route_only_get h : reads h -> route (only GET h).
Proof.
  intros Hr r db. unfold only. destruct (decide _).
  - split; [by apply reads_served|intros _; apply Hr].
  - split; [apply served_same|done].
Qed.

Lemma route_only m h : m <> GET -> (forall r db, served r db (h r db)) -> route (only m h).
Proof.
  intros Hm Hs r db. unfold only. destruct (decide (rq_method r = m)) as [E|E].
  - split; [apply Hs|congruence].
  - split; [apply served_same|done].
Qed.

Lemma route_get_or_delete get delete :
  reads get -> (forall r db, served r db (delete r db)) -> route (get_or_delete get delete).
Proof.
  intros Hg Hd r db. unfold get_or_delete. destruct (rq_method r).
  - split; [by apply reads_served|intros _; apply Hg].
  - split; [apply served_same|done].
  - split; [apply served_same|done].
  - split; [apply Hd|done].
  - split; [apply served_same|done].
Qed.

Lemma route_mux :
  route (buildMux fk drivers decodeNamespace decodeNode decodeState decodeService decodeVolume decodeSnapshot decodeRestore uuid now).
Proof.
  destruct reads_list as (L1 & L2 & L3 & L4 & L5 & L6 & L7 & L8 & L9). destruct reads_get as (G1 & G2 & G3 & G4 & G5).
  assert (forall s, route (fun _ db => (mkResponse s NoBody, db))) as Hn.
  { intros s r db. split; [apply served_same|done]. }
  intros r db. unfold buildMux. cbv zeta.
  assert (forall r db, hasSuffix (rq_path r) "/restore" = true ->
            served r db (only POST (handle_RestoreVolume drivers decodeRestore now) r db) /\
            (rq_method r = GET -> (only POST (handle_RestoreVolume drivers decodeRestore now) r db).2 = db)) as Hrestore.
  { intros r1 db1 Hp. unfold only. destruct (decide (rq_method r1 = POST)) as [E|E].
    - split; [by apply served_restore|congruence].
    - split; [apply served_same|done]. }
  repeat match goal with |- context [if String.eqb _ _ then _ else _] => destruct (String.eqb _ _) end.
  - apply route_by_method; [done|apply served_create_namespace].
  - apply route_by_method; [done|apply served_register].
  - apply route_by_method; [done|apply served_declare].
  - by apply route_only_get.
  - apply route_by_method; [done|apply served_declare_volume].
  - exact (Hn 301 r db).
  - repeat match goal with |- context [if String.prefix _ _ then _ else _] => destruct (String.prefix _ _) end;
      repeat match goal with |- context [if hasSuffix ?a ?b then _ else _] => destruct (hasSuffix a b) eqn:? end;
      first [exact (Hn 404 r db) | by apply Hrestore | by apply route_only_get | apply route_only; [done|] | apply route_by_method; [done|]
            | apply route_get_or_delete; [done|]].
    + apply served_node_state.
    + apply served_delete_service.
    + apply served_snapshot.
    + apply served_delete_volume.
Qed.
End Spec.

(** [C19] The API.  The server refuses to start with an empty key.  Otherwise a
    request without the exact bearer key gets status 401 and changes nothing,
    unless it asks for the health probe; a [GET] never changes the database; and
    whatever the decoders and drivers answer, a request changes it by store
    operations of the kinds [api_op] lists only: nodes are registered free; a service, a
    namespace and a declared volume are stored with a valid manifest or name; and a volume
    that is ready at once is stored by a request that ends in /restore, with the
    specification of an existing volume and a namespace and a name that are not empty,
    but that nobody validates. *)
Theorem api_requests fk drivers dn dr ds dv dvol dsnap dres uuid now key h r db :
  NewServer fk drivers dn dr ds dv dvol dsnap dres uuid now key = Some h ->
  key <> "" /\
  (rq_path r <> "/healthz" -> rq_authorization r <> ("Bearer " ++ key)%string -> h r db = (writeError 401 "AUTH_REQUIRED", db)) /\
  (rq_method r = GET -> (h r db).2 = db) /\
  served fk now r db (h r db).
Proof.
  unfold NewServer. destruct (String.eqb_spec key "") as [|Hk]; [done|]. intros [= <-]. split; [done|].
  destruct (route_mux fk drivers dn dr ds dv dvol dsnap dres uuid now r db) as [Hs Hg].
  destruct (String.eqb_spec (rq_path r) "/healthz") as [|Hp]; [split; [done|]; split; [done|]; apply served_same|].
  unfold authMiddleware. destruct (String.eqb_spec (rq_authorization r) ("Bearer " ++ key)%string) as [Ea|Ea].
  - split; [done|]. split; done.
  - split; [done|]. split; [done|]. apply served_same.
Qed.

(** ** Declaring and fetching a service *)

Lemma after_prefix (needle s : string) : after needle (needle ++ s)%string = Some s.
Proof.
  assert (String.prefix needle (needle ++ s)%string = true) as Hp.
  { induction needle as [|c n IH]; [by destruct s|]. simpl. destruct (ascii_dec c c); [exact IH|done]. }
  assert (String.substring (String.length needle) (String.length (needle ++ s)%string - String.length needle) (needle ++ s)%string = s) as Hs.
  { rewrite append_length. replace (String.length needle + String.length s - String.length needle)%nat with (String.length s) by lia.
    clear Hp. induction needle as [|c n IH]; [|exact IH]. simpl. induction s as [|c s IH]; [done|]. simpl. by rewrite IH. }
  unfold after. destruct (needle ++ s)%string eqn:E; rewrite <- E in *; by rewrite Hp, Hs.
Qed.

Lemma dec_char_segment s : str_all dec_char s = true -> str_all segment_char s = true.
Proof.
  apply str_all_impl. intros c. unfold dec_char, segment_char, is_digit, ascii_byte.
  destruct c as [[] [] [] [] [] [] [] []]; vm_compute; done.
Qed.

Lemma service_path id : 0 <= id -> pathSegment ("/v1/services/" ++ dec id)%string "services" = dec id.
Proof.
  intros Hid. unfold pathSegment.
  change ("/v1/services/" ++ dec id)%string with (String "/" (String "v" (String "1" ("/services/" ++ dec id)%string))).
  change (after _ (String "/" (String "v" (String "1" ("/services/" ++ dec id)%string)))) with (after "/services/" ("/services/" ++ dec id)%string).
  rewrite after_prefix, split_slash_last; [done|]. apply dec_char_segment, dec_chars.
Qed.

Lemma substring_split (s : string) n :
  (n <= String.length s)%nat -> exists pre, s = (pre ++ String.substring n (String.length s - n) s)%string.
Proof.
  revert n. induction s as [|c s IH]; intros n Hn.
  - exists "". simpl in Hn. by replace n with O by lia.
  - destruct n as [|n].
    + exists "". simpl. f_equal. clear. induction s as [|c s IH]; [done|]. simpl. by rewrite <- IH.
    + destruct (IH n) as [pre E]; [simpl in Hn; lia|]. exists (String c pre). simpl. by rewrite <- E.
Qed.

Lemma list_ascii_app (a b : string) :
  list_ascii_of_string (a ++ b) = list_ascii_of_string a ++ list_ascii_of_string b.
Proof. induction a as [|c a IH]; simpl; [done|]. by rewrite IH. Qed.

Lemma str_all_last P (s : string) c : str_all P s = true -> last (list_ascii_of_string s) = Some c -> P c = true.
Proof.
  induction s as [|x s IH]; [done|]. intros [Hx Hs]%andb_true_iff. cbn [list_ascii_of_string].
  rewrite last_cons. destruct (last (list_ascii_of_string s)) eqn:E; [|by intros [= <-]]. intros [= ->]. by apply IH.
Qed.

(** A path that ends in a number has no word as its suffix. *)
Lemma number_suffix (pre : string) id suffix c :
  last (list_ascii_of_string suffix) = Some c -> dec_char c = false -> hasSuffix (pre ++ dec id) suffix = false.
Proof.
  intros Hc Hd. unfold hasSuffix. cbv zeta. apply andb_false_iff.
  set (path := (pre ++ dec id)%string). destruct (String.length suffix <=? String.length path)%nat eqn:El; [right|by left].
  apply Nat.leb_le in El. apply not_true_iff_false. intros E%String.eqb_eq.
  destruct (substring_split path (String.length path - String.length suffix)) as [pre' Hs]; [lia|].
  replace (String.length path - (String.length path - String.length suffix))%nat with (String.length suffix) in Hs by lia.
  rewrite E in Hs. apply (f_equal list_ascii_of_string) in Hs. unfold path in Hs. rewrite !list_ascii_app in Hs.
  apply (f_equal last) in Hs. rewrite !last_app, Hc in Hs.
  destruct (last (list_ascii_of_string (dec id))) as [x|] eqn:Ex.
  - injection Hs as ->. pose proof (str_all_last dec_char _ _ (dec_chars id) Ex). congruence.
  - apply last_None in Ex. pose proof (dec_length id) as Hl. destruct (dec id); [simpl in Hl; lia|done].
Qed.

(** Declaring a service.  A valid manifest whose name is free in its
    namespace is stored; the answer is 201 with the new service, and a [GET] of
    its path, by any client with the key, answers 200 with the same service. *)
Theorem declare_then_get fk drivers dn dr ds dv dvol dsnap dres uuid now key h r m db get :
  NewServer fk drivers dn dr ds dv dvol dsnap dres uuid now key = Some h ->
  rq_method r = POST -> rq_path r = "/v1/services" -> rq_authorization r = ("Bearer " ++ key)%string ->
  dv (rq_body r) = Some m -> ManifestValidate m = [] -> GetServiceByName (sm_Namespace m) (sm_Name m) db = Err ErrNotFound ->
  let id := db_nextService db in
  0 <= id < 2 ^ 63 ->
  rq_method get = GET -> rq_path get = ("/v1/services/" ++ dec id)%string -> rq_authorization get = ("Bearer " ++ key)%string ->
  let body := ServiceBody (mkSvcResp id m (ss_Instances (sm_Spec m)) "declared") in
  (h r db).1 = mkResponse 201 body /\ h get (h r db).2 = (mkResponse 200 body, (h r db).2).
Proof.
  intros Hh Hrm Hrp Hra Hd Hv Hfree id Hid Hgm Hgp Hga body.
  unfold NewServer in Hh. destruct (String.eqb key ""); [done|]. injection Hh as <-.
  unfold authMiddleware. rewrite Hrp, Hra, Hgp, Hga, !String.eqb_refl.
  change (String.eqb "/v1/services" "/healthz") with false.
  assert (String.eqb ("/v1/services/" ++ dec id)%string "/healthz" = false) as -> by done.
  unfold buildMux. cbv zeta. rewrite Hrp, Hgp.
  change (String.eqb "/v1/services" "/v1/namespaces") with false. change (String.eqb "/v1/services" "/v1/nodes") with false.
  rewrite String.eqb_refl. cbv beta iota.
  assert (by_method (Some handle_ListServices) (Some (handle_DeclareService dv now)) r db = handle_DeclareService dv now r db)
    as Epost by (unfold by_method; by rewrite Hrm).
  rewrite !Epost.
  pose (row := mkServiceRow (sm_Namespace m) (sm_Name m) m (ss_Instances (sm_Spec m)) "declared" now now).
  set (db' := db {{ db_services ::= <[id := row]> }} {{ db_nextService := id + 1 }}
                 {{ db_versions ::= fun l => l ++ [mkVersion id 1 m now] }}).
  assert (db_services db' !! id = Some row) as Hget by exact (lookup_insert_eq (db_services db) id row).
  assert (handle_DeclareService dv now r db = (mkResponse 201 body, db')) as ->.
  { unfold handle_DeclareService, with_body. rewrite Hd, Hv. unfold CreateService.
    destruct (existsb _ _) eqn:Ee.
    - exfalso. apply existsb_exists in Ee as ([k r0] & Hin & [En%String.eqb_eq Em%String.eqb_eq]%andb_true_iff).
      unfold GetServiceByName in Hfree.
      destruct (filter _ _) as [|[k' r'] rest] eqn:Ef; [|done].
      apply (proj1 (filter_none _ _)) with (x := (k, r0)) in Ef; [|by apply list_elem_of_In]. by destruct Ef.
    - cbv zeta. fold id row. fold db'. unfold GetService. by rewrite Hget. }
  cbn [fst snd]. split; [done|].
  change (String.eqb ("/v1/services/" ++ dec id)%string "/v1/namespaces") with false.
  change (String.eqb ("/v1/services/" ++ dec id)%string "/v1/nodes") with false.
  change (String.eqb ("/v1/services/" ++ dec id)%string "/v1/services") with false.
  change (String.eqb ("/v1/services/" ++ dec id)%string "/v1/instances") with false.
  change (String.eqb ("/v1/services/" ++ dec id)%string "/v1/volumes") with false.
  change (String.eqb ("/v1/services/" ++ dec id)%string "/v1/operations") with false.
  change (String.prefix "/v1/nodes/" ("/v1/services/" ++ dec id)%string) with false.
  assert (String.prefix "/v1/services/" ("/v1/services/" ++ dec id)%string = true) as -> by (by destruct (dec id)).
  cbv iota. rewrite (number_suffix "/v1/services/" id "/instances" "s") by done. unfold get_or_delete. rewrite Hgm.
  unfold handle_GetService, with_id. cbv zeta. rewrite Hgp, service_path by lia.
  destruct (dec_nonneg_head id ltac:(lia)) as (c & rest & Edec & _).
  assert (String.eqb (dec id) "" = false) as -> by (by rewrite Edec).
  rewrite ParseInt_dec by (unfold in_i64; lia). unfold GetService. by rewrite Hget.
Qed.

(** ** Codes *)

(** Conflicts and missing services.  Declaring a namespace, a node or a
    service that exists is never answered with 409, but with 500, since the
    store does not report these as conflicts; and a service that does not exist
    is answered with 500, not 404, when it is fetched. *)
Theorem api_error_codes dn dr dv uuid now r db :
  rs_status (handle_CreateNamespace dn r db).1 <> 409 /\
  rs_status (handle_RegisterNode dr uuid now r db).1 <> 409 /\
  rs_status (handle_DeclareService dv now r db).1 <> 409 /\
  (forall m, dv (rq_body r) = Some m -> ManifestValidate m = [] ->
     (exists svc, GetServiceByName (sm_Namespace m) (sm_Name m) db = Ok svc) ->
     handle_DeclareService dv now r db = (internal, db)) /\
  (forall id, pathSegment (rq_path r) "services" = dec id -> 0 <= id < 2 ^ 63 -> db_services db !! id = None ->
     handle_GetService r db = (internal, db)).
Proof.
  split; [|split; [|split; [|split]]].
  - unfold handle_CreateNamespace, with_body, CreateNamespace. by repeat case_match; simplify_eq.
  - unfold handle_RegisterNode, with_body, CreateNode. by repeat case_match; simplify_eq.
  - unfold handle_DeclareService, with_body, CreateService, GetService. by repeat case_match; simplify_eq.
  - intros m Hm Hv [svc Hsvc]. unfold handle_DeclareService, with_body, CreateService. rewrite Hm, Hv.
    unfold GetServiceByName in Hsvc. destruct (filter _ _) as [|[k row] rest] eqn:Ef; [done|].
    assert ((k, row) ∈ filter (fun kv => sr_namespace kv.2 = sm_Namespace m /\ sr_name kv.2 = sm_Name m)
              (map_to_list (db_services db))) as Hin by (rewrite Ef; apply elem_of_cons; by left).
    apply list_elem_of_filter in Hin as [[E1 E2] Hin]. cbn [snd] in *.
    destruct (existsb _ _) eqn:Ee; [done|]. rewrite <- not_true_iff_false, existsb_exists in Ee. destruct Ee.
    exists (k, row). split; [by apply list_elem_of_In|]. cbn [snd]. by rewrite E1, E2, !String.eqb_refl.
  - intros id Hp Hid Hnone. unfold handle_GetService, with_id. cbv zeta. rewrite Hp.
    destruct (dec_nonneg_head id ltac:(lia)) as (c & rest & Edec & _).
    assert (String.eqb (dec id) "" = false) as -> by (by rewrite Edec).
    rewrite ParseInt_dec by (unfold in_i64; lia). unfold GetService. by rewrite Hnone.
Qed.

(** Restoring a volume.  A restore succeeds only when no volume has the empty
    identifier, and it creates one: while a restored volume exists, no other
    restore succeeds or changes the database. *)
Theorem restore_once drivers dres now r r' db :
  let res := handle_RestoreVolume drivers dres now r db in
  rs_status res.1 = 201 ->
  let res' := handle_RestoreVolume drivers dres now r' res.2 in
  rs_status res'.1 <> 201 /\ res'.2 = res.2.
Proof.
  intros res H201 res'. destruct (restore_cases true drivers dres now r db) as [[H _]|(_ & Hsome & _)]; [done|].
  destruct (restore_cases true drivers dres now r' res.2) as [H|(Hnone & _)]; [done|].
  fold res in Hsome. rewrite Hnone in Hsome. by destruct Hsome.
Qed.

(** ** Concrete requests *)
Module DemoApi.
Definition manifest : ServiceManifest :=
  mkManifest "virtualserver/v1" "Service" "ns" "web"
    (mkSpec (ArtifactURL "u") "docker" 2 (mkResReq 2 1024 (mkGPUReq false 0 0))
       (mkPlacement ∅ [] [] "" "") (mkRestart "always" 3) false ∅ []).
Definition decode (s : string) : option ServiceManifest := if String.eqb s "web" then Some manifest else None.
Definition request (m : Method) (path body : string) : Request := mkRequest m path "Bearer k" (fun _ => "") body.
Definition server (key : string) : option Handler :=
  NewServer true None (fun _ => None) (fun _ => None) (fun _ => None) decode (fun _ => None) (fun _ => None)
    (fun _ => None) "u" 7 key.
(** A driver that restores anything, a ready snapshot of a ready volume. *)
Definition driver : SnapshotDriver := mkSnapDriver (fun _ _ => Some "ref") (fun _ _ _ _ => Some ∅).
Definition volume : Volume :=
  mkVolume "v1" (mkVolManifest "virtualserver/v1" "Volume" "ns" "data" (mkVolSpec "local" 10 "RWO")) VolumeReady "" ∅ "" 0 0.
Definition db : VSDB :=
  UpdateSnapshotState "s1" SnapshotReady "ref" 0 3
    (commit empty_vsdb (CreateSnapshot true "s1" "v1" "l" 2
       (commit2 empty_vsdb (CreateVolume volume (Some VolumeReady) 1 empty_vsdb)))).
End DemoApi.

Lemma api_requests_witness :
  exists h, DemoApi.server "k" = Some h /\
    h (mkRequest POST "/v1/services" "Bearer x" (fun _ => "") "web") empty_vsdb =
    (writeError 401 "AUTH_REQUIRED", empty_vsdb).
Proof.
  destruct (DemoApi.server "k") as [h|] eqn:E; [|discriminate]. exists h. split; [reflexivity|].
  apply (api_requests true None _ _ _ DemoApi.decode _ _ _ "u" 7 "k" h
           (mkRequest POST "/v1/services" "Bearer x" (fun _ => "") "web") empty_vsdb E); discriminate.
Defined.

Lemma declare_then_get_witness :
  exists h, DemoApi.server "k" = Some h /\
    (h (DemoApi.request POST "/v1/services" "web") empty_vsdb).1 =
    mkResponse 201 (ServiceBody (mkSvcResp 1 DemoApi.manifest 2 "declared")).
Proof.
  destruct (DemoApi.server "k") as [h|] eqn:E; [|discriminate]. exists h. split; [reflexivity|].
  refine (proj1 (declare_then_get true None _ _ _ DemoApi.decode _ _ _ "u" 7 "k" h
            (DemoApi.request POST "/v1/services" "web") DemoApi.manifest empty_vsdb
            (DemoApi.request GET "/v1/services/1" "") E eq_refl eq_refl eq_refl eq_refl _ _ _ eq_refl eq_refl eq_refl)).
  - vm_compute. reflexivity.
  - vm_compute. reflexivity.
  - vm_compute. split; [discriminate|reflexivity].
Defined.

Lemma restore_once_witness :
  let restore (name : string) := handle_RestoreVolume (Some (fun _ => Some DemoApi.driver))
    (fun _ => Some (mkRestore "s1" "ns" name)) 9 (DemoApi.request POST "/v1/volumes/v1/restore" "") in
  let res := restore "a" DemoApi.db in
  rs_status res.1 = 201 /\ (handle_RestoreVolume (Some (fun _ => Some DemoApi.driver))
    (fun _ => Some (mkRestore "s1" "ns" "a")) 9 (DemoApi.request POST "/v1/volumes/v1/restore" "") res.2).2 = res.2.
Proof.
  intros restore res. split; [vm_compute; reflexivity|].
  refine (proj2 (restore_once (Some (fun _ => Some DemoApi.driver)) (fun _ => Some (mkRestore "s1" "ns" "a")) 9
            (DemoApi.request POST "/v1/volumes/v1/restore" "") (DemoApi.request POST "/v1/volumes/v1/restore" "") DemoApi.db _)).
  vm_compute. reflexivity.
Defined.
