(* ===== verification/VsLocal.v ===== *)
(** * Virtual server: the local storage driver, the catalog and the mock runtime
      (virtualserver/storage/local, virtualserver/catalog, virtualserver/adapter)

    The driver works on a file system: a map from cleaned paths to directories and
    files.  Package path/filepath is modelled for slash-separated paths; symbolic
    links, permissions and the free space of a disk are not.  The driver and the
    mock runtime are also given as instances of the interfaces that the reconciler
    and the API are modelled against: their state is what the calls made so far
    have left. *)
From Stdlib Require Import String Ascii.
From S2P Require Import Prelude GoStr TrackerDB Server VsDomain VsScheduler VsStore VsReconciler VsApi.
Open Scope string_scope.
Open Scope list_scope.
Open Scope Z_scope.

(** ** Paths (path/filepath) *)

(** Whether the path begins at the root, and its components: none is empty or a
    single dot, and two dots stand only at the beginning of a relative path. *)
Abbreviation Path := (bool * list string)%type.

Fixpoint clean_parts (rooted : bool) (acc : list string) (l : list string) : list string :=
  match l with
  | [] => rev acc
  | c :: l =>
      if String.eqb c "" || String.eqb c "." then clean_parts rooted acc l
      else if String.eqb c ".." then
        match acc with
        | [] => if rooted then clean_parts rooted [] l else clean_parts rooted [".."] l
        | top :: acc' => if String.eqb top ".." then clean_parts rooted (".." :: acc) l else clean_parts rooted acc' l
        end
      else clean_parts rooted (c :: acc) l
  end.

Definition parts (s : string) : list string := let '(first, rest) := split_slash s in first :: rest.
Definition is_rooted (s : string) : bool := String.prefix "/" s.
Definition Clean (s : string) : Path := (is_rooted s, clean_parts (is_rooted s) [] (parts s)).

Definition render (p : Path) : string :=
  match p with
  | (false, []) => "."
  | (rooted, l) => (if rooted then "/" else "") +:+ String.concat "/" l
  end.

(** [filepath.Join] of elements that are not all empty. *)
Definition Join (elems : list string) : Path := Clean (String.concat "/" (filter (fun e => e <> "") elems)).

(** ** File systems *)

Inductive Node := Dir | File (data : string).
#[export] Instance Node_eq : EqDecision Node.
Proof. solve_decision. Defined.

Abbreviation FS := (gmap Path Node).

Definition sub (p : Path) (rel : list string) : Path := (p.1, p.2 ++ rel).

(** The components below [p], if [q] is [p] or below it. *)
Fixpoint strip (p q : list string) : option (list string) :=
  match p, q with
  | [], _ => Some q
  | a :: p, b :: q => if String.eqb a b then strip p q else None
  | _ :: _, [] => None
  end.
Definition relative (p q : Path) : option (list string) := if Bool.eqb p.1 q.1 then strip p.2 q.2 else None.
Definition under (p q : Path) : bool := match relative p q with Some _ => true | None => false end.

(** A path and its ancestors, without the root or the working directory. *)
Definition ancestors (p : Path) : list Path := (fun n => (p.1, take n p.2)) <$> seq 1 (length p.2).

Definition is_file (fs : FS) (p : Path) : bool := match fs !! p with Some (File _) => true | _ => false end.

(** [os.MkdirAll]: a file in the way is an error. *)
Definition MkdirAll (p : Path) (fs : FS) : option FS :=
  if existsb (is_file fs) (ancestors p) then None else Some (foldl (fun fs q => <[q := Dir]> fs) fs (ancestors p)).

Definition RemoveAll (p : Path) (fs : FS) : FS := filter (fun kv => under p kv.1 = false) fs.

Definition parent (p : Path) : Path := (p.1, take (length p.2 - 1) p.2).

(** [copyFile] with the data read before; [fails] are the targets that cannot be
    written. *)
Definition copyFile (fails : Path -> bool) (dst : Path) (data : string) (fs : FS) : option FS :=
  fs ← MkdirAll (parent dst) fs;
  if fails dst then None else match fs !! dst with Some Dir => None | _ => Some (<[dst := File data]> fs) end.

Definition copy_entry (fails : Path -> bool) (dst : Path) (e : list string * Node) (fs : FS) : option FS :=
  match e.2 with
  | Dir => if fails (sub dst e.1) then None else MkdirAll (sub dst e.1) fs
  | File data => copyFile fails (sub dst e.1) data fs
  end.

(** The file system reached, and whether the walk came to its end. *)
Fixpoint copy_entries (fails : Path -> bool) (dst : Path) (l : list (list string * Node)) (fs : FS) : FS * bool :=
  match l with
  | [] => (fs, true)
  | e :: l => match copy_entry fails dst e fs with Some fs' => copy_entries fails dst l fs' | None => (fs, false) end
  end.

Section Driver.
(** The order in which a directory is walked, and the writes that fail. *)
Context (walk : FS -> list (Path * Node)) (fails : Path -> bool).

(** What is at or below [src], with its place in it. *)
Definition entries (src : Path) (fs : FS) : list (list string * Node) :=
  omap (fun kv => rel ← relative src kv.1; Some (rel, kv.2)) (walk fs).

(** The entries are listed first, which is what the walk sees unless the target is
    inside the source. *)
Definition copyDirTree (src dst : Path) (fs : FS) : FS * bool :=
  match fs !! src with
  | None => (fs, false)
  | Some _ => copy_entries fails dst (entries src fs) fs
  end.

(** ** The driver *)

Record Driver := mkLocal { dr_nodeID : string; dr_baseDir : string }.

Abbreviation VolumeHandle := (gmap string string).
Definition handle_path (h : VolumeHandle) : string := default "" (h !! "path").
Definition handle_for (d : Driver) (p : Path) : VolumeHandle := <["path" := render p]> {["nodeID" := dr_nodeID d]}.

Definition volume_path (d : Driver) (namespace name : string) : Path := Join [dr_baseDir d; namespace; name].

Definition local_Create (d : Driver) (namespace name : string) (fs : FS) : FS * option VolumeHandle :=
  let path := volume_path d namespace name in
  match MkdirAll path fs with
  | None => (fs, None)
  | Some fs => (fs, Some (handle_for d path))
  end.

Definition local_Delete (handle : VolumeHandle) (fs : FS) : FS * bool :=
  if String.eqb (handle_path handle) "" then (fs, false) else (RemoveAll (Clean (handle_path handle)) fs, true).

(** The bound node of the handle must be the node asked for. *)
Definition local_Mount (req : MountRequest) (fs : FS) : FS * option string :=
  let boundNodeID := default "" (mr_Handle req !! "nodeID") in
  if negb (String.eqb boundNodeID "") && negb (String.eqb boundNodeID (mr_NodeID req)) then (fs, None)
  else
    let path := handle_path (mr_Handle req) in
    if String.eqb path "" then (fs, None)
    else match MkdirAll (Clean path) fs with None => (fs, None) | Some fs => (fs, Some path) end.

(** [statfs] gives blocks, available blocks and their size. *)
Definition local_Stat (statfs : string -> option (Z * Z * Z)) (handle : VolumeHandle) : option VolumeStat :=
  if String.eqb (handle_path handle) "" then None
  else
    '(blocks, bavail, bsize) ← statfs (handle_path handle);
    let total := Z.quot (i64 (blocks * bsize)) 1048576 in
    let avail := Z.quot (i64 (bavail * bsize)) 1048576 in
    Some (mkStat total (i64 (total - avail)) true).

Definition snapshot_path (d : Driver) (label ts : string) : Path :=
  Join [render (Join [dr_baseDir d; ".snapshots"]); label +:+ "-" +:+ ts].

(** A snapshot that fails is removed. *)
Definition local_Snapshot (d : Driver) (ts : string) (handle : VolumeHandle) (label : string) (fs : FS) : FS * option string :=
  if String.eqb (handle_path handle) "" then (fs, None)
  else
    match MkdirAll (Join [dr_baseDir d; ".snapshots"]) fs with
    | None => (fs, None)
    | Some fs =>
        let snapPath := snapshot_path d label ts in
        match copyDirTree (Clean (handle_path handle)) snapPath fs with
        | (fs, true) => (fs, Some (render snapPath))
        | (fs, false) => (RemoveAll snapPath fs, None)
        end
    end.

Definition exists_at (p : Path) (fs : FS) : bool := match fs !! p with Some _ => true | None => false end.

Definition local_RestoreFrom (d : Driver) (snapshotRef namespace name : string) (fs : FS) : FS * option VolumeHandle :=
  if String.eqb snapshotRef "" then (fs, None)
  else if negb (exists_at (Clean snapshotRef) fs) then (fs, None)
  else
    let targetPath := volume_path d namespace name in
    if exists_at targetPath fs then (fs, None)
    else
      match copyDirTree (Clean snapshotRef) targetPath fs with
      | (fs, true) => (fs, Some (handle_for d targetPath))
      | (fs, false) => (RemoveAll targetPath fs, None)
      end.

(** ** As the reconciler's driver *)

(** What the calls made so far, the newest first, have left, on a server with one
    local storage class: calls carry the name of the driver, which all local classes
    share. *)
Definition local_effect (d : Driver) (c : Call) (fs : FS) : FS :=
  match c with
  | CCreate "local" namespace name => (local_Create d namespace name fs).1
  | CDelete "local" handle => (local_Delete handle fs).1
  | CMount "local" req => (local_Mount req fs).1
  | _ => fs
  end.
Definition local_state (d : Driver) (fs : FS) (calls : list Call) : FS := foldr (local_effect d) fs calls.

Definition local_driver (d : Driver) (fs : FS) (statfs : FS -> string -> option (Z * Z * Z)) : StorageDriver :=
  mkDriver "local"
    (fun calls namespace name _ => (local_Create d namespace name (local_state d fs calls)).2)
    (fun calls handle => (local_Delete handle (local_state d fs calls)).2)
    (fun calls req => (local_Mount req (local_state d fs calls)).2)
    (fun _ _ => true)
    (fun calls handle => local_Stat (statfs (local_state d fs calls)) handle).

(** As the API's driver, on a given state. *)
Definition local_snapshots (d : Driver) (ts : string) (fs : FS) : SnapshotDriver :=
  mkSnapDriver (fun handle label => (local_Snapshot d ts handle label fs).2)
    (fun ref namespace name _ => (local_RestoreFrom d ref namespace name fs).2).
End Driver.

(** ** The storage classes of a server (virtualserver.go) *)

Record VolumeClass := mkClass { vc_Name : string; vc_Driver : string; vc_Params : gmap string string }.

Definition add_class (m : gmap string Driver) (sc : VolumeClass) : gmap string Driver :=
  if String.eqb (vc_Driver sc) "local" then
    let baseDir := default "" (vc_Params sc !! "baseDir") in
    <[vc_Name sc := mkLocal (default "" (vc_Params sc !! "nodeID")) (if String.eqb baseDir "" then "data/volumes/" +:+ vc_Name sc else baseDir)]> m
  else m.
Definition class_drivers (classes : list VolumeClass) : gmap string Driver := foldl add_class ∅ classes.

(** Disabled, refused, or running with these drivers. *)
Inductive Started := NotEnabled | Refused (err : string) | Running (drivers : gmap string Driver).
Definition new_server (enabled : bool) (adminKey : string) (openErr : option string) (classes : list VolumeClass) : Started :=
  if negb enabled then NotEnabled
  else if String.eqb adminKey "" then Refused "virtualserver: AdminKey must not be empty"
  else match openErr with
       | Some e => Refused ("vs store open: " +:+ e)
       | None => Running (class_drivers classes)
       end.

(** ** The catalog (catalog/ocelot_catalog.go) *)

Inductive ArtifactAvailability := ArtifactAvailable | ArtifactDegraded | ArtifactUnavailable | ArtifactUnset.
Record CatalogStatus := mkCatalogStatus {
  cat_InfoHash : string; cat_Exists : bool; cat_Available : bool; cat_SeederCount : Z; cat_Availability : ArtifactAvailability }.

Definition seederThresholdDegraded : Z := 1.
Definition seederThresholdAvailable : Z := 3.

(** The row that the join finds; hashes are unique. *)
Definition seeders_of (order : gmap Z string -> list (Z * string)) (db : TDB) (infoHash : string) : option Z :=
  tr_seeders <$> (List.find (fun kv => String.eqb kv.2 infoHash) (order (td_hashes db)) ≫= fun kv => td_torrents db !! kv.1).

(** [None] is an error: no database, or a query that failed. *)
Definition Lookup (order : gmap Z string -> list (Z * string)) (fail : bool) (db : option TDB) (infoHash : string) : option CatalogStatus :=
  db ← db;
  if fail then None
  else
    match seeders_of order db infoHash with
    | None => Some (mkCatalogStatus infoHash false false 0 ArtifactUnavailable)
    | Some seeders =>
        Some (if seederThresholdAvailable <=? seeders then mkCatalogStatus infoHash true true seeders ArtifactAvailable
              else if seederThresholdDegraded <=? seeders then mkCatalogStatus infoHash true true seeders ArtifactDegraded
              else mkCatalogStatus infoHash true false seeders ArtifactUnavailable)
    end.

(** As the scheduler's catalog. *)
Definition catalog_of (order : gmap Z string -> list (Z * string)) (fail : bool) (db : option TDB) (infoHash : string) : option ArtifactStatus :=
  (fun s => mkStatus (cat_Exists s) (cat_Available s)) <$> Lookup order fail db infoHash.

(** ** The mock runtime (adapter/mock.go) *)

Record MockAdapter := mkMock {
  mk_provisioned : gmap string (gmap string string);
  mk_started : gset string;
  mk_stopped : gset string;
  mk_destroyed : gset string
}.
Definition NewMockAdapter : MockAdapter := mkMock ∅ ∅ ∅ ∅.

Inductive FailMode := FailProvision | FailStart | FailStop | FailInspect | FailHealth | FailDestroy | FailProbe.

Section Mock.
Context (failing : FailMode -> bool).

Definition mock_data (req : ProvisionRequest) : gmap string string :=
  <["node_id" := pr_NodeID req]> (<["pid" := "mock-pid-" +:+ pr_InstanceID req]> {["workdir" := "/tmp/vs-mock/" +:+ pr_InstanceID req]}).

Definition mock_Provision (req : ProvisionRequest) (m : MockAdapter) : MockAdapter * option (gmap string string) :=
  if failing FailProvision then (m, None)
  else (m {{ mk_provisioned := <[pr_InstanceID req := mock_data req]> (mk_provisioned m) }}, Some (mock_data req)).
Definition mock_Start (h : RuntimeHandle) (m : MockAdapter) : MockAdapter * bool :=
  if failing FailStart then (m, false) else (m {{ mk_started := {[rh_InstanceID h]} ∪ mk_started m }}, true).
Definition mock_Stop (h : RuntimeHandle) (m : MockAdapter) : MockAdapter * bool :=
  if failing FailStop then (m, false) else (m {{ mk_stopped := {[rh_InstanceID h]} ∪ mk_stopped m }}, true).
Definition mock_running (id : string) (m : MockAdapter) : bool := bool_decide (id ∈ mk_started m) && negb (bool_decide (id ∈ mk_stopped m)).
Definition mock_Inspect (h : RuntimeHandle) (m : MockAdapter) : option bool :=
  if failing FailInspect then None else Some (mock_running (rh_InstanceID h) m).
Definition mock_Health (h : RuntimeHandle) (m : MockAdapter) : option bool :=
  if failing FailHealth then None else Some (mock_running (rh_InstanceID h) m).
Definition mock_Destroy (h : RuntimeHandle) (m : MockAdapter) : MockAdapter * bool :=
  if failing FailDestroy then (m, false)
  else (mkMock (delete (rh_InstanceID h) (mk_provisioned m)) (mk_started m ∖ {[rh_InstanceID h]}) (mk_stopped m) ({[rh_InstanceID h]} ∪ mk_destroyed m), true).

Definition mock_effect (c : Call) (m : MockAdapter) : MockAdapter :=
  match c with
  | CProvision "mock" req => (mock_Provision req m).1
  | CStart h => if String.eqb (rh_AdapterName h) "mock" then (mock_Start h m).1 else m
  | CStop h => if String.eqb (rh_AdapterName h) "mock" then (mock_Stop h m).1 else m
  | CDestroy h => if String.eqb (rh_AdapterName h) "mock" then (mock_Destroy h m).1 else m
  | _ => m
  end.
Definition mock_state (calls : list Call) : MockAdapter := foldr mock_effect NewMockAdapter calls.

Definition mock_adapter : BackendAdapter :=
  mkAdapter "mock"
    (fun calls req => (mock_Provision req (mock_state calls)).2)
    (fun calls h => (mock_Start h (mock_state calls)).2)
    (fun calls h => (mock_Stop h (mock_state calls)).2)
    (fun calls h => mock_Inspect h (mock_state calls))
    (fun calls h => mock_Health h (mock_state calls))
    (fun calls h => (mock_Destroy h (mock_state calls)).2).
End Mock.
