(* ===== verification/VsLocalSpec.v ===== *)
(** * Virtual server: what the local driver guarantees

    Volumes with validated names have directories of their own below the base
    directory; a snapshot restores to the tree it was taken from; a volume is
    mounted on its node only. *)
From Stdlib Require Import String Ascii.
From S2P Require Import Prelude GoStr TrackerDB Server EventsSpec VsDomain VsScheduler VsStore VsReconciler VsApi VsLocal.
Open Scope string_scope.
Open Scope list_scope.
Open Scope Z_scope.

(** ** Paths *)

Definition no_slash (s : string) : bool := str_all (fun c => negb (Ascii.eqb c "/")) s.

Lemma split_slash_cons c r : split_slash (String c r) =
  (let '(first, rest) := split_slash r in if Ascii.eqb c "/" then ("", first :: rest) else (String c first, rest)).
Proof. done. Qed.

Lemma parts_nil : parts "" = [""].
Proof. done. Qed.

Lemma parts_slash s t : parts (s +:+ String "/" t) = parts s ++ parts t.
Proof.
  unfold parts. induction s as [|c s IH].
  - rewrite append_nil_l, split_slash_cons. by destruct (split_slash t).
  - rewrite append_cons, !split_slash_cons. destruct (split_slash (s +:+ String "/" t)) as [f1 r1], (split_slash s) as [f2 r2].
    destruct (split_slash t) as [f3 r3]. cbn in IH. injection IH as -> ->. by destruct (Ascii.eqb c "/").
Qed.

Lemma parts_plain s : no_slash s = true -> parts s = [s].
Proof.
  unfold parts, no_slash. induction s as [|c s IH]; [done|]. cbn [str_all]. intros [Hc Hs]%andb_true_iff. apply negb_true_iff in Hc.
  rewrite split_slash_cons, Hc. specialize (IH Hs). destruct (split_slash s) as [f r]. cbn in IH. by injection IH as -> ->.
Qed.

Lemma parts_no_slash s : Forall (fun c => no_slash c = true) (parts s).
Proof.
  unfold parts. induction s as [|c s IH]; [repeat constructor|]. rewrite split_slash_cons. destruct (split_slash s) as [f r].
  apply Forall_cons in IH as [Hf Hr]. destruct (Ascii.eqb c "/") eqn:E; [repeat constructor; done|].
  constructor; [|done]. unfold no_slash. cbn [str_all]. rewrite E. exact Hf.
Qed.

(** A component that stays. *)
Definition plain (c : string) : Prop := no_slash c = true /\ c <> "" /\ c <> "." /\ c <> "..".

Lemma clean_plain rooted acc c l : plain c -> clean_parts rooted acc (c :: l) = clean_parts rooted (c :: acc) l.
Proof.
  intros (_ & H1 & H2 & H3). cbn [clean_parts]. apply String.eqb_neq in H1 as ->, H2 as ->, H3 as ->. done.
Qed.

Lemma clean_plains rooted acc l : Forall plain l -> clean_parts rooted acc l = rev acc ++ l.
Proof.
  revert acc. induction l as [|c l IH]; intros acc Hl; [by rewrite app_nil_r|]. apply Forall_cons in Hl as [Hc Hl].
  rewrite clean_plain, IH by done. cbn. by rewrite <- app_assoc.
Qed.

Lemma clean_app rooted acc l1 l2 : clean_parts rooted acc (l1 ++ l2) = clean_parts rooted (rev (clean_parts rooted acc l1)) l2.
Proof.
  revert acc. induction l1 as [|c l1 IH]; intros acc; cbn [app clean_parts]; [by rewrite rev_involutive|].
  repeat case_match; apply IH.
Qed.

Lemma rooted_app s t : s <> "" -> is_rooted (s +:+ t) = is_rooted s.
Proof. destruct s as [|c s]; [done|]. intros _. rewrite append_cons. unfold is_rooted. cbn [String.prefix]. by destruct (ascii_dec "/" c), (s +:+ t), s. Qed.

Lemma clean_join s t : s <> "" -> Forall plain (parts t) -> Clean (s +:+ String "/" t) = ((Clean s).1, (Clean s).2 ++ parts t).
Proof.
  intros Hs Ht. unfold Clean. rewrite rooted_app by done. cbn [fst snd]. by rewrite parts_slash, clean_app, clean_plains, rev_involutive by done.
Qed.

(** ** Clean paths *)

Lemma rev_replicate {A} n (x : A) : rev (replicate n x) = replicate n x.
Proof. rewrite rev_alt. apply reverse_replicate. Qed.

(** Leading double dots in a relative path, then plain components. *)
Definition normal (p : Path) : Prop :=
  exists n l, p.2 = replicate n ".." ++ l /\ Forall plain l /\ (p.1 = true -> n = 0%nat).

Lemma clean_normal rooted n l acc : Forall plain acc -> (rooted = true -> n = 0%nat) -> Forall (fun c => no_slash c = true) l ->
  exists n' l', clean_parts rooted (acc ++ replicate n "..") l = replicate n' ".." ++ l' /\ Forall plain l' /\ (rooted = true -> n' = 0%nat).
Proof.
  revert n acc. induction l as [|c l IH]; intros n acc Ha Hn Hl; cbn [clean_parts].
  - exists n, (rev acc). rewrite rev_app_distr, rev_replicate. split_and!; [done|by apply Forall_rev|done].
  - apply Forall_cons in Hl as [Hc Hl].
    destruct (String.eqb_spec c ""); [by apply IH|]. destruct (String.eqb_spec c "."); [by apply IH|]. cbn [orb].
    destruct (String.eqb_spec c "..") as [->|Hd].
    + destruct acc as [|a acc]; cbn [app].
      * destruct n as [|n]; cbn [replicate].
        { destruct rooted; [apply (IH 0%nat []); [by constructor|done|done]|]. apply (IH 1%nat []); [by constructor|done|done]. }
        change (String.eqb ".." "..") with true. cbv iota. apply (IH (S (S n)) []); [by constructor| |done]. intros Hr. by specialize (Hn Hr).
      * apply Forall_cons in Ha as [(_ & _ & _ & Hne) Ha]. apply String.eqb_neq in Hne as ->. by apply IH.
    + apply (IH n (c :: acc)); [|done|done]. constructor; [done|done].
Qed.

Lemma Clean_normal s : normal (Clean s).
Proof.
  destruct (clean_normal (is_rooted s) 0 (parts s) [] (Forall_nil_2 _) (fun _ => eq_refl) (parts_no_slash s)) as (n & l & E & Hl & Hn).
  exists n, l. unfold Clean. cbn in *. by rewrite E.
Qed.

Lemma concat_cons a b l : String.concat "/" (a :: b :: l) = a +:+ String "/" (String.concat "/" (b :: l)).
Proof. done. Qed.

Lemma parts_concat l : l <> [] -> Forall (fun c => no_slash c = true) l -> parts (String.concat "/" l) = l.
Proof.
  induction l as [|a l IH]; [done|]. intros _ Hl. apply Forall_cons in Hl as [Ha Hl]. destruct l as [|b l]; [by apply parts_plain|].
  rewrite concat_cons, parts_slash, IH by done. by rewrite parts_plain.
Qed.

Lemma clean_dots n l : Forall plain l -> clean_parts false [] (replicate n ".." ++ l) = replicate n ".." ++ l.
Proof.
  intros Hl. rewrite clean_app, clean_plains by done. rewrite rev_involutive. f_equal.
  assert (forall k, clean_parts false (replicate k "..") (replicate n "..") = replicate (k + n) "..") as H; [|apply (H 0%nat)].
  clear. induction n as [|n IH]; intros k; cbn [replicate clean_parts].
  - by rewrite rev_replicate, Nat.add_0_r.
  - cbn [String.eqb Ascii.eqb Bool.eqb orb]. destruct k as [|k]; cbn [replicate].
    + exact (IH 1%nat).
    + change (String.eqb ".." "..") with true. cbv iota. pose proof (IH (S (S k))) as E. cbn [replicate] in E. rewrite E.
      by rewrite Nat.add_succ_r.
Qed.

Lemma first_not_slash l : l <> [] -> Forall (fun c => no_slash c = true /\ c <> "") l -> is_rooted (String.concat "/" l) = false.
Proof.
  destruct l as [|a l]; [done|]. intros _ [[Ha Hne] _]%Forall_cons. destruct a as [|c a]; [done|].
  unfold no_slash in Ha. cbn [str_all] in Ha. apply andb_true_iff in Ha as [Hc _]. apply negb_true_iff, Ascii.eqb_neq in Hc.
  assert (forall r, is_rooted (String c r) = false) as H by (intros r; unfold is_rooted; cbn [String.prefix]; destruct (ascii_dec "/" c); congruence).
  destruct l; [apply H|]. rewrite concat_cons, append_cons. apply H.
Qed.

Lemma render_normal p : normal p -> Clean (render p) = p /\ render p <> "".
Proof.
  destruct p as [rooted l]. intros (n & l' & E & Hl & Hn). cbn in E, Hn.
  assert (Forall (fun c => no_slash c = true /\ c <> "") l) as Hall.
  { subst l. apply Forall_app. split; [apply Forall_replicate; done|]. eapply Forall_impl; [exact Hl|]. by intros c (? & ? & _). }
  assert (Forall (fun c => no_slash c = true) l) as Hns by (eapply Forall_impl; [exact Hall|]; by intros c [? _]).
  destruct rooted.
  - specialize (Hn eq_refl) as ->. cbn in E. subst l'. destruct l as [|a l]; [done|].
    assert (render (true, a :: l) = String "/" (String.concat "/" (a :: l))) as -> by reflexivity. split; [|done].
    unfold Clean. assert (is_rooted (String "/" (String.concat "/" (a :: l))) = true) as ->.
    { unfold is_rooted. cbn [String.prefix]. destruct (ascii_dec "/" "/"); [by destruct (String.concat "/" (a :: l))|done]. }
    f_equal.
    pose proof (parts_slash "" (String.concat "/" (a :: l))) as Hp. rewrite append_nil_l in Hp. rewrite Hp, parts_concat by done.
    rewrite parts_nil. cbn [app]. change (clean_parts true [] ("" :: a :: l)) with (clean_parts true [] (a :: l)). by apply clean_plains.
  - destruct l as [|a l]; [done|]. assert (render (false, a :: l) = String.concat "/" (a :: l)) as -> by reflexivity. split.
    + unfold Clean. rewrite first_not_slash, parts_concat by done. f_equal. rewrite E. by apply clean_dots.
    + intros Hx. pose proof (parts_concat (a :: l) ltac:(done) Hns) as Hp. rewrite Hx in Hp. cbn in Hp. injection Hp as <- <-.
      apply Forall_cons in Hall as [[_ ?] _]. done.
Qed.

Lemma Clean_render s : Clean (render (Clean s)) = Clean s /\ render (Clean s) <> "".
Proof. apply render_normal, Clean_normal. Qed.

(** ** File systems *)

Lemma strip_spec p q rel : strip p q = Some rel <-> q = p ++ rel.
Proof.
  revert q. induction p as [|a p IH]; intros q; cbn [strip app]; [split; congruence|]. destruct q as [|b q]; [done|].
  destruct (String.eqb_spec a b) as [->|Hne]; [|split; [done|congruence]]. rewrite IH. split; congruence.
Qed.

Lemma relative_spec p q rel : relative p q = Some rel <-> q = sub p rel.
Proof.
  unfold relative, sub. destruct p as [r p], q as [r' q]. cbn. destruct (Bool.eqb r r') eqn:E.
  - apply Bool.eqb_prop in E as ->. rewrite strip_spec. split; congruence.
  - split; [done|]. intros [= -> ->]. by rewrite Bool.eqb_reflx in E.
Qed.

Lemma under_spec p q : under p q = true <-> exists rel, q = sub p rel.
Proof.
  unfold under. destruct (relative p q) as [rel|] eqn:E.
  - apply relative_spec in E. split; eauto.
  - split; [done|]. intros [rel Hq]. apply relative_spec in Hq. congruence.
Qed.

Lemma sub_inj p r1 r2 : sub p r1 = sub p r2 -> r1 = r2.
Proof. unfold sub. intros [= E]. by apply app_inv_head in E. Qed.

Lemma ancestors_spec p q : q ∈ ancestors p <-> exists n, (1 <= n <= length p.2)%nat /\ q = (p.1, take n p.2).
Proof.
  unfold ancestors. rewrite list_elem_of_fmap. split.
  - intros (n & -> & Hn). apply elem_of_seq in Hn. exists n. split; [lia|done].
  - intros (n & Hn & ->). exists n. split; [done|]. apply elem_of_seq. lia.
Qed.

Lemma self_ancestor p : p.2 <> [] -> p ∈ ancestors p.
Proof.
  intros Hp. apply ancestors_spec. exists (length p.2). rewrite firstn_all. destruct p as [r l]. cbn in *. split; [|done]. destruct l; [done|cbn; lia].
Qed.

Lemma insert_dirs_lookup (l : list Path) (fs : FS) q : foldl (fun fs q => <[q := Dir]> fs) fs l !! q = if decide (q ∈ l) then Some Dir else fs !! q.
Proof.
  revert fs. induction l as [|p l IH]; intros fs; cbn [foldl]; [by rewrite decide_False by apply not_elem_of_nil|]. rewrite IH.
  destruct (decide (q ∈ l)) as [|Hn]; [by rewrite decide_True by by right|]. destruct (decide (p = q)) as [->|Hne].
  - rewrite lookup_insert_eq, decide_True by by left. done.
  - rewrite lookup_insert_ne, decide_False; [done| |done]. rewrite elem_of_cons. intros [?|?]; congruence.
Qed.

Lemma MkdirAll_ok p fs : (forall q, q ∈ ancestors p -> is_file fs q = false) ->
  exists fs', MkdirAll p fs = Some fs' /\ forall q, fs' !! q = if decide (q ∈ ancestors p) then Some Dir else fs !! q.
Proof.
  intros Hf. unfold MkdirAll. assert (existsb (is_file fs) (ancestors p) = false) as ->.
  { apply not_true_iff_false. intros (q & Hq & E)%existsb_exists. apply list_elem_of_In in Hq. by rewrite Hf in E. }
  eexists. split; [reflexivity|]. intros q. apply insert_dirs_lookup.
Qed.

(** An ancestor of something inside [dst] is above [dst] or inside. *)
Lemma ancestors_sub dst rel q : q ∈ ancestors (sub dst rel) ->
  (q ∈ ancestors dst /\ under dst q = false) \/ exists k, (k <= length rel)%nat /\ q = sub dst (take k rel).
Proof.
  intros (n & Hn & ->)%ancestors_spec. unfold sub in *. destruct dst as [r l]. cbn [fst snd] in *. rewrite length_app in Hn. rewrite take_app.
  destruct (decide (n < length l)%nat) as [Hlt|Hge].
  - left. replace (n - length l)%nat with 0%nat by lia. rewrite firstn_O, app_nil_r. split; [apply ancestors_spec; exists n; cbn; split; [lia|done]|].
    apply not_true_iff_false. intros (rel' & E)%under_spec. unfold sub in E. cbn in E. injection E as E. apply (f_equal length) in E.
    rewrite length_app, length_take in E. lia.
  - right. exists (n - length l)%nat. split; [lia|]. by rewrite (take_ge l) by lia.
Qed.

Lemma sub_ancestor dst rel k : dst.2 <> [] -> (k <= length rel)%nat -> sub dst (take k rel) ∈ ancestors (sub dst rel).
Proof.
  intros Hd Hk. apply ancestors_spec. destruct dst as [r l]. cbn in *. exists (length l + k)%nat. rewrite length_app. split; [destruct l; [done|cbn; lia]|].
  unfold sub. cbn. f_equal. rewrite take_app, (take_ge l) by lia. by replace (length l + k - length l)%nat with k by lia.
Qed.

(** ** Copying a tree *)

Definition no_fail (_ : Path) : bool := false.

Section Copy.
Context (src dst : Path) (fs0 : FS).
Context (Hsrc : fs0 !! src = Some Dir).
Context (Htree : forall rel n k, fs0 !! sub src rel = Some n -> (k < length rel)%nat -> fs0 !! sub src (take k rel) = Some Dir).
Context (Hclear : forall rel, fs0 !! sub dst rel = None).
Context (Hanc : forall q, q ∈ ancestors dst -> is_file fs0 q = false).
Context (Hne : dst.2 <> []).

(** What is in the target is what the source had there; elsewhere only missing
    parents of the target are added. *)
Definition copying (fs : FS) : Prop :=
  (forall rel n, fs !! sub dst rel = Some n -> fs0 !! sub src rel = Some n) /\
  (forall q, under dst q = false -> fs !! q = fs0 !! q \/ (q ∈ ancestors dst /\ fs !! q = Some Dir)).

Lemma copying_start : copying fs0.
Proof using Hclear. split; [|by left]. intros rel n Hr. by rewrite Hclear in Hr. Qed.

Lemma source_dirs rel k : fs0 !! sub src rel = Some Dir -> (k <= length rel)%nat -> fs0 !! sub src (take k rel) = Some Dir.
Proof using Htree.
  intros Hr Hk. destruct (decide (k = length rel)) as [->|]; [by rewrite firstn_all|]. apply (Htree rel Dir); [done|lia].
Qed.

Lemma mkdir_inside fs rel : copying fs -> fs0 !! sub src rel = Some Dir ->
  exists fs', MkdirAll (sub dst rel) fs = Some fs' /\ copying fs' /\ fs' !! sub dst rel = Some Dir /\
    (forall r m, fs !! sub dst r = Some m -> fs' !! sub dst r = Some m).
Proof using Htree Hanc Hne.
  intros [Ha Hb] Hr. destruct (MkdirAll_ok (sub dst rel) fs) as (fs' & E & Hl).
  { intros q [[Hq Hu]|(k & Hk & ->)]%ancestors_sub.
    - unfold is_file. destruct (Hb q Hu) as [->|[_ ->]]; [by apply Hanc|done].
    - unfold is_file. destruct (fs !! sub dst (take k rel)) as [[|x]|] eqn:Ef; [done| |done]. apply Ha in Ef.
      rewrite (source_dirs rel k) in Ef by done. done. }
  exists fs'. assert (sub dst rel ∈ ancestors (sub dst rel)) as Hself by (rewrite <- (firstn_all rel) at 1; by apply sub_ancestor).
  split; [done|]. split; [split|split].
  - intros r m. rewrite Hl. case_decide as Hd; [|apply Ha]. intros [= <-]. apply ancestors_sub in Hd as [[_ Hu]|(k & Hk & E')].
    + assert (under dst (sub dst r) = true) by (apply under_spec; eauto). congruence.
    + apply sub_inj in E' as ->. by apply source_dirs.
  - intros q Hu. rewrite Hl. case_decide as Hd; [|by apply Hb]. right. split; [|done].
    apply ancestors_sub in Hd as [[? _]|(k & _ & ->)]; [done|]. assert (under dst (sub dst (take k rel)) = true) by (apply under_spec; eauto). congruence.
  - rewrite Hl. by rewrite decide_True.
  - intros r m Hm. rewrite Hl. case_decide as Hd; [|done]. apply ancestors_sub in Hd as [[_ Hu]|(k & Hk & E')].
    + assert (under dst (sub dst r) = true) by (apply under_spec; eauto). congruence.
    + apply sub_inj in E' as ->. apply Ha in Hm. rewrite (source_dirs rel k) in Hm by done. congruence.
Qed.

Lemma parent_sub rel : rel <> [] -> parent (sub dst rel) = sub dst (take (length rel - 1) rel).
Proof.
  intros Hr. unfold parent, sub. cbn. f_equal. assert (length rel <> 0)%nat by (by destruct rel).
  rewrite length_app, take_app, (take_ge dst.2) by lia. f_equal. f_equal. lia.
Qed.

Lemma copy_entry_ok fs rel n : copying fs -> fs0 !! sub src rel = Some n ->
  exists fs', copy_entry no_fail dst (rel, n) fs = Some fs' /\ copying fs' /\ fs' !! sub dst rel = Some n /\
    (forall r m, fs !! sub dst r = Some m -> fs' !! sub dst r = Some m).
Proof using All.
  intros Hc Hr. destruct n as [|data]; [by apply mkdir_inside|].
  assert (rel <> []) as Hrel. { intros ->. unfold sub in Hr. rewrite app_nil_r in Hr. destruct src; cbn in *. congruence. }
  unfold copy_entry, copyFile. cbn [fst snd]. rewrite parent_sub by done.
  destruct (mkdir_inside fs (take (length rel - 1) rel) Hc) as (fs1 & E1 & [Ha Hb] & _ & Hmono).
  { apply (Htree rel (File data)); [done|]. destruct rel; [done|cbn; lia]. }
  rewrite E1. cbn [mbind option_bind]. change (no_fail (sub dst rel)) with false. cbv iota.
  destruct (fs1 !! sub dst rel) as [[|x]|] eqn:E2; [apply Ha in E2; congruence|..];
    (eexists; split; [reflexivity|]; split; [split|split]).
  all: try (rewrite lookup_insert_eq; done).
  all: try (intros r m Hm; destruct (decide (r = rel)) as [->|Hrr];
       [rewrite lookup_insert_eq in *; first [congruence|apply Hmono, Ha in Hm; congruence]
       |rewrite lookup_insert_ne in * by (intros E%sub_inj; congruence); first [by apply Ha|by apply Hmono]]).
  all: intros q Hu; rewrite lookup_insert_ne; [by apply Hb|]; intros <-; assert (under dst (sub dst rel) = true) by (apply under_spec; eauto); congruence.
Qed.

Lemma copy_entries_ok l fs : copying fs -> (forall e, e ∈ l -> fs0 !! sub src e.1 = Some e.2) ->
  exists fs', copy_entries no_fail dst l fs = (fs', true) /\ copying fs' /\ (forall e, e ∈ l -> fs' !! sub dst e.1 = Some e.2) /\
    (forall r m, fs !! sub dst r = Some m -> fs' !! sub dst r = Some m).
Proof using All.
  revert fs. induction l as [|[rel n] l IH]; intros fs Hc Hl; cbn [copy_entries].
  { exists fs. split_and!; try done. intros e He. by apply not_elem_of_nil in He. }
  destruct (copy_entry_ok fs rel n Hc) as (fs1 & E1 & Hc1 & Hr1 & Hm1); [apply (Hl (rel, n)); by left|]. rewrite E1.
  destruct (IH fs1 Hc1) as (fs2 & E2 & Hc2 & Hl2 & Hm2); [intros e He; apply Hl; by right|].
  exists fs2. split; [done|]. split; [done|]. split; [|by intros; apply Hm2, Hm1].
  intros e [->|He]%elem_of_cons; [by apply Hm2|by apply Hl2].
Qed.

Context (walk : FS -> list (Path * Node)) (Hwalk : forall fs, walk fs ≡ₚ map_to_list fs).

Lemma entries_spec rel n : (rel, n) ∈ entries walk src fs0 <-> fs0 !! sub src rel = Some n.
Proof using Hwalk.
  unfold entries. rewrite list_elem_of_omap. split.
  - intros ([q m] & Hq & E). rewrite Hwalk, elem_of_map_to_list in Hq. cbn in E. destruct (relative src q) as [r|] eqn:Er; [|done].
    cbn in E. injection E as -> ->. by apply relative_spec in Er as <-.
  - intros Hr. exists (sub src rel, n). rewrite Hwalk, elem_of_map_to_list. split; [done|]. cbn. by rewrite (proj2 (relative_spec src _ rel) eq_refl).
Qed.

(** The whole tree is copied, and nothing else changes but missing parents. *)
Lemma copyDirTree_ok : exists fs', copyDirTree walk no_fail src dst fs0 = (fs', true) /\
  (forall rel, fs' !! sub dst rel = fs0 !! sub src rel) /\
  (forall q, under dst q = false -> fs' !! q = fs0 !! q \/ (q ∈ ancestors dst /\ fs' !! q = Some Dir)).
Proof using All.
  unfold copyDirTree. rewrite Hsrc.
  destruct (copy_entries_ok (entries walk src fs0) fs0 copying_start) as (fs' & E & [Ha Hb] & Hl & _); [by intros [rel n] He%entries_spec|].
  exists fs'. split; [done|]. split; [|done]. intros rel. destruct (fs0 !! sub src rel) as [n|] eqn:Er.
  - by apply (Hl (rel, n)), entries_spec.
  - destruct (fs' !! sub dst rel) as [n|] eqn:Ef; [|done]. apply Ha in Ef. congruence.
Qed.
End Copy.

(** ** Where volumes and snapshots live *)

Definition base (d : Driver) : Path := Clean (dr_baseDir d).

Lemma validate_plain s : validateSegment s = true -> plain s /\ s <> ".snapshots".
Proof.
  intros Hv. unfold validateSegment in Hv. apply andb_true_iff in Hv as [[[[H1 H2]%andb_true_iff H3]%andb_true_iff H4]%andb_true_iff _].
  apply Nat.leb_le in H1. apply negb_true_iff, orb_false_iff in H2 as [H2 H2']. apply String.eqb_neq in H2, H2'.
  split; [split; [|split_and!; try done]|].
  - unfold no_slash. eapply str_all_impl; [|exact H4]. intros c Hc. by destruct c as [[] [] [] [] [] [] [] []].
  - intros ->. cbn in H1. unfold minSegLen in H1. lia.
  - intros ->. vm_compute in H4. discriminate H4.
Qed.

Lemma Join_two a b : a <> "" -> b <> "" -> Join [a; b] = Clean (a +:+ String "/" b).
Proof. intros Ha Hb. unfold Join. by rewrite !filter_cons, !decide_True. Qed.

Lemma Join_three a b c : a <> "" -> b <> "" -> c <> "" -> Join [a; b; c] = Clean (a +:+ String "/" (b +:+ String "/" c)).
Proof. intros Ha Hb Hc. unfold Join. by rewrite !filter_cons, !decide_True. Qed.

Lemma volume_path_eq d ns name : dr_baseDir d <> "" -> plain ns -> plain name -> volume_path d ns name = sub (base d) [ns; name].
Proof.
  intros Hb (Hn1 & Hn2 & Hn3) (Hm1 & Hm2 & Hm3). unfold volume_path. rewrite Join_three, clean_join by (done || rewrite parts_slash, !parts_plain; repeat constructor; try done; tauto).
  by rewrite parts_slash, !parts_plain.
Qed.

Lemma label_plain label ts : no_slash label = true -> no_slash ts = true -> plain (label +:+ "-" +:+ ts).
Proof.
  intros Hl Ht. assert (str_all (fun c => negb (Ascii.eqb c "-")) (label +:+ "-" +:+ ts) = false) as Hd.
  { rewrite !str_all_app. cbn. by rewrite andb_false_r. }
  split; [unfold no_slash in *; rewrite !str_all_app, Hl, Ht; done|]. split_and!; intros E; rewrite E in Hd; discriminate Hd.
Qed.

Lemma snapshots_dir d : dr_baseDir d <> "" -> Join [dr_baseDir d; ".snapshots"] = sub (base d) [".snapshots"].
Proof. intros Hb. rewrite Join_two, clean_join by (done || (repeat constructor; done)). done. Qed.

Lemma snapshot_path_eq d label ts : dr_baseDir d <> "" -> no_slash label = true -> no_slash ts = true ->
  snapshot_path d label ts = sub (base d) [".snapshots"; label +:+ "-" +:+ ts].
Proof.
  intros Hb Hl Ht. pose proof (label_plain label ts Hl Ht) as Hp. unfold snapshot_path.
  destruct (Clean_render (String.concat "/" (filter (fun e => e <> "") [dr_baseDir d; ".snapshots"]))) as [E1 E2]. fold (Join [dr_baseDir d; ".snapshots"]) in E1, E2.
  assert (parts (label +:+ "-" +:+ ts) = [label +:+ "-" +:+ ts]) as Hpl by (apply parts_plain, Hp).
  rewrite Join_two, clean_join by (done || (by apply Hp) || (rewrite Hpl; by apply Forall_singleton)).
  rewrite E1, snapshots_dir, Hpl by done. unfold sub. cbn. by rewrite <- app_assoc.
Qed.

(** [C21] Validated names keep volumes apart.  The directory of a volume whose
    namespace and name pass validation is the one of that name in the directory of
    that namespace in the base directory; it is not in the directory of the
    snapshots, and the directories of different volumes of one driver do not
    contain each other. *)
Theorem volumes_apart d ns name ns' name' :
  dr_baseDir d <> "" -> validateSegment ns = true -> validateSegment name = true -> validateSegment ns' = true -> validateSegment name' = true ->
  volume_path d ns name = sub (base d) [ns; name] /\
  (forall q, under (volume_path d ns name) q = true -> under (base d) q = true /\ under (Join [dr_baseDir d; ".snapshots"]) q = false) /\
  (under (volume_path d ns name) (volume_path d ns' name') = true -> ns = ns' /\ name = name').
Proof.
  intros Hb Hn Hm Hn' Hm'. apply validate_plain in Hn as [Hn Hsn], Hm as [Hm _], Hn' as [Hn' _], Hm' as [Hm' _].
  rewrite !volume_path_eq, snapshots_dir by done. split; [done|]. split.
  - intros q (rel & ->)%under_spec. split; [apply under_spec; exists ([ns; name] ++ rel); unfold sub; cbn; by rewrite <- app_assoc|].
    apply not_true_iff_false. intros (rel' & E)%under_spec. unfold sub in E. cbn in E. injection E as E. rewrite <- !app_assoc in E.
    apply app_inv_head in E. injection E as E _. done.
  - intros (rel & E)%under_spec. unfold sub in E. cbn in E. injection E as E. rewrite <- app_assoc in E. apply app_inv_head in E. by injection E as -> -> _.
Qed.

(** ** Snapshots *)

(** Every ancestor of an entry is a directory. *)
Definition rooted_tree (fs : FS) : Prop :=
  forall q n k, fs !! q = Some n -> (1 <= k < length q.2)%nat -> fs !! (q.1, take k q.2) = Some Dir.

Lemma tree_below fs p rel n k : rooted_tree fs -> p.2 <> [] -> fs !! sub p rel = Some n -> (k < length rel)%nat -> fs !! sub p (take k rel) = Some Dir.
Proof.
  intros Hw Hp Hr Hk. destruct p as [r l]. unfold sub in *. cbn in *. assert (length l <> 0)%nat by (by destruct l).
  pose proof (Hw _ n (length l + k)%nat Hr) as H'. cbn in H'. rewrite length_app in H'. specialize (H' ltac:(lia)).
  rewrite take_app, (take_ge l) in H' by lia. by replace (length l + k - length l)%nat with k in H' by lia.
Qed.

Lemma tree_absent fs p rel : rooted_tree fs -> p.2 <> [] -> fs !! p = None -> fs !! sub p rel = None.
Proof.
  intros Hw Hp Hn. destruct (fs !! sub p rel) as [n|] eqn:E; [|done]. exfalso. destruct rel as [|a rel].
  - unfold sub in E. rewrite app_nil_r in E. destruct p; cbn in *. congruence.
  - pose proof (tree_below fs p (a :: rel) n 0 Hw Hp E ltac:(cbn; lia)) as H'. unfold sub in H'. cbn in H'. rewrite app_nil_r in H'. destruct p; cbn in *. congruence.
Qed.

Lemma ancestors_snoc b x q : q ∈ ancestors (sub b [x]) <-> q ∈ ancestors b \/ q = sub b [x].
Proof.
  rewrite !ancestors_spec. unfold sub. cbn [fst snd]. split.
  - intros (m & Hm & ->). rewrite length_app in Hm. cbn in Hm. destruct (decide (m = length b.2 + 1)%nat) as [->|].
    + right. by rewrite take_ge by (rewrite length_app; cbn; lia).
    + left. exists m. split; [lia|]. f_equal. rewrite take_app. replace (m - length b.2)%nat with 0%nat by lia. by rewrite firstn_O, app_nil_r.
  - intros [(m & Hm & ->)| ->].
    + exists m. rewrite length_app. split; [cbn; lia|]. f_equal. rewrite take_app. replace (m - length b.2)%nat with 0%nat by lia. by rewrite firstn_O, app_nil_r.
    + exists (length b.2 + 1)%nat. rewrite length_app. split; [cbn; lia|]. by rewrite take_ge by (rewrite length_app; cbn; lia).
Qed.

Lemma sub_two b x y : sub b [x; y] = sub (sub b [x]) [y].
Proof. unfold sub. cbn. by rewrite <- app_assoc. Qed.

Lemma ancestors_two b x y q : q ∈ ancestors (sub b [x; y]) <-> q ∈ ancestors b \/ q = sub b [x] \/ q = sub b [x; y].
Proof. rewrite sub_two, !ancestors_snoc. tauto. Qed.

Lemma above fs b u v n q : rooted_tree fs -> fs !! sub b [u; v] = Some n -> q ∈ ancestors b -> fs !! q = Some Dir.
Proof.
  intros Hw Hn (m & Hm & ->)%ancestors_spec. pose proof (Hw _ n m Hn) as H'. unfold sub in H'. cbn in H'. rewrite length_app in H'.
  specialize (H' ltac:(cbn; lia)). rewrite take_app in H'. replace (m - length b.2)%nat with 0%nat in H' by lia. by rewrite firstn_O, app_nil_r in H'.
Qed.

Lemma dir_not_file fs q : fs !! q = Some Dir -> is_file fs q = false.
Proof. unfold is_file. by intros ->. Qed.

(** A longer path is no ancestor. *)
Lemma not_ancestor p q : (length p.2 < length q.2)%nat -> q ∉ ancestors p.
Proof. intros Hl (m & Hm & ->)%ancestors_spec. cbn in Hl. rewrite length_take in Hl. lia. Qed.

Lemma handle_for_path d p : handle_path (handle_for d p) = render p.
Proof. unfold handle_path, handle_for. by rewrite lookup_insert_eq. Qed.

Section RoundTrip.
Context (walk : FS -> list (Path * Node)) (Hwalk : forall fs, walk fs ≡ₚ map_to_list fs).
Context (d : Driver) (Hbase : dr_baseDir d <> "").

(** Making the directory of the snapshots disturbs nothing of two levels. *)
Lemma snapshots_made fs ns name n : rooted_tree fs -> fs !! sub (base d) [ns; name] = Some n -> is_file fs (sub (base d) [".snapshots"]) = false ->
  exists fsA, MkdirAll (Join [dr_baseDir d; ".snapshots"]) fs = Some fsA /\
    (forall q, q ∈ ancestors (sub (base d) [".snapshots"]) -> is_file fsA q = false) /\
    (forall u v rel, fsA !! sub (sub (base d) [u; v]) rel = fs !! sub (sub (base d) [u; v]) rel).
Proof using Hbase.
  intros Hw Hn Hf. rewrite snapshots_dir by done.
  assert (forall q, q ∈ ancestors (sub (base d) [".snapshots"]) -> is_file fs q = false) as Hanc.
  { intros q [Hq| ->]%ancestors_snoc; [|done]. by eapply dir_not_file, above. }
  destruct (MkdirAll_ok _ fs Hanc) as (fsA & E & Hl). exists fsA. split; [done|]. split.
  - intros q Hq. unfold is_file. by rewrite Hl, decide_True.
  - intros u v rel. rewrite Hl, decide_False; [done|]. apply not_ancestor. unfold sub. cbn. rewrite !length_app. cbn. lia.
Qed.

Lemma two_nonempty u v : (sub (base d) [u; v]).2 <> [].
Proof. unfold sub. cbn. intros E. by apply app_eq_nil in E as [_ ?]. Qed.

(** A volume, its snapshot, and the tree below each. *)
Lemma snapshot_taken fs ns name label ts :
  plain ns -> ns <> ".snapshots" -> plain name -> no_slash label = true -> no_slash ts = true ->
  rooted_tree fs -> fs !! volume_path d ns name = Some Dir -> fs !! snapshot_path d label ts = None -> is_file fs (Join [dr_baseDir d; ".snapshots"]) = false ->
  exists fs1, local_Snapshot walk no_fail d ts (handle_for d (volume_path d ns name)) label fs = (fs1, Some (render (snapshot_path d label ts))) /\
    (forall rel, fs1 !! sub (snapshot_path d label ts) rel = fs !! sub (volume_path d ns name) rel) /\
    (forall u v rel, u <> ".snapshots" -> fs1 !! sub (sub (base d) [u; v]) rel = fs !! sub (sub (base d) [u; v]) rel).
Proof using All.
  intros Hn Hns Hm Hl Ht Hw Hv Hs Hf. unfold local_Snapshot. rewrite handle_for_path.
  destruct (Clean_render (String.concat "/" (filter (fun e => e <> "") [dr_baseDir d; ns; name]))) as [Ec Er].
  fold (Join [dr_baseDir d; ns; name]) in Ec, Er. fold (volume_path d ns name) in Ec, Er. apply String.eqb_neq in Er. rewrite Er, Ec.
  rewrite !snapshot_path_eq in * by done. rewrite !volume_path_eq in * by done. rewrite snapshots_dir in Hf by done.
  destruct (snapshots_made fs ns name Dir Hw Hv Hf) as (fsA & -> & HA & Hsame).
  assert (forall u v, fsA !! sub (base d) [u; v] = fs !! sub (base d) [u; v]) as Hat.
  { intros u v. specialize (Hsame u v []). unfold sub in *. cbn in *. by rewrite !app_nil_r in Hsame. }
  destruct (copyDirTree_ok (sub (base d) [ns; name]) (sub (base d) [".snapshots"; label +:+ "-" +:+ ts]) fsA) with (walk := walk) as (fs1 & E1 & Hcopy & Hrest).
  - by rewrite Hat.
  - intros rel n k. rewrite !Hsame. intros Hr Hk. eapply tree_below; [done|apply two_nonempty|exact Hr|done].
  - intros rel. rewrite Hsame. apply tree_absent; [done|apply two_nonempty|done].
  - intros q [Hq|[Hq| ->]]%ancestors_two; [apply HA, ancestors_snoc; by left|apply HA, ancestors_snoc; by right|]. unfold is_file. by rewrite Hat, Hs.
  - apply two_nonempty.
  - done.
  - rewrite E1. exists fs1. split; [done|]. split; [intros rel; by rewrite Hcopy, Hsame|].
    intros u v rel Hu. rewrite <- Hsame. destruct (Hrest (sub (sub (base d) [u; v]) rel)) as [->|[Hq _]]; [|done|].
    + apply not_true_iff_false. intros (rel' & E)%under_spec. unfold sub in E. cbn in E. injection E as E. rewrite <- !app_assoc in E.
      apply app_inv_head in E. by injection E as E _.
    + exfalso. apply ancestors_two in Hq as [Hq|[E|E]].
      * revert Hq. apply not_ancestor. unfold sub. cbn. rewrite !length_app. cbn. lia.
      * unfold sub in E. cbn in E. injection E as E. rewrite <- !app_assoc in E. apply app_inv_head in E. by injection E as E _.
      * unfold sub in E. cbn in E. injection E as E. rewrite <- !app_assoc in E. apply app_inv_head in E. by injection E as E _.
Qed.

Lemma snapshot_restored fs ref ns name x y :
  plain ns -> plain name -> plain x -> plain y -> rooted_tree fs -> ref = render (sub (base d) [x; y]) -> fs !! sub (base d) [x; y] = Some Dir ->
  fs !! volume_path d ns name = None -> is_file fs (sub (base d) [ns]) = false ->
  exists fs', local_RestoreFrom walk no_fail d ref ns name fs = (fs', Some (handle_for d (volume_path d ns name))) /\
    forall rel, fs' !! sub (volume_path d ns name) rel = fs !! sub (sub (base d) [x; y]) rel.
Proof using All.
  intros Hn Hm Hx Hy Hw -> Hs Hv Hf. unfold local_RestoreFrom.
  destruct (render_normal (sub (base d) [x; y])) as [Ec Er].
  { destruct (Clean_normal (dr_baseDir d)) as (n & l & E & Hl & Hr). fold (base d) in E, Hr. exists n, (l ++ [x; y]). unfold sub. cbn [fst snd].
    rewrite E, <- app_assoc. split_and!; [done|apply Forall_app; split; [done|constructor; [done|by apply Forall_singleton]]|done]. }
  apply String.eqb_neq in Er. rewrite Er, Ec. unfold exists_at. rewrite Hs, Hv. cbn [negb]. rewrite volume_path_eq in * by done.
  destruct (copyDirTree_ok (sub (base d) [x; y]) (sub (base d) [ns; name]) fs Hs) with (walk := walk) as (fs' & E1 & Hcopy & _).
  - intros rel n k Hr Hk. eapply tree_below; [done|apply two_nonempty|exact Hr|done].
  - intros rel. apply tree_absent; [done|apply two_nonempty|done].
  - intros q [Hq|[-> | ->]]%ancestors_two; [by eapply dir_not_file, above|done|]. unfold is_file. by rewrite Hv.
  - apply two_nonempty.
  - done.
  - rewrite E1. by exists fs'.
Qed.
End RoundTrip.

(** [C20] A snapshot restores to the tree it was taken from.  Let a volume with a
    validated name exist, in a file system where everything lies in directories, where no
    write fails, and whose directory for snapshots is not a file.  Let the label and the
    time stamp hold no slash, which nobody checks for a label, and let the place of the
    snapshot be free.  Then taking a snapshot succeeds and leaves every volume with a
    validated name as it was.  And from any later file system of that kind that still has
    the snapshot, whatever has become of the volume, restoring it succeeds under a
    validated name that is free, in a namespace whose place is not taken by a file, and the
    new volume has exactly the directories and files, with their contents, that the old
    one had when the snapshot was taken.  Modes and links are not modelled. *)
Theorem snapshot_round_trip walk d fs ns name label ts :
  (forall fs, walk fs ≡ₚ map_to_list fs) -> dr_baseDir d <> "" ->
  validateSegment ns = true -> validateSegment name = true -> no_slash label = true -> no_slash ts = true ->
  rooted_tree fs -> fs !! volume_path d ns name = Some Dir ->
  fs !! snapshot_path d label ts = None -> is_file fs (Join [dr_baseDir d; ".snapshots"]) = false ->
  exists fs1 ref, local_Snapshot walk no_fail d ts (handle_for d (volume_path d ns name)) label fs = (fs1, Some ref) /\
    (forall u v rel, validateSegment u = true -> validateSegment v = true -> fs1 !! sub (volume_path d u v) rel = fs !! sub (volume_path d u v) rel) /\
    forall fs2 ns' name', rooted_tree fs2 -> (forall rel, fs2 !! sub (snapshot_path d label ts) rel = fs1 !! sub (snapshot_path d label ts) rel) ->
      validateSegment ns' = true -> validateSegment name' = true ->
      fs2 !! volume_path d ns' name' = None -> is_file fs2 (Join [dr_baseDir d; ns']) = false ->
      exists fs3, local_RestoreFrom walk no_fail d ref ns' name' fs2 = (fs3, Some (handle_for d (volume_path d ns' name'))) /\
        forall rel, fs3 !! sub (volume_path d ns' name') rel = fs !! sub (volume_path d ns name) rel.
Proof.
  intros Hwalk Hb Hn Hm Hl Ht Hw Hv Hs Hf. apply validate_plain in Hn as [Hn Hns], Hm as [Hm _].
  destruct (snapshot_taken walk Hwalk d Hb fs ns name label ts) as (fs1 & E1 & Hcopy & Hkeep); try done.
  exists fs1, (render (snapshot_path d label ts)). split; [done|]. split.
  - intros u v rel [Hu Hus]%validate_plain [Hv' _]%validate_plain. rewrite volume_path_eq by done. by apply Hkeep.
  - intros fs2 ns' name' Hw2 Hsnap [Hn' _]%validate_plain [Hm' _]%validate_plain Hfree Hdir.
    assert (fs2 !! snapshot_path d label ts = Some Dir) as Hs2.
    { specialize (Hsnap []). specialize (Hcopy []). unfold sub in *. rewrite !app_nil_r in *. destruct (snapshot_path d label ts), (volume_path d ns name). cbn in *. congruence. }
    assert (Join [dr_baseDir d; ns'] = sub (base d) [ns']) as Ej.
    { destruct Hn' as (Hp & Hn1 & Hn2). rewrite Join_two, clean_join by (done || (rewrite parts_plain by done; by apply Forall_singleton)). by rewrite parts_plain. }
    rewrite Ej in Hdir. pose proof (snapshot_path_eq d label ts Hb Hl Ht) as Ep.
    destruct (snapshot_restored walk Hwalk d Hb fs2 (render (snapshot_path d label ts)) ns' name' ".snapshots" (label +:+ "-" +:+ ts)) as (fs3 & E3 & H3); try done.
    + by apply label_plain.
    + by rewrite Ep.
    + by rewrite <- Ep.
    + exists fs3. split; [done|]. intros rel. by rewrite H3, <- Ep, Hsnap, Hcopy.
Qed.

(** A volume is mounted only on the node that its handle names. *)
Lemma mount_bound d p req fs fs' point :
  dr_nodeID d <> "" -> mr_Handle req = handle_for d p -> local_Mount req fs = (fs', Some point) -> mr_NodeID req = dr_nodeID d /\ point = render p.
Proof.
  intros Hd Hh. unfold local_Mount. rewrite Hh, handle_for_path.
  assert (handle_for d p !! "nodeID" = Some (dr_nodeID d)) as -> by (unfold handle_for; rewrite lookup_insert_ne by done; apply lookup_singleton_eq).
  cbn [default id]. apply String.eqb_neq in Hd as ->. cbn [negb andb].
  destruct (String.eqb_spec (dr_nodeID d) (mr_NodeID req)) as [E|]; [|done]. cbn [negb].
  destruct (String.eqb (render p) ""); [done|]. destruct (MkdirAll _ _); [|done]. by intros [= _ <-].
Qed.

(** ** Witnesses and limits *)

Module DemoDisk.
Definition driver : Driver := mkLocal "node-1" "/data".
Definition fs : FS :=
  <[(true, ["data"]) := Dir]> (<[(true, ["data"; "prod"]) := Dir]> (<[(true, ["data"; "prod"; "db"]) := Dir]>
    {[(true, ["data"; "prod"; "db"; "rows"]) := File "42"]})).

Lemma is_tree : rooted_tree fs.
Proof.
  assert (map_Forall (fun q (_ : Node) => Forall (fun k => fs !! (q.1, take k q.2) = Some Dir) (seq 1 (length q.2 - 1))) fs) as H.
  { unfold fs at 2. repeat (apply map_Forall_insert_2; [repeat constructor|]). apply map_Forall_empty. }
  intros q n k Hq Hk. specialize (H q n Hq). rewrite Forall_forall in H. apply (H k), elem_of_seq. lia.
Qed.
End DemoDisk.
Import DemoDisk.

Lemma snapshot_round_trip_witness :
  exists fs1 ref, local_Snapshot map_to_list no_fail driver "20260101T000000Z" (handle_for driver (volume_path driver "prod" "db")) "nightly" fs = (fs1, Some ref) /\
    fs1 !! sub (volume_path driver "prod" "db") ["rows"] = Some (File "42").
Proof.
  destruct (snapshot_round_trip map_to_list driver fs "prod" "db" "nightly" "20260101T000000Z") as (fs1 & ref & E & Hkeep & _).
  - done.
  - done.
  - reflexivity.
  - reflexivity.
  - reflexivity.
  - reflexivity.
  - exact is_tree.
  - reflexivity.
  - reflexivity.
  - reflexivity.
  - exists fs1, ref. split; [exact E|]. rewrite (Hkeep "prod" "db" ["rows"] eq_refl eq_refl). reflexivity.
Defined.

Lemma volumes_apart_witness : volume_path driver "prod" "db" = (true, ["data"; "prod"; "db"]).
Proof. exact (proj1 (volumes_apart driver "prod" "db" "prod" "cache" ltac:(done) eq_refl eq_refl eq_refl eq_refl)). Defined.

(** Names that were not validated leave the base directory, and so does the label
    of a snapshot. *)
Example restore_escapes : volume_path driver ".." "etc" = (true, ["etc"]) /\ snapshot_path driver "../../etc/x" "t" = (true, ["etc"; "x-t"]).
Proof. vm_compute. done. Qed.

(** A label may hold slashes: this snapshot of one volume is written into another one,
    whose file it replaces. *)
Example label_escapes :
  let two := <[(true, ["data"; "prod"; "web-t"]) := Dir]> (<[(true, ["data"; "prod"; "web-t"; "rows"]) := File "hi"]> fs) in
  validateSegment "web-t" = true /\
  let res := local_Snapshot map_to_list no_fail driver "t" (handle_for driver (volume_path driver "prod" "db")) "../prod/web" two in
  two !! sub (volume_path driver "prod" "web-t") ["rows"] = Some (File "hi") /\
  res.2 = Some "/data/prod/web-t" /\ res.1 !! sub (volume_path driver "prod" "web-t") ["rows"] = Some (File "42").
Proof. vm_compute. done. Qed.

(** Two snapshots with the same label in the same second share a directory: the
    second has the files of both volumes. *)
Example snapshots_merge :
  let two := <[(true, ["data"; "prod"; "web"]) := Dir]> (<[(true, ["data"; "prod"; "web"; "page"]) := File "hi"]> fs) in
  let fs1 := (local_Snapshot map_to_list no_fail driver "t" (handle_for driver (volume_path driver "prod" "db")) "nightly" two).1 in
  let fs2 := (local_Snapshot map_to_list no_fail driver "t" (handle_for driver (volume_path driver "prod" "web")) "nightly" fs1).1 in
  fs2 !! sub (snapshot_path driver "nightly" "t") ["rows"] = Some (File "42") /\ fs2 !! sub (snapshot_path driver "nightly" "t") ["page"] = Some (File "hi").
Proof. vm_compute. done. Qed.

(** An instance of the mock runtime that was stopped is never running again. *)
Example mock_never_restarts :
  let h := mkHandle "mock" "i" ∅ in
  let run := mock_state (fun _ => false) in
  mock_Health (fun _ => false) h (run [CStart h]) = Some true /\
  mock_Health (fun _ => false) h (run [CStart h; CDestroy h; CStop h; CStart h]) = Some false.
Proof. vm_compute. done. Qed.
