(* ===== verification/Compute.v ===== *)
(** * The compute plane: tables, scheduler and monitors
      (compute/node/types.go, compute/schema, compute/api/scheduler.go,
      compute/api/monitor.go, compute/api/timeout_monitor.go)

    [CP] is the database of the control plane.  The pool has one connection
    with foreign keys on, so a statement or a transaction is atomic.  A handler or
    a pass of a monitor that makes several statements is not: the operations of
    this file run one at a time, and [ComputeConc] runs their statements
    interleaved.  Failures of the
    engine itself are left out; violated constraints are errors.  JSON columns
    are kept as values.  Integers of SQL do not wrap.

    [now] is the clock of a call in milliseconds.  [uuid n] is the n-th
    identifier drawn, [cp_drawn] counts the draws; a draw stays drawn when its
    transaction is rolled back.  The order of the rows of a query that SQL
    leaves open is [scan], any function that lists the rows. *)
From Stdlib Require Import String.
From S2P Require Import Prelude GoStr GoFloat GoSort.
Open Scope string_scope.
Open Scope list_scope.
Open Scope Z_scope.

(** ** Statuses *)

Inductive Status :=
| StatusJoining | StatusReady | StatusDraining | StatusBusy
| StatusDegraded | StatusLost | StatusDead | StatusStopping.

Inductive GPUHealth := GPUHealthReady | GPUHealthDegraded | GPUHealthFailed.

Inductive WorkloadStatus :=
| WSubmitted | WQueued | WScheduling | WReserved | WDispatched | WRunning | WCheckpointing
| WStopping | WCompleted | WFailed | WTimedOut | WCancelled.

Inductive ReservationState := RReserved | RAllocated | RRunning | RReleased.

#[export] Instance Status_eq : EqDecision Status.
Proof. solve_decision. Defined.
#[export] Instance GPUHealth_eq : EqDecision GPUHealth.
Proof. solve_decision. Defined.
#[export] Instance WorkloadStatus_eq : EqDecision WorkloadStatus.
Proof. solve_decision. Defined.
#[export] Instance ReservationState_eq : EqDecision ReservationState.
Proof. solve_decision. Defined.

Definition status_text (s : Status) : string :=
  match s with
  | StatusJoining => "joining" | StatusReady => "ready" | StatusDraining => "draining" | StatusBusy => "busy"
  | StatusDegraded => "degraded" | StatusLost => "lost" | StatusDead => "dead" | StatusStopping => "stopping"
  end.

Definition health_text (h : GPUHealth) : string :=
  match h with GPUHealthReady => "ready" | GPUHealthDegraded => "degraded" | GPUHealthFailed => "failed" end.

Definition workload_status_text (s : WorkloadStatus) : string :=
  match s with
  | WSubmitted => "submitted" | WQueued => "queued" | WScheduling => "scheduling" | WReserved => "reserved"
  | WDispatched => "dispatched" | WRunning => "running" | WCheckpointing => "checkpointing"
  | WStopping => "stopping" | WCompleted => "completed" | WFailed => "failed" | WTimedOut => "timed_out"
  | WCancelled => "cancelled"
  end.

(** The CHECK constraints on texts that requests supply: [None] when the
    constraint is violated. *)
Definition check_status (s : string) : option Status :=
  find (fun st => String.eqb s (status_text st))
    [StatusJoining; StatusReady; StatusDraining; StatusBusy; StatusDegraded; StatusLost; StatusDead; StatusStopping].

Definition check_health (s : string) : option GPUHealth :=
  find (fun h => String.eqb s (health_text h)) [GPUHealthReady; GPUHealthDegraded; GPUHealthFailed].

(** ** Manifests *)

Record ResourceSpec := mkSpec {
  rs_CPUMillicores : Z;
  rs_RAMMb : Z;
  rs_GPUCount : Z;
  rs_GPUVRAMMb : Z
}.

Record VolumeMount := mkMount {
  vm_VolumeID : string;
  vm_MountPoint : string;
  vm_Driver : string;
  vm_ReadOnly : bool
}.

Record WorkloadManifest := mkManifest {
  wm_Name : string;
  wm_Type : string;
  wm_ImageRef : string;
  wm_Entrypoint : string;
  wm_Args : list string;
  wm_Env : gmap string string;
  wm_Resources : ResourceSpec;
  wm_Volumes : list VolumeMount;
  wm_CheckpointIntervalSec : Z;
  wm_TimeoutSec : Z
}.

(** ** Rows *)

Record NodeRow := mkNode {
  n_hostname : string;
  n_display_name : string;
  n_arch : string;
  n_cpu_cores : Z;
  n_ram_mb : Z;
  n_storage_gb : Z;
  n_labels : option (gmap string string);
  n_status : Status;
  n_last_heartbeat : option Z;
  n_agent_version : string;
  n_node_secret_hash : string;
  n_created_at : Z;
  n_drain_at : option Z
}.

Record GPURow := mkGPU {
  g_node_id : string;
  g_device_index : Z;
  g_model : string;
  g_vram_mb : Z;
  g_cuda_cap : string;
  g_health : GPUHealth;
  g_vram_reserved : Z;
  g_workload_id : option string
}.

Record WorkloadRow := mkWorkload {
  w_org_id : string;
  w_project_id : option string;
  w_account_id : option string;
  w_name : string;
  w_status : WorkloadStatus;
  w_priority : Z;
  w_manifest : WorkloadManifest;
  w_node_id : option string;
  w_submitted_at : Z;
  w_deadline : option Z;
  w_queued_at : option Z;
  w_scheduled_at : option Z;
  w_started_at : option Z;
  w_finished_at : option Z;
  w_exit_code : option Z;
  w_failure_msg : option string;
  w_retry_count : Z;
  w_max_retries : Z
}.

Record Reservation := mkReservation {
  r_node_id : string;
  r_workload_id : string;
  r_cpu_mcores : Z;
  r_ram_mb : Z;
  r_gpu_id : option string;
  r_gpu_vram_mb : Z;
  r_state : ReservationState;
  r_created_at : Z;
  r_released_at : option Z
}.

Inductive PayloadValue := PStr (s : string) | PInt (z : Z).

Record EventRow := mkEvent {
  ev_id : string;
  ev_ts : Z;
  ev_org_id : string;
  ev_actor : string;
  ev_kind : string;
  ev_subject_type : string;
  ev_subject_id : string;
  ev_payload : list (string * PayloadValue)
}.

Record OrgRow := mkOrg { o_name : string; o_created_at : Z }.

Record AccountRow := mkAccount {
  a_org_id : string;
  a_project_id : option string;
  a_username : string;
  a_role : string;
  a_secret_hash : string;
  a_created_at : Z;
  a_deleted_at : option Z
}.

Record ArtifactRow := mkArtifact {
  ar_type : string;
  ar_name : string;
  ar_version : string;
  ar_arch : string;
  ar_size_bytes : Z;
  ar_entrypoint : option string;
  ar_dependencies : option (list string);
  ar_signature : option string;
  ar_publisher : option string;
  ar_manifest : string;
  ar_created_at : Z
}.

Record VolumeRow := mkVolume {
  v_driver : string;
  v_source_path : option string;
  v_deleted_at : option Z
}.

Record WorkloadMetricsRow := mkWMetrics {
  m_interval_sec : Z;
  m_cpu_millicore_sec : Z;
  m_ram_mb_sec : Z;
  m_gpu_vram_mb_sec : Z;
  m_bytes_read : Z;
  m_bytes_written : Z;
  m_net_bytes_in : Z;
  m_net_bytes_out : Z
}.

Record NodeMetricsRow := mkNMetrics {
  nm_interval_sec : Z;
  nm_cpu_millicore_sec : Z;
  nm_ram_mb_sec : Z;
  nm_watts_sec : float64
}.

(** compute.db.  [cp_projects] and [cp_volumes] are written by no operation of
    the repository. *)
Record CP := mkCP {
  cp_orgs : gmap string OrgRow;
  cp_projects : gset string;
  cp_accounts : gmap string AccountRow;
  cp_nodes : gmap string NodeRow;
  cp_gpus : gmap string GPURow;
  cp_economics : gset string;
  cp_artifacts : gmap string ArtifactRow;
  cp_volumes : gmap string VolumeRow;
  cp_workloads : gmap string WorkloadRow;
  cp_reservations : gmap string Reservation;
  cp_events : list EventRow;
  cp_wmetrics : gmap (string * Z) WorkloadMetricsRow;
  cp_nmetrics : gmap (string * Z) NodeMetricsRow;
  cp_drawn : nat
}.

(** compute.db after [schema.Open] on a new file. *)
Definition Open : CP := mkCP ∅ ∅ ∅ ∅ ∅ ∅ ∅ ∅ ∅ ∅ [] ∅ ∅ 0.

(** An UPDATE of the rows of a table that satisfy its WHERE clause. *)
Definition update_where {A} (P : string -> A -> bool) (f : A -> A) (m : gmap string A) : gmap string A :=
  map_imap (fun k a => Some (if P k a then f a else a)) m.

(** A scan order of the rows of a query. *)
Definition scan_ok (scan : forall A, gmap string A -> list (string * A)) : Prop :=
  forall A (m : gmap string A), scan A m ≡ₚ map_to_list m.

Section Compute.
Context (uuid : nat -> string).
Context (scan : forall A, gmap string A -> list (string * A)).

(** The rows that satisfy a WHERE clause. *)
Definition select {A} (P : string -> A -> bool) (m : gmap string A) : list (string * A) :=
  scan A (filter (fun kv => P kv.1 kv.2 = true) m).

(** [uuid.New] *)
Definition draw (c : CP) : string * CP :=
  (uuid (cp_drawn c), c {{ cp_drawn := S (cp_drawn c) }}).

(** Every caller drops the error, so a duplicate id leaves the journal alone. *)
Definition insertEvent (now : Z) (actor subjectType subjectID kind : string)
    (payload : list (string * PayloadValue)) (c : CP) : CP :=
  let '(id, c) := draw c in
  if existsb (fun e => String.eqb (ev_id e) id) (cp_events c) then c
  else c {{ cp_events := cp_events c ++ [mkEvent id now "" actor kind subjectType subjectID payload] }}.

(** ** scheduler.go *)

Definition schedulerBatchSize : Z := 16.

Record pendingWork := mkPending {
  pw_id : string;
  pw_orgID : string;
  pw_manifest : WorkloadManifest;
  pw_priority : Z
}.

Definition pending_status (s : WorkloadStatus) : bool :=
  match s with WSubmitted | WQueued => true | _ => false end.

Definition active (r : Reservation) : bool :=
  match r_state r with RReserved | RAllocated | RRunning => true | RReleased => false end.

(** The sums of the active reservations of a node. *)
Definition used (f : Reservation -> Z) (nodeID : string) (c : CP) : Z :=
  map_sum (fun r => if active r && String.eqb (r_node_id r) nodeID then f r else 0) (cp_reservations c).

Definition free_cpu (c : CP) (id : string) (n : NodeRow) : Z := n_cpu_cores n * 1000 - used r_cpu_mcores id c.
Definition free_ram (c : CP) (id : string) (n : NodeRow) : Z := n_ram_mb n - used r_ram_mb id c.

Definition accepting (s : Status) : bool :=
  match s with StatusReady | StatusBusy => true | _ => false end.

(** The condition on the GPU shared by [findNode] and [findFreeGPU]. *)
Definition gpu_fits (nodeID : string) (minVRAMMb : Z) (g : GPURow) : bool :=
  String.eqb (g_node_id g) nodeID &&
  bool_decide (g_workload_id g = None) &&
  bool_decide (g_health g = GPUHealthReady) &&
  (minVRAMMb <=? g_vram_mb g).

Definition node_fits (c : CP) (res : ResourceSpec) (id : string) (n : NodeRow) : bool :=
  accepting (n_status n) &&
  (rs_CPUMillicores res <=? free_cpu c id n) &&
  (rs_RAMMb res <=? free_ram c id n) &&
  ((rs_GPUCount res =? 0) ||
   existsb (fun kv => gpu_fits id (rs_GPUVRAMMb res) kv.2) (map_to_list (cp_gpus c))).

Definition findNode (res : ResourceSpec) (c : CP) : option string :=
  fst <$> head (slice_stable (fun a b => free_ram c a.1 a.2 <? free_ram c b.1 b.2)
                 (select (node_fits c res) (cp_nodes c))).

Definition findFreeGPU (nodeID : string) (minVRAMMb : Z) (c : CP) : option (string * Z) :=
  (fun kv => (kv.1, g_vram_mb kv.2)) <$>
  head (slice_stable (fun a b => g_vram_mb a.2 <? g_vram_mb b.2)
         (select (fun _ => gpu_fits nodeID minVRAMMb) (cp_gpus c))).

(** The rest of the transaction once the node and the GPU are chosen: the
    reservation, the claim on the GPU, and the workload if it is still pending;
    else everything but the draw is rolled back.  [Err] is a violated
    constraint. *)
Definition dispatch (now : Z) (pw : pendingWork) (nodeID : string) (gpu : option (string * Z)) (c : CP)
    : CP * result unit bool :=
  let res := wm_Resources (pw_manifest pw) in
  let '(reservationID, c0) := draw c in
  let gpuID := fst <$> gpu in
  let gpuVRAMMb := default 0 (snd <$> gpu) in
  if bool_decide (is_Some (cp_reservations c0 !! reservationID)) then (c0, Err tt)
  else
    match cp_workloads c0 !! pw_id pw with
    | None => (c0, Err tt)
    | Some w =>
        if pending_status (w_status w) then
          let c1 := c0 {{ cp_reservations := <[reservationID := mkReservation nodeID (pw_id pw)
                            (rs_CPUMillicores res) (rs_RAMMb res) gpuID gpuVRAMMb RReserved now None]>
                            (cp_reservations c0) }} in
          let c2 := match gpuID with
                    | Some g => c1 {{ cp_gpus := alter (fun r => r {{ g_workload_id := Some (pw_id pw) }} {{ g_vram_reserved := gpuVRAMMb }}) g (cp_gpus c1) }}
                    | None => c1
                    end in
          let w' := w {{ w_status := WDispatched }} {{ w_node_id := Some nodeID }}
                      {{ w_scheduled_at := Some now }}
                      {{ w_queued_at := match w_queued_at w with Some t => Some t | None => Some now end }} in
          let c3 := c2 {{ cp_workloads := <[pw_id pw := w']> (cp_workloads c2) }} in
          (insertEvent now "system" "workload" (pw_id pw) "workload.scheduled"
             [("node_id", PStr nodeID); ("cpu_millicores", PInt (rs_CPUMillicores res));
              ("ram_mb", PInt (rs_RAMMb res)); ("gpu_id", PStr (default "" gpuID));
              ("reservation_id", PStr reservationID)] c3, Ok true)
        else (c0, Ok false)
    end.

Definition scheduleOne (now : Z) (pw : pendingWork) (c : CP) : CP * result unit bool :=
  let res := wm_Resources (pw_manifest pw) in
  if 1 <? rs_GPUCount res then (c, Ok false)
  else
    match findNode res c with
    | None => (c, Ok false)
    | Some nodeID =>
        if rs_GPUCount res =? 1 then
          match findFreeGPU nodeID (rs_GPUVRAMMb res) c with
          | None => (c, Ok false)
          | Some gpu => dispatch now pw nodeID (Some gpu) c
          end
        else dispatch now pw nodeID None c
    end.

(** [ORDER BY priority DESC, COALESCE(queued_at, submitted_at) ASC LIMIT 16] *)
Definition before (a b : string * WorkloadRow) : bool :=
  let t w := default (w_submitted_at w) (w_queued_at w) in
  (w_priority b.2 <? w_priority a.2) ||
  ((w_priority a.2 =? w_priority b.2) && (t a.2 <? t b.2)).

Definition pending_batch (c : CP) : list pendingWork :=
  (fun kv => mkPending kv.1 (w_org_id kv.2) (w_manifest kv.2) (w_priority kv.2)) <$>
  take (Z.to_nat schedulerBatchSize)
    (slice_stable before (select (fun _ w => pending_status (w_status w)) (cp_workloads c))).

Definition scheduleBatch (now : Z) (c : CP) : CP :=
  foldl (fun c pw => (scheduleOne now pw c).1) c (pending_batch c).

(** Whether the workload was put back in the queue. *)
Definition tryRequeueIfEligible (now : Z) (workloadID reason : string) (c : CP) : CP * bool :=
  match cp_workloads c !! workloadID with
  | Some w =>
      if (w_retry_count w <? w_max_retries w) && bool_decide (w_status w = WFailed \/ w_status w = WTimedOut) then
        let w' := w {{ w_status := WQueued }} {{ w_queued_at := Some now }} {{ w_node_id := None }}
                    {{ w_retry_count := w_retry_count w + 1 }} {{ w_failure_msg := Some reason }} in
        (insertEvent now "system" "workload" workloadID "workload.requeued" [("reason", PStr reason)]
           (c {{ cp_workloads := <[workloadID := w']> (cp_workloads c) }}), true)
      else (c, false)
  | None => (c, false)
  end.

(** The two statements of [releaseWorkloadResources]. *)
Definition release_reservations (workloadID : string) (finishedAt : Z) (c : CP) : CP :=
  c {{ cp_reservations :=
         update_where (fun _ r => String.eqb (r_workload_id r) workloadID && negb (bool_decide (r_state r = RReleased)))
           (fun r => r {{ r_state := RReleased }} {{ r_released_at := Some finishedAt }}) (cp_reservations c) }}.

Definition free_gpus (workloadID : string) (c : CP) : CP :=
  c {{ cp_gpus :=
         update_where (fun _ g => bool_decide (g_workload_id g = Some workloadID))
           (fun g => g {{ g_workload_id := None }} {{ g_vram_reserved := 0 }}) (cp_gpus c) }}.

Definition releaseWorkloadResources (workloadID : string) (finishedAt : Z) (c : CP) : CP :=
  free_gpus workloadID (release_reservations workloadID finishedAt c).

(** ** timeout_monitor.go *)

Definition executing (s : WorkloadStatus) : bool :=
  match s with WRunning | WCheckpointing => true | _ => false end.

Definition expired (now : Z) (w : WorkloadRow) : bool :=
  executing (w_status w) && match w_deadline w with Some d => d <? now | None => false end.

(** [UPDATE workloads SET status = 'timed_out' ...], and whether a row changed. *)
Definition mark_timed_out (now : Z) (id : string) (c : CP) : CP * bool :=
  match cp_workloads c !! id with
  | Some w =>
      if executing (w_status w)
      then (c {{ cp_workloads := <[id := w {{ w_status := WTimedOut }} {{ w_finished_at := Some now }}]> (cp_workloads c) }}, true)
      else (c, false)
  | None => (c, false)
  end.

Definition time_out (now : Z) (c : CP) (id : string) : CP :=
  let '(c, changed) := mark_timed_out now id c in
  if changed
  then insertEvent now "system" "workload" id "workload.timed_out" [("reason", PStr "deadline_exceeded")]
         (releaseWorkloadResources id now c)
  else c.

(** [WorkloadTimeoutMonitor.check] *)
Definition check_timeouts (now : Z) (c : CP) : CP :=
  foldl (time_out now) c (fst <$> select (fun _ => expired now) (cp_workloads c)).

(** ** monitor.go *)

Definition occupies (s : WorkloadStatus) : bool :=
  match s with WDispatched | WRunning | WCheckpointing | WStopping => true | _ => false end.

Definition terminal (s : WorkloadStatus) : bool :=
  match s with WCompleted | WFailed | WTimedOut | WCancelled => true | _ => false end.

(** [UPDATE workloads SET status = 'failed' ...] *)
Definition mark_failed (now : Z) (wid : string) (c : CP) : CP :=
  let fail w := if terminal (w_status w) then w
                else w {{ w_status := WFailed }} {{ w_finished_at := Some now }} {{ w_failure_msg := Some "node lost" }} in
  c {{ cp_workloads := alter fail wid (cp_workloads c) }}.

(** One workload of a lost node. *)
Definition recover_workload (now : Z) (nodeID : string) (c : CP) (wid : string) : CP :=
  let c := releaseWorkloadResources wid now (mark_failed now wid c) in
  let '(c, requeued) := tryRequeueIfEligible now wid "node_lost" c in
  if requeued then c
  else insertEvent now "system" "workload" wid "workload.failed"
         [("reason", PStr "node_lost"); ("node_id", PStr nodeID)] c.

Definition on_node (nodeID : string) (c : CP) : list string :=
  fst <$> select (fun _ w => bool_decide (w_node_id w = Some nodeID) && occupies (w_status w)) (cp_workloads c).

Definition recoverNodeWorkloads (now : Z) (nodeID : string) (c : CP) : CP :=
  foldl (recover_workload now nodeID) c (on_node nodeID c).

Definition gone (s : Status) : bool :=
  match s with StatusLost | StatusDead => true | _ => false end.

Definition stale (threshold : Z) (n : NodeRow) : bool :=
  match n_last_heartbeat n with Some t => t <? threshold | None => false end && negb (gone (n_status n)).

(** [UPDATE nodes SET status = 'lost' ...], and whether a row changed. *)
Definition mark_lost (id : string) (c : CP) : CP * bool :=
  match cp_nodes c !! id with
  | Some n =>
      if gone (n_status n) then (c, false)
      else (c {{ cp_nodes := <[id := n {{ n_status := StatusLost }}]> (cp_nodes c) }}, true)
  | None => (c, false)
  end.

Definition lose_node (now lossAfter : Z) (c : CP) (id : string) : CP :=
  let '(c, changed) := mark_lost id c in
  if changed
  then recoverNodeWorkloads now id
         (insertEvent now "system" "node" id "node.lost"
            [("reason", PStr "heartbeat_timeout"); ("threshold_sec", PInt (Z.quot lossAfter 1000))] c)
  else c.

(** [NodeLossMonitor.check]; [lossAfter], three heartbeat intervals, in
    milliseconds. *)
Definition check_nodes (now lossAfter : Z) (c : CP) : CP :=
  foldl (lose_node now lossAfter) c (fst <$> select (fun _ => stale (now - lossAfter)) (cp_nodes c)).
End Compute.
