(* ===== verification/ComputeAgentApi.v ===== *)
(** * The compute plane: the API of the agents (compute/api/agent_handler.go)

    A handler maps a request and the database to the new database and a
    response, a status and a body before JSON encoding.  The JSON decoders are
    parameters that return the request or the text of their error; the random
    bytes of a secret are [rand32 n] for the n-th draw, [None] when the system
    has none to give. *)
From Stdlib Require Import Ascii String.
From S2P Require Import Prelude GoStr GoFloat GoSort GoCrypto Compute.
Open Scope list_scope.
Open Scope string_scope.
Open Scope Z_scope.

(** ** Requests (compute/node/types.go) *)

(** [q_path] has the segments of a canonical path; [q_body] is what reading the
    body returns, [Err] with the text of the error. *)
Record Request := mkReq {
  q_method : string;
  q_path : list string;
  q_authorization : string;
  q_node_id : string;
  q_timestamp : string;
  q_signature : string;
  q_query : string -> string;
  q_body : result string string
}.

Record GPUSpec := mkGPUSpec { gs_DeviceIndex : Z; gs_Model : string; gs_VRAMMb : Z; gs_CUDACap : string }.

Record RegisterRequest := mkRegister {
  rr_Hostname : string;
  rr_DisplayName : string;
  rr_Arch : string;
  rr_AgentVersion : string;
  rr_CPUCores : Z;
  rr_RAMMb : Z;
  rr_StorageGb : Z;
  rr_GPUs : list GPUSpec;
  rr_Labels : option (gmap string string)
}.

Record HeartbeatRequest := mkHeartbeat {
  hb_Ts : Z;
  hb_Status : string;
  hb_LoadAvg1m : float64;
  hb_CPUUsedPct : float64;
  hb_RAMUsedMb : Z;
  hb_UptimeSec : Z
}.

Record InventoryGPU := mkInvGPU {
  ig_DeviceIndex : Z;
  ig_Model : string;
  ig_VRAMMb : Z;
  ig_VRAMFreeMb : Z;
  ig_CUDACap : string;
  ig_Health : string;
  ig_WorkloadID : string
}.

Record InventoryRequest := mkInventory {
  iv_Ts : Z;
  iv_CPUCores : Z;
  iv_RAMMb : Z;
  iv_StorageGb : Z;
  iv_GPUs : list InventoryGPU;
  iv_CPUFreePct : float64;
  iv_RAMFreeMb : Z;
  iv_DiskFreeGb : Z;
  iv_WattsCurrent : float64;
  iv_AgentVersion : string
}.

Inductive EventKind :=
| EventStarted | EventCheckpoint | EventFailed | EventCompleted | EventOOMKilled | EventTimedOut | EventStopped
| EventOther (s : string).

Definition kind_text (k : EventKind) : string :=
  match k with
  | EventStarted => "started" | EventCheckpoint => "checkpoint" | EventFailed => "failed"
  | EventCompleted => "completed" | EventOOMKilled => "oom_killed" | EventTimedOut => "timed_out"
  | EventStopped => "stopped" | EventOther s => s
  end.

Record HealthEvent := mkHealth {
  he_WorkloadID : string;
  he_Kind : EventKind;
  he_Ts : Z;
  he_PID : Z;
  he_ExitCode : option Z;
  he_Message : string
}.

Record HealthRequest := mkHealthReq { hr_Ts : Z; hr_Events : list HealthEvent; hr_BufferOverflow : bool }.

Record WorkloadMetrics := mkWM { wmx_WorkloadID : string; wmx_row : WorkloadMetricsRow }.
Record MetricsRequest := mkMetrics {
  mr_Ts : Z;
  mr_IntervalSec : Z;
  mr_Workloads : list WorkloadMetrics;
  mr_Node : NodeMetricsRow
}.

Inductive WorkloadAction := ActionRun | ActionStop | ActionCheckpoint.

#[export] Instance WorkloadAction_eq : EqDecision WorkloadAction.
Proof. solve_decision. Defined.

Record DesiredWorkload := mkDesired { dw_ID : string; dw_Action : WorkloadAction; dw_Manifest : WorkloadManifest }.
Record VolumeSpec := mkVolumeSpec { vs_VolumeID : string; vs_Driver : string; vs_SourcePath : string }.
Record DesiredStateResponse := mkDesiredState {
  ds_SchemaVersion : Z;
  ds_Workloads : list DesiredWorkload;
  ds_Volumes : list VolumeSpec
}.

(** The decoders of the agent requests. *)
Record AgentDecoders := mkAgentDecoders {
  ad_register : string -> result string RegisterRequest;
  ad_heartbeat : string -> result string HeartbeatRequest;
  ad_inventory : string -> result string InventoryRequest;
  ad_health : string -> result string HealthRequest;
  ad_metrics : string -> result string MetricsRequest
}.

(** ** Answers *)

Record apiErr := mkApiErr { e_status : Z; e_code : string; e_message : string; e_retry : bool }.

Record RegisterResponse := mkRegisterResp {
  rg_NodeID : string;
  rg_NodeSecret : string;
  rg_HeartbeatIntervalSec : Z;
  rg_InventoryIntervalSec : Z;
  rg_DesiredPollIntervalSec : Z
}.

Inductive AgentBody :=
| AError (e : apiErr)
| ARegistered (r : RegisterResponse)
| ASecret (secret : string)
| AHeartbeat (serverTimeMs : Z)
| AOk
| ADesired (d : DesiredStateResponse).

Definition badRequest (msg : string) : apiErr := mkApiErr 400 "BAD_REQUEST" msg false.
Definition unauthorized (msg : string) : apiErr := mkApiErr 401 "UNAUTHORIZED" msg false.
Definition databaseError : apiErr := mkApiErr 500 "INTERNAL_ERROR" "database error" true.
Definition nodeGone (nodeID : string) : apiErr :=
  mkApiErr 410 "NODE_GONE" ("node " ++ nodeID ++ " not registered") false.

Definition AgentResponse : Type := Z * AgentBody.

Definition writeAPIError (e : apiErr) : AgentResponse := (e_status e, AError e).

(** ** Helpers *)

Definition maxBodyBytes : Z := 512 * 1024.
Definition replayWindowMs : Z := 60000.

(** [io.LimitReader] cuts a longer body off. *)
Definition readBody (r : Request) : result string string :=
  match q_body r with
  | Ok b => Ok (if Z.of_nat (String.length b) <=? maxBodyBytes then b else String.substring 0 (Z.to_nat maxBodyBytes) b)
  | Err e => Err e
  end.

Definition TrimPrefix (p s : string) : string :=
  if String.prefix p s then String.substring (String.length p) (String.length s - String.length p) s else s.

Definition verifyBootstrap (bootstrapToken : string) (r : Request) : bool :=
  String.prefix "Bearer " (q_authorization r) &&
  String.eqb (TrimPrefix "Bearer " (q_authorization r)) bootstrapToken.

Definition abs64 (x : Z) : Z := if x <? 0 then i64 (- x) else x.

(** The signature of a message under a secret: [message] is the node, the
    timestamp and the hash of the body. *)
Definition signature (secret : list Z) (nodeID ts body : string) : string :=
  let bodyHash := Sum256 (bytes_of_string body) in
  let message := nodeID ++ ":" ++ ts ++ ":" ++ EncodeToString bodyHash in
  EncodeToString (hmac_sum secret (bytes_of_string message)).

Definition checkNodeExists (nodeID : string) (c : CP) : option apiErr :=
  match cp_nodes c !! nodeID with Some _ => None | None => Some (nodeGone nodeID) end.

(** [None] when the request is accepted. *)
Definition verifyAuth (now : Z) (r : Request) (pathNodeID body : string) (c : CP) : option apiErr :=
  if String.eqb (q_node_id r) "" || String.eqb (q_timestamp r) "" || String.eqb (q_signature r) ""
  then Some (unauthorized "missing auth headers")
  else if negb (String.eqb (q_node_id r) pathNodeID) then Some (unauthorized "node_id header/path mismatch")
  else
    match ParseInt (q_timestamp r) 64 with
    | None => Some (unauthorized "invalid timestamp format")
    | Some tsMs =>
        if replayWindowMs <? abs64 (i64 (now - tsMs)) then Some (unauthorized "request outside replay window")
        else
          match cp_nodes c !! pathNodeID with
          | None => Some (nodeGone pathNodeID)
          | Some n =>
              match DecodeString (n_node_secret_hash n) with
              | None => Some (mkApiErr 500 "INTERNAL_ERROR" "invalid stored secret" true)
              | Some secret =>
                  if String.eqb (q_signature r) (signature secret pathNodeID (q_timestamp r) body) then None
                  else Some (unauthorized "signature mismatch")
              end
          end
    end.

Definition readSignedBody (now : Z) (r : Request) (nodeID : string) (c : CP) : result apiErr string :=
  match readBody r with
  | Err e => Err (badRequest e)
  | Ok body => match verifyAuth now r nodeID body c with Some e => Err e | None => Ok body end
  end.

(** ** Validation: [Some] is the text of the error *)

Definition validateGPUSpec (i : nat) (g : GPUSpec) : option string :=
  let at_ := ("gpus[" ++ dec (Z.of_nat i) ++ "].") in
  if (gs_DeviceIndex g <? 0) || (15 <? gs_DeviceIndex g) then Some (at_ ++ "device_index: must be 0–15")
  else if String.eqb (gs_Model g) "" || (128 <? Z.of_nat (String.length (gs_Model g)))
       then Some (at_ ++ "model: required, max 128 chars")
  else if (gs_VRAMMb g <? 1) || (2097152 <? gs_VRAMMb g) then Some (at_ ++ "vram_mb: must be 1–2097152")
  else None.

Fixpoint validateGPUs (i : nat) (l : list GPUSpec) : option string :=
  match l with
  | [] => None
  | g :: l => match validateGPUSpec i g with Some e => Some e | None => validateGPUs (S i) l end
  end.

Definition validateRegisterRequest (req : RegisterRequest) : option string :=
  if String.eqb (rr_Hostname req) "" || (253 <? Z.of_nat (String.length (rr_Hostname req)))
  then Some "hostname: required, max 253 chars"
  else if negb (String.eqb (rr_Arch req) "amd64") && negb (String.eqb (rr_Arch req) "arm64")
  then Some "arch: must be amd64 or arm64"
  else if String.eqb (rr_AgentVersion req) "" then Some "agent_version: required"
  else if (rr_CPUCores req <? 1) || (65535 <? rr_CPUCores req) then Some "cpu_cores: must be 1–65535"
  else if (rr_RAMMb req <? 1) || (67108864 <? rr_RAMMb req) then Some "ram_mb: must be 1–67108864"
  else if (rr_StorageGb req <? 0) || (1048576 <? rr_StorageGb req) then Some "storage_gb: must be 0–1048576"
  else if 16 <? len (rr_GPUs req) then Some "gpus: max 16 entries"
  else
    match validateGPUs 0 (rr_GPUs req) with
    | Some e => Some e
    | None => if 32 <? Z.of_nat (size (default ∅ (rr_Labels req))) then Some "labels: max 32 pairs" else None
    end.

Section AgentApi.
Context (uuid : nat -> string).
Context (rand32 : nat -> option (list Z)).
Context (scan : forall A, gmap string A -> list (string * A)).
Context (bootstrapToken : string) (decoders : AgentDecoders).

Notation draw := (draw uuid).
Notation insertEvent := (insertEvent uuid).

Definition newSecretHex (c : CP) : option string := EncodeToString <$> rand32 (cp_drawn c).

(** ** §4.1 Registration *)

(** The device row of a node with a given index. *)
Definition gpu_at (nodeID : string) (idx : Z) (c : CP) : option string :=
  fst <$> head (select scan (fun _ g => String.eqb (g_node_id g) nodeID && (g_device_index g =? idx)) (cp_gpus c)).

(** The devices of a registration; [None] is a violated constraint. *)
Fixpoint insert_gpus (nodeID : string) (l : list GPUSpec) (c : CP) : CP * bool :=
  match l with
  | [] => (c, true)
  | g :: l =>
      let '(id, c) := draw c in
      if bool_decide (is_Some (cp_gpus c !! id)) || bool_decide (is_Some (gpu_at nodeID (gs_DeviceIndex g) c)) then (c, false)
      else insert_gpus nodeID l
             (c {{ cp_gpus := <[id := mkGPU nodeID (gs_DeviceIndex g) (gs_Model g) (gs_VRAMMb g) (gs_CUDACap g)
                                        GPUHealthReady 0 None]> (cp_gpus c) }})
  end.

(** The rows before a transaction with the draws after it. *)
Definition rolled_back (before after : CP) : CP := before {{ cp_drawn := cp_drawn after }}.

Definition handleRegister (now : Z) (r : Request) (c : CP) : CP * AgentResponse :=
  if negb (verifyBootstrap bootstrapToken r) then (c, writeAPIError (unauthorized "invalid or missing bootstrap token"))
  else
    match readBody r with
    | Err e => (c, writeAPIError (badRequest e))
    | Ok body =>
        match ad_register decoders body with
        | Err e => (c, writeAPIError (badRequest ("invalid JSON: " ++ e)))
        | Ok req =>
            match validateRegisterRequest req with
            | Some e => (c, writeAPIError (badRequest e))
            | None =>
                match select scan (fun _ n => String.eqb (n_hostname n) (rr_Hostname req)) (cp_nodes c) with
                | (existingID, _) :: _ =>
                    (c, writeAPIError (mkApiErr 409 "HOSTNAME_CONFLICT"
                          ("hostname " ++ rr_Hostname req ++ " already registered as node " ++ existingID) false))
                | [] =>
                    let '(nodeID, c0) := draw c in
                    match newSecretHex c0 with
                    | None => (c0, writeAPIError (mkApiErr 500 "INTERNAL_ERROR" "secret generation failed" true))
                    | Some secretHex =>
                        if bool_decide (is_Some (cp_nodes c0 !! nodeID)) then (c0, writeAPIError databaseError)
                        else
                          let row := mkNode (rr_Hostname req) (rr_DisplayName req) (rr_Arch req) (rr_CPUCores req)
                                       (rr_RAMMb req) (rr_StorageGb req) (rr_Labels req) StatusJoining (Some now)
                                       (rr_AgentVersion req) secretHex now None in
                          let c1 := c0 {{ cp_nodes := <[nodeID := row]> (cp_nodes c0) }} in
                          let '(c2, ok) := insert_gpus nodeID (rr_GPUs req) c1 in
                          if ok then
                            let c3 := c2 {{ cp_economics := {[nodeID]} ∪ cp_economics c2 }} in
                            (insertEvent now nodeID "node" nodeID "node.joined"
                               [("hostname", PStr (rr_Hostname req)); ("arch", PStr (rr_Arch req));
                                ("agent_version", PStr (rr_AgentVersion req))] c3,
                             (201, ARegistered (mkRegisterResp nodeID secretHex 30 300 15)))
                          else (rolled_back c0 c2, writeAPIError databaseError)
                    end
                end
            end
        end
    end.

(** ** §4.2 Re-registration *)

Definition handleReregister (now : Z) (nodeID : string) (r : Request) (c : CP) : CP * AgentResponse :=
  if negb (verifyBootstrap bootstrapToken r) then (c, writeAPIError (unauthorized "invalid or missing bootstrap token"))
  else
    match checkNodeExists nodeID c with
    | Some e => (c, writeAPIError e)
    | None =>
        match newSecretHex c with
        | None => (c, writeAPIError (mkApiErr 500 "INTERNAL_ERROR" "secret generation failed" true))
        | Some secretHex =>
            let c := c {{ cp_nodes := alter (fun n => n {{ n_node_secret_hash := secretHex }}) nodeID (cp_nodes c) }} in
            (insertEvent now nodeID "node" nodeID "node.reregistered" [] c, (200, ASecret secretHex))
        end
    end.

(** ** §4.3 Heartbeat *)

Definition handleHeartbeat (now : Z) (nodeID : string) (r : Request) (c : CP) : CP * AgentResponse :=
  match readSignedBody now r nodeID c with
  | Err e => (c, writeAPIError e)
  | Ok body =>
      match ad_heartbeat decoders body with
      | Err _ => (c, writeAPIError (badRequest "invalid JSON"))
      | Ok req =>
          match cp_nodes c !! nodeID with
          | None => (c, writeAPIError (mkApiErr 410 "NODE_GONE" "node not registered" false))
          | Some n =>
              match check_status (hb_Status req) with
              | None => (c, writeAPIError databaseError)
              | Some st =>
                  (c {{ cp_nodes := <[nodeID := n {{ n_status := st }} {{ n_last_heartbeat := Some now }}]> (cp_nodes c) }},
                   (200, AHeartbeat now))
              end
          end
      end
  end.

(** ** §4.4 Inventory *)

(** One device: the row with its index is updated, or a new one inserted; a
    violated constraint is only logged. *)
Definition upsert_gpu (nodeID : string) (c : CP) (g : InventoryGPU) : CP :=
  let '(id, c) := draw c in
  match check_health (ig_Health g) with
  | Some h =>
      if (0 <=? ig_DeviceIndex g) && (0 <? ig_VRAMMb g) then
        match gpu_at nodeID (ig_DeviceIndex g) c with
        | Some old =>
            c {{ cp_gpus := alter (fun row => row {{ g_model := ig_Model g }} {{ g_vram_mb := ig_VRAMMb g }}
                                                  {{ g_cuda_cap := ig_CUDACap g }} {{ g_health := h }}) old (cp_gpus c) }}
        | None =>
            if bool_decide (is_Some (cp_gpus c !! id)) then c
            else c {{ cp_gpus := <[id := mkGPU nodeID (ig_DeviceIndex g) (ig_Model g) (ig_VRAMMb g) (ig_CUDACap g) h 0 None]>
                                   (cp_gpus c) }}
        end
      else c
  | None => c
  end.

(** [UPDATE nodes SET cpu_cores = ?, ... WHERE id = ?] *)
Definition update_inventory (now : Z) (nodeID : string) (req : InventoryRequest) (c : CP) : result apiErr CP :=
  match cp_nodes c !! nodeID with
  | None => Err (mkApiErr 410 "NODE_GONE" "node not registered" false)
  | Some n =>
      if (0 <? iv_CPUCores req) && (0 <? iv_RAMMb req) then
        let n' := n {{ n_cpu_cores := iv_CPUCores req }} {{ n_ram_mb := iv_RAMMb req }}
                    {{ n_storage_gb := iv_StorageGb req }} {{ n_agent_version := iv_AgentVersion req }}
                    {{ n_last_heartbeat := Some now }} in
        Ok (c {{ cp_nodes := <[nodeID := n']> (cp_nodes c) }})
      else Err databaseError
  end.

Definition handleInventory (now : Z) (nodeID : string) (r : Request) (c : CP) : CP * AgentResponse :=
  match readSignedBody now r nodeID c with
  | Err e => (c, writeAPIError e)
  | Ok body =>
      match ad_inventory decoders body with
      | Err _ => (c, writeAPIError (badRequest "invalid JSON"))
      | Ok req =>
          match update_inventory now nodeID req c with
          | Err e => (c, writeAPIError e)
          | Ok c => (foldl (upsert_gpu nodeID) c (iv_GPUs req), (200, AOk))
          end
      end
  end.

(** ** §4.5 Desired state poll *)

Definition desired_action (s : WorkloadStatus) : WorkloadAction :=
  match s with WStopping => ActionStop | WCheckpointing => ActionCheckpoint | _ => ActionRun end.

Definition volume_spec (c : CP) (vid : string) : option VolumeSpec :=
  match cp_volumes c !! vid with
  | Some v => match v_deleted_at v with
              | None => Some (mkVolumeSpec vid (v_driver v) (default "" (v_source_path v)))
              | Some _ => None
              end
  | None => None
  end.

(** The set of volumes is a Go map. *)
Definition volume_ids (ws : list (string * WorkloadRow)) : gmap string unit :=
  foldl (fun m kv => foldl (fun m vm => <[vm_VolumeID vm := tt]> m) m (wm_Volumes (w_manifest kv.2))) ∅ ws.

Definition desired_state (nodeID : string) (c : CP) : DesiredStateResponse :=
  let ws := select scan (fun _ w => bool_decide (w_node_id w = Some nodeID) && occupies (w_status w)) (cp_workloads c) in
  mkDesiredState 1
    ((fun kv => mkDesired kv.1 (desired_action (w_status kv.2)) (w_manifest kv.2)) <$> ws)
    (omap (volume_spec c) (scan unit (volume_ids ws)).*1).

(** A GET has no body: the hash is that of the empty one. *)
Definition handleDesired (now : Z) (nodeID : string) (r : Request) (c : CP) : CP * AgentResponse :=
  match verifyAuth now r nodeID "" c with
  | Some e => (c, writeAPIError e)
  | None => (c, (200, ADesired (desired_state nodeID c)))
  end.

(** ** §4.6 Health events *)

(** [UPDATE workloads SET ... WHERE id = ? AND node_id = ?] *)
Definition update_on_node (nodeID workloadID : string) (f : WorkloadRow -> WorkloadRow) (c : CP) : CP :=
  c {{ cp_workloads := alter (fun w => if bool_decide (w_node_id w = Some nodeID) then f w else w) workloadID (cp_workloads c) }}.

Definition finish (st : WorkloadStatus) (ts exitCode : Z) (msg : string) (w : WorkloadRow) : WorkloadRow :=
  w {{ w_status := st }} {{ w_finished_at := Some ts }} {{ w_exit_code := Some exitCode }} {{ w_failure_msg := Some msg }}.

Definition applyHealthEvent (now : Z) (nodeID : string) (c : CP) (ev : HealthEvent) : CP :=
  let exitCode := default 0 (he_ExitCode ev) in
  let id := he_WorkloadID ev in
  let log := insertEvent now nodeID "workload" id ("workload." ++ kind_text (he_Kind ev))
               [("exit_code", PInt exitCode); ("message", PStr (he_Message ev)); ("pid", PInt (he_PID ev))] in
  let ended st retryable :=
    let c := update_on_node nodeID id (finish st (he_Ts ev) exitCode (he_Message ev)) c in
    let c := releaseWorkloadResources id (he_Ts ev) c in
    let c := if (retryable : bool) then (tryRequeueIfEligible uuid now id (he_Message ev) c).1 else c in
    log c in
  match he_Kind ev with
  | EventStarted => log (update_on_node nodeID id (fun w => w {{ w_status := WRunning }} {{ w_started_at := Some (he_Ts ev) }}) c)
  | EventCompleted | EventStopped => ended WCompleted false
  | EventFailed | EventOOMKilled => ended WFailed true
  | EventTimedOut => ended WTimedOut true
  | EventCheckpoint => insertEvent now nodeID "workload" id "workload.checkpoint" [("ts", PInt (he_Ts ev))] c
  | EventOther _ => c
  end.

Definition handleHealth (now : Z) (nodeID : string) (r : Request) (c : CP) : CP * AgentResponse :=
  match readSignedBody now r nodeID c with
  | Err e => (c, writeAPIError e)
  | Ok body =>
      match ad_health decoders body with
      | Err _ => (c, writeAPIError (badRequest "invalid JSON"))
      | Ok req => (foldl (applyHealthEvent now nodeID) c (hr_Events req), (200, AOk))
      end
  end.

(** ** §4.7 Metrics *)

(** [INSERT OR IGNORE]: a row with the key is kept, a missing parent row is a
    violated constraint that is only logged. *)
Definition insert_workload_metrics (ts : Z) (c : CP) (m : WorkloadMetrics) : CP :=
  match cp_workloads c !! wmx_WorkloadID m, cp_wmetrics c !! (wmx_WorkloadID m, ts) with
  | Some _, None => c {{ cp_wmetrics := <[(wmx_WorkloadID m, ts) := wmx_row m]> (cp_wmetrics c) }}
  | _, _ => c
  end.

Definition insert_node_metrics (nodeID : string) (ts : Z) (m : NodeMetricsRow) (c : CP) : CP :=
  match cp_nodes c !! nodeID, cp_nmetrics c !! (nodeID, ts) with
  | Some _, None => c {{ cp_nmetrics := <[(nodeID, ts) := m]> (cp_nmetrics c) }}
  | _, _ => c
  end.

Definition with_interval (sec : Z) (m : WorkloadMetrics) : WorkloadMetrics :=
  mkWM (wmx_WorkloadID m) ((wmx_row m) {{ m_interval_sec := sec }}).

Definition handleMetrics (now : Z) (nodeID : string) (r : Request) (c : CP) : CP * AgentResponse :=
  match readSignedBody now r nodeID c with
  | Err e => (c, writeAPIError e)
  | Ok body =>
      match ad_metrics decoders body with
      | Err _ => (c, writeAPIError (badRequest "invalid JSON"))
      | Ok req =>
          let c := foldl (insert_workload_metrics (mr_Ts req)) c (with_interval (mr_IntervalSec req) <$> mr_Workloads req) in
          (insert_node_metrics nodeID (mr_Ts req) ((mr_Node req) {{ nm_interval_sec := mr_IntervalSec req }}) c, (200, AOk))
      end
  end.
End AgentApi.
