(* ===== verification/ComputeUserApi.v ===== *)
(** * The compute plane: accounts, workloads, nodes, artifacts and events
      (compute/api/auth.go, workload_api.go, node_api.go, artifact_api.go,
      event_api.go) and the routes of cmd/ocelot-cp/main.go

    Code outside the repository: JSON decoders, bcrypt and the JWT library.
    [jwt_hmac] says whether the header of a token names an HMAC method,
    [jwt_verify secret now] gives the claims of a token whose signature and
    expiry it accepts, [jwt_sign] signs claims, [bcrypt_hash n] hashes with the
    n-th salt, [bcrypt_ok] compares. *)
From Stdlib Require Import Ascii String.
From S2P Require Import Prelude GoStr GoFloat GoSort GoCrypto Compute ComputeAgentApi.
Open Scope list_scope.
Open Scope string_scope.
Open Scope Z_scope.

(** ** Texts *)

(** The text after the leading spaces of [unicode.IsSpace], in UTF-8. *)
Fixpoint TrimLeft (s : string) : string :=
  match s with
  | String a r =>
      let x := ascii_byte a in
      if ((9 <=? x) && (x <=? 13)) || (x =? 32) then TrimLeft r
      else
        match r with
        | String b r1 =>
            let y := ascii_byte b in
            if (x =? 194) && ((y =? 133) || (y =? 160)) then TrimLeft r1
            else
              match r1 with
              | String d r2 =>
                  let z := ascii_byte d in
                  if ((x =? 225) && (y =? 154) && (z =? 128)) ||
                     ((x =? 226) && (y =? 128) && (((128 <=? z) && (z <=? 138)) || (z =? 168) || (z =? 169) || (z =? 175))) ||
                     ((x =? 226) && (y =? 129) && (z =? 159)) ||
                     ((x =? 227) && (y =? 128) && (z =? 128))
                  then TrimLeft r2 else s
              | "" => s
              end
        | "" => s
        end
  | "" => ""
  end.

(** [strings.TrimSpace(s) == ""] *)
Definition blank (s : string) : bool := String.eqb (TrimLeft s) "".

(** The LIKE operator: case of ASCII letters is ignored, [%] matches any text
    and [_] one character of UTF-8. *)
Definition lower (c : ascii) : ascii :=
  let v := ascii_byte c in if (65 <=? v) && (v <=? 90) then byte_ascii (v + 32) else c.
Definition continuation (c : ascii) : bool := (128 <=? ascii_byte c) && (ascii_byte c <? 192).
Fixpoint skip_continuation (s : string) : string :=
  match s with String c r => if continuation c then skip_continuation r else s | "" => "" end.

Fixpoint like (pattern : string) : string -> bool :=
  match pattern with
  | "" => fun s => String.eqb s ""
  | String p rest =>
      if Ascii.eqb p "%" then
        fix any (s : string) : bool := like rest s || match s with String _ r => any r | "" => false end
      else if Ascii.eqb p "_" then
        fun s => match s with String _ r => like rest (skip_continuation r) | "" => false end
      else
        fun s => match s with String c r => Ascii.eqb (lower p) (lower c) && like rest r | "" => false end
  end.

(** ** Requests *)

Record SubmitWorkloadRequest := mkSubmit {
  sw_Name : string;
  sw_Priority : Z;
  sw_MaxRetries : Z;
  sw_Deadline : option Z;
  sw_ProjectID : string;
  sw_Manifest : WorkloadManifest
}.

Record RegisterArtifactRequest := mkRegArtifact {
  ra_Infohash : string;
  ra_Type : string;
  ra_Name : string;
  ra_Version : string;
  ra_Arch : string;
  ra_SizeBytes : Z;
  ra_Entrypoint : string;
  ra_Dependencies : option (list string);
  ra_Signature : string;
  ra_Publisher : string;
  ra_Manifest : string
}.

Record LoginRequest := mkLogin { lg_Username : string; lg_Password : string }.

Record AccountRequest := mkAccountReq {
  ac_OrgID : string;
  ac_ProjectID : string;
  ac_Username : string;
  ac_Password : string;
  ac_Role : string
}.

Record UserDecoders := mkUserDecoders {
  ud_submit : string -> result string SubmitWorkloadRequest;
  ud_artifact : string -> result string RegisterArtifactRequest;
  ud_login : string -> option LoginRequest;
  ud_org : string -> option string;
  ud_account : string -> option AccountRequest
}.

Record ocelotClaims := mkClaims {
  cl_AccountID : string;
  cl_OrgID : string;
  cl_Role : string;
  cl_ExpiresAt : Z;
  cl_IssuedAt : Z;
  cl_Subject : string
}.

(** ** Answers *)

Record WorkloadSummary := mkSummary {
  ws_ID : string;
  ws_OrgID : string;
  ws_ProjectID : string;
  ws_Name : string;
  ws_Status : string;
  ws_Priority : Z;
  ws_NodeID : string;
  ws_SubmittedAt : Z;
  ws_QueuedAt : option Z;
  ws_ScheduledAt : option Z;
  ws_StartedAt : option Z;
  ws_FinishedAt : option Z;
  ws_ExitCode : option Z;
  ws_FailureMsg : string;
  ws_RetryCount : Z;
  ws_MaxRetries : Z;
  ws_Deadline : option Z
}.

Record NodeSummary := mkNodeSummary {
  ns_ID : string;
  ns_Hostname : string;
  ns_DisplayName : string;
  ns_Arch : string;
  ns_CPUCores : Z;
  ns_RAMMb : Z;
  ns_StorageGb : Z;
  ns_Labels : option (gmap string string);
  ns_Status : string;
  ns_LastHeartbeat : option Z;
  ns_AgentVersion : string;
  ns_CreatedAt : Z;
  ns_DrainAt : option Z
}.

Record GPUSummary := mkGPUSummary {
  gm_ID : string;
  gm_DeviceIndex : Z;
  gm_Model : string;
  gm_VRAMMb : Z;
  gm_CUDACap : string;
  gm_Health : string;
  gm_VRAMReserved : Z;
  gm_WorkloadID : string
}.

Record NodeDetail := mkNodeDetail {
  nd_Summary : NodeSummary;
  nd_GPUs : list GPUSummary;
  nd_FreeCPUMcores : Z;
  nd_FreeRAMMb : Z
}.

Record ArtifactSummary := mkArtifactSummary {
  as_Infohash : string;
  as_Type : string;
  as_Name : string;
  as_Version : string;
  as_Arch : string;
  as_SizeBytes : Z;
  as_Entrypoint : string;
  as_Publisher : string;
  as_CreatedAt : Z
}.

Record ArtifactDetail := mkArtifactDetail {
  ad_Summary : ArtifactSummary;
  ad_Dependencies : list string;
  ad_Signature : string;
  ad_Manifest : string
}.

Inductive Body :=
| BAgent (b : AgentBody)
| BToken (token : string) (expiresAt : Z) (accountID orgID role : string)
| BOrg (id name : string)
| BAccount (id username role orgID : string)
| BSubmitted (id : string) (submittedAt : Z)
| BWorkloads (l : list WorkloadSummary) (nextCursor : string)
| BWorkload (w : WorkloadSummary) (m : WorkloadManifest)
| BStatus (id status : string)
| BNodes (l : list NodeSummary)
| BNode (n : NodeDetail)
| BDraining (id : string) (drainAt : Z)
| BInfohash (infohash : string)
| BArtifacts (l : list ArtifactSummary)
| BArtifact (a : ArtifactDetail)
| BEvents (l : list EventRow) (nextCursor : string)
| BText (s : string)
| BNothing.

Definition Response : Type := Z * Body.

Definition fail (e : apiErr) : Response := (e_status e, BAgent (AError e)).
Definition notFound (msg : string) : apiErr := mkApiErr 404 "NOT_FOUND" msg false.
Definition conflict (code msg : string) : apiErr := mkApiErr 409 code msg false.

(** [limit] of a listing: between 1 and [max], else the default. *)
Definition parse_limit (dflt max : Z) (l : string) : Z :=
  match Atoi l with Some n => if (0 <? n) && (n <=? max) then n else dflt | None => dflt end.

(** [col = ?], when the parameter of the query is given. *)
Definition given (q : string) (col : option string) : bool :=
  String.eqb q "" || match col with Some v => String.eqb v q | None => false end.

(** One row more than the limit is asked for: the extra one says there is a
    next page, whose cursor is the last row of this one. *)
Definition page {A} (id : A -> string) (limit : Z) (rows : list A) : list A * string :=
  let rows := take (Z.to_nat (limit + 1)) rows in
  if limit <? len rows
  then (take (Z.to_nat limit) rows, match rows !! (Z.to_nat (limit - 1)) with Some a => id a | None => "" end)
  else (rows, "").

Definition nullableStr (s : string) : option string := if String.eqb s "" then None else Some s.

Definition roles : list string := ["operator"; "project"; "user"; "service"; "auditor"].
Definition artifact_types : list string :=
  ["binary"; "container"; "model"; "dataset"; "archive"; "vm_image"; "script"].
Definition one_of (s : string) (l : list string) : bool := existsb (String.eqb s) l.

(** ** Validation *)

Definition validateSubmitRequest (req : SubmitWorkloadRequest) : option string :=
  let res := wm_Resources (sw_Manifest req) in
  if blank (sw_Name req) || (256 <? Z.of_nat (String.length (sw_Name req))) then Some "name: required, max 256 chars"
  else if negb (one_of (wm_Type (sw_Manifest req)) artifact_types)
  then Some "manifest.type: must be one of binary, container, model, dataset, archive, vm_image, script"
  else if rs_CPUMillicores res <? 1 then Some "manifest.resources.cpu_millicores: must be >= 1"
  else if rs_RAMMb res <? 1 then Some "manifest.resources.ram_mb: must be >= 1"
  else if (rs_GPUCount res <? 0) || (16 <? rs_GPUCount res) then Some "manifest.resources.gpu_count: must be 0–16"
  else if (0 <? rs_GPUCount res) && (rs_GPUVRAMMb res <? 1)
  then Some "manifest.resources.gpu_vram_mb: required when gpu_count > 0"
  else if (sw_MaxRetries req <? 0) || (10 <? sw_MaxRetries req) then Some "max_retries: must be 0–10"
  else None.

Definition validateArtifactRequest (req : RegisterArtifactRequest) : option string :=
  if negb (Z.of_nat (String.length (ra_Infohash req)) =? 64) then Some "infohash: must be 64-char SHA-256 hex string"
  else if negb (one_of (ra_Type req) artifact_types)
  then Some "type: must be one of binary, container, model, dataset, archive, vm_image, script"
  else if blank (ra_Name req) || (256 <? Z.of_nat (String.length (ra_Name req))) then Some "name: required, max 256 chars"
  else if negb (String.eqb (ra_Arch req) "") && negb (one_of (ra_Arch req) ["amd64"; "arm64"; "any"])
  then Some "arch: must be amd64, arm64, or any"
  else if 64 <? len (default [] (ra_Dependencies req)) then Some "dependencies: max 64 entries"
  else None.

(** ** Rows as answers *)

Definition summary (id : string) (w : WorkloadRow) : WorkloadSummary :=
  mkSummary id (w_org_id w) (default "" (w_project_id w)) (w_name w) (workload_status_text (w_status w)) (w_priority w)
    (default "" (w_node_id w)) (w_submitted_at w) (w_queued_at w) (w_scheduled_at w) (w_started_at w) (w_finished_at w)
    (w_exit_code w) (default "" (w_failure_msg w)) (w_retry_count w) (w_max_retries w) (w_deadline w).

Definition node_summary (id : string) (n : NodeRow) : NodeSummary :=
  mkNodeSummary id (n_hostname n) (n_display_name n) (n_arch n) (n_cpu_cores n) (n_ram_mb n) (n_storage_gb n)
    (n_labels n) (status_text (n_status n)) (n_last_heartbeat n) (n_agent_version n) (n_created_at n) (n_drain_at n).

Definition gpu_summary (id : string) (g : GPURow) : GPUSummary :=
  mkGPUSummary id (g_device_index g) (g_model g) (g_vram_mb g) (g_cuda_cap g) (health_text (g_health g))
    (g_vram_reserved g) (default "" (g_workload_id g)).

Definition artifact_summary (id : string) (a : ArtifactRow) : ArtifactSummary :=
  mkArtifactSummary id (ar_type a) (ar_name a) (ar_version a) (ar_arch a) (ar_size_bytes a)
    (default "" (ar_entrypoint a)) (default "" (ar_publisher a)) (ar_created_at a).

Section UserApi.
Context (uuid : nat -> string).
Context (rand32 : nat -> option (list Z)).
Context (scan : forall A, gmap string A -> list (string * A)).
Context (bootstrapToken jwtSecret : string) (decoders : AgentDecoders) (udecoders : UserDecoders).
Context (jwt_hmac : string -> bool) (jwt_verify : string -> Z -> string -> option ocelotClaims)
  (jwt_sign : string -> ocelotClaims -> option string).
Context (bcrypt_hash : nat -> string -> option string) (bcrypt_ok : string -> string -> bool).

Notation draw := (draw uuid).
Notation insertEvent := (insertEvent uuid).

(** ** auth.go *)

Definition protect (next : ocelotClaims -> Request -> CP -> CP * Response) (allowed : list string)
    (now : Z) (r : Request) (c : CP) : CP * Response :=
  let authHdr := q_authorization r in
  if negb (String.prefix "Bearer " authHdr)
  then (c, fail (unauthorized "missing or invalid Authorization header"))
  else
    let tokenStr := TrimPrefix "Bearer " authHdr in
    match (if jwt_hmac tokenStr then jwt_verify jwtSecret now tokenStr else None) with
    | None => (c, fail (unauthorized "invalid or expired token"))
    | Some claims =>
        if (0 <? len allowed) && negb (one_of (cl_Role claims) allowed)
        then (c, fail (mkApiErr 403 "FORBIDDEN" "insufficient role" false))
        else next claims r c
    end.

Definition jwtTTL : Z := 24 * 3600 * 1000.

(** Times of claims are whole seconds ([jwt.NewNumericDate]). *)
Definition issueToken (now : Z) (accountID orgID role : string) : option (string * Z) :=
  let exp := now + jwtTTL in
  match jwt_sign jwtSecret (mkClaims accountID orgID role (exp / 1000) (now / 1000) accountID) with
  | Some tok => Some (tok, exp)
  | None => None
  end.

Definition handleLogin (now : Z) (r : Request) (c : CP) : CP * Response :=
  match readBody r with
  | Err e => (c, fail (badRequest e))
  | Ok body =>
      match ud_login udecoders body with
      | None => (c, fail (badRequest "username and password required"))
      | Some req =>
          if String.eqb (lg_Username req) "" || String.eqb (lg_Password req) ""
          then (c, fail (badRequest "username and password required"))
          else
            match select scan (fun _ a => String.eqb (a_username a) (lg_Username req)) (cp_accounts c) with
            | [] => (c, fail (unauthorized "invalid credentials"))
            | (accountID, a) :: _ =>
                if bool_decide (is_Some (a_deleted_at a)) || negb (bcrypt_ok (a_secret_hash a) (lg_Password req))
                then (c, fail (unauthorized "invalid credentials"))
                else
                  match issueToken now accountID (a_org_id a) (a_role a) with
                  | None => (c, fail (mkApiErr 500 "INTERNAL_ERROR" "token generation failed" true))
                  | Some (token, expiresAt) => (c, (200, BToken token expiresAt accountID (a_org_id a) (a_role a)))
                  end
            end
      end
  end.

Definition handleCreateOrg (now : Z) (r : Request) (c : CP) : CP * Response :=
  if negb (verifyBootstrap bootstrapToken r) then (c, fail (unauthorized "invalid bootstrap token"))
  else
    match readBody r with
    | Err e => (c, fail (badRequest e))
    | Ok body =>
        match ud_org udecoders body with
        | None => (c, fail (badRequest "name required"))
        | Some name =>
            if blank name then (c, fail (badRequest "name required"))
            else
              let '(orgID, c) := draw c in
              if bool_decide (is_Some (cp_orgs c !! orgID)) ||
                 existsb (fun kv => String.eqb (o_name kv.2) name) (map_to_list (cp_orgs c))
              then (c, fail (conflict "ORG_CONFLICT" "org name already exists"))
              else (c {{ cp_orgs := <[orgID := mkOrg name now]> (cp_orgs c) }}, (201, BOrg orgID name))
        end
    end.

(** The salt of a hash is numbered by the draws so far. *)
Definition handleCreateAccount (now : Z) (r : Request) (c : CP) : CP * Response :=
  if negb (verifyBootstrap bootstrapToken r) then (c, fail (unauthorized "invalid bootstrap token"))
  else
    match readBody r with
    | Err e => (c, fail (badRequest e))
    | Ok body =>
        match ud_account udecoders body with
        | None => (c, fail (badRequest "invalid JSON"))
        | Some req =>
            if String.eqb (ac_OrgID req) "" || String.eqb (ac_Username req) "" || String.eqb (ac_Password req) ""
            then (c, fail (badRequest "org_id, username, and password required"))
            else if negb (one_of (ac_Role req) roles)
            then (c, fail (badRequest "role must be one of: operator, project, user, service, auditor"))
            else if Z.of_nat (String.length (ac_Password req)) <? 8
            then (c, fail (badRequest "password must be at least 8 characters"))
            else
              match bcrypt_hash (cp_drawn c) (ac_Password req) with
              | None => (c, fail (mkApiErr 500 "INTERNAL_ERROR" "password hashing failed" true))
              | Some hash =>
                  let '(accountID, c) := draw c in
                  let project := nullableStr (ac_ProjectID req) in
                  if bool_decide (is_Some (cp_accounts c !! accountID)) ||
                     existsb (fun kv => String.eqb (a_username kv.2) (ac_Username req)) (map_to_list (cp_accounts c))
                  then (c, fail (conflict "USERNAME_CONFLICT" "username already exists"))
                  else if negb (bool_decide (is_Some (cp_orgs c !! ac_OrgID req))) ||
                          negb (match project with Some p => bool_decide (p ∈ cp_projects c) | None => true end)
                  then (c, fail databaseError)
                  else (c {{ cp_accounts := <[accountID := mkAccount (ac_OrgID req) project (ac_Username req) (ac_Role req)
                                                hash now None]> (cp_accounts c) }},
                        (201, BAccount accountID (ac_Username req) (ac_Role req) (ac_OrgID req)))
              end
        end
    end.

(** ** workload_api.go *)

Definition handleSubmit (now : Z) (claims : ocelotClaims) (r : Request) (c : CP) : CP * Response :=
  match readBody r with
  | Err e => (c, fail (badRequest e))
  | Ok body =>
      match ud_submit udecoders body with
      | Err e => (c, fail (badRequest ("invalid JSON: " ++ e)))
      | Ok req =>
          match validateSubmitRequest req with
          | Some e => (c, fail (badRequest e))
          | None =>
              let priority := if sw_Priority req =? 0 then 50 else sw_Priority req in
              let manifest := (sw_Manifest req) {{ wm_Name := sw_Name req }} in
              let '(workloadID, c) := draw c in
              let deadline :=
                match sw_Deadline req with
                | Some d => Some d
                | None => if 0 <? wm_TimeoutSec manifest then Some (i64 (now + i64 (wm_TimeoutSec manifest * 1000))) else None
                end in
              let project := nullableStr (sw_ProjectID req) in
              if bool_decide (is_Some (cp_workloads c !! workloadID)) || (priority <? 0) || (100 <? priority) ||
                 negb (bool_decide (is_Some (cp_orgs c !! cl_OrgID claims))) ||
                 negb (bool_decide (is_Some (cp_accounts c !! cl_AccountID claims))) ||
                 negb (match project with Some p => bool_decide (p ∈ cp_projects c) | None => true end)
              then (c, fail databaseError)
              else
                let w := mkWorkload (cl_OrgID claims) project (Some (cl_AccountID claims)) (sw_Name req) WSubmitted priority
                           manifest None now deadline None None None None None None 0 (sw_MaxRetries req) in
                (insertEvent now (cl_AccountID claims) "workload" workloadID "workload.queued"
                   [("name", PStr (sw_Name req)); ("priority", PInt priority)]
                   (c {{ cp_workloads := <[workloadID := w]> (cp_workloads c) }}),
                 (201, BSubmitted workloadID now))
          end
      end
  end.

(** [submitted_at < (SELECT submitted_at ... WHERE id = ?)]: an unknown cursor
    gives NULL, which no row satisfies. *)
Definition after_cursor (cursor : string) (at_ : option Z) (t : Z) : bool :=
  String.eqb cursor "" || match at_ with Some t0 => t <? t0 | None => false end.

Definition handleListWorkloads (now : Z) (claims : ocelotClaims) (r : Request) (c : CP) : CP * Response :=
  let q := q_query r in
  let limit := parse_limit 50 200 (q "limit") in
  let keep (_ : string) (w : WorkloadRow) :=
    String.eqb (w_org_id w) (cl_OrgID claims) &&
    given (q "status") (Some (workload_status_text (w_status w))) &&
    given (q "node_id") (w_node_id w) &&
    given (q "project_id") (w_project_id w) &&
    after_cursor (q "cursor") (w_submitted_at <$> cp_workloads c !! q "cursor") (w_submitted_at w) in
  let rows := slice_stable (fun a b => w_submitted_at b.2 <? w_submitted_at a.2) (select scan keep (cp_workloads c)) in
  let '(ws, next) := page ws_ID limit ((fun kv => summary kv.1 kv.2) <$> rows) in
  (c, (200, BWorkloads ws next)).

Definition own_workload (claims : ocelotClaims) (id : string) (c : CP) : option WorkloadRow :=
  match cp_workloads c !! id with
  | Some w => if String.eqb (w_org_id w) (cl_OrgID claims) then Some w else None
  | None => None
  end.

Definition handleGetWorkload (now : Z) (id : string) (claims : ocelotClaims) (r : Request) (c : CP) : CP * Response :=
  match own_workload claims id c with
  | Some w => (c, (200, BWorkload (summary id w) (w_manifest w)))
  | None => (c, fail (notFound "workload not found"))
  end.

Definition handleCancel (now : Z) (id : string) (claims : ocelotClaims) (r : Request) (c : CP) : CP * Response :=
  match own_workload claims id c with
  | None => (c, fail (notFound "workload not found"))
  | Some w =>
      if terminal (w_status w) || bool_decide (w_status w = WStopping)
      then (c, fail (conflict "ALREADY_TERMINAL" "workload is already in a terminal or stopping state"))
      else
        let newStatus := if executing (w_status w) then WStopping else WCancelled in
        let w' := w {{ w_status := newStatus }}
                    {{ w_finished_at := if executing (w_status w) then None else Some now }} in
        (insertEvent now (cl_AccountID claims) "workload" id "workload.cancelled"
           [("new_status", PStr (workload_status_text newStatus))]
           (c {{ cp_workloads := <[id := w']> (cp_workloads c) }}),
         (200, BStatus id (workload_status_text newStatus)))
  end.

Definition handleStop (now : Z) (id : string) (claims : ocelotClaims) (r : Request) (c : CP) : CP * Response :=
  match own_workload claims id c with
  | None => (c, fail (notFound "workload not found"))
  | Some w =>
      if executing (w_status w)
      then (c {{ cp_workloads := <[id := w {{ w_status := WStopping }}]> (cp_workloads c) }}, (200, BStatus id "stopping"))
      else (c, fail (conflict "NOT_RUNNING" ("workload is not running (status=" ++ workload_status_text (w_status w) ++ ")")))
  end.

(** ** node_api.go *)

Definition handleListNodes (now : Z) (claims : ocelotClaims) (r : Request) (c : CP) : CP * Response :=
  let q := q_query r in
  let limit := parse_limit 100 500 (q "limit") in
  let keep (_ : string) (n : NodeRow) :=
    given (q "status") (Some (status_text (n_status n))) && given (q "arch") (Some (n_arch n)) in
  let rows := slice_stable (fun a b => n_created_at b.2 <? n_created_at a.2) (select scan keep (cp_nodes c)) in
  (c, (200, BNodes ((fun kv => node_summary kv.1 kv.2) <$> take (Z.to_nat limit) rows))).

Definition handleGetNode (now : Z) (id : string) (claims : ocelotClaims) (r : Request) (c : CP) : CP * Response :=
  match cp_nodes c !! id with
  | None => (c, fail (notFound "node not found"))
  | Some n =>
      let gpus := slice_stable (fun a b => g_device_index a.2 <? g_device_index b.2)
                    (select scan (fun _ g => String.eqb (g_node_id g) id) (cp_gpus c)) in
      (c, (200, BNode (mkNodeDetail (node_summary id n) ((fun kv => gpu_summary kv.1 kv.2) <$> gpus)
                         (i64 (i64 (n_cpu_cores n * 1000) - used r_cpu_mcores id c))
                         (i64 (n_ram_mb n - used r_ram_mb id c)))))
  end.

Definition handleDrain (now : Z) (id : string) (claims : ocelotClaims) (r : Request) (c : CP) : CP * Response :=
  match cp_nodes c !! id with
  | Some n =>
      if gone (n_status n) then (c, fail (notFound "node not found or already dead/lost"))
      else
        (insertEvent now "system" "node" id "node.drained" [("drain_at", PInt now)]
           (c {{ cp_nodes := <[id := n {{ n_status := StatusDraining }} {{ n_drain_at := Some now }}]> (cp_nodes c) }}),
         (200, BDraining id now))
  | None => (c, fail (notFound "node not found or already dead/lost"))
  end.

Definition handleSetDead (now : Z) (id : string) (claims : ocelotClaims) (r : Request) (c : CP) : CP * Response :=
  match cp_nodes c !! id with
  | Some n =>
      if bool_decide (n_status n = StatusDead) then (c, fail (notFound "node not found or already dead"))
      else
        (insertEvent now "system" "node" id "node.drained" [("reason", PStr "marked_dead"); ("ts", PInt now)]
           (c {{ cp_nodes := <[id := n {{ n_status := StatusDead }}]> (cp_nodes c) }}),
         (204, BNothing))
  | None => (c, fail (notFound "node not found or already dead"))
  end.

(** ** artifact_api.go *)

Definition handleRegisterArtifact (now : Z) (claims : ocelotClaims) (r : Request) (c : CP) : CP * Response :=
  match readBody r with
  | Err e => (c, fail (badRequest e))
  | Ok body =>
      match ud_artifact udecoders body with
      | Err e => (c, fail (badRequest ("invalid JSON: " ++ e)))
      | Ok req =>
          match validateArtifactRequest req with
          | Some e => (c, fail (badRequest e))
          | None =>
              match cp_artifacts c !! ra_Infohash req with
              | Some _ => (c, fail (conflict "ARTIFACT_CONFLICT" "artifact with this infohash already registered"))
              | None =>
                  let row := mkArtifact (ra_Type req) (ra_Name req)
                               (if String.eqb (ra_Version req) "" then "unversioned" else ra_Version req)
                               (if String.eqb (ra_Arch req) "" then "any" else ra_Arch req)
                               (ra_SizeBytes req) (nullableStr (ra_Entrypoint req)) (ra_Dependencies req)
                               (nullableStr (ra_Signature req)) (nullableStr (ra_Publisher req))
                               (if String.eqb (ra_Manifest req) "" then "{}" else ra_Manifest req) now in
                  (c {{ cp_artifacts := <[ra_Infohash req := row]> (cp_artifacts c) }}, (201, BInfohash (ra_Infohash req)))
              end
          end
      end
  end.

Definition handleListArtifacts (now : Z) (claims : ocelotClaims) (r : Request) (c : CP) : CP * Response :=
  let q := q_query r in
  let limit := parse_limit 50 200 (q "limit") in
  let keep (_ : string) (a : ArtifactRow) :=
    given (q "type") (Some (ar_type a)) && given (q "arch") (Some (ar_arch a)) &&
    (String.eqb (q "name") "" || like ("%" ++ q "name" ++ "%") (ar_name a)) in
  let rows := slice_stable (fun a b => ar_created_at b.2 <? ar_created_at a.2) (select scan keep (cp_artifacts c)) in
  (c, (200, BArtifacts ((fun kv => artifact_summary kv.1 kv.2) <$> take (Z.to_nat limit) rows))).

Definition handleGetArtifact (now : Z) (infohash : string) (claims : ocelotClaims) (r : Request) (c : CP) : CP * Response :=
  match cp_artifacts c !! infohash with
  | None => (c, fail (notFound "artifact not found"))
  | Some a =>
      (c, (200, BArtifact (mkArtifactDetail (artifact_summary infohash a) (default [] (ar_dependencies a))
                             (default "" (ar_signature a)) (ar_manifest a))))
  end.

Definition handleDeleteArtifact (now : Z) (infohash : string) (claims : ocelotClaims) (r : Request) (c : CP) : CP * Response :=
  match cp_artifacts c !! infohash with
  | None => (c, fail (notFound "artifact not found"))
  | Some _ => (c {{ cp_artifacts := delete infohash (cp_artifacts c) }}, (204, BNothing))
  end.

(** ** event_api.go *)

(** The journal lists its rows in some order: [scan] on the rows by id. *)
Definition journal (c : CP) : gmap string EventRow :=
  list_to_map ((fun e => (ev_id e, e)) <$> cp_events c).

Definition handleListEvents (now : Z) (claims : ocelotClaims) (r : Request) (c : CP) : CP * Response :=
  let q := q_query r in
  let limit := parse_limit 100 500 (q "limit") in
  let keep (_ : string) (e : EventRow) :=
    (String.eqb (ev_org_id e) (cl_OrgID claims) || String.eqb (ev_org_id e) "") &&
    given (q "kind") (Some (ev_kind e)) && given (q "subject_type") (Some (ev_subject_type e)) &&
    given (q "subject_id") (Some (ev_subject_id e)) && given (q "actor") (Some (ev_actor e)) &&
    after_cursor (q "cursor") (ev_ts <$> journal c !! q "cursor") (ev_ts e) in
  let rows := slice_stable (fun a b => ev_ts b <? ev_ts a) (snd <$> select scan keep (journal c)) in
  let '(evs, next) := page ev_id limit rows in
  (c, (200, BEvents evs next)).

(** ** Routes *)

Definition agent (h : CP * AgentResponse) : CP * Response := (h.1, (h.2.1, BAgent h.2.2)).

Definition all_roles : list string := ["operator"; "project"; "user"; "service"; "auditor"].

(** A segment of a pattern: a literal or a wildcard. *)
Inductive Segment := Lit (s : string) | Wild.

(** The text of the wildcard of a path that matches; no pattern has two. *)
Fixpoint match_path (pat : list Segment) (path : list string) : option string :=
  match pat, path with
  | [], [] => Some ""
  | Lit s :: pat, x :: path => if String.eqb s x then match_path pat path else None
  | Wild :: pat, x :: path => match match_path pat path with Some _ => Some x | None => None end
  | _, _ => None
  end.

Record Route := mkRoute {
  rt_method : string;
  rt_pattern : list Segment;
  rt_handler : string -> Request -> CP -> CP * Response
}.

Definition method_matches (pattern method : string) : bool :=
  String.eqb pattern method || (String.eqb pattern "GET" && String.eqb method "HEAD").

Definition path_matches (rt : Route) (r : Request) : bool :=
  match match_path (rt_pattern rt) (q_path r) with Some _ => true | None => false end.

(** [http.ServeMux]: patterns of one method do not overlap. *)
Definition serve (routes : list Route) (r : Request) (c : CP) : CP * Response :=
  match find (fun rt => method_matches (rt_method rt) (q_method r) && path_matches rt r) routes with
  | Some rt => rt_handler rt (default "" (match_path (rt_pattern rt) (q_path r))) r c
  | None =>
      if existsb (fun rt => path_matches rt r) routes then (c, (405, BText "Method Not Allowed"))
      else (c, (404, BText "404 page not found"))
  end.

Definition agent_routes (now : Z) : list Route :=
  let node rest := Lit "v1" :: Lit "nodes" :: rest in
  [ mkRoute "POST" (node [Lit "register"]) (fun _ r c => agent (handleRegister uuid rand32 scan bootstrapToken decoders now r c));
    mkRoute "POST" (node [Wild; Lit "reregister"]) (fun id r c => agent (handleReregister uuid rand32 bootstrapToken now id r c));
    mkRoute "POST" (node [Wild; Lit "heartbeat"]) (fun id r c => agent (handleHeartbeat decoders now id r c));
    mkRoute "POST" (node [Wild; Lit "inventory"]) (fun id r c => agent (handleInventory uuid scan decoders now id r c));
    mkRoute "GET" (node [Wild; Lit "desired"]) (fun id r c => agent (handleDesired scan now id r c));
    mkRoute "POST" (node [Wild; Lit "health"]) (fun id r c => agent (handleHealth uuid decoders now id r c));
    mkRoute "POST" (node [Wild; Lit "metrics"]) (fun id r c => agent (handleMetrics decoders now id r c)) ].

Definition auth_routes (now : Z) : list Route :=
  [ mkRoute "POST" [Lit "v1"; Lit "auth"; Lit "login"] (fun _ => handleLogin now);
    mkRoute "POST" [Lit "v1"; Lit "admin"; Lit "orgs"] (fun _ => handleCreateOrg now);
    mkRoute "POST" [Lit "v1"; Lit "admin"; Lit "accounts"] (fun _ => handleCreateAccount now) ].

Definition workload_routes (now : Z) : list Route :=
  let rw := ["operator"; "project"; "user"; "service"] in
  [ mkRoute "POST" [Lit "v1"; Lit "workloads"] (fun _ => protect (handleSubmit now) rw now);
    mkRoute "GET" [Lit "v1"; Lit "workloads"] (fun _ => protect (handleListWorkloads now) all_roles now);
    mkRoute "GET" [Lit "v1"; Lit "workloads"; Wild] (fun id => protect (handleGetWorkload now id) all_roles now);
    mkRoute "DELETE" [Lit "v1"; Lit "workloads"; Wild] (fun id => protect (handleCancel now id) rw now);
    mkRoute "POST" [Lit "v1"; Lit "workloads"; Wild; Lit "stop"] (fun id => protect (handleStop now id) rw now) ].

Definition node_routes (now : Z) : list Route :=
  let ro := ["operator"; "auditor"] in
  let op := ["operator"] in
  [ mkRoute "GET" [Lit "v1"; Lit "nodes"] (fun _ => protect (handleListNodes now) ro now);
    mkRoute "GET" [Lit "v1"; Lit "nodes"; Wild] (fun id => protect (handleGetNode now id) ro now);
    mkRoute "POST" [Lit "v1"; Lit "nodes"; Wild; Lit "drain"] (fun id => protect (handleDrain now id) op now);
    mkRoute "DELETE" [Lit "v1"; Lit "nodes"; Wild] (fun id => protect (handleSetDead now id) op now) ].

Definition artifact_routes (now : Z) : list Route :=
  [ mkRoute "POST" [Lit "v1"; Lit "artifacts"] (fun _ => protect (handleRegisterArtifact now) ["operator"; "project"; "service"] now);
    mkRoute "GET" [Lit "v1"; Lit "artifacts"] (fun _ => protect (handleListArtifacts now) all_roles now);
    mkRoute "GET" [Lit "v1"; Lit "artifacts"; Wild] (fun ih => protect (handleGetArtifact now ih) all_roles now);
    mkRoute "DELETE" [Lit "v1"; Lit "artifacts"; Wild] (fun ih => protect (handleDeleteArtifact now ih) ["operator"] now) ].

Definition event_routes (now : Z) : list Route :=
  [ mkRoute "GET" [Lit "v1"; Lit "events"] (fun _ => protect (handleListEvents now) all_roles now) ].

(** The mux of the control plane; the ping of the database succeeds. *)
Definition ServeHTTP (now : Z) : Request -> CP -> CP * Response :=
  serve (agent_routes now ++ auth_routes now ++ workload_routes now ++ node_routes now ++ artifact_routes now ++
         event_routes now ++ [mkRoute "GET" [Lit "healthz"] (fun _ _ c => (c, (200, BText "ok")))])%list.
End UserApi.
