(* ===== verification/ComputeAgent.v ===== *)
(** * The compute agent (compute/agent)

    The process table, the buffer of health events, reconciliation with the
    desired state, the signed client with its retries, the registration flow and
    the inventory.  The operating system is outside: whether a path exists,
    whether a program starts and how it ends, the contents of /proc, the output
    of nvidia-smi and the random jitter are arguments, and so is what the network
    answers.  Map iteration orders are [scan], as in the control plane. *)
From Stdlib Require Import Ascii String.
From S2P Require Import Prelude GoStr GoFloat GoSort GoCrypto Compute ComputeAgentApi ComputeUserApi.
Open Scope list_scope.
Open Scope string_scope.
Open Scope Z_scope.

(** ** health.go *)

Definition maxBufferedEvents : Z := 100.

Record healthBuffer := mkBuffer { hb_events : list HealthEvent; hb_overflow : bool }.

Definition newHealthBuffer : healthBuffer := mkBuffer [] false.

Definition push (ev : HealthEvent) (hb : healthBuffer) : healthBuffer :=
  let hb := if maxBufferedEvents <=? len (hb_events hb)
            then mkBuffer (drop 1 (hb_events hb)) true else hb in
  hb {{ hb_events := (hb_events hb ++ [ev])%list }}.

(** The events, the overflow flag, and the buffer left behind. *)
Definition drain (hb : healthBuffer) : list HealthEvent * bool * healthBuffer :=
  match hb_events hb with
  | [] => ([], false, hb)
  | evs => (evs, hb_overflow hb, mkBuffer [] false)
  end.

(** ** executor.go *)

(** How a process ends: [cmd.Wait]. *)
Inductive WaitResult :=
| Exited
| ExitCode (code : Z) (text : string)
| WaitError (text : string).

(** A process, and whether its group was sent SIGTERM, and SIGKILL. *)
Record Proc := mkProc { p_pid : Z; p_signalled : bool; p_killed : bool }.

(** The agent: its processes, the events they sent that are not yet read, the
    buffer, and its credentials. *)
Record Agent := mkAgent {
  ag_running : gmap string Proc;
  ag_eventsCh : list HealthEvent;
  ag_healthBuf : healthBuffer;
  ag_NodeID : string;
  ag_secret : list Z
}.

Section Agent.
Context (scan : forall A, gmap string A -> list (string * A)).
(** What the operating system answers in one pass: [stat path] is the error of [os.Stat];
    [spawn wl] is the pid of the new process or the error of the steps that start it;
    [ends id p] is how a process ends within the grace period of a stop, if it does. *)
Context (stat : string -> option string) (spawn : DesiredWorkload -> result string Z)
  (ends : string -> Proc -> option WaitResult).

Definition IsRunning (id : string) (a : Agent) : bool := bool_decide (is_Some (ag_running a !! id)).
Definition RunningIDs (a : Agent) : list string := (scan _ (ag_running a)).*1.

(** [Err] is the text of the error. *)
Definition Start (wl : DesiredWorkload) (a : Agent) : Agent * option string :=
  if IsRunning (dw_ID wl) a then (a, None)
  else if String.eqb (wm_Entrypoint (dw_Manifest wl)) ""
  then (a, Some ("executor: workload " ++ dw_ID wl ++ " has no entrypoint"))
  else
    match spawn wl with
    | Err e => (a, Some e)
    | Ok pid => (a {{ ag_running := <[dw_ID wl := mkProc pid false false]> (ag_running a) }}, None)
    end.

(** [watch], when a process has ended. *)
Definition watch (now : Z) (id : string) (res : WaitResult) (a : Agent) : Agent :=
  match ag_running a !! id with
  | None => a
  | Some p =>
      let '(exitCode, kind, msg) :=
        match res with
        | Exited => (0, EventCompleted, "")
        | ExitCode code text =>
            (code, EventFailed, if code =? -1 then "killed by signal: " ++ text else "exited with code " ++ dec code)
        | WaitError text => (0, EventFailed, text)
        end in
      a {{ ag_running := delete id (ag_running a) }}
        {{ ag_eventsCh := (ag_eventsCh a ++ [mkHealth id kind now (p_pid p) (Some exitCode) msg])%list }}
  end.

(** [Stop] signals the process group and waits: a process that ends in the grace period is
    seen by [watch], whose event is taken to be sent before [Stop] returns; any
    other is killed, and [watch] sees its end later. *)
Definition Stop (now : Z) (id : string) (a : Agent) : Agent :=
  match ag_running a !! id with
  | None => a
  | Some p =>
      let p := p {{ p_signalled := true }} in
      let a := a {{ ag_running := <[id := p]> (ag_running a) }} in
      match ends id p with
      | Some res => watch now id res a
      | None => a {{ ag_running := <[id := p {{ p_killed := true }}]> (ag_running a) }}
      end
  end.

(** ** reconcile.go *)

Definition pushEvent (ev : HealthEvent) (a : Agent) : Agent := a {{ ag_healthBuf := push ev (ag_healthBuf a) }}.

(** [%q] on a text without characters to escape. *)
Definition quoted (s : string) : string := String (ascii_of_nat 34) s ++ String (ascii_of_nat 34) "".

(** [Some] is the text of the error. *)
Definition mount_volume (specMap : gmap string VolumeSpec) (m : VolumeMount) : option string :=
  match specMap !! vm_VolumeID m with
  | None => Some ("volume " ++ vm_VolumeID m ++ ": no spec provided")
  | Some spec =>
      if String.eqb (vs_Driver spec) "local" then
        if String.eqb (vs_SourcePath spec) "" then Some ("volume " ++ vm_VolumeID m ++ ": local driver requires source_path")
        else match stat (vs_SourcePath spec) with
             | Some e => Some ("volume " ++ vm_VolumeID m ++ ": source path " ++ vs_SourcePath spec ++ ": " ++ e)
             | None => None
             end
      else if String.eqb (vs_Driver spec) "artifact" then None
      else Some ("volume " ++ vm_VolumeID m ++ ": unsupported driver " ++ quoted (vs_Driver spec))
  end.

Fixpoint mount_all (specMap : gmap string VolumeSpec) (mounts : list VolumeMount) : option string :=
  match mounts with
  | [] => None
  | m :: mounts => match mount_volume specMap m with Some e => Some e | None => mount_all specMap mounts end
  end.

Definition mountVolumes (mounts : list VolumeMount) (specs : list VolumeSpec) : option string :=
  mount_all (foldl (fun m s => <[vs_VolumeID s := s]> m) ∅ specs) mounts.

Definition desired_run (d : DesiredStateResponse) : gmap string DesiredWorkload :=
  foldl (fun m wl => if bool_decide (dw_Action wl = ActionRun) then <[dw_ID wl := wl]> m else m) ∅ (ds_Workloads d).

(** A running workload that is not to run. *)
Definition stop_removed (now : Z) (desiredRun : gmap string DesiredWorkload) (a : Agent) (id : string) : Agent :=
  match desiredRun !! id with
  | Some _ => a
  | None => pushEvent (mkHealth id EventStopped now 0 (Some 0) "") (Stop now id a)
  end.

Definition explicit_stop (now : Z) (runningSet : gmap string Proc) (a : Agent) (wl : DesiredWorkload) : Agent :=
  match dw_Action wl with
  | ActionStop => match runningSet !! dw_ID wl with Some _ => Stop now (dw_ID wl) a | None => a end
  | _ => a
  end.

Definition start_missing (now : Z) (runningSet : gmap string Proc) (volumes : list VolumeSpec) (a : Agent)
    (kv : string * DesiredWorkload) : Agent :=
  let '(id, wl) := kv in
  match runningSet !! id with
  | Some _ => a
  | None =>
      match mountVolumes (wm_Volumes (dw_Manifest wl)) volumes with
      | Some e => pushEvent (mkHealth id EventFailed now 0 (Some 1) ("volume mount failed: " ++ e)) a
      | None =>
          match Start wl a with
          | (a, Some e) => pushEvent (mkHealth id EventFailed now 0 (Some 1) e) a
          | (a, None) => pushEvent (mkHealth id EventStarted now 0 None "") a
          end
      end
  end.

Definition reconcile (now : Z) (d : DesiredStateResponse) (a : Agent) : Agent :=
  let desiredRun := desired_run d in
  let runningSet := ag_running a in
  let a := foldl (stop_removed now desiredRun) a (RunningIDs a) in
  let a := foldl (explicit_stop now runningSet) a (ds_Workloads d) in
  foldl (start_missing now runningSet (ds_Volumes d)) a (scan _ desiredRun).

(** ** agent.go: the event loop *)

(** [flushHealth]: what is sent, if anything; [sent] says whether the request
    succeeded. *)
Definition flushHealth (now : Z) (sent : bool) (a : Agent) : option HealthRequest * Agent :=
  let '(events, overflow, hb) := drain (ag_healthBuf a) in
  match events with
  | [] => (None, a {{ ag_healthBuf := hb }})
  | _ => (Some (mkHealthReq now events overflow),
          a {{ ag_healthBuf := if sent then hb else foldl (fun hb ev => push ev hb) hb events }})
  end.

(** An event from the executor is buffered and the buffer is flushed. *)
Definition on_event (now : Z) (sent : bool) (a : Agent) : option HealthRequest * Agent :=
  match ag_eventsCh a with
  | [] => (None, a)
  | ev :: rest => flushHealth now sent (pushEvent ev (a {{ ag_eventsCh := rest }}))
  end.
End Agent.

Definition currentStatus : Status := StatusReady.

(** ** client.go *)

Record apiError := mkApiError { ae_statusCode : Z; ae_code : string; ae_message : string; ae_retry : bool }.

(** An error of a request: a structured one of the API, or another. *)
Inductive ClientError := EApi (e : apiError) | EOther (text : string) | EContext.

Definition IsGone (e : apiError) : bool := ae_statusCode e =? 410.
Definition IsUnauth (e : apiError) : bool := ae_statusCode e =? 401.
Definition IsRetryable (e : apiError) : bool := ae_retry e || (500 <=? ae_statusCode e).

Record HttpResponse := mkHttp { hr_StatusCode : Z; hr_Body : result string string }.

(** [envelope] decodes an error body, [decode] the result. *)
Definition decodeResponse {A} (envelope : string -> option (string * string * bool)) (decode : string -> result string A)
    (zero : A) (r : HttpResponse) : result ClientError A :=
  match hr_Body r with
  | Err e => Err (EOther ("read body: " ++ e))
  | Ok body =>
      if hr_StatusCode r =? 304 then Ok zero
      else if 400 <=? hr_StatusCode r then
        match envelope body with
        | Some (code, message, retry) =>
            if String.eqb code "" then Err (EOther ("http " ++ dec (hr_StatusCode r) ++ ": " ++ body))
            else Err (EApi (mkApiError (hr_StatusCode r) code message retry))
        | None => Err (EOther ("http " ++ dec (hr_StatusCode r) ++ ": " ++ body))
        end
      else if String.eqb body "" then Ok zero
      else match decode body with Ok v => Ok v | Err e => Err (EOther ("decode response: " ++ e)) end
  end.

(** The headers of a signed request. *)
Definition sign (nodeID : string) (secret : list Z) (now : Z) (body : string) (r : Request) : Request :=
  r {{ q_node_id := nodeID }} {{ q_timestamp := dec now }} {{ q_signature := signature secret nodeID (dec now) body }}.

Definition newClient (secretHex : string) : option (list Z) := DecodeString secretHex.

(** Durations of nanoseconds: the table holds bare numbers. *)
Definition retryDelays : list Z := [2; 4; 8; 16; 30].

(** The delay before the next attempt; [rand.Int63n(base/2)] is [jitter mod
    (base/2)], and panics when the bound is zero. *)
Definition retry_delay (attempt : nat) (jitter : Z) : option Z :=
  let base := nth (Nat.min attempt (length retryDelays - 1)) retryDelays 0 in
  let bound := base / 2 in
  if bound <=? 0 then None else Some (base * Second + jitter mod bound).

Definition maxAttempts : nat := 10.

(** [withRetry] from an attempt on: the outcome of each attempt, and whether the
    context is done by the end of the wait after it.  The result is the error or
    the value, with the attempts made and the time slept. *)
Fixpoint retry_from {A} (fn : nat -> result ClientError A) (done : nat -> bool) (jitter : nat -> Z) (label : string)
    (fuel attempt : nat) (slept : Z) : result ClientError A * nat * Z :=
  match fuel with
  | O => (Err (EOther (label ++ ": failed after " ++ dec (Z.of_nat maxAttempts) ++ " attempts")), attempt, slept)
  | S fuel =>
      match fn attempt with
      | Ok v => (Ok v, S attempt, slept)
      | Err _ =>
          if done attempt then (Err EContext, S attempt, slept)
          else retry_from fn done jitter label fuel (S attempt) (slept + default 0 (retry_delay attempt (jitter attempt)))
      end
  end.

Definition withRetry {A} (fn : nat -> result ClientError A) (done : nat -> bool) (jitter : nat -> Z) (label : string)
    : result ClientError A * nat * Z :=
  retry_from fn done jitter label maxAttempts 0 0.

(** [handleAPIError]: whether the agent registers again. *)
Definition handleAPIError (e : ClientError) : bool :=
  match e with EApi e => IsGone e || IsUnauth e | _ => false end.

(** ** agent.go: registration *)

Record AgentConfig := mkAgentConfig {
  cfg_BootstrapToken : string;
  cfg_DisplayName : string;
  cfg_Labels : option (gmap string string)
}.

Definition agentVersion : string := "1.0.0".

Definition gpu_spec (g : InventoryGPU) : GPUSpec := mkGPUSpec (ig_DeviceIndex g) (ig_Model g) (ig_VRAMMb g) (ig_CUDACap g).

(** The request of [register]. *)
Definition registration (cfg : AgentConfig) (hostname arch : string) (inv : InventoryRequest) : RegisterRequest :=
  mkRegister hostname (cfg_DisplayName cfg) arch agentVersion (iv_CPUCores inv) (iv_RAMMb inv) (iv_StorageGb inv)
    (gpu_spec <$> iv_GPUs inv) (cfg_Labels cfg).

(** What the agent takes from the answer: its credentials and, in seconds, the
    intervals, which a non-positive value leaves at their defaults. *)
Record Registered := mkRegistered {
  rg_id : string;
  rg_secret : list Z;
  rg_heartbeat : Z;
  rg_inventory : Z;
  rg_desired : Z
}.

Definition apply_registration (r : RegisterResponse) : option Registered :=
  match newClient (rg_NodeSecret r) with
  | None => None
  | Some secret =>
      let positive v d := if 0 <? v then v else d in
      Some (mkRegistered (rg_NodeID r) secret (positive (rg_HeartbeatIntervalSec r) 30)
              (positive (rg_InventoryIntervalSec r) 300) (positive (rg_DesiredPollIntervalSec r) 15))
  end.

(** ** inventory.go

    The texts of /proc and of nvidia-smi are ASCII. *)

Definition is_blank (c : ascii) : bool :=
  let v := ascii_byte c in ((9 <=? v) && (v <=? 13)) || (v =? 32).

(** [strings.Fields] *)
Fixpoint fields_from (cur : string) (s : string) : list string :=
  let done := if String.eqb cur "" then [] else [cur] in
  match s with
  | "" => done
  | String c r => if is_blank c then (done ++ fields_from "" r)%list else fields_from (cur ++ String c "") r
  end.
Definition Fields (s : string) : list string := fields_from "" s.

(** [strings.TrimSpace] *)
Fixpoint trim_left (s : string) : string :=
  match s with String c r => if is_blank c then trim_left r else s | "" => "" end.
Definition reversed (s : string) : string := string_of_list_ascii (rev (list_ascii_of_string s)).
Definition TrimSpace (s : string) : string := reversed (trim_left (reversed (trim_left s))).

(** The lines of a [bufio.Scanner]: without the line feed and a carriage
    return before it; no empty line at the end of the text. *)
Definition drop_cr (s : string) : string :=
  match reversed s with String c r => if ascii_byte c =? 13 then reversed r else s | "" => "" end.
Fixpoint lines_from (cur : string) (s : string) : list string :=
  match s with
  | "" => if String.eqb cur "" then [] else [drop_cr cur]
  | String c r => if ascii_byte c =? 10 then drop_cr cur :: lines_from "" r else lines_from (cur ++ String c "") r
  end.
Definition lines (s : string) : list string := lines_from "" s.

(** [strings.Split(line, ", ")] *)
Fixpoint split_from (cur : string) (s : string) : list string :=
  match s with
  | "" => [cur]
  | String c r =>
      match r with
      | String d r2 => if (ascii_byte c =? 44) && (ascii_byte d =? 32) then cur :: split_from "" r2
                       else split_from (cur ++ String c "") r
      | "" => [cur ++ String c ""]
      end
  end.
Definition splitCSV (line : string) : list string := split_from "" line.

(** The file is its text or the error of opening it. *)
Definition readMeminfoKb (file : result string string) (field : string) : result string Z :=
  match file with
  | Err e => Err e
  | Ok text =>
      match find (fun l => String.prefix (field ++ ":") l) (lines text) with
      | None => Err ("field " ++ quoted field ++ " not found in /proc/meminfo")
      | Some line =>
          match Fields line with
          | _ :: v :: _ => match ParseInt v 64 with Some v => Ok v | None => Err ("parse meminfo " ++ field) end
          | _ => Err ("malformed meminfo line: " ++ quoted line)
          end
      end
  end.

Definition readTotalRAMMb (file : result string string) : Z :=
  match readMeminfoKb file "MemTotal" with Ok v => Z.quot v 1024 | Err _ => 0 end.
Definition readFreeRAMMb (file : result string string) : Z :=
  match readMeminfoKb file "MemAvailable" with Ok v => Z.quot v 1024 | Err _ => 0 end.

(** A text that does not parse counts as zero, or as the nearest bound when it
    is out of range; /proc has neither. *)
Definition cpu_counters (fs : list string) : list Z := (fun f => default 0 (ParseInt f 64)) <$> fs.

Definition readCPUIdlePct (file : result string string) : float64 :=
  match file with
  | Err _ => of_int 0
  | Ok text =>
      match find (fun l => String.prefix "cpu " l) (lines text) with
      | None => of_int 0
      | Some line =>
          match Fields line with
          | _ :: fs =>
              if len fs <? 4 then of_int 0
              else
                let vs := cpu_counters fs in
                let total := foldl (fun t v => i64 (t + v)) 0 vs in
                let idle := nth 3 vs 0 in
                if total =? 0 then of_int 0 else fmul (fdiv (of_int idle) (of_int total)) (of_int 100)
          | [] => of_int 0
          end
      end
  end.

(** [statfs] gives blocks and block size, [None] for an error. *)
Definition disk_gb (st : option (Z * Z)) : Z :=
  match st with Some (blocks, bsize) => u64 (blocks * bsize) / (1024 * 1024 * 1024) | None => 0 end.

Definition parse_gpu (line : string) : option InventoryGPU :=
  match splitCSV line with
  | idx :: model :: total :: free :: cap :: _ =>
      let num s := default 0 (Atoi (TrimSpace s)) in
      Some (mkInvGPU (num idx) (TrimSpace model) (num total) (num free) (TrimSpace cap) "ready" "")
  | _ => None
  end.

Definition collectGPUs (out : option string) : list InventoryGPU :=
  match out with
  | None => []
  | Some text => omap parse_gpu (filter (fun l => l <> "") (TrimSpace <$> lines text))
  end.

(** What the machine shows of itself. *)
Record Machine := mkMachine {
  mc_NumCPU : Z;
  mc_meminfo : result string string;
  mc_stat : result string string;
  mc_disk_total : option (Z * Z);
  mc_disk_free : option (Z * Z);
  mc_nvidia : option string
}.

Definition collectInventory (now : Z) (m : Machine) : InventoryRequest :=
  mkInventory now (mc_NumCPU m) (readTotalRAMMb (mc_meminfo m)) (disk_gb (mc_disk_total m)) (collectGPUs (mc_nvidia m))
    (readCPUIdlePct (mc_stat m)) (readFreeRAMMb (mc_meminfo m)) (disk_gb (mc_disk_free m)) (of_int 0) agentVersion.

(** ** config.go: labels of the command line *)

Fixpoint split_comma (cur : string) (s : string) : list string :=
  match s with
  | "" => [cur]
  | String c r => if ascii_byte c =? 44 then cur :: split_comma "" r else split_comma (cur ++ String c "") r
  end.
(** [strings.SplitN(s, "=", 2)], when there are two parts. *)
Fixpoint split_eq (cur : string) (s : string) : option (string * string) :=
  match s with
  | "" => None
  | String c r => if ascii_byte c =? 61 then Some (cur, r) else split_eq (cur ++ String c "") r
  end.

Definition parse_labels (pairs : string) (labels : gmap string string) : gmap string string :=
  if String.eqb pairs "" then labels
  else foldl (fun m pair => match split_eq "" (TrimSpace pair) with Some (k, v) => <[k := v]> m | None => m end)
         labels (split_comma "" pairs).
