(* ===== verification/ComputeSpec.v ===== *)
(** * The compute plane: reservations, retries and capacity

    Every request and every tick of the control plane is a sequence of
    primitive updates ([prim]) of the tables of nodes, GPUs, workloads and
    reservations; what the tables guarantee is preserved by each of them. *)
From Stdlib Require Import String.
From S2P Require Import Prelude GoStr GoFloat GoSort GoCrypto Compute ComputeAgentApi ComputeUserApi.
Open Scope list_scope.
Open Scope Z_scope.

(** ** Primitive updates *)

(** The tables that scheduling is about. *)
Definition core (c : CP) := (cp_nodes c, cp_gpus c, cp_workloads c, cp_reservations c).

(** What a workload asked for does not change. *)
Definition same_job (w w' : WorkloadRow) : Prop :=
  w_manifest w' = w_manifest w /\ w_max_retries w' = w_max_retries w /\ w_org_id w' = w_org_id w.

Definition spec_ok (res : ResourceSpec) : Prop :=
  1 <= rs_CPUMillicores res /\ 1 <= rs_RAMMb res /\ 0 <= rs_GPUCount res <= 16.

(** No reservation of the workload is active. *)
Definition released (id : string) (c : CP) : Prop :=
  forall rid r, cp_reservations c !! rid = Some r -> r_workload_id r = id -> active r = false.

(** What may be assumed of an update: that agents are honest, which is that they report
    the start of workloads that occupy their node, and the end of workloads assigned to
    it; and which workloads may be dispatched. *)
Record Mode := mkMode { md_honest : bool; md_dispatch : string -> Prop }.
Definition serial (honest : bool) : Mode := mkMode honest (fun _ => True).

(** No workload of that name occupies a node. *)
Definition idle (id : string) (c : CP) : Prop :=
  forall w, cp_workloads c !! id = Some w -> occupies (w_status w) = false.

Inductive prim (h : Mode) (c : CP) : CP -> Prop :=
| P_frame c' : core c' = core c -> prim h c c'
| P_node id n n' :
    cp_nodes c !! id = Some n -> n_cpu_cores n' = n_cpu_cores n -> n_ram_mb n' = n_ram_mb n ->
    prim h c (c {{ cp_nodes := <[id := n']> (cp_nodes c) }})
| P_new_node id n :
    cp_nodes c !! id = None -> 0 < n_cpu_cores n -> 0 < n_ram_mb n ->
    prim h c (c {{ cp_nodes := <[id := n]> (cp_nodes c) }})
| P_gpu g row row' :
    cp_gpus c !! g = Some row -> g_node_id row' = g_node_id row -> g_workload_id row' = g_workload_id row ->
    prim h c (c {{ cp_gpus := <[g := row']> (cp_gpus c) }})
| P_new_gpu g row :
    cp_gpus c !! g = None -> g_workload_id row = None -> prim h c (c {{ cp_gpus := <[g := row]> (cp_gpus c) }})
| P_submit id w :
    cp_workloads c !! id = None -> w_status w = WSubmitted -> w_retry_count w = 0 -> 0 <= w_max_retries w <= 10 ->
    spec_ok (wm_Resources (w_manifest w)) -> prim h c (c {{ cp_workloads := <[id := w]> (cp_workloads c) }})
| P_update id w w' :
    cp_workloads c !! id = Some w -> same_job w w' -> w_retry_count w' = w_retry_count w ->
    pending_status (w_status w') = false ->
    (occupies (w_status w') = true -> occupies (w_status w) = true /\ w_node_id w' = w_node_id w) ->
    prim h c (c {{ cp_workloads := <[id := w']> (cp_workloads c) }})
| P_start id w w' :
    cp_workloads c !! id = Some w -> same_job w w' -> w_retry_count w' = w_retry_count w ->
    w_status w' = WRunning -> w_node_id w' = w_node_id w -> (md_honest h = true -> occupies (w_status w) = true) ->
    prim h c (c {{ cp_workloads := <[id := w']> (cp_workloads c) }})
| P_release id t :
    (md_honest h = true -> idle id c) -> prim h c (release_reservations id t c)
| P_free id : released id c -> prim h c (free_gpus id c)
| P_requeue id w w' :
    cp_workloads c !! id = Some w -> same_job w w' -> w_retry_count w < w_max_retries w ->
    w_retry_count w' = w_retry_count w + 1 -> pending_status (w_status w) = false -> w_status w' = WQueued ->
    released id c -> prim h c (c {{ cp_workloads := <[id := w']> (cp_workloads c) }})
| P_dispatch rid r w w' n gpus :
    let res := wm_Resources (w_manifest w) in
    md_dispatch h (r_workload_id r) -> cp_reservations c !! rid = None ->
    cp_workloads c !! r_workload_id r = Some w -> pending_status (w_status w) = true ->
    same_job w w' -> w_retry_count w' = w_retry_count w ->
    w_status w' = WDispatched -> w_node_id w' = Some (r_node_id r) ->
    cp_nodes c !! r_node_id r = Some n ->
    r_state r = RReserved -> r_cpu_mcores r = rs_CPUMillicores res -> r_ram_mb r = rs_RAMMb res ->
    rs_CPUMillicores res <= free_cpu c (r_node_id r) n -> rs_RAMMb res <= free_ram c (r_node_id r) n ->
    match r_gpu_id r with
    | None => gpus = cp_gpus c
    | Some g => exists row, cp_gpus c !! g = Some row /\ g_workload_id row = None /\ g_node_id row = r_node_id r /\
        gpus = <[g := row {{ g_workload_id := Some (r_workload_id r) }} {{ g_vram_reserved := r_gpu_vram_mb r }}]> (cp_gpus c)
    end ->
    prim h c (c {{ cp_reservations := <[rid := r]> (cp_reservations c) }} {{ cp_gpus := gpus }}
                {{ cp_workloads := <[r_workload_id r := w']> (cp_workloads c) }}).

(** An inventory report: the capacity of a node changes. *)
Inductive report (c : CP) : CP -> Prop :=
| Report id n n' : cp_nodes c !! id = Some n -> 0 < n_cpu_cores n' -> 0 < n_ram_mb n' ->
    report c (c {{ cp_nodes := <[id := n']> (cp_nodes c) }}).

(** ** What the tables guarantee *)

Definition attempts (id : string) (c : CP) : Z :=
  map_sum (fun r => if String.eqb (r_workload_id r) id then 1 else 0) (cp_reservations c).

(** The GPU of an active reservation is held by its workload, on its node. *)
Definition held (c : CP) (r : Reservation) : Prop :=
  forall g, r_gpu_id r = Some g -> exists row, cp_gpus c !! g = Some row /\
    g_workload_id row = Some (r_workload_id r) /\ g_node_id row = r_node_id r.

Record Inv (c : CP) : Prop := mkInv {
  inv_node : forall rid r, cp_reservations c !! rid = Some r -> is_Some (cp_nodes c !! r_node_id r);
  inv_job : forall rid r, cp_reservations c !! rid = Some r -> exists w, cp_workloads c !! r_workload_id r = Some w /\
    r_cpu_mcores r = rs_CPUMillicores (wm_Resources (w_manifest w)) /\ r_ram_mb r = rs_RAMMb (wm_Resources (w_manifest w));
  inv_held : forall rid r, cp_reservations c !! rid = Some r -> active r = true -> held c r;
  inv_one : forall rid rid' r r', cp_reservations c !! rid = Some r -> cp_reservations c !! rid' = Some r' ->
    active r = true -> active r' = true -> r_workload_id r = r_workload_id r' -> rid = rid';
  inv_pending : forall id w, cp_workloads c !! id = Some w -> pending_status (w_status w) = true -> released id c;
  inv_attempts : forall id w, cp_workloads c !! id = Some w ->
    attempts id c <= w_retry_count w + (if pending_status (w_status w) then 0 else 1);
  inv_retries : forall id w, cp_workloads c !! id = Some w -> 0 <= w_retry_count w <= w_max_retries w /\ w_max_retries w <= 10;
  inv_spec : forall id w, cp_workloads c !! id = Some w -> spec_ok (wm_Resources (w_manifest w))
}.

(** No node has more reserved than it has. *)
Definition within_capacity (c : CP) : Prop :=
  forall id n, cp_nodes c !! id = Some n -> 0 <= free_cpu c id n /\ 0 <= free_ram c id n.

(** Every workload that occupies a node has an active reservation there. *)
Definition live_reserved (c : CP) : Prop :=
  forall id w, cp_workloads c !! id = Some w -> occupies (w_status w) = true ->
    exists rid r, cp_reservations c !! rid = Some r /\ active r = true /\ r_workload_id r = id /\ w_node_id w = Some (r_node_id r).

(** ** Lemmas *)

Lemma update_where_lookup {A} (P : string -> A -> bool) f (m : gmap string A) k :
  update_where P f m !! k = (fun a => if P k a then f a else a) <$> m !! k.
Proof. unfold update_where. rewrite map_lookup_imap. by destruct (m !! k). Qed.

Definition release (id : string) (t : Z) (r : Reservation) : Reservation :=
  if String.eqb (r_workload_id r) id && negb (bool_decide (r_state r = RReleased))
  then r {{ r_state := RReleased }} {{ r_released_at := Some t }} else r.

Lemma release_lookup id t c rid :
  cp_reservations (release_reservations id t c) !! rid = release id t <$> cp_reservations c !! rid.
Proof. destruct c. cbn. rewrite update_where_lookup. done. Qed.

Lemma reservation_release id t r :
  r_node_id (release id t r) = r_node_id r /\ r_workload_id (release id t r) = r_workload_id r /\
  r_cpu_mcores (release id t r) = r_cpu_mcores r /\ r_ram_mb (release id t r) = r_ram_mb r /\
  r_gpu_id (release id t r) = r_gpu_id r /\
  active (release id t r) = active r && negb (String.eqb (r_workload_id r) id).
Proof.
  unfold release, active. destruct (String.eqb _ _) eqn:E; cbn [andb negb].
  - destruct r as [? ? ? ? ? ? st ? ?]; cbn. destruct st; cbn; done.
  - rewrite andb_true_r. done.
Qed.

Lemma released_after id t c : released id (release_reservations id t c).
Proof.
  intros rid r Hr Hid. rewrite release_lookup in Hr. apply fmap_Some in Hr as (r0 & Hr0 & ->).
  destruct (reservation_release id t r0) as (_ & Ew & _ & _ & _ & ->).
  rewrite Ew in Hid. rewrite Hid, String.eqb_refl. by rewrite andb_false_r.
Qed.

Lemma core_frame c c' : core c' = core c ->
  cp_nodes c' = cp_nodes c /\ cp_gpus c' = cp_gpus c /\ cp_workloads c' = cp_workloads c /\ cp_reservations c' = cp_reservations c.
Proof. intros [=]. done. Qed.

Lemma Inv_core c c' : core c' = core c -> Inv c -> Inv c'.
Proof.
  intros (E1 & E2 & E3 & E4)%core_frame [].
  constructor; unfold held, released, attempts in *; rewrite ?E1, ?E2, ?E3, ?E4; done.
Qed.

Lemma map_sum_update_where {A} (f f' : A -> Z) (P : string -> A -> bool) g (m : gmap string A) :
  (forall k a, m !! k = Some a -> f (if P k a then g a else a) = f' a) ->
  map_sum f (update_where P g m) = map_sum f' m.
Proof.
  induction m as [|k a m Hk IH] using map_ind; intros Hf.
  - unfold update_where. rewrite map_imap_empty. done.
  - assert (update_where P g (<[k := a]> m) = <[k := if P k a then g a else a]> (update_where P g m)) as ->.
    { apply map_eq. intros j. rewrite !update_where_lookup. destruct (decide (k = j)) as [<-|].
      - by rewrite !lookup_insert_eq.
      - rewrite !lookup_insert_ne, update_where_lookup by done. done. }
    rewrite !map_sum_insert; [|done|by rewrite update_where_lookup, Hk].
    rewrite (Hf k a) by apply lookup_insert_eq. rewrite IH; [done|].
    intros j b Hj. apply Hf. rewrite lookup_insert_ne; [done|]. by intros ->; simplify_eq.
Qed.

Lemma map_sum_ext_le {A} (f f' : A -> Z) (m : gmap string A) :
  (forall k a, m !! k = Some a -> f a <= f' a) -> map_sum f m <= map_sum f' m.
Proof.
  induction m as [|k a m Hk IH] using map_ind; intros Hf; [done|].
  rewrite !map_sum_insert by done. specialize (Hf k a (lookup_insert_eq _ _ _)) as Ha.
  enough (map_sum f m <= map_sum f' m) by lia. apply IH. intros j b Hj. apply (Hf j).
  rewrite lookup_insert_ne; [done|]. by intros ->; simplify_eq.
Qed.

Lemma release_attempts id t c id' : attempts id' (release_reservations id t c) = attempts id' c.
Proof.
  unfold attempts. destruct c as [? ? ? ? ? ? ? ? ? res ? ? ? ?]. cbn [release_reservations cp_reservations].
  apply map_sum_update_where. intros k a _. destruct (_ && _); by destruct a.
Qed.

(** The rows of the other tables are untouched. *)
Lemma release_frame id t c :
  cp_nodes (release_reservations id t c) = cp_nodes c /\ cp_workloads (release_reservations id t c) = cp_workloads c /\
  cp_gpus (release_reservations id t c) = cp_gpus c.
Proof. by destruct c. Qed.

Lemma free_frame id c :
  cp_nodes (free_gpus id c) = cp_nodes c /\ cp_workloads (free_gpus id c) = cp_workloads c /\
  cp_reservations (free_gpus id c) = cp_reservations c.
Proof. by destruct c. Qed.

Lemma free_lookup id c g :
  cp_gpus (free_gpus id c) !! g =
  (fun row => if bool_decide (g_workload_id row = Some id) then row {{ g_workload_id := None }} {{ g_vram_reserved := 0 }} else row)
    <$> cp_gpus c !! g.
Proof. destruct c. cbn. by rewrite update_where_lookup. Qed.

Lemma Inv_release id t c : Inv c -> Inv (release_reservations id t c).
Proof.
  intros [Hn Hj Hh Ho Hp Ha Hr Hs]. destruct (release_frame id t c) as (En & Ew & Eg).
  assert (forall rid r, cp_reservations (release_reservations id t c) !! rid = Some r ->
            exists r0, cp_reservations c !! rid = Some r0 /\ r = release id t r0) as Hl.
  { intros rid r Hrid. rewrite release_lookup in Hrid. apply fmap_Some in Hrid as (r0 & ? & ->). eauto. }
  constructor; rewrite ?En, ?Ew.
  - intros rid r (r0 & Hr0 & ->)%Hl. destruct (reservation_release id t r0) as (-> & _). eauto.
  - intros rid r (r0 & Hr0 & ->)%Hl. destruct (reservation_release id t r0) as (_ & -> & -> & -> & _). eauto.
  - intros rid r (r0 & Hr0 & ->)%Hl Hact g. destruct (reservation_release id t r0) as (E1 & E2 & _ & _ & E3 & E4).
    rewrite E4 in Hact. apply andb_prop in Hact as [Hact _]. rewrite E1, E2, E3, Eg. by apply Hh with (1 := Hr0).
  - intros rid rid' r r' (r0 & Hr0 & ->)%Hl (r0' & Hr0' & ->)%Hl.
    destruct (reservation_release id t r0) as (_ & -> & _ & _ & _ & ->), (reservation_release id t r0') as (_ & -> & _ & _ & _ & ->).
    intros [H1 _]%andb_prop [H2 _]%andb_prop He. by eapply Ho.
  - intros id' w Hw Hpend rid r (r0 & Hr0 & ->)%Hl. destruct (reservation_release id t r0) as (_ & -> & _ & _ & _ & ->).
    intros He. by rewrite (Hp id' w Hw Hpend rid r0 Hr0 He).
  - intros id' w Hw. rewrite release_attempts. eauto.
  - done.
  - done.
Qed.

Lemma Inv_nodes c m : Inv c -> (forall id, is_Some (cp_nodes c !! id) -> is_Some (m !! id)) -> Inv (c {{ cp_nodes := m }}).
Proof. intros [Hn ? ? ? ? ? ? ?] Hm. destruct c; constructor; cbn in *; eauto. Qed.

Lemma Inv_gpus c m : Inv c ->
  (forall g row, cp_gpus c !! g = Some row -> is_Some (g_workload_id row) -> exists row', m !! g = Some row' /\
     g_workload_id row' = g_workload_id row /\ g_node_id row' = g_node_id row) ->
  Inv (c {{ cp_gpus := m }}).
Proof.
  intros [? ? Hh ? ? ? ? ?] Hm. destruct c; constructor; cbn in *; try done.
  intros rid r Hr Hact g Hg. destruct (Hh rid r Hr Hact g Hg) as (row & Hrow & Hw & Hn).
  destruct (Hm g row Hrow) as (row' & Hrow' & Hw' & Hn'); [by rewrite Hw|]. exists row'. cbn. rewrite Hw', Hn'. done.
Qed.

(** Only a workload without an active reservation gives its devices back. *)
Lemma Inv_free id c : Inv c -> released id c -> Inv (free_gpus id c).
Proof.
  intros [? ? Hh ? ? ? ? ?] Hrel. destruct (free_frame id c) as (En & Ew & Er).
  constructor; unfold held, released, attempts in *; rewrite ?En, ?Ew, ?Er; try done.
  intros rid r Hr Hact g Hg. destruct (Hh rid r Hr Hact g Hg) as (row & Hrow & Hw & Hn). exists row.
  rewrite free_lookup, Hrow. cbn. rewrite bool_decide_eq_false_2; [done|]. rewrite Hw. intros [= E].
  by rewrite (Hrel rid r Hr E) in Hact.
Qed.

(** A change of one workload that keeps the job. *)
Lemma Inv_workload c id w w' :
  Inv c -> cp_workloads c !! id = Some w -> same_job w w' ->
  (pending_status (w_status w') = true -> released id c) ->
  0 <= w_retry_count w' <= w_max_retries w ->
  attempts id c <= w_retry_count w' + (if pending_status (w_status w') then 0 else 1) ->
  Inv (c {{ cp_workloads := <[id := w']> (cp_workloads c) }}).
Proof.
  intros [Hn Hj Hh Ho Hp Ha Hr Hs] Hw (Em & Ex & _) Hpend Hret Hatt.
  destruct c as [? ? ? ? ? ? ? ? ws res ? ? ? ?]; cbn in *.
  constructor; cbn; try done.
  - intros rid r Hrid. destruct (Hj rid r Hrid) as (w0 & Hw0 & ? & ?).
    destruct (decide (r_workload_id r = id)) as [Heq|]; [|rewrite lookup_insert_ne by done; eauto].
    rewrite Heq in *. simplify_eq. exists w'. rewrite lookup_insert_eq, Em. done.
  - intros id' w0 [[<- <-]|[? Hw0]]%lookup_insert_Some; [done|]. by eapply Hp.
  - intros id' w0 [[<- <-]|[? Hw0]]%lookup_insert_Some; [done|]. by eapply Ha.
  - intros id' w0 [[<- <-]|[? Hw0]]%lookup_insert_Some; [|by eapply Hr]. rewrite Ex. pose proof (Hr id w Hw). lia.
  - intros id' w0 [[<- <-]|[? Hw0]]%lookup_insert_Some; [|by eapply Hs]. rewrite Em. by eapply Hs.
Qed.

Lemma attempts_absent id c :
  (forall rid r, cp_reservations c !! rid = Some r -> r_workload_id r <> id) -> attempts id c = 0.
Proof.
  intros Ha. unfold attempts. revert Ha. generalize (cp_reservations c). intros m.
  induction m as [|k r m Hk IH] using map_ind; intros Ha; [done|].
  rewrite map_sum_insert by done. rewrite IH.
  - rewrite (proj2 (String.eqb_neq _ _)); [done|]. apply (Ha k). apply lookup_insert_eq.
  - intros rid r' Hr. apply (Ha rid). rewrite lookup_insert_ne; [done|]. by intros ->; simplify_eq.
Qed.

Lemma Inv_submit c id w :
  Inv c -> cp_workloads c !! id = None -> w_status w = WSubmitted -> w_retry_count w = 0 -> 0 <= w_max_retries w <= 10 ->
  spec_ok (wm_Resources (w_manifest w)) -> Inv (c {{ cp_workloads := <[id := w]> (cp_workloads c) }}).
Proof.
  intros [Hn Hj Hh Ho Hp Ha Hr Hs] Hid Est Ert Hmax Hspec.
  assert (forall rid r, cp_reservations c !! rid = Some r -> r_workload_id r <> id) as Hnone.
  { intros rid r Hrid <-. destruct (Hj rid r Hrid) as (? & ? & _). simplify_eq. }
  pose proof (attempts_absent id c Hnone) as Hz.
  destruct c as [? ? ? ? ? ? ? ? ws res ? ? ? ?]; cbn in *. constructor; cbn; try done.
  - intros rid r Hrid. rewrite lookup_insert_ne by (intros ?; by eapply Hnone). eauto.
  - intros id' w0 [[<- <-]|[? Hw0]]%lookup_insert_Some; [|by eapply Hp].
    intros _ rid r Hrid ?. by destruct (Hnone rid r).
  - intros id' w0 [[<- <-]|[? Hw0]]%lookup_insert_Some; [|by eapply Ha].
    rewrite Est, Ert. cbn. unfold attempts in *. cbn in *. lia.
  - intros id' w0 [[<- <-]|[? Hw0]]%lookup_insert_Some; [|by eapply Hr]. lia.
  - intros id' w0 [[<- <-]|[? Hw0]]%lookup_insert_Some; [done|by eapply Hs].
Qed.

Lemma attempts_insert c rid r id :
  cp_reservations c !! rid = None ->
  attempts id (c {{ cp_reservations := <[rid := r]> (cp_reservations c) }}) =
  attempts id c + (if String.eqb (r_workload_id r) id then 1 else 0).
Proof. intros Hr. destruct c. unfold attempts. cbn in *. rewrite map_sum_insert by done. lia. Qed.

(** The reservation of a dispatch: the workload was pending, so it has no
    active one, and its GPU was free. *)
Lemma Inv_reserve c rid r w gpus :
  Inv c -> cp_reservations c !! rid = None ->
  cp_workloads c !! r_workload_id r = Some w -> pending_status (w_status w) = true ->
  is_Some (cp_nodes c !! r_node_id r) ->
  r_cpu_mcores r = rs_CPUMillicores (wm_Resources (w_manifest w)) -> r_ram_mb r = rs_RAMMb (wm_Resources (w_manifest w)) ->
  match r_gpu_id r with
  | None => gpus = cp_gpus c
  | Some g => exists row, cp_gpus c !! g = Some row /\ g_workload_id row = None /\ g_node_id row = r_node_id r /\
      gpus = <[g := row {{ g_workload_id := Some (r_workload_id r) }} {{ g_vram_reserved := r_gpu_vram_mb r }}]> (cp_gpus c)
  end ->
  let c' := c {{ cp_reservations := <[rid := r]> (cp_reservations c) }} {{ cp_gpus := gpus }} in
  (forall rid r, cp_reservations c' !! rid = Some r -> is_Some (cp_nodes c' !! r_node_id r)) /\
  (forall rid r, cp_reservations c' !! rid = Some r -> exists w, cp_workloads c' !! r_workload_id r = Some w /\
     r_cpu_mcores r = rs_CPUMillicores (wm_Resources (w_manifest w)) /\ r_ram_mb r = rs_RAMMb (wm_Resources (w_manifest w))) /\
  (forall rid r, cp_reservations c' !! rid = Some r -> active r = true -> held c' r) /\
  (forall rid rid' r r', cp_reservations c' !! rid = Some r -> cp_reservations c' !! rid' = Some r' ->
     active r = true -> active r' = true -> r_workload_id r = r_workload_id r' -> rid = rid') /\
  (forall id w0, id <> r_workload_id r -> cp_workloads c' !! id = Some w0 -> pending_status (w_status w0) = true -> released id c').
Proof.
  intros [Hn Hj Hh Ho Hp _ _ _] Hrid Hw Hpend Hnode Ecpu Eram Hg.
  assert (forall rid' r', cp_reservations c !! rid' = Some r' -> active r' = true -> r_workload_id r' <> r_workload_id r) as Hfree.
  { intros rid' r' Hr' Ha He. rewrite (Hp _ w Hw Hpend rid' r' Hr' He) in Ha. done. }
  destruct c as [? ? ? ? gs ? ? ? ws res ? ? ? ?]; cbn in *. split_and!.
  - intros rid' r' [[<- <-]|[? Hr']]%lookup_insert_Some; [done|]. eauto.
  - intros rid' r' [[<- <-]|[? Hr']]%lookup_insert_Some; [|eauto]. eauto.
  - intros rid' r' [[<- <-]|[? Hr']]%lookup_insert_Some Hact g Hgr.
    + rewrite Hgr in Hg. destruct Hg as (row & Hrow & Hw0 & Hn0 & ->). cbn. rewrite lookup_insert_eq.
      eexists. split; [done|]. by destruct row.
    + destruct (Hh rid' r' Hr' Hact g Hgr) as (row & Hrow & Hw0 & Hn0). cbn in *. exists row. split; [|done].
      destruct (r_gpu_id r) as [g0|]; [|by subst]. destruct Hg as (row0 & Hrow0 & Hw1 & _ & ->).
      rewrite lookup_insert_ne; [done|]. intros ->. simplify_eq.
  - intros rid1 rid2 r1 r2 [[<- <-]|[? H1]]%lookup_insert_Some [[<- <-]|[? H2]]%lookup_insert_Some Ha1 Ha2 He; try done.
    + by destruct (Hfree rid2 r2 H2 Ha2).
    + by destruct (Hfree rid1 r1 H1 Ha1).
    + by eapply Ho.
  - unfold released in *. cbn in *. intros id w0 Hne Hw0 Hpend0 rid' r' [[<- <-]|[? Hr']]%lookup_insert_Some He; [done|].
    by eapply (Hp id w0).
Qed.

Lemma prim_Inv h c c' : prim h c c' -> Inv c -> Inv c'.
Proof.
  destruct 1 as [c' E|id n n' Hn Ec Er|id n Hn Hc Hr|g row row' Hg En Ew|g row Hg Ew|id w Hw Est Ert Hmax Hspec
    |id w w' Hw Hj Er Hp Hocc|id w w' Hw Hj Er Hst Hn Hh|id t Hh|id Hh|id w w' Hw Hj Hlt Er Hp Hst Hrel
    |rid r w w' n gpus res Hmay Hrid Hw Hp Hj Ert Hst Hnid Hn Hrst Ec Er Hc Hr Hg]; intros HI.
  - by eapply Inv_core.
  - apply Inv_nodes; [done|]. intros id' ?. destruct (decide (id = id')) as [->|]; [by rewrite lookup_insert_eq|by rewrite lookup_insert_ne].
  - apply Inv_nodes; [done|]. intros id' ?. destruct (decide (id = id')) as [->|]; [by rewrite lookup_insert_eq|by rewrite lookup_insert_ne].
  - apply Inv_gpus; [done|]. intros g' row0 Hg' _. destruct (decide (g = g')) as [->|].
    + rewrite lookup_insert_eq. simplify_eq. eauto.
    + rewrite lookup_insert_ne by done. eauto.
  - apply Inv_gpus; [done|]. intros g' row0 Hg' _. rewrite lookup_insert_ne by (intros ->; simplify_eq). eauto.
  - by apply Inv_submit.
  - apply (Inv_workload _ _ w); try done.
    + by rewrite Hp.
    + rewrite Er. pose proof (inv_retries _ HI id w Hw). lia.
    + rewrite Hp, Er. pose proof (inv_attempts _ HI id w Hw). destruct (pending_status (w_status w)); lia.
  - apply (Inv_workload _ _ w); try done.
    + by rewrite Hst.
    + rewrite Er. pose proof (inv_retries _ HI id w Hw). lia.
    + rewrite Hst, Er. cbn. pose proof (inv_attempts _ HI id w Hw). destruct (pending_status (w_status w)); lia.
  - by apply Inv_release.
  - by apply Inv_free.
  - apply (Inv_workload _ _ w); try done.
    + pose proof (inv_retries _ HI id w Hw). lia.
    + rewrite Hst, Er. cbn. pose proof (inv_attempts _ HI id w Hw) as Ha. rewrite Hp in Ha. lia.
  - pose proof (Inv_reserve c rid r w gpus HI Hrid Hw Hp (mk_is_Some _ _ Hn) Ec Er Hg) as (H1 & H2 & H3 & H4 & H5).
    pose proof (attempts_insert c rid r) as Hat. specialize (fun id => Hat id Hrid).
    destruct HI as [_ _ _ _ _ Ha Hret Hsp]. destruct Hj as (Em & Ex & Eo).
    pose proof (Ha _ w Hw) as Haw. rewrite Hp in Haw.
    destruct c as [? ? ? ? gs ? ? ? ws rs ? ? ? ?]; unfold attempts in *; cbn in *. constructor; cbn; try done.
    + intros rid' r' Hr'. destruct (H2 rid' r' Hr') as (w0 & Hw0 & ? & ?). destruct (decide (r_workload_id r' = r_workload_id r)) as [He|].
      * rewrite He in *. simplify_eq. exists w'. by rewrite lookup_insert_eq, Em.
      * exists w0. by rewrite lookup_insert_ne.
    + intros id w0 [[<- <-]|[Hne Hw0]]%lookup_insert_Some; [by rewrite Hst|]. by apply (H5 id w0).
    + intros id w0 [[<- <-]|[Hne Hw0]]%lookup_insert_Some; unfold attempts; cbn; rewrite Hat.
      * rewrite Hst, Ert, String.eqb_refl. cbn. lia.
      * rewrite (proj2 (String.eqb_neq _ _)) by done. rewrite Z.add_0_r. by apply Ha.
    + intros id w0 [[<- <-]|[Hne Hw0]]%lookup_insert_Some; [|by eapply Hret]. rewrite Ert, Ex. by eapply Hret.
    + intros id w0 [[<- <-]|[Hne Hw0]]%lookup_insert_Some; [|by eapply Hsp]. rewrite Em. by eapply Hsp.
Qed.

Lemma Inv_report c c' : report c c' -> Inv c -> Inv c'.
Proof.
  destruct 1 as [id n n' Hn _ _]. intros HI. apply Inv_nodes; [done|]. intros id' ?.
  destruct (decide (id = id')) as [->|]; [by rewrite lookup_insert_eq|by rewrite lookup_insert_ne].
Qed.

Lemma Inv_Open : Inv Open.
Proof. constructor; intros *; cbn; rewrite ?lookup_empty; done. Qed.

(** *** Capacity *)

Lemma used_same f id c c' : cp_reservations c' = cp_reservations c -> used f id c' = used f id c.
Proof. intros E. unfold used. by rewrite E. Qed.

Lemma used_absent f id c : Inv c -> cp_nodes c !! id = None -> used f id c = 0.
Proof.
  intros HI Hid. unfold used. pose proof (inv_node _ HI) as Hn. revert Hn. generalize (cp_reservations c). intros m.
  induction m as [|k r m Hk IH] using map_ind; intros Hn; [done|]. rewrite map_sum_insert by done. rewrite IH.
  2: { intros rid r' Hr. apply (Hn rid). rewrite lookup_insert_ne; [done|]. by intros ->; simplify_eq. }
  destruct (Hn k r (lookup_insert_eq _ _ _)) as [n Hn0].
  rewrite (proj2 (String.eqb_neq _ _)); [by rewrite andb_false_r|]. intros He. congruence.
Qed.

Lemma used_release f id t id' c :
  (forall rid r, cp_reservations c !! rid = Some r -> 0 <= f r) -> (forall r, f (release id t r) = f r) ->
  used f id' (release_reservations id t c) <= used f id' c.
Proof.
  intros Hf He. unfold used. etrans.
  - apply Z.eq_le_incl. destruct c as [? ? ? ? ? ? ? ? ? res ? ? ? ?].
    apply (map_sum_update_where _
             (fun r => if active (release id t r) && String.eqb (r_node_id (release id t r)) id' then f (release id t r) else 0)).
    intros k r _. unfold release. by destruct (_ && _).
  - apply map_sum_ext_le. intros k r Hr. destruct (reservation_release id t r) as (-> & _ & _ & _ & _ & ->). rewrite He.
    specialize (Hf k r Hr). destruct (active r), (String.eqb (r_node_id r) id'), (String.eqb (r_workload_id r) id); cbn; lia.
Qed.

Lemma reserved_nonneg c rid r : Inv c -> cp_reservations c !! rid = Some r -> 0 <= r_cpu_mcores r /\ 0 <= r_ram_mb r.
Proof.
  intros HI Hr. destruct (inv_job _ HI rid r Hr) as (w & Hw & -> & ->). destruct (inv_spec _ HI _ w Hw) as (? & ? & _). lia.
Qed.

Lemma used_insert f id c rid r :
  cp_reservations c !! rid = None ->
  map_sum (fun r => if active r && String.eqb (r_node_id r) id then f r else 0) (<[rid := r]> (cp_reservations c)) =
  used f id c + (if active r && String.eqb (r_node_id r) id then f r else 0).
Proof. intros Hr. rewrite map_sum_insert by done. unfold used. lia. Qed.

(** Nodes whose rows keep their capacity keep what is free. *)
Lemma within_same c c' :
  cp_reservations c' = cp_reservations c ->
  (forall id n', cp_nodes c' !! id = Some n' ->
     exists n, cp_nodes c !! id = Some n /\ n_cpu_cores n <= n_cpu_cores n' /\ n_ram_mb n <= n_ram_mb n') ->
  within_capacity c -> within_capacity c'.
Proof.
  intros Er Hn Hc id n' Hn'. destruct (Hn id n' Hn') as (n & Hid & H1 & H2). destruct (Hc id n Hid) as [Hcpu Hram].
  unfold free_cpu, free_ram in *. rewrite !(used_same _ _ _ _ Er). lia.
Qed.

Lemma prim_within h c c' : prim h c c' -> Inv c -> within_capacity c -> within_capacity c'.
Proof.
  destruct 1 as [c' E|id n n' Hn Ec Er|id n Hn Hc Hr|g row row' Hg En Ew|g row Hg Ew|id w Hw Est Ert Hmax Hspec
    |id w w' Hw Hj Er Hp Hocc|id w w' Hw Hj Er Hst Hn Hh|id t Hh|id Hh|id w w' Hw Hj Hlt Er Hp Hst Hrel
    |rid r w w' n gpus res Hmay Hrid Hw Hp Hj Ert Hst Hnid Hn Hrst Ec Er Hc Hr Hg]; intros HI HW.
  1, 4-8, 10-11: eapply within_same; [..|exact HW]; [try (by destruct c); by apply core_frame in E as (_ & _ & _ & ->)|];
    intros id' n' Hn'; exists n'; (split; [|lia]); try (by destruct c); by apply core_frame in E as (E & _); rewrite E in Hn'.
  - eapply within_same; [..|exact HW]; [by destruct c|]. destruct c; cbn in *.
    intros id' n0 [[<- <-]|[_ Hn0]]%lookup_insert_Some; [exists n|exists n0]; split_and!; try done; lia.
  - pose proof (used_absent r_cpu_mcores id c HI Hn) as U1. pose proof (used_absent r_ram_mb id c HI Hn) as U2.
    assert (cp_reservations (c {{ cp_nodes := <[id := n]> (cp_nodes c) }}) = cp_reservations c) as Er by (by destruct c).
    intros id' n' Hn'. unfold free_cpu, free_ram. rewrite !(used_same _ _ _ _ Er). destruct (decide (id' = id)) as [->|Hne].
    + assert (n' = n) as -> by (destruct c; cbn in *; rewrite lookup_insert_eq in Hn'; congruence). lia.
    + apply (HW id' n'). destruct c; cbn in *. by rewrite lookup_insert_ne in Hn' by done.
  - intros id' n Hn. destruct (release_frame id t c) as (En & _ & _). rewrite En in Hn. destruct (HW id' n Hn) as [H1 H2].
    unfold free_cpu, free_ram in *.
    assert (used r_cpu_mcores id' (release_reservations id t c) <= used r_cpu_mcores id' c).
    { apply used_release; [intros rid r Hr; by apply (reserved_nonneg c rid r HI)|]. intros r. by apply reservation_release. }
    assert (used r_ram_mb id' (release_reservations id t c) <= used r_ram_mb id' c).
    { apply used_release; [intros rid r Hr; by apply (reserved_nonneg c rid r HI)|]. intros r. by apply reservation_release. }
    lia.
  - intros id n' Hn'.
    pose proof (used_insert r_cpu_mcores id c rid r Hrid) as U1. pose proof (used_insert r_ram_mb id c rid r Hrid) as U2.
    unfold within_capacity, free_cpu, free_ram, used in *. destruct c; cbn in *. rewrite U1, U2.
    destruct (HW id n' Hn') as [H1 H2]. destruct (String.eqb_spec (r_node_id r) id) as [<-|]; [|rewrite andb_false_r; lia].
    assert (active r = true) as -> by (unfold active; by rewrite Hrst).
    rewrite Hn in Hn'. simplify_eq. subst res. rewrite Ec, Er. cbn. lia.
Qed.

(** *** Live workloads *)

Lemma live_keep c c' :
  cp_reservations c' = cp_reservations c ->
  (forall id w', cp_workloads c' !! id = Some w' -> occupies (w_status w') = true ->
     exists w, cp_workloads c !! id = Some w /\ occupies (w_status w) = true /\ w_node_id w' = w_node_id w) ->
  live_reserved c -> live_reserved c'.
Proof.
  intros Er Hw HL id w' Hid Hocc. destruct (Hw id w' Hid Hocc) as (w & Hw0 & Ho & ->).
  destruct (HL id w Hw0 Ho) as (rid & r & Hr & ?). exists rid, r. by rewrite Er.
Qed.

Lemma prim_live h c c' : md_honest h = true -> prim h c c' -> live_reserved c -> live_reserved c'.
Proof.
  intros Eh.
  destruct 1 as [c' E|id n n' Hn Ec Er|id n Hn Hc Hr|g row row' Hg En Ew|g row Hg Ew|id w Hw Est Ert Hmax Hspec
    |id w w' Hw Hj Er Hp Hocc|id w w' Hw Hj Er Hst Hn Hh|id t Hh|id Hh|id w w' Hw Hj Hlt Er Hp Hst Hrel
    |rid r w w' n gpus res Hmay Hrid Hw Hp Hj Ert Hst Hnid Hn Hrst Ec Er Hc Hr Hg]; intros HL.
  - apply core_frame in E as (_ & _ & Ew & Er). intros id w Hw Ho. rewrite Ew in Hw. destruct (HL id w Hw Ho) as (rid & r & ?).
    exists rid, r. by rewrite Er.
  - eapply live_keep; [..|exact HL]; destruct c; cbn; eauto.
  - eapply live_keep; [..|exact HL]; destruct c; cbn; eauto.
  - eapply live_keep; [..|exact HL]; destruct c; cbn; eauto.
  - eapply live_keep; [..|exact HL]; destruct c; cbn; eauto.
  - eapply live_keep; [..|exact HL]; destruct c; cbn in *; [done|].
    intros id' w0 [[<- <-]|[_ Hw0]]%lookup_insert_Some; [by rewrite Est|eauto].
  - eapply live_keep; [..|exact HL]; destruct c; cbn in *; [done|].
    intros id' w0 [[<- <-]|[_ Hw0]]%lookup_insert_Some Ho; [|eauto]. destruct (Hocc Ho). eauto.
  - eapply live_keep; [..|exact HL]; destruct c; cbn in *; [done|].
    intros id' w0 [[<- <-]|[_ Hw0]]%lookup_insert_Some Ho; [|eauto]. exists w. split_and!; [done|by apply Hh|done].
  - intros id' w Hw Ho. destruct (release_frame id t c) as (_ & Ew & _). rewrite Ew in Hw.
    destruct (HL id' w Hw Ho) as (rid & r & Hr & Ha & Hid & Hn). exists rid, (release id t r).
    rewrite release_lookup, Hr. destruct (reservation_release id t r) as (-> & -> & _ & _ & _ & ->). split_and!; try done.
    rewrite Ha, Hid. cbn. destruct (String.eqb_spec id' id) as [->|]; [|done]. by rewrite (Hh Eh w Hw) in Ho.
  - eapply live_keep; [..|exact HL]; destruct c; cbn; eauto.
  - eapply live_keep; [..|exact HL]; destruct c; cbn in *; [done|].
    intros id' w0 [[<- <-]|[_ Hw0]]%lookup_insert_Some Ho; [by rewrite Hst in Ho|eauto].
  - unfold live_reserved in *. destruct c as [? ? ? ? gs ? ? ? ws rs ? ? ? ?]; cbn in *.
    intros id w0 [[<- <-]|[Hne Hw0]]%lookup_insert_Some Ho.
    + exists rid, r. rewrite lookup_insert_eq, Hnid. unfold active. by rewrite Hrst.
    + destruct (HL id w0 Hw0 Ho) as (rid' & r' & Hr' & ?). exists rid', r'.
      rewrite lookup_insert_ne; [done|]. intros ->. simplify_eq.
Qed.
