(* ===== verification/ComputeRefine.v ===== *)
(** * The compute plane: requests and ticks refine primitive updates

    Every handler, the scheduler and the monitors are sequences of the
    primitive updates of [ComputeSpec].  [ComputeHistory] uses that for histories in which
    they run one after the other, [ComputeConc] for their statements interleaved. *)
From Stdlib Require Import String.
From stdpp Require Import relations.
From S2P Require Import Prelude GoStr GoFloat GoSort GoCrypto Compute ComputeAgentApi ComputeUserApi ComputeSpec.
Open Scope list_scope.
Open Scope Z_scope.

Lemma alter_lookup {A} (f : A -> A) (m : gmap string A) k a : m !! k = Some a -> alter f k m = <[k := f a]> m.
Proof.
  intros Hk. apply map_eq. intros j. destruct (decide (j = k)) as [->|].
  - by rewrite lookup_alter_eq, lookup_insert_eq, Hk.
  - by rewrite lookup_alter_ne, lookup_insert_ne.
Qed.

Lemma alter_missing {A} (f : A -> A) (m : gmap string A) k : m !! k = None -> alter f k m = m.
Proof.
  intros Hk. apply map_eq. intros j. destruct (decide (j = k)) as [->|]; [by rewrite lookup_alter_eq, Hk|by rewrite lookup_alter_ne].
Qed.

(** A sequence of updates, and a request: an inventory report may come first. *)
Definition steps (h : Mode) : CP -> CP -> Prop := rtc (prim h).

Definition request (h : Mode) (c c' : CP) : Prop := exists c1, (c1 = c \/ report c c1) /\ steps h c1 c'.

Lemma steps_request h c c' : steps h c c' -> request h c c'.
Proof. intros H. exists c. auto. Qed.

Lemma steps_core h c c' : core c' = core c -> steps h c c'.
Proof. intros H. apply rtc_once. by constructor. Qed.

Lemma steps_trans h c1 c2 c3 : steps h c1 c2 -> steps h c2 c3 -> steps h c1 c3.
Proof. intros H1 H2. unfold steps in *. by etrans. Qed.

(** Updates that keep the core, before and after. *)
Lemma steps_after h c c' c'' : steps h c c' -> core c'' = core c' -> steps h c c''.
Proof. intros H E. eapply steps_trans; [done|by apply steps_core]. Qed.
Lemma steps_before h c c' c'' : core c' = core c -> steps h c' c'' -> steps h c c''.
Proof. intros E H. eapply steps_trans; [by apply steps_core|done]. Qed.

Lemma steps_one h c c' : prim h c c' -> steps h c c'.
Proof. apply rtc_once. Qed.

Lemma steps_fold {A} h (f : CP -> A -> CP) (l : list A) c :
  (forall c a, a ∈ l -> steps h c (f c a)) -> steps h c (foldl f c l).
Proof.
  revert c. induction l as [|a l IH]; intros c Hf; [apply rtc_refl|]. cbn.
  eapply steps_trans; [apply Hf, list_elem_of_here|]. apply IH. intros c' a' Ha. apply Hf. by apply list_elem_of_further.
Qed.

Lemma steps_Inv h c c' : steps h c c' -> Inv c -> Inv c'.
Proof. induction 1; [done|]. eauto using prim_Inv. Qed.

Lemma steps_within h c c' : steps h c c' -> Inv c -> within_capacity c -> within_capacity c'.
Proof. induction 1; [done|]. eauto using prim_Inv, prim_within. Qed.

Lemma steps_live h c c' : md_honest h = true -> steps h c c' -> live_reserved c -> live_reserved c'.
Proof. intros Hh. induction 1; [done|]. eauto using prim_live. Qed.

Section Refine.
Context (uuid : nat -> string).
Context (scan : forall A, gmap string A -> list (string * A)) (Hscan : scan_ok scan).

Lemma select_elem {A} (P : string -> A -> bool) (m : gmap string A) k a :
  (k, a) ∈ select scan P m <-> m !! k = Some a /\ P k a = true.
Proof. unfold select. rewrite (Hscan A _), elem_of_map_to_list, map_lookup_filter_Some. done. Qed.

Lemma draw_core c : core (draw uuid c).2 = core c.
Proof. by destruct c. Qed.

Lemma insertEvent_core now actor ty id kind payload c : core (insertEvent uuid now actor ty id kind payload c) = core c.
Proof. unfold insertEvent. destruct c. cbn. by destruct (existsb _ _). Qed.

(** ** Scheduler and monitors *)

Lemma findNode_fits res c id :
  findNode scan res c = Some id -> exists n, cp_nodes c !! id = Some n /\ node_fits c res id n = true.
Proof.
  unfold findNode. destruct (slice_stable _ _) as [|[id' n] l] eqn:E; cbn; [done|]. intros [= ->].
  exists n. apply (select_elem (node_fits c res)). apply slice_stable_elem with (less := fun a b => free_ram c a.1 a.2 <? free_ram c b.1 b.2).
  rewrite E. apply list_elem_of_here.
Qed.

Lemma findFreeGPU_fits nodeID min c g vram :
  findFreeGPU scan nodeID min c = Some (g, vram) ->
  exists row, cp_gpus c !! g = Some row /\ gpu_fits nodeID min row = true /\ vram = g_vram_mb row.
Proof.
  unfold findFreeGPU. destruct (slice_stable _ _) as [|[g' row] l] eqn:E; cbn; [done|]. intros [= -> <-].
  exists row. assert ((g, row) ∈ select scan (fun _ => gpu_fits nodeID min) (cp_gpus c)) as [H1 H2]%select_elem; [|done].
  apply slice_stable_elem with (less := fun a b => g_vram_mb a.2 <? g_vram_mb b.2). rewrite E. apply list_elem_of_here.
Qed.

(** The manifest of a pending item is the stored one. *)
Definition reads (c : CP) (pw : pendingWork) : Prop :=
  forall w, cp_workloads c !! pw_id pw = Some w -> w_manifest w = pw_manifest pw.

Lemma gpu_fits_free nodeID min row :
  gpu_fits nodeID min row = true -> g_node_id row = nodeID /\ g_workload_id row = None.
Proof.
  unfold gpu_fits. rewrite !andb_true_iff. intros [[[H1 H2] _] _]. split; [by apply String.eqb_eq|by apply bool_decide_eq_true in H2].
Qed.

Lemma dispatch_steps h now pw nodeID gpu n c :
  md_dispatch h (pw_id pw) -> reads c pw -> cp_nodes c !! nodeID = Some n ->
  rs_CPUMillicores (wm_Resources (pw_manifest pw)) <= free_cpu c nodeID n ->
  rs_RAMMb (wm_Resources (pw_manifest pw)) <= free_ram c nodeID n ->
  (forall g vram, gpu = Some (g, vram) -> exists row, cp_gpus c !! g = Some row /\ g_workload_id row = None /\ g_node_id row = nodeID) ->
  steps h c (dispatch uuid now pw nodeID gpu c).1.
Proof.
  intros Hmay Hm Hn Hcpu Hram Hgpu. unfold dispatch. destruct (draw uuid c) as [rid c0] eqn:Ed.
  assert (core c0 = core c) as Ec by (rewrite <- (draw_core c), Ed; done).
  destruct (core_frame c c0 Ec) as (En & Eg & Ew & Er).
  case_bool_decide as Hr; [by apply steps_core|]. destruct (cp_workloads c0 !! pw_id pw) as [w|] eqn:Hw; [|by apply steps_core].
  destruct (pending_status (w_status w)) eqn:Hp; [|by apply steps_core]. cbn [fst].
  eapply steps_before; [exact Ec|]. eapply steps_after; [|apply insertEvent_core].
  assert (w_manifest w = pw_manifest pw) as Em by (apply Hm; by rewrite <- Ew).
  assert (forall id n, free_cpu c0 id n = free_cpu c id n /\ free_ram c0 id n = free_ram c id n) as Hfree.
  { intros. unfold free_cpu, free_ram. by rewrite !(used_same _ _ _ _ Er). }
  pose (r := mkReservation nodeID (pw_id pw) (rs_CPUMillicores (wm_Resources (pw_manifest pw)))
         (rs_RAMMb (wm_Resources (pw_manifest pw))) (fst <$> gpu) (default 0 (snd <$> gpu)) RReserved now None).
  apply steps_one. pose proof (P_dispatch h c0 rid r w) as P. cbn zeta in P. rewrite Em in P. destruct (Hfree nodeID n) as [F1 F2].
  destruct gpu as [[g vram]|]; cbn [fmap option_fmap option_map fst snd default] in *.
  - destruct (Hgpu g vram eq_refl) as (row & Hrow & Hwl & Hnid). rewrite <- Eg in Hrow.
    rewrite (alter_lookup _ _ g row) by (by destruct c0).
    eapply (P _ n); try done; try (by destruct w); try (by rewrite En); try (cbn; lia); [by apply eq_None_not_Some|].
    exists row. by split_and!.
  - destruct c0; cbn in *.
    eapply (P _ n); try done; try (by destruct w); try (by rewrite En); try (cbn; lia). by apply eq_None_not_Some.
Qed.

Lemma node_fits_free c res id n :
  node_fits c res id n = true -> rs_CPUMillicores res <= free_cpu c id n /\ rs_RAMMb res <= free_ram c id n.
Proof. unfold node_fits. rewrite !andb_true_iff. intros [[[_ H1] H2] _]. lia. Qed.

Lemma scheduleOne_steps h now pw c : md_dispatch h (pw_id pw) -> reads c pw -> steps h c (scheduleOne uuid scan now pw c).1.
Proof.
  intros Hmay Hm. unfold scheduleOne. destruct (1 <? _); [apply rtc_refl|].
  destruct (findNode _ _ _) as [nodeID|] eqn:E; [|apply rtc_refl]. apply findNode_fits in E as (n & Hn & [H1 H2]%node_fits_free).
  destruct (_ =? 1).
  - destruct (findFreeGPU _ _ _ _) as [[g vram]|] eqn:Eg; [|apply rtc_refl].
    apply findFreeGPU_fits in Eg as (row & Hrow & [Hnid Hwl]%gpu_fits_free & _).
    apply (dispatch_steps _ _ _ _ _ n); try done. intros ? ? [= -> ->]. eauto.
  - by apply (dispatch_steps _ _ _ _ _ n).
Qed.

(** Manifests never change: an item read earlier still has the stored one. *)
Lemma prim_reads h c c' pw : prim h c c' -> is_Some (cp_workloads c !! pw_id pw) -> reads c pw ->
  is_Some (cp_workloads c' !! pw_id pw) /\ reads c' pw.
Proof.
  assert (forall w w' id, cp_workloads c !! id = Some w -> same_job w w' -> is_Some (cp_workloads c !! pw_id pw) -> reads c pw ->
            is_Some (<[id := w']> (cp_workloads c) !! pw_id pw) /\
            (forall w0, <[id := w']> (cp_workloads c) !! pw_id pw = Some w0 -> w_manifest w0 = pw_manifest pw)) as Hup.
  { intros w w' id Hw (Em & _) His Hr. destruct (decide (id = pw_id pw)) as [->|].
    - rewrite lookup_insert_eq. split; [done|]. intros ? [= <-]. rewrite Em. by apply Hr.
    - rewrite lookup_insert_ne by done. auto. }
  unfold reads in *.
  destruct 1 as [c' E| | | | |id w Hw| | |id t|id| |]; intros His Hr; try (destruct c; cbn in *; by eauto).
  - apply core_frame in E as (_ & _ & -> & _). done.
  - destruct c; cbn in *. destruct (decide (id = pw_id pw)) as [->|]; [by destruct His; simplify_eq|].
    by rewrite lookup_insert_ne.
Qed.

Lemma steps_reads h c c' pw : steps h c c' -> is_Some (cp_workloads c !! pw_id pw) -> reads c pw ->
  is_Some (cp_workloads c' !! pw_id pw) /\ reads c' pw.
Proof. induction 1; [done|]. intros H1 H2. edestruct prim_reads; eauto. Qed.

Lemma pending_batch_reads c pw :
  pw ∈ pending_batch scan c -> is_Some (cp_workloads c !! pw_id pw) /\ reads c pw.
Proof.
  unfold pending_batch. intros ([id w] & -> & Hin)%list_elem_of_fmap. cbn in *.
  assert ((id, w) ∈ select scan (fun _ w => pending_status (w_status w)) (cp_workloads c)) as [Hw _]%select_elem.
  { apply (slice_stable_elem before). apply elem_of_take in Hin as (i & Hi & _). by eapply list_elem_of_lookup_2. }
  split; [done|]. intros w0. cbn. intros. simplify_eq. done.
Qed.

Lemma scheduleBatch_steps h now c : (forall id, md_dispatch h id) -> steps h c (scheduleBatch uuid scan now c).
Proof.
  intros Hmay. unfold scheduleBatch. pose proof (fun pw => pending_batch_reads c pw) as Hall. revert Hall.
  generalize (pending_batch scan c). intros l. revert c. induction l as [|pw l IH]; intros c Hall; [apply rtc_refl|].
  cbn. destruct (Hall pw) as [_ Hr]; [apply list_elem_of_here|].
  pose proof (scheduleOne_steps h now pw c (Hmay _) Hr) as Hs. eapply steps_trans; [exact Hs|]. apply IH.
  intros pw' Hin. destruct (Hall pw') as [H1 H2]; [by apply list_elem_of_further|]. by eapply steps_reads.
Qed.

Lemma tryRequeue_steps h now id reason c : released id c -> steps h c (tryRequeueIfEligible uuid now id reason c).1.
Proof.
  intros Hr. unfold tryRequeueIfEligible. destruct (cp_workloads c !! id) as [w|] eqn:Hw; [|apply rtc_refl].
  destruct (_ && _) eqn:E; [|apply rtc_refl]. apply andb_prop in E as [Hlt%Z.ltb_lt Hst%bool_decide_eq_true].
  cbn [fst]. eapply steps_after; [|apply insertEvent_core]. apply steps_one.
  apply (P_requeue h c id w); try done; destruct w; cbn in *; try done. destruct Hst as [-> | ->]; done.
Qed.

(** A workload that ends: its row, then its resources. *)
Lemma end_update h id w w' c :
  cp_workloads c !! id = Some w -> same_job w w' -> w_retry_count w' = w_retry_count w -> terminal (w_status w') = true ->
  let c' := c {{ cp_workloads := <[id := w']> (cp_workloads c) }} in steps h c c' /\ idle id c'.
Proof.
  intros Hw Hj Er Ht c'. split.
  - apply steps_one, (P_update h c id w); try done; destruct (w_status w'); done.
  - intros w0 Hw0. unfold c' in Hw0. destruct c; cbn in Hw0. rewrite lookup_insert_eq in Hw0. injection Hw0 as <-.
    by destruct (w_status w').
Qed.

Lemma released_freed id c : released id c -> released id (free_gpus id c).
Proof. intros H rid r. destruct (free_frame id c) as (_ & _ & ->). apply H. Qed.

Lemma resources_steps h id t c : (md_honest h = true -> idle id c) -> steps h c (releaseWorkloadResources id t c).
Proof.
  intros Hi. eapply steps_trans; apply steps_one; [by apply P_release|]. apply P_free, released_after.
Qed.

Lemma mark_timed_out_steps h now id c :
  steps h c (mark_timed_out now id c).1 /\ ((mark_timed_out now id c).2 = true -> idle id (mark_timed_out now id c).1).
Proof.
  unfold mark_timed_out. destruct (cp_workloads c !! id) as [w|] eqn:Hw; [|by split; [apply rtc_refl|]].
  destruct (executing _); [|by split; [apply rtc_refl|]]. cbn [fst snd].
  match goal with |- context [<[id := ?w']> _] => destruct (end_update h id w w' c) as [H1 H2]; [done|by destruct w..|] end. done.
Qed.

Lemma time_out_steps h now c id : steps h c (time_out uuid now c id).
Proof.
  unfold time_out. destruct (mark_timed_out_steps h now id c) as [H1 H2]. destruct (mark_timed_out now id c) as [c1 []]; [|done].
  eapply steps_after; [|apply insertEvent_core]. eapply steps_trans; [exact H1|]. apply resources_steps. intros _. by apply H2.
Qed.

Lemma check_timeouts_steps h now c : steps h c (check_timeouts uuid scan now c).
Proof. apply steps_fold. intros. apply time_out_steps. Qed.

Lemma mark_failed_steps h now wid c : steps h c (mark_failed now wid c) /\ idle wid (mark_failed now wid c).
Proof.
  unfold mark_failed. destruct (cp_workloads c !! wid) as [w|] eqn:Hw.
  - rewrite (alter_lookup _ _ wid w) by done. apply (end_update h wid w); [done|..]; destruct (terminal (w_status w)) eqn:Ht; by try destruct w.
  - rewrite alter_missing by done. assert (c {{ cp_workloads := cp_workloads c }} = c) as -> by (by destruct c).
    split; [apply rtc_refl|]. intros w Hw'. congruence.
Qed.

Lemma recover_steps h now nodeID c wid : steps h c (recover_workload uuid now nodeID c wid).
Proof.
  unfold recover_workload. destruct (mark_failed_steps h now wid c) as [H1 Hi].
  pose proof (resources_steps h wid now _ (fun _ => Hi)) as H2. cbv zeta.
  pose proof (tryRequeue_steps h now wid "node_lost" (releaseWorkloadResources wid now (mark_failed now wid c))) as H3.
  specialize (H3 ltac:(apply released_freed, released_after)).
  destruct (tryRequeueIfEligible uuid now wid "node_lost" _) as [c2 []]; cbn in H3.
  - do 2 (eapply steps_trans; [eassumption|]). done.
  - eapply steps_after; [|apply insertEvent_core]. do 2 (eapply steps_trans; [eassumption|]). done.
Qed.

Lemma mark_lost_steps h id c : steps h c (mark_lost id c).1.
Proof.
  unfold mark_lost. destruct (cp_nodes c !! id) as [n|] eqn:Hn; [|apply rtc_refl].
  destruct (gone _); [apply rtc_refl|]. apply steps_one. apply (P_node h c id n); by destruct n.
Qed.

Lemma lose_node_steps h now lossAfter c id : steps h c (lose_node uuid scan now lossAfter c id).
Proof.
  unfold lose_node. pose proof (mark_lost_steps h id c) as H. destruct (mark_lost id c) as [c1 []]; [|done]. unfold recoverNodeWorkloads.
  eapply steps_trans; [|apply steps_fold; intros; apply recover_steps]. eapply steps_after; [exact H|apply insertEvent_core].
Qed.

Lemma check_nodes_steps h now lossAfter c : steps h c (check_nodes uuid scan now lossAfter c).
Proof. apply steps_fold. intros. apply lose_node_steps. Qed.
End Refine.
