(* ===== verification/ComputeHistory.v ===== *)
(** * The compute plane: what holds along every history

    Histories mix requests of agents and accounts with ticks of the scheduler
    and of the monitors, one after the other; [ComputeConc] interleaves their
    statements. *)
From Stdlib Require Import String.
From stdpp Require Import relations.
From S2P Require Import Prelude GoStr GoFloat GoSort GoCrypto Compute ComputeAgentApi ComputeUserApi ComputeSpec ComputeRefine.
Open Scope list_scope.
Open Scope Z_scope.

(** An agent reports the start of workloads that occupy its node, and the end
    of workloads that occupy no other node. *)
Definition honest (nodeID : string) (c : CP) (ev : HealthEvent) : Prop :=
  match he_Kind ev with
  | EventStarted => forall w, cp_workloads c !! he_WorkloadID ev = Some w -> w_node_id w = Some nodeID ->
      occupies (w_status w) = true
  | EventCheckpoint | EventOther _ => True
  | _ => forall w, cp_workloads c !! he_WorkloadID ev = Some w -> occupies (w_status w) = true -> w_node_id w = Some nodeID
  end.

Ltac unchanged := apply steps_request, rtc_refl.

Section AgentSteps.
Context (uuid : nat -> string) (rand32 : nat -> option (list Z)).
Context (scan : forall A, gmap string A -> list (string * A)) (Hscan : scan_ok scan).
Context (bootstrapToken : string) (decoders : AgentDecoders).

Lemma insert_gpus_steps h nodeID l c : steps h c (insert_gpus uuid scan nodeID l c).1.
Proof.
  revert c. induction l as [|g l IH]; intros c; [apply rtc_refl|]. cbn [insert_gpus].
  pose proof (draw_core uuid c) as Ed. destruct (draw uuid c) as [id c0]. cbn in Ed.
  destruct (_ || _) eqn:E; [by apply steps_core|]. apply orb_false_iff in E as [E%bool_decide_eq_false _].
  eapply steps_before; [exact Ed|]. eapply steps_trans; [|apply IH]. apply steps_one. apply P_new_gpu; [|done].
  by apply eq_None_not_Some.
Qed.

Lemma rolled_back_core c c' : core (rolled_back c c') = core c.
Proof. by destruct c. Qed.

Lemma validate_capacity req : validateRegisterRequest req = None -> 0 < rr_CPUCores req /\ 0 < rr_RAMMb req.
Proof.
  unfold validateRegisterRequest.
  destruct (_ || (253 <? _)); [done|]. destruct (negb _ && _); [done|]. destruct (String.eqb _ ""); [done|].
  destruct (_ || (65535 <? _)) eqn:E1; [done|]. destruct (_ || (67108864 <? _)) eqn:E2; [done|].
  apply orb_false_iff in E1 as [E1%Z.ltb_ge _], E2 as [E2%Z.ltb_ge _]. intros _. lia.
Qed.

Lemma handleRegister_steps h now r c : steps h c (handleRegister uuid rand32 scan bootstrapToken decoders now r c).1.
Proof.
  unfold handleRegister. destruct (negb _); [apply rtc_refl|]. destruct (readBody r) as [body|e]; [|apply rtc_refl].
  destruct (ad_register _ _) as [req|e]; [|apply rtc_refl]. destruct (validateRegisterRequest req) eqn:Ev; [apply rtc_refl|].
  apply validate_capacity in Ev as [Hcpu Hram]. destruct (select _ _ _) as [|[? ?] ?]; [|apply rtc_refl].
  pose proof (draw_core uuid c) as Ed. destruct (draw uuid c) as [nodeID c0]. cbn in Ed.
  destruct (newSecretHex _ _) as [secret|]; [|by apply steps_core].
  case_bool_decide as Hnew; [by apply steps_core|]. apply eq_None_not_Some in Hnew.
  set (row := mkNode _ _ _ _ _ _ _ _ _ _ _ _ _). set (c1 := c0 {{ cp_nodes := _ }}).
  pose proof (insert_gpus_steps h nodeID (rr_GPUs req) c1) as Hg. destruct (insert_gpus _ _ _ _ _) as [c2 []]; cbn [fst] in *.
  - eapply steps_before; [exact Ed|]. eapply steps_after; [|apply insertEvent_core].
    apply (steps_after _ _ c2); [|by destruct c2]. eapply steps_trans; [|exact Hg]. apply steps_one. by apply P_new_node.
  - apply steps_core. by rewrite rolled_back_core.
Qed.

Lemma handleReregister_steps h now nodeID r c : steps h c (handleReregister uuid rand32 bootstrapToken now nodeID r c).1.
Proof.
  unfold handleReregister, checkNodeExists. destruct (negb _); [apply rtc_refl|].
  destruct (cp_nodes c !! nodeID) as [n|] eqn:Hn; [|apply rtc_refl]. destruct (newSecretHex _ _); [|apply rtc_refl].
  eapply steps_after; [|apply insertEvent_core]. rewrite (alter_lookup _ _ _ n) by done.
  apply steps_one. apply (P_node h c nodeID n); by destruct n.
Qed.

Lemma handleHeartbeat_steps h now nodeID r c : steps h c (handleHeartbeat decoders now nodeID r c).1.
Proof.
  unfold handleHeartbeat. destruct (readSignedBody _ _ _ _); [|apply rtc_refl]. destruct (ad_heartbeat _ _); [|apply rtc_refl].
  destruct (cp_nodes c !! nodeID) as [n|] eqn:Hn; [|apply rtc_refl]. destruct (check_status _); [|apply rtc_refl].
  apply steps_one. apply (P_node h c nodeID n); by destruct n.
Qed.

Lemma upsert_gpu_steps h nodeID c g : steps h c (upsert_gpu uuid scan nodeID c g).
Proof.
  unfold upsert_gpu. pose proof (draw_core uuid c) as Ed. destruct (draw uuid c) as [id c0]. cbn in Ed.
  eapply steps_before; [exact Ed|]. destruct (check_health _) as [hl|]; [|apply rtc_refl].
  destruct (_ && _); [|apply rtc_refl]. destruct (gpu_at scan nodeID (ig_DeviceIndex g) c0) as [old|] eqn:E.
  - unfold gpu_at in E. destruct (select _ _ _) as [|[k row] l] eqn:Es; [done|]. injection E as ->.
    assert ((old, row) ∈ select scan (fun _ g0 => String.eqb (g_node_id g0) nodeID && (g_device_index g0 =? ig_DeviceIndex g)) (cp_gpus c0))
      as [Hrow _]%(select_elem scan Hscan) by (rewrite Es; apply list_elem_of_here).
    rewrite (alter_lookup _ _ _ row) by done. apply steps_one. apply (P_gpu h c0 old row); by destruct row.
  - case_bool_decide as Hid; [apply rtc_refl|]. apply steps_one. apply P_new_gpu; [|done]. by apply eq_None_not_Some.
Qed.

Lemma update_inventory_report now nodeID req c c' : update_inventory now nodeID req c = Ok c' -> report c c'.
Proof.
  unfold update_inventory. destruct (cp_nodes c !! nodeID) as [n|] eqn:Hn; [|done]. destruct (_ && _) eqn:E; [|done].
  apply andb_prop in E as [E1%Z.ltb_lt E2%Z.ltb_lt]. intros [= <-]. apply (Report c nodeID n); [done|..]; by destruct n.
Qed.

Lemma handleInventory_request h now nodeID r c : request h c (handleInventory uuid scan decoders now nodeID r c).1.
Proof.
  unfold handleInventory. destruct (readSignedBody _ _ _ _); [|unchanged]. destruct (ad_inventory _ _) as [req|]; [|unchanged].
  destruct (update_inventory now nodeID req c) as [c1|e] eqn:E; [|unchanged]. exists c1. split.
  - right. by eapply update_inventory_report.
  - apply steps_fold. intros. apply upsert_gpu_steps.
Qed.

Lemma update_on_node_cases nodeID id f c :
  update_on_node nodeID id f c = c \/
  exists w, cp_workloads c !! id = Some w /\ w_node_id w = Some nodeID /\
    update_on_node nodeID id f c = c {{ cp_workloads := <[id := f w]> (cp_workloads c) }}.
Proof.
  unfold update_on_node. destruct (cp_workloads c !! id) as [w|] eqn:Hw.
  - rewrite (alter_lookup _ _ _ w) by done. case_bool_decide; [right; eauto|]. left.
    rewrite insert_id by done. by destruct c.
  - left. rewrite alter_missing by done. by destruct c.
Qed.

(** The end of a workload as an agent reports it: its row, then the rest. *)
Lemma end_reported h nodeID id st ts code msg c :
  terminal st = true ->
  (md_honest h = true -> forall w, cp_workloads c !! id = Some w -> occupies (w_status w) = true -> w_node_id w = Some nodeID) ->
  let c' := update_on_node nodeID id (finish st ts code msg) c in
  steps h c c' /\ (md_honest h = true -> idle id c').
Proof.
  intros Hst Hh c'. unfold c', update_on_node. destruct (cp_workloads c !! id) as [w|] eqn:Hw.
  - rewrite (alter_lookup _ _ _ w) by done. case_bool_decide as En.
    + destruct (end_update h id w (finish st ts code msg w) c) as [H1 H2]; [done|by destruct w..|]. done.
    + rewrite insert_id by done. assert (c {{ cp_workloads := cp_workloads c }} = c) as -> by (by destruct c).
      split; [apply rtc_refl|]. intros Eh w0 Hw0. apply not_true_iff_false. intros Ho. assert (w0 = w) as -> by congruence.
      by destruct (En (Hh Eh _ eq_refl Ho)).
  - rewrite alter_missing by done. assert (c {{ cp_workloads := cp_workloads c }} = c) as -> by (by destruct c).
    split; [apply rtc_refl|]. intros _ w Hw'. congruence.
Qed.

Lemma ended_steps h now nodeID id st ts code msg (retryable : bool) c :
  terminal st = true ->
  (md_honest h = true -> forall w, cp_workloads c !! id = Some w -> occupies (w_status w) = true -> w_node_id w = Some nodeID) ->
  let c1 := releaseWorkloadResources id ts (update_on_node nodeID id (finish st ts code msg) c) in
  steps h c (if retryable then (tryRequeueIfEligible uuid now id msg c1).1 else c1).
Proof.
  intros Hst Hh c1. destruct (end_reported h nodeID id st ts code msg c Hst Hh) as [H1 Hi].
  assert (steps h c c1) as H2 by (eapply steps_trans; [exact H1|by apply resources_steps]).
  destruct retryable; [|done]. eapply steps_trans; [exact H2|]. apply tryRequeue_steps, released_freed, released_after.
Qed.

Lemma start_reported h nodeID ev c :
  he_Kind ev = EventStarted -> (md_honest h = true -> honest nodeID c ev) ->
  steps h c (update_on_node nodeID (he_WorkloadID ev) (fun w => w {{ w_status := WRunning }} {{ w_started_at := Some (he_Ts ev) }}) c).
Proof.
  intros Ek Hh. unfold honest in Hh. rewrite Ek in Hh.
  destruct (update_on_node_cases nodeID (he_WorkloadID ev)
    (fun w => w {{ w_status := WRunning }} {{ w_started_at := Some (he_Ts ev) }}) c) as [-> |(w & Hw & Hn & ->)]; [apply rtc_refl|].
  apply steps_one. apply (P_start h c _ w); try done; try (by destruct w). intros E. by apply Hh.
Qed.

Lemma applyHealthEvent_steps h now nodeID c ev :
  (md_honest h = true -> honest nodeID c ev) -> steps h c (applyHealthEvent uuid now nodeID c ev).
Proof.
  intros Hh. unfold applyHealthEvent. destruct (he_Kind ev) eqn:Ek; try (eapply steps_after; [|apply insertEvent_core]); try apply rtc_refl;
    try (by apply start_reported); unfold honest in Hh; rewrite Ek in Hh;
    try (apply (ended_steps h now nodeID _ _ _ _ _ true); [done|exact Hh]);
    try (apply (ended_steps h now nodeID _ _ _ _ (he_Message ev) false); [done|exact Hh]).
Qed.

(** The events of one report, each judged where it is applied. *)
Fixpoint honest_all (now : Z) (nodeID : string) (c : CP) (evs : list HealthEvent) : Prop :=
  match evs with
  | [] => True
  | ev :: evs => honest nodeID c ev /\ honest_all now nodeID (applyHealthEvent uuid now nodeID c ev) evs
  end.

Lemma health_fold_steps h now nodeID evs c :
  (md_honest h = true -> honest_all now nodeID c evs) -> steps h c (foldl (applyHealthEvent uuid now nodeID) c evs).
Proof.
  revert c. induction evs as [|ev evs IH]; intros c Hh; [apply rtc_refl|]. cbn in *.
  eapply steps_trans; [apply applyHealthEvent_steps; intros E; by apply Hh|]. apply IH. intros E. by apply Hh.
Qed.

Lemma handleHealth_steps h now nodeID r c :
  (md_honest h = true -> forall body req, ad_health decoders body = Ok req -> readSignedBody now r nodeID c = Ok body ->
     honest_all now nodeID c (hr_Events req)) ->
  steps h c (handleHealth uuid decoders now nodeID r c).1.
Proof.
  intros Hh. unfold handleHealth. destruct (readSignedBody _ _ _ _) eqn:E1; [|apply rtc_refl].
  destruct (ad_health _ _) eqn:E2; [|apply rtc_refl]. apply health_fold_steps. intros E. by eapply Hh.
Qed.

Lemma metrics_core ts c m : core (insert_workload_metrics ts c m) = core c.
Proof. unfold insert_workload_metrics. repeat case_match; by destruct c. Qed.

Lemma handleMetrics_steps h now nodeID r c : steps h c (handleMetrics decoders now nodeID r c).1.
Proof.
  unfold handleMetrics. destruct (readSignedBody _ _ _ _); [|apply rtc_refl]. destruct (ad_metrics _ _) as [req|]; [|apply rtc_refl].
  cbn [fst]. set (c1 := foldl (insert_workload_metrics (mr_Ts req)) c _). apply (steps_after _ _ c1).
  - apply steps_fold. intros c0 m _. apply steps_core, metrics_core.
  - clearbody c1. unfold insert_node_metrics. repeat case_match; by destruct c1.
Qed.
End AgentSteps.

Section History.
Context (uuid : nat -> string) (rand32 : nat -> option (list Z)).
Context (scan : forall A, gmap string A -> list (string * A)) (Hscan : scan_ok scan).
Context (bootstrapToken jwtSecret : string) (decoders : AgentDecoders) (udecoders : UserDecoders).
Context (jwt_hmac : string -> bool) (jwt_verify : string -> Z -> string -> option ocelotClaims)
  (jwt_sign : string -> ocelotClaims -> option string).
Context (bcrypt_hash : nat -> string -> option string) (bcrypt_ok : string -> string -> bool).

Lemma protect_request h next allowed now r c :
  (forall claims, request h c (next claims r c).1) ->
  request h c (protect jwtSecret jwt_hmac jwt_verify next allowed now r c).1.
Proof.
  intros Hn. unfold protect. destruct (negb _); [unchanged|]. destruct (if jwt_hmac _ then _ else _); [|unchanged].
  destruct (_ && _); [unchanged|]. apply Hn.
Qed.

Lemma validate_spec req : validateSubmitRequest req = None ->
  spec_ok (wm_Resources (sw_Manifest req)) /\ 0 <= sw_MaxRetries req <= 10.
Proof.
  unfold validateSubmitRequest, spec_ok. destruct (blank _ || _); [done|]. destruct (negb _); [done|].
  destruct (_ <? 1) eqn:E1; [done|]. destruct (rs_RAMMb _ <? 1) eqn:E2; [done|].
  destruct ((_ <? 0) || (16 <? _)) eqn:E3; [done|]. destruct ((0 <? _) && _); [done|].
  destruct ((_ <? 0) || (10 <? _)) eqn:E4; [done|]. intros _.
  apply orb_false_iff in E3 as [?%Z.ltb_ge ?%Z.ltb_ge], E4 as [?%Z.ltb_ge ?%Z.ltb_ge]. lia.
Qed.

Lemma handleSubmit_steps h now claims r c : steps h c (handleSubmit uuid udecoders now claims r c).1.
Proof.
  unfold handleSubmit. destruct (readBody r) as [body|]; [|apply rtc_refl]. destruct (ud_submit _ _) as [req|]; [|apply rtc_refl].
  destruct (validateSubmitRequest req) eqn:Ev; [apply rtc_refl|]. apply validate_spec in Ev as [Hs Hm].
  pose proof (draw_core uuid c) as Ed. destruct (draw uuid c) as [id c0]. cbn [snd] in Ed.
  destruct (_ || _) eqn:E; [by apply steps_core|]. rewrite !orb_false_iff in E. destruct E as [[[[[E _] _] _] _] _].
  apply bool_decide_eq_false, eq_None_not_Some in E. cbn [fst]. eapply steps_before; [exact Ed|].
  eapply steps_after; [|apply insertEvent_core]. apply steps_one. apply P_submit; try done.
Qed.

Lemma own_workload_lookup claims id c w : own_workload claims id c = Some w -> cp_workloads c !! id = Some w.
Proof. unfold own_workload. destruct (cp_workloads c !! id); [|done]. by destruct (String.eqb _ _). Qed.

Lemma handleCancel_steps h now id claims r c : steps h c (handleCancel uuid now id claims r c).1.
Proof.
  unfold handleCancel. destruct (own_workload _ _ _) as [w|] eqn:Hw; [|apply rtc_refl]. apply own_workload_lookup in Hw.
  destruct (_ || _) eqn:E; [apply rtc_refl|]. cbn [fst]. eapply steps_after; [|apply insertEvent_core]. apply steps_one.
  apply (P_update h c id w); try done; destruct w as [? ? ? ? st ? ? ? ? ? ? ? ? ? ? ? ? ?]; cbn in *; try done; by destruct st.
Qed.

Lemma handleStop_steps h now id claims r c : steps h c (handleStop now id claims r c).1.
Proof.
  unfold handleStop. destruct (own_workload _ _ _) as [w|] eqn:Hw; [|apply rtc_refl]. apply own_workload_lookup in Hw.
  destruct (executing _) eqn:E; [|apply rtc_refl]. apply steps_one.
  apply (P_update h c id w); try done; destruct w as [? ? ? ? st ? ? ? ? ? ? ? ? ? ? ? ? ?]; cbn in *; try done; by destruct st.
Qed.

Lemma handleDrain_steps h now id claims r c : steps h c (handleDrain uuid now id claims r c).1.
Proof.
  unfold handleDrain. destruct (cp_nodes c !! id) as [n|] eqn:Hn; [|apply rtc_refl]. destruct (gone _); [apply rtc_refl|].
  cbn [fst]. eapply steps_after; [|apply insertEvent_core]. apply steps_one. apply (P_node h c id n); by destruct n.
Qed.

Lemma handleSetDead_steps h now id claims r c : steps h c (handleSetDead uuid now id claims r c).1.
Proof.
  unfold handleSetDead. destruct (cp_nodes c !! id) as [n|] eqn:Hn; [|apply rtc_refl]. case_bool_decide; [apply rtc_refl|].
  cbn [fst]. eapply steps_after; [|apply insertEvent_core]. apply steps_one. apply (P_node h c id n); by destruct n.
Qed.

Lemma handleCreateOrg_core now r c : core (handleCreateOrg uuid bootstrapToken udecoders now r c).1 = core c.
Proof.
  unfold handleCreateOrg. repeat case_match; try done;
    match goal with H : draw uuid c = (_, ?c1) |- _ => assert (core c1 = core c) as <- by (rewrite <- (draw_core uuid c), H; done) end;
    try done; match goal with c1 : CP |- core (?c1 {{ cp_orgs := _ }}) = _ => by destruct c1 end.
Qed.

Lemma handleCreateAccount_core now r c : core (handleCreateAccount uuid bootstrapToken udecoders bcrypt_hash now r c).1 = core c.
Proof.
  unfold handleCreateAccount. repeat case_match; try done;
    match goal with H : draw uuid c = (_, ?c1) |- _ => assert (core c1 = core c) as <- by (rewrite <- (draw_core uuid c), H; done) end;
    try done; match goal with c1 : CP |- core (?c1 {{ cp_accounts := _ }}) = _ => by destruct c1 end.
Qed.

Lemma handleLogin_same now r c : (handleLogin scan jwtSecret udecoders jwt_sign bcrypt_ok now r c).1 = c.
Proof. unfold handleLogin. by repeat case_match. Qed.

Lemma artifact_core now claims r c : core (handleRegisterArtifact udecoders now claims r c).1 = core c.
Proof. unfold handleRegisterArtifact. by repeat case_match. Qed.

Lemma delete_artifact_core now ih claims r c : core (handleDeleteArtifact now ih claims r c).1 = core c.
Proof. unfold handleDeleteArtifact. by repeat case_match. Qed.

Lemma list_workloads_same now claims r c : (handleListWorkloads scan now claims r c).1 = c.
Proof. unfold handleListWorkloads. by case_match. Qed.
Lemma list_events_same now claims r c : (handleListEvents scan now claims r c).1 = c.
Proof. unfold handleListEvents. by case_match. Qed.
Lemma get_workload_same now id claims r c : (handleGetWorkload now id claims r c).1 = c.
Proof. unfold handleGetWorkload. by case_match. Qed.
Lemma get_node_same now id claims r c : (handleGetNode scan now id claims r c).1 = c.
Proof. unfold handleGetNode. by case_match. Qed.
Lemma get_artifact_same now ih claims r c : (handleGetArtifact now ih claims r c).1 = c.
Proof. unfold handleGetArtifact. by case_match. Qed.
Lemma desired_same now id r c : (handleDesired scan now id r c).1 = c.
Proof. unfold handleDesired. by case_match. Qed.

Lemma serve_request h routes r c :
  Forall (fun rt => method_matches (rt_method rt) (q_method r) = true ->
    forall id, match_path (rt_pattern rt) (q_path r) = Some id -> request h c (rt_handler rt id r c).1) routes ->
  request h c (serve routes r c).1.
Proof.
  intros Hall. unfold serve. destruct (find _ _) as [rt|] eqn:E.
  - apply find_some in E as [Hin%list_elem_of_In E]. apply andb_prop in E as [E0 E]. unfold path_matches in E.
    destruct (match_path _ _) eqn:Em; [|done]. rewrite Forall_forall in Hall. by apply (Hall rt Hin).
  - destruct (existsb _ _); unchanged.
Qed.

(** Health reports are the only requests that honesty is about. *)
Definition honest_request (now : Z) (r : Request) (c : CP) : Prop :=
  forall nodeID body req,
    q_method r = "POST"%string -> match_path [Lit "v1"; Lit "nodes"; Wild; Lit "health"] (q_path r) = Some nodeID ->
    readSignedBody now r nodeID c = Ok body -> ad_health decoders body = Ok req ->
    honest_all uuid now nodeID c (hr_Events req).

Notation ServeHTTP := (ServeHTTP uuid rand32 scan bootstrapToken jwtSecret decoders udecoders jwt_hmac jwt_verify jwt_sign bcrypt_hash bcrypt_ok).

Lemma ServeHTTP_request h now r c : (md_honest h = true -> honest_request now r c) -> request h c (ServeHTTP now r c).1.
Proof.
  intros Hh. apply serve_request. unfold agent_routes, auth_routes, workload_routes, node_routes, artifact_routes, event_routes.
  cbn [app]. repeat (apply Forall_cons; split); try apply Forall_nil; try done; cbn [rt_handler rt_pattern rt_method agent fst]; intros Hmeth id Hm;
    try (apply protect_request; intros claims).
  - apply steps_request, handleRegister_steps.
  - apply steps_request, handleReregister_steps.
  - apply steps_request, handleHeartbeat_steps.
  - by apply handleInventory_request.
  - rewrite desired_same. unchanged.
  - apply steps_request, handleHealth_steps. intros E body req H1 H2. eapply Hh; try done.
    symmetry. apply String.eqb_eq. unfold method_matches in Hmeth. by rewrite orb_false_r in Hmeth.
  - apply steps_request, handleMetrics_steps.
  - rewrite handleLogin_same. unchanged.
  - apply steps_request, steps_core, handleCreateOrg_core.
  - apply steps_request, steps_core, handleCreateAccount_core.
  - apply steps_request, handleSubmit_steps.
  - rewrite list_workloads_same. unchanged.
  - rewrite get_workload_same. unchanged.
  - apply steps_request, handleCancel_steps.
  - apply steps_request, handleStop_steps.
  - unchanged.
  - rewrite get_node_same. unchanged.
  - apply steps_request, handleDrain_steps.
  - apply steps_request, handleSetDead_steps.
  - apply steps_request, steps_core, artifact_core.
  - unchanged.
  - rewrite get_artifact_same. unchanged.
  - apply steps_request, steps_core, delete_artifact_core.
  - rewrite list_events_same. unchanged.
  - unchanged.
Qed.
End History.

(** ** Histories *)

(** The control plane as it is started: its secrets, and the code outside the
    repository. *)
Record World := mkWorld {
  e_uuid : nat -> string;
  e_rand32 : nat -> option (list Z);
  e_scan : forall A, gmap string A -> list (string * A);
  e_bootstrapToken : string;
  e_jwtSecret : string;
  e_decoders : AgentDecoders;
  e_udecoders : UserDecoders;
  e_jwt_hmac : string -> bool;
  e_jwt_verify : string -> Z -> string -> option ocelotClaims;
  e_jwt_sign : string -> ocelotClaims -> option string;
  e_bcrypt_hash : nat -> string -> option string;
  e_bcrypt_ok : string -> string -> bool
}.

Definition answer (E : World) (now : Z) (r : Request) (c : CP) : CP * Response :=
  ServeHTTP (e_uuid E) (e_rand32 E) (e_scan E) (e_bootstrapToken E) (e_jwtSecret E) (e_decoders E) (e_udecoders E)
    (e_jwt_hmac E) (e_jwt_verify E) (e_jwt_sign E) (e_bcrypt_hash E) (e_bcrypt_ok E) now r c.

(** A request, a tick of the scheduler, of the deadline monitor, of the node
    monitor. *)
Inductive Step :=
| SRequest (now : Z) (r : Request)
| SSchedule (now : Z)
| STimeouts (now : Z)
| SNodes (now lossAfter : Z).

Definition run (E : World) (c : CP) (s : Step) : CP :=
  match s with
  | SRequest now r => (answer E now r c).1
  | SSchedule now => scheduleBatch (e_uuid E) (e_scan E) now c
  | STimeouts now => check_timeouts (e_uuid E) (e_scan E) now c
  | SNodes now lossAfter => check_nodes (e_uuid E) (e_scan E) now lossAfter c
  end.

Definition runs (E : World) : CP -> list Step -> CP := foldl (run E).

(** A condition on every step of a history. *)
Fixpoint along (E : World) (P : CP -> Step -> Prop) (c : CP) (l : list Step) : Prop :=
  match l with
  | [] => True
  | s :: l => P c s /\ along E P (run E c s) l
  end.

(** No node reports less than it had. *)
Definition no_shrink (E : World) (c : CP) (s : Step) : Prop :=
  forall id n n', cp_nodes c !! id = Some n -> cp_nodes (run E c s) !! id = Some n' ->
    n_cpu_cores n <= n_cpu_cores n' /\ n_ram_mb n <= n_ram_mb n'.

Definition honest_step (E : World) (c : CP) (s : Step) : Prop :=
  match s with SRequest now r => honest_request (e_uuid E) (e_decoders E) now r c | _ => True end.

Lemma run_request E h c s :
  scan_ok (e_scan E) -> (forall id, md_dispatch h id) -> (md_honest h = true -> honest_step E c s) -> request h c (run E c s).
Proof.
  intros Hs Hd Hh. destruct s; cbn.
  - by apply ServeHTTP_request.
  - by apply steps_request, scheduleBatch_steps.
  - by apply steps_request, check_timeouts_steps.
  - by apply steps_request, check_nodes_steps.
Qed.

Lemma run_Inv E c s : scan_ok (e_scan E) -> Inv c -> Inv (run E c s).
Proof.
  intros Hs HI. destruct (run_request E (serial false) c s Hs ltac:(done) ltac:(done)) as (c1 & H1 & H2).
  eapply steps_Inv; [exact H2|]. destruct H1 as [-> |H1]; [done|]. by eapply Inv_report.
Qed.

Lemma runs_Inv E c l : scan_ok (e_scan E) -> Inv c -> Inv (runs E c l).
Proof. intros Hs. revert c. induction l as [|s l IH]; intros c HI; [done|]. cbn. apply IH. by apply run_Inv. Qed.

(** Primitive updates keep the capacity of the nodes. *)
Lemma steps_nodes h c c' id n : steps h c c' -> cp_nodes c !! id = Some n ->
  exists n', cp_nodes c' !! id = Some n' /\ n_cpu_cores n' = n_cpu_cores n /\ n_ram_mb n' = n_ram_mb n.
Proof.
  intros H. revert n. induction H as [c|c c1 c2 Hp _ IH]; intros n Hn; [eauto|].
  assert (exists n', cp_nodes c1 !! id = Some n' /\ n_cpu_cores n' = n_cpu_cores n /\ n_ram_mb n' = n_ram_mb n) as (n1 & H1 & E1 & E2).
  { destruct Hp as [c' E|id' n0 n' Hn0|id' n0 Hn0| | | | | |id' t|id'| |]; try (destruct c; cbn in *; by eauto).
    - apply core_frame in E as (-> & _). eauto.
    - destruct c; cbn in *. destruct (decide (id' = id)) as [->|]; [|rewrite lookup_insert_ne by done; eauto].
      rewrite lookup_insert_eq. simplify_eq. eauto.
    - destruct c; cbn in *. destruct (decide (id' = id)) as [->|]; [|rewrite lookup_insert_ne by done; eauto]. congruence. }
  destruct (IH n1 H1) as (n2 & H2 & ? & ?). exists n2. split; [done|]. lia.
Qed.

Lemma run_within E c s : scan_ok (e_scan E) -> no_shrink E c s -> Inv c -> within_capacity c -> within_capacity (run E c s).
Proof.
  intros Hs Hg HI HW. destruct (run_request E (serial false) c s Hs ltac:(done) ltac:(done)) as (c1 & H1 & H2).
  assert (Inv c1) as HI1 by (destruct H1 as [-> |H1]; [done|by eapply Inv_report]).
  apply (steps_within _ _ _ H2 HI1). destruct H1 as [-> |H1]; [done|].
  destruct H1 as [id n n' Hn Hcpu Hram]. eapply within_same; [..|exact HW]; [by destruct c|].
  intros id' n0 Hn0. destruct (decide (id' = id)) as [->|Hne].
  - destruct (steps_nodes _ _ _ _ _ H2 Hn0) as (n1 & Hn1 & E1 & E2). destruct (Hg id n n1 Hn Hn1).
    exists n. split; [done|]. lia.
  - exists n0. split; [|lia]. destruct c; cbn in *. by rewrite lookup_insert_ne in Hn0.
Qed.

Lemma runs_within E c l :
  scan_ok (e_scan E) -> along E (no_shrink E) c l -> Inv c -> within_capacity c -> within_capacity (runs E c l).
Proof.
  intros Hs. revert c. induction l as [|s l IH]; intros c; [done|]. cbn. intros [H1 H2] HI HW.
  apply IH; [done|by apply run_Inv|by apply run_within].
Qed.

(** ** Theorems *)

(** [C24] No node is booked beyond what it has.  As long as no inventory report
    takes cores or memory away from a node, the active reservations of every
    node stay within its cores and its memory, whatever the order of requests
    and ticks. *)
Theorem capacity_respected (E : World) (l : list Step) :
  scan_ok (e_scan E) -> along E (no_shrink E) Open l ->
  let c := runs E Open l in
  forall id n, cp_nodes c !! id = Some n ->
    used r_cpu_mcores id c <= n_cpu_cores n * 1000 /\ used r_ram_mb id c <= n_ram_mb n.
Proof.
  intros Hs Ha c id n Hn. destruct (runs_within E Open l Hs Ha Inv_Open) with (id := id) (n := n) as [H1 H2]; [|done|].
  - intros ? ? Hx. cbn in Hx. by rewrite lookup_empty in Hx.
  - fold c in H1, H2. unfold free_cpu, free_ram in *. lia.
Qed.
