(* ===== verification/ComputeDemo.v ===== *)
(** * The compute plane: a worked history

    A small control plane with concrete secrets, decoders and identifiers, on
    which the theorems about histories apply and the behaviour of the code can
    be evaluated. *)
From Stdlib Require Import String.
From S2P Require Import Prelude GoStr GoFloat GoSort GoCrypto Compute ComputeAgentApi ComputeUserApi ComputeSpec ComputeRefine ComputeHistory.
Open Scope list_scope.
Open Scope string_scope.
Open Scope Z_scope.

(** ** Checking the conditions on histories *)

Definition no_shrinkb (E : World) (c : CP) (s : Step) : bool :=
  forallb (fun kv => match cp_nodes (run E c s) !! kv.1 with
                     | Some n' => (n_cpu_cores kv.2 <=? n_cpu_cores n') && (n_ram_mb kv.2 <=? n_ram_mb n')
                     | None => true
                     end) (map_to_list (cp_nodes c)).

Definition honestb (nodeID : string) (c : CP) (ev : HealthEvent) : bool :=
  match cp_workloads c !! he_WorkloadID ev with
  | None => true
  | Some w =>
      match he_Kind ev with
      | EventStarted => negb (bool_decide (w_node_id w = Some nodeID)) || occupies (w_status w)
      | EventCheckpoint | EventOther _ => true
      | _ => negb (occupies (w_status w)) || bool_decide (w_node_id w = Some nodeID)
      end
  end.

Fixpoint alongb (E : World) (p : CP -> Step -> bool) (c : CP) (l : list Step) : bool :=
  match l with [] => true | s :: l => p c s && alongb E p (run E c s) l end.

Lemma alongb_sound E p P c l : (forall c s, p c s = true -> P c s) -> alongb E p c l = true -> along E P c l.
Proof.
  intros Hp. revert c. induction l as [|s l IH]; intros c; [done|]. cbn. intros [H1 H2]%andb_prop. split; [by apply Hp|by apply IH].
Qed.

Lemma no_shrinkb_sound E c s : no_shrinkb E c s = true -> no_shrink E c s.
Proof.
  intros H id n n' Hn Hn'. unfold no_shrinkb in H. rewrite forallb_forall in H.
  specialize (H (id, n)). cbn in H. rewrite Hn' in H.
  assert (In (id, n) (map_to_list (cp_nodes c))) as Hin by (by apply list_elem_of_In, elem_of_map_to_list).
  apply H, andb_prop in Hin. lia.
Qed.

Lemma honestb_sound nodeID c ev : honestb nodeID c ev = true -> honest nodeID c ev.
Proof.
  unfold honestb, honest. intros H. destruct (he_Kind ev); try done; intros w Hw; rewrite Hw in H; apply orb_prop in H as [H|H].
  all: try (by rewrite bool_decide_eq_true in H). all: try done.
  all: intros Hx; apply negb_true_iff in H; try (by rewrite Hx in H). by rewrite bool_decide_eq_true_2 in H.
Qed.

(** ** A control plane *)

Module DemoPlane.
Definition spec (cpu ram gpus vram : Z) : ResourceSpec := mkSpec cpu ram gpus vram.
Definition manifest (res : ResourceSpec) : WorkloadManifest :=
  mkManifest "" "binary" "" "/bin/job" [] ∅ res [] 0 0.

Definition register : RegisterRequest :=
  mkRegister "host-a" "" "amd64" "1.0.0" 4 8192 100 [mkGPUSpec 0 "V100" 16384 "7.0"] None.
Definition register_b : RegisterRequest := mkRegister "host-b" "" "amd64" "1.0.0" 4 4096 100 [] None.

Definition submit (name : string) (priority retries : Z) (res : ResourceSpec) : SubmitWorkloadRequest :=
  mkSubmit name priority retries None "" (manifest res).

(** A report about the first workload submitted, which has the id u7. *)
Definition health (kind : EventKind) : result string HealthRequest :=
  Ok (mkHealthReq 0 [mkHealth "u7" kind 5000 0 (Some 1) ""] false).

Definition text_of {A} (table : list (string * A)) (body : string) : result string A :=
  match find (fun kv => String.eqb kv.1 body) table with Some kv => Ok kv.2 | None => Err "unexpected end of JSON input" end.

Definition beat (st : string) : HeartbeatRequest := mkHeartbeat 0 st (of_int 0) (of_int 0) 0 0.

Definition decoders : AgentDecoders := mkAgentDecoders
  (text_of [("register", register); ("register-b", register_b)])
  (text_of [("ready", beat "ready"); ("stopping", beat "stopping")])
  (text_of [("small", mkInventory 0 2 8192 100 [] (of_int 0) 0 0 (of_int 0) "1.0.0")])
  (fun b => if String.eqb b "started" then health EventStarted
            else if String.eqb b "failed" then health EventFailed
            else if String.eqb b "completed" then health EventCompleted
            else if String.eqb b "stopped+failed" then
              Ok (mkHealthReq 0 [mkHealth "u7" EventStopped 5000 0 (Some 0) "";
                                 mkHealth "u7" EventFailed 5001 77 (Some (-1)) "killed by signal: signal: terminated"] false)
            else Err "")
  (fun _ => Err "").

Definition udecoders : UserDecoders := mkUserDecoders
  (text_of [("job", submit "job" 0 1 (spec 2000 4096 1 8192)); ("big", submit "big" 0 0 (spec 4000 8192 0 0));
            ("multi", submit "multi" 100 0 (spec 1 1 2 1))])
  (fun _ => Err "") (fun _ => None) (fun b => if String.eqb b "org" then Some "acme" else None)
  (fun b => if String.eqb b "account" then Some (mkAccountReq "u0" "" "ann" "correct horse" "user") else None).

Definition claims : ocelotClaims := mkClaims "u1" "u0" "user" 0 0 "u1".
Definition operator : ocelotClaims := mkClaims "u1" "u0" "operator" 0 0 "u1".

Definition world : World := mkWorld
  (fun n => "u" ++ dec (Z.of_nat n)) (fun _ => Some (replicate 32 7)) (fun A => map_to_list) "boot" "jwt"
  decoders udecoders (fun _ => true)
  (fun _ _ t => if String.eqb t "ann" then Some claims else if String.eqb t "op" then Some operator else None)
  (fun _ _ => Some "ann") (fun _ p => Some ("hash of " ++ p)) (fun h p => String.eqb h ("hash of " ++ p)).

Definition request (method : string) (path : list string) (auth body : string) : Request :=
  mkReq method path auth "" "" "" (fun _ => "") (Ok body).

(** A request as a node signs it: all nodes have the same secret here. *)
Definition signed (now : Z) (nodeID what body : string) : Step :=
  let ts := dec now in
  SRequest now (mkReq "POST" ["v1"; "nodes"; nodeID; what] "" nodeID ts
                  (signature (replicate 32 7) nodeID ts body) (fun _ => "") (Ok body)).

Definition boot (path : list string) (body : string) : Step := SRequest 1000 (request "POST" path "Bearer boot" body).
Definition ann (now : Z) (method : string) (path : list string) (body : string) : Step :=
  SRequest now (request method path "Bearer ann" body).

(** An org (u0), an account (u1), two nodes (u2 and u5) that come up, and a
    workload (u7). *)
Definition start : list Step :=
  [boot ["v1"; "admin"; "orgs"] "org"; boot ["v1"; "admin"; "accounts"] "account";
   boot ["v1"; "nodes"; "register"] "register"; boot ["v1"; "nodes"; "register"] "register-b";
   signed 2000 "u2" "heartbeat" "ready"; ann 2500 "POST" ["v1"; "workloads"] "job"].

(** The job is scheduled on u2, started and fails; it is queued again. *)
Definition history : list Step :=
  start ++ [SSchedule 3000; signed 4000 "u2" "health" "started"; signed 5000 "u2" "health" "failed"; SSchedule 6000].

Lemma scan_valid : scan_ok (e_scan world).
Proof. by intros A m. Qed.
End DemoPlane.
