(* ===== verification/ComputeConc.v ===== *)
(** * The compute plane: statements of handlers and monitors, interleaved
      (compute/api/agent_handler.go, compute/api/monitor.go, compute/api/scheduler.go,
      compute/api/timeout_monitor.go)

    The one connection of the pool serialises statements and transactions, not handlers:
    a health report and a pass of a monitor are several statements, and those of other
    handlers and passes come between them.  A thread is the list of the statements that
    a request or a pass has left; [exec] runs the first of them and says which ones
    it leaves.  A request that is cancelled, or a process that is stopped, drops the rest
    of a thread.

    A statement here is one statement or transaction of the code with two exceptions: the reads
    that precede the only write of a request are taken with it, and the row that a requeued
    workload gets in the journal is written with its requeueing. *)
From Stdlib Require Import String.
From stdpp Require Import relations.
From S2P Require Import Prelude GoStr GoFloat GoSort GoCrypto Compute ComputeAgentApi ComputeUserApi ComputeSpec ComputeRefine ComputeHistory ComputeDemo.
Open Scope list_scope.
Open Scope Z_scope.

(** ** Statements and threads *)

Inductive Stmt :=
| XRequest (r : Request)
| XUpsert (nodeID : string) (g : InventoryGPU)
| XEvent (nodeID : string) (ev : HealthEvent)
| XRelease (id : string) (finishedAt : Z)
| XFree (id : string)
| XRequeue (id reason : string) (refused : list Stmt)
| XLog (actor subjectType subjectID kind : string) (payload : list (string * PayloadValue))
| XBatch
| XDispatch (pw : pendingWork)
| XTimeouts
| XTimeOut (now : Z) (id : string)
| XNodes (lossAfter : Z)
| XLose (lossAfter : Z) (id : string)
| XRecover (nodeID : string)
| XFail (now : Z) (nodeID wid : string).

(** What comes in: a request, or a tick of the scheduler or of a monitor. *)
Inductive Arrival := ARequest (r : Request) | ASchedule | ATimeouts | ANodes (lossAfter : Z).

Definition arrives (a : Arrival) : Stmt :=
  match a with ARequest r => XRequest r | ASchedule => XBatch | ATimeouts => XTimeouts | ANodes lossAfter => XNodes lossAfter end.

(** The step of a serial history. *)
Definition step_of (now : Z) (a : Arrival) : Step :=
  match a with
  | ARequest r => SRequest now r | ASchedule => SSchedule now | ATimeouts => STimeouts now
  | ANodes lossAfter => SNodes now lossAfter
  end.

(** A signed and well-formed report of an agent, and its node. *)
Definition agent_report {A} (what : string) (decode : string -> result string A) (now : Z) (r : Request) (c : CP) : option (string * A) :=
  if String.eqb (q_method r) "POST" then
    nodeID ← match_path [Lit "v1"; Lit "nodes"; Wild; Lit what] (q_path r);
    match readSignedBody now r nodeID c with
    | Ok body => match decode body with Ok a => Some (nodeID, a) | Err _ => None end
    | Err _ => None
    end
  else None.

Section Exec.
Context (E : World).

(** The UPDATE of a health event; the rest of [applyHealthEvent] follows. *)
Definition exec_event (now : Z) (nodeID : string) (ev : HealthEvent) (c : CP) : CP * list Stmt :=
  let exitCode := default 0 (he_ExitCode ev) in
  let id := he_WorkloadID ev in
  let log := XLog nodeID "workload" id ("workload." +:+ kind_text (he_Kind ev))
               [("exit_code", PInt exitCode); ("message", PStr (he_Message ev)); ("pid", PInt (he_PID ev))] in
  let ended st (retryable : bool) :=
    (update_on_node nodeID id (finish st (he_Ts ev) exitCode (he_Message ev)) c,
     XRelease id (he_Ts ev) :: XFree id :: (if retryable then [XRequeue id (he_Message ev) []] else []) ++ [log]) in
  match he_Kind ev with
  | EventStarted => (update_on_node nodeID id (fun w => w {{ w_status := WRunning }} {{ w_started_at := Some (he_Ts ev) }}) c, [log])
  | EventCompleted | EventStopped => ended WCompleted false
  | EventFailed | EventOOMKilled => ended WFailed true
  | EventTimedOut => ended WTimedOut true
  | EventCheckpoint => (insertEvent (e_uuid E) now nodeID "workload" id "workload.checkpoint" [("ts", PInt (he_Ts ev))] c, [])
  | EventOther _ => (c, [])
  end.

(** One statement at a time [now]: the tables after it, and what it leaves to do. *)
Definition exec (now : Z) (s : Stmt) (c : CP) : CP * list Stmt :=
  match s with
  | XRequest r =>
      match agent_report "health" (ad_health (e_decoders E)) now r c with
      | Some (nodeID, req) => (c, XEvent nodeID <$> hr_Events req)
      | None =>
          match agent_report "inventory" (ad_inventory (e_decoders E)) now r c with
          | Some (nodeID, req) =>
              match update_inventory now nodeID req c with Ok c => (c, XUpsert nodeID <$> iv_GPUs req) | Err _ => (c, []) end
          | None => ((answer E now r c).1, [])
          end
      end
  | XUpsert nodeID g => (upsert_gpu (e_uuid E) (e_scan E) nodeID c g, [])
  | XEvent nodeID ev => exec_event now nodeID ev c
  | XRelease id finishedAt => (release_reservations id finishedAt c, [])
  | XFree id => (free_gpus id c, [])
  | XRequeue id reason refused =>
      let '(c, requeued) := tryRequeueIfEligible (e_uuid E) now id reason c in (c, if requeued then [] else refused)
  | XLog actor subjectType subjectID kind payload => (insertEvent (e_uuid E) now actor subjectType subjectID kind payload c, [])
  | XBatch => (c, XDispatch <$> pending_batch (e_scan E) c)
  | XDispatch pw => ((scheduleOne (e_uuid E) (e_scan E) now pw c).1, [])
  | XTimeouts => (c, XTimeOut now <$> (select (e_scan E) (fun _ => expired now) (cp_workloads c)).*1)
  | XTimeOut t id =>
      let '(c, changed) := mark_timed_out t id c in
      (c, if changed then [XRelease id t; XFree id; XLog "system" "workload" id "workload.timed_out" [("reason", PStr "deadline_exceeded")]]
          else [])
  | XNodes lossAfter => (c, XLose lossAfter <$> (select (e_scan E) (fun _ => stale (now - lossAfter)) (cp_nodes c)).*1)
  | XLose lossAfter id =>
      let '(c, changed) := mark_lost id c in
      (c, if changed
          then [XLog "system" "node" id "node.lost"
                  [("reason", PStr "heartbeat_timeout"); ("threshold_sec", PInt (Z.quot lossAfter 1000))]; XRecover id]
          else [])
  | XRecover nodeID => (c, XFail now nodeID <$> on_node (e_scan E) nodeID c)
  | XFail t nodeID wid =>
      (mark_failed t wid c,
       [XRelease wid t; XFree wid;
        XRequeue wid "node_lost"
          [XLog "system" "workload" wid "workload.failed" [("reason", PStr "node_lost"); ("node_id", PStr nodeID)]]])
  end.

(** The control plane with its threads.  [MDrop] is a thread that ends early. *)
Record Conc := mkConc { cc_db : CP; cc_threads : list (list Stmt) }.

Inductive Move := MStart (a : Arrival) | MRun (i : nat) (now : Z) | MDrop (i : nat).

Definition conc_step (x : Conc) (m : Move) : Conc :=
  match m with
  | MStart a => x {{ cc_threads := cc_threads x ++ [[arrives a]] }}
  | MRun i now =>
      match cc_threads x !! i with
      | Some (s :: k) => let '(c, k') := exec now s (cc_db x) in mkConc c (<[i := k' ++ k]> (cc_threads x))
      | _ => x
      end
  | MDrop i => x {{ cc_threads := <[i := []]> (cc_threads x) }}
  end.
Definition conc_runs : Conc -> list Move -> Conc := foldl conc_step.

Fixpoint throughout (P : Conc -> Move -> Prop) (x : Conc) (l : list Move) : Prop :=
  match l with [] => True | m :: l => P x m /\ throughout P (conc_step x m) l end.

(** A thread is in the middle of ending a workload: it has set its status and has still to
    release, to free or to requeue it. *)
Definition ending (id : string) (k : list Stmt) : bool :=
  existsb (fun s => match s with XRelease i _ | XFree i | XRequeue i _ _ => String.eqb i id | _ => false end) k.

(** The scheduler does not dispatch a workload that a thread is in the middle of ending. *)
Definition undisturbed (x : Conc) (m : Move) : Prop :=
  match m with
  | MRun i _ =>
      match cc_threads x !! i with
      | Some (XDispatch pw :: _) => Forall (fun k => ending (pw_id pw) k = false) (cc_threads x)
      | _ => True
      end
  | _ => True
  end.

(** Agents are honest when what they report is applied. *)
Definition honest_move (x : Conc) (m : Move) : Prop :=
  match m with
  | MRun i _ => match cc_threads x !! i with Some (XEvent nodeID ev :: _) => honest nodeID (cc_db x) ev | _ => True end
  | _ => True
  end.
End Exec.

(** ** A thread that runs alone *)

Section Alone.
Context (E : World) (now : Z).

Definition alone (x y : CP * list Stmt) : Prop :=
  match x.2 with s :: k => y = ((exec E now s x.1).1, (exec E now s x.1).2 ++ k) | [] => False end.

Lemma alone_one s k c c' k' : exec E now s c = (c', k') -> alone (c, s :: k) (c', k' ++ k).
Proof. intros He. unfold alone. cbn [fst snd]. by rewrite He. Qed.

Lemma alone_frame x y k2 : rtc alone x y -> rtc alone (x.1, x.2 ++ k2) (y.1, y.2 ++ k2).
Proof.
  induction 1 as [|x y z H _ IH]; [done|]. eapply rtc_l; [|exact IH]. unfold alone in *. cbn [fst snd].
  destruct x as [c [|s k]]; cbn [fst snd app] in *; [done|]. subst y. cbn [fst snd]. by rewrite app_assoc.
Qed.

Lemma alone_seq c c1 c2 k k2 : rtc alone (c, k) (c1, []) -> rtc alone (c1, k2) (c2, []) -> rtc alone (c, k ++ k2) (c2, []).
Proof. intros H1 H2. etrans; [exact (alone_frame _ _ k2 H1)|exact H2]. Qed.

Lemma alone_then s c c1 k1 c2 : exec E now s c = (c1, k1) -> rtc alone (c1, k1) (c2, []) -> rtc alone (c, [s]) (c2, []).
Proof. intros He H. eapply rtc_l; [by apply alone_one|]. by rewrite app_nil_r. Qed.

Lemma alone_last s c c' : exec E now s c = (c', []) -> rtc alone (c, [s]) (c', []).
Proof. intros He. by apply (alone_then s c c' []). Qed.

Lemma alone_cons s k c c1 c2 : rtc alone (c, [s]) (c1, []) -> rtc alone (c1, k) (c2, []) -> rtc alone (c, s :: k) (c2, []).
Proof. apply (alone_seq c c1 c2 [s] k). Qed.

Lemma alone_fold {A} (f : CP -> A -> CP) (g : A -> Stmt) (l : list A) c :
  (forall c a, rtc alone (c, [g a]) (f c a, [])) -> rtc alone (c, g <$> l) (foldl f c l, []).
Proof. intros H. revert c. induction l as [|a l IH]; intros c; [done|]. by eapply alone_cons. Qed.

(** The two statements that give the resources of a workload back. *)
Lemma alone_release id t k c c2 :
  rtc alone (releaseWorkloadResources id t c, k) (c2, []) -> rtc alone (c, XRelease id t :: XFree id :: k) (c2, []).
Proof. intros H. do 2 (eapply alone_cons; [by apply alone_last|]). exact H. Qed.

Lemma alone_requeue id reason k c c2 :
  rtc alone ((tryRequeueIfEligible (e_uuid E) now id reason c).1, k) (c2, []) -> rtc alone (c, XRequeue id reason [] :: k) (c2, []).
Proof.
  intros H. eapply alone_cons; [|exact H]. apply alone_last. cbn.
  by destruct (tryRequeueIfEligible _ _ _ _ _) as [? []].
Qed.

Lemma alone_event nodeID c ev : rtc alone (c, [XEvent nodeID ev]) (applyHealthEvent (e_uuid E) now nodeID c ev, []).
Proof.
  eapply alone_then; [apply surjective_pairing|]. cbn [exec]. unfold exec_event, applyHealthEvent.
  destruct (he_Kind ev); cbn [fst snd app]; try done; try (by apply alone_last);
    apply alone_release; try apply alone_requeue; by apply alone_last.
Qed.

Lemma alone_time_out t c id : t = now -> rtc alone (c, [XTimeOut t id]) (time_out (e_uuid E) now c id, []).
Proof.
  intros ->. eapply alone_then; [apply surjective_pairing|]. cbn [exec]. unfold time_out.
  destruct (mark_timed_out now id c) as [c1 []]; cbn [fst snd]; [|done]. apply alone_release. by apply alone_last.
Qed.

Lemma alone_recover nodeID c wid : rtc alone (c, [XFail now nodeID wid]) (recover_workload (e_uuid E) now nodeID c wid, []).
Proof.
  eapply alone_then; [done|]. apply alone_release. unfold recover_workload.
  eapply alone_then; [apply surjective_pairing|]. cbn [exec].
  destruct (tryRequeueIfEligible _ _ _ _ _) as [c1 []]; cbn [fst snd]; [done|by apply alone_last].
Qed.

Lemma alone_lose lossAfter c id : rtc alone (c, [XLose lossAfter id]) (lose_node (e_uuid E) (e_scan E) now lossAfter c id, []).
Proof.
  eapply alone_then; [apply surjective_pairing|]. cbn [exec]. unfold lose_node.
  destruct (mark_lost id c) as [c1 []]; cbn [fst snd]; [|done]. eapply alone_cons; [by apply alone_last|].
  eapply alone_then; [done|]. unfold recoverNodeWorkloads. apply alone_fold. intros. apply alone_recover.
Qed.

(** The mux sends a report to the handler of its kind. *)
Lemma report_path what r nodeID :
  match_path [Lit "v1"; Lit "nodes"; Wild; Lit what] (q_path r) = Some nodeID -> q_path r = ["v1"; "nodes"; nodeID; what]%string.
Proof.
  destruct (q_path r) as [|a [|b [|d [|e [|f l]]]]]; cbn [match_path]; intros H;
    repeat match type of H with context [String.eqb ?a ?b] => destruct (String.eqb_spec a b) end; by simplify_eq.
Qed.

Lemma answer_health r c nodeID req :
  agent_report "health" (ad_health (e_decoders E)) now r c = Some (nodeID, req) ->
  (answer E now r c).1 = foldl (applyHealthEvent (e_uuid E) now nodeID) c (hr_Events req).
Proof.
  unfold agent_report. destruct (String.eqb_spec (q_method r) "POST") as [Em|]; [|done].
  destruct (match_path _ _) as [id|] eqn:Ep; cbn [mbind option_bind]; [|done]. apply report_path in Ep.
  destruct (readSignedBody now r id c) as [body|] eqn:Eb; [|done]. destruct (ad_health _ _) as [rq|] eqn:Ed; [|done].
  intros [= -> ->]. unfold answer, ServeHTTP, serve. cbn [find app agent_routes rt_method rt_pattern].
  unfold path_matches. rewrite Em, Ep. cbn -[String.eqb]. destruct (String.eqb "register" nodeID); cbn; unfold agent, handleHealth;
    by rewrite Eb, Ed.
Qed.

Lemma answer_inventory r c nodeID req :
  agent_report "inventory" (ad_inventory (e_decoders E)) now r c = Some (nodeID, req) ->
  (answer E now r c).1 =
    match update_inventory now nodeID req c with
    | Ok c => foldl (upsert_gpu (e_uuid E) (e_scan E) nodeID) c (iv_GPUs req)
    | Err _ => c
    end.
Proof.
  unfold agent_report. destruct (String.eqb_spec (q_method r) "POST") as [Em|]; [|done].
  destruct (match_path _ _) as [id|] eqn:Ep; cbn [mbind option_bind]; [|done]. apply report_path in Ep.
  destruct (readSignedBody now r id c) as [body|] eqn:Eb; [|done]. destruct (ad_inventory _ _) as [rq|] eqn:Ed; [|done].
  intros [= -> ->]. unfold answer, ServeHTTP, serve. cbn [find app agent_routes rt_method rt_pattern].
  unfold path_matches. rewrite Em, Ep. cbn -[String.eqb]. destruct (String.eqb "register" nodeID); cbn; unfold agent, handleInventory;
    rewrite Eb, Ed;
    by destruct (update_inventory _ _ _ _).
Qed.

(** A thread that nothing interrupts does what the serial step does. *)
Theorem alone_is_run a c : rtc alone (c, [arrives a]) (run E c (step_of now a), []).
Proof.
  destruct a as [r| | |lossAfter]; cbn [arrives step_of run].
  - eapply alone_then; [apply surjective_pairing|]. cbn [exec].
    destruct (agent_report "health" _ _ _ _) as [[nodeID req]|] eqn:Eh; cbn [fst snd].
    { rewrite (answer_health _ _ _ _ Eh). apply alone_fold. intros. apply alone_event. }
    destruct (agent_report "inventory" _ _ _ _) as [[nodeID req]|] eqn:Ei; cbn [fst snd]; [|done].
    rewrite (answer_inventory _ _ _ _ Ei). destruct (update_inventory _ _ _ _); cbn [fst snd]; [|done].
    apply alone_fold. intros. by apply alone_last.
  - eapply alone_then; [done|]. unfold scheduleBatch. apply alone_fold. intros. by apply alone_last.
  - eapply alone_then; [done|]. apply alone_fold. intros. by apply alone_time_out.
  - eapply alone_then; [done|]. apply alone_fold. intros. by apply alone_lose.
Qed.
End Alone.

(** ** What holds between the statements *)

(** What a workload that is not dispatched keeps. *)
Lemma prim_released h c c' id : prim h c c' -> ~ md_dispatch h id -> released id c -> released id c'.
Proof.
  unfold released. destruct 1 as [c' Ec| | | | | | | |id' t Hh|id' Hh| |rid r w w' n gpus res Hmay]; intros Hno Hrel;
    try (destruct c; cbn in *; exact Hrel).
  - apply core_frame in Ec as (_ & _ & _ & ->). exact Hrel.
  - intros rid r Hr Hid. rewrite release_lookup in Hr. apply fmap_Some in Hr as (r0 & Hr0 & ->).
    destruct (reservation_release id' t r0) as (_ & Ew & _ & _ & _ & ->). rewrite Ew in Hid. by rewrite (Hrel rid r0 Hr0 Hid).
  - intros rid' r' Hr' Hid. destruct c; cbn in *. apply lookup_insert_Some in Hr' as [[_ <-]|[_ Hr']]; [by subst|by eapply Hrel].
Qed.

Lemma prim_idle h c c' id :
  prim h c c' -> md_honest h = true -> ~ md_dispatch h id -> idle id c -> idle id c'.
Proof.
  unfold idle. destruct 1 as [c' Ec| | | | |id' w Hw Est|id' w w' Hw Hj Er Hp Hocc|id' w w' Hw Hj Er Hst Hn Hh| | |id' w w' Hw Hj Hlt Er Hp Hst
    |rid r w w' n gpus res Hmay]; intros Eh Hno Hi; try (destruct c; cbn in *; exact Hi).
  - apply core_frame in Ec as (_ & _ & -> & _). exact Hi.
  - intros w0 Hw0. destruct c; cbn in *. apply lookup_insert_Some in Hw0 as [[_ <-]|[_ Hw0]]; [by rewrite Est|by apply Hi].
  - intros w0 Hw0. destruct c; cbn in *. apply lookup_insert_Some in Hw0 as [[-> <-]|[_ Hw0]]; [|by apply Hi].
    apply not_true_iff_false. intros Ho. destruct (Hocc Ho) as [Ho' _]. by rewrite (Hi w Hw) in Ho'.
  - intros w0 Hw0. destruct c; cbn in *. apply lookup_insert_Some in Hw0 as [[-> <-]|[_ Hw0]]; [|by apply Hi].
    exfalso. specialize (Hh Eh). by rewrite (Hi w Hw) in Hh.
  - intros w0 Hw0. destruct c; cbn in *. apply lookup_insert_Some in Hw0 as [[_ <-]|[_ Hw0]]; [by rewrite Hst|by apply Hi].
  - intros w0 Hw0. destruct c; cbn in *. apply lookup_insert_Some in Hw0 as [[<- _]|[_ Hw0]]; [done|by apply Hi].
Qed.

(** A condition that updates keep, along a request. *)
Lemma request_keeps h (P : CP -> Prop) c c' :
  (forall c c', prim h c c' -> P c -> P c') -> (forall c c', report c c' -> P c -> P c') -> request h c c' -> P c -> P c'.
Proof.
  intros Hp Hr (c1 & H1 & H2) Hc. assert (P c1) as Hc1 by (destruct H1 as [-> |H1]; [done|by eapply Hr]).
  clear H1 Hc. induction H2; eauto.
Qed.

Lemma request_released h c c' id : request h c c' -> ~ md_dispatch h id -> released id c -> released id c'.
Proof.
  intros H Hno. revert H. apply request_keeps; [intros a b Hp; by apply prim_released with h|].
  destruct 1 as [? ? ? ? _ _]. by destruct c0.
Qed.

Lemma request_idle h c c' id : request h c c' -> md_honest h = true -> ~ md_dispatch h id -> idle id c -> idle id c'.
Proof.
  intros H Hh Hno. revert H. apply request_keeps; [intros a b Hp; by apply prim_idle with h|].
  destruct 1 as [? ? ? ? _ _]. by destruct c0.
Qed.

(** Statements that do not belong to the middle of an end; an item of a batch still has its
    manifest. *)
Definition fresh (c : CP) (s : Stmt) : Prop :=
  match s with
  | XRelease _ _ | XFree _ | XRequeue _ _ _ => False
  | XDispatch pw => is_Some (cp_workloads c !! pw_id pw) /\ reads c pw
  | _ => True
  end.

Lemma request_fresh h c c' s : request h c c' -> fresh c s -> fresh c' s.
Proof.
  intros H. destruct s; try done. revert H. apply (request_keeps h (fun c => fresh c (XDispatch pw))).
  - intros a b Hp [H1 H2]. by apply (prim_reads h a b).
  - intros a b [? ? ? _ _ _]. by destruct a.
Qed.

(** The requeueing that may come last, then new work. *)
Definition after (c : CP) (id : string) (k : list Stmt) : Prop :=
  Forall (fresh c) k \/ exists reason o k', k = XRequeue id reason o :: k' /\ Forall (fresh c) o /\ Forall (fresh c) k'.

(** Where a thread can be. *)
Inductive thread_ok (hon : bool) (c : CP) : list Stmt -> Prop :=
| TFresh k : Forall (fresh c) k -> thread_ok hon c k
| TRelease id t k : (hon = true -> idle id c) -> after c id k -> thread_ok hon c (XRelease id t :: XFree id :: k)
| TFree id k : released id c -> after c id k -> thread_ok hon c (XFree id :: k)
| TRequeue id reason o k : released id c -> Forall (fresh c) o -> Forall (fresh c) k -> thread_ok hon c (XRequeue id reason o :: k).

Lemma thread_kept hon D c c' k :
  request (mkMode hon D) c c' -> (forall id, ending id k = true -> ~ D id) -> thread_ok hon c k -> thread_ok hon c' k.
Proof.
  intros H Hno. assert (forall k, Forall (fresh c) k -> Forall (fresh c') k) as Hf.
  { intros k0 Hk. eapply Forall_impl; [exact Hk|]. intros s. by eapply request_fresh. }
  assert (forall id k, after c id k -> after c' id k) as Ha.
  { intros id k0 [Hk|(reason & o & k1 & -> & Ho & Hk)]; [left; auto|right]. exists reason, o, k1. auto. }
  destruct 1 as [k Hk|id t k Hi Hk|id k Hr Hk|id reason o k Hr Ho Hk]; cbn in Hno.
  - apply TFresh. auto.
  - apply TRelease; [|auto]. intros Eh. apply (request_idle _ _ _ id H Eh); [|auto]. apply Hno. by rewrite String.eqb_refl.
  - apply TFree; [|auto]. apply (request_released _ _ _ id H); [|done]. apply Hno. by rewrite String.eqb_refl.
  - apply TRequeue; [|auto..]. apply (request_released _ _ _ id H); [|done]. apply Hno. by rewrite String.eqb_refl.
Qed.

(** After the release comes what is left. *)
Lemma after_ok hon c id k : released id c -> after c id k -> thread_ok hon c k.
Proof. intros Hr [Hk|(reason & o & k' & -> & Ho & Hk)]; [by apply TFresh|by apply TRequeue]. Qed.

Section Steps.
Context (E : World) (Hscan : scan_ok (e_scan E)).

(** Only the transaction of the scheduler dispatches, and only its own item. *)
Definition mode_of (hon : bool) (s : Stmt) : Mode :=
  mkMode hon (fun id => match s with XDispatch pw => id = pw_id pw | _ => False end).

Definition honest_stmt (c : CP) (s : Stmt) : Prop := match s with XEvent nodeID ev => honest nodeID c ev | _ => True end.

(** New work, whose statements need nothing from the tables. *)
Lemma fresh_map {A} (f : A -> Stmt) c l : (forall a, fresh c (f a)) -> Forall (fresh c) (f <$> l).
Proof. intros H. apply Forall_fmap, Forall_true, H. Qed.

(** A statement of new work: what it does to the tables and what it leaves. *)
Lemma fresh_exec hon now s c c' k' :
  exec E now s c = (c', k') -> fresh c s -> (hon = true -> honest_stmt c s) ->
  request (mode_of hon s) c c' /\ forall k, Forall (fresh c') k -> thread_ok hon c' (k' ++ k).
Proof.
  intros He Hf Hh.
  assert (forall c1 l, (c1, l) = (c', k') -> request (mode_of hon s) c c1 -> Forall (fresh c') l ->
    request (mode_of hon s) c c' /\ forall k, Forall (fresh c') k -> thread_ok hon c' (k' ++ k)) as Hnew.
  { intros c1 l [= <- <-] H Hl. split; [done|]. intros k Hk. by apply TFresh, Forall_app. }
  assert (forall c1 l, (c1, l) = (c', k') -> steps (mode_of hon s) c c1 -> Forall (fresh c') l ->
    request (mode_of hon s) c c' /\ forall k, Forall (fresh c') k -> thread_ok hon c' (k' ++ k)) as Hstep.
  { intros c1 l Heq H Hl. by apply (Hnew c1 l); [|apply steps_request|]. }
  assert (forall c1 id t l tl, (c1, XRelease id t :: XFree id :: l ++ tl) = (c', k') -> steps (mode_of hon s) c c1 -> (hon = true -> idle id c1) ->
    Forall (fresh c') tl -> l = [] \/ (exists reason o, l = [XRequeue id reason o] /\ Forall (fresh c') o) ->
    request (mode_of hon s) c c' /\ forall k, Forall (fresh c') k -> thread_ok hon c' (k' ++ k)) as Hend.
  { intros c1 id t l tl [= <- <-] H Hi Htl Hl. split; [by apply steps_request|]. intros k Hk. cbn [app]. apply TRelease; [done|].
    rewrite <- app_assoc. destruct Hl as [-> |(reason & o & -> & Ho)]; [left; cbn [app]; by apply Forall_app|right].
    exists reason, o, (tl ++ k). split; [done|]. split; [done|by apply Forall_app]. }
  destruct s as [r|nodeID g|nodeID ev|id t|id|id reason o|actor ty id kind payload| |pw| |t id|lossAfter|lossAfter id|nodeID|t nodeID wid];
    cbn [exec] in He; try done.
  - destruct (agent_report "health" _ _ _ _) as [[nodeID req]|] eqn:Eh.
    { eapply Hstep; [exact He|apply rtc_refl|by apply fresh_map]. }
    destruct (agent_report "inventory" _ _ _ _) as [[nodeID req]|] eqn:Ei.
    + destruct (update_inventory now nodeID req c) as [c1|] eqn:Eu.
      * eapply Hnew; [exact He| |by apply fresh_map]. exists c1. split; [right; by eapply update_inventory_report|apply rtc_refl].
      * eapply Hstep; [exact He|apply rtc_refl|done].
    + eapply Hnew; [exact He| |done]. apply ServeHTTP_request; [done|]. intros _ nodeID body req Em Ep Eb Ed.
      unfold agent_report in Eh. rewrite Em, Ep in Eh. cbn in Eh. by rewrite Eb, Ed in Eh.
  - eapply Hstep; [exact He|by apply upsert_gpu_steps|done].
  - unfold exec_event in He. unfold honest_stmt, honest in Hh. destruct (he_Kind ev) eqn:Ek.
    + eapply Hstep; [exact He| |by repeat constructor]. apply start_reported; [done|]. unfold honest. by rewrite Ek.
    + eapply Hstep; [exact He|apply steps_core, insertEvent_core|done].
    + eapply (Hend _ _ _ [_]); [exact He|..]; try (by apply (end_reported (mode_of hon (XEvent nodeID ev)))); [by repeat constructor|right; by eexists _, []].
    + eapply (Hend _ _ _ []); [exact He|..]; try (by apply (end_reported (mode_of hon (XEvent nodeID ev)))); [by repeat constructor|by left].
    + eapply (Hend _ _ _ [_]); [exact He|..]; try (by apply (end_reported (mode_of hon (XEvent nodeID ev)))); [by repeat constructor|right; by eexists _, []].
    + eapply (Hend _ _ _ [_]); [exact He|..]; try (by apply (end_reported (mode_of hon (XEvent nodeID ev)))); [by repeat constructor|right; by eexists _, []].
    + eapply (Hend _ _ _ []); [exact He|..]; try (by apply (end_reported (mode_of hon (XEvent nodeID ev)))); [by repeat constructor|by left].
    + eapply Hstep; [exact He|apply rtc_refl|done].
  - eapply Hstep; [exact He|apply steps_core, insertEvent_core|done].
  - eapply Hstep; [exact He|apply rtc_refl|]. injection He as -> _. apply Forall_fmap, Forall_forall. intros pw Hpw.
    by eapply pending_batch_reads.
  - eapply Hstep; [exact He| |done]. apply scheduleOne_steps; [done|done|apply Hf].
  - eapply Hstep; [exact He|apply rtc_refl|by apply fresh_map].
  - destruct (mark_timed_out_steps (mode_of hon (XTimeOut t id)) t id c) as [H1 H2]. destruct (mark_timed_out t id c) as [c1 []].
    + eapply (Hend _ _ _ []); [exact He|done|intros _; by apply H2|by repeat constructor|by left].
    + eapply Hstep; [exact He|done|done].
  - eapply Hstep; [exact He|apply rtc_refl|by apply fresh_map].
  - pose proof (mark_lost_steps (mode_of hon (XLose lossAfter id)) id c) as H. destruct (mark_lost id c) as [c1 []];
      (eapply Hstep; [exact He|done|by repeat constructor]).
  - eapply Hstep; [exact He|apply rtc_refl|by apply fresh_map].
  - destruct (mark_failed_steps (mode_of hon (XFail t nodeID wid)) t wid c) as [H1 H2].
    eapply (Hend _ _ _ [_] []); [exact He|done|done|done|right]. eexists _, _. split; [done|by repeat constructor].
Qed.

Lemma exec_ok hon now s k c c' k' :
  exec E now s c = (c', k') -> thread_ok hon c (s :: k) -> (hon = true -> honest_stmt c s) ->
  request (mode_of hon s) c c' /\ thread_ok hon c' (k' ++ k).
Proof.
  intros He Hok Hh. inversion Hok as [? Hk E1|id t k0 Hi Hk E1|id k0 Hr Hk E1|id reason o k0 Hr Ho Hk E1]; subst.
  - apply Forall_cons in Hk as [Hs Hk]. destruct (fresh_exec hon now s c c' k' He Hs Hh) as [H1 H2]. split; [done|]. apply H2.
    eapply Forall_impl; [exact Hk|]. intros s0. by eapply request_fresh.
  - cbn in He. injection He as <- <-.
    assert (request (mode_of hon (XRelease id t)) c (release_reservations id t c)) as H by (by apply steps_request, steps_one, P_release).
    split; [done|]. apply TFree; [apply released_after|].
    destruct Hk as [Hk|(reason & o & k1 & -> & Ho & Hk)]; [left|right; exists reason, o, k1; split; [done|split]];
      (eapply Forall_impl; [eassumption|]; intros s0; by eapply request_fresh).
  - cbn in He. injection He as <- <-.
    assert (request (mode_of hon (XFree id)) c (free_gpus id c)) as H by (by apply steps_request, steps_one, P_free).
    split; [done|]. apply (after_ok _ _ id); [by apply released_freed|].
    destruct Hk as [Hk|(reason & o & k1 & -> & Ho & Hk)]; [left|right; exists reason, o, k1; split; [done|split]];
      (eapply Forall_impl; [eassumption|]; intros s0; by eapply request_fresh).
  - cbn in He. pose proof (tryRequeue_steps (e_uuid E) (mode_of hon (XRequeue id reason o)) now id reason c Hr) as H.
    destruct (tryRequeueIfEligible _ _ _ _ _) as [c1 ok]. injection He as <- <-. apply steps_request in H. cbn [fst] in H.
    split; [done|]. apply TFresh, Forall_app. split; [destruct ok; [done|]|]; (eapply Forall_impl; [eassumption|]; intros s0; by eapply request_fresh).
Qed.
End Steps.

(** ** Threads *)

Section Threads.
Context (E : World) (Hscan : scan_ok (e_scan E)).

Lemma request_Inv h c c' : request h c c' -> Inv c -> Inv c'.
Proof. apply request_keeps; [intros a b; apply prim_Inv|intros a b; apply Inv_report]. Qed.

Lemma request_live h c c' : md_honest h = true -> request h c c' -> live_reserved c -> live_reserved c'.
Proof.
  intros Hh. apply request_keeps; [intros a b; by apply prim_live|].
  intros a b [id n n' Hn _ _]. apply live_keep; destruct a; cbn; eauto.
Qed.

Definition conc_ok (hon : bool) (x : Conc) : Prop := Inv (cc_db x) /\ Forall (thread_ok hon (cc_db x)) (cc_threads x).

(** A move keeps the tables and the threads in order; with honest agents, what runs stays
    reserved. *)
Lemma conc_step_ok hon x m :
  undisturbed x m -> (hon = true -> honest_move x m) -> conc_ok hon x ->
  conc_ok hon (conc_step E x m) /\ (hon = true -> live_reserved (cc_db x) -> live_reserved (cc_db (conc_step E x m))).
Proof.
  destruct x as [c ks]. unfold conc_ok, undisturbed, honest_move, conc_step. cbn [cc_db cc_threads]. intros Hu Hh [HI Hks].
  destruct m as [a|i now|i].
  - cbn. split; [|done]. split; [done|]. apply Forall_app. split; [done|]. apply Forall_singleton, TFresh, Forall_singleton. by destruct a.
  - destruct (ks !! i) as [[|s k]|] eqn:Ei; [done| |done]. destruct (exec E now s c) as [c' k'] eqn:He. cbn.
    assert (thread_ok hon c (s :: k)) as Hok by (rewrite Forall_forall in Hks; eapply Hks, list_elem_of_lookup_2, Ei).
    destruct (exec_ok E Hscan hon now s k c c' k' He Hok) as [Hreq Hnew].
    { intros Eh. specialize (Hh Eh). by destruct s. }
    split; [|intros Eh; by apply (request_live (mode_of hon s))]. split; [by eapply request_Inv|].
    apply Forall_insert; [|done]. rewrite Forall_forall in Hks. apply Forall_forall. intros k0 Hk0.
    eapply thread_kept; [exact Hreq| |by apply Hks]. intros id Hend. destruct s; cbn; try (by intros []). intros ->.
    rewrite Forall_forall in Hu. by rewrite (Hu k0 Hk0) in Hend.
  - cbn. split; [|done]. split; [done|]. apply Forall_insert; [done|]. by apply TFresh.
Qed.

Lemma conc_runs_ok hon x l :
  throughout E undisturbed x l -> (hon = true -> throughout E honest_move x l) -> conc_ok hon x ->
  conc_ok hon (conc_runs E x l) /\ (hon = true -> live_reserved (cc_db x) -> live_reserved (cc_db (conc_runs E x l))).
Proof.
  revert x. induction l as [|m l IH]; intros x; [by split|]. cbn [throughout conc_runs foldl]. intros [Hu Hus] Hh Hx.
  destruct (conc_step_ok hon x m Hu (fun Eh => proj1 (Hh Eh)) Hx) as [Hx' HL].
  destruct (IH (conc_step E x m) Hus (fun Eh => proj2 (Hh Eh)) Hx') as [H1 H2]. split; [done|]. intros Eh HL0. apply H2; auto.
Qed.
End Threads.

(** A new database without any work. *)
Definition conc_Open : Conc := mkConc Open [].

Lemma conc_ok_Open hon : conc_ok hon conc_Open.
Proof. split; [apply Inv_Open|by constructor]. Qed.

(** ** Theorems *)

(** [C23] Bookings are exclusive and bounded.  The statements of any number of requests and
    of passes of the scheduler and of the monitors come in any order, threads may end
    early, and the database is empty at first; the one condition is that the scheduler never dispatches a
    workload while a thread is in the middle of ending that workload, between setting its status and
    the last of the statements that release, free and requeue it.  Then, between any two statements: two
    active reservations never share a workload, and never share a GPU; an
    active reservation that has a GPU holds it, on its own node; every
    reservation names a known node and asks for exactly what the manifest of
    its workload says; and a workload is dispatched at most once more than the
    retries it was submitted with, at most eleven times. *)
Theorem bookings_exclusive (E : World) (l : list Move) :
  scan_ok (e_scan E) -> throughout E undisturbed conc_Open l ->
  let c := cc_db (conc_runs E conc_Open l) in
  (forall rid rid' r r', cp_reservations c !! rid = Some r -> cp_reservations c !! rid' = Some r' ->
     active r = true -> active r' = true ->
     r_workload_id r = r_workload_id r' \/ (is_Some (r_gpu_id r) /\ r_gpu_id r = r_gpu_id r') -> rid = rid') /\
  (forall rid r, cp_reservations c !! rid = Some r ->
     is_Some (cp_nodes c !! r_node_id r) /\ (active r = true -> held c r) /\
     exists w, cp_workloads c !! r_workload_id r = Some w /\
       r_cpu_mcores r = rs_CPUMillicores (wm_Resources (w_manifest w)) /\
       r_ram_mb r = rs_RAMMb (wm_Resources (w_manifest w))) /\
  (forall id w, cp_workloads c !! id = Some w ->
     0 <= w_retry_count w <= w_max_retries w /\ attempts id c <= w_max_retries w + 1 <= 11).
Proof.
  intros Hs Hu c. destruct (conc_runs_ok E Hs false conc_Open l Hu) as [[HI _] _]; [done|apply conc_ok_Open|]. fold c in HI. split_and!.
  - intros rid rid' r r' Hr Hr' Ha Ha' [He|[[g Hg] He]]; [by eapply (inv_one _ HI)|].
    destruct (inv_held _ HI rid r Hr Ha g Hg) as (row & Hrow & Hw & _).
    destruct (inv_held _ HI rid' r' Hr' Ha' g) as (row' & Hrow' & Hw' & _); [congruence|].
    eapply (inv_one _ HI); try done. congruence.
  - intros rid r Hr. split_and!; [by eapply (inv_node _ HI)|by eapply (inv_held _ HI)|by eapply (inv_job _ HI)].
  - intros id w Hw. pose proof (inv_retries _ HI id w Hw) as [? ?]. pose proof (inv_attempts _ HI id w Hw).
    destruct (pending_status (w_status w)); lia.
Qed.

(** [C25] What runs is paid for.  The statements of requests and passes come in any order, as
    above, and no workload is dispatched while a thread is in the middle of ending it.  If agents report
    the start only of workloads that occupy their node and the end only of workloads that occupy no
    other, judged when the statement runs, then between any two statements every workload that is dispatched,
    running, checkpointing or stopping has an active reservation on the node it is assigned to. *)
Theorem live_workloads_reserved (E : World) (l : list Move) :
  scan_ok (e_scan E) -> throughout E undisturbed conc_Open l -> throughout E honest_move conc_Open l ->
  let c := cc_db (conc_runs E conc_Open l) in
  forall id w, cp_workloads c !! id = Some w -> occupies (w_status w) = true ->
    exists rid r, cp_reservations c !! rid = Some r /\ active r = true /\ r_workload_id r = id /\
      w_node_id w = Some (r_node_id r).
Proof.
  intros Hs Hu Hh c. destruct (conc_runs_ok E Hs true conc_Open l Hu (fun _ => Hh) (conc_ok_Open true)) as [_ HL]. apply (HL eq_refl).
  intros ? ? Hx. cbn in Hx. by rewrite lookup_empty in Hx.
Qed.

(** ** Interleaved histories of the worked control plane *)

Section Checks.
Context (E : World).

Definition undisturbedb (x : Conc) (m : Move) : bool :=
  match m with
  | MRun i _ =>
      match cc_threads x !! i with
      | Some (XDispatch pw :: _) => forallb (fun k => negb (ending (pw_id pw) k)) (cc_threads x)
      | _ => true
      end
  | _ => true
  end.
Definition honest_moveb (x : Conc) (m : Move) : bool :=
  match m with
  | MRun i _ => match cc_threads x !! i with Some (XEvent nodeID ev :: _) => honestb nodeID (cc_db x) ev | _ => true end
  | _ => true
  end.
Fixpoint throughoutb (p : Conc -> Move -> bool) (x : Conc) (l : list Move) : bool :=
  match l with [] => true | m :: l => p x m && throughoutb p (conc_step E x m) l end.

Lemma throughoutb_sound p P x l : (forall x m, p x m = true -> P x m) -> throughoutb p x l = true -> throughout E P x l.
Proof.
  intros Hp. revert x. induction l as [|m l IH]; intros x; [done|]. cbn. intros [H1 H2]%andb_prop. split; [by apply Hp|by apply IH].
Qed.

Lemma undisturbedb_sound x m : undisturbedb x m = true -> undisturbed x m.
Proof.
  unfold undisturbedb, undisturbed. destruct m as [|i now|]; try done. destruct (_ !! i) as [[|[] k]|]; try done.
  rewrite forallb_forall. intros H. apply Forall_forall. intros k0 Hk%list_elem_of_In. by apply negb_true_iff, H.
Qed.

Lemma honest_moveb_sound x m : honest_moveb x m = true -> honest_move x m.
Proof.
  unfold honest_moveb, honest_move. destruct m as [|i now|]; try done. destruct (_ !! i) as [[|[] k]|]; try done. apply honestb_sound.
Qed.
End Checks.

Module DemoThreads.
Import DemoPlane.
Open Scope string_scope.

Definition arrival (s : Step) : Arrival :=
  match s with SRequest _ r => ARequest r | SSchedule _ => ASchedule | STimeouts _ => ATimeouts | SNodes _ lossAfter => ANodes lossAfter end.
Definition clock (s : Step) : Z := match s with SRequest now _ | SSchedule now | STimeouts now | SNodes now _ => now end.

(** Threads one after the other: each gets eight moves, more than it needs. *)
Definition serial_moves (first : nat) (l : list Step) : list Move :=
  concat (imap (fun i s => MStart (arrival s) :: replicate 8 (MRun (first + i) (clock s))) l).

(** The job is scheduled on u2 and started. *)
Definition running : list Move := serial_moves 0 (start ++ [SSchedule 3000; signed 4000 "u2" "health" "started"]).

(** Its failure is reported twice, by threads 8 and 9, whose statements alternate; both are done
    when the scheduler dispatches the job again. *)
Definition interleaved : list Move :=
  running ++ [MStart (arrival (signed 5000 "u2" "health" "failed")); MStart (arrival (signed 5000 "u2" "health" "failed"));
              MRun 8 5000; MRun 9 5000; MRun 8 5000; MRun 9 5000; MRun 8 5000; MRun 8 5000; MRun 9 5000; MRun 8 5000;
              MRun 9 5000; MRun 9 5000; MStart ASchedule; MRun 10 6000; MRun 10 6000].

(** Here thread 9 frees the GPU only after thread 8 has requeued the job and the scheduler has dispatched
    it again; then a second job comes. *)
Definition disturbed : list Move :=
  running ++ [MStart (arrival (signed 5000 "u2" "health" "failed")); MStart (arrival (signed 5000 "u2" "health" "failed"));
              MRun 8 5000; MRun 9 5000; MRun 8 5000; MRun 9 5000; MRun 9 5000; MRun 8 5000; MRun 8 5000; MRun 8 5000;
              MStart ASchedule; MRun 10 6000; MRun 10 6000; MRun 9 6000] ++
  serial_moves 11 [ann 6500 "POST" ["v1"; "workloads"] "job"; SSchedule 7000].
End DemoThreads.
Import DemoPlane DemoThreads.

Lemma bookings_exclusive_witness :
  throughout world undisturbed conc_Open interleaved /\
  exists r r', let c := cc_db (conc_runs world conc_Open interleaved) in
    cp_reservations c !! "u9"%string = Some r /\ cp_reservations c !! "u13"%string = Some r' /\
    r_workload_id r = "u7"%string /\ r_workload_id r' = "u7"%string /\ active r = false /\ active r' = true /\ held c r'.
Proof.
  assert (throughout world undisturbed conc_Open interleaved) as Hu.
  { apply (throughoutb_sound world undisturbedb); [apply undisturbedb_sound|]. vm_compute. reflexivity. }
  split; [exact Hu|]. destruct (bookings_exclusive world interleaved scan_valid Hu) as (_ & Hr & _).
  assert (exists r r', cp_reservations (cc_db (conc_runs world conc_Open interleaved)) !! "u9"%string = Some r /\
    cp_reservations (cc_db (conc_runs world conc_Open interleaved)) !! "u13"%string = Some r' /\
    r_workload_id r = "u7"%string /\ r_workload_id r' = "u7"%string /\ active r = false /\ active r' = true)
    as (r & r' & H1 & H2 & H3 & H4 & H5 & H6).
  { eexists _, _. split; [vm_compute; reflexivity|]. split; [vm_compute; reflexivity|]. vm_compute. repeat split. }
  exists r, r'. destruct (Hr "u13"%string r' H2) as (_ & Hheld & _). repeat (split; [assumption|]). exact (Hheld H6).
Defined.

Lemma live_workloads_reserved_witness :
  exists w rid r, let c := cc_db (conc_runs world conc_Open interleaved) in
    cp_workloads c !! "u7"%string = Some w /\ occupies (w_status w) = true /\
    cp_reservations c !! rid = Some r /\ active r = true /\ w_node_id w = Some (r_node_id r).
Proof.
  assert (throughout world undisturbed conc_Open interleaved) as Hu.
  { apply (throughoutb_sound world undisturbedb); [apply undisturbedb_sound|]. vm_compute. reflexivity. }
  assert (throughout world honest_move conc_Open interleaved) as Hh.
  { apply (throughoutb_sound world honest_moveb); [apply honest_moveb_sound|]. vm_compute. reflexivity. }
  assert (exists w, cp_workloads (cc_db (conc_runs world conc_Open interleaved)) !! "u7"%string = Some w /\ occupies (w_status w) = true) as (w & Hw & Ho).
  { eexists. split; vm_compute; reflexivity. }
  destruct (live_workloads_reserved world interleaved scan_valid Hu Hh "u7"%string w Hw Ho) as (rid & r & H1 & H2 & _ & H3).
  exists w, rid, r. exact (conj Hw (conj Ho (conj H1 (conj H2 H3)))).
Defined.

(** A workload that is dispatched while a report of its end is still being applied loses its device to
    the next workload: two active reservations of different workloads share a GPU. *)
Example late_release_shares_gpu :
  let c := cc_db (conc_runs world conc_Open disturbed) in
  (fun r => (r_workload_id r, r_gpu_id r, active r)) <$> cp_reservations c !! "u13"%string = Some ("u7", Some "u3", true)%string /\
  (fun r => (r_workload_id r, r_gpu_id r, active r)) <$> cp_reservations c !! "u17"%string = Some ("u15", Some "u3", true)%string.
Proof. split; vm_compute; reflexivity. Qed.
