(* ===== verification/ComputeAgentSpec.v ===== *)
(** * The compute agent: theorems

    The buffer of health events, reconciliation, signatures that the control
    plane accepts, retries, and what agent and control plane do together when a
    running workload is cancelled. *)
From Stdlib Require Import String.
From S2P Require Import Prelude GoStr GoFloat GoSort GoCrypto Compute ComputeAgentApi ComputeUserApi ComputeAgent ComputeSpec ComputeRefine ComputeHistory ComputeDemo.
Open Scope list_scope.
Open Scope string_scope.
Open Scope Z_scope.

(** ** The buffer *)

Definition push_all (hb : healthBuffer) (evs : list HealthEvent) : healthBuffer := foldl (fun hb ev => push ev hb) hb evs.

Lemma push_all_snoc hb evs ev : push_all hb (evs ++ [ev])%list = push ev (push_all hb evs).
Proof. unfold push_all. by rewrite foldl_app. Qed.

Lemma push_all_window evs :
  push_all newHealthBuffer evs = mkBuffer (lastn 100 evs) (100 <? len evs).
Proof.
  induction evs as [|ev evs IH] using rev_ind; [done|]. rewrite push_all_snoc, IH. unfold push. cbn [hb_events hb_overflow].
  rewrite lastn_snoc by lia. unfold len, maxBufferedEvents. rewrite length_app. cbn [length].
  assert (length (lastn 100 evs) = length evs - (length evs - 100))%nat as El by (unfold lastn; by rewrite length_drop).
  rewrite El. destruct (Nat.eqb_spec (length evs - (length evs - 100)) 100) as [H|H].
  - rewrite (proj2 (Z.leb_le 100 _)) by lia. rewrite (proj2 (Z.ltb_lt 100 _)) by lia. cbn. by destruct (lastn 100 evs).
  - rewrite (proj2 (Z.leb_gt 100 _)) by lia. rewrite (proj2 (Z.ltb_ge 100 (Z.of_nat (length evs)))) by lia.
    rewrite (proj2 (Z.ltb_ge 100 (Z.of_nat (length evs + 1)))) by lia. done.
Qed.

(** The health buffer holds the last hundred events.  However many events
    are pushed, in order, after a drain: the next drain returns the last hundred
    of them in order, says that events were lost exactly when there were more
    than a hundred, and leaves an empty buffer with the flag cleared. *)
Theorem health_buffer_window (evs : list HealthEvent) :
  drain (push_all newHealthBuffer evs) = (lastn 100 evs, 100 <? len evs, newHealthBuffer).
Proof.
  rewrite push_all_window. unfold drain. cbn [hb_events hb_overflow].
  destruct (lastn 100 evs) as [|ev l] eqn:E; [|done].
  destruct evs as [|ev evs]; [done|]. apply (f_equal length) in E. unfold lastn in E. rewrite length_drop in E. cbn in E. lia.
Qed.

(** ** Retries *)

Definition retry_base (attempt : nat) : Z := nth (Nat.min attempt 4) retryDelays 0.

Lemma retry_delay_bounds attempt jitter :
  exists d, retry_delay attempt jitter = Some d /\ retry_base attempt * Second <= d < retry_base attempt * Second + 15.
Proof.
  unfold retry_delay. change (nth _ _ _) with (retry_base attempt).
  assert (2 <= retry_base attempt <= 30) as Hb by (unfold retry_base; destruct attempt as [|[|[|[|?]]]]; cbn; rewrite ?Nat.min_0_r; cbn; lia).
  set (b := retry_base attempt) in *. clearbody b.
  assert (0 < b / 2 <= 15) as Hd by (split; [apply Z.div_str_pos; lia|apply (Z.div_le_mono b 30 2); lia]).
  rewrite (proj2 (Z.leb_gt (b / 2) 0)) by lia. eexists. split; [reflexivity|].
  pose proof (Z.mod_pos_bound jitter (b / 2)). lia.
Qed.

(** The bases of the attempts from one on. *)
Fixpoint base_sum (fuel attempt : nat) : Z :=
  match fuel with O => 0 | S fuel => retry_base attempt + base_sum fuel (S attempt) end.

Lemma base_sum_nonneg fuel attempt : 0 <= base_sum fuel attempt.
Proof.
  revert attempt. induction fuel as [|fuel IH]; intros attempt; [done|]. cbn. specialize (IH (S attempt)).
  unfold retry_base. destruct attempt as [|[|[|[|?]]]]; cbn in *; rewrite ?Nat.min_0_r; cbn; lia.
Qed.

Lemma retry_from_bounds {A} (fn : nat -> result ClientError A) done jitter label fuel attempt slept :
  let '(res, made, time) := retry_from fn done jitter label fuel attempt slept in
  (forall e, res <> Err (EApi e)) /\ (attempt + Nat.min 1 fuel <= made <= attempt + fuel)%nat /\
  slept <= time <= slept + base_sum fuel attempt * Second + 15 * Z.of_nat fuel /\
  (forall v, res = Ok v -> exists i, (i < made)%nat /\ fn i = Ok v).
Proof.
  revert attempt slept. induction fuel as [|fuel IH]; intros attempt slept; cbn [retry_from].
  - split_and!; [done|lia|lia|cbn; lia|cbn; lia|done].
  - pose proof (base_sum_nonneg (S fuel) attempt) as Hp. unfold Second in *.
    destruct (fn attempt) as [v|e] eqn:Ef; [|destruct (done attempt)].
    + split_and!; [done|lia|lia|lia|lia|]. intros v' [= <-]. exists attempt. split; [lia|done].
    + split_and!; [done|lia|lia|lia|lia|done].
    + destruct (retry_delay_bounds attempt (jitter attempt)) as (d & -> & Hd). cbn [default].
      specialize (IH (S attempt) (slept + d)). destruct (retry_from _ _ _ _ _ _ _) as [[res made] time].
      destruct IH as (H1 & H2 & H3 & H4). pose proof (base_sum_nonneg fuel (S attempt)). cbn [base_sum] in *. unfold Second, id in *.
      assert (0 <= retry_base attempt).
      { unfold retry_base. destruct attempt as [|[|[|[|?]]]]; cbn; rewrite ?Nat.min_0_r; cbn; lia. }
      split_and!; [done|lia|lia|lia|lia|]. intros v Hv. destruct (H4 v Hv) as (i & Hi & ?). exists i. split; [lia|done].
Qed.

(** Retries end, and hide why.  Whatever the attempts answer, a request of
    the agent makes between one and ten of them and sleeps at most 210 seconds
    and 150 nanoseconds in all; a value it returns is one an attempt returned;
    and it never returns the structured error of the control plane, so that the
    agent, which registers again only on such an error, never does. *)
Theorem retries_bounded {A} (fn : nat -> result ClientError A) (done : nat -> bool) (jitter : nat -> Z) (label : string) :
  let '(res, made, time) := withRetry fn done jitter label in
  (1 <= made <= 10)%nat /\ 0 <= time <= 210 * Second + 150 /\
  match res with
  | Ok v => exists i, (i < made)%nat /\ fn i = Ok v
  | Err e => handleAPIError e = false
  end.
Proof.
  pose proof (retry_from_bounds fn done jitter label maxAttempts 0 0) as H. unfold withRetry.
  destruct (retry_from _ _ _ _ _ _ _) as [[res made] time] eqn:E. destruct H as (H1 & H2 & H3 & H4).
  assert (base_sum maxAttempts 0 = 210) as Hs by done. rewrite Hs in H3. unfold maxAttempts in *. cbn in H2, H3.
  split_and!; [lia|lia|lia|lia|]. destruct res as [v|[e| |]]; [by apply H4|by destruct (H1 e)|done|done].
Qed.

(** ** Reconciliation *)

Lemma if_decide_iff {A} (P Q : Prop) `{Decision P, Decision Q} (x y : A) :
  (P <-> Q) -> (if bool_decide P then x else y) = (if bool_decide Q then x else y).
Proof. intros HPQ. by rewrite (bool_decide_ext P Q). Qed.

Section Reconcile.
Context (scan : forall A, gmap string A -> list (string * A)) (Hscan : scan_ok scan).
Context (stat : string -> option string) (spawn : DesiredWorkload -> result string Z) (ends : string -> Proc -> option WaitResult).

Definition signal (p : Proc) : Proc := p {{ p_signalled := true }}.
Definition kill (p : Proc) : Proc := p {{ p_killed := true }}.

(** What a stop leaves of a process: nothing when it ends in the grace period. *)
Definition stopped (id : string) (p : Proc) : option Proc :=
  match ends id (signal p) with Some _ => None | None => Some (kill (signal p)) end.

(** The process that starting a workload makes. *)
Definition startable (volumes : list VolumeSpec) (wl : DesiredWorkload) : option Proc :=
  match mountVolumes stat (wm_Volumes (dw_Manifest wl)) volumes with
  | Some _ => None
  | None => if String.eqb (wm_Entrypoint (dw_Manifest wl)) "" then None
            else match spawn wl with Ok pid => Some (mkProc pid false false) | Err _ => None end
  end.

(** How often the desired state tells to stop a workload. *)
Definition stop_orders (ws : list DesiredWorkload) (id : string) : nat :=
  length (filter (fun wl => dw_ID wl = id /\ dw_Action wl = ActionStop) ws).

Fixpoint stop_again (n : nat) (id : string) (p : option Proc) : option Proc :=
  match n with O => p | S n => stop_again n id (p ≫= stopped id) end.

Lemma stop_again_none n id : stop_again n id None = None.
Proof. by induction n. Qed.

(** What reconciliation makes of one process. *)
Definition reconciled (d : DesiredStateResponse) (running : gmap string Proc) (id : string) : option Proc :=
  match running !! id, desired_run d !! id with
  | Some p, Some _ => stop_again (stop_orders (ds_Workloads d) id) id (Some p)
  | Some p, None => stop_again (stop_orders (ds_Workloads d) id) id (stopped id p)
  | None, Some wl => startable (ds_Volumes d) wl
  | None, None => None
  end.

Lemma desired_run_id d id wl : desired_run d !! id = Some wl -> dw_ID wl = id.
Proof.
  unfold desired_run. generalize (ds_Workloads d) as l. intros l.
  assert (forall m : gmap string DesiredWorkload, (forall i w, m !! i = Some w -> dw_ID w = i) ->
    foldl (fun m wl => if bool_decide (dw_Action wl = ActionRun) then <[dw_ID wl := wl]> m else m) m l !! id = Some wl -> dw_ID wl = id) as H.
  { induction l as [|x l IH]; intros m Hm; cbn [foldl]; [apply Hm|]. apply IH. intros i w. case_bool_decide; [|apply Hm].
    intros [[<- <-]|[_ ?]]%lookup_insert_Some; [done|by apply Hm]. }
  by apply H.
Qed.

Lemma push_run ev a : ag_running (pushEvent ev a) = ag_running a.
Proof. by destruct a. Qed.

Lemma watch_run now i res a id : ag_running (watch now i res a) !! id = if bool_decide (i = id) then None else ag_running a !! id.
Proof.
  unfold watch. destruct (ag_running a !! i) as [p|] eqn:Hp.
  - assert (forall m : gmap string Proc, delete i m !! id = if bool_decide (i = id) then None else m !! id) as Hd.
    { intros m. case_bool_decide as E; [subst; apply lookup_delete_eq|by apply lookup_delete_ne]. }
    destruct a, res; cbn; apply Hd.
  - case_bool_decide; [by subst|done].
Qed.

Lemma Stop_run now i a id :
  ag_running (Stop ends now i a) !! id = if bool_decide (i = id) then ag_running a !! id ≫= stopped id else ag_running a !! id.
Proof.
  unfold Stop. destruct (ag_running a !! i) as [p|] eqn:Hp.
  2: { case_bool_decide as E; [|done]. subst. by rewrite Hp. }
  cbv zeta. fold (signal p). case_bool_decide as E.
  - subst i. rewrite Hp. cbn [mbind option_bind]. unfold stopped. destruct (ends id (signal p)) as [res|].
    + by rewrite watch_run, bool_decide_eq_true_2.
    + destruct a; cbn. by rewrite lookup_insert_eq.
  - destruct (ends i (signal p)) as [res|].
    + rewrite watch_run, bool_decide_eq_false_2 by done. destruct a; cbn. by rewrite lookup_insert_ne.
    + destruct a; cbn. by rewrite !lookup_insert_ne.
Qed.

Lemma stop_removed_run now dr a i id :
  ag_running (stop_removed ends now dr a i) !! id =
  if bool_decide (i = id /\ dr !! id = None) then ag_running a !! id ≫= stopped id else ag_running a !! id.
Proof.
  unfold stop_removed. destruct (dr !! i) eqn:Ei.
  - rewrite bool_decide_eq_false_2; [done|]. intros [-> E]. congruence.
  - rewrite push_run. rewrite Stop_run. apply if_decide_iff. split; [intros ->; done|by intros [-> _]].
Qed.

Lemma stops_lookup now dr ids a id :
  NoDup ids ->
  ag_running (foldl (stop_removed ends now dr) a ids) !! id =
  if bool_decide (id ∈ ids /\ dr !! id = None) then ag_running a !! id ≫= stopped id else ag_running a !! id.
Proof.
  revert a. induction ids as [|i ids IH]; intros a Hnd; cbn [foldl].
  { rewrite bool_decide_eq_false_2; [done|]. by intros [?%not_elem_of_nil _]. }
  apply NoDup_cons in Hnd as [Hi Hnd]. rewrite IH by done. rewrite stop_removed_run. destruct (decide (i = id)) as [->|Hne].
  - rewrite (bool_decide_eq_false_2 (id ∈ ids /\ _)) by (by intros [? _]).
    apply if_decide_iff. rewrite elem_of_cons. tauto.
  - rewrite (bool_decide_eq_false_2 (i = id /\ _)) by (by intros [? _]). apply if_decide_iff.
    rewrite elem_of_cons. intuition congruence.
Qed.

Lemma explicit_lookup now running ws a id :
  (running !! id = None -> ag_running a !! id = None) ->
  ag_running (foldl (explicit_stop ends now running) a ws) !! id = stop_again (stop_orders ws id) id (ag_running a !! id).
Proof.
  revert a. induction ws as [|wl ws IH]; intros a Hrun; [done|]. cbn [foldl]. unfold stop_orders. rewrite filter_cons.
  assert (forall (P : Prop) (HP : Decision P), (P <-> dw_ID wl = id /\ dw_Action wl = ActionStop) ->
    ag_running (explicit_stop ends now running a wl) !! id = (if decide P then ag_running a !! id ≫= stopped id else ag_running a !! id)) as Hone.
  { intros P HP HPi. unfold explicit_stop. destruct (decide P) as [Hy|Hn].
    - apply HPi in Hy as [<- ->]. destruct (running !! dw_ID wl) eqn:E; [|by rewrite (Hrun eq_refl)].
      by rewrite Stop_run, bool_decide_eq_true_2.
    - destruct (dw_Action wl) eqn:Ea; [done| |done]. destruct (running !! dw_ID wl); [|done].
      rewrite Stop_run, bool_decide_eq_false_2; [done|]. intros E. by apply Hn, HPi. }
  rewrite IH.
  - rewrite (Hone (dw_ID wl = id /\ dw_Action wl = ActionStop) _ (reflexivity _)).
    by destruct (decide _).
  - intros E. rewrite (Hone (dw_ID wl = id /\ dw_Action wl = ActionStop) _ (reflexivity _)), (Hrun E). by destruct (decide _).
Qed.

Lemma start_missing_run now running volumes a id wl :
  dw_ID wl = id -> (running !! id = None -> ag_running a !! id = None) ->
  ag_running (start_missing stat spawn now running volumes a (id, wl)) =
  match running !! id, startable volumes wl with None, Some p => <[id := p]> (ag_running a) | _, _ => ag_running a end.
Proof.
  intros Hid Hrun. unfold start_missing, startable. destruct (running !! id) as [p|] eqn:E; [done|].
  destruct (mountVolumes _ _ _); [done|]. unfold Start, IsRunning. rewrite Hid, (Hrun eq_refl), bool_decide_eq_false_2 by (by intros [? ?]).
  destruct (String.eqb _ ""); [done|]. destruct (spawn wl); done.
Qed.

Lemma starts_lookup now running volumes (l : list (string * DesiredWorkload)) a id :
  NoDup l.*1 -> Forall (fun kv => dw_ID kv.2 = kv.1) l ->
  (forall i, i ∈ l.*1 -> running !! i = None -> ag_running a !! i = None) ->
  ag_running (foldl (start_missing stat spawn now running volumes) a l) !! id =
  match running !! id, (list_to_map l : gmap string DesiredWorkload) !! id with
  | None, Some wl => startable volumes wl
  | _, _ => ag_running a !! id
  end.
Proof.
  revert a. induction l as [|[i wl] l IH]; intros a Hnd Hids Hrun; cbn [foldl list_to_map foldr]; [by destruct (running !! id)|].
  apply NoDup_cons in Hnd as [Hni Hnd]. apply Forall_cons in Hids as [Hi Hids]. cbn in Hi.
  assert (running !! i = None -> ag_running a !! i = None) as Hrun1 by (apply Hrun; left).
  rewrite IH; [|done|done|].
  - rewrite start_missing_run by done. cbn [uncurry]. destruct (decide (i = id)) as [->|Hne].
    + rewrite lookup_insert_eq, (not_elem_of_list_to_map_1 l id) by done.
      destruct (running !! id) as [p|] eqn:E; [done|].
      cbn [snd]. destruct (startable volumes wl); [by rewrite lookup_insert_eq|by rewrite Hrun1].
    + rewrite lookup_insert_ne by done. destruct (running !! id), ((list_to_map l : gmap string DesiredWorkload) !! id), (running !! i), (startable volumes wl);
        rewrite ?lookup_insert_ne by done; done.
  - intros j Hj Hr. rewrite start_missing_run by done. destruct (decide (i = j)) as [->|Hne]; [done|].
    destruct (running !! i), (startable volumes wl); rewrite ?lookup_insert_ne by done; apply Hrun; (right; done) || done.
Qed.

Lemma scan_map {A} (m : gmap string A) : NoDup (scan A m).*1 /\ (list_to_map (scan A m) : gmap string A) = m.
Proof.
  assert (NoDup (scan A m).*1) as Hnd by (rewrite (Hscan A m); apply NoDup_fst_map_to_list).
  split; [done|]. rewrite <- (list_to_map_to_list m) at 2. by apply list_to_map_proper.
Qed.

(** Reconciliation treats every process on its own. *)
Lemma reconcile_lookup now d a id :
  ag_running (reconcile scan stat spawn ends now d a) !! id = reconciled d (ag_running a) id.
Proof.
  unfold reconcile. destruct (scan_map (desired_run d)) as [Hnd Hmap].
  assert (id ∈ RunningIDs scan a <-> is_Some (ag_running a !! id)) as Hids.
  { unfold RunningIDs. rewrite (Hscan _ (ag_running a)), list_elem_of_fmap. split.
    - intros ([i p] & -> & H). apply elem_of_map_to_list in H. by exists p.
    - intros [p H]. exists (id, p). split; [done|]. by apply elem_of_map_to_list. }
  assert (NoDup (RunningIDs scan a)) as Hrd by apply scan_map.
  assert (forall i, ag_running a !! i = None -> ag_running (foldl (stop_removed ends now (desired_run d)) a (RunningIDs scan a)) !! i = None) as Hnone.
  { intros i Hi. rewrite stops_lookup by done. rewrite Hi. by destruct (bool_decide _). }
  rewrite starts_lookup; [|done| |].
  - rewrite Hmap, explicit_lookup, stops_lookup by (done || apply Hnone). unfold reconciled.
    destruct (ag_running a !! id) as [p|] eqn:Ep.
    + destruct (desired_run d !! id) as [wl|] eqn:Ed.
      * by rewrite bool_decide_eq_false_2 by (by intros [_ ?]).
      * by rewrite bool_decide_eq_true_2 by (split; [by apply Hids|done]).
    + destruct (desired_run d !! id) as [wl|] eqn:Ed; [done|]. cbn. destruct (bool_decide _); apply stop_again_none.
  - apply Forall_forall. intros [i wl] H. rewrite (Hscan _ _) in H. apply elem_of_map_to_list in H. by apply desired_run_id in H.
  - intros i _ Hr. rewrite explicit_lookup by apply Hnone. rewrite (Hnone i Hr). apply stop_again_none.
Qed.
End Reconcile.

(** ** The agent follows the control plane *)

Section Follow.
Context (scan : forall A, gmap string A -> list (string * A)) (Hscan : scan_ok scan).
Context (stat : string -> option string) (spawn : DesiredWorkload -> result string Z).

Lemma desired_run_elem d id wl :
  NoDup (dw_ID <$> ds_Workloads d) ->
  desired_run d !! id = Some wl <-> wl ∈ ds_Workloads d /\ dw_ID wl = id /\ dw_Action wl = ActionRun.
Proof.
  unfold desired_run. induction (ds_Workloads d) as [|x l IH] using rev_ind; intros Hnd; [cbn; set_solver|].
  rewrite fmap_app in Hnd. apply NoDup_app in Hnd as (Hnd & Hx & _). specialize (IH Hnd). rewrite foldl_app. cbn [foldl].
  assert (forall w, w ∈ l -> dw_ID w <> dw_ID x) as Hdiff.
  { intros w Hw E. apply (Hx (dw_ID w)); [by apply list_elem_of_fmap_2|]. rewrite E. cbn. left. }
  rewrite elem_of_app, list_elem_of_singleton. case_bool_decide as Hr.
  - rewrite lookup_insert_Some, IH. naive_solver.
  - rewrite IH. naive_solver.
Qed.

(** A workload that the control plane wants to run on a node. *)
Definition plane_wants (nodeID : string) (c : CP) (id : string) : option WorkloadRow :=
  match cp_workloads c !! id with
  | Some w => if bool_decide (w_node_id w = Some nodeID) && occupies (w_status w) && bool_decide (desired_action (w_status w) = ActionRun)
              then Some w else None
  | None => None
  end.

Lemma desired_state_elem nodeID c wl :
  wl ∈ ds_Workloads (desired_state scan nodeID c) <->
  exists w, cp_workloads c !! dw_ID wl = Some w /\ w_node_id w = Some nodeID /\ occupies (w_status w) = true /\
            wl = mkDesired (dw_ID wl) (desired_action (w_status w)) (w_manifest w).
Proof.
  unfold desired_state. cbn [ds_Workloads]. rewrite list_elem_of_fmap. split.
  - intros ([i w] & -> & H). apply select_elem in H as [Hl HP]; [|done]. apply andb_true_iff in HP as [Hn Ho].
    apply bool_decide_eq_true in Hn. exists w. done.
  - intros (w & Hl & Hn & Ho & E). exists (dw_ID wl, w). split; [done|]. apply select_elem; [done|]. split; [done|].
    apply andb_true_iff. split; [by apply bool_decide_eq_true|done].
Qed.

Lemma desired_state_nodup nodeID c : NoDup (dw_ID <$> ds_Workloads (desired_state scan nodeID c)).
Proof.
  unfold desired_state. cbn [ds_Workloads]. rewrite <- list_fmap_compose.
  match goal with |- NoDup (?f <$> ?l) => change (f <$> l) with (l.*1) end.
  apply (scan_map scan Hscan).
Qed.

Lemma desired_run_state nodeID c id :
  desired_run (desired_state scan nodeID c) !! id = (fun w => mkDesired id ActionRun (w_manifest w)) <$> plane_wants nodeID c id.
Proof.
  apply option_eq. intros wl. rewrite desired_run_elem by apply desired_state_nodup. rewrite desired_state_elem.
  rewrite fmap_Some. unfold plane_wants. split.
  - intros ((w & Hl & Hn & Ho & E) & <- & Ha). exists w. rewrite Hl, (bool_decide_eq_true_2 _ Hn), Ho. rewrite E in Ha. cbn in Ha.
    rewrite (bool_decide_eq_true_2 _ Ha), <- Ha. done.
  - intros (w & Hw & ->). cbn. destruct (cp_workloads c !! id) as [w'|] eqn:El; [|done].
    destruct (_ && _ && _) eqn:Eb; [|done]. injection Hw as ->. apply andb_true_iff in Eb as [[Hn%bool_decide_eq_true Ho]%andb_true_iff Ha%bool_decide_eq_true].
    split; [|done]. exists w. by rewrite Ha.
Qed.

(** A workload of the node that is to be stopped. *)
Definition plane_stops (nodeID : string) (c : CP) (id : string) : bool :=
  match cp_workloads c !! id with Some w => bool_decide (w_node_id w = Some nodeID /\ w_status w = WStopping) | None => false end.

Lemma stop_orders_state nodeID c id :
  stop_orders (ds_Workloads (desired_state scan nodeID c)) id = if plane_stops nodeID c id then 1%nat else 0%nat.
Proof.
  unfold stop_orders, plane_stops. pose proof (desired_state_nodup nodeID c) as Hnd.
  pose proof (fun wl => desired_state_elem nodeID c wl) as Hel. revert Hnd Hel.
  generalize (ds_Workloads (desired_state scan nodeID c)) as l. intros l Hnd Hel.
  set (P := fun wl => dw_ID wl = id /\ dw_Action wl = ActionStop).
  assert (forall x y, x ∈ filter P l -> y ∈ filter P l -> x = y) as Huniq.
  { intros x y [[Ex _] Hx]%list_elem_of_filter [[Ey _] Hy]%list_elem_of_filter.
    apply Hel in Hx as (w & Hw & _ & _ & ->), Hy as (w' & Hw' & _ & _ & ->). rewrite Ex in *. rewrite Ey in *. by simplify_eq. }
  assert (NoDup (filter P l)) as Hndf by (apply NoDup_filter; by eapply NoDup_fmap_1).
  assert (forall wl, wl ∈ filter P l <-> exists w, cp_workloads c !! id = Some w /\ w_node_id w = Some nodeID /\ w_status w = WStopping /\
            wl = mkDesired id ActionStop (w_manifest w)) as Hin.
  { intros wl. rewrite list_elem_of_filter, Hel. unfold P. split.
    - intros ((<- & Ea) & w & Hw & Hn & Ho & E). exists w. rewrite E in Ea. cbn in Ea. rewrite Ea in E. split_and!; try done.
      destruct (w_status w); try done.
    - intros (w & Hw & Hn & Hst & ->). cbn. split; [done|]. exists w. by rewrite Hst. }
  destruct (cp_workloads c !! id) as [w|].
  - case_bool_decide as Hb.
    + destruct (filter P l) as [|x [|y r]]; [|done|].
      * exfalso. apply (not_elem_of_nil (mkDesired id ActionStop (w_manifest w))). apply Hin. exists w. by destruct Hb.
      * exfalso. apply NoDup_cons in Hndf as [Hx _]. apply Hx. rewrite (Huniq x y); [left|left|right; left].
    + destruct (filter P l) as [|x r]; [done|]. exfalso. destruct (proj1 (Hin x)) as (w' & [= <-] & Hn & Hst & _); [left|]. by apply Hb.
  - destruct (filter P l) as [|x r]; [done|]. exfalso. by destruct (proj1 (Hin x)) as (w' & ? & _); [left|].
Qed.
Lemma wanted_not_stopped nodeID c id : is_Some (plane_wants nodeID c id) -> plane_stops nodeID c id = false.
Proof.
  intros [w Hw]. unfold plane_wants, plane_stops in *. destruct (cp_workloads c !! id) as [w0|]; [|done].
  apply bool_decide_eq_false. intros [_ Est]. by rewrite Est, andb_false_r in Hw.
Qed.
End Follow.

(** [C27] The agent does what the control plane asks.  The agent reconciles with the desired
    state that the control plane computes for its node, in whatever order maps are
    iterated, and no process ends meanwhile that it does not stop.  Take a workload that is not
    checkpointing on that node; such a one is stopped, against the protocol.  A process that the control plane wants on
    this node, dispatched or running, is untouched.  Any other process has ended in the grace period
    of its stop, or it was sent both signals and is still there; one that is to be stopped explicitly
    is waited for a second time.  A workload that is wanted and had no process has
    the one that starting it gives, and none when a volume, the entrypoint or the
    start fails; nothing else runs.  Reconciling again with the same state, whatever the operating system
    answers then, leaves alone what runs and is wanted, and starts nothing that is not. *)
Theorem agent_follows_plane (scan : forall A, gmap string A -> list (string * A)) stat spawn ends stat' spawn' ends' now later nodeID c a :
  scan_ok scan ->
  let d := desired_state scan nodeID c in
  let a1 := reconcile scan stat spawn ends now d a in
  let a2 := reconcile scan stat' spawn' ends' later d a1 in
  forall id,
  (forall w, cp_workloads c !! id = Some w -> w_node_id w = Some nodeID -> w_status w <> WCheckpointing) ->
  ag_running a1 !! id =
    match ag_running a !! id, plane_wants nodeID c id with
    | Some p, Some _ => Some p
    | Some p, None => if plane_stops nodeID c id then stopped ends id p ≫= stopped ends id else stopped ends id p
    | None, Some w => startable stat spawn (ds_Volumes d) (mkDesired id ActionRun (w_manifest w))
    | None, None => None
    end /\
  match ag_running a1 !! id, plane_wants nodeID c id with
  | Some p, Some _ => ag_running a2 !! id = Some p
  | None, None => ag_running a2 !! id = None
  | _, _ => True
  end.
Proof.
  intros Hs d a1 a2 id _.
  assert (forall stat spawn ends now a, ag_running (reconcile scan stat spawn ends now d a) !! id =
    match ag_running a !! id, plane_wants nodeID c id with
    | Some p, Some _ => Some p
    | Some p, None => if plane_stops nodeID c id then stopped ends id p ≫= stopped ends id else stopped ends id p
    | None, Some w => startable stat spawn (ds_Volumes d) (mkDesired id ActionRun (w_manifest w))
    | None, None => None
    end) as Hr.
  { clear -Hs. intros stat spawn ends now a. rewrite reconcile_lookup by done. unfold reconciled. subst d.
    rewrite desired_run_state, stop_orders_state by done. destruct (ag_running a !! id) as [p|].
    - destruct (plane_wants nodeID c id) as [w|] eqn:Ew; cbn [fmap option_fmap option_map].
      + rewrite (wanted_not_stopped nodeID c id) by (by exists w). done.
      + by destruct (plane_stops nodeID c id).
    - by destruct (plane_wants nodeID c id). }
  split; [apply Hr|]. unfold a2. rewrite Hr. by destruct (ag_running a1 !! id), (plane_wants nodeID c id).
Qed.

(** ** Credentials *)

Lemma abs64_bound x : - 60000 <= x <= 60000 -> abs64 x <= 60000.
Proof. intros H. unfold abs64. destruct (Z.ltb_spec x 0); [rewrite i64_id by (unfold in_i64; lia)|]; lia. Qed.

Lemma dec_nonempty z : in_i64 z -> dec z <> "".
Proof. intros Hz E. apply ParseInt_dec in Hz. by rewrite E in Hz. Qed.

Lemma sign_accepted nodeID secret sent now body r c n :
  nodeID <> "" -> in_i64 sent -> - 60000 <= now - sent <= 60000 ->
  cp_nodes c !! nodeID = Some n -> DecodeString (n_node_secret_hash n) = Some secret ->
  verifyAuth now (sign nodeID secret sent body r) nodeID body c = None.
Proof.
  intros Hid Hsent Hw Hn Hsec. set (q := sign _ _ _ _ _).
  assert (q_node_id q = nodeID) as E1 by done. assert (q_timestamp q = dec sent) as E2 by done.
  assert (q_signature q = signature secret nodeID (dec sent) body) as E3 by done.
  unfold verifyAuth. rewrite E1, E2, E3. clear E1 E2 E3 q.
  rewrite (proj2 (String.eqb_neq _ _) Hid), (proj2 (String.eqb_neq _ _) (dec_nonempty sent Hsent)), String.eqb_refl.
  unfold signature at 1. rewrite (proj2 (String.eqb_neq _ _) (hmac_nonempty _ _)), ParseInt_dec by done. cbn [orb negb].
  rewrite i64_id by (unfold in_i64; lia). unfold replayWindowMs. pose proof (abs64_bound _ Hw).
  rewrite (proj2 (Z.ltb_ge 60000 _)), Hn, Hsec, String.eqb_refl by lia. done.
Qed.

Lemma insert_gpus_nodes uuid scan nodeID l c : cp_nodes (insert_gpus uuid scan nodeID l c).1 = cp_nodes c.
Proof.
  revert c. induction l as [|g l IH]; intros c; [done|]. cbn [insert_gpus]. unfold draw.
  destruct (_ || _); [done|]. rewrite IH. done.
Qed.

Lemma insertEvent_nodes uuid now n k i t p c : cp_nodes (insertEvent uuid now n k i t p c) = cp_nodes c.
Proof. unfold insertEvent. destruct (draw _ _) as [x y] eqn:E. unfold draw in E. injection E as _ <-. repeat case_match; done. Qed.

(** A registered agent is believed.  When the control plane answers a
    registration with credentials, the agent can use them: the secret it
    decodes signs requests that the control plane accepts, for every body, every
    route of its node and every clock within a minute of the control plane's.
    This holds when the random secrets are bytes and no generated id is empty. *)
Theorem registration_enables_agent uuid rand32 scan token decoders now r c c' resp :
  (forall k bs, rand32 k = Some bs -> byte_list bs) -> (forall k, uuid k <> "") ->
  handleRegister uuid rand32 scan token decoders now r c = (c', (201, ARegistered resp)) ->
  exists g, apply_registration resp = Some g /\
    (rg_heartbeat g, rg_inventory g, rg_desired g) = (30, 300, 15) /\
    forall sent later body r', in_i64 sent -> - 60000 <= later - sent <= 60000 ->
      verifyAuth later (sign (rg_id g) (rg_secret g) sent body r') (rg_id g) body c' = None.
Proof.
  intros Hrand Huuid H. unfold handleRegister in H.
  destruct (negb _); [done|]. destruct (readBody r) as [body|]; [|done]. destruct (ad_register decoders body) as [req|]; [|done].
  destruct (validateRegisterRequest req); [done|]. destruct (select scan _ _) as [|[? ?] ?]; [|done].
  unfold draw at 1 in H. cbn beta iota zeta in H. unfold newSecretHex in H.
  destruct (rand32 _) as [bs|] eqn:Er; cbn [fmap option_fmap option_map] in H; [|done]. destruct (bool_decide _); [done|].
  match type of H with (match insert_gpus _ _ ?n ?l ?x with _ => _ end = _) => pose proof (insert_gpus_nodes uuid scan n l x) as Hn end.
  destruct (insert_gpus _ _ _ _ _) as [c2 []]; [|done]. injection H as <- <-. cbn [fst] in Hn.
  unfold apply_registration, newClient. cbn [rg_NodeSecret]. rewrite hex_roundtrip by (by eapply Hrand). eexists. split; [reflexivity|].
  split; [done|]. intros sent later body' r' Hs Hw. cbn [rg_id rg_secret rg_NodeID]. eapply sign_accepted; [apply Huuid|done|done| |].
  - rewrite insertEvent_nodes. etrans; [exact (f_equal (fun m : gmap string NodeRow => m !! uuid (cp_drawn c)) Hn)|]. apply lookup_insert_eq.
  - cbn [n_node_secret_hash]. apply hex_roundtrip. by eapply Hrand.
Qed.

Definition idle_agent : Agent := mkAgent ∅ [] newHealthBuffer "u2" (replicate 32 7).

(** The agent of u2 starts the job that was scheduled there, once: later nothing would start. *)
Lemma agent_follows_plane_witness :
  let c := runs DemoPlane.world Open (DemoPlane.start ++ [SSchedule 3000]) in
  let d := desired_state (e_scan DemoPlane.world) "u2" c in
  let once := reconcile (e_scan DemoPlane.world) (fun _ => None) (fun _ => Ok 41) (fun _ _ => None) 3500 d idle_agent in
  ag_running once !! "u7" = Some (mkProc 41 false false) /\
  ag_running (reconcile (e_scan DemoPlane.world) (fun _ => Some "gone") (fun _ => Err "no") (fun _ _ => None) 3600 d once) !! "u7" =
    Some (mkProc 41 false false).
Proof.
  destruct (agent_follows_plane (e_scan DemoPlane.world) (fun _ => None) (fun _ => Ok 41) (fun _ _ => None)
              (fun _ => Some "gone") (fun _ => Err "no") (fun _ _ => None) 3500 3600 "u2"
              (runs DemoPlane.world Open (DemoPlane.start ++ [SSchedule 3000])) idle_agent DemoPlane.scan_valid "u7") as [H1 H2].
  { intros w Hw _ E. assert (w_status <$> cp_workloads (runs DemoPlane.world Open (DemoPlane.start ++ [SSchedule 3000])) !! "u7" = Some WDispatched) as Hs
      by (vm_compute; reflexivity). rewrite Hw in Hs. cbn in Hs. congruence. }
  assert (ag_running (reconcile (e_scan DemoPlane.world) (fun _ => None) (fun _ => Ok 41) (fun _ _ => None) 3500
    (desired_state (e_scan DemoPlane.world) "u2" (runs DemoPlane.world Open (DemoPlane.start ++ [SSchedule 3000]))) idle_agent) !! "u7"
    = Some (mkProc 41 false false)) as E1 by (rewrite H1; vm_compute; reflexivity).
  assert (match plane_wants "u2" (runs DemoPlane.world Open (DemoPlane.start ++ [SSchedule 3000])) "u7" with Some _ => true | None => false end = true) as Ew
    by (vm_compute; reflexivity).
  split; [exact E1|]. cbv zeta in H2. rewrite E1 in H2. destruct (plane_wants _ _ _); [exact H2|discriminate Ew].
Defined.

Lemma registration_enables_agent_witness :
  let boot := DemoPlane.request "POST" ["v1"; "nodes"; "register"] "Bearer boot" "register" in
  exists c' resp,
    handleRegister (e_uuid DemoPlane.world) (e_rand32 DemoPlane.world) (e_scan DemoPlane.world) "boot" DemoPlane.decoders
      1000 boot Open = (c', (201, ARegistered resp)) /\
    verifyAuth 2000 (sign "u0" (replicate 32 7) 1500 "ready" boot) "u0" "ready" c' = None.
Proof.
  eexists _, _. split; [vm_compute; reflexivity|].
  edestruct (registration_enables_agent (e_uuid DemoPlane.world) (e_rand32 DemoPlane.world) (e_scan DemoPlane.world) "boot" DemoPlane.decoders
    1000 (DemoPlane.request "POST" ["v1"; "nodes"; "register"] "Bearer boot" "register") Open) as (g & Hg & _ & H).
  - intros k bs [= <-]. repeat constructor; done.
  - done.
  - vm_compute. reflexivity.
  - vm_compute in Hg. injection Hg as <-. apply H; unfold in_i64; lia.
Defined.
