(* ===== verification/ComputeTheorems.v ===== *)
(** * The compute plane: scheduling

    Which node and which GPU a workload gets, what the tables hold after a
    dispatch, and what the fixed size of a batch does to the queue.

    Last: a request that changes the database carries the bootstrap token, a
    signature under the secret of the node it is about, or a token of an account
    that may write. *)
From Stdlib Require Import String.
From S2P Require Import Prelude GoStr GoFloat GoSort GoCrypto Compute ComputeAgentApi ComputeUserApi ComputeSpec ComputeRefine ComputeHistory ComputeDemo.
Open Scope list_scope.
Open Scope Z_scope.

Section BestFit.
Context (scan : forall A, gmap string A -> list (string * A)) (Hscan : scan_ok scan).

(** The head of a sorted selection is a row with the least key. *)
Lemma select_least {A} (P : string -> A -> bool) (key : string * A -> Z) (m : gmap string A) :
  match head (slice_stable (fun a b => key a <? key b) (select scan P m)) with
  | Some (k, a) => m !! k = Some a /\ P k a = true /\
      forall k' a', m !! k' = Some a' -> P k' a' = true -> key (k, a) <= key (k', a')
  | None => forall k a, m !! k = Some a -> P k a = false
  end.
Proof.
  destruct (slice_stable _ _) as [|[k a] l] eqn:E; cbn.
  - apply slice_stable_nil in E. intros k a Hk. apply not_true_iff_false. intros Hp.
    assert ((k, a) ∈ select scan P m) as Hin by (by apply select_elem). rewrite E in Hin. by apply not_elem_of_nil in Hin.
  - apply (slice_stable_head (fun a b => key a <? key b) (fun _ => True)) in E.
    + destruct E as [Hin Hbest]. apply (select_elem scan Hscan) in Hin as [Hk Hp]. split_and!; [done..|].
      intros k' a' Hk' Hp'. specialize (Hbest (k', a')). rewrite Z.ltb_ge in Hbest. apply Hbest. by apply (select_elem scan Hscan).
    + intros x y _ _. rewrite Z.ltb_lt, Z.ltb_ge. lia.
    + intros x y z _ _ _. rewrite !Z.ltb_ge. lia.
    + by apply Forall_forall.
Qed.
End BestFit.

Section Schedule.
Context (uuid : nat -> string) (scan : forall A, gmap string A -> list (string * A)) (Hscan : scan_ok scan).

Lemma findNode_best res c :
  match findNode scan res c with
  | Some id => exists n, cp_nodes c !! id = Some n /\ node_fits c res id n = true /\
      forall id' n', cp_nodes c !! id' = Some n' -> node_fits c res id' n' = true -> free_ram c id n <= free_ram c id' n'
  | None => forall id n, cp_nodes c !! id = Some n -> node_fits c res id n = false
  end.
Proof.
  unfold findNode. pose proof (select_least scan Hscan (node_fits c res) (fun kn => free_ram c kn.1 kn.2) (cp_nodes c)) as H.
  destruct (head _) as [[id n]|]; cbn in *; eauto.
Qed.

Lemma findFreeGPU_best nodeID min c :
  match findFreeGPU scan nodeID min c with
  | Some (g, vram) => exists row, cp_gpus c !! g = Some row /\ gpu_fits nodeID min row = true /\ vram = g_vram_mb row /\
      forall g' row', cp_gpus c !! g' = Some row' -> gpu_fits nodeID min row' = true -> g_vram_mb row <= g_vram_mb row'
  | None => forall g row, cp_gpus c !! g = Some row -> gpu_fits nodeID min row = false
  end.
Proof.
  unfold findFreeGPU. pose proof (select_least scan Hscan (fun _ => gpu_fits nodeID min) (fun kn => g_vram_mb kn.2) (cp_gpus c)) as H.
  destruct (head _) as [[g row]|]; cbn in *; [|eauto]. destruct H as (H1 & H2 & H3). eauto.
Qed.

(** What a dispatch writes. *)
Definition reserved_for (now : Z) (pw : pendingWork) (nodeID : string) (gpu : option (string * Z)) : Reservation :=
  let res := wm_Resources (pw_manifest pw) in
  mkReservation nodeID (pw_id pw) (rs_CPUMillicores res) (rs_RAMMb res) (fst <$> gpu) (default 0 (snd <$> gpu)) RReserved now None.

Definition dispatched (now : Z) (nodeID : string) (w : WorkloadRow) : WorkloadRow :=
  w {{ w_status := WDispatched }} {{ w_node_id := Some nodeID }} {{ w_scheduled_at := Some now }}
    {{ w_queued_at := match w_queued_at w with Some t => Some t | None => Some now end }}.

Definition claim (id : string) (vram : Z) (row : GPURow) : GPURow :=
  row {{ g_workload_id := Some id }} {{ g_vram_reserved := vram }}.

Lemma dispatch_result now pw nodeID gpu c w :
  cp_workloads c !! pw_id pw = Some w -> pending_status (w_status w) = true ->
  cp_reservations c !! uuid (cp_drawn c) = None ->
  let '(c', out) := dispatch uuid now pw nodeID gpu c in
  out = Ok true /\ cp_nodes c' = cp_nodes c /\
  cp_workloads c' = <[pw_id pw := dispatched now nodeID w]> (cp_workloads c) /\
  cp_reservations c' = <[uuid (cp_drawn c) := reserved_for now pw nodeID gpu]> (cp_reservations c) /\
  cp_gpus c' = match gpu with Some (g, vram) => alter (claim (pw_id pw) vram) g (cp_gpus c) | None => cp_gpus c end.
Proof.
  intros Hw Hp Hr. unfold dispatch. destruct (draw uuid c) as [rid c0] eqn:Ed.
  assert (rid = uuid (cp_drawn c)) as -> by (by injection Ed).
  assert (core c0 = core c) as (En & Eg & Ew & Er)%core_frame by (rewrite <- (draw_core uuid c), Ed; done).
  rewrite bool_decide_eq_false_2 by (rewrite Er, Hr; by intros []). rewrite Ew, Hw, Hp. split; [done|].
  match goal with |- context [insertEvent uuid ?a ?b ?d ?e ?f ?g ?c3] =>
    pose proof (core_frame _ _ (insertEvent_core uuid a b d e f g c3)) as (I1 & I2 & I3 & I4) end.
  rewrite I1, I2, I3, I4. destruct c0. cbn in *. subst. by destruct gpu as [[g vram]|].
Qed.

(** A node chosen for its GPU has one. *)
Lemma chosen_has_gpu c res id n :
  node_fits c res id n = true -> rs_GPUCount res = 1 -> findFreeGPU scan id (rs_GPUVRAMMb res) c <> None.
Proof.
  unfold node_fits. intros H E Hno. rewrite E in H. cbn in H. apply andb_prop in H as [_ H].
  apply existsb_exists in H as ([g row] & Hin%list_elem_of_In%elem_of_map_to_list & Hf). cbn in Hf.
  pose proof (findFreeGPU_best id (rs_GPUVRAMMb res) c) as Hb. rewrite Hno in Hb. by rewrite (Hb g row Hin) in Hf.
Qed.
End Schedule.

(** Best fit.  A pending workload that asks for at most one GPU is
    dispatched exactly when some node fits it: one that accepts work, has the
    cores and the memory free and, if asked for, a healthy free GPU with enough
    memory.  The node is one with the least free memory among those that fit,
    the GPU one with the least memory among those of the node that fit; the
    tables then hold the dispatched workload, its reservation and its claim on
    the GPU, and nothing else changes in them.  If no node fits, the database
    is untouched. *)
Theorem schedule_best_fit (uuid : nat -> string) (scan : forall A, gmap string A -> list (string * A))
    (now : Z) (pw : pendingWork) (c : CP) (w : WorkloadRow) :
  scan_ok scan ->
  cp_workloads c !! pw_id pw = Some w -> pending_status (w_status w) = true ->
  cp_reservations c !! uuid (cp_drawn c) = None ->
  let res := wm_Resources (pw_manifest pw) in
  0 <= rs_GPUCount res <= 1 ->
  let '(c', out) := scheduleOne uuid scan now pw c in
  ((forall id n, cp_nodes c !! id = Some n -> node_fits c res id n = false) /\ out = Ok false /\ c' = c) \/
  exists nodeID n gpu,
    cp_nodes c !! nodeID = Some n /\ node_fits c res nodeID n = true /\
    (forall id' n', cp_nodes c !! id' = Some n' -> node_fits c res id' n' = true -> free_ram c nodeID n <= free_ram c id' n') /\
    out = Ok true /\ cp_nodes c' = cp_nodes c /\
    cp_workloads c' = <[pw_id pw := dispatched now nodeID w]> (cp_workloads c) /\
    cp_reservations c' = <[uuid (cp_drawn c) := reserved_for now pw nodeID gpu]> (cp_reservations c) /\
    match gpu with
    | None => rs_GPUCount res = 0 /\ cp_gpus c' = cp_gpus c
    | Some (g, vram) => rs_GPUCount res = 1 /\ exists row, cp_gpus c !! g = Some row /\
        gpu_fits nodeID (rs_GPUVRAMMb res) row = true /\ vram = g_vram_mb row /\
        (forall g' row', cp_gpus c !! g' = Some row' -> gpu_fits nodeID (rs_GPUVRAMMb res) row' = true -> g_vram_mb row <= g_vram_mb row') /\
        cp_gpus c' = <[g := claim (pw_id pw) vram row]> (cp_gpus c)
    end.
Proof.
  intros Hs Hw Hp Hr res Hg. unfold scheduleOne. fold res. rewrite (proj2 (Z.ltb_ge 1 (rs_GPUCount res))) by lia.
  pose proof (findNode_best scan Hs res c) as Hn. destruct (findNode scan res c) as [nodeID|]; [|by left].
  destruct Hn as (n & Hid & Hfit & Hbest).
  destruct (Z.eqb_spec (rs_GPUCount res) 1) as [E1|].
  - pose proof (chosen_has_gpu scan Hs c res nodeID n Hfit E1) as Hsome.
    pose proof (findFreeGPU_best scan Hs nodeID (rs_GPUVRAMMb res) c) as Hb.
    destruct (findFreeGPU _ _ _ _) as [[g vram]|]; [|done]. destruct Hb as (row & Hrow & Hf & Hv & Hmin).
    pose proof (dispatch_result uuid now pw nodeID (Some (g, vram)) c w Hw Hp Hr) as Hd.
    destruct (dispatch _ _ _ _ _ _) as [c' out]. destruct Hd as (-> & D1 & D2 & D3 & D4).
    right. exists nodeID, n, (Some (g, vram)). split_and!; try done. exists row. split_and!; try done.
    rewrite D4. by apply alter_lookup.
  - pose proof (dispatch_result uuid now pw nodeID None c w Hw Hp Hr) as Hd.
    destruct (dispatch _ _ _ _ _ _) as [c' out]. destruct Hd as (-> & D1 & D2 & D3 & D4).
    right. exists nodeID, n, None. split_and!; try done. lia.
Qed.

(** The head of the queue blocks it.  When the workloads of a batch, the
    first sixteen by priority and time, all ask for more than one GPU, which
    validation allows, no tick of the scheduler ever dispatches anything, however
    many nodes are free and whatever waits behind them. *)
Theorem queue_head_blocks (uuid : nat -> string) (scan : forall A, gmap string A -> list (string * A)) (c : CP) :
  Forall (fun pw => 1 < rs_GPUCount (wm_Resources (pw_manifest pw))) (pending_batch scan c) ->
  forall ticks, foldl (fun c now => scheduleBatch uuid scan now c) c ticks = c.
Proof.
  intros Hall. assert (forall now, scheduleBatch uuid scan now c = c) as Hone.
  { intros now. unfold scheduleBatch. induction Hall as [|pw l Hp _ IH]; [done|]. cbn. unfold scheduleOne at 2.
    rewrite (proj2 (Z.ltb_lt 1 _)) by done. exact IH. }
  induction ticks as [|now ticks IH]; [done|]. cbn. by rewrite Hone.
Qed.

(** ** Witnesses and behaviours of the worked control plane *)

Import DemoPlane.
Open Scope string_scope.

Lemma capacity_respected_witness :
  exists n, cp_nodes (runs world Open history) !! "u2" = Some n /\
    used r_cpu_mcores "u2" (runs world Open history) = 2000 /\
    used r_cpu_mcores "u2" (runs world Open history) <= n_cpu_cores n * 1000.
Proof.
  assert (along world (no_shrink world) Open history) as Ha.
  { apply (alongb_sound _ (no_shrinkb world)); [apply no_shrinkb_sound|]. vm_compute. reflexivity. }
  assert (exists n, cp_nodes (runs world Open history) !! "u2" = Some n) as [n Hn].
  { eexists. vm_compute. reflexivity. }
  destruct (capacity_respected world history scan_valid Ha "u2" n Hn) as [H1 _]. exists n.
  split; [exact Hn|]. split; [vm_compute; reflexivity|exact H1].
Defined.

Lemma schedule_best_fit_witness :
  exists nodeID n, cp_nodes (runs world Open start) !! nodeID = Some n /\
    (scheduleOne (e_uuid world) (e_scan world) 3000
       (mkPending "u7" "u0" (manifest (spec 2000 4096 1 8192)) 50) (runs world Open start)).2 = Ok true.
Proof.
  assert (exists w, cp_workloads (runs world Open start) !! "u7" = Some w /\ pending_status (w_status w) = true) as (w & Hw & Hp).
  { eexists. split; vm_compute; reflexivity. }
  pose proof (schedule_best_fit (e_uuid world) (e_scan world) 3000 (mkPending "u7" "u0" (manifest (spec 2000 4096 1 8192)) 50)
    (runs world Open start) w scan_valid Hw Hp) as H.
  specialize (H ltac:(vm_compute; reflexivity) ltac:(cbn; lia)).
  destruct (scheduleOne _ _ _ _ _) as [c' out]. destruct H as [(Hno & _)|(nodeID & n & gpu & Hn & _ & _ & -> & _)]; [|exists nodeID, n; exact (conj Hn eq_refl)].
  assert (exists n, cp_nodes (runs world Open start) !! "u2" = Some n /\
    node_fits (runs world Open start) (wm_Resources (manifest (spec 2000 4096 1 8192))) "u2" n = true) as (n & Hn & Hf).
  { eexists. split; vm_compute; reflexivity. }
  specialize (Hno "u2" n Hn). discriminate (eq_trans (eq_sym Hno) Hf).
Defined.

(** Sixteen workloads that ask for two GPUs, then the job, with both nodes up. *)
Definition blocked : CP :=
  runs world Open (start ++ replicate 16 (ann 2600 "POST" ["v1"; "workloads"] "multi")).

Lemma queue_head_blocks_witness :
  (exists w, cp_workloads blocked !! "u7" = Some w /\ pending_status (w_status w) = true) /\
  foldl (fun c now => scheduleBatch (e_uuid world) (e_scan world) now c) blocked [3000; 8000; 13000] = blocked.
Proof.
  split; [eexists; split; vm_compute; reflexivity|]. apply queue_head_blocks.
  vm_compute. repeat constructor.
Defined.

(** * Who may write *)

Open Scope list_scope.
Open Scope string_scope.
Open Scope Z_scope.

(** The node of the path signed the body at a time close to [now]. *)
Definition signed_by (now : Z) (r : Request) (nodeID : string) (c : CP) : Prop :=
  exists n secret body ts,
    cp_nodes c !! nodeID = Some n /\ DecodeString (n_node_secret_hash n) = Some secret /\
    q_node_id r = nodeID /\ readBody r = Ok body /\
    ParseInt (q_timestamp r) 64 = Some ts /\ abs64 (i64 (now - ts)) <= replayWindowMs /\
    q_signature r = signature secret nodeID (q_timestamp r) body.

Definition writer (role : string) : bool := one_of role ["operator"; "project"; "user"; "service"].

Definition account_of (E : World) (now : Z) (r : Request) (claims : ocelotClaims) : Prop :=
  String.prefix "Bearer " (q_authorization r) = true /\
  e_jwt_hmac E (TrimPrefix "Bearer " (q_authorization r)) = true /\
  e_jwt_verify E (e_jwtSecret E) now (TrimPrefix "Bearer " (q_authorization r)) = Some claims.

Definition authenticated (E : World) (now : Z) (r : Request) (c : CP) : Prop :=
  verifyBootstrap (e_bootstrapToken E) r = true \/
  (exists nodeID what, q_path r = ["v1"; "nodes"; nodeID; what] /\ signed_by now r nodeID c) \/
  (exists claims, account_of E now r claims /\ writer (cl_Role claims) = true).

Lemma verifyAuth_signed now r nodeID body c :
  readBody r = Ok body -> verifyAuth now r nodeID body c = None -> signed_by now r nodeID c.
Proof.
  intros Hb. unfold verifyAuth. destruct (_ || _); [done|]. destruct (String.eqb_spec (q_node_id r) nodeID) as [Eid|]; [|done].
  destruct (ParseInt _ _) as [ts|] eqn:Ets; [|done]. cbn [negb]. destruct (_ <? _) eqn:Ew; [done|]. apply Z.ltb_ge in Ew.
  destruct (cp_nodes c !! nodeID) as [n|] eqn:Hn; [|done]. destruct (DecodeString _) as [secret|] eqn:Hs; [|done].
  destruct (String.eqb_spec (q_signature r) (signature secret nodeID (q_timestamp r) body)) as [Es|]; [|done].
  intros _. exists n, secret, body, ts. done.
Qed.

Lemma signed_body now r nodeID c body : readSignedBody now r nodeID c = Ok body -> signed_by now r nodeID c.
Proof.
  unfold readSignedBody. destruct (readBody r) as [b|] eqn:Hb; [|done]. destruct (verifyAuth now r nodeID b c) eqn:Ha; [done|].
  intros _. by eapply verifyAuth_signed.
Qed.

Lemma match_lit s pat path v : match_path (Lit s :: pat) path = Some v -> exists rest, path = s :: rest /\ match_path pat rest = Some v.
Proof. destruct path as [|x path]; [done|]. cbn [match_path]. destruct (String.eqb_spec s x) as [->|]; [eauto|done]. Qed.

Lemma match_wild pat path v : match_path (Wild :: pat) path = Some v -> exists rest u, path = v :: rest /\ match_path pat rest = Some u.
Proof. destruct path as [|x path]; [done|]. cbn [match_path]. destruct (match_path pat path) as [u|] eqn:E; [|done]. intros [= ->]. exists path, u. done. Qed.

Lemma path_node r id what :
  match_path [Lit "v1"; Lit "nodes"; Wild; Lit what] (q_path r) = Some id -> q_path r = ["v1"; "nodes"; id; what].
Proof.
  intros (l1 & -> & (l2 & -> & (l3 & u & -> & (l4 & -> & H)%match_lit)%match_wild)%match_lit)%match_lit. by destruct l4.
Qed.

Lemma protect_writes E next allowed now r c :
  (forall role, one_of role allowed = true -> writer role = true) -> allowed <> [] ->
  (protect (e_jwtSecret E) (e_jwt_hmac E) (e_jwt_verify E) next allowed now r c).1 = c \/ authenticated E now r c.
Proof.
  intros Hw Hne. unfold protect. destruct (String.prefix _ _) eqn:Ep; cbn [negb]; [|by left].
  destruct (e_jwt_hmac E _) eqn:Eh; [|by left]. destruct (e_jwt_verify E _ _ _) as [claims|] eqn:Ev; [|by left].
  destruct (one_of (cl_Role claims) allowed) eqn:Er.
  - right. right. right. exists claims. split; [done|]. by apply Hw.
  - left. destruct allowed; [done|]. cbn [negb andb]. unfold len. rewrite (proj2 (Z.ltb_lt _ _)) by (cbn; lia). done.
Qed.

Lemma protect_reads (E : World) next allowed now r c :
  (forall claims, (next claims r c).1 = c) ->
  (protect (e_jwtSecret E) (e_jwt_hmac E) (e_jwt_verify E) next allowed now r c).1 = c.
Proof. intros Hn. unfold protect. destruct (negb _); [done|]. destruct (if e_jwt_hmac E _ then _ else _); [|done]. by destruct (_ && _). Qed.

Lemma serve_writes (P : Prop) routes r c :
  Forall (fun rt => forall id, match_path (rt_pattern rt) (q_path r) = Some id -> (rt_handler rt id r c).1 = c \/ P) routes ->
  (serve routes r c).1 = c \/ P.
Proof.
  intros Hall. unfold serve. destruct (find _ _) as [rt|] eqn:E.
  - apply find_some in E as [Hin%list_elem_of_In E]. apply andb_prop in E as [_ E]. unfold path_matches in E.
    destruct (match_path _ _) eqn:Em; [|done]. rewrite Forall_forall in Hall. by apply (Hall rt Hin).
  - left. by destruct (existsb _ _).
Qed.

(** A handler that needs the bootstrap token, or a signature. *)
Ltac boot_case := destruct (verifyBootstrap _ _) eqn:?; [right; by left|by left].

Lemma signed_case E now r c id what c' :
  match_path [Lit "v1"; Lit "nodes"; Wild; Lit what] (q_path r) = Some id ->
  (forall e, readSignedBody now r id c = Err e -> c' = c) -> c' = c \/ authenticated E now r c.
Proof.
  intros Hm Hc. destruct (readSignedBody now r id c) as [body|e] eqn:Hs; [|left; by eapply Hc].
  right. right. left. exists id, what. split; [by apply path_node|]. by eapply signed_body.
Qed.

(** [C26] Every write of the control plane is authenticated.  If a request
    changes the database, it carries the bootstrap token, or its path names a
    node whose stored secret signs the node, the timestamp and the body, with a
    timestamp inside the replay window, or its bearer token verifies for an
    account whose role is operator, project, user or service: an auditor or a
    stranger changes nothing. *)
Theorem writes_authenticated (E : World) (now : Z) (r : Request) (c : CP) :
  (answer E now r c).1 = c \/ authenticated E now r c.
Proof.
  assert (forall role, one_of role ["operator"] = true -> writer role = true) as Hop.
  { intros role. unfold writer, one_of. cbn. rewrite orb_false_r. by intros ->. }
  assert (forall role, one_of role ["operator"; "project"; "service"] = true -> writer role = true) as Hart.
  { intros role. unfold writer, one_of. cbn [existsb]. rewrite !orb_true_iff. tauto. }
  apply serve_writes. unfold agent_routes, auth_routes, workload_routes, node_routes, artifact_routes, event_routes.
  cbn [app]. repeat (apply Forall_cons; split); try apply Forall_nil; try done; cbn [rt_handler rt_pattern agent fst]; intros id Hm;
    try (apply protect_writes; [first [exact Hop|exact Hart|done]|done]); try (left; apply protect_reads; intros claims).
  - unfold handleRegister. boot_case.
  - unfold handleReregister. boot_case.
  - eapply signed_case; [exact Hm|]. intros e. unfold handleHeartbeat. by intros ->.
  - eapply signed_case; [exact Hm|]. intros e. unfold handleInventory. by intros ->.
  - left. apply desired_same.
  - eapply signed_case; [exact Hm|]. intros e. unfold handleHealth. by intros ->.
  - eapply signed_case; [exact Hm|]. intros e. unfold handleMetrics. by intros ->.
  - left. apply handleLogin_same.
  - unfold handleCreateOrg. boot_case.
  - unfold handleCreateAccount. boot_case.
  - apply list_workloads_same.
  - apply get_workload_same.
  - done.
  - apply get_node_same.
  - done.
  - apply get_artifact_same.
  - apply list_events_same.
  - by left.
Qed.
