(* ===== verification/ComputeLimits.v ===== *)
(** * The compute plane: runs that show its limits

    Concrete runs of the control plane, alone and together with an agent, on the
    small world of [DemoPlane].  Each shows behaviour that the guards of the
    handlers allow although the rest of the code, its comments or its
    documentation work against it.  They also delimit the general theorems: the
    hypotheses of [capacity_respected] and [live_workloads_reserved] are the ones
    these runs break. *)
From Stdlib Require Import String.
From S2P Require Import Prelude GoStr GoFloat GoSort GoCrypto Compute ComputeAgentApi ComputeUserApi ComputeAgent ComputeSpec ComputeRefine ComputeHistory ComputeDemo ComputeAgentSpec.
Open Scope list_scope.
Open Scope string_scope.
Open Scope Z_scope.

Definition status_of (id : string) (c : CP) : option WorkloadStatus := w_status <$> cp_workloads c !! id.
Definition owner_of (gpu : string) (c : CP) : option (option string) := g_workload_id <$> cp_gpus c !! gpu.
Definition node_status (id : string) (c : CP) : option Status := n_status <$> cp_nodes c !! id.

Definition after (l : list Step) : CP := runs DemoPlane.world Open (DemoPlane.start ++ l)%list.
Definition running_job : list Step := [SSchedule 3000; DemoPlane.signed 4000 "u2" "health" "started"].
Definition op (now : Z) (method : string) (path : list string) : Step :=
  SRequest now (DemoPlane.request method path "Bearer op" "").

(** A report by a node that does not run the workload frees what it holds: the
    job u7 is running on u2 with the GPU u3; after u5 reports that u7 failed, the
    job is still running there and the device is free for the next job. *)
Example foreign_report_frees :
  let before := after running_job in
  let c := after (running_job ++ [DemoPlane.signed 4500 "u5" "health" "failed"])%list in
  status_of "u7" before = Some WRunning /\ owner_of "u3" before = Some (Some "u7") /\
  status_of "u7" c = Some WRunning /\ owner_of "u3" c = Some None.
Proof. vm_compute. done. Qed.

(** Cancelling a workload that is dispatched and not yet started keeps what it
    reserved, and nothing releases it later: the agent stops running it without
    having started it. *)
Example cancel_keeps_reservation :
  let c := after [SSchedule 3000; DemoPlane.ann 3500 "DELETE" ["v1"; "workloads"; "u7"] "";
                  STimeouts 999999999; SNodes 5000 90000; SSchedule 6000] in
  status_of "u7" c = Some WCancelled /\ owner_of "u3" c = Some (Some "u7").
Proof. vm_compute. done. Qed.

(** The next heartbeat of a node undoes a drain, and brings a node that was
    declared dead back. *)
Example heartbeat_undoes_drain :
  let c := after [op 3000 "POST" ["v1"; "nodes"; "u2"; "drain"]] in
  let c' := after [op 3000 "POST" ["v1"; "nodes"; "u2"; "drain"]; DemoPlane.signed 3500 "u2" "heartbeat" "ready"] in
  node_status "u2" c = Some StatusDraining /\ node_status "u2" c' = Some StatusReady.
Proof. vm_compute. done. Qed.

Example heartbeat_revives_dead :
  let c := after [op 3000 "DELETE" ["v1"; "nodes"; "u2"]] in
  let c' := after [op 3000 "DELETE" ["v1"; "nodes"; "u2"]; DemoPlane.signed 3500 "u2" "heartbeat" "ready"] in
  node_status "u2" c = Some StatusDead /\ node_status "u2" c' = Some StatusReady.
Proof. vm_compute. done. Qed.

(** A late report that a job has started makes a finished job run again without
    a reservation. *)
Example late_start_revives :
  let c := after (running_job ++ [DemoPlane.signed 4200 "u2" "health" "completed"; DemoPlane.signed 4300 "u2" "health" "started"])%list in
  status_of "u7" c = Some WRunning /\ owner_of "u3" c = Some None.
Proof. vm_compute. done. Qed.

(** ** Agent and control plane together *)

(** The agent of u2 while it runs u7 under the pid 77. *)
Definition busy_agent : Agent := mkAgent {[ "u7" := mkProc 77 false false ]} [] newHealthBuffer "u2" (replicate 32 7).

(** The control plane after a cancellation. *)
Definition cancelled : CP := after (running_job ++ [DemoPlane.ann 4500 "DELETE" ["v1"; "workloads"; "u7"] ""])%list.

(** The agent stops the process, which the signal ends, and reports. *)
Definition terminated (id : string) (p : Proc) : option WaitResult := Some (ExitCode (-1) "signal: terminated").
Definition stopped_agent : Agent :=
  reconcile (e_scan DemoPlane.world) (fun _ => None) (fun _ => Ok 78) terminated 4600
    (desired_state (e_scan DemoPlane.world) "u2" cancelled) busy_agent.

Definition stop_report : list HealthEvent :=
  match (on_event 4800 true stopped_agent).1 with Some req => hr_Events req | None => [] end.

(** A cancelled job runs again.  The agent reports "stopped" and then "failed"
    for the process it killed; the first completes the workload, the second
    fails it, and a workload that may be retried is queued again and scheduled. *)
Example cancelled_job_runs_again :
  let told := foldl (applyHealthEvent (e_uuid DemoPlane.world) 4800 "u2") cancelled stop_report in
  status_of "u7" cancelled = Some WStopping /\ ag_running stopped_agent !! "u7" = None /\
  (he_Kind <$> stop_report) = [EventStopped; EventFailed] /\
  status_of "u7" told = Some WQueued /\
  status_of "u7" (run DemoPlane.world told (SSchedule 5000)) = Some WDispatched.
Proof. vm_compute. done. Qed.

(** A checkpoint stops the job: the agent only knows "run" as a reason to let a
    process live. *)
Example checkpoint_stops_job :
  let d := mkDesiredState 1 [mkDesired "u7" ActionCheckpoint (DemoPlane.manifest (DemoPlane.spec 1 1 0 0))] [] in
  ag_running (reconcile (e_scan DemoPlane.world) (fun _ => None) (fun _ => Ok 78) terminated 4600 d busy_agent) !! "u7" = None.
Proof. vm_compute. done. Qed.
